(* ===== verification/_CoqProject ===== *)
-Q . S2P
Prelude.v
JsValues.v
ValueObjects.v
Dates.v
AggregateRoot.v
EventCodec.v
Samples.v
Goal.v
Project.v
Sharing.v
SyncServer.v
EventStoreCore.v
JsonText.v
Base64Url.v
Crypto.v
RecordCodec.v
LocalDb.v
EventStore.v
PendingRewriter.v
Materializer.v
SyncEngine.v
SyncSystem.v
Application.v
Keyring.v
EventAdapters.v
Snapshots.v
Repository.v
GoalRepository.v
ProjectRepository.v
CommandHandler.v
GoalCommands.v
ProjectCommands.v
Saga.v
DependencyGraph.v
Outbox.v
DerivedState.v
ProjectionRuntime.v
ReadModels.v
Projectors.v
GoalProjection.v
ProjectProjection.v
Publisher.v
SharingVerification.v
SharingServer.v
SharingSystem.v
Sqlite.v
DbWorker.v
DbClient.v
KeyService.v
SagaStore.v
SyncLoops.v
KeyStore.v
