(* ===== verification/Prelude.v ===== *)
(** * mo-local: a verification library (root file)

    mo-local is a local-first goal tracker.  Every device keeps an encrypted
    event log in SQLite; aggregates (goals, projects, sharing scopes and
    grants) are rebuilt from their events; a sync engine exchanges the
    encrypted events with a backend that orders them.  This library models
    that path in TypeScript's own terms and proves what makes it correct.

    ** The parts and where they are modelled

    - Foundations.  This file: results, exceptions and mutable state ([result],
      [js]), transactions, tactics.  [JsValues]: numbers, strings, JSON values
      and the insertion-ordered map; [JsonText]: JSON text and UTF-8, all of the
      language runtime.
    - The domain (packages/domain).  [ValueObjects] (Assert.ts and the value
      objects), [Dates] (Month, LocalDate, Timestamp), [AggregateRoot] (apply,
      replay, versions, over the class [EventSourced]), [Goal], [Project],
      [Sharing] (Scope, ResourceGrant): one definition per command, event
      handler, snapshot and event specification.
    - Event codecs (packages/infrastructure/src/eventing).  [EventCodec]: field
      specifications, registry, migrations; [RecordCodec]: sync records, event
      envelopes, associated data; [Base64Url]; [Crypto]: payload encryption over
      AES-GCM as a parameter, behind the class [CryptoServicePort].
    - The device (packages/eventstore-core, eventstore-web, infrastructure,
      sync-engine).  [EventStoreCore] (cursors), [LocalDb] (tables, constraints,
      statements), [EventStore] (append with optimistic concurrency, read),
      [PendingRewriter] and [Materializer] (each a class the sync engine uses,
      with its laws, and the instance that implements it), [SyncEngine] (pull,
      push, conflicts, application of remote events, status and backoff),
      [SyncLoops] (the background loops of SyncEngine.ts: start, stop, signals,
      timers, runs that interleave).
    - The database worker (packages/eventstore-web).  [Sqlite] (sqlite.ts and
      schema.ts over wa-sqlite, the class [WaSqlite]: statements, batches, schema,
      backup files, table names), [DbWorker] (owner.worker.ts: hellos, store lock,
      requests, notifications; tabs that interleave), [DbClient] (client.ts,
      index.ts).
    - The key service (packages/key-service-web).  [KeyService]: the worker over
      the Rust service (the class [KeyServiceWasm]), its store, its client, passkeys.
    - Keys and stored aggregates (packages/infrastructure).  [Application] (the
      state of a device: database, key store, keyrings, idempotency table, random
      source; commands and their parsing), [Keyring] (Keyring.ts,
      KeyringManager.ts, AggregateKeyManager.ts), [EventAdapters] (domain events
      to encrypted rows and back), [Snapshots] (codecs and table), [Repository]
      (what GoalRepository.ts and ProjectRepository.ts share, over the class
      [StoredAggregate]), [GoalRepository], [ProjectRepository].
      [KeyStore]: the key store of the browser (IndexedDBKeyStore.ts), its backup,
      and the commands of packages/application/src/identity.
    - Commands (packages/application).  [CommandHandler] (the steps every handler
      takes, over the class [RepositoryPort] with its laws [RepositoryLaws]),
      [GoalCommands], [ProjectCommands] (one handler per command, the command
      buses), [Saga] (GoalAchievementSaga.ts and its wiring to the goals' bus),
      [SagaStore] (SqliteGoalAchievementSagaStore.ts, which implements its port).
    - What is shown (packages/infrastructure: platform/derived-state, goals,
      projects).  [DerivedState] (tables, task runner), [ProjectionRuntime]
      (batches, cursor, rebuilds, over any processor that keeps the laws
      [Projects]), [ReadModels] (the step of an event on a snapshot, totals),
      [Projectors] (snapshots and search index in memory and at rest, shared by
      goals and projects), [GoalProjection], [ProjectProjection] (the two
      processors and read models).
    - Publication of events.  [Publisher]: the event bus, the publisher of
      committed events, the saga's subscription and seeding, the order in which
      the application starts them (apps/web).
    - The outbox of sharing artifacts (packages/infrastructure/src/sharing).
      [DependencyGraph] (topological order), [Outbox] (table, push, missing
      dependencies).
    - Verification of sharing artifacts, in the same package.
      [SharingVerification]: the caches of verified scope states and grants, the
      signed manifests, the checks a scope state and an event go through; the
      platform's encoder, hash and signatures are the class [ManifestPlatform].
    - The backend (apps/api/src/sync).  [SyncServer]: controller, service,
      repositories and rows; the specification is one list of events per owner
      and store ([SyncSpec]), which the handlers refine.
    - The sharing backend (apps/api/src/sharing).  [SharingServer]: repositories
      of scope states, grants, key vaults and envelopes, as transactions that
      check first and write last and interleave, their streams and pages,
      invitations; PostgreSQL's conversions are the class [Postgres].
    - The whole.  [SyncSystem] puts a device's engine and the backend together
      through the HTTP transport; [SharingSystem] gives the sync service the
      sharing repositories and a device the states of the backend's streams.

    ** What the theorems show

    - [SyncServerProperties]: push, pull and reset implement the log
      specification; the tables' invariant over any requests; idempotent pushes;
      complete paging; isolation of owners.
    - [SyncSystemProperties]: a device in step with a prefix of the log pulls
      the rest and publishes its pending events; and the way a failed pull
      followed by a push loses events for good.
    - [EngineProperties], [RewriterProperties], [EventStoreProperties],
      [MaterializerProperties]: no run loses a local event; version collisions
      need one rewrite; rewriting is all or nothing; appends are atomic and
      check versions.
    - [SyncLoopsProperties]: when a start waits for the loops of the last one,
      the loops miss no signal, whatever is called from outside; a second start
      during a backoff hangs the page; a refused pull is given up.  [RunOutcomes] ties the ends of runs to [SyncEngine].
    - [SqliteProperties], [ServerProperties], [Locks], [Hellos], [ClientSystem]:
      batches are atomic, backups restore, every request is answered once,
      writes are notified exactly, one worker serves a store, promises get the
      worker's answers; and the race of two hellos.  [KeyServiceProperties]:
      secrets are wiped; a crash leaves the vault as it was after a first part of
      the messages, short of at most the one change answered before its
      transaction ended.
    - [GoalProperties], [ProjectProperties], [SharingProperties],
      [MonthProperties], [LocalDateProperties]: every aggregate is the replay of
      its events, keeps its invariant whatever commands run, and is frozen once
      archived; snapshots; event round trips; calendar arithmetic.
    - [KeyringProperties]: a key sent in a keyring update opens on every device
      of the owner.  [KeyBackupProperties]: a backup restores the keys on any
      device; a refused import has deleted them.  [GoalRepositoryProperties], [ProjectRepositoryProperties]:
      saving extends the stored history by the pending events and loading
      replays it; broken snapshots are survived; and two saves from one loaded
      state are both accepted.
    - [GoalCommandProperties], [ProjectCommandProperties]: the outcome of every
      command on every branch (the abstract [plan] of a command: create, or run
      a method on a known version), errors of fields, harmless repeats.
      [SagaProperties], [SagaDeviceProperties]: true books, exactly the commands
      they call for, and a stored achievement after the last project.
      [SagaStoreProperties]: the encrypted store refines the saga's two maps.
    - [DependencyGraphProperties], [OutboxProperties]: the sort succeeds exactly
      on what can be ordered; pushes lose nothing, reach everything, repair what
      the server lost; and the cleanup that strands later artifacts.
    - [ReadModelProperties]: the read models' step agrees with the aggregates'.
      [DerivedStateProperties], [ProjectionRuntimeProperties]: a call of the task
      runner waits for a run that started after it; the runtime catches up, a
      rebuild is the replay of the log, no event is applied twice by one loop of a
      process (after a restart within a batch it is, and by two loops).  [GoalProjectionProperties],
      [ProjectProjectionProperties]: what is shown, listed, counted, indexed and
      found is what the log says, through rebuilds and restarts; and the two ways
      in which it is not (an interrupted batch, a stored search index).
    - [PublisherProperties]: a listener of the bus is called with every committed
      event once, in order, through failures and restarts; one that does not open holds back the rest; the
      saga hears each event once when the application starts.
    - [SharingVerificationProperties]: what is cached is linked by signatures to
      a first state; an event is verified exactly when it is authorised; and the
      two gaps (forks from number 10 on, a first state in place of any other).
    - [SharingServerProperties]: the streams stay linear however transactions
      interleave; appends follow the plan of a hash-chained log; paging is
      complete; the first invitation wins.  [SharingSystemProperties]: no
      grant is ever stored, since PostgreSQL refuses the query every append begins
      with, so that no event that names its scope, grant and state is accepted;
      and devices refuse the numbers the backend gives.
    - [RecordCodecProperties], [Base64UrlProperties], [CryptoProperties],
      [CursorProperties]: round trips and orders.

    The modules named [...Witnesses] apply the theorems to concrete inputs and
    hold the concrete runs behind the reported defects.

    ** Modelling decisions

    - A function that may throw returns a [result]; one that also changes
      objects is a [js] computation, whose state survives a throw; a database
      transaction restores it ([transaction]).  Asynchronous code is executed in
      program order: a request, a run of the engine or a repository call is one
      step.  Where another tab or request may come in between, what it does is
      an argument.  Where the interleaving itself matters the steps are those
      between two awaits: the loops and calls of the sync engine ([SyncLoops]),
      the workers of several tabs ([Locks] of [DbWorker]), the transactions of the
      sharing backend, a batch of a projection ([Interleaved] of
      [ProjectionRuntime]), the messages of the key service and the transactions
      they wait for ([KeyService]).
    - Fresh identifiers and the clock are arguments.  Random bytes come from two
      streams of the device's state, consumed in order.
    - The saga acts on a world of any type through the dispatch it is given;
      [SagaOnDevice] instantiates it with a device and the goals' command bus.
    - Strings have code units 0-255; numbers are decimals, NaN and infinities;
      versions and sequences in tables are integers.  Error messages leave out
      the echoed value.
    - Fuel: the page loop of a pull takes one; a number above the events still
      missing is enough ([pull_catches_up]).  So do the queue of the topological
      sort, for which the number of artifacts is enough ([sort_decides]), and its
      chain walk, for which one more than the number of entries is
      ([chain_terminates]).  The processing loop of a projection takes more than
      the number of events left ([flush_catches_up]).  Other loops are structural: retries and levels count
      down, pages and batches are lists.

    ** Not modelled

    User interface and presentation (packages/presentation, apps/web beyond the
    wiring of services): components, hooks and effects of React.  The key
    service's core (Rust), but for the buffer of its writes.  Sessions (apps/api/src/access): calls of an external
    identity service.  Key generation, key agreement and signatures of the crypto
    services: calls of the platform.  DTO
    validation by the web framework.  MiniSearch, wa-sqlite, PostgreSQL, AES-GCM
    and the browser's CBOR, hashes and locks are arguments, with their documented
    behaviour as laws.  The scope command handler calls methods that do not exist
    and cannot run. *)

From stdpp Require Export base gmap strings list fin_maps.
From Stdlib Require Export ZArith Lia.

#[export] Set Default Goal Selector "!".

(** ** Results and JavaScript exceptions

    A call that may throw returns a [result]; a call that may throw and
    mutates objects on the way is a [js] computation: the state survives a
    throw, as it does in JavaScript. *)

Inductive result (E A : Type) : Type :=
| Ok (a : A)
| Err (e : E).
Arguments Ok {E A} _.
Arguments Err {E A} _.

Definition js (S E A : Type) : Type := S -> result E A * S.

#[export] Instance result_ret {E} : MRet (result E) := fun A a => Ok a.
#[export] Instance result_bind {E} : MBind (result E) := fun A B f m =>
  match m with Ok a => f a | Err e => Err e end.
#[export] Instance result_fmap {E} : FMap (result E) := fun A B f m =>
  match m with Ok a => Ok (f a) | Err e => Err e end.

#[export] Instance js_ret {S E} : MRet (js S E) := fun A a s => (Ok a, s).
#[export] Instance js_bind {S E} : MBind (js S E) := fun A B f m s =>
  match m s with
  | (Ok a, s') => f a s'
  | (Err e, s') => (Err e, s')
  end.

Section JsOperations.
Context {S E A : Type}.

(** [return;] *)
Definition skip : js S E unit := fun s => (Ok tt, s).
Definition throw (e : E) : js S E A := fun s => (Err e, s).
Definition lift_result (r : result E A) : js S E A := fun s => (r, s).
(** A computation that only looks at the state, and may throw. *)
Definition reads (f : S -> result E A) : js S E A := fun s => (f s, s).
Definition gets (f : S -> A) : js S E A := fun s => (Ok (f s), s).
Definition modify (f : S -> S) : js S E unit := fun s => (Ok tt, f s).
(** [try { m } catch (e) { h e }] *)
Definition try_catch (m : js S E A) (h : E -> js S E A) : js S E A := fun s =>
  match m s with
  | (Ok a, s') => (Ok a, s')
  | (Err e, s') => h e s'
  end.
(** A database transaction: a throw rolls the state back. *)
Definition transaction (m : js S E A) : js S E A := fun s =>
  match m s with
  | (Ok a, s') => (Ok a, s')
  | (Err e, _) => (Err e, s)
  end.
(** [try { m } finally { f }] for an [f] that cannot throw. *)
Definition finally (m : js S E A) (f : S -> S) : js S E A := fun s =>
  let '(r, s') := m s in (r, f s').
End JsOperations.

(** [for (const x of l) await f(x)]: the loop stops at the first throw. *)
Fixpoint for_each {S E A} (l : list A) (f : A -> js S E unit) : js S E unit :=
  match l with
  | [] => mret tt
  | x :: l' => f x ≫= fun _ => for_each l' f
  end.

(** [l.map(f)] for a parser [f] of what [g] wrote, in the two monads of
    fallible parsers. *)
Lemma mapM_map_some {A B} (f : B -> option A) (g : A -> B) l :
  Forall (fun x => f (g x) = Some x) l -> mapM f (map g l) = Some l.
Proof. induction 1 as [|x l Hx _ IH]; [done|]. simpl. rewrite Hx. simpl. by rewrite IH. Qed.

Lemma mapM_map_ok {E A B} (f : B -> result E A) (g : A -> B) l :
  Forall (fun x => f (g x) = Ok x) l -> mapM f (map g l) = Ok l.
Proof. induction 1 as [|x l Hx _ IH]; [done|]. simpl. rewrite Hx. simpl. by rewrite IH. Qed.

Definition is_ok {E A} (r : result E A) : bool :=
  match r with Ok _ => true | Err _ => false end.

#[export] Instance result_eq_dec `{EqDecision E, EqDecision A} : EqDecision (result E A).
Proof. solve_decision. Defined.

(** ** Errors thrown by the domain and application code

    [Assert]'s messages end with a rendering of the offending value
    ([", got: ..."]); that suffix is left out. *)

Inductive error :=
| AssertError (name message : string)
| PlainError (message : string).

#[export] Instance error_eq_dec : EqDecision error.
Proof. solve_decision. Defined.

(** ** Lemmas and tactics for the two monads *)

Section MonadLemmas.
Context {S E : Type}.

Lemma result_bind_ok {A B} (m : result E A) (f : A -> result E B) b :
  m ≫= f = Ok b <-> exists a, m = Ok a /\ f a = Ok b.
Proof. destruct m; split; simpl; naive_solver. Qed.

Lemma js_bind_ok {A B} (m : js S E A) (f : A -> js S E B) s b s' :
  (m ≫= f) s = (Ok b, s') <-> exists a s1, m s = (Ok a, s1) /\ f a s1 = (Ok b, s').
Proof.
  unfold mbind, js_bind. destruct (m s) as [[a|e] s1]; split; naive_solver.
Qed.

Lemma js_bind_err {A B} (m : js S E A) (f : A -> js S E B) s e s' :
  (m ≫= f) s = (Err e, s') <->
  m s = (Err e, s') \/ exists a s1, m s = (Ok a, s1) /\ f a s1 = (Err e, s').
Proof.
  unfold mbind, js_bind. destruct (m s) as [[a|e'] s1]; split; naive_solver.
Qed.

Lemma js_bind_run_ok {A B} (m : js S E A) (f : A -> js S E B) s a s1 :
  m s = (Ok a, s1) -> (m ≫= f) s = f a s1.
Proof. unfold mbind, js_bind. by intros ->. Qed.

Lemma js_bind_run_err {A B} (m : js S E A) (f : A -> js S E B) s e s1 :
  m s = (Err e, s1) -> (m ≫= f) s = (Err e, s1).
Proof. unfold mbind, js_bind. by intros ->. Qed.
End MonadLemmas.

(** What a successful [mapM] read, and lists without repeated keys. *)
Lemma mapM_ok_Forall2 {E A B} (f : A -> result E B) l k : mapM f l = Ok k -> Forall2 (fun x y => f x = Ok y) l k.
Proof.
  revert k. induction l as [|x l IH]; intros k; [by intros [= <-]|]. simpl.
  intros (y & Hy & (ys & Hys & [= <-])%result_bind_ok)%result_bind_ok. constructor; [done|]. by apply IH.
Qed.

Lemma NoDup_map_filter {A B} (f : A -> B) (P : A -> Prop) `{!forall x, Decision (P x)} (l : list A) :
  NoDup (map f l) -> NoDup (map f (filter P l)).
Proof.
  induction l as [|x l IH]; csimpl; intros Hn; [apply NoDup_nil_2|]. apply NoDup_cons in Hn as [Hx Hn].
  rewrite filter_cons. destruct (decide (P x)); [|by apply IH]. csimpl. apply NoDup_cons. split; [|by apply IH].
  intros (y & E & [_ Hy]%list_elem_of_filter)%list_elem_of_fmap. apply Hx. rewrite E. by apply list_elem_of_fmap_2.
Qed.

Lemma NoDup_map_eq {A B} (f : A -> B) (l : list A) x y : NoDup (map f l) -> x ∈ l -> y ∈ l -> f x = f y -> x = y.
Proof.
  intros Hn [i Hi]%list_elem_of_lookup [j Hj]%list_elem_of_lookup E. assert (i = j) as ->; [|congruence].
  eapply (NoDup_lookup _ _ _ (f x) Hn); [by rewrite list_lookup_fmap, Hi|by rewrite list_lookup_fmap, Hj, E].
Qed.

(** Invert successful runs of monadic code, one binding at a time. *)
Ltac inv_ok :=
  repeat match goal with
  | H : (_ ≫= _) = Ok _ |- _ => apply result_bind_ok in H as (? & ? & ?)
  | H : (_ ≫= _) _ = (Ok _, _) |- _ => apply js_bind_ok in H as (? & ? & ? & ?)
  | H : mret _ = Ok _ |- _ => injection H as H
  | H : Ok _ = Ok _ |- _ => injection H as H
  | H : Err _ = Ok _ |- _ => discriminate H
  | H : Ok _ = Err _ |- _ => discriminate H
  end; subst.

(** Split every [match]/[if] of a hypothesis or of the goal. *)
Ltac split_matches :=
  repeat (case_match; try discriminate; simplify_eq/=).
