(* ===== verification/JsValues.v ===== *)
(** * JavaScript values: numbers, strings, JSON and the insertion-ordered [Map]

    - [number]: the finite numbers as decimals [m / 10^k] (a binary64 value is
      represented by the decimal that denotes it), plus NaN and the infinities;
      the sign of zero is not represented.
    - strings are Rocq [string]s: one [ascii] per UTF-16 code unit, so the
      model covers the code units 0-255.  [.length] counts code units and [<]
      compares them, as JavaScript does.
    - [json]: what [JSON.parse] builds and [JSON.stringify] reads.
    - [jsmap]: JavaScript's [Map], which iterates in insertion order. *)

From S2P Require Import Prelude.
From Stdlib Require Import Ascii.

(** ** Numbers *)

Inductive number :=
| Dec (m : Z) (k : nat)
| NaN
| Infty (negative : bool).

#[export] Instance number_eq_dec : EqDecision number.
Proof. solve_decision. Defined.

Definition num (z : Z) : number := Dec z 0.

Definition isFinite (n : number) : bool :=
  match n with Dec _ _ => true | _ => false end.

(** [Number.isInteger] *)
Definition isInteger (n : number) : bool :=
  match n with Dec m k => (m mod 10 ^ Z.of_nat k =? 0)%Z | _ => false end.

Definition to_Z (n : number) : Z :=
  match n with Dec m k => (m / 10 ^ Z.of_nat k)%Z | _ => 0%Z end.

(** [n < z] and [n <= z] for an integer literal [z] (false on NaN). *)
Definition num_ltb (n : number) (z : Z) : bool :=
  match n with
  | Dec m k => (m <? z * 10 ^ Z.of_nat k)%Z
  | NaN => false
  | Infty neg => neg
  end.
Definition num_leb (n : number) (z : Z) : bool :=
  match n with
  | Dec m k => (m <=? z * 10 ^ Z.of_nat k)%Z
  | NaN => false
  | Infty neg => neg
  end.

(** [a < b] and [a === b] on numbers. *)
Definition num_lt (a b : number) : bool :=
  match a, b with
  | Dec m k, Dec n l => (m * 10 ^ Z.of_nat l <? n * 10 ^ Z.of_nat k)%Z
  | Dec _ _, Infty neg => negb neg
  | Infty neg, Dec _ _ => neg
  | Infty neg, Infty neg' => neg && negb neg'
  | _, _ => false
  end.
Definition num_eq (a b : number) : bool :=
  match a, b with
  | Dec m k, Dec n l => (m * 10 ^ Z.of_nat l =? n * 10 ^ Z.of_nat k)%Z
  | Infty neg, Infty neg' => Bool.eqb neg neg'
  | _, _ => false
  end.

Lemma isInteger_num z : isInteger (num z) = true.
Proof. unfold num, isInteger. rewrite Z.mod_1_r. done. Qed.

Lemma to_Z_num z : to_Z (num z) = z.
Proof. unfold num, to_Z. apply Z.div_1_r. Qed.

Lemma num_ltb_num a z : num_ltb (num a) z = (a <? z)%Z.
Proof. unfold num, num_ltb. by rewrite Z.mul_1_r. Qed.

Lemma num_leb_num a z : num_leb (num a) z = (a <=? z)%Z.
Proof. unfold num, num_leb. by rewrite Z.mul_1_r. Qed.

(** [Math.trunc], and an entry of [new Uint8Array(numbers)]: modulo 256, its
    fraction dropped. *)
Definition trunc (n : number) : Z := match n with Dec m k => Z.quot m (10 ^ Z.of_nat k) | _ => 0%Z end.
Definition to_uint8 (n : number) : Z := (trunc n mod 256)%Z.

(** ** Characters and regular expressions' classes *)

Definition code (c : ascii) : Z := Z.of_N (N_of_ascii c).

Definition in_range (lo hi : Z) (c : ascii) : bool := ((lo <=? code c) && (code c <=? hi))%Z.

(** [\d], [[0-9a-f]] with the [i] flag, and the white space [trim] removes. *)
Definition is_digit (c : ascii) : bool := in_range 48 57 c.
Definition is_hex (c : ascii) : bool := is_digit c || in_range 97 102 c || in_range 65 70 c.
Definition is_space (c : ascii) : bool :=
  in_range 9 13 c || (code c =? 32)%Z || (code c =? 160)%Z.
Definition is_char (x : ascii) (c : ascii) : bool := (code c =? code x)%Z.

Lemma ascii_compare_code c d : Ascii.compare c d = Z.compare (code c) (code d).
Proof. unfold Ascii.compare, code. by rewrite N2Z.inj_compare. Qed.

Lemma code_inj c d : code c = code d -> c = d.
Proof.
  unfold code. intros H%N2Z.inj. by rewrite <- (ascii_N_embedding c), H, ascii_N_embedding.
Qed.

Lemma is_char_eq x c : is_char x c = true <-> c = x.
Proof.
  unfold is_char. rewrite Z.eqb_eq. split; [apply code_inj|by intros ->].
Qed.

Fixpoint chars (s : string) : list ascii :=
  match s with EmptyString => [] | String c s' => c :: chars s' end.
Fixpoint of_chars (l : list ascii) : string :=
  match l with [] => EmptyString | c :: l' => String c (of_chars l') end.

(** A pattern that is a fixed sequence of classes, anchored at both ends. *)
Definition match_classes (classes : list (ascii -> bool)) (s : string) : bool :=
  bool_decide (length (chars s) = length classes) &&
  forallb (fun '(p, c) => p c) (zip classes (chars s)).

Definition strlen (s : string) : Z := Z.of_nat (String.length s).

Fixpoint drop_spaces (l : list ascii) : list ascii :=
  match l with
  | c :: l' => if is_space c then drop_spaces l' else l
  | [] => []
  end.
(** [String.prototype.trim] *)
Definition trim (s : string) : string :=
  of_chars (rev (drop_spaces (rev (drop_spaces (chars s))))).

(** [toLowerCase], [toUpperCase] (of ASCII letters) and [s.includes(t)]. *)
Definition lower (c : ascii) : ascii := if in_range 65 90 c then ascii_of_N (Z.to_N (code c + 32)) else c.
Definition upper (c : ascii) : ascii := if in_range 97 122 c then ascii_of_N (Z.to_N (code c - 32)) else c.
Definition toLowerCase (s : string) : string := of_chars (map lower (chars s)).
Definition toUpperCase (s : string) : string := of_chars (map upper (chars s)).
Definition includes (t s : string) : bool :=
  match String.index 0 t s with Some _ => true | None => false end.

(** [s.slice(a, b)] for [0 <= a <= b]. *)
Definition slice (a b : nat) (s : string) : string := of_chars (take (b - a) (drop a (chars s))).

Lemma of_chars_chars s : of_chars (chars s) = s.
Proof. induction s; simpl; congruence. Qed.
Lemma chars_of_chars l : chars (of_chars l) = l.
Proof. induction l; simpl; congruence. Qed.
Lemma length_chars s : length (chars s) = String.length s.
Proof. induction s; simpl; congruence. Qed.
Lemma length_of_chars l : String.length (of_chars l) = length l.
Proof. induction l; simpl; congruence. Qed.

Lemma chars_inj s t : chars s = chars t -> s = t.
Proof. intros H. by rewrite <- (of_chars_chars s), <- (of_chars_chars t), H. Qed.

Lemma chars_append s t : chars (s +:+ t) = chars s ++ chars t.
Proof.
  induction s as [|c s IH]; [done|].
  change (chars (String c s +:+ t)) with (c :: chars (s +:+ t)). by rewrite IH.
Qed.

Lemma length_append s t : String.length (s +:+ t) = String.length s + String.length t.
Proof. by rewrite <- !length_chars, chars_append, length_app. Qed.

Lemma slice_prefix n s t : String.length s = n -> slice 0 n (s +:+ t) = s.
Proof.
  intros <-. unfold slice. rewrite Nat.sub_0_r, chars_append, <- length_chars. simpl.
  by rewrite drop_0, take_app_length, of_chars_chars.
Qed.

Lemma slice_drop a b s t :
  String.length s <= a -> slice a b (s +:+ t) = slice (a - String.length s) (b - String.length s) t.
Proof.
  intros H. unfold slice. rewrite chars_append, <- length_chars in *.
  rewrite drop_app_ge by done. f_equal. f_equal. lia.
Qed.

Lemma slice_all n s : String.length s = n -> slice 0 n s = s.
Proof.
  intros <-. unfold slice. rewrite Nat.sub_0_r, <- length_chars. simpl.
  by rewrite drop_0, firstn_all, of_chars_chars.
Qed.

Lemma match_classes_app p q s t :
  String.length s = length p ->
  match_classes (p ++ q) (s +:+ t) = match_classes p s && match_classes q t.
Proof.
  unfold match_classes. rewrite chars_append, <- length_chars. intros H.
  rewrite zip_with_app by done. rewrite forallb_app, !length_app.
  apply eq_true_iff_eq. rewrite !andb_true_iff, !bool_decide_eq_true.
  split; naive_solver lia.
Qed.

Lemma match_classes_length p s : match_classes p s = true -> String.length s = length p.
Proof. unfold match_classes. rewrite andb_true_iff, bool_decide_eq_true, length_chars. by intros []. Qed.

(** ** Decimal notation *)

Definition digit_char (d : Z) : ascii := ascii_of_N (Z.to_N (48 + d)).

Fixpoint dec_digits (fuel : nat) (n : Z) (acc : string) : string :=
  match fuel with
  | O => acc
  | S f =>
      if (n <? 10)%Z then String (digit_char n) acc
      else dec_digits f (n / 10) (String (digit_char (n mod 10)) acc)
  end.

(** [String(z)] for an integer below 10^21. *)
Definition string_of_Z (z : Z) : string :=
  let go n := dec_digits (S (Z.to_nat (Z.log2 n))) n EmptyString in
  if (z <? 0)%Z then String "-" (go (- z)%Z) else go z.

(** The value of a string of decimal digits ([Number(s)] on such a string). *)
Fixpoint dec_value (acc : Z) (s : string) : Z :=
  match s with
  | EmptyString => acc
  | String c s' => dec_value (acc * 10 + (code c - 48))%Z s'
  end.

(** [s.padStart(n, '0')] *)
Definition padStart (n : nat) (s : string) : string :=
  of_chars (replicate (n - String.length s) "0"%char ++ chars s).

Lemma code_digit_char d : (0 <= d <= 9)%Z -> code (digit_char d) = (48 + d)%Z.
Proof.
  intros Hd. unfold code, digit_char.
  rewrite N_ascii_embedding by lia. lia.
Qed.

Lemma dec_value_digits fuel n acc :
  (0 <= n)%Z -> (n < 2 ^ Z.of_nat fuel)%Z -> fuel <> 0 ->
  dec_value 0 (dec_digits fuel n acc) = dec_value n acc.
Proof.
  revert n acc. induction fuel as [|f IH]; intros n acc Hn Hf Hz; [done|]. simpl.
  destruct (Z.ltb_spec n 10) as [Hlt|Hge].
  - simpl. rewrite code_digit_char by lia. f_equal. lia.
  - pose proof (Z.mod_pos_bound n 10 ltac:(lia)).
    assert (n / 10 < 2 ^ Z.of_nat f)%Z as Hdiv.
    { apply Z.div_lt_upper_bound; [lia|].
      replace (Z.of_nat (S f)) with (Z.of_nat f + 1)%Z in Hf by lia.
      rewrite Z.pow_add_r in Hf by lia.
      pose proof (Z.pow_pos_nonneg 2 (Z.of_nat f) ltac:(lia) ltac:(lia)). lia. }
    assert (f <> 0) as Hf0.
    { intros ->. change (n < 2)%Z in Hf. lia. }
    rewrite IH; [|apply Z.div_pos; lia|done|done]. simpl.
    rewrite code_digit_char by lia. f_equal.
    pose proof (Z.div_mod n 10 ltac:(lia)). lia.
Qed.

Lemma dec_value_string_of_Z z : (0 <= z)%Z -> dec_value 0 (string_of_Z z) = z.
Proof.
  intros Hz. unfold string_of_Z. destruct (Z.ltb_spec z 0); [lia|].
  rewrite dec_value_digits; [done|done| |done].
  rewrite Nat2Z.inj_succ, Z2Nat.id by apply Z.log2_nonneg.
  destruct (Z.eq_dec z 0) as [->|]; [done|]. apply Z.log2_spec. lia.
Qed.

Lemma dec_value_shift acc s :
  (dec_value acc s = acc * 10 ^ Z.of_nat (String.length s) + dec_value 0 s)%Z.
Proof.
  revert acc. induction s as [|c s IH]; intros acc; simpl dec_value; [simpl; lia|].
  rewrite IH, (IH (0 * 10 + (code c - 48))%Z).
  change (String.length (String c s)) with (S (String.length s)).
  rewrite Nat2Z.inj_succ, Z.pow_succ_r by lia. lia.
Qed.

Lemma is_digit_bounds c : is_digit c = true -> (48 <= code c <= 57)%Z.
Proof. unfold is_digit, in_range. intros [? ?]%andb_true_iff. lia. Qed.

(** *** Strings of digits *)

Definition all_digits (s : string) : Prop := Forall (fun c => is_digit c = true) (chars s).

Lemma all_digits_app s t : all_digits (s +:+ t) <-> all_digits s /\ all_digits t.
Proof. unfold all_digits. rewrite chars_append. apply Forall_app. Qed.

Lemma match_digits n s :
  match_classes (replicate n is_digit) s = true <-> all_digits s /\ String.length s = n.
Proof.
  unfold match_classes, all_digits. rewrite andb_true_iff, bool_decide_eq_true.
  rewrite length_replicate, <- length_chars. generalize (chars s). clear s.
  induction n as [|n IH]; intros [|c l]; simpl.
  - by split.
  - split; [by intros []|by intros []].
  - split; [by intros []|by intros []].
  - rewrite andb_true_iff, Forall_cons. specialize (IH l).
    split; [intros [[= H] [Hc Hr]]|intros [[Hc Hr] [= H]]].
    + destruct (proj1 IH (conj H Hr)) as [? ?]. by subst.
    + destruct (proj2 IH (conj Hr H)) as [? ?]. by subst.
Qed.

Lemma dec_value_bounds s :
  all_digits s -> (0 <= dec_value 0 s < 10 ^ Z.of_nat (String.length s))%Z.
Proof.
  induction s as [|c s IH]; intros H; [done|].
  inversion H as [|? ? Hc Hs]; subst. apply is_digit_bounds in Hc.
  specialize (IH Hs). simpl dec_value. rewrite dec_value_shift.
  change (String.length (String c s)) with (S (String.length s)).
  rewrite Nat2Z.inj_succ, Z.pow_succ_r by lia. nia.
Qed.

Lemma is_digit_digit_char d : (0 <= d <= 9)%Z -> is_digit (digit_char d) = true.
Proof. intros. unfold is_digit, in_range. rewrite code_digit_char by done. lia. Qed.

Lemma dec_digits_spec fuel n acc :
  (0 <= n)%Z -> (n < 2 ^ Z.of_nat fuel)%Z -> fuel <> 0 ->
  exists s, dec_digits fuel n acc = s +:+ acc /\ all_digits s /\ s <> EmptyString /\
    (1 < String.length s -> (10 ^ (Z.of_nat (String.length s) - 1) <= n)%Z).
Proof.
  revert n acc. induction fuel as [|f IH]; intros n acc Hn Hf Hz; [done|]. simpl.
  destruct (Z.ltb_spec n 10) as [Hlt|Hge].
  - exists (String (digit_char n) EmptyString). repeat split; [|done|simpl; lia].
    constructor; [apply is_digit_digit_char; lia|constructor].
  - pose proof (Z.mod_pos_bound n 10 ltac:(lia)).
    assert (n / 10 < 2 ^ Z.of_nat f)%Z as Hdiv.
    { apply Z.div_lt_upper_bound; [lia|].
      replace (Z.of_nat (S f)) with (Z.of_nat f + 1)%Z in Hf by lia.
      rewrite Z.pow_add_r in Hf by lia.
      pose proof (Z.pow_pos_nonneg 2 (Z.of_nat f) ltac:(lia) ltac:(lia)). lia. }
    assert (f <> 0) as Hf0 by (intros ->; change (n < 2)%Z in Hf; lia).
    destruct (IH (n / 10)%Z (String (digit_char (n mod 10)) acc)) as (s & -> & Hs & Hne & Hlen);
      [apply Z.div_pos; lia|done|done|].
    exists (s +:+ String (digit_char (n mod 10)) EmptyString). repeat split.
    + apply chars_inj. rewrite !chars_append. simpl. by rewrite <- app_assoc.
    + apply all_digits_app. split; [done|].
      constructor; [apply is_digit_digit_char; lia|constructor].
    + by destruct s.
    + intros _. rewrite length_append. simpl String.length.
      destruct (decide (1 < String.length s)) as [Hlong|Hshort].
      * specialize (Hlen ltac:(lia)).
        replace (Z.of_nat (String.length s + 1) - 1)%Z
          with (Z.succ (Z.of_nat (String.length s) - 1)) by lia.
        rewrite Z.pow_succ_r by lia. pose proof (Z.mul_div_le n 10 ltac:(lia)). lia.
      * assert (String.length s = 1) as -> by (destruct s; [done|simpl in *; lia]).
        change (10 <= n)%Z. lia.
Qed.

Lemma string_of_Z_spec z :
  (0 <= z)%Z -> all_digits (string_of_Z z) /\ string_of_Z z <> EmptyString /\
  (1 < String.length (string_of_Z z) ->
    (10 ^ (Z.of_nat (String.length (string_of_Z z)) - 1) <= z)%Z).
Proof.
  intros Hz. unfold string_of_Z. destruct (Z.ltb_spec z 0); [lia|].
  destruct (dec_digits_spec (S (Z.to_nat (Z.log2 z))) z EmptyString) as (s & -> & ? & ? & ?);
    [done| |done|].
  { rewrite Nat2Z.inj_succ, Z2Nat.id by apply Z.log2_nonneg.
    destruct (Z.eq_dec z 0) as [->|]; [done|]. apply Z.log2_spec. lia. }
  replace (s +:+ EmptyString) with s; [done|].
  apply chars_inj. by rewrite chars_append, app_nil_r.
Qed.

(** An integer of [n + 1] decimal digits prints with [n + 1] digits. *)
Lemma string_of_Z_length z n :
  (10 ^ Z.of_nat n <= z < 10 ^ Z.of_nat (S n))%Z -> String.length (string_of_Z z) = S n.
Proof.
  intros [Hlo Hhi].
  pose proof (Z.pow_pos_nonneg 10 (Z.of_nat n) ltac:(lia) ltac:(lia)) as Hpos.
  destruct (string_of_Z_spec z) as (Hd & Hne & Hlen); [lia|].
  pose proof (dec_value_bounds _ Hd) as Hb. rewrite dec_value_string_of_Z in Hb by lia.
  set (k := String.length (string_of_Z z)) in *.
  assert (k <> 0) as Hk0 by (unfold k; by destruct (string_of_Z z)).
  assert (~ (k <= n)%nat) as Hge.
  { intros Hle. assert (10 ^ Z.of_nat k <= 10 ^ Z.of_nat n)%Z
      by (apply Z.pow_le_mono_r; lia). lia. }
  assert (~ (S n < k)%nat) as Hle; [|lia].
  intros Hlt. specialize (Hlen ltac:(lia)).
  assert (10 ^ Z.of_nat (S n) <= 10 ^ (Z.of_nat k - 1))%Z by (apply Z.pow_le_mono_r; lia). lia.
Qed.

Lemma dec_value_padStart n s : dec_value 0 (padStart n s) = dec_value 0 s.
Proof.
  unfold padStart. induction (n - String.length s) as [|k IH]; simpl.
  - by rewrite of_chars_chars.
  - exact IH.
Qed.

Lemma padStart_digits n s : all_digits s -> all_digits (padStart n s).
Proof.
  unfold all_digits, padStart. rewrite chars_of_chars, Forall_app. split; [|done].
  apply Forall_replicate. done.
Qed.

Lemma padStart_length n s :
  String.length s <= n -> String.length (padStart n s) = n.
Proof.
  intros H. unfold padStart. rewrite length_of_chars, length_app, length_replicate, length_chars. lia.
Qed.

(** ** JSON values *)

#[warnings="-register-all"]
Inductive json :=
| JNull
| JBool (b : bool)
| JNum (n : number)
| JStr (s : string)
| JArr (l : list json)
| JObj (fields : list (string * json)).

(** [obj.k]: [None] is [undefined]. *)
Fixpoint assoc {A} (k : string) (l : list (string * A)) : option A :=
  match l with
  | [] => None
  | (k', v) :: l' => if decide (k = k') then Some v else assoc k l'
  end.

(** ** [Map]: insertion-ordered, [set] on an existing key keeps its place *)

Definition jsmap (V : Type) : Type := list (string * V).

Fixpoint map_set {V} (k : string) (v : V) (m : jsmap V) : jsmap V :=
  match m with
  | [] => [(k, v)]
  | (k', v') :: m' => if decide (k = k') then (k', v) :: m' else (k', v') :: map_set k v m'
  end.
Definition map_get {V} (k : string) (m : jsmap V) : option V := assoc k m.
(** [new Map(entries)] *)
Definition map_of_entries {V} (l : list (string * V)) : jsmap V :=
  fold_left (fun m '(k, v) => map_set k v m) l [].

Section MapLemmas.
Context {V : Type}.
Implicit Types m : jsmap V.

Lemma map_get_set_eq k v m : map_get k (map_set k v m) = Some v.
Proof.
  unfold map_get. induction m as [|[k' v'] m IH]; simpl.
  - by rewrite decide_True by done.
  - destruct (decide (k = k')) as [->|Hne]; simpl.
    + by rewrite decide_True by done.
    + by rewrite decide_False by done.
Qed.

Lemma map_get_set_ne k k' v m : k <> k' -> map_get k' (map_set k v m) = map_get k' m.
Proof.
  intros Hne. unfold map_get. induction m as [|[k0 v0] m IH]; simpl.
  - by rewrite decide_False by done.
  - destruct (decide (k = k0)) as [->|Hk]; simpl; [|by rewrite IH].
    by destruct (decide (k' = k0)).
Qed.

Lemma map_set_keys_in k v m : k ∈ m.*1 -> (map_set k v m).*1 = m.*1.
Proof.
  induction m as [|[k' v'] m IH]; csimpl; [set_solver|].
  intros Hin. destruct (decide (k = k')) as [->|Hne]; [done|].
  csimpl. rewrite IH by set_solver. done.
Qed.

Lemma map_set_keys_notin k v m : k ∉ m.*1 -> (map_set k v m).*1 = m.*1 ++ [k].
Proof.
  induction m as [|[k' v'] m IH]; csimpl; [done|].
  intros Hout. destruct (decide (k = k')) as [->|Hne]; [set_solver|].
  csimpl. rewrite IH by set_solver. done.
Qed.

Lemma map_set_NoDup k v m : NoDup m.*1 -> NoDup (map_set k v m).*1.
Proof.
  intros H. destruct (decide (k ∈ m.*1)) as [Hin|Hout].
  - by rewrite map_set_keys_in.
  - rewrite map_set_keys_notin by done. apply NoDup_app.
    split; [done|]. split; [|apply NoDup_singleton].
    intros x Hx ->%list_elem_of_singleton. done.
Qed.
End MapLemmas.
