(* ===== verification/ValueObjects.v ===== *)
(** * Domain value objects and the [Assert] DSL

    [packages/domain/src/shared/Assert.ts] (Module [Assert]) and the value
    objects built with it: identifiers, texts, [Slice], [Priority],
    [Permission], [ProjectStatus], [Month], [LocalDate], [Timestamp] and the
    sharing context's [ScopeEpoch] and [ScopeStateRef].

    A string value object is a string together with the fact that its
    constructor's assertions passed ([vo]): the private constructors of the
    source make that an invariant of the type.  [EventId.create], [UserId] and
    the other fresh identifiers are arguments of the operations that draw them. *)

From S2P Require Import Prelude JsValues.
From Stdlib Require Import Ascii.

(** ** [Assert] *)

Module Assert.

Definition check (b : bool) (name message : string) : result error unit :=
  if b then Ok tt else Err (AssertError name message).

Definition isNonEmpty (value name : string) : result error unit :=
  check (negb (strlen value =? 0)%Z) name "must be a non-empty string".
Definition matches (pattern : string -> bool) (value name : string) : result error unit :=
  check (pattern value) name "must match pattern".
Definition isGreaterThan (min value : Z) (name : string) : result error unit :=
  check (negb (value <=? min)%Z) name "must be greater than".
Definition isGreaterThanOrEqual (min value : Z) (name : string) : result error unit :=
  check (negb (value <? min)%Z) name "must be greater than or equal to".
Definition isLessThanOrEqual (max value : Z) (name : string) : result error unit :=
  check (negb (max <? value)%Z) name "must be less than or equal to".
Definition isBetween (min max value : Z) (name : string) : result error unit :=
  check (negb ((value <? min)%Z || (max <? value)%Z)) name "must be between".
Definition isInteger (value : number) (name : string) : result error unit :=
  check (JsValues.isInteger value) name "must be an integer".
Definition isOneOf (allowed : list string) (value name : string) : result error unit :=
  check (bool_decide (value ∈ allowed)) name "must be one of".
Definition isDefined {A} (value : option A) (name : string) : result error unit :=
  check (match value with Some _ => true | None => false end) name "must be defined".
Definition isNull {A} (value : option A) (name : string) : result error unit :=
  check (match value with Some _ => false | None => true end) name "must be null".
Definition isTrue (value : bool) (name : string) : result error unit :=
  check value name "must be true".
Definition isFalse (value : bool) (name : string) : result error unit :=
  check (negb value) name "must be false".
Definition satisfies {A} (predicate : A -> bool) (errorMessage : string) (value : A)
    (name : string) : result error unit :=
  check (predicate value) name errorMessage.

(** [Assert.that(v, name)] alone builds the assertion object and checks nothing. *)
Definition that {A} (value : A) (name : string) : result error unit := Ok tt.

Lemma check_ok b name message u : check b name message = Ok u <-> b = true.
Proof. unfold check. destruct b, u; naive_solver. Qed.

End Assert.

(** The value an [isDefined] assertion lets through (the source's [x!]). *)
Definition defined {A} (value : option A) (name : string) : result error A :=
  match value with
  | Some a => Ok a
  | None => Err (AssertError name "must be defined")
  end.

(** ** String value objects *)

Record vo (asserts : string -> result error unit) : Type := Vo {
  value : string;
  value_ok : Is_true (is_ok (asserts value))
}.
Arguments Vo {asserts} & _ _.
Arguments value {asserts} _.
Arguments value_ok {asserts} _.

Section Vo.
Context {asserts : string -> result error unit}.

Lemma ok_of_eq s u : asserts s = Ok u -> Is_true (is_ok (asserts s)).
Proof. intros ->. exact I. Defined.

(** The constructor's body once its assertions have returned [r]. *)
Definition vo_of (s : string) (r : result error unit) :
    asserts s = r -> result error (vo asserts) :=
  match r with
  | Ok u => fun H => Ok (Vo s (ok_of_eq s u H))
  | Err e => fun _ => Err e
  end.

(** [new C(s)]: run the constructor's assertions, then store the string. *)
Definition vo_new (s : string) : result error (vo asserts) := vo_of s (asserts s) eq_refl.

(** [ValueObject.equals] *)
Definition equals (a b : vo asserts) : bool := bool_decide (value a = value b).

Lemma vo_eq (a b : vo asserts) : value a = value b -> a = b.
Proof.
  destruct a as [s p], b as [t q]. simpl. intros ->. f_equal. apply proof_irrel.
Qed.

Lemma equals_spec a b : equals a b = true <-> a = b.
Proof.
  unfold equals. rewrite bool_decide_eq_true. split; [apply vo_eq|by intros ->].
Qed.

Lemma vo_of_cases s r (H : asserts s = r) :
  match r with
  | Ok _ => exists v, vo_of s r H = Ok v /\ value v = s
  | Err e => vo_of s r H = Err e
  end.
Proof. destruct r; simpl; [by eexists|done]. Qed.

Lemma vo_new_cases s :
  match asserts s with
  | Ok _ => exists v, vo_new s = Ok v /\ value v = s
  | Err e => vo_new s = Err e
  end.
Proof. apply vo_of_cases. Qed.

Lemma vo_new_ok s v : vo_new s = Ok v <-> value v = s.
Proof.
  pose proof (vo_new_cases s) as H. destruct (asserts s) as [u|e] eqn:E.
  - destruct H as (w & -> & Hw). split; [congruence|]. intros Hv. f_equal. apply vo_eq. congruence.
  - rewrite H. split; [done|]. intros <-. pose proof (value_ok v) as Hv. by rewrite E in Hv.
Qed.

Lemma vo_new_value (v : vo asserts) : vo_new (value v) = Ok v.
Proof. by apply vo_new_ok. Qed.

Lemma vo_new_err s e : vo_new s = Err e <-> asserts s = Err e.
Proof.
  pose proof (vo_new_cases s) as H. destruct (asserts s) as [u|e'] eqn:E.
  - destruct H as (w & -> & _). done.
  - rewrite H. naive_solver.
Qed.
End Vo.

#[export] Instance vo_eq_dec asserts : EqDecision (vo asserts).
Proof.
  intros a b. destruct (decide (value a = value b)) as [H|H].
  - left. by apply vo_eq.
  - right. by intros ->.
Defined.

Lemma equals_bool {asserts} (a b : vo asserts) : equals a b = bool_decide (a = b).
Proof. apply eq_true_iff_eq. by rewrite equals_spec, bool_decide_eq_true. Qed.

(** ** Identifiers *)

(** [/^[0-9a-f]{8}-[0-9a-f]{4}-[0-9a-f]{4}-[0-9a-f]{4}-[0-9a-f]{12}$/i] *)
Definition UUID_REGEX : string -> bool :=
  match_classes (replicate 8 is_hex ++ [is_char "-"] ++ replicate 4 is_hex ++ [is_char "-"]
    ++ replicate 4 is_hex ++ [is_char "-"] ++ replicate 4 is_hex ++ [is_char "-"]
    ++ replicate 12 is_hex).

Definition GoalId := vo (fun s => Assert.matches UUID_REGEX s "GoalId").
Definition ProjectId := vo (fun s => Assert.matches UUID_REGEX s "ProjectId").
Definition MilestoneId := vo (fun s => Assert.matches UUID_REGEX s "MilestoneId").
Definition ScopeId := vo (fun s => Assert.matches UUID_REGEX s "ScopeId").
Definition ResourceId := vo (fun s => Assert.matches UUID_REGEX s "ResourceId").
Definition GrantId := vo (fun s => Assert.matches UUID_REGEX s "GrantId").

Definition EventId := vo (fun s => Assert.isNonEmpty s "EventId").
Definition CorrelationId := vo (fun s => Assert.isNonEmpty s "CorrelationId").
Definition ActorId := vo (fun s => Assert.isNonEmpty s "ActorId").
(** [UserId extends ActorId]: the inherited constructor's assertion runs first. *)
Definition UserId := vo (fun s =>
  _ ← Assert.isNonEmpty s "ActorId"; Assert.isNonEmpty s "UserId").

Lemma user_is_actor (u : UserId) : Is_true (is_ok (Assert.isNonEmpty (value u) "ActorId")).
Proof.
  destruct u as [s p]. simpl in *. by destruct (Assert.isNonEmpty s "ActorId").
Qed.

(** A [UserId] used where an [ActorId] is expected. *)
Definition actor_of (u : UserId) : ActorId := Vo (value u) (user_is_actor u).

Section IdentifierOperations.
Context {asserts : string -> result error unit}.
Implicit Types v : vo asserts.

(** Identifiers travel as their [value] and come back through [from]. *)
Lemma vo_value_inj v w : value v = value w <-> v = w.
Proof. split; [apply vo_eq|by intros ->]. Qed.
End IdentifierOperations.

(** ** Texts *)

Definition Summary := vo (fun s => Assert.isNonEmpty s "Summary").

Definition name_asserts (cls : string) (s : string) : result error unit :=
  _ ← Assert.isNonEmpty (trim s) cls;
  Assert.isLessThanOrEqual 200 (strlen s) (cls +:+ " length").
Definition ProjectName := vo (name_asserts "ProjectName").
Definition MilestoneName := vo (name_asserts "MilestoneName").
Definition ProjectDescription := vo (fun s =>
  Assert.isLessThanOrEqual 2000 (strlen s) "ProjectDescription length").

(** ** Enumerations *)

Module Slice.
Inductive t := Health | Family | Relationships | Work | Money | Learning | Mindfulness | Leisure.

#[export] Instance eq_dec : EqDecision t.
Proof. solve_decision. Defined.

Definition val (s : t) : string :=
  match s with
  | Health => "Health" | Family => "Family" | Relationships => "Relationships"
  | Work => "Work" | Money => "Money" | Learning => "Learning"
  | Mindfulness => "Mindfulness" | Leisure => "Leisure"
  end.
Definition ALL_SLICES : list t :=
  [Health; Family; Relationships; Work; Money; Learning; Mindfulness; Leisure].

Definition from (value : string) : result error t :=
  match list_find (fun s => val s = value) ALL_SLICES with
  | Some (_, s) => Ok s
  | None => Err (AssertError "Slice" "must be one of")
  end.
Definition equals (a b : t) : bool := bool_decide (val a = val b).

Lemma slice_from_val s : from (val s) = Ok s.
Proof. by destruct s. Qed.
End Slice.

Module Priority.
Inductive t := Must | Should | Maybe.

#[export] Instance eq_dec : EqDecision t.
Proof. solve_decision. Defined.

Definition val (p : t) : string :=
  match p with Must => "must" | Should => "should" | Maybe => "maybe" end.
Definition ORDER (p : t) : Z := match p with Must => 3 | Should => 2 | Maybe => 1 end.
Definition from (level : string) : result error t :=
  match list_find (fun p => val p = level) [Must; Should; Maybe] with
  | Some (_, p) => Ok p
  | None => Err (AssertError "Priority" "must be one of")
  end.
Definition isHigherThan (a b : t) : bool := (ORDER b <? ORDER a)%Z.
Definition equals (a b : t) : bool := bool_decide (val a = val b).

Lemma priority_from_val p : from (val p) = Ok p.
Proof. by destruct p. Qed.
End Priority.

Module Permission.
Inductive t := View | Edit.

#[export] Instance eq_dec : EqDecision t.
Proof. solve_decision. Defined.

Definition val (p : t) : string := match p with View => "view" | Edit => "edit" end.
Definition from (value : string) : result error t :=
  match list_find (fun p => val p = value) [View; Edit] with
  | Some (_, p) => Ok p
  | None => Err (AssertError "Permission" "must be one of")
  end.

Lemma permission_from_val p : from (val p) = Ok p.
Proof. by destruct p. Qed.
End Permission.

Module ProjectStatus.
Inductive t := Planned | InProgress | Completed | Canceled.

#[export] Instance eq_dec : EqDecision t.
Proof. solve_decision. Defined.

Definition val (s : t) : string :=
  match s with
  | Planned => "planned" | InProgress => "in_progress"
  | Completed => "completed" | Canceled => "canceled"
  end.
Definition from (value : string) : result error t :=
  match list_find (fun s => val s = value) [Planned; InProgress; Completed; Canceled] with
  | Some (_, s) => Ok s
  | None => Err (AssertError "ProjectStatus" "must be one of")
  end.
Definition equals (a b : t) : bool := bool_decide (val a = val b).
Definition isTerminal (s : t) : bool :=
  match s with Completed | Canceled => true | _ => false end.

Lemma status_from_val s : from (val s) = Ok s.
Proof. by destruct s. Qed.
End ProjectStatus.
