(* ===== verification/Dates.v ===== *)
(** * Months, calendar days and instants

    [packages/domain/src/goals/vos/Month.ts] (Module [Month]),
    [shared/vos/LocalDate.ts] (Module [LocalDate]) and
    [shared/vos/Timestamp.ts] (Module [Timestamp]).  Reading the system clock
    ([Month.now], [LocalDate.today]) and [Date]'s calendar ([toISOString],
    [fromISOString]) are not modelled. *)

From S2P Require Import Prelude JsValues ValueObjects.
From Stdlib Require Import Ascii.

(** ** Comparing strings of digits *)

Lemma compare_append s s' t t' :
  String.length s = String.length t ->
  String.compare (s +:+ s') (t +:+ t') =
    match String.compare s t with Eq => String.compare s' t' | c => c end.
Proof.
  revert t. induction s as [|c s IH]; intros [|d t]; try done.
  intros [= Hlen]. change (String c s +:+ s') with (String c (s +:+ s')).
  change (String d t +:+ t') with (String d (t +:+ t')). simpl.
  destruct (Ascii.compare c d); [by apply IH|done|done].
Qed.

Lemma compare_digits s t :
  all_digits s -> all_digits t -> String.length s = String.length t ->
  String.compare s t = Z.compare (dec_value 0 s) (dec_value 0 t).
Proof.
  revert t. induction s as [|c s IH]; intros [|d t] Hs Ht Hlen; try done.
  inversion Hs as [|? ? Hc Hs']; subst. inversion Ht as [|? ? Hd Ht']; subst.
  injection Hlen as Hlen. simpl. rewrite ascii_compare_code, (IH t) by done.
  rewrite (dec_value_shift (0 * 10 + (code c - 48)) s), (dec_value_shift (0 * 10 + (code d - 48)) t), Hlen.
  pose proof (dec_value_bounds s Hs'). pose proof (dec_value_bounds t Ht') as Hbt.
  rewrite Hlen in *. destruct (Z.compare_spec (code c) (code d)) as [Heq|Hlt|Hgt].
  - rewrite Heq. destruct (Z.compare_spec (dec_value 0 s) (dec_value 0 t)); symmetry;
      [apply Z.compare_eq_iff|apply Z.compare_lt_iff|apply Z.compare_gt_iff]; lia.
  - symmetry. apply Z.compare_lt_iff. nia.
  - symmetry. apply Z.compare_gt_iff. nia.
Qed.

(** ** Month *)

Module Month.

Definition asserts (year month : Z) : result error unit :=
  _ ← Assert.isGreaterThan 2000 year "Year";
  Assert.isBetween 1 12 month "Month".

Record t : Type := Mk {
  year : Z;
  month : Z;
  valid : Is_true (is_ok (asserts year month))
}.

(** The private constructor. *)
Definition mk (y m : Z) : result error t :=
  match decide (Is_true (is_ok (asserts y m))) with
  | left H => Ok (Mk y m H)
  | right _ =>
      Err (if (y <=? 2000)%Z then AssertError "Year" "must be greater than"
           else AssertError "Month" "must be between")
  end.

(** [/^\d{4}-\d{2}$/] *)
Definition MONTH_REGEX : string -> bool :=
  match_classes (replicate 4 is_digit ++ [is_char "-"] ++ replicate 2 is_digit).

(** The two components [value.split('-').map(Number)] gives on a match. *)
Definition from (value : string) : result error t :=
  _ ← Assert.matches MONTH_REGEX value "Month string";
  mk (dec_value 0 (slice 0 4 value)) (dec_value 0 (slice 5 7 value)).

Definition fromComponents (y m : Z) : result error t := mk y m.

Definition value (m : t) : string :=
  string_of_Z (year m) +:+ "-" +:+ padStart 2 (string_of_Z (month m)).

Definition isBefore (a b : t) : bool :=
  ((year a <? year b) || ((year a =? year b) && (month a <? month b)))%Z.
Definition isAfter (a b : t) : bool :=
  ((year b <? year a) || ((year a =? year b) && (month b <? month a)))%Z.
Definition equals (a b : t) : bool := ((year a =? year b) && (month a =? month b))%Z.

(** [%] truncates towards zero, [Math.floor] rounds down.  The arithmetic is
    exact: a count beyond 2^53 months, which the code would round, is not meant. *)
Definition addMonths (count : number) (m : t) : result error t :=
  _ ← Assert.isInteger count "Month count";
  let totalMonths := (year m * 12 + month m - 1 + to_Z count)%Z in
  mk (totalMonths / 12)%Z (Z.rem totalMonths 12 + 1)%Z.

(** Months since year 0: the calendar the operations compute in. *)
Definition index (m : t) : Z := (year m * 12 + (month m - 1))%Z.

Lemma asserts_ok y m :
  Is_true (is_ok (asserts y m)) <-> (2000 < y /\ 1 <= m <= 12)%Z.
Proof.
  unfold asserts, Assert.isGreaterThan, Assert.isBetween, Assert.check.
  destruct (Z.leb_spec y 2000); simpl; [split; [done|lia]|].
  destruct (Z.ltb_spec m 1), (Z.ltb_spec 12 m); simpl; split; try done; lia.
Qed.

Lemma bounds (m : t) : (2000 < year m /\ 1 <= month m <= 12)%Z.
Proof. apply asserts_ok, valid. Qed.

Lemma month_ext (a b : t) : year a = year b -> month a = month b -> a = b.
Proof. destruct a, b. simpl. intros -> ->. f_equal. apply proof_irrel. Qed.

Lemma month_equals_spec a b : equals a b = true <-> a = b.
Proof.
  unfold equals. rewrite andb_true_iff, !Z.eqb_eq. split; [|by intros ->].
  intros [??]. by apply month_ext.
Qed.

Lemma index_inj a b : index a = index b -> a = b.
Proof.
  pose proof (bounds a). pose proof (bounds b). unfold index. intros.
  apply month_ext; lia.
Qed.

Lemma mk_ok y m v : mk y m = Ok v <-> year v = y /\ month v = m.
Proof.
  unfold mk. destruct (decide _) as [p|p]; split.
  - by intros [= <-].
  - intros [? ?]. f_equal. by apply month_ext.
  - done.
  - intros [<- <-]. destruct p. apply valid.
Qed.

Lemma mk_is_ok y m : is_ok (mk y m) = true <-> (2000 < y /\ 1 <= m <= 12)%Z.
Proof. unfold mk. rewrite <- asserts_ok. destruct (decide _); naive_solver. Qed.

(** The month prints as two digits. *)
Lemma month_text (m : t) :
  let mm := padStart 2 (string_of_Z (month m)) in
  all_digits mm /\ String.length mm = 2 /\ dec_value 0 mm = month m.
Proof.
  pose proof (bounds m) as [_ Hm]. simpl. split; [apply padStart_digits, string_of_Z_spec; lia|].
  split; [|by rewrite dec_value_padStart, dec_value_string_of_Z by lia].
  apply padStart_length. destruct (decide (month m < 10)%Z).
  - rewrite (string_of_Z_length _ 0) by (simpl; lia). lia.
  - rewrite (string_of_Z_length _ 1) by (simpl; lia). lia.
Qed.

Lemma from_value_small (m : t) : (year m <= 9999)%Z -> from (value m) = Ok m.
Proof.
  intros Hle. pose proof (bounds m) as [Hy _]. unfold from, value, Assert.matches, MONTH_REGEX.
  destruct (string_of_Z_spec (year m) ltac:(lia)) as (Hyd & _ & _).
  destruct (month_text m) as (Hmd & Hml & Hmv).
  assert (String.length (string_of_Z (year m)) = 4) as Hl
    by (apply (string_of_Z_length _ 3); simpl; lia).
  rewrite match_classes_app by (by rewrite Hl, length_replicate).
  rewrite match_classes_app by done.
  rewrite (proj2 (match_digits 4 _)), (proj2 (match_digits 2 _)) by done. simpl.
  rewrite slice_prefix by done. rewrite slice_drop, Hl by lia.
  rewrite slice_drop by (simpl; lia). rewrite slice_all by done.
  rewrite Hmv, dec_value_string_of_Z by lia. by apply mk_ok.
Qed.

Lemma isBefore_index a b : isBefore a b = (index a <? index b)%Z.
Proof.
  pose proof (bounds a). pose proof (bounds b). unfold isBefore, index.
  apply eq_true_iff_eq. rewrite orb_true_iff, andb_true_iff. lia.
Qed.

Lemma isAfter_index a b : isAfter a b = (index b <? index a)%Z.
Proof.
  pose proof (bounds a). pose proof (bounds b). unfold isAfter, index.
  apply eq_true_iff_eq. rewrite orb_true_iff, andb_true_iff. lia.
Qed.

#[export] Instance eq_dec : EqDecision t.
Proof.
  intros a b. destruct (equals a b) eqn:E.
  - left. by apply month_equals_spec.
  - right. intros H%month_equals_spec. congruence.
Defined.

End Month.

Module MonthProperties.
Import Month.

(** C13: [addMonths n] moves a month by exactly [n] places on the calendar (years times
    twelve plus months), across year ends in both directions; it throws exactly when the
    target month lies before January 2001. The arithmetic is exact, as the code's is while
    the counts stay below 2^53. *)
Theorem addMonths_index (m : Month.t) (n : Z) :
  match addMonths (num n) m with
  | Ok m' => index m' = (index m + n)%Z
  | Err e => (index m + n < 2001 * 12)%Z /\ e = AssertError "Year" "must be greater than"
  end.
Proof.
  unfold addMonths, Assert.isInteger. rewrite isInteger_num, to_Z_num. simpl.
  pose proof (bounds m). unfold index.
  replace (year m * 12 + (month m - 1) + n)%Z with (year m * 12 + month m - 1 + n)%Z by lia.
  set (t := (year m * 12 + month m - 1 + n)%Z).
  pose proof (Z.div_mod t 12 ltac:(lia)). pose proof (Z.mod_pos_bound t 12 ltac:(lia)).
  destruct (Z.leb_spec (t / 12) 2000) as [Hle|Hgt].
  - destruct (mk _ _) as [v|e] eqn:E.
    + apply mk_ok in E as [E1 E2]. pose proof (bounds v). lia.
    + unfold mk in E. destruct (decide _); [done|].
      rewrite (proj2 (Z.leb_le _ _) Hle) in E. injection E as <-. split; [lia|done].
  - assert (0 <= t)%Z by (pose proof (Z.div_lt_upper_bound t 12 0); lia).
    rewrite Z.rem_mod_nonneg by lia.
    destruct (mk _ _) as [v|e] eqn:E.
    + apply mk_ok in E as [-> ->]. lia.
    + assert (is_ok (mk (t / 12) (t mod 12 + 1)) = true) as Hok by (apply mk_is_ok; lia).
      by rewrite E in Hok.
Qed.

(** A month's text form parses back to the same month up to the year 9999, and is
    refused by [Month.from] from the year 10000 on (which [addMonths] and [fromComponents]
    can reach). *)
Theorem from_value (m : Month.t) :
  from (value m) =
    if (year m <=? 9999)%Z then Ok m else Err (AssertError "Month string" "must match pattern").
Proof.
  destruct (Z.leb_spec (year m) 9999) as [Hle|Hgt]; [by apply from_value_small|].
  pose proof (bounds m) as [Hy Hm]. unfold from, Assert.matches, MONTH_REGEX.
  destruct (string_of_Z_spec (year m) ltac:(lia)) as (Hyd & _ & _).
  destruct (month_text m) as (_ & Hmm & _).
  destruct (match_classes _ (value m)) eqn:Hc; [|done]. exfalso.
  apply match_classes_length in Hc. unfold value in Hc. rewrite !length_append, Hmm in Hc. simpl in Hc.
  pose proof (dec_value_bounds _ Hyd) as Hb. rewrite dec_value_string_of_Z in Hb by lia.
  replace (String.length (string_of_Z (year m))) with 4 in Hb by lia. simpl in Hb. lia.
Qed.

End MonthProperties.

(** ** LocalDate *)

Module LocalDate.

(** [/^\d{4}-\d{2}-\d{2}$/] *)
Definition ISO_DATE_REGEX : string -> bool :=
  match_classes (replicate 4 is_digit ++ [is_char "-"] ++ replicate 2 is_digit
    ++ [is_char "-"] ++ replicate 2 is_digit).

Definition t := vo (fun s => Assert.matches ISO_DATE_REGEX s "LocalDate").

Definition from (year month day : Z) : result error t :=
  _ ← Assert.isGreaterThanOrEqual 1 year "year";
  _ ← Assert.isBetween 1 12 month "month";
  _ ← Assert.isBetween 1 31 day "day";
  vo_new (padStart 4 (string_of_Z year) +:+ "-" +:+ padStart 2 (string_of_Z month)
    +:+ "-" +:+ padStart 2 (string_of_Z day)).
Definition fromString (value : string) : result error t := vo_new value.

Definition year (d : t) : Z := dec_value 0 (slice 0 4 (value d)).
Definition month (d : t) : Z := dec_value 0 (slice 5 7 (value d)).
Definition day (d : t) : Z := dec_value 0 (slice 8 10 (value d)).

(** [<], [>], [<=], [>=] on the strings *)
Definition isBefore (a b : t) : bool := String.ltb (value a) (value b).
Definition isAfter (a b : t) : bool := String.ltb (value b) (value a).
Definition isSameOrBefore (a b : t) : bool := negb (String.ltb (value b) (value a)).
Definition isSameOrAfter (a b : t) : bool := negb (String.ltb (value a) (value b)).

(** Year, month and day compared as numbers, the year first. *)
Definition compare_ymd (a b : t) : comparison :=
  match Z.compare (year a) (year b) with
  | Eq => match Z.compare (month a) (month b) with
          | Eq => Z.compare (day a) (day b)
          | c => c
          end
  | c => c
  end.

(** A [LocalDate] is three runs of digits separated by dashes. *)
Lemma parts (d : t) : exists y m dd,
  value d = y +:+ "-" +:+ m +:+ "-" +:+ dd /\
  (all_digits y /\ all_digits m /\ all_digits dd) /\
  (String.length y = 4 /\ String.length m = 2 /\ String.length dd = 2) /\
  year d = dec_value 0 y /\ month d = dec_value 0 m /\ day d = dec_value 0 dd.
Proof.
  destruct d as [s p]. unfold year, month, day. simpl value.
  unfold Assert.matches, Assert.check in p.
  destruct (ISO_DATE_REGEX s) eqn:Hm; [clear p|done]. unfold ISO_DATE_REGEX in Hm.
  pose proof (match_classes_length _ _ Hm) as Hl.
  do 10 (destruct s as [|? s]; [done|]). destruct s; [|done]. clear Hl.
  unfold match_classes in Hm. simpl in Hm.
  repeat (apply andb_true_iff in Hm as [? Hm]).
  repeat match goal with H : is_char _ _ = true |- _ => apply is_char_eq in H as -> end.
  eexists (of_chars [a; a0; a1; a2]), (of_chars [a4; a5]), (of_chars [a7; a8]).
  repeat split; try (repeat constructor; done).
Qed.

Lemma isBefore_compare a b : isBefore a b = true <-> String.compare (value a) (value b) = Lt.
Proof. unfold isBefore, String.ltb. by destruct (String.compare _ _). Qed.

Lemma compare_value (a b : t) : String.compare (value a) (value b) = compare_ymd a b.
Proof.
  destruct (parts a) as (y & m & d & -> & (?&?&?) & (?&?&?) & Hy & Hm & Hd).
  destruct (parts b) as (y' & m' & d' & -> & (?&?&?) & (?&?&?) & Hy' & Hm' & Hd').
  unfold compare_ymd. rewrite Hy, Hm, Hd, Hy', Hm', Hd'.
  rewrite compare_append, compare_digits by (done || congruence).
  destruct (Z.compare _ _); [|done|done].
  rewrite (compare_append "-"), (compare_append m), (compare_append "-") by congruence.
  change (String.compare "-" "-") with Eq. cbv iota.
  rewrite !compare_digits by (done || congruence). by destruct (Z.compare _ _).
Qed.

Lemma isSameOrBefore_not_after a b : isSameOrBefore a b = negb (isAfter a b).
Proof. done. Qed.

Lemma before_irrefl a : isBefore a a = false.
Proof.
  apply not_true_iff_false. rewrite isBefore_compare, compare_value.
  unfold compare_ymd. by rewrite !Z.compare_refl.
Qed.

End LocalDate.

Module LocalDateProperties.
Import LocalDate.

(** Comparing two local dates as strings, as [isBefore], [isAfter], [isSameOrBefore]
    and [isSameOrAfter] do, is comparing year, month and day as numbers; two dates that
    compare equal are the same date. *)
Theorem date_order (a b : LocalDate.t) :
  match compare_ymd a b with
  | Lt => isBefore a b = true /\ isAfter a b = false /\
          isSameOrBefore a b = true /\ isSameOrAfter a b = false
  | Eq => a = b
  | Gt => isBefore a b = false /\ isAfter a b = true /\
          isSameOrBefore a b = false /\ isSameOrAfter a b = true
  end.
Proof.
  rewrite <- compare_value. unfold isBefore, isAfter, isSameOrBefore, isSameOrAfter, String.ltb.
  rewrite (String.compare_antisym (value b) (value a)).
  destruct (String.compare (value a) (value b)) eqn:E; [|done|done].
  apply String.compare_eq_iff in E. by apply vo_eq.
Qed.

(** [LocalDate.from y m d] either builds a date whose [year], [month] and [day] read
    back as the arguments, or throws, and it throws only when an argument is out of range
    ([y] outside 1..9999, [m] outside 1..12 or [d] outside 1..31). *)
Theorem from_components (y m d : Z) :
  match from y m d with
  | Ok v => year v = y /\ month v = m /\ day v = d
  | Err _ => ~ ((1 <= y <= 9999) /\ (1 <= m <= 12) /\ (1 <= d <= 31))%Z
  end.
Proof.
  unfold from, Assert.isGreaterThanOrEqual, Assert.isBetween, Assert.check.
  destruct (Z.ltb_spec y 1); simpl; [lia|].
  destruct (Z.ltb_spec m 1), (Z.ltb_spec 12 m); simpl; try lia.
  destruct (Z.ltb_spec d 1), (Z.ltb_spec 31 d); simpl; try lia.
  assert (forall z, (1 <= z <= 31)%Z -> all_digits (padStart 2 (string_of_Z z)) /\
    String.length (padStart 2 (string_of_Z z)) = 2) as Hpad.
  { intros z Hz. split; [apply padStart_digits, string_of_Z_spec; lia|].
    apply padStart_length. destruct (decide (z < 10)%Z).
    - rewrite (string_of_Z_length _ 0) by (simpl; lia). lia.
    - rewrite (string_of_Z_length _ 1) by (simpl; lia). lia. }
  destruct (Hpad m ltac:(lia)) as [Hmd Hml]. destruct (Hpad d ltac:(lia)) as [Hdd Hdl].
  assert (all_digits (padStart 4 (string_of_Z y))) as Hyd
    by (apply padStart_digits, string_of_Z_spec; lia).
  assert (forall z w, (0 <= z)%Z -> dec_value 0 (padStart w (string_of_Z z)) = z) as Hv
    by (intros; rewrite dec_value_padStart; by apply dec_value_string_of_Z).
  destruct (vo_new _) as [v|e] eqn:E.
  - apply vo_new_ok in E. destruct (parts v) as (y' & m' & d' & Hval & Hds & (Hl1 & Hl2 & Hl3) & -> & -> & ->).
    rewrite E in Hval.
    assert (String.length (padStart 4 (string_of_Z y)) = 4) as Hyl.
    { apply (f_equal String.length) in Hval. rewrite !length_append, Hml, Hdl, Hl1, Hl2, Hl3 in Hval.
      simpl in Hval. lia. }
    apply (f_equal chars) in Hval. rewrite !chars_append in Hval.
    rewrite <- length_chars in *.
    apply app_inj_1 in Hval as [<-%chars_inj Hval]; [|congruence]. apply app_inj_1 in Hval as [_ Hval]; [|done].
    apply app_inj_1 in Hval as [<-%chars_inj Hval]; [|congruence]. apply app_inj_1 in Hval as [_ Hval]; [|done].
    apply chars_inj in Hval as <-. rewrite !Hv by lia. done.
  - intros (Hy & _). apply vo_new_err in E. unfold Assert.matches, ISO_DATE_REGEX in E.
    assert (String.length (padStart 4 (string_of_Z y)) = 4) as Hyl.
    { apply padStart_length.
      destruct (string_of_Z_spec y ltac:(lia)) as (_ & _ & Hl).
      destruct (decide (String.length (string_of_Z y) <= 4)); [done|].
      specialize (Hl ltac:(lia)).
      assert (10 ^ 4 <= 10 ^ (Z.of_nat (String.length (string_of_Z y)) - 1))%Z
        by (apply Z.pow_le_mono_r; lia). lia. }
    rewrite match_classes_app in E by done. rewrite match_classes_app in E by done.
    rewrite match_classes_app in E by done. rewrite match_classes_app in E by done.
    by rewrite (proj2 (match_digits 4 _)), !(proj2 (match_digits 2 _)) in E.
Qed.

(** The shape is all [fromString] checks: the month and the day are not bounded. *)
Example impossible_date : is_ok (fromString "2024-13-45") = true.
Proof. reflexivity. Qed.

End LocalDateProperties.

(** ** Timestamp *)

Module Timestamp.

Record t : Type := Mk { millis : number; finite : Is_true (isFinite millis) }.

Definition fromMillis (value : number) : result error t :=
  match decide (Is_true (isFinite value)) with
  | left H => Ok (Mk value H)
  | right _ => Err (PlainError "Timestamp must be a finite number of milliseconds")
  end.

Definition isBefore (a b : t) : bool := num_lt (millis a) (millis b).
Definition isAfter (a b : t) : bool := num_lt (millis b) (millis a).
Definition equals (a b : t) : bool := num_eq (millis a) (millis b).

Lemma timestamp_ext (a b : t) : millis a = millis b -> a = b.
Proof. destruct a, b. simpl. intros ->. f_equal. apply proof_irrel. Qed.

Lemma fromMillis_millis v : fromMillis (millis v) = Ok v.
Proof.
  unfold fromMillis. destruct (decide _) as [H|H]; [f_equal; by apply timestamp_ext|].
  destruct H. apply finite.
Qed.

(** The instant [z] milliseconds after the epoch. *)
Definition at_ms (z : Z) : t := Mk (num z) I.

#[export] Instance eq_dec : EqDecision t.
Proof.
  intros a b. destruct (decide (millis a = millis b)) as [H|H].
  - left. by apply timestamp_ext.
  - right. by intros ->.
Defined.

End Timestamp.
