(* ===== verification/AggregateRoot.v ===== *)
(** * Event-sourced aggregates

    [packages/domain/src/shared/AggregateRoot.ts], [DomainEvent.ts].  An
    aggregate is its identifier, its private fields ([state]), the uncommitted
    events and the version; [apply] and [loadFromHistory] drive the event
    handlers of the class [EventSourced], which each aggregate instantiates
    with its [on{EventType}] methods.  The last section proves, against that
    class, that a command which only changes state by applying one event keeps
    the aggregate equal to the replay of its history. *)

From S2P Require Import Prelude JsValues ValueObjects Dates.

Record EventMetadata (Id : Type) : Type := Meta {
  aggregateId : Id;
  occurredAt : Timestamp.t;
  eventId : EventId;
  actorId : ActorId;
  causationId : option EventId;
  correlationId : option CorrelationId;
  event_version : option Z
}.
Arguments Meta {Id}.
Arguments aggregateId {Id}.
Arguments occurredAt {Id}.
Arguments eventId {Id}.
Arguments actorId {Id}.
Arguments causationId {Id}.
Arguments correlationId {Id}.
Arguments event_version {Id}.

(** An event object: the payload fields and the metadata fields. *)
Record DomainEvent (P Id : Type) : Type := Event {
  payload : P;
  meta : EventMetadata Id
}.
Arguments Event {P Id}.
Arguments payload {P Id}.
Arguments meta {P Id}.

(** The [on{EventType}] handlers of an aggregate's fields [S]. *)
Class EventSourced (S E : Type) : Type := {
  (** the fields of a freshly constructed aggregate *)
  blank : S;
  (** the handler for an event; it may throw *)
  on_event : E -> js S error unit
}.

Record aggregate (Id S E : Type) : Type := Aggregate {
  id : Id;
  state : S;
  uncommitted : list E;
  version : Z
}.
Arguments Aggregate {Id S E}.
Arguments id {Id S E}.
Arguments state {Id S E}.
Arguments uncommitted {Id S E}.
Arguments version {Id S E}.

Section Operations.
Context {Id S E : Type} `{EventSourced S E}.

Notation agg := (aggregate Id S E).
Notation run := (js agg error unit).

Definition set_state (s : S) (a : agg) : agg :=
  Aggregate (id a) s (uncommitted a) (version a).
Definition push_uncommitted (e : E) (a : agg) : agg :=
  Aggregate (id a) (state a) (uncommitted a ++ [e]) (version a).
Definition bump (a : agg) : agg :=
  Aggregate (id a) (state a) (uncommitted a) (version a + 1)%Z.

(** [new C(id)] *)
Definition fresh (i : Id) : agg := Aggregate i blank [] 0%Z.

Definition applyEvent (e : E) : run := fun a =>
  let '(r, s) := on_event e (state a) in (r, set_state s a).

(** The event is recorded before its handler runs. *)
Definition apply (e : E) : run :=
  _ ← modify (push_uncommitted e);
  _ ← applyEvent e;
  modify bump.

Definition getUncommittedEvents (a : agg) : list E := uncommitted a.

Definition markEventsAsCommitted (a : agg) : agg := Aggregate (id a) (state a) [] (version a).

Definition loadFromHistory (events : list E) : run :=
  for_each events (fun e => _ ← applyEvent e; modify bump).

Definition restoreVersion (v : Z) (a : agg) : agg := Aggregate (id a) (state a) (uncommitted a) v.

(** [loadFromHistory] then [markEventsAsCommitted], on [a]. *)
Definition reload (a : agg) (events : list E) : result error agg :=
  match loadFromHistory events a with
  | (Ok _, a') => Ok (markEventsAsCommitted a')
  | (Err e, _) => Err e
  end.

(** [C.reconstitute(id, events)] *)
Definition reconstitute (i : Id) (events : list E) : result error agg := reload (fresh i) events.

(** ** Replay *)

(** [a] is what replaying [h] and then the uncommitted events gives. *)
Definition replays (h : list E) (a : agg) : Prop :=
  reconstitute (id a) (h ++ uncommitted a) = Ok (markEventsAsCommitted a).

(** On [a] the command leaves the aggregate alone (when it throws or decides
    there is nothing to do) or applies exactly one event. *)
Definition emits_one (cmd : run) (a : agg) : Prop :=
  (exists r, cmd a = (r, a)) \/ (exists e a', apply e a = (Ok tt, a') /\ cmd a = (Ok tt, a')).

Lemma apply_ok e a a' :
  apply e a = (Ok tt, a') <->
  exists s, on_event e (state a) = (Ok tt, s) /\
    a' = Aggregate (id a) s (uncommitted a ++ [e]) (version a + 1)%Z.
Proof.
  unfold apply, applyEvent, modify, mbind, js_bind. simpl.
  destruct (on_event e (state a)) as [[[]|err] s]; simpl; split; try naive_solver.
Qed.

Lemma loadFromHistory_app h1 h2 a :
  loadFromHistory (h1 ++ h2) a = (loadFromHistory h1 ≫= fun _ => loadFromHistory h2) a.
Proof.
  unfold loadFromHistory. revert a. induction h1 as [|e h1 IH]; intros a; [done|].
  simpl. unfold mbind, js_bind, applyEvent, modify in *.
  destruct (on_event e (state a)) as [[[]|err] s]; [|done]. apply IH.
Qed.

Lemma reload_app a h1 h2 :
  reload a (h1 ++ h2) =
    match loadFromHistory h1 a with (Ok _, a1) => reload a1 h2 | (Err e, _) => Err e end.
Proof.
  unfold reload. rewrite loadFromHistory_app. unfold mbind, js_bind.
  by destruct (loadFromHistory h1 a) as [[[]|e] a1].
Qed.

(** Replay never looks at the uncommitted events. *)
Lemma reload_uncommitted a h :
  reload (markEventsAsCommitted a) h = reload a h.
Proof.
  unfold reload, loadFromHistory. revert a. induction h as [|e h IH]; intros a; [done|].
  simpl. unfold mbind, js_bind, applyEvent, modify in *. simpl.
  destruct (on_event e (state a)) as [[[]|err] s]; [|done].
  specialize (IH (bump (set_state s a))). exact IH.
Qed.

Lemma reload_snoc a h e s a1 :
  reload a h = Ok a1 -> on_event e (state a1) = (Ok tt, s) ->
  reload a (h ++ [e]) = Ok (Aggregate (id a1) s [] (version a1 + 1)%Z).
Proof.
  rewrite reload_app. unfold reload at 1.
  destruct (loadFromHistory h a) as [[[]|err] a2]; [|done]. intros [= <-] Hon.
  unfold reload, loadFromHistory, for_each, mbind, js_bind, applyEvent, modify. simpl in *.
  by rewrite Hon.
Qed.

Lemma fresh_replays i : replays [] (fresh i).
Proof. done. Qed.

Lemma apply_replays h e a a' :
  replays h a -> apply e a = (Ok tt, a') -> replays h a'.
Proof.
  intros Hr (s & Hon & ->)%apply_ok. unfold replays in *. simpl.
  rewrite app_assoc. by apply (reload_snoc _ _ _ _ _ Hr).
Qed.

Lemma emits_one_replays h cmd a : emits_one cmd a -> replays h a -> replays h (cmd a).2.
Proof.
  intros Hc Hr. destruct Hc as [[r ->]|(e & a' & Ha & ->)]; [done|].
  by apply (apply_replays h e a).
Qed.

(** Committing moves the uncommitted events to the history. *)
Lemma commit_replays h a : replays h a -> replays (h ++ uncommitted a) (markEventsAsCommitted a).
Proof. unfold replays. simpl. by rewrite app_nil_r. Qed.

(** The version counts the events. *)
Lemma reload_version a h a' :
  reload a h = Ok a' -> version a' = (version a + Z.of_nat (length h))%Z /\ id a' = id a.
Proof.
  unfold reload, loadFromHistory. revert a. induction h as [|e h IH]; intros a; simpl.
  - intros [= <-]. simpl. split; [lia|done].
  - unfold mbind, js_bind, applyEvent, modify in *.
    destruct (on_event e (state a)) as [[[]|err] s]; [|done]. intros Hl.
    destruct (IH _ Hl) as [-> ->]. simpl. split; [lia|done].
Qed.

(** ** Runs of several commands, each on the object the previous one left *)

Definition run_all (cmds : list run) (a : agg) : agg :=
  fold_left (fun a cmd => (cmd a).2) cmds a.

Lemma run_all_inv (P : agg -> Prop) cmds a :
  Forall (fun cmd : run => forall b, P b -> P (cmd b).2) cmds -> P a -> P (run_all cmds a).
Proof.
  unfold run_all. intros Hc. revert a. induction Hc as [|c cs Hc _ IH]; intros a Ha; [done|].
  simpl. by apply IH, Hc.
Qed.

Lemma run_all_replays h cmds a :
  Forall (fun cmd => forall b, emits_one cmd b) cmds ->
  replays h a -> replays h (run_all cmds a).
Proof.
  intros Hc. apply run_all_inv. eapply Forall_impl; [exact Hc|].
  intros c Hone b. by apply emits_one_replays.
Qed.

Lemma emits_one_id cmd a : emits_one cmd a -> id (cmd a).2 = id a.
Proof. intros [[r ->]|(e & a' & (s & _ & ->)%apply_ok & ->)]; done. Qed.

Lemma reload_committed a h a' : reload a h = Ok a' -> markEventsAsCommitted a' = a'.
Proof. unfold reload. destruct (loadFromHistory h a) as [[?|?] ?]; naive_solver. Qed.

Lemma reconstitute_replays i h a : reconstitute i h = Ok a -> replays h a.
Proof.
  intros Ha. unfold replays. destruct (reload_version _ _ _ Ha) as [_ ->].
  rewrite <- (reload_committed _ _ _ Ha) at 1. simpl. rewrite app_nil_r.
  by rewrite (reload_committed _ _ _ Ha).
Qed.

(** An aggregate loaded from [h] and put through commands is the replay of [h]
    and of the events the commands emitted; its version counts both. *)
Lemma run_all_replay i h cmds a :
  Forall (fun cmd => forall b, emits_one cmd b) cmds -> reconstitute i h = Ok a ->
  let a' := run_all cmds a in
  reconstitute i (h ++ getUncommittedEvents a') = Ok (markEventsAsCommitted a') /\
  version a' = Z.of_nat (length (h ++ getUncommittedEvents a')).
Proof.
  intros Hc Ha a'. pose proof (run_all_replays h cmds a Hc (reconstitute_replays i h a Ha)) as Hr.
  assert (id a' = i) as Hi.
  { apply run_all_inv.
    - eapply Forall_impl; [exact Hc|]. intros c Hone b <-. by apply emits_one_id.
    - by destruct (reload_version _ _ _ Ha) as [_ ->]. }
  unfold replays in Hr. fold a' in Hr. rewrite Hi in Hr. split; [exact Hr|].
  apply (reload_version _ _ _ Hr).
Qed.
(** The events that commands emit on a loaded aggregate, replayed on the
    aggregate as it was loaded, give what the commands left. *)
Lemma run_all_reload cmds a :
  Forall (fun cmd => forall b, emits_one cmd b) cmds -> uncommitted a = [] ->
  id (run_all cmds a) = id a /\
  reload a (uncommitted (run_all cmds a)) = Ok (markEventsAsCommitted (run_all cmds a)).
Proof.
  intros Hc Hu. apply (run_all_inv (fun b => id b = id a /\ reload a (uncommitted b) = Ok (markEventsAsCommitted b))).
  - eapply Forall_impl; [exact Hc|]. intros c Hone b [Hi Hb]. split; [by rewrite emits_one_id|].
    destruct (Hone b) as [[r ->]|(e & b' & (s & Hs & ->)%apply_ok & ->)]; [done|]. simpl.
    exact (reload_snoc _ _ _ _ _ Hb Hs).
  - split; [done|]. rewrite Hu. unfold reload, loadFromHistory. simpl. done.
Qed.
End Operations.

(** ** Deriving [emits_one] from the shape of a command

    A command reads the aggregate, asserts, and ends in one [apply]. *)
Section EmitsOne.
Context {Id S E : Type} `{EventSourced S E}.
Notation agg := (aggregate Id S E).

Lemma emits_one_reads {A} (f : agg -> result error A) (k : A -> js agg error unit) a :
  (forall x, f a = Ok x -> emits_one (k x) a) -> emits_one (reads f ≫= k) a.
Proof.
  unfold emits_one, reads, mbind, js_bind. intros Hk.
  destruct (f a) as [x|e] eqn:Hf; [by apply Hk|]. left. by eexists.
Qed.

Lemma emits_one_lift {A} (r : result error A) (k : A -> js agg error unit) a :
  (forall x, r = Ok x -> emits_one (k x) a) -> emits_one (lift_result r ≫= k) a.
Proof.
  unfold emits_one, lift_result, mbind, js_bind. intros Hk.
  destruct r as [x|e]; [by apply Hk|]. left. by eexists.
Qed.

Lemma emits_one_gets {A} (f : agg -> A) (k : A -> js agg error unit) a :
  emits_one (k (f a)) a -> emits_one (gets f ≫= k) a.
Proof. done. Qed.

Lemma emits_one_ret (a : agg) : emits_one skip a.
Proof. left. by eexists. Qed.

Lemma emits_one_if (b : bool) (c d : js agg error unit) a :
  (b = true -> emits_one c a) -> (b = false -> emits_one d a) ->
  emits_one (if b then c else d) a.
Proof. destruct b; auto. Qed.

Lemma emits_one_apply e (a : agg) :
  (exists s, on_event e (state a) = (Ok tt, s)) -> emits_one (apply e) a.
Proof.
  intros [s Hs]. right.
  assert (apply e a = (Ok tt, Aggregate (id a) s (uncommitted a ++ [e]) (version a + 1)%Z))
    by (apply apply_ok; by exists s).
  by eexists _, _.
Qed.
End EmitsOne.

Ltac emits_one :=
  repeat (intros; match goal with
  | |- emits_one (reads _ ≫= _) _ => apply emits_one_reads
  | |- emits_one (lift_result _ ≫= _) _ => apply emits_one_lift
  | |- emits_one (gets _ ≫= _) _ => apply emits_one_gets
  | |- emits_one skip _ => apply emits_one_ret
  | |- emits_one (if _ then _ else _) _ => apply emits_one_if
  | |- emits_one (apply _) _ => apply emits_one_apply
  end).
