(* ===== verification/EventCodec.v ===== *)
(** * Encoding events for storage

    [packages/domain/src/shared/eventSpec.ts] (field mappers),
    [packages/infrastructure/src/eventing/runtime.ts], [types.ts],
    [upcast.ts] and [migrations.ts].  A spec's [fields] object is the
    heterogeneous list [fields P]; encoding and decoding walk it in order, as
    the [for ... in] loops of [runtime.ts] do. *)

From S2P Require Import Prelude JsValues ValueObjects Dates AggregateRoot.

(** ** Field mappers

    [decode] takes [obj[k]], where [None] is [undefined]. *)

Record FieldMapper (T : Type) : Type := Mapper {
  encode : T -> json;
  decode : option json -> result error T
}.
Arguments Mapper {T}.
Arguments encode {T}.
Arguments decode {T}.

(** [voString(from)] for a value object with string [value] [val]. *)
Definition voString {T} (val : T -> string) (from : string -> result error T) : FieldMapper T :=
  Mapper (fun v => JStr (val v)) (fun u =>
    match u with Some (JStr s) => from s | _ => Err (PlainError "Expected string") end).

(** [voNumber(from)] *)
Definition voNumber {T} (val : T -> number) (from : number -> result error T) : FieldMapper T :=
  Mapper (fun v => JNum (val v)) (fun u =>
    match u with
    | Some (JNum n) =>
        if isFinite n then from n else Err (PlainError "Expected finite number")
    | _ => Err (PlainError "Expected finite number")
    end).

Definition stringField : FieldMapper string :=
  Mapper JStr (fun u =>
    match u with Some (JStr s) => Ok s | _ => Err (PlainError "Expected string") end).

Definition numberField : FieldMapper number :=
  Mapper JNum (fun u =>
    match u with
    | Some (JNum n) => if isFinite n then Ok n else Err (PlainError "Expected finite number")
    | _ => Err (PlainError "Expected finite number")
    end).

(** [nullable(mapper)] *)
Definition nullable {T} (m : FieldMapper T) : FieldMapper (option T) :=
  Mapper (fun v => match v with None => JNull | Some x => encode m x end)
    (fun u => match u with
      | Some JNull => Ok None
      | _ => match decode m u with Ok x => Ok (Some x) | Err e => Err e end
      end).

(** The mapper gives back the value it encoded (and, for [nullable], does not
    encode it as [null]). *)
Definition roundtrips {T} (m : FieldMapper T) (v : T) : Prop :=
  decode m (Some (encode m v)) = Ok v /\ encode m v <> JNull.

Lemma voString_roundtrips {T} (val : T -> string) from v :
  from (val v) = Ok v -> roundtrips (voString val from) v.
Proof. by split. Qed.

Lemma voNumber_roundtrips {T} (val : T -> number) from v :
  isFinite (val v) = true -> from (val v) = Ok v -> roundtrips (voNumber val from) v.
Proof. intros Hf Hv. split; [|done]. simpl. by rewrite Hf. Qed.

Lemma stringField_roundtrips s : roundtrips stringField s.
Proof. done. Qed.

Lemma nullable_roundtrips {T} (m : FieldMapper T) v :
  match v with Some x => roundtrips m x | None => True end ->
  decode (nullable m) (Some (encode (nullable m) v)) = Ok v.
Proof.
  destruct v as [x|]; [|done]. intros [Hd Hn]. simpl.
  destruct (encode m x) eqn:E; try done; by rewrite Hd.
Qed.

(** ** The fields of a payload *)

Inductive fields : Type -> Type :=
| F_nil : fields unit
| F_cons {T P : Type} (k : string) (m : FieldMapper T) (rest : fields P) : fields (T * P).

Fixpoint field_names {P} (fs : fields P) : list string :=
  match fs with F_nil => [] | F_cons k _ rest => k :: field_names rest end.

(** [for (const k in fields) payload[k] = fields[k].encode(event[k])] *)
Fixpoint encode_fields {P} (fs : fields P) : P -> list (string * json) :=
  match fs with
  | F_nil => fun _ => []
  | F_cons k m rest => fun '(v, p) => (k, encode m v) :: encode_fields rest p
  end.

(** [for (const k in fields) p[k] = fields[k].decode(obj[k])] *)
Fixpoint decode_fields {P} (fs : fields P) (obj : list (string * json)) : result error P :=
  match fs with
  | F_nil => Ok tt
  | F_cons k m rest =>
      v ← decode m (assoc k obj);
      p ← decode_fields rest obj;
      Ok (v, p)
  end.

(** Each field's mapper gives the field of [p] back. *)
Fixpoint fields_roundtrip {P} (fs : fields P) : P -> Prop :=
  match fs with
  | F_nil => fun _ => True
  | F_cons k m rest => fun '(v, p) =>
      decode m (Some (encode m v)) = Ok v /\ fields_roundtrip rest p
  end.

Lemma assoc_app_notin {A} k (l l' : list (string * A)) :
  k ∉ l.*1 -> assoc k (l ++ l') = assoc k l'.
Proof.
  induction l as [|[k' v] l IH]; [done|]. csimpl. intros H.
  destruct (decide (k = k')) as [->|]; [set_solver|]. apply IH. set_solver.
Qed.

Lemma encode_fields_names {P} (fs : fields P) p : (encode_fields fs p).*1 = field_names fs.
Proof.
  induction fs as [|T P k m rest IH]; [done|]. destruct p as [v p]. csimpl. by rewrite IH.
Qed.

Lemma decode_encode_fields_after {P} (fs : fields P) p pre :
  NoDup (pre.*1 ++ field_names fs) -> fields_roundtrip fs p ->
  decode_fields fs (pre ++ encode_fields fs p) = Ok p.
Proof.
  revert pre. induction fs as [|T P k m rest IH]; intros pre Hnd Hrt; [by destruct p|].
  destruct p as [v p]. destruct Hrt as [Hd Hrt]. simpl in *.
  assert (k ∉ pre.*1) as Hk.
  { apply NoDup_app in Hnd as (_ & Hnd & _). intros Hin. apply (Hnd k Hin). set_solver. }
  rewrite assoc_app_notin by done. simpl. rewrite decide_True by done. rewrite Hd. simpl.
  specialize (IH p (pre ++ [(k, encode m v)])).
  rewrite <- app_assoc in IH. simpl in IH. rewrite IH; [done| |done].
  rewrite fmap_app, <- app_assoc. exact Hnd.
Qed.

Lemma decode_encode_fields {P} (fs : fields P) p :
  NoDup (field_names fs) -> fields_roundtrip fs p ->
  decode_fields fs (encode_fields fs p) = Ok p.
Proof. apply (decode_encode_fields_after fs p []). Qed.

(** ** Payload versions *)

Definition MigrationStep : Type := json -> result error json.

Record MigrationPlan : Type := Plan {
  latestVersion : Z;
  steps : list (Z * MigrationStep)
}.

Definition plan_v1 : MigrationPlan := Plan 1 [].

(** [migrations]: every plan is at version 1 and has no step; [GoalUnachieved]
    has no entry. *)
Definition migrations : list (string * MigrationPlan) :=
  map (fun ty => (ty, plan_v1))
    ["GoalCreated"; "GoalRefined"; "GoalRecategorized"; "GoalRescheduled"; "GoalPrioritized";
     "GoalAchieved"; "GoalArchived"; "GoalAccessGranted"; "GoalAccessRevoked";
     "ProjectCreated"; "ProjectStatusTransitioned"; "ProjectRescheduled"; "ProjectRenamed";
     "ProjectDescribed"; "ProjectGoalAdded"; "ProjectGoalRemoved"; "ProjectMilestoneAdded";
     "ProjectMilestoneRescheduled"; "ProjectMilestoneRenamed"; "ProjectMilestoneArchived";
     "ProjectArchived"].

Section Upcast.
Variable table : list (string * MigrationPlan).

Definition latest_version_in (type : string) : Z :=
  match assoc type table with Some plan => latestVersion plan | None => 1 end.

Definition step_at (v : Z) (plan : MigrationPlan) : option MigrationStep :=
  match list_find (fun '(v', _) => v' = v) (steps plan) with
  | Some (_, (_, step)) => Some step
  | None => None
  end.

(** The [while (currentVersion < plan.latestVersion)] loop, which runs once per
    version that separates [v] from the latest one ([n] of them). *)
Fixpoint upcast_loop (n : nat) (type : string) (plan : MigrationPlan) (v : Z) (p : json)
    : result error json :=
  match n with
  | O => Ok p
  | S n' =>
      match step_at v plan with
      | None => Err (PlainError (type +:+ ": missing migration"))
      | Some step => p' ← step p; upcast_loop n' type plan (v + 1) p'
      end
  end.

Definition upcast_in (type : string) (v : Z) (p : json) : result error json :=
  match assoc type table with
  | None => Ok p
  | Some plan =>
      if (latestVersion plan <? v)%Z then Err (PlainError (type +:+ ": future version"))
      else upcast_loop (Z.to_nat (latestVersion plan - v)) type plan v p
  end.
End Upcast.

Definition latestVersionOf : string -> Z := latest_version_in migrations.
Definition upcastPayload : string -> Z -> json -> result error json := upcast_in migrations.

(** ** Specs and persisted events *)

Record PersistedEvent : Type := Persisted {
  p_type : string;
  p_version : Z;
  p_payload : json
}.

Record PayloadEventSpec (Pay Id : Type) : Type := Spec {
  spec_type : string;
  spec_P : Type;
  spec_fields : fields spec_P;
  spec_ctor : spec_P -> EventMetadata Id -> DomainEvent Pay Id
}.
Arguments Spec {Pay Id}.
Arguments spec_type {Pay Id}.
Arguments spec_P {Pay Id}.
Arguments spec_fields {Pay Id}.
Arguments spec_ctor {Pay Id}.

Section Runtime.
Context {Pay Id : Type}.

(** [p]: the fields of the event object that the spec names. *)
Definition encodeLatest (spec : PayloadEventSpec Pay Id) (p : spec_P spec) : PersistedEvent :=
  Persisted (spec_type spec) (latestVersionOf (spec_type spec))
    (JObj (encode_fields (spec_fields spec) p)).

(** [typeof v === 'object' && v !== null]: an array is an object without any
    of the spec's fields. *)
Definition as_object (v : json) : option (list (string * json)) :=
  match v with JObj o => Some o | JArr _ => Some [] | _ => None end.

Definition decode_event (spec : PayloadEventSpec Pay Id) (rec : PersistedEvent)
    (m : EventMetadata Id) : result error (DomainEvent Pay Id) :=
  latestPayload ← upcastPayload (p_type rec) (p_version rec) (p_payload rec);
  match as_object latestPayload with
  | None => Err (PlainError (p_type rec +:+ ": payload must be an object"))
  | Some obj => p ← decode_fields (spec_fields spec) obj; mret (spec_ctor spec p m)
  end.

(** [byType.get(rec.type)] over the registry [specs], whose types differ. *)
Definition decodePersisted (specs : list (PayloadEventSpec Pay Id)) (rec : PersistedEvent)
    (m : EventMetadata Id) : result error (DomainEvent Pay Id) :=
  match list_find (fun s => spec_type s = p_type rec) specs with
  | None => Err (PlainError ("Unknown type " +:+ p_type rec))
  | Some (_, spec) => decode_event spec rec m
  end.

End Runtime.

(** A record written at the latest version needs no migration. *)
Lemma upcast_latest table type p :
  match assoc type table with Some plan => upcast_in table type (latestVersion plan) p = Ok p | None => True end.
Proof.
  destruct (assoc type table) as [plan|] eqn:E; [|done].
  unfold upcast_in. rewrite E, Z.ltb_irrefl, Z.sub_diag. done.
Qed.

Lemma upcastPayload_latest type p : upcastPayload type (latestVersionOf type) p = Ok p.
Proof.
  unfold upcastPayload, latestVersionOf, latest_version_in.
  pose proof (upcast_latest migrations type p) as H.
  destruct (assoc type migrations) eqn:E; [done|]. unfold upcast_in. by rewrite E.
Qed.

Lemma decode_encodeLatest {Pay Id} (spec : PayloadEventSpec Pay Id) p m :
  NoDup (field_names (spec_fields spec)) ->
  fields_roundtrip (spec_fields spec) p ->
  decode_event spec (encodeLatest spec p) m = Ok (spec_ctor spec p m).
Proof.
  intros Hnd Hrt. unfold decode_event, encodeLatest. simpl. rewrite upcastPayload_latest. simpl.
  by rewrite decode_encode_fields.
Qed.

Create HintDb codec.

(** The mappers of the value objects. *)
Definition voId {asserts} : FieldMapper (vo asserts) := voString value vo_new.
Definition voTimestamp : FieldMapper Timestamp.t := voNumber Timestamp.millis Timestamp.fromMillis.

Lemma voId_decode {asserts} (v : vo asserts) : decode voId (Some (encode voId v)) = Ok v.
Proof. apply vo_new_value. Qed.

Lemma voTimestamp_decode t : decode voTimestamp (Some (encode voTimestamp t)) = Ok t.
Proof.
  apply voNumber_roundtrips; [|apply Timestamp.fromMillis_millis].
  destruct t as [n H]. simpl. by destruct (isFinite n).
Qed.

#[export] Hint Extern 1 (decode voId _ = _) => exact (voId_decode _) : codec.
#[export] Hint Resolve voTimestamp_decode : codec.

(** Reduce a spec's round trip to its fields' round trips. *)
Ltac codec_roundtrip :=
  match goal with |- decodePersisted _ (encodeLatest ?spec ?q) ?m = _ =>
    transitivity (decode_event spec (encodeLatest spec q) m); [reflexivity|];
    rewrite decode_encodeLatest;
      [reflexivity
      |apply (bool_decide_unpack _); vm_compute; exact I
      |cbn [spec_fields fields_roundtrip]; repeat split; auto with codec]
  end.
