(* ===== verification/Samples.v ===== *)
(** * Concrete values

    The inputs on which the theorems' witnesses are evaluated. *)

From S2P Require Import Prelude JsValues ValueObjects Dates.

Definition id_a : string := "123e4567-e89b-42d3-a456-426614174000".
Definition id_b : string := "123e4567-e89b-42d3-a456-426614174001".

Definition goal_1 : GoalId := Vo id_a I.
Definition project_1 : ProjectId := Vo id_a I.
Definition milestone_1 : MilestoneId := Vo id_a I.
Definition milestone_2 : MilestoneId := Vo id_b I.
Definition scope_1 : ScopeId := Vo id_a I.
Definition resource_1 : ResourceId := Vo id_b I.
Definition grant_1 : GrantId := Vo id_a I.

Definition alice : UserId := Vo "alice" I.
Definition bob : UserId := Vo "bob" I.
Definition event_1 : EventId := Vo "e1" I.
Definition event_2 : EventId := Vo "e2" I.
Definition event_3 : EventId := Vo "e3" I.

Definition marathon : Summary := Vo "Run a marathon" I.
Definition may_2026 : Month.t := Month.Mk 2026 5 I.
Definition noon : Timestamp.t := Timestamp.at_ms 1767225600000.
Definition later : Timestamp.t := Timestamp.at_ms 1767225600001.

Definition kitchen : ProjectName := Vo "Kitchen" I.
Definition bathroom : ProjectName := Vo "Bathroom" I.
Definition tiles : MilestoneName := Vo "Tiles" I.
Definition no_text : ProjectDescription := Vo "" I.
Definition jan_1 : LocalDate.t := Vo "2026-01-01" I.
Definition feb_1 : LocalDate.t := Vo "2026-02-01" I.
Definition mar_1 : LocalDate.t := Vo "2026-03-01" I.
