(* ===== verification/Goal.v ===== *)
(** * The Goal aggregate

    [packages/domain/src/goals/Goal.ts], its events
    ([packages/domain/src/goals/events/*.ts]) and [vos/AccessEntry.ts].  The
    payload type has one constructor per event class; [construct] is the
    event's constructor, which takes the goal id and the date field from the
    metadata.  A command is a [js] computation on the aggregate; the fresh
    [EventId.create()] is its last argument. *)

From S2P Require Import Prelude JsValues ValueObjects Dates AggregateRoot EventCodec Samples.

Module Goal.

(** ** Events *)

Inductive payload_t : Type :=
| GoalCreated (goalId : GoalId) (slice : Slice.t) (summary : Summary) (targetMonth : Month.t)
    (priority : Priority.t) (createdBy : UserId) (createdAt : Timestamp.t)
| GoalRefined (goalId : GoalId) (summary : Summary) (changedAt : Timestamp.t)
| GoalRecategorized (goalId : GoalId) (slice : Slice.t) (changedAt : Timestamp.t)
| GoalRescheduled (goalId : GoalId) (targetMonth : Month.t) (changedAt : Timestamp.t)
| GoalPrioritized (goalId : GoalId) (priority : Priority.t) (changedAt : Timestamp.t)
| GoalAchieved (goalId : GoalId) (achievedAt : Timestamp.t)
| GoalUnachieved (goalId : GoalId) (unachievedAt : Timestamp.t)
| GoalArchived (goalId : GoalId) (archivedAt : Timestamp.t)
| GoalAccessGranted (goalId : GoalId) (grantedTo : UserId) (permission : Permission.t)
    (grantedAt : Timestamp.t)
| GoalAccessRevoked (goalId : GoalId) (revokedFrom : UserId) (revokedAt : Timestamp.t).

Definition event : Type := DomainEvent payload_t GoalId.

(** [eventType] *)
Definition type_of (p : payload_t) : string :=
  match p with
  | GoalCreated _ _ _ _ _ _ _ => "GoalCreated"
  | GoalRefined _ _ _ => "GoalRefined"
  | GoalRecategorized _ _ _ => "GoalRecategorized"
  | GoalRescheduled _ _ _ => "GoalRescheduled"
  | GoalPrioritized _ _ _ => "GoalPrioritized"
  | GoalAchieved _ _ => "GoalAchieved"
  | GoalUnachieved _ _ => "GoalUnachieved"
  | GoalArchived _ _ => "GoalArchived"
  | GoalAccessGranted _ _ _ _ => "GoalAccessGranted"
  | GoalAccessRevoked _ _ _ => "GoalAccessRevoked"
  end.

(** [new GoalX(payload, meta)]: [goalId] is [meta.aggregateId] and the date
    field is [meta.occurredAt], whatever the payload holds. *)
Definition construct (p : payload_t) (m : EventMetadata GoalId) : event :=
  let g := aggregateId m in
  let at_ := occurredAt m in
  Event (match p with
    | GoalCreated _ sl su tm pr cb _ => GoalCreated g sl su tm pr cb at_
    | GoalRefined _ su _ => GoalRefined g su at_
    | GoalRecategorized _ sl _ => GoalRecategorized g sl at_
    | GoalRescheduled _ tm _ => GoalRescheduled g tm at_
    | GoalPrioritized _ pr _ => GoalPrioritized g pr at_
    | GoalAchieved _ _ => GoalAchieved g at_
    | GoalUnachieved _ _ => GoalUnachieved g at_
    | GoalArchived _ _ => GoalArchived g at_
    | GoalAccessGranted _ u pe _ => GoalAccessGranted g u pe at_
    | GoalAccessRevoked _ u _ => GoalAccessRevoked g u at_
    end) m.

(** ** Access entries *)

Record AccessEntry : Type := Entry {
  userId : UserId;
  permission : Permission.t;
  grantedAt : Timestamp.t;
  revokedAt : option Timestamp.t
}.
Definition isActive (e : AccessEntry) : bool :=
  match revokedAt e with None => true | Some _ => false end.
Definition createEntry (u : UserId) (p : Permission.t) (t : Timestamp.t) : AccessEntry :=
  Entry u p t None.
Definition revokeEntry (t : Timestamp.t) (e : AccessEntry) : AccessEntry :=
  Entry (userId e) (permission e) (grantedAt e) (Some t).

(** The predicate of the [find] calls. *)
Definition active_for (u : UserId) (e : AccessEntry) : bool := equals (userId e) u && isActive e.

(** ** Fields *)

Record fields_t : Type := Fields {
  slice : option Slice.t;
  summary : option Summary;
  targetMonth : option Month.t;
  priority : option Priority.t;
  createdBy : option UserId;
  createdAt : option Timestamp.t;
  achievedAt : option Timestamp.t;
  archivedAt : option Timestamp.t;
  accessList : list AccessEntry
}.

Definition blank_fields : fields_t := Fields None None None None None None None None [].

(** ** Event handlers *)

Definition onGoalCreated sl su tm pr cb ca (s : fields_t) : fields_t :=
  Fields (Some sl) (Some su) (Some tm) (Some pr) (Some cb) (Some ca)
    (achievedAt s) (archivedAt s) (accessList s).
Definition onGoalRefined su (s : fields_t) : fields_t :=
  Fields (slice s) (Some su) (targetMonth s) (priority s) (createdBy s) (createdAt s)
    (achievedAt s) (archivedAt s) (accessList s).
Definition onGoalRecategorized sl (s : fields_t) : fields_t :=
  Fields (Some sl) (summary s) (targetMonth s) (priority s) (createdBy s) (createdAt s)
    (achievedAt s) (archivedAt s) (accessList s).
Definition onGoalRescheduled tm (s : fields_t) : fields_t :=
  Fields (slice s) (summary s) (Some tm) (priority s) (createdBy s) (createdAt s)
    (achievedAt s) (archivedAt s) (accessList s).
Definition onGoalPrioritized pr (s : fields_t) : fields_t :=
  Fields (slice s) (summary s) (targetMonth s) (Some pr) (createdBy s) (createdAt s)
    (achievedAt s) (archivedAt s) (accessList s).
(** [onGoalAchieved] ([Some t]) and [onGoalUnachieved] ([None]). *)
Definition setAchievedAt (t : option Timestamp.t) (s : fields_t) : fields_t :=
  Fields (slice s) (summary s) (targetMonth s) (priority s) (createdBy s) (createdAt s)
    t (archivedAt s) (accessList s).
Definition onGoalArchived t (s : fields_t) : fields_t :=
  Fields (slice s) (summary s) (targetMonth s) (priority s) (createdBy s) (createdAt s)
    (achievedAt s) (Some t) (accessList s).
Definition setAccessList (l : list AccessEntry) (s : fields_t) : fields_t :=
  Fields (slice s) (summary s) (targetMonth s) (priority s) (createdBy s) (createdAt s)
    (achievedAt s) (archivedAt s) l.
Definition onGoalAccessGranted u p t (s : fields_t) : fields_t :=
  setAccessList (accessList s ++ [createEntry u p t]) s.

(** Revoke the first active entry of [u], if there is one. *)
Fixpoint revoke_first (u : UserId) (t : Timestamp.t) (l : list AccessEntry) : list AccessEntry :=
  match l with
  | [] => []
  | e :: l' => if active_for u e then revokeEntry t e :: l' else e :: revoke_first u t l'
  end.
Definition onGoalAccessRevoked u t (s : fields_t) : fields_t :=
  setAccessList (revoke_first u t (accessList s)) s.

Definition handle (p : payload_t) : fields_t -> fields_t :=
  match p with
  | GoalCreated _ sl su tm pr cb ca => onGoalCreated sl su tm pr cb ca
  | GoalRefined _ su _ => onGoalRefined su
  | GoalRecategorized _ sl _ => onGoalRecategorized sl
  | GoalRescheduled _ tm _ => onGoalRescheduled tm
  | GoalPrioritized _ pr _ => onGoalPrioritized pr
  | GoalAchieved _ t => setAchievedAt (Some t)
  | GoalUnachieved _ _ => setAchievedAt None
  | GoalArchived _ t => onGoalArchived t
  | GoalAccessGranted _ u p t => onGoalAccessGranted u p t
  | GoalAccessRevoked _ u t => onGoalAccessRevoked u t
  end.

#[export] Instance goal_sourced : EventSourced fields_t event := {|
  blank := blank_fields;
  on_event e := modify (handle (payload e))
|}.

Definition t : Type := aggregate GoalId fields_t event.

(** ** Commands *)

Definition isAchieved (a : t) : bool :=
  match achievedAt (state a) with Some _ => true | None => false end.
Definition isArchived (a : t) : bool :=
  match archivedAt (state a) with Some _ => true | None => false end.

Definition assertNotArchived (a : t) : result error unit :=
  Assert.isNull (archivedAt (state a)) "Goal is archived".

(** [new GoalX({goalId: this.id, ...}, {aggregateId: this.id, occurredAt, eventId, actorId})] *)
Definition emit (p : payload_t) (at_ : Timestamp.t) (actor : UserId) (eid : EventId)
    (causation : option EventId) (correlation : option CorrelationId) : js t error unit :=
  fun a => apply (construct p (Meta (id a) at_ eid (actor_of actor) causation correlation None)) a.

Definition create (i : GoalId) (sl : Slice.t) (su : Summary) (tm : Month.t) (pr : Priority.t)
    (cb : UserId) (ca : Timestamp.t) (eid : EventId) : result error t :=
  let goal : t := fresh i in
  match emit (GoalCreated i sl su tm pr cb ca) ca cb eid None None goal with
  | (Ok _, goal) => Ok goal
  | (Err e, _) => Err e
  end.

Definition changeSummary (su : Summary) (at_ : Timestamp.t) (actor : UserId) (eid : EventId) : js t error unit :=
  _ ← reads assertNotArchived;
  current ← reads (fun a => defined (summary (state a)) "Summary");
  _ ← lift_result (Assert.isFalse (equals su current) "Summary unchanged");
  i ← gets id;
  emit (GoalRefined i su at_) at_ actor eid None None.

Definition changeSlice (sl : Slice.t) (at_ : Timestamp.t) (actor : UserId) (eid : EventId) : js t error unit :=
  _ ← reads assertNotArchived;
  current ← reads (fun a => defined (slice (state a)) "Slice");
  _ ← lift_result (Assert.isFalse (Slice.equals sl current) "Slice unchanged");
  i ← gets id;
  emit (GoalRecategorized i sl at_) at_ actor eid None None.

Definition changeTargetMonth (tm : Month.t) (at_ : Timestamp.t) (actor : UserId) (eid : EventId) : js t error unit :=
  _ ← reads assertNotArchived;
  current ← reads (fun a => defined (targetMonth (state a)) "TargetMonth");
  _ ← lift_result (Assert.isFalse (Month.equals tm current) "Target month unchanged");
  i ← gets id;
  emit (GoalRescheduled i tm at_) at_ actor eid None None.

Definition changePriority (pr : Priority.t) (at_ : Timestamp.t) (actor : UserId) (eid : EventId) : js t error unit :=
  _ ← reads assertNotArchived;
  current ← reads (fun a => defined (priority (state a)) "Priority");
  _ ← lift_result (Assert.isFalse (Priority.equals pr current) "Priority unchanged");
  i ← gets id;
  emit (GoalPrioritized i pr at_) at_ actor eid None None.

Definition achieve (at_ : Timestamp.t) (actor : UserId) (correlation : option CorrelationId)
    (causation : option EventId) (eid : EventId) : js t error unit :=
  _ ← reads assertNotArchived;
  _ ← reads (fun a => Assert.isFalse (isAchieved a) "Goal already achieved");
  i ← gets id;
  emit (GoalAchieved i at_) at_ actor eid causation correlation.

Definition unachieve (at_ : Timestamp.t) (actor : UserId) (correlation : option CorrelationId)
    (causation : option EventId) (eid : EventId) : js t error unit :=
  _ ← reads assertNotArchived;
  _ ← reads (fun a => Assert.isTrue (isAchieved a) "Goal not achieved");
  i ← gets id;
  emit (GoalUnachieved i at_) at_ actor eid causation correlation.

Definition archive (at_ : Timestamp.t) (actor : UserId) (eid : EventId) : js t error unit :=
  gets isArchived ≫= fun archived : bool =>
  if archived then skip
  else (i ← gets id; emit (GoalArchived i at_) at_ actor eid None None).

Definition find_active (u : UserId) (a : t) : option AccessEntry :=
  List.find (active_for u) (accessList (state a)).

Definition grantAccess (u : UserId) (p : Permission.t) (at_ : Timestamp.t) (actor : UserId)
    (eid : EventId) : js t error unit :=
  _ ← reads assertNotArchived;
  _ ← reads (fun a => Assert.satisfies (fun e => match e with None => true | Some _ => false end)
        "User already has access to this goal" (find_active u a) "User already has access");
  i ← gets id;
  emit (GoalAccessGranted i u p at_) at_ actor eid None None.

Definition revokeAccess (u : UserId) (at_ : Timestamp.t) (actor : UserId) (eid : EventId) : js t error unit :=
  _ ← reads assertNotArchived;
  _ ← reads (fun a => Assert.isDefined (find_active u a) "Access entry");
  i ← gets id;
  emit (GoalAccessRevoked i u at_) at_ actor eid None None.

(** ** Snapshots *)

Record GoalSnapshot : Type := Snapshot {
  s_id : GoalId;
  s_summary : Summary;
  s_slice : Slice.t;
  s_priority : Priority.t;
  s_targetMonth : Month.t;
  s_createdBy : UserId;
  s_createdAt : Timestamp.t;
  s_achievedAt : option Timestamp.t;
  s_archivedAt : option Timestamp.t;
  s_version : Z
}.

Definition hydrateFromSnapshot (s : GoalSnapshot) (a : t) : t :=
  restoreVersion (s_version s) (set_state
    (Fields (Some (s_slice s)) (Some (s_summary s)) (Some (s_targetMonth s)) (Some (s_priority s))
      (Some (s_createdBy s)) (Some (s_createdAt s)) (s_achievedAt s) (s_archivedAt s) []) a).

Definition reconstituteFromSnapshot (s : GoalSnapshot) (tail : list event) : result error t :=
  reload (hydrateFromSnapshot s (fresh (s_id s))) tail.

End Goal.

(** ** Runs of commands *)

Module GoalRuns.
Import Goal.

Inductive command : Type :=
| ChangeSummary (su : Summary) (at_ : Timestamp.t) (actor : UserId) (eid : EventId)
| ChangeSlice (sl : Slice.t) (at_ : Timestamp.t) (actor : UserId) (eid : EventId)
| ChangeTargetMonth (tm : Month.t) (at_ : Timestamp.t) (actor : UserId) (eid : EventId)
| ChangePriority (pr : Priority.t) (at_ : Timestamp.t) (actor : UserId) (eid : EventId)
| Achieve (at_ : Timestamp.t) (actor : UserId) (correlation : option CorrelationId)
    (causation : option EventId) (eid : EventId)
| Unachieve (at_ : Timestamp.t) (actor : UserId) (correlation : option CorrelationId)
    (causation : option EventId) (eid : EventId)
| Archive (at_ : Timestamp.t) (actor : UserId) (eid : EventId)
| GrantAccess (u : UserId) (p : Permission.t) (at_ : Timestamp.t) (actor : UserId) (eid : EventId)
| RevokeAccess (u : UserId) (at_ : Timestamp.t) (actor : UserId) (eid : EventId).

Definition run_command (c : command) : js Goal.t error unit :=
  match c with
  | ChangeSummary su at_ actor eid => changeSummary su at_ actor eid
  | ChangeSlice sl at_ actor eid => changeSlice sl at_ actor eid
  | ChangeTargetMonth tm at_ actor eid => changeTargetMonth tm at_ actor eid
  | ChangePriority pr at_ actor eid => changePriority pr at_ actor eid
  | Achieve at_ actor co ca eid => achieve at_ actor co ca eid
  | Unachieve at_ actor co ca eid => unachieve at_ actor co ca eid
  | Archive at_ actor eid => archive at_ actor eid
  | GrantAccess u p at_ actor eid => grantAccess u p at_ actor eid
  | RevokeAccess u at_ actor eid => revokeAccess u at_ actor eid
  end.

Definition run_commands (cs : list command) (g : Goal.t) : Goal.t :=
  run_all (map run_command cs) g.

Lemma goal_emit_emits_one p at_ actor eid ca co (g : Goal.t) :
  emits_one (emit p at_ actor eid ca co) g.
Proof. right. eexists _, _. split; [|reflexivity]. by apply apply_ok; eexists. Qed.

Lemma goal_command_emits_one c g : emits_one (run_command c) g.
Proof.
  destruct c; simpl; unfold changeSummary, changeSlice, changeTargetMonth, changePriority,
    achieve, unachieve, archive, grantAccess, revokeAccess;
    emits_one; apply goal_emit_emits_one.
Qed.

(** Every event has a total handler, so a history always loads. *)
Lemma goal_reload_total (h : list event) (a : Goal.t) : exists g,
  reload a h = Ok g /\
  state g = fold_left (fun s e => handle (payload e) s) h (state a).
Proof.
  unfold reload. revert a. induction h as [|e h IH]; intros a; [by eexists|].
  unfold loadFromHistory in *. simpl. unfold mbind, js_bind, applyEvent, modify. simpl.
  destruct (IH (bump (set_state (handle (payload e) (state a)) a))) as (g & Hg & Hs).
  exists g. split; [exact Hg|]. by rewrite Hs.
Qed.

(** ** Which commands can change what *)

Lemma run_commands_inv (P : Goal.t -> Prop) :
  (forall c g, P g -> P (run_command c g).2) ->
  forall cs g, P g -> P (run_commands cs g).
Proof.
  intros H cs g. apply run_all_inv, Forall_map, Forall_true. intros c b. apply H.
Qed.

Definition active_count (u : UserId) (l : list AccessEntry) : nat :=
  length (filter (fun e => active_for u e = true) l).

Lemma find_active_none u l : List.find (active_for u) l = None <-> active_count u l = 0.
Proof.
  unfold active_count. induction l as [|e l IH]; [done|]. simpl. rewrite filter_cons.
  destruct (active_for u e) eqn:E; simpl; [done|]. exact IH.
Qed.

Lemma active_for_revoked u t e : active_for u (revokeEntry t e) = false.
Proof. unfold active_for, isActive. simpl. by rewrite andb_false_r. Qed.

Lemma active_count_cons u e l :
  active_count u (e :: l) = (if active_for u e then 1 else 0) + active_count u l.
Proof. unfold active_count. rewrite filter_cons. by destruct (active_for u e). Qed.

Lemma active_for_same_user u v e : active_for u e = true -> active_for v e = true -> u = v.
Proof.
  unfold active_for. intros [Hu _]%andb_true_iff [Hv _]%andb_true_iff.
  apply equals_spec in Hu, Hv. congruence.
Qed.

Lemma active_count_revoke u v t l :
  active_count v (revoke_first u t l) =
    if decide (u = v) then Nat.pred (active_count v l) else active_count v l.
Proof.
  induction l as [|e l IH]; simpl.
  - by destruct (decide _).
  - destruct (active_for u e) eqn:Hu; rewrite !active_count_cons.
    + rewrite active_for_revoked. destruct (decide (u = v)) as [<-|Hne].
      * rewrite Hu. simpl. done.
      * destruct (active_for v e) eqn:Hv; [|done]. destruct Hne. by eapply active_for_same_user.
    + rewrite IH. destruct (decide (u = v)) as [<-|Hne]; [|done]. by rewrite Hu.
Qed.

Lemma active_count_grant u v p t l :
  active_count v (l ++ [createEntry u p t]) =
    active_count v l + (if decide (u = v) then 1 else 0).
Proof.
  unfold active_count. rewrite filter_app, length_app. f_equal. rewrite filter_cons, filter_nil.
  unfold active_for. simpl. rewrite andb_true_r.
  destruct (decide (equals u v = true)) as [H|H], (decide (u = v)) as [H'|H']; try done.
  - by apply equals_spec in H.
  - by apply equals_spec in H'.
Qed.

(** What each command that goes through leaves behind. *)
Lemma goal_command_state c g : exists f,
  state (run_command c g).2 = f (state g) /\
  (f = (fun s => s) \/ match c with
    | GrantAccess u p t _ _ => f = onGoalAccessGranted u p t /\ find_active u g = None
    | RevokeAccess u t _ _ => f = onGoalAccessRevoked u t /\ find_active u g <> None
    | _ => forall s, accessList (f s) = accessList s
    end).
Proof.
  destruct c; simpl; unfold changeSummary, changeSlice, changeTargetMonth, changePriority,
    achieve, unachieve, archive, grantAccess, revokeAccess, reads, gets, lift_result, mbind, js_bind,
    Assert.isDefined, Assert.satisfies, Assert.check;
    repeat case_match; simplify_eq/=;
    first [by exists (fun s => s); split; [reflexivity|left]
          |by eexists; split; [reflexivity|right]
          |eexists; split; [reflexivity|right; split; [reflexivity|congruence]]].
Qed.

Lemma run_command_access c g :
  (forall u, active_count u (accessList (state g)) <= 1) ->
  forall u, active_count u (accessList (state (run_command c g).2)) <= 1.
Proof.
  intros Hinv u. specialize (Hinv u).
  destruct (goal_command_state c g) as (f & -> & [->|Hf]); [done|].
  destruct c; try (by rewrite Hf); destruct Hf as [-> Hfind]; simpl.
  - rewrite active_count_grant. destruct (decide _) as [<-|]; [|lia].
    apply find_active_none in Hfind. lia.
  - rewrite active_count_revoke. destruct (decide _); lia.
Qed.

End GoalRuns.

(** ** The event specs *)

Module GoalCodec.
Import Goal.

Definition voSlice := voString Slice.val Slice.from.
Definition voMonth := voString Month.value Month.from.
Definition voPriority := voString Priority.val Priority.from.
Definition voPermission := voString Permission.val Permission.from.

Notation spec := (PayloadEventSpec payload_t GoalId).

Definition GoalCreatedSpec : spec := Spec "GoalCreated" _
  (F_cons "goalId" (voId : FieldMapper GoalId) (F_cons "slice" voSlice
    (F_cons "summary" (voId : FieldMapper Summary) (F_cons "targetMonth" voMonth
    (F_cons "priority" voPriority (F_cons "createdBy" (voId : FieldMapper UserId)
    (F_cons "createdAt" voTimestamp F_nil)))))))
  (fun '(g, (sl, (su, (tm, (pr, (cb, (ca, tt))))))) => construct (GoalCreated g sl su tm pr cb ca)).
Definition GoalRefinedSpec : spec := Spec "GoalRefined" _
  (F_cons "goalId" (voId : FieldMapper GoalId) (F_cons "summary" (voId : FieldMapper Summary)
    (F_cons "changedAt" voTimestamp F_nil)))
  (fun '(g, (su, (t, tt))) => construct (GoalRefined g su t)).
Definition GoalRecategorizedSpec : spec := Spec "GoalRecategorized" _
  (F_cons "goalId" (voId : FieldMapper GoalId) (F_cons "slice" voSlice
    (F_cons "changedAt" voTimestamp F_nil)))
  (fun '(g, (sl, (t, tt))) => construct (GoalRecategorized g sl t)).
Definition GoalRescheduledSpec : spec := Spec "GoalRescheduled" _
  (F_cons "goalId" (voId : FieldMapper GoalId) (F_cons "targetMonth" voMonth
    (F_cons "changedAt" voTimestamp F_nil)))
  (fun '(g, (tm, (t, tt))) => construct (GoalRescheduled g tm t)).
Definition GoalPrioritizedSpec : spec := Spec "GoalPrioritized" _
  (F_cons "goalId" (voId : FieldMapper GoalId) (F_cons "priority" voPriority
    (F_cons "changedAt" voTimestamp F_nil)))
  (fun '(g, (pr, (t, tt))) => construct (GoalPrioritized g pr t)).
Definition GoalAchievedSpec : spec := Spec "GoalAchieved" _
  (F_cons "goalId" (voId : FieldMapper GoalId) (F_cons "achievedAt" voTimestamp F_nil))
  (fun '(g, (t, tt)) => construct (GoalAchieved g t)).
Definition GoalUnachievedSpec : spec := Spec "GoalUnachieved" _
  (F_cons "goalId" (voId : FieldMapper GoalId) (F_cons "unachievedAt" voTimestamp F_nil))
  (fun '(g, (t, tt)) => construct (GoalUnachieved g t)).
Definition GoalArchivedSpec : spec := Spec "GoalArchived" _
  (F_cons "goalId" (voId : FieldMapper GoalId) (F_cons "archivedAt" voTimestamp F_nil))
  (fun '(g, (t, tt)) => construct (GoalArchived g t)).
Definition GoalAccessGrantedSpec : spec := Spec "GoalAccessGranted" _
  (F_cons "goalId" (voId : FieldMapper GoalId) (F_cons "grantedTo" (voId : FieldMapper UserId)
    (F_cons "permission" voPermission (F_cons "grantedAt" voTimestamp F_nil))))
  (fun '(g, (u, (p, (t, tt)))) => construct (GoalAccessGranted g u p t)).
Definition GoalAccessRevokedSpec : spec := Spec "GoalAccessRevoked" _
  (F_cons "goalId" (voId : FieldMapper GoalId) (F_cons "revokedFrom" (voId : FieldMapper UserId)
    (F_cons "revokedAt" voTimestamp F_nil)))
  (fun '(g, (u, (t, tt))) => construct (GoalAccessRevoked g u t)).

Lemma voSlice_decode s : decode voSlice (Some (encode voSlice s)) = Ok s.
Proof. apply Slice.slice_from_val. Qed.
Lemma voPriority_decode p : decode voPriority (Some (encode voPriority p)) = Ok p.
Proof. apply Priority.priority_from_val. Qed.
Lemma voPermission_decode p : decode voPermission (Some (encode voPermission p)) = Ok p.
Proof. apply Permission.permission_from_val. Qed.
Lemma voMonth_decode m :
  (Month.year m <= 9999)%Z -> decode voMonth (Some (encode voMonth m)) = Ok m.
Proof. apply Month.from_value_small. Qed.

#[export] Hint Resolve voSlice_decode voPriority_decode voPermission_decode : codec.

(** The goal part of [allSpecs]. *)
Definition goalSpecs : list spec :=
  [GoalCreatedSpec; GoalRefinedSpec; GoalRecategorizedSpec; GoalRescheduledSpec;
   GoalPrioritizedSpec; GoalAchievedSpec; GoalUnachievedSpec; GoalArchivedSpec;
   GoalAccessGrantedSpec; GoalAccessRevokedSpec].

(** [encodePersisted]: the fields the spec of the event's type names, read off
    the event object. *)
Definition encodePersisted (e : event) : PersistedEvent :=
  match payload e with
  | GoalCreated g sl su tm pr cb ca =>
      encodeLatest GoalCreatedSpec (g, (sl, (su, (tm, (pr, (cb, (ca, tt)))))))
  | GoalRefined g su t => encodeLatest GoalRefinedSpec (g, (su, (t, tt)))
  | GoalRecategorized g sl t => encodeLatest GoalRecategorizedSpec (g, (sl, (t, tt)))
  | GoalRescheduled g tm t => encodeLatest GoalRescheduledSpec (g, (tm, (t, tt)))
  | GoalPrioritized g pr t => encodeLatest GoalPrioritizedSpec (g, (pr, (t, tt)))
  | GoalAchieved g t => encodeLatest GoalAchievedSpec (g, (t, tt))
  | GoalUnachieved g t => encodeLatest GoalUnachievedSpec (g, (t, tt))
  | GoalArchived g t => encodeLatest GoalArchivedSpec (g, (t, tt))
  | GoalAccessGranted g u p t => encodeLatest GoalAccessGrantedSpec (g, (u, (p, (t, tt))))
  | GoalAccessRevoked g u t => encodeLatest GoalAccessRevokedSpec (g, (u, (t, tt)))
  end.

(** The months an event carries are ones [Month.from] reads back. *)
Definition month_encodable (p : payload_t) : bool :=
  match p with
  | GoalCreated _ _ _ tm _ _ _ | GoalRescheduled _ tm _ => (Month.year tm <=? 9999)%Z
  | _ => true
  end.

(** The codec reads back what it wrote, as an event with the metadata given. *)
Lemma goal_codec_roundtrip (p : payload_t) (m m' : EventMetadata GoalId) :
  month_encodable p = true ->
  decodePersisted goalSpecs (encodePersisted (construct p m)) m' = Ok (construct p m').
Proof.
  intros Hm. destruct p; cbn [encodePersisted construct payload]; codec_roundtrip.
  all: apply voMonth_decode; simpl in Hm; lia.
Qed.

End GoalCodec.

Module GoalProperties.
Import Goal GoalRuns GoalCodec.

(** C10: Every goal is the replay of its events: a goal loaded from any history and put
    through any sequence of commands, some of which may throw, equals (up to the emptied
    list of uncommitted events) the goal reconstituted from that history followed by the
    events the commands emitted, and its version is the number of those events. *)
Theorem goal_replay (i : GoalId) (h : list event) (cs : list command) :
  exists g0, reconstitute i h = Ok g0 /\
  let g := run_commands cs g0 in
  reconstitute i (h ++ getUncommittedEvents g) = Ok (markEventsAsCommitted g) /\
  version g = Z.of_nat (length (h ++ getUncommittedEvents g)).
Proof.
  destruct (goal_reload_total h (fresh i : Goal.t)) as (g0 & Hg0 & _). exists g0. split; [exact Hg0|].
  apply (run_all_replay i h (map run_command cs) g0); [|exact Hg0].
  apply Forall_map, Forall_true. intros c b. apply goal_command_emits_one.
Qed.

(** An archived goal never changes again: every command but [archive] throws and leaves
    the goal (fields, uncommitted events, version) as it was, and [archive] returns without
    an event. *)
Theorem goal_archived_frozen (g : Goal.t) (c : command) :
  isArchived g = true ->
  run_command c g =
    (match c with
     | Archive _ _ _ => Ok tt
     | _ => Err (AssertError "Goal is archived" "must be null")
     end, g).
Proof.
  unfold isArchived. intros Ha. destruct (archivedAt (state g)) as [t|] eqn:E; [|done].
  destruct c; simpl; unfold changeSummary, changeSlice, changeTargetMonth, changePriority,
    achieve, unachieve, archive, grantAccess, revokeAccess, reads, gets, mbind, js_bind,
    assertNotArchived, isArchived; by rewrite E.
Qed.

(** Whatever commands run from [create] on, a user has at most one active access entry;
    on a goal that is not archived, granting succeeds exactly for a user without one and
    adds one, and revoking succeeds exactly for a user with one and removes it. *)
Theorem goal_access (i : GoalId) sl su tm pr cb ca eid (cs : list command) (u : UserId) :
  exists g0, create i sl su tm pr cb ca eid = Ok g0 /\
  let g := run_commands cs g0 in
  let count g := active_count u (accessList (state g)) in
  count g <= 1 /\
  forall p at_ actor eid',
    (isArchived g = false ->
     (fst (grantAccess u p at_ actor eid' g) = Ok tt <-> count g = 0) /\
     (fst (revokeAccess u at_ actor eid' g) = Ok tt <-> count g = 1)) /\
    (fst (grantAccess u p at_ actor eid' g) = Ok tt ->
     count (snd (grantAccess u p at_ actor eid' g)) = 1) /\
    (fst (revokeAccess u at_ actor eid' g) = Ok tt ->
     count (snd (revokeAccess u at_ actor eid' g)) = 0).
Proof.
  eexists. split; [reflexivity|]. cbv zeta.
  match goal with |- context [run_commands cs ?g] => set (g0 := g) end.
  assert (forall u, active_count u (accessList (state (run_commands cs g0))) <= 1) as Hinv.
  { apply (run_commands_inv (fun g => forall u, active_count u (accessList (state g)) <= 1));
      [apply run_command_access|]. intros v. change (length (@nil AccessEntry) <= 1). simpl. lia. }
  specialize (Hinv u). set (g := run_commands cs g0) in *. clearbody g. clear g0.
  split; [exact Hinv|]. intros p at_ actor eid'.
  unfold isArchived, grantAccess, revokeAccess, reads, gets, mbind, js_bind, assertNotArchived,
    Assert.isNull, Assert.isDefined, Assert.satisfies, Assert.check.
  destruct (archivedAt (state g)); [done|]. simpl.
  destruct (find_active u g) as [e|] eqn:Hf; unfold find_active in Hf; simpl.
  - assert (active_count u (accessList (state g)) <> 0) by (rewrite <- find_active_none; congruence).
    rewrite active_count_revoke, decide_True by done.
    repeat split; try done; try (intros; lia).
  - apply find_active_none in Hf. rewrite active_count_grant, decide_True by done.
    repeat split; try done; try (intros; lia).
Qed.

(** The snapshot of a goal's fields, when they are all defined. *)
Definition snapshot_of (g : Goal.t) : option GoalSnapshot :=
  su ← summary (state g); sl ← slice (state g); pr ← priority (state g);
  tm ← targetMonth (state g); cb ← createdBy (state g); ca ← createdAt (state g);
  Some (Snapshot (id g) su sl pr tm cb ca (achievedAt (state g)) (archivedAt (state g)) (version g)).

Lemma hydrate_snapshot_of g s :
  snapshot_of g = Some s ->
  hydrateFromSnapshot s (fresh (s_id s)) =
    Aggregate (id g) (setAccessList [] (state g)) [] (version g).
Proof.
  unfold snapshot_of. destruct g as [i [? ? ? ? ? ? ? ? ?] un v]. simpl. unfold mbind, option_bind.
  intros H. repeat case_match; simplify_eq/=. done.
Qed.

Lemma handle_access_irrelevant p s :
  exists l, handle p (setAccessList [] s) = setAccessList l (handle p s) /\
  (match p with GoalAccessGranted _ _ _ _ => True | _ => l = [] end).
Proof. destruct p; simpl; by eexists. Qed.

(** The other fields never depend on the access list. *)
Lemma handle_fold_access (h : list event) (s s' : fields_t) :
  setAccessList [] s = setAccessList [] s' ->
  setAccessList [] (fold_left (fun s e => handle (payload e) s) h s) =
  setAccessList [] (fold_left (fun s e => handle (payload e) s) h s').
Proof.
  revert s s'. induction h as [|e h IH]; intros s s' Heq; simpl; [done|]. apply IH.
  destruct (payload e); simpl; destruct s, s'; unfold setAccessList in *; simpl in *; congruence.
Qed.

(** A snapshot and the later events give the whole history's goal, the access list apart. *)
Lemma snapshot_tail_replay (i : GoalId) (h1 h2 : list event) (g1 : Goal.t) (s : GoalSnapshot) :
  reconstitute i h1 = Ok g1 -> snapshot_of g1 = Some s ->
  exists g g', reconstitute i (h1 ++ h2) = Ok g /\ reconstituteFromSnapshot s h2 = Ok g' /\
    version g' = version g /\ id g' = id g /\
    setAccessList [] (state g') = setAccessList [] (state g).
Proof.
  intros Hg1 Hs. unfold reconstituteFromSnapshot. rewrite (hydrate_snapshot_of _ _ Hs).
  unfold reconstitute in *. rewrite reload_app. unfold reload in Hg1.
  destruct (loadFromHistory h1 (fresh i)) as [[?|?] a1] eqn:E1; [|done]. injection Hg1 as <-.
  simpl. destruct (goal_reload_total h2 a1) as (g & Hg & Hsg). rewrite Hg.
  destruct (goal_reload_total h2 (Aggregate (id a1) (setAccessList [] (state a1)) [] (version a1)))
    as (g' & Hg' & Hsg'). rewrite Hg'.
  exists g, g'. split; [done|]. split; [done|].
  destruct (reload_version _ _ _ Hg) as [-> ->]. destruct (reload_version _ _ _ Hg') as [-> ->].
  split; [done|]. split; [done|]. rewrite Hsg, Hsg'. simpl. clear.
  by apply handle_fold_access.
Qed.

(** Loading a goal from a snapshot and the later events gives the same version and the
    same fields as loading the whole history, the access list apart: the snapshot does not
    carry it, so it restarts empty. *)
Theorem goal_snapshot_tail (i : GoalId) (h1 h2 : list event) (g1 : Goal.t) (s : GoalSnapshot) :
  reconstitute i h1 = Ok g1 -> snapshot_of g1 = Some s ->
  exists g g', reconstitute i (h1 ++ h2) = Ok g /\ reconstituteFromSnapshot s h2 = Ok g' /\
    version g' = version g /\ id g' = id g /\
    setAccessList [] (state g') = setAccessList [] (state g).
Proof. apply snapshot_tail_replay. Qed.

(** Every goal event, encoded by the codec of its type and decoded as a persisted event
    with its metadata, is read back unchanged, if its month (where it has one) is before the
    year 10000. *)
Theorem goal_event_roundtrip (p : payload_t) (m : EventMetadata GoalId) :
  month_encodable p = true ->
  decodePersisted goalSpecs (encodePersisted (construct p m)) m = Ok (construct p m).
Proof. apply goal_codec_roundtrip. Qed.

End GoalProperties.

(** ** Witnesses *)

Module GoalWitnesses.
Import Goal GoalRuns GoalCodec GoalProperties.

Definition meta_1 : EventMetadata GoalId := Meta goal_1 noon event_1 (actor_of alice) None None None.

(** A goal shared with bob. *)
Definition shared_history : list event :=
  [construct (GoalCreated goal_1 Slice.Health marathon may_2026 Priority.Must alice noon) meta_1;
   construct (GoalAccessGranted goal_1 bob Permission.View noon) meta_1].

Definition shared_goal : Goal.t :=
  Aggregate goal_1 (fold_left (fun s e => handle (payload e) s) shared_history blank) [] 2.

Definition archived_goal : Goal.t :=
  (archive later alice event_2 shared_goal).2.

Definition shared_snapshot : GoalSnapshot :=
  Snapshot goal_1 marathon Slice.Health Priority.Must may_2026 alice noon None None 2.

Lemma goal_archived_frozen_witness :
  isArchived archived_goal = true /\
  run_command (Achieve later alice None None event_3) archived_goal =
    (Err (AssertError "Goal is archived" "must be null"), archived_goal).
Proof.
  split; [reflexivity|].
  exact (goal_archived_frozen archived_goal (Achieve later alice None None event_3) eq_refl).
Defined.

Lemma goal_snapshot_tail_witness :
  exists g g', reconstitute goal_1 (shared_history ++ []) = Ok g /\
    reconstituteFromSnapshot shared_snapshot [] = Ok g' /\
    version g' = version g /\ id g' = id g /\
    setAccessList [] (state g') = setAccessList [] (state g).
Proof.
  exact (goal_snapshot_tail goal_1 shared_history [] shared_goal shared_snapshot eq_refl eq_refl).
Defined.

Lemma goal_event_roundtrip_witness :
  let e := construct (GoalRescheduled goal_1 may_2026 noon) meta_1 in
  decodePersisted goalSpecs (encodePersisted e) meta_1 = Ok e.
Proof.
  exact (goal_event_roundtrip (GoalRescheduled goal_1 may_2026 noon) meta_1 eq_refl).
Defined.

(** What the snapshot loses: bob's access can be revoked on the goal replayed
    from its events; on the same goal loaded from the snapshot revoking throws,
    and granting bob access a second time goes through. *)
Theorem snapshot_loses_access :
  exists g g', reconstitute goal_1 shared_history = Ok g /\
    snapshot_of g = Some shared_snapshot /\
    reconstituteFromSnapshot shared_snapshot [] = Ok g' /\
    fst (revokeAccess bob later alice event_2 g) = Ok tt /\
    fst (revokeAccess bob later alice event_2 g') = Err (AssertError "Access entry" "must be defined") /\
    fst (grantAccess bob Permission.View later alice event_2 g) =
      Err (AssertError "User already has access" "User already has access to this goal") /\
    fst (grantAccess bob Permission.View later alice event_2 g') = Ok tt.
Proof. eexists _, _. repeat split. Qed.

(** [archive] on an archived goal returns; its documentation says it throws. *)
Theorem archive_again_returns : archive later alice event_3 archived_goal = (Ok tt, archived_goal).
Proof. reflexivity. Qed.

End GoalWitnesses.
