(* ===== verification/Project.v ===== *)
(** * The Project aggregate

    [packages/domain/src/projects/Project.ts], [Milestone.ts] and
    [projects/events/*.ts].  Two handlers look a milestone up and throw when it
    is missing, so the handlers are fallible here. *)

From S2P Require Import Prelude JsValues ValueObjects Dates AggregateRoot EventCodec Samples.

Module Project.

(** ** Events *)

Inductive payload_t : Type :=
| ProjectCreated (projectId : ProjectId) (name : ProjectName) (status : ProjectStatus.t)
    (startDate targetDate : LocalDate.t) (description : ProjectDescription)
    (goalId : option GoalId) (createdBy : UserId) (createdAt : Timestamp.t)
| ProjectStatusTransitioned (projectId : ProjectId) (status : ProjectStatus.t) (changedAt : Timestamp.t)
| ProjectRescheduled (projectId : ProjectId) (startDate targetDate : LocalDate.t) (changedAt : Timestamp.t)
| ProjectRenamed (projectId : ProjectId) (name : ProjectName) (changedAt : Timestamp.t)
| ProjectDescribed (projectId : ProjectId) (description : ProjectDescription) (changedAt : Timestamp.t)
| ProjectGoalAdded (projectId : ProjectId) (goalId : GoalId) (addedAt : Timestamp.t)
| ProjectGoalRemoved (projectId : ProjectId) (removedAt : Timestamp.t)
| ProjectMilestoneAdded (projectId : ProjectId) (milestoneId : MilestoneId) (name : MilestoneName)
    (targetDate : LocalDate.t) (addedAt : Timestamp.t)
| ProjectMilestoneRescheduled (projectId : ProjectId) (milestoneId : MilestoneId)
    (targetDate : LocalDate.t) (changedAt : Timestamp.t)
| ProjectMilestoneRenamed (projectId : ProjectId) (milestoneId : MilestoneId)
    (name : MilestoneName) (changedAt : Timestamp.t)
| ProjectMilestoneArchived (projectId : ProjectId) (milestoneId : MilestoneId) (archivedAt : Timestamp.t)
| ProjectArchived (projectId : ProjectId) (archivedAt : Timestamp.t).

Definition event : Type := DomainEvent payload_t ProjectId.

(** [eventType] *)
Definition type_of (p : payload_t) : string :=
  match p with
  | ProjectCreated _ _ _ _ _ _ _ _ _ => "ProjectCreated"
  | ProjectStatusTransitioned _ _ _ => "ProjectStatusTransitioned"
  | ProjectRescheduled _ _ _ _ => "ProjectRescheduled"
  | ProjectRenamed _ _ _ => "ProjectRenamed"
  | ProjectDescribed _ _ _ => "ProjectDescribed"
  | ProjectGoalAdded _ _ _ => "ProjectGoalAdded"
  | ProjectGoalRemoved _ _ => "ProjectGoalRemoved"
  | ProjectMilestoneAdded _ _ _ _ _ => "ProjectMilestoneAdded"
  | ProjectMilestoneRescheduled _ _ _ _ => "ProjectMilestoneRescheduled"
  | ProjectMilestoneRenamed _ _ _ _ => "ProjectMilestoneRenamed"
  | ProjectMilestoneArchived _ _ _ => "ProjectMilestoneArchived"
  | ProjectArchived _ _ => "ProjectArchived"
  end.

(** [new ProjectX(payload, meta)]: [projectId] and the date field come from [meta]. *)
Definition construct (p : payload_t) (m : EventMetadata ProjectId) : event :=
  let i := aggregateId m in
  let at_ := occurredAt m in
  Event (match p with
    | ProjectCreated _ n s sd td d g cb _ => ProjectCreated i n s sd td d g cb at_
    | ProjectStatusTransitioned _ s _ => ProjectStatusTransitioned i s at_
    | ProjectRescheduled _ sd td _ => ProjectRescheduled i sd td at_
    | ProjectRenamed _ n _ => ProjectRenamed i n at_
    | ProjectDescribed _ d _ => ProjectDescribed i d at_
    | ProjectGoalAdded _ g _ => ProjectGoalAdded i g at_
    | ProjectGoalRemoved _ _ => ProjectGoalRemoved i at_
    | ProjectMilestoneAdded _ m n td _ => ProjectMilestoneAdded i m n td at_
    | ProjectMilestoneRescheduled _ m td _ => ProjectMilestoneRescheduled i m td at_
    | ProjectMilestoneRenamed _ m n _ => ProjectMilestoneRenamed i m n at_
    | ProjectMilestoneArchived _ m _ => ProjectMilestoneArchived i m at_
    | ProjectArchived _ _ => ProjectArchived i at_
    end) m.

(** ** Milestones and fields *)

Record Milestone : Type := MkMilestone {
  m_id : MilestoneId;
  m_name : MilestoneName;
  m_targetDate : LocalDate.t
}.
Definition changeName_m (n : MilestoneName) (m : Milestone) : Milestone :=
  MkMilestone (m_id m) n (m_targetDate m).
Definition changeTargetDate_m (d : LocalDate.t) (m : Milestone) : Milestone :=
  MkMilestone (m_id m) (m_name m) d.

Record fields_t : Type := Fields {
  name : option ProjectName;
  status : option ProjectStatus.t;
  startDate : option LocalDate.t;
  targetDate : option LocalDate.t;
  description : option ProjectDescription;
  goalId : option GoalId;
  milestones : list Milestone;
  createdBy : option UserId;
  createdAt : option Timestamp.t;
  updatedAt : option Timestamp.t;
  archivedAt : option Timestamp.t
}.

Definition blank_fields : fields_t :=
  Fields None None None None None None [] None None None None.

(** [this._milestones.find((m) => m.id.equals(id))], or throw. *)
Definition findMilestone (i : MilestoneId) (s : fields_t) : result error Milestone :=
  match List.find (fun m => equals (m_id m) i) (milestones s) with
  | Some m => Ok m
  | None => Err (PlainError ("Milestone " +:+ value i +:+ " not found"))
  end.

(** The object [find] returned is mutated in place. *)
Fixpoint update_first (i : MilestoneId) (f : Milestone -> Milestone) (l : list Milestone)
    : list Milestone :=
  match l with
  | [] => []
  | m :: l' => if equals (m_id m) i then f m :: l' else m :: update_first i f l'
  end.

(** ** Event handlers *)

Definition onProjectCreated n st sd td d g cb ca (s : fields_t) : fields_t :=
  Fields (Some n) (Some st) (Some sd) (Some td) (Some d) g (milestones s)
    (Some cb) (Some ca) (Some ca) (archivedAt s).
Definition onProjectStatusTransitioned st t (s : fields_t) : fields_t :=
  Fields (name s) (Some st) (startDate s) (targetDate s) (description s) (goalId s) (milestones s)
    (createdBy s) (createdAt s) (Some t) (archivedAt s).
Definition onProjectRescheduled sd td t (s : fields_t) : fields_t :=
  Fields (name s) (status s) (Some sd) (Some td) (description s) (goalId s) (milestones s)
    (createdBy s) (createdAt s) (Some t) (archivedAt s).
Definition onProjectRenamed n t (s : fields_t) : fields_t :=
  Fields (Some n) (status s) (startDate s) (targetDate s) (description s) (goalId s) (milestones s)
    (createdBy s) (createdAt s) (Some t) (archivedAt s).
Definition onProjectDescribed d t (s : fields_t) : fields_t :=
  Fields (name s) (status s) (startDate s) (targetDate s) (Some d) (goalId s) (milestones s)
    (createdBy s) (createdAt s) (Some t) (archivedAt s).
(** [onProjectGoalAdded] ([Some g]) and [onProjectGoalRemoved] ([None]). *)
Definition setGoalId (g : option GoalId) t (s : fields_t) : fields_t :=
  Fields (name s) (status s) (startDate s) (targetDate s) (description s) g (milestones s)
    (createdBy s) (createdAt s) (Some t) (archivedAt s).
Definition setMilestones (l : list Milestone) t (s : fields_t) : fields_t :=
  Fields (name s) (status s) (startDate s) (targetDate s) (description s) (goalId s) l
    (createdBy s) (createdAt s) (Some t) (archivedAt s).
Definition onProjectMilestoneAdded m n td t (s : fields_t) : fields_t :=
  setMilestones (milestones s ++ [MkMilestone m n td]) t s.
Definition onProjectMilestoneRescheduled m td t (s : fields_t) : result error fields_t :=
  _ ← findMilestone m s;
  Ok (setMilestones (update_first m (changeTargetDate_m td) (milestones s)) t s).
Definition onProjectMilestoneRenamed m n t (s : fields_t) : result error fields_t :=
  _ ← findMilestone m s;
  Ok (setMilestones (update_first m (changeName_m n) (milestones s)) t s).
Definition onProjectMilestoneArchived m t (s : fields_t) : fields_t :=
  setMilestones (filter (fun x => negb (equals (m_id x) m) = true) (milestones s)) t s.
Definition onProjectArchived t (s : fields_t) : fields_t :=
  Fields (name s) (status s) (startDate s) (targetDate s) (description s) (goalId s) (milestones s)
    (createdBy s) (createdAt s) (Some t) (Some t).

Definition handle (p : payload_t) (s : fields_t) : result error fields_t :=
  match p with
  | ProjectCreated _ n st sd td d g cb ca => Ok (onProjectCreated n st sd td d g cb ca s)
  | ProjectStatusTransitioned _ st t => Ok (onProjectStatusTransitioned st t s)
  | ProjectRescheduled _ sd td t => Ok (onProjectRescheduled sd td t s)
  | ProjectRenamed _ n t => Ok (onProjectRenamed n t s)
  | ProjectDescribed _ d t => Ok (onProjectDescribed d t s)
  | ProjectGoalAdded _ g t => Ok (setGoalId (Some g) t s)
  | ProjectGoalRemoved _ t => Ok (setGoalId None t s)
  | ProjectMilestoneAdded _ m n td t => Ok (onProjectMilestoneAdded m n td t s)
  | ProjectMilestoneRescheduled _ m td t => onProjectMilestoneRescheduled m td t s
  | ProjectMilestoneRenamed _ m n t => onProjectMilestoneRenamed m n t s
  | ProjectMilestoneArchived _ m t => Ok (onProjectMilestoneArchived m t s)
  | ProjectArchived _ t => Ok (onProjectArchived t s)
  end.

#[export] Instance project_sourced : EventSourced fields_t event := {|
  blank := blank_fields;
  on_event e := fun s =>
    match handle (payload e) s with Ok s' => (Ok tt, s') | Err err => (Err err, s) end
|}.

Definition t : Type := aggregate ProjectId fields_t event.

(** ** Commands *)

Definition isArchived (a : t) : bool :=
  match archivedAt (state a) with Some _ => true | None => false end.
Definition assertNotArchived (a : t) : result error unit :=
  Assert.isFalse (isArchived a) "Project is archived".

Definition assertDateWithinRange (d : LocalDate.t) (a : t) : result error unit :=
  start ← defined (startDate (state a)) "Project startDate";
  inStart ← mret (LocalDate.isSameOrBefore start d);
  (* [&&] does not read [targetDate] when the first test fails *)
  inRange ← (if inStart : bool
    then target ← defined (targetDate (state a)) "Project targetDate";
         Ok (LocalDate.isSameOrAfter target d)
    else Ok false);
  Assert.isTrue inRange "Milestone target date must be within project dates".

Definition emit (p : payload_t) (at_ : Timestamp.t) (actor : UserId) (eid : EventId) : js t error unit :=
  fun a => apply (construct p (Meta (id a) at_ eid (actor_of actor) None None None)) a.

Arguments emit : simpl never.

Definition dates_error : error := PlainError "Start date must be on or before target date".
Definition check_dates (sd td : LocalDate.t) : result error unit :=
  if LocalDate.isSameOrBefore sd td then Ok tt else Err dates_error.

Definition create (i : ProjectId) (n : ProjectName) (st : ProjectStatus.t) (sd td : LocalDate.t)
    (d : ProjectDescription) (g : option GoalId) (cb : UserId) (ca : Timestamp.t) (eid : EventId)
    : result error t :=
  _ ← check_dates sd td;
  let project : t := fresh i in
  match emit (ProjectCreated i n st sd td d g cb ca) ca cb eid project with
  | (Ok _, project) => Ok project
  | (Err e, _) => Err e
  end.

Definition changeName (n : ProjectName) (at_ : Timestamp.t) (actor : UserId) (eid : EventId) : js t error unit :=
  _ ← reads assertNotArchived;
  current ← reads (fun a => defined (name (state a)) "Project name");
  _ ← lift_result (Assert.isFalse (equals n current) "ProjectName unchanged");
  i ← gets id;
  emit (ProjectRenamed i n at_) at_ actor eid.

Definition changeDescription (d : ProjectDescription) (at_ : Timestamp.t) (actor : UserId)
    (eid : EventId) : js t error unit :=
  _ ← reads assertNotArchived;
  current ← reads (fun a => defined (description (state a)) "Project description");
  _ ← lift_result (Assert.isFalse (equals d current) "ProjectDescription unchanged");
  i ← gets id;
  emit (ProjectDescribed i d at_) at_ actor eid.

Definition changeStatus (st : ProjectStatus.t) (at_ : Timestamp.t) (actor : UserId) (eid : EventId) : js t error unit :=
  _ ← reads assertNotArchived;
  current ← reads (fun a => defined (status (state a)) "Project status");
  _ ← lift_result (Assert.isFalse (ProjectStatus.equals st current) "ProjectStatus unchanged");
  i ← gets id;
  emit (ProjectStatusTransitioned i st at_) at_ actor eid.

Definition within (sd td : LocalDate.t) (m : Milestone) : bool :=
  LocalDate.isSameOrBefore sd (m_targetDate m) && LocalDate.isSameOrAfter td (m_targetDate m).

Definition changeDates (sd td : LocalDate.t) (at_ : Timestamp.t) (actor : UserId) (eid : EventId) : js t error unit :=
  _ ← reads assertNotArchived;
  _ ← lift_result (check_dates sd td);
  _ ← reads (fun a => Assert.isTrue (forallb (within sd td) (milestones (state a)))
        "Existing milestones must remain within the new date range");
  i ← gets id;
  emit (ProjectRescheduled i sd td at_) at_ actor eid.

Definition addGoal (g : GoalId) (at_ : Timestamp.t) (actor : UserId) (eid : EventId) : js t error unit :=
  _ ← reads assertNotArchived;
  _ ← reads (fun a => Assert.isTrue (match goalId (state a) with None => true | Some _ => false end)
        "Project already linked to a goal");
  i ← gets id;
  emit (ProjectGoalAdded i g at_) at_ actor eid.

Definition removeGoal (at_ : Timestamp.t) (actor : UserId) (eid : EventId) : js t error unit :=
  _ ← reads assertNotArchived;
  gets (fun a => goalId (state a)) ≫= fun g : option GoalId =>
  match g with
  | None => skip
  | Some _ => i ← gets id; emit (ProjectGoalRemoved i at_) at_ actor eid
  end.

Definition addMilestone (m : MilestoneId) (n : MilestoneName) (td : LocalDate.t) (at_ : Timestamp.t)
    (actor : UserId) (eid : EventId) : js t error unit :=
  _ ← reads assertNotArchived;
  _ ← reads (assertDateWithinRange td);
  _ ← reads (fun a => Assert.isFalse (existsb (fun x => equals (m_id x) m) (milestones (state a)))
        "Duplicate milestone id");
  i ← gets id;
  emit (ProjectMilestoneAdded i m n td at_) at_ actor eid.

Definition changeMilestoneName (m : MilestoneId) (n : MilestoneName) (at_ : Timestamp.t)
    (actor : UserId) (eid : EventId) : js t error unit :=
  _ ← reads assertNotArchived;
  milestone ← reads (fun a => findMilestone m (state a));
  _ ← lift_result (Assert.isFalse (equals (m_name milestone) n) "Milestone name unchanged");
  i ← gets id;
  emit (ProjectMilestoneRenamed i m n at_) at_ actor eid.

Definition changeMilestoneTargetDate (m : MilestoneId) (td : LocalDate.t) (at_ : Timestamp.t)
    (actor : UserId) (eid : EventId) : js t error unit :=
  _ ← reads assertNotArchived;
  _ ← reads (assertDateWithinRange td);
  milestone ← reads (fun a => findMilestone m (state a));
  _ ← lift_result (Assert.isFalse (equals (m_targetDate milestone) td) "Milestone target unchanged");
  i ← gets id;
  emit (ProjectMilestoneRescheduled i m td at_) at_ actor eid.

Definition archiveMilestone (m : MilestoneId) (at_ : Timestamp.t) (actor : UserId) (eid : EventId) : js t error unit :=
  _ ← reads assertNotArchived;
  _ ← reads (fun a => findMilestone m (state a));
  i ← gets id;
  emit (ProjectMilestoneArchived i m at_) at_ actor eid.

Definition archive (at_ : Timestamp.t) (actor : UserId) (eid : EventId) : js t error unit :=
  _ ← reads assertNotArchived;
  i ← gets id;
  emit (ProjectArchived i at_) at_ actor eid.

(** ** Snapshots *)

Record ProjectSnapshot : Type := Snapshot {
  s_id : ProjectId;
  s_name : ProjectName;
  s_status : ProjectStatus.t;
  s_startDate : LocalDate.t;
  s_targetDate : LocalDate.t;
  s_description : ProjectDescription;
  s_goalId : option GoalId;
  s_milestones : list Milestone;
  s_createdBy : UserId;
  s_createdAt : Timestamp.t;
  s_updatedAt : Timestamp.t;
  s_archivedAt : option Timestamp.t;
  s_version : Z
}.

Definition hydrateFromSnapshot (s : ProjectSnapshot) (a : t) : t :=
  restoreVersion (s_version s) (set_state
    (Fields (Some (s_name s)) (Some (s_status s)) (Some (s_startDate s)) (Some (s_targetDate s))
      (Some (s_description s)) (s_goalId s) (s_milestones s) (Some (s_createdBy s))
      (Some (s_createdAt s)) (Some (s_updatedAt s)) (s_archivedAt s)) a).

Definition reconstituteFromSnapshot (s : ProjectSnapshot) (tail : list event) : result error t :=
  reload (hydrateFromSnapshot s (fresh (s_id s))) tail.

End Project.

(** ** Runs of commands *)

Module ProjectRuns.
Import Project.

Inductive command : Type :=
| ChangeName (n : ProjectName) (at_ : Timestamp.t) (actor : UserId) (eid : EventId)
| ChangeDescription (d : ProjectDescription) (at_ : Timestamp.t) (actor : UserId) (eid : EventId)
| ChangeStatus (st : ProjectStatus.t) (at_ : Timestamp.t) (actor : UserId) (eid : EventId)
| ChangeDates (sd td : LocalDate.t) (at_ : Timestamp.t) (actor : UserId) (eid : EventId)
| AddGoal (g : GoalId) (at_ : Timestamp.t) (actor : UserId) (eid : EventId)
| RemoveGoal (at_ : Timestamp.t) (actor : UserId) (eid : EventId)
| AddMilestone (m : MilestoneId) (n : MilestoneName) (td : LocalDate.t) (at_ : Timestamp.t)
    (actor : UserId) (eid : EventId)
| ChangeMilestoneName (m : MilestoneId) (n : MilestoneName) (at_ : Timestamp.t) (actor : UserId)
    (eid : EventId)
| ChangeMilestoneTargetDate (m : MilestoneId) (td : LocalDate.t) (at_ : Timestamp.t)
    (actor : UserId) (eid : EventId)
| ArchiveMilestone (m : MilestoneId) (at_ : Timestamp.t) (actor : UserId) (eid : EventId)
| Archive (at_ : Timestamp.t) (actor : UserId) (eid : EventId).

Definition run_command (c : command) : js Project.t error unit :=
  match c with
  | ChangeName n at_ actor eid => changeName n at_ actor eid
  | ChangeDescription d at_ actor eid => changeDescription d at_ actor eid
  | ChangeStatus st at_ actor eid => changeStatus st at_ actor eid
  | ChangeDates sd td at_ actor eid => changeDates sd td at_ actor eid
  | AddGoal g at_ actor eid => addGoal g at_ actor eid
  | RemoveGoal at_ actor eid => removeGoal at_ actor eid
  | AddMilestone m n td at_ actor eid => addMilestone m n td at_ actor eid
  | ChangeMilestoneName m n at_ actor eid => changeMilestoneName m n at_ actor eid
  | ChangeMilestoneTargetDate m td at_ actor eid => changeMilestoneTargetDate m td at_ actor eid
  | ArchiveMilestone m at_ actor eid => archiveMilestone m at_ actor eid
  | Archive at_ actor eid => archive at_ actor eid
  end.

Definition run_commands (cs : list command) (p : Project.t) : Project.t :=
  run_all (map run_command cs) p.

Lemma project_emit_emits_one p at_ actor eid (a : Project.t) :
  (exists s, handle (payload (construct p (Meta (id a) at_ eid (actor_of actor) None None None)))
     (state a) = Ok s) ->
  emits_one (emit p at_ actor eid) a.
Proof.
  intros [s Hs]. unfold emit.
  apply (emits_one_apply (construct p (Meta (id a) at_ eid (actor_of actor) None None None)) a).
  exists s. simpl in *. by rewrite Hs.
Qed.

Lemma project_command_emits_one c p : emits_one (run_command c) p.
Proof.
  destruct c; simpl; unfold changeName, changeDescription, changeStatus, changeDates, addGoal,
    removeGoal, addMilestone, changeMilestoneName, changeMilestoneTargetDate, archiveMilestone,
    archive; emits_one; try (case_match; [emits_one|apply emits_one_ret]);
    apply project_emit_emits_one; simpl; try (by eexists);
    unfold onProjectMilestoneRenamed, onProjectMilestoneRescheduled;
    match goal with H : findMilestone _ _ = Ok _ |- _ => rewrite H end; by eexists.
Qed.

(** ** The invariant *)

(** Dates in order, milestones within them, milestone ids distinct. *)
Definition project_ok (s : fields_t) : Prop :=
  exists sd td, startDate s = Some sd /\ targetDate s = Some td /\
    LocalDate.isSameOrBefore sd td = true /\
    Forall (fun m => within sd td m = true) (milestones s) /\
    NoDup (m_id <$> milestones s).

Lemma update_first_ids i f l :
  (forall m, m_id (f m) = m_id m) -> m_id <$> update_first i f l = m_id <$> l.
Proof.
  intros Hf. induction l as [|m l IH]; [done|]. simpl.
  destruct (equals _ _); csimpl; [by rewrite Hf|by rewrite IH].
Qed.

Lemma update_first_Forall (P : Milestone -> Prop) i f l :
  (forall m, P m -> P (f m)) -> Forall P l -> Forall P (update_first i f l).
Proof.
  intros Hf. induction 1 as [|m l Hm Hl IH]; [constructor|]. simpl.
  destruct (equals _ _); constructor; auto.
Qed.

Lemma map_filter_NoDup (P : Milestone -> Prop) `{!forall m, Decision (P m)} l :
  NoDup (m_id <$> l) -> NoDup (m_id <$> filter P l).
Proof.
  induction l as [|m l IH]; [done|]. csimpl. intros [Hm Hl]%NoDup_cons. rewrite filter_cons.
  destruct (decide (P m)); [|by apply IH]. csimpl. apply NoDup_cons. split; [|by apply IH].
  intros (x & Heq & Hx)%list_elem_of_fmap. rewrite Heq in Hm. apply Hm, list_elem_of_fmap_2.
  by apply list_elem_of_filter in Hx as [_ Hx].
Qed.

Lemma within_range d (a : Project.t) sd td u :
  assertDateWithinRange d a = Ok u -> startDate (state a) = Some sd ->
  targetDate (state a) = Some td ->
  LocalDate.isSameOrBefore sd d && LocalDate.isSameOrAfter td d = true.
Proof.
  unfold assertDateWithinRange. intros H Hs Ht. rewrite Hs, Ht in H. simpl in H.
  destruct (LocalDate.isSameOrBefore sd d); [|done]. simpl in *.
  by apply Assert.check_ok in H.
Qed.

Lemma emit_state p at_ actor eid (a : Project.t) r :
  handle (payload (construct p (Meta (id a) at_ eid (actor_of actor) None None None)))
     (state a) = r ->
  state (emit p at_ actor eid a).2 = match r with Ok s => s | Err _ => state a end.
Proof.
  intros <-. unfold emit, apply, applyEvent, modify, mbind, js_bind. cbn -[handle construct].
  by destruct (handle _ (state a)).
Qed.


Lemma existsb_ids m l :
  existsb (fun x => equals (m_id x) m) l = false -> m ∉ m_id <$> l.
Proof.
  intros H (x & -> & Hx)%list_elem_of_fmap.
  assert (existsb (fun x0 => equals (m_id x0) (m_id x)) l = true) as Ht; [|congruence].
  apply existsb_exists. exists x. split; [by apply list_elem_of_In|by apply equals_spec].
Qed.

(** The invariant after a handler, given what the command's guards checked. *)
Lemma project_ok_milestones s l t :
  project_ok s ->
  (forall sd td, startDate s = Some sd -> targetDate s = Some td ->
     Forall (fun m => within sd td m = true) (milestones s) ->
     Forall (fun m => within sd td m = true) l) ->
  NoDup (m_id <$> l) -> project_ok (setMilestones l t s).
Proof.
  intros (sd & td & Hs & Ht & Hle & Hw & Hnd) Hl Hnd'. exists sd, td. simpl. repeat split; eauto.
Qed.

Lemma project_ok_same s s' :
  startDate s' = startDate s -> targetDate s' = targetDate s -> milestones s' = milestones s ->
  project_ok s -> project_ok s'.
Proof. intros H1 H2 H3 (sd & td & ?). exists sd, td. by rewrite H1, H2, H3. Qed.

Lemma project_command_ok c p : project_ok (state p) -> project_ok (state (run_command c p).2).
Proof.
  intros Hok. destruct c; simpl; unfold changeName, changeDescription, changeStatus, changeDates,
    addGoal, removeGoal, addMilestone, changeMilestoneName, changeMilestoneTargetDate,
    archiveMilestone, archive, reads, gets, lift_result, mbind, js_bind;
    repeat case_match; simplify_eq/=; try done.
  all: try (rewrite (emit_state _ _ _ _ _ _ eq_refl); simpl).
  all: try (eapply project_ok_same; [reflexivity..|exact Hok]).
  - (* changeDates *)
    unfold check_dates in *. case_match; simplify_eq/=.
    destruct Hok as (sd0 & td0 & _ & _ & _ & _ & Hnd). exists sd, td. simpl.
    repeat split; try done. apply Forall_forall. intros x Hx.
    eapply forallb_forall; [by eapply Assert.check_ok|by apply list_elem_of_In].
  - (* addMilestone *)
    apply project_ok_milestones; [done| |].
    + intros sd td' Hs Ht Hw. apply Forall_app. split; [done|]. apply Forall_singleton.
      by eapply within_range.
    + destruct Hok as (_ & _ & _ & _ & _ & _ & Hnd). rewrite fmap_app. apply NoDup_app.
      split; [done|]. split; [|apply NoDup_singleton].
      intros x Hx ->%list_elem_of_singleton. revert Hx. simpl. apply existsb_ids.
      match goal with H : Assert.isFalse _ _ = Ok _ |- _ => apply Assert.check_ok in H end.
      by apply negb_true_iff.
  - (* changeMilestoneName *)
    unfold onProjectMilestoneRenamed. destruct (findMilestone m (state p)); [|done]. simpl.
    apply project_ok_milestones; [done| |].
    + intros sd td Hs Ht. by apply update_first_Forall.
    + rewrite update_first_ids by done. by destruct Hok as (_ & _ & _ & _ & _ & _ & Hnd).
  - (* changeMilestoneTargetDate *)
    unfold onProjectMilestoneRescheduled. destruct (findMilestone m (state p)); [|done]. simpl.
    apply project_ok_milestones; [done| |].
    + intros sd td' Hs Ht. apply update_first_Forall. intros x _.
      by eapply (within_range td).
    + rewrite update_first_ids by done. by destruct Hok as (_ & _ & _ & _ & _ & _ & Hnd).
  - (* archiveMilestone *)
    apply project_ok_milestones; [done| |].
    + intros sd td Hs Ht Hw. apply Forall_forall. intros x [_ Hx]%list_elem_of_filter.
      by apply (proj1 (Forall_forall _ _) Hw).
    + apply map_filter_NoDup. by destruct Hok as (_ & _ & _ & _ & _ & _ & Hnd).
Qed.

Lemma run_commands_ok cs p : project_ok (state p) -> project_ok (state (run_commands cs p)).
Proof.
  apply (run_all_inv (fun p => project_ok (state p))).
  apply Forall_map, Forall_true. intros c b. apply project_command_ok.
Qed.

End ProjectRuns.

(** ** The event specs *)

Module ProjectCodec.
Import Project.

Definition voStatus := voString ProjectStatus.val ProjectStatus.from.
Definition voDate : FieldMapper LocalDate.t := voString value LocalDate.fromString.
Definition voProjectId : FieldMapper ProjectId := voId.
Definition voMilestoneId : FieldMapper MilestoneId := voId.

Notation spec := (PayloadEventSpec payload_t ProjectId).

Definition ProjectCreatedSpec : spec := Spec "ProjectCreated" _
  (F_cons "projectId" voProjectId (F_cons "name" (voId : FieldMapper ProjectName)
    (F_cons "status" voStatus (F_cons "startDate" voDate (F_cons "targetDate" voDate
    (F_cons "description" (voId : FieldMapper ProjectDescription)
    (F_cons "goalId" (nullable (voId : FieldMapper GoalId))
    (F_cons "createdBy" (voId : FieldMapper UserId) (F_cons "createdAt" voTimestamp F_nil)))))))))
  (fun '(i, (n, (st, (sd, (td, (d, (g, (cb, (ca, tt))))))))) =>
     construct (ProjectCreated i n st sd td d g cb ca)).
Definition ProjectStatusTransitionedSpec : spec := Spec "ProjectStatusTransitioned" _
  (F_cons "projectId" voProjectId (F_cons "status" voStatus (F_cons "changedAt" voTimestamp F_nil)))
  (fun '(i, (st, (t, tt))) => construct (ProjectStatusTransitioned i st t)).
Definition ProjectRescheduledSpec : spec := Spec "ProjectRescheduled" _
  (F_cons "projectId" voProjectId (F_cons "startDate" voDate (F_cons "targetDate" voDate
    (F_cons "changedAt" voTimestamp F_nil))))
  (fun '(i, (sd, (td, (t, tt)))) => construct (ProjectRescheduled i sd td t)).
Definition ProjectRenamedSpec : spec := Spec "ProjectRenamed" _
  (F_cons "projectId" voProjectId (F_cons "name" (voId : FieldMapper ProjectName)
    (F_cons "changedAt" voTimestamp F_nil)))
  (fun '(i, (n, (t, tt))) => construct (ProjectRenamed i n t)).
Definition ProjectDescribedSpec : spec := Spec "ProjectDescribed" _
  (F_cons "projectId" voProjectId (F_cons "description" (voId : FieldMapper ProjectDescription)
    (F_cons "changedAt" voTimestamp F_nil)))
  (fun '(i, (d, (t, tt))) => construct (ProjectDescribed i d t)).
Definition ProjectGoalAddedSpec : spec := Spec "ProjectGoalAdded" _
  (F_cons "projectId" voProjectId (F_cons "goalId" (voId : FieldMapper GoalId)
    (F_cons "addedAt" voTimestamp F_nil)))
  (fun '(i, (g, (t, tt))) => construct (ProjectGoalAdded i g t)).
Definition ProjectGoalRemovedSpec : spec := Spec "ProjectGoalRemoved" _
  (F_cons "projectId" voProjectId (F_cons "removedAt" voTimestamp F_nil))
  (fun '(i, (t, tt)) => construct (ProjectGoalRemoved i t)).
Definition ProjectMilestoneAddedSpec : spec := Spec "ProjectMilestoneAdded" _
  (F_cons "projectId" voProjectId (F_cons "milestoneId" voMilestoneId
    (F_cons "name" (voId : FieldMapper MilestoneName) (F_cons "targetDate" voDate
    (F_cons "addedAt" voTimestamp F_nil)))))
  (fun '(i, (m, (n, (td, (t, tt))))) => construct (ProjectMilestoneAdded i m n td t)).
Definition ProjectMilestoneRescheduledSpec : spec := Spec "ProjectMilestoneRescheduled" _
  (F_cons "projectId" voProjectId (F_cons "milestoneId" voMilestoneId (F_cons "targetDate" voDate
    (F_cons "changedAt" voTimestamp F_nil))))
  (fun '(i, (m, (td, (t, tt)))) => construct (ProjectMilestoneRescheduled i m td t)).
Definition ProjectMilestoneRenamedSpec : spec := Spec "ProjectMilestoneRenamed" _
  (F_cons "projectId" voProjectId (F_cons "milestoneId" voMilestoneId
    (F_cons "name" (voId : FieldMapper MilestoneName) (F_cons "changedAt" voTimestamp F_nil))))
  (fun '(i, (m, (n, (t, tt)))) => construct (ProjectMilestoneRenamed i m n t)).
Definition ProjectMilestoneArchivedSpec : spec := Spec "ProjectMilestoneArchived" _
  (F_cons "projectId" voProjectId (F_cons "milestoneId" voMilestoneId
    (F_cons "archivedAt" voTimestamp F_nil)))
  (fun '(i, (m, (t, tt))) => construct (ProjectMilestoneArchived i m t)).
Definition ProjectArchivedSpec : spec := Spec "ProjectArchived" _
  (F_cons "projectId" voProjectId (F_cons "archivedAt" voTimestamp F_nil))
  (fun '(i, (t, tt)) => construct (ProjectArchived i t)).

(** The project part of [allSpecs]. *)
Definition projectSpecs : list spec :=
  [ProjectCreatedSpec; ProjectStatusTransitionedSpec; ProjectRescheduledSpec; ProjectRenamedSpec;
   ProjectDescribedSpec; ProjectGoalAddedSpec; ProjectGoalRemovedSpec; ProjectMilestoneAddedSpec;
   ProjectMilestoneRescheduledSpec; ProjectMilestoneRenamedSpec; ProjectMilestoneArchivedSpec;
   ProjectArchivedSpec].

(** [encodePersisted] *)
Definition encodePersisted (e : event) : PersistedEvent :=
  match payload e with
  | ProjectCreated i n st sd td d g cb ca =>
      encodeLatest ProjectCreatedSpec (i, (n, (st, (sd, (td, (d, (g, (cb, (ca, tt)))))))))
  | ProjectStatusTransitioned i st t => encodeLatest ProjectStatusTransitionedSpec (i, (st, (t, tt)))
  | ProjectRescheduled i sd td t => encodeLatest ProjectRescheduledSpec (i, (sd, (td, (t, tt))))
  | ProjectRenamed i n t => encodeLatest ProjectRenamedSpec (i, (n, (t, tt)))
  | ProjectDescribed i d t => encodeLatest ProjectDescribedSpec (i, (d, (t, tt)))
  | ProjectGoalAdded i g t => encodeLatest ProjectGoalAddedSpec (i, (g, (t, tt)))
  | ProjectGoalRemoved i t => encodeLatest ProjectGoalRemovedSpec (i, (t, tt))
  | ProjectMilestoneAdded i m n td t =>
      encodeLatest ProjectMilestoneAddedSpec (i, (m, (n, (td, (t, tt)))))
  | ProjectMilestoneRescheduled i m td t =>
      encodeLatest ProjectMilestoneRescheduledSpec (i, (m, (td, (t, tt))))
  | ProjectMilestoneRenamed i m n t =>
      encodeLatest ProjectMilestoneRenamedSpec (i, (m, (n, (t, tt))))
  | ProjectMilestoneArchived i m t => encodeLatest ProjectMilestoneArchivedSpec (i, (m, (t, tt)))
  | ProjectArchived i t => encodeLatest ProjectArchivedSpec (i, (t, tt))
  end.

Lemma voStatus_decode s : decode voStatus (Some (encode voStatus s)) = Ok s.
Proof. apply ProjectStatus.status_from_val. Qed.
Lemma voDate_decode d : decode voDate (Some (encode voDate d)) = Ok d.
Proof. exact (vo_new_value d). Qed.
Lemma voProjectId_decode v : decode voProjectId (Some (encode voProjectId v)) = Ok v.
Proof. exact (voId_decode v). Qed.
Lemma voMilestoneId_decode v : decode voMilestoneId (Some (encode voMilestoneId v)) = Ok v.
Proof. exact (voId_decode v). Qed.
Lemma goalId_decode (g : option GoalId) :
  decode (nullable (voId : FieldMapper GoalId)) (Some (encode (nullable voId) g)) = Ok g.
Proof. apply nullable_roundtrips. destruct g as [g|]; [|done]. split; [exact (voId_decode g)|done]. Qed.

#[export] Hint Resolve voStatus_decode voDate_decode voProjectId_decode voMilestoneId_decode
  goalId_decode : codec.

(** The codec reads back what it wrote, as an event with the metadata given. *)
Lemma project_codec_roundtrip (p : payload_t) (m m' : EventMetadata ProjectId) :
  decodePersisted projectSpecs (encodePersisted (construct p m)) m' = Ok (construct p m').
Proof. destruct p; cbn [encodePersisted construct payload]; codec_roundtrip. Qed.

End ProjectCodec.

Module ProjectProperties.
Import Project ProjectRuns ProjectCodec.

(** C11: From [create] on, whatever commands run, a project's start date is on or before its
    target date, every milestone lies within them and milestone ids are distinct; [create]
    throws exactly when its dates are out of order. *)
Theorem project_invariant (i : ProjectId) n st sd td d g cb ca eid (cs : list command) :
  match create i n st sd td d g cb ca eid with
  | Ok p => project_ok (state (run_commands cs p))
  | Err e => e = dates_error /\ LocalDate.isSameOrBefore sd td = false
  end.
Proof.
  unfold create, check_dates. destruct (LocalDate.isSameOrBefore sd td) eqn:E; [|done]. simpl.
  apply run_commands_ok. exists sd, td. simpl. repeat split; [done|constructor|constructor].
Qed.

(** Every project is the replay of its events: loading a history either throws because
    the history touches a milestone that is not there, or gives a project which, put through
    any sequence of commands, equals the project reconstituted from that history followed by
    the events the commands emitted, its version being their number. *)
Theorem project_replay (i : ProjectId) (h : list event) (cs : list command) :
  match reconstitute (S := fields_t) i h with
  | Err e => exists m : MilestoneId, e = PlainError ("Milestone " +:+ value m +:+ " not found")
  | Ok p0 =>
      let p := run_commands cs p0 in
      reconstitute i (h ++ getUncommittedEvents p) = Ok (markEventsAsCommitted p) /\
      version p = Z.of_nat (length (h ++ getUncommittedEvents p))
  end.
Proof.
  destruct (reconstitute i h) as [p0|e] eqn:E.
  - apply run_all_replay; [|exact E]. apply Forall_map, Forall_true. intros c b. apply project_command_emits_one.
  - revert E. unfold reconstitute, reload, loadFromHistory. generalize (fresh i : Project.t).
    induction h as [|ev h IH]; intros a; [done|]. simpl. unfold mbind, js_bind, applyEvent, modify.
    simpl. destruct (handle (payload ev) (state a)) as [s|err] eqn:Hh.
    + specialize (IH (bump (set_state s a))). exact IH.
    + intros [= <-]. clear IH. destruct (payload ev); simplify_eq/=;
        unfold onProjectMilestoneRescheduled, onProjectMilestoneRenamed, findMilestone in Hh;
        case_match; simplify_eq/=; eauto.
Qed.

(** On an archived project every command throws and leaves the project (fields,
    uncommitted events, version) as it was. *)
Theorem project_archived_frozen (p : Project.t) (c : command) :
  isArchived p = true ->
  run_command c p = (Err (AssertError "Project is archived" "must be false"), p).
Proof.
  intros Ha. destruct c; simpl; unfold changeName, changeDescription, changeStatus, changeDates,
    addGoal, removeGoal, addMilestone, changeMilestoneName, changeMilestoneTargetDate,
    archiveMilestone, archive, reads, mbind, js_bind, assertNotArchived, Assert.isFalse; by rewrite Ha.
Qed.

(** The snapshot of a project's fields, when they are all defined. *)
Definition snapshot_of (p : Project.t) : option ProjectSnapshot :=
  n ← name (state p); st ← status (state p); sd ← startDate (state p); td ← targetDate (state p);
  d ← description (state p); cb ← createdBy (state p); ca ← createdAt (state p);
  ua ← updatedAt (state p);
  Some (Snapshot (id p) n st sd td d (goalId (state p)) (milestones (state p)) cb ca ua
    (archivedAt (state p)) (version p)).

(** A snapshot restores what it was taken of. *)
Lemma snapshot_reload (i : ProjectId) (h1 h2 : list event) (p1 : Project.t)
    (s : ProjectSnapshot) :
  reconstitute i h1 = Ok p1 -> snapshot_of p1 = Some s ->
  reconstituteFromSnapshot s h2 = reconstitute i (h1 ++ h2).
Proof.
  intros Hp Hs. unfold reconstituteFromSnapshot, reconstitute in *. rewrite reload_app.
  unfold reload in Hp. destruct (loadFromHistory h1 (fresh i)) as [[?|?] a1] eqn:E1; [|done].
  injection Hp as <-. rewrite <- (reload_uncommitted a1). f_equal.
  unfold snapshot_of in Hs. destruct a1 as [i1 [? ? ? ? ? ? ? ? ? ? ?] un v]. simpl in *.
  unfold mbind, option_bind in Hs. repeat case_match; simplify_eq/=. done.
Qed.

(** Loading a project from a snapshot of its fields and the later events gives exactly
    what loading the whole history gives. *)
Theorem project_snapshot_tail (i : ProjectId) (h1 h2 : list event) (p1 : Project.t)
    (s : ProjectSnapshot) :
  reconstitute i h1 = Ok p1 -> snapshot_of p1 = Some s ->
  reconstituteFromSnapshot s h2 = reconstitute i (h1 ++ h2).
Proof. apply snapshot_reload. Qed.

(** Every project event, encoded by the codec of its type and decoded as a persisted
    event with its metadata, is read back unchanged. *)
Theorem project_event_roundtrip (p : payload_t) (m : EventMetadata ProjectId) :
  decodePersisted projectSpecs (encodePersisted (construct p m)) m = Ok (construct p m).
Proof. apply project_codec_roundtrip. Qed.

End ProjectProperties.

(** ** Witnesses *)

Module ProjectWitnesses.
Import Project ProjectRuns ProjectCodec ProjectProperties.

Definition meta_1 : EventMetadata ProjectId := Meta project_1 noon event_1 (actor_of alice) None None None.

(** A project from January to March with one milestone in February. *)
Definition history_1 : list event :=
  [construct (ProjectCreated project_1 kitchen ProjectStatus.Planned jan_1 mar_1 no_text None alice noon)
     meta_1;
   construct (ProjectMilestoneAdded project_1 milestone_1 tiles feb_1 noon) meta_1].

Definition state_1 : fields_t :=
  Fields (Some kitchen) (Some ProjectStatus.Planned) (Some jan_1) (Some mar_1) (Some no_text) None
    [MkMilestone milestone_1 tiles feb_1] (Some alice) (Some noon) (Some noon) None.
Definition loaded : Project.t := Aggregate project_1 state_1 [] 2.
Definition archived_project : Project.t := (archive later alice event_2 loaded).2.
Definition snapshot_1 : ProjectSnapshot :=
  Snapshot project_1 kitchen ProjectStatus.Planned jan_1 mar_1 no_text None
    [MkMilestone milestone_1 tiles feb_1] alice noon noon None 2.

Lemma project_archived_frozen_witness :
  isArchived archived_project = true /\
  run_command (Archive later alice event_3) archived_project =
    (Err (AssertError "Project is archived" "must be false"), archived_project).
Proof.
  split; [reflexivity|].
  exact (project_archived_frozen archived_project (Archive later alice event_3) eq_refl).
Defined.

Lemma project_snapshot_tail_witness :
  let e := construct (ProjectMilestoneRenamed project_1 milestone_1 tiles later) meta_1 in
  reconstituteFromSnapshot snapshot_1 [e] = reconstitute project_1 (history_1 ++ [e]).
Proof.
  exact (project_snapshot_tail project_1 history_1
    [construct (ProjectMilestoneRenamed project_1 milestone_1 tiles later) meta_1]
    loaded snapshot_1 eq_refl eq_refl).
Defined.

(** A milestone cannot be left outside the project's dates. *)
Example dates_guard_milestones :
  fst (changeDates jan_1 jan_1 later alice event_2 loaded) =
    Err (AssertError "Existing milestones must remain within the new date range" "must be true").
Proof. reflexivity. Qed.

End ProjectWitnesses.
