(* ===== verification/Sharing.v ===== *)
(** * The sharing context: scopes and resource grants

    [packages/domain/src/sharing]: Modules [ScopeEpoch] and [ScopeStateRef]
    ([vos/]), [Scope] ([Scope.ts]) and [ResourceGrant] ([ResourceGrant.ts]) with
    their events ([events/*.ts]).  The base64 forms of a state reference and
    of a wrapped key ([Buffer]) are not modelled. *)

From S2P Require Import Prelude JsValues ValueObjects Dates AggregateRoot Samples.
From Stdlib Require Import Ascii.

(** ** ScopeEpoch *)

Module ScopeEpoch.

(** A bigint.  The constructor builds [Assert.that(v >= 0n, ...)] and calls no
    check on it. *)
Definition t : Type := Z.

Definition new (v : Z) : result error t :=
  _ ← Assert.that (0 <=? v)%Z "ScopeEpoch must be non-negative"; Ok v.
Definition from (v : Z) : result error t := new v.
Definition zero : t := 0%Z.
Definition increment (e : t) : result error t := new (e + 1)%Z.
Definition isGreaterThan (a b : t) : bool := (b <? a)%Z.
Definition equals (a b : t) : bool := (a =? b)%Z.
Definition toString (e : t) : string := string_of_Z e.

(** [BigInt(s)]: white space around, an empty string is 0, a [0x]/[0o]/[0b]
    prefix, or decimal digits with an optional sign. *)
Definition digit_value (c : ascii) : Z :=
  if is_digit c then code c - 48
  else if in_range 97 102 c then code c - 87 else code c - 55.
Definition digits_in (base : Z) (l : list ascii) : option Z :=
  match l with
  | [] => None
  | _ =>
      if forallb (fun c => is_hex c && (digit_value c <? base)%Z) l
      then Some (fold_left (fun acc c => acc * base + digit_value c)%Z l 0%Z) else None
  end.
Definition BigInt (s : string) : option Z :=
  match chars (trim s) with
  | [] => Some 0%Z
  | c :: l =>
      if is_char "-" c then Z.opp <$> digits_in 10 l
      else if is_char "+" c then digits_in 10 l
      else
        match l with
        | x :: l' =>
            if is_char "0" c && (is_char "x" x || is_char "X" x) then digits_in 16 l'
            else if is_char "0" c && (is_char "o" x || is_char "O" x) then digits_in 8 l'
            else if is_char "0" c && (is_char "b" x || is_char "B" x) then digits_in 2 l'
            else digits_in 10 (c :: l)
        | [] => digits_in 10 (c :: l)
        end
  end.
Definition fromString (s : string) : result error t :=
  match BigInt s with
  | Some v => new v
  | None => Err (PlainError "Cannot convert to a BigInt")
  end.

Example BigInt_forms :
  map BigInt ["12"; " -7 "; ""; "0x1F"; "0b101"; "1.5"; "+"; "0xg"] =
    [Some 12; Some (-7); Some 0; Some 31; Some 5; None; None; None]%Z.
Proof. reflexivity. Qed.

End ScopeEpoch.

(** ** ScopeStateRef *)

Module ScopeStateRef.

(** A [Uint8Array]: bytes 0..255.  Its length is asserted with
    [Assert.that(...)] alone, which checks nothing. *)
Definition t : Type := list Z.

Definition new (v : list Z) : result error t :=
  _ ← Assert.that (Z.of_nat (length v) =? 32)%Z "ScopeStateRef must be 32 bytes (SHA-256)"; Ok v.
Definition from (v : list Z) : result error t := new v.

Definition hex_digit (d : Z) : ascii :=
  ascii_of_N (Z.to_N (if (d <? 10)%Z then 48 + d else 87 + d)).
(** [b.toString(16).padStart(2, '0')] for a byte. *)
Definition hex_byte (b : Z) : string :=
  String (hex_digit (b / 16)) (String (hex_digit (b mod 16)) EmptyString).
Definition toHex (v : t) : string := fold_right (fun b s => hex_byte b +:+ s) EmptyString v.

Definition hex_value (c : ascii) : Z :=
  if is_digit c then code c - 48 else if in_range 97 102 c then code c - 87 else code c - 55.

(** [for (i < 32) bytes[i] = parseInt(hex.slice(2i, 2i + 2), 16)] *)
Fixpoint parse_bytes (n : nat) (l : list ascii) : list Z :=
  match n, l with
  | S n', a :: b :: l' => (hex_value a * 16 + hex_value b)%Z :: parse_bytes n' l'
  | _, _ => []
  end.
Definition fromHex (hex : string) : result error t :=
  _ ← Assert.matches (match_classes (replicate 64 is_hex)) hex "hex";
  new (parse_bytes 32 (chars hex)).

Fixpoint equals (a b : t) : bool :=
  match a, b with
  | [], [] => true
  | x :: a', y :: b' => (x =? y)%Z && equals a' b'
  | _, _ => false
  end.

Definition byte (b : Z) : Prop := (0 <= b < 256)%Z.

Lemma code_hex_digit d : (0 <= d < 16)%Z ->
  code (hex_digit d) = (if (d <? 10)%Z then 48 + d else 87 + d)%Z.
Proof.
  intros. unfold code, hex_digit.
  rewrite N_ascii_embedding; destruct (Z.ltb_spec d 10); lia.
Qed.

Lemma hex_digit_spec d : (0 <= d < 16)%Z -> is_hex (hex_digit d) = true /\ hex_value (hex_digit d) = d.
Proof.
  intros H. unfold is_hex, hex_value, is_digit, in_range. rewrite (code_hex_digit d H).
  destruct (Z.ltb_spec d 10).
  - assert (((48 <=? 48 + d) && (48 + d <=? 57))%Z = true) as -> by (apply andb_true_iff; lia).
    simpl. lia.
  - assert (((48 <=? 87 + d) && (87 + d <=? 57))%Z = false) as -> by (apply andb_false_iff; lia).
    assert (((97 <=? 87 + d) && (87 + d <=? 102))%Z = true) as -> by (apply andb_true_iff; lia).
    simpl. lia.
Qed.

Lemma byte_digits b : byte b -> (0 <= b / 16 < 16)%Z /\ (0 <= b mod 16 < 16)%Z.
Proof.
  unfold byte. intros. split; [|apply Z.mod_pos_bound; lia].
  split; [apply Z.div_pos; lia|apply Z.div_lt_upper_bound; lia].
Qed.

Lemma toHex_classes v : Forall byte v ->
  match_classes (replicate (2 * length v) is_hex) (toHex v) = true.
Proof.
  induction 1 as [|b v Hb _ IH]; [done|].
  replace (2 * length (b :: v)) with (2 + 2 * length v) by (simpl; lia).
  rewrite replicate_add. simpl toHex. rewrite match_classes_app by done. rewrite IH.
  destruct (byte_digits b Hb) as [H1 H2].
  unfold match_classes. simpl.
  by rewrite (proj1 (hex_digit_spec _ H1)), (proj1 (hex_digit_spec _ H2)).
Qed.

Lemma parse_toHex v : Forall byte v -> parse_bytes (length v) (chars (toHex v)) = v.
Proof.
  induction 1 as [|b v Hb _ IH]; [done|]. simpl. rewrite chars_append. simpl. rewrite IH.
  destruct (byte_digits b Hb) as [H1 H2].
  rewrite (proj2 (hex_digit_spec _ H1)), (proj2 (hex_digit_spec _ H2)). f_equal.
  pose proof (Z.div_mod b 16 ltac:(lia)). lia.
Qed.

End ScopeStateRef.

(** ** Scope *)

Module Scope.

Inductive payload_t : Type :=
| ScopeCreated (scopeId : ScopeId) (ownerUserId : UserId) (scopeEpoch : ScopeEpoch.t)
    (createdBy : UserId) (createdAt : Timestamp.t)
| ScopeMemberAdded (scopeId : ScopeId) (memberId : UserId) (role : string) (addedBy : UserId)
    (addedAt : Timestamp.t)
| ScopeMemberRemoved (scopeId : ScopeId) (memberId : UserId) (reason : string) (removedBy : UserId)
    (removedAt : Timestamp.t)
| ScopeEpochRotated (scopeId : ScopeId) (oldEpoch newEpoch : ScopeEpoch.t) (reason : string)
    (rotatedBy : UserId) (rotatedAt : Timestamp.t).

Definition event : Type := DomainEvent payload_t ScopeId.

Definition construct (p : payload_t) (m : EventMetadata ScopeId) : event :=
  let i := aggregateId m in
  let at_ := occurredAt m in
  Event (match p with
    | ScopeCreated _ o e cb _ => ScopeCreated i o e cb at_
    | ScopeMemberAdded _ u r by_ _ => ScopeMemberAdded i u r by_ at_
    | ScopeMemberRemoved _ u r by_ _ => ScopeMemberRemoved i u r by_ at_
    | ScopeEpochRotated _ o n r by_ _ => ScopeEpochRotated i o n r by_ at_
    end) m.

Record ScopeMember : Type := Member {
  m_userId : UserId;
  m_role : string;
  m_addedAt : Timestamp.t;
  m_removedAt : option Timestamp.t
}.

Record fields_t : Type := Fields {
  ownerUserId : option UserId;
  scopeEpoch : option ScopeEpoch.t;
  members : jsmap ScopeMember;
  createdBy : option UserId;
  createdAt : option Timestamp.t
}.

Definition is_active (m : ScopeMember) : bool :=
  match m_removedAt m with None => true | Some _ => false end.

(** ** Event handlers *)

Definition onScopeCreated o e cb ca (s : fields_t) : fields_t :=
  Fields (Some o) (Some e) (members s) (Some cb) (Some ca).
Definition setMembers (ms : jsmap ScopeMember) (s : fields_t) : fields_t :=
  Fields (ownerUserId s) (scopeEpoch s) ms (createdBy s) (createdAt s).
Definition onScopeMemberAdded (u : UserId) r t (s : fields_t) : fields_t :=
  setMembers (map_set (value u) (Member u r t None) (members s)) s.
Definition onScopeMemberRemoved (u : UserId) t (s : fields_t) : fields_t :=
  match map_get (value u) (members s) with
  | Some m =>
      setMembers (map_set (value u) (Member (m_userId m) (m_role m) (m_addedAt m) (Some t))
        (members s)) s
  | None => s
  end.
Definition onScopeEpochRotated n (s : fields_t) : fields_t :=
  Fields (ownerUserId s) (Some n) (members s) (createdBy s) (createdAt s).

Definition handle (p : payload_t) : fields_t -> fields_t :=
  match p with
  | ScopeCreated _ o e cb ca => onScopeCreated o e cb ca
  | ScopeMemberAdded _ u r _ t => onScopeMemberAdded u r t
  | ScopeMemberRemoved _ u _ _ t => onScopeMemberRemoved u t
  | ScopeEpochRotated _ _ n _ _ _ => onScopeEpochRotated n
  end.

#[export] Instance scope_sourced : EventSourced fields_t event := {|
  blank := Fields None None [] None None;
  on_event e := modify (handle (payload e))
|}.

Definition t : Type := aggregate ScopeId fields_t event.

(** ** Commands *)

Definition activeMembers (a : t) : list ScopeMember :=
  filter (fun m => is_active m = true) (members (state a)).*2.

Definition emit (p : payload_t) (at_ : Timestamp.t) (actor : UserId) (eid : EventId) : js t error unit :=
  fun a => apply (construct p (Meta (id a) at_ eid (actor_of actor) None None None)) a.

Definition create (i : ScopeId) (o cb : UserId) (ca : Timestamp.t) (eid eid' : EventId) : result error t :=
  let scope : t := fresh i in
  match (_ ← emit (ScopeCreated i o ScopeEpoch.zero cb ca) ca cb eid;
         emit (ScopeMemberAdded i o "owner" cb ca) ca cb eid') scope with
  | (Ok _, scope) => Ok scope
  | (Err e, _) => Err e
  end.

Definition addMember (u : UserId) (r : string) (at_ : Timestamp.t) (actor : UserId) (eid : EventId) : js t error unit :=
  _ ← reads (fun a => Assert.isTrue
        (match map_get (value u) (members (state a)) with
         | None => true
         | Some m => negb (is_active m)
         end) "Cannot add member: user is already an active member");
  i ← gets id;
  emit (ScopeMemberAdded i u r actor at_) at_ actor eid.

Definition removeMember (u : UserId) (r : string) (at_ : Timestamp.t) (actor : UserId) (eid : EventId) : js t error unit :=
  owner ← reads (fun a => defined (ownerUserId (state a)) "OwnerUserId");
  _ ← lift_result (Assert.isFalse (equals u owner) "Cannot remove owner from scope");
  existing ← reads (fun a => defined (map_get (value u) (members (state a))) "Member not found");
  _ ← lift_result (Assert.isNull (m_removedAt existing) "Member is not active");
  i ← gets id;
  emit (ScopeMemberRemoved i u r actor at_) at_ actor eid.

Definition rotateEpoch (r : string) (at_ : Timestamp.t) (actor : UserId) (eid : EventId) : js t error unit :=
  oldEpoch ← reads (fun a => defined (scopeEpoch (state a)) "ScopeEpoch");
  newEpoch ← lift_result (ScopeEpoch.increment oldEpoch);
  i ← gets id;
  emit (ScopeEpochRotated i oldEpoch newEpoch r actor at_) at_ actor eid.

(** ** Snapshots *)

Record ScopeSnapshot : Type := Snapshot {
  s_id : ScopeId;
  s_ownerUserId : UserId;
  s_scopeEpoch : ScopeEpoch.t;
  s_members : list ScopeMember;
  s_createdBy : UserId;
  s_createdAt : Timestamp.t;
  s_version : Z
}.

Definition hydrateFromSnapshot (s : ScopeSnapshot) (a : t) : t :=
  restoreVersion (s_version s) (set_state
    (Fields (Some (s_ownerUserId s)) (Some (s_scopeEpoch s))
      (map_of_entries (map (fun m => (value (m_userId m), m)) (s_members s)))
      (Some (s_createdBy s)) (Some (s_createdAt s))) a).

Definition reconstituteFromSnapshot (s : ScopeSnapshot) (tail : list event) : result error t :=
  reload (hydrateFromSnapshot s (fresh (s_id s))) tail.

(** ** Runs of commands *)

Inductive command : Type :=
| AddMember (u : UserId) (r : string) (at_ : Timestamp.t) (actor : UserId) (eid : EventId)
| RemoveMember (u : UserId) (r : string) (at_ : Timestamp.t) (actor : UserId) (eid : EventId)
| RotateEpoch (r : string) (at_ : Timestamp.t) (actor : UserId) (eid : EventId).

Definition run_command (c : command) : js t error unit :=
  match c with
  | AddMember u r at_ actor eid => addMember u r at_ actor eid
  | RemoveMember u r at_ actor eid => removeMember u r at_ actor eid
  | RotateEpoch r at_ actor eid => rotateEpoch r at_ actor eid
  end.
Definition run_commands (cs : list command) (a : t) : t := run_all (map run_command cs) a.

Definition is_active_member (u : UserId) (a : t) : bool :=
  match map_get (value u) (members (state a)) with
  | Some m => is_active m
  | None => false
  end.

Lemma scope_command_emits_one c a : emits_one (run_command c) a.
Proof.
  destruct c; simpl; unfold addMember, removeMember, rotateEpoch; emits_one;
    (right; eexists _, _; split; [|reflexivity]; by apply apply_ok; eexists).
Qed.

(** The state a command that goes through leaves, or the unchanged one. *)
Lemma scope_command_state c a :
  state (run_command c a).2 = state a \/
  match c with
  | AddMember u r t _ _ => state (run_command c a).2 = onScopeMemberAdded u r t (state a)
  | RemoveMember u _ t _ _ =>
      state (run_command c a).2 = onScopeMemberRemoved u t (state a) /\ ownerUserId (state a) <> Some u
  | RotateEpoch _ _ _ _ => exists e, scopeEpoch (state a) = Some e /\
      state (run_command c a).2 = onScopeEpochRotated (e + 1)%Z (state a)
  end.
Proof.
  destruct c; simpl; unfold addMember, removeMember, rotateEpoch, reads, gets, lift_result, mbind, js_bind,
    defined, Assert.isFalse, Assert.isTrue, Assert.isNull, Assert.check, ScopeEpoch.increment, ScopeEpoch.new, Assert.that;
    repeat case_match; simplify_eq/=; eauto.
  right. split; [done|]. intros [= ->].
  match goal with H : negb _ = true |- _ => apply negb_true_iff in H; rename H into Hne end.
  pose proof (eq_trans (eq_sym (proj2 (equals_spec u u) eq_refl)) Hne). done.
Qed.

(** The owner is set, the owner is an active member and the epoch is set. *)
Definition scope_ok (o : UserId) (a : t) : Prop :=
  ownerUserId (state a) = Some o /\ is_active_member o a = true /\
  NoDup (members (state a)).*1 /\
  exists e, scopeEpoch (state a) = Some e /\ (0 <= e)%Z.

Lemma added_active u v r t s :
  match map_get (value v) (members (onScopeMemberAdded u r t s)) with
  | Some m => is_active m | None => false end =
  (bool_decide (u = v) || match map_get (value v) (members s) with
    | Some m => is_active m | None => false end).
Proof.
  unfold onScopeMemberAdded. simpl. case_bool_decide as Huv; [subst|].
  - by rewrite map_get_set_eq.
  - rewrite map_get_set_ne; [done|]. intros Hv. apply Huv. by apply vo_eq.
Qed.

Lemma removed_other u v t s : u <> v ->
  map_get (value v) (members (onScopeMemberRemoved u t s)) = map_get (value v) (members s).
Proof.
  intros Huv. unfold onScopeMemberRemoved. destruct (map_get (value u) (members s)); [|done].
  simpl. apply map_get_set_ne. intros Hv. apply Huv. by apply vo_eq.
Qed.

Lemma scope_command_ok o c a : scope_ok o a -> scope_ok o (run_command c a).2.
Proof.
  intros (Ho & Ha & Hnd & e & He & Hpos). unfold scope_ok, is_active_member in *.
  destruct (scope_command_state c a) as [->|Hc]; [by eauto 6|].
  destruct c as [u r t actor eid|u r t actor eid|r t actor eid].
  - rewrite Hc. split; [exact Ho|]. rewrite added_active, Ha, orb_true_r. split; [done|].
    split; [by apply map_set_NoDup|by eauto].
  - destruct Hc as [-> Hne]. split; [unfold onScopeMemberRemoved; by destruct (map_get (value u) _)|].
    rewrite removed_other by congruence. split; [done|].
    unfold onScopeMemberRemoved; destruct (map_get (value u) _); simpl;
      split; eauto; by apply map_set_NoDup.
  - destruct Hc as (e' & He' & ->). simplify_eq. split; [done|]. split; [done|]. split; [done|].
    exists (e + 1)%Z. simpl. split; [done|lia].
Qed.

(** What the two membership commands do, by cases on the guards. *)
Lemma addMember_run u r at_ actor eid a :
  addMember u r at_ actor eid a =
    if is_active_member u a
    then (Err (AssertError "Cannot add member: user is already an active member" "must be true"), a)
    else emit (ScopeMemberAdded (id a) u r actor at_) at_ actor eid a.
Proof.
  unfold addMember, is_active_member, reads, gets, mbind, js_bind, Assert.isTrue, Assert.check.
  destruct (map_get _ _) as [m|]; [|done]. by destruct (is_active m).
Qed.

Lemma removeMember_run o u r at_ actor eid a :
  ownerUserId (state a) = Some o ->
  removeMember u r at_ actor eid a =
    if decide (u = o) then (Err (AssertError "Cannot remove owner from scope" "must be false"), a)
    else match map_get (value u) (members (state a)) with
      | None => (Err (AssertError "Member not found" "must be defined"), a)
      | Some m =>
          if is_active m then emit (ScopeMemberRemoved (id a) u r actor at_) at_ actor eid a
          else (Err (AssertError "Member is not active" "must be null"), a)
      end.
Proof.
  intros Ho. unfold removeMember, reads, gets, lift_result, mbind, js_bind, Assert.isFalse,
    Assert.isNull, Assert.check, defined. rewrite Ho. rewrite equals_bool.
  case_decide as Huo; [by rewrite bool_decide_true|]. rewrite bool_decide_false by done. simpl.
  destruct (map_get _ _) as [m|]; [|done]. unfold is_active. by destruct (m_removedAt m).
Qed.

Lemma emit_ok p at_ actor eid a : exists a', emit p at_ actor eid a = (Ok tt, a') /\
  state a' = handle (payload (construct p (Meta (id a) at_ eid (actor_of actor) None None None))) (state a).
Proof. by eexists. Qed.

Lemma removed_active u v t s :
  match map_get (value v) (members (onScopeMemberRemoved u t s)) with
  | Some m => is_active m | None => false end =
  (negb (bool_decide (v = u)) && match map_get (value v) (members s) with
    | Some m => is_active m | None => false end).
Proof.
  case_bool_decide as Hvu; simpl; [subst|by rewrite removed_other].
  unfold onScopeMemberRemoved. destruct (map_get (value u) (members s)) eqn:E; [|by rewrite E].
  simpl. by rewrite map_get_set_eq.
Qed.

End Scope.

(** ** ResourceGrant *)

Module ResourceGrant.

Inductive payload_t : Type :=
| ResourceGranted (grantId : GrantId) (scopeId : ScopeId) (resourceId : ResourceId)
    (scopeEpoch : ScopeEpoch.t) (resourceKeyId : string) (wrappedKey : list Z) (grantedBy : UserId)
    (grantedAt : Timestamp.t)
| ResourceRevoked (grantId : GrantId) (scopeId : ScopeId) (resourceId : ResourceId) (reason : string)
    (revokedBy : UserId) (revokedAt : Timestamp.t).

Definition event : Type := DomainEvent payload_t GrantId.

Definition construct (p : payload_t) (m : EventMetadata GrantId) : event :=
  let i := aggregateId m in
  let at_ := occurredAt m in
  Event (match p with
    | ResourceGranted _ s r e k w by_ _ => ResourceGranted i s r e k w by_ at_
    | ResourceRevoked _ s r why by_ _ => ResourceRevoked i s r why by_ at_
    end) m.

Inductive GrantStatus : Type := active | revoked.

Record fields_t : Type := Fields {
  scopeId : option ScopeId;
  resourceId : option ResourceId;
  scopeEpoch : option ScopeEpoch.t;
  resourceKeyId : option string;
  wrappedKey : option (list Z);
  status : GrantStatus;
  grantedBy : option UserId;
  grantedAt : option Timestamp.t;
  revokedBy : option UserId;
  revokedAt : option Timestamp.t
}.

Definition onResourceGranted sc re e k w by_ t (s : fields_t) : fields_t :=
  Fields (Some sc) (Some re) (Some e) (Some k) (Some w) active (Some by_) (Some t)
    (revokedBy s) (revokedAt s).
Definition onResourceRevoked by_ t (s : fields_t) : fields_t :=
  Fields (scopeId s) (resourceId s) (scopeEpoch s) (resourceKeyId s) (wrappedKey s) revoked
    (grantedBy s) (grantedAt s) (Some by_) (Some t).

Definition handle (p : payload_t) : fields_t -> fields_t :=
  match p with
  | ResourceGranted _ sc re e k w by_ t => onResourceGranted sc re e k w by_ t
  | ResourceRevoked _ _ _ _ by_ t => onResourceRevoked by_ t
  end.

#[export] Instance grant_sourced : EventSourced fields_t event := {|
  blank := Fields None None None None None active None None None None;
  on_event e := modify (handle (payload e))
|}.

Definition t : Type := aggregate GrantId fields_t event.

Definition emit (p : payload_t) (at_ : Timestamp.t) (actor : UserId) (eid : EventId) : js t error unit :=
  fun a => apply (construct p (Meta (id a) at_ eid (actor_of actor) None None None)) a.

Definition create (i : GrantId) (sc : ScopeId) (re : ResourceId) (e : ScopeEpoch.t) (k : string)
    (w : list Z) (by_ : UserId) (at_ : Timestamp.t) (eid : EventId) : result error t :=
  _ ← Assert.isNonEmpty k "ResourceKeyId";
  _ ← Assert.isTrue (0 <? Z.of_nat (length w))%Z "WrappedKey cannot be empty";
  let grant : t := fresh i in
  match emit (ResourceGranted i sc re e k w by_ at_) at_ by_ eid grant with
  | (Ok _, grant) => Ok grant
  | (Err err, _) => Err err
  end.

Definition isActive (a : t) : bool := match status (state a) with active => true | revoked => false end.
Definition isRevoked (a : t) : bool := match status (state a) with active => false | revoked => true end.

Definition revoke (r : string) (at_ : Timestamp.t) (actor : UserId) (eid : EventId) : js t error unit :=
  _ ← reads (fun a => Assert.isFalse (isRevoked a) "Cannot revoke: grant is already revoked");
  i ← gets id;
  sc ← reads (fun a => defined (scopeId (state a)) "ScopeId");
  re ← reads (fun a => defined (resourceId (state a)) "ResourceId");
  emit (ResourceRevoked i sc re r actor at_) at_ actor eid.

Record ResourceGrantSnapshot : Type := Snapshot {
  s_id : GrantId;
  s_scopeId : ScopeId;
  s_resourceId : ResourceId;
  s_scopeEpoch : ScopeEpoch.t;
  s_resourceKeyId : string;
  s_wrappedKey : list Z;
  s_status : GrantStatus;
  s_grantedBy : UserId;
  s_grantedAt : Timestamp.t;
  s_revokedBy : option UserId;
  s_revokedAt : option Timestamp.t;
  s_version : Z
}.

Definition hydrateFromSnapshot (s : ResourceGrantSnapshot) (a : t) : t :=
  restoreVersion (s_version s) (set_state
    (Fields (Some (s_scopeId s)) (Some (s_resourceId s)) (Some (s_scopeEpoch s))
      (Some (s_resourceKeyId s)) (Some (s_wrappedKey s)) (s_status s) (Some (s_grantedBy s))
      (Some (s_grantedAt s)) (s_revokedBy s) (s_revokedAt s)) a).
Definition reconstituteFromSnapshot (s : ResourceGrantSnapshot) (tail : list event) : result error t :=
  reload (hydrateFromSnapshot s (fresh (s_id s))) tail.

Lemma revoke_emits_one r at_ actor eid a : emits_one (revoke r at_ actor eid) a.
Proof.
  unfold revoke. emits_one. right. eexists _, _. split; [|reflexivity]. by apply apply_ok; eexists.
Qed.

Definition run_revokes (cs : list (string * Timestamp.t * UserId * EventId)) (a : t) : t :=
  run_all (map (fun '(r, at_, actor, eid) => revoke r at_ actor eid) cs) a.

Lemma run_revokes_cons r t u ev cs a :
  run_revokes ((r, t, u, ev) :: cs) a = run_revokes cs (revoke r t u ev a).2.
Proof. done. Qed.

Definition grant_ok (a : t) : Prop :=
  (exists k, resourceKeyId (state a) = Some k /\ k <> EmptyString) /\
  (exists w, wrappedKey (state a) = Some w /\ w <> []) /\
  (exists sc re, scopeId (state a) = Some sc /\ resourceId (state a) = Some re) /\
  (isRevoked a = true <-> exists u t, revokedBy (state a) = Some u /\ revokedAt (state a) = Some t) /\
  (isRevoked a = false -> revokedBy (state a) = None /\ revokedAt (state a) = None).

Lemma revoke_cases r at_ actor eid a :
  grant_ok a ->
  if isRevoked a
  then revoke r at_ actor eid a =
    (Err (AssertError "Cannot revoke: grant is already revoked" "must be false"), a)
  else exists a', revoke r at_ actor eid a = (Ok tt, a') /\
    state a' = onResourceRevoked actor at_ (state a) /\ isRevoked a' = true.
Proof.
  intros (_ & _ & (sc & re & Hsc & Hre) & _). unfold revoke, reads, gets, mbind, js_bind, Assert.isFalse, Assert.check.
  destruct (isRevoked a) eqn:E; simpl; [done|]. rewrite Hsc, Hre. simpl. by eexists.
Qed.

Lemma revoke_ok r at_ actor eid a : grant_ok a -> grant_ok (revoke r at_ actor eid a).2.
Proof.
  intros Hok. pose proof (revoke_cases r at_ actor eid a Hok) as Hc.
  destruct (isRevoked a); [by rewrite Hc|]. destruct Hc as (a' & -> & Hs & Hr). simpl.
  destruct Hok as (Hk & Hw & Hsr & _). unfold grant_ok, isRevoked in *. rewrite Hs. simpl.
  repeat split; eauto; done.
Qed.

End ResourceGrant.

Module SharingProperties.

(** The hex form of a scope state reference parses back to the same bytes when there
    are 32 of them, and is refused by [fromHex] for any other length. *)
Theorem state_ref_hex_roundtrip (v : ScopeStateRef.t) :
  Forall ScopeStateRef.byte v ->
  ScopeStateRef.fromHex (ScopeStateRef.toHex v) =
    if decide (length v = 32) then Ok v else Err (AssertError "hex" "must match pattern").
Proof.
  intros Hv. unfold ScopeStateRef.fromHex, Assert.matches.
  pose proof (ScopeStateRef.toHex_classes v Hv) as Hc. destruct (decide (length v = 32)) as [Hl|Hl].
  - rewrite Hl in Hc. change (2 * 32) with 64 in Hc. rewrite Hc.
    change (ScopeStateRef.new (ScopeStateRef.parse_bytes 32 (chars (ScopeStateRef.toHex v))) = Ok v).
    rewrite <- Hl at 1. by rewrite ScopeStateRef.parse_toHex.
  - destruct (match_classes (replicate 64 is_hex) _) eqn:E; [|done].
    apply match_classes_length in E, Hc. rewrite length_replicate in *. lia.
Qed.

(** C12: From [create] on, whatever commands run, a scope keeps its owner as an active
    member, has one entry per user, and its epoch never decreases: each command leaves it
    or, a rotation, raises it by exactly one. *)
Theorem scope_invariant (i : ScopeId) (o cb : UserId) ca eid eid' (cs : list Scope.command) :
  exists s0, Scope.create i o cb ca eid eid' = Ok s0 /\
  let s := Scope.run_commands cs s0 in
  Scope.ownerUserId (state s) = Some o /\ Scope.is_active_member o s = true /\
  NoDup (Scope.members (state s)).*1 /\
  exists e, Scope.scopeEpoch (state s) = Some e /\ (0 <= e)%Z /\
    forall c, exists e', Scope.scopeEpoch (state (Scope.run_command c s).2) = Some e' /\
      (e' = e \/ (exists r t a eid, c = Scope.RotateEpoch r t a eid) /\ e' = (e + 1)%Z).
Proof.
  eexists. split; [reflexivity|]. cbv zeta.
  match goal with |- context [Scope.run_commands cs ?g] => set (s0 := g) end.
  assert (Scope.scope_ok o (Scope.run_commands cs s0)) as (Ho & Ha & Hnd & e & He & Hpos).
  { apply (run_all_inv (Scope.scope_ok o)).
    - apply Forall_map, Forall_true. intros c b. apply Scope.scope_command_ok.
    - unfold Scope.scope_ok, Scope.is_active_member, map_get. simpl. rewrite decide_True by done. simpl.
      repeat split; try done; [apply NoDup_singleton|]. by exists 0%Z. }
  split; [done|]. split; [done|]. split; [done|]. exists e. split; [done|]. split; [done|].
  intros c. destruct (Scope.scope_command_state c (Scope.run_commands cs s0)) as [->|Hc]; [by eauto|].
  destruct c.
  - rewrite Hc. exists e. split; [exact He|by left].
  - destruct Hc as [-> _]. exists e. split; [|by left]. unfold Scope.onScopeMemberRemoved.
    by destruct (map_get _ _).
  - destruct Hc as (e' & He' & ->). rewrite He in He'. injection He' as <-. exists (e + 1)%Z.
    split; [done|]. right. split; [by eauto|done].
Qed.

(** On a well-formed scope, [addMember] succeeds exactly for a user who is not an
    active member and [removeMember] exactly for an active member other than the owner; each
    changes the membership of that user and of nobody else. *)
Theorem scope_membership (s : Scope.t) (o u v : UserId) r at_ actor eid :
  Scope.scope_ok o s ->
  (fst (Scope.addMember u r at_ actor eid s) = Ok tt <-> Scope.is_active_member u s = false) /\
  (fst (Scope.removeMember u r at_ actor eid s) = Ok tt <->
     u <> o /\ Scope.is_active_member u s = true) /\
  (fst (Scope.addMember u r at_ actor eid s) = Ok tt ->
     Scope.is_active_member v (snd (Scope.addMember u r at_ actor eid s)) =
       bool_decide (v = u) || Scope.is_active_member v s) /\
  (fst (Scope.removeMember u r at_ actor eid s) = Ok tt ->
     Scope.is_active_member v (snd (Scope.removeMember u r at_ actor eid s)) =
       negb (bool_decide (v = u)) && Scope.is_active_member v s).
Proof.
  intros (Ho & _ & _ & _). rewrite Scope.addMember_run, (Scope.removeMember_run o) by done.
  destruct (Scope.emit_ok (Scope.ScopeMemberAdded (id s) u r actor at_) at_ actor eid s) as (a1 & -> & H1).
  destruct (Scope.emit_ok (Scope.ScopeMemberRemoved (id s) u r actor at_) at_ actor eid s) as (a2 & -> & H2).
  simpl in H1, H2. unfold Scope.is_active_member in *.
  split; [by destruct (match map_get _ _ with Some m => Scope.is_active m | None => false end)|].
  split; [|split].
  - case_decide as Huo; [split; [done|by intros []]|].
    destruct (map_get (value u) _) as [m|]; [|split; [done|by intros []]].
    destruct (Scope.is_active m); split; [done|done|done|by intros []].
  - destruct (match map_get (value u) _ with Some m => Scope.is_active m | None => false end); [done|].
    intros _. simpl. rewrite H1, Scope.added_active. f_equal. by apply bool_decide_ext.
  - case_decide as Huo; [done|]. destruct (map_get (value u) _) as [m|]; [|done].
    destruct (Scope.is_active m); [|done]. intros _. simpl. rewrite H2. apply Scope.removed_active.
Qed.

(** [ResourceGrant.create] throws only for an empty wrapped key or key id; a created
    grant is active until the first revocation and revoked for ever after, a further
    [revoke] throwing and changing nothing. *)
Theorem grant_lifecycle (i : GrantId) sc re e k w by_ at_ eid cs :
  match ResourceGrant.create i sc re e k w by_ at_ eid with
  | Err _ => k = EmptyString \/ w = []
  | Ok g0 =>
      let g := ResourceGrant.run_revokes cs g0 in
      ResourceGrant.grant_ok g /\
      (ResourceGrant.isRevoked g = false <-> cs = []) /\
      forall r t actor eid', ResourceGrant.isRevoked g = true ->
        ResourceGrant.revoke r t actor eid' g =
          (Err (AssertError "Cannot revoke: grant is already revoked" "must be false"), g)
  end.
Proof.
  unfold ResourceGrant.create, Assert.isNonEmpty, Assert.isTrue, Assert.check.
  destruct (Z.eqb_spec (strlen k) 0) as [Hk|Hk]; simpl.
  { left. destruct k; [done|]. unfold strlen in Hk. simpl in Hk. lia. }
  destruct (Z.ltb_spec 0 (Z.of_nat (length w))) as [Hw|Hw]; simpl.
  2:{ right. destruct w; [done|simpl in *; lia]. }
  match goal with |- context [ResourceGrant.run_revokes cs ?g] => set (g0 := g) end.
  assert (ResourceGrant.grant_ok g0) as H0.
  { repeat split; simpl; eauto; try done.
    - exists k. split; [done|]. by intros ->.
    - exists w. split; [done|]. by intros ->.
    - intros (?&?&?&?). done. }
  assert (ResourceGrant.isRevoked g0 = false) as Hr0 by done.
  assert (forall g, ResourceGrant.grant_ok g -> ResourceGrant.grant_ok (ResourceGrant.run_revokes cs g)) as Hrun.
  { intros g. apply (run_all_inv ResourceGrant.grant_ok), Forall_map, Forall_true.
    intros [[[r t] u] ev] b. apply ResourceGrant.revoke_ok. }
  clearbody g0. split; [by apply Hrun|]. split.
  - destruct cs as [|[[[r t] u] ev] cs]; [done|]. split; [|done]. intros Hf. exfalso. revert Hf.
    rewrite ResourceGrant.run_revokes_cons.
    pose proof (ResourceGrant.revoke_cases r t u ev g0 H0) as Hc. rewrite Hr0 in Hc.
    destruct Hc as (g1 & Hg1 & _ & Hr1). rewrite Hg1. simpl.
    pose proof (ResourceGrant.revoke_ok r t u ev g0 H0) as H1. rewrite Hg1 in H1. simpl in H1.
    enough (ResourceGrant.isRevoked (ResourceGrant.run_revokes cs g1) = true) by congruence.
    apply (run_all_inv (fun g => ResourceGrant.grant_ok g /\ ResourceGrant.isRevoked g = true)); [|done].
    apply Forall_map, Forall_true. intros [[[r' t'] u'] ev'] g [Hok Hrev].
    pose proof (ResourceGrant.revoke_cases r' t' u' ev' g Hok) as Hc. rewrite Hrev in Hc. by rewrite Hc.
  - intros r t actor eid' Hrev.
    pose proof (ResourceGrant.revoke_cases r t actor eid' _ (Hrun g0 H0)) as Hc. by rewrite Hrev in Hc.
Qed.

(** The epoch's and the state reference's constructors check nothing. *)
Theorem sharing_values_unchecked :
  ScopeEpoch.from (-1) = Ok (-1)%Z /\ ScopeEpoch.fromString "-7" = Ok (-7)%Z /\
  ScopeStateRef.from [1; 2; 3]%Z = Ok [1; 2; 3]%Z.
Proof. done. Qed.

End SharingProperties.

Module SharingWitnesses.

Lemma state_ref_hex_roundtrip_witness :
  ScopeStateRef.fromHex (ScopeStateRef.toHex (replicate 32 171%Z)) = Ok (replicate 32 171%Z).
Proof.
  refine (SharingProperties.state_ref_hex_roundtrip (replicate 32 171%Z) _).
  apply Forall_replicate. unfold ScopeStateRef.byte. lia.
Defined.

Definition sample_scope : Scope.t :=
  match Scope.create scope_1 alice alice noon event_1 event_2 with Ok s => s | Err _ => fresh (H := Scope.scope_sourced) scope_1 end.

Lemma scope_membership_witness :
  Scope.scope_ok alice sample_scope /\
  (fst (Scope.addMember bob "editor" noon alice event_3 sample_scope) = Ok tt <->
   Scope.is_active_member bob sample_scope = false).
Proof.
  assert (Scope.scope_ok alice sample_scope) as H.
  { split; [reflexivity|]. split; [reflexivity|]. split; [apply NoDup_singleton|].
    exists 0%Z. split; [reflexivity|lia]. }
  split; [exact H|].
  exact (proj1 (SharingProperties.scope_membership sample_scope alice bob bob "editor" noon alice event_3 H)).
Defined.

End SharingWitnesses.
