(* ===== verification/SyncServer.v ===== *)
(** * The sync backend

    [apps/api/src/sync]: the tables ([infrastructure/migrations]), the
    repositories ([infrastructure/kysely-*.repository.ts]), the service
    ([application/sync.service.ts]) and the controller
    ([presentation/sync.controller.ts]).  Each repository call runs in one
    PostgreSQL transaction, so the model executes requests one after the other
    ([forUpdate] serialises the appends of a store).  Authentication and the
    DTO validation library are outside: a request carries the authenticated
    identity and integers.  The sharing repositories are an interface
    ([SharingRepos]). *)

From S2P Require Import Prelude JsValues.
From Stdlib Require Import Ascii.

(** ** Errors *)

Inductive server_error : Type :=
| AccessDenied (message : string)
| HeadMismatch (currentHead expectedHead : Z)
| ServerError (message : string).

#[export] Instance server_error_eq_dec : EqDecision server_error.
Proof. solve_decision. Defined.

(** ** Value objects *)

Definition non_blank (cls s : string) : result server_error string :=
  if (strlen s =? 0)%Z || (strlen (trim s) =? 0)%Z
  then Err (ServerError (cls +:+ " cannot be empty")) else Ok s.
Definition SyncOwnerId_from (s : string) := non_blank "SyncOwnerId" s.
Definition SyncStoreId_from (s : string) := non_blank "SyncStoreId" s.
Definition SharedScopeId_from (s : string) := non_blank "ScopeId" s.
Definition SharedGrantId_from (s : string) := non_blank "GrantId" s.
Definition SharedResourceId_from (s : string) := non_blank "ResourceId" s.

Definition GlobalSequenceNumber_from (value : Z) : result server_error Z :=
  if (value <? 0)%Z then Err (ServerError "GlobalSequenceNumber must be a non-negative integer")
  else Ok value.

(** ** Tables *)

Record StoreRow : Type := Store {
  owner_identity_id : string;
  head : Z
}.

Record SyncIncomingEvent : Type := Incoming {
  in_eventId : string;
  in_recordJson : string;
  in_scopeId : option string;
  in_resourceId : option string;
  in_resourceKeyId : option string;
  in_grantId : option string;
  in_scopeStateRef : option (list Z);
  in_authorDeviceId : option string
}.

(** A row of [sync.events]; the sharing columns are the incoming event's. *)
Record EventRow : Type := Row {
  row_owner : string;
  row_store : string;
  global_seq : Z;
  row_event : SyncIncomingEvent
}.
Definition row_eventId (r : EventRow) : string := in_eventId (row_event r).
Definition row_recordJson (r : EventRow) : string := in_recordJson (row_event r).

(** [sync.stores], keyed by its primary key, and the rows of [sync.events]. *)
Record server : Type := Server {
  stores : gmap string StoreRow;
  events : list EventRow
}.

Definition empty_server : server := Server ∅ [].

Notation srv := (js server server_error).

Definition in_stream (owner store : string) (r : EventRow) : bool :=
  bool_decide (row_owner r = owner) && bool_decide (row_store r = store).

Definition set_head (store : string) (h : Z) (s : server) : server :=
  Server (alter (fun r => Store (owner_identity_id r) h) store (stores s)) (events s).

(** [ORDER BY global_seq ASC] *)
Fixpoint insert_row (r : EventRow) (l : list EventRow) : list EventRow :=
  match l with
  | [] => [r]
  | x :: l' => if (global_seq r <=? global_seq x)%Z then r :: x :: l' else x :: insert_row r l'
  end.
Definition order_by_seq (l : list EventRow) : list EventRow := fold_right insert_row [] l.

(** ** Repositories *)

(** [KyselySyncStoreRepository.ensureStoreOwner] *)
Definition ensureStoreOwner (store owner : string) : srv unit :=
  transaction (
    _ ← modify (fun s =>
          match stores s !! store with
          | Some _ => s
          | None => Server (<[store := Store owner 0]> (stores s)) (events s)
          end);
    gets (fun s => stores s !! store) ≫= fun existing : option StoreRow =>
    match existing with
    | None => throw (ServerError "Failed to ensure store exists")
    | Some r =>
        if decide (owner_identity_id r = owner) then skip
        else throw (AccessDenied "Store is owned by a different identity")
    end).

Definition getHeadSequence (owner store : string) : srv Z :=
  reads (fun s => GlobalSequenceNumber_from
    match stores s !! store with
    | Some r => if decide (owner_identity_id r = owner) then head r else 0
    | None => 0
    end%Z).

Record Assignment : Type := Assigned { a_eventId : string; a_globalSequence : Z }.

Record AppendResult : Type := Appended { r_head : Z; r_assigned : list Assignment }.

(** The row of the stream with this event id. *)
Definition find_row (owner store event_id : string) (s : server) : option EventRow :=
  List.find (fun r => in_stream owner store r && bool_decide (row_eventId r = event_id)) (events s).

(** [INSERT ... ON CONFLICT (owner, store, event_id) DO NOTHING RETURNING]: a
    clash on the other unique index, (owner, store, global_seq), throws. *)
Definition insert_event (owner store : string) (seq : Z) (e : SyncIncomingEvent) : srv (option EventRow) :=
  gets (find_row owner store (in_eventId e)) ≫= fun found : option EventRow =>
  match found with
  | Some _ => mret None
  | None =>
      gets (fun s => existsb (fun r => in_stream owner store r && (global_seq r =? seq)%Z) (events s))
        ≫= fun clash : bool =>
      if clash then throw (ServerError "duplicate key value violates unique constraint")
      else
        let row := Row owner store seq e in
        _ ← modify (fun s => Server (stores s) (events s ++ [row]));
        mret (Some row)
  end.

(** The loop of [appendBatch]: the running head and the assignments so far.
    Sequences are unbounded integers: that the column overflows is not modelled. *)
Fixpoint append_loop (owner store : string) (existing : list (string * Z))
    (es : list SyncIncomingEvent) (currentHead : Z) (assigned : list Assignment)
    : srv (Z * list Assignment) :=
  match es with
  | [] => mret (currentHead, assigned)
  | e :: es' =>
      match assoc (in_eventId e) existing with
      | Some known =>
          known ← lift_result (GlobalSequenceNumber_from known);
          append_loop owner store existing es' currentHead
            (assigned ++ [Assigned (in_eventId e) known])
      | None =>
          let nextSequence := (currentHead + 1)%Z in
          insert_event owner store nextSequence e ≫= fun inserted : option EventRow =>
          match inserted with
          | Some r =>
              seq ← lift_result (GlobalSequenceNumber_from (global_seq r));
              append_loop owner store existing es' nextSequence
                (assigned ++ [Assigned (row_eventId r) seq])
          | None =>
              gets (find_row owner store (in_eventId e)) ≫= fun row : option EventRow =>
              match row with
              | None => throw (ServerError ("Failed to insert or resolve event " +:+ in_eventId e))
              | Some r =>
                  seq ← lift_result (GlobalSequenceNumber_from (global_seq r));
                  append_loop owner store existing es' currentHead
                    (assigned ++ [Assigned (row_eventId r) seq])
              end
          end
      end
  end.

(** [KyselySyncEventRepository.appendBatch] *)
Definition appendBatch (owner store : string) (expectedHead : Z) (es : list SyncIncomingEvent)
    : srv AppendResult :=
  match es with
  | [] => mret (Appended expectedHead [])
  | _ =>
      transaction (
        gets (fun s => stores s !! store) ≫= fun found : option StoreRow =>
        match found with
        | Some storeRow =>
            if decide (owner_identity_id storeRow = owner) then
              let currentHead := head storeRow in
              if negb (currentHead =? expectedHead)%Z then
                cur ← lift_result (GlobalSequenceNumber_from currentHead);
                throw (HeadMismatch cur expectedHead)
              else
                gets (fun s => map (fun r => (row_eventId r, global_seq r))
                       (filter (fun r => in_stream owner store r &&
                          bool_decide (row_eventId r ∈ map in_eventId es) = true) (events s)))
                  ≫= fun existing : list (string * Z) =>
                append_loop owner store existing es currentHead [] ≫=
                  fun result : Z * list Assignment =>
                _ ← modify (set_head store result.1);
                h ← lift_result (GlobalSequenceNumber_from result.1);
                mret (Appended h result.2)
            else throw (ServerError ("Sync store " +:+ store +:+ " not found"))
        | None => throw (ServerError ("Sync store " +:+ store +:+ " not found"))
        end)
  end.

Definition loadSince (owner store : string) (since limit : Z) : srv (list EventRow) :=
  gets (fun s => take (Z.to_nat limit) (order_by_seq
    (filter (fun r => in_stream owner store r && (since <? global_seq r)%Z = true) (events s)))).

Definition resetStore_repo (owner store : string) : srv unit :=
  transaction (
    _ ← modify (fun s => Server (stores s)
          (filter (fun r => negb (in_stream owner store r) = true) (events s)));
    modify (fun s =>
      match stores s !! store with
      | Some r => if decide (owner_identity_id r = owner) then set_head store 0 s else s
      | None => s
      end)).

(** ** Service *)

(** [OwnerOnlySyncAccessPolicy] (push and pull alike). *)
Definition ensureCanAccess (actor : string) : srv unit :=
  lift_result (if (strlen actor =? 0)%Z then Err (AccessDenied "Invalid actor") else Ok tt).

Inductive ConflictReason : Type :=
| server_ahead | server_behind | missing_deps | stale_scope_state | stale_grant.

Record ActiveGrant : Type := Active { g_grantId : string; g_resourceKeyId : string }.

(** What the service asks of [ScopeStateRepository] and [ResourceGrantRepository]. *)
Record SharingRepos : Type := Repos {
  loadByRef : list Z -> bool;
  loadByGrantId : string -> bool;
  getHeadRef : string -> option (list Z);
  getActiveGrant : string -> string -> option ActiveGrant
}.

(** A string in a condition: absent and empty are falsy. *)
Definition truthy (s : option string) : option string :=
  match s with Some x => if (strlen x =? 0)%Z then None else Some x | None => None end.

Definition check_dependencies (repos : SharingRepos) (e : SyncIncomingEvent)
    : result server_error (option ConflictReason) :=
  match truthy (in_scopeId e), truthy (in_grantId e), in_scopeStateRef e with
  | Some scope, Some grant, Some ref =>
      scopeId ← SharedScopeId_from scope;
      grantId ← SharedGrantId_from grant;
      resourceId ← match truthy (in_resourceId e) with
        | Some r => x ← SharedResourceId_from r; Ok (Some x)
        | None => Ok None
        end;
      if negb (loadByRef repos ref) then Ok (Some missing_deps)
      else if negb (loadByGrantId repos grantId) then Ok (Some missing_deps)
      else if negb (bool_decide (getHeadRef repos scopeId = Some ref)) then Ok (Some stale_scope_state)
      else
        match resourceId with
        | None => Ok None
        | Some rid =>
            match getActiveGrant repos scopeId rid with
            | None => Ok (Some stale_grant)
            | Some g =>
                if negb (bool_decide (g_grantId g = grantId)) then Ok (Some stale_grant)
                else
                  match truthy (in_resourceKeyId e) with
                  | Some k =>
                      if bool_decide (g_resourceKeyId g = k) then Ok None else Ok (Some stale_grant)
                  | None => Ok None
                  end
            end
        end
  | _, _, _ => Ok None
  end.

(** The first event in conflict decides. *)
Fixpoint check_all (repos : SharingRepos) (es : list SyncIncomingEvent)
    : result server_error (option ConflictReason) :=
  match es with
  | [] => Ok None
  | e :: es' =>
      match check_dependencies repos e with
      | Ok None => check_all repos es'
      | r => r
      end
  end.

(** The repositories are optional dependencies. *)
Definition validateSharingDependencies (repos : option SharingRepos) (es : list SyncIncomingEvent)
    : result server_error (option ConflictReason) :=
  match repos with None => Ok None | Some r => check_all r es end.

Inductive PushResult : Type :=
| PushOk (head : Z) (assigned : list Assignment)
| PushConflict (head : Z) (reason : ConflictReason) (missing : option (list EventRow)).

Section Service.
Variable repos : option SharingRepos.

Definition pushEvents (owner store : string) (expectedHead : Z) (es : list SyncIncomingEvent)
    : srv PushResult :=
  _ ← ensureCanAccess owner;
  _ ← ensureStoreOwner store owner;
  match es with
  | [] => h ← getHeadSequence owner store; mret (PushOk h [])
  | _ =>
      lift_result (validateSharingDependencies repos es) ≫= fun bad : option ConflictReason =>
      match bad with
      | Some reason => h ← getHeadSequence owner store; mret (PushConflict h reason None)
      | None =>
          try_catch
            (r ← appendBatch owner store expectedHead es; mret (PushOk (r_head r) (r_assigned r)))
            (fun err =>
              match err with
              | HeadMismatch cur exp =>
                  if (cur <? exp)%Z then mret (PushConflict cur server_behind None)
                  else
                    missing ← loadSince owner store expectedHead 1000;
                    mret (PushConflict cur server_ahead
                      (match missing with [] => None | _ => Some missing end))
              | _ => throw err
              end)
      end
  end.

Definition pullEvents (owner store : string) (since limit : Z) : srv (list EventRow * Z) :=
  _ ← ensureCanAccess owner;
  _ ← ensureStoreOwner store owner;
  es ← loadSince owner store since limit;
  h ← getHeadSequence owner store;
  mret (es, h).

(** [production]: [process.env.NODE_ENV === 'production']. *)
Definition resetStore (production : bool) (owner store : string) : srv unit :=
  if production then throw (AccessDenied "Reset sync store is disabled in production")
  else
    _ ← ensureCanAccess owner;
    _ ← ensureStoreOwner store owner;
    resetStore_repo owner store.

(** ** Controller *)

Record PullResponse : Type := Pulled {
  p_events : list EventRow;
  hasMore : bool;
  p_head : Z;
  nextSince : option Z
}.

Definition push (identity storeId : string) (expectedHead : Z) (es : list SyncIncomingEvent) : srv PushResult :=
  owner ← lift_result (SyncOwnerId_from identity);
  store ← lift_result (SyncStoreId_from storeId);
  expected ← lift_result (GlobalSequenceNumber_from expectedHead);
  pushEvents owner store expected es.

(** The long poll: [env] lists what other requests did to the database before
    each of the polls the deadline leaves room for. *)
Fixpoint poll (env : list (server -> server)) (owner store : string) (since limit : Z)
    (seen : list EventRow * Z) : srv (list EventRow * Z) :=
  match seen.1, env with
  | [], others :: env' =>
      _ ← modify others;
      next ← pullEvents owner store since limit;
      poll env' owner store since limit next
  | _, _ => mret seen
  end.

Definition pull_response (since limit : Z) (es : list EventRow) (h : Z) : PullResponse :=
  let lastSequence := global_seq <$> last es in
  Pulled es
    (negb (bool_decide (es = [])) && (Z.of_nat (length es) =? limit)%Z &&
     (default since lastSequence <? h)%Z)
    h lastSequence.

Definition pull (env : list (server -> server)) (identity storeId : string) (since limit : Z)
    : srv PullResponse :=
  owner ← lift_result (SyncOwnerId_from identity);
  store ← lift_result (SyncStoreId_from storeId);
  since ← lift_result (GlobalSequenceNumber_from since);
  first ← pullEvents owner store since limit;
  polled ← poll env owner store since limit first;
  mret (pull_response since limit polled.1 polled.2).

Definition reset (production : bool) (identity storeId : string) : srv unit :=
  owner ← lift_result (SyncOwnerId_from identity);
  store ← lift_result (SyncStoreId_from storeId);
  resetStore production owner store.

End Service.

(** ** The abstract specification: one append-only log per stream

    A stream's log is the list of its events; the event at position [n]
    (from 0) has global sequence [n + 1]. *)

Module SyncSpec.

Definition position (event_id : string) (log : list SyncIncomingEvent) : option nat :=
  fst <$> list_find (fun e => in_eventId e = event_id) log.

(** Append the events that are new; a known event keeps its sequence. *)
Fixpoint append (log es : list SyncIncomingEvent) : list SyncIncomingEvent * list Assignment :=
  match es with
  | [] => (log, [])
  | e :: es' =>
      match position (in_eventId e) log with
      | Some n =>
          let r := append log es' in
          (r.1, Assigned (in_eventId e) (Z.of_nat n + 1) :: r.2)
      | None =>
          let r := append (log ++ [e]) es' in
          (r.1, Assigned (in_eventId e) (Z.of_nat (length log) + 1) :: r.2)
      end
  end.

(** The rows of a stream whose log continues from sequence [k]. *)
Fixpoint rows_from (owner store : string) (k : Z) (log : list SyncIncomingEvent) : list EventRow :=
  match log with
  | [] => []
  | e :: log' => Row owner store (k + 1) e :: rows_from owner store (k + 1) log'
  end.
Definition rows_of (owner store : string) (log : list SyncIncomingEvent) : list EventRow :=
  rows_from owner store 0 log.

Definition page (owner store : string) (log : list SyncIncomingEvent) (since limit : Z) : list EventRow :=
  take (Z.to_nat limit) (drop (Z.to_nat since) (rows_of owner store log)).

(** What a push answers, and the log it leaves, when sharing checks pass. *)
Definition push_spec (owner store : string) (log : list SyncIncomingEvent) (expectedHead : Z)
    (es : list SyncIncomingEvent) : PushResult * list SyncIncomingEvent :=
  let h := Z.of_nat (length log) in
  match es with
  | [] => (PushOk h [], log)
  | _ =>
      if (expectedHead =? h)%Z then
        let r := append log es in (PushOk (Z.of_nat (length r.1)) r.2, r.1)
      else if (h <? expectedHead)%Z then (PushConflict h server_behind None, log)
      else (PushConflict h server_ahead
              (match page owner store log expectedHead 1000 with [] => None | m => Some m end), log)
  end.

End SyncSpec.

(** ** Refinement *)

Module SyncRefinement.
Import SyncSpec.

Definition stream (owner store : string) (s : server) : list EventRow :=
  filter (fun r => in_stream owner store r = true) (events s).
Definition log (owner store : string) (s : server) : list SyncIncomingEvent :=
  map row_event (stream owner store s).

(** Who owns a store. *)
Definition owned_by (store owner : string) (s : server) : Prop :=
  exists r, stores s !! store = Some r /\ owner_identity_id r = owner.

(** Each stream's rows are its log numbered from 1, without a repeated event
    id; only the owner of a store has rows in it and the store's head counts
    them. *)
Definition server_ok (s : server) : Prop := forall owner store,
  stream owner store s = rows_of owner store (log owner store s) /\
  NoDup (map in_eventId (log owner store s)) /\
  match stores s !! store with
  | Some r =>
      if decide (owner_identity_id r = owner)
      then head r = Z.of_nat (length (log owner store s)) else log owner store s = []
  | None => log owner store s = []
  end.

(** *** Rows *)

Lemma map_event_rows_from o st k l : map row_event (rows_from o st k l) = l.
Proof. revert k. induction l as [|e l IH]; intros k; simpl; [done|]. by rewrite IH. Qed.

Lemma length_rows_from o st k l : length (rows_from o st k l) = length l.
Proof. revert k. induction l as [|e l IH]; intros k; simpl; [done|]. by rewrite IH. Qed.

Lemma rows_from_app o st k l1 l2 :
  rows_from o st k (l1 ++ l2) = rows_from o st k l1 ++ rows_from o st (k + Z.of_nat (length l1)) l2.
Proof.
  revert k. induction l1 as [|e l1 IH]; intros k; simpl; [by rewrite Z.add_0_r|].
  rewrite IH. do 3 f_equal. lia.
Qed.

Lemma rows_from_seq o st k l r :
  r ∈ rows_from o st k l -> (k < global_seq r <= k + Z.of_nat (length l))%Z.
Proof.
  revert k. induction l as [|e l IH]; intros k; simpl; [by intros ?%not_elem_of_nil|].
  intros [->|Hr]%elem_of_cons; simpl; [lia|]. apply IH in Hr. lia.
Qed.

Lemma rows_from_since o st k l since :
  filter (fun r => (since <? global_seq r)%Z = true) (rows_from o st k l) =
  drop (Z.to_nat (since - k)) (rows_from o st k l).
Proof.
  revert k. induction l as [|e l IH]; intros k; simpl; [by rewrite drop_nil|].
  rewrite filter_cons. simpl. rewrite IH.
  destruct (Z.ltb_spec since (k + 1)) as [Hlt|Hge]; simpl.
  - replace (Z.to_nat (since - k)) with 0 by lia.
    replace (Z.to_nat (since - (k + 1))) with 0 by lia. done.
  - replace (Z.to_nat (since - k)) with (S (Z.to_nat (since - (k + 1)))) by lia. done.
Qed.

Lemma order_rows_from o st k l : order_by_seq (rows_from o st k l) = rows_from o st k l.
Proof.
  revert k. induction l as [|e l IH]; intros k; [done|]. simpl. rewrite IH.
  destruct l as [|e' l]; [done|]. simpl. by rewrite (proj2 (Z.leb_le _ _)) by lia.
Qed.

Lemma order_drop_rows o st k l n :
  order_by_seq (drop n (rows_from o st k l)) = drop n (rows_from o st k l).
Proof.
  revert k n. induction l as [|e l IH]; intros k n; simpl; [by rewrite drop_nil|].
  destruct n as [|n]; [exact (order_rows_from o st k (e :: l))|apply IH].
Qed.

Lemma find_rows_from o st k l event_id :
  List.find (fun r => bool_decide (row_eventId r = event_id)) (rows_from o st k l) =
  match list_find (fun e => in_eventId e = event_id) l with
  | Some (n, e) => Some (Row o st (k + Z.of_nat n + 1) e)
  | None => None
  end.
Proof.
  revert k. induction l as [|e l IH]; intros k; [done|]. simpl. unfold row_eventId at 1. simpl.
  destruct (decide (in_eventId e = event_id)) as [He|He].
  - rewrite bool_decide_true by done. repeat f_equal. lia.
  - rewrite bool_decide_false by done. rewrite IH.
    destruct (list_find _ l) as [[n e']|]; simpl; [|done]. do 2 f_equal. lia.
Qed.

Lemma filter_andb {A} (p q : A -> bool) (l : list A) :
  filter (fun x => p x && q x = true) l = filter (fun x => q x = true) (filter (fun x => p x = true) l).
Proof.
  induction l as [|x l IH]; [done|]. rewrite !filter_cons.
  destruct (p x); simpl; [|done]. rewrite filter_cons. by destruct (q x); simpl; rewrite IH.
Qed.

Lemma find_andb {A} (p q : A -> bool) (l : list A) :
  List.find (fun x => p x && q x) l = List.find q (filter (fun x => p x = true) l).
Proof.
  induction l as [|x l IH]; [done|]. rewrite filter_cons. simpl.
  destruct (p x); simpl; [|done]. by destruct (q x).
Qed.

Lemma existsb_andb {A} (p q : A -> bool) (l : list A) :
  existsb (fun x => p x && q x) l = existsb q (filter (fun x => p x = true) l).
Proof.
  induction l as [|x l IH]; [done|]. rewrite filter_cons. simpl.
  destruct (p x); simpl; [|done]. by rewrite IH.
Qed.

Lemma map_andb_rows (p q : EventRow -> bool) l (f : EventRow -> string * Z) k :
  assoc k (map f (filter (fun r => p r && q r = true) l)) =
  assoc k (map f (filter (fun r => q r = true) (filter (fun r => p r = true) l))).
Proof. by rewrite filter_andb. Qed.

(** *** Streams under updates *)

Lemma in_stream_ne o st o' st' r :
  in_stream o st r = true -> (o, st) <> (o', st') -> in_stream o' st' r = false.
Proof.
  unfold in_stream. rewrite andb_true_iff, !bool_decide_eq_true. intros [<- <-] Hne.
  apply andb_false_iff. rewrite !bool_decide_eq_false.
  destruct (decide (row_owner r = o')); [|by left]. right. congruence.
Qed.

Lemma stream_app_same o st s ss rows :
  (forall r, r ∈ rows -> in_stream o st r = true) ->
  stream o st (Server ss (events s ++ rows)) = stream o st s ++ rows.
Proof.
  intros H. unfold stream. simpl. rewrite filter_app. f_equal.
  induction rows as [|r rows IH]; [done|]. rewrite filter_cons_True by set_solver.
  rewrite IH by set_solver. done.
Qed.

Lemma stream_app_other o st o' st' s ss rows :
  (forall r, r ∈ rows -> in_stream o' st' r = true) -> (o, st) <> (o', st') ->
  stream o st (Server ss (events s ++ rows)) = stream o st s.
Proof.
  intros H Hne. unfold stream. simpl. rewrite filter_app.
  replace (filter _ rows) with (@nil EventRow); [by rewrite app_nil_r|].
  induction rows as [|r rows IH]; [done|]. rewrite filter_cons_False.
  - apply IH. set_solver.
  - rewrite (in_stream_ne o' st' o st); [done|set_solver|congruence].
Qed.

Lemma rows_from_in_stream o st k l r : r ∈ rows_from o st k l -> in_stream o st r = true.
Proof.
  revert k. induction l as [|e l IH]; intros k; simpl; [by intros ?%not_elem_of_nil|].
  intros [->|Hr]%elem_of_cons; [|by eapply IH]. unfold in_stream. simpl.
  by rewrite !bool_decide_true.
Qed.

(** *** Appending *)

Lemma position_app id l1 l2 n : position id l1 = Some n -> position id (l1 ++ l2) = Some n.
Proof.
  unfold position. destruct (list_find _ l1) as [[n' e]|] eqn:E; [|done]. simpl. intros [= <-].
  by rewrite (list_find_app_l _ _ _ _ _ E).
Qed.

Lemma position_none id l : position id l = None <-> id ∉ map in_eventId l.
Proof.
  unfold position. split.
  - intros H Hin. apply list_elem_of_fmap in Hin as (e & -> & He).
    destruct (list_find (fun e' => in_eventId e' = in_eventId e) l) as [[n e']|] eqn:E; [done|].
    apply list_find_None in E. by apply (proj1 (Forall_forall _ _) E e He).
  - intros H. destruct (list_find _ l) as [[n e]|] eqn:E; [|done].
    apply list_find_Some in E as (He & <- & _). destruct H.
    exact (list_elem_of_fmap_2 in_eventId _ _ (list_elem_of_lookup_2 _ _ _ He)).
Qed.

Lemma find_row_position o st id s L :
  stream o st s = rows_of o st L ->
  match position id L with
  | Some n => exists e, find_row o st id s = Some (Row o st (Z.of_nat n + 1) e) /\ in_eventId e = id
  | None => find_row o st id s = None
  end.
Proof.
  intros Hs. unfold find_row. rewrite find_andb. fold (stream o st s). rewrite Hs.
  unfold rows_of. rewrite find_rows_from. unfold position.
  destruct (list_find _ L) as [[n e]|] eqn:E; simpl; [|done].
  exists e. split; [done|]. by apply list_find_Some in E as (_ & ? & _).
Qed.

Lemma no_clash o st s L :
  stream o st s = rows_of o st L ->
  existsb (fun r => in_stream o st r && (global_seq r =? Z.of_nat (length L) + 1)%Z) (events s) = false.
Proof.
  intros Hs. rewrite existsb_andb. fold (stream o st s). rewrite Hs.
  apply not_true_iff_false. intros (r & Hr & Heq)%existsb_exists.
  apply list_elem_of_In, rows_from_seq in Hr. lia.
Qed.

Lemma seq_from_ok z : (0 <= z)%Z -> GlobalSequenceNumber_from z = Ok z.
Proof. intros. unfold GlobalSequenceNumber_from. by rewrite (proj2 (Z.ltb_ge _ _)). Qed.

Lemma append_loop_spec o st existing es assigned s L :
  stream o st s = rows_of o st L ->
  (forall id known, assoc id existing = Some known ->
     exists n, position id L = Some n /\ known = (Z.of_nat n + 1)%Z) ->
  exists s', append_loop o st existing es (Z.of_nat (length L)) assigned s =
      (Ok (Z.of_nat (length (append L es).1), assigned ++ (append L es).2), s') /\
    stores s' = stores s /\ stream o st s' = rows_of o st (append L es).1 /\
    (forall o' st', (o', st') <> (o, st) -> stream o' st' s' = stream o' st' s).
Proof.
  revert assigned s L. induction es as [|e es IH]; intros assigned s L Hs Hex.
  { exists s. simpl. by rewrite app_nil_r. }
  simpl append_loop. unfold insert_event, gets, lift_result, modify, mbind, js_bind.
  pose proof (find_row_position o st (in_eventId e) s L Hs) as Hfind. simpl append.
  destruct (assoc (in_eventId e) existing) as [known|] eqn:Ha.
  - destruct (Hex _ _ Ha) as (n & Hn & ->). rewrite Hn. rewrite seq_from_ok by lia. simpl.
    destruct (IH (assigned ++ [Assigned (in_eventId e) (Z.of_nat n + 1)]) s L Hs Hex)
      as (s' & Hrun & Hrest).
    exists s'. split; [|exact Hrest]. rewrite Hrun. by rewrite <- app_assoc.
  - destruct (position (in_eventId e) L) as [n|] eqn:Hn.
    + destruct Hfind as (e' & Hfind & He'). rewrite Hfind. simpl. rewrite Hfind.
      rewrite seq_from_ok by (simpl; lia). unfold row_eventId. simpl. rewrite He'.
      destruct (IH (assigned ++ [Assigned (in_eventId e) (Z.of_nat n + 1)]) s L Hs Hex)
        as (s' & Hrun & Hrest).
      exists s'. split; [|exact Hrest]. rewrite Hrun. by rewrite <- app_assoc.
    + rewrite Hfind, (no_clash o st s L Hs). simpl.
      rewrite seq_from_ok by lia. unfold row_eventId. simpl.
      set (row := Row o st (Z.of_nat (length L) + 1) e).
      assert (forall r, r ∈ [row] -> in_stream o st r = true) as Hin.
      { intros r ->%list_elem_of_singleton. unfold in_stream. by rewrite !bool_decide_true. }
      destruct (IH (assigned ++ [Assigned (in_eventId e) (Z.of_nat (length L) + 1)])
        (Server (stores s) (events s ++ [row])) (L ++ [e])) as (s' & Hrun & Hst & Hstr & Hoth).
      { rewrite stream_app_same, Hs by done. unfold rows_of. rewrite rows_from_app. done. }
      { intros id known Hk. destruct (Hex id known Hk) as (n & Hp & ->).
        exists n. split; [by apply position_app|done]. }
      exists s'. rewrite length_app in Hrun. simpl in Hrun.
      replace (Z.of_nat (length L + 1)) with (Z.of_nat (length L) + 1)%Z in Hrun by lia.
      rewrite Hrun. split; [by rewrite <- app_assoc|]. split; [done|]. split; [done|].
      intros o' st' Hne. rewrite Hoth by done. by eapply stream_app_other.
Qed.

Lemma position_cons id e l :
  position id (e :: l) = if decide (in_eventId e = id) then Some 0 else S <$> position id l.
Proof.
  unfold position. simpl. destruct (decide (in_eventId e = id)); [done|].
  by destruct (list_find _ l) as [[??]|].
Qed.

Lemma existing_rows o st (ids : list string) k L id known :
  NoDup (map in_eventId L) ->
  assoc id (map (fun r => (row_eventId r, global_seq r))
    (filter (fun r => bool_decide (row_eventId r ∈ ids) = true) (rows_from o st k L))) = Some known ->
  exists n, position id L = Some n /\ known = (k + Z.of_nat n + 1)%Z.
Proof.
  revert k known. induction L as [|e L IH]; intros k known Hnd; [done|].
  simpl rows_from. rewrite filter_cons.
  simpl in Hnd. apply NoDup_cons in Hnd as [Hout Hnd]. rewrite position_cons.
  assert (forall m, assoc id (map (fun r => (row_eventId r, global_seq r))
      (filter (fun r => bool_decide (row_eventId r ∈ ids) = true) (rows_from o st (k + 1) L))) = Some m ->
    exists n, (if decide (in_eventId e = id) then Some 0 else S <$> position id L) = Some n /\
      m = (k + Z.of_nat n + 1)%Z) as Htail.
  { intros m Hm. destruct (IH (k + 1)%Z m Hnd Hm) as (n & Hn & ->). exists (S n).
    rewrite decide_False; [rewrite Hn; split; [done|lia]|]. intros <-.
    apply Hout. destruct (decide (in_eventId e ∈ map in_eventId L)) as [Hi|Hi]; [done|].
    apply position_none in Hi. congruence. }
  destruct (decide (bool_decide _ = true)) as [Hk|Hk]; [|by apply Htail]. simpl.
  destruct (decide (id = _)) as [Hid|Hid]; [|by apply Htail].
  intros [= <-]. exists 0. unfold row_eventId in Hid. simpl in Hid. rewrite decide_True by done.
  split; [done|lia].
Qed.

Lemma existing_spec o st s L (ids : list string) id known :
  stream o st s = rows_of o st L -> NoDup (map in_eventId L) ->
  assoc id (map (fun r => (row_eventId r, global_seq r))
    (filter (fun r => in_stream o st r && bool_decide (row_eventId r ∈ ids) = true) (events s)))
    = Some known ->
  exists n, position id L = Some n /\ known = (Z.of_nat n + 1)%Z.
Proof.
  intros Hs Hnd. rewrite filter_andb. fold (stream o st s). rewrite Hs.
  by apply (existing_rows o st ids 0).
Qed.

Lemma append_NoDup L es :
  NoDup (map in_eventId L) -> NoDup (map in_eventId (append L es).1).
Proof.
  revert L. induction es as [|e es IH]; intros L Hnd; [done|]. simpl.
  destruct (position (in_eventId e) L) as [n|] eqn:E; simpl; [by apply IH|].
  apply IH. rewrite map_app. apply NoDup_app. split; [done|]. split; [|apply NoDup_singleton].
  intros x Hx ->%list_elem_of_singleton. by apply position_none in E.
Qed.

(** *** Reads *)

Lemma loadSince_spec o st since limit s :
  server_ok s ->
  loadSince o st since limit s = (Ok (page o st (log o st s) since limit), s).
Proof.
  intros Hok. destruct (Hok o st) as (Hs & _). unfold loadSince, gets. do 2 f_equal.
  unfold page. f_equal. rewrite filter_andb. fold (stream o st s). rewrite Hs at 1.
  unfold rows_of at 1. rewrite rows_from_since, Z.sub_0_r. apply order_drop_rows.
Qed.

Lemma head_spec o st s :
  server_ok s -> getHeadSequence o st s = (Ok (Z.of_nat (length (log o st s))), s).
Proof.
  intros Hok. destruct (Hok o st) as (_ & _ & Hh). unfold getHeadSequence, reads.
  destruct (stores s !! st) as [r|]; [|by rewrite Hh].
  destruct (decide _); [|by rewrite Hh]. rewrite Hh. by rewrite seq_from_ok by lia.
Qed.

(** *** [ensureStoreOwner] *)

(** [owner] may use [store]: nobody owns it, or [owner] does. *)
Definition may_use (owner store : string) (s : server) : bool :=
  match stores s !! store with
  | Some r => bool_decide (owner_identity_id r = owner)
  | None => true
  end.

Definition ensured (owner store : string) (s : server) : server :=
  match stores s !! store with
  | Some _ => s
  | None => Server (<[store := Store owner 0]> (stores s)) (events s)
  end.

Lemma ensure_spec o st s :
  ensureStoreOwner st o s =
    if may_use o st s then (Ok tt, ensured o st s)
    else (Err (AccessDenied "Store is owned by a different identity"), s).
Proof.
  unfold ensureStoreOwner, transaction, modify, gets, mbind, js_bind, may_use, ensured.
  destruct (stores s !! st) as [r|] eqn:E; simpl.
  - rewrite E. destruct (decide (owner_identity_id r = o)) as [H|H]; simpl.
    + by rewrite bool_decide_true.
    + by rewrite bool_decide_false.
  - rewrite lookup_insert, decide_True by done. simpl. by rewrite decide_True.
Qed.

Lemma ensured_log o st o' st' s : log o' st' (ensured o st s) = log o' st' s.
Proof. unfold ensured. by destruct (stores s !! st). Qed.

Lemma ensured_ok o st s : server_ok s -> server_ok (ensured o st s).
Proof.
  intros Hok o' st'. destruct (Hok o' st') as (Hs & Hnd & Hh).
  unfold ensured. destruct (stores s !! st) as [r|] eqn:E; [done|].
  split; [exact Hs|]. split; [exact Hnd|].
  change (log o' st' (Server _ (events s))) with (log o' st' s). simpl.
  destruct (decide (st = st')) as [<-|Hne].
  - rewrite lookup_insert, decide_True by done. rewrite E in Hh. simpl.
    case_decide; [by rewrite Hh|done].
  - by rewrite lookup_insert_ne.
Qed.

Lemma ensured_owner o st s : may_use o st s = true ->
  exists r, stores (ensured o st s) !! st = Some r /\ owner_identity_id r = o.
Proof.
  unfold may_use, ensured. destruct (stores s !! st) as [r|] eqn:E.
  - intros H%bool_decide_eq_true. by exists r.
  - intros _. exists (Store o 0). simpl. by rewrite lookup_insert, decide_True.
Qed.

(** *** [appendBatch] *)

(** The other streams and stores are as before. *)
Definition others_same (o st : string) (s s' : server) : Prop :=
  (forall o' st', (o', st') <> (o, st) -> log o' st' s' = log o' st' s) /\
  (forall st', st' <> st -> stores s' !! st' = stores s !! st').

Lemma others_same_refl o st s : others_same o st s s.
Proof. done. Qed.

Lemma others_same_ensured o st s s' :
  others_same o st (ensured o st s) s' -> others_same o st s s'.
Proof.
  intros [Hl Hs]. split.
  - intros o' st' Hne. rewrite Hl by done. apply ensured_log.
  - intros st' Hne. rewrite Hs by done. unfold ensured. destruct (stores s !! st); [done|].
    simpl. by rewrite lookup_insert_ne.
Qed.

(** A stream replaced by the rows of a new log, its head set. *)
Lemma server_ok_replaced o st s s' L' r :
  server_ok s -> stores s !! st = Some r -> owner_identity_id r = o ->
  stream o st s' = rows_of o st L' -> NoDup (map in_eventId L') ->
  (forall o' st', (o', st') <> (o, st) -> stream o' st' s' = stream o' st' s) ->
  stores s' = alter (fun r => Store (owner_identity_id r) (Z.of_nat (length L'))) st (stores s) ->
  server_ok s' /\ log o st s' = L' /\ others_same o st s s'.
Proof.
  intros Hok Hr Ho Hstr Hnd Hoth Hst.
  assert (log o st s' = L') as Hlog by (unfold log; rewrite Hstr; apply map_event_rows_from).
  split; [|split; [done|split]].
  - intros o' st'. destruct (decide ((o', st') = (o, st))) as [[= -> ->]|Hne].
    + rewrite Hlog. split; [done|]. split; [done|].
      rewrite Hst, lookup_alter_eq, Hr. simpl. by rewrite decide_True.
    + destruct (Hok o' st') as (Hs' & Hnd' & Hh'). unfold log in *. rewrite !Hoth by done.
      split; [done|]. split; [done|]. rewrite Hst. destruct (decide (st' = st)) as [->|Hst'].
      * rewrite lookup_alter_eq. rewrite Hr in *. simpl. rewrite decide_False by congruence.
        by rewrite decide_False in Hh' by congruence.
      * by rewrite lookup_alter_ne.
  - intros o' st' Hne. unfold log. by rewrite Hoth.
  - intros st' Hne. rewrite Hst. by apply lookup_alter_ne.
Qed.

Lemma appendBatch_spec o st expected es s r :
  server_ok s -> stores s !! st = Some r -> owner_identity_id r = o -> es <> [] ->
  let L := log o st s in
  if (expected =? Z.of_nat (length L))%Z then
    exists s', appendBatch o st expected es s =
        (Ok (Appended (Z.of_nat (length (append L es).1)) (append L es).2), s') /\
      server_ok s' /\ log o st s' = (append L es).1 /\ others_same o st s s' /\ owned_by st o s'
  else appendBatch o st expected es s = (Err (HeadMismatch (Z.of_nat (length L)) expected), s).
Proof.
  intros Hok Hr Ho Hes L. destruct (Hok o st) as (Hstr & Hnd & Hh). rewrite Hr, decide_True in Hh by done.
  fold L in Hstr, Hnd, Hh. destruct es as [|e es]; [done|].
  unfold appendBatch, transaction, gets, mbind, js_bind. rewrite Hr, decide_True by done.
  rewrite Hh, (Z.eqb_sym (Z.of_nat _) expected). destruct (Z.eqb_spec expected (Z.of_nat (length L))) as [->|Hne]; simpl negb.
  2:{ unfold lift_result, throw. by rewrite seq_from_ok by lia. }
  cbv beta iota delta [negb].
  match goal with |- context [append_loop _ _ ?x] => set (existing := x) end.
  destruct (append_loop_spec o st existing (e :: es) [] s L Hstr) as (s1 & Hrun & Hst1 & Hstr1 & Hoth1).
  { intros id known. apply existing_spec; done. }
  rewrite Hrun. unfold modify, lift_result. cbn [fst snd]. rewrite seq_from_ok by lia.
  destruct (server_ok_replaced o st s (set_head st (Z.of_nat (length (append L (e :: es)).1)) s1)
    (append L (e :: es)).1 r) as (Hok' & Hlog' & Hoth'); try done.
  - by apply append_NoDup.
  - simpl. by rewrite Hst1.
  - eexists. split; [reflexivity|]. split; [done|]. split; [done|]. split; [done|].
    unfold owned_by. simpl. rewrite Hst1, lookup_alter_eq, Hr. by eexists.
Qed.

(** *** [resetStore] *)

Lemma reset_repo_spec o st s r :
  server_ok s -> stores s !! st = Some r -> owner_identity_id r = o ->
  exists s', resetStore_repo o st s = (Ok tt, s') /\
    server_ok s' /\ log o st s' = [] /\ others_same o st s s' /\ owned_by st o s'.
Proof.
  intros Hok Hr Ho. unfold resetStore_repo, transaction, modify, mbind, js_bind. simpl.
  rewrite Hr, decide_True by done. eexists. split; [reflexivity|].
  set (rest := filter (fun r => negb (in_stream o st r) = true) (events s)).
  assert (forall o' st', filter (fun r => in_stream o' st' r = true) rest =
    if decide ((o', st') = (o, st)) then [] else stream o' st' s) as Hrest.
  { intros o' st'. unfold rest, stream. rewrite <- filter_andb.
    induction (events s) as [|x l IH]; [by case_decide|]. rewrite !filter_cons, IH.
    destruct (in_stream o st x) eqn:Hx; simpl.
    - case_decide as Hc; [done|]. rewrite (in_stream_ne o st o' st' x Hx) by congruence. done.
    - destruct (decide ((o', st') = (o, st))) as [[= -> ->]|Hc]; [by rewrite Hx|].
      by destruct (in_stream o' st' x). }
  destruct (server_ok_replaced o st s (set_head st 0 (Server (stores s) rest)) [] r)
    as (Hok' & Hlog' & Hoth'); try done.
  - unfold stream. simpl. rewrite Hrest. by rewrite decide_True.
  - constructor.
  - intros o' st' Hne. unfold stream at 1. simpl. rewrite Hrest. by rewrite decide_False.
  - split; [done|]. split; [done|]. split; [done|].
    unfold owned_by. simpl. rewrite lookup_alter_eq, Hr. by eexists.
Qed.

(** *** The service and the controller *)

Definition valid_id (cls s : string) : Prop := non_blank cls s = Ok s.

Lemma non_blank_ok cls s t : non_blank cls s = Ok t -> t = s /\ (strlen s =? 0)%Z = false.
Proof. unfold non_blank. destruct (strlen s =? 0)%Z; simpl; [done|]. case_match; naive_solver. Qed.

(** What [pushEvents] does for a valid owner and store. *)
Definition push_outcome (repos : option SharingRepos) (o st : string) (expected : Z)
    (es : list SyncIncomingEvent) (s : server)
    : result server_error PushResult * list SyncIncomingEvent :=
  let L := log o st s in
  match validateSharingDependencies repos es with
  | Err e => (Err e, L)
  | Ok (Some why) => (Ok (PushConflict (Z.of_nat (length L)) why None), L)
  | Ok None => let r := push_spec o st L expected es in (Ok r.1, r.2)
  end.

Lemma pushEvents_spec repos o st expected es s :
  server_ok s -> (strlen o =? 0)%Z = false ->
  if may_use o st s
  then exists s', pushEvents repos o st expected es s = ((push_outcome repos o st expected es s).1, s') /\
    server_ok s' /\ log o st s' = (push_outcome repos o st expected es s).2 /\
    others_same o st s s' /\ owned_by st o s'
  else pushEvents repos o st expected es s =
    (Err (AccessDenied "Store is owned by a different identity"), s).
Proof.
  intros Hok Ho. unfold pushEvents, ensureCanAccess, lift_result, mbind, js_bind. rewrite Ho, ensure_spec.
  destruct (may_use o st s) eqn:Hm; [|done]. cbv beta iota.
  destruct (ensured_owner o st s Hm) as (r & Hr & Hro).
  set (s1 := ensured o st s) in *. assert (server_ok s1) as Hok1 by (by apply ensured_ok).
  assert (log o st s1 = log o st s) as Hlog by apply ensured_log.
  assert (forall s', others_same o st s1 s' -> others_same o st s s') as Hlift by apply others_same_ensured.
  assert (owned_by st o s1) as Hown by (by exists r).
  unfold push_outcome, push_spec. rewrite <- Hlog. destruct es as [|e es].
  { rewrite head_spec by done. exists s1.
    assert (validateSharingDependencies repos [] = Ok None) as -> by (by destruct repos). simpl.
    split_and!; try done; by apply Hlift. }
  destruct (validateSharingDependencies repos (e :: es)) as [[why|]|err].
  - rewrite head_spec by done. exists s1. split_and!; try done; by apply Hlift.
  - unfold try_catch. pose proof (appendBatch_spec o st expected (e :: es) s1 r Hok1 Hr Hro ltac:(done)) as Happ.
    cbv zeta in Happ. destruct (expected =? Z.of_nat (length (log o st s1)))%Z eqn:Heq.
    + destruct Happ as (s2 & -> & Hok2 & Hlog2 & Hoth2 & Hown2). exists s2.
      split; [done|]. split; [done|]. split; [done|]. split; [by apply Hlift|done].
    + rewrite Happ. destruct (Z.of_nat (length (log o st s1)) <? expected)%Z.
      * exists s1. split_and!; try done; by apply Hlift.
      * rewrite loadSince_spec by done. exists s1. split; [by destruct (page _ _ _ _ _)|].
        split_and!; try done; by apply Hlift.
  - exists s1. split_and!; try done; by apply Hlift.
Qed.

Lemma pullEvents_spec o st since limit s :
  server_ok s -> (strlen o =? 0)%Z = false ->
  pullEvents o st since limit s =
    if may_use o st s
    then (Ok (page o st (log o st s) since limit, Z.of_nat (length (log o st s))), ensured o st s)
    else (Err (AccessDenied "Store is owned by a different identity"), s).
Proof.
  intros Hok Ho. unfold pullEvents, ensureCanAccess, lift_result, mbind, js_bind. rewrite Ho, ensure_spec.
  destruct (may_use o st s) eqn:Hm; [|done]. cbv beta iota.
  assert (server_ok (ensured o st s)) as Hok1 by (by apply ensured_ok).
  rewrite loadSince_spec, head_spec by done. by rewrite ensured_log.
Qed.

Lemma resetStore_spec o st s :
  server_ok s -> (strlen o =? 0)%Z = false ->
  if may_use o st s
  then exists s', resetStore false o st s = (Ok tt, s') /\
    server_ok s' /\ log o st s' = [] /\ others_same o st s s' /\ owned_by st o s'
  else resetStore false o st s = (Err (AccessDenied "Store is owned by a different identity"), s).
Proof.
  intros Hok Ho. unfold resetStore, ensureCanAccess, lift_result, mbind, js_bind. rewrite Ho, ensure_spec.
  destruct (may_use o st s) eqn:Hm; [|done]. cbv beta iota.
  destruct (ensured_owner o st s Hm) as (r & Hr & Hro).
  destruct (reset_repo_spec o st (ensured o st s) r) as (s' & -> & ? & ? & ? & ?);
    [by apply ensured_ok|done|done|].
  exists s'. split; [done|]. split; [done|]. split; [done|]. split; [by apply others_same_ensured|done].
Qed.

(** *** Requests *)

Inductive request : Type :=
| ReqPush (identity store : string) (expectedHead : Z) (es : list SyncIncomingEvent)
| ReqPull (identity store : string) (since limit : Z)
| ReqReset (production : bool) (identity store : string).

(** The database after a request, whether it was answered or failed. *)
Definition serve (repos : option SharingRepos) (s : server) (r : request) : server :=
  match r with
  | ReqPush i st expected es => snd (push repos i st expected es s)
  | ReqPull i st since limit => snd (pull [] i st since limit s)
  | ReqReset production i st => snd (reset production i st s)
  end.

(** A push that gets past the controller's own validation. *)
Lemma push_cases repos i st expected es s :
  snd (push repos i st expected es s) = s \/
  ((strlen i =? 0)%Z = false /\ push repos i st expected es s = pushEvents repos i st expected es s).
Proof.
  unfold push, lift_result, mbind, js_bind, SyncOwnerId_from, SyncStoreId_from.
  destruct (non_blank "SyncOwnerId" i) as [o|] eqn:Ho; [|by left].
  destruct (non_blank "SyncStoreId" st) as [st'|] eqn:Hst; [|by left].
  destruct (GlobalSequenceNumber_from expected) as [x|] eqn:Hx; [|by left].
  apply non_blank_ok in Ho as [-> Ho], Hst as [-> _]. right. split; [done|].
  unfold GlobalSequenceNumber_from in Hx. case_match; naive_solver.
Qed.

Lemma pull_cases i st since limit s :
  snd (pull [] i st since limit s) = s \/
  ((strlen i =? 0)%Z = false /\ pull [] i st since limit s =
    match pullEvents i st since limit s with
    | (Ok (es, h), s') => (Ok (pull_response since limit es h), s')
    | (Err e, s') => (Err e, s')
    end).
Proof.
  unfold pull, lift_result, mbind, js_bind, SyncOwnerId_from, SyncStoreId_from.
  destruct (non_blank "SyncOwnerId" i) as [o|] eqn:Ho; [|by left].
  destruct (non_blank "SyncStoreId" st) as [st'|] eqn:Hst; [|by left].
  destruct (GlobalSequenceNumber_from since) as [x|] eqn:Hx; [|by left].
  apply non_blank_ok in Ho as [-> Ho], Hst as [-> _]. right. split; [done|].
  assert (x = since) as -> by (unfold GlobalSequenceNumber_from in Hx; case_match; naive_solver).
  destruct (pullEvents i st since limit s) as [[[es h]|e] s']; [|done]. by destruct es.
Qed.

Lemma reset_cases production i st s :
  snd (reset production i st s) = s \/
  ((strlen i =? 0)%Z = false /\ production = false /\ reset production i st s = resetStore false i st s).
Proof.
  unfold reset, lift_result, mbind, js_bind, SyncOwnerId_from, SyncStoreId_from.
  destruct (non_blank "SyncOwnerId" i) as [o|] eqn:Ho; [|by left].
  destruct (non_blank "SyncStoreId" st) as [st'|] eqn:Hst; [|by left].
  apply non_blank_ok in Ho as [-> Ho], Hst as [-> _]. destruct production; [by left|by right].
Qed.

Lemma append_prefix L es : L `prefix_of` (append L es).1.
Proof.
  revert L. induction es as [|e es IH]; intros L; [done|]. simpl.
  destruct (position _ _); simpl; [apply IH|]. etrans; [|apply IH]. by exists [e].
Qed.

Lemma push_outcome_prefix repos o st expected es s :
  log o st s `prefix_of` (push_outcome repos o st expected es s).2.
Proof.
  unfold push_outcome, push_spec.
  destruct (validateSharingDependencies repos es) as [[why|]|err]; simpl; [done| |done].
  destruct es as [|e es]; [done|]. destruct (expected =? _)%Z; [apply append_prefix|].
  by destruct (_ <? expected)%Z.
Qed.

(** One request keeps the invariant and only ever extends logs, resets apart. *)
Lemma serve_spec repos s r :
  server_ok s ->
  server_ok (serve repos s r) /\
  forall o st, log o st s `prefix_of` log o st (serve repos s r) \/
    (r = ReqReset false o st /\ log o st (serve repos s r) = []).
Proof.
  assert (forall o st s', others_same o st s s' -> forall o' st', (o', st') <> (o, st) ->
    log o' st' s `prefix_of` log o' st' s') as Hsame by (intros o st s' [H _] ???; by rewrite H).
  intros Hok. destruct r as [i st expected es|i st since limit|production i st]; simpl.
  - destruct (push_cases repos i st expected es s) as [->|[Hi ->]]; [by split; [done|left]|].
    pose proof (pushEvents_spec repos i st expected es s Hok Hi) as Hp.
    destruct (may_use i st s); [|rewrite Hp; by split; [done|left]].
    destruct Hp as (s' & -> & Hok' & Hlog & Hoth & _). split; [done|]. intros o' st'. left.
    destruct (decide ((o', st') = (i, st))) as [[= -> ->]|Hne]; [|by eapply Hsame].
    simpl. rewrite Hlog. apply push_outcome_prefix.
  - destruct (pull_cases i st since limit s) as [->|[Hi ->]]; [by split; [done|left]|].
    rewrite pullEvents_spec by done. destruct (may_use i st s); simpl; [|by split; [done|left]].
    split; [by apply ensured_ok|]. intros o' st'. left. by rewrite ensured_log.
  - destruct (reset_cases production i st s) as [->|(Hi & -> & ->)]; [by split; [done|left]|].
    pose proof (resetStore_spec i st s Hok Hi) as Hp.
    destruct (may_use i st s); [|rewrite Hp; by split; [done|left]].
    destruct Hp as (s' & -> & Hok' & Hlog & Hoth & _). split; [done|]. intros o' st'.
    destruct (decide ((o', st') = (i, st))) as [[= -> ->]|Hne]; [by right|left; by eapply Hsame].
Qed.

Lemma empty_ok : server_ok empty_server.
Proof.
  intros o st. split; [done|]. split; [constructor|].
  change (stores empty_server) with (∅ : gmap string StoreRow). by rewrite lookup_empty.
Qed.

End SyncRefinement.

(** ** Paging *)

Module SyncPaging.
Import SyncSpec SyncRefinement.

(** A client that follows [nextSince] while [hasMore] holds; [None] when the
    fuel runs out. *)
Fixpoint pull_all (fuel : nat) (identity store : string) (since limit : Z) : srv (option (list EventRow)) :=
  match fuel with
  | O => mret None
  | S n =>
      pull [] identity store since limit ≫= fun r : PullResponse =>
      match hasMore r, nextSince r with
      | true, Some k =>
          pull_all n identity store k limit ≫= fun rest : option (list EventRow) =>
          mret ((fun l => p_events r ++ l) <$> rest)
      | _, _ => mret (Some (p_events r))
      end
  end.

Lemma rows_from_lookup o st k l i r :
  rows_from o st k l !! i = Some r -> global_seq r = (k + Z.of_nat i + 1)%Z.
Proof.
  revert k i. induction l as [|e l IH]; intros k i; simpl; [by rewrite lookup_nil|].
  destruct i as [|i]; simpl; [intros [= <-]; simpl; lia|]. intros H. apply IH in H. lia.
Qed.

Lemma page_length o st L since limit :
  (0 <= since)%Z -> (0 <= limit)%Z ->
  Z.of_nat (length (page o st L since limit)) =
    Z.min limit (Z.max 0 (Z.of_nat (length L) - since)).
Proof.
  intros. unfold page, rows_of. rewrite length_take, length_drop, length_rows_from. lia.
Qed.

Lemma page_last o st L since limit r :
  (0 <= since)%Z -> last (page o st L since limit) = Some r ->
  global_seq r = (since + Z.of_nat (length (page o st L since limit)))%Z.
Proof.
  intros Hs Hl. set (n := length (page o st L since limit)).
  rewrite last_lookup in Hl. fold n in Hl. unfold page in Hl.
  assert (n <> 0) as Hn.
  { intros H0. destruct (page o st L since limit) eqn:E; [|done]. unfold page in E. by rewrite E in Hl. }
  apply lookup_take_Some in Hl as [Hl _]. rewrite lookup_drop in Hl.
  apply rows_from_lookup in Hl. lia.
Qed.

Lemma pull_run o st since limit s :
  valid_id "SyncOwnerId" o -> valid_id "SyncStoreId" st -> (0 <= since)%Z ->
  server_ok s -> may_use o st s = true ->
  pull [] o st since limit s =
    (Ok (pull_response since limit (page o st (log o st s) since limit)
           (Z.of_nat (length (log o st s)))), ensured o st s).
Proof.
  intros Ho Hst Hs Hok Hm. pose proof (non_blank_ok _ _ _ Ho) as [_ Hlen].
  unfold pull, lift_result, mbind, js_bind, SyncOwnerId_from, SyncStoreId_from.
  rewrite Ho, Hst, seq_from_ok by done. rewrite pullEvents_spec, Hm by done.
  by destruct (page _ _ _ _ _).
Qed.

Lemma ensured_may_use o st s : may_use o st s = true -> may_use o st (ensured o st s) = true.
Proof.
  intros Hm. destruct (ensured_owner o st s Hm) as (r & Hr & Ho). unfold may_use. rewrite Hr.
  by apply bool_decide_eq_true.
Qed.

Lemma ensured_idemp o st s : ensured o st (ensured o st s) = ensured o st s.
Proof.
  unfold ensured at 2 3. destruct (stores s !! st) eqn:E; unfold ensured; [by rewrite E|].
  simpl. by rewrite lookup_insert, decide_True.
Qed.

(** What [hasMore] and [nextSince] say of a page. *)
Lemma pull_response_spec o st L since limit :
  (0 <= since)%Z -> (1 <= limit)%Z ->
  let p := page o st L since limit in
  let r := pull_response since limit p (Z.of_nat (length L)) in
  if (since + limit <? Z.of_nat (length L))%Z
  then hasMore r = true /\ nextSince r = Some (since + limit)%Z
  else hasMore r = false /\ p = drop (Z.to_nat since) (rows_of o st L).
Proof.
  intros Hs Hl p r. pose proof (page_length o st L since limit Hs ltac:(lia)) as Hlen. fold p in Hlen.
  assert (last p = None -> p = []) as Hnone by (intros H; by apply last_None in H).
  destruct (Z.ltb_spec (since + limit) (Z.of_nat (length L))) as [Hmore|Hdone].
  - destruct (last p) as [x|] eqn:Hlast.
    + pose proof (page_last o st L since limit x Hs Hlast) as Hx. fold p in Hx.
      subst r. unfold pull_response. simpl. rewrite Hlast. simpl.
      split; [|f_equal; lia]. rewrite !andb_true_iff. split; [split|]; [|lia|lia].
      destruct p; [simpl in *; lia|done].
    + rewrite (Hnone eq_refl) in Hlen. simpl in Hlen. lia.
  - split.
    + subst r. unfold pull_response. simpl. apply not_true_iff_false.
      rewrite !andb_true_iff. intros [[Hne Heq] Hlt].
      destruct (last p) as [x|] eqn:Hlast; simpl in *.
      * pose proof (page_last o st L since limit x Hs Hlast) as Hx. fold p in Hx. lia.
      * by rewrite (Hnone eq_refl) in Hne.
    + unfold p, page. rewrite take_ge; [done|]. unfold rows_of.
      rewrite length_drop, length_rows_from. lia.
Qed.

End SyncPaging.

Module SyncServerProperties.
Import SyncSpec SyncRefinement SyncPaging.

(** Appending a batch again changes nothing and assigns the same sequences. *)
Lemma append_idem (L es : list SyncIncomingEvent) :
  append (append L es).1 es = append L es.
Proof.
  assert (forall L e es n, position (in_eventId e) L = Some n ->
    position (in_eventId e) (append L es).1 = Some n) as Hkeep.
  { intros L0 e es0 n Hn. destruct (append_prefix L0 es0) as [k ->]. by apply position_app. }
  assert (forall es L', (forall e, e ∈ es -> exists n, position (in_eventId e) L' = Some n) ->
    append L' es = (L', map (fun e => Assigned (in_eventId e)
      (Z.of_nat (default 0 (position (in_eventId e) L')) + 1)) es)) as Hknown.
  { clear. induction es as [|e es IH]; intros L' H; [done|]. simpl.
    destruct (H e) as [n ->]; [set_solver|]. rewrite IH by set_solver. done. }
  assert (forall es L, (forall e, e ∈ es -> exists n, position (in_eventId e) (append L es).1 = Some n) /\
    (append L es).2 = map (fun e => Assigned (in_eventId e)
      (Z.of_nat (default 0 (position (in_eventId e) (append L es).1)) + 1)) es) as Hall.
  { clear -Hkeep. induction es as [|e es IH]; intros L; [split; [set_solver|done]|]. simpl.
    destruct (position (in_eventId e) L) as [n|] eqn:E; simpl.
    - destruct (IH L) as [H1 H2]. pose proof (Hkeep L e es n E) as Hk. split.
      + intros x [->|Hx]%elem_of_cons; [by exists n|by apply H1].
      + rewrite Hk. simpl. by rewrite H2.
    - destruct (IH (L ++ [e])) as [H1 H2].
      assert (position (in_eventId e) (L ++ [e]) = Some (length L)) as Hp.
      { unfold position in *. destruct (list_find _ L) eqn:EL; [done|].
        rewrite list_find_app_r by done. simpl. rewrite decide_True by done. done. }
      pose proof (Hkeep _ e es _ Hp) as Hk. split.
      + intros x [->|Hx]%elem_of_cons; [by eexists|by apply H1].
      + rewrite Hk. simpl. by rewrite H2. }
  destruct (Hall es L) as [H1 H2]. rewrite (Hknown es (append L es).1 H1), <- H2.
  by destruct (append L es).
Qed.

(** C1: The push handler, from the controller down to the SQL transaction (existing-row
    lookup, ON CONFLICT insert, running head, head update), implements the specification
    [push_spec] on the store's log, for a batch whose references to sharing states pass
    [validateSharingDependencies]: a batch sent with the current head is appended, every
    event already in the log (or twice in the batch) keeping its sequence and the others
    taking the next ones; a stale head is answered with a conflict and the first 1000
    missing rows; a head from the future with [server_behind]. The tables stay well formed,
    no other store changes, and another owner's push is refused without a trace. *)
Theorem sync_push_refines (repos : option SharingRepos) (o st : string) (expected : Z)
    (es : list SyncIncomingEvent) (s : server) :
  server_ok s -> valid_id "SyncOwnerId" o -> valid_id "SyncStoreId" st -> (0 <= expected)%Z ->
  validateSharingDependencies repos es = Ok None ->
  if may_use o st s
  then exists s', push repos o st expected es s = (Ok (push_spec o st (log o st s) expected es).1, s') /\
    log o st s' = (push_spec o st (log o st s) expected es).2 /\
    server_ok s' /\ others_same o st s s' /\ owned_by st o s'
  else push repos o st expected es s =
    (Err (AccessDenied "Store is owned by a different identity"), s).
Proof.
  intros Hok Ho Hst He Hv. pose proof (non_blank_ok _ _ _ Ho) as [_ Hlen].
  unfold push, lift_result, mbind, js_bind, SyncOwnerId_from, SyncStoreId_from.
  rewrite Ho, Hst, seq_from_ok by done.
  pose proof (pushEvents_spec repos o st expected es s Hok Hlen) as Hp.
  destruct (may_use o st s); [|done]. destruct Hp as (s' & -> & Hok' & Hlog & Hoth & Hown).
  unfold push_outcome in *. rewrite Hv in *. by exists s'.
Qed.

(** C2: After any sequence of push, pull and reset requests by any identities, the server's
    tables are well formed (in each stream the sequences are 1..n, event ids are distinct
    and the stored head is n), and a further request leaves each log a prefix of what it
    becomes, a development reset of that very log apart. *)
Theorem sync_log_invariant (repos : option SharingRepos) (rs : list request) (r : request) :
  let s := fold_left (serve repos) rs empty_server in
  server_ok s /\
  forall o st, log o st s `prefix_of` log o st (serve repos s r) \/
    (r = ReqReset false o st /\ log o st (serve repos s r) = []).
Proof.
  assert (forall s0, server_ok s0 -> server_ok (fold_left (serve repos) rs s0)) as Hfold.
  { induction rs as [|q rs IH]; intros s0 H0; [done|]. simpl. apply IH. by apply serve_spec. }
  intros s. assert (server_ok s) as Hok by (apply Hfold, empty_ok).
  split; [exact Hok|]. by apply serve_spec.
Qed.

(** Retrying a push is harmless: after a push that succeeded with head [h] and some
    assignments, the same batch pushed with expected head [h] succeeds with the very same
    head and assignments, and changes no log. *)
Theorem sync_push_idempotent (repos : option SharingRepos) (o st : string) expected es s h assigned s' :
  server_ok s -> valid_id "SyncOwnerId" o -> valid_id "SyncStoreId" st -> (0 <= expected)%Z ->
  push repos o st expected es s = (Ok (PushOk h assigned), s') ->
  exists s'', push repos o st h es s' = (Ok (PushOk h assigned), s'') /\
    log o st s'' = log o st s' /\ others_same o st s' s''.
Proof.
  intros Hok Ho Hst He. pose proof (non_blank_ok _ _ _ Ho) as [_ Hlen].
  unfold push, lift_result, mbind, js_bind, SyncOwnerId_from, SyncStoreId_from.
  rewrite Ho, Hst, seq_from_ok by done. intros Hp.
  pose proof (pushEvents_spec repos o st expected es s Hok Hlen) as H1.
  destruct (may_use o st s); [|congruence]. destruct H1 as (s1 & H1 & Hok1 & Hlog1 & _ & (r & Hr & Hro)).
  rewrite H1 in Hp. injection Hp as Hp <-.
  assert (may_use o st s1 = true) as Hm by (unfold may_use; rewrite Hr; by apply bool_decide_eq_true).
  unfold push_outcome in Hp, Hlog1.
  destruct (validateSharingDependencies repos es) as [[why|]|err] eqn:Hv; [done| |done].
  simpl in Hp, Hlog1. injection Hp as Hp.
  assert (h = Z.of_nat (length (log o st s1)) /\ push_spec o st (log o st s1) h es =
    (PushOk h assigned, log o st s1)) as [Hh Hspec].
  { rewrite Hlog1. unfold push_spec in *. destruct es as [|e es]; simpl in *; [by injection Hp as <- <-|].
    destruct (expected =? _)%Z; [|by destruct (_ <? expected)%Z].
    simpl in *. injection Hp as <- <-. split; [done|]. rewrite Z.eqb_refl.
    change (append (log o st s) (e :: es)).1 with (append (log o st s) (e :: es)).1.
    pose proof (append_idem (log o st s) (e :: es)) as Hi. simpl in Hi. rewrite Hi.
    by destruct (position _ _). }
  rewrite seq_from_ok by lia.
  pose proof (pushEvents_spec repos o st h es s1 Hok1 Hlen) as H2. rewrite Hm in H2.
  destruct H2 as (s2 & H2 & _ & Hlog2 & Hoth & _). exists s2.
  unfold push_outcome in H2, Hlog2. rewrite Hv, Hspec in *. done.
Qed.

(** C3: A client that follows [nextSince] while [hasMore] holds stops, after at most as many
    pages as the log has events (one page when it has none), and has received exactly the
    events after [since], once each and in order, whatever the page size (from 1 on). *)
Theorem sync_pull_complete (o st : string) (since limit : Z) (s : server) :
  server_ok s -> valid_id "SyncOwnerId" o -> valid_id "SyncStoreId" st ->
  may_use o st s = true -> (0 <= since)%Z -> (1 <= limit)%Z ->
  pull_all (Nat.max 1 (length (log o st s))) o st since limit s =
    (Ok (Some (drop (Z.to_nat since) (rows_of o st (log o st s)))), ensured o st s).
Proof.
  intros Hok Ho Hst Hm Hs Hl.
  assert (forall fuel s' since, server_ok s' -> may_use o st s' = true -> (0 <= since)%Z ->
    (Z.of_nat (length (log o st s')) - since <= Z.of_nat fuel)%Z -> (0 < Z.of_nat fuel)%Z ->
    pull_all fuel o st since limit s' =
      (Ok (Some (drop (Z.to_nat since) (rows_of o st (log o st s')))), ensured o st s')) as Hgen.
  { induction fuel as [|n IH]; intros s' k Hok' Hm' Hk Hf Hpos; [lia|].
    simpl. unfold mbind, js_bind. rewrite pull_run by done.
    pose proof (pull_response_spec o st (log o st s') k limit Hk Hl) as Hr. cbv zeta in Hr.
    destruct (Z.ltb_spec (k + limit) (Z.of_nat (length (log o st s')))) as [Hmore|Hdone].
    - destruct Hr as [-> ->]. rewrite IH; [|by apply ensured_ok|by apply ensured_may_use|lia| |lia].
      + rewrite ensured_log, ensured_idemp. simpl. unfold mret, js_ret. do 3 f_equal.
        unfold page. replace (Z.to_nat (k + limit)) with (Z.to_nat k + Z.to_nat limit) by lia.
        rewrite <- drop_drop. apply take_drop.
      + rewrite ensured_log. lia.
    - destruct Hr as [-> Hp]. simpl. by rewrite Hp. }
  apply Hgen; try done; lia.
Qed.

(** A store belongs to the identity that used it first: any other identity's push, pull
    and reset of it are refused with an access error, the database unchanged, and its own
    log there is empty. *)
Theorem sync_isolation (repos : option SharingRepos) (a b st : string) (s : server)
    expected es since limit :
  server_ok s -> owned_by st a s -> a <> b ->
  valid_id "SyncOwnerId" b -> valid_id "SyncStoreId" st -> (0 <= expected)%Z -> (0 <= since)%Z ->
  let denied {A} := (Err (AccessDenied "Store is owned by a different identity"), s) : result server_error A * server in
  log b st s = [] /\
  push repos b st expected es s = denied /\
  pull [] b st since limit s = denied /\
  reset false b st s = denied.
Proof.
  intros Hok (r & Hr & Ha) Hab Hb Hst He Hs denied.
  pose proof (non_blank_ok _ _ _ Hb) as [_ Hlen].
  assert (may_use b st s = false) as Hm
    by (unfold may_use; rewrite Hr; apply bool_decide_eq_false; congruence).
  split.
  { destruct (Hok b st) as (_ & _ & Hh). rewrite Hr, decide_False in Hh by congruence. exact Hh. }
  split; [|split].
  - unfold push, lift_result, mbind, js_bind, SyncOwnerId_from, SyncStoreId_from.
    rewrite Hb, Hst, seq_from_ok by done.
    pose proof (pushEvents_spec repos b st expected es s Hok Hlen) as Hp. by rewrite Hm in Hp.
  - unfold pull, lift_result, mbind, js_bind, SyncOwnerId_from, SyncStoreId_from.
    rewrite Hb, Hst, seq_from_ok by done. by rewrite pullEvents_spec, Hm.
  - unfold reset, lift_result, mbind, js_bind, SyncOwnerId_from, SyncStoreId_from.
    rewrite Hb, Hst. pose proof (resetStore_spec b st s Hok Hlen) as Hp. by rewrite Hm in Hp.
Qed.

End SyncServerProperties.

(** ** Witnesses *)

Module SyncServerWitnesses.
Import SyncSpec SyncRefinement SyncPaging.

Definition plain (event_id json : string) : SyncIncomingEvent :=
  Incoming event_id json None None None None None None.

(** Two pushes by alice, the second after a conflict. *)
Definition requests : list request :=
  [ReqPush "alice" "store" 0 [plain "e1" "{1}"; plain "e2" "{2}"; plain "e1" "{1}"];
   ReqPush "alice" "store" 0 [plain "e3" "{3}"];
   ReqPush "alice" "store" 2 [plain "e3" "{3}"]].
Definition db : server := fold_left (serve None) requests empty_server.

Example db_log : map in_eventId (log "alice" "store" db) = ["e1"; "e2"; "e3"].
Proof. reflexivity. Qed.

Lemma db_ok : server_ok db.
Proof. by repeat apply serve_spec; apply empty_ok. Qed.

Lemma sync_push_refines_witness :
  exists s', push None "alice" "store" 3 [plain "e4" "{4}"] db =
      (Ok (PushOk 4 [Assigned "e4" 4]), s') /\
    map in_eventId (log "alice" "store" s') = ["e1"; "e2"; "e3"; "e4"].
Proof.
  destruct (SyncServerProperties.sync_push_refines None "alice" "store" 3 [plain "e4" "{4}"] db
    db_ok eq_refl eq_refl ltac:(lia) eq_refl) as (s' & H1 & H2 & _).
  exists s'. rewrite H1, H2. split; reflexivity.
Defined.

Lemma sync_push_idempotent_witness :
  exists s'', push None "alice" "store" 3 [plain "e3" "{3}"]
      (snd (push None "alice" "store" 3 [plain "e3" "{3}"] db)) =
    (Ok (PushOk 3 [Assigned "e3" 3]), s'').
Proof.
  destruct (SyncServerProperties.sync_push_idempotent None "alice" "store" 3 [plain "e3" "{3}"] db
    3 [Assigned "e3" 3] (snd (push None "alice" "store" 3 [plain "e3" "{3}"] db))
    db_ok eq_refl eq_refl ltac:(lia) eq_refl) as (s'' & H & _).
  by exists s''.
Defined.

Lemma sync_pull_complete_witness :
  exists rows, pull_all 3 "alice" "store" 1 1 db = (Ok (Some rows), ensured "alice" "store" db) /\
    map row_eventId rows = ["e2"; "e3"].
Proof.
  eexists. split.
  - exact (SyncServerProperties.sync_pull_complete "alice" "store" 1 1 db
      db_ok eq_refl eq_refl eq_refl ltac:(lia) ltac:(lia)).
  - reflexivity.
Defined.

Lemma sync_isolation_witness :
  push None "bob" "store" 0 [] db =
    (Err (AccessDenied "Store is owned by a different identity"), db).
Proof.
  apply (SyncServerProperties.sync_isolation None "alice" "bob" "store" db 0 [] 0 10 db_ok);
    [by exists (Store "alice" 3)|done|reflexivity|reflexivity|lia|lia].
Defined.

End SyncServerWitnesses.
