(* ===== verification/EventStoreCore.v ===== *)
(** * Event records and cursors ([packages/eventstore-core/src/index.ts])

    [CommitCursor] orders events by their local commit, [EffectiveCursor] by
    the "effective total order" every projection reads: first the synced
    region, by global sequence, then the pending events, by commit sequence. *)

From S2P Require Import Prelude JsValues.
From Stdlib Require Import Ascii.

Inductive CursorComparison : Type := before | equal | after.

Record CommitCursor : Type := Commit {
  cc_commitSequence : Z;
  cc_eventId : string;
  cc_version : Z
}.

Record EffectiveCursor : Type := Effective {
  ec_globalSequence : Z;
  ec_pendingCommitSequence : Z
}.

Definition ZERO_EFFECTIVE_CURSOR : EffectiveCursor := Effective 0 0.

Record EventRecord : Type := Record_ {
  er_id : string;
  er_aggregateId : string;
  er_eventType : string;
  er_payload : list Z;
  er_version : Z;
  er_occurredAt : number;
  er_actorId : option string;
  er_causationId : option string;
  er_correlationId : option string;
  er_commitSequence : Z;
  er_globalSequence : option Z
}.

Definition compareCommitCursor (a b : CommitCursor) : CursorComparison :=
  if (cc_commitSequence a <? cc_commitSequence b)%Z then before
  else if (cc_commitSequence b <? cc_commitSequence a)%Z then after
  else if String.ltb (cc_eventId a) (cc_eventId b) then before
  else if String.ltb (cc_eventId b) (cc_eventId a) then after
  else if (cc_version a <? cc_version b)%Z then before
  else if (cc_version b <? cc_version a)%Z then after
  else equal.

Definition compareEffectiveCursor (a b : EffectiveCursor) : CursorComparison :=
  if (ec_globalSequence a <? ec_globalSequence b)%Z then before
  else if (ec_globalSequence b <? ec_globalSequence a)%Z then after
  else if (ec_pendingCommitSequence a <? ec_pendingCommitSequence b)%Z then before
  else if (ec_pendingCommitSequence b <? ec_pendingCommitSequence a)%Z then after
  else equal.

Definition commitCursorFromRecord (r : EventRecord) : CommitCursor :=
  Commit (er_commitSequence r) (er_id r) (er_version r).

Definition advanceEffectiveCursor (c : EffectiveCursor) (r : EventRecord) : EffectiveCursor :=
  match er_globalSequence r with
  | Some g => Effective g (ec_pendingCommitSequence c)
  | None => Effective (ec_globalSequence c) (er_commitSequence r)
  end.

(** ** The order the comparisons define *)

Definition flip_comparison (c : CursorComparison) : CursorComparison :=
  match c with before => after | equal => equal | after => before end.

(** [cmp] is a total order: comparing the other way round flips the answer,
    only equal cursors compare equal, and [before] is transitive. *)
Definition total_order {A} (cmp : A -> A -> CursorComparison) : Prop :=
  forall a b c,
    cmp b a = flip_comparison (cmp a b) /\
    (cmp a b = equal <-> a = b) /\
    (cmp a b = before -> cmp b c = before -> cmp a c = before).

(** Records as the event store returns them in effective total order, after
    the position [c]: synced ones by increasing global sequence, then pending
    ones by increasing commit sequence. *)
Fixpoint effective_order (c : EffectiveCursor) (pending : bool) (rs : list EventRecord) : Prop :=
  match rs with
  | [] => True
  | r :: rs' =>
      match er_globalSequence r with
      | Some g => pending = false /\ (ec_globalSequence c < g)%Z /\
                  effective_order (advanceEffectiveCursor c r) false rs'
      | None => (ec_pendingCommitSequence c < er_commitSequence r)%Z /\
                effective_order (advanceEffectiveCursor c r) true rs'
      end
  end.

(** The record lies after the cursor: what the readers' [WHERE] clauses ask. *)
Definition is_after (c : EffectiveCursor) (r : EventRecord) : bool :=
  match er_globalSequence r with
  | Some g => (ec_globalSequence c <? g)%Z
  | None => (ec_pendingCommitSequence c <? er_commitSequence r)%Z
  end.

(** ** Lexicographic comparisons *)

Module Lex.

Definition lex (a b : comparison) : comparison := match a with Eq => b | c => c end.

Definition of_comparison (c : comparison) : CursorComparison :=
  match c with Lt => before | Eq => equal | Gt => after end.

(** The laws of a three-way comparison on a key. *)
Definition ordered {A} (f : A -> A -> comparison) (same : A -> A -> Prop) : Prop :=
  forall a b c, f b a = CompOpp (f a b) /\ (f a b = Eq <-> same a b) /\
    (f a b = Lt -> f b c = Lt -> f a c = Lt).

Lemma ordered_lex {A} (f g : A -> A -> comparison) P Q :
  (forall a b c, P a b -> f a c = f b c /\ f c a = f c b) ->
  ordered f P -> ordered g Q -> ordered (fun a b => lex (f a b) (g a b)) (fun a b => P a b /\ Q a b).
Proof.
  intros Hext Hf Hg a b c. destruct (Hf a b c) as (F1 & F2 & F3), (Hg a b c) as (G1 & G2 & G3).
  rewrite F1, G1. split; [|split].
  - by destruct (f a b).
  - rewrite <- F2, <- G2. clear. destruct (f a b); simpl; [tauto|split; [done|by intros []]..].
  - destruct (f a b) eqn:E; [| |done].
    + destruct (Hext a b c) as [-> _]; [by apply F2|]. simpl. intros H.
      destruct (f b c); simpl; [by apply G3|done|done].
    + intros _. destruct (f b c) eqn:E2; [|by rewrite F3|done].
      destruct (Hf b c a) as (_ & [H _] & _). specialize (H E2).
      destruct (Hext b c a H) as [_ <-]. by rewrite E.
Qed.

Lemma ordered_Z {A} (k : A -> Z) :
  ordered (fun a b => Z.compare (k a) (k b)) (fun a b => k a = k b).
Proof.
  intros a b c. split; [apply Z.compare_antisym|]. split; [apply Z.compare_eq_iff|].
  rewrite !Z.compare_lt_iff. lia.
Qed.

Lemma string_lt_trans a b c :
  String.compare a b = Lt -> String.compare b c = Lt -> String.compare a c = Lt.
Proof.
  revert b c. induction a as [|x a IH]; intros [|y b] [|z c]; try done. cbn [String.compare].
  rewrite !ascii_compare_code. intros H1 H2.
  destruct (Z.compare_spec (code x) (code y)), (Z.compare_spec (code y) (code z)),
    (Z.compare_spec (code x) (code z)); try done; try lia. by apply (IH b).
Qed.

Lemma string_compare_refl a : String.compare a a = Eq.
Proof.
  pose proof (String.compare_antisym a a) as H. by destruct (String.compare a a).
Qed.

Lemma ordered_string {A} (k : A -> string) :
  ordered (fun a b => String.compare (k a) (k b)) (fun a b => k a = k b).
Proof.
  intros a b c. split; [apply String.compare_antisym|].
  split; [|apply string_lt_trans].
  split; [apply String.compare_eq_iff|intros ->; apply string_compare_refl].
Qed.

Lemma of_comparison_order {A} (cmp : A -> A -> CursorComparison) f P :
  (forall a b, cmp a b = of_comparison (f a b)) -> (forall a b, P a b <-> a = b) ->
  ordered f P -> total_order cmp.
Proof.
  intros Hc HP Hf a b c. destruct (Hf a b c) as (H1 & H2 & H3). rewrite !Hc, H1, <- HP, <- H2.
  split; [by destruct (f a b)|]. split; [by destruct (f a b)|].
  intros. destruct (f a b) eqn:E1, (f b c) eqn:E2; try done. by rewrite H3.
Qed.

Lemma branch_Z (x y : Z) (k : CursorComparison) :
  (if (x <? y)%Z then before else if (y <? x)%Z then after else k) =
  match Z.compare x y with Lt => before | Gt => after | Eq => k end.
Proof. destruct (Z.compare_spec x y), (Z.ltb_spec x y), (Z.ltb_spec y x); done || lia. Qed.

Lemma branch_string (x y : string) (k : CursorComparison) :
  (if String.ltb x y then before else if String.ltb y x then after else k) =
  match String.compare x y with Lt => before | Gt => after | Eq => k end.
Proof.
  unfold String.ltb. rewrite (String.compare_antisym y x). by destruct (String.compare x y).
Qed.

End Lex.

Module CursorProperties.
Import Lex.

(** Commit cursors and effective cursors are totally ordered by their comparison
    functions: swapping the arguments flips the answer, only equal cursors compare equal,
    and [before] is transitive. *)
Theorem cursor_orders :
  total_order compareCommitCursor /\ total_order compareEffectiveCursor.
Proof.
  split.
  - eapply of_comparison_order; [| |apply (ordered_lex
      (fun a b => Z.compare (cc_commitSequence a) (cc_commitSequence b))
      (fun a b => lex (String.compare (cc_eventId a) (cc_eventId b))
                      (Z.compare (cc_version a) (cc_version b))));
      [|apply ordered_Z|apply ordered_lex; [|apply ordered_string|apply ordered_Z]];
      by intros ??? ->].
    + intros a b. unfold compareCommitCursor. rewrite !branch_Z, branch_string.
      by destruct (Z.compare _ _), (String.compare _ _).
    + intros [] []. simpl. naive_solver.
  - eapply of_comparison_order; [| |apply (ordered_lex
      (fun a b => Z.compare (ec_globalSequence a) (ec_globalSequence b))
      (fun a b => Z.compare (ec_pendingCommitSequence a) (ec_pendingCommitSequence b)));
      [|apply ordered_Z|apply ordered_Z]; by intros ??? ->].
    + intros a b. unfold compareEffectiveCursor. rewrite !branch_Z. by destruct (Z.compare _ _).
    + intros [] []. simpl. naive_solver.
Qed.

Lemma is_after_advance c r x :
  is_after c r = true -> is_after (advanceEffectiveCursor c r) x = true -> is_after c x = true.
Proof.
  unfold is_after, advanceEffectiveCursor.
  destruct (er_globalSequence r), (er_globalSequence x); simpl; lia.
Qed.

Lemma not_after_self c r : is_after (advanceEffectiveCursor c r) r = false.
Proof.
  unfold is_after, advanceEffectiveCursor. destruct (er_globalSequence r); simpl; lia.
Qed.

Lemma effective_order_cons c p r rs :
  effective_order c p (r :: rs) ->
  is_after c r = true /\ exists p', effective_order (advanceEffectiveCursor c r) p' rs.
Proof.
  simpl. unfold is_after. destruct (er_globalSequence r); intros H; split; try lia; naive_solver.
Qed.

Lemma effective_order_after c p rs :
  effective_order c p rs -> Forall (fun r => is_after c r = true) rs.
Proof.
  revert c p. induction rs as [|r rs IH]; intros c p H; [done|].
  apply effective_order_cons in H as [Ha [p' H]]. constructor; [done|].
  eapply Forall_impl; [by eapply IH|]. intros x. by apply is_after_advance.
Qed.

Definition advance_all (c : EffectiveCursor) (rs : list EventRecord) : EffectiveCursor :=
  fold_left advanceEffectiveCursor rs c.

Lemma not_after_advance_all c p rs x :
  effective_order c p rs -> is_after c x = false -> is_after (advance_all c rs) x = false.
Proof.
  revert c p. induction rs as [|r rs IH]; intros c p H Hx; [done|].
  apply effective_order_cons in H as [Ha [p' H]]. simpl. eapply IH; [done|].
  apply not_true_iff_false. intros Hc. rewrite (is_after_advance c r x) in Hx by done. done.
Qed.

Lemma effective_order_prefix c p rs rs' :
  effective_order c p (rs ++ rs') -> effective_order c p rs /\
  exists p', effective_order (advance_all c rs) p' rs'.
Proof.
  revert c p. induction rs as [|r rs IH]; intros c p H; [split; [done|by exists p]|].
  simpl in *. destruct (er_globalSequence r).
  - destruct H as (? & ? & H). apply IH in H as [? ?]. by repeat split.
  - destruct H as (? & H). apply IH in H as [? ?]. by repeat split.
Qed.

(** A reader that has advanced its effective cursor over a first part of the records in
    effective total order (synced ones by global sequence, then pending ones by commit
    sequence) finds after it exactly the rest, and its cursor has moved unless the part was
    empty. *)
Theorem cursor_resumes (c : EffectiveCursor) (done rest : list EventRecord) :
  effective_order c false (done ++ rest) ->
  filter (fun r => is_after (advance_all c done) r = true) (done ++ rest) = rest /\
  (done <> [] -> compareEffectiveCursor c (advance_all c done) <> equal).
Proof.
  intros H. apply effective_order_prefix in H as [Hd [p Hr]]. split.
  - rewrite filter_app. apply effective_order_after in Hr.
    assert (forall l : list EventRecord, Forall (fun r => is_after (advance_all c done) r = true) l ->
      filter (fun r => is_after (advance_all c done) r = true) l = l) as Hall.
    { clear. induction l as [|x l IH]; intros Hl; [done|]. inversion Hl; subst.
      rewrite filter_cons_True by done. by rewrite IH. }
    rewrite (Hall rest Hr). replace (filter _ done) with (@nil EventRecord); [done|].
    symmetry. clear -Hd. revert c Hd. generalize false. induction done as [|r l IH]; intros p c Hd; [done|].
    apply effective_order_cons in Hd as [Ha [p' Hd]]. simpl advance_all.
    rewrite filter_cons_False; [by eapply IH|].
    rewrite (not_after_advance_all _ p' l r); [done|done|apply not_after_self].
  - intros Hne Heq. apply (proj2 cursor_orders c (advance_all c done) c) in Heq.
    destruct done as [|r l]; [done|]. apply effective_order_cons in Hd as [Ha [p' Hd]].
    pose proof (not_after_advance_all _ p' l r Hd (not_after_self c r)) as Hn.
    change (advance_all (advanceEffectiveCursor c r) l) with (advance_all c (r :: l)) in Hn. congruence.
Qed.

End CursorProperties.

(** ** Witnesses *)

Module CursorWitnesses.
Import CursorProperties.

Definition rec (id : string) (commit : Z) (g : option Z) : EventRecord :=
  Record_ id "goal" "GoalCreated" [] 1 (num 0) None None None commit g.

Lemma cursor_resumes_witness :
  filter (fun r => is_after (Effective 7 2) r = true)
    [rec "b" 9 (Some 4%Z); rec "a" 1 (Some 7%Z); rec "c" 2 None; rec "d" 5 None] = [rec "d" 5 None].
Proof.
  apply (cursor_resumes ZERO_EFFECTIVE_CURSOR
    [rec "b" 9 (Some 4%Z); rec "a" 1 (Some 7%Z); rec "c" 2 None] [rec "d" 5 None]).
  simpl. repeat split; lia.
Defined.

End CursorWitnesses.
