(* ===== verification/JsonText.v ===== *)
(** * JSON text and UTF-8

    [JSON.stringify], [JSON.parse], [TextEncoder] and [TextDecoder] of the
    language runtime, on the strings of the model (code units 0-255).

    - Numbers are printed in plain decimal notation (JavaScript switches to
      exponents from 10^21 on and below 10^-6); the parser reads the whole
      number grammar, exactly (no rounding to binary64).
    - [JSON.parse] refuses escapes of code units above 255, and [TextDecoder]
      text with such characters: they are outside the model's strings.
    - An object is its list of fields; a repeated key keeps its first place
      and its last value.  (JavaScript iterates integer-like keys first.) *)

From S2P Require Import Prelude JsValues.
From Stdlib Require Import Ascii.

(** ** [JSON.stringify] *)

Definition chr (n : Z) : ascii := ascii_of_N (Z.to_N n).
(** The quotation mark and the backslash. *)
Definition quo : ascii := chr 34.
Definition bsl : ascii := chr 92.

Definition hex_digit (v : Z) : ascii := chr (if (v <? 10)%Z then 48 + v else 87 + v).
Definition hex_digit_value (c : ascii) : option Z :=
  if in_range 48 57 c then Some (code c - 48)%Z
  else if in_range 97 102 c then Some (code c - 87)%Z
  else if in_range 65 70 c then Some (code c - 55)%Z
  else None.

(** The two-character escapes: the letter and the code unit it stands for. *)
Definition escapes : list (ascii * Z) :=
  [(quo, 34); (bsl, 92); ("b"%char, 8); ("f"%char, 12); ("n"%char, 10); ("r"%char, 13); ("t"%char, 9)]%Z.

Definition quote_char (c : ascii) : list ascii :=
  match List.find (fun '(_, n) => (code c =? n)%Z) escapes with
  | Some (x, _) => [bsl; x]
  | None =>
      if (code c <? 32)%Z
      then [bsl; "u"%char; "0"%char; "0"%char; hex_digit (code c / 16); hex_digit (code c mod 16)]
      else [c]
  end.

Definition quote (s : string) : list ascii := quo :: flat_map quote_char (chars s) ++ [quo].

(** Trailing zeros of the decimals go. *)
Fixpoint normalise (m : Z) (k : nat) : Z * nat :=
  match k with
  | O => (m, O)
  | S k' => if (m mod 10 =? 0)%Z then normalise (m / 10) k' else (m, k)
  end.

Definition print_number (n : number) : list ascii :=
  match n with
  | Dec m k =>
      let '(m, k) := normalise m k in
      match k with
      | O => chars (string_of_Z m)
      | _ =>
          let p := (10 ^ Z.of_nat k)%Z in
          (if (m <? 0)%Z then ["-"%char] else []) ++
          chars (string_of_Z (Z.abs m / p)) ++ "."%char :: chars (padStart k (string_of_Z (Z.abs m mod p)))
      end
  | _ => chars "null"
  end.

Fixpoint commas (ls : list (list ascii)) : list ascii :=
  match ls with
  | [] => []
  | [l] => l
  | l :: ls' => l ++ ","%char :: commas ls'
  end.

Fixpoint print (v : json) : list ascii :=
  match v with
  | JNull => chars "null"
  | JBool true => chars "true"
  | JBool false => chars "false"
  | JNum n => print_number n
  | JStr s => quote s
  | JArr l => "["%char :: commas (map print l) ++ ["]"%char]
  | JObj fs => "{"%char :: commas (map (fun '(k, v) => quote k ++ ":"%char :: print v) fs) ++ ["}"%char]
  end.

Definition JSON_stringify (v : json) : string := of_chars (print v).

(** ** [JSON.parse] *)

Definition is_ws (c : ascii) : bool :=
  ((code c =? 9) || (code c =? 10) || (code c =? 13) || (code c =? 32))%Z.

Fixpoint skip_ws (l : list ascii) : list ascii :=
  match l with
  | c :: l' => if is_ws c then skip_ws l' else l
  | [] => []
  end.

(** The characters of a string after the opening quotation mark, and what
    follows the closing one. *)
Fixpoint parse_chars (l : list ascii) : option (list ascii * list ascii) :=
  match l with
  | [] => None
  | c :: l1 =>
      if (code c =? 34)%Z then Some ([], l1)
      else if (code c <? 32)%Z then None
      else if negb (code c =? 92)%Z then '(s, r) ← parse_chars l1; Some (c :: s, r)
      else
        match l1 with
        | "u"%char :: h1 :: h2 :: h3 :: h4 :: l2 =>
            v1 ← hex_digit_value h1; v2 ← hex_digit_value h2;
            v3 ← hex_digit_value h3; v4 ← hex_digit_value h4;
            if negb ((v1 =? 0) && (v2 =? 0))%Z then None
            else '(s, r) ← parse_chars l2; Some (chr (v3 * 16 + v4) :: s, r)
        | x :: l2 =>
            if is_char "/" x then '(s, r) ← parse_chars l2; Some (x :: s, r)
            else
              match List.find (fun '(y, _) => is_char y x) escapes with
              | Some (_, n) => '(s, r) ← parse_chars l2; Some (chr n :: s, r)
              | None => None
              end
        | [] => None
        end
  end.

Fixpoint span_digits (l : list ascii) : list ascii * list ascii :=
  match l with
  | c :: l' => if is_digit c then let '(d, r) := span_digits l' in (c :: d, r) else ([], l)
  | [] => ([], [])
  end.

(** A leading zero stands alone. *)
Definition parse_int (l : list ascii) : option (list ascii * list ascii) :=
  match span_digits l with
  | ([], _) => None
  | (c :: d, r) => if is_char "0" c then Some ([c], d ++ r) else Some (c :: d, r)
  end.

Definition parse_fraction (l : list ascii) : option (list ascii * list ascii) :=
  match l with
  | "."%char :: l' => match span_digits l' with ([], _) => None | dr => Some dr end
  | _ => Some ([], l)
  end.

Definition parse_exponent (l : list ascii) : option (Z * list ascii) :=
  let digits (sign : Z) (l : list ascii) :=
    match span_digits l with
    | ([], _) => None
    | (d, r) => Some ((sign * dec_value 0 (of_chars d))%Z, r)
    end in
  match l with
  | "e"%char :: l' | "E"%char :: l' =>
      match l' with
      | "+"%char :: l2 => digits 1%Z l2
      | "-"%char :: l2 => digits (-1)%Z l2
      | _ => digits 1%Z l'
      end
  | _ => Some (0%Z, l)
  end.

Definition parse_number (l : list ascii) : option (number * list ascii) :=
  let '(sign, l) := match l with "-"%char :: l' => ((-1)%Z, l') | _ => (1%Z, l) end in
  '(d, l) ← parse_int l;
  '(f, l) ← parse_fraction l;
  '(e, l) ← parse_exponent l;
  let m := (sign * dec_value 0 (of_chars (d ++ f)))%Z in
  let k := Z.of_nat (length f) in
  Some (Dec (m * 10 ^ Z.max 0 (e - k)) (Z.to_nat (k - e)), l).

(** [l] after the literal [w], if it starts with it. *)
Fixpoint strip (w l : list ascii) : option (list ascii) :=
  match w, l with
  | [], _ => Some l
  | x :: w', c :: l' => if is_char x c then strip w' l' else None
  | _, [] => None
  end.

(** The grammar, by recursion on a bound of its depth: values, the elements
    of an array and the members of an object, after their opening bracket. *)
Fixpoint parse_value (fuel : nat) (l : list ascii) : option (json * list ascii) :=
  match fuel with
  | O => None
  | S f =>
      match skip_ws l with
      | [] => None
      | c :: r =>
          if is_char quo c then '(s, r) ← parse_chars r; Some (JStr (of_chars s), r)
          else if is_char "[" c then
            match strip ["]"%char] (skip_ws r) with
            | Some r => Some (JArr [], r)
            | None => '(vs, r) ← parse_elements f r; Some (JArr vs, r)
            end
          else if is_char "{" c then
            match strip ["}"%char] (skip_ws r) with
            | Some r => Some (JObj [], r)
            | None => '(fs, r) ← parse_members f r; Some (JObj (map_of_entries fs), r)
            end
          else if is_char "n" c then r ← strip (chars "ull") r; Some (JNull, r)
          else if is_char "t" c then r ← strip (chars "rue") r; Some (JBool true, r)
          else if is_char "f" c then r ← strip (chars "alse") r; Some (JBool false, r)
          else '(n, r) ← parse_number (c :: r); Some (JNum n, r)
      end
  end
with parse_elements (fuel : nat) (l : list ascii) : option (list json * list ascii) :=
  match fuel with
  | O => None
  | S f =>
      '(v, r) ← parse_value f l;
      match skip_ws r with
      | ","%char :: r => '(vs, r) ← parse_elements f r; Some (v :: vs, r)
      | "]"%char :: r => Some ([v], r)
      | _ => None
      end
  end
with parse_members (fuel : nat) (l : list ascii) : option (list (string * json) * list ascii) :=
  match fuel with
  | O => None
  | S f =>
      match skip_ws l with
      | c :: r =>
          if is_char quo c then
            '(k, r) ← parse_chars r;
            match skip_ws r with
            | ":"%char :: r =>
                '(v, r) ← parse_value f r;
                match skip_ws r with
                | ","%char :: r => '(fs, r) ← parse_members f r; Some ((of_chars k, v) :: fs, r)
                | "}"%char :: r => Some ([(of_chars k, v)], r)
                | _ => None
                end
            | _ => None
            end
          else None
      | [] => None
      end
  end.

(** [None] is a [SyntaxError]. *)
Definition JSON_parse (s : string) : option json :=
  '(v, r) ← parse_value (2 * String.length s + 2) (chars s);
  match skip_ws r with [] => Some v | _ => None end.

(** ** UTF-8 *)

Definition utf8_char (c : ascii) : list Z :=
  let n := code c in
  if (n <? 128)%Z then [n] else [192 + n / 64; 128 + n mod 64]%Z.

(** [new TextEncoder().encode(s)] *)
Definition utf8_encode (s : string) : list Z := flat_map utf8_char (chars s).

Fixpoint utf8_chars (l : list Z) : option (list ascii) :=
  match l with
  | [] => Some []
  | b :: l1 =>
      if (b <? 128)%Z then s ← utf8_chars l1; Some (chr b :: s)
      else
        match l1 with
        | b2 :: l2 =>
            if ((194 <=? b) && (b <=? 195) && (128 <=? b2) && (b2 <? 192))%Z
            then s ← utf8_chars l2; Some (chr ((b - 192) * 64 + (b2 - 128)) :: s)
            else None
        | [] => None
        end
  end.

(** [new TextDecoder().decode(bytes)] *)
Definition utf8_decode (l : list Z) : option string := of_chars <$> utf8_chars l.

(** ** Round trips *)

(** What [JSON.stringify] prints faithfully: finite integers (the numbers the
    program stores), any strings, objects without repeated keys. *)
Fixpoint json_ok (v : json) : bool :=
  match v with
  | JNull | JBool _ | JStr _ => true
  | JNum (Dec _ k) => (k =? 0)%nat
  | JNum _ => false
  | JArr l => forallb json_ok l
  | JObj fs => bool_decide (NoDup (map fst fs)) && forallb (fun '(_, v) => json_ok v) fs
  end.

(** The text after a value does not continue a number. *)
Definition delimited (l : list ascii) : bool :=
  match l with
  | [] => true
  | c :: _ => is_char "," c || is_char "]" c || is_char "}" c
  end.

(** Recursion depth of the parser on a printed value. *)
Fixpoint depth (v : json) : nat :=
  match v with
  | JArr l => S (list_sum (map (fun v => S (depth v)) l))
  | JObj fs => S (list_sum (map (fun '(_, v) => S (depth v)) fs))
  | _ => 1
  end.

Module JsonTextLemmas.

Lemma chr_code c : chr (code c) = c.
Proof. unfold chr, code. by rewrite N2Z.id, ascii_N_embedding. Qed.

Lemma code_bounds c : (0 <= code c < 256)%Z.
Proof. unfold code. pose proof (N_ascii_bounded c). lia. Qed.

Lemma code_chr n : (0 <= n < 256)%Z -> code (chr n) = n.
Proof. intros. unfold code, chr. rewrite N_ascii_embedding; lia. Qed.

Lemma skip_ws_cons c l : is_ws c = false -> skip_ws (c :: l) = c :: l.
Proof. simpl. by intros ->. Qed.

Lemma parse_quote_char c l :
  parse_chars (quote_char c ++ l) = ('(s, r) ← parse_chars l; Some (c :: s, r)).
Proof.
  assert (forall P : ascii -> Prop, (forall n, n < 256 -> P (chr (Z.of_nat n))) -> P c) as Hall.
  { intros P H. pose proof (code_bounds c). specialize (H (Z.to_nat (code c)) ltac:(lia)).
    rewrite Z2Nat.id in H by lia. by rewrite chr_code in H. }
  unfold quote_char. destruct (List.find _ escapes) as [[x n]|] eqn:E.
  - apply List.find_some in E as [Hin He]. apply Z.eqb_eq in He.
    assert (c = chr n) as -> by (rewrite <- He; by rewrite chr_code).
    simpl in Hin. destruct_or! Hin; simplify_eq; try done.
  - destruct (Z.ltb_spec (code c) 32) as [Hlt|Hge].
    + revert E Hlt. apply Hall. intros n Hn. do 32 (destruct n as [|n]; [intros; first [done|reflexivity]|]).
      intros _ Hlt. rewrite code_chr in Hlt by lia. lia.
    + simpl. pose proof (List.find_none _ _ E) as Hn. simpl in Hn.
      pose proof (Hn _ (or_introl eq_refl)) as H1.
      pose proof (Hn _ (or_intror (or_introl eq_refl))) as H2. simpl in H1, H2.
      rewrite H1. destruct (Z.ltb_spec (code c) 32); [lia|]. by rewrite H2.
Qed.

Lemma parse_quote s l : parse_chars (flat_map quote_char s ++ quo :: l) = Some (s, l).
Proof.
  induction s as [|c s IH]; [done|]. simpl. rewrite <- app_assoc, parse_quote_char, IH. done.
Qed.

Lemma span_digits_app d l :
  Forall (fun c => is_digit c = true) d -> match l with [] => True | c :: _ => is_digit c = false end ->
  span_digits (d ++ l) = (d, l).
Proof.
  induction 1 as [|c d Hc Hd IH]; intros Hl; simpl.
  - destruct l as [|c l]; [done|]. simpl. by rewrite Hl.
  - by rewrite Hc, IH.
Qed.

Lemma delimited_spec l :
  delimited l = true -> l = [] \/ exists c r, l = c :: r /\ (c = "," \/ c = "]" \/ c = "}")%char.
Proof.
  destruct l as [|c r]; [by left|]. simpl. rewrite !orb_true_iff, !is_char_eq. right. exists c, r.
  split; [done|tauto].
Qed.

Lemma parse_int_digits s l :
  all_digits s -> s <> EmptyString ->
  (1 < String.length s -> (10 ^ (Z.of_nat (String.length s) - 1) <= dec_value 0 s)%Z) ->
  delimited l = true -> parse_int (chars s ++ l) = Some (chars s, l).
Proof.
  intros Hs Hne Hlead Hl. unfold parse_int. rewrite span_digits_app; [|done|].
  2: { destruct (delimited_spec l Hl) as [->|(c & r & -> & [->|[->| ->]])]; done. }
  destruct s as [|c s]; [done|]. simpl. destruct (is_char "0" c) eqn:E; [|done].
  apply is_char_eq in E as ->. destruct s as [|d s]; [done|]. exfalso.
  specialize (Hlead ltac:(simpl; lia)). apply Forall_inv_tail in Hs.
  pose proof (dec_value_bounds (String d s) Hs) as Hb.
  change (dec_value 0 (String "0" (String d s))) with (dec_value 0 (String d s)) in Hlead.
  change (String.length (String "0" (String d s))) with (S (String.length (String d s))) in Hlead.
  replace (Z.of_nat (S (String.length (String d s))) - 1)%Z
    with (Z.of_nat (String.length (String d s))) in Hlead by lia. lia.
Qed.

Lemma parse_print_integer z l :
  delimited l = true -> parse_number (chars (string_of_Z z) ++ l) = Some (Dec z 0, l).
Proof.
  intros Hl.
  assert (forall l, delimited l = true -> parse_fraction l = Some ([], l)) as Hfrac.
  { intros k Hk. destruct (delimited_spec k Hk) as [->|(c & r & -> & [->|[->| ->]])]; done. }
  assert (forall l, delimited l = true -> parse_exponent l = Some (0%Z, l)) as Hexp.
  { intros k Hk. destruct (delimited_spec k Hk) as [->|(c & r & -> & [->|[->| ->]])]; done. }
  assert (forall n, (0 <= n)%Z -> parse_int (chars (string_of_Z n) ++ l) = Some (chars (string_of_Z n), l))
    as Hint.
  { intros n Hn. destruct (string_of_Z_spec n Hn) as (H1 & H2 & H3).
    apply parse_int_digits; [done|done| |done]. by rewrite dec_value_string_of_Z. }
  unfold parse_number. destruct (Z.ltb_spec z 0) as [Hneg|Hpos].
  - assert (string_of_Z z = String "-" (string_of_Z (- z))) as ->.
    { unfold string_of_Z. destruct (Z.ltb_spec z 0), (Z.ltb_spec (- z) 0); [lia|done|lia|lia]. }
    simpl. rewrite Hint by lia. simpl. rewrite Hfrac by done. simpl. rewrite Hexp by done.
    cbv beta iota delta [mbind option_bind]. rewrite app_nil_r, of_chars_chars, dec_value_string_of_Z by lia.
    change (10 ^ Z.max 0 (0 - Z.of_nat 0))%Z with 1%Z.
    change (Z.to_nat (Z.of_nat 0 - 0)) with 0. do 3 f_equal. lia.
  - pose proof (string_of_Z_spec z Hpos) as (Hd & Hne & _).
    destruct (chars (string_of_Z z) ++ l) as [|c r] eqn:E.
    { exfalso. destruct (string_of_Z z); done. }
    assert (c <> "-"%char) as Hc.
    { intros ->. destruct (string_of_Z z) as [|d s]; [done|]. injection E as -> _.
      by apply Forall_inv in Hd. }
    replace (match c :: r with "-"%char :: l' => ((-1)%Z, l') | _ => (1%Z, c :: r) end)
      with (1%Z, c :: r).
    2: { destruct c as [[] [] [] [] [] [] [] []]; done. }
    rewrite <- E, Hint by lia. simpl. rewrite Hfrac by done. simpl. rewrite Hexp by done.
    cbv beta iota delta [mbind option_bind].
    rewrite app_nil_r, of_chars_chars, dec_value_string_of_Z by lia.
    change (10 ^ Z.max 0 (0 - Z.of_nat 0))%Z with 1%Z.
    change (Z.to_nat (Z.of_nat 0 - 0)) with 0. do 3 f_equal. lia.
Qed.

Lemma map_of_entries_nodup {V} (l : list (string * V)) :
  NoDup (map fst l) -> map_of_entries l = l.
Proof.
  intros H. unfold map_of_entries.
  assert (forall acc : list (string * V), NoDup (map fst (acc ++ l)) ->
    fold_left (fun m '(k, v) => map_set k v m) l acc = acc ++ l) as Hgen; [|by apply (Hgen [])].
  clear H. induction l as [|[k v] l IH]; intros acc H; [by rewrite app_nil_r|]. simpl.
  assert (map_set k v acc = acc ++ [(k, v)]) as ->.
  { assert (k ∉ map fst acc) as Hk.
    { rewrite map_app in H. apply NoDup_app in H as (_ & H & _). intros Hin. apply (H k Hin). simpl. left. }
    clear -Hk. induction acc as [|[k' v'] acc IH]; [done|]. simpl in *.
    rewrite decide_False by (intros ->; apply Hk; left). rewrite IH; [done|].
    intros Hin. apply Hk. by right. }
  rewrite IH; rewrite <- app_assoc; done.
Qed.

(** Induction on JSON values through arrays and objects. *)
Lemma json_nested_ind (P : json -> Prop) :
  P JNull -> (forall b, P (JBool b)) -> (forall n, P (JNum n)) -> (forall s, P (JStr s)) ->
  (forall l, Forall P l -> P (JArr l)) -> (forall fs, Forall (fun f => P f.2) fs -> P (JObj fs)) ->
  forall v, P v.
Proof.
  intros H1 H2 H3 H4 H5 H6. fix IH 1. intros [|b|n|s|l|fs]; [done|done|done|done| |].
  - apply H5. induction l as [|v l IHl]; constructor; [apply IH|exact IHl].
  - apply H6. induction fs as [|[k v] fs IHl]; constructor; [apply IH|exact IHl].
Qed.

(** A printed value starts with a character that is neither white space nor a
    closing bracket. *)
Lemma print_start v l : exists c r,
  print v ++ l = c :: r /\ is_ws c = false /\ is_char "]" c = false /\ is_char "}" c = false.
Proof.
  assert (forall n, exists c r, print_number n ++ l = c :: r /\
    is_ws c = false /\ is_char "]" c = false /\ is_char "}" c = false) as Hnum.
  { assert (forall z k, exists c r, chars (string_of_Z z) ++ k = c :: r /\
      is_ws c = false /\ is_char "]" c = false /\ is_char "}" c = false) as Hz.
    { intros z k. destruct (Z.ltb_spec z 0).
      - unfold string_of_Z. destruct (Z.ltb_spec z 0); [|lia]. by eexists _, _.
      - destruct (string_of_Z_spec z) as (Hd & Hne & _); [done|].
        destruct (string_of_Z z) as [|c s]; [done|]. eexists _, _. split; [done|].
        apply Forall_inv, is_digit_bounds in Hd. unfold is_ws, is_char. change (code "]") with 93%Z.
        change (code "}") with 125%Z. lia. }
    intros [m k| |neg]; [|(by eexists _, _)..]. simpl. destruct (normalise m k) as [m' [|k']]; [apply Hz|].
    rewrite <- app_assoc. destruct (m' <? 0)%Z; [by eexists _, _|]. rewrite <- app_assoc. apply Hz. }
  destruct v as [|[]|n|s|vs|fs]; [by eexists _, _|by eexists _, _|by eexists _, _|apply Hnum|(by eexists _, _)..].
Qed.

End JsonTextLemmas.

Module JsonTextProperties.
Import JsonTextLemmas.

Definition parses (v : json) : Prop := forall f l,
  depth v <= f -> delimited l = true -> parse_value f (print v ++ l) = Some (v, l).

Lemma commas_cons x y ls : commas (x :: y :: ls) = x ++ ","%char :: commas (y :: ls).
Proof. done. Qed.

Lemma skip_ws_print v l : skip_ws (print v ++ l) = print v ++ l.
Proof.
  destruct (print_start v l) as (c & r & -> & Hw & _). by apply skip_ws_cons.
Qed.

Lemma parse_elements_print vs f l :
  Forall parses vs -> vs <> [] -> list_sum (map (fun v => S (depth v)) vs) <= f ->
  parse_elements f (commas (map print vs) ++ "]"%char :: l) = Some (vs, l).
Proof.
  intros H. revert f. induction H as [|v vs Hv Hvs IH]; intros f Hne Hf; [done|].
  simpl in Hf. destruct f as [|f]; [lia|]. destruct vs as [|w vs].
  - simpl. rewrite Hv by (done || lia). done.
  - rewrite !map_cons, commas_cons, <- app_assoc. cbn [parse_elements app].
    rewrite Hv by (done || (simpl in Hf; lia)). cbn [mbind option_bind].
    change (skip_ws (","%char :: ?r)) with (","%char :: r). cbv iota beta.
    rewrite <- map_cons, IH by (done || (simpl in *; lia)). done.
Qed.

Definition print_field (f : string * json) : list ascii := let '(k, v) := f in quote k ++ ":"%char :: print v.

Lemma parse_members_print fs f l :
  Forall (fun p => parses p.2) fs -> fs <> [] ->
  list_sum (map (fun '(_, v) => S (depth v)) fs) <= f ->
  parse_members f (commas (map print_field fs) ++ "}"%char :: l) = Some (fs, l).
Proof.
  intros H. revert f. induction H as [|[k v] fs Hv Hvs IH]; intros f Hne Hf; [done|].
  simpl in Hf, Hv. destruct f as [|f]; [lia|].
  assert (forall r, parse_members (S f) ((quote k ++ ":"%char :: print v) ++ r) =
    ('(v, r) ← parse_value f (print v ++ r);
     match skip_ws r with
     | ","%char :: r => '(fs, r) ← parse_members f r; Some ((k, v) :: fs, r)
     | "}"%char :: r => Some ([(k, v)], r)
     | _ => None
     end)) as Hstep.
  { intros r. rewrite <- app_assoc. unfold quote. cbn [app parse_members].
    rewrite skip_ws_cons by done. rewrite (proj2 (is_char_eq quo quo) eq_refl).
    rewrite <- app_assoc. cbn [app]. rewrite parse_quote. cbn [mbind option_bind].
    rewrite skip_ws_cons by done. cbv iota beta. by rewrite of_chars_chars. }
  destruct fs as [|[k' v'] fs].
  - cbn [map commas print_field]. rewrite Hstep, Hv by (done || lia). done.
  - rewrite !map_cons, commas_cons, <- app_assoc. cbn [print_field]. rewrite Hstep.
    rewrite Hv by (done || (simpl in Hf; lia)). cbn [mbind option_bind app].
    rewrite skip_ws_cons by done. cbv iota beta.
    change (quote k' ++ ":"%char :: print v') with (print_field (k', v')).
    rewrite <- map_cons, IH by (done || (simpl in *; lia)). done.
Qed.

Lemma parse_print v : json_ok v = true -> parses v.
Proof.
  revert v. apply (json_nested_ind (fun v => json_ok v = true -> parses v)).
  - intros _ [|f] l Hf Hl; [simpl in Hf; lia|done].
  - intros [] _ [|f] l Hf Hl; try (simpl in Hf; lia); done.
  - intros [m k| |neg] Hok [|f] l Hf Hl; try done; [simpl in Hf; lia|].
    simpl in Hok. apply Nat.eqb_eq in Hok as ->.
    pose proof (print_start (JNum (Dec m 0)) l) as (c & r & E & Hw & _).
    cbn [parse_value]. rewrite skip_ws_print, E.
    assert (parse_number (c :: r) = Some (Dec m 0, l)) as Hn.
    { rewrite <- E. by apply parse_print_integer. }
    assert (is_digit c || is_char "-" c = true) as Hc.
    { simpl in E. destruct (Z.ltb_spec m 0).
      - unfold string_of_Z in E. destruct (Z.ltb_spec m 0); [|lia]. injection E as <- _. done.
      - destruct (string_of_Z_spec m) as (Hd & Hne & _); [done|].
        destruct (string_of_Z m); [done|]. injection E as -> _. apply Forall_inv in Hd. by rewrite Hd. }
    assert (forall x, is_digit x || is_char "-" x = false -> is_char x c = false) as Hnot.
    { intros x Hx. apply not_true_iff_false. intros ->%is_char_eq. congruence. }
    rewrite !Hnot by done. rewrite Hn. done.
  - intros s _ [|f] l Hf Hl; [simpl in Hf; lia|]. unfold print, quote. cbn [parse_value app].
    rewrite skip_ws_cons by done. rewrite (proj2 (is_char_eq quo quo) eq_refl).
    rewrite <- app_assoc. cbn [app]. rewrite parse_quote. cbn [mbind option_bind].
    by rewrite of_chars_chars.
  - intros vs Hall Hok [|f] l Hf Hl; [simpl in Hf; lia|]. cbn [print json_ok depth] in *.
    cbn [parse_value app]. rewrite skip_ws_cons by done. cbn [is_char].
    assert (Forall parses vs) as Hp.
    { rewrite forallb_forall in Hok. rewrite Forall_forall in *. intros v Hv.
      apply Hall; [done|]. by apply Hok, list_elem_of_In. }
    rewrite <- app_assoc. cbn [app]. destruct vs as [|v vs]; [done|].
    change (is_char quo "[") with false. change (is_char "[" "[") with true. cbv iota.
    assert (strip ["]"%char] (skip_ws (commas (map print (v :: vs)) ++ "]"%char :: l)) = None) as ->.
    { assert (exists r, commas (map print (v :: vs)) ++ "]"%char :: l = print v ++ r) as [r ->].
      { destruct vs; [by eexists|]. rewrite !map_cons, commas_cons, <- app_assoc. by eexists. }
      rewrite skip_ws_print. destruct (print_start v r) as (c & r' & -> & _ & Hc & _). simpl.
      by rewrite Hc. }
    rewrite parse_elements_print by (done || lia). done.
  - intros fs Hall Hok [|f] l Hf Hl; [simpl in Hf; lia|]. cbn [print json_ok depth] in *.
    apply andb_true_iff in Hok as [Hnd Hok]. apply bool_decide_eq_true in Hnd.
    cbn [parse_value app]. rewrite skip_ws_cons by done.
    assert (Forall (fun p => parses p.2) fs) as Hp.
    { rewrite forallb_forall in Hok. rewrite Forall_forall in *. intros [k v] Hv.
      apply Hall; [done|]. specialize (Hok (k, v)). apply Hok. by apply list_elem_of_In. }
    rewrite <- app_assoc. cbn [app]. destruct fs as [|[k v] fs]; [done|].
    change (is_char quo "{") with false. change (is_char "[" "{") with false.
    change (is_char "{" "{") with true. cbv iota. fold print_field.
    change (fun '(k, v) => quote k ++ ":"%char :: print v) with print_field.
    assert (strip ["}"%char] (skip_ws (commas (map print_field ((k, v) :: fs)) ++ "}"%char :: l)) = None) as ->.
    { assert (exists r, commas (map print_field ((k, v) :: fs)) ++ "}"%char :: l = quo :: r) as [r ->].
      { destruct fs; [by eexists|]. rewrite !map_cons, commas_cons, <- app_assoc. by eexists. }
      done. }
    rewrite parse_members_print by (done || lia). cbn [mbind option_bind].
    by rewrite map_of_entries_nodup.
Qed.

Lemma commas_length ls :
  ls <> [] -> S (length (commas ls)) = list_sum (map (fun l => S (length l)) ls).
Proof.
  induction ls as [|x [|y ls] IH]; intros H; [done|simpl; lia|].
  rewrite commas_cons, length_app. cbn [length]. rewrite IH by done. simpl. lia.
Qed.

Lemma list_sum_le {A} (f g : A -> nat) l :
  Forall (fun x => f x <= g x) l -> list_sum (map f l) <= list_sum (map g l).
Proof. induction 1; simpl; lia. Qed.

Lemma list_sum_double {A} (f : A -> nat) l :
  list_sum (map (fun x => 2 * f x) l) = 2 * list_sum (map f l).
Proof. unfold list_sum. induction l; cbn [map fold_right]; lia. Qed.

(** A nested value prints at least half as long as its depth. *)
Lemma depth_bound v : depth v <= 2 * length (print v).
Proof.
  assert (forall l, commas l = [] \/ l <> []) as Hc by (intros []; [by left|by right]).
  revert v. apply json_nested_ind.
  - simpl. lia.
  - intros []; simpl; lia.
  - intros n. destruct (print_start (JNum n) []) as (c & r & E & _). rewrite app_nil_r in E.
    rewrite E. simpl. lia.
  - intros s. simpl. lia.
  - intros l H. cbn [depth print]. cbn [length]. rewrite length_app. cbn [length].
    destruct l as [|v l]; [simpl; lia|].
    pose proof (commas_length (map print (v :: l)) ltac:(done)) as Hl. rewrite map_map in Hl.
    pose proof (list_sum_le (fun v => S (depth v)) (fun v => 2 * S (length (print v))) (v :: l)) as Hle.
    rewrite list_sum_double in Hle. specialize (Hle ltac:(eapply Forall_impl; [exact H|]; simpl; lia)). lia.
  - intros fs H. cbn [depth print]. cbn [length]. rewrite length_app. cbn [length].
    destruct fs as [|f fs]; [simpl; lia|]. fold print_field.
    change (fun '(k, v) => quote k ++ ":"%char :: print v) with print_field.
    pose proof (commas_length (map print_field (f :: fs)) ltac:(done)) as Hl. rewrite map_map in Hl.
    pose proof (list_sum_le (fun '(_, v) => S (depth v)) (fun p => 2 * S (length (print_field p))) (f :: fs)) as Hle.
    rewrite list_sum_double in Hle.
    specialize (Hle ltac:(eapply Forall_impl; [exact H|]; intros [k v]; simpl;
      rewrite ?length_app; simpl; lia)). lia.
Qed.

(** [JSON.parse] reads back what [JSON.stringify] printed. *)
Lemma parse_stringify v : json_ok v = true -> JSON_parse (JSON_stringify v) = Some v.
Proof.
  intros H. unfold JSON_parse, JSON_stringify. rewrite chars_of_chars, length_of_chars.
  pose proof (parse_print v H (2 * length (print v) + 2) []) as Hp. rewrite app_nil_r in Hp.
  rewrite Hp; [done|pose proof (depth_bound v); lia|done].
Qed.

Lemma utf8_char_back c k : utf8_chars (utf8_char c ++ k) = (s ← utf8_chars k; Some (c :: s)).
Proof.
  unfold utf8_char. pose proof (code_bounds c). destruct (Z.ltb_spec (code c) 128).
  - simpl. destruct (Z.ltb_spec (code c) 128); [|lia]. by rewrite chr_code.
  - pose proof (Z.div_mod (code c) 64 ltac:(lia)). pose proof (Z.mod_pos_bound (code c) 64 ltac:(lia)).
    simpl. destruct (Z.ltb_spec (192 + code c / 64) 128); [lia|].
    destruct (_ && _)%Z eqn:E; [|lia].
    replace ((192 + code c / 64 - 192) * 64 + (128 + code c mod 64 - 128))%Z with (code c) by lia.
    by rewrite chr_code.
Qed.

Lemma utf8_roundtrip s : utf8_decode (utf8_encode s) = Some s.
Proof.
  unfold utf8_decode, utf8_encode.
  assert (forall l, utf8_chars (flat_map utf8_char l) = Some l) as H.
  { induction l as [|c l IH]; [done|]. cbn [flat_map]. by rewrite utf8_char_back, IH. }
  rewrite H. simpl. by rewrite of_chars_chars.
Qed.

Lemma utf8_encode_bytes s : Forall (fun b => (0 <= b < 256)%Z) (utf8_encode s).
Proof.
  unfold utf8_encode. induction (chars s) as [|c l IH]; [constructor|]. simpl. apply Forall_app.
  split; [|done]. unfold utf8_char. pose proof (code_bounds c).
  pose proof (Z.div_mod (code c) 64 ltac:(lia)). pose proof (Z.mod_pos_bound (code c) 64 ltac:(lia)).
  destruct (Z.ltb_spec (code c) 128); repeat constructor; lia.
Qed.

End JsonTextProperties.
