(* ===== verification/Base64Url.v ===== *)
(** * Base64url ([packages/sync-engine/src/base64url.ts])

    [encodeBase64Url] and [decodeBase64Url] on byte arrays (bytes are integers
    0..255).  [toBase64] and [fromBase64] go through the runtime's [btoa] and
    [atob]; the model is the forgiving-base64 algorithm of the WHATWG standard
    (Node's [Buffer] gives the same results on well-formed text). *)

From S2P Require Import Prelude JsValues.
From Stdlib Require Import Ascii.

Definition byte (b : Z) : Prop := (0 <= b < 256)%Z.

Lemma bytes_check l : forallb (fun b => (0 <=? b) && (b <? 256))%Z l = true -> Forall byte l.
Proof.
  intros H. apply Forall_forall. intros b Hb. rewrite forallb_forall in H.
  apply list_elem_of_In, H in Hb. unfold byte. lia.
Qed.

(** ** The runtime's base64 *)

(** The 64 digits: [A-Z], [a-z], [0-9], [+], [/]. *)
Definition base64_char (v : Z) : ascii :=
  ascii_of_N (Z.to_N
    (if (v <? 26)%Z then 65 + v
     else if (v <? 52)%Z then 71 + v
     else if (v <? 62)%Z then v - 4
     else if (v =? 62)%Z then 43 else 47)%Z).

Definition base64_value (c : ascii) : option Z :=
  let n := code c in
  if in_range 65 90 c then Some (n - 65)%Z
  else if in_range 97 122 c then Some (n - 71)%Z
  else if in_range 48 57 c then Some (n + 4)%Z
  else if (n =? 43)%Z then Some 62%Z
  else if (n =? 47)%Z then Some 63%Z
  else None.

(** [btoa]: each three bytes give four digits; the last one or two bytes give
    two or three digits and [=] up to four. *)
Fixpoint btoa (l : list Z) : list ascii :=
  match l with
  | a :: b :: c :: l' =>
      base64_char (a / 4) :: base64_char (a mod 4 * 16 + b / 16) ::
      base64_char (b mod 16 * 4 + c / 64) :: base64_char (c mod 64) :: btoa l'
  | [a; b] =>
      [base64_char (a / 4); base64_char (a mod 4 * 16 + b / 16); base64_char (b mod 16 * 4); "="%char]
  | [a] => [base64_char (a / 4); base64_char (a mod 4 * 16); "="%char; "="%char]
  | [] => []
  end%Z.

(** The digits of a text without padding, to bytes; spare bits are dropped and
    a single digit left over is an error. *)
Fixpoint decode_digits (l : list Z) : option (list Z) :=
  match l with
  | a :: b :: c :: d :: l' =>
      rest ← decode_digits l';
      Some ((a * 4 + b / 16) :: (b mod 16 * 16 + c / 4) :: (c mod 4 * 64 + d) :: rest)
  | [a; b; c] => Some [a * 4 + b / 16; b mod 16 * 16 + c / 4]
  | [a; b] => Some [a * 4 + b / 16]
  | [_] => None
  | [] => Some []
  end%Z.

(** ASCII white space (tab, line feed, form feed, carriage return, space). *)
Definition is_ascii_space (c : ascii) : bool :=
  ((code c =? 9) || (code c =? 10) || (code c =? 12) || (code c =? 13) || (code c =? 32))%Z.

(** One or two [=] at the end of a text of a length divisible by four. *)
Definition strip_padding (l : list ascii) : list ascii :=
  if (Z.of_nat (length l) mod 4 =? 0)%Z then
    match rev l with
    | c :: d :: r =>
        if is_char "=" c then (if is_char "=" d then rev r else rev (d :: r)) else l
    | _ => l
    end
  else l.

(** [atob] *)
Definition atob (l : list ascii) : result error (list Z) :=
  match mapM base64_value (strip_padding (filter (fun c => is_ascii_space c = false) l)) ≫= decode_digits with
  | Some bytes => Ok bytes
  | None => Err (PlainError "InvalidCharacterError")
  end.

(** ** The module's functions *)

Definition toBase64 (bytes : list Z) : list ascii := btoa bytes.
Definition fromBase64 (value : list ascii) : result error (list Z) := atob value.

(** [.replace(/x/g, 'y')] *)
Definition replace_char (x y : ascii) (l : list ascii) : list ascii :=
  map (fun c => if is_char x c then y else c) l.

(** [.replace(/=+$/g, '')] *)
Fixpoint drop_equals (l : list ascii) : list ascii :=
  match l with
  | c :: l' => if is_char "=" c then drop_equals l' else l
  | [] => []
  end.
Definition drop_trailing_equals (l : list ascii) : list ascii := rev (drop_equals (rev l)).

Definition encodeBase64Url (bytes : list Z) : string :=
  of_chars (drop_trailing_equals (replace_char "/" "_" (replace_char "+" "-" (toBase64 bytes)))).

Definition decodeBase64Url (value : string) : result error (list Z) :=
  let normalized := replace_char "_" "/" (replace_char "-" "+" (chars value)) in
  let paddingLength := ((4 - Z.of_nat (length normalized) mod 4) mod 4)%Z in
  fromBase64 (normalized ++ replicate (Z.to_nat paddingLength) "="%char).

(** ** Lemmas *)

Module Base64UrlProperties.

Definition sextet (v : Z) : Prop := (0 <= v < 64)%Z.

(** All 64 digits at once. *)
Lemma sextet_cases (P : Z -> Prop) :
  Forall P (Z.of_nat <$> seq 0 64) -> forall v, sextet v -> P v.
Proof.
  intros H v [? ?]. rewrite Forall_forall in H. apply H.
  apply list_elem_of_fmap. exists (Z.to_nat v). split; [lia|]. apply elem_of_seq. lia.
Qed.

Definition digit (c : ascii) : Prop :=
  is_ascii_space c = false /\ is_char "=" c = false /\ is_char "-" c = false /\ is_char "_" c = false.

Lemma base64_char_facts v : sextet v ->
  base64_value (base64_char v) = Some v /\ digit (base64_char v).
Proof.
  revert v. apply (sextet_cases (fun v => base64_value (base64_char v) = Some v /\ digit (base64_char v))).
  unfold digit. repeat (apply Forall_cons; split; [by repeat split|]). apply Forall_nil_2.
Qed.

(** The digits [btoa] writes, without the padding. *)
Fixpoint sextets (l : list Z) : list Z :=
  match l with
  | a :: b :: c :: l' =>
      a / 4 :: (a mod 4 * 16 + b / 16) :: (b mod 16 * 4 + c / 64) :: c mod 64 :: sextets l'
  | [a; b] => [a / 4; a mod 4 * 16 + b / 16; b mod 16 * 4]
  | [a] => [a / 4; a mod 4 * 16]
  | [] => []
  end%Z.

(** Induction three bytes at a time. *)
Lemma triple_ind (P : list Z -> Prop) :
  P [] -> (forall a, P [a]) -> (forall a b, P [a; b]) ->
  (forall a b c l, P l -> P (a :: b :: c :: l)) -> forall l, P l.
Proof.
  intros H0 H1 H2 H3.
  assert (forall n l, length l <= n -> P l) as H; [|intros l; by apply (H (length l))].
  induction n as [|n IH]; intros [|a [|b [|c l]]] Hl; simpl in *; try done; try lia.
  apply H3, IH. lia.
Qed.

Lemma div_mod_byte b k : byte b -> (0 < k)%Z ->
  (b = k * (b / k) + b mod k /\ 0 <= b mod k < k /\ 0 <= b / k)%Z.
Proof.
  unfold byte. intros. split; [apply Z.div_mod; lia|]. split; [apply Z.mod_pos_bound; lia|].
  apply Z.div_pos; lia.
Qed.

(** The quotients and remainders the two directions take of a byte. *)
Ltac bytes :=
  repeat match goal with
  | H : Forall byte (_ :: _) |- _ => apply Forall_cons in H as [? H]
  | H : byte ?b |- _ =>
      pose proof (div_mod_byte b 4 H ltac:(lia)); pose proof (div_mod_byte b 16 H ltac:(lia));
      pose proof (div_mod_byte b 64 H ltac:(lia)); unfold byte in H
  end.

Lemma sextets_ok l : Forall byte l -> Forall sextet (sextets l).
Proof.
  revert l. apply (triple_ind (fun l => Forall byte l -> Forall sextet (sextets l))); unfold sextet;
    intros; simpl; bytes; repeat (apply Forall_cons; split; [lia|]); auto.
Qed.

Lemma div_add_small a q r k : (a = k * q + r)%Z -> (0 <= r < k)%Z -> (a / k = q /\ a mod k = r)%Z.
Proof.
  intros -> Hr. split; [symmetry; by apply (Z.div_unique_pos _ _ _ r)|
    symmetry; by apply (Z.mod_unique_pos _ _ q)].
Qed.

Lemma decode_sextets l : Forall byte l -> decode_digits (sextets l) = Some l.
Proof.
  revert l. apply (triple_ind (fun l => Forall byte l -> decode_digits (sextets l) = Some l));
    intros; simpl; bytes; [done| | |].
  - destruct (div_add_small (a mod 4 * 16) (a mod 4) 0 16) as [-> _]; [lia|lia|]. do 2 f_equal. lia.
  - destruct (div_add_small (a mod 4 * 16 + b / 16) (a mod 4) (b / 16) 16) as [-> ->]; [lia|lia|].
    destruct (div_add_small (b mod 16 * 4) (b mod 16) 0 4) as [-> _]; [lia|lia|].
    do 2 f_equal; [lia|]. f_equal. lia.
  - destruct (div_add_small (a mod 4 * 16 + b / 16) (a mod 4) (b / 16) 16) as [-> ->]; [lia|lia|].
    destruct (div_add_small (b mod 16 * 4 + c / 64) (b mod 16) (c / 64) 4) as [-> ->]; [lia|lia|].
    rewrite H by done. simpl. do 2 f_equal; [lia|]. f_equal; [lia|]. f_equal. lia.
Qed.

Definition padding (l : list Z) : list ascii :=
  replicate (Z.to_nat ((4 - Z.of_nat (length (sextets l)) mod 4) mod 4)) "="%char.

Lemma length_sextets_mod a b c l :
  (Z.of_nat (length (sextets (a :: b :: c :: l))) mod 4 = Z.of_nat (length (sextets l)) mod 4)%Z.
Proof.
  change (length (sextets (a :: b :: c :: l))) with (4 + length (sextets l)).
  rewrite Nat2Z.inj_add, <- Zplus_mod_idemp_l. done.
Qed.

Lemma btoa_sextets l : btoa l = map base64_char (sextets l) ++ padding l.
Proof.
  revert l. apply triple_ind; try done. intros a b c l IH.
  unfold padding. rewrite length_sextets_mod. fold (padding l). simpl. by rewrite IH.
Qed.

(** Four digits to the group, never a single one left over. *)
Lemma sextets_padding l : exists k,
  (Z.of_nat (length (sextets l) + length (padding l)) = 4 * k)%Z /\ length (padding l) <= 2 /\
  (Z.of_nat (length (padding l)) = (4 - Z.of_nat (length (sextets l)) mod 4) mod 4)%Z.
Proof.
  revert l. apply triple_ind.
  { exists 0%Z. repeat split; simpl; lia. }
  { intros a. exists 1%Z. repeat split; simpl; lia. }
  { intros a b. exists 1%Z. repeat split; simpl; lia. }
  intros a b c l (k & H1 & H2 & H3). exists (1 + k)%Z.
  unfold padding. rewrite length_sextets_mod. fold (padding l). split; [|by split].
  change (length (sextets (a :: b :: c :: l))) with (4 + length (sextets l)). lia.
Qed.

Lemma replace_none x y l : Forall (fun c => is_char x c = false) l -> replace_char x y l = l.
Proof.
  induction 1 as [|c l Hc Hl IH]; [done|]. unfold replace_char in *. simpl. by rewrite Hc, IH.
Qed.

(** Replacing a digit that does not occur and back again. *)
Lemma replace_back x y l :
  Forall (fun c => is_char y c = false) l -> replace_char y x (replace_char x y l) = l.
Proof.
  induction 1 as [|c l Hc Hl IH]; [done|]. unfold replace_char in *. simpl.
  rewrite IH. f_equal. destruct (is_char x c) eqn:E.
  - rewrite (proj2 (is_char_eq y y) eq_refl). symmetry. by apply is_char_eq.
  - by rewrite Hc.
Qed.

Lemma replace_app x y l k : replace_char x y (l ++ k) = replace_char x y l ++ replace_char x y k.
Proof. apply map_app. Qed.

Lemma rev_replicate_equals n : rev (replicate n "="%char) = replicate n "="%char.
Proof.
  induction n as [|n IH]; [done|]. simpl. rewrite IH. clear. induction n as [|n IH]; [done|].
  simpl. by rewrite IH.
Qed.

Lemma drop_trailing_digits l n :
  Forall (fun c => is_char "=" c = false) l -> drop_trailing_equals (l ++ replicate n "="%char) = l.
Proof.
  intros Hl. unfold drop_trailing_equals. rewrite rev_app_distr, rev_replicate_equals.
  replace (drop_equals (replicate n "="%char ++ rev l)) with (drop_equals (rev l))
    by (induction n; simpl; done).
  destruct (rev l) as [|c r] eqn:E.
  - apply (f_equal (@rev ascii)) in E. by rewrite rev_involutive in E.
  - simpl. assert (is_char "=" c = false) as ->.
    { rewrite Forall_forall in Hl. apply Hl, list_elem_of_In, in_rev. rewrite E. by left. }
    rewrite <- E. apply rev_involutive.
Qed.

Lemma strip_padding_digits l n k :
  Forall (fun c => is_char "=" c = false) l -> n <= 2 ->
  (Z.of_nat (length l + n) = 4 * k)%Z -> strip_padding (l ++ replicate n "="%char) = l.
Proof.
  intros Hl Hn Hk. unfold strip_padding. rewrite length_app, length_replicate, Hk.
  replace (4 * k)%Z with (k * 4)%Z by lia. rewrite Z.mod_mul by lia. simpl.
  rewrite rev_app_distr, rev_replicate_equals.
  assert (forall c r, rev l = c :: r -> is_char "=" c = false) as Hlast.
  { intros c r E. rewrite Forall_forall in Hl. apply Hl, list_elem_of_In, in_rev. rewrite E. by left. }
  destruct n as [|[|[|]]]; [| | |lia].
  - rewrite app_nil_r. simpl. destruct (rev l) as [|c [|d r]] eqn:E; try done.
    by rewrite (Hlast _ _ eq_refl).
  - simpl. destruct (rev l) as [|c r] eqn:E; [simpl in *; apply (f_equal length) in E;
      rewrite length_rev in E; simpl in E; lia|].
    simpl. rewrite (Hlast _ _ eq_refl). change (rev (c :: r) = l). rewrite <- E. apply rev_involutive.
  - simpl. apply rev_involutive.
Qed.

Lemma mapM_digits l : Forall sextet l -> mapM base64_value (map base64_char l) = Some l.
Proof.
  induction 1 as [|v l Hv Hl IH]; [done|]. simpl.
  destruct (base64_char_facts v Hv) as [-> _]. simpl. by rewrite IH.
Qed.

Lemma digits_of l : Forall sextet l -> Forall digit (map base64_char l).
Proof. intros H. apply Forall_map. eapply Forall_impl; [done|]. intros v Hv. by apply base64_char_facts. Qed.

Definition url_safe (c : ascii) : Prop :=
  is_char "+" c = false /\ is_char "/" c = false /\ is_char "=" c = false.

Lemma replace_url_safe l : Forall digit l ->
  Forall url_safe (replace_char "/" "_" (replace_char "+" "-" l)).
Proof.
  intros H. unfold replace_char. apply Forall_map, Forall_map. eapply Forall_impl; [exact H|].
  intros c (_ & He & _ & _). unfold url_safe. destruct (is_char "+" c) eqn:E1; [done|].
  by destruct (is_char "/" c) eqn:E2.
Qed.

Lemma encode_digits l : Forall byte l ->
  encodeBase64Url l = of_chars (replace_char "/" "_" (replace_char "+" "-" (map base64_char (sextets l)))).
Proof.
  intros H. unfold encodeBase64Url, toBase64. rewrite btoa_sextets, !replace_app.
  assert (forall x y n, is_char x "=" = false ->
    replace_char x y (replicate n "="%char) = replicate n "="%char) as Hpad.
  { intros x y n E. apply replace_none. apply Forall_replicate. done. }
  unfold padding. rewrite !Hpad by done. f_equal. apply drop_trailing_digits.
  eapply Forall_impl; [apply replace_url_safe, digits_of, sextets_ok, H|]. by intros c (_ & _ & ?).
Qed.

(** The four replacements, encoding and decoding, cancel on a digit. *)
Lemma replace_url l : Forall digit l ->
  replace_char "_" "/" (replace_char "-" "+" (replace_char "/" "_" (replace_char "+" "-" l))) = l.
Proof.
  induction 1 as [|c l (_ & _ & Hm & Hu) Hl IH]; [done|]. unfold replace_char in *. simpl.
  rewrite IH. f_equal. destruct (is_char "+" c) eqn:E1.
  - apply is_char_eq in E1. by subst.
  - destruct (is_char "/" c) eqn:E2.
    + apply is_char_eq in E2. by subst.
    + by rewrite Hm, Hu.
Qed.

Lemma filter_digits l n : Forall digit l ->
  filter (fun c => is_ascii_space c = false) (l ++ replicate n "="%char) = l ++ replicate n "="%char.
Proof.
  intros H. assert (forall k : list ascii, Forall (fun c => is_ascii_space c = false) k ->
    filter (fun c => is_ascii_space c = false) k = k) as Hk.
  { clear. induction 1 as [|c k Hc Hk IH]; [done|]. rewrite filter_cons_True by done. by rewrite IH. }
  apply Hk, Forall_app. split; [|by apply Forall_replicate].
  eapply Forall_impl; [exact H|]. by intros c (? & _).
Qed.

Lemma base64url_roundtrip_lemma (l : list Z) :
  Forall byte l ->
  decodeBase64Url (encodeBase64Url l) = Ok l /\ Forall url_safe (chars (encodeBase64Url l)).
Proof.
  intros H. rewrite (encode_digits l H). pose proof (digits_of _ (sextets_ok l H)) as Hd.
  rewrite chars_of_chars. split; [|by apply replace_url_safe].
  unfold decodeBase64Url. rewrite chars_of_chars, replace_url by done.
  rewrite length_map. change (replicate _ _) with (padding l).
  destruct (sextets_padding l) as (k & Hk & Hle & _).
  unfold fromBase64, atob, padding in *. rewrite filter_digits by done.
  rewrite length_replicate in *.
  rewrite (strip_padding_digits _ _ k); [|eapply Forall_impl; [exact Hd|]; by intros c (_ & ? & _)|done|
    rewrite length_map; done].
  rewrite mapM_digits by (by apply sextets_ok). simpl. by rewrite decode_sextets.
Qed.

(** Bytes encoded in base64url decode to themselves, and the text holds no plus, slash
    or equals sign. *)
Theorem base64url_roundtrip (l : list Z) :
  Forall byte l ->
  decodeBase64Url (encodeBase64Url l) = Ok l /\
  Forall (fun c => is_char "+" c = false /\ is_char "/" c = false /\ is_char "=" c = false)
    (chars (encodeBase64Url l)).
Proof. exact (base64url_roundtrip_lemma l). Qed.

End Base64UrlProperties.

(** ** Witnesses *)

Module Base64UrlWitnesses.

Lemma base64url_roundtrip_witness :
  encodeBase64Url [251; 239; 255; 7]%Z = "--__Bw" /\
  decodeBase64Url (encodeBase64Url [251; 239; 255; 7]%Z) = Ok [251; 239; 255; 7]%Z.
Proof.
  split; [reflexivity|]. apply Base64UrlProperties.base64url_roundtrip.
  repeat (apply Forall_cons; split; [unfold byte; lia|]). apply Forall_nil_2.
Defined.

Example malformed : decodeBase64Url "a" = Err (PlainError "InvalidCharacterError").
Proof. reflexivity. Qed.

End Base64UrlWitnesses.
