(* ===== verification/Crypto.v ===== *)
(** * Authenticated encryption of event payloads

    [CryptoServicePort.encrypt] and [decrypt] (packages/application) as an
    interface with its laws, and its implementations [WebCryptoService] and
    [NodeCryptoService] (packages/infrastructure/src/crypto) over AES-GCM,
    which is a parameter: the browser's Web Crypto or Node's [crypto].  Random
    bytes are an argument.  [eciesEnvelope.ts], the layout of wrapped keys, is
    here too. *)

From S2P Require Import Prelude JsValues Base64Url.

Definition IV_LENGTH : nat := 12.
Definition KEY_LENGTH : nat := 32.
Definition TAG_LENGTH : nat := 16.

(** What the services promise: a ciphertext opens to its plaintext under the
    same key and additional data, and what has been opened can be sealed again
    under other additional data. *)
Class CryptoServicePort : Type := {
  encrypt : list Z -> list Z -> list Z -> option (list Z) -> result error (list Z);
  decrypt : list Z -> list Z -> option (list Z) -> result error (list Z);
  decrypt_encrypt iv plaintext key aad ciphertext :
    length iv = IV_LENGTH -> plaintext <> [] ->
    encrypt iv plaintext key aad = Ok ciphertext -> decrypt ciphertext key aad = Ok plaintext;
  reencrypt iv ciphertext key aad aad' plaintext :
    length iv = IV_LENGTH -> decrypt ciphertext key aad = Ok plaintext ->
    exists ciphertext', encrypt iv plaintext key aad' = Ok ciphertext' /\
      decrypt ciphertext' key aad' = Ok plaintext
}.

(** AES-GCM with a 128-bit tag, appended to the ciphertext. *)
Record AesGcm : Type := Gcm {
  seal : list Z -> list Z -> option (list Z) -> list Z -> list Z;
  open : list Z -> list Z -> option (list Z) -> list Z -> option (list Z);
  open_seal key iv aad p : open key iv aad (seal key iv aad p) = Some p;
  length_seal key iv aad p : length (seal key iv aad p) = length p + TAG_LENGTH;
  length_open key iv aad c p : open key iv aad c = Some p -> length c = length p + TAG_LENGTH
}.

Definition key_error {A} : result error A := Err (PlainError "Invalid key length: expected 32 bytes").

(** ** [WebCryptoService.ts] *)

Module WebCryptoService.
Section Service.
Variable aes : AesGcm.

Definition ensureKeyLength (key : list Z) : result error unit :=
  if decide (length key = KEY_LENGTH) then Ok tt else key_error.

Definition encrypt (iv plaintext key : list Z) (aad : option (list Z)) : result error (list Z) :=
  _ ← ensureKeyLength key;
  Ok (iv ++ seal aes key iv aad plaintext).

Definition decrypt (ciphertext key : list Z) (aad : option (list Z)) : result error (list Z) :=
  _ ← ensureKeyLength key;
  if decide (length ciphertext <= IV_LENGTH) then Err (PlainError "Ciphertext too short")
  else
    match open aes key (take IV_LENGTH ciphertext) aad (drop IV_LENGTH ciphertext) with
    | Some plaintext => Ok plaintext
    | None => Err (PlainError "OperationError")
    end.

Lemma web_decrypt_encrypt iv plaintext key aad ciphertext :
  length iv = IV_LENGTH ->
  encrypt iv plaintext key aad = Ok ciphertext -> decrypt ciphertext key aad = Ok plaintext.
Proof.
  intros Hiv. unfold encrypt, decrypt. destruct (ensureKeyLength key) as [u|]; [|done]. simpl.
  intros [= <-]. rewrite decide_False.
  - by rewrite take_app_length', drop_app_length', open_seal.
  - rewrite length_app, length_seal, Hiv. unfold TAG_LENGTH. lia.
Qed.

Lemma web_reencrypt iv ciphertext key aad aad' plaintext :
  length iv = IV_LENGTH -> decrypt ciphertext key aad = Ok plaintext ->
  exists ciphertext', encrypt iv plaintext key aad' = Ok ciphertext' /\
    decrypt ciphertext' key aad' = Ok plaintext.
Proof.
  intros Hiv Hd. assert (exists c, encrypt iv plaintext key aad' = Ok c) as [c Hc].
  { unfold encrypt, decrypt in *. destruct (ensureKeyLength key); [by eexists|done]. }
  exists c. split; [done|]. by eapply web_decrypt_encrypt.
Qed.

#[export] Instance service : CryptoServicePort := {|
  Crypto.encrypt := encrypt;
  Crypto.decrypt := decrypt;
  Crypto.decrypt_encrypt iv p k a c Hiv _ := web_decrypt_encrypt iv p k a c Hiv;
  Crypto.reencrypt := web_reencrypt
|}.
End Service.
End WebCryptoService.

(** ** [NodeCryptoService.ts]: the same layout, but a ciphertext of an empty
    plaintext is refused as too short. *)

Module NodeCryptoService.
Section Service.
Variable aes : AesGcm.

Definition assertKeyLength (key : list Z) : result error unit :=
  if decide (length key = KEY_LENGTH) then Ok tt else key_error.

Definition encrypt (iv plaintext key : list Z) (aad : option (list Z)) : result error (list Z) :=
  _ ← assertKeyLength key;
  Ok (iv ++ seal aes key iv aad plaintext).

Definition decrypt (ciphertext key : list Z) (aad : option (list Z)) : result error (list Z) :=
  _ ← assertKeyLength key;
  if decide (length ciphertext < IV_LENGTH + TAG_LENGTH + 1) then Err (PlainError "Ciphertext too short")
  else
    match open aes key (take IV_LENGTH ciphertext) aad (drop IV_LENGTH ciphertext) with
    | Some plaintext => Ok plaintext
    | None => Err (PlainError "Unsupported state or unable to authenticate data")
    end.

Lemma node_decrypt_encrypt iv plaintext key aad ciphertext :
  length iv = IV_LENGTH -> plaintext <> [] ->
  encrypt iv plaintext key aad = Ok ciphertext -> decrypt ciphertext key aad = Ok plaintext.
Proof.
  intros Hiv Hne. unfold encrypt, decrypt. destruct (assertKeyLength key) as [u|]; [|done]. simpl.
  intros [= <-]. rewrite decide_False.
  - by rewrite take_app_length', drop_app_length', open_seal.
  - rewrite length_app, length_seal, Hiv. destruct plaintext; [done|]. cbn [length]. unfold IV_LENGTH, TAG_LENGTH. lia.
Qed.

Lemma node_reencrypt iv ciphertext key aad aad' plaintext :
  length iv = IV_LENGTH -> decrypt ciphertext key aad = Ok plaintext ->
  exists ciphertext', encrypt iv plaintext key aad' = Ok ciphertext' /\
    decrypt ciphertext' key aad' = Ok plaintext.
Proof.
  intros Hiv Hd. assert (exists c, encrypt iv plaintext key aad' = Ok c) as [c Hc].
  { unfold encrypt, decrypt in *. destruct (assertKeyLength key); [by eexists|done]. }
  exists c. split; [done|]. eapply node_decrypt_encrypt; [done| |done]. intros ->.
  unfold decrypt in Hd. destruct (assertKeyLength key) as [u|]; [|done]. simpl in Hd.
  case_decide; [done|]. destruct (open _ _ _ _ _) eqn:E; [|done].
  apply length_open in E. rewrite length_drop in E. injection Hd as ->. simpl in E.
  unfold IV_LENGTH, TAG_LENGTH in *. lia.
Qed.

#[export] Instance service : CryptoServicePort := {|
  Crypto.encrypt := encrypt;
  Crypto.decrypt := decrypt;
  Crypto.decrypt_encrypt := node_decrypt_encrypt;
  Crypto.reencrypt := node_reencrypt
|}.
End Service.
End NodeCryptoService.

(** ** [eciesEnvelope.ts]: [ephemeral public key (65) | iv (12) | ciphertext and tag] *)

Module Ecies.

Definition EPHEMERAL_LENGTH : nat := 65.

Definition encodeEnvelope (ephemeralRaw iv ciphertext : list Z) : result error (list Z) :=
  if negb (length ephemeralRaw =? EPHEMERAL_LENGTH)%nat
  then Err (PlainError "Invalid ephemeral public key length")
  else if negb (length iv =? IV_LENGTH)%nat then Err (PlainError "Invalid IV length")
  else Ok (ephemeralRaw ++ iv ++ ciphertext).

Definition decodeEnvelope (wrappedKey : list Z) : result error (list Z * list Z * list Z) :=
  if (length wrappedKey <=? EPHEMERAL_LENGTH + IV_LENGTH)%nat
  then Err (PlainError "Wrapped key too short")
  else Ok (take EPHEMERAL_LENGTH wrappedKey,
           take IV_LENGTH (drop EPHEMERAL_LENGTH wrappedKey),
           drop (EPHEMERAL_LENGTH + IV_LENGTH) wrappedKey).

Lemma decode_encode e iv c w : c <> [] -> encodeEnvelope e iv c = Ok w -> decodeEnvelope w = Ok (e, iv, c).
Proof.
  intros Hc. unfold encodeEnvelope.
  destruct (Nat.eqb_spec (length e) EPHEMERAL_LENGTH) as [He|]; [|done].
  destruct (Nat.eqb_spec (length iv) IV_LENGTH) as [Hi|]; [|done]. cbn [negb]. intros [= <-].
  unfold decodeEnvelope. rewrite (proj2 (Nat.leb_gt _ _)).
  - rewrite app_assoc at 3. rewrite take_app_length', drop_app_length' by done.
    rewrite take_app_length' by done. do 2 f_equal. apply drop_app_length'.
    rewrite length_app. by rewrite He, Hi.
  - rewrite !length_app, He, Hi. destruct c; [done|]. cbn [length]. lia.
Qed.

End Ecies.

(** A stand-in for AES-GCM that satisfies its laws, for the witnesses: the
    tag is the text's additional data cut to 16 bytes. *)
Module ToyGcm.

Definition tag (aad : option (list Z)) : list Z := take 16 (default [] aad ++ replicate 16 0%Z).

Definition toy_open (aad : option (list Z)) (c : list Z) : option (list Z) :=
  if decide (TAG_LENGTH <= length c /\ drop (length c - TAG_LENGTH) c = tag aad)
  then Some (take (length c - TAG_LENGTH) c) else None.

Lemma length_tag aad : length (tag aad) = TAG_LENGTH.
Proof. unfold tag. rewrite length_take, length_app, length_replicate. unfold TAG_LENGTH. lia. Qed.

Lemma toy_open_seal aad p : toy_open aad (p ++ tag aad) = Some p.
Proof.
  unfold toy_open. rewrite length_app, length_tag.
  replace (length p + TAG_LENGTH - TAG_LENGTH) with (length p) by lia.
  rewrite decide_True; [by rewrite take_app_length|]. split; [lia|apply drop_app_length].
Qed.

Lemma toy_length_open aad c p : toy_open aad c = Some p -> length c = length p + TAG_LENGTH.
Proof. unfold toy_open. case_decide; [|done]. intros [= <-]. rewrite length_take. lia. Qed.

Definition toy : AesGcm := {|
  seal _ _ aad p := p ++ tag aad;
  open _ _ aad c := toy_open aad c;
  open_seal _ _ aad p := toy_open_seal aad p;
  length_seal _ _ aad p := eq_trans (length_app p (tag aad)) (f_equal (Nat.add (length p)) (length_tag aad));
  length_open _ _ aad c p := toy_length_open aad c p
|}.

End ToyGcm.

Module CryptoProperties.

(** With a key of 32 bytes the browser's and Node's services produce the same
    ciphertext (nonce, data, tag: 28 bytes more than the plaintext) and both open it, except
    that Node's refuses the ciphertext of an empty plaintext; with any other key length both
    refuse to encrypt. *)
Theorem payload_encryption (aes : AesGcm) (iv plaintext key : list Z) (aad : option (list Z)) :
  length iv = IV_LENGTH ->
  if decide (length key = KEY_LENGTH)
  then exists c, WebCryptoService.encrypt aes iv plaintext key aad = Ok c /\
       NodeCryptoService.encrypt aes iv plaintext key aad = Ok c /\
       length c = length plaintext + 28 /\
       WebCryptoService.decrypt aes c key aad = Ok plaintext /\
       NodeCryptoService.decrypt aes c key aad =
         match plaintext with [] => Err (PlainError "Ciphertext too short") | _ => Ok plaintext end
  else WebCryptoService.encrypt aes iv plaintext key aad = key_error /\
       NodeCryptoService.encrypt aes iv plaintext key aad = key_error.
Proof.
  intros Hiv. unfold WebCryptoService.encrypt, NodeCryptoService.encrypt,
    WebCryptoService.ensureKeyLength, NodeCryptoService.assertKeyLength.
  destruct (decide (length key = KEY_LENGTH)) as [Hk|]; [|done].
  eexists. split; [done|]. split; [done|]. split; [|split].
  - rewrite length_app, length_seal, Hiv. unfold IV_LENGTH, TAG_LENGTH. lia.
  - eapply WebCryptoService.web_decrypt_encrypt; [done|].
    unfold WebCryptoService.encrypt, WebCryptoService.ensureKeyLength. by rewrite decide_True.
  - destruct plaintext as [|b p].
    + unfold NodeCryptoService.decrypt, NodeCryptoService.assertKeyLength.
      destruct (decide (length key = KEY_LENGTH)); [|done]. cbn [mbind result_bind].
      rewrite decide_True; [done|]. rewrite length_app, length_seal, Hiv.
      unfold IV_LENGTH, TAG_LENGTH. cbn [length]. lia.
    + eapply NodeCryptoService.node_decrypt_encrypt; [done|done|].
      unfold NodeCryptoService.encrypt, NodeCryptoService.assertKeyLength. by rewrite decide_True.
Qed.

End CryptoProperties.

Module CryptoWitnesses.

Lemma payload_encryption_witness :
  exists c, WebCryptoService.encrypt ToyGcm.toy (replicate 12 7%Z) [1; 2; 3]%Z (replicate 32 0%Z) None = Ok c /\
    WebCryptoService.decrypt ToyGcm.toy c (replicate 32 0%Z) None = Ok [1; 2; 3]%Z.
Proof.
  destruct (CryptoProperties.payload_encryption ToyGcm.toy (replicate 12 7%Z) [1; 2; 3]%Z
    (replicate 32 0%Z) None eq_refl) as (c & H1 & _ & _ & H2 & _).
  by exists c.
Defined.

End CryptoWitnesses.
