(* ===== verification/RecordCodec.v ===== *)
(** * Sync records, event envelopes and additional authenticated data

    - [packages/sync-engine/src/recordCodec.ts]: the JSON record of an event
      that travels between the devices and the server;
    - [packages/infrastructure/src/eventing/eventEnvelope.ts] and
      [payloadEnvelope.ts]: the plaintext that is encrypted into a record;
    - [packages/infrastructure/src/eventing/aad.ts]: the data each ciphertext
      is bound to.

    The ciphertext fields are byte arrays (integers 0..255). *)

From S2P Require Import Prelude JsValues JsonText Base64Url.
From Stdlib Require Import Ascii.

(** ** Records *)

Record LocalEventRow : Type := LocalRow {
  l_id : string;
  l_aggregate_type : string;
  l_aggregate_id : string;
  l_payload_encrypted : list Z;
  l_version : Z;
  l_scope_id : option string;
  l_resource_id : option string;
  l_resource_key_id : option string;
  l_grant_id : option string;
  l_scope_state_ref : option (list Z);
  l_author_device_id : option string;
  l_sig_suite : option string;
  l_signature : option (list Z)
}.

(** [recordVersion] is the constant 1. *)
Record SyncRecord : Type := SyncRec {
  aggregateType : string;
  aggregateId : string;
  version : number;
  payloadCiphertext : string;
  scopeId : option string;
  resourceId : option string;
  resourceKeyId : option string;
  grantId : option string;
  scopeStateRef : option string;
  authorDeviceId : option string;
  sigSuite : option string;
  signature : option string
}.

Definition toSyncRecord (row : LocalEventRow) : SyncRecord :=
  SyncRec (l_aggregate_type row) (l_aggregate_id row) (num (l_version row))
    (encodeBase64Url (l_payload_encrypted row))
    (l_scope_id row) (l_resource_id row) (l_resource_key_id row) (l_grant_id row)
    (encodeBase64Url <$> l_scope_state_ref row) (l_author_device_id row)
    (l_sig_suite row) (encodeBase64Url <$> l_signature row).

(** A nullable string as JSON. *)
Definition json_opt (s : option string) : json := match s with Some s => JStr s | None => JNull end.

Definition toRecordJson (r : SyncRecord) : string :=
  JSON_stringify (JObj
    [("recordVersion", JNum (num 1)); ("aggregateType", JStr (aggregateType r));
     ("aggregateId", JStr (aggregateId r)); ("version", JNum (version r));
     ("payloadCiphertext", JStr (payloadCiphertext r));
     ("scopeId", json_opt (scopeId r)); ("resourceId", json_opt (resourceId r));
     ("resourceKeyId", json_opt (resourceKeyId r)); ("grantId", json_opt (grantId r));
     ("scopeStateRef", json_opt (scopeStateRef r)); ("authorDeviceId", json_opt (authorDeviceId r));
     ("sigSuite", json_opt (sigSuite r)); ("signature", json_opt (signature r))]).

(** *** Type tests on parsed values: [Some] is the value at its type. *)

Definition as_string (v : option json) : option string :=
  match v with Some (JStr s) => Some s | _ => None end.
Definition as_number (v : option json) : option number :=
  match v with Some (JNum n) => Some n | _ => None end.
(** [isString(x) || x === null]; an absent field is neither. *)
Definition as_nullable (v : option json) : option (option string) :=
  match v with Some (JStr s) => Some (Some s) | Some JNull => Some None | _ => None end.
Definition check (b : bool) : option unit := if b then Some tt else None.

(** The record, if the value has its shape. *)
Definition isSyncRecord (v : json) : option SyncRecord :=
  match v with
  | JObj fs =>
      let get k := assoc k fs in
      one ← as_number (get "recordVersion");
      _ ← check (num_eq one (num 1));
      ty ← as_string (get "aggregateType");
      i ← as_string (get "aggregateId");
      v ← as_number (get "version");
      _ ← check (isFinite v);
      p ← as_string (get "payloadCiphertext");
      sc ← as_nullable (get "scopeId");
      re ← as_nullable (get "resourceId");
      rk ← as_nullable (get "resourceKeyId");
      gr ← as_nullable (get "grantId");
      ref ← as_nullable (get "scopeStateRef");
      dev ← as_nullable (get "authorDeviceId");
      su ← as_nullable (get "sigSuite");
      sig ← as_nullable (get "signature");
      Some (SyncRec ty i v p sc re rk gr ref dev su sig)
  | _ => None
  end.

Definition parseRecordJson (recordJson : string) : result error SyncRecord :=
  match JSON_parse recordJson with
  | None => Err (PlainError "recordJson is not valid JSON")
  | Some parsed =>
      match isSyncRecord parsed with
      | Some r => Ok r
      | None => Err (PlainError "recordJson does not match SyncRecord shape")
      end
  end.

Definition decodeRecordPayload (r : SyncRecord) : result error (list Z) :=
  decodeBase64Url (payloadCiphertext r).

(** ** Event envelopes *)

Record EventEnvelopeMeta : Type := EnvelopeMeta {
  em_eventId : string;
  em_eventType : string;
  em_occurredAt : number;
  em_actorId : option string;
  em_causationId : option string;
  em_correlationId : option string
}.

(** [data] is [None] when it is [undefined]. *)
Record EventEnvelope : Type := Envelope {
  envelopeVersion : number;
  env_meta : EventEnvelopeMeta;
  payloadVersion : number;
  env_data : option json
}.

Definition encodeEventEnvelope (e : EventEnvelope) : list Z :=
  let m := env_meta e in
  utf8_encode (JSON_stringify (JObj
    [("envelopeVersion", JNum (envelopeVersion e));
     ("meta", JObj
       [("eventId", JStr (em_eventId m)); ("eventType", JStr (em_eventType m));
        ("occurredAt", JNum (em_occurredAt m)); ("actorId", json_opt (em_actorId m));
        ("causationId", json_opt (em_causationId m)); ("correlationId", json_opt (em_correlationId m))]);
     ("payload", JObj (("payloadVersion", JNum (payloadVersion e)) ::
       match env_data e with Some d => [("data", d)] | None => [] end))])).

Definition malformed {A} (message : string) : result error A :=
  Err (PlainError ("Malformed event envelope: " +:+ message)).

(** [typeof v === 'object' && v !== null]: an array is an object without the
    fields asked for. *)
Definition as_object (v : option json) : option (list (string * json)) :=
  match v with Some (JObj fs) => Some fs | Some (JArr _) => Some [] | _ => None end.

Definition required {A} (v : option A) (message : string) : result error A :=
  match v with Some a => Ok a | None => malformed message end.

(** A non-empty string; an integer from 1 on; a finite number. *)
Definition as_text (v : option json) : option string :=
  s ← as_string v; _ ← check (negb (strlen s =? 0)%Z); Some s.
Definition as_version (v : option json) : option number :=
  n ← as_number v; _ ← check (isInteger n && negb (num_ltb n 1)); Some n.
Definition as_finite (v : option json) : option number :=
  n ← as_number v; _ ← check (isFinite n); Some n.

(** The text of a JSON syntax error is the runtime's and left out. *)
Definition decodeEventEnvelope (bytes : list Z) : result error EventEnvelope :=
  parsed ← required (utf8_decode bytes ≫= JSON_parse) "";
  o ← required (as_object (Some parsed)) "expected envelope object";
  ev ← required (as_version (assoc "envelopeVersion" o)) "invalid envelopeVersion";
  meta ← required (as_object (assoc "meta" o)) "missing meta";
  i ← required (as_text (assoc "eventId" meta)) "invalid meta.eventId";
  ty ← required (as_text (assoc "eventType" meta)) "invalid meta.eventType";
  at_ ← required (as_finite (assoc "occurredAt" meta)) "invalid meta.occurredAt";
  actor ← required (as_nullable (assoc "actorId" meta)) "invalid meta.actorId";
  cause ← required (as_nullable (assoc "causationId" meta)) "invalid meta.causationId";
  corr ← required (as_nullable (assoc "correlationId" meta)) "invalid meta.correlationId";
  payload ← required (as_object (assoc "payload" o)) "missing payload";
  pv ← required (as_version (assoc "payloadVersion" payload)) "invalid payloadVersion";
  data ← required (assoc "data" payload) "missing data";
  Ok (Envelope ev (EnvelopeMeta i ty at_ actor cause corr) pv (Some data)).

(** *** Payload envelopes *)

Record PayloadEnvelope : Type := PayloadEnv {
  pe_payloadVersion : number;
  pe_data : option json
}.

Definition encodePayloadEnvelope (e : PayloadEnvelope) : list Z :=
  utf8_encode (JSON_stringify (JObj (("payloadVersion", JNum (pe_payloadVersion e)) ::
    match pe_data e with Some d => [("data", d)] | None => [] end))).

Definition required_payload {A} (v : option A) (message : string) : result error A :=
  match v with Some a => Ok a | None => Err (PlainError ("Malformed payload envelope: " +:+ message)) end.

Definition decodePayloadEnvelope (bytes : list Z) : result error PayloadEnvelope :=
  parsed ← required_payload (utf8_decode bytes ≫= JSON_parse) "";
  o ← required_payload (as_object (Some parsed)) "expected envelope object";
  pv ← required_payload (as_version (assoc "payloadVersion" o)) "invalid payloadVersion";
  data ← required_payload (assoc "data" o) "missing data";
  Ok (PayloadEnv pv (Some data)).

(** ** Additional authenticated data *)

Definition buildEventAad (ty i : string) (v : Z) : list Z :=
  utf8_encode (ty +:+ ":" +:+ i +:+ ":" +:+ string_of_Z v).

Definition buildSnapshotAad (i : string) (v : Z) : list Z :=
  utf8_encode (i +:+ ":snapshot:" +:+ string_of_Z v).

Definition buildSharingEventAad (ty i : string) (v : Z)
    (scope resource key grant suite : string) : list Z :=
  utf8_encode (ty +:+ ":" +:+ i +:+ ":" +:+ string_of_Z v +:+ ":" +:+ scope +:+ ":" +:+ resource
    +:+ ":" +:+ key +:+ ":" +:+ grant +:+ ":" +:+ suite).

(** ** Properties *)

Module RecordCodecProperties.
Import JsonTextProperties.

(** The bytes columns of the row hold bytes. *)
Definition row_bytes (row : LocalEventRow) : Prop :=
  Forall byte (l_payload_encrypted row) /\
  (forall b, l_scope_state_ref row = Some b -> Forall byte b) /\
  (forall b, l_signature row = Some b -> Forall byte b).

(** A whole number. *)
Definition whole (n : number) : bool := match n with Dec _ k => (k =? 0)%nat | _ => false end.

Lemma json_opt_ok s : json_ok (json_opt s) = true.
Proof. by destruct s. Qed.

Lemma as_nullable_opt s : as_nullable (Some (json_opt s)) = Some s.
Proof. by destruct s. Qed.

Lemma whole_finite n : whole n = true -> isFinite n = true.
Proof. by destruct n. Qed.

Lemma record_json_roundtrip (r : SyncRecord) :
  whole (version r) = true -> parseRecordJson (toRecordJson r) = Ok r.
Proof.
  intros Hw. unfold parseRecordJson, toRecordJson. rewrite parse_stringify.
  - cbn [isSyncRecord assoc decide]. destruct r as [ty i [m k| |] p o1 o2 o3 o4 o5 o6 o7 o8]; try done.
    simpl. destruct o1, o2, o3, o4, o5, o6, o7, o8; reflexivity.
  - cbn [json_ok forallb]. rewrite !json_opt_ok. destruct (version r); [|done|done].
    simpl in Hw. rewrite Hw. rewrite !andb_true_r. reflexivity.
Qed.

(** The JSON text of a row's sync record parses back to that record, and the payload,
    the scope state reference and the signature decode from it to the row's own bytes. *)
Theorem record_roundtrip (row : LocalEventRow) :
  row_bytes row ->
  parseRecordJson (toRecordJson (toSyncRecord row)) = Ok (toSyncRecord row) /\
  decodeRecordPayload (toSyncRecord row) = Ok (l_payload_encrypted row) /\
  (forall b, l_scope_state_ref row = Some b ->
    decodeBase64Url <$> scopeStateRef (toSyncRecord row) = Some (Ok b)) /\
  (forall b, l_signature row = Some b ->
    decodeBase64Url <$> signature (toSyncRecord row) = Some (Ok b)).
Proof.
  intros (Hp & Hr & Hs). split; [by apply record_json_roundtrip|].
  split; [|split; intros b Hb; unfold toSyncRecord; simpl; rewrite Hb; simpl; f_equal].
  all: apply Base64UrlProperties.base64url_roundtrip_lemma; auto.
Qed.

(** *** Envelopes *)

(** What an encoder is given when it writes a readable envelope. *)
Definition envelope_ok (e : EventEnvelope) : bool :=
  negb (num_ltb (envelopeVersion e) 1) && negb (num_ltb (payloadVersion e) 1) &&
  negb (strlen (em_eventId (env_meta e)) =? 0)%Z && negb (strlen (em_eventType (env_meta e)) =? 0)%Z &&
  match env_data e with Some _ => true | None => false end.

(** Its numbers are whole and its data prints faithfully. *)
Definition envelope_plain (e : EventEnvelope) : Prop :=
  whole (envelopeVersion e) = true /\ whole (payloadVersion e) = true /\
  whole (em_occurredAt (env_meta e)) = true /\ forall d, env_data e = Some d -> json_ok d = true.

Lemma whole_num n : whole n = true -> exists z, n = num z.
Proof. destruct n as [m k| |]; [|done..]. simpl. intros ->%Nat.eqb_eq. by exists m. Qed.

Lemma decode_utf8_json v : json_ok v = true ->
  utf8_decode (utf8_encode (JSON_stringify v)) ≫= JSON_parse = Some v.
Proof. intros H. rewrite utf8_roundtrip. simpl. by apply parse_stringify. Qed.

Lemma as_version_num z :
  as_version (Some (JNum (num z))) = if (z <? 1)%Z then None else Some (num z).
Proof.
  unfold as_version. cbn [as_number mbind option_bind]. rewrite isInteger_num, num_ltb_num.
  by destruct (z <? 1)%Z.
Qed.

Lemma as_text_str s : as_text (Some (JStr s)) = if (strlen s =? 0)%Z then None else Some s.
Proof. unfold as_text. cbn [as_string mbind option_bind]. by destruct (strlen s =? 0)%Z. Qed.

Lemma envelope_cases (e : EventEnvelope) :
  envelope_plain e ->
  if envelope_ok e then decodeEventEnvelope (encodeEventEnvelope e) = Ok e
  else exists m, decodeEventEnvelope (encodeEventEnvelope e) = malformed m.
Proof.
  destruct e as [ev [i ty at_ actor cause corr] pv data]. unfold envelope_plain, envelope_ok. simpl.
  intros (Hev & Hpv & Hat & Hd). apply whole_num in Hev as [a ->], Hpv as [b ->], Hat as [t ->].
  unfold decodeEventEnvelope, encodeEventEnvelope. cbn [envelopeVersion env_meta em_eventId em_eventType
    em_occurredAt em_actorId em_causationId em_correlationId payloadVersion env_data].
  rewrite decode_utf8_json.
  2: { cbn [json_ok forallb]. rewrite !json_opt_ok. destruct data as [d|]; [|reflexivity].
       cbn [json_ok forallb]. by rewrite (Hd d eq_refl). }
  cbn [required as_object mbind result_bind].
  rewrite !num_ltb_num.
  change (assoc "envelopeVersion" _) with (Some (JNum (num a))). rewrite as_version_num.
  destruct (a <? 1)%Z; [by eexists|]. cbn [required mbind result_bind negb andb].
  match goal with |- context [assoc "meta" ?l] => change (assoc "meta" l) with (snd <$> l !! 1) end.
  cbn [lookup list_lookup fmap option_fmap option_map snd as_object required mbind result_bind].
  change (assoc "eventId" _) with (Some (JStr i)). change (assoc "eventType" _) with (Some (JStr ty)).
  change (assoc "occurredAt" _) with (Some (JNum (num t))).
  change (assoc "actorId" _) with (Some (json_opt actor)).
  change (assoc "causationId" _) with (Some (json_opt cause)).
  change (assoc "correlationId" _) with (Some (json_opt corr)).
  rewrite !as_text_str, !as_nullable_opt.
  destruct (strlen i =? 0)%Z; [rewrite andb_false_r; by eexists|].
  destruct (strlen ty =? 0)%Z; [rewrite !andb_false_r; by eexists|].
  cbn [required mbind result_bind negb].
  change (as_finite (Some (JNum (num t)))) with (Some (num t)). cbn [required mbind result_bind].
  match goal with |- context [assoc "payload" ?l] => change (assoc "payload" l) with (snd <$> l !! 2) end.
  cbn [lookup list_lookup fmap option_fmap option_map snd as_object required mbind result_bind].
  change (assoc "payloadVersion" _) with (Some (JNum (num b))). rewrite as_version_num.
  destruct (b <? 1)%Z; [by eexists|]. cbn [required mbind result_bind negb andb].
  destruct data as [d|]; [reflexivity|by eexists].
Qed.

Lemma envelope_roundtrip_lemma e :
  envelope_plain e -> envelope_ok e = true -> decodeEventEnvelope (encodeEventEnvelope e) = Ok e.
Proof. intros H Hok. pose proof (envelope_cases e H) as Hc. by rewrite Hok in Hc. Qed.

(** An event envelope with whole numbers and data that JSON prints faithfully, encoded,
    is decoded to itself when it passes the decoder's checks (versions from 1 on, event id
    and type not empty, data present), and is refused as malformed otherwise. *)
Theorem envelope_roundtrip (e : EventEnvelope) :
  envelope_plain e ->
  if envelope_ok e then decodeEventEnvelope (encodeEventEnvelope e) = Ok e
  else exists m, decodeEventEnvelope (encodeEventEnvelope e) = malformed m.
Proof. exact (envelope_cases e). Qed.

Lemma payload_envelope_roundtrip (v : Z) (d : json) :
  (1 <= v)%Z -> json_ok d = true ->
  decodePayloadEnvelope (encodePayloadEnvelope (PayloadEnv (num v) (Some d))) =
    Ok (PayloadEnv (num v) (Some d)).
Proof.
  intros Hv Hd. unfold decodePayloadEnvelope, encodePayloadEnvelope. cbn [pe_data pe_payloadVersion].
  rewrite decode_utf8_json by (cbn [json_ok forallb]; by rewrite Hd).
  cbn [required_payload as_object mbind result_bind].
  change (assoc "payloadVersion" _) with (Some (JNum (num v))). rewrite as_version_num.
  destruct (Z.ltb_spec v 1); [lia|]. reflexivity.
Qed.

(** *** Additional authenticated data *)

Lemma split_first {A} (x : A) l1 l2 r1 r2 :
  x ∉ l1 -> x ∉ l2 -> l1 ++ x :: r1 = l2 ++ x :: r2 -> l1 = l2 /\ r1 = r2.
Proof.
  revert l2. induction l1 as [|a l1 IH]; intros [|b l2] H1 H2 E; simplify_eq/=.
  - done.
  - exfalso. apply H2. left.
  - exfalso. apply H1. left.
  - rewrite not_elem_of_cons in *. destruct (IH l2) as [-> ->]; tauto.
Qed.

Lemma split_last {A} (x : A) l1 l2 r1 r2 :
  x ∉ r1 -> x ∉ r2 -> l1 ++ x :: r1 = l2 ++ x :: r2 -> l1 = l2 /\ r1 = r2.
Proof.
  intros H1 H2 E. apply (f_equal reverse) in E.
  rewrite !reverse_app, !reverse_cons, <- !app_assoc in E. simpl in E.
  apply split_first in E as [E1 E2]; [|by rewrite elem_of_reverse..].
  apply (inj reverse) in E1, E2. done.
Qed.

Lemma string_of_Z_chars z : Forall (fun c => is_digit c = true \/ c = "-"%char) (chars (string_of_Z z)).
Proof.
  destruct (Z.ltb_spec z 0) as [Hn|Hp].
  - assert (string_of_Z z = String "-" (string_of_Z (- z))) as ->.
    { unfold string_of_Z. destruct (Z.ltb_spec z 0), (Z.ltb_spec (- z) 0); [lia|done|lia|lia]. }
    simpl. constructor; [by right|].
    destruct (string_of_Z_spec (- z)) as (Hd & _); [lia|]. eapply Forall_impl; [exact Hd|]. by left.
  - destruct (string_of_Z_spec z Hp) as (Hd & _). eapply Forall_impl; [exact Hd|]. by left.
Qed.

Lemma string_of_Z_inj a b : string_of_Z a = string_of_Z b -> a = b.
Proof.
  intros E. pose proof (parse_print_integer := JsonTextLemmas.parse_print_integer).
  pose proof (parse_print_integer a [] eq_refl) as Ha. pose proof (parse_print_integer b [] eq_refl) as Hb.
  rewrite E in Ha. congruence.
Qed.

Lemma utf8_encode_inj s t : utf8_encode s = utf8_encode t -> s = t.
Proof. intros E. apply (f_equal utf8_decode) in E. rewrite !utf8_roundtrip in E. congruence. Qed.

Lemma colon_not_in_Z z : ":"%char ∉ chars (string_of_Z z).
Proof.
  intros H. pose proof (string_of_Z_chars z) as Hf. rewrite Forall_forall in Hf.
  by destruct (Hf _ H).
Qed.

(** The associated data an event is sealed with determines its aggregate type,
    aggregate id and version, types without a colon given: a ciphertext cannot be passed off
    as another event's. *)
Theorem event_aad_injective (ty ty' i i' : string) (v v' : Z) :
  ":"%char ∉ chars ty -> ":"%char ∉ chars ty' ->
  buildEventAad ty i v = buildEventAad ty' i' v' -> ty = ty' /\ i = i' /\ v = v'.
Proof.
  intros Ht Ht' E. apply utf8_encode_inj, (f_equal chars) in E. rewrite !chars_append in E.
  change (chars ":") with [":"%char] in E. cbn [app] in E.
  apply split_first in E as [E1 E2]; [|done|done].
  apply split_last in E2 as [E2 E3]; [|apply colon_not_in_Z|apply colon_not_in_Z].
  split; [by apply chars_inj|]. split; [by apply chars_inj|]. by apply string_of_Z_inj, chars_inj.
Qed.

End RecordCodecProperties.

(** ** Witnesses *)

Module RecordCodecWitnesses.
Import RecordCodecProperties.

Definition row_1 : LocalEventRow :=
  LocalRow "e1" "goal" "g1" [1; 2; 255]%Z 3 None (Some "r") None None (Some [0; 128]%Z) None None None.

Lemma record_roundtrip_witness :
  parseRecordJson (toRecordJson (toSyncRecord row_1)) = Ok (toSyncRecord row_1) /\
  decodeRecordPayload (toSyncRecord row_1) = Ok [1; 2; 255]%Z.
Proof.
  destruct (record_roundtrip row_1) as (H1 & H2 & _); [|by split].
  split; [|split]; simpl; [|intros b [= <-]|done];
    repeat (apply Forall_cons; split; [unfold byte; lia|]); apply Forall_nil_2.
Defined.

Definition envelope_1 : EventEnvelope :=
  Envelope (num 1) (EnvelopeMeta "e1" "GoalCreated" (num 1700000000000) (Some "alice") None None)
    (num 2) (Some (JObj [("summary", JStr "read"); ("slice", JStr "Work")])).

Lemma envelope_roundtrip_witness :
  decodeEventEnvelope (encodeEventEnvelope envelope_1) = Ok envelope_1.
Proof.
  apply (envelope_roundtrip envelope_1). repeat split; try reflexivity. by intros d [= <-].
Defined.

Lemma event_aad_injective_witness :
  buildEventAad "goal" "a:1" 2 = buildEventAad "goal" "a:1" 2 /\ "a:1" = "a:1".
Proof.
  split; [reflexivity|].
  apply (event_aad_injective "goal" "goal" "a:1" "a:1" 2 2); [| |reflexivity];
    by apply (bool_decide_unpack _).
Defined.

End RecordCodecWitnesses.
