(* ===== verification/LocalDb.v ===== *)
(** * The client's database

    The tables of [packages/eventstore-web/src/worker/schema.ts] that the event
    store and the sync engine use, with their constraints, and the SQL
    statements those components run on them.  Rows of [events] are kept in
    commit order ([commit_sequence] is an AUTOINCREMENT key); versions are
    integers (a fractional one would be stored as REAL by SQLite). *)

From S2P Require Import Prelude JsValues.
From Stdlib Require Import Sorted.

(** ** Failures of the client's infrastructure *)

Inductive SyncErrorCode : Type := network | conflict | auth | server | unknown.

Inductive failure : Type :=
| ConcurrencyError (message : string)
| DbError (code message : string)
| EngineError (code : SyncErrorCode) (message : string) (retryable : bool)
| JsError (e : error).

#[export] Instance SyncErrorCode_eq_dec : EqDecision SyncErrorCode.
Proof. solve_decision. Defined.
#[export] Instance failure_eq_dec : EqDecision failure.
Proof. solve_decision. Defined.

(** What the database port throws on a violated constraint: [toPlatformError]
    (eventstore-web/src/worker/sqlite.ts) names it, and the client rethrows it
    with that [code]. *)
Definition constraint_violation : failure :=
  DbError "ConstraintViolationError" "UNIQUE constraint failed".

(** An error thrown by code that knows nothing of the engine. *)
Definition js_error {A} (r : result error A) : result failure A :=
  match r with Ok a => Ok a | Err e => Err (JsError e) end.

(** ** Rows *)

Record MaterializedEventRow : Type := EventCols {
  id : string;
  aggregate_type : string;
  aggregate_id : string;
  event_type : string;
  payload_encrypted : list Z;
  version : Z;
  occurred_at : number;
  actor_id : option string;
  causation_id : option string;
  correlation_id : option string;
  scope_id : option string;
  resource_id : option string;
  resource_key_id : option string;
  grant_id : option string;
  scope_state_ref : option (list Z);
  author_device_id : option string;
  sig_suite : option string;
  signature : option (list Z)
}.

Record EventRow : Type := Stored {
  commit_sequence : Z;
  cols : MaterializedEventRow
}.

Record MapRow : Type := Mapped {
  event_id : string;
  global_seq : Z;
  inserted_at : Z
}.

Record MetaRow : Type := Meta {
  last_pulled_global_seq : Z;
  updated_at : Z
}.

Record SnapshotRow : Type := SnapshotCols {
  s_aggregate_type : string;
  s_aggregate_id : string;
  snapshot_version : Z;
  snapshot_encrypted : list Z;
  last_global_seq : Z;
  last_pending_commit_seq : Z;
  written_at : Z
}.

Record local_db : Type := Db {
  events : list EventRow;
  next_commit_sequence : Z;
  snapshots : list SnapshotRow;
  sync_event_map : list MapRow;
  sync_meta : gmap string MetaRow
}.

Definition empty_db : local_db := Db [] 1 [] [] ∅.

Notation dbm := (js local_db failure).

Definition set_events (l : list EventRow) (n : Z) (db : local_db) : local_db :=
  Db l n (snapshots db) (sync_event_map db) (sync_meta db).
Definition set_map (l : list MapRow) (db : local_db) : local_db :=
  Db (events db) (next_commit_sequence db) (snapshots db) l (sync_meta db).
Definition set_meta (m : gmap string MetaRow) (db : local_db) : local_db :=
  Db (events db) (next_commit_sequence db) (snapshots db) (sync_event_map db) m.

(** The unique index (aggregate_type, aggregate_id, version). *)
Definition place (r : MaterializedEventRow) : string * string * Z :=
  (aggregate_type r, aggregate_id r, version r).

Definition event_ids (db : local_db) : list string := map (fun e => id (cols e)) (events db).
Definition places (db : local_db) : list (string * string * Z) := map (fun e => place (cols e)) (events db).
Definition map_ids (db : local_db) : list string := map event_id (sync_event_map db).
Definition map_seqs (db : local_db) : list Z := map global_seq (sync_event_map db).

(** ** Statements on [events] *)

(** [SELECT id FROM events WHERE id = ? LIMIT 1] finds a row. *)
Definition has_event (i : string) (db : local_db) : bool := bool_decide (i ∈ event_ids db).

(** The row at an aggregate's version, if any. *)
Definition occupying (ty ai : string) (v : Z) (db : local_db) : option EventRow :=
  List.find (fun e => bool_decide (place (cols e) = (ty, ai, v))) (events db).

(** A row may be inserted: its id and its place are free. *)
Definition insertable (r : MaterializedEventRow) (db : local_db) : bool :=
  negb (has_event (id r) db) && negb (bool_decide (place r ∈ places db)).

Definition append_row (r : MaterializedEventRow) (db : local_db) : local_db :=
  set_events (events db ++ [Stored (next_commit_sequence db) r]) (next_commit_sequence db + 1) db.

(** [INSERT INTO events]: a taken id or place violates a constraint. *)
Definition insert_event (r : MaterializedEventRow) : dbm EventRow := fun db =>
  if insertable r db
  then (Ok (Stored (next_commit_sequence db) r), append_row r db)
  else (Err constraint_violation, db).

(** [INSERT OR IGNORE INTO events] *)
Definition insert_event_or_ignore (r : MaterializedEventRow) (db : local_db) : local_db :=
  if insertable r db then append_row r db else db.

Definition with_version (v : Z) (payload : list Z) (r : MaterializedEventRow) : MaterializedEventRow :=
  EventCols (id r) (aggregate_type r) (aggregate_id r) (event_type r) payload v (occurred_at r)
    (actor_id r) (causation_id r) (correlation_id r) (scope_id r) (resource_id r) (resource_key_id r)
    (grant_id r) (scope_state_ref r) (author_device_id r) (sig_suite r) (signature r).

Definition update_row (i : string) (v : Z) (payload : list Z) (e : EventRow) : EventRow :=
  if decide (id (cols e) = i) then Stored (commit_sequence e) (with_version v payload (cols e)) else e.

(** [UPDATE events SET version = ?, payload_encrypted = ? WHERE id = ?]: the
    new place must not be another row's. *)
Definition update_event (i : string) (v : Z) (payload : list Z) : dbm unit := fun db =>
  let updated := map (update_row i v payload) (events db) in
  if bool_decide (NoDup (map (fun e => place (cols e)) updated))
  then (Ok tt, set_events updated (next_commit_sequence db) db)
  else (Err constraint_violation, db).

(** ** Statements on [sync_event_map] and [sync_meta] *)

Definition is_synced (i : string) (db : local_db) : bool := bool_decide (i ∈ map_ids db).

(** [INSERT OR IGNORE INTO sync_event_map] *)
Definition insert_map_or_ignore (i : string) (seq now : Z) (db : local_db) : local_db :=
  if bool_decide (i ∈ map_ids db) || bool_decide (seq ∈ map_seqs db) then db
  else set_map (sync_event_map db ++ [Mapped i seq now]) db.

(** [... SELECT ?, ?, ? WHERE EXISTS (SELECT 1 FROM events WHERE id = ?)] *)
Definition insert_map_if_event (i : string) (seq now : Z) (db : local_db) : local_db :=
  if has_event i db then insert_map_or_ignore i seq now db else db.

(** [FROM events e LEFT JOIN sync_event_map m ... WHERE m.event_id IS NULL
    ORDER BY e.commit_sequence ASC] *)
Definition pending_rows (db : local_db) : list EventRow :=
  filter (fun e => is_synced (id (cols e)) db = false) (events db).

(** [DELETE FROM snapshots WHERE aggregate_type = ? AND aggregate_id = ?] *)
Definition delete_snapshots (ty ai : string) (db : local_db) : local_db :=
  Db (events db) (next_commit_sequence db)
    (filter (fun s => negb (bool_decide ((s_aggregate_type s, s_aggregate_id s) = (ty, ai))) = true)
      (snapshots db))
    (sync_event_map db) (sync_meta db).

(** ** Well-formed tables *)

Record db_ok (db : local_db) : Prop := {
  ok_ids : NoDup (event_ids db);
  ok_places : NoDup (places db);
  ok_commits : StronglySorted Z.lt (map commit_sequence (events db));
  ok_next : Forall (fun e => (commit_sequence e < next_commit_sequence db)%Z) (events db);
  ok_map_ids : NoDup (map_ids db);
  ok_map_seqs : NoDup (map_seqs db)
}.

(** What no step may undo: each event row stays, with everything but the
    version and the ciphertext, which only a pending row may change; and each
    mapping stays. *)
Definition kept (db : local_db) (e e' : EventRow) : Prop :=
  commit_sequence e' = commit_sequence e /\
  (is_synced (id (cols e)) db = true -> e' = e) /\
  exists v p, cols e' = with_version v p (cols e) /\ (version (cols e) <= v)%Z.

Definition preserves (db db' : local_db) : Prop :=
  (forall e, e ∈ events db -> exists e', e' ∈ events db' /\ kept db e e') /\
  sync_event_map db `prefix_of` sync_event_map db'.

(** ** Lemmas *)

Section Lemmas.
Implicit Types db : local_db.

Lemma db_ok_empty : db_ok empty_db.
Proof. by split; try constructor. Qed.

Lemma with_version_self r : with_version (version r) (payload_encrypted r) r = r.
Proof. by destruct r. Qed.

Lemma kept_refl db e : kept db e e.
Proof.
  split; [done|]. split; [done|]. exists (version (cols e)), (payload_encrypted (cols e)).
  by rewrite with_version_self.
Qed.

Lemma preserves_refl db : preserves db db.
Proof. split; [|done]. intros e He. exists e. split; [done|apply kept_refl]. Qed.

Lemma is_synced_mono db db' i :
  sync_event_map db `prefix_of` sync_event_map db' -> is_synced i db = true -> is_synced i db' = true.
Proof.
  unfold is_synced. rewrite !bool_decide_eq_true. unfold map_ids. intros [k ->]. rewrite map_app.
  set_solver.
Qed.

Lemma preserves_trans db1 db2 db3 : preserves db1 db2 -> preserves db2 db3 -> preserves db1 db3.
Proof.
  intros [H1 P1] [H2 P2]. split; [|by etrans].
  intros e He. destruct (H1 e He) as (e2 & He2 & Hc2 & Hs2 & v2 & p2 & E2 & Hv2).
  destruct (H2 e2 He2) as (e3 & He3 & Hc3 & Hs3 & v3 & p3 & E3 & Hv3).
  exists e3. split; [done|]. split; [congruence|]. split.
  - intros Hs. rewrite (Hs2 Hs) in *. apply Hs3. by eapply is_synced_mono.
  - exists v3, p3. rewrite E3, E2. split; [done|]. rewrite E2 in Hv3. simpl in Hv3. lia.
Qed.

Lemma preserves_ids db db' i : preserves db db' -> i ∈ event_ids db -> i ∈ event_ids db'.
Proof.
  intros [H _]. unfold event_ids. rewrite !list_elem_of_fmap. intros (e & -> & He).
  destruct (H e He) as (e' & He' & _ & _ & v & p & E & _). exists e'. by rewrite E.
Qed.

Lemma event_ids_append r db : event_ids (append_row r db) = event_ids db ++ [id r].
Proof. unfold event_ids, append_row. simpl. by rewrite map_app. Qed.

Lemma append_row_ok r db : db_ok db -> insertable r db = true -> db_ok (append_row r db).
Proof.
  intros [H1 H2 H3 H4 H5 H6]. unfold insertable, has_event.
  rewrite andb_true_iff, !negb_true_iff, !bool_decide_eq_false. intros [Hi Hp]. split; [..|done|done].
  - rewrite event_ids_append. apply NoDup_app. split; [done|]. split; [|apply NoDup_singleton].
    intros x Hx ->%list_elem_of_singleton. done.
  - unfold places, append_row in *. simpl. rewrite map_app. apply NoDup_app. split; [done|].
    split; [|apply NoDup_singleton]. intros x Hx ->%list_elem_of_singleton. done.
  - unfold append_row. simpl. rewrite map_app. simpl.
    assert (Forall (fun c => (c < next_commit_sequence db)%Z) (map commit_sequence (events db))) as Hl
      by (by apply Forall_map).
    revert H3 Hl. induction (map commit_sequence (events db)) as [|c l IH]; intros Hs Hl.
    + repeat constructor.
    + inversion Hs; subst. inversion Hl; subst. simpl. constructor; [by apply IH|].
      apply Forall_app. split; [done|by constructor].
  - unfold append_row. simpl. apply Forall_app. split; [|constructor; [simpl; lia|constructor]].
    eapply Forall_impl; [exact H4|]. simpl. lia.
Qed.

Lemma append_row_preserves r db : preserves db (append_row r db).
Proof.
  split; [|done]. intros e He. exists e. split; [|apply kept_refl].
  unfold append_row. simpl. apply list_elem_of_In, in_or_app. left. by apply list_elem_of_In.
Qed.

Lemma insert_event_or_ignore_ok r db : db_ok db -> db_ok (insert_event_or_ignore r db).
Proof. intros H. unfold insert_event_or_ignore. destruct (insertable r db) eqn:E; [|done]. by apply append_row_ok. Qed.

Lemma insert_event_or_ignore_preserves r db : preserves db (insert_event_or_ignore r db).
Proof.
  unfold insert_event_or_ignore. destruct (insertable r db); [apply append_row_preserves|apply preserves_refl].
Qed.

Lemma insert_map_ok i seq now db : db_ok db -> db_ok (insert_map_or_ignore i seq now db).
Proof.
  intros Hok. unfold insert_map_or_ignore.
  destruct (bool_decide_reflect (i ∈ map_ids db)); [done|].
  destruct (bool_decide_reflect (seq ∈ map_seqs db)); [done|]. simpl.
  destruct Hok. split; [done..| |].
  - unfold map_ids in *. simpl. rewrite map_app. apply NoDup_app. split; [done|].
    split; [|apply NoDup_singleton]. intros x Hx ->%list_elem_of_singleton. done.
  - unfold map_seqs in *. simpl. rewrite map_app. apply NoDup_app. split; [done|].
    split; [|apply NoDup_singleton]. intros x Hx ->%list_elem_of_singleton. done.
Qed.

Lemma insert_map_preserves i seq now db : preserves db (insert_map_or_ignore i seq now db).
Proof.
  unfold insert_map_or_ignore. destruct (_ || _); [apply preserves_refl|].
  split; [|by apply prefix_app_r]. intros e He. exists e. split; [done|apply kept_refl].
Qed.

Lemma insert_map_if_event_ok i seq now db : db_ok db -> db_ok (insert_map_if_event i seq now db).
Proof. intros. unfold insert_map_if_event. destruct (has_event i db); [by apply insert_map_ok|done]. Qed.

Lemma insert_map_if_event_preserves i seq now db : preserves db (insert_map_if_event i seq now db).
Proof.
  unfold insert_map_if_event. destruct (has_event i db); [apply insert_map_preserves|apply preserves_refl].
Qed.

Lemma occupying_spec ty ai v db : db_ok db ->
  match occupying ty ai v db with
  | Some e => e ∈ events db /\ place (cols e) = (ty, ai, v)
  | None => (ty, ai, v) ∉ places db
  end.
Proof.
  intros _. unfold occupying. destruct (List.find _ _) as [e|] eqn:E.
  - apply List.find_some in E as [Hin Hp]. apply bool_decide_eq_true in Hp.
    by rewrite list_elem_of_In.
  - unfold places. rewrite list_elem_of_fmap. intros (e & Hp & He). apply list_elem_of_In in He.
    pose proof (List.find_none _ _ E e He) as Hn. by apply bool_decide_eq_false in Hn.
Qed.
End Lemmas.
