(* ===== verification/EventStore.v ===== *)
(** * The encrypted event store ([packages/infrastructure/src/eventstore])

    [SqliteEncryptedEventAppender], [SqliteEncryptedEventReader] and
    [SqliteEventStore.append]: optimistic concurrency on the versions of an
    aggregate, on top of the client's database.  The appender first reads the
    aggregate's maximal version and then runs one batch (a transaction) of
    INSERTs; what other tabs do to the database in between is an argument.
    The fallback for SQLite builds without RETURNING has the same effect and
    is not modelled. *)

From S2P Require Import Prelude JsValues LocalDb.
From Stdlib Require Import Sorted.

Record KnownVersion : Type := Known {
  k_aggregateId : string;
  k_version : option Z
}.

Record EncryptedEventToAppend : Type := ToAppend {
  ea_eventId : string;
  ea_aggregateId : string;
  ea_eventType : string;
  ea_payload : list Z;
  ea_version : Z;
  ea_occurredAt : number;
  ea_actorId : option string;
  ea_causationId : option string;
  ea_correlationId : option string
}.

(** The columns the INSERT names; the sharing columns stay NULL. *)
Definition columns (ty : string) (e : EncryptedEventToAppend) : MaterializedEventRow :=
  EventCols (ea_eventId e) ty (ea_aggregateId e) (ea_eventType e) (ea_payload e) (ea_version e)
    (ea_occurredAt e) (ea_actorId e) (ea_causationId e) (ea_correlationId e)
    None None None None None None None None.

(** [[...events].sort((a, b) => a.version - b.version)], a stable sort. *)
Fixpoint insert_by_version (e : EncryptedEventToAppend) (l : list EncryptedEventToAppend)
    : list EncryptedEventToAppend :=
  match l with
  | [] => [e]
  | x :: l' => if (ea_version e <=? ea_version x)%Z then e :: l else x :: insert_by_version e l'
  end.
Definition sort_by_version (l : list EncryptedEventToAppend) : list EncryptedEventToAppend :=
  fold_right insert_by_version [] l.

(** The versions of an aggregate; [SELECT MAX(version)], NULL read as 0. *)
Definition aggregate_versions (ty ai : string) (db : local_db) : list Z :=
  map (fun e => version (cols e))
    (filter (fun e => bool_decide ((aggregate_type (cols e), aggregate_id (cols e)) = (ty, ai)) = true)
      (events db)).
Definition max_version (ty ai : string) (db : local_db) : Z :=
  match aggregate_versions ty ai db with
  | [] => 0
  | v :: vs => fold_left Z.max vs v
  end.

Definition readExpectedStartVersion (ty : string) (known : KnownVersion) : dbm Z :=
  reads (fun db =>
    let maxVersion := max_version ty (k_aggregateId known) db in
    match k_version known with
    | Some v =>
        if negb (maxVersion =? v)%Z
        then Err (ConcurrencyError ("Version mismatch for " +:+ k_aggregateId known +:+ ": expected " +:+
          string_of_Z v +:+ ", got " +:+ string_of_Z maxVersion))
        else Ok (maxVersion + 1)%Z
    | None => Ok (maxVersion + 1)%Z
    end).

(** The versions are [expected], [expected + 1], ... *)
Fixpoint check_monotonic (ai : string) (expected : Z) (l : list EncryptedEventToAppend) : result failure unit :=
  match l with
  | [] => Ok tt
  | e :: l' =>
      if negb (ea_version e =? expected)%Z
      then Err (ConcurrencyError ("Non-monotonic versions for " +:+ ai +:+ ": expected " +:+ string_of_Z expected))
      else check_monotonic ai (expected + 1) l'
  end.

Definition isConstraintError (err : failure) : bool :=
  match err with
  | DbError code _ => includes "CONSTRAINT" code
  | ConcurrencyError m | EngineError _ m _ => includes "CONSTRAINT" m
  | JsError (PlainError m) | JsError (AssertError _ m) => includes "CONSTRAINT" m
  end.

(** [db.batch(statements)] with the INSERTs: the rows returned. *)
Fixpoint insert_all (ty : string) (l : list EncryptedEventToAppend) : dbm (list EventRow) :=
  match l with
  | [] => mret []
  | e :: l' =>
      row ← insert_event (columns ty e);
      rows ← insert_all ty l';
      mret (row :: rows)
  end.

Definition tryInsertWithReturning (ty : string) (l : list EncryptedEventToAppend) : dbm (list EventRow) :=
  try_catch (transaction (insert_all ty l))
    (fun err =>
      if isConstraintError err
      then throw (ConcurrencyError "Version conflict for aggregate: concurrent write detected")
      else throw err).

Definition appendForAggregate (others : local_db -> local_db) (ty : string) (known : KnownVersion)
    (l : list EncryptedEventToAppend) : dbm (list EventRow) :=
  match sort_by_version l with
  | [] => mret []
  | first :: rest =>
      expected ← readExpectedStartVersion ty known;
      if negb (ea_version first =? expected)%Z
      then throw (ConcurrencyError ("Version conflict for " +:+ k_aggregateId known +:+ ": expected " +:+
        string_of_Z expected))
      else
        _ ← lift_result (check_monotonic (k_aggregateId known) (expected + 1) rest);
        _ ← modify others;
        tryInsertWithReturning ty (first :: rest)
  end.

(** [SqliteEventStore.append] *)
Definition min_version (l : list EncryptedEventToAppend) : option Z :=
  match map ea_version l with
  | [] => None
  | v :: vs => Some (fold_left Z.min vs v)
  end.
Definition expectedPreviousVersion (l : list EncryptedEventToAppend) : option Z :=
  match min_version l with
  | Some m => if (0 <? m)%Z then Some (m - 1)%Z else None
  | None => None
  end.
Definition in_aggregate (ai : string) (e : EncryptedEventToAppend) : EncryptedEventToAppend :=
  ToAppend (ea_eventId e) ai (ea_eventType e) (ea_payload e) (ea_version e) (ea_occurredAt e)
    (ea_actorId e) (ea_causationId e) (ea_correlationId e).
Definition append (others : local_db -> local_db) (ty ai : string) (l : list EncryptedEventToAppend)
    : dbm unit :=
  match l with
  | [] => skip
  | _ =>
      _ ← appendForAggregate others ty (Known ai (expectedPreviousVersion l)) (map (in_aggregate ai) l);
      skip
  end.

(** [SqliteEncryptedEventReader.readForAggregate], [ORDER BY version ASC]. *)
Fixpoint insert_row_by_version (e : EventRow) (l : list EventRow) : list EventRow :=
  match l with
  | [] => [e]
  | x :: l' => if (version (cols e) <=? version (cols x))%Z then e :: l else x :: insert_row_by_version e l'
  end.
Definition order_by_version (l : list EventRow) : list EventRow := fold_right insert_row_by_version [] l.
Definition readForAggregate (ty ai : string) (fromVersion : Z) (db : local_db) : list EventRow :=
  order_by_version (filter (fun e =>
    bool_decide ((aggregate_type (cols e), aggregate_id (cols e)) = (ty, ai)) &&
    (fromVersion <=? version (cols e))%Z = true) (events db)).

(** [EventFilter]: a condition is added for every field that is given and is
    neither the empty string nor 0. *)
Record EventFilter : Type := Filter {
  f_aggregateId : option string;
  f_eventType : option string;
  f_since : option Z;
  f_limit : option nat
}.

Definition passes (f : EventFilter) (e : EventRow) : bool :=
  match f_aggregateId f with
  | Some i => bool_decide (i = "") || bool_decide (aggregate_id (cols e) = i)
  | None => true
  end &&
  match f_eventType f with
  | Some t => bool_decide (t = "") || bool_decide (event_type (cols e) = t)
  | None => true
  end &&
  match f_since f with
  | Some n => (n =? 0)%Z || (n <? commit_sequence e)%Z
  | None => true
  end.

(** [SqliteEncryptedEventReader.readAll], [ORDER BY commit_sequence ASC], the
    order the rows are kept in. *)
Definition readAll (ty : string) (f : EventFilter) (db : local_db) : list EventRow :=
  let rows := filter (fun e => bool_decide (aggregate_type (cols e) = ty) && passes f e = true) (events db) in
  match f_limit f with
  | Some (S n) => take (S n) rows
  | _ => rows
  end.

(** [SqliteEventStore.getAllEvents] *)
Definition getAllEvents (ty : string) (f : option EventFilter) (db : local_db) : list EventRow :=
  readAll ty (default (Filter None None None None) f) db.

(** ** Lemmas *)

Module EventStoreLemmas.

(** The versions [v], [v + 1], ... in order. *)
Definition consecutive (v : Z) (l : list EncryptedEventToAppend) : Prop :=
  map ea_version l = map (fun k => (v + Z.of_nat k)%Z) (seq 0 (length l)).

#[export] Instance consecutive_dec v l : Decision (consecutive v l).
Proof. unfold consecutive. solve_decision. Defined.

Lemma consecutive_cons v e l :
  consecutive v (e :: l) <-> ea_version e = v /\ consecutive (v + 1) l.
Proof.
  unfold consecutive. simpl. rewrite <- seq_shift, map_map.
  assert (map (fun k => (v + Z.of_nat (S k))%Z) (seq 0 (length l)) =
    map (fun k => (v + 1 + Z.of_nat k)%Z) (seq 0 (length l))) as <-.
  { apply map_ext. lia. }
  split; [intros [= -> ->]; split; [lia|done]|intros [-> ->]; f_equal; lia].
Qed.

Lemma check_monotonic_spec ai v l :
  check_monotonic ai v l = Ok tt <-> consecutive v l.
Proof.
  revert v. induction l as [|e l IH]; intros v; [by split|]. rewrite consecutive_cons. simpl.
  destruct (Z.eqb_spec (ea_version e) v) as [->|Hne]; simpl.
  - rewrite IH. tauto.
  - split; [done|]. by intros [? _].
Qed.

Lemma check_monotonic_error ai v l err :
  check_monotonic ai v l = Err err -> exists m, err = ConcurrencyError m.
Proof.
  revert v. induction l as [|e l IH]; intros v; [done|]. simpl.
  destruct (negb _); [intros [= <-]; by eexists|apply IH].
Qed.

Lemma fold_max_spec vs v : (v <= fold_left Z.max vs v /\ Forall (fun x => x <= fold_left Z.max vs v) vs)%Z.
Proof.
  revert v. induction vs as [|x vs IH]; intros v; simpl; [split; [lia|constructor]|].
  destruct (IH (Z.max v x)) as [H1 H2]. split; [lia|]. constructor; [lia|done].
Qed.

(** No row of the aggregate has a version above [max_version]. *)
Lemma max_version_spec ty ai v db :
  (max_version ty ai db < v)%Z -> (ty, ai, v) ∉ places db.
Proof.
  intros Hv Hin. unfold places in Hin. apply list_elem_of_fmap in Hin as (e & Hp & He).
  unfold place in Hp. injection Hp as Hty Hai Hver.
  assert (v ∈ aggregate_versions ty ai db) as Ha.
  { unfold aggregate_versions. apply list_elem_of_fmap. exists e. split; [done|].
    apply list_elem_of_filter. split; [|done]. apply bool_decide_eq_true. by subst. }
  unfold max_version in Hv. destruct (aggregate_versions ty ai db) as [|x vs]; [set_solver|].
  destruct (fold_max_spec vs x) as [H1 H2]. rewrite Forall_forall in H2.
  apply elem_of_cons in Ha as [->|Ha]; [lia|]. specialize (H2 v Ha). simpl in H2. lia.
Qed.

Lemma insert_all_run ty v l db :
  consecutive v l -> NoDup (map ea_eventId l) ->
  Forall (fun e => ea_eventId e ∉ event_ids db) l ->
  (forall e, e ∈ l -> (ty, ea_aggregateId e, ea_version e) ∉ places db) ->
  exists rows db', insert_all ty l db = (Ok rows, db') /\
    map cols rows = map (columns ty) l /\ events db' = events db ++ rows /\
    sync_event_map db' = sync_event_map db /\ sync_meta db' = sync_meta db /\
    snapshots db' = snapshots db /\ (db_ok db -> db_ok db') /\ preserves db db'.
Proof.
  revert v db. induction l as [|e l IH]; intros v db Hc Hnd Hi Hp.
  { exists [], db. rewrite app_nil_r. split_and!; try done. apply preserves_refl. }
  apply consecutive_cons in Hc as [Hv Hc]. simpl in Hnd. apply NoDup_cons in Hnd as [Hne Hnd].
  apply Forall_cons in Hi as [Hi1 Hi].
  assert (insertable (columns ty e) db = true) as Hins.
  { unfold insertable, has_event. rewrite andb_true_iff, !negb_true_iff, !bool_decide_eq_false.
    split; [done|]. apply Hp. left. }
  destruct (IH (v + 1)%Z (append_row (columns ty e) db)) as (rows & db' & Hrun & H1 & H2 & H3 & H4 & H5 & H6 & H7);
    [done|done| | |].
  { rewrite Forall_forall in Hi |- *. intros x Hx. rewrite event_ids_append, elem_of_app. intros [?|Hin].
    - by apply (Hi x Hx).
    - apply list_elem_of_singleton in Hin. simpl in Hin. apply Hne. rewrite <- Hin. by apply list_elem_of_fmap_2. }
  { intros x Hx. unfold places, append_row. simpl. rewrite map_app, elem_of_app. intros [Hin|Hin].
    - apply (Hp x); [by right|done].
    - apply list_elem_of_singleton in Hin. unfold place in Hin. simpl in Hin. injection Hin as _ Hver.
      unfold consecutive in Hc.
      assert (ea_version x ∈ map ea_version l) as Hm by (by apply list_elem_of_fmap_2).
      rewrite Hc in Hm. apply list_elem_of_fmap in Hm as (k & Hk & _). lia. }
  exists (Stored (next_commit_sequence db) (columns ty e) :: rows), db'. simpl.
  unfold mbind, js_bind, insert_event. rewrite Hins, Hrun. unfold mret, js_ret.
  split; [done|]. split; [simpl; by rewrite H1|].
  split; [rewrite H2; unfold append_row; simpl; by rewrite <- app_assoc|].
  split; [done|]. split; [done|]. split; [done|]. split.
  - intros Hok. apply H6. by apply append_row_ok.
  - eapply preserves_trans; [apply append_row_preserves|exact H7].
Qed.

Lemma insert_by_version_perm e l : insert_by_version e l ≡ₚ e :: l.
Proof.
  induction l as [|x l IH]; [done|]. simpl. destruct (_ <=? _)%Z; [done|]. rewrite IH. constructor.
Qed.

Lemma sort_by_version_perm l : sort_by_version l ≡ₚ l.
Proof. induction l as [|e l IH]; [done|]. simpl. by rewrite insert_by_version_perm, IH. Qed.

Lemma insert_all_error ty l db err db' :
  insert_all ty l db = (Err err, db') -> err = constraint_violation.
Proof.
  revert db. induction l as [|e l IH]; intros db; simpl; [done|].
  rewrite js_bind_err. intros [H|(row & db1 & H & Hr)].
  - unfold insert_event in H. destruct (insertable _ _); [done|]. by injection H as <- _.
  - apply js_bind_err in Hr as [Hr|(rows & db2 & _ & Hr)]; [by eapply IH|done].
Qed.

(** Inserting keeps the tables well formed, whatever is inserted. *)
Lemma insert_all_ok ty l db rows db' :
  db_ok db -> insert_all ty l db = (Ok rows, db') -> db_ok db' /\ preserves db db'.
Proof.
  revert db rows. induction l as [|e l IH]; intros db rows Hok; simpl.
  { intros [= _ <-]. split; [done|apply preserves_refl]. }
  rewrite js_bind_ok. intros (row & db1 & H1 & H2). apply js_bind_ok in H2 as (rows' & db2 & H2 & H3).
  unfold insert_event in H1. destruct (insertable _ _) eqn:E; [|done]. injection H1 as _ <-.
  unfold mret, js_ret in H3. injection H3 as _ <-.
  destruct (IH (append_row (columns ty e) db) rows') as [Hok' Hp]; [by apply append_row_ok|done|].
  split; [done|]. eapply preserves_trans; [apply append_row_preserves|done].
Qed.

Lemma read_start_spec ty known db r db' :
  readExpectedStartVersion ty known db = (r, db') ->
  db' = db /\ match r with Ok _ => True | Err err => exists m, err = ConcurrencyError m end.
Proof.
  unfold readExpectedStartVersion, reads. intros [= <- <-]. split; [done|].
  destruct (k_version known); [|done]. destruct (negb _); [by eexists|done].
Qed.

Lemma insert_all_rows ty l db rows db' :
  insert_all ty l db = (Ok rows, db') ->
  events db' = events db ++ rows /\ map cols rows = map (columns ty) l.
Proof.
  revert db rows. induction l as [|e l IH]; intros db rows; simpl.
  { intros [= <- <-]. by rewrite app_nil_r. }
  rewrite js_bind_ok. intros (row & db1 & H1 & H2). apply js_bind_ok in H2 as (rows' & db2 & H2 & H3).
  unfold insert_event in H1. destruct (insertable _ _) eqn:E; [|done]. injection H1 as <- <-.
  unfold mret, js_ret in H3. injection H3 as <- <-.
  apply IH in H2 as [-> H2]. simpl. rewrite H2. split; [|done]. by rewrite <- app_assoc.
Qed.

Lemma fold_max_in vs v : fold_left Z.max vs v = v \/ fold_left Z.max vs v ∈ vs.
Proof.
  revert v. induction vs as [|x vs IH]; intros v; simpl; [by left|].
  destruct (IH (Z.max v x)) as [->|H]; [|right; by right].
  destruct (Z.max_spec v x) as [[_ ->]|[_ ->]]; [right; left|by left].
Qed.

(** An aggregate whose versions are [1], ..., [n] in some order. *)
Lemma max_version_count ty ai db n :
  aggregate_versions ty ai db ≡ₚ map (fun k => (1 + Z.of_nat k)%Z) (seq 0 n) ->
  max_version ty ai db = Z.of_nat n.
Proof.
  intros Hp. unfold max_version. destruct (aggregate_versions ty ai db) as [|v vs].
  { apply Permutation_nil_l in Hp. by destruct n. }
  destruct n as [|n]; [by apply symmetry, Permutation_nil_cons in Hp|].
  destruct (fold_max_spec vs v) as [Hv Hall]. rewrite Forall_forall in Hall.
  assert (Z.of_nat (S n) ∈ v :: vs) as Hn.
  { rewrite Hp. apply list_elem_of_fmap. exists n. split; [lia|]. apply elem_of_seq. lia. }
  assert (forall x, x ∈ v :: vs -> (x <= Z.of_nat (S n))%Z) as Hle.
  { intros x. rewrite Hp. intros (k & -> & Hk)%list_elem_of_fmap. apply elem_of_seq in Hk. lia. }
  apply Z.le_antisymm.
  - apply Hle. destruct (fold_max_in vs v) as [->|H]; [by left|by right].
  - apply elem_of_cons in Hn as [->|Hn]; [done|by apply Hall].
Qed.

Lemma sort_consecutive v l : consecutive v l -> sort_by_version l = l.
Proof.
  revert v. induction l as [|e l IH]; intros v; [done|]. intros [He Hl]%consecutive_cons.
  simpl. rewrite (IH _ Hl). destruct l as [|x l]; [done|]. apply consecutive_cons in Hl as [Hx _].
  simpl. by rewrite (proj2 (Z.leb_le _ _)) by lia.
Qed.

Lemma min_version_consecutive v e l : consecutive v (e :: l) -> min_version (e :: l) = Some v.
Proof.
  intros [He Hl]%consecutive_cons. unfold min_version. simpl. rewrite He. f_equal. clear He e.
  assert (forall w, (v <= w)%Z -> consecutive w l -> fold_left Z.min (map ea_version l) v = v) as H.
  { clear Hl. induction l as [|x l IH]; intros w Hw Hc; [done|]. apply consecutive_cons in Hc as [Hx Hc].
    simpl. rewrite Z.min_l by lia. apply (IH (w + 1)%Z); [lia|done]. }
  apply (H (v + 1)%Z); [lia|done].
Qed.

Lemma check_monotonic_consecutive ai v l : consecutive v l -> check_monotonic ai v l = Ok tt.
Proof. apply check_monotonic_spec. Qed.

(** Appending, undisturbed, events that continue the stored versions. *)
Lemma append_consecutive ty ai l db :
  db_ok db -> l <> [] -> Forall (fun e => ea_aggregateId e = ai) l ->
  NoDup (map ea_eventId l) -> Forall (fun e => ea_eventId e ∉ event_ids db) l ->
  (0 <= max_version ty ai db)%Z -> consecutive (max_version ty ai db + 1) l ->
  exists rows db', append (fun d => d) ty ai l db = (Ok tt, db') /\
    map cols rows = map (columns ty) l /\ events db' = events db ++ rows /\
    sync_event_map db' = sync_event_map db /\ sync_meta db' = sync_meta db /\
    snapshots db' = snapshots db /\ db_ok db' /\ preserves db db'.
Proof.
  intros Hok Hne Hai Hnd Hids Hmax Hc.
  assert (map (in_aggregate ai) l = l) as Hmap.
  { clear -Hai. induction Hai as [|e l <- _ IH]; [done|]. simpl. rewrite IH. by destruct e. }
  destruct l as [|e l]; [done|]. unfold append, expectedPreviousVersion.
  rewrite (min_version_consecutive _ _ _ Hc), Hmap, (proj2 (Z.ltb_lt _ _)) by lia.
  unfold appendForAggregate. rewrite (sort_consecutive _ _ Hc). unfold readExpectedStartVersion, reads, mbind, js_bind.
  cbn [k_version k_aggregateId]. rewrite (proj2 (Z.eqb_eq _ _)) by lia. cbn [negb].
  pose proof Hc as [He Hl]%consecutive_cons. rewrite (proj2 (Z.eqb_eq _ _)) by lia. cbn [negb].
  unfold lift_result. rewrite (check_monotonic_consecutive ai _ _ Hl). unfold modify, tryInsertWithReturning, try_catch, transaction.
  destruct (insert_all_run ty _ (e :: l) db Hc Hnd Hids) as (rows & db' & -> & H1 & H2 & H3 & H4 & H5 & H6 & H7).
  - intros x Hx. apply max_version_spec. rewrite Forall_forall in Hai. rewrite (Hai x Hx).
    assert (ea_version x ∈ map ea_version (e :: l)) as Hin by (by apply list_elem_of_fmap_2).
    unfold consecutive in Hc. rewrite Hc in Hin. apply list_elem_of_fmap in Hin as (k & -> & _). lia.
  - exists rows, db'. split_and!; auto.
Qed.

End EventStoreLemmas.

Module EventStoreProperties.
Import EventStoreLemmas.

(** C9: Appending events of one aggregate (at least one, with ids that are distinct and not
    yet stored), no other writer interfering, succeeds exactly when the caller's known
    version is the stored one (or none is given) and the versions, sorted, continue it one
    by one: the rows are then added at the end in version order. Otherwise a concurrency
    error is thrown and nothing is written. *)
Theorem append_concurrency (ty ai : string) (known : option Z) (l : list EncryptedEventToAppend) (db : local_db) :
  db_ok db -> l <> [] -> Forall (fun e => ea_aggregateId e = ai) l ->
  NoDup (map ea_eventId l) -> Forall (fun e => ea_eventId e ∉ event_ids db) l ->
  let start := (max_version ty ai db + 1)%Z in
  if decide ((known = None \/ known = Some (max_version ty ai db)) /\ consecutive start (sort_by_version l))
  then exists rows db', appendForAggregate (fun d => d) ty (Known ai known) l db = (Ok rows, db') /\
    map cols rows = map (columns ty) (sort_by_version l) /\ events db' = events db ++ rows /\
    sync_event_map db' = sync_event_map db /\ db_ok db' /\ preserves db db'
  else exists m, appendForAggregate (fun d => d) ty (Known ai known) l db = (Err (ConcurrencyError m), db).
Proof.
  intros Hok Hne Hai Hnd Hids start. unfold appendForAggregate.
  pose proof (sort_by_version_perm l) as Hperm.
  destruct (sort_by_version l) as [|first rest] eqn:Hsort.
  { exfalso. apply Hne. by apply Permutation_nil_l in Hperm. }
  unfold mbind, js_bind, readExpectedStartVersion, reads. cbn [k_version k_aggregateId].
  assert (forall k : string * Z, (known = None \/ known = Some (max_version ty ai db)) \/
    exists v, known = Some v /\ (max_version ty ai db =? v)%Z = false) as Hknown.
  { intros _. destruct known as [v|]; [|by left; left].
    destruct (Z.eqb_spec (max_version ty ai db) v); [left; right; congruence|right; exists v; split; [done|by apply Z.eqb_neq]]. }
  destruct (Hknown ("", 0%Z)) as [Hk|(v & -> & Hv)]; clear Hknown.
  2: { rewrite decide_False; [|intros [[?|Hx] _]; [done|injection Hx; lia]].
       rewrite Hv. simpl. by eexists. }
  assert (match known with
    | Some v => if negb (max_version ty ai db =? v)%Z then
        Err (ConcurrencyError ("Version mismatch for " +:+ ai +:+ ": expected " +:+ string_of_Z v +:+
          ", got " +:+ string_of_Z (max_version ty ai db)))
        else Ok (max_version ty ai db + 1)%Z
    | None => Ok (max_version ty ai db + 1)%Z end = Ok start) as ->.
  { destruct Hk as [->| ->]; [done|]. by rewrite Z.eqb_refl. }
  fold start. destruct (Z.eqb_spec (ea_version first) start) as [Hf|Hf]; cbn [negb]; cbv iota.
  2: { rewrite decide_False; [by eexists|]. intros [_ Hc%consecutive_cons]. tauto. }
  unfold lift_result. destruct (check_monotonic ai (start + 1) rest) as [[]|err] eqn:Hm.
  2: { rewrite decide_False.
       - apply check_monotonic_error in Hm as [m ->]. by eexists.
       - intros [_ [_ Hc]%consecutive_cons]. apply (check_monotonic_spec ai) in Hc. congruence. }
  apply check_monotonic_spec in Hm.
  assert (consecutive start (first :: rest)) as Hc by (by apply consecutive_cons).
  rewrite decide_True by done. unfold modify, tryInsertWithReturning, try_catch, transaction.
  cbv beta iota delta [negb]. rewrite <- Hperm in Hids, Hai.
  destruct (insert_all_run ty start (first :: rest) db) as (rows & db' & -> & H1 & H2 & H3 & _ & _ & H4 & H5);
    [done|by rewrite Hperm|done| |].
  - intros e He. apply max_version_spec. rewrite Forall_forall in Hai. rewrite (Hai e He).
    assert (ea_version e ∈ map ea_version (first :: rest)) as Hin by (by apply list_elem_of_fmap_2).
    unfold consecutive in Hc. rewrite Hc in Hin. apply list_elem_of_fmap in Hin as (k & -> & _). lia.
  - exists rows, db'. split_and!; auto.
Qed.

(** Whatever another tab writes between the version check and the insert, an append
    writes either all of its events after what is there or none, keeps the tables'
    constraints, and fails only with a concurrency error or the database's constraint
    violation. *)
Theorem append_atomic (others : local_db -> local_db) (ty ai : string)
    (l : list EncryptedEventToAppend) (db : local_db) :
  db_ok db -> (forall d, db_ok d -> db_ok (others d)) ->
  let '(r, db') := append others ty ai l db in
  db_ok db' /\
  match r with
  | Ok _ => exists rows, events db' = events (if decide (l = []) then db else others db) ++ rows /\
      map cols rows = map (columns ty) (sort_by_version (map (in_aggregate ai) l))
  | Err err => (db' = db \/ db' = others db) /\
      ((exists m, err = ConcurrencyError m) \/ err = constraint_violation)
  end.
Proof.
  intros Hok Hothers. unfold append. destruct l as [|e l].
  { split; [done|]. exists []. by rewrite app_nil_r. }
  rewrite decide_False by done. unfold mbind, js_bind, skip.
  assert (let '(r, db') := appendForAggregate others ty (Known ai (expectedPreviousVersion (e :: l)))
      (map (in_aggregate ai) (e :: l)) db in
    db_ok db' /\
    match r with
    | Ok rows => events db' = events (others db) ++ rows /\
        map cols rows = map (columns ty) (sort_by_version (map (in_aggregate ai) (e :: l)))
    | Err err => (db' = db \/ db' = others db) /\
        ((exists m, err = ConcurrencyError m) \/ err = constraint_violation)
    end) as H.
  { unfold appendForAggregate. pose proof (sort_by_version_perm (map (in_aggregate ai) (e :: l))) as Hp.
    destruct (sort_by_version _) as [|first rest]; [by apply Permutation_nil_cons in Hp|].
    unfold mbind, js_bind.
    destruct (readExpectedStartVersion _ _ db) as [[start|err] db1] eqn:Hstart;
      apply read_start_spec in Hstart as [-> Herr].
    2: { split; [done|]. split; [by left|by left]. }
    destruct (negb (ea_version first =? start)%Z).
    { split; [done|]. split; [by left|]. left. by eexists. }
    unfold lift_result, modify. destruct (check_monotonic _ _ rest) as [[]|err] eqn:Hm.
    2: { split; [done|]. split; [by left|]. left. by eapply check_monotonic_error. }
    unfold tryInsertWithReturning, try_catch, transaction.
    destruct (insert_all ty (first :: rest) (others db)) as [[rows|err] db'] eqn:E.
    - pose proof (insert_all_ok _ _ _ _ _ (Hothers db Hok) E) as [Hok' _]. split; [done|].
      by eapply insert_all_rows.
    - apply insert_all_error in E as ->. split; [by apply Hothers|]. split; [by right|].
      right. done. }
  destruct (appendForAggregate _ _ _ _ db) as [[rows|err] db']; destruct H as [Hok' H]; split; try done.
  by exists rows.
Qed.

End EventStoreProperties.

(** ** Witnesses *)

Module EventStoreWitnesses.
Import EventStoreLemmas.

Definition new_event (i : string) (v : Z) : EncryptedEventToAppend :=
  ToAppend i "g1" "GoalSummaryChanged" [0]%Z v (num 0) None None None.

Lemma append_concurrency_witness :
  exists rows db', appendForAggregate (fun d => d) "goal" (Known "g1" (Some 0%Z))
    [new_event "e2" 2; new_event "e1" 1] empty_db = (Ok rows, db') /\
    map (fun e => (commit_sequence e, id (cols e))) rows = [(1%Z, "e1"); (2%Z, "e2")].
Proof.
  destruct (EventStoreProperties.append_concurrency "goal" "g1" (Some 0%Z)
    [new_event "e2" 2; new_event "e1" 1] empty_db db_ok_empty) as (rows & db' & H & _).
  - done.
  - by repeat constructor.
  - by apply (bool_decide_unpack _).
  - by repeat (constructor; [by apply (bool_decide_unpack _)|]).
  - exists rows, db'. split; [exact H|]. vm_compute in H. by injection H as <- _.
Defined.

(** Another tab takes version 1 between the read and the batch. *)
Definition other_tab (db : local_db) : local_db := append_row (columns "goal" (new_event "x" 1)) db.

Lemma append_atomic_witness :
  db_ok (snd (append (insert_event_or_ignore (columns "goal" (new_event "x" 1))) "goal" "g1"
    [new_event "e1" 1] empty_db)).
Proof.
  pose proof (EventStoreProperties.append_atomic
    (insert_event_or_ignore (columns "goal" (new_event "x" 1))) "goal" "g1" [new_event "e1" 1] empty_db
    db_ok_empty (insert_event_or_ignore_ok _)) as H.
  destruct (append _ _ _ _ _). exact (proj1 H).
Defined.

(** A lost race surfaces as the port's raw error, not as the [ConcurrencyError]
    the repositories and the saga look for: the port's code reads
    [ConstraintViolationError], and the appender looks for [CONSTRAINT] in it. *)
Lemma lost_race_not_recognised :
  append other_tab "goal" "g1" [new_event "e1" 1] empty_db =
    (Err (DbError "ConstraintViolationError" "UNIQUE constraint failed"), other_tab empty_db).
Proof. reflexivity. Qed.

End EventStoreWitnesses.
