(* ===== verification/PendingRewriter.v ===== *)
(** * Rewriting the versions of pending events

    When a remote event claims a version that a local pending (not yet pushed)
    event of the same aggregate holds, the pending events from that version on
    move up by one; each is decrypted and encrypted again, because a ciphertext
    is bound to its version ([packages/infrastructure/src/sync/PendingEventVersionRewriter.ts]).

    [PendingVersionRewriterPort] (packages/sync-engine/src/types.ts) is the
    interface the sync engine uses, with the laws it needs;
    [PendingEventVersionRewriter] implements it over any [CryptoServicePort].
    The keyring manager is the argument [keys] (the key it resolves for an
    aggregate, or its error), and [random db n] is the [n]-th draw of random
    bytes of a run on [db]. *)

From S2P Require Import Prelude JsValues Crypto RecordCodec LocalDb.
From Stdlib Require Import Sorted.

Record PendingVersionRewriteRequest : Type := RewriteRequest {
  rq_aggregateType : string;
  rq_aggregateId : string;
  fromVersionInclusive : Z
}.

Record PendingVersionRewriteResult : Type := RewriteResult {
  request : PendingVersionRewriteRequest;
  shiftedCount : Z;
  oldMaxVersion : option Z;
  newMaxVersion : option Z
}.

(** A pending event the request is about. *)
Definition selected (rq : PendingVersionRewriteRequest) (db : local_db) (e : EventRow) : bool :=
  bool_decide ((aggregate_type (cols e), aggregate_id (cols e)) = (rq_aggregateType rq, rq_aggregateId rq)) &&
  (fromVersionInclusive rq <=? version (cols e))%Z && negb (is_synced (id (cols e)) db).

(** [ORDER BY e.version DESC] *)
Fixpoint insert_desc (e : EventRow) (l : list EventRow) : list EventRow :=
  match l with
  | [] => [e]
  | x :: l' => if (version (cols x) <=? version (cols e))%Z then e :: l else x :: insert_desc e l'
  end.
Definition order_desc (l : list EventRow) : list EventRow := fold_right insert_desc [] l.

Definition pending_from (rq : PendingVersionRewriteRequest) (db : local_db) : list EventRow :=
  order_desc (filter (fun e => selected rq db e = true) (events db)).

Section Rewriter.
Context `{CryptoServicePort}.
Variable keys : string -> result error (list Z).
Variable random : local_db -> nat -> list Z.

Definition event_aad (r : MaterializedEventRow) (v : Z) : list Z :=
  buildEventAad (aggregate_type r) (aggregate_id r) v.

(** The body of the loop. *)
Definition rewrite_row (iv : list Z) (e : EventRow) : dbm unit :=
  let row := cols e in
  let nextVersion := (version row + 1)%Z in
  key ← lift_result (js_error (keys (aggregate_id row)));
  plaintext ← lift_result (js_error
    (decrypt (payload_encrypted row) key (Some (event_aad row (version row)))));
  rewritten ← lift_result (js_error (encrypt iv plaintext key (Some (event_aad row nextVersion))));
  update_event (id row) nextVersion rewritten.

Fixpoint rewrite_loop (draw : nat -> list Z) (n : nat) (rows : list EventRow) : dbm unit :=
  match rows with
  | [] => skip
  | e :: rows' => _ ← rewrite_row (draw n) e; rewrite_loop draw (S n) rows'
  end.

(** [BEGIN] ... [COMMIT], with [ROLLBACK] on any error. *)
Definition rewritePendingVersions (rq : PendingVersionRewriteRequest) : dbm PendingVersionRewriteResult :=
  transaction (
    gets (fun db => (pending_from rq db, random db)) ≫= fun q : list EventRow * (nat -> list Z) =>
    let pending := q.1 in
    let oldMax := (fun e => version (cols e)) <$> head pending in
    _ ← rewrite_loop q.2 0 pending;
    _ ← modify (delete_snapshots (rq_aggregateType rq) (rq_aggregateId rq));
    mret (RewriteResult rq (Z.of_nat (length pending)) oldMax ((fun v => (v + 1)%Z) <$> oldMax))).
End Rewriter.

(** ** The interface *)

(** A rewrite that throws leaves the database as it was; one that returns
    keeps every event and every mapping, and leaves at the version asked for
    no row but a synced one. *)
Class PendingVersionRewriterPort : Type := {
  rewrite_pending : PendingVersionRewriteRequest -> dbm PendingVersionRewriteResult;
  rewrite_law rq db :
    db_ok db ->
    let '(r, db') := rewrite_pending rq db in
    match r with
    | Err _ => db' = db
    | Ok _ =>
        db_ok db' /\ preserves db db' /\ event_ids db' = event_ids db /\
        sync_event_map db' = sync_event_map db /\ sync_meta db' = sync_meta db /\
        forall e, e ∈ events db' ->
          place (cols e) = (rq_aggregateType rq, rq_aggregateId rq, fromVersionInclusive rq) ->
          is_synced (id (cols e)) db = true
    end
}.

(** ** Lemmas *)

Module RewriterLemmas.
Section Lemmas.
Context `{CryptoServicePort}.
Variable keys : string -> result error (list Z).

(** One event moved up by one version, its plaintext the same. *)
Definition shifted (e e' : EventRow) : Prop :=
  let v := version (cols e) in
  exists p key plaintext,
    e' = Stored (commit_sequence e) (with_version (v + 1) p (cols e)) /\
    keys (aggregate_id (cols e)) = Ok key /\
    decrypt (payload_encrypted (cols e)) key (Some (event_aad (cols e) v)) = Ok plaintext /\
    decrypt p key (Some (event_aad (cols e) (v + 1))) = Ok plaintext.

(** The listed events shifted, every other one as it was. *)
Definition shift_of (rows : list EventRow) (e e' : EventRow) : Prop :=
  (e ∈ rows -> shifted e e') /\ (e ∉ rows -> e' = e).

(** The event can be opened with the key that is found for it. *)
Definition readable (e : EventRow) : Prop :=
  exists key plaintext, keys (aggregate_id (cols e)) = Ok key /\
    decrypt (payload_encrypted (cols e)) key (Some (event_aad (cols e) (version (cols e)))) = Ok plaintext.

Lemma update_split db e v p :
  db_ok db -> e ∈ events db -> exists l1 l2, events db = l1 ++ e :: l2 /\
    map (update_row (id (cols e)) v p) (events db) =
      l1 ++ Stored (commit_sequence e) (with_version v p (cols e)) :: l2.
Proof.
  intros Hok He. apply list_elem_of_split in He as (l1 & l2 & E). exists l1, l2. split; [done|].
  destruct Hok as [Hids _ _ _ _ _]. unfold event_ids in Hids. rewrite E in Hids |- *.
  rewrite map_app in Hids. simpl in Hids. apply NoDup_app in Hids as (_ & H1 & H2).
  apply NoDup_cons in H2 as [H2 _].
  assert (forall l, id (cols e) ∉ map (fun x => id (cols x)) l -> map (update_row (id (cols e)) v p) l = l) as Hid.
  { clear. induction l as [|x l IH]; [done|]. simpl. intros Hn. apply not_elem_of_cons in Hn as [Hx Hn].
    rewrite IH by done. unfold update_row. by rewrite decide_False. }
  rewrite map_app. simpl. rewrite !Hid; [|done|].
  - unfold update_row. by rewrite decide_True.
  - intros Hin. apply (H1 _ Hin). left.
Qed.

Lemma update_places db e v p l1 l2 :
  db_ok db -> events db = l1 ++ e :: l2 ->
  (aggregate_type (cols e), aggregate_id (cols e), v) ∉ places db ->
  NoDup (map (fun x => place (cols x))
    (l1 ++ Stored (commit_sequence e) (with_version v p (cols e)) :: l2)).
Proof.
  intros [_ Hp _ _ _ _] E Hn. unfold places in *. rewrite E, map_app in Hp, Hn. simpl in *.
  rewrite map_app. simpl. apply NoDup_app in Hp as (H1 & H2 & H3). apply NoDup_cons in H3 as [H3 H4].
  apply NoDup_app. split; [done|]. split; [|apply NoDup_cons; split; [intros Hx; apply Hn, elem_of_app; right; by right|done]].
  intros x Hx. specialize (H2 x Hx). rewrite not_elem_of_cons in *. split; [|tauto].
  intros ->. apply Hn. apply elem_of_app. by left.
Qed.

Lemma replace_ok db e v p l1 l2 :
  db_ok db -> events db = l1 ++ e :: l2 ->
  let l := l1 ++ Stored (commit_sequence e) (with_version v p (cols e)) :: l2 in
  NoDup (map (fun x => place (cols x)) l) ->
  db_ok (set_events l (next_commit_sequence db) db) /\
  event_ids (set_events l (next_commit_sequence db) db) = event_ids db.
Proof.
  intros [H1 H2 H3 H4 H5 H6] E l Hp.
  assert (event_ids (set_events l (next_commit_sequence db) db) = event_ids db) as Hi.
  { unfold event_ids. simpl. rewrite E. unfold l. by rewrite !map_app. }
  split; [|done]. split; [by rewrite Hi|done| | |done|done].
  - simpl. rewrite E in H3. unfold l. rewrite map_app in *. done.
  - simpl. rewrite E in H4. unfold l. rewrite Forall_app, Forall_cons in *. done.
Qed.

(** The outcomes of one iteration. *)
Lemma rewrite_row_cases iv e db :
  length iv = IV_LENGTH ->
  (~ readable e /\ exists err, rewrite_row keys iv e db = (Err err, db)) \/
  exists key plaintext p, keys (aggregate_id (cols e)) = Ok key /\
    decrypt (payload_encrypted (cols e)) key (Some (event_aad (cols e) (version (cols e)))) = Ok plaintext /\
    decrypt p key (Some (event_aad (cols e) (version (cols e) + 1))) = Ok plaintext /\
    rewrite_row keys iv e db = update_event (id (cols e)) (version (cols e) + 1) p db.
Proof.
  intros Hiv. unfold rewrite_row, readable, lift_result, mbind, js_bind.
  destruct (keys (aggregate_id (cols e))) as [key|err]; simpl.
  2: { left. split; [|by eexists]. by intros (k & p & ? & _). }
  destruct (decrypt _ key _) as [plaintext|err] eqn:Hdec; simpl.
  2: { left. split; [|by eexists]. intros (k & p & [= <-] & Hd). congruence. }
  right. destruct (reencrypt iv _ key _ (Some (event_aad (cols e) (version (cols e) + 1))) _ Hiv Hdec)
    as (p & Henc & Hdec'). exists key, plaintext, p. rewrite Henc. done.
Qed.

(** What the loop does, if it returns, to rows it may touch. *)
Lemma rewrite_loop_spec draw n rows db r db' :
  (forall k, length (draw k) = IV_LENGTH) ->
  db_ok db -> NoDup (map (fun e => id (cols e)) rows) -> Forall (fun e => e ∈ events db) rows ->
  rewrite_loop keys draw n rows db = (r, db') ->
  db_ok db' /\ event_ids db' = event_ids db /\ next_commit_sequence db' = next_commit_sequence db /\
  snapshots db' = snapshots db /\ sync_event_map db' = sync_event_map db /\ sync_meta db' = sync_meta db /\
  (r = Ok tt -> Forall2 (shift_of rows) (events db) (events db')).
Proof.
  intros Hiv. revert n db. induction rows as [|e rows IH]; intros n db Hok Hnd Hin Hrun.
  { injection Hrun as <- <-. split_and!; try done. intros _.
    apply Forall2_same_length_lookup_2; [done|]. intros i x y Hx Hy. rewrite Hx in Hy. injection Hy as <-.
    split; [set_solver|done]. }
  apply Forall_cons in Hin as [He Hin]. simpl in Hnd. apply NoDup_cons in Hnd as [Hne Hnd].
  simpl in Hrun. unfold mbind, js_bind in Hrun.
  destruct (rewrite_row_cases (draw n) e db (Hiv n)) as [[_ [err Hrow]]|(key & plaintext & p & Hkey & Hdec & Hdec' & Hrow)];
    rewrite Hrow in Hrun.
  { injection Hrun as <- <-. by split_and!. }
  unfold update_event in Hrun.
  destruct (update_split db e (version (cols e) + 1) p Hok He) as (l1 & l2 & E & Hmap).
  rewrite Hmap in Hrun. destruct (bool_decide_reflect (NoDup (map (fun e => place (cols e))
    (l1 ++ Stored (commit_sequence e) (with_version (version (cols e) + 1) p (cols e)) :: l2)))) as [Hp|Hp].
  2: { injection Hrun as <- <-. by split_and!. }
  destruct (replace_ok db e (version (cols e) + 1) p l1 l2 Hok E Hp) as [Hok1 Hids].
  apply IH in Hrun as (H1 & H2 & H3 & H4 & H5 & H6 & H7); [|done|done|].
  2: { rewrite Forall_forall in Hin |- *. intros x Hx. specialize (Hin x Hx). simpl.
       rewrite E in Hin. rewrite elem_of_app, elem_of_cons in *. destruct Hin as [?|[->|?]]; [tauto| |tauto].
       exfalso. apply Hne. by apply list_elem_of_fmap_2 with (f := fun e => id (cols e)). }
  split_and!; try done; [congruence|]. intros ->. specialize (H7 eq_refl). simpl in H7.
  assert (forall x, x ∈ l1 \/ x ∈ l2 -> x <> e) as Hother.
  { intros x Hx ->. destruct Hok as [Hd _ _ _ _ _]. unfold event_ids in Hd. rewrite E, map_app in Hd. simpl in Hd.
    apply NoDup_app in Hd as (_ & Hd1 & Hd2). apply NoDup_cons in Hd2 as [Hd2 _].
    destruct Hx as [Hx|Hx].
    - apply (Hd1 (id (cols e))); [by apply list_elem_of_fmap_2 with (f := fun e => id (cols e))|left].
    - apply Hd2. by apply list_elem_of_fmap_2 with (f := fun e => id (cols e)). }
  rewrite E. apply Forall2_app_inv_l in H7 as (k1 & k2 & F1 & F2 & ->).
  apply Forall2_cons_inv_l in F2 as (e' & k3 & Fe & F3 & ->).
  assert (forall l k, Forall2 (shift_of rows) l k -> (forall x, x ∈ l -> x <> e) ->
    Forall2 (shift_of (e :: rows)) l k) as Hweak.
  { intros l k HF. induction HF as [|x y l k [Hs Hu] HF IHF]; intros Hx; constructor.
    - split; [|intros ?%not_elem_of_cons; apply Hu; tauto].
      intros [->|?]%elem_of_cons; [|by apply Hs]. exfalso. apply (Hx e); [left|done].
    - apply IHF. intros z Hz. apply Hx. by right. }
  apply Forall2_app; [apply Hweak; [done|by auto]|]. constructor; [|apply Hweak; [done|by auto]].
  split; [intros _|intros Hno; exfalso; apply Hno; left]. destruct Fe as [_ Fe].
  rewrite Fe; [by exists p, key, plaintext|].
  intros Hin'. apply Hne. by apply (list_elem_of_fmap_2 (fun e => id (cols e))) in Hin'.
Qed.

Definition desc (x y : EventRow) : Prop := (version (cols y) <= version (cols x))%Z.

Lemma insert_desc_perm e l : insert_desc e l ≡ₚ e :: l.
Proof.
  induction l as [|x l IH]; [done|]. simpl. destruct (_ <=? _)%Z; [done|]. rewrite IH. constructor.
Qed.

Lemma order_desc_perm l : order_desc l ≡ₚ l.
Proof. induction l as [|e l IH]; [done|]. simpl. by rewrite insert_desc_perm, IH. Qed.

Lemma insert_desc_sorted e l : StronglySorted desc l -> StronglySorted desc (insert_desc e l).
Proof.
  induction 1 as [|x l Hs IH Hall]; simpl; [repeat constructor|].
  destruct (Z.leb_spec (version (cols x)) (version (cols e))) as [Hle|Hgt].
  - constructor; [by constructor|]. constructor; [exact Hle|].
    eapply Forall_impl; [exact Hall|]. unfold desc. intros y Hy. lia.
  - constructor; [done|]. rewrite insert_desc_perm. constructor; [unfold desc; lia|done].
Qed.

Lemma order_desc_sorted l : StronglySorted desc (order_desc l).
Proof. induction l; [constructor|by apply insert_desc_sorted]. Qed.

(** The loop returns when every row can be read and the place above each one
    is free or held by a row that moves too. *)
Lemma rewrite_loop_ok draw ty ai n rows db :
  (forall k, length (draw k) = IV_LENGTH) ->
  db_ok db -> NoDup (map (fun e => id (cols e)) rows) ->
  Forall (fun e => e ∈ events db /\ (aggregate_type (cols e), aggregate_id (cols e)) = (ty, ai) /\ readable e) rows ->
  StronglySorted desc rows ->
  (forall x, x ∈ rows -> (ty, ai, version (cols x) + 1)%Z ∈ places db ->
    exists y, y ∈ rows /\ version (cols y) = (version (cols x) + 1)%Z) ->
  exists db', rewrite_loop keys draw n rows db = (Ok tt, db').
Proof.
  intros Hiv. revert n db. induction rows as [|e rows IH]; intros n db Hok Hnd Hall Hs Hroom; [by eexists|].
  apply Forall_cons in Hall as [(He & Hagg & Hr) Hall]. simpl in Hnd. apply NoDup_cons in Hnd as [Hne Hnd].
  inversion Hs as [|? ? Hs' Hle]; subst. simpl. unfold mbind, js_bind.
  destruct (rewrite_row_cases (draw n) e db (Hiv n)) as [[Hn _]|(key & plaintext & p & Hkey & Hdec & Hdec' & Hrow)];
    [done|]. rewrite Hrow. unfold update_event.
  destruct (update_split db e (version (cols e) + 1) p Hok He) as (l1 & l2 & E & Hmap). rewrite Hmap.
  injection Hagg as Hty Hai.
  assert ((ty, ai, version (cols e) + 1)%Z ∉ places db) as Hfree.
  { intros Hin. destruct (Hroom e ltac:(left) Hin) as (y & Hy & Hv).
    apply elem_of_cons in Hy as [->|Hy]; [lia|]. rewrite Forall_forall in Hle.
    specialize (Hle y Hy). unfold desc in Hle. lia. }
  pose proof (update_places db e (version (cols e) + 1) p l1 l2 Hok E) as Hp. rewrite Hty, Hai in Hp.
  specialize (Hp Hfree). rewrite bool_decide_eq_true_2 by done.
  destruct (replace_ok db e (version (cols e) + 1) p l1 l2 Hok E Hp) as [Hok1 Hids].
  apply IH; [done|done| |done|].
  - rewrite Forall_forall in Hall |- *. intros x Hx. destruct (Hall x Hx) as (Hin & ? & ?).
    split_and!; try done. simpl. rewrite E in Hin. rewrite elem_of_app, elem_of_cons in *.
    destruct Hin as [?|[->|?]]; [tauto| |tauto]. exfalso. apply Hne.
    by apply list_elem_of_fmap_2 with (f := fun e => id (cols e)).
  - intros x Hx Hin. unfold places in Hin. simpl in Hin.
    rewrite Forall_forall in Hall. destruct (Hall x Hx) as (Hxin & Hxagg & _). injection Hxagg as Hxt Hxa.
    assert (version (cols x) <> version (cols e)) as Hvne.
    { intros Hv. destruct Hok as [_ Hpl _ _ _ _]. unfold places in Hpl.
      assert (x = e) as ->.
      { apply list_elem_of_lookup in Hxin as [i Hi], He as [j Hj].
        assert (i = j) as ->; [|congruence].
        eapply (NoDup_lookup _ i j (place (cols e)) Hpl); rewrite list_lookup_fmap.
        - rewrite Hi. simpl. f_equal. unfold place. congruence.
        - by rewrite Hj. }
      apply Hne. by apply list_elem_of_fmap_2 with (f := fun e => id (cols e)). }
    assert ((ty, ai, version (cols x) + 1)%Z ∈ places db) as Hin'.
    { unfold places. rewrite E, !map_app, elem_of_app in *. cbn [map cols] in *.
      rewrite elem_of_cons in *. destruct Hin as [?|[Heq|?]]; [tauto| |tauto].
      unfold place, with_version in Heq. simpl in Heq. injection Heq as _ _ Heq. lia. }
    destruct (Hroom x ltac:(by right) Hin') as (y & [->|Hy]%elem_of_cons & Hv); [|by exists y].
    exfalso. unfold places in Hin. rewrite map_app, elem_of_app in Hin. cbn [map cols] in Hin.
    rewrite elem_of_cons in Hin.
    destruct Hok as [_ Hpl _ _ _ _]. unfold places in Hpl. rewrite E, map_app in Hpl. cbn [map] in Hpl.
    apply NoDup_app in Hpl as (_ & Hpl1 & Hpl2). apply NoDup_cons in Hpl2 as [Hpl2 _].
    assert (place (cols e) = (ty, ai, version (cols x) + 1)%Z) as Hpe by (unfold place; congruence).
    destruct Hin as [Hin|[Heq|Hin]].
    + apply (Hpl1 _ Hin). rewrite <- Hpe. left.
    + unfold place, with_version in Heq. simpl in Heq. injection Heq as _ _ Heq. lia.
    + apply Hpl2. by rewrite Hpe.
Qed.

End Lemmas.
End RewriterLemmas.

(** ** Properties *)

Module RewriterProperties.
Import RewriterLemmas.
Section Properties.
Context `{CryptoServicePort}.
Variable keys : string -> result error (list Z).
Variable random : local_db -> nat -> list Z.
Hypothesis random_length : forall db n, length (random db n) = IV_LENGTH.

Lemma pending_from_in rq db e :
  e ∈ pending_from rq db <-> e ∈ events db /\ selected rq db e = true.
Proof. unfold pending_from. rewrite order_desc_perm, list_elem_of_filter. tauto. Qed.

Lemma pending_from_nodup rq db : db_ok db -> NoDup (map (fun e => id (cols e)) (pending_from rq db)).
Proof.
  intros [Hids _ _ _ _ _]. unfold pending_from. rewrite order_desc_perm.
  unfold event_ids in Hids. clear -Hids. revert Hids. generalize (selected rq db).
  intros p. induction (events db) as [|e l IH]; intros Hids; [constructor|]. simpl in Hids.
  apply NoDup_cons in Hids as [Hn Hids]. specialize (IH Hids).
  destruct (decide (p e = true)); [rewrite filter_cons_True by done|by rewrite filter_cons_False].
  simpl. apply NoDup_cons. split; [|done]. intros Hin. apply Hn.
  apply list_elem_of_fmap in Hin as (x & Hx & Hin). apply list_elem_of_filter in Hin as [_ Hin].
  rewrite Hx. by apply list_elem_of_fmap_2 with (f := fun e => id (cols e)).
Qed.

Lemma rewrite_run rq db :
  db_ok db ->
  let '(r, db') := rewritePendingVersions keys random rq db in
  match r with
  | Err _ => db' = db
  | Ok res =>
      res = RewriteResult rq (Z.of_nat (length (pending_from rq db)))
        ((fun e => version (cols e)) <$> head (pending_from rq db))
        ((fun v => (v + 1)%Z) <$> ((fun e => version (cols e)) <$> head (pending_from rq db))) /\
      Forall2 (shift_of keys (pending_from rq db)) (events db) (events db') /\
      snapshots db' = snapshots (delete_snapshots (rq_aggregateType rq) (rq_aggregateId rq) db) /\
      sync_event_map db' = sync_event_map db /\ sync_meta db' = sync_meta db /\
      event_ids db' = event_ids db /\ db_ok db'
  end /\
  is_ok r = is_ok (rewrite_loop keys (random db) 0 (pending_from rq db) db).1.
Proof.
  intros Hok. unfold rewritePendingVersions, transaction, mbind, js_bind, gets, modify. cbn [fst snd].
  destruct (rewrite_loop keys (random db) 0 (pending_from rq db) db) as [r db1] eqn:E.
  pose proof (rewrite_loop_spec keys (random db) 0 (pending_from rq db) db r db1 (random_length db) Hok
    (pending_from_nodup rq db Hok)) as Hspec.
  destruct Hspec as (H1 & H2 & H3 & H4 & H5 & H6 & H7); [|done|].
  { apply Forall_forall. intros e He. by apply pending_from_in in He as [? _]. }
  destruct r as [[]|err]; [|done]. specialize (H7 eq_refl). cbn. split; [|done].
  split_and!; try done; [by rewrite H4|].
  destruct H1. by split.
Qed.

(** Every kept row of a rewrite. *)
Lemma shift_kept rq db e e' :
  e ∈ events db -> shift_of keys (pending_from rq db) e e' -> kept db e e'.
Proof.
  intros He [Hs Hu]. destruct (selected rq db e) eqn:Hsel.
  - destruct (Hs (proj2 (pending_from_in rq db e) (conj He Hsel))) as (p & key & plain & -> & _).
    split; [done|]. split.
    + unfold selected in Hsel. rewrite !andb_true_iff, negb_true_iff in Hsel. intros Hsy.
      destruct Hsel as [_ Hsel]. congruence.
    + exists (version (cols e) + 1)%Z, p. split; [done|lia].
  - rewrite Hu; [apply kept_refl|]. intros [_ Hin]%pending_from_in. congruence.
Qed.

Lemma rewrite_preserves rq db db' :
  Forall2 (shift_of keys (pending_from rq db)) (events db) (events db') ->
  sync_event_map db' = sync_event_map db -> preserves db db'.
Proof.
  intros HF Hm. split; [|by rewrite Hm]. intros e He.
  apply list_elem_of_lookup in He as [i Hi]. destruct (Forall2_lookup_l _ _ _ _ _ HF Hi) as (e' & Hi' & Hs).
  exists e'. split; [by eapply list_elem_of_lookup_2|]. eapply shift_kept; [by eapply list_elem_of_lookup_2|done].
Qed.

(** After a rewrite the version asked for is held by a synced row or free. *)
Lemma rewrite_frees rq db db' e' :
  Forall2 (shift_of keys (pending_from rq db)) (events db) (events db') ->
  e' ∈ events db' ->
  place (cols e') = (rq_aggregateType rq, rq_aggregateId rq, fromVersionInclusive rq) ->
  is_synced (id (cols e')) db = true.
Proof.
  intros HF He' Hp. apply list_elem_of_lookup in He' as [i Hi'].
  destruct (Forall2_lookup_r _ _ _ _ _ HF Hi') as (e & Hi & Hs & Hu).
  pose proof (list_elem_of_lookup_2 _ _ _ Hi) as He.
  destruct (selected rq db e) eqn:Hsel.
  - destruct (Hs (proj2 (pending_from_in rq db e) (conj He Hsel))) as (p & key & plain & -> & _).
    unfold selected in Hsel. rewrite !andb_true_iff, Z.leb_le in Hsel. destruct Hsel as [[_ Hle] _].
    unfold place in Hp. simpl in Hp. injection Hp as _ _ Hv. lia.
  - rewrite Hu in * by (intros [_ Hin]%pending_from_in; congruence).
    apply not_false_iff_true. intros Hn. unfold selected in Hsel. rewrite Hn in Hsel.
    unfold place in Hp. injection Hp as Hty Hai Hv. rewrite Hty, Hai, Hv, Z.leb_refl in Hsel.
    rewrite bool_decide_eq_true_2 in Hsel by done. done.
Qed.

Lemma rewriter_law rq db :
  db_ok db ->
  let '(r, db') := rewritePendingVersions keys random rq db in
  match r with
  | Err _ => db' = db
  | Ok _ =>
      db_ok db' /\ preserves db db' /\ event_ids db' = event_ids db /\
      sync_event_map db' = sync_event_map db /\ sync_meta db' = sync_meta db /\
      forall e, e ∈ events db' ->
        place (cols e) = (rq_aggregateType rq, rq_aggregateId rq, fromVersionInclusive rq) ->
        is_synced (id (cols e)) db = true
  end.
Proof.
  intros Hok. pose proof (rewrite_run rq db Hok) as Hr.
  destruct (rewritePendingVersions keys random rq db) as [[res|err] db'];
    [|exact (proj1 Hr)].
  destruct Hr as [(Hres & HF & Hsn & Hm & Hmeta & Hids & Hok') _]. split_and!; try done.
  - by eapply rewrite_preserves.
  - intros e. by apply rewrite_frees.
Qed.

#[export] Instance PendingEventVersionRewriter : PendingVersionRewriterPort := {|
  rewrite_pending := rewritePendingVersions keys random;
  rewrite_law := rewriter_law
|}.
End Properties.

(** C8: Rewriting an aggregate's pending events from a version on either fails and changes
    nothing, or moves each of them up by one version, sealed again with the same plaintext
    under the associated data of the new version, leaves every other event alone and deletes
    exactly the aggregate's snapshots; and it succeeds when those events can be opened and
    no synced event stands right above one of them. *)
Theorem pending_rewrite `{CryptoServicePort} (keys : string -> result error (list Z))
    (random : local_db -> nat -> list Z) (rq : PendingVersionRewriteRequest) (db : local_db) :
  (forall db n, length (random db n) = IV_LENGTH) -> db_ok db ->
  let '(r, db') := rewritePendingVersions keys random rq db in
  match r with
  | Err _ => db' = db
  | Ok res =>
      shiftedCount res = Z.of_nat (length (filter (fun e => selected rq db e = true) (events db))) /\
      Forall2 (fun e e' => if selected rq db e then shifted keys e e' else e' = e)
        (events db) (events db') /\
      (forall s, s ∈ snapshots db' <-> s ∈ snapshots db /\
        (s_aggregate_type s, s_aggregate_id s) <> (rq_aggregateType rq, rq_aggregateId rq)) /\
      sync_event_map db' = sync_event_map db /\ sync_meta db' = sync_meta db /\ db_ok db'
  end /\
  ((forall e, e ∈ events db -> selected rq db e = true -> readable keys e /\
     forall x, x ∈ events db ->
       place (cols x) = (rq_aggregateType rq, rq_aggregateId rq, (version (cols e) + 1)%Z) ->
       is_synced (id (cols x)) db = false) ->
   is_ok r = true).
Proof.
  intros Hrand Hok. pose proof (rewrite_run keys random Hrand rq db Hok) as Hr.
  destruct (rewritePendingVersions keys random rq db) as [r db'] eqn:E. destruct Hr as [Hr Hloop]. split.
  - destruct r as [res|err]; [|done]. destruct Hr as (-> & HF & Hsn & Hm & Hmeta & Hids & Hok').
    split_and!; try done.
    + simpl. unfold pending_from. by rewrite order_desc_perm.
    + apply Forall2_same_length_lookup_2; [by eapply Forall2_length|]. intros i e e' Hi Hi'.
      pose proof (list_elem_of_lookup_2 _ _ _ Hi) as He.
      destruct (Forall2_lookup_lr _ _ _ _ _ _ HF Hi Hi') as [Hs Hu]. destruct (selected rq db e) eqn:Hsel.
      * apply Hs, pending_from_in. done.
      * apply Hu. intros [_ Hin]%pending_from_in. congruence.
    + intros s. rewrite Hsn. simpl. rewrite list_elem_of_filter, negb_true_iff, bool_decide_eq_false. tauto.
  - intros Hgood. rewrite Hloop.
    destruct (rewrite_loop_ok keys (random db) (rq_aggregateType rq) (rq_aggregateId rq) 0 (pending_from rq db) db)
      as [db1 ->]; [done|done|by apply pending_from_nodup| | | |done].
    + apply Forall_forall. intros e [He Hsel]%pending_from_in. destruct (Hgood e He Hsel) as [Hrd _].
      split_and!; try done. unfold selected in Hsel. rewrite !andb_true_iff, bool_decide_eq_true in Hsel. tauto.
    + apply order_desc_sorted.
    + intros x [Hx Hsel]%pending_from_in Hin. unfold places in Hin. apply list_elem_of_fmap in Hin as (y & Hp & Hy).
      destruct (Hgood x Hx Hsel) as [_ Hroom]. specialize (Hroom y Hy (eq_sym Hp)).
      unfold place in Hp. injection Hp as Hty Hai Hv. exists y. split; [|done].
      apply pending_from_in. split; [done|]. unfold selected in *.
      rewrite !andb_true_iff, Z.leb_le, negb_true_iff, bool_decide_eq_true in *.
      destruct Hsel as [[_ Hle] _]. split; [split; [congruence|lia]|done].
Qed.

End RewriterProperties.

(** ** Witnesses *)

Module RewriterWitnesses.
Import RewriterLemmas RewriterProperties.

#[local] Existing Instance WebCryptoService.service.
#[local] Instance crypto : CryptoServicePort := WebCryptoService.service ToyGcm.toy.

Definition key_1 : list Z := replicate 32 5%Z.
Definition keys_1 (ai : string) : result error (list Z) :=
  if decide (ai = "g1") then Ok key_1 else Err (PlainError "Missing aggregate key").
Definition zeros (db : local_db) (n : nat) : list Z := replicate 12 0%Z.

(** An event of goal [g1] with the plaintext [[v]]. *)
Definition sealed (i : string) (v : Z) : MaterializedEventRow :=
  EventCols i "goal" "g1" "GoalSummaryChanged"
    (match encrypt (zeros empty_db 0) [v] key_1 (Some (buildEventAad "goal" "g1" v)) with
     | Ok c => c | Err _ => [] end) v (num 0) None None None None None None None None None None None.

(** Version 1 is synced, 2 and 3 are pending. *)
Definition db_1 : local_db :=
  insert_map_or_ignore "e1" 1 0
    (append_row (sealed "e3" 3) (append_row (sealed "e2" 2) (append_row (sealed "e1" 1) empty_db))).

Lemma db_1_ok : db_ok db_1.
Proof.
  apply insert_map_ok. repeat (apply append_row_ok; [|reflexivity]). apply db_ok_empty.
Qed.

Definition rewritten : result failure PendingVersionRewriteResult * local_db :=
  rewritePendingVersions keys_1 zeros (RewriteRequest "goal" "g1" 2) db_1.

Lemma pending_rewrite_witness :
  is_ok rewritten.1 = true /\ map (fun e => version (cols e)) (events rewritten.2) = [1; 3; 4]%Z.
Proof.
  pose proof (pending_rewrite keys_1 zeros (RewriteRequest "goal" "g1" 2) db_1
    (fun _ _ => eq_refl) db_1_ok) as H.
  unfold rewritten. destruct (rewritePendingVersions _ _ _ _) as [r db'] eqn:E. split.
  - apply (proj2 H). intros e He Hs. vm_compute in He. split.
    + unfold readable. repeat (apply elem_of_cons in He as [->|He]; [|])
      ; [exists key_1, [1%Z]|exists key_1, [2%Z]|exists key_1, [3%Z]|by apply not_elem_of_nil in He];
      vm_compute; split; reflexivity.
    + intros x Hx Hp. vm_compute in Hx.
      repeat (apply elem_of_cons in Hx as [->|Hx]; [try reflexivity|]); [|by apply not_elem_of_nil in Hx].
      unfold place in Hp. simpl in Hp. injection Hp as Hp.
      unfold selected in Hs. apply andb_true_iff in Hs as [Hs _]. apply andb_true_iff in Hs as [_ Hs].
      simpl in Hs. apply Z.leb_le in Hs. lia.
  - vm_compute in E. injection E as _ <-. reflexivity.
Defined.

End RewriterWitnesses.
