(* ===== verification/Materializer.v ===== *)
(** * From remote records to event rows

    [SyncRecordMaterializerPort] (packages/sync-engine/src/types.ts): what the
    sync engine asks for to turn a record into a row, and
    [SyncRecordMaterializer] (packages/infrastructure/src/sync), which decrypts
    the record with the aggregate's key and reads the row's metadata from the
    event envelope inside. *)

From S2P Require Import Prelude JsValues JsonText Base64Url Crypto RecordCodec LocalDb.
From Stdlib Require Import Ascii.

(** [Buffer.from(s, 'base64url')]: characters that are no digits are skipped
    and a digit left over is dropped; it never throws. *)
Definition base64url_value (c : Ascii.ascii) : option Z :=
  if is_char "-" c then Some 62%Z else if is_char "_" c then Some 63%Z else base64_value c.

Fixpoint lenient_digits (l : list Z) : list Z :=
  match l with
  | a :: b :: c :: d :: l' =>
      (a * 4 + b / 16) :: (b mod 16 * 16 + c / 4) :: (c mod 4 * 64 + d) :: lenient_digits l'
  | [a; b; c] => [a * 4 + b / 16; b mod 16 * 16 + c / 4]
  | [a; b] => [a * 4 + b / 16]
  | _ => []
  end%Z.

Definition Buffer_from_base64url (s : string) : list Z := lenient_digits (omap base64url_value (chars s)).

(** [s ? Buffer.from(s, 'base64url') : null]: the empty string is falsy. *)
Definition bytes_or_null (s : option string) : option (list Z) :=
  match s with
  | Some s => if (strlen s =? 0)%Z then None else Some (Buffer_from_base64url s)
  | None => None
  end.

(** ** The interface *)

(** A materialized row has the id asked for and sits at the record's version. *)
Class SyncRecordMaterializerPort : Type := {
  materializeRemoteEvent : string -> string -> Z -> result error MaterializedEventRow;
  materialize_law eventId recordJson g row :
    materializeRemoteEvent eventId recordJson g = Ok row ->
    id row = eventId /\
    exists r, parseRecordJson recordJson = Ok r /\
      place row = (aggregateType r, aggregateId r, to_Z (RecordCodec.version r))
}.

Section Materializer.
Context `{CryptoServicePort}.
(** [keyringManager.resolveKeyForEpoch(aggregateId, 0)] *)
Variable keys : string -> result error (list Z).

(** Versions are integers here, as the event store writes them; of a fractional
    one, which the code would hand on, the model keeps the integer part. *)
Definition materialize (eventId recordJson : string) (globalSequence : Z) : result error MaterializedEventRow :=
  record ← parseRecordJson recordJson;
  payloadCiphertext ← decodeRecordPayload record;
  let v := to_Z (RecordCodec.version record) in
  key ← keys (aggregateId record);
  plaintext ← decrypt payloadCiphertext key (Some (buildEventAad (aggregateType record) (aggregateId record) v));
  envelope ← decodeEventEnvelope plaintext;
  let meta := env_meta envelope in
  if negb (bool_decide (em_eventId meta = eventId))
  then Err (PlainError ("EventId mismatch for " +:+ eventId))
  else Ok (EventCols eventId (aggregateType record) (aggregateId record) (em_eventType meta)
    payloadCiphertext v (em_occurredAt meta) (em_actorId meta) (em_causationId meta)
    (em_correlationId meta) (scopeId record) (resourceId record) (resourceKeyId record)
    (grantId record) (bytes_or_null (scopeStateRef record)) (authorDeviceId record)
    (sigSuite record) (bytes_or_null (RecordCodec.signature record))).

Lemma materialize_place eventId recordJson g row :
  materialize eventId recordJson g = Ok row ->
  id row = eventId /\
  exists r, parseRecordJson recordJson = Ok r /\
    place row = (aggregateType r, aggregateId r, to_Z (RecordCodec.version r)).
Proof.
  unfold materialize. intros Hm. inv_ok.
  destruct (negb _); [done|]. inv_ok. split; [done|]. by eexists.
Qed.

#[export] Instance SyncRecordMaterializer : SyncRecordMaterializerPort := {|
  materializeRemoteEvent := materialize;
  materialize_law := materialize_place
|}.
End Materializer.

(** ** Properties *)

(** The columns of [LocalEventRow] the push query selects. *)
Definition local_row (r : MaterializedEventRow) : LocalEventRow :=
  LocalRow (id r) (aggregate_type r) (aggregate_id r) (payload_encrypted r) (version r)
    (scope_id r) (resource_id r) (resource_key_id r) (grant_id r) (scope_state_ref r)
    (author_device_id r) (sig_suite r) (signature r).

Module MaterializerProperties.
Import Base64UrlProperties RecordCodecProperties.

Lemma value_of_url_char c :
  digit c -> base64url_value (if is_char "/" (if is_char "+" c then "-"%char else c)
    then "_"%char else (if is_char "+" c then "-"%char else c)) = base64_value c.
Proof.
  intros (_ & _ & Hm & Hu). destruct (is_char "+" c) eqn:E1.
  - apply is_char_eq in E1. by subst.
  - destruct (is_char "/" c) eqn:E2.
    + apply is_char_eq in E2. by subst.
    + unfold base64url_value. by rewrite Hm, Hu.
Qed.

Lemma lenient_sextets l : Forall byte l -> lenient_digits (sextets l) = l.
Proof.
  revert l. apply (triple_ind (fun l => Forall byte l -> lenient_digits (sextets l) = l));
    intros; simpl; bytes; [done| | |].
  - destruct (div_add_small (a mod 4 * 16) (a mod 4) 0 16) as [-> _]; [lia|lia|]. f_equal. lia.
  - destruct (div_add_small (a mod 4 * 16 + b / 16) (a mod 4) (b / 16) 16) as [-> ->]; [lia|lia|].
    destruct (div_add_small (b mod 16 * 4) (b mod 16) 0 4) as [-> _]; [lia|lia|].
    f_equal; [lia|]. f_equal. lia.
  - destruct (div_add_small (a mod 4 * 16 + b / 16) (a mod 4) (b / 16) 16) as [-> ->]; [lia|lia|].
    destruct (div_add_small (b mod 16 * 4 + c / 64) (b mod 16) (c / 64) 4) as [-> ->]; [lia|lia|].
    rewrite H by done. f_equal; [lia|]. f_equal; [lia|]. f_equal. lia.
Qed.

Lemma buffer_roundtrip l : Forall byte l -> Buffer_from_base64url (encodeBase64Url l) = l.
Proof.
  intros H. unfold Buffer_from_base64url. rewrite encode_digits, chars_of_chars by done.
  replace (omap base64url_value _) with (sextets l); [by apply lenient_sextets|].
  pose proof (sextets_ok l H) as Hs. unfold replace_char. induction Hs as [|v k Hv Hk IH]; [done|].
  simpl. destruct (base64_char_facts v Hv) as [Hval Hd]. rewrite value_of_url_char, Hval by done.
  f_equal. exact IH.
Qed.

Lemma encode_nonempty l : Forall byte l -> l <> [] -> strlen (encodeBase64Url l) <> 0%Z.
Proof.
  intros H Hne. unfold strlen. rewrite encode_digits, length_of_chars by done.
  unfold replace_char. rewrite !length_map. destruct l as [|a [|b [|c l]]]; simpl; lia || done.
Qed.

(** The row's metadata, as the envelope in its ciphertext repeats it. *)
Definition row_envelope (r : MaterializedEventRow) (ev pv : number) (data : json) : EventEnvelope :=
  Envelope ev (EnvelopeMeta (id r) (event_type r) (occurred_at r) (actor_id r) (causation_id r)
    (correlation_id r)) pv (Some data).

(** C14: The row of an event, put on the wire by one device, is rebuilt exactly by another:
    if the aggregate's key opens the ciphertext to the row's own event envelope,
    materialising the pushed record gives back the row, all columns. *)
Theorem materialize_roundtrip `{CryptoServicePort} (keys : string -> result error (list Z))
    (r : MaterializedEventRow) (key : list Z) (ev pv : number) (data : json) (g : Z) :
  row_bytes (local_row r) -> scope_state_ref r <> Some [] -> signature r <> Some [] ->
  keys (aggregate_id r) = Ok key ->
  decrypt (payload_encrypted r) key (Some (buildEventAad (aggregate_type r) (aggregate_id r) (version r))) =
    Ok (encodeEventEnvelope (row_envelope r ev pv data)) ->
  envelope_plain (row_envelope r ev pv data) -> envelope_ok (row_envelope r ev pv data) = true ->
  materialize keys (id r) (toRecordJson (toSyncRecord (local_row r))) g = Ok r.
Proof.
  intros Hb Hs1 Hs2 Hkey Hdec Hplain Henv. unfold materialize.
  destruct Hb as (Hb1 & Hb2 & Hb3). rewrite record_json_roundtrip by done. cbn [mbind result_bind].
  unfold decodeRecordPayload. cbn [toSyncRecord payloadCiphertext local_row l_payload_encrypted].
  change (l_payload_encrypted (local_row r)) with (payload_encrypted r) in Hb1.
  rewrite (proj1 (base64url_roundtrip_lemma _ Hb1)). cbn [mbind result_bind toSyncRecord local_row aggregateId
    aggregateType RecordCodec.version l_aggregate_id l_aggregate_type l_version].
  rewrite Hkey. cbn [mbind result_bind]. rewrite to_Z_num, Hdec. cbn [mbind result_bind].
  rewrite (envelope_roundtrip_lemma _ Hplain Henv). cbn [mbind result_bind row_envelope env_meta em_eventId].
  rewrite bool_decide_eq_true_2 by done. cbn [negb].
  assert (forall o : option (list Z), o <> Some [] -> (forall b, o = Some b -> Forall byte b) ->
    bytes_or_null (encodeBase64Url <$> o) = o) as Hnull.
  { intros [b|] Hne Hb; [|done]. simpl. specialize (Hb b eq_refl).
    destruct (Z.eqb_spec (strlen (encodeBase64Url b)) 0) as [Hz|_].
    - exfalso. apply (encode_nonempty b Hb); congruence.
    - by rewrite buffer_roundtrip. }
  cbn [toSyncRecord local_row scopeStateRef RecordCodec.signature l_scope_state_ref l_signature]. rewrite !Hnull by done.
  by destruct r.
Qed.

End MaterializerProperties.

(** ** Witnesses *)

Module MaterializerWitnesses.
Import RecordCodecProperties MaterializerProperties.

#[local] Instance crypto : CryptoServicePort := WebCryptoService.service ToyGcm.toy.

Definition key_1 : list Z := replicate 32 5%Z.
Definition data_1 : json := JObj [("summary", JStr "read")].

Definition bare_row : MaterializedEventRow :=
  EventCols "e1" "goal" "g1" "GoalSummaryChanged" [] 2 (num 17) (Some "alice") None None
    None None None None (Some [1; 2; 3]%Z) None None None.
Definition row_1 : MaterializedEventRow :=
  match encrypt (replicate 12 0%Z) (encodeEventEnvelope (row_envelope bare_row (num 1) (num 1) data_1))
    key_1 (Some (buildEventAad "goal" "g1" 2)) with
  | Ok c => with_version 2 c bare_row
  | Err _ => bare_row
  end.

Lemma materialize_roundtrip_witness :
  materialize (fun _ => Ok key_1) "e1" (toRecordJson (toSyncRecord (local_row row_1))) 7 = Ok row_1.
Proof.
  apply (materialize_roundtrip (fun _ => Ok key_1) row_1 key_1 (num 1) (num 1) data_1).
  - split; [|split]; [|intros b [= <-]|done]; by apply bytes_check.
  - done.
  - done.
  - done.
  - vm_compute. reflexivity.
  - split_and!; try done. by intros d [= <-].
  - reflexivity.
Defined.

End MaterializerWitnesses.
