(* ===== verification/SyncEngine.v ===== *)
(** * The sync engine ([packages/sync-engine/src/SyncEngine.ts])

    One device's replication loop: [pullOnce] fetches pages of remote events
    and applies them, [pushOnce] sends pending events in commit order and
    records the global sequences the server assigned.

    - The state is the database, the fields of the class that the pull and
      push runs read and write, and the world: what the transport talks to,
      the clock and the random numbers.
    - The transport, the rewriter, the materializer and [onRebaseRequired] are
      arguments, as they are options of the constructor.
    - A run of [pullOnce] or [pushOnce] is executed as one step, as [syncOnce]
      and the [debug] methods do; the two background loops only decide when
      the next run starts (timers and signals are not modelled, their delays
      are).  When the engine is running and a conflict asks for an immediate
      pull, the pull loop performs it; the model runs it in place.
    - The page loop of a pull runs on fuel: [None] is "still pulling". *)

From S2P Require Import Prelude JsValues RecordCodec Sharing LocalDb PendingRewriter Materializer.

(** ** Types ([types.ts]) *)

Inductive SyncDirection : Type := DirPull | DirPush.
Inductive SyncPauseReason : Type := user | offline | backoff.

Record SyncError : Type := SyncErr {
  err_code : SyncErrorCode;
  err_message : string
}.

Inductive SyncStatus : Type :=
| Idle (lastSuccessAt : option Z) (lastError : option SyncError)
| Syncing (direction : SyncDirection) (lastSuccessAt : option Z) (lastError : option SyncError)
| Paused (reason : SyncPauseReason) (lastSuccessAt : option Z) (lastError : option SyncError)
| ErrorStatus (err : SyncError) (retryAt : option Z) (lastSuccessAt : option Z).

Definition status_lastSuccessAt (s : SyncStatus) : option Z :=
  match s with Idle l _ | Syncing _ l _ | Paused _ l _ | ErrorStatus _ _ l => l end.

Definition getLastError (s : SyncStatus) : option SyncError :=
  match s with
  | ErrorStatus e _ _ => Some e
  | Idle _ e | Syncing _ _ e | Paused _ _ e => e
  end.

Record RemoteEvent : Type := Remote {
  re_globalSequence : Z;
  re_eventId : string;
  re_recordJson : string
}.

Record PullResponse : Type := Pulled {
  pr_head : Z;
  pr_events : list RemoteEvent;
  pr_hasMore : bool;
  pr_nextSince : option Z
}.

Record PushEvent : Type := Pushed {
  pe_eventId : string;
  pe_recordJson : string;
  pe_scopeId : option string;
  pe_resourceId : option string;
  pe_resourceKeyId : option string;
  pe_grantId : option string;
  pe_scopeStateRef : option string;
  pe_authorDeviceId : option string
}.

Record PushRequest : Type := Push_ {
  pq_storeId : string;
  pq_expectedHead : Z;
  pq_events : list PushEvent
}.

Inductive PushResponse : Type :=
| PushedOk (head : Z) (assigned : list (string * Z))
| PushedConflict (head : Z) (reason : string) (missing : option (list RemoteEvent)).

Record Transport (W : Type) : Type := {
  transport_push : PushRequest -> js W failure PushResponse;
  transport_pull : string -> Z -> Z -> Z -> js W failure PullResponse
}.
Arguments transport_push {W}.
Arguments transport_pull {W}.

(** ** Errors *)

Definition failure_message (e : failure) : string :=
  match e with
  | ConcurrencyError m | DbError _ m | EngineError _ m _ | JsError (PlainError m) => m
  | JsError (AssertError n m) => n +:+ " " +:+ m
  end.

(** [/unauthorized/i.test(message)] *)
Definition isAuthTransportError (e : failure) : bool :=
  match String.index 0 "unauthorized" (toLowerCase (failure_message e)) with
  | Some _ => true
  | None => false
  end.

(** The error recorded and whether to retry. *)
Definition toSyncEngineError (e : failure) (fallback : SyncError) : SyncError * bool :=
  match e with
  | EngineError code message retryable => (SyncErr code message, retryable)
  | _ =>
      if isAuthTransportError e then (SyncErr auth "Sync unauthorized", false)
      else (fallback, true)
  end.

(** ** Backoff *)

Definition MIN_BACKOFF_MS : Z := 1000.
Definition MAX_BACKOFF_MS : Z := 20000.

(** [Math.round(value * (0.5 + Math.random()))], the random number being
    [random / 2^53] (exact arithmetic for the product). *)
Definition applyJitter (random value : Z) : Z :=
  ((2 * value * (2 ^ 52 + random) + 2 ^ 53) / 2 ^ 54)%Z.

Definition nextBackoffMs (random current min max : Z) : Z :=
  let base := if (current =? 0)%Z then min else Z.min (current * 2) max in
  Z.min (Z.max (applyJitter random base) min) max.

(** ** State *)

Record PullState : Type := PullSt {
  pull_inFlight : bool;
  pull_requested : bool;
  pull_backoffMs : Z;
  pull_notBeforeMs : option Z
}.
Definition createPullState : PullState := PullSt false false 0 None.

Record PushState : Type := PushSt {
  push_inFlight : bool;
  push_requested : bool;
  push_queued : bool;
  signalsSeen : bool;
  push_backoffMs : Z;
  push_notBeforeMs : option Z
}.
Definition createPushState : PushState := PushSt false false false false 0 None.

Record engine (W : Type) : Type := Engine {
  world : W;
  db : local_db;
  running : bool;
  pullState : PullState;
  pushState : PushState;
  status : SyncStatus;
  lastKnownHead : option Z
}.
Arguments Engine {W}.
Arguments world {W}.
Arguments db {W}.
Arguments running {W}.
Arguments pullState {W}.
Arguments pushState {W}.
Arguments status {W}.
Arguments lastKnownHead {W}.

Definition new_engine {W} (w : W) (d : local_db) : engine W :=
  Engine w d false createPullState createPushState (Idle None None) None.

Section Setters.
Context {W : Type}.
Implicit Types s : engine W.
Definition set_world (w : W) s : engine W :=
  Engine w (db s) (running s) (pullState s) (pushState s) (status s) (lastKnownHead s).
Definition set_db (d : local_db) s : engine W :=
  Engine (world s) d (running s) (pullState s) (pushState s) (status s) (lastKnownHead s).
Definition set_pull (p : PullState) s : engine W :=
  Engine (world s) (db s) (running s) p (pushState s) (status s) (lastKnownHead s).
Definition set_push (p : PushState) s : engine W :=
  Engine (world s) (db s) (running s) (pullState s) p (status s) (lastKnownHead s).
(** [setStatus] (the listener is not modelled). *)
Definition set_status (st : SyncStatus) s : engine W :=
  Engine (world s) (db s) (running s) (pullState s) (pushState s) st (lastKnownHead s).
Definition set_lastKnownHead (h : option Z) s : engine W :=
  Engine (world s) (db s) (running s) (pullState s) (pushState s) (status s) h.

Definition setErrorStatus (e : SyncError) (retryAt : option Z) s : engine W :=
  set_status (ErrorStatus e retryAt (status_lastSuccessAt (status s))) s.
Definition setSyncing (d : SyncDirection) s : engine W :=
  set_status (Syncing d (status_lastSuccessAt (status s)) (getLastError (status s))) s.
Definition setIdle s : engine W :=
  set_status (Idle (status_lastSuccessAt (status s)) (getLastError (status s))) s.

Definition pull_backoff (ms : Z) (notBefore : option Z) s : engine W :=
  set_pull (PullSt (pull_inFlight (pullState s)) (pull_requested (pullState s)) ms notBefore) s.
Definition pull_request (b : bool) s : engine W :=
  set_pull (PullSt (pull_inFlight (pullState s)) b (pull_backoffMs (pullState s)) (pull_notBeforeMs (pullState s))) s.
Definition pull_flight (b : bool) s : engine W :=
  set_pull (PullSt b (pull_requested (pullState s)) (pull_backoffMs (pullState s)) (pull_notBeforeMs (pullState s))) s.
Definition push_backoff (ms : Z) (notBefore : option Z) s : engine W :=
  let p := pushState s in
  set_push (PushSt (push_inFlight p) (push_requested p) (push_queued p) (signalsSeen p) ms notBefore) s.
Definition push_request (b : bool) s : engine W :=
  let p := pushState s in
  set_push (PushSt (push_inFlight p) b (push_queued p) (signalsSeen p) (push_backoffMs p) (push_notBeforeMs p)) s.
Definition push_flight (b : bool) s : engine W :=
  let p := pushState s in
  set_push (PushSt b (push_requested p) (push_queued p) (signalsSeen p) (push_backoffMs p) (push_notBeforeMs p)) s.
End Setters.

(** ** Statements *)

Definition ensureSyncMetaRow (storeId : string) (now : Z) (d : local_db) : local_db :=
  match sync_meta d !! storeId with
  | Some _ => d
  | None => set_meta (<[storeId := Meta 0 now]> (sync_meta d)) d
  end.

Definition readLastPulledGlobalSeq (storeId : string) (d : local_db) : Z :=
  match sync_meta d !! storeId with Some m => last_pulled_global_seq m | None => 0 end.

Definition writeLastPulledGlobalSeq (storeId : string) (value now : Z) (d : local_db) : local_db :=
  set_meta (<[storeId := Meta value now]> (sync_meta d)) d.

Definition hasPendingEvents (d : local_db) : bool := negb (bool_decide (pending_rows d = [])).

Definition loadPendingEvents (limit : nat) (d : local_db) : list MaterializedEventRow :=
  take limit (map cols (pending_rows d)).

(** [applyAssignments]: one batch of INSERT OR IGNORE. *)
Definition applyAssignments (now : Z) (assigned : list (string * Z)) (d : local_db) : local_db :=
  fold_left (fun d '(i, seq) => insert_map_or_ignore i seq now d) assigned d.

(** The request body's event for a pending row; the scope state reference
    travels as hexadecimal. *)
Definition push_event (r : MaterializedEventRow) : PushEvent :=
  let rec := toSyncRecord (local_row r) in
  Pushed (id r) (toRecordJson rec) (scopeId rec) (resourceId rec) (resourceKeyId rec) (grantId rec)
    (ScopeStateRef.toHex <$> scope_state_ref r) (authorDeviceId rec).

(** ** Applying remote events *)

Definition MAX_REWRITE_ATTEMPTS : nat := 128.

Section Apply.
Variable rewriter : option PendingVersionRewriterPort.
Context `{SyncRecordMaterializerPort}.

(** Make room at an aggregate's version: [false] when every attempt was used. *)
Fixpoint resolve_collision (attempts : nat) (ty ai : string) (v : Z) : dbm bool :=
  match attempts with
  | O => mret false
  | S attempts' =>
      gets (occupying ty ai v) ≫= fun occupant : option EventRow =>
      match occupant with
      | None => mret true
      | Some e =>
          if (strlen (id (cols e)) =? 0)%Z then mret true
          else
            gets (is_synced (id (cols e))) ≫= fun synced : bool =>
            if synced then
              throw (EngineError conflict "Remote version collision with synced event" false)
            else
              match rewriter with
              | None => throw (EngineError conflict
                  "Pending version rewrite required but no rewriter configured" false)
              | Some port =>
                  _ ← rewrite_pending (RewriteRequest ty ai v);
                  resolve_collision attempts' ty ai v
              end
      end
  end.

(** The row to insert for an incoming event that is not in [events] yet. *)
Definition prepare_event (e : RemoteEvent) : dbm (option MaterializedEventRow) :=
  record ← lift_result (js_error (parseRecordJson (re_recordJson e)));
  gets (has_event (re_eventId e)) ≫= fun existing : bool =>
  if existing then mret None
  else
    resolve_collision MAX_REWRITE_ATTEMPTS (aggregateType record) (aggregateId record)
      (to_Z (RecordCodec.version record)) ≫= fun resolved : bool =>
    if resolved then
      row ← lift_result (js_error (materializeRemoteEvent (re_eventId e) (re_recordJson e) (re_globalSequence e)));
      mret (Some row)
    else throw (EngineError conflict "Pending version rewrite did not resolve version collision" false).

(** The statements to batch: for each event its optional INSERT and its mapping. *)
Fixpoint prepare (es : list RemoteEvent) : dbm (list (RemoteEvent * option MaterializedEventRow)) :=
  match es with
  | [] => mret []
  | e :: es' =>
      row ← prepare_event e;
      rest ← prepare es';
      mret ((e, row) :: rest)
  end.

Definition run_statements (now : Z) (d : local_db) (p : RemoteEvent * option MaterializedEventRow) : local_db :=
  let '(e, row) := p in
  insert_map_if_event (re_eventId e) (re_globalSequence e) now
    (match row with Some row => insert_event_or_ignore row d | None => d end).

Definition inserted_ids (plan : list (RemoteEvent * option MaterializedEventRow)) : list string :=
  omap (fun p => id <$> p.2) plan.

Definition applyRemoteEvents (now : Z) (es : list RemoteEvent) : dbm bool :=
  match es with
  | [] => mret false
  | _ =>
      gets (fun d => map (fun e => is_synced (re_eventId e) d) es) ≫= fun known : list bool =>
      plan ← prepare es;
      _ ← modify (fun d => fold_left (run_statements now) plan d);
      gets (fun d => forallb (fun i => has_event i d) (inserted_ids plan)) ≫= fun persisted : bool =>
      if persisted then mret (existsb negb known)
      else throw (EngineError conflict
        "Remote event insert did not persist (possible version collision)" false)
  end.
End Apply.

(** ** Runs *)

Notation eng W := (js (engine W) failure).

Section Runs.
Context {W : Type}.
(** [Date.now()] and [Math.random()] (as [n / 2^53]) in a world. *)
Variable nowMs : W -> Z.
Variable random : W -> Z.
Variable transport : Transport W.
Variable rewriter : option PendingVersionRewriterPort.
Context `{SyncRecordMaterializerPort}.
Variable onRebaseRequired : dbm unit.
Variable storeId : string.
Variable pullLimit : Z.
Variable pullWaitMs pullIntervalMs pushIntervalMs pushFallbackIntervalMs : Z.
Variable pushBatchSize : nat.
Variable maxPushRetries : nat.

(** A computation on the database, or on the world, as one on the engine. *)
Definition on_db {A} (m : dbm A) : eng W A := fun s =>
  let '(r, d) := m (db s) in (r, set_db d s).
Definition on_world {A} (m : js W failure A) : eng W A := fun s =>
  let '(r, w) := m (world s) in (r, set_world w s).
Definition on_pending {A} (f : local_db -> A) : eng W A := gets (fun s => f (db s)).
(** A statement stamped with the current time. *)
Definition stamped (f : Z -> local_db -> local_db) : eng W unit :=
  modify (fun s => set_db (f (nowMs (world s)) (db s)) s).

Definition readCursor : eng W Z := on_pending (readLastPulledGlobalSeq storeId).
Definition writeCursor (value : Z) : eng W unit := stamped (writeLastPulledGlobalSeq storeId value).
Definition apply_events (es : list RemoteEvent) : eng W bool := fun s =>
  on_db (applyRemoteEvents rewriter (nowMs (world s)) es) s.

(** The loop of [pullOnceInternal]: whether anything was applied. *)
Fixpoint pull_loop (fuel : nat) (waitMs since : Z) (pulledAny : bool) : eng W (option bool) :=
  match fuel with
  | O => mret None
  | S fuel' =>
      on_world (transport_pull transport storeId since pullLimit waitMs) ≫= fun response : PullResponse =>
      _ ← modify (set_lastKnownHead (Some (pr_head response)));
      if bool_decide (pr_events response = []) then mret (Some pulledAny)
      else
        applied ← apply_events (pr_events response);
        let pulledAny := pulledAny || applied in
        (match pr_nextSince response with
         | Some next => _ ← writeCursor next; mret next
         | None => mret since
         end) ≫= fun since : Z =>
        if pr_hasMore response && bool_decide (pr_nextSince response = None)
        then throw (JsError (PlainError "Sync pull response missing nextSince"))
        else if pr_hasMore response then pull_loop fuel' waitMs since pulledAny
        else mret (Some pulledAny)
  end.

(** Ask for a rebase if there were pending events and there still are. *)
Definition rebase_if (needed : bool) : eng W unit :=
  if needed then
    on_pending hasPendingEvents ≫= fun stillPending : bool =>
    if stillPending then on_db onRebaseRequired else skip
  else skip.

Definition pull_failed (e : failure) : eng W (option unit) :=
  let '(err, retryable) := toSyncEngineError e (SyncErr server "Sync pull failed") in
  if negb retryable then
    _ ← modify (fun s => setErrorStatus err None (pull_request false (pull_backoff 0 None s)));
    mret (Some tt)
  else
    _ ← modify (fun s =>
      let ms := nextBackoffMs (random (world s)) (pull_backoffMs (pullState s)) MIN_BACKOFF_MS MAX_BACKOFF_MS in
      let retryAt := Some (nowMs (world s) + ms)%Z in
      setErrorStatus err retryAt (pull_request true (pull_backoff ms retryAt s)));
    mret (Some tt).

Definition pullOnceInternal (fuel : nat) (waitMs : Z) : eng W (option unit) :=
  _ ← modify (setSyncing DirPull);
  finally
    (try_catch
      (on_pending hasPendingEvents ≫= fun hadPending : bool =>
       since ← readCursor;
       pull_loop fuel waitMs since false ≫= fun pulled : option bool =>
       match pulled with
       | None => mret None
       | Some pulledAny =>
           _ ← rebase_if (pulledAny && hadPending);
           _ ← modify (fun s => set_status (Idle (Some (nowMs (world s))) None) (pull_backoff 0 None s));
           mret (Some tt)
       end)
      pull_failed)
    (pull_flight false).

Definition pullOnce (fuel : nat) (waitMs : Z) : eng W (option unit) :=
  gets (fun s => pull_inFlight (pullState s)) ≫= fun inFlight : bool =>
  if inFlight then mret (Some tt)
  else
    _ ← modify (pull_flight true);
    pullOnceInternal fuel waitMs.

(** [handleConflict]: [None] when the pull it asks for ran out of fuel.  No
    other run is under way here, so it pulls itself; waiting for a pull in flight
    or one of the loop's is in [SyncLoops.v] ([conflict_pull]). *)
Definition handleConflict (fuel : nat) (head : Z) (reason : string) (missing : option (list RemoteEvent))
    (expectedHead : Z) : eng W (option unit) :=
  let missing := default [] missing in
  if bool_decide (reason = "server_behind") then
    throw (EngineError conflict "Sync server head behind expected; reset sync state to re-push" false)
  else if negb (bool_decide (missing = [])) then
    on_pending hasPendingEvents ≫= fun hadPending : bool =>
    applied ← apply_events missing;
    cursor ← readCursor;
    _ ← writeCursor (Z.max cursor head);
    _ ← modify (set_lastKnownHead (Some head));
    _ ← rebase_if (applied && hadPending);
    mret (Some tt)
  else
    current ← readCursor;
    (if (current <=? expectedHead)%Z then pullOnce fuel 0 else mret (Some tt)) ≫= fun pulled : option unit =>
    match pulled with
    | None => mret None
    | Some _ =>
        current ← readCursor;
        if (current <=? expectedHead)%Z
        then throw (EngineError conflict "Sync conflict did not advance cursor" true)
        else mret (Some tt)
    end.

Definition getExpectedHead : eng W Z :=
  gets lastKnownHead ≫= fun h : option Z =>
  match h with Some h => mret h | None => readCursor end.

(** The attempts of [pushOnce]. *)
Fixpoint push_attempts (fuel attempts : nat) : eng W (option unit) :=
  match attempts with
  | O => mret (Some tt)
  | S attempts' =>
      on_pending (loadPendingEvents pushBatchSize) ≫= fun pending : list MaterializedEventRow =>
      match pending with
      | [] =>
          _ ← modify (fun s => push_request false (push_backoff 0 None (setIdle s)));
          mret (Some tt)
      | _ =>
          expectedHead ← getExpectedHead;
          on_world (transport_push transport (Push_ storeId expectedHead (map push_event pending)))
            ≫= fun response : PushResponse =>
          match response with
          | PushedOk head assigned =>
              _ ← stamped (fun now => applyAssignments now assigned);
              cursor ← readCursor;
              _ ← writeCursor (Z.max cursor head);
              _ ← modify (fun s => push_backoff 0 None
                    (set_status (Idle (Some (nowMs (world s))) None) (set_lastKnownHead (Some head) s)));
              on_pending hasPendingEvents ≫= fun stillPending : bool =>
              _ ← modify (fun s => if stillPending && negb (bool_decide (assigned = []))
                                   then push_request true s else s);
              mret (Some tt)
          | PushedConflict head reason missing =>
              handleConflict fuel head reason missing expectedHead ≫= fun handled : option unit =>
              match handled with
              | None => mret None
              | Some _ => push_attempts fuel attempts'
              end
          end
      end
  end.

Definition push_failed (e : failure) : eng W (option unit) :=
  let '(err, retryable) := toSyncEngineError e (SyncErr network "Sync push failed") in
  if negb retryable then
    _ ← modify (fun s => setErrorStatus err None (push_request false (push_backoff 0 None s)));
    mret (Some tt)
  else
    _ ← modify (fun s =>
      let ms := nextBackoffMs (random (world s)) (push_backoffMs (pushState s)) MIN_BACKOFF_MS MAX_BACKOFF_MS in
      let retryAt := Some (nowMs (world s) + ms)%Z in
      push_request true (setErrorStatus err retryAt (push_backoff ms retryAt s)));
    mret (Some tt).

Definition pushOnce (fuel : nat) : eng W (option unit) :=
  gets (fun s => push_inFlight (pushState s)) ≫= fun inFlight : bool =>
  if inFlight then mret (Some tt)
  else
    _ ← modify (fun s => setSyncing DirPush (push_flight true s));
    finally (try_catch (push_attempts fuel maxPushRetries) push_failed) (push_flight false).

Definition syncOnce (fuel : nat) : eng W (option unit) :=
  _ ← stamped (ensureSyncMetaRow storeId);
  pullOnce fuel 0 ≫= fun pulled : option unit =>
  match pulled with
  | None => mret None
  | Some _ => pushOnce fuel
  end.

Definition resetSyncState : eng W unit :=
  gets running ≫= fun running : bool =>
  if running then throw (JsError (PlainError "Cannot reset sync state while sync engine is running"))
  else
    _ ← stamped (fun now d => set_meta (<[storeId := Meta 0 now]> (sync_meta d)) (set_map [] d));
    modify (fun s => set_status (Idle (status_lastSuccessAt (status s)) None)
      (push_backoff 0 None (pull_backoff 0 None (set_lastKnownHead None s)))).

(** *** Delays of the background loops *)

Definition getPullDelayMs (now : Z) (p : PullState) : Z :=
  match pull_notBeforeMs p with
  | Some t => if (now <? t)%Z then t - now
              else if pull_requested p then 0 else if (0 <? pullWaitMs)%Z then 0 else pullIntervalMs
  | None => if pull_requested p then 0 else if (0 <? pullWaitMs)%Z then 0 else pullIntervalMs
  end%Z.

Definition getPushDelayMs (now : Z) (p : PushState) : Z :=
  match push_notBeforeMs p with
  | Some t => if (now <? t)%Z then t - now
              else if push_requested p then 0
              else if signalsSeen p then pushFallbackIntervalMs else pushIntervalMs
  | None => if push_requested p then 0
            else if signalsSeen p then pushFallbackIntervalMs else pushIntervalMs
  end%Z.
End Runs.

(** ** Lemmas on applying *)

Module ApplyLemmas.
Section Lemmas.
Variable rewriter : option PendingVersionRewriterPort.
Context `{SyncRecordMaterializerPort}.

(** Only event rows' versions and ciphertexts may have moved. *)
Definition rewritten (d d' : local_db) : Prop :=
  db_ok d' /\ preserves d d' /\ event_ids d' = event_ids d /\
  sync_event_map d' = sync_event_map d /\ sync_meta d' = sync_meta d.

Lemma rewritten_refl d : db_ok d -> rewritten d d.
Proof. intros. split_and!; [done|apply preserves_refl|done..]. Qed.

Lemma rewritten_trans d1 d2 d3 : rewritten d1 d2 -> rewritten d2 d3 -> rewritten d1 d3.
Proof.
  intros (? & ? & ? & ? & ?) (? & ? & ? & ? & ?). split_and!; [done|by eapply preserves_trans|congruence..].
Qed.

Lemma rewritten_synced d d' i : rewritten d d' -> is_synced i d' = is_synced i d.
Proof. intros (_ & _ & _ & Hm & _). unfold is_synced, map_ids. by rewrite Hm. Qed.

Lemma rewritten_has_event d d' i : rewritten d d' -> has_event i d' = has_event i d.
Proof. intros (_ & _ & Hi & _). unfold has_event. by rewrite Hi. Qed.

(** One rewrite settles a collision: what holds the version afterwards, if
    anything, is synced. *)
Lemma resolve_collision_run n ty ai v d r d' :
  db_ok d -> resolve_collision rewriter (S (S n)) ty ai v d = (r, d') ->
  rewritten d d' /\ r <> Ok false.
Proof.
  intros Hok. unfold resolve_collision. fold (resolve_collision rewriter). unfold mbind, js_bind, gets.
  pose proof (occupying_spec ty ai v d Hok) as Hocc.
  destruct (occupying ty ai v d) as [e|].
  2: { intros [= <- <-]. split; [by apply rewritten_refl|done]. }
  destruct (strlen (id (cols e)) =? 0)%Z; [intros [= <- <-]; split; [by apply rewritten_refl|done]|].
  destruct (is_synced (id (cols e)) d) eqn:Hs; [intros [= <- <-]; split; [by apply rewritten_refl|done]|].
  destruct rewriter as [port|]; [|intros [= <- <-]; split; [by apply rewritten_refl|done]].
  pose proof (rewrite_law (RewriteRequest ty ai v) d Hok) as Hlaw.
  destruct (rewrite_pending _ d) as [[res|err] d1].
  2: { intros [= <- <-]. rewrite Hlaw. split; [by apply rewritten_refl|done]. }
  destruct Hlaw as (Hok1 & Hp & Hi & Hm & Hmeta & Hfree). simpl in Hfree.
  pose proof (occupying_spec ty ai v d1 Hok1) as Hocc1.
  assert (rewritten d d1) as Hr by (by split_and!).
  destruct (occupying ty ai v d1) as [e1|]; [|intros [= <- <-]; done].
  destruct (strlen (id (cols e1)) =? 0)%Z; [intros [= <- <-]; done|].
  destruct Hocc1 as [Hin1 Hpl1]. rewrite (rewritten_synced _ _ _ Hr), (Hfree e1 Hin1 Hpl1).
  by intros [= <- <-].
Qed.

(** [prepare_event] returns the row of the event asked for, or nothing if the
    event is there already. *)
Lemma prepare_event_run e d r d' :
  db_ok d -> prepare_event rewriter e d = (r, d') ->
  rewritten d d' /\
  match r with
  | Ok (Some row) => id row = re_eventId e
  | Ok None => re_eventId e ∈ event_ids d
  | Err _ => True
  end.
Proof.
  intros Hok. unfold prepare_event, mbind, js_bind, lift_result, gets.
  destruct (parseRecordJson (re_recordJson e)) as [rec|err]; cbn [js_error].
  2: { intros [= <- <-]. split; [by apply rewritten_refl|done]. }
  destruct (has_event (re_eventId e) d) eqn:He.
  { intros [= <- <-]. split; [by apply rewritten_refl|]. by apply bool_decide_eq_true in He. }
  destruct (resolve_collision _ _ _ _ _ d) as [[[]|err] d1] eqn:Hres;
    apply resolve_collision_run in Hres as [Hr Hne]; try done.
  - destruct (materializeRemoteEvent _ _ _) as [row|err] eqn:Hmat; cbn [js_error]; intros [= <- <-]; [|done].
    split; [done|]. by apply materialize_law in Hmat as [? _].
  - by intros [= <- <-].
Qed.

Lemma prepare_run es d r d' :
  db_ok d -> prepare rewriter es d = (r, d') ->
  rewritten d d' /\
  match r with
  | Ok plan => plan.*1 = es /\ Forall (fun p =>
      match p.2 with Some row => id row = re_eventId p.1 | None => re_eventId p.1 ∈ event_ids d end) plan
  | Err _ => True
  end.
Proof.
  revert d r d'. induction es as [|e es IH]; intros d r d' Hok; simpl.
  { intros [= <- <-]. split; [by apply rewritten_refl|]. split; [done|constructor]. }
  unfold mbind, js_bind. destruct (prepare_event rewriter e d) as [[row|err] d1] eqn:He;
    apply prepare_event_run in He as [Hr1 Hrow]; try done.
  2: { by intros [= <- <-]. }
  destruct (prepare rewriter es d1) as [[plan|err] d2] eqn:Hes;
    apply IH in Hes as [Hr2 Hplan]; try apply Hr1.
  2: { intros [= <- <-]. split; [by eapply rewritten_trans|done]. }
  intros [= <- <-]. split; [by eapply rewritten_trans|]. destruct Hplan as [<- Hplan]. split; [done|].
  destruct Hr1 as (_ & _ & Hi & _). rewrite Hi in Hplan. constructor; [|done]. simpl. by destruct row.
Qed.

(** *** The batch *)

Lemma run_statements_ok now d p : db_ok d -> db_ok (run_statements now d p).
Proof.
  intros Hok. destruct p as [e [row|]]; simpl; apply insert_map_if_event_ok; [|done].
  by apply insert_event_or_ignore_ok.
Qed.

Lemma run_statements_preserves now d p : preserves d (run_statements now d p).
Proof.
  destruct p as [e [row|]]; simpl; [|apply insert_map_if_event_preserves].
  eapply preserves_trans; [apply insert_event_or_ignore_preserves|apply insert_map_if_event_preserves].
Qed.

Lemma run_statements_meta now d p : sync_meta (run_statements now d p) = sync_meta d.
Proof.
  destruct p as [e [row|]]; simpl; unfold insert_map_if_event, insert_map_or_ignore,
    insert_event_or_ignore; by repeat case_match.
Qed.

Lemma batch_spec now plan d :
  db_ok d -> let d' := fold_left (run_statements now) plan d in
  db_ok d' /\ preserves d d' /\ sync_meta d' = sync_meta d.
Proof.
  revert d. induction plan as [|p plan IH]; intros d Hok; simpl.
  { split_and!; [done|apply preserves_refl|done]. }
  destruct (IH (run_statements now d p)) as (H1 & H2 & H3); [by apply run_statements_ok|].
  split_and!; [done| |by rewrite H3, run_statements_meta].
  eapply preserves_trans; [apply run_statements_preserves|done].
Qed.

(** The mappings of a batch whose events are all there in the end. *)
Definition add_map (now : Z) (m : list MapRow) (e : RemoteEvent) : list MapRow :=
  if bool_decide (re_eventId e ∈ map event_id m) || bool_decide (re_globalSequence e ∈ map global_seq m)
  then m else m ++ [Mapped (re_eventId e) (re_globalSequence e) now].

Lemma run_statements_ids now d p i :
  i ∈ event_ids (run_statements now d p) -> i ∈ event_ids d \/ (exists row, p.2 = Some row /\ id row = i).
Proof.
  destruct p as [e row]. simpl.
  assert (forall d1, event_ids (insert_map_if_event (re_eventId e) (re_globalSequence e) now d1) = event_ids d1)
    as Hm.
  { intros d1. unfold insert_map_if_event, insert_map_or_ignore. by repeat case_match. }
  rewrite Hm. destruct row as [row|]; [|by left]. unfold insert_event_or_ignore.
  destruct (insertable row d); [|by left]. rewrite event_ids_append, elem_of_app, list_elem_of_singleton.
  intros [?| ->]; [by left|right; by exists row].
Qed.

Lemma batch_ids now plan d i :
  i ∈ event_ids (fold_left (run_statements now) plan d) ->
  i ∈ event_ids d \/ exists p row, p ∈ plan /\ p.2 = Some row /\ id row = i.
Proof.
  revert d. induction plan as [|p plan IH]; intros d; simpl; [by left|].
  intros [Hi|(q & row & Hq & Hr)]%IH.
  - apply run_statements_ids in Hi as [?|(row & ? & ?)]; [by left|]. right. exists p, row.
    split; [left|done].
  - right. exists q, row. split; [by right|done].
Qed.

Lemma batch_map now plan d :
  NoDup (map re_eventId plan.*1) ->
  Forall (fun p => match p.2 with Some row => id row = re_eventId p.1 | None => True end) plan ->
  Forall (fun p => re_eventId p.1 ∈ event_ids (fold_left (run_statements now) plan d)) plan ->
  sync_event_map (fold_left (run_statements now) plan d) =
    fold_left (add_map now) plan.*1 (sync_event_map d).
Proof.
  revert d. induction plan as [|[e row] plan IH]; intros d Hnd Hrow Hin; [done|].
  simpl in Hnd. apply NoDup_cons in Hnd as [Hne Hnd].
  apply Forall_cons in Hrow as [Hrow1 Hrow]. apply Forall_cons in Hin as [Hin1 Hin].
  simpl in *. rewrite IH by done. f_equal.
  set (d1 := match row with Some row => insert_event_or_ignore row d | None => d end) in *.
  assert (sync_event_map d1 = sync_event_map d) as Hd1.
  { unfold d1, insert_event_or_ignore. destruct row; [|done]. by destruct (insertable _ _). }
  assert (has_event (re_eventId e) d1 = true) as Hhas.
  { apply batch_ids in Hin1 as [Hi|(p & r & Hp & Hr & Hid)].
    - unfold has_event. apply bool_decide_eq_true. revert Hi.
      unfold insert_map_if_event, insert_map_or_ignore. by repeat case_match.
    - exfalso. apply Hne. rewrite Forall_forall in Hrow. specialize (Hrow p Hp). rewrite Hr in Hrow.
      rewrite <- Hid, Hrow. apply list_elem_of_fmap_2, list_elem_of_fmap_2, Hp. }
  unfold insert_map_if_event. rewrite Hhas. unfold insert_map_or_ignore, add_map, map_ids, map_seqs.
  rewrite Hd1. destruct (_ || _); [done|]. done.
Qed.

(** All of [applyRemoteEvents]. *)
Lemma apply_run now es d r d' :
  db_ok d -> applyRemoteEvents rewriter now es d = (r, d') ->
  db_ok d' /\ preserves d d' /\ sync_meta d' = sync_meta d /\
  match r with
  | Ok applied =>
      applied = existsb (fun e => negb (is_synced (re_eventId e) d)) es /\
      Forall (fun e => re_eventId e ∈ event_ids d') es /\
      (NoDup (map re_eventId es) -> sync_event_map d' = fold_left (add_map now) es (sync_event_map d))
  | Err _ => True
  end.
Proof.
  intros Hok. destruct es as [|e0 es0].
  { intros [= <- <-]. split_and!; [done|apply preserves_refl|done|done|constructor|done]. }
  unfold applyRemoteEvents. generalize (e0 :: es0). clear e0 es0. intros es.
  unfold mbind, js_bind, gets, modify.
  destruct (prepare rewriter es d) as [[plan|err] d1] eqn:Hprep; apply prepare_run in Hprep as [Hr Hplan]; try done.
  2: { intros [= <- <-]. destruct Hr as (? & ? & ? & ? & ?). by split_and!. }
  destruct Hplan as [Hes Hplan]. destruct Hr as (Hok1 & Hp1 & Hi1 & Hm1 & Hmeta1).
  destruct (batch_spec now plan d1 Hok1) as (Hok2 & Hp2 & Hmeta2).
  set (d2 := fold_left (run_statements now) plan d1) in *.
  assert (db_ok d2 /\ preserves d d2 /\ sync_meta d2 = sync_meta d) as (H1 & H2 & H3).
  { split_and!; [done|by eapply preserves_trans|congruence]. }
  destruct (forallb _ (inserted_ids plan)) eqn:Hall; intros [= <- <-]; [|by split_and!].
  assert (Forall (fun p => re_eventId p.1 ∈ event_ids d2) plan) as Hin.
  { rewrite Forall_forall in Hplan |- *. intros [e [row|]] Hp; specialize (Hplan _ Hp); simpl in *.
    - rewrite <- Hplan. rewrite forallb_forall in Hall. specialize (Hall (id row)).
      unfold has_event in Hall. rewrite bool_decide_eq_true in Hall. apply Hall, list_elem_of_In. unfold inserted_ids. apply list_elem_of_omap. by exists (e, Some row).
    - by eapply preserves_ids. }
  split_and!; try done.
  - clear. induction es as [|e es IH]; [done|]. simpl. by rewrite IH.
  - rewrite <- Hes. by apply Forall_map.
  - intros Hnd. rewrite <- Hes in Hnd |- *. rewrite <- Hm1. apply batch_map; [done| |done].
    eapply Forall_impl; [exact Hplan|]. intros [e [row|]]; done.
Qed.

End Lemmas.
End ApplyLemmas.

(** ** What every run respects *)

Module EngineLemmas.

(** [m] moves the state along [R], whether it returns or throws. *)
Definition along {S E A} (R : S -> S -> Prop) (m : js S E A) : Prop :=
  forall s, R s (m s).2.

Section Along.
Context {S E : Type} (R : S -> S -> Prop) `{!PreOrder R}.

Lemma along_ret {A} (a : A) : along R (mret a : js S E A).
Proof. intros s. reflexivity. Qed.
Lemma along_skip : along R (skip : js S E unit).
Proof. intros s. reflexivity. Qed.
Lemma along_throw {A} (e : E) : along R (throw e : js S E A).
Proof. intros s. reflexivity. Qed.
Lemma along_gets {A} (f : S -> A) : along R (gets f : js S E A).
Proof. intros s. reflexivity. Qed.
Lemma along_modify f : (forall s, R s (f s)) -> along R (modify f : js S E unit).
Proof. intros H s. apply H. Qed.

Lemma along_bind {A B} (m : js S E A) (f : A -> js S E B) :
  along R m -> (forall a, along R (f a)) -> along R (m ≫= f).
Proof.
  intros Hm Hf s. unfold mbind, js_bind. specialize (Hm s).
  destruct (m s) as [[a|e] s1]; [|exact Hm]. etrans; [exact Hm|apply Hf].
Qed.

Lemma along_try_catch {A} (m : js S E A) h :
  along R m -> (forall e, along R (h e)) -> along R (try_catch m h).
Proof.
  intros Hm Hh s. unfold try_catch. specialize (Hm s).
  destruct (m s) as [[a|e] s1]; [exact Hm|]. etrans; [exact Hm|apply Hh].
Qed.

Lemma along_finally {A} (m : js S E A) f :
  along R m -> (forall s, R s (f s)) -> along R (finally m f).
Proof.
  intros Hm Hf s. unfold finally. specialize (Hm s).
  destruct (m s) as [r s1]. etrans; [exact Hm|apply Hf].
Qed.
End Along.

(** Nothing is lost: the tables stay well formed, every event stays, synced
    events unchanged, and every mapping stays. *)
Definition lossless {W} (s s' : engine W) : Prop :=
  db_ok (db s) -> db_ok (db s') /\ preserves (db s) (db s').

#[export] Instance lossless_preorder {W} : PreOrder (@lossless W).
Proof.
  split.
  - intros s Hok. split; [done|apply preserves_refl].
  - intros s1 s2 s3 H1 H2 Hok. destruct (H1 Hok) as [Hok2 Hp]. destruct (H2 Hok2) as [Hok3 Hp'].
    split; [done|by eapply preserves_trans].
Qed.

Lemma lossless_same_db {W} (s s' : engine W) : db s' = db s -> lossless s s'.
Proof. intros E Hok. rewrite E. split; [done|apply preserves_refl]. Qed.

Lemma applyAssignments_ok now l d :
  db_ok d -> db_ok (applyAssignments now l d) /\ preserves d (applyAssignments now l d).
Proof.
  unfold applyAssignments. revert d. induction l as [|[i seq] l IH]; intros d Hok; simpl.
  { split; [done|apply preserves_refl]. }
  destruct (IH (insert_map_or_ignore i seq now d)) as [H1 H2]; [by apply insert_map_ok|].
  split; [done|]. eapply preserves_trans; [apply insert_map_preserves|done].
Qed.

Section Runs.
Context {W : Type} (nowMs random : W -> Z) (transport : Transport W).
Context (rewriter : option PendingVersionRewriterPort) `{SyncRecordMaterializerPort}.
Context (onRebaseRequired : dbm unit) (storeId : string) (pullLimit : Z).
Context (pushBatchSize maxPushRetries : nat).

(** A rebase only touches derived data. *)
Definition rebase_lossless : Prop :=
  forall d, db_ok d -> db_ok (onRebaseRequired d).2 /\ preserves d (onRebaseRequired d).2.
Hypothesis Hrebase : rebase_lossless.

Ltac along_with t := repeat (first
  [ progress intros | solve [t]
  | apply along_bind | apply along_ret | apply along_skip | apply along_throw | apply along_gets
  | apply along_try_catch | apply along_finally
  | apply along_modify; intros; by apply lossless_same_db
  | by apply lossless_same_db
  | case_match ]; try exact _).
Ltac along := along_with fail.

Lemma along_world {A} (m : js W failure A) : along lossless (on_world m).
Proof.
  intros s. unfold on_world. destruct (m (world s)) as [r w]. by apply lossless_same_db.
Qed.

Lemma along_write v : along lossless (writeCursor nowMs storeId v).
Proof.
  apply along_modify. intros s Hok. split; [destruct Hok; by split|].
  split; [|done]. intros e He. exists e. split; [done|apply kept_refl].
Qed.

Lemma along_apply es : along lossless (apply_events nowMs rewriter es).
Proof.
  intros s Hok. unfold apply_events, on_db.
  destruct (applyRemoteEvents rewriter (nowMs (world s)) es (db s)) as [r d] eqn:E.
  apply ApplyLemmas.apply_run in E as (H1 & H2 & _); done.
Qed.

Lemma along_rebase b : along lossless (rebase_if (W := W) onRebaseRequired b).
Proof using Hrebase.
  unfold rebase_if, on_pending. along.
  intros s Hok. unfold on_db. specialize (Hrebase (db s) Hok). by destruct (onRebaseRequired (db s)).
Qed.

Lemma along_pull_loop fuel waitMs since p :
  along lossless (pull_loop nowMs transport rewriter storeId pullLimit fuel waitMs since p).
Proof.
  revert since p. induction fuel as [|n IH]; intros since p; [apply along_ret; exact _|].
  simpl. along_with ltac:(first [apply along_world|apply along_apply|apply along_write|apply IH]).
Qed.

Lemma along_pullOnce fuel waitMs :
  along lossless (pullOnce nowMs random transport rewriter onRebaseRequired storeId pullLimit fuel waitMs).
Proof using Hrebase.
  unfold pullOnce, pullOnceInternal, on_pending, readCursor, pull_failed.
  along_with ltac:(first [apply along_pull_loop|apply along_rebase]).
Qed.

Lemma along_conflict fuel head reason missing expected :
  along lossless (handleConflict nowMs random transport rewriter onRebaseRequired storeId pullLimit
    fuel head reason missing expected).
Proof using Hrebase.
  unfold handleConflict, on_pending, readCursor.
  along_with ltac:(first [apply along_apply|apply along_write|apply along_rebase|apply along_pullOnce]).
Qed.

Lemma along_push_attempts fuel n :
  along lossless (push_attempts nowMs random transport rewriter onRebaseRequired storeId pullLimit
    pushBatchSize fuel n).
Proof using Hrebase.
  induction n as [|n IH]; [apply along_ret; exact _|].
  simpl. unfold on_pending, getExpectedHead, readCursor.
  along_with ltac:(first [apply along_world|apply along_write|apply along_conflict|apply IH
    |apply along_modify; intros ??; by apply applyAssignments_ok]).
Qed.

Lemma along_pushOnce fuel :
  along lossless (pushOnce nowMs random transport rewriter onRebaseRequired storeId pullLimit
    pushBatchSize maxPushRetries fuel).
Proof using Hrebase.
  unfold pushOnce, push_failed. along_with ltac:(apply along_push_attempts).
Qed.
End Runs.
End EngineLemmas.

Module EngineProperties.
Import EngineLemmas ApplyLemmas.

(** C6: Whatever the server answers, whatever errors occur and wherever a run stops, a pull
    or a push loses nothing on the device: the tables keep their constraints, every event is
    still there with the same content, a synced one unchanged and a pending one at the same
    or a higher version, and every recorded mapping stays, provided [onRebaseRequired], a
    callback of the caller's, loses nothing itself. *)
Theorem sync_lossless {W} (nowMs random : W -> Z) (transport : Transport W)
    (rewriter : option PendingVersionRewriterPort) `{SyncRecordMaterializerPort}
    (onRebaseRequired : dbm unit) (storeId : string) (pullLimit : Z)
    (pushBatchSize maxPushRetries fuel : nat) (waitMs : Z) (s : engine W) :
  db_ok (db s) -> rebase_lossless onRebaseRequired ->
  let pulled := (pullOnce nowMs random transport rewriter onRebaseRequired storeId pullLimit fuel waitMs s).2 in
  let pushed := (pushOnce nowMs random transport rewriter onRebaseRequired storeId pullLimit
    pushBatchSize maxPushRetries fuel s).2 in
  db_ok (db pulled) /\ preserves (db s) (db pulled) /\
  db_ok (db pushed) /\ preserves (db s) (db pushed).
Proof.
  intros Hok Hre pulled pushed.
  pose proof (along_pullOnce nowMs random transport rewriter onRebaseRequired storeId pullLimit Hre fuel waitMs s Hok).
  pose proof (along_pushOnce nowMs random transport rewriter onRebaseRequired storeId pullLimit
    pushBatchSize maxPushRetries Hre fuel s Hok). tauto.
Qed.

(** Applying a page of remote events either fails or leaves every one of them in the
    event table and, when their ids are distinct, mapped in order as far as id and sequence
    are unused, and it answers whether any of them was unmapped before; in both cases no
    local event or mapping is lost. *)
Theorem apply_remote_events (rewriter : option PendingVersionRewriterPort) `{SyncRecordMaterializerPort}
    (now : Z) (es : list RemoteEvent) (d : local_db) :
  db_ok d ->
  let '(r, d') := applyRemoteEvents rewriter now es d in
  db_ok d' /\ preserves d d' /\
  match r with
  | Ok applied =>
      applied = existsb (fun e => negb (is_synced (re_eventId e) d)) es /\
      Forall (fun e => re_eventId e ∈ event_ids d') es /\
      (NoDup (map re_eventId es) -> sync_event_map d' = fold_left (add_map now) es (sync_event_map d))
  | Err _ => True
  end.
Proof.
  intros Hok. destruct (applyRemoteEvents rewriter now es d) as [r d'] eqn:E.
  apply apply_run in E as (H1 & H2 & _ & H3); [|done]. done.
Qed.

(** Making room for a remote event takes at most one rewrite, so the limit of 128
    attempts is never reached: any number of attempts from two on gives the same result,
    never that the attempts ran out, and on success nothing stands at the version; ids are
    untouched and no event is lost. *)
Theorem collision_one_rewrite (rewriter : option PendingVersionRewriterPort) (n : nat)
    (ty ai : string) (v : Z) (d : local_db) :
  db_ok d -> Forall (fun e => id (cols e) <> EmptyString) (events d) ->
  let '(r, d') := resolve_collision rewriter (S (S n)) ty ai v d in
  resolve_collision rewriter 2 ty ai v d = (r, d') /\ r <> Ok false /\
  event_ids d' = event_ids d /\ preserves d d' /\
  (r = Ok true -> (ty, ai, v) ∉ places d').
Proof.
  intros Hok Hne. destruct (resolve_collision rewriter (S (S n)) ty ai v d) as [r d'] eqn:E.
  destruct (resolve_collision_run _ _ _ _ _ _ _ _ Hok E) as [(Hok' & Hp & Hi & Hm & _) Hr].
  assert (Forall (fun e => id (cols e) <> EmptyString) (events d')) as Hne'.
  { rewrite Forall_forall in Hne |- *. intros e He Hid.
    assert (EmptyString ∈ event_ids d) as Hin.
    { rewrite <- Hi, <- Hid. by apply (list_elem_of_fmap_2 (fun e => id (cols e))). }
    apply list_elem_of_fmap in Hin as (x & Hx & Hin). by apply (Hne x Hin). }
  assert (forall k d1 r d', Forall (fun e => id (cols e) <> EmptyString) (events d1) -> db_ok d1 ->
    resolve_collision rewriter k ty ai v d1 = (r, d') -> r = Ok true -> (ty, ai, v) ∉ places d') as Hfree.
  { clear. induction k as [|k IH]; intros d r d' Hne Hok; simpl; [by intros [= <- _]|].
    unfold mbind, js_bind, gets. pose proof (occupying_spec ty ai v d Hok) as Hocc.
    destruct (occupying ty ai v d) as [e|]; [|by intros [= _ <-]].
    destruct Hocc as [He _]. rewrite Forall_forall in Hne. specialize (Hne e He) as Hid.
    destruct (Z.eqb_spec (strlen (id (cols e))) 0) as [Hz|_].
    { exfalso. apply Hid. unfold strlen in Hz. destruct (id (cols e)); [done|]. simpl in Hz. lia. }
    destruct (is_synced _ d); [by intros [= <- _]|]. destruct rewriter as [port|]; [|by intros [= <- _]].
    pose proof (rewrite_law (RewriteRequest ty ai v) d Hok) as Hlaw.
    destruct (rewrite_pending _ d) as [[res|err] d1]; [|by intros [= <- _]].
    destruct Hlaw as (Hok1 & _ & Hi & _). apply IH; [|done]. apply Forall_forall. intros x Hx Hidx.
    assert (EmptyString ∈ event_ids d) as Hin.
    { rewrite <- Hi, <- Hidx. by apply (list_elem_of_fmap_2 (fun e => id (cols e))). }
    apply list_elem_of_fmap in Hin as (y & Hy & Hin). by apply (Hne y Hin). }
  split; [|split_and!; [done|done|done|by apply (Hfree _ _ _ _ Hne Hok E)]].
  revert E. cbn [resolve_collision]. unfold mbind, js_bind, gets.
  destruct (occupying ty ai v d) as [e|]; [|done]. destruct (strlen _ =? 0)%Z; [done|].
  destruct (is_synced _ d) eqn:Hs; [done|]. destruct rewriter as [port|]; [|done].
  pose proof (rewrite_law (RewriteRequest ty ai v) d Hok) as Hlaw.
  destruct (rewrite_pending _ d) as [[res|err] d1]; [|done].
  destruct Hlaw as (Hok1 & _ & _ & Hm1 & _ & Hfreed).
  pose proof (occupying_spec ty ai v d1 Hok1) as Hocc1.
  destruct (occupying ty ai v d1) as [e1|]; [|done]. destruct (strlen _ =? 0)%Z; [done|].
  destruct Hocc1 as [Hin1 Hpl1]. unfold is_synced, map_ids. rewrite Hm1.
  specialize (Hfreed e1 Hin1 Hpl1). unfold is_synced, map_ids in Hfreed. by rewrite Hfreed.
Qed.

(** The retry delay lies between one and twenty seconds and, whatever the random
    number, between half and one and a half times the doubled delay capped at twenty seconds
    (one second at the start), half a millisecond of rounding apart. *)
Theorem backoff_bounds (random current : Z) :
  (0 <= random < 2 ^ 53)%Z -> (current = 0 \/ 1000 <= current <= 20000)%Z ->
  let base := if (current =? 0)%Z then 1000%Z else Z.min (2 * current) 20000 in
  let next := nextBackoffMs random current MIN_BACKOFF_MS MAX_BACKOFF_MS in
  (MIN_BACKOFF_MS <= next <= MAX_BACKOFF_MS)%Z /\
  (base <= 2 * next <= 3 * base + 1)%Z.
Proof.
  intros Hr Hc base next. unfold next, nextBackoffMs, applyJitter, MIN_BACKOFF_MS, MAX_BACKOFF_MS.
  split; [lia|].
  assert ((if (current =? 0)%Z then 1000 else Z.min (current * 2) 20000) = base)%Z as -> by
    (unfold base; destruct (current =? 0)%Z; lia).
  assert (1000 <= base <= 20000)%Z as Hb by (unfold base; destruct (Z.eqb_spec current 0); lia).
  clearbody base. set (j := ((2 * base * (2 ^ 52 + random) + 2 ^ 53) / 2 ^ 54)%Z).
  assert (base <= 2 * j <= 3 * base + 1)%Z as Hj.
  { unfold j. pose proof (Z.div_mod (2 * base * (2 ^ 52 + random) + 2 ^ 53) (2 ^ 54) ltac:(lia)).
    pose proof (Z.mod_pos_bound (2 * base * (2 ^ 52 + random) + 2 ^ 53) (2 ^ 54) ltac:(lia)).
    nia. }
  lia.
Qed.

End EngineProperties.
