(* ===== verification/SyncSystem.v ===== *)
(** * A device and the server together

    [HttpSyncTransport] (packages/sync-engine/src/httpTransport.ts) connects
    the sync engine to the controller of the backend: requests and responses
    are converted and HTTP status codes become errors.  The world of the
    engine is then the server's database.  The theorems follow a device from a
    synced prefix of the log to the whole log, and its pending events into it. *)

From S2P Require Import Prelude JsValues Sharing SyncServer RecordCodec LocalDb PendingRewriter Materializer SyncEngine.

(** ** The wire *)

(** [SyncController.push]'s event: [Buffer.from(hex, 'hex')]. *)
Definition incoming (e : PushEvent) : SyncIncomingEvent :=
  Incoming (pe_eventId e) (pe_recordJson e) (pe_scopeId e) (pe_resourceId e) (pe_resourceKeyId e)
    (pe_grantId e)
    ((fun hex => ScopeStateRef.parse_bytes (String.length hex / 2) (chars hex)) <$> truthy (pe_scopeStateRef e))
    (pe_authorDeviceId e).

Definition remote (r : SyncServer.EventRow) : RemoteEvent :=
  Remote (SyncServer.global_seq r) (row_eventId r) (row_recordJson r).

Definition reason_text (r : ConflictReason) : string :=
  match r with
  | server_ahead => "server_ahead"
  | server_behind => "server_behind"
  | missing_deps => "missing_deps"
  | stale_scope_state => "stale_scope_state"
  | stale_grant => "stale_grant"
  end.

(** An access error of [push] is answered with 403 (a ForbiddenException);
    every other error, and every error of [pull], is an unhandled exception: 500. *)
Definition push_error (e : server_error) : failure :=
  JsError (PlainError (match e with
    | AccessDenied _ => "Sync push unauthorized (403)"
    | _ => "Sync push failed with status 500"
    end)).
Definition pull_error (e : server_error) : failure :=
  JsError (PlainError "Sync pull failed with status 500").

Section Http.
Variable repos : option SharingRepos.
Variable identity : string.

Definition http_push (rq : PushRequest) : js SyncServer.server failure PushResponse := fun s =>
  match SyncServer.push repos identity (pq_storeId rq) (pq_expectedHead rq) (map incoming (pq_events rq)) s with
  | (Ok (PushOk h assigned), s') =>
      (Ok (PushedOk h (map (fun a => (a_eventId a, a_globalSequence a)) assigned)), s')
  | (Ok (PushConflict h reason missing), s') =>
      (Ok (PushedConflict h (reason_text reason) (map remote <$> missing)), s')
  | (Err e, s') => (Err (push_error e), s')
  end.

(** The long poll finds nothing new ([waitMs] has passed): one page. *)
Definition http_pull (storeId : string) (since limit waitMs : Z) : js SyncServer.server failure SyncEngine.PullResponse :=
  fun s =>
  match SyncServer.pull [] identity storeId since limit s with
  | (Ok r, s') =>
      (Ok (SyncEngine.Pulled (p_head r) (map remote (p_events r)) (hasMore r) (nextSince r)), s')
  | (Err e, s') => (Err (pull_error e), s')
  end.

Definition http : Transport SyncServer.server := {|
  transport_push := http_push;
  transport_pull := http_pull
|}.
End Http.

(** ** A device in step with the log *)

Module SyncSystem.
Import SyncSpec SyncRefinement SyncPaging.

Definition pairs (d : local_db) : list (string * Z) :=
  map (fun m => (LocalDb.event_id m, LocalDb.global_seq m)) (sync_event_map d).
Definition log_pairs (o st : string) (L : list SyncIncomingEvent) : list (string * Z) :=
  map (fun r => (row_eventId r, SyncServer.global_seq r)) (rows_of o st L).

(** The device holds and has mapped exactly the first [n] events of the log. *)
Record mirrors (o st : string) (L : list SyncIncomingEvent) (n : nat) (d : local_db) : Prop := {
  m_ok : db_ok d;
  m_pairs : pairs d = take n (log_pairs o st L);
  m_held : forall i, i ∈ map_ids d -> i ∈ event_ids d;
  m_bound : n <= length L
}.

(** *** Lists of pairs *)

Lemma nodup_take {A} n (l : list A) : NoDup l -> NoDup (take n l).
Proof. intros H. rewrite <- (take_drop n l) in H. by apply NoDup_app in H as [? _]. Qed.

Lemma length_log_pairs o st L : length (log_pairs o st L) = length L.
Proof. unfold log_pairs, rows_of. by rewrite length_map, length_rows_from. Qed.

Lemma rows_from_ids o st k L : map row_eventId (rows_from o st k L) = map in_eventId L.
Proof. revert k. induction L as [|e L IH]; intros k; simpl; [done|]. by rewrite IH. Qed.

Lemma log_pairs_fst o st L : (log_pairs o st L).*1 = map in_eventId L.
Proof. unfold log_pairs. rewrite map_map. apply rows_from_ids. Qed.

Lemma rows_from_seqs o st k L :
  map SyncServer.global_seq (rows_from o st k L) = map (fun i => (k + Z.of_nat i + 1)%Z) (seq 0 (length L)).
Proof.
  revert k. induction L as [|e L IH]; intros k; simpl; [done|]. rewrite IH. f_equal; [lia|].
  rewrite <- seq_shift, map_map. apply map_ext. intros i. lia.
Qed.

Lemma log_pairs_snd o st L : NoDup (log_pairs o st L).*2.
Proof.
  assert ((log_pairs o st L).*2 = map (fun i => (0 + Z.of_nat i + 1)%Z) (seq 0 (length L))) as ->.
  { etrans; [apply map_map|]. apply rows_from_seqs. }
  apply NoDup_fmap_2; [|apply NoDup_seq]. intros i j. lia.
Qed.

Lemma pairs_ids d : (pairs d).*1 = map_ids d.
Proof. unfold pairs, map_ids. by rewrite map_map. Qed.
Lemma pairs_seqs d : (pairs d).*2 = map_seqs d.
Proof. unfold pairs, map_seqs. by rewrite map_map. Qed.

(** Mapping fresh events appends them, in order. *)
Lemma add_maps now (es : list (string * Z)) (m : list MapRow) :
  NoDup (map LocalDb.event_id m ++ es.*1) -> NoDup (map LocalDb.global_seq m ++ es.*2) ->
  fold_left (ApplyLemmas.add_map now) (map (fun p => Remote p.2 p.1 EmptyString) es) m =
    m ++ map (fun p => Mapped p.1 p.2 now) es.
Proof.
  revert m. induction es as [|[i q] es IH]; intros m H1 H2; simpl; [by rewrite app_nil_r|].
  assert (ApplyLemmas.add_map now m (Remote q i EmptyString) = m ++ [Mapped i q now]) as ->.
  { unfold ApplyLemmas.add_map. cbn [re_eventId re_globalSequence].
    apply NoDup_app in H1 as (_ & H1 & _), H2 as (_ & H2 & _).
    rewrite !bool_decide_eq_false_2; [done| |].
    - intros Hq. apply (H2 q Hq). left.
    - intros Hi. apply (H1 i Hi). left. }
  rewrite IH; rewrite ?map_app, <- ?app_assoc; done.
Qed.

(** The record does not matter for the mapping. *)
Lemma add_map_records now es m :
  fold_left (ApplyLemmas.add_map now) es m =
  fold_left (ApplyLemmas.add_map now)
    (map (fun p => Remote p.2 p.1 EmptyString) (map (fun e => (re_eventId e, re_globalSequence e)) es)) m.
Proof. revert m. induction es as [|e es IH]; intros m; simpl; [done|]. apply IH. Qed.

Lemma assignments_are_maps now assigned d :
  applyAssignments now assigned d =
  set_map (fold_left (ApplyLemmas.add_map now) (map (fun p => Remote p.2 p.1 EmptyString) assigned)
    (sync_event_map d)) d.
Proof.
  unfold applyAssignments. revert d. induction assigned as [|[i q] l IH]; intros d; simpl; [by destruct d|].
  rewrite IH. unfold insert_map_or_ignore, ApplyLemmas.add_map, map_ids, map_seqs. simpl.
  by destruct (_ || _).
Qed.

Lemma mirrors_extend o st L n k d d' now :
  mirrors o st L n d -> db_ok d' -> preserves d d' ->
  NoDup (map in_eventId L) -> n + k <= length L ->
  Forall (fun p => p.1 ∈ event_ids d') (take k (drop n (log_pairs o st L))) ->
  sync_event_map d' = fold_left (ApplyLemmas.add_map now)
    (map (fun p => Remote p.2 p.1 EmptyString) (take k (drop n (log_pairs o st L)))) (sync_event_map d) ->
  mirrors o st L (n + k) d'.
Proof.
  intros [Hok Hp Hheld Hn] Hok' Hpres Hnd Hk Hin Hmap.
  rewrite add_maps in Hmap.
  - assert (pairs d' = take (n + k) (log_pairs o st L)) as Hp'.
    { unfold pairs in *. rewrite Hmap, map_app, Hp, map_map. simpl.
      rewrite (map_ext _ (fun p => p)) by (by intros []). rewrite map_id.
      by rewrite take_take_drop. }
    split; [done|done| |done]. intros i Hi. rewrite <- pairs_ids, Hp' in Hi.
    rewrite <- take_take_drop, fmap_app, elem_of_app in Hi. destruct Hi as [Hi|Hi].
    + eapply preserves_ids; [done|]. apply Hheld. by rewrite <- pairs_ids, Hp.
    + apply list_elem_of_fmap in Hi as (p & -> & Hpin). rewrite Forall_forall in Hin. by apply Hin.
  - change (map LocalDb.event_id (sync_event_map d)) with (map_ids d). rewrite <- pairs_ids, Hp.
    rewrite <- fmap_app, take_take_drop, fmap_take, log_pairs_fst. by apply nodup_take.
  - change (map LocalDb.global_seq (sync_event_map d)) with (map_seqs d). rewrite <- pairs_seqs, Hp.
    rewrite <- fmap_app, take_take_drop, fmap_take. apply nodup_take, log_pairs_snd.
Qed.

(** *** Pulling *)

Lemma page_pairs o st L n limit :
  map (fun r => (row_eventId r, SyncServer.global_seq r)) (page o st L (Z.of_nat n) limit) =
    take (Z.to_nat limit) (drop n (log_pairs o st L)).
Proof.
  unfold page, log_pairs. rewrite Nat2Z.id. rewrite fmap_take, fmap_drop. done.
Qed.

Section Pull.
Variable repos : option SharingRepos.
Variables (o st : string).
Hypothesis Ho : valid_id "SyncOwnerId" o.
Hypothesis Hst : valid_id "SyncStoreId" st.
Variables (nowMs random : SyncServer.server -> Z).
Variable rewriter : option PendingVersionRewriterPort.
Context `{SyncRecordMaterializerPort}.
Variable onRebaseRequired : dbm unit.
Variable pullLimit : Z.
Hypothesis Hlimit : (1 <= pullLimit)%Z.

Lemma http_pull_run limit n waitMs w :
  server_ok w -> may_use o st w = true ->
  http_pull o st (Z.of_nat n) limit waitMs w =
    let p := page o st (log o st w) (Z.of_nat n) limit in
    let r := pull_response (Z.of_nat n) limit p (Z.of_nat (length (log o st w))) in
    (Ok (SyncEngine.Pulled (Z.of_nat (length (log o st w))) (map remote p) (hasMore r) (nextSince r)),
     ensured o st w).
Proof using Ho Hst.
  intros Hok Hm. unfold http_pull. rewrite pull_run by (done || lia). done.
Qed.

Lemma apply_events_push (es : list RemoteEvent) (s s' : engine SyncServer.server) r :
  apply_events nowMs rewriter es s = (r, s') -> pushState s' = pushState s.
Proof. unfold apply_events, on_db. destruct (applyRemoteEvents _ _ _ _). by intros [= _ <-]. Qed.

(** A page, applied: the device mirrors the log that much further. *)
Lemma apply_page s n r s' :
  let L := log o st (world s) in
  server_ok (world s) -> mirrors o st L n (db s) ->
  apply_events nowMs rewriter (map remote (page o st L (Z.of_nat n) pullLimit)) s = (r, s') ->
  world s' = world s /\ lastKnownHead s' = lastKnownHead s /\ sync_meta (db s') = sync_meta (db s) /\
  db_ok (db s') /\
  match r with
  | Ok _ => mirrors o st L (n + length (page o st L (Z.of_nat n) pullLimit)) (db s')
  | Err _ => True
  end.
Proof using Hlimit.
  intros L Hok Hmir Happ. unfold apply_events, on_db in Happ.
  destruct (applyRemoteEvents _ _ _ (db s)) as [r' d'] eqn:E. injection Happ as -> <-.
  apply ApplyLemmas.apply_run in E as (Hok' & Hpres & Hmeta & Hr); [|apply Hmir].
  split; [done|]. split; [done|]. split; [done|]. split; [done|].
  destruct r as [applied|]; [|done]. destruct Hr as (_ & Hin & Hmap).
  destruct (Hok o st) as (_ & Hnd & _). fold L in Hnd.
  set (p := page o st L (Z.of_nat n) pullLimit) in *.
  assert (length p = length (take (Z.to_nat pullLimit) (drop n (log_pairs o st L)))) as Hlen.
  { rewrite <- page_pairs. by rewrite length_map. }
  assert (map (fun r => (row_eventId r, SyncServer.global_seq r)) p =
    take (length p) (drop n (log_pairs o st L))) as Hpp.
  { unfold p at 1. rewrite page_pairs, Hlen. rewrite length_take. symmetry.
    destruct (decide (Z.to_nat pullLimit <= length (drop n (log_pairs o st L)))).
    - by rewrite Nat.min_l.
    - rewrite Nat.min_r, !take_ge by lia. done. }
  eapply mirrors_extend; [done|done|done|done| | |].
  - rewrite Hlen, length_take, length_drop, length_log_pairs. destruct Hmir. lia.
  - rewrite <- Hpp. apply Forall_map. apply Forall_map in Hin. exact Hin.
  - simpl. rewrite Hmap.
    + rewrite add_map_records, <- Hpp, !map_map. done.
    + rewrite map_map.
      assert (map (fun x => re_eventId (remote x)) p = (take (length p) (drop n (log_pairs o st L))).*1) as ->.
      { rewrite <- Hpp. symmetry. apply map_map. }
      rewrite fmap_take, fmap_drop, log_pairs_fst. apply nodup_take.
      rewrite <- (take_drop n) in Hnd. by apply NoDup_app in Hnd as (_ & _ & ?).
Qed.

(** Where a pull leaves the engine, whether or not it failed: the head of the
    server is recorded, and the cursor is at some event of the log. *)
Definition stands_at (L : list SyncIncomingEvent) (s s' : engine SyncServer.server) : Prop :=
  lastKnownHead s' = Some (Z.of_nat (length L)) /\ pushState s' = pushState s /\
  exists k, k <= length L /\ readLastPulledGlobalSeq st (db s') = Z.of_nat k.

Lemma pull_loop_spec fuel s n waitMs p :
  let L := log o st (world s) in
  server_ok (world s) -> may_use o st (world s) = true -> mirrors o st L n (db s) ->
  readLastPulledGlobalSeq st (db s) = Z.of_nat n -> length L - n < fuel ->
  let '(r, s') := pull_loop nowMs (http repos o) rewriter st pullLimit fuel waitMs (Z.of_nat n) p s in
  world s' = ensured o st (world s) /\ stands_at L s s' /\
  match r with
  | Ok None => False
  | Ok (Some _) => mirrors o st L (length L) (db s') /\
      readLastPulledGlobalSeq st (db s') = Z.of_nat (length L) /\
      lastKnownHead s' = Some (Z.of_nat (length L))
  | Err _ => True
  end.
Proof using Ho Hst Hlimit.
  revert s n p. induction fuel as [|fuel IH]; intros s n p L Hok Hm Hmir Hcur Hfuel; [lia|].
  cbn [pull_loop]. unfold mbind at 1, js_bind at 1, on_world. cbn [transport_pull http].
  rewrite http_pull_run by done. fold L. cbv zeta.
  unfold mbind at 1, js_bind at 1, modify. cbn [pr_head pr_events pr_nextSince pr_hasMore].
  pose proof (pull_response_spec o st L (Z.of_nat n) pullLimit ltac:(lia) Hlimit) as Hresp. cbv zeta in Hresp.
  pose proof (page_length o st L (Z.of_nat n) pullLimit ltac:(lia) ltac:(lia)) as Hplen.
  set (pg := page o st L (Z.of_nat n) pullLimit) in *.
  set (s1 := set_lastKnownHead (Some (Z.of_nat (length L))) (set_world (ensured o st (world s)) s)).
  assert (world s1 = ensured o st (world s)) as Hw1 by done.
  assert (log o st (world s1) = L) as HL1 by (rewrite Hw1; apply ensured_log).
  assert (server_ok (world s1)) as Hok1 by (rewrite Hw1; by apply ensured_ok).
  destruct (bool_decide_reflect (map remote pg = [])) as [Hnil|Hne].
  { cbn. split; [done|]. assert (pg = []) as Hpg by (by destruct pg).
    rewrite Hpg in Hplen. simpl in Hplen. pose proof (m_bound _ _ _ _ _ Hmir).
    assert (length L = n) as Hn by lia. split; [|by rewrite Hn].
    split; [done|]. split; [done|]. exists n. split; [lia|done]. }
  unfold mbind at 1, js_bind at 1.
  destruct (apply_events nowMs rewriter (map remote pg) s1) as [r s2] eqn:Happ. pose proof Happ as Happ'.
  unfold pg in Happ. rewrite <- HL1 in Happ at 1.
  apply apply_page in Happ as (Hw2 & Hk2 & Hmeta2 & Hdb2 & Hr); [|done|by rewrite HL1].
  rewrite HL1 in Hr. fold pg in Hr.
  assert (pushState s2 = pushState s) as Hps2 by (by eapply apply_events_push in Happ' as ->).
  destruct r as [applied|err].
  2: { split; [by rewrite Hw2|]. split; [|done]. split; [by rewrite Hk2|]. split; [done|]. exists n.
    split; [by destruct Hmir|]. unfold readLastPulledGlobalSeq in *. by rewrite Hmeta2. }
  assert (nextSince (pull_response (Z.of_nat n) pullLimit pg (Z.of_nat (length L))) =
    Some (Z.of_nat (n + length pg))) as Hnext.
  { unfold pull_response. simpl. destruct (last pg) as [x|] eqn:Hlast.
    - simpl. pose proof (page_last o st L (Z.of_nat n) pullLimit x ltac:(lia) Hlast) as Hx.
      fold pg in Hx. f_equal. lia.
    - apply last_None in Hlast. by rewrite Hlast in Hne. }
  rewrite Hnext. unfold mbind at 1, js_bind at 1. unfold mbind at 1, js_bind at 1.
  unfold writeCursor, stamped, modify, mret, js_ret.
  set (s3 := SyncEngine.set_db _ s2).
  assert (world s3 = ensured o st (world s)) as Hw3 by (by rewrite <- Hw1, <- Hw2).
  assert (log o st (world s3) = L) as HL3 by (rewrite Hw3; apply ensured_log).
  assert (mirrors o st L (n + length pg) (db s3)) as Hmir3.
  { destruct Hr as [[] ? ? ?]. by split. }
  assert (readLastPulledGlobalSeq st (db s3) = Z.of_nat (n + length pg)) as Hcur3.
  { unfold readLastPulledGlobalSeq. simpl. by rewrite lookup_insert, decide_True by done. }
  rewrite bool_decide_eq_false_2 by done. rewrite andb_false_r. cbv iota.
  destruct (Z.ltb_spec (Z.of_nat n + pullLimit) (Z.of_nat (length L))) as [Hmore|Hdone].
  - destruct Hresp as [-> Hn2]. rewrite Hnext in Hn2. injection Hn2 as Hn2.
    specialize (IH s3 (n + length pg) (p || applied)). rewrite HL3 in IH.
    specialize (IH ltac:(rewrite Hw3; by apply ensured_ok) ltac:(rewrite Hw3; by apply ensured_may_use) Hmir3 Hcur3
      ltac:(lia)).
    destruct (pull_loop _ _ _ _ _ fuel _ _ _ s3) as [r s4]. destruct IH as (Hw4 & (H1 & H2 & H3) & Hr4).
    split; [rewrite Hw4, Hw3; apply ensured_idemp|]. split; [|done]. split; [done|]. split; [|done].
    by rewrite H2, <- Hps2.
  - destruct Hresp as [-> Hpg]. split; [done|].
    assert (n + length pg = length L) as Heq.
    { pose proof (m_bound _ _ _ _ _ Hmir). lia. }
    assert (lastKnownHead s3 = Some (Z.of_nat (length L))) as Hk3 by (cbn; by rewrite Hk2).
    split; [split; [done|split; [by rewrite <- Hps2|]]; exists (n + length pg); split; [lia|done]|].
    rewrite <- Heq. split; [by rewrite Heq in Hmir3 |- *|]. split; [done|]. by rewrite Hk3, Heq.
Qed.

(** A rebase recomputes derived data only. *)
Definition rebase_derived : Prop := forall d,
  let d' := (onRebaseRequired d).2 in
  events d' = events d /\ sync_event_map d' = sync_event_map d /\ sync_meta d' = sync_meta d /\
  (db_ok d -> db_ok d').

(** Caught up with the log [L]. *)
Definition caught_up (L : list SyncIncomingEvent) (s : engine SyncServer.server) : Prop :=
  mirrors o st L (length L) (db s) /\
  readLastPulledGlobalSeq st (db s) = Z.of_nat (length L) /\
  lastKnownHead s = Some (Z.of_nat (length L)).

Lemma caught_up_derived L (s s' : engine SyncServer.server) :
  caught_up L s -> events (db s') = events (db s) -> sync_event_map (db s') = sync_event_map (db s) ->
  sync_meta (db s') = sync_meta (db s) -> db_ok (db s') -> lastKnownHead s' = lastKnownHead s ->
  caught_up L s'.
Proof.
  intros ([H1 H2 H3 H4] & Hc & Hk) He Hm Hmeta Hok Hl. split; [split|split].
  - done.
  - unfold pairs in *. by rewrite Hm.
  - unfold map_ids, event_ids in *. rewrite Hm, He. done.
  - done.
  - unfold readLastPulledGlobalSeq in *. by rewrite Hmeta.
  - congruence.
Qed.

Lemma rebase_if_spec b s :
  rebase_derived -> let '(r, s') := rebase_if onRebaseRequired b s in
  world s' = world s /\ (forall L, caught_up L s -> caught_up L s') /\
  forall L s0, stands_at L s0 s -> stands_at L s0 s'.
Proof.
  intros Hre. unfold rebase_if, on_pending, mbind, js_bind, gets, skip. destruct b; [|done].
  destruct (hasPendingEvents (db s)); [|done]. unfold on_db. specialize (Hre (db s)). cbv zeta in Hre.
  destruct (onRebaseRequired (db s)) as [r d]. destruct Hre as (H1 & H2 & H3 & H4).
  split; [done|]. split; [intros L HL; eapply caught_up_derived; [exact HL|done|done|done|apply H4, HL|done]|].
  intros L s0 (S1 & S2 & S3). split; [done|]. split; [done|]. simpl in H3. unfold readLastPulledGlobalSeq in *. simpl. by rewrite H3.
Qed.

Lemma pullOnce_spec fuel waitMs s n :
  let L := log o st (world s) in
  server_ok (world s) -> may_use o st (world s) = true -> mirrors o st L n (db s) ->
  readLastPulledGlobalSeq st (db s) = Z.of_nat n -> length L - n < fuel -> rebase_derived ->
  pull_inFlight (pullState s) = false ->
  exists s', pullOnce nowMs random (http repos o) rewriter onRebaseRequired st pullLimit fuel waitMs s =
    (Ok (Some tt), s') /\ world s' = ensured o st (world s) /\ pull_inFlight (pullState s') = false /\
    stands_at L s s' /\
    ((caught_up L s' /\ status s' = Idle (Some (nowMs (world s'))) None) \/
     exists e retry at_, status s' = ErrorStatus e retry at_).
Proof using Ho Hst Hlimit.
  intros L Hok Hm Hmir Hcur Hfuel Hre Hfl.
  unfold pullOnce. unfold mbind at 1, js_bind at 1, gets. rewrite Hfl.
  unfold mbind at 1, js_bind at 1, modify. unfold pullOnceInternal.
  unfold mbind at 1, js_bind at 1, modify, finally, try_catch, on_pending.
  set (s1 := setSyncing DirPull (pull_flight true s)).
  unfold mbind at 1, js_bind at 1, gets. unfold mbind at 1, js_bind at 1, readCursor, on_pending, gets.
  change (db s1) with (db s). rewrite Hcur.
  pose proof (pull_loop_spec fuel s1 n waitMs false Hok Hm Hmir Hcur Hfuel) as Hloop.
  change (world s1) with (world s) in Hloop. unfold mbind at 1, js_bind at 1.
  destruct (pull_loop _ _ _ _ _ fuel waitMs _ false s1) as [[[pulled|]|err] s2]; destruct Hloop as (Hw & Hat & Hr); [|done|].
  - unfold mbind at 1, js_bind at 1.
    pose proof (rebase_if_spec (pulled && hasPendingEvents (db s)) s2 Hre) as Hrb.
    destruct (rebase_if onRebaseRequired _ s2) as [[[]|err] s3]; destruct Hrb as (Hw3 & Hup & Hst3); apply Hst3 in Hat.
    + eexists. split; [reflexivity|]. cbn. split; [congruence|]. split; [done|]. split; [exact Hat|]. left.
      split; [|done]. apply (caught_up_derived L s3); try done; [by apply Hup|].
      destruct (Hup L Hr) as [[] _]. done.
    + unfold pull_failed. destruct (toSyncEngineError err _) as [er []]; eexists;
        (split; [reflexivity|]); cbn; (split; [congruence|]); (split; [done|]); (split; [exact Hat|]); right; by do 3 eexists.
  - unfold pull_failed. destruct (toSyncEngineError err _) as [er []]; eexists;
      (split; [reflexivity|]); cbn; (split; [congruence|]); (split; [done|]); (split; [exact Hat|]); right; by do 3 eexists.
Qed.

End Pull.

(** *** Pushing *)

Lemma applyAssignments_lossless now l d :
  db_ok d -> db_ok (applyAssignments now l d) /\ preserves d (applyAssignments now l d).
Proof. apply EngineLemmas.applyAssignments_ok. Qed.

Section Push.
Variable repos : option SharingRepos.
Variables (o st : string).
Hypothesis Ho : valid_id "SyncOwnerId" o.
Hypothesis Hst : valid_id "SyncStoreId" st.

Lemma match_nonempty {A B} (l : list A) (a b : B) :
  l <> [] -> match l with [] => a | _ :: _ => b end = b.
Proof. by destruct l. Qed.

Lemma append_fresh L es :
  NoDup (map in_eventId (L ++ es)) ->
  append L es = (L ++ es, map (fun r => Assigned (row_eventId r) (SyncServer.global_seq r))
    (rows_from o st (Z.of_nat (length L)) es)).
Proof.
  revert L. induction es as [|e es IH]; intros L Hnd; simpl; [by rewrite app_nil_r|].
  assert (position (in_eventId e) L = None) as ->.
  { apply position_none. rewrite map_app in Hnd. apply NoDup_app in Hnd as (_ & Hnd & _).
    intros Hin. apply (Hnd _ Hin). left. }
  rewrite IH by (by rewrite <- app_assoc). simpl. rewrite <- app_assoc, length_app. simpl.
  do 3 f_equal. f_equal. lia.
Qed.

Lemma log_pairs_app L es :
  log_pairs o st (L ++ es) = log_pairs o st L ++
    map (fun r => (row_eventId r, SyncServer.global_seq r)) (rows_from o st (Z.of_nat (length L)) es).
Proof. unfold log_pairs, rows_of. by rewrite rows_from_app, map_app. Qed.

Lemma http_push_run expected (l : list PushEvent) w :
  let L := log o st w in
  let es := map incoming l in
  server_ok w -> may_use o st w = true -> l <> [] -> expected = Z.of_nat (length L) ->
  validateSharingDependencies repos es = Ok None -> NoDup (map in_eventId (L ++ es)) ->
  exists w', http_push repos o (Push_ st expected l) w =
    (Ok (PushedOk (Z.of_nat (length (L ++ es))) (drop (length L) (log_pairs o st (L ++ es)))), w') /\
    server_ok w' /\ log o st w' = L ++ es /\ others_same o st w w' /\ may_use o st w' = true.
Proof using Ho Hst.
  intros L es Hok Hm Hne -> Hv Hnd. unfold http_push. cbn [pq_storeId pq_expectedHead pq_events].
  unfold SyncServer.push, lift_result, mbind, js_bind, SyncOwnerId_from, SyncStoreId_from.
  rewrite Ho, Hst, seq_from_ok by lia. pose proof (non_blank_ok _ _ _ Ho) as [_ Hlen].
  pose proof (pushEvents_spec repos o st (Z.of_nat (length L)) es w Hok Hlen) as Hp. rewrite Hm in Hp.
  destruct Hp as (w' & Hrun & Hok' & Hlog & Hoth & (r & Hr & Hro)). fold es. rewrite Hrun.
  unfold push_outcome in *. rewrite Hv in *. fold L in Hlog |- *.
  assert (push_spec o st L (Z.of_nat (length L)) es =
    (PushOk (Z.of_nat (length (L ++ es))) (append L es).2, L ++ es)) as Hspec.
  { unfold push_spec. destruct es as [|e es'] eqn:Ees; [by destruct l|]. rewrite Z.eqb_refl.
    pose proof (append_fresh L (e :: es') Hnd) as Ha. by rewrite Ha. }
  rewrite Hspec in *. cbn [fst snd] in *. exists w'. split_and!; try done.
  - rewrite (append_fresh L es Hnd), log_pairs_app. cbn [snd].
    rewrite drop_app_length' by (by rewrite length_log_pairs). by rewrite map_map.
  - unfold may_use. rewrite Hr. by apply bool_decide_eq_true.
Qed.

Lemma pending_fresh o' st' L d size :
  mirrors o' st' L (length L) d ->
  NoDup (map in_eventId L) ->
  NoDup (map in_eventId (L ++ map incoming (map push_event (loadPendingEvents size d)))) /\
  Forall (fun r => id r ∈ event_ids d) (loadPendingEvents size d).
Proof.
  intros [Hok Hp _ _] Hnd.
  assert (map in_eventId (map incoming (map push_event (loadPendingEvents size d))) =
    map id (loadPendingEvents size d)) as Hids by (by rewrite !map_map).
  assert (map id (loadPendingEvents size d) = take size (map (fun e => id (cols e)) (pending_rows d))) as Htake.
  { unfold loadPendingEvents. change (map id) with (fmap (M := list) id).
    change (map cols) with (fmap (M := list) cols). rewrite fmap_take, <- list_fmap_compose. done. }
  assert (map_ids d = map in_eventId L) as Hmap.
  { rewrite <- pairs_ids, Hp, take_ge by (by rewrite length_log_pairs). apply log_pairs_fst. }
  assert (forall i, i ∈ map (fun e => id (cols e)) (pending_rows d) -> i ∈ event_ids d /\ i ∉ map_ids d) as Hin.
  { intros i Hi. apply list_elem_of_fmap in Hi as (e & -> & He). unfold pending_rows in He.
    apply list_elem_of_filter in He as [Hs He]. split.
    - by apply (list_elem_of_fmap_2 (fun e => id (cols e))).
    - by apply bool_decide_eq_false in Hs. }
  split.
  - rewrite map_app, Hids, Htake. apply NoDup_app. split; [done|]. split.
    + intros i Hi Hi'. rewrite <- Hmap in Hi. apply elem_of_take in Hi' as (k & Hk & _).
      apply list_elem_of_lookup_2, Hin in Hk as [_ Hk]. done.
    + apply nodup_take. destruct Hok as [Hd _ _ _ _ _]. eapply sublist_NoDup; [exact Hd|].
      apply fmap_sublist, sublist_filter.
  - apply Forall_forall. intros r Hr.
    assert (id r ∈ take size (map (fun e => id (cols e)) (pending_rows d))) as Hi.
    { rewrite <- Htake. by apply (list_elem_of_fmap_2 id). }
    apply elem_of_take in Hi as (k & Hk & _). by apply list_elem_of_lookup_2, Hin in Hk as [Hk _].
Qed.

Variables (nowMs random : SyncServer.server -> Z).
Variable rewriter : option PendingVersionRewriterPort.
Context `{SyncRecordMaterializerPort}.
Variable onRebaseRequired : dbm unit.
Variable pullLimit : Z.
Variables (pushBatchSize maxPushRetries : nat).

(** A push with something to send, whose expected head is the server's. *)
Lemma pushOnce_run fuel s n :
  let L := log o st (world s) in
  let batch := loadPendingEvents pushBatchSize (db s) in
  let es := map incoming (map push_event batch) in
  server_ok (world s) -> may_use o st (world s) = true -> batch <> [] ->
  readLastPulledGlobalSeq st (db s) = Z.of_nat n -> n <= length L ->
  default (Z.of_nat n) (lastKnownHead s) = Z.of_nat (length L) ->
  NoDup (map in_eventId (L ++ es)) ->
  validateSharingDependencies repos es = Ok None -> maxPushRetries <> 0 ->
  push_inFlight (pushState s) = false ->
  exists s', pushOnce nowMs random (http repos o) rewriter onRebaseRequired st pullLimit
      pushBatchSize maxPushRetries fuel s = (Ok (Some tt), s') /\
    server_ok (world s') /\ others_same o st (world s) (world s') /\ may_use o st (world s') = true /\
    log o st (world s') = L ++ es /\
    db s' = writeLastPulledGlobalSeq st (Z.of_nat (length (L ++ es))) (nowMs (world s'))
      (applyAssignments (nowMs (world s')) (drop (length L) (log_pairs o st (L ++ es))) (db s)) /\
    lastKnownHead s' = Some (Z.of_nat (length (L ++ es))) /\
    status s' = Idle (Some (nowMs (world s'))) None /\ pullState s' = pullState s.
Proof using Ho Hst.
  intros L batch es Hok Hm Hbatch Hcur Hn Hhead Hfresh Hv Hretries Hfl.
  unfold pushOnce. unfold mbind at 1, js_bind at 1, gets. rewrite Hfl.
  unfold mbind at 1, js_bind at 1, modify, finally, try_catch.
  set (s1 := setSyncing DirPush (push_flight true s)).
  destruct maxPushRetries as [|m]; [done|]. cbn [push_attempts].
  unfold mbind at 1, js_bind at 1, on_pending, gets. change (db s1) with (db s). fold batch.
  rewrite (match_nonempty _ _ _ Hbatch).
  assert (getExpectedHead st s1 = (Ok (Z.of_nat (length L)), s1)) as Hexp.
  { unfold getExpectedHead, readCursor, on_pending, mbind, js_bind, gets, mret, js_ret.
    change (lastKnownHead s1) with (lastKnownHead s). rewrite <- Hhead, <- Hcur.
    by destruct (lastKnownHead s). }
  unfold mbind at 1, js_bind at 1. rewrite Hexp. unfold mbind at 1, js_bind at 1, on_world.
  cbn [transport_push http]. change (world s1) with (world s).
  destruct (http_push_run (Z.of_nat (length L)) (map push_event batch) (world s)) as (w' & Hrun & Hok' & Hlog & Hoth & Hm');
    [done|done|by destruct batch|done|done|done|].
  rewrite Hrun. fold L es in Hlog |- *.
  set (assigned := drop (length L) (log_pairs o st (L ++ es))).
  unfold mbind at 1, js_bind at 1, stamped, modify.
  unfold mbind at 1, js_bind at 1, readCursor, on_pending, gets.
  unfold mbind at 1, js_bind at 1, writeCursor, stamped, modify.
  unfold mbind at 1, js_bind at 1, modify. unfold mbind at 1, js_bind at 1, gets.
  unfold mbind at 1, js_bind at 1, modify, mret, js_ret.
  eexists. split; [reflexivity|].
  match goal with |- context [push_request true ?t] => set (s3 := t) end.
  match goal with |- context [if ?b then push_request true s3 else _] => set (again := b) end.
  assert (forall A (f : engine SyncServer.server -> A), (forall t, f (push_request true t) = f t) ->
    f (push_flight false (if again then push_request true s3 else s3)) = f (push_flight false s3)) as Hif
    by (intros A f Hf; destruct again; [|done]; destruct s3; apply (Hf (push_flight false (Engine _ _ _ _ _ _ _)))).
  rewrite !(Hif _ world), !(Hif _ db), !(Hif _ lastKnownHead), !(Hif _ status), !(Hif _ pullState) by done.
  split_and!; try done.
  assert (forall d, readLastPulledGlobalSeq st (applyAssignments (nowMs w') assigned d) =
    readLastPulledGlobalSeq st d) as Hread.
  { intros d. by rewrite assignments_are_maps. }
  cbn. rewrite Hread, Hcur, length_app. f_equal. lia.
Qed.

Lemma pushOnce_spec fuel s :
  let L := log o st (world s) in
  let batch := loadPendingEvents pushBatchSize (db s) in
  let es := map incoming (map push_event batch) in
  server_ok (world s) -> may_use o st (world s) = true ->
  mirrors o st L (length L) (db s) -> readLastPulledGlobalSeq st (db s) = Z.of_nat (length L) ->
  lastKnownHead s = None \/ lastKnownHead s = Some (Z.of_nat (length L)) ->
  validateSharingDependencies repos es = Ok None -> maxPushRetries <> 0 ->
  push_inFlight (pushState s) = false ->
  exists s', pushOnce nowMs random (http repos o) rewriter onRebaseRequired st pullLimit
      pushBatchSize maxPushRetries fuel s = (Ok (Some tt), s') /\
    server_ok (world s') /\ others_same o st (world s) (world s') /\
    log o st (world s') = L ++ es /\ mirrors o st (L ++ es) (length (L ++ es)) (db s') /\
    readLastPulledGlobalSeq st (db s') = Z.of_nat (length (L ++ es)) /\
    events (db s') = events (db s).
Proof using Ho Hst.
  intros L batch es Hok Hm Hmir Hcur Hhead Hv Hretries Hfl.
  destruct (pending_fresh o st L (db s) pushBatchSize Hmir) as [Hfresh Hheld].
  { by destruct (Hok o st) as (_ & ? & _). }
  fold batch in Hfresh, Hheld. fold es in Hfresh.
  destruct (decide (batch = [])) as [Hbatch|Hbatch].
  { assert (es = []) as Hes by (unfold es; by rewrite Hbatch). rewrite Hes, app_nil_r.
    unfold pushOnce, mbind, js_bind, gets, modify, finally, try_catch. rewrite Hfl.
    destruct maxPushRetries as [|m]; [done|]. cbn [push_attempts].
    unfold mbind, js_bind, on_pending, gets, modify, mret, js_ret.
    change (db (setSyncing _ _)) with (db s). fold batch. rewrite Hbatch.
    eexists. split; [reflexivity|]. cbn. by split_and!. }
  destruct (pushOnce_run fuel s (length L)) as (s' & Hrun & Hok' & Hoth & _ & Hlog & Hdb & _);
    try done; [by destruct Hhead as [-> | ->]|].
  fold L batch es in Hlog, Hdb. exists s'. split; [exact Hrun|]. do 3 (split; [done|]).
  set (assigned := drop (length L) (log_pairs o st (L ++ es))) in *.
  set (now := nowMs (world s')) in *. set (d2 := applyAssignments now assigned (db s)) in *.
  assert (mirrors o st (L ++ es) (length (L ++ es)) d2) as [Hok2 Hp2 Hh2 Hb2].
  { rewrite length_app. destruct (applyAssignments_lossless now assigned (db s)) as [Hok2 Hp2]; [apply Hmir|].
    assert (assigned = take (length es) (drop (length L) (log_pairs o st (L ++ es)))) as Hass.
    { unfold assigned. rewrite take_ge; [done|]. rewrite length_drop, length_log_pairs, length_app. lia. }
    eapply (mirrors_extend o st (L ++ es) (length L) (length es) (db s) d2 now); try done.
    - destruct Hmir as [? Hp ? ?]. split; [done| |done|rewrite length_app; lia].
      rewrite Hp, log_pairs_app, take_app_length', take_ge by (by rewrite ?length_log_pairs). done.
    - by rewrite length_app.
    - rewrite <- Hass. apply Forall_forall. intros p Hin. unfold assigned in Hin.
      assert (p.1 ∈ (drop (length L) (log_pairs o st (L ++ es))).*1) as Hp1 by (by apply list_elem_of_fmap_2).
      rewrite fmap_drop, log_pairs_fst, map_app, drop_app_length' in Hp1 by (by rewrite length_map).
      unfold es in Hp1. rewrite !map_map in Hp1. apply list_elem_of_fmap in Hp1 as (r & -> & Hr).
      rewrite Forall_forall in Hheld. eapply preserves_ids; [exact Hp2|]. by apply Hheld.
    - rewrite <- Hass. unfold d2. rewrite assignments_are_maps. done. }
  rewrite Hdb. split; [|split].
  - destruct Hok2. by split.
  - unfold readLastPulledGlobalSeq. cbn. by rewrite lookup_insert, decide_True.
  - cbn. unfold d2. by rewrite assignments_are_maps.
Qed.

(** Nothing comes after the head. *)
Lemma pull_at_head fuel waitMs s :
  let L := log o st (world s) in
  server_ok (world s) -> may_use o st (world s) = true -> (1 <= pullLimit)%Z ->
  readLastPulledGlobalSeq st (db s) = Z.of_nat (length L) -> pull_inFlight (pullState s) = false ->
  exists s', pullOnce nowMs random (http repos o) rewriter onRebaseRequired st pullLimit (S fuel) waitMs s =
    (Ok (Some tt), s') /\ db s' = db s /\ status s' = Idle (Some (nowMs (world s'))) None.
Proof using Ho Hst.
  intros L Hok Hm Hlim Hcur Hfl. unfold pullOnce. unfold mbind at 1, js_bind at 1, gets. rewrite Hfl.
  unfold mbind at 1, js_bind at 1, modify. unfold pullOnceInternal.
  unfold mbind at 1, js_bind at 1, modify, finally, try_catch, on_pending.
  set (s1 := setSyncing DirPull (pull_flight true s)).
  unfold mbind at 1, js_bind at 1, gets. unfold mbind at 1, js_bind at 1, readCursor, on_pending, gets.
  change (db s1) with (db s). rewrite Hcur. cbn [pull_loop].
  unfold mbind at 1, js_bind at 1. unfold mbind at 1, js_bind at 1, on_world.
  cbn [transport_pull http]. change (world s1) with (world s). rewrite http_pull_run by done.
  fold L. cbv zeta.
  assert (page o st L (Z.of_nat (length L)) pullLimit = []) as ->.
  { apply nil_length_inv. pose proof (page_length o st L (Z.of_nat (length L)) pullLimit). lia. }
  eexists. split; [reflexivity|]. by cbn.
Qed.

End Push.

End SyncSystem.

Module SyncSystemProperties.
Import SyncRefinement SyncPaging SyncSystem.

(** C4: A device that holds and has mapped exactly the first n events of its store's log,
    its cursor at n, pulls page after page over the backend's own handler: the run ends
    (fuel above the number of missing events), the log is unchanged, and either the device
    now holds and has mapped the whole log in the server's order, cursor at the head and
    status idle, or the run ended in an error status (an event that cannot be opened, a
    collision). *)
Theorem pull_catches_up (repos : option SharingRepos) (o st : string)
    (nowMs random : SyncServer.server -> Z) (rewriter : option PendingVersionRewriterPort)
    `{SyncRecordMaterializerPort} (onRebaseRequired : dbm unit) (pullLimit : Z)
    (fuel n : nat) (waitMs : Z) (s : engine SyncServer.server) :
  let L := log o st (world s) in
  valid_id "SyncOwnerId" o -> valid_id "SyncStoreId" st -> (1 <= pullLimit)%Z ->
  server_ok (world s) -> may_use o st (world s) = true -> rebase_derived onRebaseRequired ->
  mirrors o st L n (db s) -> readLastPulledGlobalSeq st (db s) = Z.of_nat n ->
  length L - n < fuel -> pull_inFlight (pullState s) = false ->
  exists s', pullOnce nowMs random (http repos o) rewriter onRebaseRequired st pullLimit fuel waitMs s =
    (Ok (Some tt), s') /\ log o st (world s') = L /\
    ((mirrors o st L (length L) (db s') /\ readLastPulledGlobalSeq st (db s') = Z.of_nat (length L) /\
      Forall (fun e => in_eventId e ∈ event_ids (db s')) L /\
      status s' = Idle (Some (nowMs (world s'))) None) \/
     exists e retry at_, status s' = ErrorStatus e retry at_).
Proof.
  intros L Ho Hst Hlim Hok Hm Hre Hmir Hcur Hfuel Hfl.
  destruct (pullOnce_spec repos o st Ho Hst nowMs random rewriter onRebaseRequired pullLimit Hlim fuel waitMs
    s n Hok Hm Hmir Hcur Hfuel Hre Hfl) as (s' & Hrun & Hw & _ & _ & Hr).
  exists s'. split; [done|]. split; [rewrite Hw; apply ensured_log|].
  destruct Hr as [[(Hmir' & Hc & _) Hs]|Herr]; [left|by right]. split_and!; try done.
  destruct Hmir' as [_ Hp Hheld _]. rewrite take_ge in Hp by (by rewrite length_log_pairs).
  apply Forall_forall. intros e He. apply Hheld. rewrite <- pairs_ids, Hp. unfold L.
  rewrite log_pairs_fst. by apply (list_elem_of_fmap_2 in_eventId).
Qed.

(** C5: A device in step with its store's log pushes pending events whose references pass
    the backend's sharing check: the first of them, in commit order and at most one batch,
    are appended to the log by the backend, no other log changes, the device's own events
    stay as they were, and it is in step with the extended log: the assigned sequences
    recorded, the cursor at the new head. *)
Theorem push_publishes (repos : option SharingRepos) (o st : string)
    (nowMs random : SyncServer.server -> Z) (rewriter : option PendingVersionRewriterPort)
    `{SyncRecordMaterializerPort} (onRebaseRequired : dbm unit) (pullLimit : Z)
    (pushBatchSize maxPushRetries fuel : nat) (s : engine SyncServer.server) :
  let L := log o st (world s) in
  let es := map incoming (map push_event (loadPendingEvents pushBatchSize (db s))) in
  valid_id "SyncOwnerId" o -> valid_id "SyncStoreId" st ->
  server_ok (world s) -> may_use o st (world s) = true ->
  mirrors o st L (length L) (db s) -> readLastPulledGlobalSeq st (db s) = Z.of_nat (length L) ->
  lastKnownHead s = None \/ lastKnownHead s = Some (Z.of_nat (length L)) ->
  validateSharingDependencies repos es = Ok None -> maxPushRetries <> 0 ->
  push_inFlight (pushState s) = false ->
  exists s', pushOnce nowMs random (http repos o) rewriter onRebaseRequired st pullLimit
      pushBatchSize maxPushRetries fuel s = (Ok (Some tt), s') /\
    server_ok (world s') /\ others_same o st (world s) (world s') /\
    log o st (world s') = L ++ es /\ events (db s') = events (db s) /\
    mirrors o st (L ++ es) (length (L ++ es)) (db s') /\
    readLastPulledGlobalSeq st (db s') = Z.of_nat (length (L ++ es)).
Proof.
  intros L es Ho Hst Hok Hm Hmir Hcur Hhead Hv Hretries Hfl.
  destruct (pushOnce_spec repos o st Ho Hst nowMs random rewriter onRebaseRequired pullLimit
    pushBatchSize maxPushRetries fuel s Hok Hm Hmir Hcur Hhead Hv Hretries Hfl)
    as (s' & Hrun & H1 & H2 & H3 & H4 & H5 & H6).
  by exists s'.
Qed.

(** C7: Events are lost for good. A pull that fails before it has applied every page (the
    device lacks a key, say) leaves the server's head recorded, with the cursor behind it.
    The next push of new events names that head, is accepted, and moves the cursor to the
    new head, past the events the failed pull did not apply; the following pull, which
    starts from the cursor, finds nothing and reports success. The events table is the one
    the failed pull left. (The events pushed have new ids and pass the sharing check.) *)
Theorem failed_pull_loses_events (repos : option SharingRepos) (o st : string)
    (nowMs random : SyncServer.server -> Z) (rewriter : option PendingVersionRewriterPort)
    `{SyncRecordMaterializerPort} (onRebaseRequired : dbm unit) (pullLimit : Z)
    (pushBatchSize maxPushRetries fuel n : nat) (waitMs : Z) (s s0 : engine SyncServer.server) r :
  let L := log o st (world s) in
  let es := map incoming (map push_event (loadPendingEvents pushBatchSize (db s0))) in
  valid_id "SyncOwnerId" o -> valid_id "SyncStoreId" st -> (1 <= pullLimit)%Z ->
  server_ok (world s) -> may_use o st (world s) = true -> rebase_derived onRebaseRequired ->
  mirrors o st L n (db s) -> readLastPulledGlobalSeq st (db s) = Z.of_nat n -> length L - n < fuel ->
  pull_inFlight (pullState s) = false -> push_inFlight (pushState s) = false ->
  pullOnce nowMs random (http repos o) rewriter onRebaseRequired st pullLimit fuel waitMs s = (r, s0) ->
  (readLastPulledGlobalSeq st (db s0) < Z.of_nat (length L))%Z ->
  es <> [] -> NoDup (map in_eventId (L ++ es)) -> validateSharingDependencies repos es = Ok None -> maxPushRetries <> 0 ->
  (exists e retry at_, status s0 = ErrorStatus e retry at_) /\ lastKnownHead s0 = Some (Z.of_nat (length L)) /\
  exists s1 s2,
    pushOnce nowMs random (http repos o) rewriter onRebaseRequired st pullLimit
      pushBatchSize maxPushRetries fuel s0 = (Ok (Some tt), s1) /\ log o st (world s1) = L ++ es /\
    pullOnce nowMs random (http repos o) rewriter onRebaseRequired st pullLimit (S fuel) waitMs s1 =
      (Ok (Some tt), s2) /\
    readLastPulledGlobalSeq st (db s2) = Z.of_nat (length (L ++ es)) /\
    events (db s2) = events (db s0) /\ status s2 = Idle (Some (nowMs (world s2))) None.
Proof.
  intros L es Ho Hst Hlim Hok Hm Hre Hmir Hcur Hfuel Hfl Hfl' Hrun0 Hbehind Hne Hnd Hv Hretries.
  destruct (pullOnce_spec repos o st Ho Hst nowMs random rewriter onRebaseRequired pullLimit Hlim fuel waitMs
    s n Hok Hm Hmir Hcur Hfuel Hre Hfl) as (s0' & Hrun & Hw & Hfl0 & (Hhead & Hps & k & Hk & Hck) & Hr).
  rewrite Hrun0 in Hrun. injection Hrun as -> <-.
  split; [destruct Hr as [[(_ & Hc & _) _]|Hr]; [fold L in Hc; lia|done]|].
  split; [exact Hhead|].
  assert (log o st (world s0) = L) as HL0 by (rewrite Hw; apply ensured_log).
  destruct (pushOnce_run repos o st Ho Hst nowMs random rewriter onRebaseRequired pullLimit
    pushBatchSize maxPushRetries fuel s0 k) as (s1 & Hpush & Hok1 & _ & Hm1 & Hlog & Hdb & _ & _ & Hpl);
    rewrite ?HL0; try done.
  { rewrite Hw. by apply ensured_ok. }
  { rewrite Hw. by apply ensured_may_use. }
  { intros Hb. apply Hne. unfold es. by rewrite Hb. }
  { by rewrite Hhead. }
  { by rewrite Hps. }
  rewrite HL0 in Hlog, Hdb. fold es in Hlog, Hdb.
  assert (readLastPulledGlobalSeq st (db s1) = Z.of_nat (length (L ++ es))) as Hc1.
  { rewrite Hdb. unfold readLastPulledGlobalSeq. cbn. by rewrite lookup_insert, decide_True. }
  destruct (pull_at_head repos o st Ho Hst nowMs random rewriter onRebaseRequired pullLimit fuel waitMs s1)
    as (s2 & Hpull & Hdb2 & Hs2); try done; [by rewrite Hlog|by rewrite Hpl|].
  exists s1, s2. rewrite Hdb2. split_and!; try done.
  rewrite Hdb. cbn. by rewrite assignments_are_maps.
Qed.

End SyncSystemProperties.

(** ** Witnesses *)

Module SyncSystemWitnesses.
Import SyncSpec SyncRefinement SyncPaging SyncSystem MaterializerProperties.

#[local] Instance crypto : Crypto.CryptoServicePort := Crypto.WebCryptoService.service Crypto.ToyGcm.toy.

Definition key_1 : list Z := replicate 32 5%Z.
Definition zeros (d : local_db) (n : nat) : list Z := replicate 12 0%Z.

(** An event of goal [g1], sealed. *)
Definition sealed (i : string) (v : Z) : MaterializedEventRow :=
  let bare := EventCols i "goal" "g1" "GoalSummaryChanged" [] v (num 17) (Some "alice") None None
    None None None None None None None None in
  match Crypto.encrypt (zeros empty_db 0) (encodeEventEnvelope (row_envelope bare (num 1) (num 1)
      (JObj [("summary", JStr "read")]))) key_1 (Some (buildEventAad "goal" "g1" v)) with
  | Ok c => with_version v c bare
  | Err _ => bare
  end.

Definition keyring (have : bool) (ai : string) : result error (list Z) :=
  if have then Ok key_1 else Err (PlainError "Missing aggregate key").

#[local] Instance rewriter_port : PendingVersionRewriterPort :=
  RewriterProperties.PendingEventVersionRewriter (keyring true) zeros (fun _ _ => eq_refl).

Definition no_rebase : dbm unit := skip.
Definition clock (w : SyncServer.server) : Z := 1000.
Definition dice (w : SyncServer.server) : Z := 0.

(** [syncOnce] of alice's devices, with or without the aggregate's key. *)
Definition sync (have : bool) : js (engine SyncServer.server) failure (option unit) :=
  @syncOnce SyncServer.server clock dice (http None "alice") (Some rewriter_port)
    (SyncRecordMaterializer (keyring have)) no_rebase "store" 200 100 2 10.

(** The phone has two events; the laptop, offline, one at the same version. *)
Definition phone_db : local_db := append_row (sealed "e2" 2) (append_row (sealed "e1" 1) empty_db).
Definition phone : engine SyncServer.server := new_engine empty_server phone_db.
Definition after_phone : SyncServer.server :=
  serve None empty_server (ReqPush "alice" "store" 0 (map incoming (map push_event (loadPendingEvents 100 phone_db)))).
Definition laptop_db : local_db := append_row (sealed "p1" 1) empty_db.
Definition laptop : engine SyncServer.server := new_engine after_phone laptop_db.

Definition summary (s : engine SyncServer.server) : list (string * Z) * list (string * Z) * list string :=
  (map (fun e => (id (cols e), version (cols e))) (events (db s)), pairs (db s),
   map in_eventId (log "alice" "store" (world s))).

Example phone_sync : world (snd (sync true phone)) = after_phone.
Proof. vm_compute. reflexivity. Qed.

(** The laptop pulls both events, moves its own to version 3 and pushes it. *)
Example laptop_sync :
  summary (snd (sync true laptop)) =
    ([("p1", 3%Z); ("e1", 1%Z); ("e2", 2%Z)], [("e1", 1%Z); ("e2", 2%Z); ("p1", 3%Z)], ["e1"; "e2"; "p1"]).
Proof. vm_compute. reflexivity. Qed.

(** Without the aggregate's key the pull fails after it has recorded the head
    of the server, so the push that follows is accepted and moves the cursor
    past the two events.  They never arrive, not even once the key is there;
    no error remains. *)
Example unapplied_events_skipped :
  let s := snd (sync true (snd (sync false laptop))) in
  (summary s, status s, readLastPulledGlobalSeq "store" (db s)) =
    (([("p1", 2%Z)], [("p1", 3%Z)], ["e1"; "e2"; "p1"]), Idle (Some 1000%Z) None, 3%Z).
Proof. vm_compute. reflexivity. Qed.

(** A server that is always ahead by an event the laptop already has. *)
Definition contended : Transport SyncServer.server := {|
  transport_push := fun rq => mret (PushedConflict 2 "server_ahead"
    (Some (map remote (rows_of "alice" "store" (take 1 (log "alice" "store" after_phone))))));
  transport_pull := http_pull "alice"
|}.

(** When the attempts are used up the run ends as if it were still syncing:
    the pending event stays, nothing is requested, no error is shown. *)
Example push_gives_up :
  let s := snd (@pushOnce SyncServer.server clock dice contended (Some rewriter_port)
    (SyncRecordMaterializer (keyring true)) no_rebase "store" 200 100 2 10 laptop) in
  (status s, push_requested (pushState s), hasPendingEvents (db s)) = (Syncing DirPush None None, false, true).
Proof. vm_compute. reflexivity. Qed.

(** A conflict's events may be only the first part of what is missing (the
    server sends at most a thousand); the cursor moves to the head all the same. *)
Lemma conflict_moves_to_head {W} (nowMs random : W -> Z) (transport : Transport W) rewriter
    `{SyncRecordMaterializerPort} st limit fuel head reason missing expected (s s' : engine W) r :
  reason <> "server_behind" -> missing <> [] ->
  handleConflict nowMs random transport rewriter no_rebase st limit fuel head reason (Some missing) expected s =
    (Ok r, s') ->
  (head <= readLastPulledGlobalSeq st (db s'))%Z /\ lastKnownHead s' = Some head.
Proof.
  intros Hr Hm. unfold handleConflict. cbn [default].
  rewrite !bool_decide_eq_false_2 by done. cbn [negb].
  unfold mbind, js_bind, on_pending, gets, apply_events, on_db.
  destruct (applyRemoteEvents _ _ _ _) as [[applied|err] d]; [|done].
  unfold readCursor, on_pending, gets, writeCursor, stamped, modify, rebase_if, no_rebase, on_db, mret, js_ret.
  set (s1 := set_lastKnownHead _ _).
  assert (head <= readLastPulledGlobalSeq st (db s1) /\ lastKnownHead s1 = Some head)%Z as Hs1.
  { split; [|done]. unfold s1, readLastPulledGlobalSeq at 1. cbn. rewrite lookup_insert, decide_True by done. cbn. lia. }
  unfold mbind, js_bind. destruct (applied && _); [|by intros [= _ <-]].
  unfold on_pending, gets. destruct (hasPendingEvents (db s1)); intros [= _ <-]; exact Hs1.
Qed.

Lemma after_phone_ok : server_ok after_phone.
Proof. apply serve_spec, empty_ok. Qed.

Lemma laptop_db_ok : db_ok laptop_db.
Proof. apply append_row_ok; [apply db_ok_empty|reflexivity]. Qed.

Lemma laptop_mirrors : mirrors "alice" "store" (log "alice" "store" after_phone) 0 laptop_db.
Proof. split; [apply laptop_db_ok|reflexivity| |lia]. intros i Hi. vm_compute in Hi. by apply not_elem_of_nil in Hi. Qed.

Lemma no_rebase_derived : rebase_derived no_rebase.
Proof. by intros d. Qed.

Lemma pull_catches_up_witness :
  let s := (@pullOnce SyncServer.server clock dice (http None "alice") (Some rewriter_port)
    (SyncRecordMaterializer (keyring true)) no_rebase "store" 200 3 0 laptop).2 in
  status s = Idle (Some 1000%Z) None /\ pairs (db s) = [("e1", 1%Z); ("e2", 2%Z)].
Proof.
  destruct (@SyncSystemProperties.pull_catches_up None "alice" "store" clock dice (Some rewriter_port)
    (SyncRecordMaterializer (keyring true)) no_rebase 200 3 0 0 laptop
    eq_refl eq_refl ltac:(lia) after_phone_ok eq_refl no_rebase_derived laptop_mirrors eq_refl)
    as (s' & H & _ & _); [vm_compute; lia|reflexivity|].
  split; vm_compute; reflexivity.
Defined.

(** The phone publishes its events to an empty server. *)
Lemma push_publishes_witness :
  exists s', @pushOnce SyncServer.server clock dice (http None "alice") (Some rewriter_port)
      (SyncRecordMaterializer (keyring true)) no_rebase "store" 200 100 2 10 phone = (Ok (Some tt), s') /\
    map in_eventId (log "alice" "store" (world s')) = ["e1"; "e2"].
Proof.
  destruct (@SyncSystemProperties.push_publishes None "alice" "store" clock dice (Some rewriter_port)
    (SyncRecordMaterializer (keyring true)) no_rebase 200 100 2 10 phone
    eq_refl eq_refl empty_ok eq_refl) as (s' & Hrun & _ & _ & Hlog & _).
  - split; [|reflexivity| |vm_compute; lia].
    + repeat (apply append_row_ok; [|reflexivity]). apply db_ok_empty.
    + intros i Hi. vm_compute in Hi. by apply not_elem_of_nil in Hi.
  - reflexivity.
  - by left.
  - reflexivity.
  - done.
  - reflexivity.
  - exists s'. split; [exact Hrun|]. rewrite Hlog. reflexivity.
Defined.

(** The laptop after a pull that failed for want of the key. *)
Definition stuck : engine SyncServer.server :=
  (@pullOnce SyncServer.server clock dice (http None "alice") (Some rewriter_port)
    (SyncRecordMaterializer (keyring false)) no_rebase "store" 200 3 0 laptop).2.

Lemma failed_pull_loses_events_witness :
  exists s1 s2,
    @pushOnce SyncServer.server clock dice (http None "alice") (Some rewriter_port)
      (SyncRecordMaterializer (keyring false)) no_rebase "store" 200 100 2 3 stuck = (Ok (Some tt), s1) /\
    @pullOnce SyncServer.server clock dice (http None "alice") (Some rewriter_port)
      (SyncRecordMaterializer (keyring false)) no_rebase "store" 200 4 0 s1 = (Ok (Some tt), s2) /\
    event_ids (db s2) = ["p1"] /\ readLastPulledGlobalSeq "store" (db s2) = 3%Z.
Proof.
  assert (@pullOnce SyncServer.server clock dice (http None "alice") (Some rewriter_port)
    (SyncRecordMaterializer (keyring false)) no_rebase "store" 200 3 0 laptop = (Ok (Some tt), stuck)) as Hfail
    by (vm_compute; reflexivity).
  destruct (@SyncSystemProperties.failed_pull_loses_events None "alice" "store" clock dice (Some rewriter_port)
    (SyncRecordMaterializer (keyring false)) no_rebase 200 100 2 3 0 0 laptop stuck (Ok (Some tt))
    eq_refl eq_refl ltac:(lia) after_phone_ok eq_refl no_rebase_derived laptop_mirrors eq_refl)
    as (_ & _ & s1 & s2 & Hpush & _ & Hpull & _).
  - vm_compute. lia.
  - reflexivity.
  - reflexivity.
  - exact Hfail.
  - vm_compute. reflexivity.
  - vm_compute. discriminate.
  - refine (bool_decide_unpack _ _). vm_compute. exact I.
  - reflexivity.
  - done.
  - exists s1, s2. split; [exact Hpush|]. split; [exact Hpull|].
    vm_compute in Hpush. injection Hpush as <-. vm_compute in Hpull. injection Hpull as <-. split; vm_compute; reflexivity.
Defined.

(** *** The engine's own theorems *)

Lemma sync_lossless_witness :
  db_ok (db (snd (@pullOnce SyncServer.server clock dice (http None "alice") (Some rewriter_port)
    (SyncRecordMaterializer (keyring false)) no_rebase "store" 200 3 0 laptop))).
Proof.
  refine (proj1 (@EngineProperties.sync_lossless SyncServer.server clock dice (http None "alice") (Some rewriter_port)
    (SyncRecordMaterializer (keyring false)) no_rebase "store" 200 100 2 3 0 laptop laptop_db_ok _)).
  intros d Hd. split; [exact Hd|apply preserves_refl].
Defined.

Definition page_1 : list RemoteEvent := map remote (rows_of "alice" "store" (log "alice" "store" after_phone)).

Lemma apply_remote_events_witness :
  let '(r, d') := @applyRemoteEvents (Some rewriter_port) (SyncRecordMaterializer (keyring true)) 1000 page_1 laptop_db in
  r = Ok true /\ db_ok d' /\ pairs d' = [("e1", 1%Z); ("e2", 2%Z)].
Proof.
  pose proof (@EngineProperties.apply_remote_events (Some rewriter_port) (SyncRecordMaterializer (keyring true))
    1000 page_1 laptop_db laptop_db_ok) as Happly.
  destruct (applyRemoteEvents _ _ _ _) as [r d'] eqn:E. destruct Happly as (Hok & _).
  split; [|split; [exact Hok|]]; vm_compute in E; injection E as <- <-; reflexivity.
Defined.

Lemma collision_one_rewrite_witness :
  let '(r, d') := resolve_collision (Some rewriter_port) 128 "goal" "g1" 1 laptop_db in
  r = Ok true /\ (("goal", "g1", 1%Z) ∉ places d') /\ map (fun e => version (cols e)) (events d') = [2%Z].
Proof.
  pose proof (EngineProperties.collision_one_rewrite (Some rewriter_port) 126 "goal" "g1" 1 laptop_db
    laptop_db_ok ltac:(repeat constructor; done)) as Hone.
  destruct (resolve_collision _ _ _ _ _ _) as [r d'] eqn:E. destruct Hone as (_ & _ & _ & _ & Hfree).
  assert (r = Ok true) as -> by (vm_compute in E; injection E as <- _; reflexivity).
  split; [done|]. split; [by apply Hfree|]. vm_compute in E. injection E as <-. reflexivity.
Defined.

Lemma backoff_bounds_witness :
  nextBackoffMs (2 ^ 52) 4000 MIN_BACKOFF_MS MAX_BACKOFF_MS = 8000%Z /\
  (MIN_BACKOFF_MS <= nextBackoffMs (2 ^ 52) 4000 MIN_BACKOFF_MS MAX_BACKOFF_MS <= MAX_BACKOFF_MS)%Z.
Proof.
  split; [reflexivity|]. apply (EngineProperties.backoff_bounds (2 ^ 52) 4000); lia.
Defined.

End SyncSystemWitnesses.
