(* ===== verification/Application.v ===== *)
(** * The application layer's common ground

    - [packages/application/src/errors] and [packages/infrastructure/src/errors.ts]:
      the errors command handlers and repositories throw;
    - the state of a device that they act on: the database, the key store
      ([packages/infrastructure/src/crypto/IndexedDBKeyStore.ts], its aggregate
      keys), the keyrings and their cache, the [idempotency_keys] table, and the
      random source as two streams that are consumed;
    - [packages/infrastructure/src/idempotency/SqliteIdempotencyStore.ts];
    - [packages/application/src/shared/ports/BaseCommand.ts] and
      [BaseCommandHandler.ts]: commands, the collecting parser of their fields,
      known versions and idempotency keys.

    The store of the identity keys and the backup operations of the key store
    are not modelled. *)

From S2P Require Import Prelude JsValues ValueObjects Dates Base64Url Crypto LocalDb.

(** ** Errors *)

Record ValidationError : Type := FieldError {
  ve_field : string;
  ve_message : string
}.

#[export] Instance ValidationError_eq_dec : EqDecision ValidationError.
Proof. solve_decision. Defined.

(** [ConcurrencyError] and the database's errors are among [failure]'s. *)
Inductive app_error : Type :=
| ValidationException (details : list ValidationError)
| NotFoundError (message : string)
| PersistenceError (message : string)
| MissingKeyError (message : string)
| Infra (f : failure).

#[export] Instance app_error_eq_dec : EqDecision app_error.
Proof. solve_decision. Defined.

(** [error.message]; an assertion's message goes on with a rendering of the
    value, left out here as in [Prelude.error]. *)
Definition error_message (e : error) : string :=
  match e with
  | AssertError name m => name +:+ " " +:+ m
  | PlainError m => m
  end.
Definition failure_message (f : failure) : string :=
  match f with
  | ConcurrencyError m | DbError _ m | EngineError _ m _ => m
  | JsError e => error_message e
  end.
Definition app_message (e : app_error) : string :=
  match e with
  | ValidationException _ => "Validation failed"
  | NotFoundError m | PersistenceError m | MissingKeyError m => m
  | Infra f => failure_message f
  end.

(** [throw new Error(m)] *)
Definition plain (m : string) : app_error := Infra (JsError (PlainError m)).

(** ** Keyrings as data ([shared/ports/types.ts]) *)

Record KeyringRecipientEnvelope : Type := RecipientEnvelope {
  recipientId : string;
  wrappedKey : list Z
}.

Record KeyringEpoch : Type := Epoch {
  epochId : number;
  epoch_createdAt : number;
  ownerEnvelope : list Z;
  recipientEnvelopes : list KeyringRecipientEnvelope
}.

Record KeyringState : Type := KeyringSt {
  kr_aggregateId : string;
  currentEpoch : number;
  epochs : list KeyringEpoch
}.

(** ** The device *)

Record IdempotencyRecord : Type := IdemRecord {
  ik_key : string;
  ik_commandType : string;
  ik_aggregateId : string;
  ik_createdAt : number
}.

Record device : Type := Device {
  db : local_db;
  idempotency_keys : gmap string IdempotencyRecord;
  masterKey : option (list Z);
  (** IndexedDB's [aggregate_keys]: each key encrypted with the master key *)
  aggregate_keys : gmap string (list Z);
  (** the keyring store, and [KeyringManager]'s cache of opened epochs *)
  keyrings : gmap string KeyringState;
  epochKeys : gmap string (list (number * list Z));
  (** the next initialisation vectors and keys the random source will give *)
  ivs : nat -> list Z;
  fresh_keys : nat -> list Z
}.

Notation app := (js device app_error).

Definition set_db (x : local_db) (d : device) : device :=
  Device x (idempotency_keys d) (masterKey d) (aggregate_keys d) (keyrings d) (epochKeys d) (ivs d) (fresh_keys d).
Definition set_idempotency x (d : device) : device :=
  Device (db d) x (masterKey d) (aggregate_keys d) (keyrings d) (epochKeys d) (ivs d) (fresh_keys d).
Definition set_aggregate_keys x (d : device) : device :=
  Device (db d) (idempotency_keys d) (masterKey d) x (keyrings d) (epochKeys d) (ivs d) (fresh_keys d).
Definition set_keyrings x (d : device) : device :=
  Device (db d) (idempotency_keys d) (masterKey d) (aggregate_keys d) x (epochKeys d) (ivs d) (fresh_keys d).
Definition set_epochKeys x (d : device) : device :=
  Device (db d) (idempotency_keys d) (masterKey d) (aggregate_keys d) (keyrings d) x (ivs d) (fresh_keys d).

(** Draw an initialisation vector, or a key, from the random source. *)
Definition random_iv : app (list Z) := fun d =>
  (Ok (ivs d 0), Device (db d) (idempotency_keys d) (masterKey d) (aggregate_keys d) (keyrings d)
    (epochKeys d) (fun n => ivs d (S n)) (fresh_keys d)).
Definition generateKey : app (list Z) := fun d =>
  (Ok (fresh_keys d 0), Device (db d) (idempotency_keys d) (masterKey d) (aggregate_keys d) (keyrings d)
    (epochKeys d) (ivs d) (fun n => fresh_keys d (S n))).

Definition lift_error {A} (r : result error A) : result app_error A :=
  match r with Ok a => Ok a | Err e => Err (Infra (JsError e)) end.

(** A database operation, run on the device's database. *)
Definition on_db {A} (m : js local_db failure A) : app A := fun d =>
  let '(r, db') := m (db d) in
  (match r with Ok a => Ok a | Err f => Err (Infra f) end, set_db db' d).

(** ** The key store *)

Section KeyStore.
Context `{CryptoServicePort}.

(** [crypto.encrypt] with a fresh initialisation vector. *)
Definition encrypt_fresh (plaintext k : list Z) (aad : option (list Z)) : app (list Z) :=
  iv ← random_iv;
  lift_result (lift_error (encrypt iv plaintext k aad)).

Definition no_master_key {A} : result app_error A := Err (plain "Master key not set").

Definition getMasterKey (d : device) : option (list Z) := masterKey d.

(** The stored key, as [getAggregateKey] reads it off the device. *)
Definition stored_key (i : string) (d : device) : result app_error (option (list Z)) :=
  match masterKey d with
  | None => no_master_key
  | Some mk =>
      match aggregate_keys d !! i with
      | None => Ok None
      | Some blob =>
          match decrypt blob mk None with
          | Ok k => Ok (Some k)
          | Err e => Err (Infra (JsError e))
          end
      end
  end.

Definition getAggregateKey (i : string) : app (option (list Z)) := reads (stored_key i).

Definition saveAggregateKey (i : string) (k : list Z) : app unit :=
  mk ← reads (fun d => match masterKey d with Some mk => Ok mk | None => no_master_key end);
  blob ← encrypt_fresh k mk None;
  modify (fun d => set_aggregate_keys (<[i := blob]> (aggregate_keys d)) d).

End KeyStore.

(** ** The idempotency store *)

Definition get_record (k : string) : app (option IdempotencyRecord) :=
  gets (fun d => idempotency_keys d !! k).

Definition reuse_detected (existing : IdempotencyRecord) (k command_type aggregate_id : string) : app_error :=
  plain ("Idempotency key reuse detected for " +:+ k +:+ " (existing " +:+ ik_commandType existing +:+ "/"
    +:+ ik_aggregateId existing +:+ ", new " +:+ command_type +:+ "/" +:+ aggregate_id +:+ ")").

(** The record was made for the command [ty] on the aggregate [i]. *)
Definition made_for (ty i : string) (r : IdempotencyRecord) : bool :=
  bool_decide (ik_commandType r = ty) && bool_decide (ik_aggregateId r = i).

Definition record_command (r : IdempotencyRecord) : app unit :=
  existing ← get_record (ik_key r);
  match existing with
  | Some e =>
      if made_for (ik_commandType r) (ik_aggregateId r) e then skip
      else throw (reuse_detected e (ik_key r) (ik_commandType r) (ik_aggregateId r))
  | None => modify (fun d => set_idempotency (<[ik_key r := r]> (idempotency_keys d)) d)
  end.

(** ** Commands *)

Record CommandMetadata : Type := CommandMeta {
  cm_actorId : string;
  cm_idempotencyKey : string;
  cm_correlationId : option string;
  cm_causationId : option string
}.

(** A command object: its own fields and the base class's. *)
Record command (P : Type) : Type := Command {
  body : P;
  metadata : CommandMetadata
}.
Arguments Command {P}.
Arguments body {P}.
Arguments metadata {P}.

(** [!s] on a string. *)
Definition is_empty (s : string) : bool := (strlen s =? 0)%Z.

(** [new C(payload, meta)] *)
Definition BaseCommand {P} (p : P) (m : option CommandMetadata) : result error (command P) :=
  match m with
  | None => Err (PlainError "Command requires actorId")
  | Some m =>
      if is_empty (cm_actorId m) then Err (PlainError "Command requires actorId")
      else if is_empty (cm_idempotencyKey m) then Err (PlainError "Command requires idempotencyKey")
      else Ok (Command p m)
  end.

(** ** Parsing a command's fields

    A field specification is an object of parsers, run in the order of its
    keys; every parser runs, and the errors of those that throw are collected. *)

Inductive spec (C : Type) : Type -> Type :=
| S_nil : spec C unit
| S_cons {T P : Type} (name : string) (parser : C -> result error T) (rest : spec C P) : spec C (T * P).
Arguments S_nil {C}.
Arguments S_cons {C T P}.

Fixpoint parse_fields {C P} (s : spec C P) (c : C) : result (list ValidationError) P :=
  match s with
  | S_nil => Ok tt
  | S_cons name parser rest =>
      match parser c, parse_fields rest c with
      | Ok v, Ok p => Ok (v, p)
      | Ok _, Err errors => Err errors
      | Err e, Ok _ => Err [FieldError name (error_message e)]
      | Err e, Err errors => Err (FieldError name (error_message e) :: errors)
      end
  end.

Definition parseCommand {C P} (c : C) (s : spec C P) : result app_error P :=
  match parse_fields s c with
  | Ok p => Ok p
  | Err errors => Err (ValidationException errors)
  end.

Definition parseKnownVersion (version : number) : result error number :=
  if negb (isInteger version) || num_ltb version 0
  then Err (PlainError "knownVersion must be a non-negative integer")
  else Ok version.

Definition parseIdempotencyKey (k : string) : result error string :=
  if (strlen (trim k) =? 0)%Z then Err (PlainError "idempotencyKey must be a non-empty string")
  else if (200 <? strlen k)%Z then Err (PlainError "idempotencyKey must be at most 200 characters")
  else Ok k.

(** Private to each handler class, with the same body. *)
Definition parseTimestamp (t : number) : result error Timestamp.t :=
  if isFinite t then Timestamp.fromMillis t else Err (PlainError "Timestamp must be a finite number").

Definition assertIdempotencyRecord (existing : IdempotencyRecord) (ty i : string) : result app_error unit :=
  if made_for ty i existing then Ok tt else Err (reuse_detected existing (ik_key existing) ty i).

Definition assertKnownVersion (actual : Z) (expected : number) (aggregateType i : string) : result app_error unit :=
  if num_eq (num actual) expected then Ok tt
  else Err (Infra (ConcurrencyError (aggregateType +:+ " " +:+ i +:+ " version mismatch (expected "
    +:+ string_of_Z (to_Z expected) +:+ ", got " +:+ string_of_Z actual +:+ ")"))).

(** ** Lemmas *)

Module ApplicationLemmas.

(** The errors of the fields that do not parse, in the order of the keys. *)
Fixpoint field_errors {C P} (s : spec C P) (c : C) : list ValidationError :=
  match s with
  | S_nil => []
  | S_cons name parser rest =>
      match parser c with Ok _ => [] | Err e => [FieldError name (error_message e)] end ++ field_errors rest c
  end.

Lemma parse_fields_spec {C P} (s : spec C P) (c : C) :
  match parse_fields s c with
  | Ok _ => field_errors s c = []
  | Err errors => errors = field_errors s c /\ errors <> []
  end.
Proof.
  induction s as [|T P name parser rest IH]; [done|]. simpl.
  destruct (parser c), (parse_fields rest c); simpl; [done|by destruct IH|by rewrite IH|].
  by destruct IH as [-> _].
Qed.

Lemma parseCommand_spec {C P} (s : spec C P) (c : C) :
  match parseCommand c s with
  | Ok _ => field_errors s c = []
  | Err e => e = ValidationException (field_errors s c) /\ field_errors s c <> []
  end.
Proof.
  unfold parseCommand. pose proof (parse_fields_spec s c) as H.
  destruct (parse_fields s c) as [p|errors]; [done|]. destruct H as [-> H]. done.
Qed.

Section KeyStoreLemmas.
Context `{CryptoServicePort}.
Implicit Types d : device.

(** What reading and writing keys may change: the key tables, the cache and
    the random source, but neither the database nor the commands recorded. *)
Definition same_tables d d' : Prop :=
  db d' = db d /\ idempotency_keys d' = idempotency_keys d /\ masterKey d' = masterKey d.

Lemma same_tables_refl d : same_tables d d.
Proof. done. Qed.
Lemma same_tables_trans d1 d2 d3 : same_tables d1 d2 -> same_tables d2 d3 -> same_tables d1 d3.
Proof. intros (?&?&?) (?&?&?). repeat split; congruence. Qed.

(** The random source gives bytes, and initialisation vectors of the right length. *)
Definition entropy_ok d : Prop := forall n, length (ivs d n) = IV_LENGTH /\ Forall byte (ivs d n).

(** Drawing from the source changes nothing else. *)
Definition drawn (n : nat) d : device :=
  Device (db d) (idempotency_keys d) (masterKey d) (aggregate_keys d) (keyrings d)
    (epochKeys d) (fun k => ivs d (n + k)) (fresh_keys d).

Lemma entropy_ok_drawn n d : entropy_ok d -> entropy_ok (drawn n d).
Proof. intros He k. apply He. Qed.

Lemma encrypt_fresh_run p k aad d :
  encrypt_fresh p k aad d = (lift_error (encrypt (ivs d 0) p k aad), drawn 1 d).
Proof. reflexivity. Qed.

Lemma saveAggregateKey_run i k d :
  match saveAggregateKey i k d with
  | (Ok _, d') => exists mk blob, masterKey d = Some mk /\ encrypt (ivs d 0) k mk None = Ok blob /\
      d' = set_aggregate_keys (<[i := blob]> (aggregate_keys d)) (drawn 1 d)
  | (Err _, d') => d' = d \/ d' = drawn 1 d
  end.
Proof.
  unfold saveAggregateKey, reads, mbind, js_bind. destruct (masterKey d) as [mk|]; [|by left].
  rewrite encrypt_fresh_run. destruct (encrypt _ _ _ _) as [blob|e] eqn:E; simpl; [|by right].
  by exists mk, blob.
Qed.

(** A key that was saved is the one read back. *)
Lemma stored_key_saved i k d u d' :
  entropy_ok d -> k <> [] -> saveAggregateKey i k d = (Ok u, d') ->
  stored_key i d' = Ok (Some k) /\ (forall j, j <> i -> stored_key j d' = stored_key j d) /\
  same_tables d d' /\ keyrings d' = keyrings d /\ epochKeys d' = epochKeys d /\ entropy_ok d'.
Proof.
  intros He Hk Hs. pose proof (saveAggregateKey_run i k d) as Hr. rewrite Hs in Hr.
  destruct Hr as (mk & blob & Hmk & Hb & ->). unfold stored_key. simpl. rewrite Hmk.
  rewrite lookup_insert_eq. rewrite (decrypt_encrypt _ _ _ _ _ (proj1 (He 0)) Hk Hb).
  split; [done|]. split; [intros j Hj; by rewrite lookup_insert_ne|].
  split_and!; try done. intros n. apply (He (1 + n)).
Qed.

(** Whatever the master key has opened, it can seal again: saving a key that
    the device has stored succeeds. *)
Lemma saveAggregateKey_total i k d mk c :
  entropy_ok d -> k <> [] -> masterKey d = Some mk -> decrypt c mk None = Ok k ->
  exists d', saveAggregateKey i k d = (Ok tt, d').
Proof.
  intros He Hk Hmk Hc. destruct (reencrypt (ivs d 0) c mk None None k (proj1 (He 0)) Hc) as (c' & Hc' & _).
  unfold saveAggregateKey, reads, mbind, js_bind. rewrite Hmk, encrypt_fresh_run, Hc'. by eexists.
Qed.

End KeyStoreLemmas.
End ApplicationLemmas.
