(* ===== verification/Keyring.v ===== *)
(** * Keyrings and the keys of aggregates

    [packages/infrastructure/src/crypto]: [Keyring.ts] (Module [Keyring], the
    epochs of an aggregate's key and their serialisation), [KeyringManager.ts]
    (Module [KeyringManager], over the device's stores) and the parts of
    [AggregateKeyManager.ts] that need no key agreement.  [deriveKey] (HKDF of
    the platform) is a parameter.  The keyring store is
    [InMemoryKeyringStore.ts]. *)

From S2P Require Import Prelude JsValues JsonText Base64Url RecordCodec ValueObjects Crypto LocalDb Application.

(** ** [Keyring.ts] *)

Module Keyring.

Definition encodeBytes (data : list Z) : json := JArr (map (fun z => JNum (num z)) data).

Definition decodeBytes (data : list number) : list Z := map to_uint8 data.

(** *** Type tests: [Some] is the value at its type. *)

Definition finite_entry (v : json) : option number := as_finite (Some v).

Definition isNumberArray (v : option json) : option (list number) :=
  match v with Some (JArr l) => mapM finite_entry l | _ => None end.

Definition isRecipientEnvelope (v : json) : option KeyringRecipientEnvelope :=
  match v with
  | JObj fs =>
      i ← as_string (assoc "recipientId" fs);
      k ← isNumberArray (assoc "wrappedKey" fs);
      Some (RecipientEnvelope i (decodeBytes k))
  | _ => None
  end.

Definition as_array (v : option json) : option (list json) :=
  match v with Some (JArr l) => Some l | _ => None end.

Definition isEpochSerialized (v : json) : option KeyringEpoch :=
  match v with
  | JObj fs =>
      e ← as_finite (assoc "epochId" fs);
      t ← as_finite (assoc "createdAt" fs);
      o ← isNumberArray (assoc "ownerEnvelope" fs);
      rs ← as_array (assoc "recipientEnvelopes" fs);
      rs ← mapM isRecipientEnvelope rs;
      Some (Epoch e t (decodeBytes o) rs)
  | _ => None
  end.

Definition isKeyringSerialized (v : json) : option KeyringState :=
  match v with
  | JObj fs =>
      i ← as_string (assoc "aggregateId" fs);
      c ← as_finite (assoc "currentEpoch" fs);
      es ← as_array (assoc "epochs" fs);
      es ← mapM isEpochSerialized es;
      Some (KeyringSt i c es)
  | _ => None
  end.

(** *** Operations; [toState] and [fromState] copy. *)

Definition createInitial (i : string) (createdAt : number) (owner : list Z) : KeyringState :=
  KeyringSt i (num 0) [Epoch (num 0) createdAt owner []].

Definition getEpoch (e : number) (k : KeyringState) : option KeyringEpoch :=
  List.find (fun x => num_eq (epochId x) e) (epochs k).

Definition listEpochs (k : KeyringState) : list KeyringEpoch := epochs k.

Definition recipient_json (r : KeyringRecipientEnvelope) : json :=
  JObj [("recipientId", JStr (recipientId r)); ("wrappedKey", encodeBytes (wrappedKey r))].
Definition epoch_json (e : KeyringEpoch) : json :=
  JObj [("epochId", JNum (epochId e)); ("createdAt", JNum (epoch_createdAt e));
    ("ownerEnvelope", encodeBytes (ownerEnvelope e));
    ("recipientEnvelopes", JArr (map recipient_json (recipientEnvelopes e)))].
Definition keyring_json (k : KeyringState) : json :=
  JObj [("aggregateId", JStr (kr_aggregateId k)); ("currentEpoch", JNum (currentEpoch k));
    ("epochs", JArr (map epoch_json (epochs k)))].

Definition toBytes (k : KeyringState) : list Z := utf8_encode (JSON_stringify (keyring_json k)).

(** The text of a JSON syntax error is the runtime's and left out. *)
Definition fromBytes (bytes : list Z) : result error KeyringState :=
  match utf8_decode bytes ≫= JSON_parse with
  | None => Err (PlainError "")
  | Some parsed =>
      match isKeyringSerialized parsed with
      | Some k => Ok k
      | None => Err (PlainError "Invalid keyring payload")
      end
  end.

End Keyring.

(** ** [KeyringManager.ts] *)

Module KeyringManager.
Import Keyring.
Section Manager.
Context `{CryptoServicePort}.
(** HKDF: the key derived from a key and a context. *)
Variable deriveKey : list Z -> string -> list Z.

Definition getKeyring (i : string) : app (option KeyringState) := gets (fun d => keyrings d !! i).
Definition saveKeyring (i : string) (k : KeyringState) : app unit :=
  modify (fun d => set_keyrings (<[i := k]> (keyrings d)) d).

(** [Map<number, Uint8Array>]: one entry per epoch. *)
Fixpoint epoch_get (e : number) (l : list (number * list Z)) : option (list Z) :=
  match l with
  | [] => None
  | (e', k) :: l' => if num_eq e' e then Some k else epoch_get e l'
  end.
Fixpoint epoch_set (e : number) (k : list Z) (l : list (number * list Z)) : list (number * list Z) :=
  match l with
  | [] => [(e, k)]
  | (e', k') :: l' => if num_eq e' e then (e', k) :: l' else (e', k') :: epoch_set e k l'
  end.

Definition cached_key (i : string) (e : number) (d : device) : option (list Z) :=
  epoch_get e (default [] (epochKeys d !! i)).
Definition getCachedKey (i : string) (e : number) : app (option (list Z)) := gets (cached_key i e).
Definition cacheKey (i : string) (e : number) (k : list Z) : app unit :=
  modify (fun d => set_epochKeys (<[i := epoch_set e k (default [] (epochKeys d !! i))]> (epochKeys d)) d).

Definition deriveOwnerKey (i : string) : app (list Z) :=
  reads (fun d => match masterKey d with
    | Some mk => Ok (deriveKey mk ("keyring:" +:+ i))
    | None => no_master_key
    end).

Definition open_key (blob k : list Z) : app (list Z) := lift_result (lift_error (decrypt blob k None)).

Definition createInitialUpdate (i : string) (dek : list Z) (createdAt : number)
    : app (option (number * list Z)) :=
  existing ← getKeyring i;
  match existing with
  | Some _ => mret None
  | None =>
      ownerKey ← deriveOwnerKey i;
      owner ← encrypt_fresh dek ownerKey None;
      let keyring := createInitial i createdAt owner in
      _ ← saveKeyring i keyring;
      _ ← cacheKey i (num 0) dek;
      _ ← saveAggregateKey i dek;
      update ← encrypt_fresh (toBytes keyring) ownerKey None;
      mret (Some (currentEpoch keyring, update))
  end.

(** An opened key goes to the cache, and to the key store when its epoch is
    the keyring's current one. *)
Definition remember (i : string) (k : KeyringState) (e : number) (dek : list Z) : app unit :=
  _ ← cacheKey i e dek;
  if num_eq e (currentEpoch k) then saveAggregateKey i dek else skip.

Definition cacheEpochKeys (i : string) (k : KeyringState) (ownerKey : list Z) : app unit :=
  for_each (listEpochs k) (fun epoch =>
    cached ← getCachedKey i (epochId epoch);
    match cached with
    | Some _ => skip
    | None =>
        dek ← open_key (ownerEnvelope epoch) ownerKey;
        remember i k (epochId epoch) dek
    end).

Definition ingestKeyringUpdate (i : string) (update : list Z) : app unit :=
  ownerKey ← deriveOwnerKey i;
  decrypted ← open_key update ownerKey;
  keyring ← lift_result (lift_error (fromBytes decrypted));
  if bool_decide (kr_aggregateId keyring = i) then
    _ ← saveKeyring i keyring;
    cacheEpochKeys i keyring ownerKey
  else throw (plain ("Keyring aggregate mismatch for " +:+ i)).

Definition missing_epoch (i : string) : app_error :=
  MissingKeyError ("Missing keyring epoch for " +:+ i).
Definition missing_key (i : string) : app_error :=
  MissingKeyError ("Missing aggregate key for " +:+ i).

(** [resolveKeyForEpoch] for the epoch [epoch ?? 0]; the error texts leave the
    epoch's number out. *)
Definition resolveKeyForEpoch (i : string) (epoch : option number) : app (list Z) :=
  let e := match epoch with Some e => e | None => num 0 end in
  cached ← getCachedKey i e;
  match cached with
  | Some k => mret k
  | None =>
      st ← getKeyring i;
      match st with
      | Some keyring =>
          ownerKey ← deriveOwnerKey i;
          match getEpoch e keyring with
          | None => throw (missing_epoch i)
          | Some epochRecord =>
              dek ← open_key (ownerEnvelope epochRecord) ownerKey;
              _ ← remember i keyring e dek;
              mret dek
          end
      | None =>
          if num_eq e (num 0) then
            fallback ← getAggregateKey i;
            match fallback with
            | Some k => _ ← cacheKey i e k; mret k
            | None => throw (missing_key i)
            end
          else throw (missing_key i)
      end
  end.

(** The event only gives its aggregate: always epoch 0. *)
Definition resolveKeyForEvent (i : string) : app (list Z) := resolveKeyForEpoch i (Some (num 0)).

Definition getCurrentEpoch (i : string) : app number :=
  gets (fun d => match keyrings d !! i with Some k => currentEpoch k | None => num 0 end).

(** *** [AggregateKeyManager.ts]: [now] is [Date.now()]; [acceptShared]'s
    unwrapped key is an argument. *)

Definition createForOwner (with_keyrings : bool) (now : number) (i : string) : app (list Z) :=
  existing ← getAggregateKey i;
  match existing with
  | Some k => mret k
  | None =>
      k ← generateKey;
      _ ← saveAggregateKey i k;
      _ ← (if with_keyrings then _ ← createInitialUpdate i k now; skip else skip);
      mret k
  end.

Definition get_key (i : string) : app (list Z) :=
  existing ← getAggregateKey i;
  match existing with
  | Some k => mret k
  | None => throw (plain ("Missing aggregate key for " +:+ i))
  end.

Definition acceptShared (unwrapFromSender : app (list Z)) (i : string) : app (list Z) :=
  existing ← getAggregateKey i;
  match existing with
  | Some k => mret k
  | None => k ← unwrapFromSender; _ ← saveAggregateKey i k; mret k
  end.

End Manager.
End KeyringManager.

(** ** Lemmas *)

Module KeyringLemmas.
Import Keyring KeyringManager ApplicationLemmas JsonTextProperties.

#[export] Instance byte_dec z : Decision (byte z).
Proof. unfold byte. apply _. Defined.

(** What a device stores: bytes and whole numbers. *)
Definition recipient_plain (r : KeyringRecipientEnvelope) : Prop := Forall byte (wrappedKey r).
Definition epoch_plain (e : KeyringEpoch) : Prop :=
  RecordCodecProperties.whole (epochId e) = true /\ RecordCodecProperties.whole (epoch_createdAt e) = true /\
  Forall byte (ownerEnvelope e) /\ Forall recipient_plain (recipientEnvelopes e).
Definition keyring_plain (k : KeyringState) : Prop :=
  RecordCodecProperties.whole (currentEpoch k) = true /\ Forall epoch_plain (epochs k).

Lemma json_ok_whole n : RecordCodecProperties.whole n = true -> json_ok (JNum n) = true.
Proof. by destruct n. Qed.

Lemma as_finite_whole n : RecordCodecProperties.whole n = true -> as_finite (Some (JNum n)) = Some n.
Proof. by destruct n. Qed.

Lemma encodeBytes_ok b : json_ok (encodeBytes b) = true.
Proof. simpl. by induction b. Qed.

Lemma to_uint8_num z : byte z -> to_uint8 (num z) = z.
Proof. intros H. unfold byte in H. unfold to_uint8, trunc, num. change (10 ^ Z.of_nat 0)%Z with 1%Z. rewrite Z.quot_1_r. by apply Z.mod_small. Qed.

Lemma isNumberArray_encode b : isNumberArray (Some (encodeBytes b)) = Some (map num b).
Proof.
  simpl. rewrite <- (map_map num (fun n => JNum n)). apply mapM_map_some.
  apply Forall_map, Forall_true. done.
Qed.

Lemma decode_encodeBytes b : Forall byte b -> decodeBytes (map num b) = b.
Proof. induction 1 as [|x b Hx _ IH]; [done|]. simpl. rewrite IH. f_equal. by apply to_uint8_num. Qed.

Lemma recipient_roundtrip r : recipient_plain r -> isRecipientEnvelope (recipient_json r) = Some r.
Proof.
  intros Hr. unfold isRecipientEnvelope, recipient_json.
  change (assoc "recipientId" _) with (Some (JStr (recipientId r))).
  change (assoc "wrappedKey" _) with (Some (encodeBytes (wrappedKey r))).
  rewrite isNumberArray_encode. simpl. rewrite decode_encodeBytes by done. by destruct r.
Qed.

Lemma epoch_roundtrip e : epoch_plain e -> isEpochSerialized (epoch_json e) = Some e.
Proof.
  intros (He & Ht & Ho & Hr). unfold isEpochSerialized, epoch_json.
  change (assoc "epochId" _) with (Some (JNum (epochId e))).
  change (assoc "createdAt" _) with (Some (JNum (epoch_createdAt e))).
  change (assoc "ownerEnvelope" _) with (Some (encodeBytes (ownerEnvelope e))).
  change (assoc "recipientEnvelopes" _) with (Some (JArr (map recipient_json (recipientEnvelopes e)))).
  rewrite !as_finite_whole, isNumberArray_encode by done. simpl.
  rewrite mapM_map_some by (eapply Forall_impl; [exact Hr|apply recipient_roundtrip]). simpl.
  rewrite decode_encodeBytes by done. by destruct e.
Qed.

Lemma keyring_json_ok k : keyring_plain k -> json_ok (keyring_json k) = true.
Proof.
  intros [Hc He]. unfold keyring_json. cbn [json_ok forallb]. rewrite !andb_true_iff.
  split; [reflexivity|]. split; [reflexivity|]. split; [by apply json_ok_whole|]. split; [|reflexivity].
  apply forallb_forall. intros v Hv. apply in_map_iff in Hv as (e & <- & He').
  rewrite List.Forall_forall in He. destruct (He e He') as (H1 & H2 & _ & _).
  unfold epoch_json. cbn [json_ok forallb]. rewrite !andb_true_iff.
  split; [reflexivity|]. split; [by apply json_ok_whole|]. split; [by apply json_ok_whole|].
  split; [apply encodeBytes_ok|]. split; [|reflexivity].
  apply forallb_forall. intros w Hw. apply in_map_iff in Hw as (r & <- & _).
  unfold recipient_json. cbn [json_ok forallb]. rewrite !andb_true_iff.
  split; [reflexivity|]. split; [reflexivity|]. split; [apply encodeBytes_ok|reflexivity].
Qed.

Lemma keyring_roundtrip k : keyring_plain k -> fromBytes (toBytes k) = Ok k.
Proof.
  intros Hk. unfold fromBytes, toBytes.
  rewrite RecordCodecProperties.decode_utf8_json by (by apply keyring_json_ok).
  destruct Hk as [Hc He]. unfold isKeyringSerialized, keyring_json.
  change (assoc "aggregateId" _) with (Some (JStr (kr_aggregateId k))).
  change (assoc "currentEpoch" _) with (Some (JNum (currentEpoch k))).
  change (assoc "epochs" _) with (Some (JArr (map epoch_json (epochs k)))).
  rewrite as_finite_whole by done. simpl.
  rewrite mapM_map_some by (eapply Forall_impl; [exact He|apply epoch_roundtrip]). by destruct k.
Qed.

Lemma toBytes_nonempty k : keyring_plain k -> toBytes k <> [].
Proof. intros Hk H. pose proof (keyring_roundtrip k Hk) as E. by rewrite H in E. Qed.

Section ManagerLemmas.
Context `{CryptoServicePort}.
Variable deriveKey : list Z -> string -> list Z.
Implicit Types d : device.

Lemma epoch_get_set e k l : num_eq e e = true -> epoch_get e (epoch_set e k l) = Some k.
Proof.
  intros He. induction l as [|[e' k'] l IH]; simpl; [by rewrite He|].
  destruct (num_eq e' e) eqn:E; simpl; by rewrite E.
Qed.

Lemma cacheKey_run i e k d : num_eq e e = true ->
  exists d', cacheKey i e k d = (Ok tt, d') /\ cached_key i e d' = Some k /\
    (forall j, stored_key j d' = stored_key j d) /\ keyrings d' = keyrings d /\
    same_tables d d' /\ ivs d' = ivs d /\ masterKey d' = masterKey d.
Proof.
  intros He. eexists. split; [reflexivity|]. split; [|done].
  unfold cached_key. simpl. rewrite lookup_insert_eq. simpl. by apply epoch_get_set.
Qed.

(** The key [k] of the aggregate [i]: the stored one, and the one the keyring
    manager finds for its events. *)
Definition key_is (i : string) (k : list Z) d : Prop :=
  entropy_ok d /\ k <> [] /\ stored_key i d = Ok (Some k) /\
  match cached_key i (num 0) d with
  | Some k' => k' = k
  | None =>
      match keyrings d !! i, masterKey d with
      | Some kr, Some mk => exists e, getEpoch (num 0) kr = Some e /\
          decrypt (ownerEnvelope e) (deriveKey mk ("keyring:" +:+ i)) None = Ok k /\
          num_eq (num 0) (currentEpoch kr) = true
      | _, _ => True
      end
  end.

Lemma stored_key_open i k d : stored_key i d = Ok (Some k) ->
  exists mk c, masterKey d = Some mk /\ decrypt c mk None = Ok k.
Proof.
  unfold stored_key. destruct (masterKey d) as [mk|]; [|done].
  destruct (aggregate_keys d !! i) as [c|]; [|done].
  destruct (decrypt c mk None) eqn:E; [|done]. intros [= <-]. by exists mk, c.
Qed.

(** Resolving the key of an event finds it, and from then on in the cache. *)
Lemma resolve_key i k d : key_is i k d ->
  exists d', resolveKeyForEvent deriveKey i d = (Ok k, d') /\ key_is i k d' /\ same_tables d d' /\
    cached_key i (num 0) d' = Some k.
Proof.
  intros (He & Hne & Hst & Hc). unfold resolveKeyForEvent, resolveKeyForEpoch, getCachedKey, gets, getKeyring.
  cbv zeta iota. unfold mbind at 1, js_bind at 1.
  destruct (cached_key i (num 0) d) as [k'|] eqn:Ec.
  { rewrite Hc in *. exists d. split; [done|]. split; [|by split; [apply same_tables_refl|]].
    unfold key_is. split_and!; try done. by rewrite Ec. }
  unfold mbind at 1, js_bind at 1. unfold gets.
  destruct (stored_key_open i k d Hst) as (mk & c & Hmk & Hop). rewrite Hmk in Hc.
  destruct (keyrings d !! i) as [kr|] eqn:Ek.
  - destruct Hc as (ep & Hep & Hdec & Hcur).
    unfold deriveOwnerKey, reads, mbind, js_bind. rewrite Hmk, Hep. unfold open_key, lift_result. rewrite Hdec.
    cbn [lift_error]. unfold remember, mbind, js_bind.
    destruct (cacheKey_run i (num 0) k d eq_refl) as (d1 & -> & Hc1 & Hs1 & Hk1 & Ht1 & Hi1 & Hm1).
    rewrite Hcur.
    assert (entropy_ok d1) as He1 by (intros n; rewrite Hi1; apply He).
    destruct (saveAggregateKey_total i k d1 mk c He1 Hne) as [d2 Hd2]; [congruence|done|].
    rewrite Hd2. destruct (stored_key_saved i k d1 tt d2 He1 Hne Hd2) as (Hs2 & _ & Ht2 & Hk2 & Hc2 & He2).
    assert (cached_key i (num 0) d2 = Some k) as Hcached by (unfold cached_key in *; by rewrite Hc2).
    exists d2. split; [done|]. split; [|split; [by eapply same_tables_trans|done]].
    unfold key_is. split_and!; try done. by rewrite Hcached.
  - cbn [num_eq num]. change ((0 * 10 ^ Z.of_nat 0 =? 0 * 10 ^ Z.of_nat 0)%Z) with true. cbv iota.
    unfold getAggregateKey, reads, mbind, js_bind. rewrite Hst.
    destruct (cacheKey_run i (num 0) k d eq_refl) as (d1 & -> & Hc1 & Hs1 & Hk1 & Ht1 & Hi1 & Hm1).
    exists d1. split; [done|]. split; [|done].
    unfold key_is. split_and!; [intros n; rewrite Hi1; apply He|done|by rewrite Hs1|by rewrite Hc1].
Qed.

End ManagerLemmas.
End KeyringLemmas.

(** ** Properties *)

Module KeyringProperties.
Import Keyring KeyringManager ApplicationLemmas KeyringLemmas.

(** A ciphertext without additional data is made of bytes: what the platform
    returns is a [Uint8Array]. *)
Definition cipher_bytes `{CryptoServicePort} : Prop := forall iv p k c,
  Forall byte iv -> Forall byte p -> encrypt iv p k None = Ok c -> Forall byte c.

(** What [createInitialUpdate] did when it made an update. *)
Lemma createInitialUpdate_run `{CryptoServicePort} deriveKey i dek t a e update a' :
  entropy_ok a -> dek <> [] ->
  createInitialUpdate deriveKey i dek t a = (Ok (Some (e, update)), a') ->
  exists mk owner iv1 iv2 c, masterKey a = Some mk /\
    length iv1 = IV_LENGTH /\ Forall byte iv1 /\ length iv2 = IV_LENGTH /\
    encrypt iv1 dek (deriveKey mk ("keyring:" +:+ i)) None = Ok owner /\
    encrypt iv2 (toBytes (createInitial i t owner)) (deriveKey mk ("keyring:" +:+ i)) None = Ok update /\
    decrypt c mk None = Ok dek /\ e = num 0.
Proof.
  intros He Hne. unfold createInitialUpdate, getKeyring, gets.
  unfold mbind at 1, js_bind at 1. destruct (keyrings a !! i); [done|].
  intros Hrun. apply js_bind_ok in Hrun as (ownerKey & a1 & H1 & Hrun).
  unfold deriveOwnerKey, reads in H1. destruct (masterKey a) as [mk|] eqn:Hmk; [|done].
  injection H1 as <- <-. apply js_bind_ok in Hrun as (owner & a2 & H2 & Hrun).
  rewrite encrypt_fresh_run in H2. destruct (encrypt _ dek _ _) as [o|] eqn:Eo; [|done].
  injection H2 as <- <-. cbv zeta in Hrun. apply js_bind_ok in Hrun as (u1 & a3 & H3 & Hrun).
  injection H3 as _ <-. apply js_bind_ok in Hrun as (u2 & a4 & H4 & Hrun). injection H4 as _ <-.
  apply js_bind_ok in Hrun as (u3 & a5 & H5 & Hrun).
  apply js_bind_ok in Hrun as (u4 & a6 & H6 & Hrun). rewrite encrypt_fresh_run in H6.
  destruct (encrypt (ivs a5 0) _ _ _) as [up|] eqn:Eu; [|done]. injection H6 as <- <-.
  injection Hrun as <- <- _.
  match type of H5 with _ ?x = _ => assert (entropy_ok x) as He3 by (intros n; apply (He (1 + n)));
    assert (masterKey x = Some mk) as Hm3 by exact Hmk end.
  destruct (stored_key_saved _ _ _ _ _ He3 Hne H5) as (Hs & _ & Ht & _ & _ & He5).
  destruct (stored_key_open _ _ _ Hs) as (mk' & c & Hmk' & Hc).
  destruct Ht as (_ & _ & Hm). rewrite Hm, Hm3 in Hmk'. injection Hmk' as <-.
  exists mk, o, (ivs a 0), (ivs a5 0), c. pose proof (He 0). pose proof (He5 0). naive_solver.
Qed.

(** A key travels: the keyring update that one device makes for an aggregate's key
    opens on every other device with the same master key that has not opened that
    aggregate's key before; ingesting it stores the key there, and the key of every event of
    the aggregate is from then on found to be the same, without touching the database. *)
Theorem keyring_transfer `{CryptoServicePort} (deriveKey : list Z -> string -> list Z)
    (i : string) (dek : list Z) (t : number) (a a' b : device) (e : number) (update : list Z) :
  cipher_bytes -> entropy_ok a -> entropy_ok b -> dek <> [] -> Forall byte dek ->
  RecordCodecProperties.whole t = true ->
  masterKey b = masterKey a -> cached_key i (num 0) b = None ->
  createInitialUpdate deriveKey i dek t a = (Ok (Some (e, update)), a') ->
  exists b', ingestKeyringUpdate deriveKey i update b = (Ok tt, b') /\
    same_tables b b' /\ stored_key i b' = Ok (Some dek) /\
    resolveKeyForEvent deriveKey i b' = (Ok dek, b').
Proof.
  intros Hcb Hea Heb Hne Hdek Ht Hmb Hcache Hrun.
  destruct (createInitialUpdate_run _ _ _ _ _ _ _ _ Hea Hne Hrun)
    as (mk & owner & iv1 & iv2 & c & Hmk & Hl1 & Hb1 & Hl2 & Eo & Eu & Hc & ->).
  set (kr := createInitial i t owner) in *.
  assert (keyring_plain kr) as Hplain.
  { split; [done|]. apply Forall_singleton.
    split; [done|]. split; [done|]. split; [|by constructor]. by apply (Hcb _ _ _ _ Hb1 Hdek Eo). }
  unfold ingestKeyringUpdate, deriveOwnerKey, reads. unfold mbind at 1, js_bind at 1.
  rewrite Hmb, Hmk. unfold open_key, lift_result. unfold mbind at 1, js_bind at 1.
  rewrite (decrypt_encrypt _ _ _ _ _ Hl2 (toBytes_nonempty kr Hplain) Eu). cbn [lift_error].
  unfold mbind at 1, js_bind at 1. rewrite (keyring_roundtrip kr Hplain). cbn [lift_error].
  rewrite bool_decide_true by done. unfold saveKeyring, modify. unfold mbind at 1, js_bind at 1.
  match goal with |- context [cacheEpochKeys _ _ _ ?x] => set (b1 := x) end.
  assert (cached_key i (num 0) b1 = None) as Hc1 by exact Hcache.
  unfold cacheEpochKeys, kr, createInitial, listEpochs, for_each, getCachedKey, gets, open_key, lift_result, remember.
  cbn [epochs epochId ownerEnvelope currentEpoch]. unfold mbind, js_bind. rewrite Hc1.
  rewrite (decrypt_encrypt _ _ _ _ _ Hl1 Hne Eo). cbn [lift_error].
  destruct (cacheKey_run i (num 0) dek b1 eq_refl) as (b2 & -> & Hc2 & Hs2 & Hk2 & Ht2 & Hi2 & Hm2).
  change (num_eq (num 0) (num 0)) with true. cbv iota.
  assert (entropy_ok b2) as He2 by (intros n; rewrite Hi2; apply Heb).
  assert (masterKey b2 = Some mk) as Hm2' by (rewrite Hm2; simpl; congruence).
  destruct (saveAggregateKey_total i dek b2 mk c He2 Hne Hm2' Hc) as [b3 Hb3]. rewrite Hb3.
  destruct (stored_key_saved i dek b2 tt b3 He2 Hne Hb3) as (Hs3 & _ & Ht3 & _ & Hc3 & He3).
  assert (cached_key i (num 0) b3 = Some dek) as Hcached by (unfold cached_key in *; by rewrite Hc3).
  exists b3. split; [done|]. split; [exact (same_tables_trans b1 b2 b3 Ht2 Ht3)|]. split; [done|].
  unfold resolveKeyForEvent, resolveKeyForEpoch, getCachedKey, gets, mbind, js_bind. by rewrite Hcached.
Qed.

End KeyringProperties.

(** ** Witnesses *)

Module KeyringWitnesses.
Import Keyring KeyringManager KeyringLemmas KeyringProperties.

#[local] Instance toy_service : CryptoServicePort := WebCryptoService.service ToyGcm.toy.

Definition master : list Z := replicate 32 7%Z.
Definition dek_1 : list Z := replicate 32 5%Z.
Definition derive (k : list Z) (_ : string) : list Z := k.

Definition new_device : device :=
  Device empty_db ∅ (Some master) ∅ ∅ ∅ (fun _ => replicate 12 0%Z) (fun _ => dek_1).

Lemma new_device_entropy : ApplicationLemmas.entropy_ok new_device.
Proof. intros n. split; [done|]. by apply (bool_decide_unpack _). Qed.

Lemma toy_cipher_bytes : cipher_bytes.
Proof.
  intros iv p k c Hiv Hp. unfold encrypt, toy_service, WebCryptoService.service, WebCryptoService.encrypt.
  destruct (WebCryptoService.ensureKeyLength k); [|done]. intros [= <-].
  apply Forall_app. split; [done|]. apply Forall_app. split; [done|].
  apply (bool_decide_unpack _). vm_compute. exact I.
Qed.

(** What the first device sends, and its state afterwards. *)
Definition created : result app_error (option (number * list Z)) * device :=
  createInitialUpdate derive "g" dek_1 (num 1) new_device.
Definition update_1 : list Z := match created.1 with Ok (Some (_, u)) => u | _ => [] end.

Lemma keyring_transfer_witness :
  createInitialUpdate derive "g" dek_1 (num 1) new_device = (Ok (Some (num 0, update_1)), created.2) /\
  exists b', ingestKeyringUpdate derive "g" update_1 new_device = (Ok tt, b') /\
    stored_key "g" b' = Ok (Some dek_1) /\ resolveKeyForEvent derive "g" b' = (Ok dek_1, b').
Proof.
  assert (createInitialUpdate derive "g" dek_1 (num 1) new_device = (Ok (Some (num 0, update_1)), created.2))
    as Hrun by (vm_compute; reflexivity).
  split; [exact Hrun|].
  destruct (keyring_transfer derive "g" dek_1 (num 1) new_device created.2 new_device (num 0) update_1
    toy_cipher_bytes new_device_entropy new_device_entropy) as (b' & H1 & _ & H2 & H3).
  - done.
  - apply (bool_decide_unpack _). vm_compute. exact I.
  - reflexivity.
  - reflexivity.
  - reflexivity.
  - exact Hrun.
  - exists b'. split; [exact H1|]. split; [exact H2|exact H3].
Defined.

End KeyringWitnesses.
