(* ===== verification/EventAdapters.v ===== *)
(** * From domain events to encrypted rows and back

    [packages/infrastructure/src/eventstore/adapters]:
    [DomainToEncryptedEventAdapter.toEncrypted] and
    [EncryptedEventToDomainAdapter.toDomain], over the event registry
    ([eventing/registry.ts]), the envelope and the associated data.  A domain
    event is one of a goal or of a project: the registry knows no others. *)

From S2P Require Import Prelude JsValues JsonText RecordCodec ValueObjects Dates AggregateRoot EventCodec Goal.
From S2P Require Import Project Crypto LocalDb EventStore Samples Application.

(** ** Domain events *)

Inductive domain_event : Type :=
| GoalEvent (e : Goal.event)
| ProjectEvent (e : Project.event).

(** The fields every event object has, as strings and numbers. *)
Record event_view : Type := View {
  v_type : string;
  v_aggregateId : string;
  v_occurredAt : number;
  v_eventId : string;
  v_actorId : string;
  v_causationId : option string;
  v_correlationId : option string
}.

Definition view_of {asserts} (ty : string) (m : EventMetadata (vo asserts)) : event_view :=
  View ty (value (aggregateId m)) (Timestamp.millis (occurredAt m)) (value (eventId m)) (value (actorId m))
    (value <$> causationId m) (value <$> correlationId m).

Definition view (e : domain_event) : event_view :=
  match e with
  | GoalEvent e => view_of (Goal.type_of (AggregateRoot.payload e)) (AggregateRoot.meta e)
  | ProjectEvent e => view_of (Project.type_of (AggregateRoot.payload e)) (AggregateRoot.meta e)
  end.

(** [encodePersisted] of the registry. *)
Definition encodePersisted (e : domain_event) : PersistedEvent :=
  match e with
  | GoalEvent e => GoalCodec.encodePersisted e
  | ProjectEvent e => ProjectCodec.encodePersisted e
  end.

(** ** [DomainToEncryptedEventAdapter] *)

Definition envelope_of (e : domain_event) : EventEnvelope :=
  let v := view e in
  let serialized := encodePersisted e in
  Envelope (num 1)
    (EnvelopeMeta (v_eventId v) (v_type v) (v_occurredAt v) (Some (v_actorId v)) (v_causationId v) (v_correlationId v))
    (num (p_version serialized)) (Some (p_payload serialized)).

(** The record that goes to [append]. *)
Definition encrypted_event (e : domain_event) (v : Z) (ciphertext : list Z) : EncryptedEventToAppend :=
  let w := view e in
  ToAppend (v_eventId w) (v_aggregateId w) (v_type w) ciphertext v (v_occurredAt w) (Some (v_actorId w))
    (v_causationId w) (v_correlationId w).

Section Adapters.
Context `{CryptoServicePort}.

Definition toEncrypted (aggregateType : string) (e : domain_event) (v : Z) (aggregateKey : list Z)
    : app EncryptedEventToAppend :=
  let w := view e in
  let payloadBytes := encodeEventEnvelope (envelope_of e) in
  let aad := buildEventAad aggregateType (v_aggregateId w) v in
  encryptedPayload ← try_catch (encrypt_fresh payloadBytes aggregateKey (Some aad)) (fun err =>
    throw (plain ("Failed to encrypt " +:+ v_type w +:+ " for " +:+ v_aggregateId w +:+ ": " +:+ app_message err)));
  mret (encrypted_event e v encryptedPayload).

(** ** [EncryptedEventToDomainAdapter] *)

Definition goalEventTypes : list string :=
  ["GoalCreated"; "GoalRefined"; "GoalRecategorized"; "GoalRescheduled"; "GoalPrioritized";
   "GoalAchieved"; "GoalUnachieved"; "GoalArchived"; "GoalAccessGranted"; "GoalAccessRevoked"].
Definition projectEventTypes : list string :=
  ["ProjectCreated"; "ProjectStatusTransitioned"; "ProjectRescheduled"; "ProjectRenamed"; "ProjectDescribed";
   "ProjectGoalAdded"; "ProjectGoalRemoved"; "ProjectMilestoneAdded"; "ProjectMilestoneRescheduled";
   "ProjectMilestoneRenamed"; "ProjectMilestoneArchived"; "ProjectArchived"].

Inductive aggregate_ref : Type :=
| OfGoal (i : GoalId)
| OfProject (i : ProjectId)
| OfUser (i : UserId).

Definition resolveAggregateId (eventType i : string) : result error aggregate_ref :=
  if bool_decide (eventType ∈ goalEventTypes) then OfGoal <$> vo_new i
  else if bool_decide (eventType ∈ projectEventTypes) then OfProject <$> vo_new i
  else if bool_decide (eventType = "UserRegistered") then OfUser <$> vo_new i
  else Err (PlainError ("Unknown aggregate type for event " +:+ eventType)).

Definition fail_if {E} (b : bool) (e : E) : result E unit := if b then Err e else Ok tt.

(** [x ? C.from(x) : undefined] *)
Definition from_truthy {asserts} (s : option string) : result error (option (vo asserts)) :=
  match s with
  | None => Ok None
  | Some s => if is_empty s then Ok None else Some <$> vo_new s
  end.

(** [decodePersisted] of the registry: the event's type decides whose codec it is. *)
Definition decodePersistedRef (rec : PersistedEvent) (r : aggregate_ref)
    (mk : forall Id, Id -> EventMetadata Id) : result error domain_event :=
  match r with
  | OfGoal i => GoalEvent <$> decodePersisted GoalCodec.goalSpecs rec (mk _ i)
  | OfProject i => ProjectEvent <$> decodePersisted ProjectCodec.projectSpecs rec (mk _ i)
  | OfUser _ => Err (PlainError ("Unknown type " +:+ p_type rec))
  end.

(** [toDomain] once the ciphertext is opened. *)
Definition open_envelope (row : MaterializedEventRow) (payloadBytes : list Z) : result error domain_event :=
  env ← decodeEventEnvelope payloadBytes;
  let m := env_meta env in
  let mismatch what := PlainError (what +:+ " mismatch for " +:+ id row) in
  _ ← fail_if (negb (bool_decide (em_eventId m = id row))) (mismatch "EventId");
  _ ← fail_if (negb (bool_decide (em_eventType m = event_type row))) (mismatch "EventType");
  actor ← match em_actorId m with
    | Some a => if is_empty a then Err (PlainError ("Missing actorId for " +:+ event_type row +:+ " " +:+ id row))
                else Ok a
    | None => Err (PlainError ("Missing actorId for " +:+ event_type row +:+ " " +:+ id row))
    end;
  _ ← fail_if (negb (num_eq (em_occurredAt m) (occurred_at row))) (mismatch "OccurredAt");
  _ ← fail_if (negb (bool_decide (em_causationId m = causation_id row))) (mismatch "CausationId");
  _ ← fail_if (negb (bool_decide (em_correlationId m = correlation_id row))) (mismatch "CorrelationId");
  let rec := Persisted (em_eventType m) (to_Z (payloadVersion env)) (default JNull (env_data env)) in
  r ← resolveAggregateId (em_eventType m) (aggregate_id row);
  at_ ← Timestamp.fromMillis (em_occurredAt m);
  eid ← vo_new (em_eventId m);
  act ← vo_new actor;
  cause ← from_truthy (em_causationId m);
  corr ← from_truthy (em_correlationId m);
  decodePersistedRef rec r (fun Id i => AggregateRoot.Meta i at_ eid act cause corr (Some (version row))).

Definition toDomain (row : MaterializedEventRow) (aggregateKey : list Z) : result error domain_event :=
  _ ← fail_if (is_empty (aggregate_type row)) (PlainError ("Missing aggregateType for event " +:+ id row));
  let aad := buildEventAad (aggregate_type row) (aggregate_id row) (version row) in
  match decrypt (payload_encrypted row) aggregateKey (Some aad) with
  | Err e => Err (PlainError ("Failed to decrypt " +:+ event_type row +:+ " for " +:+ aggregate_id row +:+ ": "
      +:+ error_message e))
  | Ok payloadBytes => open_envelope row payloadBytes
  end.

End Adapters.

(** ** Lemmas *)

Module AdapterLemmas.
Import JsonTextProperties RecordCodecProperties ApplicationLemmas.

(** An event as its constructor makes it, whose date prints as an integer and
    whose month is readable. *)
Definition storable (e : domain_event) : Prop :=
  whole (v_occurredAt (view e)) = true /\
  match e with
  | GoalEvent e => Goal.construct (AggregateRoot.payload e) (AggregateRoot.meta e) = e /\
      GoalCodec.month_encodable (AggregateRoot.payload e) = true
  | ProjectEvent e => Project.construct (AggregateRoot.payload e) (AggregateRoot.meta e) = e
  end.

(** The same event, with the version it was stored at. *)
Definition at_version {Id} (v : Z) (m : EventMetadata Id) : EventMetadata Id :=
  AggregateRoot.Meta (aggregateId m) (occurredAt m) (eventId m) (actorId m) (causationId m) (correlationId m) (Some v).
Definition stored_at (v : Z) (e : domain_event) : domain_event :=
  match e with
  | GoalEvent e => GoalEvent (Event (AggregateRoot.payload e) (at_version v (AggregateRoot.meta e)))
  | ProjectEvent e => ProjectEvent (Event (AggregateRoot.payload e) (at_version v (AggregateRoot.meta e)))
  end.

Lemma whole_json n : whole n = true -> json_ok (JNum n) = true.
Proof. by destruct n. Qed.

(** The payload of a constructed event prints faithfully. *)
Lemma goal_payload_ok (p : Goal.payload_t) (m : EventMetadata GoalId) :
  whole (Timestamp.millis (occurredAt m)) = true ->
  json_ok (p_payload (GoalCodec.encodePersisted (Goal.construct p m))) = true.
Proof.
  intros Hw%whole_json. unfold json_ok in Hw.
  destruct p; cbn [GoalCodec.encodePersisted Goal.construct AggregateRoot.payload EventCodec.encodeLatest p_payload];
    cbn -[Timestamp.millis]; cbn [json_ok] in Hw |- *; by rewrite Hw.
Qed.

Lemma project_payload_ok (p : Project.payload_t) (m : EventMetadata ProjectId) :
  whole (Timestamp.millis (occurredAt m)) = true ->
  json_ok (p_payload (ProjectCodec.encodePersisted (Project.construct p m))) = true.
Proof.
  intros Hw%whole_json. unfold json_ok in Hw.
  destruct p; cbn [ProjectCodec.encodePersisted Project.construct AggregateRoot.payload EventCodec.encodeLatest p_payload];
    try (destruct goalId as [g|]); cbn -[Timestamp.millis]; cbn [json_ok] in Hw |- *; by rewrite Hw.
Qed.

Lemma payload_ok e : storable e -> json_ok (p_payload (encodePersisted e)) = true.
Proof.
  intros [Hw He]. destruct e as [e|e]; simpl in *.
  - destruct He as [<- _]. apply goal_payload_ok. by destruct e as [[] []].
  - rewrite <- He. apply project_payload_ok. by destruct e as [[] []].
Qed.

Lemma value_nonempty {name} (v : vo (fun s => Assert.isNonEmpty s name)) : is_empty (value v) = false.
Proof.
  destruct v as [s p]. unfold is_empty. cbn [value]. unfold Assert.isNonEmpty, Assert.check in p.
  by destruct (strlen s =? 0)%Z.
Qed.

Lemma from_truthy_value {name} (o : option (vo (fun s => Assert.isNonEmpty s name))) :
  from_truthy (value <$> o) = Ok o.
Proof. destruct o as [v|]; [|done]. simpl. by rewrite value_nonempty, vo_new_value. Qed.

Lemma view_texts e : is_empty (v_eventId (view e)) = false /\ is_empty (v_type (view e)) = false /\
  is_empty (v_actorId (view e)) = false.
Proof. destruct e as [[[] m]|[[] m]]; simpl; by rewrite !value_nonempty. Qed.

Lemma persisted_view e : encodePersisted e = Persisted (v_type (view e)) 1 (p_payload (encodePersisted e)).
Proof. by destruct e as [[[] m]|[[] m]]. Qed.

(** The envelope of a storable event is read back. *)
Lemma envelope_roundtrip_of e : storable e ->
  decodeEventEnvelope (encodeEventEnvelope (envelope_of e)) = Ok (envelope_of e).
Proof.
  intros Hs. pose proof (payload_ok e Hs) as Hp. destruct (view_texts e) as (H1 & H2 & _).
  pose proof (envelope_cases (envelope_of e)) as Hc.
  assert (envelope_ok (envelope_of e) = true) as Hok.
  { unfold envelope_ok, envelope_of. cbn [envelopeVersion payloadVersion env_meta em_eventId em_eventType env_data].
    rewrite persisted_view. cbn [p_version]. unfold is_empty in H1, H2. by rewrite H1, H2. }
  rewrite Hok in Hc. apply Hc. unfold envelope_of. split; [done|].
  rewrite persisted_view. split; [done|]. split; [apply Hs|]. by intros d [= <-].
Qed.

Lemma envelope_nonempty e : storable e -> encodeEventEnvelope (envelope_of e) <> [].
Proof. intros Hs H. pose proof (envelope_roundtrip_of e Hs) as E. by rewrite H in E. Qed.

Lemma resolve_goal p (i : GoalId) : resolveAggregateId (Goal.type_of p) (value i) = Ok (OfGoal i).
Proof.
  unfold resolveAggregateId. rewrite bool_decide_true by (destruct p; set_solver). by rewrite vo_new_value.
Qed.

Lemma resolve_project p (i : ProjectId) : resolveAggregateId (Project.type_of p) (value i) = Ok (OfProject i).
Proof.
  unfold resolveAggregateId. rewrite bool_decide_false by (destruct p; set_solver).
  rewrite bool_decide_true by (destruct p; set_solver). by rewrite vo_new_value.
Qed.

(** The registry decodes the payload with the metadata of the row. *)
Lemma decode_registry e v : storable e ->
  (r ← resolveAggregateId (v_type (view e)) (v_aggregateId (view e));
   at_ ← Timestamp.fromMillis (v_occurredAt (view e));
   eid ← vo_new (v_eventId (view e));
   act ← vo_new (v_actorId (view e));
   cause ← from_truthy (v_causationId (view e));
   corr ← from_truthy (v_correlationId (view e));
   decodePersistedRef (encodePersisted e) r
     (fun Id i => AggregateRoot.Meta i at_ eid act cause corr (Some v))) = Ok (stored_at v e).
Proof.
  intros [_ He]. destruct e as [[p m]|[p m]]; cbn [view view_of v_type v_aggregateId v_occurredAt v_eventId
    v_actorId v_causationId v_correlationId AggregateRoot.payload AggregateRoot.meta] in *.
  - destruct He as [Hc Hm].
    match goal with |- context [resolveAggregateId ?ty ?i] =>
      replace (resolveAggregateId ty i) with (Ok (E := error) (OfGoal (aggregateId m))) by (by rewrite resolve_goal) end.
    rewrite Timestamp.fromMillis_millis, !vo_new_value, !from_truthy_value. cbn [mbind result_bind].
    unfold decodePersistedRef, encodePersisted. rewrite <- Hc at 1.
    rewrite GoalCodec.goal_codec_roundtrip by done. cbn [fmap result_fmap]. f_equal. f_equal.
    unfold Goal.construct in *. injection Hc as Hc. simpl. unfold at_version. f_equal. f_equal. exact Hc.
  - match goal with |- context [resolveAggregateId ?ty ?i] =>
      replace (resolveAggregateId ty i) with (Ok (E := error) (OfProject (aggregateId m))) by (by rewrite resolve_project) end.
    rewrite Timestamp.fromMillis_millis, !vo_new_value, !from_truthy_value. cbn [mbind result_bind].
    unfold decodePersistedRef, encodePersisted. rewrite <- He at 1.
    rewrite ProjectCodec.project_codec_roundtrip. cbn [fmap result_fmap]. f_equal. f_equal.
    unfold Project.construct in *. injection He as He. simpl. unfold at_version. f_equal. f_equal. exact He.
Qed.

(** A row that carries the envelope of [e] next to its columns opens to [e]. *)
Lemma open_envelope_of e v ty c : storable e ->
  open_envelope (columns ty (encrypted_event e v c)) (encodeEventEnvelope (envelope_of e)) = Ok (stored_at v e).
Proof.
  intros Hs. unfold open_envelope. rewrite envelope_roundtrip_of by done.
  cbn [mbind result_bind envelope_of env_meta em_eventId em_eventType em_actorId em_occurredAt em_causationId
    em_correlationId payloadVersion env_data columns encrypted_event id event_type occurred_at causation_id
    correlation_id aggregate_id version ea_eventId ea_aggregateId ea_eventType ea_version ea_occurredAt
    ea_actorId ea_causationId ea_correlationId].
  rewrite !bool_decide_true by done. cbn [negb fail_if].
  destruct (view_texts e) as (_ & _ & ->).
  assert (num_eq (v_occurredAt (view e)) (v_occurredAt (view e)) = true) as ->.
  { destruct Hs as [Hw _]. destruct (v_occurredAt (view e)); [|done..]. simpl. apply Z.eqb_refl. }
  cbn [negb]. rewrite to_Z_num. cbn [default].
  rewrite <- (decode_registry e v Hs).
  replace (Persisted _ _ _) with (encodePersisted e) by (by rewrite (persisted_view e)). reflexivity.
Qed.

Section Roundtrip.
Context `{CryptoServicePort}.

(** What encrypting an event for the row of version [v] gives opens to it. *)
Lemma adapter_roundtrip ty e v k d ea d' :
  storable e -> is_empty ty = false -> entropy_ok d ->
  toEncrypted ty e v k d = (Ok ea, d') ->
  d' = drawn 1 d /\ (exists c, ea = encrypted_event e v c) /\ toDomain (columns ty ea) k = Ok (stored_at v e).
Proof.
  intros Hs Hty He. unfold toEncrypted, try_catch, mbind, js_bind. rewrite encrypt_fresh_run.
  destruct (encrypt _ _ _ _) as [c|err] eqn:E; cbn [lift_error]; [|done]. intros [= <- <-].
  split; [done|]. split; [by eexists|]. unfold toDomain.
  cbn [columns encrypted_event aggregate_type aggregate_id version payload_encrypted ea_aggregateId ea_payload ea_version].
  rewrite Hty. cbn [fail_if mbind result_bind].
  rewrite (decrypt_encrypt _ _ _ _ _ (proj1 (He 0)) (envelope_nonempty e Hs) E).
  by apply open_envelope_of.
Qed.

(** Encryption of a storable event only fails with the service. *)
Lemma toEncrypted_total ty e v k d c :
  encrypt (ivs d 0) (encodeEventEnvelope (envelope_of e)) k
    (Some (buildEventAad ty (v_aggregateId (view e)) v)) = Ok c ->
  toEncrypted ty e v k d = (Ok (encrypted_event e v c), drawn 1 d).
Proof. intros E. unfold toEncrypted, try_catch, mbind, js_bind. by rewrite encrypt_fresh_run, E. Qed.

End Roundtrip.
End AdapterLemmas.
