(* ===== verification/Snapshots.v ===== *)
(** * Snapshots of aggregates

    - [packages/infrastructure/src/snapshots/snapshotEnvelope.ts];
    - [goals/snapshots/GoalSnapshotCodec.ts] (Module [GoalSnapshotCodec]) and
      [projects/snapshots/ProjectSnapshotCodec.ts] (Module
      [ProjectSnapshotCodec]): versioned payloads, upcast when read, and the
      domain snapshots built from them;
    - [eventstore/persistence/SnapshotStore.ts]: one row per aggregate. *)

From S2P Require Import Prelude JsValues JsonText RecordCodec ValueObjects Dates AggregateRoot EventCodec Goal.
From S2P Require Import Project LocalDb Samples.

(** ** The envelope *)

Record SnapshotEnvelope : Type := SnapEnvelope {
  snapshotVersion : number;
  snap_data : json
}.

Definition encodeSnapshotEnvelope (e : SnapshotEnvelope) : list Z :=
  utf8_encode (JSON_stringify (JObj [("snapshotVersion", JNum (snapshotVersion e)); ("data", snap_data e)])).

Definition required_snapshot {A} (v : option A) (message : string) : result error A :=
  match v with Some a => Ok a | None => Err (PlainError ("Malformed snapshot envelope: " +:+ message)) end.

(** The text of a JSON syntax error is the runtime's and left out. *)
Definition decodeSnapshotEnvelope (bytes : list Z) : result error SnapshotEnvelope :=
  parsed ← required_snapshot (utf8_decode bytes ≫= JSON_parse) "";
  o ← required_snapshot (RecordCodec.as_object (Some parsed)) "expected envelope object";
  v ← required_snapshot (as_version (assoc "snapshotVersion" o)) "invalid snapshotVersion";
  data ← required_snapshot (assoc "data" o) "missing data";
  Ok (SnapEnvelope v data).

(** ** Reading a payload's fields; [kind] is "Goal snapshot" or "Project snapshot". *)

Section Require.
Variable kind : string.

Definition must {A} (label what : string) (v : option A) : result error A :=
  match v with Some a => Ok a | None => Err (PlainError (kind +:+ " " +:+ label +:+ " must be " +:+ what)) end.

Definition requireString (v : option json) (label : string) : result error string :=
  must label "a string" (as_string v).
Definition requireNumber (v : option json) (label : string) : result error number :=
  must label "a number" (as_finite v).
Definition requireNullableNumber (v : option json) (label : string) : result error (option number) :=
  match v with
  | Some JNull => Ok None
  | _ => Some <$> must label "a number or null" (as_finite v)
  end.
(** [undefined] reads as [null]. *)
Definition requireNullableString (v : option json) (label : string) : result error (option string) :=
  match v with
  | None | Some JNull => Ok None
  | _ => Some <$> must label "a string or null" (as_string v)
  end.
Definition requireNonEmptyString (v : option json) (label : string) : result error string :=
  s ← requireString v label;
  let raw := trim s in
  if (strlen raw =? 0)%Z then must label "a non-empty string" None else Ok raw.
(** One of the values of an enumeration. *)
Definition requireOneOf (values : list string) (v : option json) (label : string) : result error string :=
  s ← requireString v label;
  if bool_decide (s ∈ values) then Ok s else must label ("one of " +:+ String.concat ", " values) None.
Definition requireRecord (v : json) : result error (list (string * json)) :=
  must "payload" "an object" (RecordCodec.as_object (Some v)).
End Require.

(** A nullable number as JSON. *)
Definition json_opt_num (n : option number) : json := match n with Some n => JNum n | None => JNull end.

(** ** Goals *)

Module GoalSnapshotCodec.
Import Goal.

Definition SNAPSHOT_VERSION : Z := 2.

(** [GoalSnapshotState] of the projections: a snapshot in primitives. *)
Record GoalSnapshotState : Type := GoalSnap {
  gs_id : string;
  gs_summary : string;
  gs_slice : string;
  gs_priority : string;
  gs_targetMonth : string;
  gs_createdBy : string;
  gs_createdAt : number;
  gs_achievedAt : option number;
  gs_archivedAt : option number;
  gs_version : number
}.

Definition kind : string := "Goal snapshot".

(** The fields both payload versions have, [achievedAt] given. *)
Definition parse_fields_with (o : list (string * json)) (achieved : result error (option number))
    : result error GoalSnapshotState :=
  i ← requireString kind (assoc "id" o) "id";
  su ← requireString kind (assoc "summary" o) "summary";
  sl ← requireOneOf kind (map Slice.val Slice.ALL_SLICES) (assoc "slice" o) "slice";
  pr ← requireOneOf kind ["must"; "should"; "maybe"] (assoc "priority" o) "priority";
  tm ← requireString kind (assoc "targetMonth" o) "targetMonth";
  cb ← requireString kind (assoc "createdBy" o) "createdBy";
  ca ← requireNumber kind (assoc "createdAt" o) "createdAt";
  ar ← requireNullableNumber kind (assoc "archivedAt" o) "archivedAt";
  v ← requireNumber kind (assoc "version" o) "version";
  ac ← achieved;
  Ok (GoalSnap i su sl pr tm cb ca ac ar v).

Definition parsePayloadV1 (data : json) : result error GoalSnapshotState :=
  o ← requireRecord kind data;
  parse_fields_with o (Ok None).

Definition parsePayloadV2 (data : json) : result error GoalSnapshotState :=
  o ← requireRecord kind data;
  parse_fields_with o (requireNullableNumber kind (assoc "achievedAt" o) "achievedAt").

(** [v] is an integer from 1 on. *)
Definition upcastGoalSnapshot (v : number) (data : json) : result error GoalSnapshotState :=
  if num_eq v (num 1) then parsePayloadV1 data
  else if num_eq v (num 2) then parsePayloadV2 data
  else Err (PlainError ("Unsupported goal snapshot version " +:+ string_of_Z (to_Z v))).

Definition toPayloadV1 (s : GoalSnapshotState) : json :=
  JObj [("id", JStr (gs_id s)); ("summary", JStr (gs_summary s)); ("slice", JStr (gs_slice s));
    ("priority", JStr (gs_priority s)); ("targetMonth", JStr (gs_targetMonth s));
    ("createdBy", JStr (gs_createdBy s)); ("createdAt", JNum (gs_createdAt s));
    ("achievedAt", json_opt_num (gs_achievedAt s)); ("archivedAt", json_opt_num (gs_archivedAt s));
    ("version", JNum (gs_version s))].

Definition encodeGoalSnapshotState (s : GoalSnapshotState) : list Z :=
  encodeSnapshotEnvelope (SnapEnvelope (num SNAPSHOT_VERSION) (toPayloadV1 s)).

(** The version stored next to the payload is the one that counts. *)
Definition with_aggregate_version (v : Z) (s : GoalSnapshotState) : GoalSnapshotState :=
  GoalSnap (gs_id s) (gs_summary s) (gs_slice s) (gs_priority s) (gs_targetMonth s) (gs_createdBy s)
    (gs_createdAt s) (gs_achievedAt s) (gs_archivedAt s) (num v).

Definition decodeGoalSnapshotState (payload : list Z) (aggregateVersion : Z) : result error GoalSnapshotState :=
  env ← decodeSnapshotEnvelope payload;
  parsed ← upcastGoalSnapshot (snapshotVersion env) (snap_data env);
  Ok (with_aggregate_version aggregateVersion parsed).

Definition opt_timestamp (n : option number) : result error (option Timestamp.t) :=
  match n with None => Ok None | Some n => Some <$> Timestamp.fromMillis n end.

Definition decodeGoalSnapshotDomain (payload : list Z) (aggregateVersion : Z) : result error GoalSnapshot :=
  s ← decodeGoalSnapshotState payload aggregateVersion;
  i ← vo_new (gs_id s);
  su ← vo_new (gs_summary s);
  sl ← Slice.from (gs_slice s);
  pr ← Priority.from (gs_priority s);
  tm ← Month.from (gs_targetMonth s);
  cb ← vo_new (gs_createdBy s);
  ca ← Timestamp.fromMillis (gs_createdAt s);
  ac ← opt_timestamp (gs_achievedAt s);
  ar ← opt_timestamp (gs_archivedAt s);
  Ok (Snapshot i su sl pr tm cb ca ac ar aggregateVersion).

(** The snapshot in primitives. *)
Definition state_of (s : GoalSnapshot) : GoalSnapshotState :=
  GoalSnap (value (s_id s)) (value (s_summary s)) (Slice.val (s_slice s)) (Priority.val (s_priority s))
    (Month.value (s_targetMonth s)) (value (s_createdBy s)) (Timestamp.millis (s_createdAt s))
    (Timestamp.millis <$> s_achievedAt s) (Timestamp.millis <$> s_archivedAt s) (num (s_version s)).

End GoalSnapshotCodec.

(** ** Projects *)

Module ProjectSnapshotCodec.
Import Project.

Definition SNAPSHOT_VERSION : Z := 1.

Record ProjectMilestoneState : Type := MilestoneSt {
  ms_id : string;
  ms_name : string;
  ms_targetDate : string
}.

(** [ProjectSnapshotState] of the projections: a snapshot in primitives. *)
Record ProjectSnapshotState : Type := ProjectSnap {
  ps_id : string;
  ps_name : string;
  ps_status : string;
  ps_startDate : string;
  ps_targetDate : string;
  ps_description : string;
  ps_goalId : option string;
  ps_milestones : list ProjectMilestoneState;
  ps_createdBy : string;
  ps_createdAt : number;
  ps_updatedAt : number;
  ps_archivedAt : option number;
  ps_version : option number
}.

Definition kind : string := "Project snapshot".

Definition projectStatusValues : list string := ["planned"; "in_progress"; "completed"; "canceled"].

(** The labels leave the milestone's index out. *)
Definition parse_milestone (v : json) : result error ProjectMilestoneState :=
  match RecordCodec.as_object (Some v) with
  | None => Err (PlainError "Project snapshot milestones[] must be an object")
  | Some o =>
      i ← requireString kind (assoc "id" o) "milestones[].id";
      n ← requireString kind (assoc "name" o) "milestones[].name";
      d ← requireString kind (assoc "targetDate" o) "milestones[].targetDate";
      Ok (MilestoneSt i n d)
  end.

(** Anything that is not an array is no milestones. *)
Definition parseMilestones (v : option json) : result error (list ProjectMilestoneState) :=
  match v with Some (JArr l) => mapM parse_milestone l | _ => Ok [] end.

Definition parsePayloadV1 (data : json) : result error ProjectSnapshotState :=
  o ← requireRecord kind data;
  i ← requireString kind (assoc "id" o) "id";
  n ← requireString kind (assoc "name" o) "name";
  st ← requireOneOf kind projectStatusValues (assoc "status" o) "status";
  sd ← requireString kind (assoc "startDate" o) "startDate";
  td ← requireString kind (assoc "targetDate" o) "targetDate";
  d ← requireString kind (assoc "description" o) "description";
  g ← requireNullableString kind (assoc "goalId" o) "goalId";
  ms ← parseMilestones (assoc "milestones" o);
  cb ← requireNonEmptyString kind (assoc "createdBy" o) "createdBy";
  ca ← requireNumber kind (assoc "createdAt" o) "createdAt";
  ua ← requireNumber kind (assoc "updatedAt" o) "updatedAt";
  ar ← requireNullableNumber kind (assoc "archivedAt" o) "archivedAt";
  Ok (ProjectSnap i n st sd td d g ms cb ca ua ar (as_finite (assoc "version" o))).

Definition upcastProjectSnapshot (v : number) (data : json) : result error ProjectSnapshotState :=
  if num_eq v (num 1) then parsePayloadV1 data
  else Err (PlainError ("Unsupported project snapshot version " +:+ string_of_Z (to_Z v))).

Definition milestone_json (m : ProjectMilestoneState) : json :=
  JObj [("id", JStr (ms_id m)); ("name", JStr (ms_name m)); ("targetDate", JStr (ms_targetDate m))].

Definition toPayloadV1 (s : ProjectSnapshotState) : json :=
  JObj ([("id", JStr (ps_id s)); ("name", JStr (ps_name s)); ("status", JStr (ps_status s));
    ("startDate", JStr (ps_startDate s)); ("targetDate", JStr (ps_targetDate s));
    ("description", JStr (ps_description s)); ("goalId", json_opt (ps_goalId s));
    ("milestones", JArr (map milestone_json (ps_milestones s))); ("createdBy", JStr (ps_createdBy s));
    ("createdAt", JNum (ps_createdAt s)); ("updatedAt", JNum (ps_updatedAt s));
    ("archivedAt", json_opt_num (ps_archivedAt s))]
    ++ match ps_version s with Some v => [("version", JNum v)] | None => [] end).

(** [encodeProjectSnapshotPayload] and [encodeProjectSnapshotState] write the same. *)
Definition encodeProjectSnapshotState (s : ProjectSnapshotState) : list Z :=
  encodeSnapshotEnvelope (SnapEnvelope (num SNAPSHOT_VERSION) (toPayloadV1 s)).

Definition with_aggregate_version (v : Z) (s : ProjectSnapshotState) : ProjectSnapshotState :=
  ProjectSnap (ps_id s) (ps_name s) (ps_status s) (ps_startDate s) (ps_targetDate s) (ps_description s)
    (ps_goalId s) (ps_milestones s) (ps_createdBy s) (ps_createdAt s) (ps_updatedAt s) (ps_archivedAt s) (Some (num v)).

Definition decodeProjectSnapshotState (payload : list Z) (aggregateVersion : Z) : result error ProjectSnapshotState :=
  env ← decodeSnapshotEnvelope payload;
  parsed ← upcastProjectSnapshot (snapshotVersion env) (snap_data env);
  Ok (with_aggregate_version aggregateVersion parsed).

Definition milestone_from (m : ProjectMilestoneState) : result error Milestone :=
  i ← vo_new (ms_id m);
  n ← vo_new (ms_name m);
  d ← LocalDate.fromString (ms_targetDate m);
  Ok (MkMilestone i n d).

Definition decodeProjectSnapshotDomain (payload : list Z) (aggregateVersion : Z) : result error ProjectSnapshot :=
  s ← decodeProjectSnapshotState payload aggregateVersion;
  i ← vo_new (ps_id s);
  n ← vo_new (ps_name s);
  st ← ProjectStatus.from (ps_status s);
  sd ← LocalDate.fromString (ps_startDate s);
  td ← LocalDate.fromString (ps_targetDate s);
  d ← vo_new (ps_description s);
  g ← match ps_goalId s with
    | None => Ok None
    | Some g => if (strlen g =? 0)%Z then Ok None else Some <$> vo_new g
    end;
  ms ← mapM milestone_from (ps_milestones s);
  cb ← vo_new (ps_createdBy s);
  ca ← Timestamp.fromMillis (ps_createdAt s);
  ua ← Timestamp.fromMillis (ps_updatedAt s);
  ar ← GoalSnapshotCodec.opt_timestamp (ps_archivedAt s);
  Ok (Snapshot i n st sd td d g ms cb ca ua ar aggregateVersion).

Definition milestone_state (m : Milestone) : ProjectMilestoneState :=
  MilestoneSt (value (m_id m)) (value (m_name m)) (value (m_targetDate m)).

(** The snapshot in primitives. *)
Definition state_of (s : ProjectSnapshot) : ProjectSnapshotState :=
  ProjectSnap (value (s_id s)) (value (s_name s)) (ProjectStatus.val (s_status s)) (value (s_startDate s))
    (value (s_targetDate s)) (value (s_description s)) (value <$> s_goalId s)
    (map milestone_state (s_milestones s)) (value (s_createdBy s)) (Timestamp.millis (s_createdAt s))
    (Timestamp.millis (s_updatedAt s)) (Timestamp.millis <$> s_archivedAt s) (Some (num (s_version s))).

End ProjectSnapshotCodec.

(** ** The snapshot store *)

(** [WHERE aggregate_type = ? AND aggregate_id = ? LIMIT 1] *)
Definition snapshot_of_aggregate (ty i : string) (s : SnapshotRow) : bool :=
  bool_decide ((s_aggregate_type s, s_aggregate_id s) = (ty, i)).
Definition get_snapshot (ty i : string) (db : local_db) : option SnapshotRow :=
  List.find (snapshot_of_aggregate ty i) (snapshots db).

Definition set_snapshots (l : list SnapshotRow) (db : local_db) : local_db :=
  Db (events db) (next_commit_sequence db) l (sync_event_map db) (sync_meta db).

(** [INSERT ... ON CONFLICT DO UPDATE] *)
Fixpoint upsert_snapshot (r : SnapshotRow) (l : list SnapshotRow) : list SnapshotRow :=
  match l with
  | [] => [r]
  | s :: l' => if snapshot_of_aggregate (s_aggregate_type r) (s_aggregate_id r) s then r :: l' else s :: upsert_snapshot r l'
  end.
Definition put_snapshot (r : SnapshotRow) (db : local_db) : local_db :=
  set_snapshots (upsert_snapshot r (snapshots db)) db.

(** ** Lemmas *)

Module SnapshotLemmas.
Import JsonTextProperties RecordCodecProperties.

Lemma snapshot_envelope_roundtrip v data : (1 <= v)%Z -> json_ok data = true ->
  decodeSnapshotEnvelope (encodeSnapshotEnvelope (SnapEnvelope (num v) data)) = Ok (SnapEnvelope (num v) data).
Proof.
  intros Hv Hd. unfold decodeSnapshotEnvelope, encodeSnapshotEnvelope. cbn [snapshotVersion snap_data].
  rewrite decode_utf8_json by (cbn [json_ok forallb]; by rewrite Hd).
  cbn [required_snapshot mbind result_bind RecordCodec.as_object].
  change (assoc "snapshotVersion" _) with (Some (JNum (num v))). rewrite as_version_num.
  destruct (Z.ltb_spec v 1); [lia|]. reflexivity.
Qed.

Lemma upsert_spec r l : List.find (snapshot_of_aggregate (s_aggregate_type r) (s_aggregate_id r)) (upsert_snapshot r l) = Some r.
Proof.
  assert (snapshot_of_aggregate (s_aggregate_type r) (s_aggregate_id r) r = true) as Hr
    by (by apply bool_decide_eq_true).
  induction l as [|s l IH]; simpl; [by rewrite Hr|].
  destruct (snapshot_of_aggregate _ _ s) eqn:E; simpl; [by rewrite Hr|by rewrite E].
Qed.

Lemma get_put_snapshot r db : get_snapshot (s_aggregate_type r) (s_aggregate_id r) (put_snapshot r db) = Some r.
Proof. apply upsert_spec. Qed.

(** The instant prints as an integer. *)
Definition plain_time (t : Timestamp.t) : Prop := whole (Timestamp.millis t) = true.
Definition plain_time_opt (t : option Timestamp.t) : Prop := match t with Some t => plain_time t | None => True end.

Lemma plain_json t : plain_time t -> json_ok (JNum (Timestamp.millis t)) = true.
Proof. unfold plain_time. by destruct (Timestamp.millis t). Qed.
Lemma plain_opt_json t : plain_time_opt t -> json_ok (json_opt_num (Timestamp.millis <$> t)) = true.
Proof. destruct t as [t|]; [apply plain_json|done]. Qed.

Lemma as_finite_plain t : as_finite (Some (JNum (Timestamp.millis t))) = Some (Timestamp.millis t).
Proof.
  unfold as_finite. simpl. destruct t as [n Hn]. simpl. by destruct (isFinite n).
Qed.

Lemma requireNullableNumber_opt kind t label :
  requireNullableNumber kind (Some (json_opt_num (Timestamp.millis <$> t))) label = Ok (Timestamp.millis <$> t).
Proof. destruct t as [t|]; [|done]. cbn [fmap option_fmap option_map json_opt_num requireNullableNumber]. by rewrite as_finite_plain. Qed.

Lemma opt_timestamp_millis t : GoalSnapshotCodec.opt_timestamp (Timestamp.millis <$> t) = Ok t.
Proof. destruct t as [t|]; [|done]. simpl. by rewrite Timestamp.fromMillis_millis. Qed.

(** *** Goals *)

Definition goal_snapshot_plain (s : Goal.GoalSnapshot) : Prop :=
  (Month.year (Goal.s_targetMonth s) <= 9999)%Z /\ plain_time (Goal.s_createdAt s) /\
  plain_time_opt (Goal.s_achievedAt s) /\ plain_time_opt (Goal.s_archivedAt s).

Lemma goal_payload_json_ok s : goal_snapshot_plain s ->
  json_ok (GoalSnapshotCodec.toPayloadV1 (GoalSnapshotCodec.state_of s)) = true.
Proof.
  intros (_ & H1%plain_json & H2%plain_opt_json & H3%plain_opt_json).
  unfold GoalSnapshotCodec.toPayloadV1, GoalSnapshotCodec.state_of.
  cbn [GoalSnapshotCodec.gs_createdAt GoalSnapshotCodec.gs_achievedAt GoalSnapshotCodec.gs_archivedAt
    GoalSnapshotCodec.gs_version].
  cbn [json_ok forallb]. cbn [json_ok] in H1. rewrite H1, H2, H3. reflexivity.
Qed.

(** Look the keys of a literal object up. *)
Ltac lookup_fields :=
  repeat match goal with
  | |- context [assoc ?k ?l] => let r := eval vm_compute in (assoc k l) in change (assoc k l) with r
  end.

Lemma requireString_str kind x label : requireString kind (Some (JStr x)) label = Ok x.
Proof. done. Qed.

Lemma requireOneOf_in kind values x label : x ∈ values -> requireOneOf kind values (Some (JStr x)) label = Ok x.
Proof. intros H. unfold requireOneOf. simpl. by rewrite bool_decide_true. Qed.

Lemma requireNumber_finite kind n label : isFinite n = true -> requireNumber kind (Some (JNum n)) label = Ok n.
Proof. intros H. unfold requireNumber, as_finite. simpl. by rewrite H. Qed.

Lemma millis_finite t : isFinite (Timestamp.millis t) = true.
Proof. destruct t as [n Hn]. simpl. by destruct (isFinite n). Qed.

Lemma slice_val_in s : Slice.val s ∈ map Slice.val Slice.ALL_SLICES.
Proof. destruct s; set_solver. Qed.
Lemma priority_val_in p : Priority.val p ∈ ["must"; "should"; "maybe"].
Proof. destruct p; set_solver. Qed.

Lemma goal_payload_parses s :
  GoalSnapshotCodec.parsePayloadV2 (GoalSnapshotCodec.toPayloadV1 (GoalSnapshotCodec.state_of s)) =
    Ok (GoalSnapshotCodec.state_of s).
Proof.
  destruct s as [i su sl pr tm cb ca ac ar v].
  pose proof (slice_val_in sl) as Hsl. pose proof (priority_val_in pr) as Hpr.
  pose proof (millis_finite ca) as Hca.
  unfold GoalSnapshotCodec.parsePayloadV2, GoalSnapshotCodec.toPayloadV1, GoalSnapshotCodec.state_of,
    requireRecord, GoalSnapshotCodec.parse_fields_with. cbn [RecordCodec.as_object must mbind result_bind
    GoalSnapshotCodec.gs_id GoalSnapshotCodec.gs_summary GoalSnapshotCodec.gs_slice GoalSnapshotCodec.gs_priority
    GoalSnapshotCodec.gs_targetMonth GoalSnapshotCodec.gs_createdBy GoalSnapshotCodec.gs_createdAt
    GoalSnapshotCodec.gs_achievedAt GoalSnapshotCodec.gs_archivedAt GoalSnapshotCodec.gs_version
    Goal.s_id Goal.s_summary Goal.s_slice Goal.s_priority Goal.s_targetMonth Goal.s_createdBy Goal.s_createdAt
    Goal.s_achievedAt Goal.s_archivedAt Goal.s_version].
  generalize (Slice.val sl) (Priority.val pr) (Month.value tm) (Timestamp.millis ca) Hsl Hpr Hca.
  intros a b c n Ha Hb Hn.
  pose proof (requireNullableNumber_opt GoalSnapshotCodec.kind ac "achievedAt") as Hac.
  pose proof (requireNullableNumber_opt GoalSnapshotCodec.kind ar "archivedAt") as Har.
  generalize dependent (Timestamp.millis <$> ac). intros ac' Hac.
  generalize dependent (Timestamp.millis <$> ar). intros ar' Har.
  lookup_fields.
  rewrite !requireString_str, !requireOneOf_in, !requireNumber_finite by done. cbn [mbind result_bind].
  unfold json_opt_num in Hac, Har. rewrite Har, Hac. reflexivity.
Qed.

Lemma goal_snapshot_decodes s v : goal_snapshot_plain s ->
  GoalSnapshotCodec.decodeGoalSnapshotDomain
    (GoalSnapshotCodec.encodeGoalSnapshotState (GoalSnapshotCodec.state_of s)) v =
  Ok (Goal.Snapshot (Goal.s_id s) (Goal.s_summary s) (Goal.s_slice s) (Goal.s_priority s) (Goal.s_targetMonth s)
    (Goal.s_createdBy s) (Goal.s_createdAt s) (Goal.s_achievedAt s) (Goal.s_archivedAt s) v).
Proof.
  intros Hs. unfold GoalSnapshotCodec.decodeGoalSnapshotDomain, GoalSnapshotCodec.decodeGoalSnapshotState,
    GoalSnapshotCodec.encodeGoalSnapshotState.
  rewrite snapshot_envelope_roundtrip; [|done|by apply goal_payload_json_ok].
  cbn [mbind result_bind snapshotVersion snap_data].
  change (GoalSnapshotCodec.upcastGoalSnapshot (num GoalSnapshotCodec.SNAPSHOT_VERSION))
    with GoalSnapshotCodec.parsePayloadV2.
  rewrite goal_payload_parses. destruct Hs as (Hm & _). destruct s as [i su sl pr tm cb ca ac ar v0].
  cbn [Goal.s_targetMonth] in Hm. unfold GoalSnapshotCodec.state_of, GoalSnapshotCodec.with_aggregate_version.
  cbn [mbind result_bind
    GoalSnapshotCodec.gs_id GoalSnapshotCodec.gs_summary GoalSnapshotCodec.gs_slice GoalSnapshotCodec.gs_priority
    GoalSnapshotCodec.gs_targetMonth GoalSnapshotCodec.gs_createdBy GoalSnapshotCodec.gs_createdAt
    GoalSnapshotCodec.gs_achievedAt GoalSnapshotCodec.gs_archivedAt GoalSnapshotCodec.gs_version
    Goal.s_id Goal.s_summary Goal.s_slice Goal.s_priority Goal.s_targetMonth Goal.s_createdBy Goal.s_createdAt
    Goal.s_achievedAt Goal.s_archivedAt Goal.s_version].
  rewrite !vo_new_value, Slice.slice_from_val, Priority.priority_from_val, (Month.from_value_small _ Hm),
    Timestamp.fromMillis_millis, !opt_timestamp_millis. reflexivity.
Qed.

(** *** Projects *)

(** The creator's name has no white space around it: the codec trims it. *)
Definition project_snapshot_plain (s : Project.ProjectSnapshot) : Prop :=
  plain_time (Project.s_createdAt s) /\ plain_time (Project.s_updatedAt s) /\
  plain_time_opt (Project.s_archivedAt s) /\ trim (value (Project.s_createdBy s)) = value (Project.s_createdBy s).

Lemma project_payload_json_ok s : project_snapshot_plain s ->
  json_ok (ProjectSnapshotCodec.toPayloadV1 (ProjectSnapshotCodec.state_of s)) = true.
Proof.
  intros (H1%plain_json & H2%plain_json & H3%plain_opt_json & _).
  destruct s as [i n st sd td d g ms cb ca ua ar v].
  unfold ProjectSnapshotCodec.toPayloadV1, ProjectSnapshotCodec.state_of.
  cbn [ProjectSnapshotCodec.ps_createdAt ProjectSnapshotCodec.ps_updatedAt ProjectSnapshotCodec.ps_archivedAt
    ProjectSnapshotCodec.ps_goalId ProjectSnapshotCodec.ps_version ProjectSnapshotCodec.ps_milestones
    Project.s_createdAt Project.s_updatedAt Project.s_archivedAt Project.s_milestones Project.s_goalId app] in *.
  cbn [json_ok forallb map fst snd]. cbn [json_ok] in H1, H2. rewrite H1, H2, H3, json_opt_ok.
  assert (forallb json_ok (map ProjectSnapshotCodec.milestone_json (map ProjectSnapshotCodec.milestone_state ms)) = true)
    as -> by (induction ms; [done|simpl; done]). reflexivity.
Qed.

Lemma requireNullableString_opt kind o label : requireNullableString kind (Some (json_opt o)) label = Ok o.
Proof. by destruct o. Qed.

Lemma user_nonempty (u : UserId) : strlen (value u) <> 0%Z.
Proof.
  destruct u as [x p]. simpl. unfold Assert.isNonEmpty, Assert.check in p.
  destruct (Z.eqb_spec (strlen x) 0); [done|done].
Qed.

Lemma status_val_in st : ProjectStatus.val st ∈ ProjectSnapshotCodec.projectStatusValues.
Proof. destruct st; set_solver. Qed.

Lemma parseMilestones_states ms :
  ProjectSnapshotCodec.parseMilestones (Some (JArr (map ProjectSnapshotCodec.milestone_json ms))) = Ok ms.
Proof. simpl. apply mapM_map_ok. apply Forall_true. by intros []. Qed.

Lemma milestones_from_states ms :
  mapM ProjectSnapshotCodec.milestone_from (map ProjectSnapshotCodec.milestone_state ms) = Ok ms.
Proof.
  apply mapM_map_ok. apply Forall_true. intros [i n d]. unfold ProjectSnapshotCodec.milestone_from, LocalDate.fromString.
  cbn [ProjectSnapshotCodec.milestone_state ProjectSnapshotCodec.ms_id ProjectSnapshotCodec.ms_name
    ProjectSnapshotCodec.ms_targetDate Project.m_id Project.m_name Project.m_targetDate].
  by rewrite !vo_new_value.
Qed.

Lemma project_payload_parses s : trim (value (Project.s_createdBy s)) = value (Project.s_createdBy s) ->
  ProjectSnapshotCodec.parsePayloadV1 (ProjectSnapshotCodec.toPayloadV1 (ProjectSnapshotCodec.state_of s)) =
    Ok (ProjectSnapshotCodec.state_of s).
Proof.
  destruct s as [i n st sd td d g ms cb ca ua ar v]. cbn [Project.s_createdBy]. intros Ht.
  pose proof (status_val_in st) as Hst. pose proof (user_nonempty cb) as Hcb.
  pose proof (millis_finite ca) as Hca. pose proof (millis_finite ua) as Hua.
  unfold ProjectSnapshotCodec.parsePayloadV1, ProjectSnapshotCodec.toPayloadV1, ProjectSnapshotCodec.state_of, requireRecord.
  cbn [ProjectSnapshotCodec.ps_id ProjectSnapshotCodec.ps_name ProjectSnapshotCodec.ps_status
    ProjectSnapshotCodec.ps_startDate ProjectSnapshotCodec.ps_targetDate ProjectSnapshotCodec.ps_description
    ProjectSnapshotCodec.ps_goalId ProjectSnapshotCodec.ps_milestones ProjectSnapshotCodec.ps_createdBy
    ProjectSnapshotCodec.ps_createdAt ProjectSnapshotCodec.ps_updatedAt ProjectSnapshotCodec.ps_archivedAt
    ProjectSnapshotCodec.ps_version
    Project.s_id Project.s_name Project.s_status Project.s_startDate Project.s_targetDate Project.s_description
    Project.s_goalId Project.s_milestones Project.s_createdBy Project.s_createdAt Project.s_updatedAt
    Project.s_archivedAt Project.s_version].
  cbn [RecordCodec.as_object must mbind result_bind].
  pose proof (requireNullableNumber_opt ProjectSnapshotCodec.kind ar "archivedAt") as Har.
  pose proof (requireNullableString_opt ProjectSnapshotCodec.kind (value <$> g) "goalId") as Hg.
  pose proof (parseMilestones_states (map ProjectSnapshotCodec.milestone_state ms)) as Hms.
  generalize dependent (Timestamp.millis <$> ar). generalize dependent (value <$> g).
  generalize dependent (map ProjectSnapshotCodec.milestone_state ms). intros ms' Hms g' Hg ar' Har.
  set (jms := JArr (map ProjectSnapshotCodec.milestone_json ms')) in *. clearbody jms.
  set (jg := json_opt g') in *. clearbody jg. set (jar := json_opt_num ar') in *. clearbody jar.
  generalize dependent (value cb). generalize dependent (ProjectStatus.val st).
  generalize dependent (Timestamp.millis ca). generalize dependent (Timestamp.millis ua).
  generalize (value i) (value n) (value sd) (value td) (value d). cbn [app].
  intros xi xn xsd xtd xd xua Hua xca Hca xst Hst xcb Ht Hcb.
  lookup_fields.
  rewrite !requireString_str, requireOneOf_in by done. cbn [mbind result_bind].
  rewrite Hg. cbn [mbind result_bind]. rewrite Hms. cbn [mbind result_bind].
  unfold requireNonEmptyString. rewrite requireString_str. cbn [mbind result_bind]. rewrite Ht.
  destruct (Z.eqb_spec (strlen xcb) 0); [done|]. cbn [mbind result_bind].
  rewrite !requireNumber_finite by done. cbn [mbind result_bind]. rewrite Har. reflexivity.
Qed.

Lemma goal_id_nonempty (g : GoalId) : (strlen (value g) =? 0)%Z = false.
Proof.
  destruct g as [x p]. simpl. apply Z.eqb_neq. intros Hx. destruct x as [|c x]; [done|].
  unfold strlen in Hx. simpl in Hx. lia.
Qed.

Lemma project_snapshot_decodes s v : project_snapshot_plain s ->
  ProjectSnapshotCodec.decodeProjectSnapshotDomain
    (ProjectSnapshotCodec.encodeProjectSnapshotState (ProjectSnapshotCodec.state_of s)) v =
  Ok (Project.Snapshot (Project.s_id s) (Project.s_name s) (Project.s_status s) (Project.s_startDate s)
    (Project.s_targetDate s) (Project.s_description s) (Project.s_goalId s) (Project.s_milestones s)
    (Project.s_createdBy s) (Project.s_createdAt s) (Project.s_updatedAt s) (Project.s_archivedAt s) v).
Proof.
  intros Hs. unfold ProjectSnapshotCodec.decodeProjectSnapshotDomain, ProjectSnapshotCodec.decodeProjectSnapshotState,
    ProjectSnapshotCodec.encodeProjectSnapshotState.
  rewrite snapshot_envelope_roundtrip; [|done|by apply project_payload_json_ok].
  cbn [mbind result_bind snapshotVersion snap_data].
  change (ProjectSnapshotCodec.upcastProjectSnapshot (num ProjectSnapshotCodec.SNAPSHOT_VERSION))
    with ProjectSnapshotCodec.parsePayloadV1.
  rewrite project_payload_parses by apply Hs. destruct s as [i n st sd td d g ms cb ca ua ar v0].
  unfold ProjectSnapshotCodec.state_of, ProjectSnapshotCodec.with_aggregate_version, LocalDate.fromString.
  cbn [mbind result_bind ProjectSnapshotCodec.ps_id ProjectSnapshotCodec.ps_name ProjectSnapshotCodec.ps_status
    ProjectSnapshotCodec.ps_startDate ProjectSnapshotCodec.ps_targetDate ProjectSnapshotCodec.ps_description
    ProjectSnapshotCodec.ps_goalId ProjectSnapshotCodec.ps_milestones ProjectSnapshotCodec.ps_createdBy
    ProjectSnapshotCodec.ps_createdAt ProjectSnapshotCodec.ps_updatedAt ProjectSnapshotCodec.ps_archivedAt
    ProjectSnapshotCodec.ps_version
    Project.s_id Project.s_name Project.s_status Project.s_startDate Project.s_targetDate Project.s_description
    Project.s_goalId Project.s_milestones Project.s_createdBy Project.s_createdAt Project.s_updatedAt
    Project.s_archivedAt Project.s_version].
  rewrite !vo_new_value, ProjectStatus.status_from_val, milestones_from_states, !Timestamp.fromMillis_millis,
    !opt_timestamp_millis. cbn [mbind result_bind].
  destruct g as [g|]; cbn [fmap option_fmap option_map]; [|reflexivity].
  rewrite goal_id_nonempty, vo_new_value. reflexivity.
Qed.

End SnapshotLemmas.
