(* ===== verification/Repository.v ===== *)
(** * What the repositories share

    [GoalRepository.ts] and [ProjectRepository.ts]
    (packages/infrastructure/src) have the same [load] and, up to one call, the
    same [save]: this file models that common body over the class
    [StoredAggregate] and a way to load a snapshot, and proves that it keeps an
    aggregate's event history.  What another tab does to the database between
    the check and the insert of an append is the argument [others]. *)

From S2P Require Import Prelude JsValues RecordCodec ValueObjects Dates EventCodec Goal Project Crypto LocalDb.
From S2P Require Import EventStore Samples Application Keyring EventAdapters AggregateRoot.

(** An aggregate whose events are among the [domain_event]s. *)
Class StoredAggregate (Id S E : Type) `{EventSourced S E} : Type := {
  idValue : Id -> string;
  aggregateType : string;
  class_name : string;
  inject : E -> domain_event;
  own : domain_event -> option E;
  (** the event with the version it was stored at *)
  restamp : Z -> E -> E;
  own_stored v e : own (AdapterLemmas.stored_at v (inject e)) = Some (restamp v e);
  on_restamp v e s : on_event (restamp v e) s = on_event e s
}.

Section Repository.
Context {port : CryptoServicePort}.
Variable deriveKey : list Z -> string -> list Z.
Context {Id S E : Type} {sourced : EventSourced S E} {stored : StoredAggregate Id S E}.

Notation agg := (aggregate Id S E).

(** The aggregate has no [on{EventType}] method for another aggregate's event. *)
Definition no_handler (e : domain_event) : error :=
  let ty := v_type (view e) in
  PlainError ("No handler found for event type '" +:+ ty +:+ "' on " +:+ class_name +:+ ". Expected method: on" +:+ ty).

(** The aggregate's own events, up to the first foreign one. *)
Fixpoint own_events (l : list domain_event) : list E * option error :=
  match l with
  | [] => ([], None)
  | e :: l' =>
      match own e with
      | None => ([], Some (no_handler e))
      | Some x => let '(xs, err) := own_events l' in (x :: xs, err)
      end
  end.

(** [loadFromHistory] on [a] with what was decoded. *)
Definition reload_any (a : agg) (l : list domain_event) : result error agg :=
  let '(es, err) := own_events l in
  a' ← reload a es;
  match err with None => Ok a' | Some e => Err e end.

(** Decode the rows, resolving the key for each. *)
Definition decode_row (row : EventRow) : app domain_event :=
  k ← KeyringManager.resolveKeyForEvent deriveKey (aggregate_id (cols row));
  lift_result (lift_error (toDomain (cols row) k)).

Definition decode_rows (rows : list EventRow) : app (list domain_event) := mapM decode_row rows.

Definition getEvents (i : string) (fromVersion : Z) : app (list EventRow) :=
  gets (fun d => readForAggregate aggregateType i fromVersion (db d)).

(** ** [load] and [save], given how a snapshot is loaded: the aggregate it
    restores, and its version. *)

Variable loadSnapshot : string -> list Z -> app (option agg).

Definition load (i : Id) : app (option agg) :=
  snapshotKey ← getAggregateKey (idValue i);
  loadedSnapshot ← match snapshotKey with
    | Some k => loadSnapshot (idValue i) k
    | None => mret None
    end;
  tailEvents ← getEvents (idValue i) (match loadedSnapshot with Some a => (version a + 1)%Z | None => 1%Z end);
  match loadedSnapshot, tailEvents with
  | None, [] => mret None
  | _, _ =>
      domainTail ← decode_rows tailEvents;
      let restored := match loadedSnapshot with Some a => a | None => fresh i end in
      a ← lift_result (lift_error (reload_any restored domainTail));
      mret (Some a)
  end.

Fixpoint encrypt_events (key : list Z) (v : Z) (l : list E) : app (list EncryptedEventToAppend) :=
  match l with
  | [] => mret []
  | e :: l' =>
      x ← toEncrypted aggregateType (inject e) v key;
      xs ← encrypt_events key (v + 1) l';
      mret (x :: xs)
  end.

Definition isConcurrencyError (err : app_error) : bool :=
  match err with Infra (ConcurrencyError _) => true | _ => false end.

(** [after] is what follows the append; the result is the aggregate object,
    its events marked as committed. *)
Definition save (others : local_db -> local_db) (after : agg -> list Z -> app unit) (a : agg)
    (encryptionKey : list Z) : app agg :=
  let i := idValue (id a) in
  match getUncommittedEvents a with
  | [] => mret a
  | pending =>
      snapshot ← loadSnapshot i encryptionKey;
      maxEventVersion ← gets (fun d => max_version aggregateType i (db d));
      let baseVersion := Z.max maxEventVersion (match snapshot with Some s => version s | None => 0%Z end) in
      try_catch
        (encrypted ← encrypt_events encryptionKey (baseVersion + 1) pending;
         _ ← on_db (append others aggregateType i encrypted);
         _ ← after a encryptionKey;
         mret (markEventsAsCommitted a))
        (fun err =>
          if isConcurrencyError err then throw err
          else throw (PersistenceError ("Failed to save " +:+ aggregateType +:+ " " +:+ i +:+ ": " +:+ app_message err)))
  end.

(** ** The history of an aggregate, as the rows hold it *)

Definition aggregate_rows (i : string) (x : local_db) : list EventRow :=
  filter (fun e => bool_decide ((aggregate_type (cols e), aggregate_id (cols e)) = (aggregateType, i)) = true) (events x).

(** The rows carry the versions [v], [v + 1], ... and open to the events. *)
Fixpoint rows_hold (k : list Z) (v : Z) (rows : list EventRow) (h : list E) : Prop :=
  match rows, h with
  | [], [] => True
  | r :: rows, e :: h =>
      LocalDb.version (cols r) = v /\ toDomain (cols r) k = Ok (AdapterLemmas.stored_at v (inject e)) /\
      rows_hold k (v + 1) rows h
  | _, _ => False
  end.

(** The stored history of the aggregate [i] is [h]. *)
Definition history (i : string) (k : list Z) (h : list E) (x : local_db) : Prop :=
  rows_hold k 1 (order_by_version (aggregate_rows i x)) h.

End Repository.

(** ** Lemmas *)

Module RepositoryLemmas.
Import ApplicationLemmas KeyringLemmas AdapterLemmas EventStoreLemmas.

(** *** Sorting rows by version *)

Definition from_version (v : Z) (e : EventRow) : Prop := (v <=? LocalDb.version (cols e))%Z = true.
#[local] Instance from_version_dec v e : Decision (from_version v e).
Proof. unfold from_version. apply _. Defined.

Lemma filter_insert_row v e l :
  filter (from_version v) (insert_row_by_version e l) =
    if decide (from_version v e) then insert_row_by_version e (filter (from_version v) l)
    else filter (from_version v) l.
Proof.
  induction l as [|x l IH]; simpl.
  { rewrite filter_cons, filter_nil. by destruct (decide _). }
  unfold from_version in *.
  destruct (Z.leb_spec (LocalDb.version (cols e)) (LocalDb.version (cols x))) as [Hle|Hlt].
  - rewrite !filter_cons. destruct (decide (_ = true)) as [He|He].
    + destruct (decide (_ = true)) as [Hx|Hx]; [|lia]. simpl.
      by rewrite (proj2 (Z.leb_le _ _)).
    + done.
  - rewrite !filter_cons. rewrite IH. destruct (decide ((v <=? LocalDb.version (cols x))%Z = true)) as [Hx|Hx].
    + destruct (decide _) as [He|He]; [|lia]. simpl. by rewrite (proj2 (Z.leb_gt _ _)).
    + done.
Qed.

Lemma filter_order v l : filter (from_version v) (order_by_version l) = order_by_version (filter (from_version v) l).
Proof.
  induction l as [|x l IH]; [done|]. simpl. rewrite filter_insert_row, filter_cons, IH.
  by destruct (decide _).
Qed.

Lemma insert_row_perm e l : insert_row_by_version e l ≡ₚ e :: l.
Proof.
  induction l as [|x l IH]; [done|]. simpl. destruct (_ <=? _)%Z; [done|]. rewrite IH. constructor.
Qed.
Lemma order_perm l : order_by_version l ≡ₚ l.
Proof. induction l as [|e l IH]; [done|]. simpl. by rewrite insert_row_perm, IH. Qed.

Lemma insert_row_app e l r :
  Forall (fun x => LocalDb.version (cols e) <= LocalDb.version (cols x))%Z r ->
  insert_row_by_version e (l ++ r) = insert_row_by_version e l ++ r.
Proof.
  intros Hr. induction l as [|x l IH]; simpl.
  - destruct r as [|y r]; [done|]. apply Forall_cons in Hr as [Hy _]. simpl.
    by rewrite (proj2 (Z.leb_le _ _)).
  - destruct (_ <=? _)%Z; [done|]. by rewrite IH.
Qed.

Lemma order_app l r :
  Forall (fun e => Forall (fun x => LocalDb.version (cols e) <= LocalDb.version (cols x))%Z (order_by_version r)) l ->
  order_by_version (l ++ r) = order_by_version l ++ order_by_version r.
Proof.
  intros Hl. induction Hl as [|e l He _ IH]; [done|]. simpl. rewrite IH. by apply insert_row_app.
Qed.

Section Generic.
Context {port : CryptoServicePort}.
Variable deriveKey : list Z -> string -> list Z.
Context {Id S E : Type} {sourced : EventSourced S E} {stored : StoredAggregate Id S E}.
Notation agg := (aggregate Id S E).
Implicit Types d : device.

Lemma rows_hold_length k v rows h : rows_hold k v rows h -> length rows = length h.
Proof. revert v h. induction rows as [|r rows IH]; intros v [|e h]; simpl; [done..|]. intros (_ & _ & Hr). by rewrite (IH _ _ Hr). Qed.

Lemma rows_hold_app k v rows h rows' h' :
  rows_hold k v rows h -> rows_hold k (v + Z.of_nat (length h)) rows' h' -> rows_hold k v (rows ++ rows') (h ++ h').
Proof.
  revert v h. induction rows as [|r rows IH]; intros v [|e h]; simpl; [by rewrite Z.add_0_r|done..|].
  intros (H1 & H2 & Hr) Hr'. split_and!; [done..|]. apply IH; [done|].
  by replace (v + 1 + Z.of_nat (length h))%Z with (v + Z.of_nat (Datatypes.S (length h)))%Z by lia.
Qed.

Lemma rows_hold_versions k v rows h :
  rows_hold k v rows h -> map (fun r => LocalDb.version (cols r)) rows = map (fun n => (v + Z.of_nat n)%Z) (seq 0 (length h)).
Proof.
  revert v h. induction rows as [|r rows IH]; intros v [|e h]; simpl; [done..|].
  intros (Hv & _ & Hr). rewrite (IH _ _ Hr), <- seq_shift, map_map. f_equal; [lia|]. apply map_ext. intros n. lia.
Qed.

Lemma rows_hold_drop k v rows h n :
  rows_hold k v rows h -> n <= length h ->
  filter (from_version (v + Z.of_nat n)) rows = drop n rows /\
  rows_hold k (v + Z.of_nat n) (drop n rows) (drop n h).
Proof.
  revert v h n. induction rows as [|r rows IH]; intros v [|e h] n; simpl; try done.
  { intros _ Hn. assert (n = 0) as -> by lia. done. }
  intros (Hv & Hd & Hr) Hn. destruct n as [|n].
  - rewrite Z.add_0_r, !drop_0. split; [|done]. rewrite filter_cons.
    destruct (decide (from_version v r)) as [_|Hf]; [|unfold from_version in Hf; lia].
    f_equal. clear IH Hn Hd. assert (v < v + 1)%Z as Hlt by lia. revert Hr Hlt. generalize (v + 1)%Z as w.
    clear Hv. revert h. induction rows as [|r' rows IH]; intros h' w Hr Hlt; [done|]. destruct h' as [|e' h']; [done|].
    destruct Hr as (Hv' & _ & Hr). rewrite filter_cons. destruct (decide _) as [_|Hf]; [|unfold from_version in Hf; lia].
    f_equal. apply (IH h' (w + 1)%Z); [done|lia].
  - destruct (IH (v + 1)%Z h n Hr ltac:(lia)) as [H1' H2'].
    replace (v + 1 + Z.of_nat n)%Z with (v + Z.of_nat (Datatypes.S n))%Z in * by lia.
    split; [|done]. rewrite filter_cons.
    destruct (decide (from_version _ r)) as [Hf|_]; [apply Z.leb_le in Hf; lia|done].
Qed.

(** *** Reading *)

Lemma readForAggregate_rows i v x :
  readForAggregate aggregateType i v x = filter (from_version v) (order_by_version (aggregate_rows i x)).
Proof.
  unfold readForAggregate, aggregate_rows. rewrite filter_order. f_equal. rewrite list_filter_filter.
  apply list_filter_iff. intros e. unfold from_version. rewrite andb_true_iff. tauto.
Qed.

Lemma order_elem_of (r : EventRow) i x : r ∈ order_by_version (aggregate_rows i x) -> aggregate_id (cols r) = i.
Proof.
  rewrite order_perm. unfold aggregate_rows. rewrite list_elem_of_filter, bool_decide_eq_true. by intros [[= _ ->] _].
Qed.

(** Decoding the rows of an aggregate whose key the device has. *)
Lemma decode_rows_spec i k v rows h d :
  key_is deriveKey i k d -> rows_hold k v rows h -> Forall (fun r => aggregate_id (cols r) = i) rows ->
  exists l d', decode_rows deriveKey rows d = (Ok l, d') /\ key_is deriveKey i k d' /\ same_tables d d' /\
    exists vs, length vs = length h /\ own_events l = (zip_with restamp vs h, None).
Proof.
  unfold decode_rows. revert v h d. induction rows as [|r rows IH]; intros v [|e h] d Hk Hr Hi; try done.
  { exists [], d. split; [done|]. split; [done|]. split; [apply same_tables_refl|]. by exists []. }
  destruct Hr as (Hv & Ht & Hr). apply Forall_cons in Hi as [Hi Hrs].
  destruct (resolve_key deriveKey i k d Hk) as (d1 & Hd1 & Hk1 & Ht1 & _).
  destruct (IH (v + 1)%Z h d1 Hk1 Hr Hrs) as (l & d2 & Hl & Hk2 & Ht2 & vs & Hvs & Ho).
  exists (stored_at v (inject e) :: l), d2. split.
  { cbn [mapM]. erewrite js_bind_run_ok; [by erewrite js_bind_run_ok; [|exact Hl]|].
    unfold decode_row, mbind, js_bind, lift_result. by rewrite Hi, Hd1, Ht. }
  split; [done|]. split; [by eapply same_tables_trans|]. exists (v :: vs). split; [simpl; lia|].
  simpl. by rewrite own_stored, Ho.
Qed.

(** Replaying does not look at the stored versions. *)
Lemma reload_restamp (a : agg) vs h : length vs = length h -> reload a (zip_with restamp vs h) = reload a h.
Proof.
  intros Hl. unfold reload. f_equal. unfold loadFromHistory.
  enough (for_each (zip_with restamp vs h) (fun e => _ ← applyEvent e; modify bump) a =
    for_each h (fun e => _ ← applyEvent e; modify bump) a) as -> by done.
  revert vs Hl a. induction h as [|e h IH]; intros [|v vs] Hl a; try done. simpl. injection Hl as Hl.
  unfold mbind, js_bind, applyEvent at 1 3. rewrite on_restamp.
  destruct (on_event e (state a)) as [[[]|err] s]; [|done]. unfold modify. by apply IH.
Qed.

Lemma stored_key_tables i k d : key_is deriveKey i k d -> stored_key i d = Ok (Some k).
Proof. by intros (_ & _ & ? & _). Qed.

(** Loading when the snapshot, if there is one, restores [a0] at a version of
    the history: the later events are replayed on it. *)
Lemma load_spec loadSnapshot (i : Id) k h d (snap : option agg) d1 :
  key_is deriveKey (idValue i) k d -> loadSnapshot (idValue i) k d = (Ok snap, d1) ->
  history (idValue i) k h (db d1) -> key_is deriveKey (idValue i) k d1 ->
  match snap with Some a => (0 <= version a <= Z.of_nat (length h))%Z | None => True end ->
  exists d', load deriveKey loadSnapshot i d =
    (match snap, h with
     | None, [] => Ok None
     | None, _ => Some <$> lift_error (reconstitute i h)
     | Some a, _ => Some <$> lift_error (reload a (drop (Z.to_nat (version a)) h))
     end, d') /\ same_tables d1 d' /\ key_is deriveKey (idValue i) k d'.
Proof.
  intros Hk Hs Hh Hk1 Hv. unfold load, getAggregateKey, reads. unfold mbind at 1, js_bind at 1.
  rewrite (stored_key_tables _ _ _ Hk). unfold mbind at 1, js_bind at 1. rewrite Hs.
  unfold getEvents, gets. unfold mbind at 1, js_bind at 1. rewrite readForAggregate_rows.
  set (n := match snap with Some a => Z.to_nat (version a) | None => 0 end).
  assert (match snap with Some a => (version a + 1)%Z | None => 1%Z end = (1 + Z.of_nat n)%Z) as ->.
  { subst n. destruct snap; [rewrite Z2Nat.id by lia; lia|done]. }
  assert (n <= length h) as Hn by (subst n; destruct snap; lia).
  destruct (rows_hold_drop k 1 _ h n Hh Hn) as [-> Hd].
  set (rows := drop n (order_by_version (aggregate_rows (idValue i) (db d1)))) in *.
  assert (Forall (fun r => aggregate_id (cols r) = idValue i) rows) as Hall.
  { apply Forall_drop, Forall_forall. intros r Hr. by apply (order_elem_of _ _ (db d1)). }
  destruct (decode_rows_spec (idValue i) k _ rows (drop n h) d1 Hk1 Hd Hall) as (l & d2 & Hl & Hk2 & Ht2 & vs & Hvs & Ho).
  pose proof (rows_hold_length _ _ _ _ Hd) as Hlen.
  assert (forall a0 : agg, (domainTail ← decode_rows deriveKey rows;
      a ← lift_result (lift_error (reload_any a0 domainTail)); mret (Some a)) d1 =
    (Some <$> lift_error (reload a0 (drop n h)), d2)) as Hgo.
  { intros a0. unfold mbind, js_bind, lift_result. rewrite Hl. unfold reload_any. rewrite Ho, reload_restamp by done.
    by destruct (reload a0 (drop n h)). }
  destruct snap as [a0|].
  - exists d2. split; [|done]. rewrite Hgo. done.
  - subst n. rewrite drop_0 in *. destruct h as [|e h].
    + assert (rows = []) as -> by (by apply nil_length_inv). exists d1. split; [done|]. split; [apply same_tables_refl|done].
    + destruct rows as [|r rows]; [done|]. exists d2. split; [|done]. rewrite Hgo. done.
Qed.

(** *** Writing *)

(** The encryption service accepts the key. *)
Definition usable (k : list Z) : Prop := forall iv p aad, length iv = IV_LENGTH -> exists c, encrypt iv p k aad = Ok c.

(** A pending event of the aggregate [i] that can be stored. *)
Definition pending_of (i : string) (e : E) : Prop :=
  storable (inject e) /\ v_aggregateId (view (inject e)) = i.
Definition event_id_of (e : E) : string := v_eventId (view (inject e)).

Lemma key_is_drawn i k n d : key_is deriveKey i k d -> key_is deriveKey i k (drawn n d).
Proof. intros (He & Hk & Hs & Hc). split; [by apply entropy_ok_drawn|]. done. Qed.

Lemma key_is_set_db i k x d : key_is deriveKey i k d -> key_is deriveKey i k (set_db x d).
Proof. done. Qed.

(** The records for the events, at the versions from [v] on. *)
Fixpoint outs_hold (k : list Z) (v : Z) (out : list EncryptedEventToAppend) (l : list E) : Prop :=
  match out, l with
  | [], [] => True
  | x :: out, e :: l =>
      (exists c, x = encrypted_event (inject e) v c) /\
      toDomain (columns aggregateType x) k = Ok (stored_at v (inject e)) /\ outs_hold k (v + 1) out l
  | _, _ => False
  end.

Hypothesis type_named : is_empty aggregateType = false.

Lemma encrypt_events_spec i k v l d :
  entropy_ok d -> usable k -> Forall (pending_of i) l ->
  exists out n, encrypt_events k v l d = (Ok out, drawn n d) /\ outs_hold k v out l.
Proof.
  intros He Hu. revert v d He. induction l as [|e l IH]; intros v d He Hl.
  { exists [], 0. split; [|done]. by destruct d. }
  apply Forall_cons in Hl as [[Hs Hi] Hl].
  destruct (Hu (ivs d 0) (encodeEventEnvelope (envelope_of (inject e)))
    (Some (buildEventAad aggregateType (v_aggregateId (view (inject e))) v)) (proj1 (He 0))) as [c Hc].
  pose proof (toEncrypted_total _ _ _ _ _ _ Hc) as Hrun.
  destruct (adapter_roundtrip aggregateType (inject e) v k d _ _ Hs type_named He Hrun) as (_ & _ & Hd).
  destruct (IH (v + 1)%Z (drawn 1 d) (entropy_ok_drawn 1 d He) Hl) as (out & n & Hout & Ho).
  exists (encrypted_event (inject e) v c :: out), (Datatypes.S n). split.
  { cbn [encrypt_events]. erewrite js_bind_run_ok; [|exact Hrun]. by erewrite js_bind_run_ok; [|exact Hout]. }
  split; [by eexists|]. done.
Qed.

Lemma outs_hold_shape i k v out l : outs_hold k v out l -> Forall (pending_of i) l ->
  consecutive v out /\ Forall (fun x => ea_aggregateId x = i) out /\
  map ea_eventId out = map event_id_of l /\ length out = length l.
Proof.
  revert v l. induction out as [|x out IH]; intros v [|e l] Ho Hl; try done.
  destruct Ho as ([c ->] & _ & Ho). apply Forall_cons in Hl as [[_ Hi] Hl].
  destruct (IH _ _ Ho Hl) as (H1' & H2' & H3' & H4'). split; [by apply consecutive_cons|].
  split; [by constructor|]. simpl. split; [by rewrite H3'|lia].
Qed.

Lemma outs_hold_rows k v out l rows : outs_hold k v out l -> map cols rows = map (columns aggregateType) out ->
  rows_hold k v rows l.
Proof.
  revert v l out. induction rows as [|r rows IH]; intros v l [|x out] Ho Hm; try done.
  destruct l as [|e l]; [done|]. destruct Ho as ([c ->] & Hd & Ho). injection Hm as Hr Hm.
  cbn [rows_hold]. rewrite Hr. split; [done|]. split; [done|]. by apply (IH _ _ out).
Qed.

Lemma order_sorted k v rows l : rows_hold k v rows l -> order_by_version rows = rows.
Proof.
  revert v l. induction rows as [|r rows IH]; intros v [|e l] Hr; try done.
  destruct Hr as (Hv & _ & Hr). simpl. rewrite (IH _ _ Hr).
  destruct rows as [|r' rows]; [done|]. destruct l as [|e' l]; [done|]. destruct Hr as (Hv' & _ & _).
  simpl. by rewrite (proj2 (Z.leb_le _ _)) by lia.
Qed.

(** The stored versions of a history are [1], ..., [length h]. *)
Lemma history_versions i k h x : history i k h x ->
  aggregate_versions aggregateType i x ≡ₚ map (fun n => (1 + Z.of_nat n)%Z) (seq 0 (length h)).
Proof.
  intros Hh. rewrite <- (rows_hold_versions _ _ _ _ Hh). unfold aggregate_versions, aggregate_rows.
  apply (fmap_Permutation (fun r => LocalDb.version (cols r))). by rewrite order_perm.
Qed.

Lemma history_max i k h x : history i k h x -> max_version aggregateType i x = Z.of_nat (length h).
Proof. intros Hh. apply max_version_count. by eapply history_versions. Qed.

(** Rows appended after a history continue it. *)
Lemma history_append i k h x x' rows out l :
  history i k h x -> events x' = events x ++ rows -> map cols rows = map (columns aggregateType) out ->
  outs_hold k (Z.of_nat (length h) + 1) out l -> Forall (pending_of i) l ->
  history i k (h ++ l) x'.
Proof.
  intros Hh He Hm Ho Hl. destruct (outs_hold_shape _ _ _ _ _ Ho Hl) as (_ & Hi & _ & _).
  pose proof (outs_hold_rows _ _ _ _ _ Ho Hm) as Hrows.
  assert (filter (fun e => bool_decide ((aggregate_type (cols e), aggregate_id (cols e)) = (aggregateType, i)) = true) rows
    = rows) as Hall.
  { clear -Hm Hi. revert out Hm Hi. induction rows as [|r rows IH]; intros [|y out] Hm Hi; try done.
    injection Hm as Hr Hm. apply Forall_cons in Hi as [Hy Hi]. rewrite filter_cons, decide_True.
    - by rewrite (IH out).
    - rewrite bool_decide_eq_true, Hr. simpl. by rewrite Hy. }
  unfold history, aggregate_rows. rewrite He, filter_app, Hall.
  fold (aggregate_rows i x).
  rewrite order_app.
  - rewrite (order_sorted _ _ _ _ Hrows). apply rows_hold_app; [done|].
    by replace (1 + Z.of_nat (length h))%Z with (Z.of_nat (length h) + 1)%Z by lia.
  - apply Forall_forall. intros r Hr. rewrite (order_sorted _ _ _ _ Hrows). apply Forall_forall. intros r' Hr'.
    assert (LocalDb.version (cols r) ∈ aggregate_versions aggregateType i x) as Hv.
    { unfold aggregate_versions. apply list_elem_of_fmap. by exists r. }
    rewrite (history_versions _ _ _ _ Hh) in Hv. apply list_elem_of_fmap in Hv as (n & -> & Hn%elem_of_seq).
    assert (LocalDb.version (cols r') ∈ map (fun r => LocalDb.version (cols r)) rows) as Hv'
      by (by apply (list_elem_of_fmap_2 (fun r => LocalDb.version (cols r)))).
    rewrite (rows_hold_versions _ _ _ _ Hrows) in Hv'. apply list_elem_of_fmap in Hv' as (m & -> & _). lia.
Qed.

(** What [save] does, up to what follows the append: the pending events
    continue the stored history, whatever the aggregate object was loaded from. *)
Lemma save_spec loadSnapshot after (a : agg) k h d (snap : option agg) d1 :
  let i := idValue (id a) in
  loadSnapshot i k d = (Ok snap, d1) -> key_is deriveKey i k d1 ->
  history i k h (db d1) -> db_ok (db d1) -> usable k ->
  match snap with Some s => (version s <= Z.of_nat (length h))%Z | None => True end ->
  uncommitted a <> [] -> Forall (pending_of i) (uncommitted a) ->
  NoDup (map event_id_of (uncommitted a)) ->
  Forall (fun e => event_id_of e ∉ event_ids (db d1)) (uncommitted a) ->
  exists d2, key_is deriveKey i k d2 /\ history i k (h ++ uncommitted a) (db d2) /\ db_ok (db d2) /\
    snapshots (db d2) = snapshots (db d1) /\ sync_event_map (db d2) = sync_event_map (db d1) /\
    preserves (db d1) (db d2) /\ idempotency_keys d2 = idempotency_keys d1 /\ masterKey d2 = masterKey d1 /\
    event_ids (db d2) = event_ids (db d1) ++ map event_id_of (uncommitted a) /\
    save loadSnapshot (fun x => x) after a k d =
      match after a k d2 with
      | (Ok _, d3) => (Ok (markEventsAsCommitted a), d3)
      | (Err err, d3) => (Err (if isConcurrencyError err then err
          else PersistenceError ("Failed to save " +:+ aggregateType +:+ " " +:+ i +:+ ": " +:+ app_message err)), d3)
      end.
Proof.
  intros i Hs Hk1 Hh Hok Hu Hv Hne Hp Hnd Hfr.
  destruct (encrypt_events_spec i k (Z.of_nat (length h) + 1) (uncommitted a) d1) as (out & n & Hout & Ho);
    [apply Hk1|done|done|].
  destruct (outs_hold_shape _ _ _ _ _ Ho Hp) as (Hc & Hi & Hids & Hlen).
  pose proof (history_max _ _ _ _ Hh) as Hmax.
  destruct (append_consecutive aggregateType i out (db d1)) as (rows & x' & Happ & Hm & He & Hmap & _ & Hsn & Hok' & Hpre).
  - done.
  - intros ->. simpl in Hlen. by destruct (uncommitted a).
  - done.
  - by rewrite Hids.
  - apply Forall_forall. intros x Hx.
    assert (ea_eventId x ∈ map event_id_of (uncommitted a)) as Hin by (rewrite <- Hids; by apply list_elem_of_fmap_2).
    apply list_elem_of_fmap in Hin as (e & -> & Hin). by apply (proj1 (Forall_forall _ _) Hfr).
  - lia.
  - by rewrite Hmax.
  - exists (set_db x' (drawn n d1)). split; [by apply key_is_set_db, key_is_drawn|].
    split; [by eapply history_append|]. do 6 (split; [done|]). split.
    { rewrite <- Hids. unfold event_ids. simpl. rewrite He, map_app. f_equal.
      rewrite <- (map_map cols LocalDb.id rows), Hm, map_map. done. }
    unfold save, getUncommittedEvents. fold i.
    destruct (uncommitted a) as [|e0 l0] eqn:Eu; [done|]. rewrite <- Eu in *.
    unfold mbind at 1, js_bind at 1. rewrite Hs. unfold mbind at 1, js_bind at 1. unfold gets. rewrite Hmax.
    assert (Z.max (Z.of_nat (length h)) (match snap with Some s => version s | None => 0%Z end) = Z.of_nat (length h)) as ->
      by (destruct snap; lia).
    unfold try_catch. unfold mbind at 1, js_bind at 1. rewrite Hout. unfold mbind at 1, js_bind at 1.
    unfold on_db. cbn [drawn db]. rewrite Happ. unfold mbind, js_bind.
    destruct (after a k _) as [[[]|err] d3]; [done|]. by destruct (isConcurrencyError err).
Qed.

End Generic.
End RepositoryLemmas.
