(* ===== verification/GoalRepository.v ===== *)
(** * The repository of goals

    [packages/infrastructure/src/goals/GoalRepository.ts]: the common [load] and
    [save] ([Repository]) with the goals' snapshots, which this repository only
    reads (a projection writes them).  The theorems say that it implements an
    append-only history per goal, and where that promise is weaker than the
    optimistic check it performs. *)

From S2P Require Import Prelude JsValues RecordCodec ValueObjects Dates EventCodec Goal Crypto LocalDb.
From S2P Require Import EventStore Samples Application Keyring EventAdapters Snapshots AggregateRoot.
From S2P Require Import Repository.

#[export] Existing Instance Goal.goal_sourced.

#[export] Instance goal_stored : StoredAggregate GoalId Goal.fields_t Goal.event := {|
  idValue := value;
  aggregateType := "goal";
  class_name := "Goal";
  inject := GoalEvent;
  own e := match e with GoalEvent e => Some e | ProjectEvent _ => None end;
  restamp v e := Event (payload e) (AdapterLemmas.at_version v (meta e));
  own_stored v e := eq_refl;
  on_restamp v e s := eq_refl
|}.

Module GoalRepository.
Section Repo.
Context {port : CryptoServicePort}.
Variable deriveKey : list Z -> string -> list Z.

(** The loaded snapshot is given as the goal it restores. *)
Definition restore (s : Goal.GoalSnapshot) : Goal.t := Goal.hydrateFromSnapshot s (fresh (Goal.s_id s)).

Definition loadSnapshot (i : string) (kGoal : list Z) : app (option Goal.t) :=
  record ← gets (fun d => get_snapshot "goal" i (db d));
  match record with
  | None => mret None
  | Some r =>
      let aad := buildSnapshotAad i (snapshot_version r) in
      plaintext ← lift_result (lift_error (decrypt (snapshot_encrypted r) kGoal (Some aad)));
      s ← lift_result (lift_error (GoalSnapshotCodec.decodeGoalSnapshotDomain plaintext (snapshot_version r)));
      mret (Some (restore s))
  end.

Definition load : GoalId -> app (option Goal.t) := Repository.load deriveKey loadSnapshot.

Definition save (others : local_db -> local_db) : Goal.t -> list Z -> app Goal.t :=
  Repository.save loadSnapshot others (fun _ _ => skip).

(** [eid] is the fresh event id. *)
Definition archive (others : local_db -> local_db) (i : GoalId) (archivedAt : Timestamp.t) (actor : UserId)
    (eid : EventId) : app unit :=
  goal ← load i;
  match goal with
  | None => skip
  | Some g =>
      let '(r, g') := Goal.archive archivedAt actor eid g in
      _ ← lift_result (lift_error r);
      kGoal ← getAggregateKey (value i);
      match kGoal with
      | None => throw (MissingKeyError ("Missing encryption key for " +:+ value i))
      | Some k => _ ← save others g' k; skip
      end
  end.

End Repo.
End GoalRepository.

(** ** Lemmas *)

Module GoalRepositoryLemmas.
Import GoalRepository ApplicationLemmas KeyringLemmas AdapterLemmas EventStoreLemmas RepositoryLemmas SnapshotLemmas.
Section Lemmas.
Context {port : CryptoServicePort}.
Variable deriveKey : list Z -> string -> list Z.

(** Same goal, the access list apart, and nothing uncommitted. *)
Definition goal_equiv (g g' : Goal.t) : Prop :=
  id g' = id g /\ version g' = version g /\
  Goal.setAccessList [] (state g') = Goal.setAccessList [] (state g).

#[export] Instance goal_equiv_equivalence : Equivalence goal_equiv.
Proof. unfold goal_equiv. split; [done|intros ?? (?&?&?)|intros ??? (?&?&?) (?&?&?)]; repeat split; congruence. Qed.

(** The snapshot row of the goal, if there is one, is the snapshot of a prefix
    of the history. *)
Definition snapshot_of_prefix (i : GoalId) (k : list Z) (h : list Goal.event) (x : local_db) : Prop :=
  match get_snapshot "goal" (value i) x with
  | None => True
  | Some r => exists h1 h2 g1 s, h = h1 ++ h2 /\ reconstitute i h1 = Ok g1 /\
      GoalProperties.snapshot_of g1 = Some s /\ goal_snapshot_plain s /\ snapshot_version r = Goal.s_version s /\
      decrypt (snapshot_encrypted r) k (Some (buildSnapshotAad (value i) (snapshot_version r))) =
        Ok (GoalSnapshotCodec.encodeGoalSnapshotState (GoalSnapshotCodec.state_of s))
  end.

(** The device keeps the goal [i], whose key is [k] and whose history is [h]. *)
Record keeps (i : GoalId) (k : list Z) (h : list Goal.event) (d : device) : Prop := {
  keeps_key : key_is deriveKey (value i) k d;
  keeps_history : history (value i) k h (db d);
  keeps_db : db_ok (db d);
  keeps_usable : usable k;
  keeps_snapshot : snapshot_of_prefix i k h (db d)
}.

Lemma loadSnapshot_spec i k h d : keeps i k h d ->
  loadSnapshot (value i) k d = (Ok None, d) /\ get_snapshot "goal" (value i) (db d) = None \/
  exists h1 h2 g1 s, loadSnapshot (value i) k d = (Ok (Some (restore s)), d) /\ h = h1 ++ h2 /\
    reconstitute i h1 = Ok g1 /\ GoalProperties.snapshot_of g1 = Some s /\ Goal.s_version s = Z.of_nat (length h1).
Proof.
  intros [_ _ _ _ Hs]. unfold snapshot_of_prefix in Hs. unfold loadSnapshot.
  rewrite (js_bind_run_ok _ _ _ _ _ (eq_refl : gets (fun d => get_snapshot "goal" (value i) (db d)) d = _)).
  destruct (get_snapshot "goal" (value i) (db d)) as [r|]; [|by left]. right. destruct Hs as (h1 & h2 & g1 & s & Hh & Hg1 & Hs & Hp & Hv & Hd). exists h1, h2, g1, s.
  split; [|split; [done|split; [done|split; [done|]]]].
  - cbv zeta. unfold mbind, js_bind, lift_result. rewrite Hd. cbn [lift_error].
    rewrite goal_snapshot_decodes by done. cbn [lift_error]. rewrite Hv. by destruct s.
  - destruct (reload_version _ _ _ Hg1) as [Hver _]. unfold GoalProperties.snapshot_of in Hs.
    destruct g1 as [? [] ? ?]. simpl in *. unfold mbind, option_bind in Hs. repeat case_match; simplify_eq/=. done.
Qed.

Lemma reload_goal_none (l : list Goal.event) (a : Goal.t) : exists g, reload a l = Ok g.
Proof. destruct (GoalRuns.goal_reload_total l a) as (g & Hg & _). by exists g. Qed.

(** What [load] finds. *)
Lemma load_keeps i k h d : keeps i k h d ->
  exists d', same_tables d d' /\ keeps i k h d' /\
    (h = [] /\ load deriveKey i d = (Ok None, d') \/
     exists g g', h <> [] /\ reconstitute i h = Ok g /\ load deriveKey i d = (Ok (Some g'), d') /\
       goal_equiv g g' /\ uncommitted g' = [] /\ (get_snapshot "goal" (value i) (db d) = None -> g' = g)).
Proof.
  intros Hk. pose proof Hk as [Hkey Hh Hok Hu Hsn].
  assert (forall d', same_tables d d' -> key_is deriveKey (value i) k d' -> keeps i k h d') as Hkeep.
  { intros d' (Hdb & _ & _) Hkey'. split; try rewrite Hdb; done. }
  destruct (loadSnapshot_spec i k h d Hk) as [[Hl Hnone]|(h1 & h2 & g1 & s & Hl & -> & Hg1 & Hs & Hv)].
  - destruct (load_spec (stored := goal_stored) deriveKey loadSnapshot i k h d None d Hkey Hl Hh Hkey I) as (d' & Hd' & Ht & Hk').
    exists d'. split; [done|]. split; [by apply Hkeep|]. destruct (reload_goal_none h (fresh i)) as [g Hg].
    destruct h as [|e h]; [by left|]. right. exists g, g. split; [done|]. split; [exact Hg|].
    split; [|split; [done|split; [by rewrite <- (reload_committed _ _ _ Hg)|done]]]. unfold load, reconstitute in *. by rewrite Hd', Hg.
  - assert (0 <= version (restore s) <= Z.of_nat (length (h1 ++ h2)))%Z as Hrange.
    { unfold restore. simpl. rewrite Hv, length_app. lia. }
    destruct (load_spec (stored := goal_stored) deriveKey loadSnapshot i k (h1 ++ h2) d (Some (restore s)) d Hkey Hl Hh Hkey Hrange)
      as (d' & Hd' & Ht & Hk').
    exists d'. split; [done|]. split; [by apply Hkeep|]. right.
    destruct (GoalProperties.snapshot_tail_replay i h1 h2 g1 s Hg1 Hs) as (g & g' & Hg & Hg' & H1 & H2 & H3).
    exists g, g'. split.
    { intros E. apply app_eq_nil in E as [-> ->]. injection Hg1 as <-. done. }
    split; [done|]. split; [|split; [by repeat split|split; [by rewrite <- (reload_committed _ _ _ Hg')|]]].
    + assert (drop (Z.to_nat (version (restore s))) (h1 ++ h2) = h2) as Hdrop
        by (unfold restore; simpl; by rewrite Hv, Nat2Z.id, drop_app_length).
      unfold load. rewrite Hd', Hdrop. unfold Goal.reconstituteFromSnapshot in Hg'. fold (restore s) in Hg'. by rewrite Hg'.
    + unfold loadSnapshot, gets, mbind, js_bind in Hl. intros Hn. rewrite Hn in Hl. done.
Qed.

(** What [save] does. *)
Lemma save_keeps i k h d (g : Goal.t) : keeps i k h d -> id g = i ->
  Forall (pending_of (value i)) (uncommitted g) -> NoDup (map event_id_of (uncommitted g)) ->
  Forall (fun e => event_id_of e ∉ event_ids (db d)) (uncommitted g) ->
  exists d', save (fun x => x) g k d = (Ok (markEventsAsCommitted g), d') /\
    keeps i k (h ++ uncommitted g) d' /\ preserves (db d) (db d') /\
    idempotency_keys d' = idempotency_keys d /\ masterKey d' = masterKey d /\
    event_ids (db d') = event_ids (db d) ++ map event_id_of (uncommitted g).
Proof.
  intros Hk Hi Hp Hnd Hfr. pose proof Hk as [Hkey Hh Hok Hu Hsn].
  destruct (decide (uncommitted g = [])) as [E|E].
  { exists d. rewrite E, app_nil_r. split; [|split; [done|split; [apply preserves_refl|by rewrite app_nil_r]]].
    unfold save, Repository.save, getUncommittedEvents. rewrite E. destruct g as [? ? u ?]. simpl in E. by subst. }
  assert (exists snap, loadSnapshot (value i) k d = (Ok snap, d) /\
    match snap with Some s => (version s <= Z.of_nat (length h))%Z | None => True end) as (snap & Hl & Hv).
  { destruct (loadSnapshot_spec i k h d Hk) as [[Hl _]|(h1 & h2 & g1 & s & Hl & -> & _ & _ & Hv)].
    - by exists None.
    - exists (Some (restore s)). split; [done|]. unfold restore. simpl. rewrite Hv, length_app. lia. }
  subst i.
  destruct (save_spec (stored := goal_stored) deriveKey eq_refl loadSnapshot (fun _ _ => skip) g k h d snap d Hl Hkey Hh Hok Hu Hv
    E Hp Hnd Hfr) as (d2 & Hk2 & Hh2 & Hok2 & Hs2 & _ & Hpre & Hid & Hmk & Hev & Hrun).
  exists d2. split; [exact Hrun|]. split; [|done]. split; try done.
  unfold snapshot_of_prefix, get_snapshot in *. rewrite Hs2.
  destruct (List.find _ _) as [r|]; [|done]. destruct Hsn as (h1 & h2 & g1 & s & -> & Hrest).
  exists h1, (h2 ++ uncommitted g), g1, s. split; [by rewrite app_assoc|done].
Qed.

End Lemmas.
End GoalRepositoryLemmas.

(** ** Properties *)

Module GoalRepositoryProperties.
Import GoalRepository ApplicationLemmas KeyringLemmas AdapterLemmas RepositoryLemmas SnapshotLemmas GoalRepositoryLemmas.

(** The goal object is, the access list apart, the replay of the history and of
    its pending events. *)
Definition replay_of (i : GoalId) (h : list Goal.event) (g : Goal.t) : Prop :=
  id g = i /\ exists g1, reconstitute i (h ++ uncommitted g) = Ok g1 /\ goal_equiv g1 (markEventsAsCommitted g).

(** The goal's pending events can be stored: dates are whole milliseconds,
    months before the year 10000, and the event ids are new. *)
Definition can_save (g : Goal.t) (d : device) : Prop :=
  Forall (pending_of (value (id g))) (uncommitted g) /\ NoDup (map event_id_of (uncommitted g)) /\
  Forall (fun e => event_id_of e ∉ event_ids (db d)) (uncommitted g).

(** Replaying on equivalent goals gives equivalent goals. *)
Lemma reload_equiv (g g' a a' : Goal.t) (l : list Goal.event) :
  goal_equiv g g' -> reload g l = Ok a -> reload g' l = Ok a' -> goal_equiv a a'.
Proof.
  intros (H1 & H2 & H3) Ha Ha'.
  destruct (GoalRuns.goal_reload_total l g) as (b & Hb & Hsb). rewrite Hb in Ha. injection Ha as <-.
  destruct (GoalRuns.goal_reload_total l g') as (b' & Hb' & Hsb'). rewrite Hb' in Ha'. injection Ha' as <-.
  destruct (reload_version _ _ _ Hb) as [Hv Hi]. destruct (reload_version _ _ _ Hb') as [Hv' Hi'].
  split; [congruence|]. split; [lia|]. rewrite Hsb, Hsb'. by apply GoalProperties.handle_fold_access.
Qed.

Lemma commands_replay_of i h (g0 g1 : Goal.t) cs :
  reconstitute i h = Ok g1 -> goal_equiv g1 g0 -> uncommitted g0 = [] ->
  replay_of i h (GoalRuns.run_commands cs g0).
Proof.
  intros H1 He Hu. destruct (run_all_reload (map GoalRuns.run_command cs) g0) as [Hi Hr]; [|done|].
  { apply Forall_map, Forall_true. intros c b. apply GoalRuns.goal_command_emits_one. }
  change (run_all (map GoalRuns.run_command cs) g0) with (GoalRuns.run_commands cs g0) in *.
  destruct (reload_version _ _ _ H1) as [_ Hid]. split; [rewrite Hi; destruct He as [-> _]; exact Hid|].
  unfold reconstitute in *. rewrite reload_app. unfold reload in H1.
  destruct (loadFromHistory h (fresh i)) as [[?|?] a1] eqn:E; [|done]. injection H1 as <-.
  destruct (GoalRuns.goal_reload_total (uncommitted (GoalRuns.run_commands cs g0)) a1) as (b & Hb & _).
  exists b. split; [done|]. rewrite <- reload_uncommitted in Hb. by apply (reload_equiv _ _ _ _ _ He Hb Hr).
Qed.

(** Loading a goal gives nothing exactly when it has no stored event; otherwise it gives a
    goal with nothing pending whose version is the number of stored events and which, through
    any sequence of commands, stays the replay of the stored events and of those the commands
    emit (the access list apart when a snapshot is used). The database stays as it was. *)
Theorem goal_load_replays {port : CryptoServicePort} (deriveKey : list Z -> string -> list Z)
    (i : GoalId) (k : list Z) (h : list Goal.event) (d : device) :
  keeps deriveKey i k h d ->
  exists r d', load deriveKey i d = (Ok r, d') /\ same_tables d d' /\ keeps deriveKey i k h d' /\
    (r = None <-> h = []) /\
    forall g, r = Some g -> uncommitted g = [] /\ version g = Z.of_nat (length h) /\
      forall cs, replay_of i h (GoalRuns.run_commands cs g).
Proof.
  intros Hk. destruct (load_keeps deriveKey i k h d Hk) as (d' & Ht & Hk' & [[-> Hl]|(g & g' & Hne & Hg & Hl & He & Hu & _)]).
  - exists None, d'. split; [exact Hl|]. split; [done|]. split; [done|]. by split.
  - exists (Some g'), d'. split; [exact Hl|]. split; [done|]. split; [done|]. split; [by split|].
    intros g2 [= <-].
    destruct (reload_version _ _ _ Hg) as [Hv _]. split; [done|]. split; [destruct He as (_ & -> & _); exact Hv|].
    intros cs. by apply (commands_replay_of i h g' g cs).
Qed.

(** C15: Saving stores: when the goal object is the replay of the stored history and of its
    pending events, saving it succeeds, appends those events and nothing else, leaves every
    event already stored in place, and what is loaded afterwards is the goal that was saved
    (the access list apart when a snapshot is used). *)
Theorem goal_save_load {port : CryptoServicePort} (deriveKey : list Z -> string -> list Z)
    (i : GoalId) (k : list Z) (h : list Goal.event) (g : Goal.t) (d : device) :
  keeps deriveKey i k h d -> replay_of i h g -> h ++ uncommitted g <> [] -> can_save g d ->
  exists d', save (fun x => x) g k d = (Ok (markEventsAsCommitted g), d') /\
    keeps deriveKey i k (h ++ uncommitted g) d' /\ preserves (db d) (db d') /\
    exists g' d'', load deriveKey i d' = (Ok (Some g'), d'') /\ goal_equiv (markEventsAsCommitted g) g' /\
      same_tables d' d''.
Proof.
  intros Hk (Hi & g1 & Hg1 & He) Hne (Hp & Hnd & Hfr). subst i.
  destruct (save_keeps deriveKey _ k h d g Hk eq_refl Hp Hnd Hfr) as (d' & Hs & Hk' & Hpre & _).
  exists d'. split; [done|]. split; [done|]. split; [done|].
  destruct (load_keeps deriveKey _ k _ d' Hk') as (d2 & Ht & _ & [[E _]|(g2 & g' & _ & Hg2 & Hl & He2 & _)]); [done|].
  exists g', d2. split; [done|]. split; [|done]. rewrite Hg1 in Hg2. injection Hg2 as <-.
  transitivity g1; [by symmetry|done].
Qed.

(** Saving does not notice that the goal has moved on: two objects loaded from the same
    history (two tabs, or two commands in flight) can each be given commands and saved one
    after the other; the second save succeeds without a concurrency error and its events are
    stored after the first one's, although they were decided on a goal without them. *)
Theorem stale_goal_save_accepted {port : CryptoServicePort} (deriveKey : list Z -> string -> list Z)
    (i : GoalId) (k : list Z) (h : list Goal.event) (g0 : Goal.t) (cs1 cs2 : list GoalRuns.command) (d : device) :
  let g1 := GoalRuns.run_commands cs1 g0 in
  let g2 := GoalRuns.run_commands cs2 g0 in
  keeps deriveKey i k h d -> reconstitute i h = Ok g0 ->
  can_save g1 d -> can_save g2 d ->
  (forall e1 e2, e1 ∈ uncommitted g1 -> e2 ∈ uncommitted g2 -> event_id_of e1 <> event_id_of e2) ->
  exists d1 d2, save (fun x => x) g1 k d = (Ok (markEventsAsCommitted g1), d1) /\
    save (fun x => x) g2 k d1 = (Ok (markEventsAsCommitted g2), d2) /\
    keeps deriveKey i k (h ++ uncommitted g1 ++ uncommitted g2) d2.
Proof.
  intros g1 g2 Hk Hg0 (Hp1 & Hn1 & Hf1) (Hp2 & Hn2 & Hf2) Hne.
  assert (id g0 = i /\ uncommitted g0 = []) as [Hi Hu].
  { destruct (reload_version _ _ _ Hg0) as [_ ->]. split; [done|]. by rewrite <- (reload_committed _ _ _ Hg0). }
  assert (forall cs, id (GoalRuns.run_commands cs g0) = i) as Hids.
  { intros cs. rewrite <- Hi. apply run_all_reload; [|done].
    apply Forall_map, Forall_true. intros c b. apply GoalRuns.goal_command_emits_one. }
  unfold g1, g2 in *. rewrite Hids in Hp1, Hp2.
  destruct (save_keeps deriveKey i k h d _ Hk (Hids cs1) Hp1 Hn1 Hf1) as (d1 & Hs1 & Hk1 & _ & _ & _ & Hev).
  destruct (save_keeps deriveKey i k _ d1 _ Hk1 (Hids cs2) Hp2 Hn2) as (d2 & Hs2 & Hk2 & _ & _).
  - apply Forall_forall. intros e He. rewrite Forall_forall in Hf2. intros Hin.
    rewrite Hev, elem_of_app in Hin. destruct Hin as [Hin|Hin]; [by apply (Hf2 e)|].
    apply list_elem_of_fmap in Hin as (e1 & E & He1). by apply (Hne e1 e).
  - exists d1, d2. split; [done|]. split; [done|]. by rewrite app_assoc.
Qed.

End GoalRepositoryProperties.

(** ** Witnesses *)

Module GoalRepositoryWitnesses.
Import GoalRepository ApplicationLemmas KeyringLemmas AdapterLemmas RepositoryLemmas GoalRepositoryLemmas
  GoalRepositoryProperties KeyringWitnesses.
#[local] Existing Instance toy_service.

(** A device that has the key of [goal_1]. *)
Definition goal_device : device := (saveAggregateKey id_a dek_1 new_device).2.

Definition created : Goal.t :=
  match Goal.create goal_1 Slice.Health marathon may_2026 Priority.Must alice noon event_1 with
  | Ok g => g
  | Err _ => fresh goal_1
  end.
Definition history_1 : list Goal.event := uncommitted created.
Definition achieve_1 (eid : EventId) : list GoalRuns.command := [GoalRuns.Achieve later alice None None eid].

Lemma toy_usable : usable dek_1.
Proof. intros iv p aad _. by eexists. Qed.

Lemma goal_device_keeps : keeps derive goal_1 dek_1 [] goal_device.
Proof.
  split; [|reflexivity|exact db_ok_empty|exact toy_usable|exact I].
  split; [|split; [done|split; [vm_compute; reflexivity|exact I]]].
  intros n. split; [done|]. apply (bool_decide_unpack _). vm_compute. exact I.
Qed.

Lemma created_can_save : can_save created goal_device.
Proof.
  split; [|split].
  - apply Forall_singleton. repeat split.
  - apply (bool_decide_unpack _). vm_compute. exact I.
  - apply Forall_singleton. apply (bool_decide_unpack _). vm_compute. exact I.
Qed.

Lemma goal_save_load_witness :
  exists d', save (fun x => x) created dek_1 goal_device = (Ok (markEventsAsCommitted created), d') /\
    exists g' d'', load derive goal_1 d' = (Ok (Some g'), d'') /\ goal_equiv (markEventsAsCommitted created) g'.
Proof.
  destruct (goal_save_load derive goal_1 dek_1 [] created goal_device goal_device_keeps) as (d' & H1 & _ & _ & g' & d'' & H2 & H3 & _).
  - split; [reflexivity|]. eexists. split; [reflexivity|done].
  - done.
  - exact created_can_save.
  - exists d'. split; [exact H1|]. by exists g', d''.
Defined.

(** The device once the goal is saved. *)
Definition saved_device : device := (save (fun x => x) created dek_1 goal_device).2.

Lemma saved_device_keeps : keeps derive goal_1 dek_1 history_1 saved_device.
Proof.
  destruct created_can_save as (H1 & H2 & H3).
  destruct (save_keeps derive goal_1 dek_1 [] goal_device created goal_device_keeps eq_refl H1 H2 H3) as (d' & Hs & Hk & _).
  unfold saved_device. by rewrite Hs.
Qed.

Lemma goal_load_replays_witness :
  exists g d', load derive goal_1 saved_device = (Ok (Some g), d') /\ version g = 1%Z.
Proof.
  destruct (goal_load_replays derive goal_1 dek_1 history_1 saved_device saved_device_keeps)
    as (r & d' & H1 & _ & _ & H2 & H3).
  destruct r as [g|]; [|by destruct H2 as [H2 _]; discriminate (H2 eq_refl)].
  exists g, d'. split; [exact H1|]. apply (H3 g eq_refl).
Defined.

Lemma achieved_can_save eid : (value eid = "e2" \/ value eid = "e3") ->
  can_save (GoalRuns.run_commands (achieve_1 eid) (markEventsAsCommitted created)) saved_device.
Proof.
  intros He. split; [|split].
  - apply Forall_singleton. repeat split.
  - apply NoDup_singleton.
  - apply Forall_singleton. assert (event_ids (db saved_device) = ["e1"]) as -> by (vm_compute; reflexivity).
    change (value eid ∉ ["e1"]). destruct He as [-> | ->]; set_solver.
Qed.

(** Two tabs achieve the goal: the log says so twice. *)
Lemma stale_goal_save_accepted_witness :
  exists d1 d2,
    let g1 := GoalRuns.run_commands (achieve_1 event_2) (markEventsAsCommitted created) in
    let g2 := GoalRuns.run_commands (achieve_1 event_3) (markEventsAsCommitted created) in
    save (fun x => x) g1 dek_1 saved_device = (Ok (markEventsAsCommitted g1), d1) /\
    save (fun x => x) g2 dek_1 d1 = (Ok (markEventsAsCommitted g2), d2) /\
    map (fun e => Goal.type_of (payload e)) (history_1 ++ uncommitted g1 ++ uncommitted g2) =
      ["GoalCreated"; "GoalAchieved"; "GoalAchieved"].
Proof.
  destruct (stale_goal_save_accepted derive goal_1 dek_1 history_1 (markEventsAsCommitted created)
    (achieve_1 event_2) (achieve_1 event_3) saved_device saved_device_keeps eq_refl) as (d1 & d2 & H1 & H2 & _).
  - apply achieved_can_save. by left.
  - apply achieved_can_save. by right.
  - intros e1 e2 ->%list_elem_of_singleton ->%list_elem_of_singleton. done.
  - exists d1, d2. split; [exact H1|]. split; [exact H2|reflexivity].
Defined.

End GoalRepositoryWitnesses.
