(* ===== verification/ProjectRepository.v ===== *)
(** * The repository of projects

    [packages/infrastructure/src/projects/ProjectRepository.ts]: the common
    [load] and [save] ([Repository]); every save also stores a snapshot of the
    project, and a snapshot that does not open or does not decode is deleted.
    The theorems: a save followed by a load gives the project back exactly; a
    corrupt snapshot is recovered from; and what happens when the saved object
    was loaded before another save. *)

From S2P Require Import Prelude JsValues RecordCodec ValueObjects Dates EventCodec Project Crypto LocalDb.
From S2P Require Import EventStore Samples Application Keyring EventAdapters Snapshots AggregateRoot.
From S2P Require Import Repository.

#[export] Existing Instance Project.project_sourced.

#[export] Instance project_stored : StoredAggregate ProjectId Project.fields_t Project.event := {|
  idValue := value;
  aggregateType := "project";
  class_name := "Project";
  inject := ProjectEvent;
  own e := match e with ProjectEvent e => Some e | GoalEvent _ => None end;
  restamp v e := Event (payload e) (AdapterLemmas.at_version v (meta e));
  own_stored v e := eq_refl;
  on_restamp v e s := eq_refl
|}.

Module ProjectRepository.
Section Repo.
Context {port : CryptoServicePort}.
Variable deriveKey : list Z -> string -> list Z.

(** The loaded snapshot is given as the project it restores. *)
Definition restore (s : Project.ProjectSnapshot) : Project.t := Project.hydrateFromSnapshot s (fresh (Project.s_id s)).

(** The error the platform's decryption throws has the name [OperationError]. *)
Definition isCryptoOperationError (e : error) : bool := bool_decide (e = PlainError "OperationError").

Definition purgeCorruptSnapshot (i : string) : app unit :=
  modify (fun d => set_db (delete_snapshots "project" i (db d)) d).

Definition loadSnapshot (i : string) (k : list Z) : app (option Project.t) :=
  record ← gets (fun d => get_snapshot "project" i (db d));
  match record with
  | None => mret None
  | Some r =>
      let aad := buildSnapshotAad i (snapshot_version r) in
      match decrypt (snapshot_encrypted r) k (Some aad) with
      | Err e =>
          if isCryptoOperationError e then _ ← purgeCorruptSnapshot i; mret None
          else throw (Infra (JsError e))
      | Ok plaintext =>
          match ProjectSnapshotCodec.decodeProjectSnapshotDomain plaintext (snapshot_version r) with
          | Ok s => mret (Some (restore s))
          | Err _ => _ ← purgeCorruptSnapshot i; mret None
          end
      end
  end.

Definition load : ProjectId -> app (option Project.t) := Repository.load deriveKey loadSnapshot.

(** The payload of the snapshot, read off the project through its getters. *)
Definition snapshot_payload (p : Project.t) : result error ProjectSnapshotCodec.ProjectSnapshotState :=
  let s := state p in
  n ← defined (Project.name s) "Project name";
  st ← defined (Project.status s) "Project status";
  sd ← defined (Project.startDate s) "Project startDate";
  td ← defined (Project.targetDate s) "Project targetDate";
  de ← defined (Project.description s) "Project description";
  cb ← defined (Project.createdBy s) "Project createdBy";
  ca ← defined (Project.createdAt s) "Project createdAt";
  ua ← defined (Project.updatedAt s) "Project updatedAt";
  Ok (ProjectSnapshotCodec.ProjectSnap (value (id p)) (value n) (ProjectStatus.val st) (value sd) (value td) (value de)
    (value <$> Project.goalId s) (map ProjectSnapshotCodec.milestone_state (Project.milestones s)) (value cb)
    (Timestamp.millis ca) (Timestamp.millis ua) (Timestamp.millis <$> Project.archivedAt s) (Some (num (version p)))).

Definition persistSnapshot (p : Project.t) (encryptionKey : list Z) : app unit :=
  let snapshotVersion := version p in
  let i := value (id p) in
  payload ← lift_result (lift_error (snapshot_payload p));
  cipher ← encrypt_fresh (ProjectSnapshotCodec.encodeProjectSnapshotState payload) encryptionKey
    (Some (buildSnapshotAad i snapshotVersion));
  modify (fun d => set_db (put_snapshot
    (SnapshotCols "project" i snapshotVersion cipher 0 0 (to_Z (ProjectSnapshotCodec.ps_updatedAt payload))) (db d)) d).

Definition save (others : local_db -> local_db) : Project.t -> list Z -> app Project.t :=
  Repository.save loadSnapshot others persistSnapshot.

(** Archiving a project is an event; the repository has nothing to do. *)
Definition archive (i : ProjectId) (archivedAt : Timestamp.t) (actor : UserId) : app unit := skip.

End Repo.
End ProjectRepository.

(** ** Lemmas *)

Module ProjectRepositoryLemmas.
Import ProjectRepository ApplicationLemmas KeyringLemmas AdapterLemmas EventStoreLemmas RepositoryLemmas SnapshotLemmas.
Section Lemmas.
Context {port : CryptoServicePort}.
Variable deriveKey : list Z -> string -> list Z.

(** The snapshot row opens to the snapshot [s]. *)
Definition snapshot_opens (i : ProjectId) (k : list Z) (r : SnapshotRow) (s : Project.ProjectSnapshot) : Prop :=
  project_snapshot_plain s /\ snapshot_version r = Project.s_version s /\
  decrypt (snapshot_encrypted r) k (Some (buildSnapshotAad (value i) (snapshot_version r))) =
    Ok (ProjectSnapshotCodec.encodeProjectSnapshotState (ProjectSnapshotCodec.state_of s)).

(** The snapshot row of the project, if there is one, opens to a snapshot of a
    version of the history. *)
Definition snapshot_in_range (i : ProjectId) (k : list Z) (h : list Project.event) (x : local_db) : Prop :=
  match get_snapshot "project" (value i) x with
  | None => True
  | Some r => exists s, snapshot_opens i k r s /\ (0 <= Project.s_version s <= Z.of_nat (length h))%Z
  end.

(** The device keeps the project [i], whose key is [k] and whose history is
    [h]; what its snapshot says is not part of this. *)
Record holds (i : ProjectId) (k : list Z) (h : list Project.event) (d : device) : Prop := {
  holds_key : key_is deriveKey (value i) k d;
  holds_history : history (value i) k h (db d);
  holds_db : db_ok (db d);
  holds_usable : usable k;
  holds_snapshot : snapshot_in_range i k h (db d)
}.

Lemma loadSnapshot_opens (i : ProjectId) k d r s :
  get_snapshot "project" (value i) (db d) = Some r -> snapshot_opens i k r s ->
  loadSnapshot (value i) k d = (Ok (Some (restore s)), d).
Proof.
  intros Hr (Hp & Hv & Hd). unfold loadSnapshot.
  rewrite (js_bind_run_ok _ _ _ _ _ (eq_refl : gets (fun d => get_snapshot "project" (value i) (db d)) d = _)).
  rewrite Hr. cbv zeta. rewrite Hd, project_snapshot_decodes by done. rewrite Hv. by destruct s.
Qed.

Lemma loadSnapshot_none (i : ProjectId) k d :
  get_snapshot "project" (value i) (db d) = None -> loadSnapshot (value i) k d = (Ok None, d).
Proof.
  intros Hr. unfold loadSnapshot.
  rewrite (js_bind_run_ok _ _ _ _ _ (eq_refl : gets (fun d => get_snapshot "project" (value i) (db d)) d = _)).
  by rewrite Hr.
Qed.

Lemma loadSnapshot_holds i k h d : holds i k h d -> exists snap, loadSnapshot (value i) k d = (Ok snap, d) /\
  match snap with Some p => (0 <= version p <= Z.of_nat (length h))%Z | None => True end.
Proof.
  intros [_ _ _ _ Hs]. unfold snapshot_in_range in Hs.
  destruct (get_snapshot "project" (value i) (db d)) as [r|] eqn:E.
  - destruct Hs as (s & Ho & Hv). exists (Some (restore s)). split; [by eapply loadSnapshot_opens|exact Hv].
  - exists None. split; [by apply loadSnapshot_none|done].
Qed.

(** [persistSnapshot] writes the snapshot of the object it is given. *)
Lemma snapshot_payload_of (p : Project.t) s : ProjectProperties.snapshot_of p = Some s ->
  snapshot_payload p = Ok (ProjectSnapshotCodec.state_of s) /\ Project.s_id s = id p /\
  Project.s_version s = version p /\ restore s = markEventsAsCommitted p.
Proof.
  unfold ProjectProperties.snapshot_of, snapshot_payload. destruct p as [i [? ? ? ? ? ? ? ? ? ? ?] un v]. simpl.
  unfold mbind, option_bind, result_bind. intros H. repeat case_match; simplify_eq/=. done.
Qed.

Lemma set_snapshots_ok l x : db_ok x -> db_ok (set_snapshots l x).
Proof. by intros []. Qed.

Lemma set_snapshots_preserves l x : preserves x (set_snapshots l x).
Proof. destruct (preserves_refl x) as [H1 H2]. by split. Qed.

Lemma persistSnapshot_run (p : Project.t) k s d :
  entropy_ok d -> usable k -> ProjectProperties.snapshot_of p = Some s -> project_snapshot_plain s ->
  exists r n, persistSnapshot p k d = (Ok tt, set_db (put_snapshot r (db d)) (drawn n d)) /\
    s_aggregate_type r = "project" /\ s_aggregate_id r = value (id p) /\ snapshot_opens (id p) k r s.
Proof.
  intros He Hu Hs Hp. destruct (snapshot_payload_of p s Hs) as (Hpay & Hi & Hv & _).
  destruct (Hu (ivs d 0) (ProjectSnapshotCodec.encodeProjectSnapshotState (ProjectSnapshotCodec.state_of s))
    (Some (buildSnapshotAad (value (id p)) (version p))) (proj1 (He 0))) as [c Hc].
  unfold persistSnapshot, lift_result, mbind, js_bind. rewrite Hpay. cbn [lift_error]. rewrite encrypt_fresh_run, Hc.
  eexists _, 1. split; [reflexivity|]. split; [done|]. split; [done|]. split; [done|].
  cbn [snapshot_version snapshot_encrypted]. rewrite Hv. split; [done|].
  eapply decrypt_encrypt; [apply He| |exact Hc]. intros E.
  pose proof (project_snapshot_decodes s 0 Hp) as Hdec. rewrite E in Hdec. done.
Qed.

(** What [save] does to a device that holds the project. *)
Lemma save_holds i k h d (p : Project.t) s : holds i k h d -> id p = i ->
  uncommitted p <> [] -> Forall (pending_of (value i)) (uncommitted p) -> NoDup (map event_id_of (uncommitted p)) ->
  Forall (fun e => event_id_of e ∉ event_ids (db d)) (uncommitted p) ->
  ProjectProperties.snapshot_of p = Some s -> project_snapshot_plain s ->
  (0 <= version p <= Z.of_nat (length (h ++ uncommitted p)))%Z ->
  exists d' r, save (fun x => x) p k d = (Ok (markEventsAsCommitted p), d') /\
    holds i k (h ++ uncommitted p) d' /\ preserves (db d) (db d') /\
    idempotency_keys d' = idempotency_keys d /\ masterKey d' = masterKey d /\
    event_ids (db d') = event_ids (db d) ++ map event_id_of (uncommitted p) /\
    get_snapshot "project" (value i) (db d') = Some r /\ snapshot_opens i k r s.
Proof.
  intros Hk Hi Hne Hp Hnd Hfr Hs Hpl Hv. pose proof Hk as [Hkey Hh Hok Hu Hsn].
  destruct (loadSnapshot_holds i k h d Hk) as (snap & Hl & Hsv). subst i.
  destruct (save_spec (stored := project_stored) deriveKey eq_refl loadSnapshot persistSnapshot p k h d snap d Hl Hkey
    Hh Hok Hu ltac:(destruct snap; [apply Hsv|done]) Hne Hp Hnd Hfr)
    as (d2 & Hk2 & Hh2 & Hok2 & Hs2 & Hmap & Hpre & Hid & Hmk & Hev & Hrun).
  destruct (persistSnapshot_run p k s d2 (proj1 Hk2) Hu Hs Hpl) as (r & n & Hper & Hty & Hri & Hopen).
  rewrite Hper in Hrun.
  assert (get_snapshot "project" (value (id p)) (put_snapshot r (db d2)) = Some r) as Hget
    by (rewrite <- Hty, <- Hri; apply get_put_snapshot).
  destruct (snapshot_payload_of p s Hs) as (_ & _ & Hsv' & _).
  exists (set_db (put_snapshot r (db d2)) (drawn n d2)), r. split; [exact Hrun|]. split.
  { split; [by apply key_is_set_db, key_is_drawn|done|by apply set_snapshots_ok|done|].
    unfold snapshot_in_range. simpl. rewrite Hget. exists s. split; [done|]. by rewrite Hsv'. }
  split; [eapply preserves_trans; [exact Hpre|apply set_snapshots_preserves]|].
  repeat split; done || by apply Hopen.
Qed.

End Lemmas.
End ProjectRepositoryLemmas.

(** ** Properties *)

Module ProjectRepositoryProperties.
Import ProjectRepository ApplicationLemmas KeyringLemmas AdapterLemmas RepositoryLemmas SnapshotLemmas
  ProjectRepositoryLemmas.

(** The project's pending events and its snapshot can be stored: dates are
    whole milliseconds, the event ids are new, every field is defined and the
    creator's name has no white space around it. *)
Definition can_save (p : Project.t) (d : device) : Prop :=
  uncommitted p <> [] /\ Forall (pending_of (value (id p))) (uncommitted p) /\
  NoDup (map event_id_of (uncommitted p)) /\
  Forall (fun e => event_id_of e ∉ event_ids (db d)) (uncommitted p) /\
  exists s, ProjectProperties.snapshot_of p = Some s /\ project_snapshot_plain s.

(** Loading when the stored snapshot opens: the later events are replayed on it. *)
Lemma load_from_snapshot {port : CryptoServicePort} deriveKey (i : ProjectId) k h d r s :
  holds deriveKey i k h d -> get_snapshot "project" (value i) (db d) = Some r -> snapshot_opens i k r s ->
  (0 <= Project.s_version s <= Z.of_nat (length h))%Z ->
  exists d', load deriveKey i d =
    (Some <$> lift_error (reload (restore s) (drop (Z.to_nat (Project.s_version s)) h)), d') /\ same_tables d d'.
Proof.
  intros [Hkey Hh _ _ _] Hr Ho Hv. pose proof (loadSnapshot_opens i k d r s Hr Ho) as Hl.
  destruct (load_spec (stored := project_stored) deriveKey loadSnapshot i k h d (Some (restore s)) d Hkey Hl Hh Hkey Hv)
    as (d' & Hd' & Ht & _).
  by exists d'.
Qed.

(** Saving a project that is the replay of the stored history and of its pending events
    succeeds, appends those events after everything already stored, and what is loaded
    afterwards (through the snapshot the save has written) is exactly the project saved. *)
Theorem project_save_load {port : CryptoServicePort} (deriveKey : list Z -> string -> list Z)
    (k : list Z) (h : list Project.event) (p : Project.t) (d : device) :
  holds deriveKey (id p) k h d -> replays h p -> can_save p d ->
  exists d' d'', save (fun x => x) p k d = (Ok (markEventsAsCommitted p), d') /\
    holds deriveKey (id p) k (h ++ uncommitted p) d' /\ preserves (db d) (db d') /\
    load deriveKey (id p) d' = (Ok (Some (markEventsAsCommitted p)), d'') /\ same_tables d' d''.
Proof.
  intros Hk Hr (Hne & Hp & Hnd & Hfr & s & Hs & Hpl). unfold replays in Hr.
  destruct (reload_version _ _ _ Hr) as [Hver _]. simpl in Hver.
  destruct (save_holds deriveKey (id p) k h d p s Hk eq_refl Hne Hp Hnd Hfr Hs Hpl ltac:(lia))
    as (d' & r & Hsave & Hk' & Hpre & _ & _ & _ & Hget & Hopen).
  destruct (snapshot_payload_of p s Hs) as (_ & _ & Hsv & Hres).
  destruct (load_from_snapshot deriveKey (id p) k _ d' r s Hk' Hget Hopen ltac:(lia)) as (d'' & Hload & Ht).
  exists d', d''. do 3 (split; [done|]). split; [|done]. rewrite Hload.
  replace (Z.to_nat (Project.s_version s)) with (length (h ++ uncommitted p)) by lia. by rewrite drop_all, Hres.
Qed.

Lemma get_deleted ty i x : get_snapshot ty i (delete_snapshots ty i x) = None.
Proof.
  unfold get_snapshot, delete_snapshots. simpl. induction (snapshots x) as [|r l IH]; [done|].
  rewrite filter_cons. destruct (decide _) as [H|H]; [|done]. simpl.
  unfold snapshot_of_aggregate at 1. apply negb_true_iff in H. by rewrite H.
Qed.

(** A bad snapshot never blocks a project: when the stored snapshot does not open or
    its content does not decode, loading deletes it and rebuilds the project from its whole
    history, without touching an event. Any other failure to open it (a key of the wrong
    length, say) is reported, and nothing is deleted. *)
Theorem corrupt_snapshot_recovered {port : CryptoServicePort} (deriveKey : list Z -> string -> list Z)
    (i : ProjectId) (k : list Z) (h : list Project.event) (d : device) (r : SnapshotRow) :
  key_is deriveKey (value i) k d -> history (value i) k h (db d) -> h <> [] ->
  get_snapshot "project" (value i) (db d) = Some r ->
  let opened := decrypt (snapshot_encrypted r) k (Some (buildSnapshotAad (value i) (snapshot_version r))) in
  let recovers := exists d', load deriveKey i d = (Some <$> lift_error (reconstitute i h), d') /\
    get_snapshot "project" (value i) (db d') = None /\ events (db d') = events (db d) in
  match opened with
  | Err e => if isCryptoOperationError e then recovers else load deriveKey i d = (Err (Infra (JsError e)), d)
  | Ok plaintext =>
      match ProjectSnapshotCodec.decodeProjectSnapshotDomain plaintext (snapshot_version r) with
      | Err _ => recovers
      | Ok _ => True
      end
  end.
Proof.
  intros Hkey Hh Hne Hr opened recovers.
  set (d1 := set_db (delete_snapshots "project" (value i) (db d)) d).
  assert (loadSnapshot (value i) k d = (Ok None, d1) -> recovers) as Hgo.
  { intros Hl. destruct (load_spec (stored := project_stored) deriveKey loadSnapshot i k h d None d1 Hkey Hl Hh Hkey I)
      as (d' & Hd' & (Hdb & _) & _). exists d'. split; [|split].
    - unfold load. rewrite Hd'. by destruct h.
    - rewrite Hdb. apply get_deleted.
    - by rewrite Hdb. }
  assert (loadSnapshot (value i) k d = match opened with
    | Err e => if isCryptoOperationError e then (Ok None, d1) else (Err (Infra (JsError e)), d)
    | Ok plaintext => match ProjectSnapshotCodec.decodeProjectSnapshotDomain plaintext (snapshot_version r) with
        | Err _ => (Ok None, d1) | Ok s => (Ok (Some (restore s)), d) end
    end) as Hl.
  { unfold loadSnapshot.
    rewrite (js_bind_run_ok _ _ _ _ _ (eq_refl : gets (fun d => get_snapshot "project" (value i) (db d)) d = _)).
    rewrite Hr. cbv zeta. fold opened. destruct opened as [pt|e]; [|by destruct (isCryptoOperationError e)].
    by destruct (ProjectSnapshotCodec.decodeProjectSnapshotDomain pt _). }
  destruct opened as [pt|e].
  - destruct (ProjectSnapshotCodec.decodeProjectSnapshotDomain pt _); [done|]. by apply Hgo.
  - destruct (isCryptoOperationError e); [by apply Hgo|]. unfold load, Repository.load.
    unfold getAggregateKey, reads. unfold mbind at 1, js_bind at 1.
    change (idValue i) with (value i).
    rewrite (proj1 (proj2 (proj2 Hkey))). unfold mbind at 1, js_bind at 1. by rewrite Hl.
Qed.

(** Two saves of a project from the same loaded state corrupt it: each save succeeds,
    but the snapshot of the second carries the second object's version, which does not count
    the first one's events. The project loaded afterwards has the second object's fields
    with its own events replayed a second time, and the first one's events (as many as the
    second's) never reach it. *)
Theorem stale_project_save_corrupts {port : CryptoServicePort} (deriveKey : list Z -> string -> list Z)
    (i : ProjectId) (k : list Z) (h : list Project.event) (p0 : Project.t)
    (cs1 cs2 : list ProjectRuns.command) (d : device) :
  let p1 := ProjectRuns.run_commands cs1 p0 in
  let p2 := ProjectRuns.run_commands cs2 p0 in
  holds deriveKey i k h d -> reconstitute i h = Ok p0 -> can_save p1 d -> can_save p2 d ->
  (forall e1 e2, e1 ∈ uncommitted p1 -> e2 ∈ uncommitted p2 -> event_id_of e1 <> event_id_of e2) ->
  length (uncommitted p1) = length (uncommitted p2) ->
  exists d1 d2 d3, save (fun x => x) p1 k d = (Ok (markEventsAsCommitted p1), d1) /\
    save (fun x => x) p2 k d1 = (Ok (markEventsAsCommitted p2), d2) /\
    history (value i) k (h ++ uncommitted p1 ++ uncommitted p2) (db d2) /\
    load deriveKey i d2 = (Some <$> lift_error (reload (markEventsAsCommitted p2) (uncommitted p2)), d3).
Proof.
  intros p1 p2 Hk Hp0 (He1 & Hp1 & Hn1 & Hf1 & s1 & Hs1 & Hpl1) (He2 & Hp2 & Hn2 & Hf2 & s2 & Hs2 & Hpl2) Hdis Hlen.
  assert (forall cs, id (ProjectRuns.run_commands cs p0) = i /\ version (ProjectRuns.run_commands cs p0) =
    Z.of_nat (length h + length (uncommitted (ProjectRuns.run_commands cs p0)))) as Hrun.
  { intros cs. destruct (run_all_reload (map ProjectRuns.run_command cs) p0) as [Hi Hr].
    - apply Forall_map, Forall_true. intros c b. apply ProjectRuns.project_command_emits_one.
    - by rewrite <- (reload_committed _ _ _ Hp0).
    - destruct (reload_version _ _ _ Hp0) as [Hv0 Hi0]. destruct (reload_version _ _ _ Hr) as [Hv Hi'].
      change (run_all (map ProjectRuns.run_command cs) p0) with (ProjectRuns.run_commands cs p0) in *.
      simpl in *. split; [by rewrite Hi, Hi0|]. lia. }
  destruct (Hrun cs1) as [Hi1 Hv1]. destruct (Hrun cs2) as [Hi2 Hv2]. fold p1 in Hi1, Hv1. fold p2 in Hi2, Hv2.
  rewrite Hi1 in Hp1. rewrite Hi2 in Hp2.
  destruct (save_holds deriveKey i k h d p1 s1 Hk Hi1 He1 Hp1 Hn1 Hf1 Hs1 Hpl1) as (d1 & r1 & Hsv1 & Hk1 & _ & _ & _ & Hev & _);
    [rewrite length_app; lia|].
  destruct (save_holds deriveKey i k _ d1 p2 s2 Hk1 Hi2 He2 Hp2 Hn2) as (d2 & r2 & Hsv2 & Hk2 & _ & _ & _ & _ & Hget & Hopen); try done.
  - apply Forall_forall. intros e He. rewrite Forall_forall in Hf2. rewrite Hev, elem_of_app. intros [Hin|Hin].
    + by apply (Hf2 e).
    + apply list_elem_of_fmap in Hin as (e1 & E & Hin). by apply (Hdis e1 e).
  - rewrite !length_app. lia.
  - destruct (snapshot_payload_of p2 s2 Hs2) as (_ & _ & Hsver & Hres).
    destruct (load_from_snapshot deriveKey i k _ d2 r2 s2 Hk2 Hget Hopen) as (d3 & Hload & _).
    { rewrite Hsver, !length_app. lia. }
    exists d1, d2, d3. split; [done|]. split; [done|]. split; [rewrite app_assoc; apply Hk2|].
    rewrite Hload, Hres. replace (Z.to_nat (Project.s_version s2)) with (length (h ++ uncommitted p1))
      by (rewrite Hsver, length_app; lia). by rewrite drop_app_length.
Qed.

End ProjectRepositoryProperties.

(** ** Witnesses *)

Module ProjectRepositoryWitnesses.
Import ProjectRepository ApplicationLemmas KeyringLemmas AdapterLemmas RepositoryLemmas ProjectRepositoryLemmas
  ProjectRepositoryProperties KeyringWitnesses.
#[local] Existing Instance toy_service.

(** A device that has the key of [project_1]. *)
Definition project_device : device := (saveAggregateKey id_a dek_1 new_device).2.

Definition created : Project.t :=
  match Project.create project_1 kitchen ProjectStatus.Planned jan_1 mar_1 no_text None alice noon event_1 with
  | Ok p => p
  | Err _ => fresh project_1
  end.
Definition history_1 : list Project.event := uncommitted created.

Lemma toy_usable_project : usable dek_1.
Proof. intros iv p aad _. by eexists. Qed.

Lemma project_device_holds : holds derive project_1 dek_1 [] project_device.
Proof.
  split; [|reflexivity|exact db_ok_empty|exact toy_usable_project|exact I].
  split; [|split; [done|split; [vm_compute; reflexivity|exact I]]].
  intros n. split; [done|]. apply (bool_decide_unpack _). vm_compute. exact I.
Qed.

Lemma created_project_can_save : can_save created project_device.
Proof.
  split; [done|]. split; [apply Forall_singleton; repeat split|].
  split; [apply NoDup_singleton|]. split; [apply Forall_singleton; set_solver|].
  eexists. split; [reflexivity|]. repeat split.
Qed.

Lemma project_save_load_witness :
  exists d' d'', save (fun x => x) created dek_1 project_device = (Ok (markEventsAsCommitted created), d') /\
    load derive project_1 d' = (Ok (Some (markEventsAsCommitted created)), d'').
Proof.
  destruct (project_save_load derive dek_1 [] created project_device project_device_holds eq_refl created_project_can_save)
    as (d' & d'' & H1 & _ & _ & H2 & _).
  exists d', d''. split; [exact H1|exact H2].
Defined.

(** The device once the project is saved. *)
Definition saved_project_device : device := (save (fun x => x) created dek_1 project_device).2.

Lemma saved_project_device_holds : holds derive project_1 dek_1 history_1 saved_project_device.
Proof.
  destruct created_project_can_save as (H0 & H1 & H2 & H3 & s & H4 & H5).
  destruct (save_holds derive project_1 dek_1 [] project_device created s project_device_holds eq_refl H0 H1 H2 H3 H4 H5)
    as (d' & r & Hs & Hk & _); [done|].
  unfold saved_project_device. by rewrite Hs.
Qed.

(** The stored snapshot overwritten with bytes that do not open. *)
Definition broken_row : SnapshotRow := SnapshotCols "project" id_a 1 (replicate 40 1%Z) 0 0 0.
Definition broken_device : device := set_db (put_snapshot broken_row (db saved_project_device)) saved_project_device.

Lemma corrupt_snapshot_recovered_witness :
  exists d', load derive project_1 broken_device = (Ok (Some (markEventsAsCommitted created)), d') /\
    get_snapshot "project" id_a (db d') = None.
Proof.
  destruct saved_project_device_holds as [Hkey Hh _ _ _].
  apply (key_is_set_db derive _ _ (put_snapshot broken_row (db saved_project_device))) in Hkey.
  fold broken_device in Hkey.
  assert (history (value project_1) dek_1 history_1 (db broken_device)) as Hh' by exact Hh. clear Hh.
  destruct (corrupt_snapshot_recovered derive project_1 dek_1 history_1 broken_device broken_row Hkey Hh') as (d' & H1 & H2 & _).
  - done.
  - vm_compute. reflexivity.
  - exists d'. split; [exact H1|exact H2].
Defined.

(** One tab renames the project, the other starts it. *)
Definition rename_it : list ProjectRuns.command := [ProjectRuns.ChangeName bathroom later alice event_2].
Definition start_it : list ProjectRuns.command := [ProjectRuns.ChangeStatus ProjectStatus.InProgress later alice event_3].

Lemma edited_can_save cs eid : (cs = rename_it /\ eid = "e2") \/ (cs = start_it /\ eid = "e3") ->
  can_save (ProjectRuns.run_commands cs (markEventsAsCommitted created)) saved_project_device.
Proof.
  assert (event_ids (db saved_project_device) = ["e1"]) as He by (vm_compute; reflexivity).
  intros [[-> ->]|[-> ->]].
  - split; [done|]. split; [apply Forall_singleton; repeat split|]. split; [apply NoDup_singleton|].
    split; [apply Forall_singleton; rewrite He; change ("e2" ∉ ["e1"]); set_solver|].
    eexists. split; [reflexivity|]. repeat split.
  - split; [done|]. split; [apply Forall_singleton; repeat split|]. split; [apply NoDup_singleton|].
    split; [apply Forall_singleton; rewrite He; change ("e3" ∉ ["e1"]); set_solver|].
    eexists. split; [reflexivity|]. repeat split.
Qed.

(** The rename is stored, and never seen. *)
Lemma stale_project_save_corrupts_witness :
  exists d1 d2 d3 p,
    let p1 := ProjectRuns.run_commands rename_it (markEventsAsCommitted created) in
    let p2 := ProjectRuns.run_commands start_it (markEventsAsCommitted created) in
    save (fun x => x) p1 dek_1 saved_project_device = (Ok (markEventsAsCommitted p1), d1) /\
    save (fun x => x) p2 dek_1 d1 = (Ok (markEventsAsCommitted p2), d2) /\
    load derive project_1 d2 = (Ok (Some p), d3) /\ Project.name (state p) = Some kitchen.
Proof.
  destruct (stale_project_save_corrupts derive project_1 dek_1 history_1 (markEventsAsCommitted created)
    rename_it start_it saved_project_device saved_project_device_holds eq_refl) as (d1 & d2 & d3 & H1 & H2 & _ & H3).
  - apply (edited_can_save _ "e2"). by left.
  - apply (edited_can_save _ "e3"). by right.
  - intros e1 e2 ->%list_elem_of_singleton ->%list_elem_of_singleton. done.
  - reflexivity.
  - eexists d1, d2, d3, _. split; [exact H1|]. split; [exact H2|]. split; [exact H3|]. reflexivity.
Defined.

End ProjectRepositoryWitnesses.
