(* ===== verification/CommandHandler.v ===== *)
(** * What the command handlers share

    [packages/application/src/goals/GoalCommandHandler.ts] and
    [projects/ProjectCommandHandler.ts] repeat, once per command, the same
    steps: refuse or absorb a repeated command, load, check the known version,
    run the aggregate's command, save, record the idempotency key.  They are
    modelled once here, over the class [RepositoryPort] (the two
    [...RepositoryPort.ts] interfaces); the handlers of each class
    ([GoalCommands], [ProjectCommands]) parse their fields and call them.

    [RepositoryLaws] is what the handlers rely on: the repository keeps one
    append-only history per aggregate.  The outcome of every branch is proved
    against it, and the two repositories implement it. *)

From S2P Require Import Prelude JsValues ValueObjects Dates Crypto LocalDb EventStore Application Keyring.
From S2P Require Import Snapshots AggregateRoot Repository.

Class RepositoryPort (Id S E : Type) : Type := {
  repo_load : Id -> app (option (aggregate Id S E));
  (** the object comes back with its events marked as committed *)
  repo_save : aggregate Id S E -> list Z -> app (aggregate Id S E)
}.

(** [{goalId, encryptionKey?}] *)
Record CommandResult : Type := Handled {
  r_id : string;
  encryptionKey : option (list Z)
}.

(** Close [x = v] by evaluating [x], without unifying the two first. *)
Ltac evaluate := match goal with |- ?x = _ => vm_cast_no_check (eq_refl x) end.

(** ** The fields every later command ends with *)

Definition common_fields {P} (timestamp knownVersion : P -> number) :
    spec (command P) (UserId * (Timestamp.t * (number * (string * unit)))) :=
  S_cons (T := UserId) "actorId" (fun c => vo_new (cm_actorId (metadata c)))
  (S_cons "timestamp" (fun c => parseTimestamp (timestamp (body c)))
  (S_cons "knownVersion" (fun c => parseKnownVersion (knownVersion (body c)))
  (S_cons "idempotencyKey" (fun c => parseIdempotencyKey (cm_idempotencyKey (metadata c))) S_nil))).

(** ** The steps *)

Section Handler.
Context {port : CryptoServicePort} {Id S E : Type} {sourced : EventSourced S E}
  {stored : StoredAggregate Id S E} {repo : RepositoryPort Id S E}.
Notation agg := (aggregate Id S E).

Definition not_found (i : string) : app_error := NotFoundError (class_name +:+ " " +:+ i +:+ " not found").
Definition key_not_found (i : string) : app_error := NotFoundError ("Aggregate key for " +:+ i +:+ " not found").

Definition isDuplicateCommand (key ty i : string) : app bool :=
  existing ← get_record key;
  match existing with
  | None => mret false
  | Some r => _ ← lift_result (assertIdempotencyRecord r ty i); mret true
  end.

Definition loadAggregate (i : Id) : app agg :=
  loaded ← repo_load i;
  match loaded with
  | None => throw (not_found (idValue i))
  | Some a => mret a
  end.

Definition persist (a : agg) (key ty : string) (at_ : Timestamp.t) : app CommandResult :=
  existing ← getAggregateKey (idValue (id a));
  match existing with
  | None => throw (key_not_found (idValue (id a)))
  | Some k =>
      _ ← repo_save a k;
      _ ← record_command (IdemRecord key ty (idValue (id a)) (Timestamp.millis at_));
      mret (Handled (idValue (id a)) None)
  end.

(** A command on an existing aggregate: [op] is the aggregate's method. *)
Definition update (ty : string) (i : Id) (knownVersion : number) (key : string) (at_ : Timestamp.t)
    (op : js agg error unit) : app CommandResult :=
  duplicate ← isDuplicateCommand key ty (idValue i);
  if duplicate : bool then mret (Handled (idValue i) None)
  else
    a ← loadAggregate i;
    _ ← lift_result (assertKnownVersion (version a) knownVersion class_name (idValue (id a)));
    let '(r, a') := op a in
    _ ← lift_result (lift_error r);
    persist a' key ty at_.

(** A command that creates the aggregate [mk] evaluates to. *)
Definition create (ty : string) (i : Id) (key : string) (at_ : Timestamp.t) (mk : result error agg) :
    app CommandResult :=
  duplicate ← isDuplicateCommand key ty (idValue i);
  if duplicate : bool then
    existingKey ← getAggregateKey (idValue i);
    match existingKey with
    | None => throw (key_not_found (idValue i))
    | Some k => mret (Handled (idValue i) (Some k))
    end
  else
    existingKey ← getAggregateKey (idValue i);
    existing ← match existingKey with Some _ => repo_load i | None => mret None end;
    match existing with
    | Some _ => mret (Handled (idValue i) existingKey)
    | None =>
        k ← match existingKey with Some k => mret k | None => generateKey end;
        a ← lift_result (lift_error mk);
        _ ← match existingKey with Some _ => skip | None => saveAggregateKey (idValue (id a)) k end;
        _ ← repo_save a k;
        _ ← record_command (IdemRecord key ty (idValue i) (Timestamp.millis at_));
        mret (Handled (idValue (id a)) (Some k))
    end.

End Handler.

(** [{ok: true, value} | {ok: false, errors}], as the command bus answers:
    [toGoalFailure], [toProjectFailure]. *)
Definition bus_result (r : result app_error CommandResult) : result (list ValidationError) CommandResult :=
  match r with
  | Ok v => Ok v
  | Err (ValidationException details) => Err details
  | Err e => Err [FieldError "application" (app_message e)]
  end.

(** [wrapGoal], [wrapProject] *)
Definition wrap (m : app CommandResult) : js device (list ValidationError) CommandResult := fun d =>
  let '(r, d') := m d in (bus_result r, d').

(** ** What a command asks for

    The creation of an aggregate, or a method of it on a known version: the
    theorems describe a handler by the plan its command parses to. *)

Section Plans.
Context {Id Op A : Type}.

Inductive plan : Type :=
| Creates (i : Id) (key : string) (at_ : Timestamp.t) (created : result error A)
| Updates (ty : string) (i : Id) (known : number) (key : string) (at_ : Timestamp.t) (op : Op).

Definition planned {P T} (c : command P) (fields : spec (command P) T) (f : T -> result error plan) :
    result app_error plan :=
  p ← parseCommand c fields;
  lift_error (f p).

Lemma planned_spec {P T} (c : command P) (fields : spec (command P) T) (f : T -> result error plan) :
  match planned c fields f with
  | Ok p => ApplicationLemmas.field_errors fields c = [] /\ exists x, f x = Ok p
  | Err e =>
      match ApplicationLemmas.field_errors fields c with
      | [] => exists err, e = Infra (JsError err)
      | errors => e = ValidationException errors
      end
  end.
Proof.
  unfold planned. pose proof (ApplicationLemmas.parseCommand_spec fields c) as Hs.
  destruct (parseCommand c fields) as [x|e]; simpl.
  - rewrite Hs. destruct (f x) as [p|err] eqn:Ef; simpl; [by split; [|exists x]|by exists err].
  - destruct Hs as [-> Hne]. by destruct (ApplicationLemmas.field_errors fields c).
Qed.

End Plans.
Arguments plan : clear implicits.

(** [failure([{field: 'application', message}])] *)
Definition failed (m : string) : result (list ValidationError) CommandResult := Err [FieldError "application" m].

(** A command that cannot be planned is refused with the errors of its fields,
    or with the one error found later. *)
Definition refused (errors : list ValidationError) (e : app_error) : result (list ValidationError) CommandResult :=
  match errors with [] => failed (app_message e) | some => Err some end.

Lemma planned_refused {Id Op A P T} (c : command P) (fields : spec (command P) T) (f : T -> result error (plan Id Op A)) e :
  planned c fields f = Err e -> bus_result (Err e) = refused (ApplicationLemmas.field_errors fields c) e.
Proof.
  intros He. pose proof (planned_spec c fields f) as H. rewrite He in H.
  destruct (ApplicationLemmas.field_errors fields c); [by destruct H as [err ->]|by subst e].
Qed.

(** ** What the handlers rely on *)

(** The device knows nothing of the aggregate yet, and can store a key. *)
Definition absent {port : CryptoServicePort} {Id S E : Type} `{EventSourced S E}
    {stored : StoredAggregate Id S E} (i : Id) (d : device) : Prop :=
  ApplicationLemmas.entropy_ok d /\
  (exists mk, masterKey d = Some mk /\ RepositoryLemmas.usable mk) /\
  aggregate_keys d !! idValue i = None /\ keyrings d !! idValue i = None /\
  KeyringManager.cached_key (idValue i) (num 0) d = None /\
  aggregate_rows (idValue i) (db d) = [] /\ get_snapshot aggregateType (idValue i) (db d) = None /\ db_ok (db d).

Class RepositoryLaws {port : CryptoServicePort} (Id S E : Type) {sourced : EventSourced S E}
    {stored : StoredAggregate Id S E} {repo : RepositoryPort Id S E} : Type := {
  (** the device keeps the history [h] of the aggregate, whose key is [k] *)
  stores : Id -> list Z -> list E -> device -> Prop;
  (** the object is the replay of [h] and of its pending events *)
  valid : list E -> aggregate Id S E -> Prop;
  (** its pending events can be stored *)
  savable : aggregate Id S E -> device -> Prop;

  stores_key i k h d : stores i k h d -> stored_key (idValue i) d = Ok (Some k);
  stores_recorded i k h d x : stores i k h d -> stores i k h (set_idempotency x d);
  stores_created i k d d' : absent i d -> k <> [] -> RepositoryLemmas.usable k ->
    saveAggregateKey (idValue i) k d = (Ok tt, d') -> stores i k [] d';
  valid_fresh i : valid [] (fresh i);
  valid_step h a cmd : valid h a -> emits_one cmd a -> valid h (cmd a).2;
  savable_db a d d' : db d' = db d -> savable a d -> savable a d';

  load_law i k h d : stores i k h d -> exists r d', repo_load i d = (Ok r, d') /\
    ApplicationLemmas.same_tables d d' /\ stores i k h d' /\
    match r with
    | None => h = []
    | Some a => h <> [] /\ id a = i /\ uncommitted a = [] /\ version a = Z.of_nat (length h) /\ valid h a
    end;
  save_law i k h a d : stores i k h d -> id a = i -> valid h a -> savable a d ->
    exists d', repo_save a k d = (Ok (markEventsAsCommitted a), d') /\ stores i k (h ++ uncommitted a) d' /\
      preserves (db d) (db d') /\ idempotency_keys d' = idempotency_keys d
}.

(** ** Lemmas *)

Module CommandHandlerLemmas.
Import ApplicationLemmas RepositoryLemmas.
Section Lemmas.
Context {port : CryptoServicePort} {Id S E : Type} {sourced : EventSourced S E}
  {stored : StoredAggregate Id S E} {repo : RepositoryPort Id S E} {laws : RepositoryLaws Id S E}.
Notation agg := (aggregate Id S E).
Implicit Types d : device.

Lemma isDuplicateCommand_run key ty i d :
  isDuplicateCommand key ty i d =
    (match idempotency_keys d !! key with
     | None => Ok false
     | Some r => if made_for ty i r then Ok true else Err (reuse_detected r (ik_key r) ty i)
     end, d).
Proof.
  unfold isDuplicateCommand, get_record, gets, lift_result, mbind, js_bind.
  destruct (idempotency_keys d !! key) as [r|]; [|done]. unfold assertIdempotencyRecord. by destruct (made_for ty i r).
Qed.

Lemma record_command_new r d : idempotency_keys d !! ik_key r = None ->
  record_command r d = (Ok tt, set_idempotency (<[ik_key r := r]> (idempotency_keys d)) d).
Proof. intros H. unfold record_command, get_record, gets, mbind, js_bind. by rewrite H. Qed.

Lemma lookup_stored_key i k h d : stores i k h d -> getAggregateKey (idValue i) d = (Ok (Some k), d).
Proof. intros H. unfold getAggregateKey, reads. by rewrite (stores_key i k h d H). Qed.

(** Saving the object and recording the command. *)
Lemma save_and_record i k h (a : agg) r d :
  stores i k h d -> id a = i -> valid h a -> savable a d -> idempotency_keys d !! ik_key r = None ->
  exists d', (_ ← repo_save a k; record_command r) d = (Ok tt, d') /\
    stores i k (h ++ uncommitted a) d' /\ preserves (db d) (db d') /\
    idempotency_keys d' = <[ik_key r := r]> (idempotency_keys d).
Proof.
  intros Hs Hi Hv Hsv Hn. destruct (save_law i k h a d Hs Hi Hv Hsv) as (d1 & Hsave & Hs1 & Hp & Hid).
  exists (set_idempotency (<[ik_key r := r]> (idempotency_keys d1)) d1).
  split; [|split; [by apply stores_recorded|split; [exact Hp|by rewrite <- Hid]]].
  rewrite (js_bind_run_ok _ _ _ _ _ Hsave). apply record_command_new. by rewrite Hid.
Qed.

Lemma persist_spec i k h (a : agg) key ty at_ d :
  stores i k h d -> id a = i -> valid h a -> savable a d -> idempotency_keys d !! key = None ->
  exists d', persist a key ty at_ d = (Ok (Handled (idValue i) None), d') /\
    stores i k (h ++ uncommitted a) d' /\ preserves (db d) (db d') /\
    idempotency_keys d' = <[key := IdemRecord key ty (idValue i) (Timestamp.millis at_)]> (idempotency_keys d).
Proof.
  intros Hs Hi Hv Hsv Hn. subst i.
  destruct (save_and_record _ k h a (IdemRecord key ty (idValue (id a)) (Timestamp.millis at_)) d Hs eq_refl Hv Hsv Hn)
    as (d' & Hrun & Hs' & Hp & Hid).
  exists d'. split; [|done]. unfold persist. rewrite (js_bind_run_ok _ _ _ _ _ (lookup_stored_key _ _ _ _ Hs)).
  apply js_bind_ok in Hrun as (b & d1 & Hsave & Hrec).
  rewrite (js_bind_run_ok _ _ _ _ _ Hsave). by rewrite (js_bind_run_ok _ _ _ _ _ Hrec).
Qed.

(** ** A command on an existing aggregate *)

(** What the handler answers when the key was already recorded. *)
Definition repeated (ty : string) (i : Id) (r : IdempotencyRecord) (k : option (list Z)) :
    result app_error CommandResult :=
  if made_for ty (idValue i) r then Ok (Handled (idValue i) k)
  else Err (reuse_detected r (ik_key r) ty (idValue i)).

Lemma update_repeated ty i known key at_ (op : js agg error unit) r d :
  idempotency_keys d !! key = Some r ->
  update ty i known key at_ op d = (repeated ty i r None, d).
Proof.
  intros Hr. unfold update, repeated. unfold mbind at 1, js_bind at 1. rewrite isDuplicateCommand_run, Hr.
  by destruct (made_for _ _ r).
Qed.

(** Every outcome of a command whose key is new. *)
Lemma update_new ty i known key at_ (op : js agg error unit) k h d :
  stores i k h d -> idempotency_keys d !! key = None -> (forall a, emits_one op a) ->
  exists d1, same_tables d d1 /\ stores i k h d1 /\
    match h with
    | [] => update ty i known key at_ op d = (Err (not_found (idValue i)), d1)
    | _ => exists a, repo_load i d = (Ok (Some a), d1) /\ version a = Z.of_nat (length h) /\
        id a = i /\ valid h a /\
        match assertKnownVersion (version a) known class_name (idValue i), (op a).1 with
        | Err e, _ => update ty i known key at_ op d = (Err e, d1)
        | _, Err e => update ty i known key at_ op d = (Err (Infra (JsError e)), d1)
        | _, _ => savable (op a).2 d -> exists d',
            update ty i known key at_ op d = (Ok (Handled (idValue i) None), d') /\
            stores i k (h ++ uncommitted (op a).2) d' /\ preserves (db d) (db d') /\
            idempotency_keys d' = <[key := IdemRecord key ty (idValue i) (Timestamp.millis at_)]> (idempotency_keys d)
        end
    end.
Proof.
  intros Hs Hn Hop. destruct (load_law i k h d Hs) as (r & d1 & Hl & Ht & Hs1 & Hr).
  exists d1. split; [done|]. split; [done|].
  assert (update ty i known key at_ op d = match r with
    | None => (Err (not_found (idValue i)), d1)
    | Some a => (_ ← lift_result (assertKnownVersion (version a) known class_name (idValue (id a)));
        let '(r, a') := op a in _ ← lift_result (lift_error r); persist a' key ty at_) d1
    end) as Hu.
  { unfold update. rewrite (js_bind_run_ok _ _ d false d) by (by rewrite isDuplicateCommand_run, Hn).
    cbv iota. unfold loadAggregate. unfold mbind at 1, js_bind at 1. rewrite (js_bind_run_ok _ _ _ _ _ Hl).
    by destruct r. }
  rewrite Hu. clear Hu. destruct r as [a|].
  - destruct Hr as (Hne & Hi & Hun & Hv & Hval). destruct h as [|e0 h0]; [done|]. set (h := e0 :: h0) in *.
    exists a. do 4 (split; [done|]). rewrite Hi. unfold lift_result, mbind, js_bind.
    destruct (assertKnownVersion _ _ _ _) as [[]|err]; [|done].
    pose proof (valid_step h a op Hval (Hop a)) as Hval'. pose proof (emits_one_id op a (Hop a)) as Hi'.
    destruct (op a) as [[[]|err] a'] eqn:Eo; [|done]. simpl in *. intros Hsv.
    destruct Ht as (Hdb & Hik & _).
    destruct (persist_spec i k h a' key ty at_ d1 Hs1 ltac:(congruence) Hval' (savable_db a' d d1 Hdb Hsv))
      as (d' & Hp & Hs' & Hpr & Hid); [by rewrite Hik|].
    exists d'. rewrite Hdb in Hpr. rewrite Hik in Hid. done.
  - subst h. done.
Qed.

(** ** A command that creates an aggregate *)

Lemma create_repeated ty i key at_ (mk : result error agg) r k h d :
  stores i k h d -> idempotency_keys d !! key = Some r ->
  create ty i key at_ mk d = (repeated ty i r (Some k), d).
Proof.
  intros Hs Hr. unfold create, repeated. unfold mbind at 1, js_bind at 1. rewrite isDuplicateCommand_run, Hr.
  destruct (made_for _ _ r); [|done]. by rewrite (js_bind_run_ok _ _ _ _ _ (lookup_stored_key _ _ _ _ Hs)).
Qed.

(** The aggregate exists: its key is the answer, nothing is recorded. *)
Lemma create_existing ty i key at_ (mk : result error agg) k h d :
  stores i k h d -> idempotency_keys d !! key = None -> h <> [] ->
  exists d1, create ty i key at_ mk d = (Ok (Handled (idValue i) (Some k)), d1) /\
    same_tables d d1 /\ stores i k h d1.
Proof.
  intros Hs Hn Hh. destruct (load_law i k h d Hs) as (r & d1 & Hl & Ht & Hs1 & Hr).
  destruct r as [a|]; [|done]. exists d1. split; [|done]. unfold create.
  rewrite (js_bind_run_ok _ _ d false d) by (by rewrite isDuplicateCommand_run, Hn). cbv iota.
  rewrite (js_bind_run_ok _ _ _ _ _ (lookup_stored_key _ _ _ _ Hs)). by rewrite (js_bind_run_ok _ _ _ _ _ Hl).
Qed.

(** Nothing exists: a key is drawn and stored, and then the events. *)
Lemma create_absent ty i key at_ (mk : result error agg) d :
  absent i d -> idempotency_keys d !! key = None ->
  match mk with
  | Err e => exists d', create ty i key at_ mk d = (Err (Infra (JsError e)), d') /\
      same_tables d d' /\ aggregate_keys d' = aggregate_keys d
  | Ok a => let k := fresh_keys d 0 in
      id a = i -> valid [] a -> savable a d -> k <> [] -> usable k ->
      exists d', create ty i key at_ mk d = (Ok (Handled (idValue i) (Some k)), d') /\
        stores i k (uncommitted a) d' /\ preserves (db d) (db d') /\
        idempotency_keys d' = <[key := IdemRecord key ty (idValue i) (Timestamp.millis at_)]> (idempotency_keys d)
  end.
Proof.
  intros Ha Hn. pose proof Ha as (He & (mkey & Hmk & Hu) & Hno & Hkr & Hc & Hrows & Hsn & Hok).
  set (d1 := (generateKey d).2).
  assert (absent i d1) as Ha1 by (by (split; [exact He|]; split; [by exists mkey|]; done)).
  assert (create ty i key at_ mk d = match mk with
    | Err e => (Err (Infra (JsError e)), d1)
    | Ok a => (_ ← saveAggregateKey (idValue (id a)) (fresh_keys d 0);
        _ ← repo_save a (fresh_keys d 0);
        _ ← record_command (IdemRecord key ty (idValue i) (Timestamp.millis at_));
        mret (Handled (idValue (id a)) (Some (fresh_keys d 0)))) d1
    end) as Hcr.
  { unfold create. rewrite (js_bind_run_ok _ _ d false d) by (by rewrite isDuplicateCommand_run, Hn). cbv iota.
    rewrite (js_bind_run_ok _ _ d None d) by (unfold getAggregateKey, reads, stored_key; by rewrite Hmk, Hno).
    by destruct mk. }
  destruct mk as [a|e]; [|by exists d1]. intros k Hi Hv Hsv Hne Hku. rewrite Hcr, Hi. fold k.
  assert (exists d2, saveAggregateKey (idValue i) k d1 = (Ok tt, d2)) as [d2 Hd2].
  { destruct (Hu (ivs d1 0) k None (proj1 (proj1 Ha1 0))) as [c Ec].
    unfold saveAggregateKey, reads, mbind, js_bind. change (masterKey d1) with (masterKey d). rewrite Hmk, encrypt_fresh_run, Ec.
    by eexists. }
  destruct (stored_key_saved (idValue i) k d1 tt d2 (proj1 Ha1) Hne Hd2) as (_ & _ & (Hdb2 & Hik2 & _) & _).
  pose proof (stores_created i k d1 d2 Ha1 Hne Hku Hd2) as Hs2.
  destruct (save_and_record i k [] a (IdemRecord key ty (idValue i) (Timestamp.millis at_)) d2 Hs2 Hi Hv)
    as (d' & Hrun & Hs' & Hp & Hid).
  { by apply (savable_db a d). }
  { by rewrite Hik2. }
  exists d'. rewrite Hdb2 in Hp. rewrite Hik2 in Hid. split; [|done].
  rewrite (js_bind_run_ok _ _ _ _ _ Hd2). apply js_bind_ok in Hrun as (b & d3 & Hsave & Hrec).
  rewrite (js_bind_run_ok _ _ _ _ _ Hsave). by rewrite (js_bind_run_ok _ _ _ _ _ Hrec).
Qed.

(** The key is there but no event (a creation that failed half-way): the
    stored key is used. *)
Lemma create_resumed ty i key at_ (a : agg) k d :
  stores i k [] d -> idempotency_keys d !! key = None -> id a = i -> valid [] a -> savable a d ->
  exists d', create ty i key at_ (Ok a) d = (Ok (Handled (idValue i) (Some k)), d') /\
    stores i k (uncommitted a) d' /\ preserves (db d) (db d') /\
    idempotency_keys d' = <[key := IdemRecord key ty (idValue i) (Timestamp.millis at_)]> (idempotency_keys d).
Proof.
  intros Hs Hn Hi Hv Hsv. destruct (load_law i k [] d Hs) as (r & d1 & Hl & (Hdb & Hik & _) & Hs1 & Hr).
  destruct r as [b|]; [by destruct Hr|].
  destruct (save_and_record i k [] a (IdemRecord key ty (idValue i) (Timestamp.millis at_)) d1 Hs1 Hi Hv)
    as (d' & Hrun & Hs' & Hp & Hid).
  { by apply (savable_db a d). }
  { by rewrite Hik. }
  exists d'. rewrite Hdb in Hp. rewrite Hik in Hid. split; [|done]. unfold create.
  rewrite (js_bind_run_ok _ _ d false d) by (by rewrite isDuplicateCommand_run, Hn). cbv iota.
  rewrite (js_bind_run_ok _ _ _ _ _ (lookup_stored_key _ _ _ _ Hs)). rewrite (js_bind_run_ok _ _ _ _ _ Hl).
  apply js_bind_ok in Hrun as (b & d3 & Hsave & Hrec). unfold lift_result. cbn [lift_error].
  do 3 (unfold mbind at 1, js_bind at 1; cbn [skip mret js_ret]).
  rewrite (js_bind_run_ok _ _ _ _ _ Hsave). rewrite (js_bind_run_ok _ _ _ _ _ Hrec). by rewrite Hi.
Qed.

(** ** Repeating a command *)

Lemma record_command_found r d u d' : record_command r d = (Ok u, d') ->
  exists e, idempotency_keys d' !! ik_key r = Some e /\ made_for (ik_commandType r) (ik_aggregateId r) e = true.
Proof.
  unfold record_command, get_record, gets, mbind, js_bind.
  destruct (idempotency_keys d !! ik_key r) as [e|] eqn:Er.
  - destruct (made_for _ _ e) eqn:Em; intros [= _ <-]. by exists e.
  - intros [= _ <-]. exists r. simpl. rewrite lookup_insert_eq. split; [done|].
    unfold made_for. by rewrite !bool_decide_true.
Qed.

(** Whatever the aggregate's method did, a success is recorded. *)
Lemma update_recorded ty i known key at_ (op : js agg error unit) k h d r d' :
  stores i k h d -> (forall a, emits_one op a) -> update ty i known key at_ op d = (Ok r, d') ->
  r = Handled (idValue i) None /\
  exists e, idempotency_keys d' !! key = Some e /\ made_for ty (idValue i) e = true.
Proof.
  intros Hs Hop. unfold update. unfold mbind at 1, js_bind at 1. rewrite isDuplicateCommand_run.
  destruct (idempotency_keys d !! key) as [e|] eqn:Er.
  { destruct (made_for ty (idValue i) e) eqn:Em; [|done]. intros [= <- <-]. split; [done|by exists e]. }
  destruct (load_law i k h d Hs) as (l & d1 & Hl & _ & _ & Hr). unfold loadAggregate.
  unfold mbind at 1, js_bind at 1. rewrite (js_bind_run_ok _ _ _ _ _ Hl).
  destruct l as [a|]; [|done]. destruct Hr as (_ & Hi & _).
  unfold lift_result, mret, js_ret. intros Hrun. apply js_bind_ok in Hrun as (u & d2 & Hv & Hrun). injection Hv as _ <-.
  pose proof (emits_one_id op a (Hop a)) as Hi'. destruct (op a) as [ro a']. simpl in Hi'. rewrite Hi in Hi'.
  apply js_bind_ok in Hrun as (u2 & d2 & Ho & Hrun). injection Ho as _ <-.
  unfold persist in Hrun. rewrite Hi' in Hrun. apply js_bind_ok in Hrun as ([k'|] & d2 & _ & Hrun); [|done].
  apply js_bind_ok in Hrun as (b & d3 & _ & Hrun). apply js_bind_ok in Hrun as (u3 & d4 & Hrec & Hrun).
  injection Hrun as <- <-. split; [done|]. by apply record_command_found in Hrec.
Qed.

Lemma update_again ty i known known' key at_ at' (op op' : js agg error unit) k h d r d' :
  stores i k h d -> (forall a, emits_one op a) -> update ty i known key at_ op d = (Ok r, d') ->
  update ty i known' key at' op' d' = (Ok r, d').
Proof.
  intros Hs Hop Hrun. destruct (update_recorded _ _ _ _ _ _ _ _ _ _ _ Hs Hop Hrun) as (-> & e & He & Hm).
  rewrite (update_repeated _ _ _ _ _ _ _ _ He). unfold repeated. by rewrite Hm.
Qed.

(** ** The command bus's answers *)

Lemma wrap_run (m : app CommandResult) d r d' : m d = (r, d') -> wrap m d = (bus_result r, d').
Proof. intros H. unfold wrap. by rewrite H. Qed.

(** Every outcome of a command on an existing aggregate. *)
Lemma update_outcome ty i known key at_ (op : js agg error unit) k h d :
  stores i k h d -> (forall a, emits_one op a) ->
  let run := wrap (update ty i known key at_ op) d in
  match idempotency_keys d !! key with
  | Some r =>
      run = (if made_for ty (idValue i) r then Ok (Handled (idValue i) None)
             else failed (app_message (reuse_detected r (ik_key r) ty (idValue i))), d)
  | None =>
      exists d1, same_tables d d1 /\ stores i k h d1 /\
      match h with
      | [] => run = (failed (class_name +:+ " " +:+ idValue i +:+ " not found"), d1)
      | _ => exists a, repo_load i d = (Ok (Some a), d1) /\ id a = i /\ valid h a /\
          if num_eq (num (Z.of_nat (length h))) known then
            let '(r, a') := op a in
            match r with
            | Err e => run = (failed (error_message e), d1)
            | Ok _ => savable a' d -> exists d', run = (Ok (Handled (idValue i) None), d') /\
                stores i k (h ++ uncommitted a') d' /\ preserves (db d) (db d') /\
                idempotency_keys d' = <[key := IdemRecord key ty (idValue i) (Timestamp.millis at_)]> (idempotency_keys d)
            end
          else exists m, run = (failed m, d1)
      end
  end.
Proof.
  intros Hk Hop run. unfold run. destruct (idempotency_keys d !! key) as [r|] eqn:Er.
  { erewrite wrap_run; [|by apply update_repeated]. unfold repeated. by destruct (made_for ty (idValue i) r). }
  destruct (update_new ty i known key at_ op k h d Hk Er Hop) as (d1 & Ht & Hk1 & Hrest).
  exists d1. split; [done|]. split; [done|]. destruct h as [|e0 h0].
  { exact (wrap_run _ _ _ _ Hrest). }
  set (h := e0 :: h0) in *. destruct Hrest as (a & Hl & Hv & Hi & Hval & Hrest).
  exists a. do 3 (split; [done|]). rewrite Hv in Hrest. unfold assertKnownVersion in Hrest.
  destruct (num_eq _ known); [|by eexists; exact (wrap_run _ _ _ _ Hrest)].
  destruct (op a) as [[[]|e] a']; simpl in Hrest; [|exact (wrap_run _ _ _ _ Hrest)].
  intros Hs. destruct (Hrest Hs) as (d' & Hd' & H1 & H2 & H3). exists d'.
  split; [exact (wrap_run _ _ _ _ Hd')|done].
Qed.

(** Creating an aggregate, and then asking for it again. *)
Lemma create_outcome ty i key at_ (a : agg) d :
  let k := fresh_keys d 0 in
  absent i d -> idempotency_keys d !! key = None -> id a = i -> uncommitted a <> [] -> valid [] a ->
  savable a d -> k <> [] -> usable k ->
  exists d', wrap (create ty i key at_ (Ok a)) d = (Ok (Handled (idValue i) (Some k)), d') /\
    stores i k (uncommitted a) d' /\ preserves (db d) (db d') /\
    idempotency_keys d' !! key = Some (IdemRecord key ty (idValue i) (Timestamp.millis at_)) /\
    forall key2 at2 mk2, key2 = key \/ idempotency_keys d' !! key2 = None ->
      exists d'', wrap (create ty i key2 at2 mk2) d' = (Ok (Handled (idValue i) (Some k)), d'') /\ same_tables d' d''.
Proof.
  intros k Ha Hn Hi Hun Hval Hs Hne Hu.
  pose proof (create_absent ty i key at_ (Ok a) d Ha Hn Hi Hval Hs Hne Hu) as (d' & Hd' & Hk' & Hpr & Hid).
  exists d'. split; [exact (wrap_run _ _ _ _ Hd')|]. split; [done|]. split; [done|].
  assert (idempotency_keys d' !! key = Some (IdemRecord key ty (idValue i) (Timestamp.millis at_))) as Hr
    by (by rewrite Hid, lookup_insert_eq).
  split; [done|]. intros key2 at2 mk2 [->|Hkey].
  - exists d'. split; [|apply same_tables_refl].
    erewrite wrap_run; [|by eapply create_repeated]. unfold repeated, made_for. simpl. by rewrite !bool_decide_true.
  - destruct (create_existing ty i key2 at2 mk2 _ _ d' Hk' Hkey Hun) as (d2 & Hd2 & Ht2 & _).
    exists d2. split; [exact (wrap_run _ _ _ _ Hd2)|done].
Qed.

(** A success repeated. *)
Lemma update_repeat ty i known known2 key at_ at2 (op op2 : js agg error unit) k h d r d' :
  stores i k h d -> (forall a, emits_one op a) -> wrap (update ty i known key at_ op) d = (Ok r, d') ->
  wrap (update ty i known2 key at2 op2) d' = (Ok r, d').
Proof.
  intros Hk Hop Hd. unfold wrap in Hd. destruct (update _ _ _ _ _ _ d) as [r0 d0] eqn:Hrun. injection Hd as Hr <-.
  destruct r0 as [r0|[]]; simpl in Hr; try discriminate Hr. injection Hr as <-.
  apply (wrap_run _ _ (Ok r0)). by eapply update_again.
Qed.

End Lemmas.
End CommandHandlerLemmas.
