(* ===== verification/GoalCommands.v ===== *)
(** * Goal commands

    [packages/application/src/goals/commands/*.ts] (a Module per class: its
    payload), [GoalCommandHandler.ts] (one definition per handler: the field
    parsers in the order of the source's keys, then the common steps of
    [CommandHandler]) and the command bus of
    [packages/infrastructure/src/goals/wiring.ts] ([dispatch]).

    The goals' repository implements the class the handlers use; the theorems
    say what a command does on every branch, which errors it reports, and that
    sending it again changes nothing.  The fresh event id is an argument. *)

From S2P Require Import Prelude JsValues ValueObjects Dates EventCodec Goal Crypto LocalDb EventStore Samples.
From S2P Require Import Application Keyring EventAdapters Snapshots AggregateRoot Repository GoalRepository.
From S2P Require Import CommandHandler.

(** ** Commands *)

Module CreateGoal.
Record t : Type := Payload {
  goalId : string;
  slice : string;
  summary : string;
  targetMonth : string;
  priority : string;
  timestamp : number
}.
End CreateGoal.

Module ChangeGoalSummary.
Record t : Type := Payload {
  goalId : string;
  summary : string;
  timestamp : number;
  knownVersion : number
}.
End ChangeGoalSummary.

Module ChangeGoalSlice.
Record t : Type := Payload {
  goalId : string;
  slice : string;
  timestamp : number;
  knownVersion : number
}.
End ChangeGoalSlice.

Module ChangeGoalTargetMonth.
Record t : Type := Payload {
  goalId : string;
  targetMonth : string;
  timestamp : number;
  knownVersion : number
}.
End ChangeGoalTargetMonth.

Module ChangeGoalPriority.
Record t : Type := Payload {
  goalId : string;
  priority : string;
  timestamp : number;
  knownVersion : number
}.
End ChangeGoalPriority.

Module AchieveGoal.
Record t : Type := Payload {
  goalId : string;
  timestamp : number;
  knownVersion : number
}.
End AchieveGoal.

Module UnachieveGoal.
Record t : Type := Payload {
  goalId : string;
  timestamp : number;
  knownVersion : number
}.
End UnachieveGoal.

Module ArchiveGoal.
Record t : Type := Payload {
  goalId : string;
  timestamp : number;
  knownVersion : number
}.
End ArchiveGoal.

Module GrantGoalAccess.
Record t : Type := Payload {
  goalId : string;
  grantToUserId : string;
  permission : string;
  timestamp : number;
  knownVersion : number
}.
End GrantGoalAccess.

Module RevokeGoalAccess.
Record t : Type := Payload {
  goalId : string;
  revokeUserId : string;
  timestamp : number;
  knownVersion : number
}.
End RevokeGoalAccess.

Inductive GoalCommand : Type :=
| CreateGoal_ (c : command CreateGoal.t)
| ChangeGoalSummary_ (c : command ChangeGoalSummary.t)
| ChangeGoalSlice_ (c : command ChangeGoalSlice.t)
| ChangeGoalTargetMonth_ (c : command ChangeGoalTargetMonth.t)
| ChangeGoalPriority_ (c : command ChangeGoalPriority.t)
| AchieveGoal_ (c : command AchieveGoal.t)
| UnachieveGoal_ (c : command UnachieveGoal.t)
| ArchiveGoal_ (c : command ArchiveGoal.t)
| GrantGoalAccess_ (c : command GrantGoalAccess.t)
| RevokeGoalAccess_ (c : command RevokeGoalAccess.t).

(** ** The handlers *)

Module GoalCommandHandler.
Section Handlers.
Context {port : CryptoServicePort} {repo : RepositoryPort GoalId Goal.fields_t Goal.event}.

(** The field parsers of each handler. *)
Definition CreateGoal_fields : spec (command CreateGoal.t) _ :=
  S_cons (T := GoalId) "goalId" (fun c => vo_new (CreateGoal.goalId (body c)))
  (S_cons "slice" (fun c => Slice.from (CreateGoal.slice (body c)))
  (S_cons (T := Summary) "summary" (fun c => vo_new (CreateGoal.summary (body c)))
  (S_cons "targetMonth" (fun c => Month.from (CreateGoal.targetMonth (body c)))
  (S_cons "priority" (fun c => Priority.from (CreateGoal.priority (body c)))
  (S_cons (T := UserId) "actorId" (fun c => vo_new (cm_actorId (metadata c)))
  (S_cons "timestamp" (fun c => parseTimestamp (CreateGoal.timestamp (body c)))
  (S_cons "idempotencyKey" (fun c => parseIdempotencyKey (cm_idempotencyKey (metadata c))) S_nil))))))).
Definition ChangeGoalSummary_fields : spec (command ChangeGoalSummary.t) _ :=
  S_cons (T := GoalId) "goalId" (fun c => vo_new (ChangeGoalSummary.goalId (body c)))
  (S_cons (T := Summary) "summary" (fun c => vo_new (ChangeGoalSummary.summary (body c)))
  (common_fields ChangeGoalSummary.timestamp ChangeGoalSummary.knownVersion)).
Definition ChangeGoalSlice_fields : spec (command ChangeGoalSlice.t) _ :=
  S_cons (T := GoalId) "goalId" (fun c => vo_new (ChangeGoalSlice.goalId (body c)))
  (S_cons "slice" (fun c => Slice.from (ChangeGoalSlice.slice (body c)))
  (common_fields ChangeGoalSlice.timestamp ChangeGoalSlice.knownVersion)).
Definition ChangeGoalTargetMonth_fields : spec (command ChangeGoalTargetMonth.t) _ :=
  S_cons (T := GoalId) "goalId" (fun c => vo_new (ChangeGoalTargetMonth.goalId (body c)))
  (S_cons "targetMonth" (fun c => Month.from (ChangeGoalTargetMonth.targetMonth (body c)))
  (common_fields ChangeGoalTargetMonth.timestamp ChangeGoalTargetMonth.knownVersion)).
Definition ChangeGoalPriority_fields : spec (command ChangeGoalPriority.t) _ :=
  S_cons (T := GoalId) "goalId" (fun c => vo_new (ChangeGoalPriority.goalId (body c)))
  (S_cons "priority" (fun c => Priority.from (ChangeGoalPriority.priority (body c)))
  (common_fields ChangeGoalPriority.timestamp ChangeGoalPriority.knownVersion)).
Definition AchieveGoal_fields : spec (command AchieveGoal.t) _ :=
  S_cons (T := GoalId) "goalId" (fun c => vo_new (AchieveGoal.goalId (body c)))
  (common_fields AchieveGoal.timestamp AchieveGoal.knownVersion).
Definition UnachieveGoal_fields : spec (command UnachieveGoal.t) _ :=
  S_cons (T := GoalId) "goalId" (fun c => vo_new (UnachieveGoal.goalId (body c)))
  (common_fields UnachieveGoal.timestamp UnachieveGoal.knownVersion).
Definition ArchiveGoal_fields : spec (command ArchiveGoal.t) _ :=
  S_cons (T := GoalId) "goalId" (fun c => vo_new (ArchiveGoal.goalId (body c)))
  (common_fields ArchiveGoal.timestamp ArchiveGoal.knownVersion).
Definition GrantGoalAccess_fields : spec (command GrantGoalAccess.t) _ :=
  S_cons (T := GoalId) "goalId" (fun c => vo_new (GrantGoalAccess.goalId (body c)))
  (S_cons (T := UserId) "grantToUserId" (fun c => vo_new (GrantGoalAccess.grantToUserId (body c)))
  (S_cons "permission" (fun c => Permission.from (GrantGoalAccess.permission (body c)))
  (common_fields GrantGoalAccess.timestamp GrantGoalAccess.knownVersion))).
Definition RevokeGoalAccess_fields : spec (command RevokeGoalAccess.t) _ :=
  S_cons (T := GoalId) "goalId" (fun c => vo_new (RevokeGoalAccess.goalId (body c)))
  (S_cons (T := UserId) "revokeUserId" (fun c => vo_new (RevokeGoalAccess.revokeUserId (body c)))
  (common_fields RevokeGoalAccess.timestamp RevokeGoalAccess.knownVersion)).

Definition handleCreate (c : command CreateGoal.t) (eid : EventId) : app CommandResult :=
  p ← lift_result (parseCommand c CreateGoal_fields);
  let '(goalId, (slice, (summary, (targetMonth, (priority, (actorId, (timestamp, (idempotencyKey, _)))))))) := p in
  create "CreateGoal" goalId idempotencyKey timestamp
    (Goal.create goalId slice summary targetMonth priority actorId timestamp eid).

(** [command.correlationId ? CorrelationId.from(...) : undefined], and the causation. *)
Definition correlation_of {P} (c : command P) : app (option CorrelationId) :=
  lift_result (lift_error (from_truthy (cm_correlationId (metadata c)))).
Definition causation_of {P} (c : command P) : app (option EventId) :=
  lift_result (lift_error (from_truthy (cm_causationId (metadata c)))).

Definition handleChangeSummary (c : command ChangeGoalSummary.t) (eid : EventId) : app CommandResult :=
  p ← lift_result (parseCommand c ChangeGoalSummary_fields);
  let '(goalId, (summary, (actorId, (timestamp, (knownVersion, (idempotencyKey, _)))))) := p in
  update "ChangeGoalSummary" goalId knownVersion idempotencyKey timestamp
    (Goal.changeSummary summary timestamp actorId eid).

Definition handleChangeSlice (c : command ChangeGoalSlice.t) (eid : EventId) : app CommandResult :=
  p ← lift_result (parseCommand c ChangeGoalSlice_fields);
  let '(goalId, (slice, (actorId, (timestamp, (knownVersion, (idempotencyKey, _)))))) := p in
  update "ChangeGoalSlice" goalId knownVersion idempotencyKey timestamp
    (Goal.changeSlice slice timestamp actorId eid).

Definition handleChangeTargetMonth (c : command ChangeGoalTargetMonth.t) (eid : EventId) : app CommandResult :=
  p ← lift_result (parseCommand c ChangeGoalTargetMonth_fields);
  let '(goalId, (targetMonth, (actorId, (timestamp, (knownVersion, (idempotencyKey, _)))))) := p in
  update "ChangeGoalTargetMonth" goalId knownVersion idempotencyKey timestamp
    (Goal.changeTargetMonth targetMonth timestamp actorId eid).

Definition handleChangePriority (c : command ChangeGoalPriority.t) (eid : EventId) : app CommandResult :=
  p ← lift_result (parseCommand c ChangeGoalPriority_fields);
  let '(goalId, (priority, (actorId, (timestamp, (knownVersion, (idempotencyKey, _)))))) := p in
  update "ChangeGoalPriority" goalId knownVersion idempotencyKey timestamp
    (Goal.changePriority priority timestamp actorId eid).

Definition handleAchieve (c : command AchieveGoal.t) (eid : EventId) : app CommandResult :=
  p ← lift_result (parseCommand c AchieveGoal_fields);
  let '(goalId, (actorId, (timestamp, (knownVersion, (idempotencyKey, _))))) := p in
  correlationId ← correlation_of c;
  causationId ← causation_of c;
  update "AchieveGoal" goalId knownVersion idempotencyKey timestamp
    (Goal.achieve timestamp actorId correlationId causationId eid).

Definition handleUnachieve (c : command UnachieveGoal.t) (eid : EventId) : app CommandResult :=
  p ← lift_result (parseCommand c UnachieveGoal_fields);
  let '(goalId, (actorId, (timestamp, (knownVersion, (idempotencyKey, _))))) := p in
  correlationId ← correlation_of c;
  causationId ← causation_of c;
  update "UnachieveGoal" goalId knownVersion idempotencyKey timestamp
    (Goal.unachieve timestamp actorId correlationId causationId eid).

Definition handleArchive (c : command ArchiveGoal.t) (eid : EventId) : app CommandResult :=
  p ← lift_result (parseCommand c ArchiveGoal_fields);
  let '(goalId, (actorId, (timestamp, (knownVersion, (idempotencyKey, _))))) := p in
  update "ArchiveGoal" goalId knownVersion idempotencyKey timestamp
    (Goal.archive timestamp actorId eid).

Definition handleGrantAccess (c : command GrantGoalAccess.t) (eid : EventId) : app CommandResult :=
  p ← lift_result (parseCommand c GrantGoalAccess_fields);
  let '(goalId, (grantToUserId, (permission, (actorId, (timestamp, (knownVersion, (idempotencyKey, _))))))) := p in
  update "GrantGoalAccess" goalId knownVersion idempotencyKey timestamp
    (Goal.grantAccess grantToUserId permission timestamp actorId eid).

Definition handleRevokeAccess (c : command RevokeGoalAccess.t) (eid : EventId) : app CommandResult :=
  p ← lift_result (parseCommand c RevokeGoalAccess_fields);
  let '(goalId, (revokeUserId, (actorId, (timestamp, (knownVersion, (idempotencyKey, _)))))) := p in
  update "RevokeGoalAccess" goalId knownVersion idempotencyKey timestamp
    (Goal.revokeAccess revokeUserId timestamp actorId eid).

(** The handler the bus has registered under the class's name. *)
Definition handle (c : GoalCommand) (eid : EventId) : app CommandResult :=
  match c with
  | CreateGoal_ c => handleCreate c eid
  | ChangeGoalSummary_ c => handleChangeSummary c eid
  | ChangeGoalSlice_ c => handleChangeSlice c eid
  | ChangeGoalTargetMonth_ c => handleChangeTargetMonth c eid
  | ChangeGoalPriority_ c => handleChangePriority c eid
  | AchieveGoal_ c => handleAchieve c eid
  | UnachieveGoal_ c => handleUnachieve c eid
  | ArchiveGoal_ c => handleArchive c eid
  | GrantGoalAccess_ c => handleGrantAccess c eid
  | RevokeGoalAccess_ c => handleRevokeAccess c eid
  end.

Definition dispatch (c : GoalCommand) (eid : EventId) : js device (list ValidationError) CommandResult :=
  wrap (handle c eid).

End Handlers.
End GoalCommandHandler.

(** ** The goals' repository does what the handlers rely on *)

Section GoalPort.
Context {port : CryptoServicePort}.
Variable deriveKey : list Z -> string -> list Z.

(** No other tab writes between the check and the insert of an append. *)
#[export] Instance goal_port : RepositoryPort GoalId Goal.fields_t Goal.event := {|
  repo_load := GoalRepository.load deriveKey;
  repo_save := GoalRepository.save (fun x => x)
|}.

Import ApplicationLemmas KeyringLemmas RepositoryLemmas GoalRepositoryLemmas GoalRepositoryProperties.

Lemma goal_stores_created (i : GoalId) k d d' : absent (stored := goal_stored) i d -> k <> [] -> usable k ->
  saveAggregateKey (value i) k d = (Ok tt, d') -> keeps deriveKey i k [] d'.
Proof.
  intros (He & _ & _ & Hkr & Hc & Hrows & Hsn & Hok) Hne Hu Hs.
  change (idValue i) with (value i) in *.
  destruct (stored_key_saved _ k d tt d' He Hne Hs) as (Hk & _ & (Hdb & _) & Hkr' & Hc' & He').
  split; [|unfold history; by rewrite Hdb, Hrows|by rewrite Hdb|done|].
  - split; [done|]. split; [done|]. split; [done|]. unfold KeyringManager.cached_key in *.
    rewrite Hc', Hc, Hkr', Hkr. done.
  - unfold snapshot_of_prefix. rewrite Hdb. change (get_snapshot "goal" (value i) (db d) = None) in Hsn. by rewrite Hsn.
Qed.

Lemma goal_valid_step (h : list Goal.event) (g : Goal.t) cmd :
  replay_of (id g) h g -> emits_one cmd g -> replay_of (id (cmd g).2) h (cmd g).2.
Proof.
  intros Hg [[r ->]|(e & g' & (s & Hs & ->)%apply_ok & ->)]; [done|].
  destruct Hg as (_ & g1 & Hg1 & He). split; [done|]. simpl in *. injection Hs as <-.
  eexists. split; [rewrite app_assoc; exact (reload_snoc _ _ e _ _ Hg1 eq_refl)|].
  destruct He as (Hi & Hv & Hst). split; [exact Hi|]. split; [simpl in *; lia|].
  exact (GoalProperties.handle_fold_access [e] _ _ Hst).
Qed.

#[export] Instance goal_laws : RepositoryLaws GoalId Goal.fields_t Goal.event.
Proof.
  unshelve refine {| stores := keeps deriveKey; valid h g := replay_of (id g) h g; savable := can_save |}.
  - intros i k h d [Hk _ _ _ _]. apply Hk.
  - intros i k h d x [H1 H2 H3 H4 H5]. by split.
  - apply goal_stores_created.
  - intros i. split; [done|]. by exists (fresh i).
  - apply goal_valid_step.
  - intros g d d' Hdb Hs. unfold can_save in *. by rewrite Hdb.
  - intros i k h d Hk. destruct (load_keeps deriveKey i k h d Hk)
      as (d' & Ht & Hk' & [[-> Hl]|(g & g' & Hne & Hg & Hl & He & Hu & _)]).
    + by exists None, d'.
    + exists (Some g'), d'. do 3 (split; [done|]).
      destruct (reload_version _ _ _ Hg) as [Hv Hi]. destruct He as (Hi' & Hv' & Hs').
      split; [done|]. split; [by rewrite Hi'|]. split; [done|]. split; [by rewrite Hv', Hv|].
      split; [done|]. exists g. rewrite Hu, app_nil_r, Hi', Hi. by split.
  - intros i k h g d Hk Hi Hv (Hp & Hnd & Hfr). rewrite Hi in Hp.
    destruct (save_keeps deriveKey i k h d g Hk Hi Hp Hnd Hfr) as (d' & H1 & H2 & H3 & H4 & _ & _).
    by exists d'.
Defined.

End GoalPort.

(** ** What a command asks for *)

Module GoalPlans.
Import ApplicationLemmas GoalCommandHandler.

(** The errors of the fields that do not parse. *)
Definition errors_of (c : GoalCommand) : list ValidationError :=
  match c with
  | CreateGoal_ c => field_errors CreateGoal_fields c
  | ChangeGoalSummary_ c => field_errors ChangeGoalSummary_fields c
  | ChangeGoalSlice_ c => field_errors ChangeGoalSlice_fields c
  | ChangeGoalTargetMonth_ c => field_errors ChangeGoalTargetMonth_fields c
  | ChangeGoalPriority_ c => field_errors ChangeGoalPriority_fields c
  | AchieveGoal_ c => field_errors AchieveGoal_fields c
  | UnachieveGoal_ c => field_errors UnachieveGoal_fields c
  | ArchiveGoal_ c => field_errors ArchiveGoal_fields c
  | GrantGoalAccess_ c => field_errors GrantGoalAccess_fields c
  | RevokeGoalAccess_ c => field_errors RevokeGoalAccess_fields c
  end.

Definition plan_of (c : GoalCommand) (eid : EventId) : result app_error (plan GoalId GoalRuns.command Goal.t) :=
  match c with
  | CreateGoal_ c => planned c CreateGoal_fields
      (fun '(i, (slice, (summary, (targetMonth, (priority, (actorId, (timestamp, (key, _)))))))) =>
        Ok (Creates i key timestamp (Goal.create i slice summary targetMonth priority actorId timestamp eid)))
  | ChangeGoalSummary_ c => planned c ChangeGoalSummary_fields
      (fun '(i, (summary, (actorId, (timestamp, (known, (key, _)))))) =>
        Ok (Updates "ChangeGoalSummary" i known key timestamp (GoalRuns.ChangeSummary summary timestamp actorId eid)))
  | ChangeGoalSlice_ c => planned c ChangeGoalSlice_fields
      (fun '(i, (slice, (actorId, (timestamp, (known, (key, _)))))) =>
        Ok (Updates "ChangeGoalSlice" i known key timestamp (GoalRuns.ChangeSlice slice timestamp actorId eid)))
  | ChangeGoalTargetMonth_ c => planned c ChangeGoalTargetMonth_fields
      (fun '(i, (targetMonth, (actorId, (timestamp, (known, (key, _)))))) =>
        Ok (Updates "ChangeGoalTargetMonth" i known key timestamp (GoalRuns.ChangeTargetMonth targetMonth timestamp actorId eid)))
  | ChangeGoalPriority_ c => planned c ChangeGoalPriority_fields
      (fun '(i, (priority, (actorId, (timestamp, (known, (key, _)))))) =>
        Ok (Updates "ChangeGoalPriority" i known key timestamp (GoalRuns.ChangePriority priority timestamp actorId eid)))
  | AchieveGoal_ c => planned c AchieveGoal_fields
      (fun '(i, (actorId, (timestamp, (known, (key, _))))) =>
        correlationId ← from_truthy (cm_correlationId (metadata c));
        causationId ← from_truthy (cm_causationId (metadata c));
        Ok (Updates "AchieveGoal" i known key timestamp (GoalRuns.Achieve timestamp actorId correlationId causationId eid)))
  | UnachieveGoal_ c => planned c UnachieveGoal_fields
      (fun '(i, (actorId, (timestamp, (known, (key, _))))) =>
        correlationId ← from_truthy (cm_correlationId (metadata c));
        causationId ← from_truthy (cm_causationId (metadata c));
        Ok (Updates "UnachieveGoal" i known key timestamp (GoalRuns.Unachieve timestamp actorId correlationId causationId eid)))
  | ArchiveGoal_ c => planned c ArchiveGoal_fields
      (fun '(i, (actorId, (timestamp, (known, (key, _))))) =>
        Ok (Updates "ArchiveGoal" i known key timestamp (GoalRuns.Archive timestamp actorId eid)))
  | GrantGoalAccess_ c => planned c GrantGoalAccess_fields
      (fun '(i, (grantToUserId, (permission, (actorId, (timestamp, (known, (key, _))))))) =>
        Ok (Updates "GrantGoalAccess" i known key timestamp (GoalRuns.GrantAccess grantToUserId permission timestamp actorId eid)))
  | RevokeGoalAccess_ c => planned c RevokeGoalAccess_fields
      (fun '(i, (revokeUserId, (actorId, (timestamp, (known, (key, _)))))) =>
        Ok (Updates "RevokeGoalAccess" i known key timestamp (GoalRuns.RevokeAccess revokeUserId timestamp actorId eid)))
  end.

Lemma plan_of_spec c eid :
  match plan_of c eid with
  | Ok _ => errors_of c = []
  | Err e => bus_result (Err e) = refused (errors_of c) e
  end.
Proof.
  destruct (plan_of c eid) as [p|e] eqn:E; destruct c; cbn [plan_of errors_of] in *;
    match type of E with planned ?c ?fields ?f = _ =>
      first [exact (planned_refused c fields f _ E)|pose proof (planned_spec c fields f) as H]
    end; rewrite E in H; by destruct H.
Qed.

Lemma plan_creates c eid i key at_ mk : plan_of c eid = Ok (Creates i key at_ mk) ->
  exists sl su tm pr cb ca, mk = Goal.create i sl su tm pr cb ca eid.
Proof.
  destruct c; cbn [plan_of]; intros Hp;
    match type of Hp with planned ?c ?fields ?f = _ => pose proof (planned_spec c fields f) as H end;
    rewrite Hp in H; destruct H as (_ & p & H); repeat match goal with p : _ * _ |- _ => destruct p end;
    unfold mbind, result_bind in H; repeat case_match; try done.
  injection H as <- _ _ <-. by do 6 eexists.
Qed.

(** The handlers do what the plan says. *)
Lemma handle_plan {port : CryptoServicePort} {repo : RepositoryPort GoalId Goal.fields_t Goal.event} c eid d :
  handle c eid d = match plan_of c eid with
    | Err e => (Err e, d)
    | Ok (Creates i key at_ mk) => create "CreateGoal" i key at_ mk d
    | Ok (Updates ty i known key at_ op) => update ty i known key at_ (GoalRuns.run_command op) d
    end.
Proof.
  destruct c; cbn [handle plan_of]; unfold planned, lift_error;
    unfold handleCreate, handleChangeSummary, handleChangeSlice, handleChangeTargetMonth, handleChangePriority,
      handleAchieve, handleUnachieve, handleArchive, handleGrantAccess, handleRevokeAccess,
      correlation_of, causation_of, lift_result;
    match goal with |- context [parseCommand ?c ?f] => destruct (parseCommand c f) as [p|e] end; try done;
    repeat match goal with p : _ * _ |- _ => destruct p end; try done;
    unfold mbind, js_bind, result_bind, lift_error;
    repeat match goal with |- context [from_truthy ?x] => destruct (from_truthy x) end; done.
Qed.

End GoalPlans.

(** ** Properties *)

Module GoalCommandProperties.
Import ApplicationLemmas RepositoryLemmas GoalRepositoryLemmas GoalRepositoryProperties CommandHandlerLemmas
  GoalCommandHandler GoalPlans.
Section Properties.
Context {port : CryptoServicePort}.
Variable deriveKey : list Z -> string -> list Z.

(** The handlers, over the goals' repository. *)
Notation dispatch := (GoalCommandHandler.dispatch (repo := goal_port deriveKey)).

Lemma dispatch_plan c eid d :
  dispatch c eid d = match plan_of c eid with
    | Err e => (bus_result (Err e), d)
    | Ok (Creates i key at_ mk) => wrap (create (repo := goal_port deriveKey) "CreateGoal" i key at_ mk) d
    | Ok (Updates ty i known key at_ op) =>
        wrap (update (repo := goal_port deriveKey) ty i known key at_ (GoalRuns.run_command op)) d
    end.
Proof.
  unfold GoalCommandHandler.dispatch, wrap. rewrite handle_plan. by destruct (plan_of c eid) as [[]|].
Qed.

(** A goal command is refused as a whole when one of its fields does not parse: the
    answer lists every such field, in order, each with the message of its parser, and the
    device is untouched. Otherwise no field is reported. *)
Theorem goal_command_validation (c : GoalCommand) (eid : EventId) (d : device) :
  match plan_of c eid with
  | Ok _ => errors_of c = []
  | Err e =>
      dispatch c eid d = (match errors_of c with [] => failed (app_message e) | errors => Err errors end, d)
  end.
Proof.
  rewrite dispatch_plan. pose proof (plan_of_spec c eid) as H. destruct (plan_of c eid) as [p|e]; [done|].
  rewrite H. unfold refused. by destruct (errors_of c).
Qed.

(** C16: What a command on a goal does, on every branch: a repeated idempotency key answers
    without touching the device, or is refused when it was used for something else; a goal
    without events is not found; a known version that is not the number of stored events is
    refused; an error of the goal's method is reported; and otherwise the events it emits
    are appended to the stored history and the key is recorded. A refused command stores
    nothing. *)
Theorem goal_update_outcome (c : GoalCommand) (eid : EventId) (d : device)
    (ty : string) (i : GoalId) (known : number) (key : string) (at_ : Timestamp.t) (op : GoalRuns.command)
    (k : list Z) (h : list Goal.event) :
  plan_of c eid = Ok (Updates ty i known key at_ op) -> keeps deriveKey i k h d ->
  match idempotency_keys d !! key with
  | Some r =>
      dispatch c eid d =
        (if made_for ty (value i) r then Ok (Handled (value i) None)
         else failed (app_message (reuse_detected r (ik_key r) ty (value i))), d)
  | None =>
      exists d1, same_tables d d1 /\ keeps deriveKey i k h d1 /\
      match h with
      | [] => dispatch c eid d = (failed ("Goal " +:+ value i +:+ " not found"), d1)
      | _ => exists g, GoalRepository.load deriveKey i d = (Ok (Some g), d1) /\ id g = i /\ replay_of (id g) h g /\
          if num_eq (num (Z.of_nat (length h))) known then
            let '(r, g') := GoalRuns.run_command op g in
            match r with
            | Err e => dispatch c eid d = (failed (error_message e), d1)
            | Ok _ => can_save g' d -> exists d', dispatch c eid d = (Ok (Handled (value i) None), d') /\
                keeps deriveKey i k (h ++ uncommitted g') d' /\ preserves (db d) (db d') /\
                idempotency_keys d' = <[key := IdemRecord key ty (value i) (Timestamp.millis at_)]> (idempotency_keys d)
            end
          else exists m, dispatch c eid d = (failed m, d1)
      end
  end.
Proof.
  intros Hp Hk. rewrite dispatch_plan, Hp.
  exact (update_outcome (laws := goal_laws deriveKey) ty i known key at_ (GoalRuns.run_command op) k h d Hk
    (GoalRuns.goal_command_emits_one op)).
Qed.

(** Creating a goal: on a device that has neither its key nor its events, a key is
    drawn and stored, the creation event becomes the stored history and the answer carries
    the key; sending the command again, or creating the goal again in any other way, answers
    with that key and stores nothing. *)
Theorem goal_create_outcome (c : GoalCommand) (eid : EventId) (d : device) (i : GoalId) (key : string)
    (at_ : Timestamp.t) (g : Goal.t) :
  let k := fresh_keys d 0 in
  plan_of c eid = Ok (Creates i key at_ (Ok g)) -> absent (stored := goal_stored) i d ->
  idempotency_keys d !! key = None -> can_save g d -> k <> [] -> usable k ->
  exists d', dispatch c eid d = (Ok (Handled (value i) (Some k)), d') /\
    keeps deriveKey i k (uncommitted g) d' /\ preserves (db d) (db d') /\
    idempotency_keys d' !! key = Some (IdemRecord key "CreateGoal" (value i) (Timestamp.millis at_)) /\
    forall c2 eid2 key2 at2 g2, plan_of c2 eid2 = Ok (Creates i key2 at2 g2) ->
      key2 = key \/ idempotency_keys d' !! key2 = None ->
      exists d'', dispatch c2 eid2 d' = (Ok (Handled (value i) (Some k)), d'') /\ same_tables d' d''.
Proof.
  intros k Hp Ha Hn Hs Hne Hu. destruct (plan_creates _ _ _ _ _ _ Hp) as (sl & su & tm & pr & cb & ca & Hg).
  assert (id g = i /\ uncommitted g <> [] /\ replay_of (id g) [] g) as (Hi & Hun & Hval).
  { unfold Goal.create in Hg. simpl in Hg. injection Hg as ->. split; [done|]. split; [done|].
    split; [done|]. eexists. split; [reflexivity|]. done. }
  destruct (create_outcome (laws := goal_laws deriveKey) "CreateGoal" i key at_ g d Ha Hn Hi Hun Hval Hs Hne Hu)
    as (d' & H1 & H2 & H3 & H4 & H5).
  exists d'. rewrite dispatch_plan, Hp. do 4 (split; [done|]).
  intros c2 eid2 key2 at2 g2 Hp2. rewrite dispatch_plan, Hp2. apply H5.
Qed.

(** Repeating is harmless: once a command on a goal has succeeded, sending the same
    command again, even with another known version or another event id, gives the same
    answer and leaves the device exactly as it was. *)
Theorem goal_command_repeat (c c2 : GoalCommand) (eid eid2 : EventId) (d d' : device)
    (ty : string) (i : GoalId) (known known2 : number) (key : string) (at_ at2 : Timestamp.t)
    (op op2 : GoalRuns.command) (k : list Z) (h : list Goal.event) (r : CommandResult) :
  plan_of c eid = Ok (Updates ty i known key at_ op) -> plan_of c2 eid2 = Ok (Updates ty i known2 key at2 op2) ->
  keeps deriveKey i k h d -> dispatch c eid d = (Ok r, d') ->
  dispatch c2 eid2 d' = (Ok r, d').
Proof.
  intros Hp Hp2 Hk. rewrite !dispatch_plan, Hp, Hp2.
  exact (update_repeat (laws := goal_laws deriveKey) _ _ _ _ _ _ _ _ _ _ _ _ _ _ Hk (GoalRuns.goal_command_emits_one op)).
Qed.

End Properties.
End GoalCommandProperties.

(** ** Witnesses *)

Module GoalCommandWitnesses.
Import ApplicationLemmas KeyringLemmas RepositoryLemmas GoalRepositoryLemmas GoalRepositoryProperties GoalCommandHandler
  GoalPlans GoalCommandProperties KeyringWitnesses GoalRepositoryWitnesses.
#[local] Existing Instance toy_service.
Notation dispatch := (GoalCommandHandler.dispatch (repo := goal_port derive)).

Definition by_alice (key : string) : CommandMetadata := CommandMeta "alice" key None None.

Definition create_marathon : GoalCommand :=
  CreateGoal_ (Command (CreateGoal.Payload id_a "Health" "Run a marathon" "2026-05" "must" (num 1767225600000)) (by_alice "k1")).
(** Four fields are wrong. *)
Definition bad_rename : GoalCommand :=
  ChangeGoalSummary_ (Command (ChangeGoalSummary.Payload "goal" "" NaN (num (-1))) (by_alice "k2")).
Definition achieve_it (known : Z) : GoalCommand :=
  AchieveGoal_ (Command (AchieveGoal.Payload id_a (num 1767225600001) (num known)) (by_alice "k2")).

Example bad_rename_fields : map ve_field (errors_of bad_rename) = ["goalId"; "summary"; "timestamp"; "knownVersion"].
Proof. vm_compute. reflexivity. Qed.

Lemma goal_command_validation_witness :
  dispatch bad_rename event_1 new_device = (Err (errors_of bad_rename), new_device).
Proof. exact (goal_command_validation derive bad_rename event_1 new_device). Defined.

Lemma usable_key k : length k = 32 -> usable k.
Proof.
  intros Hk iv p aad _. unfold Crypto.encrypt, toy_service, WebCryptoService.service, WebCryptoService.encrypt.
  unfold WebCryptoService.ensureKeyLength. rewrite Hk. simpl. by eexists.
Qed.

Lemma new_device_absent : absent (stored := goal_stored) goal_1 new_device.
Proof.
  split; [exact new_device_entropy|]. split; [by exists master; split; [|by apply usable_key]|].
  do 5 (split; [done|]). exact db_ok_empty.
Qed.

Lemma goal_create_outcome_witness : exists d',
  dispatch create_marathon event_1 new_device = (Ok (Handled id_a (Some dek_1)), d') /\
  keeps derive goal_1 dek_1 history_1 d'.
Proof.
  destruct (goal_create_outcome derive create_marathon event_1 new_device goal_1 "k1" noon GoalRepositoryWitnesses.created)
    as (d' & H1 & H2 & _).
  - evaluate.
  - exact new_device_absent.
  - reflexivity.
  - exact created_can_save.
  - done.
  - exact toy_usable.
  - exists d'. split; [exact H1|exact H2].
Defined.

(** The device on which the goal was created. *)
Definition device_1 : device := saved_device.

Example achieve_accepted : (dispatch (achieve_it 1) event_2 device_1).1 = Ok (Handled id_a None).
Proof. vm_compute. reflexivity. Qed.

(** A device that has the key [k2] on record for another command. *)
Definition recorded : device :=
  set_idempotency {[ "k2" := IdemRecord "k2" "CreateGoal" id_a (num 0) ]} device_1.

Lemma goal_update_outcome_witness :
  (exists m d', dispatch (achieve_it 0) event_2 device_1 = (failed m, d')) /\
  (exists m, dispatch (achieve_it 1) event_2 recorded = (failed m, recorded)) /\
  exists m d', dispatch (achieve_it 1) event_2 goal_device = (failed m, d').
Proof.
  split; [|split].
  - destruct (goal_update_outcome derive (achieve_it 0) event_2 device_1 "AchieveGoal" goal_1 (num 0) "k2" later
      (GoalRuns.Achieve later alice None None event_2) dek_1 history_1) as (d1 & _ & _ & g & _ & _ & _ & m & Hm).
    + evaluate.
    + exact saved_device_keeps.
    + exists m, d1. exact Hm.
  - eexists. eapply (goal_update_outcome derive (achieve_it 1) event_2 recorded "AchieveGoal" goal_1 (num 1) "k2" later
      (GoalRuns.Achieve later alice None None event_2) dek_1 history_1).
    + evaluate.
    + exact (stores_recorded (RepositoryLaws := goal_laws derive) _ _ _ _ _ saved_device_keeps).
  - destruct (goal_update_outcome derive (achieve_it 1) event_2 goal_device "AchieveGoal" goal_1 (num 1) "k2" later
      (GoalRuns.Achieve later alice None None event_2) dek_1 []) as (d1 & _ & _ & Hm).
    + evaluate.
    + exact goal_device_keeps.
    + eexists _, d1. exact Hm.
Defined.

Lemma goal_command_repeat_witness :
  let d' := (dispatch (achieve_it 1) event_2 device_1).2 in
  dispatch (achieve_it 2) event_3 d' = (Ok (Handled id_a None), d').
Proof.
  intros d'. apply (goal_command_repeat derive (achieve_it 1) (achieve_it 2) event_2 event_3 device_1 d' "AchieveGoal" goal_1
    (num 1) (num 2) "k2" later later (GoalRuns.Achieve later alice None None event_2)
    (GoalRuns.Achieve later alice None None event_3) dek_1 history_1).
  - evaluate.
  - evaluate.
  - exact saved_device_keeps.
  - unfold d'. assert ((dispatch (achieve_it 1) event_2 device_1).1 = Ok (Handled id_a None)) as H by (vm_compute; reflexivity).
    destruct (dispatch (achieve_it 1) event_2 device_1) as [r x]. simpl in *. by rewrite H.
Defined.

End GoalCommandWitnesses.
