(* ===== verification/ProjectCommands.v ===== *)
(** * Project commands

    [packages/application/src/projects/commands/*.ts] (a Module per class: its
    payload), [ProjectCommandHandler.ts] (one definition per handler) and the
    command bus of [packages/infrastructure/src/projects/wiring.ts]
    ([dispatch]), as in [GoalCommands].

    The projects' repository implements the class the handlers use, through the
    snapshot that every save writes; the theorems give every branch of a
    command's outcome.  The fresh event id is an argument. *)

From S2P Require Import Prelude JsValues ValueObjects Dates EventCodec Project Crypto LocalDb EventStore.
From S2P Require Import Samples Application Keyring EventAdapters Snapshots AggregateRoot Repository.
From S2P Require Import ProjectRepository CommandHandler.

(** ** Commands *)

Module CreateProject.
Record t : Type := Payload {
  projectId : string;
  name : string;
  status : string;
  startDate : string;
  targetDate : string;
  description : option string;
  goalId : option string;
  timestamp : number
}.
End CreateProject.

Module ChangeProjectStatus.
Record t : Type := Payload {
  projectId : string;
  status : string;
  timestamp : number;
  knownVersion : number
}.
End ChangeProjectStatus.

Module ChangeProjectDates.
Record t : Type := Payload {
  projectId : string;
  startDate : string;
  targetDate : string;
  timestamp : number;
  knownVersion : number
}.
End ChangeProjectDates.

Module ChangeProjectName.
Record t : Type := Payload {
  projectId : string;
  name : string;
  timestamp : number;
  knownVersion : number
}.
End ChangeProjectName.

Module ChangeProjectDescription.
Record t : Type := Payload {
  projectId : string;
  description : string;
  timestamp : number;
  knownVersion : number
}.
End ChangeProjectDescription.

Module AddProjectGoal.
Record t : Type := Payload {
  projectId : string;
  goalId : string;
  timestamp : number;
  knownVersion : number
}.
End AddProjectGoal.

Module RemoveProjectGoal.
Record t : Type := Payload {
  projectId : string;
  timestamp : number;
  knownVersion : number
}.
End RemoveProjectGoal.

Module AddProjectMilestone.
Record t : Type := Payload {
  projectId : string;
  milestoneId : string;
  name : string;
  targetDate : string;
  timestamp : number;
  knownVersion : number
}.
End AddProjectMilestone.

Module ChangeProjectMilestoneTargetDate.
Record t : Type := Payload {
  projectId : string;
  milestoneId : string;
  targetDate : string;
  timestamp : number;
  knownVersion : number
}.
End ChangeProjectMilestoneTargetDate.

Module ChangeProjectMilestoneName.
Record t : Type := Payload {
  projectId : string;
  milestoneId : string;
  name : string;
  timestamp : number;
  knownVersion : number
}.
End ChangeProjectMilestoneName.

Module ArchiveProjectMilestone.
Record t : Type := Payload {
  projectId : string;
  milestoneId : string;
  timestamp : number;
  knownVersion : number
}.
End ArchiveProjectMilestone.

Module ArchiveProject.
Record t : Type := Payload {
  projectId : string;
  timestamp : number;
  knownVersion : number
}.
End ArchiveProject.

Inductive ProjectCommand : Type :=
| CreateProject_ (c : command CreateProject.t)
| ChangeProjectStatus_ (c : command ChangeProjectStatus.t)
| ChangeProjectDates_ (c : command ChangeProjectDates.t)
| ChangeProjectName_ (c : command ChangeProjectName.t)
| ChangeProjectDescription_ (c : command ChangeProjectDescription.t)
| AddProjectGoal_ (c : command AddProjectGoal.t)
| RemoveProjectGoal_ (c : command RemoveProjectGoal.t)
| AddProjectMilestone_ (c : command AddProjectMilestone.t)
| ChangeProjectMilestoneTargetDate_ (c : command ChangeProjectMilestoneTargetDate.t)
| ChangeProjectMilestoneName_ (c : command ChangeProjectMilestoneName.t)
| ArchiveProjectMilestone_ (c : command ArchiveProjectMilestone.t)
| ArchiveProject_ (c : command ArchiveProject.t).

(** ** The handlers *)

Module ProjectCommandHandler.
Section Handlers.
Context {port : CryptoServicePort} {repo : RepositoryPort ProjectId Project.fields_t Project.event}.

(** The field parsers of each handler. *)
Definition CreateProject_fields : spec (command CreateProject.t) _ :=
  S_cons (T := ProjectId) "projectId" (fun c => vo_new (CreateProject.projectId (body c)))
  (S_cons (T := ProjectName) "name" (fun c => vo_new (CreateProject.name (body c)))
  (S_cons "status" (fun c => ProjectStatus.from (CreateProject.status (body c)))
  (S_cons "startDate" (fun c => LocalDate.fromString (CreateProject.startDate (body c)))
  (S_cons "targetDate" (fun c => LocalDate.fromString (CreateProject.targetDate (body c)))
  (S_cons (T := ProjectDescription) "description" (fun c => vo_new (default "" (CreateProject.description (body c))))
  (S_cons (T := option GoalId) "goalId" (fun c =>
    match CreateProject.goalId (body c) with None => Ok None | Some g => Some <$> vo_new g end)
  (S_cons (T := UserId) "actorId" (fun c => vo_new (cm_actorId (metadata c)))
  (S_cons "timestamp" (fun c => parseTimestamp (CreateProject.timestamp (body c)))
  (S_cons "idempotencyKey" (fun c => parseIdempotencyKey (cm_idempotencyKey (metadata c))) S_nil))))))))).
Definition ChangeProjectStatus_fields : spec (command ChangeProjectStatus.t) _ :=
  S_cons (T := ProjectId) "projectId" (fun c => vo_new (ChangeProjectStatus.projectId (body c)))
  (S_cons "status" (fun c => ProjectStatus.from (ChangeProjectStatus.status (body c)))
  (common_fields ChangeProjectStatus.timestamp ChangeProjectStatus.knownVersion)).
Definition ChangeProjectDates_fields : spec (command ChangeProjectDates.t) _ :=
  S_cons (T := ProjectId) "projectId" (fun c => vo_new (ChangeProjectDates.projectId (body c)))
  (S_cons "startDate" (fun c => LocalDate.fromString (ChangeProjectDates.startDate (body c)))
  (S_cons "targetDate" (fun c => LocalDate.fromString (ChangeProjectDates.targetDate (body c)))
  (common_fields ChangeProjectDates.timestamp ChangeProjectDates.knownVersion))).
Definition ChangeProjectName_fields : spec (command ChangeProjectName.t) _ :=
  S_cons (T := ProjectId) "projectId" (fun c => vo_new (ChangeProjectName.projectId (body c)))
  (S_cons (T := ProjectName) "name" (fun c => vo_new (ChangeProjectName.name (body c)))
  (common_fields ChangeProjectName.timestamp ChangeProjectName.knownVersion)).
Definition ChangeProjectDescription_fields : spec (command ChangeProjectDescription.t) _ :=
  S_cons (T := ProjectId) "projectId" (fun c => vo_new (ChangeProjectDescription.projectId (body c)))
  (S_cons (T := ProjectDescription) "description" (fun c => vo_new (ChangeProjectDescription.description (body c)))
  (common_fields ChangeProjectDescription.timestamp ChangeProjectDescription.knownVersion)).
Definition AddProjectGoal_fields : spec (command AddProjectGoal.t) _ :=
  S_cons (T := ProjectId) "projectId" (fun c => vo_new (AddProjectGoal.projectId (body c)))
  (S_cons (T := GoalId) "goalId" (fun c => vo_new (AddProjectGoal.goalId (body c)))
  (common_fields AddProjectGoal.timestamp AddProjectGoal.knownVersion)).
Definition RemoveProjectGoal_fields : spec (command RemoveProjectGoal.t) _ :=
  S_cons (T := ProjectId) "projectId" (fun c => vo_new (RemoveProjectGoal.projectId (body c)))
  (common_fields RemoveProjectGoal.timestamp RemoveProjectGoal.knownVersion).
Definition AddProjectMilestone_fields : spec (command AddProjectMilestone.t) _ :=
  S_cons (T := ProjectId) "projectId" (fun c => vo_new (AddProjectMilestone.projectId (body c)))
  (S_cons (T := MilestoneId) "milestoneId" (fun c => vo_new (AddProjectMilestone.milestoneId (body c)))
  (S_cons (T := MilestoneName) "name" (fun c => vo_new (AddProjectMilestone.name (body c)))
  (S_cons "targetDate" (fun c => LocalDate.fromString (AddProjectMilestone.targetDate (body c)))
  (common_fields AddProjectMilestone.timestamp AddProjectMilestone.knownVersion)))).
Definition ChangeProjectMilestoneTargetDate_fields : spec (command ChangeProjectMilestoneTargetDate.t) _ :=
  S_cons (T := ProjectId) "projectId" (fun c => vo_new (ChangeProjectMilestoneTargetDate.projectId (body c)))
  (S_cons (T := MilestoneId) "milestoneId" (fun c => vo_new (ChangeProjectMilestoneTargetDate.milestoneId (body c)))
  (S_cons "targetDate" (fun c => LocalDate.fromString (ChangeProjectMilestoneTargetDate.targetDate (body c)))
  (common_fields ChangeProjectMilestoneTargetDate.timestamp ChangeProjectMilestoneTargetDate.knownVersion))).
Definition ChangeProjectMilestoneName_fields : spec (command ChangeProjectMilestoneName.t) _ :=
  S_cons (T := ProjectId) "projectId" (fun c => vo_new (ChangeProjectMilestoneName.projectId (body c)))
  (S_cons (T := MilestoneId) "milestoneId" (fun c => vo_new (ChangeProjectMilestoneName.milestoneId (body c)))
  (S_cons (T := MilestoneName) "name" (fun c => vo_new (ChangeProjectMilestoneName.name (body c)))
  (common_fields ChangeProjectMilestoneName.timestamp ChangeProjectMilestoneName.knownVersion))).
Definition ArchiveProjectMilestone_fields : spec (command ArchiveProjectMilestone.t) _ :=
  S_cons (T := ProjectId) "projectId" (fun c => vo_new (ArchiveProjectMilestone.projectId (body c)))
  (S_cons (T := MilestoneId) "milestoneId" (fun c => vo_new (ArchiveProjectMilestone.milestoneId (body c)))
  (common_fields ArchiveProjectMilestone.timestamp ArchiveProjectMilestone.knownVersion)).
Definition ArchiveProject_fields : spec (command ArchiveProject.t) _ :=
  S_cons (T := ProjectId) "projectId" (fun c => vo_new (ArchiveProject.projectId (body c)))
  (common_fields ArchiveProject.timestamp ArchiveProject.knownVersion).

Definition handleCreate (c : command CreateProject.t) (eid : EventId) : app CommandResult :=
  p ← lift_result (parseCommand c CreateProject_fields);
  let '(projectId, (name, (status, (startDate, (targetDate, (description, (goalId, (actorId, (timestamp,
    (idempotencyKey, _)))))))))) := p in
  create "CreateProject" projectId idempotencyKey timestamp
    (Project.create projectId name status startDate targetDate description goalId actorId timestamp eid).

Definition handleChangeStatus (c : command ChangeProjectStatus.t) (eid : EventId) : app CommandResult :=
  p ← lift_result (parseCommand c ChangeProjectStatus_fields);
  let '(projectId, (status, (actorId, (timestamp, (knownVersion, (idempotencyKey, _)))))) := p in
  update "ChangeProjectStatus" projectId knownVersion idempotencyKey timestamp
    (Project.changeStatus status timestamp actorId eid).

Definition handleChangeDates (c : command ChangeProjectDates.t) (eid : EventId) : app CommandResult :=
  p ← lift_result (parseCommand c ChangeProjectDates_fields);
  let '(projectId, (startDate, (targetDate, (actorId, (timestamp, (knownVersion, (idempotencyKey, _))))))) := p in
  update "ChangeProjectDates" projectId knownVersion idempotencyKey timestamp
    (Project.changeDates startDate targetDate timestamp actorId eid).

Definition handleChangeName (c : command ChangeProjectName.t) (eid : EventId) : app CommandResult :=
  p ← lift_result (parseCommand c ChangeProjectName_fields);
  let '(projectId, (name, (actorId, (timestamp, (knownVersion, (idempotencyKey, _)))))) := p in
  update "ChangeProjectName" projectId knownVersion idempotencyKey timestamp
    (Project.changeName name timestamp actorId eid).

Definition handleChangeDescription (c : command ChangeProjectDescription.t) (eid : EventId) : app CommandResult :=
  p ← lift_result (parseCommand c ChangeProjectDescription_fields);
  let '(projectId, (description, (actorId, (timestamp, (knownVersion, (idempotencyKey, _)))))) := p in
  update "ChangeProjectDescription" projectId knownVersion idempotencyKey timestamp
    (Project.changeDescription description timestamp actorId eid).

Definition handleAddGoal (c : command AddProjectGoal.t) (eid : EventId) : app CommandResult :=
  p ← lift_result (parseCommand c AddProjectGoal_fields);
  let '(projectId, (goalId, (actorId, (timestamp, (knownVersion, (idempotencyKey, _)))))) := p in
  update "AddProjectGoal" projectId knownVersion idempotencyKey timestamp
    (Project.addGoal goalId timestamp actorId eid).

Definition handleRemoveGoal (c : command RemoveProjectGoal.t) (eid : EventId) : app CommandResult :=
  p ← lift_result (parseCommand c RemoveProjectGoal_fields);
  let '(projectId, (actorId, (timestamp, (knownVersion, (idempotencyKey, _))))) := p in
  update "RemoveProjectGoal" projectId knownVersion idempotencyKey timestamp
    (Project.removeGoal timestamp actorId eid).

Definition handleAddMilestone (c : command AddProjectMilestone.t) (eid : EventId) : app CommandResult :=
  p ← lift_result (parseCommand c AddProjectMilestone_fields);
  let '(projectId, (milestoneId, (name, (targetDate, (actorId, (timestamp, (knownVersion, (idempotencyKey, _)))))))) := p in
  update "AddProjectMilestone" projectId knownVersion idempotencyKey timestamp
    (Project.addMilestone milestoneId name targetDate timestamp actorId eid).

Definition handleChangeMilestoneTargetDate (c : command ChangeProjectMilestoneTargetDate.t) (eid : EventId) : app CommandResult :=
  p ← lift_result (parseCommand c ChangeProjectMilestoneTargetDate_fields);
  let '(projectId, (milestoneId, (targetDate, (actorId, (timestamp, (knownVersion, (idempotencyKey, _))))))) := p in
  update "ChangeProjectMilestoneTargetDate" projectId knownVersion idempotencyKey timestamp
    (Project.changeMilestoneTargetDate milestoneId targetDate timestamp actorId eid).

Definition handleChangeMilestoneName (c : command ChangeProjectMilestoneName.t) (eid : EventId) : app CommandResult :=
  p ← lift_result (parseCommand c ChangeProjectMilestoneName_fields);
  let '(projectId, (milestoneId, (name, (actorId, (timestamp, (knownVersion, (idempotencyKey, _))))))) := p in
  update "ChangeProjectMilestoneName" projectId knownVersion idempotencyKey timestamp
    (Project.changeMilestoneName milestoneId name timestamp actorId eid).

Definition handleArchiveMilestone (c : command ArchiveProjectMilestone.t) (eid : EventId) : app CommandResult :=
  p ← lift_result (parseCommand c ArchiveProjectMilestone_fields);
  let '(projectId, (milestoneId, (actorId, (timestamp, (knownVersion, (idempotencyKey, _)))))) := p in
  update "ArchiveProjectMilestone" projectId knownVersion idempotencyKey timestamp
    (Project.archiveMilestone milestoneId timestamp actorId eid).

Definition handleArchive (c : command ArchiveProject.t) (eid : EventId) : app CommandResult :=
  p ← lift_result (parseCommand c ArchiveProject_fields);
  let '(projectId, (actorId, (timestamp, (knownVersion, (idempotencyKey, _))))) := p in
  update "ArchiveProject" projectId knownVersion idempotencyKey timestamp
    (Project.archive timestamp actorId eid).

(** The handler the bus has registered under the class's name. *)
Definition handle (c : ProjectCommand) (eid : EventId) : app CommandResult :=
  match c with
  | CreateProject_ c => handleCreate c eid
  | ChangeProjectStatus_ c => handleChangeStatus c eid
  | ChangeProjectDates_ c => handleChangeDates c eid
  | ChangeProjectName_ c => handleChangeName c eid
  | ChangeProjectDescription_ c => handleChangeDescription c eid
  | AddProjectGoal_ c => handleAddGoal c eid
  | RemoveProjectGoal_ c => handleRemoveGoal c eid
  | AddProjectMilestone_ c => handleAddMilestone c eid
  | ChangeProjectMilestoneTargetDate_ c => handleChangeMilestoneTargetDate c eid
  | ChangeProjectMilestoneName_ c => handleChangeMilestoneName c eid
  | ArchiveProjectMilestone_ c => handleArchiveMilestone c eid
  | ArchiveProject_ c => handleArchive c eid
  end.

Definition dispatch (c : ProjectCommand) (eid : EventId) : js device (list ValidationError) CommandResult :=
  wrap (handle c eid).

End Handlers.
End ProjectCommandHandler.

(** ** What a command asks for *)

Module ProjectPlans.
Import ApplicationLemmas ProjectCommandHandler.

(** The errors of the fields that do not parse. *)
Definition errors_of (c : ProjectCommand) : list ValidationError :=
  match c with
  | CreateProject_ c => field_errors CreateProject_fields c
  | ChangeProjectStatus_ c => field_errors ChangeProjectStatus_fields c
  | ChangeProjectDates_ c => field_errors ChangeProjectDates_fields c
  | ChangeProjectName_ c => field_errors ChangeProjectName_fields c
  | ChangeProjectDescription_ c => field_errors ChangeProjectDescription_fields c
  | AddProjectGoal_ c => field_errors AddProjectGoal_fields c
  | RemoveProjectGoal_ c => field_errors RemoveProjectGoal_fields c
  | AddProjectMilestone_ c => field_errors AddProjectMilestone_fields c
  | ChangeProjectMilestoneTargetDate_ c => field_errors ChangeProjectMilestoneTargetDate_fields c
  | ChangeProjectMilestoneName_ c => field_errors ChangeProjectMilestoneName_fields c
  | ArchiveProjectMilestone_ c => field_errors ArchiveProjectMilestone_fields c
  | ArchiveProject_ c => field_errors ArchiveProject_fields c
  end.

Definition plan_of (c : ProjectCommand) (eid : EventId) :
    result app_error (plan ProjectId ProjectRuns.command Project.t) :=
  match c with
  | CreateProject_ c => planned c CreateProject_fields
      (fun '(i, (name, (status, (startDate, (targetDate, (description, (goalId, (actorId, (timestamp, (key, _)))))))))) =>
        Ok (Creates i key timestamp
          (Project.create i name status startDate targetDate description goalId actorId timestamp eid)))
  | ChangeProjectStatus_ c => planned c ChangeProjectStatus_fields
      (fun '(i, (status, (actorId, (timestamp, (known, (key, _)))))) =>
        Ok (Updates "ChangeProjectStatus" i known key timestamp (ProjectRuns.ChangeStatus status timestamp actorId eid)))
  | ChangeProjectDates_ c => planned c ChangeProjectDates_fields
      (fun '(i, (startDate, (targetDate, (actorId, (timestamp, (known, (key, _))))))) =>
        Ok (Updates "ChangeProjectDates" i known key timestamp (ProjectRuns.ChangeDates startDate targetDate timestamp actorId eid)))
  | ChangeProjectName_ c => planned c ChangeProjectName_fields
      (fun '(i, (name, (actorId, (timestamp, (known, (key, _)))))) =>
        Ok (Updates "ChangeProjectName" i known key timestamp (ProjectRuns.ChangeName name timestamp actorId eid)))
  | ChangeProjectDescription_ c => planned c ChangeProjectDescription_fields
      (fun '(i, (description, (actorId, (timestamp, (known, (key, _)))))) =>
        Ok (Updates "ChangeProjectDescription" i known key timestamp (ProjectRuns.ChangeDescription description timestamp actorId eid)))
  | AddProjectGoal_ c => planned c AddProjectGoal_fields
      (fun '(i, (goalId, (actorId, (timestamp, (known, (key, _)))))) =>
        Ok (Updates "AddProjectGoal" i known key timestamp (ProjectRuns.AddGoal goalId timestamp actorId eid)))
  | RemoveProjectGoal_ c => planned c RemoveProjectGoal_fields
      (fun '(i, (actorId, (timestamp, (known, (key, _))))) =>
        Ok (Updates "RemoveProjectGoal" i known key timestamp (ProjectRuns.RemoveGoal timestamp actorId eid)))
  | AddProjectMilestone_ c => planned c AddProjectMilestone_fields
      (fun '(i, (milestoneId, (name, (targetDate, (actorId, (timestamp, (known, (key, _)))))))) =>
        Ok (Updates "AddProjectMilestone" i known key timestamp (ProjectRuns.AddMilestone milestoneId name targetDate timestamp actorId eid)))
  | ChangeProjectMilestoneTargetDate_ c => planned c ChangeProjectMilestoneTargetDate_fields
      (fun '(i, (milestoneId, (targetDate, (actorId, (timestamp, (known, (key, _))))))) =>
        Ok (Updates "ChangeProjectMilestoneTargetDate" i known key timestamp (ProjectRuns.ChangeMilestoneTargetDate milestoneId targetDate timestamp actorId eid)))
  | ChangeProjectMilestoneName_ c => planned c ChangeProjectMilestoneName_fields
      (fun '(i, (milestoneId, (name, (actorId, (timestamp, (known, (key, _))))))) =>
        Ok (Updates "ChangeProjectMilestoneName" i known key timestamp (ProjectRuns.ChangeMilestoneName milestoneId name timestamp actorId eid)))
  | ArchiveProjectMilestone_ c => planned c ArchiveProjectMilestone_fields
      (fun '(i, (milestoneId, (actorId, (timestamp, (known, (key, _)))))) =>
        Ok (Updates "ArchiveProjectMilestone" i known key timestamp (ProjectRuns.ArchiveMilestone milestoneId timestamp actorId eid)))
  | ArchiveProject_ c => planned c ArchiveProject_fields
      (fun '(i, (actorId, (timestamp, (known, (key, _))))) =>
        Ok (Updates "ArchiveProject" i known key timestamp (ProjectRuns.Archive timestamp actorId eid)))
  end.

Lemma project_plan_spec c eid :
  match plan_of c eid with
  | Ok _ => errors_of c = []
  | Err e => bus_result (Err e) = refused (errors_of c) e
  end.
Proof.
  destruct (plan_of c eid) as [p|e] eqn:E; destruct c; cbn [plan_of errors_of] in *;
    match type of E with planned ?c ?fields ?f = _ =>
      first [exact (planned_refused c fields f _ E)|pose proof (planned_spec c fields f) as H]
    end; rewrite E in H; by destruct H.
Qed.

Lemma project_plan_creates c eid i key at_ mk : plan_of c eid = Ok (Creates i key at_ mk) ->
  exists n st sd td de g cb ca, mk = Project.create i n st sd td de g cb ca eid.
Proof.
  destruct c; cbn [plan_of]; intros Hp;
    match type of Hp with planned ?c ?fields ?f = _ => pose proof (planned_spec c fields f) as H end;
    rewrite Hp in H; destruct H as (_ & p & H); repeat match goal with p : _ * _ |- _ => destruct p end; try done.
  injection H as <- _ _ <-. by do 8 eexists.
Qed.

(** The handlers do what the plan says. *)
Lemma project_handle_plan {port : CryptoServicePort} {repo : RepositoryPort ProjectId Project.fields_t Project.event} c eid d :
  handle c eid d = match plan_of c eid with
    | Err e => (Err e, d)
    | Ok (Creates i key at_ mk) => create "CreateProject" i key at_ mk d
    | Ok (Updates ty i known key at_ op) => update ty i known key at_ (ProjectRuns.run_command op) d
    end.
Proof.
  destruct c; cbn [handle plan_of]; unfold planned, lift_error;
    unfold handleCreate, handleChangeStatus, handleChangeDates, handleChangeName, handleChangeDescription, handleAddGoal, handleRemoveGoal, handleAddMilestone, handleChangeMilestoneTargetDate, handleChangeMilestoneName, handleArchiveMilestone, handleArchive, lift_result;
    match goal with |- context [parseCommand ?c ?f] => destruct (parseCommand c f) as [p|e] end; try done;
    repeat match goal with p : _ * _ |- _ => destruct p end; done.
Qed.

End ProjectPlans.

(** ** The projects' repository does what the handlers rely on *)

Section ProjectPort.
Context {port : CryptoServicePort}.
Variable deriveKey : list Z -> string -> list Z.

(** No other tab writes between the check and the insert of an append. *)
#[export] Instance project_port : RepositoryPort ProjectId Project.fields_t Project.event := {|
  repo_load := ProjectRepository.load deriveKey;
  repo_save := ProjectRepository.save (fun x => x)
|}.

Import ApplicationLemmas KeyringLemmas RepositoryLemmas ProjectRepository ProjectRepositoryLemmas
  ProjectRepositoryProperties.

(** The stored snapshot, if there is one, is that of a prefix of the history. *)
Definition prefix_snapshot (i : ProjectId) (k : list Z) (h : list Project.event) (x : local_db) : Prop :=
  match get_snapshot "project" (value i) x with
  | None => True
  | Some r => exists h1 h2 p1 s, h = h1 ++ h2 /\ reconstitute i h1 = Ok p1 /\
      ProjectProperties.snapshot_of p1 = Some s /\ snapshot_opens i k r s
  end.

(** The device keeps the project [i]: its history replays, and the snapshot is
    true to it. *)
Definition project_kept (i : ProjectId) (k : list Z) (h : list Project.event) (d : device) : Prop :=
  holds deriveKey i k h d /\ prefix_snapshot i k h (db d) /\ exists p, reconstitute i h = Ok p.

Definition project_savable (p : Project.t) (d : device) : Prop := uncommitted p = [] \/ can_save p d.

Lemma project_stores_created (i : ProjectId) k d d' : absent (stored := project_stored) i d -> k <> [] -> usable k ->
  saveAggregateKey (value i) k d = (Ok tt, d') -> project_kept i k [] d'.
Proof.
  intros (He & _ & _ & Hkr & Hc & Hrows & Hsn & Hok) Hne Hu Hs. change (idValue i) with (value i) in *.
  destruct (stored_key_saved _ k d tt d' He Hne Hs) as (Hk & _ & (Hdb & _) & Hkr' & Hc' & He').
  change (get_snapshot "project" (value i) (db d) = None) in Hsn.
  split; [|split; [unfold prefix_snapshot; by rewrite Hdb, Hsn|by exists (fresh i)]].
  split; [|unfold history; by rewrite Hdb, Hrows|by rewrite Hdb|done|].
  - split; [done|]. split; [done|]. split; [done|]. unfold KeyringManager.cached_key in *.
    rewrite Hc', Hc, Hkr', Hkr. done.
  - unfold snapshot_in_range. by rewrite Hdb, Hsn.
Qed.

Lemma project_load_law (i : ProjectId) k h d : project_kept i k h d -> exists r d',
  load deriveKey i d = (Ok r, d') /\ same_tables d d' /\ project_kept i k h d' /\
  match r with
  | None => h = []
  | Some p => h <> [] /\ reconstitute i h = Ok p
  end.
Proof.
  intros (Hh & Hsn & p & Hp). pose proof Hh as [Hkey Hhist Hok Hu Hr].
  assert (forall d', same_tables d d' -> key_is deriveKey (value i) k d' -> project_kept i k h d') as Hkeep.
  { intros d' (Hdb & _ & _) Hkey'. split; [|rewrite Hdb; split; [done|by exists p]].
    split; try rewrite Hdb; done. }
  unfold prefix_snapshot in Hsn. destruct (get_snapshot "project" (value i) (db d)) as [r|] eqn:Es.
  - destruct Hsn as (h1 & h2 & p1 & s & -> & Hp1 & Hs & Ho).
    assert (Project.s_version s = Z.of_nat (length h1)) as Hv.
    { destruct (reload_version _ _ _ Hp1) as [Hv _].
      destruct (snapshot_payload_of p1 s Hs) as (_ & _ & -> & _). exact Hv. }
    pose proof (loadSnapshot_opens i k d r s Es Ho) as Hl.
    destruct (load_spec (stored := project_stored) deriveKey loadSnapshot i k _ d (Some (restore s)) d Hkey Hl Hhist Hkey)
      as (d' & Hd' & Ht & Hk'); [unfold restore; simpl; rewrite Hv, length_app; lia|].
    exists (Some p), d'. split; [|split; [done|split; [by apply Hkeep|]]].
    + assert (drop (Z.to_nat (version (restore s))) (h1 ++ h2) = h2) as Hdrop
        by (unfold restore; simpl; by rewrite Hv, Nat2Z.id, drop_app_length).
      unfold load. rewrite Hd', Hdrop. pose proof (ProjectProperties.snapshot_reload i h1 h2 p1 s Hp1 Hs) as Hre.
      unfold Project.reconstituteFromSnapshot in Hre. fold (restore s) in Hre. by rewrite Hre, Hp.
    + split; [|done]. intros E. apply app_eq_nil in E as [-> ->]. injection Hp1 as <-. done.
  - destruct (load_spec (stored := project_stored) deriveKey loadSnapshot i k h d None d Hkey
      (loadSnapshot_none i k d Es) Hhist Hkey I) as (d' & Hd' & Ht & Hk').
    exists (match h with [] => None | _ => Some p end), d'. split; [|split; [done|split; [by apply Hkeep|by destruct h]]].
    unfold load. rewrite Hd'. destruct h as [|e h]; [done|]. by rewrite Hp.
Qed.

Lemma project_save_law (i : ProjectId) k h (p : Project.t) d :
  project_kept i k h d -> id p = i -> replays h p -> project_savable p d ->
  exists d', save (fun x => x) p k d = (Ok (markEventsAsCommitted p), d') /\
    project_kept i k (h ++ uncommitted p) d' /\ preserves (db d) (db d') /\ idempotency_keys d' = idempotency_keys d.
Proof.
  intros Hk Hi Hr [E|(Hne & Hp & Hnd & Hfr & s & Hs & Hpl)].
  { exists d. rewrite E, app_nil_r. split; [|split; [done|split; [apply preserves_refl|done]]].
    unfold save, Repository.save, getUncommittedEvents. rewrite E. destruct p as [? ? u ?]. simpl in E. by subst. }
  destruct Hk as (Hh & Hsn & p0 & Hp0). unfold replays in Hr. subst i.
  destruct (reload_version _ _ _ Hr) as [Hver _]. simpl in Hver.
  destruct (save_holds deriveKey (id p) k h d p s Hh eq_refl Hne Hp Hnd Hfr Hs Hpl ltac:(lia))
    as (d' & r & Hsave & Hh' & Hpre & Hid & _ & _ & Hget & Hopen).
  exists d'. split; [done|]. split; [|done]. split; [done|]. split.
  - unfold prefix_snapshot. rewrite Hget. exists (h ++ uncommitted p), [], (markEventsAsCommitted p), s.
    rewrite app_nil_r. by repeat split; try apply Hopen.
  - by eexists.
Qed.

#[export] Instance project_laws : RepositoryLaws ProjectId Project.fields_t Project.event.
Proof.
  unshelve refine {| stores := project_kept; valid := replays; savable := project_savable |}.
  - intros i k h d [[Hk _ _ _ _] _]. apply Hk.
  - intros i k h d x ([H1 H2 H3 H4 H5] & H6). by split.
  - apply project_stores_created.
  - apply fresh_replays.
  - intros h p cmd Hr He. by apply (emits_one_replays h).
  - intros p d d' Hdb Hs. unfold project_savable, can_save in *. by rewrite Hdb.
  - intros i k h d Hk. destruct (project_load_law i k h d Hk) as (r & d' & Hl & Ht & Hk' & Hr).
    exists r, d'. do 3 (split; [done|]). destruct r as [p|]; [|done]. destruct Hr as [Hne Hp].
    destruct (reload_version _ _ _ Hp) as [Hv Hi]. split; [done|]. split; [done|].
    split; [by rewrite <- (reload_committed _ _ _ Hp)|]. split; [done|]. by apply (reconstitute_replays i).
  - intros i k h p d Hk Hi Hr Hs. by apply project_save_law.
Defined.

End ProjectPort.

(** ** Properties *)

Module ProjectCommandProperties.
Import ApplicationLemmas RepositoryLemmas ProjectRepositoryLemmas CommandHandlerLemmas ProjectCommandHandler ProjectPlans.
Section Properties.
Context {port : CryptoServicePort}.
Variable deriveKey : list Z -> string -> list Z.

(** The handlers, over the projects' repository. *)
Notation dispatch := (ProjectCommandHandler.dispatch (repo := project_port deriveKey)).

Lemma project_dispatch_plan c eid d :
  dispatch c eid d = match plan_of c eid with
    | Err e => (bus_result (Err e), d)
    | Ok (Creates i key at_ mk) => wrap (create (repo := project_port deriveKey) "CreateProject" i key at_ mk) d
    | Ok (Updates ty i known key at_ op) =>
        wrap (update (repo := project_port deriveKey) ty i known key at_ (ProjectRuns.run_command op)) d
    end.
Proof.
  unfold ProjectCommandHandler.dispatch, wrap. rewrite project_handle_plan. by destruct (plan_of c eid) as [[]|].
Qed.

(** A project command is refused as a whole when one of its fields does not
    parse: every such field is listed, and the device is untouched. *)
Theorem project_command_validation (c : ProjectCommand) (eid : EventId) (d : device) :
  match plan_of c eid with
  | Ok _ => errors_of c = []
  | Err e =>
      dispatch c eid d = (match errors_of c with [] => failed (app_message e) | errors => Err errors end, d)
  end.
Proof.
  rewrite project_dispatch_plan. pose proof (project_plan_spec c eid) as H. destruct (plan_of c eid) as [p|e]; [done|].
  rewrite H. unfold refused. by destruct (errors_of c).
Qed.

(** What a command on a project does, on every branch: a repeated idempotency key answers
    without touching the device, or is refused when it was used for something else; a project
    without events is not found; a known version that is not the number of stored events is
    refused; an error of the project's method is reported; and otherwise the events it emits
    are appended to the stored history and the key is recorded. The method runs on exactly
    the replay of the stored events. *)
Theorem project_update_outcome (c : ProjectCommand) (eid : EventId) (d : device)
    (ty : string) (i : ProjectId) (known : number) (key : string) (at_ : Timestamp.t) (op : ProjectRuns.command)
    (k : list Z) (h : list Project.event) :
  plan_of c eid = Ok (Updates ty i known key at_ op) -> project_kept deriveKey i k h d ->
  match idempotency_keys d !! key with
  | Some r =>
      dispatch c eid d =
        (if made_for ty (value i) r then Ok (Handled (value i) None)
         else failed (app_message (reuse_detected r (ik_key r) ty (value i))), d)
  | None =>
      exists d1, same_tables d d1 /\ project_kept deriveKey i k h d1 /\
      match h with
      | [] => dispatch c eid d = (failed ("Project " +:+ value i +:+ " not found"), d1)
      | _ => exists p, ProjectRepository.load deriveKey i d = (Ok (Some p), d1) /\ id p = i /\ replays h p /\
          if num_eq (num (Z.of_nat (length h))) known then
            let '(r, p') := ProjectRuns.run_command op p in
            match r with
            | Err e => dispatch c eid d = (failed (error_message e), d1)
            | Ok _ => project_savable p' d -> exists d', dispatch c eid d = (Ok (Handled (value i) None), d') /\
                project_kept deriveKey i k (h ++ uncommitted p') d' /\ preserves (db d) (db d') /\
                idempotency_keys d' = <[key := IdemRecord key ty (value i) (Timestamp.millis at_)]> (idempotency_keys d)
            end
          else exists m, dispatch c eid d = (failed m, d1)
      end
  end.
Proof.
  intros Hp Hk. rewrite project_dispatch_plan, Hp.
  exact (update_outcome (laws := project_laws deriveKey) ty i known key at_ (ProjectRuns.run_command op) k h d Hk
    (ProjectRuns.project_command_emits_one op)).
Qed.

(** Creating a project on a device that has neither its key nor its events: when its dates
    are in the wrong order the error is reported and nothing is stored, not even a key;
    otherwise a key is drawn and stored, the creation event becomes the stored history, and
    sending the command again, or creating the project again in any other way, answers with
    that key and stores nothing. *)
Theorem project_create_outcome (c : ProjectCommand) (eid : EventId) (d : device) (i : ProjectId) (key : string)
    (at_ : Timestamp.t) (mk : result error Project.t) :
  let k := fresh_keys d 0 in
  plan_of c eid = Ok (Creates i key at_ mk) -> absent (stored := project_stored) i d ->
  idempotency_keys d !! key = None ->
  match mk with
  | Err e => e = Project.dates_error /\
      exists d', dispatch c eid d = (failed (error_message e), d') /\
        same_tables d d' /\ aggregate_keys d' = aggregate_keys d
  | Ok p => ProjectRepositoryProperties.can_save p d -> k <> [] -> usable k ->
      exists d', dispatch c eid d = (Ok (Handled (value i) (Some k)), d') /\
        project_kept deriveKey i k (uncommitted p) d' /\ preserves (db d) (db d') /\
        idempotency_keys d' !! key = Some (IdemRecord key "CreateProject" (value i) (Timestamp.millis at_)) /\
        forall c2 eid2 key2 at2 p2, plan_of c2 eid2 = Ok (Creates i key2 at2 p2) ->
          key2 = key \/ idempotency_keys d' !! key2 = None ->
          exists d'', dispatch c2 eid2 d' = (Ok (Handled (value i) (Some k)), d'') /\ same_tables d' d''
  end.
Proof.
  intros k Hp Ha Hn. destruct (project_plan_creates _ _ _ _ _ _ Hp) as (n & st & sd & td & de & g & cb & ca & Hmk).
  rewrite project_dispatch_plan, Hp. unfold Project.create, Project.check_dates in Hmk.
  destruct (LocalDate.isSameOrBefore sd td); simpl in Hmk; subst mk.
  - intros Hs Hne Hu. match type of Hs with ProjectRepositoryProperties.can_save ?x _ => set (p := x) in * end.
    destruct (create_outcome (laws := project_laws deriveKey) "CreateProject" i key at_ p d Ha Hn eq_refl
      ltac:(done) eq_refl (or_intror Hs) Hne Hu) as (d' & H1 & H2 & H3 & H4 & H5).
    exists d'. do 4 (split; [done|]).
    intros c2 eid2 key2 at2 p2 Hp2. rewrite project_dispatch_plan, Hp2. apply H5.
  - split; [done|]. pose proof (create_absent (laws := project_laws deriveKey) "CreateProject" i key at_
      (Err Project.dates_error) d Ha Hn) as (d' & Hd' & Ht & Hkeys).
    exists d'. split; [exact (wrap_run _ _ _ _ Hd')|done].
Qed.

(** Once a command on a project has succeeded, sending it again gives the same
    answer and leaves the device exactly as it was. *)
Theorem project_command_repeat (c c2 : ProjectCommand) (eid eid2 : EventId) (d d' : device)
    (ty : string) (i : ProjectId) (known known2 : number) (key : string) (at_ at2 : Timestamp.t)
    (op op2 : ProjectRuns.command) (k : list Z) (h : list Project.event) (r : CommandResult) :
  plan_of c eid = Ok (Updates ty i known key at_ op) -> plan_of c2 eid2 = Ok (Updates ty i known2 key at2 op2) ->
  project_kept deriveKey i k h d -> dispatch c eid d = (Ok r, d') ->
  dispatch c2 eid2 d' = (Ok r, d').
Proof.
  intros Hp Hp2 Hk. rewrite !project_dispatch_plan, Hp, Hp2.
  exact (update_repeat (laws := project_laws deriveKey) _ _ _ _ _ _ _ _ _ _ _ _ _ _ Hk
    (ProjectRuns.project_command_emits_one op)).
Qed.

End Properties.
End ProjectCommandProperties.

(** ** Witnesses *)

Module ProjectCommandWitnesses.
Import ApplicationLemmas KeyringLemmas RepositoryLemmas ProjectRepositoryLemmas ProjectRepositoryProperties
  ProjectCommandHandler ProjectPlans ProjectCommandProperties KeyringWitnesses ProjectRepositoryWitnesses.
#[local] Existing Instance toy_service.
Notation dispatch := (ProjectCommandHandler.dispatch (repo := project_port derive)).

Definition by_alice (key : string) : CommandMetadata := CommandMeta "alice" key None None.
Definition create_kitchen (target : string) : ProjectCommand :=
  CreateProject_ (Command (CreateProject.Payload id_a "Kitchen" "planned" "2026-01-01" target None None
    (num 1767225600000)) (by_alice "k1")).
Definition rename_kitchen (known : Z) : ProjectCommand :=
  ChangeProjectName_ (Command (ChangeProjectName.Payload id_a "Bathroom" (num 1767225600001) (num known)) (by_alice "k2")).

Lemma new_device_no_project : absent (stored := project_stored) project_1 new_device.
Proof.
  split; [exact new_device_entropy|]. split.
  { exists master. split; [done|]. intros iv p aad _. by eexists. }
  do 5 (split; [done|]). exact db_ok_empty.
Qed.

Lemma created_can_save_new : can_save ProjectRepositoryWitnesses.created new_device.
Proof.
  split; [done|]. split; [apply Forall_singleton; repeat split|].
  split; [apply NoDup_singleton|]. split; [apply Forall_singleton; set_solver|].
  eexists. split; [reflexivity|]. repeat split.
Qed.

Lemma project_create_outcome_witness :
  (exists d', dispatch (create_kitchen "2026-03-01") event_1 new_device = (Ok (Handled id_a (Some dek_1)), d') /\
    project_kept derive project_1 dek_1 ProjectRepositoryWitnesses.history_1 d') /\
  exists d', dispatch (create_kitchen "2025-03-01") event_1 new_device =
    (failed "Start date must be on or before target date", d') /\ aggregate_keys d' = ∅.
Proof.
  split.
  - destruct (project_create_outcome derive (create_kitchen "2026-03-01") event_1 new_device project_1 "k1" noon
      (Ok ProjectRepositoryWitnesses.created)) as (d' & H1 & H2 & _).
    + evaluate.
    + exact new_device_no_project.
    + reflexivity.
    + exact created_can_save_new.
    + done.
    + exact toy_usable_project.
    + exists d'. split; [exact H1|exact H2].
  - destruct (project_create_outcome derive (create_kitchen "2025-03-01") event_1 new_device project_1 "k1" noon
      (Err Project.dates_error)) as (_ & d' & H1 & _ & H2).
    + evaluate.
    + exact new_device_no_project.
    + reflexivity.
    + exists d'. split; [exact H1|exact H2].
Defined.

Lemma saved_project_kept : project_kept derive project_1 dek_1 ProjectRepositoryWitnesses.history_1 saved_project_device.
Proof.
  destruct (project_save_law derive project_1 dek_1 [] ProjectRepositoryWitnesses.created project_device)
    as (d' & Hs & Hk & _).
  - split; [exact project_device_holds|]. split; [exact I|by exists (fresh project_1)].
  - reflexivity.
  - reflexivity.
  - right. exact created_project_can_save.
  - unfold saved_project_device. by rewrite Hs.
Qed.

Example rename_accepted : (dispatch (rename_kitchen 1) event_2 saved_project_device).1 = Ok (Handled id_a None).
Proof. vm_compute. reflexivity. Qed.

Lemma project_update_outcome_witness :
  exists m d', dispatch (rename_kitchen 3) event_2 saved_project_device = (failed m, d').
Proof.
  destruct (project_update_outcome derive (rename_kitchen 3) event_2 saved_project_device "ChangeProjectName" project_1 (num 3) "k2"
    later (ProjectRuns.ChangeName bathroom later alice event_2) dek_1 ProjectRepositoryWitnesses.history_1)
    as (d1 & _ & _ & p & _ & _ & _ & m & Hm).
  - evaluate.
  - exact saved_project_kept.
  - exists m, d1. exact Hm.
Defined.

End ProjectCommandWitnesses.
