(* ===== verification/Saga.v ===== *)
(** * The goal achievement saga

    [packages/application/src/sagas/GoalAchievementSaga.ts]: a process manager
    that follows the events of projects and goals, achieves a goal when all the
    projects linked to it are completed, and takes that back when one is not.
    Its store is the two maps of [GoalAchievementStorePort]; [sent] records the
    commands it has dispatched, and [world] is what dispatching them acts on
    ([apps/web/src/bootstrap/createAppServices.ts] dispatches on the goals'
    command bus: Module [SagaOnDevice]).  A dispatch ends before the next event
    is handled: the publisher waits for its subscribers.

    The theorems: the book-keeping stays consistent, exactly the commands the
    goal's state calls for are sent, and completing the last project of a goal
    appends the goal's achievement to the stored history. *)

From S2P Require Import Prelude JsValues RecordCodec ValueObjects Dates EventCodec Goal Project Crypto LocalDb.
From S2P Require Import EventStore Samples Application Keyring EventAdapters Snapshots AggregateRoot.
From S2P Require Import Repository GoalRepository CommandHandler GoalCommands.

#[local] Existing Instance ProjectStatus.eq_dec.

(** ** States *)

Record GoalAchievementState : Type := GoalState {
  gs_goalId : string;
  linkedProjectIds : list string;
  completedProjectIds : list string;
  achieved : bool;
  archived : bool;
  achievementRequested : bool;
  gs_version : Z
}.

Record ProjectAchievementState : Type := ProjectState {
  ps_projectId : string;
  ps_goalId : option string;
  ps_status : option ProjectStatus.t
}.

Definition emptyGoalState (g : string) : GoalAchievementState := GoalState g [] [] false false false 0.
Definition emptyProjectState (p : string) : ProjectAchievementState := ProjectState p None None.

Definition set_linked l st :=
  GoalState (gs_goalId st) l (completedProjectIds st) (achieved st) (archived st) (achievementRequested st) (gs_version st).
Definition set_completed l st :=
  GoalState (gs_goalId st) (linkedProjectIds st) l (achieved st) (archived st) (achievementRequested st) (gs_version st).
Definition set_achieved b st :=
  GoalState (gs_goalId st) (linkedProjectIds st) (completedProjectIds st) b (archived st) (achievementRequested st) (gs_version st).
Definition set_archived b st :=
  GoalState (gs_goalId st) (linkedProjectIds st) (completedProjectIds st) (achieved st) b (achievementRequested st) (gs_version st).
Definition set_requested b st :=
  GoalState (gs_goalId st) (linkedProjectIds st) (completedProjectIds st) (achieved st) (archived st) b (gs_version st).
Definition set_version v st :=
  GoalState (gs_goalId st) (linkedProjectIds st) (completedProjectIds st) (achieved st) (archived st) (achievementRequested st) v.

Definition addLinkedProject (p : string) st :=
  if decide (p ∈ linkedProjectIds st) then st else set_linked (linkedProjectIds st ++ [p]) st.
Definition addCompletedProject (p : string) st :=
  if decide (p ∈ completedProjectIds st) then st else set_completed (completedProjectIds st ++ [p]) st.
Definition removeCompletedProject (p : string) st :=
  set_completed (filter (fun x => x <> p) (completedProjectIds st)) st.
Definition removeLinkedProject (p : string) st :=
  removeCompletedProject p (set_linked (filter (fun x => x <> p) (linkedProjectIds st)) st).

(** What a command takes over from the event that causes it. *)
Record origin : Type := Origin {
  o_eventId : string;
  o_actorId : string;
  o_occurredAt : number;
  o_correlationId : option string
}.
Definition origin_of {asserts} (m : EventMetadata (vo asserts)) : origin :=
  Origin (value (eventId m)) (value (actorId m)) (Timestamp.millis (occurredAt m)) (value <$> correlationId m).

(** The object [systemEvent] makes; the event id is fresh, [now] the clock. *)
Definition systemEvent (eid : EventId) (now : Timestamp.t) : origin :=
  Origin (value eid) "system" (Timestamp.millis now) (Some (value eid)).

Record saga (W : Type) : Type := Saga {
  goalStates : gmap string GoalAchievementState;
  projectStates : gmap string ProjectAchievementState;
  seenGoalIds : list string;
  replaying : bool;
  sent : list GoalCommand;
  world : W
}.
Arguments Saga {W}.
Arguments goalStates {W}.
Arguments projectStates {W}.
Arguments seenGoalIds {W}.
Arguments replaying {W}.
Arguments sent {W}.
Arguments world {W}.

Module GoalAchievementSaga.
Section Handlers.
Context {W : Type}.
Variable dispatch : GoalCommand -> js W app_error unit.
Notation run := (js (saga W) app_error).

(** *** The store *)

Definition getGoalState (g : string) : run (option GoalAchievementState) := gets (fun s => goalStates s !! g).
Definition saveGoalState (st : GoalAchievementState) : run unit := modify (fun s =>
  Saga (<[gs_goalId st := st]> (goalStates s)) (projectStates s) (seenGoalIds s) (replaying s) (sent s) (world s)).
Definition getProjectState (p : string) : run (option ProjectAchievementState) := gets (fun s => projectStates s !! p).
Definition saveProjectState (st : ProjectAchievementState) : run unit := modify (fun s =>
  Saga (goalStates s) (<[ps_projectId st := st]> (projectStates s)) (seenGoalIds s) (replaying s) (sent s) (world s)).
Definition removeProjectState (p : string) : run unit := modify (fun s =>
  Saga (goalStates s) (delete p (projectStates s)) (seenGoalIds s) (replaying s) (sent s) (world s)).
Definition resetAll : run unit := modify (fun s =>
  Saga ∅ ∅ (seenGoalIds s) (replaying s) (sent s) (world s)).

(** *** The saga's own fields *)

Definition see (g : string) : run unit := modify (fun s =>
  Saga (goalStates s) (projectStates s) (if decide (g ∈ seenGoalIds s) then seenGoalIds s else seenGoalIds s ++ [g])
    (replaying s) (sent s) (world s)).
Definition clear_seen : run unit := modify (fun s =>
  Saga (goalStates s) (projectStates s) [] (replaying s) (sent s) (world s)).
Definition set_replaying (b : bool) (s : saga W) : saga W :=
  Saga (goalStates s) (projectStates s) (seenGoalIds s) b (sent s) (world s).
Definition send (c : GoalCommand) : run unit := fun s =>
  let '(r, w) := dispatch c (world s) in
  (r, Saga (goalStates s) (projectStates s) (seenGoalIds s) (replaying s) (sent s ++ [c]) w).

Definition ensureGoalState (g : string) : run GoalAchievementState :=
  st ← getGoalState g;
  mret (default (emptyGoalState g) st).
Definition ensureProjectState (p : string) : run ProjectAchievementState :=
  st ← getProjectState p;
  mret (default (emptyProjectState p) st).

(** *** Commands *)

Definition allCompleted (st : GoalAchievementState) : bool :=
  forallb (fun p => bool_decide (p ∈ completedProjectIds st)) (linkedProjectIds st).
Definition unlinked (st : GoalAchievementState) : bool :=
  match linkedProjectIds st with [] => true | _ => false end.

Definition command_meta (key : string) (o : origin) : CommandMetadata :=
  CommandMeta (o_actorId o) key (Some (default (o_eventId o) (o_correlationId o))) (Some (o_eventId o)).
Definition achieve_command (st : GoalAchievementState) (o : origin) : result error (command AchieveGoal.t) :=
  BaseCommand (AchieveGoal.Payload (gs_goalId st) (o_occurredAt o) (num (gs_version st)))
    (Some (command_meta ("goal-achieve:" +:+ gs_goalId st +:+ ":" +:+ o_eventId o) o)).
Definition unachieve_command (st : GoalAchievementState) (o : origin) : result error (command UnachieveGoal.t) :=
  BaseCommand (UnachieveGoal.Payload (gs_goalId st) (o_occurredAt o) (num (gs_version st)))
    (Some (command_meta ("goal-unachieve:" +:+ gs_goalId st +:+ ":" +:+ string_of_Z (gs_version st)) o)).

(** The state object is mutated: it is given back as it is afterwards. *)
Definition maybeAchieveGoal (st : GoalAchievementState) (o : origin) (forceRetry : bool) : run GoalAchievementState :=
  if achieved st then mret st
  else if archived st then mret st
  else if unlinked st then mret st
  else if negb (allCompleted st) then mret st
  else if (gs_version st <=? 0)%Z then mret st
  else if achievementRequested st && negb forceRetry then mret st
  else
    c ← lift_result (lift_error (achieve_command st o));
    let requested := set_requested true st in
    _ ← saveGoalState requested;
    try_catch (_ ← send (AchieveGoal_ c); mret requested)
      (fun err =>
        let withdrawn := set_requested false requested in
        _ ← saveGoalState withdrawn;
        if isConcurrencyError err then mret withdrawn else throw err).

Definition maybeUnachieveGoal (st : GoalAchievementState) (o : origin) : run unit :=
  if negb (achieved st) && negb (achievementRequested st) then skip
  else if archived st then skip
  else if unlinked st then skip
  else if allCompleted st then skip
  else if (gs_version st <=? 0)%Z then skip
  else
    c ← lift_result (lift_error (unachieve_command st o));
    try_catch (send (UnachieveGoal_ c)) (fun err => if isConcurrencyError err then skip else throw err).

(** [if (!this.replaying) { achieve; unachieve }] *)
Definition settle (st : GoalAchievementState) (o : origin) : run unit :=
  replay ← gets replaying;
  if replay : bool then skip
  else
    st' ← maybeAchieveGoal st o (achievementRequested st);
    maybeUnachieveGoal st' o.

(** *** Project events *)

Definition handleProjectCreated (p : string) (g : option string) (status : ProjectStatus.t) (o : origin) : run unit :=
  _ ← saveProjectState (ProjectState p g (Some status));
  match g with
  | None => skip
  | Some goalId =>
      _ ← see goalId;
      st ← ensureGoalState goalId;
      let st := addLinkedProject p st in
      let st := if decide (status = ProjectStatus.Completed) then addCompletedProject p st else st in
      _ ← saveGoalState st;
      settle st o
  end.

Definition handleProjectGoalAdded (p goalId : string) (o : origin) : run unit :=
  project ← ensureProjectState p;
  _ ← saveProjectState (ProjectState p (Some goalId) (ps_status project));
  st ← ensureGoalState goalId;
  let st := addLinkedProject p st in
  let st := if decide (ps_status project = Some ProjectStatus.Completed) then addCompletedProject p st else st in
  _ ← saveGoalState st;
  _ ← see goalId;
  settle st o.

Definition handleProjectGoalRemoved (p : string) (o : origin) : run unit :=
  project ← ensureProjectState p;
  match ps_goalId project with
  | None => removeProjectState p
  | Some goalId =>
      _ ← saveProjectState (ProjectState p None (ps_status project));
      st ← ensureGoalState goalId;
      let st := removeLinkedProject p st in
      _ ← saveGoalState st;
      _ ← see goalId;
      replay ← gets replaying;
      if replay : bool then skip else maybeUnachieveGoal st o
  end.

Definition handleProjectStatusTransitioned (p : string) (status : ProjectStatus.t) (o : origin) : run unit :=
  project ← ensureProjectState p;
  _ ← saveProjectState (ProjectState p (ps_goalId project) (Some status));
  match ps_goalId project with
  | None => skip
  | Some goalId =>
      _ ← see goalId;
      st ← ensureGoalState goalId;
      let st := addLinkedProject p st in
      let st := if decide (status = ProjectStatus.Completed) then addCompletedProject p st else removeCompletedProject p st in
      _ ← saveGoalState st;
      settle st o
  end.

(** *** Goal events *)

(** [goalState.version = event.version ?? goalState.version + 1] after [f]. *)
Definition on_goal (f : GoalAchievementState -> GoalAchievementState) (g : string) (v : option Z) : run unit :=
  st ← ensureGoalState g;
  let st := f st in
  _ ← saveGoalState (set_version (default (gs_version st + 1)%Z v) st);
  see g.

Definition handleGoalEvent := on_goal (fun st => st).
Definition handleGoalAchieved := on_goal (fun st => set_requested false (set_achieved true st)).
Definition handleGoalUnachieved := on_goal (fun st => set_requested false (set_achieved false st)).
Definition handleGoalArchived := on_goal (fun st => set_requested false (set_archived true st)).

Definition handleEvent (e : domain_event) : run unit :=
  match e with
  | ProjectEvent e =>
      let o := origin_of (AggregateRoot.meta e) in
      match payload e with
      | Project.ProjectCreated p _ status _ _ _ g _ _ => handleProjectCreated (value p) (value <$> g) status o
      | Project.ProjectGoalAdded p g _ => handleProjectGoalAdded (value p) (value g) o
      | Project.ProjectGoalRemoved p _ => handleProjectGoalRemoved (value p) o
      | Project.ProjectStatusTransitioned p status _ => handleProjectStatusTransitioned (value p) status o
      | _ => skip
      end
  | GoalEvent e =>
      let v := event_version (AggregateRoot.meta e) in
      match payload e with
      | Goal.GoalAchieved g _ => handleGoalAchieved (value g) v
      | Goal.GoalUnachieved g _ => handleGoalUnachieved (value g) v
      | Goal.GoalArchived g _ => handleGoalArchived (value g) v
      | _ => handleGoalEvent (value (aggregateId (AggregateRoot.meta e))) v
      end
  end.

(** *** Start and rebase *)

(** [system g] is the system event made for the goal [g]. *)
Definition reconcile (system : string -> origin) (g : string) : run unit :=
  st ← getGoalState g;
  match st with
  | None => skip
  | Some st =>
      st' ← maybeAchieveGoal st (system g) true;
      maybeUnachieveGoal st' (system g)
  end.

Definition bootstrap (seedEvents : list domain_event) (system : string -> origin) : run unit :=
  _ ← clear_seen;
  _ ← modify (set_replaying true);
  _ ← for_each seedEvents handleEvent;
  _ ← modify (set_replaying false);
  seen ← gets seenGoalIds;
  for_each seen (reconcile system).

Definition onRebaseRequired (seedEvents : list domain_event) (system : string -> origin) : run unit :=
  _ ← resetAll;
  bootstrap seedEvents system.

End Handlers.
End GoalAchievementSaga.

(** ** The saga on a device *)

Module SagaOnDevice.

(** [message.includes(needle)] *)
Fixpoint includes (needle message : string) : bool :=
  String.prefix needle message ||
  match message with EmptyString => false | String _ rest => includes needle rest end.

Definition isConcurrencyFailure (errors : list ValidationError) : bool :=
  existsb (fun e => bool_decide (ve_field e = "application") && includes "version mismatch" (ve_message e)) errors.

(** The failure as the text the saga's error shows: [field:message, ...]. *)
Definition failure_text (errors : list ValidationError) : string :=
  String.concat ", " (map (fun e => ve_field e +:+ ":" +:+ ve_message e) errors).

(** What [createAppServices] gives the saga to dispatch with. *)
Definition dispatch_to_bus {port : CryptoServicePort} {repo : RepositoryPort GoalId Goal.fields_t Goal.event}
    (eid : EventId) (c : GoalCommand) : app unit := fun d =>
  let '(r, d') := GoalCommandHandler.dispatch c eid d in
  (match r with
   | Ok _ => Ok tt
   | Err errors =>
       if isConcurrencyFailure errors then Err (Infra (ConcurrencyError "Goal version mismatch"))
       else Err (plain ((match c with
         | UnachieveGoal_ _ => "Goal unachieve saga failed: "
         | _ => "Goal achievement saga failed: "
         end) +:+ failure_text errors))
   end, d').

End SagaOnDevice.

(** ** Lemmas *)

Module SagaLemmas.
Import GoalAchievementSaga.

(** The goal's state calls for its achievement, or for taking it back. *)
Definition wants_achieve (st : GoalAchievementState) : bool :=
  negb (achieved st) && negb (archived st) && negb (unlinked st) && allCompleted st && (0 <? gs_version st)%Z.
Definition wants_unachieve (st : GoalAchievementState) : bool :=
  (achieved st || achievementRequested st) && negb (archived st) && negb (unlinked st) && negb (allCompleted st) &&
  (0 <? gs_version st)%Z.

Definition achieve_sent (st : GoalAchievementState) (o : origin) : GoalCommand :=
  AchieveGoal_ (Command (AchieveGoal.Payload (gs_goalId st) (o_occurredAt o) (num (gs_version st)))
    (command_meta ("goal-achieve:" +:+ gs_goalId st +:+ ":" +:+ o_eventId o) o)).
Definition unachieve_sent (st : GoalAchievementState) (o : origin) : GoalCommand :=
  UnachieveGoal_ (Command (UnachieveGoal.Payload (gs_goalId st) (o_occurredAt o) (num (gs_version st)))
    (command_meta ("goal-unachieve:" +:+ gs_goalId st +:+ ":" +:+ string_of_Z (gs_version st)) o)).

Definition sends_unachieve (st : GoalAchievementState) (o : origin) : list GoalCommand :=
  if wants_unachieve st then [unachieve_sent st o] else [].
Definition sends (st : GoalAchievementState) (o : origin) : list GoalCommand :=
  if wants_achieve st then [achieve_sent st o] else sends_unachieve st o.

Section Lemmas.
Context {W : Type}.
Variable dispatch : GoalCommand -> js W app_error unit.
Implicit Types s : saga W.

Definition put_goal st s : saga W :=
  Saga (<[gs_goalId st := st]> (goalStates s)) (projectStates s) (seenGoalIds s) (replaying s) (sent s) (world s).
Definition put_project ps s : saga W :=
  Saga (goalStates s) (<[ps_projectId ps := ps]> (projectStates s)) (seenGoalIds s) (replaying s) (sent s) (world s).
Definition drop_project p s : saga W :=
  Saga (goalStates s) (delete p (projectStates s)) (seenGoalIds s) (replaying s) (sent s) (world s).
Definition saw g s : saga W :=
  Saga (goalStates s) (projectStates s) (if decide (g ∈ seenGoalIds s) then seenGoalIds s else seenGoalIds s ++ [g])
    (replaying s) (sent s) (world s).
Definition dispatched c s : saga W :=
  Saga (goalStates s) (projectStates s) (seenGoalIds s) (replaying s) (sent s ++ [c]) (dispatch c (world s)).2.

Definition goal_of g s : GoalAchievementState := default (emptyGoalState g) (goalStates s !! g).
Definition project_of p s : ProjectAchievementState := default (emptyProjectState p) (projectStates s !! p).

(** ** An event, split into book-keeping and what it then decides *)

Inductive follow_up : Type :=
| Nothing
| Settles (st : GoalAchievementState) (o : origin)
| MayUnachieve (st : GoalAchievementState) (o : origin).

Definition follow (f : follow_up) : js (saga W) app_error unit :=
  match f with
  | Nothing => skip
  | Settles st o => settle dispatch st o
  | MayUnachieve st o =>
      replay ← gets replaying;
      if replay : bool then skip else maybeUnachieveGoal dispatch st o
  end.

(** The goal's state once the project [p], whose status is [status], is linked to it. *)
Definition with_project (p : string) (status : option ProjectStatus.t) (st : GoalAchievementState) : GoalAchievementState :=
  let st := addLinkedProject p st in
  if decide (status = Some ProjectStatus.Completed) then addCompletedProject p st else st.
Definition with_status (p : string) (status : ProjectStatus.t) (st : GoalAchievementState) : GoalAchievementState :=
  let st := addLinkedProject p st in
  if decide (status = ProjectStatus.Completed) then addCompletedProject p st else removeCompletedProject p st.

Definition book_goal f g (v : option Z) s : saga W * follow_up :=
  let st := f (goal_of g s) in
  (saw g (put_goal (set_version (default (gs_version st + 1)%Z v) st) s), Nothing).

Definition book (e : domain_event) s : saga W * follow_up :=
  match e with
  | ProjectEvent e =>
      let o := origin_of (AggregateRoot.meta e) in
      match payload e with
      | Project.ProjectCreated p _ status _ _ _ g _ _ =>
          let s1 := put_project (ProjectState (value p) (value <$> g) (Some status)) s in
          match g with
          | None => (s1, Nothing)
          | Some g =>
              let st := with_project (value p) (Some status) (goal_of (value g) s1) in
              (put_goal st (saw (value g) s1), Settles st o)
          end
      | Project.ProjectGoalAdded p g _ =>
          let status := ps_status (project_of (value p) s) in
          let s1 := put_project (ProjectState (value p) (Some (value g)) status) s in
          let st := with_project (value p) status (goal_of (value g) s1) in
          (saw (value g) (put_goal st s1), Settles st o)
      | Project.ProjectGoalRemoved p _ =>
          match ps_goalId (project_of (value p) s) with
          | None => (drop_project (value p) s, Nothing)
          | Some g =>
              let s1 := put_project (ProjectState (value p) None (ps_status (project_of (value p) s))) s in
              let st := removeLinkedProject (value p) (goal_of g s1) in
              (saw g (put_goal st s1), MayUnachieve st o)
          end
      | Project.ProjectStatusTransitioned p status _ =>
          let s1 := put_project (ProjectState (value p) (ps_goalId (project_of (value p) s)) (Some status)) s in
          match ps_goalId (project_of (value p) s) with
          | None => (s1, Nothing)
          | Some g =>
              let st := with_status (value p) status (goal_of g s1) in
              (put_goal st (saw g s1), Settles st o)
          end
      | _ => (s, Nothing)
      end
  | GoalEvent e =>
      let v := event_version (AggregateRoot.meta e) in
      match payload e with
      | Goal.GoalAchieved g _ => book_goal (fun st => set_requested false (set_achieved true st)) (value g) v s
      | Goal.GoalUnachieved g _ => book_goal (fun st => set_requested false (set_achieved false st)) (value g) v s
      | Goal.GoalArchived g _ => book_goal (fun st => set_requested false (set_archived true st)) (value g) v s
      | _ => book_goal (fun st => st) (value (aggregateId (AggregateRoot.meta e))) v s
      end
  end.

Lemma some_decide (status : ProjectStatus.t) {A} (a b : A) :
  (if decide (Some status = Some ProjectStatus.Completed) then a else b) =
  (if decide (status = ProjectStatus.Completed) then a else b).
Proof. by destruct (decide (status = _)), (decide (Some status = _)); try congruence. Qed.

Lemma handleEvent_book e s : handleEvent dispatch e s = follow (book e s).2 (book e s).1.
Proof.
  destruct e as [[[] m]|[[] m]]; try reflexivity.
  - destruct goalId as [g|]; [|reflexivity]. cbn. unfold with_project. by rewrite some_decide.
  - cbn. unfold handleProjectStatusTransitioned, ensureProjectState, getProjectState, gets, mbind, js_bind, mret, js_ret.
    unfold project_of. by destruct (ps_goalId _).
  - cbn. unfold handleProjectGoalRemoved, ensureProjectState, getProjectState, gets, mbind, js_bind, mret, js_ret.
    unfold project_of. by destruct (ps_goalId _).
Qed.

(** ** What the decisions do *)

(** Same books, but for which achievements have been requested. *)
Definition same_books s s' : Prop :=
  projectStates s' = projectStates s /\ seenGoalIds s' = seenGoalIds s /\ replaying s' = replaying s /\
  forall g, set_requested false <$> goalStates s' !! g = set_requested false <$> goalStates s !! g.

Lemma same_books_refl s : same_books s s.
Proof. done. Qed.
Lemma same_books_trans s1 s2 s3 : same_books s1 s2 -> same_books s2 s3 -> same_books s1 s3.
Proof.
  intros (E1 & E2 & E3 & E4) (F1 & F2 & F3 & F4). split; [congruence|]. split; [congruence|]. split; [congruence|].
  intros g. by rewrite F4, E4.
Qed.

Lemma put_requested_books b st s : goalStates s !! gs_goalId st = Some st -> same_books s (put_goal (set_requested b st) s).
Proof.
  intros Hs. do 3 (split; [done|]). intros g. unfold put_goal.
  cbn [goalStates]. change (gs_goalId (set_requested b st)) with (gs_goalId st).
  destruct (decide (g = gs_goalId st)) as [->|Hg]; [by rewrite lookup_insert_eq, Hs|by rewrite lookup_insert_ne].
Qed.

Lemma send_run c s : send dispatch c s = ((dispatch c (world s)).1, dispatched c s).
Proof. unfold send, dispatched. by destruct (dispatch c (world s)). Qed.

(** An origin's actor has a name. *)
Definition named (o : origin) : Prop := is_empty (o_actorId o) = false.

Lemma achieve_command_ok st o : named o -> exists c, achieve_command st o = Ok c /\ AchieveGoal_ c = achieve_sent st o.
Proof. intros Ho. unfold achieve_command, BaseCommand. cbn [cm_actorId command_meta]. rewrite Ho. by eexists. Qed.
Lemma unachieve_command_ok st o : named o -> exists c, unachieve_command st o = Ok c /\ UnachieveGoal_ c = unachieve_sent st o.
Proof. intros Ho. unfold unachieve_command, BaseCommand. cbn [cm_actorId command_meta]. rewrite Ho. by eexists. Qed.

Lemma maybeUnachieve_run st o s : named o ->
  if wants_unachieve st then
    exists r, maybeUnachieveGoal dispatch st o s = (r, dispatched (unachieve_sent st o) s) /\
      (is_ok (dispatch (unachieve_sent st o) (world s)).1 = true -> r = Ok tt)
  else maybeUnachieveGoal dispatch st o s = (Ok tt, s).
Proof.
  intros Ho. unfold maybeUnachieveGoal, wants_unachieve.
  destruct (achieved st), (achievementRequested st); simpl;
    (destruct (archived st); [done|]); simpl; (destruct (unlinked st); [done|]); simpl;
    (destruct (allCompleted st); [done|]); simpl; try done;
    destruct (Z.leb_spec (gs_version st) 0), (Z.ltb_spec 0 (gs_version st)); try lia; try done;
    destruct (unachieve_command_ok st o Ho) as (c & -> & Hc);
    unfold lift_result, mbind, js_bind, try_catch; cbn [lift_error]; rewrite Hc, send_run;
    (destruct (dispatch (unachieve_sent st o) (world s)) as [[u|e] w]; simpl;
      [exists (Ok u); by destruct u|destruct (isConcurrencyError e); eexists; (split; [reflexivity|done])]).
Qed.

Lemma maybeAchieve_run st o force s : named o -> goalStates s !! gs_goalId st = Some st ->
  if wants_achieve st && (negb (achievementRequested st) || force) then
    exists r b s', maybeAchieveGoal dispatch st o force s = (r, s') /\
      same_books s s' /\ sent s' = sent s ++ [achieve_sent st o] /\
      world s' = (dispatch (achieve_sent st o) (world s)).2 /\
      goalStates s' !! gs_goalId st = Some (set_requested b st) /\
      (forall st', r = Ok st' -> st' = set_requested b st) /\
      (is_ok (dispatch (achieve_sent st o) (world s)).1 = true -> b = true /\ r = Ok (set_requested b st))
  else maybeAchieveGoal dispatch st o force s = (Ok st, s).
Proof.
  intros Ho Hs. unfold maybeAchieveGoal, wants_achieve.
  destruct (achieved st) eqn:Ea; [done|]. simpl. destruct (archived st) eqn:Er; [done|]. simpl.
  destruct (unlinked st) eqn:El; [done|]. simpl. destruct (allCompleted st) eqn:Ec; [|done]. simpl.
  destruct (Z.leb_spec (gs_version st) 0), (Z.ltb_spec 0 (gs_version st)); try lia; try done. simpl.
  destruct (achievementRequested st && negb force) eqn:Eq.
  { apply andb_true_iff in Eq as [-> Hf]. by destruct force. }
  assert (negb (achievementRequested st) || force = true) as -> by (by destruct (achievementRequested st), force).
  destruct (achieve_command_ok st o Ho) as (c & -> & Hc).
  unfold lift_result. unfold mbind at 1, js_bind at 1. cbn [lift_error].
  rewrite (js_bind_run_ok _ _ s tt (put_goal (set_requested true st) s) eq_refl).
  unfold try_catch. unfold mbind at 1, js_bind at 1. rewrite Hc, send_run.
  set (s1 := dispatched (achieve_sent st o) (put_goal (set_requested true st) s)).
  change (world (put_goal (set_requested true st) s)) with (world s).
  assert (goalStates s1 !! gs_goalId st = Some (set_requested true st)) as H1 by apply lookup_insert_eq.
  assert (same_books s s1) as Hb1 by (exact (put_requested_books true st s Hs)).
  destruct (dispatch (achieve_sent st o) (world s)) as [[[]|e] w] eqn:Ed; simpl.
  - exists (Ok (set_requested true st)), true, s1. split; [done|]. split; [done|]. split; [done|].
    split; [unfold s1, dispatched; simpl; by rewrite Ed|]. split; [done|]. split; [by intros ? [= <-]|done].
  - unfold mbind, js_bind.
    assert (same_books s (put_goal (set_requested false st) s1)) as Hb2.
    { apply (same_books_trans s s1); [done|]. exact (put_requested_books false (set_requested true st) s1 H1). }
    assert (goalStates (put_goal (set_requested false st) s1) !! gs_goalId st = Some (set_requested false st)) as H2
      by apply lookup_insert_eq.
    destruct (isConcurrencyError e); eexists _, false, (put_goal (set_requested false st) s1);
      (split; [reflexivity|]); (split; [done|]); (split; [done|]);
      (split; [unfold s1, dispatched; simpl; by rewrite Ed|]); (split; [done|]); (split; [by intros ? [= <-]|done]).
Qed.

(** What a run of [cs] leaves of the world, and whether each went through. *)
Definition world_after (cs : list GoalCommand) (w : W) : W :=
  match cs with [] => w | c :: _ => (dispatch c w).2 end.
Definition all_accepted (cs : list GoalCommand) (w : W) : bool :=
  match cs with [] => true | c :: _ => is_ok (dispatch c w).1 end.

Lemma wants_not_both st : wants_achieve st = true -> forall b, wants_unachieve (set_requested b st) = false.
Proof.
  unfold wants_achieve, wants_unachieve. rewrite !andb_true_iff. intros ((((_ & _) & _) & Hc) & _) b.
  change (allCompleted (set_requested b st)) with (allCompleted st). rewrite Hc. simpl. by rewrite !andb_false_r.
Qed.

Lemma settle_run st o s : replaying s = false -> named o -> goalStates s !! gs_goalId st = Some st ->
  exists r s', settle dispatch st o s = (r, s') /\ same_books s s' /\ sent s' = sent s ++ sends st o /\
    world s' = world_after (sends st o) (world s) /\ (all_accepted (sends st o) (world s) = true -> r = Ok tt).
Proof.
  intros Hr Ho Hs. unfold settle. unfold mbind at 1, js_bind at 1. unfold gets. rewrite Hr. unfold sends.
  pose proof (maybeAchieve_run st o (achievementRequested st) s Ho Hs) as H.
  assert (negb (achievementRequested st) || achievementRequested st = true) as Hf by (by destruct (achievementRequested st)).
  rewrite Hf, andb_true_r in H. destruct (wants_achieve st) eqn:Ew.
  - destruct H as (r & b & s' & Hrun & Hb & Hsent & Hw & _ & Hres & Hok). unfold mbind, js_bind. rewrite Hrun.
    destruct r as [st'|e].
    + rewrite (Hres st' eq_refl). pose proof (maybeUnachieve_run (set_requested b st) o s' Ho) as Hu.
      rewrite (wants_not_both st Ew b) in Hu. rewrite Hu. by exists (Ok tt), s'.
    + exists (Err e), s'. split; [done|]. do 3 (split; [done|]). intros Ha. simpl in Ha. by destruct (Hok Ha).
  - unfold mbind, js_bind. rewrite H. pose proof (maybeUnachieve_run st o s Ho) as Hu. unfold sends_unachieve.
    destruct (wants_unachieve st).
    + destruct Hu as (r & Hrun & Hok). exists r, (dispatched (unachieve_sent st o) s). by rewrite Hrun.
    + exists (Ok tt), s. by rewrite Hu, app_nil_r.
Qed.

Definition asked (f : follow_up) : list GoalCommand :=
  match f with
  | Nothing => []
  | Settles st o => sends st o
  | MayUnachieve st o => sends_unachieve st o
  end.

Lemma named_origin {asserts} (m : EventMetadata (vo asserts)) : named (origin_of m).
Proof. apply AdapterLemmas.value_nonempty. Qed.

(** The goal a decision is about has the state it is made on. *)
Definition well_formed (f : follow_up) s : Prop :=
  match f with
  | Nothing => True
  | Settles st o | MayUnachieve st o => named o /\ goalStates s !! gs_goalId st = Some st
  end.

Lemma book_frame e s : replaying (book e s).1 = replaying s /\ sent (book e s).1 = sent s /\
  world (book e s).1 = world s /\ well_formed (book e s).2 (book e s).1.
Proof.
  destruct e as [[[] m]|[[] m]]; cbn; try done.
  - destruct goalId as [g|]; [|done]. do 3 (split; [done|]). split; [apply named_origin|apply lookup_insert_eq].
  - destruct (ps_goalId _); [|done]. do 3 (split; [done|]). split; [apply named_origin|apply lookup_insert_eq].
  - do 3 (split; [done|]). split; [apply named_origin|apply lookup_insert_eq].
  - destruct (ps_goalId _); [|done]. do 3 (split; [done|]). split; [apply named_origin|apply lookup_insert_eq].
Qed.

(** An event handled while the saga is live: its books, and what is sent. *)
Lemma handleEvent_run e s : replaying s = false ->
  exists r s', handleEvent dispatch e s = (r, s') /\ same_books (book e s).1 s' /\
    sent s' = sent s ++ asked (book e s).2 /\ world s' = world_after (asked (book e s).2) (world s) /\
    (all_accepted (asked (book e s).2) (world s) = true -> r = Ok tt).
Proof.
  intros Hr. rewrite handleEvent_book. destruct (book_frame e s) as (H1 & H2 & H3 & Hw).
  destruct (book e s) as [s1 [|st o|st o]]; simpl in *.
  - exists (Ok tt), s1. by rewrite app_nil_r.
  - destruct Hw as [Ho Hs]. destruct (settle_run st o s1 ltac:(congruence) Ho Hs) as (r & s' & Hrun & Hb & Hse & Hwo & Hok).
    exists r, s'. rewrite <- H2, <- H3. done.
  - destruct Hw as [Ho Hs]. unfold gets, mbind, js_bind. rewrite H1, Hr.
    pose proof (maybeUnachieve_run st o s1 Ho) as Hu. unfold sends_unachieve. destruct (wants_unachieve st).
    + destruct Hu as (r & Hrun & Hok). exists r, (dispatched (unachieve_sent st o) s1). rewrite Hrun, <- H2, <- H3. done.
    + exists (Ok tt), s1. by rewrite Hu, app_nil_r.
Qed.

(** While it replays, only the books change. *)
Lemma handleEvent_replaying e s : replaying s = true -> handleEvent dispatch e s = (Ok tt, (book e s).1).
Proof.
  intros Hr. rewrite handleEvent_book. destruct (book_frame e s) as (H1 & _). rewrite Hr in H1.
  destruct (book e s) as [s1 [|st o|st o]]; simpl in *; [done| |]; unfold settle, gets, mbind, js_bind; by rewrite H1.
Qed.

(** ** Consistent books *)

Definition link p s : option string := projectStates s !! p ≫= ps_goalId.
Definition finished p s : Prop := (projectStates s !! p ≫= ps_status) = Some ProjectStatus.Completed.

(** The goal's lists are those of the projects that are linked to it. *)
Record tracks s (g : string) (st : GoalAchievementState) : Prop := {
  t_id : gs_goalId st = g;
  t_linked_once : NoDup (linkedProjectIds st);
  t_completed_once : NoDup (completedProjectIds st);
  t_linked p : p ∈ linkedProjectIds st <-> link p s = Some g;
  t_completed p : p ∈ completedProjectIds st <-> link p s = Some g /\ finished p s
}.

Record consistent s : Prop := {
  c_goals g st : goalStates s !! g = Some st -> tracks s g st;
  c_links p g : link p s = Some g -> is_Some (goalStates s !! g);
  c_projects p ps : projectStates s !! p = Some ps -> ps_projectId ps = p
}.

Lemma same_books_consistent s s' : same_books s s' -> consistent s -> consistent s'.
Proof.
  intros (Hp & _ & _ & Hg) [Hgoals Hlinks Hprojects].
  assert (forall p, link p s' = link p s) as Hl by (intros p; unfold link; by rewrite Hp).
  split.
  - intros g st Hst. specialize (Hg g). rewrite Hst in Hg. destruct (goalStates s !! g) as [st0|] eqn:E0; [|done].
    injection Hg as H1 H2 H3 H4 H5 H6. destruct (Hgoals g st0 E0) as [T1 T2 T3 T4 T5].
    split; [congruence|congruence|congruence| |].
    + intros p. by rewrite H2, Hl.
    + intros p. unfold finished. rewrite Hp. by rewrite H3, Hl.
  - intros p g Hlink. rewrite Hl in Hlink. destruct (Hlinks p g Hlink) as [st0 E0]. specialize (Hg g).
    rewrite E0 in Hg. destruct (goalStates s' !! g); [by eexists|done].
  - intros p ps. rewrite Hp. apply Hprojects.
Qed.

Lemma empty_consistent w : consistent (Saga ∅ ∅ [] false [] w).
Proof. by split. Qed.

Lemma goal_of_tracks g s : consistent s -> tracks s g (goal_of g s).
Proof.
  intros [Hgoals Hlinks _]. unfold goal_of. destruct (goalStates s !! g) as [st|] eqn:E0; [by apply Hgoals|].
  assert (forall p, link p s <> Some g) as Hno.
  { intros p Hp. destruct (Hlinks p g Hp). congruence. }
  split; [done|apply NoDup_nil_2|apply NoDup_nil_2| |]; intros p; simpl.
  - split; [intros []%elem_of_nil|intros Hp; by destruct (Hno p)].
  - split; [intros []%elem_of_nil|intros [Hp _]; by destruct (Hno p)].
Qed.

Lemma project_of_link p s : ps_goalId (project_of p s) = link p s.
Proof. unfold project_of, link. by destruct (projectStates s !! p). Qed.
Lemma project_of_status p s : ps_status (project_of p s) = projectStates s !! p ≫= ps_status.
Proof. unfold project_of. by destruct (projectStates s !! p). Qed.

(** What an update of the project [p] and of the goal [g] keeps consistent. *)
Lemma consistent_update p ps g st s s' : consistent s ->
  projectStates s' = <[p := ps]> (projectStates s) -> goalStates s' = <[gs_goalId st := st]> (goalStates s) ->
  ps_projectId ps = p -> (link p s = None \/ link p s = Some g) -> (ps_goalId ps = None \/ ps_goalId ps = Some g) ->
  tracks s' g st -> consistent s'.
Proof.
  intros [Hgoals Hlinks Hprojects] Hp Hg Hid Hold Hnew Ht. rewrite (t_id _ _ _ Ht) in Hg.
  assert (forall q, q <> p -> link q s' = link q s /\ (finished q s' <-> finished q s)) as Hother.
  { intros q Hq. unfold link, finished. by rewrite Hp, lookup_insert_ne. }
  assert (link p s' = ps_goalId ps) as Hlp by (unfold link; by rewrite Hp, lookup_insert_eq).
  split.
  - intros g' st'. rewrite Hg. destruct (decide (g = g')) as [<-|Hne].
    { rewrite lookup_insert_eq. by intros [= <-]. }
    rewrite lookup_insert_ne by done. intros Hst'. destruct (Hgoals g' st' Hst') as [T1 T2 T3 T4 T5].
    assert (forall q, link q s' = Some g' <-> link q s = Some g') as Hl.
    { intros q. destruct (decide (q = p)) as [->|Hq]; [|by rewrite (proj1 (Hother q Hq))].
      rewrite Hlp. destruct Hold as [-> | ->], Hnew as [-> | ->]; naive_solver. }
    split; [done|done|done|intros q; by rewrite Hl|]. intros q. rewrite Hl, T5. split; intros [Hlq Hf]; (split; [done|]).
    + assert (q <> p) as Hq by (intros ->; destruct Hold; congruence). by apply Hother.
    + assert (q <> p) as Hq by (intros ->; destruct Hold; congruence). by apply Hother.
  - intros q g' Hq. rewrite Hg. destruct (decide (g = g')) as [<-|Hne]; [rewrite lookup_insert_eq; by eexists|].
    rewrite lookup_insert_ne by done. apply (Hlinks q). destruct (decide (q = p)) as [->|Hqp].
    + rewrite Hlp in Hq. destruct Hnew; congruence.
    + by rewrite <- (proj1 (Hother q Hqp)).
  - intros q ps'. rewrite Hp. destruct (decide (p = q)) as [<-|Hne]; [rewrite lookup_insert_eq; by intros [= <-]|].
    rewrite lookup_insert_ne by done. apply Hprojects.
Qed.

(** A project that is linked to no goal, before and after. *)
Lemma consistent_unlinked p (o : option ProjectAchievementState) s s' : consistent s ->
  projectStates s' = partial_alter (fun _ => o) p (projectStates s) -> goalStates s' = goalStates s ->
  link p s = None -> (forall ps, o = Some ps -> ps_projectId ps = p /\ ps_goalId ps = None) -> consistent s'.
Proof.
  intros [Hgoals Hlinks Hprojects] Hp Hg Hold Hnew.
  assert (link p s' = None) as Hlp.
  { unfold link. rewrite Hp, lookup_partial_alter_eq. destruct o as [ps|]; [|done]. simpl. by destruct (Hnew ps eq_refl). }
  assert (forall q, link q s' = link q s) as Hl.
  { intros q. destruct (decide (q = p)) as [->|Hq]; [congruence|]. unfold link. by rewrite Hp, lookup_partial_alter_ne. }
  split.
  - intros g st. rewrite Hg. intros Hst. destruct (Hgoals g st Hst) as [T1 T2 T3 T4 T5].
    split; [done|done|done|intros q; by rewrite Hl|]. intros q. rewrite Hl, T5.
    destruct (decide (q = p)) as [->|Hq]; [rewrite Hold; naive_solver|].
    unfold finished. by rewrite Hp, lookup_partial_alter_ne.
  - intros q g. rewrite Hg, Hl. apply Hlinks.
  - intros q ps. rewrite Hp. destruct (decide (p = q)) as [<-|Hne].
    + rewrite lookup_partial_alter_eq. intros ->. by apply (Hnew ps).
    + rewrite lookup_partial_alter_ne by done. apply Hprojects.
Qed.

(** The lists after each of the operations on them. *)
Lemma addLinked_spec p st q : gs_goalId (addLinkedProject p st) = gs_goalId st /\
  (q ∈ linkedProjectIds (addLinkedProject p st) <-> q = p \/ q ∈ linkedProjectIds st) /\
  completedProjectIds (addLinkedProject p st) = completedProjectIds st /\
  (NoDup (linkedProjectIds st) -> NoDup (linkedProjectIds (addLinkedProject p st))).
Proof.
  unfold addLinkedProject. destruct (decide _) as [H|H]; simpl; [naive_solver|].
  split; [done|]. split; [rewrite elem_of_app, list_elem_of_singleton; tauto|]. split; [done|].
  intros Hn. apply NoDup_app. split; [done|]. split; [intros x Hx ->%list_elem_of_singleton; done|apply NoDup_singleton].
Qed.

Lemma addCompleted_spec p st q : gs_goalId (addCompletedProject p st) = gs_goalId st /\
  (q ∈ completedProjectIds (addCompletedProject p st) <-> q = p \/ q ∈ completedProjectIds st) /\
  linkedProjectIds (addCompletedProject p st) = linkedProjectIds st /\
  (NoDup (completedProjectIds st) -> NoDup (completedProjectIds (addCompletedProject p st))).
Proof.
  unfold addCompletedProject. destruct (decide _) as [H|H]; simpl; [naive_solver|].
  split; [done|]. split; [rewrite elem_of_app, list_elem_of_singleton; tauto|]. split; [done|].
  intros Hn. apply NoDup_app. split; [done|]. split; [intros x Hx ->%list_elem_of_singleton; done|apply NoDup_singleton].
Qed.

(** The project [p] with its new state: its link is that of the state, the
    other projects are as they were. *)
Lemma link_put p ps s s' q : projectStates s' = <[p := ps]> (projectStates s) ->
  (q = p -> link q s' = ps_goalId ps /\ (finished q s' <-> ps_status ps = Some ProjectStatus.Completed)) /\
  (q <> p -> link q s' = link q s /\ (finished q s' <-> finished q s)).
Proof.
  intros Hp. unfold link, finished. rewrite Hp. split.
  - intros ->. by rewrite lookup_insert_eq.
  - intros Hq. by rewrite lookup_insert_ne.
Qed.

(** The goal [g]'s state once [p] is linked to it. *)
Lemma tracks_linked p ps g s s' st0 st : tracks s g st0 -> projectStates s' = <[p := ps]> (projectStates s) ->
  ps_goalId ps = Some g -> (link p s = None \/ link p s = Some g) ->
  gs_goalId st = g -> NoDup (linkedProjectIds st) -> NoDup (completedProjectIds st) ->
  (forall q, q ∈ linkedProjectIds st <-> q = p \/ q ∈ linkedProjectIds st0) ->
  (forall q, q ∈ completedProjectIds st <->
    q = p /\ ps_status ps = Some ProjectStatus.Completed \/ q <> p /\ q ∈ completedProjectIds st0) ->
  tracks s' g st.
Proof.
  intros [_ _ _ T4 T5] Hp Hg Hold Hi Hn1 Hn2 Hl Hc. split; [done|done|done| |]; intros q;
    destruct (link_put p ps s s' q Hp) as [H1 H2]; destruct (decide (q = p)) as [Hq|Hq].
  - destruct (H1 Hq) as [-> _]. rewrite Hl, Hg. tauto.
  - destruct (H2 Hq) as [-> _]. rewrite Hl, T4. tauto.
  - destruct (H1 Hq) as [-> ->]. rewrite Hc, Hg. tauto.
  - destruct (H2 Hq) as [-> ->]. rewrite Hc, T5. tauto.
Qed.

Lemma tracks_with_project p ps g s s' : consistent s -> projectStates s' = <[p := ps]> (projectStates s) ->
  ps_goalId ps = Some g -> link p s = None -> tracks s' g (with_project p (ps_status ps) (goal_of g s)).
Proof.
  intros Hs Hp Hg Hold. pose proof (goal_of_tracks g s Hs) as Ht. pose proof Ht as [T1 T2 T3 T4 T5].
  assert (p ∉ completedProjectIds (goal_of g s)) as Hno by (rewrite T5, Hold; naive_solver).
  unfold with_project. destruct (addLinked_spec p (goal_of g s) p) as (L1 & _ & L3 & L4).
  destruct (decide (ps_status ps = Some ProjectStatus.Completed)) as [Hc|Hc].
  - destruct (addCompleted_spec p (addLinkedProject p (goal_of g s)) p) as (C1 & _ & C3 & C4).
    eapply (tracks_linked p ps g s s' _ _ Ht Hp Hg (or_introl Hold)); [congruence|rewrite C3; by apply L4|apply C4; by rewrite L3| |].
    + intros q. rewrite C3. apply addLinked_spec.
    + intros q. destruct (addCompleted_spec p (addLinkedProject p (goal_of g s)) q) as (_ & -> & _). rewrite L3.
      destruct (decide (q = p)) as [->|]; tauto.
  - eapply (tracks_linked p ps g s s' _ _ Ht Hp Hg (or_introl Hold)); [congruence|by apply L4|by rewrite L3|intros q; apply addLinked_spec|].
    intros q. rewrite L3. destruct (decide (q = p)) as [->|]; tauto.
Qed.

Lemma tracks_with_status p ps status g s s' : consistent s -> projectStates s' = <[p := ps]> (projectStates s) ->
  ps_goalId ps = Some g -> ps_status ps = Some status -> link p s = Some g ->
  tracks s' g (with_status p status (goal_of g s)).
Proof.
  intros Hs Hp Hg Hst Hold. pose proof (goal_of_tracks g s Hs) as Ht. pose proof Ht as [T1 T2 T3 T4 T5].
  unfold with_status. destruct (addLinked_spec p (goal_of g s) p) as (L1 & _ & L3 & L4).
  destruct (decide (status = ProjectStatus.Completed)) as [Hc|Hc].
  - destruct (addCompleted_spec p (addLinkedProject p (goal_of g s)) p) as (C1 & _ & C3 & C4).
    eapply (tracks_linked p ps g s s' _ _ Ht Hp Hg (or_intror Hold)); [congruence|rewrite C3; by apply L4|apply C4; by rewrite L3| |].
    + intros q. rewrite C3. apply addLinked_spec.
    + intros q. destruct (addCompleted_spec p (addLinkedProject p (goal_of g s)) q) as (_ & -> & _). rewrite L3, Hst, Hc.
      destruct (decide (q = p)) as [->|]; tauto.
  - eapply (tracks_linked p ps g s s' _ _ Ht Hp Hg (or_intror Hold)); [exact (eq_trans L1 T1)|by apply L4| |intros q; apply addLinked_spec|].
    + simpl. rewrite L3. by apply NoDup_filter.
    + intros q. simpl. rewrite list_elem_of_filter, L3, Hst. naive_solver.
Qed.

Lemma tracks_removed p ps g s s' : consistent s -> projectStates s' = <[p := ps]> (projectStates s) ->
  ps_goalId ps = None -> tracks s' g (removeLinkedProject p (goal_of g s)).
Proof.
  intros Hs Hp Hg. pose proof (goal_of_tracks g s Hs) as [T1 T2 T3 T4 T5].
  split; [exact T1|by apply NoDup_filter|by apply NoDup_filter| |]; intros q; simpl; rewrite list_elem_of_filter;
    destruct (link_put p ps s s' q Hp) as [H1 H2]; destruct (decide (q = p)) as [Hq|Hq].
  - destruct (H1 Hq) as [-> _]. rewrite Hg. naive_solver.
  - destruct (H2 Hq) as [-> _]. rewrite T4. tauto.
  - destruct (H1 Hq) as [-> _]. rewrite Hg. naive_solver.
  - destruct (H2 Hq) as [-> ->]. rewrite T5. tauto.
Qed.

(** A project is created once, and linked only when it has no goal: what the
    project aggregate enforces. *)
Definition lawful (e : domain_event) s : Prop :=
  match e with
  | ProjectEvent e =>
      match payload e with
      | Project.ProjectCreated p _ _ _ _ _ _ _ _ | Project.ProjectGoalAdded p _ _ => link (value p) s = None
      | _ => True
      end
  | GoalEvent _ => True
  end.

Lemma tracks_goal_fields f g v s : consistent s ->
  (forall st, gs_goalId (f st) = gs_goalId st /\ linkedProjectIds (f st) = linkedProjectIds st /\
    completedProjectIds (f st) = completedProjectIds st) ->
  consistent (book_goal f g v s).1.
Proof.
  intros Hs Hf. pose proof (goal_of_tracks g s Hs) as [T1 T2 T3 T4 T5]. destruct (Hf (goal_of g s)) as (F1 & F2 & F3).
  destruct Hs as [Hgoals Hlinks Hprojects]. unfold book_goal, put_goal, saw. simpl. rewrite F1, T1.
  set (st := set_version _ _). split; simpl.
  - intros g' st'. destruct (decide (g = g')) as [<-|Hne].
    + rewrite lookup_insert_eq. intros [= <-]. split; subst st; simpl; [by rewrite F1|by rewrite F2|by rewrite F3| |]; intros q.
      * by rewrite F2, T4.
      * by rewrite F3, T5.
    + rewrite lookup_insert_ne by done. intros Hst'. by destruct (Hgoals g' st' Hst').
  - intros p g' Hl. destruct (decide (g = g')) as [<-|Hne]; [rewrite lookup_insert_eq; by eexists|].
    rewrite lookup_insert_ne by done. by apply (Hlinks p).
  - apply Hprojects.
Qed.

Lemma book_consistent e s : consistent s -> lawful e s -> consistent (book e s).1.
Proof.
  intros Hs Hl. destruct e as [[[] m]|[[] m]]; cbn -[book_goal]; try done; try (by apply tracks_goal_fields).
  - cbn in Hl. set (ps := ProjectState (value projectId) (value <$> goalId) (Some status)).
    destruct goalId as [g|].
    + pose proof (tracks_with_project (value projectId) ps (value g) s (put_project ps s) Hs eq_refl eq_refl Hl) as Ht.
      eapply (consistent_update (value projectId) ps (value g) _ s _ Hs); [reflexivity|reflexivity|reflexivity|by left|by right|]; destruct Ht as [A B C D F]; by split.
    + apply (consistent_unlinked (value projectId) (Some ps) s); try done. by intros ? [= <-].
  - set (ps := ProjectState (value projectId) (ps_goalId (project_of (value projectId) s)) (Some status)).
    destruct (ps_goalId (project_of (value projectId) s)) as [g|] eqn:Eg; pose proof Eg as Eg'; rewrite project_of_link in Eg'.
    + pose proof (tracks_with_status (value projectId) ps status g s (put_project ps s) Hs eq_refl eq_refl eq_refl Eg') as Ht.
      eapply (consistent_update (value projectId) ps g _ s _ Hs); [reflexivity|reflexivity|reflexivity|by right|by right|]; destruct Ht as [A B C D F]; by split.
    + apply (consistent_unlinked (value projectId) (Some ps) s); try done. by intros ? [= <-].
  - cbn in Hl. set (ps := ProjectState (value projectId) (Some (value goalId)) (ps_status (project_of (value projectId) s))).
    pose proof (tracks_with_project (value projectId) ps (value goalId) s (put_project ps s) Hs eq_refl eq_refl Hl) as Ht.
    eapply (consistent_update (value projectId) ps (value goalId) _ s _ Hs); [reflexivity|reflexivity|reflexivity|by left|by right|]; destruct Ht as [A B C D F]; by split.
  - destruct (ps_goalId (project_of (value projectId) s)) as [g|] eqn:Eg; pose proof Eg as Eg'; rewrite project_of_link in Eg'.
    + set (ps := ProjectState (value projectId) None (ps_status (project_of (value projectId) s))).
      pose proof (tracks_removed (value projectId) ps g s (put_project ps s) Hs eq_refl eq_refl) as Ht.
      eapply (consistent_update (value projectId) ps g _ s _ Hs); [reflexivity|reflexivity|reflexivity|by right|by left|]; destruct Ht as [A B C D F]; by split.
    + by apply (consistent_unlinked (value projectId) None s).
Qed.

Lemma handleEvent_consistent e s : consistent s -> lawful e s -> consistent (handleEvent dispatch e s).2.
Proof.
  intros Hs Hl. pose proof (book_consistent e s Hs Hl) as Hb. destruct (replaying s) eqn:Er.
  - by rewrite handleEvent_replaying.
  - destruct (handleEvent_run e s Er) as (r & s' & -> & Hsame & _). by eapply same_books_consistent.
Qed.

(** ** Start-up *)

(** The states are stored under their own ids. *)
Definition keyed s : Prop := forall g st, goalStates s !! g = Some st -> gs_goalId st = g.

Lemma same_books_keyed s s' : same_books s s' -> keyed s -> keyed s'.
Proof.
  intros (_ & _ & _ & Hg) Hk g st Hst. specialize (Hg g). rewrite Hst in Hg.
  destruct (goalStates s !! g) as [st0|] eqn:E0; [|done]. injection Hg as -> _ _ _ _ _. by apply Hk.
Qed.

Lemma goal_of_keyed g s : keyed s -> gs_goalId (goal_of g s) = g.
Proof. intros Hk. unfold goal_of. destruct (goalStates s !! g) as [st|] eqn:E0; [by apply Hk|done]. Qed.

Lemma put_goal_keyed st s : keyed s -> keyed (put_goal st s).
Proof.
  intros Hk g st'. simpl. destruct (decide (gs_goalId st = g)) as [<-|Hne].
  - rewrite lookup_insert_eq. by intros [= <-].
  - rewrite lookup_insert_ne by done. apply Hk.
Qed.

Lemma book_keyed e s : keyed s -> keyed (book e s).1.
Proof.
  intros Hk. destruct e as [[[] m]|[[] m]]; cbn -[put_goal]; try done; try (by apply put_goal_keyed).
  - destruct goalId; [|done]. by apply (put_goal_keyed _ (saw _ _)).
  - destruct (ps_goalId _); [|done]. by apply (put_goal_keyed _ (saw _ _)).
  - destruct (ps_goalId _); [|done]. by apply (put_goal_keyed _ (put_project _ _)).
Qed.

Lemma replay_keyed es s : replaying s = true -> keyed s -> exists s',
  for_each es (handleEvent dispatch) s = (Ok tt, s') /\ keyed s' /\ replaying s' = true /\ sent s' = sent s /\ world s' = world s.
Proof.
  revert s. induction es as [|e es IH]; intros s Hr Hk; [by exists s|].
  destruct (book_frame e s) as (H1 & H2 & H3 & _).
  destruct (IH (book e s).1) as (s' & Hs' & Hk' & Hr' & Hse & Hw); [congruence|by apply book_keyed|].
  exists s'. split; [|repeat split; congruence || done]. simpl. unfold mbind, js_bind. by rewrite handleEvent_replaying.
Qed.

(** What is sent does not depend on what has been requested. *)
Lemma same_wants st st' : set_requested false st' = set_requested false st ->
  wants_achieve st' = wants_achieve st /\ (forall o, achieve_sent st' o = achieve_sent st o).
Proof.
  destruct st, st'. intros [= -> -> -> -> -> ->]. split; [reflexivity|intros o; reflexivity].
Qed.

(** No dispatch fails other than by a version conflict. *)
Definition tolerated : Prop := forall c w e, (dispatch c w).1 = Err e -> isConcurrencyError e = true.

Lemma maybeUnachieve_tolerated st o s : tolerated -> named o ->
  exists s', maybeUnachieveGoal dispatch st o s = (Ok tt, s') /\ same_books s s' /\ exists new, sent s' = sent s ++ new.
Proof.
  intros Ht Ho. unfold maybeUnachieveGoal.
  repeat (match goal with |- context [if ?b then skip else _] => destruct b end;
    [exists s; split; [done|]; split; [apply same_books_refl|exists []; by rewrite app_nil_r]|]).
  destruct (unachieve_command_ok st o Ho) as (c & -> & Hc). unfold lift_result, mbind, js_bind, try_catch.
  cbn [lift_error]. rewrite send_run. pose proof (Ht (UnachieveGoal_ c) (world s)) as Hf.
  exists (dispatched (UnachieveGoal_ c) s). split; [|split; [done|by exists [UnachieveGoal_ c]]].
  destruct (dispatch _ _) as [[[]|e] w]; simpl in *; [done|]. by rewrite (Hf e eq_refl).
Qed.

Lemma maybeAchieve_tolerated st o s : tolerated -> named o -> goalStates s !! gs_goalId st = Some st ->
  exists b s', maybeAchieveGoal dispatch st o true s = (Ok (set_requested b st), s') /\ same_books s s' /\
    sent s' = sent s ++ (if wants_achieve st then [achieve_sent st o] else []).
Proof.
  intros Ht Ho Hs. unfold maybeAchieveGoal.
  pose proof (maybeAchieve_run st o true s Ho Hs) as H. rewrite orb_true_r, andb_true_r in H.
  destruct (wants_achieve st) eqn:Ew.
  - destruct H as (r & b & s' & Hrun & Hb & Hse & _ & _ & Hres & _).
    assert (exists st', r = Ok st') as [st' ->].
    { clear -Ht Ho Hrun Ew. unfold wants_achieve in Ew. rewrite !andb_true_iff in Ew.
      destruct Ew as ((((H1 & H2) & H3) & H4) & H5). apply negb_true_iff in H1, H2, H3.
      unfold maybeAchieveGoal in Hrun. rewrite H1, H2, H3, H4 in Hrun. simpl in Hrun.
      destruct (Z.leb_spec (gs_version st) 0); [apply Z.ltb_lt in H5; lia|]. rewrite andb_false_r in Hrun.
      destruct (achieve_command_ok st o Ho) as (c & Hc & _). rewrite Hc in Hrun.
      unfold lift_result, mbind, js_bind, try_catch in Hrun. cbn [lift_error] in Hrun.
      unfold saveGoalState, modify in Hrun. rewrite send_run in Hrun. pose proof (Ht (AchieveGoal_ c) (world s)) as Hf.
      simpl in Hrun. destruct (dispatch (AchieveGoal_ c) (world s)) as [[[]|e] w] eqn:Ed; simpl in *.
      - injection Hrun as <- _. by eexists.
      - rewrite (Hf e eq_refl) in Hrun. injection Hrun as <- _. by eexists. }
    rewrite (Hres st' eq_refl) in Hrun. by exists b, s'.
  - exists (achievementRequested st), s. split; [by destruct st|]. split; [apply same_books_refl|by rewrite app_nil_r].
Qed.

Lemma reconcile_run system g s : tolerated -> (forall g, named (system g)) -> keyed s ->
  exists s' new, reconcile dispatch system g s = (Ok tt, s') /\ same_books s s' /\ sent s' = sent s ++ new /\
    forall st, goalStates s !! g = Some st -> wants_achieve st = true -> achieve_sent st (system g) ∈ new.
Proof.
  intros Ht Hn Hk. unfold reconcile, getGoalState, gets. unfold mbind at 1, js_bind at 1.
  destruct (goalStates s !! g) as [st|] eqn:Eg.
  - assert (goalStates s !! gs_goalId st = Some st) as Eg' by (by rewrite (Hk g st Eg)).
    destruct (maybeAchieve_tolerated st (system g) s Ht (Hn g) Eg') as (b & s1 & Hrun & Hb & Hse).
    destruct (maybeUnachieve_tolerated (set_requested b st) (system g) s1 Ht (Hn g)) as (s2 & Hrun2 & Hb2 & new & Hse2).
    exists s2, ((if wants_achieve st then [achieve_sent st (system g)] else []) ++ new).
    unfold mbind, js_bind. rewrite Hrun. split; [done|]. split; [by eapply same_books_trans|].
    split; [by rewrite Hse2, Hse, app_assoc|]. intros st' [= <-] ->. apply elem_of_app. left. by apply list_elem_of_singleton.
  - exists s, []. split; [done|]. split; [apply same_books_refl|]. split; [by rewrite app_nil_r|done].
Qed.

Lemma reconcile_all system l s : tolerated -> (forall g, named (system g)) -> keyed s ->
  exists s' new, for_each l (reconcile dispatch system) s = (Ok tt, s') /\ same_books s s' /\ sent s' = sent s ++ new /\
    forall g st, g ∈ l -> goalStates s' !! g = Some st -> wants_achieve st = true -> achieve_sent st (system g) ∈ new.
Proof.
  intros Ht Hn. revert s. induction l as [|g l IH]; intros s Hk.
  { exists s, []. split; [done|]. split; [apply same_books_refl|]. split; [by rewrite app_nil_r|by intros g st []%elem_of_nil]. }
  destruct (reconcile_run system g s Ht Hn Hk) as (s1 & new1 & H1 & Hb1 & Hs1 & Hw1).
  destruct (IH s1 (same_books_keyed _ _ Hb1 Hk)) as (s2 & new2 & H2 & Hb2 & Hs2 & Hw2).
  exists s2, (new1 ++ new2). split; [simpl; unfold mbind, js_bind; by rewrite H1|].
  split; [by eapply same_books_trans|]. split; [by rewrite Hs2, Hs1, app_assoc|].
  intros g' st Hg' Hst Hw. apply elem_of_app. apply elem_of_cons in Hg' as [->|Hg'].
  - left. destruct (same_books_trans _ _ _ Hb1 Hb2) as (_ & _ & _ & Hsame). specialize (Hsame g). rewrite Hst in Hsame.
    destruct (goalStates s !! g) as [st0|] eqn:E0; [|done]. apply (inj Some) in Hsame.
    destruct (same_wants _ _ Hsame) as [Hw0 Hc0]. rewrite Hc0. apply Hw1; [done|by rewrite <- Hw0].
  - right. by apply Hw2.
Qed.

Lemma reconcile_books system l s : (forall g, named (system g)) -> keyed s ->
  same_books s (for_each l (reconcile dispatch system) s).2.
Proof.
  intros Hn. revert s. induction l as [|g l IH]; intros s Hk; [apply same_books_refl|].
  assert (exists r s1, reconcile dispatch system g s = (r, s1) /\ same_books s s1) as (r & s1 & H1 & Hb1).
  { unfold reconcile, getGoalState, gets. unfold mbind at 1, js_bind at 1.
    destruct (goalStates s !! g) as [st|] eqn:Eg; [|eexists _, s; split; [reflexivity|apply same_books_refl]].
    assert (goalStates s !! gs_goalId st = Some st) as Eg' by (by rewrite (Hk g st Eg)).
    pose proof (maybeAchieve_run st (system g) true s (Hn g) Eg') as H. unfold mbind, js_bind.
    assert (forall st0 s0, exists r s1, maybeUnachieveGoal dispatch st0 (system g) s0 = (r, s1) /\ same_books s0 s1) as Hu.
    { intros st0 s0. pose proof (maybeUnachieve_run st0 (system g) s0 (Hn g)) as Hu. destruct (wants_unachieve st0).
      - destruct Hu as (r & -> & _). by eexists _, _.
      - rewrite Hu. eexists _, s0. split; [reflexivity|apply same_books_refl]. }
    destruct (wants_achieve st && _).
    - destruct H as (r & b & s1 & -> & Hb & _). destruct r as [st'|e]; [|by eexists _, s1].
      destruct (Hu st' s1) as (r & s2 & -> & Hb2). eexists r, s2. split; [done|]. by eapply same_books_trans.
    - rewrite H. apply Hu. }
  simpl. unfold mbind, js_bind. rewrite H1. destruct r as [[]|]; [|done].
  eapply same_books_trans; [exact Hb1|]. apply IH. by eapply same_books_keyed.
Qed.

(** Each event is lawful on the books that the earlier ones leave. *)
Fixpoint lawful_history (es : list domain_event) s : Prop :=
  match es with
  | [] => True
  | e :: es => lawful e s /\ lawful_history es (book e s).1
  end.

Lemma replay_consistent es s : replaying s = true -> consistent s -> lawful_history es s ->
  exists s', for_each es (handleEvent dispatch) s = (Ok tt, s') /\ consistent s' /\ replaying s' = true.
Proof.
  revert s. induction es as [|e es IH]; intros s Hr Hs Hl; [by exists s|]. destruct Hl as [Hl Hes].
  destruct (book_frame e s) as (H1 & _).
  destruct (IH (book e s).1) as (s' & Hs' & Hc & Hr'); [congruence|by apply book_consistent|done|].
  exists s'. split; [|done]. simpl. unfold mbind, js_bind. by rewrite handleEvent_replaying.
Qed.

Lemma consistent_keyed s : consistent s -> keyed s.
Proof. intros Hs g st Hst. by destruct (c_goals _ Hs g st Hst). Qed.

(** What [bootstrap] does once the events are replayed. *)
Lemma bootstrap_run es system s s1 :
  for_each es (handleEvent dispatch) (set_replaying true (clear_seen s).2) = (Ok tt, s1) ->
  bootstrap dispatch es system s = for_each (seenGoalIds s1) (reconcile dispatch system) (set_replaying false s1).
Proof.
  intros H. unfold bootstrap. unfold mbind at 1, js_bind at 1, clear_seen, modify. unfold mbind at 1, js_bind at 1.
  unfold mbind at 1, js_bind at 1. simpl in H. rewrite H. reflexivity.
Qed.

End Lemmas.
End SagaLemmas.

(** ** Properties *)

Module SagaProperties.
Import GoalAchievementSaga SagaLemmas.
Section Properties.
Context {W : Type}.
Variable dispatch : GoalCommand -> js W app_error unit.
Implicit Types s : saga W.

(** The states of the saga: events as they are published, and rebases, which
    replay the whole history from nothing. *)
Inductive reachable : saga W -> Prop :=
| at_start w : reachable (Saga ∅ ∅ [] false [] w)
| after_event e s : reachable s -> lawful e s -> reachable (handleEvent dispatch e s).2
| after_rebase es system s : reachable s -> (forall g, named (system g)) ->
    lawful_history es (set_replaying true (clear_seen (resetAll s).2).2) ->
    reachable (onRebaseRequired dispatch es system s).2.

(** The saga keeps true books: whatever events are published and however often it
    rebases, the projects it has linked to a goal are exactly those whose current goal it
    is, those it counts as completed are exactly those whose status is completed, and none
    is counted twice. *)
Theorem saga_tracks s : reachable s -> consistent s.
Proof.
  induction 1 as [w|e s _ IH Hl|es system s _ IH Hn Hl].
  - apply empty_consistent.
  - by apply handleEvent_consistent.
  - unfold onRebaseRequired. unfold mbind at 1, js_bind at 1. unfold resetAll, modify.
    set (s0 := Saga ∅ ∅ _ _ _ _) in *.
    destruct (replay_consistent dispatch es (set_replaying true (clear_seen s0).2)) as (s1 & H1 & Hc & _); [done|by split|done|].
    rewrite (bootstrap_run dispatch es system s0 s1 H1).
    assert (consistent (set_replaying false s1)) as Hc'.
    { destruct Hc as [C1 C2 C3]. split; [|exact C2|exact C3]. intros g st Hst. by destruct (C1 g st Hst). }
    eapply same_books_consistent; [|exact Hc']. by apply reconcile_books; [|apply consistent_keyed].
Qed.

(** The goal whose achievement an event makes the saga consider. *)
Definition settles (e : domain_event) s : option string :=
  match e with
  | ProjectEvent e =>
      match payload e with
      | Project.ProjectCreated _ _ _ _ _ _ g _ _ => value <$> g
      | Project.ProjectGoalAdded _ g _ => Some (value g)
      | Project.ProjectStatusTransitioned p _ _ => link (value p) s
      | _ => None
      end
  | GoalEvent _ => None
  end.

Lemma book_settles e s g : keyed s -> settles e s = Some g ->
  exists st o, (book e s).2 = Settles st o /\ gs_goalId st = g.
Proof.
  intros Hk Hg. destruct e as [[[] m]|[[] m]]; cbn in Hg; try done; cbn.
  - destruct goalId as [g'|]; [|done]. injection Hg as <-. eexists _, _. split; [reflexivity|]. unfold with_project.
    destruct (decide _); [rewrite (proj1 (addCompleted_spec _ _ (value projectId)))|];
      rewrite (proj1 (addLinked_spec _ _ (value projectId))); by apply goal_of_keyed.
  - rewrite <- project_of_link in Hg. rewrite Hg. eexists _, _. split; [reflexivity|]. unfold with_status.
    destruct (decide _); [rewrite (proj1 (addCompleted_spec _ _ (value projectId)))|];
      (etransitivity; [apply (addLinked_spec _ _ (value projectId))|]; by apply goal_of_keyed).
  - injection Hg as <-. eexists _, _. split; [reflexivity|]. unfold with_project.
    destruct (decide _); [rewrite (proj1 (addCompleted_spec _ _ (value projectId)))|];
      rewrite (proj1 (addLinked_spec _ _ (value projectId))); by apply goal_of_keyed.
Qed.

Lemma book_not_settles e s : settles e s = None -> forall st o, (book e s).2 <> Settles st o.
Proof.
  intros Hg st o. destruct e as [[[] m]|[[] m]]; cbn in Hg; try done; cbn.
  - by destruct goalId.
  - rewrite <- project_of_link in Hg. by rewrite Hg.
  - by destruct (ps_goalId _).
Qed.

(** The goal must not stand as achieved: some linked project is not completed. *)
Definition incomplete (st : GoalAchievementState) : bool :=
  negb (archived st) && negb (unlinked st) && negb (allCompleted st) && (0 <? gs_version st)%Z.

(** C17: The commands follow the books, outside of a replay. An event sends at most one
    command. An AchieveGoal is sent only for a goal that is known, neither achieved nor
    archived, and whose linked projects (at least one) are all completed; an UnachieveGoal
    only for one with a linked project that is not completed; both carry the version the
    saga knows. An event that creates, links or moves a project of such a complete goal does
    send the AchieveGoal; any other event, in particular the removal of the last project
    that was not completed, never does. *)
Theorem saga_sends e s : replaying s = false -> keyed s ->
  exists r s' new, handleEvent dispatch e s = (r, s') /\ sent s' = sent s ++ new /\
    match new with
    | [] => True
    | [AchieveGoal_ c] => exists st, goalStates s' !! AchieveGoal.goalId (body c) = Some st /\
        wants_achieve st = true /\ AchieveGoal.knownVersion (body c) = num (gs_version st)
    | [UnachieveGoal_ c] => exists st, goalStates s' !! UnachieveGoal.goalId (body c) = Some st /\
        incomplete st = true /\ UnachieveGoal.knownVersion (body c) = num (gs_version st)
    | _ => False
    end /\
    match settles e s with
    | Some g => forall st, goalStates s' !! g = Some st -> wants_achieve st = true ->
        exists c, new = [AchieveGoal_ c] /\ AchieveGoal.goalId (body c) = g
    | None => forall c, AchieveGoal_ c ∉ new
    end.
Proof.
  intros Hr Hk. destruct (handleEvent_run dispatch e s Hr) as (r & s' & Hrun & (_ & _ & _ & Hsame) & Hse & _).
  exists r, s', (asked (book e s).2). split; [done|]. split; [done|].
  destruct (book_frame e s) as (_ & _ & _ & Hwf).
  assert (forall st, goalStates (book e s).1 !! gs_goalId st = Some st ->
    exists st', goalStates s' !! gs_goalId st = Some st' /\ set_requested false st' = set_requested false st) as Hst.
  { intros st Hst. specialize (Hsame (gs_goalId st)). rewrite Hst in Hsame.
    destruct (goalStates s' !! gs_goalId st) as [st'|]; [|done]. exists st'. split; [done|]. by apply (inj Some) in Hsame. }
  assert (forall st st', set_requested false st' = set_requested false st ->
    wants_achieve st' = wants_achieve st /\ incomplete st' = incomplete st /\ gs_version st' = gs_version st) as Hsw.
  { intros [] [] [= -> -> -> -> -> ->]. done. }
  assert (forall st, wants_unachieve st = true -> incomplete st = true) as Hinc.
  { intros st Hw. unfold wants_unachieve, incomplete in *. rewrite !andb_true_iff in *. tauto. }
  split.
  - destruct (book e s).2 as [|st o|st o]; simpl in *; [done| |]; destruct Hwf as [_ Hwf];
      destruct (Hst st Hwf) as (st' & Hst' & Heq); destruct (Hsw st st' Heq) as (W1 & W2 & W3).
    + unfold sends. destruct (wants_achieve st) eqn:Ew.
      * exists st'. split; [exact Hst'|]. split; [congruence|]. simpl. by rewrite W3.
      * unfold sends_unachieve. destruct (wants_unachieve st) eqn:Eu; [|done].
        exists st'. split; [exact Hst'|]. split; [rewrite W2; by apply Hinc|]. simpl. by rewrite W3.
    + unfold sends_unachieve. destruct (wants_unachieve st) eqn:Eu; [|done].
      exists st'. split; [exact Hst'|]. split; [rewrite W2; by apply Hinc|]. simpl. by rewrite W3.
  - destruct (settles e s) as [g|] eqn:Eg.
    + destruct (book_settles e s g Hk Eg) as (st & o & Hf & Hi). rewrite Hf in *. destruct Hwf as [_ Hwf].
      intros st2 Hst2 Hw. destruct (Hst st Hwf) as (st' & Hst' & Heq). rewrite Hi, Hst2 in Hst'. injection Hst' as <-.
      destruct (Hsw st st2 Heq) as (W1 & _ & _). simpl. unfold sends. rewrite <- W1, Hw. by eexists.
    + pose proof (book_not_settles e s Eg) as Hno. intros c. destruct (book e s).2 as [|st o|st o]; simpl.
      * apply not_elem_of_nil.
      * by destruct (Hno st o).
      * unfold sends_unachieve. destruct (wants_unachieve st); [|apply not_elem_of_nil].
        intros Hc%list_elem_of_singleton. unfold unachieve_sent in Hc. discriminate Hc.
Qed.

(** No achievement is lost for good: when the application starts (or rebases), the saga
    replays the history and then sends the AchieveGoal of every goal of the history whose
    projects are all completed and that is neither achieved nor archived, also when it had
    been requested before and the request came to nothing. *)
Theorem saga_bootstrap (es : list domain_event) (system : string -> origin) s :
  tolerated dispatch -> (forall g, named (system g)) -> keyed s ->
  exists s', bootstrap dispatch es system s = (Ok tt, s') /\
    forall g st, g ∈ seenGoalIds s' -> goalStates s' !! g = Some st -> wants_achieve st = true ->
      achieve_sent st (system g) ∈ sent s'.
Proof.
  intros Ht Hn Hk. destruct (replay_keyed dispatch es (set_replaying true (clear_seen s).2) eq_refl Hk)
    as (s1 & H1 & Hk1 & _ & _ & _).
  rewrite (bootstrap_run dispatch es system s s1 H1).
  destruct (reconcile_all dispatch system (seenGoalIds s1) (set_replaying false s1) Ht Hn Hk1)
    as (s2 & new & H2 & (_ & Hseen & _) & Hs2 & Hw).
  exists s2. split; [exact H2|]. intros g st Hg Hst Hwa. rewrite Hs2. apply elem_of_app. right.
  apply Hw; [|done|done]. rewrite Hseen in Hg. exact Hg.
Qed.

End Properties.
End SagaProperties.

(** ** From the last completed project to the stored achievement *)

Module SagaDeviceLemmas.
Import GoalAchievementSaga SagaLemmas SagaOnDevice ApplicationLemmas RepositoryLemmas GoalRepositoryLemmas
  GoalRepositoryProperties CommandHandlerLemmas GoalPlans AdapterLemmas.

(** The text starts with a character that [trim] keeps. *)
Lemma drop_spaces_last l c : is_space c = false -> drop_spaces (l ++ [c]) <> [].
Proof.
  intros Hc. induction l as [|x l IH]; simpl; [by rewrite Hc|]. by destruct (is_space x).
Qed.

Lemma trim_nonempty c s : is_space c = false -> (strlen (trim (String c s)) =? 0)%Z = false.
Proof.
  intros Hc. apply Z.eqb_neq. unfold strlen, trim. rewrite length_of_chars, length_rev. simpl. rewrite Hc. simpl.
  destruct (drop_spaces (rev (chars s) ++ [c])) eqn:E; simpl; [|lia]. by destruct (drop_spaces_last _ _ Hc E).
Qed.

Lemma parse_version n : parseKnownVersion (num (Z.of_nat n)) = Ok (num (Z.of_nat n)).
Proof.
  unfold parseKnownVersion. rewrite isInteger_num.
  assert (num_ltb (num (Z.of_nat n)) 0 = false) as ->; [|done]. apply Z.ltb_ge. lia.
Qed.

Lemma num_eq_refl z : num_eq (num z) (num z) = true.
Proof. apply Z.eqb_refl. Qed.

Lemma from_truthy_some {name} (v : vo (fun s => Assert.isNonEmpty s name)) :
  from_truthy (Some (value v)) = Ok (Some v).
Proof. exact (AdapterLemmas.from_truthy_value (Some v)). Qed.

(** An actor's name is a user's. *)
Lemma actor_user (a : ActorId) : exists u : UserId, vo_new (value a) = Ok u /\ actor_of u = a.
Proof.
  pose proof (vo_new_cases (asserts := fun s => _ ← Assert.isNonEmpty s "ActorId"; Assert.isNonEmpty s "UserId") (value a)) as H.
  pose proof (value_ok a) as Hok. simpl in Hok. unfold Assert.isNonEmpty, Assert.check in H, Hok. simpl in H.
  destruct (negb _); [|done]. destruct H as (u & Hu & Hv). exists u. split; [exact Hu|]. by apply vo_eq.
Qed.

Section OnDevice.
Context {port : CryptoServicePort}.
Variable deriveKey : list Z -> string -> list Z.

(** The command the saga sends is parsed to the achievement of that version. *)
Lemma achieve_plan (st : GoalAchievementState) (i : GoalId) {asserts} (m : EventMetadata (vo asserts)) n eid u corr :
  gs_goalId st = value i -> gs_version st = Z.of_nat n -> vo_new (value (actorId m)) = Ok u ->
  vo_new (default (value (eventId m)) (value <$> correlationId m)) = Ok corr ->
  let key := "goal-achieve:" +:+ gs_goalId st +:+ ":" +:+ value (eventId m) in
  (strlen key <= 200)%Z ->
  plan_of (achieve_sent st (origin_of m)) eid =
    Ok (Updates "AchieveGoal" i (num (Z.of_nat n)) key (occurredAt m)
      (GoalRuns.Achieve (occurredAt m) u (Some corr) (Some (eventId m)) eid)).
Proof.
  intros Hi Hv Hu Hcorr key Hlen. cbn [plan_of achieve_sent]. unfold planned, parseCommand, GoalCommandHandler.AchieveGoal_fields, common_fields.
  cbn [parse_fields body metadata AchieveGoal.goalId AchieveGoal.timestamp AchieveGoal.knownVersion command_meta cm_actorId
    cm_idempotencyKey cm_correlationId cm_causationId origin_of o_eventId o_actorId o_occurredAt o_correlationId].
  rewrite Hi, vo_new_value, Hu, Hv, parse_version.
  unfold parseTimestamp. rewrite (Is_true_true_1 _ (Timestamp.finite (occurredAt m))), Timestamp.fromMillis_millis.
  unfold parseIdempotencyKey. rewrite <- Hi. fold key.
  assert ((strlen (trim key) =? 0)%Z = false) as -> by (apply trim_nonempty; reflexivity).
  destruct (Z.ltb_spec 200 (strlen key)); [lia|]. unfold mbind, result_bind.
  assert (from_truthy (Some (default (value (eventId m)) (value <$> correlationId m))) = Ok (Some corr)) as ->.
  { apply vo_new_ok in Hcorr. rewrite <- Hcorr. apply from_truthy_some. }
  by rewrite from_truthy_some.
Qed.

Lemma correlation_some {asserts} (m : EventMetadata (vo asserts)) :
  exists corr : CorrelationId, vo_new (default (value (eventId m)) (value <$> correlationId m)) = Ok corr.
Proof.
  destruct (correlationId m) as [c|]; simpl; [exists c; apply vo_new_value|].
  pose proof (vo_new_cases (asserts := fun s => Assert.isNonEmpty s "CorrelationId") (value (eventId m))) as H.
  pose proof (value_ok (eventId m)) as Hok. unfold Assert.isNonEmpty, Assert.check in H, Hok.
  destruct (negb _); [|done]. destruct H as (c & Hc & _). by exists c.
Qed.

(** The achievement of a goal that is neither achieved nor archived. *)
Lemma achieve_emits at_ u co ca eid (g : Goal.t) :
  Goal.achievedAt (state g) = None -> Goal.archivedAt (state g) = None ->
  let e := Goal.construct (Goal.GoalAchieved (id g) at_) (AggregateRoot.Meta (id g) at_ eid (actor_of u) ca co None) in
  exists g', GoalRuns.run_command (GoalRuns.Achieve at_ u co ca eid) g = (Ok tt, g') /\
    uncommitted g' = uncommitted g ++ [e] /\ id g' = id g.
Proof.
  intros Ha Hr e. unfold GoalRuns.run_command, Goal.achieve, Goal.assertNotArchived, Goal.isAchieved, reads, gets, mbind, js_bind.
  rewrite Hr, Ha. simpl. by eexists.
Qed.

(** The command, dispatched: the achievement is stored. *)
Lemma achieve_dispatched (c : GoalCommand) (i : GoalId) k h (g0 : Goal.t) n key at_ u co ca eid d :
  plan_of c eid = Ok (Updates "AchieveGoal" i (num (Z.of_nat n)) key at_ (GoalRuns.Achieve at_ u co ca eid)) ->
  n = length h -> h <> [] -> keeps deriveKey i k h d -> reconstitute i h = Ok g0 ->
  Goal.achievedAt (state g0) = None -> Goal.archivedAt (state g0) = None -> idempotency_keys d !! key = None ->
  let e := Goal.construct (Goal.GoalAchieved i at_) (AggregateRoot.Meta i at_ eid (actor_of u) ca co None) in
  storable (GoalEvent e) -> value eid ∉ event_ids (db d) ->
  exists d', dispatch_to_bus (repo := goal_port deriveKey) eid c d = (Ok tt, d') /\ keeps deriveKey i k (h ++ [e]) d'.
Proof.
  intros Hp Hn Hne Hk Hg0 Ha Hr Hkey e Hst Hfr. unfold dispatch_to_bus, GoalCommandHandler.dispatch, wrap.
  rewrite handle_plan, Hp.
  pose proof (update_outcome (laws := goal_laws deriveKey) "AchieveGoal" i (num (Z.of_nat n)) key at_
    (GoalRuns.run_command (GoalRuns.Achieve at_ u co ca eid)) k h d Hk (GoalRuns.goal_command_emits_one _)) as H.
  cbv zeta in H. unfold wrap in H. rewrite Hkey in H. destruct H as (d1 & _ & _ & H).
  destruct h as [|e0 h0]; [done|]. set (h := e0 :: h0) in *. destruct H as (g & Hl & Hi & Hval & H).
  destruct (load_law (RepositoryLaws := goal_laws deriveKey) i k h d Hk) as (r & d2 & Hl2 & _ & _ & Hr2).
  rewrite Hl in Hl2. injection Hl2 as <- _. destruct Hr2 as (_ & _ & Hun & _ & _).
  destruct Hval as (_ & g1 & Hg1 & He). rewrite Hun, app_nil_r, Hi, Hg0 in Hg1. injection Hg1 as <-.
  destruct He as (_ & _ & Hs). rewrite <- Hn, num_eq_refl in H.
  assert (Goal.achievedAt (state g) = None /\ Goal.archivedAt (state g) = None) as [Hga Hgr].
  { change (state (markEventsAsCommitted g)) with (state g) in Hs. destruct (state g), (state g0).
    unfold Goal.setAccessList in Hs. simpl in *. injection Hs. intros. by subst. }
  destruct (achieve_emits at_ u co ca eid g Hga Hgr) as (g' & Hrun & Hu' & Hi').
  rewrite Hrun in H. rewrite Hun, Hi in Hu'. rewrite Hi in Hi'. simpl in Hu'. fold e in Hu'.
  destruct H as (d' & Hd' & Hk' & _).
  { unfold savable. simpl. unfold can_save. rewrite Hu', Hi'. split; [|split].
    - apply Forall_singleton. by split.
    - apply NoDup_singleton.
    - by apply Forall_singleton. }
  rewrite Hu' in Hk'. exists d'. split; [|exact Hk'].
  destruct (update _ _ _ _ _ _ d) as [r dx]. simpl in Hd'. injection Hd' as Hr' ->. destruct r as [x|[]]; done.
Qed.

End OnDevice.
End SagaDeviceLemmas.

Module SagaDeviceProperties.
Import GoalAchievementSaga SagaLemmas SagaOnDevice ApplicationLemmas RepositoryLemmas GoalRepositoryLemmas
  GoalRepositoryProperties SagaDeviceLemmas AdapterLemmas.

(** Completing the last project achieves the goal. When a project linked to a goal
    becomes completed, the other projects linked to it are completed already, the saga knows
    the goal's version and the device keeps the goal, which is neither achieved nor
    archived, then the event's handling ends with the goal's achievement, made at the time
    and by the actor of the event and caused by it, appended to the history the device
    stores. *)
Theorem saga_achieves_goal {port : CryptoServicePort} (deriveKey : list Z -> string -> list Z)
    (s : saga device) (p : ProjectId) (t : Timestamp.t) (m : EventMetadata ProjectId) (eid : EventId)
    (i : GoalId) (st : GoalAchievementState) (k : list Z) (h : list Goal.event) (g : Goal.t) :
  let d := world s in
  let key := "goal-achieve:" +:+ value i +:+ ":" +:+ value (eventId m) in
  replaying s = false -> consistent s -> link (value p) s = Some (value i) ->
  goalStates s !! value i = Some st -> achieved st = false -> archived st = false -> gs_version st = Z.of_nat (length h) ->
  (forall q, q ∈ linkedProjectIds st -> q <> value p -> q ∈ completedProjectIds st) ->
  keeps deriveKey i k h d -> h <> [] -> reconstitute i h = Ok g ->
  Goal.achievedAt (state g) = None -> Goal.archivedAt (state g) = None ->
  idempotency_keys d !! key = None -> (strlen key <= 200)%Z ->
  RecordCodecProperties.whole (Timestamp.millis (occurredAt m)) = true -> value eid ∉ event_ids (db d) ->
  exists s' e, handleEvent (dispatch_to_bus (repo := goal_port deriveKey) eid)
      (ProjectEvent (Event (Project.ProjectStatusTransitioned p ProjectStatus.Completed t) m)) s = (Ok tt, s') /\
    keeps deriveKey i k (h ++ [e]) (world s') /\
    payload e = Goal.GoalAchieved i (occurredAt m) /\ actorId (AggregateRoot.meta e) = actorId m /\
    causationId (AggregateRoot.meta e) = Some (eventId m).
Proof.
  intros d key Hr Hs Hlink Hst Ha Har Hv Hlast Hk Hne Hg Hga Hgr Hkey Hlen Hwhole Hfr.
  set (ev := ProjectEvent _). set (dispatch := dispatch_to_bus eid).
  destruct (handleEvent_run dispatch ev s Hr) as (r & s' & Hrun & _ & _ & Hw & Hok).
  pose proof (c_goals _ Hs _ _ Hst) as Ht.
  set (st1 := with_status (value p) ProjectStatus.Completed st).
  assert ((book ev s).2 = Settles st1 (origin_of m)) as Hbook.
  { cbn. rewrite project_of_link, Hlink. simpl. unfold st1, goal_of, put_project. simpl. by rewrite Hst. }
  assert (st1 = addCompletedProject (value p) (addLinkedProject (value p) st)) as E1 by reflexivity.
  destruct (addLinked_spec (value p) st (value p)) as (L1 & _ & L3 & _).
  destruct (addCompleted_spec (value p) (addLinkedProject (value p) st) (value p)) as (C1 & _ & C3 & _).
  assert (gs_goalId st1 = value i) as Hi by (rewrite E1, C1, L1; apply Ht).
  assert (linkedProjectIds st1 = linkedProjectIds st) as Hl1.
  { rewrite E1, C3. unfold addLinkedProject. rewrite decide_True; [done|]. by apply Ht. }
  assert (achieved st1 = achieved st /\ archived st1 = archived st /\ gs_version st1 = gs_version st) as (F1 & F2 & F3).
  { rewrite E1. unfold addCompletedProject, addLinkedProject. by repeat destruct (decide _). }
  assert (wants_achieve st1 = true) as Hwant.
  { unfold wants_achieve. rewrite F1, F2, F3, Ha, Har, Hv. rewrite !andb_true_iff. split; [split; [split|]|]; try done.
    - unfold unlinked. rewrite Hl1. assert (value p ∈ linkedProjectIds st) as Hin by (by apply Ht).
      destruct (linkedProjectIds st); [by apply not_elem_of_nil in Hin|done].
    - unfold allCompleted. rewrite Hl1. apply forallb_forall. intros q Hq. apply bool_decide_eq_true.
      apply list_elem_of_In in Hq. rewrite E1. apply addCompleted_spec. rewrite L3.
      destruct (decide (q = value p)) as [->|Hqp]; [by left|]. right. by apply Hlast.
    - apply Z.ltb_lt. destruct h; [done|]. simpl. lia. }
  assert (asked (book ev s).2 = [achieve_sent st1 (origin_of m)]) as Hask by (rewrite Hbook; simpl; unfold sends; by rewrite Hwant).
  rewrite Hask in Hw, Hok. destruct (actor_user (actorId m)) as (u & Hu & Hau). destruct (correlation_some m) as (co & Hco).
  pose proof (achieve_plan st1 i m (length h) eid u co Hi ltac:(congruence) Hu Hco) as Hplan. rewrite Hi in Hplan.
  specialize (Hplan Hlen). fold key in Hplan.
  destruct (achieve_dispatched deriveKey (achieve_sent st1 (origin_of m)) i k h g (length h) key (occurredAt m) u (Some co)
    (Some (eventId m)) eid d Hplan eq_refl Hne Hk Hg Hga Hgr Hkey) as (d' & Hd' & Hk').
  - split; [exact Hwhole|]. by split.
  - exact Hfr.
  - exists s'. eexists. simpl in Hw, Hok. unfold dispatch in Hw, Hok. fold d in Hw, Hok. rewrite Hd' in Hw, Hok.
    rewrite Hrun. rewrite (Hok eq_refl). split; [done|]. rewrite Hw. split; [exact Hk'|]. split; [done|].
    split; [exact Hau|done].
Qed.

End SagaDeviceProperties.

(** ** Witnesses *)

Module SagaWitnesses.
Import GoalAchievementSaga SagaLemmas SagaProperties SagaOnDevice SagaDeviceProperties KeyringWitnesses GoalRepositoryWitnesses
  GoalRepositoryLemmas.
#[local] Existing Instance toy_service.

Definition meta_of {Id} (i : Id) (eid : EventId) (v : Z) : EventMetadata Id :=
  AggregateRoot.Meta i later eid (actor_of alice) None None (Some v).

(** The goal is created, a project is started under it, and completed. *)
Definition goal_event : domain_event :=
  GoalEvent (Event (Goal.GoalCreated goal_1 Slice.Health marathon may_2026 Priority.Must alice noon) (meta_of goal_1 event_1 1)).
Definition project_event : domain_event :=
  ProjectEvent (Event (Project.ProjectCreated project_1 kitchen ProjectStatus.InProgress jan_1 mar_1 no_text (Some goal_1) alice noon)
    (meta_of project_1 event_2 1)).
Definition completed_event : domain_event :=
  ProjectEvent (Event (Project.ProjectStatusTransitioned project_1 ProjectStatus.Completed later) (meta_of project_1 event_2 2)).

Definition live : GoalCommand -> app unit := dispatch_to_bus (repo := goal_port derive) event_2.
Definition saga_0 : saga device := Saga ∅ ∅ [] false [] saved_device.
Definition saga_1 : saga device := (handleEvent live goal_event saga_0).2.
Definition saga_2 : saga device := (handleEvent live project_event saga_1).2.
Definition saga_3 : saga device := (handleEvent live completed_event saga_2).2.

Lemma saga_3_reachable : reachable live saga_3.
Proof. do 3 (apply after_event; [|done]). apply at_start. Qed.

Lemma saga_tracks_witness : consistent saga_3.
Proof. exact (saga_tracks live saga_3 saga_3_reachable). Defined.

Lemma saga_2_consistent : consistent saga_2.
Proof. apply handleEvent_consistent; [|done]. apply handleEvent_consistent; [apply empty_consistent|done]. Qed.

(** Completing the project sends one command. *)
Lemma saga_sends_witness : exists r s' c, handleEvent live completed_event saga_2 = (r, s') /\
  sent s' = sent saga_2 ++ [AchieveGoal_ c] /\ AchieveGoal.goalId (body c) = id_a.
Proof.
  destruct (saga_sends live completed_event saga_2 eq_refl (consistent_keyed _ saga_2_consistent)) as (r & s' & new & H1 & H2 & _ & H3).
  assert (exists st, goalStates s' !! id_a = Some st /\ wants_achieve st = true) as (st & Hst & Hw).
  { assert (saga_3 = s') as <- by exact (f_equal snd H1).
    exists (GoalState id_a [id_a] [id_a] false false true 1). split; [evaluate|reflexivity]. }
  destruct (H3 st Hst Hw) as (c & -> & Hc). exists r, s', c.
  split; [exact H1|]. split; [exact H2|exact Hc].
Defined.

(** A command bus that always reports a version conflict. *)
Definition conflicting : GoalCommand -> js unit app_error unit := fun _ => throw (Infra (ConcurrencyError "version mismatch")).

Lemma saga_bootstrap_witness : exists s',
  bootstrap conflicting [goal_event; project_event; completed_event] (fun _ => systemEvent event_3 later)
    (Saga ∅ ∅ [] false [] tt) = (Ok tt, s') /\ length (sent s') = 1.
Proof.
  destruct (saga_bootstrap conflicting [goal_event; project_event; completed_event] (fun _ => systemEvent event_3 later)
    (Saga ∅ ∅ [] false [] tt)) as (s' & H1 & _).
  - intros c w e [= <-]. done.
  - done.
  - done.
  - exists s'. split; [exact H1|].
    assert ((bootstrap conflicting [goal_event; project_event; completed_event] (fun _ => systemEvent event_3 later)
      (Saga ∅ ∅ [] false [] tt)).2 = s') as <- by (by rewrite H1). vm_compute. reflexivity.
Defined.

Lemma saga_achieves_goal_witness : exists s' e,
  handleEvent live completed_event saga_2 = (Ok tt, s') /\
  keeps derive goal_1 dek_1 (history_1 ++ [e]) (world s') /\ payload e = Goal.GoalAchieved goal_1 later.
Proof.
  destruct (saga_achieves_goal derive saga_2 project_1 later (meta_of project_1 event_2 2) event_2 goal_1
    (GoalState id_a [id_a] [] false false false 1) dek_1 history_1 (markEventsAsCommitted created)) as (s' & e & H1 & H2 & H3 & _).
  - reflexivity.
  - exact saga_2_consistent.
  - reflexivity.
  - reflexivity.
  - reflexivity.
  - reflexivity.
  - reflexivity.
  - intros q Hq%list_elem_of_singleton Hne. destruct (Hne Hq).
  - exact saved_device_keeps.
  - done.
  - reflexivity.
  - reflexivity.
  - reflexivity.
  - vm_compute. reflexivity.
  - done.
  - reflexivity.
  - assert (event_ids (db (world saga_2)) = ["e1"]) as -> by (vm_compute; reflexivity). change ("e2" ∉ ["e1"]). set_solver.
  - exists s', e. split; [exact H1|]. split; [exact H2|exact H3].
Defined.

End SagaWitnesses.
