(* ===== verification/DependencyGraph.v ===== *)
(** * The dependency order of the outbox

    [packages/infrastructure/src/sharing/outbox/DependencyGraph.ts]: Kahn's
    algorithm over the artifacts waiting in the outbox.  The queue loop takes a
    fuel; the number of artifacts is enough ([sort_decides]).  The theorem says
    exactly when [sort] succeeds, and that it then orders every artifact after
    the ones it depends on. *)

From S2P Require Import Prelude JsValues.
From stdpp Require Import sorting.

(** [OutboxArtifact] of [OutboxStore.ts]; [payload] is JSON text, [enqueuedAt]
    milliseconds since the epoch. *)
Record OutboxArtifact : Type := Artifact {
  artifactId : string;
  artifactType : string;
  payload : string;
  dependencies : list string;
  status : string;
  enqueuedAt : Z
}.

#[export] Instance OutboxArtifact_eq_dec : EqDecision OutboxArtifact.
Proof. solve_decision. Defined.

Module DependencyGraph.

(** The two maps that [sort] builds. *)
Record graph : Type := Graph {
  inDegree : jsmap Z;
  adjList : jsmap (list string)
}.

(** [new Map(artifacts.map((a) => [a.artifactId, a]))] *)
Definition artifact_map (artifacts : list OutboxArtifact) : jsmap OutboxArtifact :=
  map_of_entries (map (fun a => (artifactId a, a)) artifacts).

Definition init (artifacts : list OutboxArtifact) : graph :=
  fold_left (fun g a => Graph (map_set (artifactId a) 0%Z (inDegree g)) (map_set (artifactId a) [] (adjList g)))
    artifacts (Graph [] []).

(** [Set.prototype.add] *)
Definition set_add (x : string) (l : list string) : list string := if decide (x ∈ l) then l else l ++ [x].

Definition degree (v : string) (d : jsmap Z) : Z := default 0%Z (map_get v d).
Definition dependents (u : string) (adj : jsmap (list string)) : list string := default [] (map_get u adj).

Definition missing_dependency (i dep : string) : error :=
  PlainError ("Artifact " +:+ i +:+ " depends on " +:+ dep +:+ " which is neither pending nor pushed. "
    +:+ "This indicates a missing dependency that must be resolved before pushing.").

(** The body of the nested loops over the artifacts and their dependencies. *)
Definition add_dependency (artifactMap : jsmap OutboxArtifact) (pushed : option (list string)) (i dep : string)
    (g : graph) : result error graph :=
  match map_get dep artifactMap with
  | Some _ => Ok (Graph (map_set i (degree i (inDegree g) + 1)%Z (inDegree g))
      (map_set dep (set_add i (dependents dep (adjList g))) (adjList g)))
  | None =>
      match pushed with
      | Some ids => if decide (dep ∈ ids) then Ok g else Err (missing_dependency i dep)
      | None => Ok g
      end
  end.

(** The pairs the loops go through, in order. *)
Definition pairs (artifacts : list OutboxArtifact) : list (string * string) :=
  flat_map (fun a => map (fun dep => (artifactId a, dep)) (dependencies a)) artifacts.

Fixpoint add_dependencies (artifactMap : jsmap OutboxArtifact) (pushed : option (list string))
    (l : list (string * string)) (g : graph) : result error graph :=
  match l with
  | [] => Ok g
  | (i, dep) :: l => g' ← add_dependency artifactMap pushed i dep g; add_dependencies artifactMap pushed l g'
  end.

(** One dependent of the artifact taken from the queue. *)
Definition release (st : list string * jsmap Z) (v : string) : list string * jsmap Z :=
  let '(queue, d) := st in
  let newDegree := (degree v d - 1)%Z in
  (if (newDegree =? 0)%Z then queue ++ [v] else queue, map_set v newDegree d).

(** [None] when the fuel runs out.  Every id in the queue has an artifact. *)
Fixpoint kahn (fuel : nat) (artifactMap : jsmap OutboxArtifact) (adj : jsmap (list string))
    (queue : list string) (d : jsmap Z) (sorted : list OutboxArtifact) : option (list OutboxArtifact) :=
  match queue, fuel with
  | [], _ => Some sorted
  | _ :: _, 0 => None
  | current :: rest, S fuel =>
      artifact ← map_get current artifactMap;
      let '(queue', d') := fold_left release (dependents current adj) (rest, d) in
      kahn fuel artifactMap adj queue' d' (sorted ++ [artifact])
  end.

Definition circular (remaining : list OutboxArtifact) : error :=
  PlainError ("Circular dependency detected in artifacts: " +:+ String.concat ", " (map artifactId remaining)).

Definition sort (fuel : nat) (artifacts : list OutboxArtifact) (pushed : option (list string)) :
    option (result error (list OutboxArtifact)) :=
  let artifactMap := artifact_map artifacts in
  match add_dependencies artifactMap pushed (pairs artifacts) (init artifacts) with
  | Err e => Some (Err e)
  | Ok g =>
      let queue := map fst (filter (fun '(_, degree) => degree = 0%Z) (inDegree g)) in
      sorted ← kahn fuel artifactMap (adjList g) queue (inDegree g) [];
      Some (if decide (length sorted = length artifacts) then Ok sorted
        else Err (circular (filter (fun a => a ∉ sorted) artifacts)))
  end.

Definition getMissingDependencies (a : OutboxArtifact) (available : list string) : list string :=
  filter (fun dep => dep ∉ available) (dependencies a).

(** [buildDependencyChain]: [visit] with the ids visited and the chain so far;
    the fuel bounds the depth of the recursion. *)
Fixpoint visit (fuel : nat) (artifactMap : jsmap OutboxArtifact) (i : string)
    (st : list string * list string) : option (list string * list string) :=
  match fuel with
  | 0 => None
  | S fuel =>
      let '(visited, chain) := st in
      if decide (i ∈ visited) then Some st
      else
        match map_get i artifactMap with
        | None => Some (visited ++ [i], chain)
        | Some a =>
            '(visited', chain') ← foldr (fun dep k st => st' ← visit fuel artifactMap dep st; k st') Some
              (dependencies a) (visited ++ [i], chain);
            Some (visited', chain' ++ [i])
        end
  end.

Definition buildDependencyChain (fuel : nat) (i : string) (artifactMap : jsmap OutboxArtifact) : option (list string) :=
  snd <$> visit fuel artifactMap i ([], []).

End DependencyGraph.

(** ** Lemmas *)

Module DependencyGraphLemmas.
Import DependencyGraph.

Lemma map_set_new {V} k (v : V) m : k ∉ m.*1 -> map_set k v m = m ++ [(k, v)].
Proof.
  induction m as [|[k' v'] m IH]; csimpl; [done|]. intros Hk. rewrite decide_False by set_solver.
  by rewrite IH by set_solver.
Qed.

(** A map built from entries with distinct keys is the list of entries. *)
Lemma fold_set_entries {V} (l : list (string * V)) m : NoDup (m ++ l).*1 ->
  fold_left (fun m '(k, v) => map_set k v m) l m = m ++ l.
Proof.
  revert m. induction l as [|[k v] l IH]; intros m Hn; [by rewrite app_nil_r|]. simpl.
  rewrite fmap_app in Hn. apply NoDup_app in Hn as (H1 & H2 & H3).
  rewrite map_set_new by (intros Hk; apply (H2 k Hk); csimpl; set_solver).
  rewrite IH by (by rewrite <- app_assoc, fmap_app; apply NoDup_app).
  by rewrite <- app_assoc.
Qed.

Lemma entries_get {V} (l : list (string * V)) k v : NoDup l.*1 -> (map_get k l = Some v <-> (k, v) ∈ l).
Proof.
  unfold map_get. induction l as [|[k' v'] l IH]; csimpl; intros Hn; [set_solver|].
  apply NoDup_cons in Hn as [Hk Hn]. rewrite elem_of_cons. destruct (decide (k = k')) as [->|Hne].
  - split; [intros [= ->]; by left|]. intros [[= ->]|Hin]; [done|]. destruct Hk. by apply (list_elem_of_fmap_2 fst) in Hin.
  - rewrite IH by done. naive_solver.
Qed.

Lemma filter_iff_in {A} (P Q : A -> Prop) `{!forall x, Decision (P x), !forall x, Decision (Q x)} (l : list A) :
  (forall x, x ∈ l -> P x <-> Q x) -> filter P l = filter Q l.
Proof.
  induction l as [|x l IH]; intros Hpq; [done|]. rewrite !filter_cons, IH by (intros y Hy; apply Hpq; by right).
  pose proof (Hpq x ltac:(by left)). destruct (decide (P x)), (decide (Q x)); tauto.
Qed.

Section Sort.
Variable artifacts : list OutboxArtifact.
Let ids : list string := map artifactId artifacts.
Hypothesis ids_unique : NoDup ids.
Let amap : jsmap OutboxArtifact := artifact_map artifacts.

Lemma amap_get i a : map_get i amap = Some a <-> a ∈ artifacts /\ artifactId a = i.
Proof.
  unfold amap, artifact_map, map_of_entries. rewrite fold_set_entries.
  - simpl. rewrite entries_get.
    + rewrite list_elem_of_fmap. naive_solver.
    + rewrite map_map. exact ids_unique.
  - simpl. rewrite map_map. exact ids_unique.
Qed.

Lemma amap_has i : is_Some (map_get i amap) <-> i ∈ ids.
Proof.
  unfold ids. rewrite list_elem_of_fmap. split.
  - intros [a [Ha Hi]%amap_get]. by exists a.
  - intros (a & Hi & Ha). exists a. by apply amap_get.
Qed.

(** The dependencies of the artifact [v] that are in the set. *)
Definition inside (a : OutboxArtifact) : list string := filter (fun dep => dep ∈ ids) (dependencies a).

Lemma pairs_elem v u : (v, u) ∈ pairs artifacts <-> exists a, a ∈ artifacts /\ artifactId a = v /\ u ∈ dependencies a.
Proof.
  unfold pairs. rewrite list_elem_of_In, in_flat_map. split.
  - intros (a & Ha & Hin). apply list_elem_of_In in Ha. apply in_map_iff in Hin as (dep & [= <- <-] & Hdep).
    exists a. split; [done|]. split; [done|]. by apply list_elem_of_In.
  - intros (a & Ha & <- & Hu). exists a. split; [by apply list_elem_of_In|]. apply in_map_iff. exists u.
    split; [done|]. by apply list_elem_of_In.
Qed.

(** *** What the two loops build *)

(** The graph after the pairs [pp]. *)
Record built (pp : list (string * string)) (g : graph) : Prop := {
  b_degree_keys : (inDegree g).*1 = ids;
  b_adj_keys : (adjList g).*1 = ids;
  b_degree v : v ∈ ids -> degree v (inDegree g) = Z.of_nat (length (filter (fun p => p.1 = v /\ p.2 ∈ ids) pp));
  b_adj_once u : u ∈ ids -> NoDup (dependents u (adjList g));
  b_adj u v : u ∈ ids -> v ∈ dependents u (adjList g) <-> (v, u) ∈ pp
}.

Lemma assoc_const {V} (c : V) l v : v ∈ l -> map_get v (map (fun i => (i, c)) l) = Some c.
Proof.
  unfold map_get. induction l as [|i l IH]; csimpl; [set_solver|].
  intros Hv. destruct (decide (v = i)); [done|]. apply IH. set_solver.
Qed.

Lemma init_built : built [] (init artifacts).
Proof.
  assert (init artifacts = Graph (map (fun i => (i, 0%Z)) ids) (map (fun i => (i, [])) ids)) as ->.
  { unfold init, ids. clear amap.
    enough (forall l m, NoDup (m ++ map artifactId l) ->
      fold_left (fun g a => Graph (map_set (artifactId a) 0%Z (inDegree g)) (map_set (artifactId a) [] (adjList g))) l
        (Graph (map (fun i => (i, 0%Z)) m) (map (fun i => (i, [])) m)) =
      Graph (map (fun i => (i, 0%Z)) (m ++ map artifactId l)) (map (fun i => (i, [])) (m ++ map artifactId l))) as H
      by (by apply (H artifacts [])).
    intros l. induction l as [|a l IH]; intros m Hn; simpl; [by rewrite app_nil_r|].
    assert (artifactId a ∉ m) as Hout.
    { apply NoDup_app in Hn as (_ & H2 & _). intros Hin. apply (H2 _ Hin). simpl. by left. }
    assert (forall V (c : V), (map (fun i => (i, c)) m).*1 = m) as Hkeys.
    { intros V c. rewrite map_map. simpl. apply map_id. }
    rewrite !map_set_new by (by rewrite Hkeys).
    change [(artifactId a, 0%Z)] with (map (fun i => (i, 0%Z)) [artifactId a]).
    change [(artifactId a, [])] with (map (fun i => (i, @nil string)) [artifactId a]).
    rewrite <- !map_app. rewrite IH by (by rewrite <- app_assoc). by rewrite <- app_assoc. }
  assert (forall V (c : V), (map (fun i => (i, c)) ids).*1 = ids) as Hkeys.
  { intros V c. rewrite map_map. simpl. apply map_id. }
  split; simpl; [apply Hkeys|apply Hkeys| | |].
  - intros v Hv. unfold degree. by rewrite assoc_const.
  - intros u Hu. unfold dependents. rewrite assoc_const by done. apply NoDup_nil_2.
  - intros u v Hu. unfold dependents. rewrite assoc_const by done. simpl. by rewrite !elem_of_nil.
Qed.

Lemma set_add_spec x y l : (y ∈ set_add x l <-> y = x \/ y ∈ l) /\ (NoDup l -> NoDup (set_add x l)).
Proof.
  unfold set_add. destruct (decide (x ∈ l)) as [H|H]; [naive_solver|].
  split; [rewrite elem_of_app, list_elem_of_singleton; tauto|].
  intros Hn. apply NoDup_app. split; [done|]. split; [by intros z Hz ->%list_elem_of_singleton|apply NoDup_singleton].
Qed.

Lemma add_dependency_built pushed v u pp g g' : v ∈ ids -> built pp g ->
  add_dependency amap pushed v u g = Ok g' -> built (pp ++ [(v, u)]) g'.
Proof.
  intros Hv [B1 B2 B3 B4 B5] H. unfold add_dependency in H.
  destruct (map_get u amap) as [a|] eqn:Eu.
  - assert (u ∈ ids) as Hu by (apply amap_has; by eexists). injection H as <-. split; simpl.
    + by rewrite map_set_keys_in by (by rewrite B1).
    + by rewrite map_set_keys_in by (by rewrite B2).
    + intros w Hw. rewrite filter_app, length_app, filter_cons. destruct (decide (w = v)) as [->|Hne].
      * rewrite decide_True by done. unfold degree at 1. rewrite map_get_set_eq. simpl. rewrite B3 by done. lia.
      * rewrite decide_False by (simpl; naive_solver). unfold degree. rewrite map_get_set_ne by done.
        fold (degree w (inDegree g)). rewrite B3 by done. simpl. lia.
    + intros w Hw. unfold dependents. destruct (decide (w = u)) as [->|Hne].
      * rewrite map_get_set_eq. simpl. apply (set_add_spec v v). by apply B4.
      * rewrite map_get_set_ne by done. by apply B4.
    + intros w x Hw. rewrite elem_of_app, list_elem_of_singleton. unfold dependents. destruct (decide (w = u)) as [->|Hne].
      * rewrite map_get_set_eq. simpl. destruct (set_add_spec v x (dependents u (adjList g))) as [-> _].
        rewrite B5 by done. naive_solver.
      * rewrite map_get_set_ne by done. fold (dependents w (adjList g)). rewrite B5 by done. naive_solver.
  - assert (u ∉ ids) as Hu by (rewrite <- amap_has, Eu; by intros []).
    assert (g' = g) as -> by (destruct pushed as [l|]; [destruct (decide _)|]; congruence).
    split; [done|done| |done|].
    + intros w Hw. rewrite filter_app, length_app, filter_cons, decide_False by naive_solver. simpl. rewrite B3 by done. lia.
    + intros w x Hw. rewrite B5 by done. rewrite elem_of_app, list_elem_of_singleton. naive_solver.
Qed.

(** Every dependency is in the set or known to have been pushed. *)
Definition resolved (pushed : option (list string)) : Prop :=
  forall a dep, a ∈ artifacts -> dep ∈ dependencies a ->
    dep ∈ ids \/ (match pushed with Some l => dep ∈ l | None => True end).

Lemma add_dependencies_built pushed l pp g : (forall v u, (v, u) ∈ l -> v ∈ ids) -> built pp g ->
  match add_dependencies amap pushed l g with
  | Ok g' => built (pp ++ l) g' /\
      forall v u, (v, u) ∈ l -> u ∈ ids \/ (match pushed with Some l => u ∈ l | None => True end)
  | Err _ => exists v u l0, (v, u) ∈ l /\ (u ∉ ids) /\ pushed = Some l0 /\ (u ∉ l0)
  end.
Proof.
  revert pp g. induction l as [|[v u] l IH]; intros pp g Hl Hb; simpl.
  { rewrite app_nil_r. split; [done|set_solver]. }
  destruct (add_dependency amap pushed v u g) as [g'|e] eqn:E; simpl.
  - assert (v ∈ ids) as Hv by (apply (Hl v u); by left).
    specialize (IH (pp ++ [(v, u)]) g' ltac:(intros; apply (Hl v0 u0); by right)
      (add_dependency_built pushed v u pp g g' Hv Hb E)).
    destruct (add_dependencies amap pushed l g') as [g2|e2].
    + rewrite <- app_assoc in IH. destruct IH as [Hb2 Hr]. split; [done|].
      intros x y Hxy. apply elem_of_cons in Hxy as [[= -> ->]|Hxy]; [|by eapply Hr].
      unfold add_dependency in E. destruct (map_get u amap) eqn:Eu; [left; apply amap_has; by eexists|].
      destruct pushed as [l0|]; [|by right]. right. by destruct (decide (u ∈ l0)).
    + destruct IH as (x & y & l0 & Hxy & Hr). exists x, y, l0. split; [by right|done].
  - unfold add_dependency in E. destruct (map_get u amap) eqn:Eu; [done|].
    destruct pushed as [l0|]; [|done]. destruct (decide (u ∈ l0)); [done|]. exists v, u, l0. split; [by left|].
    split; [|done]. rewrite <- amap_has, Eu. by intros [].
Qed.

(** The in-degree of an artifact counts its dependencies in the set. *)
Lemma count_inside a : a ∈ artifacts ->
  length (filter (fun p => p.1 = artifactId a /\ p.2 ∈ ids) (pairs artifacts)) = length (inside a).
Proof.
  intros Ha. unfold inside. clear amap. generalize ids as V. intros V.
  assert (forall b, length (filter (fun p => p.1 = artifactId a /\ p.2 ∈ V) (map (fun dep => (artifactId b, dep)) (dependencies b))) =
    if decide (artifactId b = artifactId a) then length (filter (fun dep => dep ∈ V) (dependencies b)) else 0) as Hb.
  { intros b. destruct (decide (artifactId b = artifactId a)) as [E|E]; induction (dependencies b) as [|dep l IH]; try done;
      cbn [map]; rewrite !filter_cons; simpl.
    - destruct (decide (dep ∈ V)) as [H|H]; [rewrite decide_True by done; simpl; by rewrite IH|].
      rewrite decide_False by naive_solver. done.
    - rewrite decide_False by naive_solver. done. }
  unfold ids in ids_unique. revert ids_unique Ha. unfold pairs. induction artifacts as [|b l IH]; [set_solver|].
  cbn [map flat_map]. intros [Hout Hn]%NoDup_cons Hin. rewrite filter_app, length_app, Hb.
  assert (forall c, c ∈ l -> artifactId b <> artifactId c) as Hne.
  { intros c Hc E. apply Hout. rewrite E. by apply list_elem_of_fmap_2. }
  apply elem_of_cons in Hin as [->|Hin].
  - rewrite decide_True by done. enough (length (filter (fun p => p.1 = artifactId b /\ p.2 ∈ V)
      (flat_map (fun a => map (fun dep => (artifactId a, dep)) (dependencies a)) l)) = 0) as -> by lia.
    clear -Hne. destruct (filter _ _) as [|[v u] r] eqn:Ef; [done|]. exfalso.
    assert ((v, u) ∈ (v, u) :: r) as Hvu by (by left). rewrite <- Ef in Hvu. apply list_elem_of_filter in Hvu as [[E _] Hvu].
    simpl in E. subst v. apply list_elem_of_In, in_flat_map in Hvu as (c & Hc & Hin). apply in_map_iff in Hin as (dep & [= E _] & _).
    apply list_elem_of_In in Hc. by destruct (Hne c Hc).
  - rewrite decide_False by (by apply Hne). simpl. by apply IH.
Qed.

(** *** The queue loop *)

Lemma release_spec l queue d : NoDup l -> exists queue' d', fold_left release l (queue, d) = (queue', d') /\
  (forall v, degree v d' = (degree v d - (if decide (v ∈ l) then 1 else 0))%Z) /\
  queue' = queue ++ filter (fun v => degree v d = 1%Z) l.
Proof.
  revert queue d. induction l as [|v l IH]; intros queue d Hn.
  { exists queue, d. split; [done|]. split; [|by rewrite app_nil_r]. intros v. rewrite decide_False by apply not_elem_of_nil. lia. }
  apply NoDup_cons in Hn as [Hv Hn]. cbn [fold_left release].
  destruct (IH (if (degree v d - 1 =? 0)%Z then queue ++ [v] else queue) (map_set v (degree v d - 1)%Z d) Hn)
    as (queue' & d' & Hrun & Hd & Hq).
  exists queue', d'. split; [done|].
  assert (forall w, degree w (map_set v (degree v d - 1)%Z d) = (degree w d - (if decide (w = v) then 1 else 0))%Z) as Hset.
  { intros w. unfold degree at 1. destruct (decide (w = v)) as [->|Hne]; [by rewrite map_get_set_eq|].
    rewrite map_get_set_ne by done. fold (degree w d). lia. }
  split.
  - intros w. rewrite Hd, Hset. destruct (decide (w = v)) as [->|Hne].
    + rewrite decide_False by done. rewrite decide_True by (by left). lia.
    + destruct (decide (w ∈ l)); [rewrite decide_True by (by right)|rewrite decide_False by set_solver]; lia.
  - rewrite Hq, filter_cons.
    assert (filter (fun w => degree w (map_set v (degree v d - 1)%Z d) = 1%Z) l = filter (fun w => degree w d = 1%Z) l) as ->.
    { apply filter_iff_in. intros w Hw. rewrite Hset, decide_False by (by intros ->). by rewrite Z.sub_0_r. }
    destruct (decide (degree v d = 1%Z)) as [E|E].
    + assert ((degree v d - 1 =? 0)%Z = true) as -> by (apply Z.eqb_eq; lia). by rewrite <- app_assoc.
    + assert ((degree v d - 1 =? 0)%Z = false) as -> by (apply Z.eqb_neq; lia). done.
Qed.

Variable g : graph.
Hypothesis g_built : built (pairs artifacts) g.
Let adj : jsmap (list string) := adjList g.

(** Every id comes after the dependencies it has in the set. *)
Definition ordered (l : list string) : Prop :=
  forall l1 v l2 u, l = l1 ++ v :: l2 -> u ∈ ids -> (v, u) ∈ pairs artifacts -> u ∈ l1.

(** The ids taken from the queue so far, the queue, the degrees. *)
Record queued (P Q : list string) (d : jsmap Z) : Prop := {
  q_once : NoDup (P ++ Q);
  q_ids v : v ∈ P ++ Q -> v ∈ ids;
  q_degree v : v ∈ ids -> degree v d = (degree v (inDegree g) - Z.of_nat (length (filter (fun u => v ∈ dependents u adj) P)))%Z;
  q_zero v : v ∈ ids -> (v ∈ P ++ Q <-> degree v d = 0%Z);
  q_ready v u : v ∈ P ++ Q -> u ∈ ids -> (v, u) ∈ pairs artifacts -> u ∈ P;
  q_ordered : ordered P
}.

Lemma inside_elem a u : a ∈ artifacts -> (u ∈ inside a <-> u ∈ ids /\ (artifactId a, u) ∈ pairs artifacts).
Proof.
  intros Ha. unfold inside. rewrite list_elem_of_filter, pairs_elem. split; [intros [H1 H2]; split; [done|by exists a]|].
  intros (H1 & b & Hb & E & Hu). split; [done|].
  assert (map_get (artifactId a) amap = Some a) as M1 by (by apply amap_get).
  assert (map_get (artifactId a) amap = Some b) as M2 by (by apply amap_get). congruence.
Qed.

(** When nothing of an artifact's degree is left, its dependencies are done. *)
Lemma degree_zero_ready P a u : NoDup P -> a ∈ artifacts ->
  Z.of_nat (length (inside a)) = Z.of_nat (length (filter (fun u => artifactId a ∈ dependents u adj) P)) ->
  (forall u, u ∈ P -> u ∈ ids) -> u ∈ inside a -> u ∈ P.
Proof.
  intros HP Ha Hlen Hids Hu. destruct g_built as [_ _ _ _ B5].
  set (A := filter (fun u => artifactId a ∈ dependents u adj) P) in *.
  assert (NoDup A) as HA by (by apply NoDup_filter).
  assert (A ⊆+ inside a) as Hsub.
  { apply NoDup_submseteq; [done|]. intros w. unfold A. rewrite list_elem_of_filter. intros [Hw HwP].
    apply inside_elem; [done|]. split; [by apply Hids|]. apply B5; [by apply Hids|done]. }
  assert (A ≡ₚ inside a) as Hperm by (apply submseteq_length_Permutation; [done|lia]).
  rewrite <- Hperm in Hu. unfold A in Hu. by apply list_elem_of_filter in Hu as [_ Hu].
Qed.

(** An artifact's degree in the graph. *)
Lemma degree_start a : a ∈ artifacts -> degree (artifactId a) (inDegree g) = Z.of_nat (length (inside a)).
Proof.
  intros Ha. rewrite (b_degree _ _ g_built) by (by apply list_elem_of_fmap_2). by rewrite count_inside.
Qed.

Lemma ids_artifact v : v ∈ ids -> exists a, a ∈ artifacts /\ artifactId a = v.
Proof. intros (a & -> & Ha)%list_elem_of_fmap. by exists a. Qed.

Lemma queued_ready P Q d v u : NoDup (P ++ Q) -> (forall w, w ∈ P ++ Q -> w ∈ ids) ->
  degree v d = (degree v (inDegree g) - Z.of_nat (length (filter (fun u => v ∈ dependents u adj) P)))%Z ->
  v ∈ ids -> degree v d = 0%Z -> u ∈ ids -> (v, u) ∈ pairs artifacts -> u ∈ P.
Proof.
  intros Hn Hids Hd Hv H0 Hu Hp. destruct (ids_artifact v Hv) as (a & Ha & <-).
  rewrite degree_start in Hd by done. apply NoDup_app in Hn as (HP & _ & _).
  apply (degree_zero_ready P a u HP Ha); [lia| |by apply inside_elem].
  intros w Hw. apply Hids. apply elem_of_app. by left.
Qed.

Lemma queued_start : queued [] (map fst (filter (fun '(_, degree) => degree = 0%Z) (inDegree g))) (inDegree g).
Proof.
  destruct g_built as [B1 B2 B3 B4 B5]. set (Q := map fst _).
  assert (forall v, v ∈ ids -> v ∈ Q <-> degree v (inDegree g) = 0%Z) as HQ.
  { intros v Hv. unfold Q. rewrite list_elem_of_fmap. unfold degree. assert (NoDup (inDegree g).*1) as Hnd by (by rewrite B1). split.
    - intros ([w z] & -> & [Hz Hin]%list_elem_of_filter). simpl. apply (entries_get _ _ _ Hnd) in Hin. by rewrite Hin.
    - rewrite <- B1 in Hv. apply list_elem_of_fmap in Hv as ([w z] & -> & Hin). simpl.
      rewrite (proj2 (entries_get _ _ _ Hnd) Hin). simpl. intros ->. exists (w, 0%Z). split; [done|].
      by apply list_elem_of_filter. }
  assert (forall v, v ∈ Q -> v ∈ ids) as Hids.
  { intros v (p & -> & [_ Hp]%list_elem_of_filter)%list_elem_of_fmap. rewrite <- B1. by apply list_elem_of_fmap_2. }
  assert (NoDup Q) as HnQ.
  { unfold Q. apply (NoDup_map_filter fst). change (NoDup (inDegree g).*1). by rewrite B1. }
  split; simpl; [done|done| | | |].
  - intros v _. lia.
  - done.
  - intros v u Hv Hu Hp. apply (queued_ready [] Q (inDegree g) v u); try done; [simpl; lia|by apply Hids|apply HQ; [by apply Hids|done]].
  - by intros [|? ?] v l2 u E.
Qed.

Lemma queued_step P c Q d : queued P (c :: Q) d ->
  exists Q' d', fold_left release (dependents c adj) (Q, d) = (Q', d') /\ queued (P ++ [c]) Q' d'.
Proof.
  intros [H1 H2 H3 H4 H5 H6]. pose proof g_built as [B1 B2 B3 B4 B5].
  assert (c ∈ ids) as Hc by (apply H2; apply elem_of_app; right; by left).
  destruct (release_spec (dependents c adj) Q d (B4 c Hc)) as (Q' & d' & Hrun & Hd' & HQ').
  exists Q', d'. split; [done|].
  apply NoDup_app in H1 as (HP & Hdisj & HcQ). pose proof HcQ as [HcQ1 HQ]%NoDup_cons.
  assert (c ∉ P) as HcP by (intros Hin; apply (Hdisj c Hin); by left).
  set (N := filter (fun v => degree v d = 1%Z) (dependents c adj)) in *.
  assert (forall v, v ∈ dependents c adj -> v ∈ ids /\ (v, c) ∈ pairs artifacts) as Hdep.
  { intros v Hv. apply B5 in Hv; [|done]. split; [|done]. apply pairs_elem in Hv as (a & Ha & <- & _). by apply list_elem_of_fmap_2. }
  assert (forall v, v ∈ N -> v ∈ ids /\ v ∉ P ++ c :: Q) as HN.
  { intros v [Hv1 Hv]%list_elem_of_filter. destruct (Hdep v Hv) as [Hvi _]. split; [done|]. rewrite H4 by done. lia. }
  assert (NoDup N) as HnN by (apply NoDup_filter, B4, Hc).
  assert ((P ++ [c]) ++ Q' ≡ₚ (P ++ c :: Q) ++ N) as Hperm by (rewrite HQ', <- !app_assoc; done).
  assert (NoDup ((P ++ c :: Q) ++ N)) as Hnd.
  { apply NoDup_app. split; [by apply NoDup_app|]. split; [|done]. intros v Hv HvN. by destruct (HN v HvN). }
  assert (NoDup ((P ++ [c]) ++ Q')) as Hnd' by (by rewrite Hperm).
  assert (forall v, v ∈ (P ++ [c]) ++ Q' -> v ∈ ids) as Hids'.
  { intros v. rewrite Hperm, elem_of_app. intros [Hv|Hv]; [by apply H2|by apply HN]. }
  assert (forall v, v ∈ ids -> degree v d' = (degree v (inDegree g) -
    Z.of_nat (length (filter (fun u => v ∈ dependents u adj) (P ++ [c]))))%Z) as Hdeg'.
  { intros v Hv. rewrite Hd', H3, filter_app, length_app, filter_cons, filter_nil by done.
    destruct (decide (v ∈ dependents c adj)); simpl; lia. }
  assert (forall v, v ∈ ids -> v ∈ (P ++ [c]) ++ Q' <-> degree v d' = 0%Z) as Hzero'.
  { intros v Hv. rewrite Hperm, elem_of_app, H4, Hd' by done. unfold N. rewrite list_elem_of_filter.
    destruct (decide (v ∈ dependents c adj)) as [Hin|Hout].
    - assert (degree v d <> 0%Z) as Hne.
      { intros H0. destruct (Hdep v Hin) as [_ Hp]. apply HcP. apply (H5 v c); [by apply H4|done|done]. }
      split; [intros [?|[? _]]; [done|lia]|]. intros. right. split; [lia|done].
    - split; [intros [?|[_ ?]]; [lia|done]|]. intros. left. lia. }
  assert (forall v u, v ∈ (P ++ [c]) ++ Q' -> u ∈ ids -> (v, u) ∈ pairs artifacts -> u ∈ P ++ [c]) as Hready'.
  { intros v u Hv Hu Hp. pose proof (Hids' v Hv) as Hvi.
    apply (queued_ready (P ++ [c]) Q' d' v u Hnd' Hids' (Hdeg' v Hvi) Hvi); [by apply Hzero'|done|done]. }
  split; try done.
  intros l1 v l2 u E Hu Hp. destruct l2 as [|x l2] using rev_ind.
  - apply app_inj_tail in E as [<- ->]. apply (H5 v u); [apply elem_of_app; right; by left|done|done].
  - rewrite app_comm_cons, app_assoc in E. apply app_inj_tail in E as [E _]. exact (H6 l1 v l2 u E Hu Hp).
Qed.

(** The loop ends, with the ids in an order and no degree left at zero. *)
Lemma kahn_runs fuel P Q d sorted : queued P Q d -> map artifactId sorted = P -> Forall (fun a => a ∈ artifacts) sorted ->
  length artifacts <= fuel + length P ->
  exists sorted' d', kahn fuel amap adj Q d sorted = Some sorted' /\ queued (map artifactId sorted') [] d' /\
    Forall (fun a => a ∈ artifacts) sorted'.
Proof.
  revert P Q d sorted. induction fuel as [|fuel IH]; intros P Q d sorted Hq HP Hs Hf; (destruct Q as [|c Q];
    [exists sorted, d; split; [done|]; subst P; done|]).
  - destruct Hq as [H1 H2 _ _ _ _]. assert (P ++ c :: Q ⊆+ ids) as Hsub by (by apply NoDup_submseteq).
    apply submseteq_length in Hsub. unfold ids in Hsub. rewrite length_app, length_map in Hsub. simpl in Hsub. lia.
  - assert (c ∈ ids) as Hc by (apply (q_ids _ _ _ Hq); apply elem_of_app; right; by left).
    destruct (ids_artifact c Hc) as (a & Ha & Hac).
    destruct (queued_step P c Q d Hq) as (Q' & d' & Hrun & Hq').
    assert (map_get c amap = Some a) as Hget by (by apply amap_get).
    cbn [kahn]. rewrite Hget. simpl. rewrite Hrun. apply (IH (P ++ [c])); [done| | |].
    + by rewrite map_app, HP, <- Hac.
    + apply Forall_app. split; [done|]. by apply Forall_singleton.
    + rewrite length_app. simpl. lia.
Qed.

(** The artifacts can be ordered: no cycle, and none lists a dependency twice. *)
Definition orderable : Prop :=
  (exists rank : string -> nat, forall a u, a ∈ artifacts -> u ∈ inside a -> rank u < rank (artifactId a)) /\
  (forall a, a ∈ artifacts -> NoDup (inside a)).

Lemma queued_complete P d : queued P [] d -> orderable -> forall v, v ∈ ids -> v ∈ P.
Proof.
  intros Hq [[rank Hrank] Hdup]. assert (forall n v, rank v < n -> v ∈ ids -> v ∈ P) as H.
  { induction n as [|n IH]; intros v Hn Hv; [lia|]. destruct (ids_artifact v Hv) as (a & Ha & <-).
    assert (artifactId a ∈ P ++ []) as Hin; [|by rewrite app_nil_r in Hin].
    apply (q_zero _ _ _ Hq); [done|]. rewrite (q_degree _ _ _ Hq) by done. rewrite degree_start by done.
    assert (inside a ⊆+ filter (fun u => artifactId a ∈ dependents u adj) P) as Hsub.
    { apply NoDup_submseteq; [by apply Hdup|]. intros u Hu. pose proof Hu as [Hui Hp]%inside_elem; [|done].
      apply list_elem_of_filter. split; [by apply g_built|]. apply IH; [|done]. pose proof (Hrank a u Ha Hu). lia. }
    assert (filter (fun u => artifactId a ∈ dependents u adj) P ⊆+ inside a) as Hsub2.
    { pose proof (q_once _ _ _ Hq) as Hn1. rewrite app_nil_r in Hn1. apply NoDup_submseteq; [by apply NoDup_filter|].
      intros u [Hu HuP]%list_elem_of_filter. assert (u ∈ ids) as Hui by (apply (q_ids _ _ _ Hq); by rewrite app_nil_r).
      apply inside_elem; [done|]. split; [done|]. by apply g_built. }
    apply submseteq_length in Hsub, Hsub2. lia. }
  intros v Hv. by apply (H (S (rank v))); [lia|].
Qed.

Lemma ordered_orderable P d : queued P [] d -> (forall v, v ∈ ids -> v ∈ P) -> orderable.
Proof.
  intros Hq Hall. pose proof (q_once _ _ _ Hq) as Hn. rewrite app_nil_r in Hn. split.
  - exists (fun v => match list_find (fun w => w = v) P with Some (n, _) => n | None => 0 end).
    assert (forall l1 v l2, P = l1 ++ v :: l2 -> list_find (fun w => w = v) P = Some (length l1, v)) as Hpos.
    { intros l1 v l2 E. apply list_find_Some. split; [by rewrite E, list_lookup_middle|]. split; [done|].
      intros j w Hj Hlt ->. rewrite E in Hj, Hn. rewrite lookup_app_l in Hj by done. apply list_elem_of_lookup_2 in Hj.
      apply NoDup_app in Hn as (_ & Hdis & _). apply (Hdis v Hj). by left. }
    intros a u Ha [Hu Hp]%inside_elem; [|done].
    destruct (list_elem_of_split P (artifactId a)) as (l1 & l2 & E); [apply Hall; by apply list_elem_of_fmap_2|].
    pose proof (q_ordered _ _ _ Hq l1 (artifactId a) l2 u E Hu Hp) as Hin.
    destruct (list_elem_of_split l1 u Hin) as (l3 & l4 & ->).
    rewrite (Hpos _ _ _ E). rewrite <- app_assoc in E. rewrite (Hpos l3 u (l4 ++ artifactId a :: l2) E).
    rewrite length_app. simpl. lia.
  - intros a Ha. assert (artifactId a ∈ ids) as Hv by (by apply list_elem_of_fmap_2).
    assert (degree (artifactId a) d = 0%Z) as H0.
    { apply (q_zero _ _ _ Hq); [done|]. rewrite app_nil_r. by apply Hall. }
    rewrite (q_degree _ _ _ Hq), degree_start in H0 by done. set (A := filter _ P) in H0.
    assert (NoDup A) as HA by (by apply NoDup_filter).
    assert (A ⊆+ inside a) as Hsub.
    { apply NoDup_submseteq; [done|]. intros u [Hu HuP]%list_elem_of_filter.
      assert (u ∈ ids) as Hui by (apply (q_ids _ _ _ Hq); by rewrite app_nil_r).
      apply inside_elem; [done|]. split; [done|]. by apply g_built. }
    assert (A ≡ₚ inside a) as Hperm by (apply submseteq_length_Permutation; [done|lia]). by rewrite <- Hperm.
Qed.

End Sort.

Lemma sort_spec (artifacts : list OutboxArtifact) (pushed : option (list string)) :
  NoDup (map artifactId artifacts) ->
  exists r, sort (length artifacts) artifacts pushed = Some r /\
    (is_ok r = true <-> resolved artifacts pushed /\ orderable artifacts) /\
    (forall l, r = Ok l -> l ≡ₚ artifacts /\
      forall l1 a l2 u, l = l1 ++ a :: l2 -> u ∈ dependencies a -> u ∈ map artifactId artifacts -> u ∈ map artifactId l1).
Proof.
  intros Hn. unfold sort.
  assert (forall v u, (v, u) ∈ pairs artifacts -> v ∈ map artifactId artifacts) as Hpairs.
  { intros v u (a & Ha & <- & _)%pairs_elem. by apply list_elem_of_fmap_2. }
  pose proof (add_dependencies_built artifacts Hn pushed (pairs artifacts) [] (init artifacts) Hpairs (init_built artifacts Hn)) as Hb.
  destruct (add_dependencies _ _ _ _) as [g|e].
  - destruct Hb as [Hb Hr]. simpl in Hb.
    destruct (kahn_runs artifacts Hn g Hb (length artifacts) [] _ _ [] (queued_start artifacts Hn g Hb) eq_refl ltac:(by constructor)
      ltac:(simpl; lia)) as (l & d & Hrun & Hq & Hl).
    rewrite Hrun. simpl. eexists. split; [reflexivity|].
    pose proof (q_once _ _ _ _ _ Hq) as Hnl. rewrite app_nil_r in Hnl.
    assert (l ⊆+ artifacts) as Hsub.
    { apply NoDup_submseteq; [by eapply NoDup_fmap_1|]. intros a Ha. by apply (proj1 (Forall_forall _ _) Hl). }
    assert (length l = length artifacts <-> forall v, v ∈ map artifactId artifacts -> v ∈ map artifactId l) as Hfull.
    { split.
      - intros Hlen v Hv. assert (l ≡ₚ artifacts) as Hperm by (apply submseteq_length_Permutation; [done|lia]).
        by rewrite Hperm.
      - intros Hall. assert (map artifactId artifacts ⊆+ map artifactId l) as Hs by (by apply NoDup_submseteq).
        apply submseteq_length in Hs, Hsub. rewrite !length_map in Hs. lia. }
    assert (resolved artifacts pushed) as Hres.
    { intros a dep Ha Hdep. apply (Hr (artifactId a) dep). apply pairs_elem. by exists a. }
    destruct (decide (length l = length artifacts)) as [Hlen|Hlen]; simpl.
    + assert (l ≡ₚ artifacts) as Hperm by (apply submseteq_length_Permutation; [done|lia]). split.
      * split; [intros _|done]. split; [done|]. eapply (ordered_orderable artifacts Hn g Hb); [exact Hq|]. by apply Hfull.
      * intros l' [= <-]. split; [done|]. intros l1 a l2 u -> Hu Hui. rewrite map_app in Hq.
        apply (q_ordered _ _ _ _ _ Hq (map artifactId l1) (artifactId a) (map artifactId l2) u); [done|done|].
        apply pairs_elem. exists a. split; [|done]. rewrite <- Hperm. apply elem_of_app. right. by left.
    + split; [|done]. split; [done|]. intros [_ Ho]. destruct Hlen. apply Hfull.
      intros v Hv. by apply (queued_complete artifacts Hn g Hb _ d Hq Ho).
  - exists (Err e). split; [done|]. split; [|done]. split; [done|]. intros [Hres _].
    destruct Hb as (v & u & l0 & Hvu & Hu & -> & Hl0). apply pairs_elem in Hvu as (a & Ha & _ & Hdep).
    by destruct (Hres a u Ha Hdep).
Qed.

End DependencyGraphLemmas.

(** ** Properties *)

Module DependencyGraphProperties.
Import DependencyGraph DependencyGraphLemmas.

(** C18: The outbox is ordered whenever it can be. For artifacts with distinct ids the sort
    always ends. It succeeds exactly when every dependency is in the set or known to be
    pushed, the dependencies in the set form no cycle, and no artifact lists one of them
    twice; the result is then a permutation of the artifacts in which each comes after all
    of its dependencies. *)
Theorem sort_decides (artifacts : list OutboxArtifact) (pushed : option (list string)) :
  NoDup (map artifactId artifacts) ->
  exists r, sort (length artifacts) artifacts pushed = Some r /\
    (is_ok r = true <-> resolved artifacts pushed /\ orderable artifacts) /\
    (forall l, r = Ok l -> l ≡ₚ artifacts /\
      forall l1 a l2 u, l = l1 ++ a :: l2 -> u ∈ dependencies a -> u ∈ map artifactId artifacts -> u ∈ map artifactId l1).
Proof. exact (sort_spec artifacts pushed). Qed.

(** [buildDependencyChain] ends: it never goes deeper than there are artifacts. *)
Definition unvisited (m : jsmap OutboxArtifact) (visited : list string) : list string :=
  filter (fun i => i ∉ visited) m.*1.

Lemma unvisited_less m visited visited' : (forall i, i ∈ visited -> i ∈ visited') ->
  length (unvisited m visited') <= length (unvisited m visited).
Proof.
  intros Hsub. unfold unvisited. induction m.*1 as [|i l IH]; [done|]. rewrite !filter_cons.
  destruct (decide (i ∉ visited')) as [H1|H1], (decide (i ∉ visited)) as [H2|H2]; simpl; try lia. naive_solver.
Qed.

Lemma unvisited_visit m visited i : i ∈ m.*1 -> i ∉ visited ->
  length (unvisited m (visited ++ [i])) < length (unvisited m visited).
Proof.
  intros Hi Hv. unfold unvisited. induction m.*1 as [|j l IH]; [by apply not_elem_of_nil in Hi|].
  assert (forall l0, length (filter (fun j => j ∉ visited ++ [i]) l0) <= length (filter (fun j => j ∉ visited) l0)) as Hle.
  { induction l0 as [|x l0 IH0]; [done|]. rewrite !filter_cons.
    destruct (decide (x ∉ visited ++ [i])), (decide (x ∉ visited)); simpl; try lia. set_solver. }
  rewrite !filter_cons. apply elem_of_cons in Hi as [<-|Hi].
  - rewrite decide_False by (rewrite elem_of_app, list_elem_of_singleton; naive_solver). rewrite decide_True by done.
    specialize (Hle l). simpl. lia.
  - specialize (IH Hi). destruct (decide (j ∉ visited ++ [i])), (decide (j ∉ visited)); simpl; try lia. set_solver.
Qed.

Lemma visit_ends fuel m i visited chain : length (unvisited m visited) < fuel ->
  exists visited' chain', visit fuel m i (visited, chain) = Some (visited', chain') /\ (forall j, j ∈ visited -> j ∈ visited').
Proof.
  revert i visited chain. induction fuel as [|fuel IH]; intros i visited chain Hf; [lia|]. cbn [visit].
  destruct (decide (i ∈ visited)) as [Hi|Hi]; [by exists visited, chain|].
  destruct (map_get i m) as [a|] eqn:E; [|exists (visited ++ [i]), chain; split; [done|set_solver]].
  assert (i ∈ m.*1) as Hin.
  { clear -E. unfold map_get in E. induction m as [|[k v] m IH]; [done|]. csimpl in *.
    destruct (decide (i = k)) as [->|]; [by left|]. right. by apply IH. }
  pose proof (unvisited_visit m visited i Hin Hi) as Hless.
  assert (forall deps v c, (forall j, j ∈ visited ++ [i] -> j ∈ v) -> exists v' c',
    foldr (fun dep k st => st' ← visit fuel m dep st; k st') Some deps (v, c) = Some (v', c') /\
    (forall j, j ∈ v -> j ∈ v')) as Hdeps.
  { induction deps as [|dep deps IHd]; intros v c Hv; [by exists v, c|]. simpl.
    destruct (IH dep v c) as (v1 & c1 & -> & H1); [pose proof (unvisited_less m _ _ Hv); lia|]. simpl.
    destruct (IHd v1 c1) as (v2 & c2 & -> & H2); [naive_solver|]. exists v2, c2. naive_solver. }
  destruct (Hdeps (dependencies a) (visited ++ [i]) chain ltac:(done)) as (v & c & -> & Hv). simpl.
  exists v, (c ++ [i]). split; [done|]. intros j Hj. apply Hv. set_solver.
Qed.

Theorem chain_terminates (i : string) (m : jsmap OutboxArtifact) :
  exists chain, buildDependencyChain (S (length m)) i m = Some chain.
Proof.
  unfold buildDependencyChain. destruct (visit_ends (S (length m)) m i [] []) as (v & c & -> & _); [|by eexists].
  unfold unvisited. pose proof (length_filter (fun i => i ∉ []) m.*1) as H. rewrite length_fmap in H. lia.
Qed.

End DependencyGraphProperties.

(** ** Witnesses *)

Module DependencyGraphWitnesses.
Import DependencyGraph DependencyGraphLemmas DependencyGraphProperties.

Definition item (i : string) (deps : list string) : OutboxArtifact := Artifact i "grant" "{}" deps "pending" 1.

Lemma sort_decides_witness : exists l,
  sort 3 [item "grant" ["state"; "genesis"]; item "state" ["genesis"]; item "genesis" ["old"]] (Some ["old"]) = Some (Ok l) /\
  l ≡ₚ [item "grant" ["state"; "genesis"]; item "state" ["genesis"]; item "genesis" ["old"]].
Proof.
  destruct (sort_decides [item "grant" ["state"; "genesis"]; item "state" ["genesis"]; item "genesis" ["old"]] (Some ["old"]))
    as (r & Hr & _ & Hl).
  - apply (bool_decide_unpack _). vm_compute. exact I.
  - assert (exists l, r = Ok l) as [l ->].
    { assert (sort 3 [item "grant" ["state"; "genesis"]; item "state" ["genesis"]; item "genesis" ["old"]] (Some ["old"]) =
        Some (Ok [item "genesis" ["old"]; item "state" ["genesis"]; item "grant" ["state"; "genesis"]])) as E
        by (vm_compute; reflexivity).
      simpl length in Hr. rewrite E in Hr. injection Hr as <-. by eexists. }
    exists l. split; [exact Hr|]. apply (Hl l eq_refl).
Defined.

(** A dependency listed twice is taken for a cycle. *)
Example duplicate_dependency : sort 2 [item "genesis" []; item "state" ["genesis"; "genesis"]] (Some []) =
  Some (Err (circular [item "state" ["genesis"; "genesis"]])).
Proof. vm_compute. reflexivity. Qed.

End DependencyGraphWitnesses.
