(* ===== verification/Outbox.v ===== *)
(** * The outbox of sharing artifacts

    [packages/infrastructure/src/sharing/outbox]: [OutboxStore.ts] over the
    table [crypto_outbox], and [CryptoOutbox.ts], which pushes the pending
    artifacts in dependency order and resolves what the server misses.

    The sharing transport is code outside the files (an implementation of
    [SharingTransportPort]): it is a parameter of the model, two computations
    over a server state of any type.  The depth limit of the code is the
    structural argument of [pushArtifact], so nothing here takes a fuel but the
    sort, which gets the number of artifacts.  A failing database statement is
    not modelled. *)

From S2P Require Import Prelude JsValues JsonText Application DependencyGraph.
From stdpp Require Import sorting.
From Stdlib Require Import Ascii.

(** ** The table *)

Record OutboxRow : Type := OutboxCols {
  artifact_id : string;
  artifact_type : string;
  row_payload : string;
  row_dependencies : string;
  row_status : string;
  enqueued_at : Z
}.

#[export] Instance OutboxRow_eq_dec : EqDecision OutboxRow.
Proof. solve_decision. Defined.

Record outbox (Srv : Type) : Type := OutboxWorld {
  crypto_outbox : list OutboxRow;
  server : Srv
}.
Arguments OutboxWorld {Srv} _ _.
Arguments crypto_outbox {Srv} _.
Arguments server {Srv} _.

Module OutboxStore.

Definition set_rows {Srv} (f : list OutboxRow -> list OutboxRow) (w : outbox Srv) : outbox Srv :=
  OutboxWorld (f (crypto_outbox w)) (server w).

Definition row_of (a : OutboxArtifact) : OutboxRow :=
  OutboxCols (artifactId a) (artifactType a) (payload a) (JSON_stringify (JArr (map JStr (dependencies a))))
    (status a) (enqueuedAt a).

Definition unexpected_dependencies : error := PlainError "Unexpected token in JSON".

Definition as_string (v : json) : option string := match v with JStr s => Some s | _ => None end.

(** [JSON.parse(row.dependencies) as string[]]; a column that does not hold an
    array of strings is not written by [enqueue]. *)
Definition parse_dependencies (s : string) : result error (list string) :=
  match JSON_parse s with
  | Some (JArr l) => match mapM as_string l with Some ids => Ok ids | None => Err unexpected_dependencies end
  | _ => Err unexpected_dependencies
  end.

Definition artifact_of (r : OutboxRow) : result error OutboxArtifact :=
  deps ← parse_dependencies (row_dependencies r);
  Ok (Artifact (artifact_id r) (artifact_type r) (row_payload r) deps (row_status r) (enqueued_at r)).

Definition has_id (i : string) (r : OutboxRow) : Prop := artifact_id r = i.
#[export] Instance has_id_dec i r : Decision (has_id i r).
Proof. unfold has_id. apply _. Defined.

Definition enqueued_before (r r' : OutboxRow) : Prop := (enqueued_at r <= enqueued_at r')%Z.
#[export] Instance enqueued_before_dec r r' : Decision (enqueued_before r r').
Proof. unfold enqueued_before. apply _. Defined.

Section Store.
Context {Srv : Type}.
Notation om := (js (outbox Srv) error).

(** [INSERT OR REPLACE]: the row with the same primary key goes. *)
Definition enqueue (a : OutboxArtifact) : om unit :=
  modify (set_rows (fun rows => filter (fun r => ~ has_id (artifactId a) r) rows ++ [row_of a])).

Definition pending_rows (rows : list OutboxRow) : list OutboxRow :=
  merge_sort enqueued_before (filter (fun r => row_status r = "pending") rows).

Definition loadPending : om (list OutboxArtifact) :=
  reads (fun w => mapM artifact_of (pending_rows (crypto_outbox w))).

Definition loadPushedIds : om (list string) :=
  gets (fun w => map artifact_id (filter (fun r => row_status r = "pushed") (crypto_outbox w))).

Definition loadById (i : string) : om (option OutboxArtifact) :=
  reads (fun w =>
    match filter (has_id i) (crypto_outbox w) with
    | [] => Ok None
    | r :: _ => Some <$> artifact_of r
    end).

Definition mark (i : string) (r : OutboxRow) : OutboxRow :=
  if decide (has_id i r)
  then OutboxCols (artifact_id r) (artifact_type r) (row_payload r) (row_dependencies r) "pushed" (enqueued_at r)
  else r.

Definition markPushed (i : string) : om unit := modify (set_rows (map (mark i))).

Definition delete (i : string) : om unit := modify (set_rows (filter (fun r => ~ has_id i r))).

Definition cleared (olderThan : Z) (r : OutboxRow) : Prop := row_status r = "pushed" /\ (enqueued_at r < olderThan)%Z.
#[export] Instance cleared_dec n r : Decision (cleared n r).
Proof. unfold cleared. apply _. Defined.

Definition clearPushed (olderThan : Z) : om unit := modify (set_rows (filter (fun r => ~ cleared olderThan r))).

Definition exists_ (i : string) : om bool :=
  gets (fun w => (0 <? Z.of_nat (length (filter (has_id i) (crypto_outbox w))))%Z).
End Store.
End OutboxStore.

(** ** Pushing *)

Inductive response : Type :=
| Accepted
| MissingDeps (missingDeps : list string).

Module CryptoOutbox.
Import OutboxStore.

Definition MAX_DEPENDENCY_RESOLUTION_DEPTH : nat := 10.
Definition MAX_AGE : Z := 24 * 60 * 60 * 1000.

(** [String(error)] *)
Definition String_of (e : error) : string := "Error: " +:+ error_message e.

Definition depth_exceeded (a : OutboxArtifact) : string :=
  "Maximum dependency resolution depth (10) exceeded for artifact " +:+ artifactId a.
Definition cannot_resolve (deps : list string) : string :=
  "Cannot resolve missing dependencies: " +:+ String.concat ", " deps.
Definition retry_failed : string := "Push failed after resolving dependencies: missing_deps".

Section Push.
Context {Srv : Type} (pushScopeState pushResourceGrant : string -> string -> js Srv error response).
Notation om := (js (outbox Srv) error).

(** A call of the transport. *)
Definition remote {A} (m : js Srv error A) : om A := fun w =>
  let '(r, s) := m (server w) in (r, OutboxWorld (crypto_outbox w) s).

Definition pushArtifactToTransport (a : OutboxArtifact) : om response :=
  if decide (artifactType a = "scope_state") then remote (pushScopeState (artifactId a) (payload a))
  else if decide (artifactType a = "grant") then remote (pushResourceGrant (artifactId a) (payload a))
  else if decide (artifactType a = "event") then mret Accepted
  else throw (PlainError ("Unsupported artifact type: " +:+ artifactType a)).

Fixpoint resolveMissingDeps (push_dep : OutboxArtifact -> om (result string unit)) (missingDeps : list string) : om bool :=
  match missingDeps with
  | [] => mret true
  | depId :: rest =>
      found ← loadById depId;
      match found with
      | None => mret false
      | Some a =>
          r ← push_dep a;
          match r with
          | Err _ => mret false
          | Ok _ => markPushed depId ;; resolveMissingDeps push_dep rest
          end
      end
  end.

(** [levels] is [MAX_DEPENDENCY_RESOLUTION_DEPTH + 1 - depth]. *)
Fixpoint pushArtifact (levels : nat) (a : OutboxArtifact) : om (result string unit) :=
  match levels with
  | 0 => mret (Err (depth_exceeded a))
  | S levels =>
      try_catch (
        answer ← pushArtifactToTransport a;
        match answer with
        | Accepted => mret (Ok tt)
        | MissingDeps deps =>
            resolved ← resolveMissingDeps (pushArtifact levels) deps;
            if (resolved : bool) then
              retry ← pushArtifactToTransport a;
              match retry with
              | Accepted => mret (Ok tt)
              | MissingDeps _ => mret (Err retry_failed)
              end
            else mret (Err (cannot_resolve deps))
        end) (fun e => mret (Err (String_of e)))
  end.

(** The loop of [push] over the sorted artifacts. *)
Fixpoint push_all (sorted : list OutboxArtifact) (pushed failed : Z) : om (Z * Z) :=
  match sorted with
  | [] => mret (pushed, failed)
  | a :: rest =>
      r ← pushArtifact (S MAX_DEPENDENCY_RESOLUTION_DEPTH) a;
      match r with
      | Ok _ => markPushed (artifactId a) ;; push_all rest (pushed + 1) failed
      | Err _ => mret (pushed, (failed + 1)%Z)
      end
  end.

(** [now] is the [Date.now()] of the cleanup; the answer is [{ pushed, failed }]. *)
Definition push (now : Z) : om (Z * Z) :=
  pending ← loadPending;
  if decide (length pending = 0) then mret (0, 0)%Z
  else
    pushedIds ← loadPushedIds;
    match DependencyGraph.sort (length pending) pending (Some pushedIds) with
    | Some (Ok sorted) =>
        st ← push_all sorted 0 0;
        clearPushed (now - MAX_AGE) ;;
        mret st
    | _ => mret (0, Z.of_nat (length pending))%Z
    end.

End Push.
End CryptoOutbox.

(** ** Lemmas *)

Module OutboxLemmas.
Import OutboxStore CryptoOutbox.

(** *** The table *)

Lemma parse_row_of a : artifact_of (row_of a) = Ok a.
Proof.
  destruct a as [i ty p deps st n]. unfold artifact_of, row_of, parse_dependencies. simpl.
  rewrite JsonTextProperties.parse_stringify by (simpl; induction deps; [done|exact IHdeps]).
  by rewrite (mapM_map_some as_string JStr) by (by apply Forall_true).
Qed.

Lemma row_of_inj a b : row_of a = row_of b -> a = b.
Proof. intros E. pose proof (parse_row_of a) as Ha. rewrite E, parse_row_of in Ha. congruence. Qed.

Lemma artifact_of_fields r a : artifact_of r = Ok a -> artifactId a = artifact_id r /\ artifactType a = artifact_type r.
Proof. unfold artifact_of. intros (deps & _ & [= <-])%result_bind_ok. done. Qed.

Definition mark_all (ids : list string) (rows : list OutboxRow) : list OutboxRow := foldr (fun i => map (mark i)) rows ids.

Lemma mark_fields i r : artifact_id (mark i r) = artifact_id r /\ artifact_type (mark i r) = artifact_type r /\
  (row_status (mark i r) = "pushed" \/ mark i r = r).
Proof. unfold mark. case_decide; naive_solver. Qed.

Lemma mark_all_elem ids rows r : r ∈ mark_all ids rows -> exists r0, r0 ∈ rows /\ artifact_id r0 = artifact_id r /\
  artifact_type r0 = artifact_type r /\ (r = r0 \/ (artifact_id r ∈ ids /\ row_status r = "pushed")).
Proof.
  revert r. induction ids as [|i ids IH]; intros r Hr; [by exists r; naive_solver|].
  apply list_elem_of_fmap in Hr as (r1 & -> & Hr1). destruct (IH r1 Hr1) as (r0 & Hr0 & E1 & E2 & Hc).
  destruct (mark_fields i r1) as (F1 & F2 & _). exists r0. split; [done|]. split; [by rewrite F1|]. split; [by rewrite F2|].
  unfold mark. case_decide as Hd; [right; simpl; rewrite Hd; split; [left|done]|].
  destruct Hc as [->|[Hc ?]]; [by left|]. right. split; [by right|done].
Qed.

Lemma mark_all_keeps ids rows r : r ∈ rows -> exists r', r' ∈ mark_all ids rows /\ artifact_id r' = artifact_id r /\
  artifact_type r' = artifact_type r /\ (r' = r \/ artifact_id r ∈ ids).
Proof.
  intros Hr. induction ids as [|i ids IH]; [by exists r; naive_solver|]. destruct IH as (r' & Hr' & E1 & E2 & Hc).
  destruct (mark_fields i r') as (F1 & F2 & _). exists (mark i r'). split; [by apply (list_elem_of_fmap_2 (mark i))|].
  split; [by rewrite F1|]. split; [by rewrite F2|]. unfold mark. case_decide as Hd.
  - right. rewrite <- E1, Hd. left.
  - destruct Hc as [->|Hc]; [by left|]. right. by right.
Qed.

Lemma mark_all_ids ids rows : map artifact_id (mark_all ids rows) = map artifact_id rows.
Proof.
  induction ids as [|i ids IH]; [done|]. simpl. rewrite map_map, <- IH. apply map_ext. intros r. by apply mark_fields.
Qed.

(** *** What a push can do *)

Section Progress.
Context {Srv : Type} (has : Srv -> string -> Prop).

(** A transport call answers [Accepted] only for an artifact that the server
    has from then on, and the server loses none. *)
Record honest (f : string -> string -> js Srv error response) : Prop := {
  accepted i p s s' : f i p s = (Ok Accepted, s') -> has s' i;
  retained i p s j : has s j -> has (f i p s).2 j
}.

(** The artifact with id [i] is on the server, or is an event (which the
    normal sync pushes). *)
Definition settled (w : outbox Srv) (i : string) : Prop :=
  has (server w) i \/ exists r, r ∈ crypto_outbox w /\ artifact_id r = i /\ artifact_type r = "event".

Definition delivered (w : outbox Srv) : Prop :=
  forall r, r ∈ crypto_outbox w -> row_status r = "pushed" -> settled w (artifact_id r).

(** From [w] to [w'] rows are only marked, and only settled ones. *)
Definition progress (w w' : outbox Srv) : Prop :=
  (forall j, has (server w) j -> has (server w') j) /\
  exists ids, crypto_outbox w' = mark_all ids (crypto_outbox w) /\ forall i, i ∈ ids -> settled w' i.

Lemma progress_settled w w' i : progress w w' -> settled w i -> settled w' i.
Proof.
  intros (Hs & ids & E & _) [H|(r & Hr & Hi & Ht)]; [left; by apply Hs|]. right. rewrite E.
  destruct (mark_all_keeps ids _ r Hr) as (r' & Hr' & E1 & E2 & _). exists r'. naive_solver congruence.
Qed.

#[export] Instance progress_preorder : PreOrder progress.
Proof.
  split.
  - intros w. split; [done|]. exists []. split; [done|]. intros i Hi. by apply not_elem_of_nil in Hi.
  - intros w1 w2 w3 H12 H23. pose proof (progress_settled w2 w3) as Hmono.
    destruct H12 as (Hs1 & ids1 & E1 & Hset1). pose proof H23 as (Hs2 & ids2 & E2 & Hset2).
    split; [by intros j Hj%Hs1%Hs2|]. exists (ids2 ++ ids1). split.
    + unfold mark_all in *. rewrite E2, E1. by rewrite foldr_app.
    + intros i [Hi|Hi]%elem_of_app; [by apply Hset2|]. apply Hmono; [done|]. by apply Hset1.
Qed.

Lemma progress_mark w i : settled w i -> progress w (set_rows (map (mark i)) w).
Proof.
  intros H. split; [done|]. exists [i]. split; [done|]. intros j ->%list_elem_of_singleton.
  destruct H as [H|(r & Hr & Hi & Ht)]; [by left|]. right. exists (mark i r). destruct (mark_fields i r) as (F1 & F2 & _).
  split; [by apply (list_elem_of_fmap_2 (mark i))|]. by rewrite F1, F2.
Qed.

Lemma progress_delivered w w' : progress w w' -> delivered w -> delivered w'.
Proof.
  intros Hp Hd r Hr Hst. pose proof Hp as (_ & ids & E & Hset). rewrite E in Hr.
  destruct (mark_all_elem ids _ r Hr) as (r0 & Hr0 & Hi & _ & [->|[Hin _]]); [|by apply Hset].
  apply (progress_settled w w' _ Hp). by apply Hd.
Qed.

(** The outbox has a row for the artifact. *)
Definition listed (w : outbox Srv) (a : OutboxArtifact) : Prop :=
  exists r, r ∈ crypto_outbox w /\ artifact_id r = artifactId a /\ artifact_type r = artifactType a.

Lemma progress_listed w w' a : progress w w' -> listed w a -> listed w' a.
Proof.
  intros (_ & ids & E & _) (r & Hr & Hi & Ht). destruct (mark_all_keeps ids _ r Hr) as (r' & Hr' & E1 & E2 & _).
  exists r'. rewrite E. naive_solver congruence.
Qed.

Lemma loadById_spec (w : outbox Srv) i r w' : loadById i w = (r, w') -> w' = w /\
  (forall a, r = Ok (Some a) -> artifactId a = i /\ listed w a).
Proof.
  intros [= <- <-]. split; [done|]. intros a. destruct (filter (has_id i) (crypto_outbox w)) as [|r l] eqn:E; [done|].
  assert (r ∈ filter (has_id i) (crypto_outbox w)) as [Hi Hr]%list_elem_of_filter by (rewrite E; by left).
  destruct (artifact_of r) as [b|] eqn:Eb; [|done]. intros [= <-]. apply artifact_of_fields in Eb as [E1 E2].
  split; [by rewrite E1|]. by exists r.
Qed.

Context (pushS pushG : string -> string -> js Srv error response) (HS : honest pushS) (HG : honest pushG).

Lemma remote_progress f w i p : honest f -> progress w (remote (f i p) w).2.
Proof.
  intros [Ha Hk]. unfold remote. destruct (f i p (server w)) as [r s] eqn:E. simpl. split.
  - intros j Hj. simpl. apply (Hk i p) in Hj. by rewrite E in Hj.
  - exists []. split; [done|]. intros j Hj. by apply not_elem_of_nil in Hj.
Qed.

Lemma transport_progress w a r w' : listed w a -> pushArtifactToTransport pushS pushG a w = (r, w') ->
  progress w w' /\ (r = Ok Accepted -> settled w' (artifactId a)).
Proof.
  assert (forall f, honest f -> remote (f (artifactId a) (payload a)) w = (r, w') ->
    progress w w' /\ (r = Ok Accepted -> settled w' (artifactId a))) as Hf.
  { intros f Hh E. split; [pose proof (remote_progress f w (artifactId a) (payload a) Hh) as H; by rewrite E in H|].
    intros ->. unfold remote in E. destruct (f _ _ _) as [r s] eqn:Ef. injection E as -> <-. left. by apply (accepted f Hh) in Ef. }
  intros Hl. unfold pushArtifactToTransport. repeat case_decide; [by apply Hf|by apply Hf| |].
  - intros [= <- <-]. split; [done|]. intros _. right. destruct Hl as (r0 & Hr & Hi & Ht). exists r0. naive_solver congruence.
  - intros [= <- <-]. split; [done|]. discriminate.
Qed.

Lemma resolve_progress push_dep :
  (forall w a r w', listed w a -> push_dep a w = (r, w') ->
    progress w w' /\ (r = Ok (Ok tt) -> settled w' (artifactId a))) ->
  forall deps w r w', resolveMissingDeps push_dep deps w = (r, w') -> progress w w'.
Proof.
  intros Hpush deps. induction deps as [|i deps IH]; intros w r w'; [by intros [= _ <-]|].
  cbn [resolveMissingDeps]. unfold mbind, js_bind. destruct (loadById i w) as [[[a|]|e] w1] eqn:El;
    apply loadById_spec in El as [-> Hl]; [|by intros [= _ <-]..].
  destruct (Hl a eq_refl) as [Hi Hla]. destruct (push_dep a w) as [[[[]|e]|e] w2] eqn:Ep;
    destruct (Hpush w a _ w2 Hla Ep) as [Hp Hs]; [|by intros [= _ <-]..].
  intros E. transitivity w2; [done|]. transitivity (set_rows (map (mark i)) w2); [|exact (IH _ _ _ E)].
  apply progress_mark. rewrite <- Hi. by apply Hs.
Qed.

Lemma pushArtifact_progress levels w a r w' : listed w a -> pushArtifact pushS pushG levels a w = (r, w') ->
  progress w w' /\ (r = Ok (Ok tt) -> settled w' (artifactId a)) /\ is_ok r = true.
Proof.
  revert w a r w'. induction levels as [|levels IH]; intros w a r w' Hl; cbn [pushArtifact]; [by intros [= <- <-]|].
  unfold try_catch, mbind, js_bind. destruct (pushArtifactToTransport pushS pushG a w) as [[[|deps]|e] w1] eqn:E1;
    destruct (transport_progress w a _ w1 Hl E1) as [H1 Hs1]; [intros [= <- <-]; by eauto| |by intros [= <- <-]].
  destruct (resolveMissingDeps (pushArtifact pushS pushG levels) deps w1) as [ok w2] eqn:E2.
  assert (progress w w2) as H2.
  { transitivity w1; [done|]. eapply resolve_progress; [|exact E2]. intros v b r0 v' Hb Er.
    destruct (IH v b r0 v' Hb Er) as (? & ? & _). done. }
  destruct ok as [[|]|e]; [|by intros [= <- <-]..].
  destruct (pushArtifactToTransport pushS pushG a w2) as [retry w3] eqn:E3.
  destruct (transport_progress w2 a _ w3 (progress_listed _ _ _ H2 Hl) E3) as [H3 Hs3].
  assert (progress w w3) by (by transitivity w2).
  destruct retry as [[|deps']|e]; intros [= <- <-]; by eauto.
Qed.

Lemma push_all_progress sorted pushed failed w r w' : Forall (listed w) sorted ->
  push_all pushS pushG sorted pushed failed w = (r, w') -> progress w w' /\ is_ok r = true.
Proof.
  revert pushed failed w r w'. induction sorted as [|a sorted IH]; intros pushed failed w r w' Hl;
    [by intros [= <- <-]|]. apply Forall_cons in Hl as [Ha Hl]. cbn [push_all]. unfold mbind, js_bind.
  destruct (pushArtifact pushS pushG (S MAX_DEPENDENCY_RESOLUTION_DEPTH) a w) as [r1 w1] eqn:E1.
  destruct (pushArtifact_progress _ w a r1 w1 Ha E1) as (H1 & Hs1 & Hok).
  destruct r1 as [[[]|e]|e]; [|by intros [= <- <-]|done]. intros E2.
  assert (progress w (set_rows (map (mark (artifactId a))) w1)) as H2.
  { transitivity w1; [done|]. apply progress_mark. by apply Hs1. }
  destruct (IH _ _ _ _ _ ltac:(eapply Forall_impl; [exact Hl|]; intros b; by apply progress_listed) E2) as [H3 ?].
  split; [by transitivity (set_rows (map (mark (artifactId a))) w1)|done].
Qed.
End Progress.

(** *** The pending artifacts *)

Lemma pending_listed {Srv} (w : outbox Srv) pending : loadPending w = (Ok pending, w) ->
  Forall (listed w) pending /\ map artifactId pending = map artifact_id (pending_rows (crypto_outbox w)).
Proof.
  unfold loadPending, reads. intros [= E]. apply mapM_ok_Forall2 in E.
  assert (Forall (fun r => r ∈ crypto_outbox w) (pending_rows (crypto_outbox w))) as Hin.
  { apply Forall_forall. intros r Hr. unfold pending_rows in Hr. rewrite merge_sort_Permutation in Hr.
    by apply list_elem_of_filter in Hr as [_ ?]. }
  induction E as [|r a rows pending Er _ IH]; [done|]. apply Forall_cons in Hin as [Hr Hin].
  apply artifact_of_fields in Er as [E1 E2]. destruct (IH Hin) as [IH1 IH2]. split.
  - constructor; [by exists r|done].
  - simpl. by rewrite E1, IH2.
Qed.

Lemma pending_once rows : NoDup (map artifact_id rows) -> NoDup (map artifact_id (pending_rows rows)).
Proof.
  intros H. unfold pending_rows. rewrite merge_sort_Permutation.
  by apply NoDup_map_filter.
Qed.

Section Pushes.
Context {Srv : Type} (has : Srv -> string -> Prop) (pushS pushG : string -> string -> js Srv error response).

Definition clean (n : Z) (w : outbox Srv) : outbox Srv := set_rows (filter (fun r => ~ cleared n r)) w.

(** A push that gets as far as the loop. *)
Lemma push_runs now (w : outbox Srv) pending sorted : loadPending w = (Ok pending, w) -> pending <> [] ->
  DependencyGraph.sort (length pending) pending (Some (map artifact_id (filter (fun r => row_status r = "pushed") (crypto_outbox w)))) =
    Some (Ok sorted) ->
  push pushS pushG now w = match push_all pushS pushG sorted 0 0 w with
    | (Ok st, w1) => (Ok st, clean (now - MAX_AGE) w1)
    | (Err e, w1) => (Err e, w1)
    end.
Proof.
  intros Hl Hne Hs. unfold push. erewrite js_bind_run_ok by exact Hl.
  rewrite decide_False by (destruct pending; [done|discriminate]). erewrite js_bind_run_ok by reflexivity. rewrite Hs.
  destruct (push_all _ _ _ _ _ _) as [[st|e] w1] eqn:E.
  - erewrite js_bind_run_ok by exact E. reflexivity.
  - erewrite js_bind_run_err by exact E. reflexivity.
Qed.

(** Whatever the server answers: rows are marked as they settle, then old ones go. *)
Lemma push_spec now (w : outbox Srv) : honest has pushS -> honest has pushG -> NoDup (map artifact_id (crypto_outbox w)) ->
  exists w1, progress has w w1 /\
    ((push pushS pushG now w).2 = w1 \/ (push pushS pushG now w).2 = clean (now - MAX_AGE) w1).
Proof.
  intros HS HG Hn. destruct (loadPending w) as [[pending|e] w0] eqn:El.
  2: { exists w. split; [done|]. left. unfold push. erewrite js_bind_run_err by exact El. by injection El as _ <-. }
  assert (w0 = w) as -> by (by injection El as _ <-).
  destruct (decide (pending = [])) as [->|Hne].
  { exists w. split; [done|]. left. unfold push. by erewrite js_bind_run_ok by exact El. }
  destruct (pending_listed w pending El) as [Hlist Hids].
  destruct (DependencyGraphLemmas.sort_spec pending (Some (map artifact_id (filter (fun r => row_status r = "pushed") (crypto_outbox w)))))
    as (r & Hr & _ & Hperm); [rewrite Hids; by apply pending_once|].
  destruct r as [sorted|e].
  - rewrite (push_runs now w pending sorted El Hne Hr). destruct (Hperm sorted eq_refl) as [Hp _].
    destruct (push_all pushS pushG sorted 0 0 w) as [r w1] eqn:E.
    destruct (push_all_progress has pushS pushG HS HG sorted 0 0 w r w1 ltac:(by rewrite Hp) E) as [Hpr Hok].
    exists w1. split; [done|]. right. by destruct r.
  - exists w. split; [done|]. left. unfold push. erewrite js_bind_run_ok by exact El.
    rewrite decide_False by (by destruct pending). erewrite js_bind_run_ok by reflexivity. by rewrite Hr.
Qed.

(** *** Pushes that succeed *)

Lemma progress_pushed (w w' : outbox Srv) i : progress has w w' ->
  (forall r, r ∈ crypto_outbox w -> artifact_id r = i -> row_status r = "pushed") ->
  forall r, r ∈ crypto_outbox w' -> artifact_id r = i -> row_status r = "pushed".
Proof.
  intros (_ & ids & E & _) H r Hr Hi. rewrite E in Hr.
  destruct (mark_all_elem ids _ r Hr) as (r0 & Hr0 & Hi0 & _ & [->|[_ ?]]); [by apply H|done].
Qed.

Lemma push_all_succeeds sorted (w : outbox Srv) n : honest has pushS -> honest has pushG -> Forall (listed w) sorted ->
  (forall l1 a l2 w1, sorted = l1 ++ a :: l2 -> progress has w w1 -> Forall (fun b => settled has w1 (artifactId b)) l1 ->
    exists w2, pushArtifact pushS pushG (S MAX_DEPENDENCY_RESOLUTION_DEPTH) a w1 = (Ok (Ok tt), w2)) ->
  exists w', push_all pushS pushG sorted n 0 w = (Ok ((n + Z.of_nat (length sorted))%Z, 0%Z), w') /\ progress has w w' /\
    Forall (fun a => settled has w' (artifactId a)) sorted /\
    (forall r, r ∈ crypto_outbox w' -> artifact_id r ∈ map artifactId sorted -> row_status r = "pushed").
Proof.
  intros HS HG. revert w n. induction sorted as [|a sorted IH]; intros w n Hl Hrun.
  { exists w. split; [by rewrite Z.add_0_r|]. split; [done|]. split; [done|]. intros r _ Hr. by apply not_elem_of_nil in Hr. }
  apply Forall_cons in Hl as [Ha Hl]. destruct (Hrun [] a sorted w eq_refl ltac:(done) ltac:(done)) as (w1 & E1).
  destruct (pushArtifact_progress has pushS pushG HS HG _ w a _ w1 Ha E1) as (H1 & Hs1 & _). specialize (Hs1 eq_refl).
  set (w2 := set_rows (map (mark (artifactId a))) w1). assert (progress has w1 w2) as H12 by (by apply progress_mark).
  assert (progress has w w2) as H2 by (by transitivity w1).
  destruct (IH w2 (n + 1)%Z) as (w' & E' & Hp & Hset & Hst).
  - eapply Forall_impl; [exact Hl|]. intros b. by apply (progress_listed has).
  - intros l1 b l2 w3 -> H23 Hl1. apply (Hrun (a :: l1) b l2 w3 eq_refl); [by transitivity w2|]. constructor; [|done].
    apply (progress_settled has w2 w3 _ H23). by apply (progress_settled has w1).
  - exists w'. cbn [push_all]. unfold mbind at 1, js_bind at 1. rewrite E1. unfold mbind, js_bind, markPushed, modify.
    fold w2. rewrite E'. split; [f_equal; f_equal; f_equal; simpl length; lia|]. split; [by transitivity w2|]. split.
    + constructor; [|done]. apply (progress_settled has w2 w' _ Hp). by apply (progress_settled has w1).
    + intros r Hr [Hi|Hi]%elem_of_cons; [|by apply Hst]. apply (progress_pushed w2 w' (artifactId a) Hp); [|done|done].
      intros r0 Hr0. unfold w2, set_rows in Hr0. simpl in Hr0. apply list_elem_of_fmap in Hr0 as (r1 & -> & _).
      unfold mark. case_decide as Hd; [done|]. intros Hi1. by destruct Hd.
Qed.

(** *** An outbox written by [enqueue] *)

(** What marking does not touch. *)
Definition core (a : OutboxArtifact) : string * string * string * list string :=
  (artifactId a, artifactType a, payload a, dependencies a).

(** The table holds the artifacts of [l], up to marks. *)
Definition holds (l : list OutboxArtifact) (w : outbox Srv) : Prop :=
  exists l', crypto_outbox w = map row_of l' /\ map core l' = map core l.

Lemma holds_mark l i w : holds l w -> holds l (set_rows (map (mark i)) w).
Proof.
  intros (l' & E & Hc). exists (map (fun a => if decide (artifactId a = i)
    then Artifact (artifactId a) (artifactType a) (payload a) (dependencies a) "pushed" (enqueuedAt a) else a) l'). split.
  - unfold set_rows. simpl. rewrite E, !map_map. apply map_ext. intros a. unfold mark.
    destruct (decide (artifactId a = i)) as [Hd|Hd]; [by rewrite decide_True by exact Hd|by rewrite decide_False by exact Hd].
  - rewrite <- Hc, map_map. apply map_ext. intros a. by case_decide.
Qed.

Lemma holds_progress l w w' : progress has w w' -> holds l w -> holds l w'.
Proof.
  intros (_ & ids & E & _) Hh. assert (holds l (set_rows (mark_all ids) w)) as (l' & El & Hc).
  { clear E. induction ids as [|i ids IH]; [by destruct w|]. exact (holds_mark l i _ IH). }
  exists l'. split; [|done]. by rewrite E.
Qed.

Lemma holds_ids l w : holds l w -> map artifact_id (crypto_outbox w) = map artifactId l.
Proof.
  intros (l' & E & Hc). rewrite E, map_map. simpl. apply (f_equal (map (fun c => c.1.1.1))) in Hc. by rewrite !map_map in Hc.
Qed.

Lemma holds_load l w i : holds l w -> i ∈ map artifactId l ->
  exists a b, loadById i w = (Ok (Some a), w) /\ b ∈ l /\ core a = core b /\ artifactId a = i.
Proof.
  intros Hh Hi. pose proof (holds_ids l w Hh) as Hids. destruct Hh as (l' & E & Hc).
  rewrite <- Hids, E, map_map in Hi. apply list_elem_of_fmap in Hi as (a0 & -> & Ha0).
  unfold loadById, reads. rewrite E. assert (row_of a0 ∈ filter (has_id (artifactId a0)) (map row_of l')) as Hin.
  { apply list_elem_of_filter. split; [done|]. by apply (list_elem_of_fmap_2 row_of). }
  destruct (filter _ _) as [|r rest] eqn:Ef; [by apply not_elem_of_nil in Hin|].
  assert (r ∈ filter (has_id (artifactId a0)) (map row_of l')) as [Hi Hr]%list_elem_of_filter by (rewrite Ef; left).
  apply list_elem_of_fmap in Hr as (a & -> & Ha). rewrite parse_row_of.
  assert (core a ∈ map core l') as Hca by (by apply list_elem_of_fmap_2). rewrite Hc in Hca.
  apply list_elem_of_fmap in Hca as (b & Hb & Hbl). exists a, b. done.
Qed.

Section Holding.
Context (l : list OutboxArtifact) (Hn : NoDup (map artifactId l)).
Context (HS : honest has pushS) (HG : honest has pushG).

(** The server has what [a] depends on (events are not its business). *)
Definition ready (s : Srv) (a : OutboxArtifact) : Prop :=
  forall b, b ∈ l -> artifactId b ∈ dependencies a -> artifactType b <> "event" -> has s (artifactId b).

(** It accepts an artifact of the outbox once it has its dependencies. *)
Definition willing (f : string -> string -> js Srv error response) : Prop :=
  forall a s, a ∈ l -> ready s a -> exists s', f (artifactId a) (payload a) s = (Ok Accepted, s').

(** Otherwise it names dependencies of the artifact, all the missing ones among them. *)
Definition answers (f : string -> string -> js Srv error response) : Prop :=
  forall a s, a ∈ l -> exists r s', f (artifactId a) (payload a) s = (Ok r, s') /\
    match r with
    | Accepted => True
    | MissingDeps m => ~ ready s a /\ (forall i, i ∈ m -> i ∈ dependencies a) /\
        (forall b, b ∈ l -> artifactId b ∈ dependencies a -> artifactType b <> "event" ->
          has s (artifactId b) \/ artifactId b ∈ m)
    end.

Definition known_type (a : OutboxArtifact) : Prop :=
  artifactType a = "scope_state" \/ artifactType a = "grant" \/ artifactType a = "event".

Lemma settled_has w a : holds l w -> a ∈ l -> settled has w (artifactId a) -> has (server w) (artifactId a) \/ artifactType a = "event".
Proof.
  intros (l' & E & Hc) Ha [H|(r & Hr & Hi & Ht)]; [by left|]. right. rewrite E in Hr. apply list_elem_of_fmap in Hr as (b & -> & Hb).
  assert (core b ∈ map core l') as Hcb by (by apply list_elem_of_fmap_2). rewrite Hc in Hcb.
  apply list_elem_of_fmap in Hcb as (c & Ebc & Hcl). injection Ebc as E1 E2 _ _. simpl in Hi, Ht.
  assert (c = a) as -> by (apply (NoDup_map_eq artifactId l); [done|done|done|by rewrite <- E1]). by rewrite <- E2.
Qed.

Lemma settled_ready w a : holds l w -> (forall u, u ∈ dependencies a -> u ∈ map artifactId l -> settled has w u) -> ready (server w) a.
Proof.
  intros Hh Hset b Hb Hd Ht. destruct (settled_has w b Hh Hb) as [H|H]; [|done|done]. apply Hset; [done|]. by apply list_elem_of_fmap_2.
Qed.

Lemma core_transport a b w : core a = core b ->
  pushArtifactToTransport pushS pushG a w = pushArtifactToTransport pushS pushG b w.
Proof. intros [= E1 E2 E3 _]. unfold pushArtifactToTransport. by rewrite E1, E2, E3. Qed.

(** An answer to one call, for the artifacts of the outbox. *)
Lemma transport_answer (Q : Srv -> OutboxArtifact -> response -> Prop) w b : b ∈ l -> known_type b ->
  (artifactType b = "event" -> Q (server w) b Accepted) ->
  (forall f, f = pushS \/ f = pushG ->
    exists r s', f (artifactId b) (payload b) (server w) = (Ok r, s') /\ Q (server w) b r) ->
  exists r w', pushArtifactToTransport pushS pushG b w = (Ok r, w') /\ Q (server w) b r.
Proof.
  intros Hb Ht He Hf. unfold pushArtifactToTransport, remote. repeat case_decide.
  - destruct (Hf pushS ltac:(by left)) as (r & s' & -> & Hq). by exists r, (OutboxWorld (crypto_outbox w) s').
  - destruct (Hf pushG ltac:(by right)) as (r & s' & -> & Hq). by exists r, (OutboxWorld (crypto_outbox w) s').
  - exists Accepted, w. split; [done|]. by apply He.
  - by destruct Ht as [|[|]].
Qed.

Lemma push_accepted n a b w : willing pushS -> willing pushG -> b ∈ l -> known_type b -> core a = core b ->
  ready (server w) b -> exists w', pushArtifact pushS pushG (S n) a w = (Ok (Ok tt), w').
Proof.
  intros WS WG Hb Ht Hc Hr. destruct (transport_answer (fun _ _ r => r = Accepted) w b Hb Ht) as (r & w' & E & ->); [done| |].
  - intros f [->| ->]; [destruct (WS b (server w) Hb Hr) as (s' & ->)|destruct (WG b (server w) Hb Hr) as (s' & ->)];
      by exists Accepted, s'.
  - exists w'. cbn [pushArtifact]. unfold try_catch, mbind, js_bind. by rewrite (core_transport a b) , E.
Qed.

Context (Hknown : Forall known_type l) (Hdeps : DependencyGraphLemmas.resolved l (Some [])).

Lemma dep_listed a u : a ∈ l -> u ∈ dependencies a -> u ∈ map artifactId l.
Proof. intros Ha Hu. destruct (Hdeps a u Ha Hu) as [H|H]; [done|by apply not_elem_of_nil in H]. Qed.

Lemma core_listed a b w : holds l w -> b ∈ l -> core a = core b -> listed w a.
Proof.
  intros (l' & E & Hc) Hb Hab. assert (core b ∈ map core l) as Hin by (by apply list_elem_of_fmap_2). rewrite <- Hc in Hin.
  apply list_elem_of_fmap in Hin as (c & Ec & Hcl). exists (row_of c). rewrite E. split; [by apply (list_elem_of_fmap_2 row_of)|].
  injection Hab as E1 E2 _ _. injection Ec as F1 F2 _ _. simpl. split; congruence.
Qed.

(** A chain of dependencies within the depth limit is pushed again. *)
Lemma push_repairs (rank : string -> nat) : answers pushS -> answers pushG ->
  (forall a u, a ∈ l -> u ∈ dependencies a -> rank u < rank (artifactId a)) ->
  forall n a b w, rank (artifactId b) < n -> holds l w -> b ∈ l -> core a = core b ->
  exists w', pushArtifact pushS pushG n a w = (Ok (Ok tt), w').
Proof.
  intros AS AG Hrank. induction n as [|n IH]; intros a b w Hr Hh Hb Hc; [lia|].
  pose proof (proj1 (Forall_forall _ _) Hknown b Hb) as Ht.
  set (Q := fun s b r => match r with Accepted => True | MissingDeps m => ~ ready s b /\ (forall i, i ∈ m -> i ∈ dependencies b) /\
    (forall c, c ∈ l -> artifactId c ∈ dependencies b -> artifactType c <> "event" -> has s (artifactId c) \/ artifactId c ∈ m) end).
  assert (forall w, exists r w', pushArtifactToTransport pushS pushG a w = (Ok r, w') /\ Q (server w) b r) as Hans.
  { intros w0. rewrite (core_transport a b w0 Hc). apply (transport_answer Q w0 b Hb Ht); [done|].
    intros f [->| ->]; [apply (AS b (server w0) Hb)|apply (AG b (server w0) Hb)]. }
  cbn [pushArtifact]. unfold try_catch, mbind, js_bind. destruct (Hans w) as (r & w1 & E1 & Hq). rewrite E1.
  destruct r as [|m]; [by exists w1|]. destruct Hq as (_ & Hm & Hall).
  destruct (transport_progress has pushS pushG HS HG w a _ w1 (core_listed a b w Hh Hb Hc) E1) as [H1 _].
  assert (forall m w0, holds l w0 -> (forall i, i ∈ m -> i ∈ dependencies b) ->
    exists w2, resolveMissingDeps (pushArtifact pushS pushG n) m w0 = (Ok true, w2) /\ progress has w0 w2 /\
      forall i, i ∈ m -> settled has w2 i) as Hres.
  { clear - IH Hb Hr Hrank HS HG Hdeps. induction m as [|i m IHm]; intros w0 Hh Hm.
    - exists w0. split; [done|]. split; [done|]. intros i Hi. by apply not_elem_of_nil in Hi.
    - assert (i ∈ dependencies b) as Hi by (apply Hm; left).
      destruct (holds_load l w0 i Hh (dep_listed b i Hb Hi)) as (c & d & El & Hd & Hcd & Hci).
      assert (artifactId d = i) as Hdi by (injection Hcd as E _ _ _; congruence).
      destruct (IH c d w0) as (w2 & E2); [rewrite Hdi; pose proof (Hrank b i Hb Hi); lia|done|done|done|].
      destruct (pushArtifact_progress has pushS pushG HS HG n w0 c _ w2 (core_listed c d w0 Hh Hd Hcd) E2) as (Hp & Hs & _).
      specialize (Hs eq_refl). rewrite Hci in Hs. set (w3 := set_rows (map (mark i)) w2).
      assert (progress has w2 w3) as Hp3 by (by apply progress_mark).
      assert (progress has w0 w3) as Hp03 by (by transitivity w2).
      destruct (IHm w3 (holds_progress l w0 w3 Hp03 Hh)) as (w4 & E4 & Hp4 & Hs4); [intros j Hj; apply Hm; by right|].
      exists w4. cbn [resolveMissingDeps]. unfold mbind at 1, js_bind at 1. rewrite El. unfold mbind at 1, js_bind at 1.
      rewrite E2. unfold mbind, js_bind, markPushed, modify. fold w3. rewrite E4. split; [done|]. split; [by transitivity w3|].
      intros j [->|Hj]%elem_of_cons; [|by apply Hs4]. apply (progress_settled has w3 w4 _ Hp4). by apply (progress_settled has w2). }
  destruct (Hres m w1 (holds_progress l w w1 H1 Hh) Hm) as (w2 & E2 & H2 & Hset). rewrite E2.
  assert (holds l w2) as Hh2 by (apply (holds_progress l w1); [done|]; by apply (holds_progress l w)).
  destruct (Hans w2) as (r & w3 & E3 & Hq3). rewrite E3. destruct r as [|m']; [by exists w3|].
  exfalso. apply Hq3. intros c Hc1 Hcd Hct. destruct (Hall c Hc1 Hcd Hct) as [Hhas|Hin].
  - apply H2. by apply H1.
  - destruct (settled_has w2 c Hh2 Hc1 (Hset _ Hin)); done.
Qed.

(** The artifacts of [l] that wait. *)
Definition waiting : list OutboxArtifact := filter (fun a => status a = "pending") l.

Context (Hstatus : Forall (fun a => status a = "pending" \/ status a = "pushed") l).

Lemma loadPending_stored (w : outbox Srv) : crypto_outbox w = map row_of l ->
  exists pending, loadPending w = (Ok pending, w) /\ pending ≡ₚ waiting.
Proof.
  intros E. assert (pending_rows (crypto_outbox w) ≡ₚ map row_of waiting) as Hp.
  { unfold pending_rows, waiting. rewrite E, merge_sort_Permutation. clear. induction l as [|a l0 IH]; [done|]. simpl.
    rewrite !filter_cons. simpl. case_decide; simpl; [by rewrite IH|done]. }
  apply Permutation_map_inv in Hp as (pending & E2 & Hp2). exists pending. split; [|by symmetry].
  unfold loadPending, reads. rewrite E2. f_equal. apply mapM_map_ok. apply Forall_true. apply parse_row_of.
Qed.

Lemma waiting_resolved (w : outbox Srv) pending : crypto_outbox w = map row_of l -> pending ≡ₚ waiting ->
  DependencyGraphLemmas.resolved pending (Some (map artifact_id (filter (fun r => row_status r = "pushed") (crypto_outbox w)))).
Proof.
  intros E Hp a u Ha Hu. rewrite Hp in Ha. apply list_elem_of_filter in Ha as [_ Ha].
  pose proof (dep_listed a u Ha Hu) as Hin. apply list_elem_of_fmap in Hin as (b & -> & Hb).
  destruct (proj1 (Forall_forall _ _) Hstatus b Hb) as [Hs|Hs].
  - left. apply list_elem_of_fmap_2. rewrite Hp. by apply list_elem_of_filter.
  - right. apply (list_elem_of_fmap_2 artifact_id _ (row_of b)). apply list_elem_of_filter. split; [done|]. rewrite E.
    by apply (list_elem_of_fmap_2 row_of).
Qed.

Lemma waiting_orderable pending : DependencyGraphLemmas.orderable l -> pending ≡ₚ waiting -> DependencyGraphLemmas.orderable pending.
Proof.
  intros [[rank Hrank] Hdup] Hp.
  assert (forall a, a ∈ pending -> a ∈ l) as Hin by (intros a Ha; rewrite Hp in Ha; by apply list_elem_of_filter in Ha as [_ ?]).
  assert (forall u, u ∈ map artifactId pending -> u ∈ map artifactId l) as Hids.
  { intros u Hu. apply list_elem_of_fmap in Hu as (a & -> & Ha). apply list_elem_of_fmap_2. by apply Hin. }
  split.
  - exists rank. intros a u Ha [Hu Hd]%list_elem_of_filter. apply Hrank; [by apply Hin|]. apply list_elem_of_filter. by eauto.
  - intros a Ha. unfold DependencyGraphLemmas.inside.
    rewrite (list_filter_iff _ (fun u => u ∈ map artifactId pending /\ u ∈ map artifactId l)) by naive_solver.
    assert (forall ds : list string, filter (fun u => u ∈ map artifactId pending /\ u ∈ map artifactId l) ds =
      filter (fun u => u ∈ map artifactId pending) (filter (fun u => u ∈ map artifactId l) ds)) as ->.
    { induction ds as [|u ds IHd]; [done|]. rewrite !filter_cons. repeat case_decide; rewrite ?filter_cons; repeat case_decide;
        rewrite ?IHd; naive_solver. }
    apply NoDup_filter. by apply (Hdup a), Hin.
Qed.

(** A push in which every single artifact succeeds. *)
Lemma push_completes now (w : outbox Srv) : crypto_outbox w = map row_of l -> DependencyGraphLemmas.orderable l ->
  (forall sorted l1 a l2 w1, sorted ≡ₚ waiting ->
    (forall l1 a l2 u, sorted = l1 ++ a :: l2 -> u ∈ dependencies a -> u ∈ map artifactId waiting -> u ∈ map artifactId l1) ->
    sorted = l1 ++ a :: l2 -> progress has w w1 -> Forall (fun b => settled has w1 (artifactId b)) l1 ->
    exists w2, pushArtifact pushS pushG (S MAX_DEPENDENCY_RESOLUTION_DEPTH) a w1 = (Ok (Ok tt), w2)) ->
  exists w1 w', push pushS pushG now w = (Ok (Z.of_nat (length waiting), 0%Z), w') /\ progress has w w1 /\
    (w' = w1 \/ w' = clean (now - MAX_AGE) w1) /\
    Forall (fun a => settled has w1 (artifactId a)) waiting /\
    (forall r, r ∈ crypto_outbox w1 -> row_status r = "pushed").
Proof.
  intros E Ho Hrun. destruct (loadPending_stored w E) as (pending & El & Hp).
  assert (forall r, r ∈ crypto_outbox w -> artifact_id r ∉ map artifactId waiting -> row_status r = "pushed") as Hrest.
  { intros r Hr Hi. rewrite E in Hr. apply list_elem_of_fmap in Hr as (a & -> & Ha). simpl.
    destruct (proj1 (Forall_forall _ _) Hstatus a Ha) as [Hs|]; [|done]. destruct Hi.
    apply (list_elem_of_fmap_2 artifactId). by apply list_elem_of_filter. }
  destruct (decide (pending = [])) as [->|Hne].
  { apply Permutation_nil_l in Hp. exists w, w. split; [|split; [done|]].
    - unfold push. erewrite js_bind_run_ok by exact El. by rewrite <- Hp.
    - split; [by left|]. rewrite <- Hp in *. split; [done|]. intros r Hr. by apply Hrest; [done|apply not_elem_of_nil]. }
  destruct (pending_listed w pending El) as [Hlist Hids].
  assert (NoDup (map artifactId pending)) as Hnp by (rewrite Hp; by apply NoDup_map_filter).
  destruct (DependencyGraphLemmas.sort_spec pending (Some (map artifact_id (filter (fun r => row_status r = "pushed") (crypto_outbox w)))) Hnp)
    as (r & Hr & Hok & Hperm).
  destruct r as [sorted|e]; [|discriminate (proj2 Hok (conj (waiting_resolved w pending E Hp) (waiting_orderable pending Ho Hp)))].
  destruct (Hperm sorted eq_refl) as [Hsp Horder].
  assert (sorted ≡ₚ waiting) as Hsw by (by rewrite Hsp).
  destruct (push_all_succeeds sorted w 0 HS HG ltac:(by rewrite Hsp)) as (w1 & Erun & Hpr & Hset & Hst).
  { intros l1 a l2 w1 Es. apply (Hrun sorted l1 a l2 w1 Hsw); [|done]. intros k1 b k2 u Ek Hu Hui.
    apply (Horder k1 b k2 u Ek Hu). by rewrite Hp. }
  exists w1, (clean (now - MAX_AGE) w1). rewrite (push_runs now w pending sorted El Hne Hr), Erun.
  rewrite Z.add_0_l, Hsw. split; [done|]. split; [done|]. split; [by right|]. split; [by rewrite <- Hsw|].
  intros r Hr1. destruct (decide (artifact_id r ∈ map artifactId sorted)) as [Hi|Hi]; [by apply Hst|].
  apply (progress_pushed w w1 (artifact_id r) Hpr); [|done|done]. intros r0 Hr0 E0. apply Hrest; [done|].
  by rewrite E0, <- Hsw.
Qed.
End Holding.
End Pushes.
End OutboxLemmas.

(** ** Properties *)

Module OutboxProperties.
Import OutboxStore CryptoOutbox OutboxLemmas.

(** C19: The outbox loses nothing. Against any transport whose [ok] answers mean that the
    server has the artifact from then on, [push] (whatever it returns or throws) leaves only
    rows marked as pushed that are on the server or are events, and every row it had is
    either still there unchanged or is settled in that sense. *)
Theorem outbox_push_safe {Srv} (has : Srv -> string -> Prop) pushScopeState pushResourceGrant now (w : outbox Srv) :
  honest has pushScopeState -> honest has pushResourceGrant ->
  NoDup (map artifact_id (crypto_outbox w)) -> delivered has w ->
  let w' := (push pushScopeState pushResourceGrant now w).2 in
  (forall r, r ∈ crypto_outbox w' -> row_status r = "pushed" -> has (server w') (artifact_id r) \/ artifact_type r = "event") /\
  (forall r, r ∈ crypto_outbox w -> r ∈ crypto_outbox w' \/ has (server w') (artifact_id r) \/ artifact_type r = "event").
Proof.
  intros HS HG Hn Hd w'. destruct (push_spec has _ _ now w HS HG Hn) as (w1 & Hp & Hw).
  pose proof (progress_delivered has w w1 Hp Hd) as Hd1. pose proof Hp as (_ & ids & Hrows & Hset).
  assert (NoDup (map artifact_id (crypto_outbox w1))) as Hn1 by (by rewrite Hrows, mark_all_ids).
  assert (forall r, r ∈ crypto_outbox w1 -> settled has w1 (artifact_id r) ->
    has (server w1) (artifact_id r) \/ artifact_type r = "event") as Hown.
  { intros r Hr [H|(r' & Hr' & Hi & Ht)]; [by left|]. right.
    by rewrite <- (NoDup_map_eq artifact_id (crypto_outbox w1) r' r Hn1 Hr' Hr Hi). }
  assert (forall r, r ∈ crypto_outbox w -> r ∈ crypto_outbox w1 \/ has (server w1) (artifact_id r) \/ artifact_type r = "event") as Hkeep.
  { intros r Hr. destruct (mark_all_keeps ids _ r Hr) as (r' & Hr' & E1 & E2 & [->|Hin]); rewrite <- Hrows in Hr'; [by left|].
    right. rewrite <- E1, <- E2. apply Hown; [done|]. rewrite E1. by apply Hset. }
  subst w'. destruct Hw as [->| ->]; [split; [|done]; intros r Hr Hst; apply Hown; [done|]; by apply Hd1|]. split.
  - intros r [_ Hr]%list_elem_of_filter Hst. apply Hown; [done|]. by apply Hd1.
  - intros r Hr. destruct (Hkeep r Hr) as [Hr1|H]; [|by right].
    destruct (decide (cleared (now - MAX_AGE) r)) as [Hc|Hc]; [|left; by apply list_elem_of_filter].
    right. apply Hown; [done|]. apply Hd1; [done|]. apply Hc.
Qed.

(** The outboxes of the liveness theorems: rows written by [enqueue], with known types, whose
    dependencies are all in the outbox and can be ordered. *)
Record well_formed (l : list OutboxArtifact) : Prop := {
  wf_once : NoDup (map artifactId l);
  wf_status : Forall (fun a => status a = "pending" \/ status a = "pushed") l;
  wf_type : Forall known_type l;
  wf_deps : DependencyGraphLemmas.resolved l (Some []);
  wf_order : DependencyGraphLemmas.orderable l
}.

(** A push reaches everything. When the outbox is well formed, what is marked as pushed
    is on the server, and the server accepts an artifact once it has its dependencies
    (events aside), one call of [push] reports all pending artifacts as pushed and none as
    failed, every artifact of the outbox is then on the server (or is an event), and no row
    is left pending. *)
Theorem outbox_push_completes {Srv} (has : Srv -> string -> Prop) pushScopeState pushResourceGrant now l (w : outbox Srv) :
  honest has pushScopeState -> honest has pushResourceGrant ->
  willing has l pushScopeState -> willing has l pushResourceGrant ->
  well_formed l -> crypto_outbox w = map row_of l -> delivered has w ->
  exists w', push pushScopeState pushResourceGrant now w = (Ok (Z.of_nat (length (waiting l)), 0%Z), w') /\
    (forall a, a ∈ l -> has (server w') (artifactId a) \/ artifactType a = "event") /\
    (forall r, r ∈ crypto_outbox w' -> row_status r = "pushed").
Proof.
  intros HS HG WS WG [Hn Hstat Htype Hdeps Hord] E Hd.
  assert (holds l w) as Hh by (by exists l).
  assert (forall a, a ∈ l -> status a = "pushed" -> settled has w (artifactId a)) as Hold.
  { intros a Ha Hs. apply (Hd (row_of a)); [|done]. rewrite E. by apply (list_elem_of_fmap_2 row_of). }
  destruct (push_completes has pushScopeState pushResourceGrant l Hn HS HG Hdeps Hstat now w E Hord) as (w1 & w' & Hrun & Hp & Hw & Hset & Hst).
  - intros sorted l1 a l2 w1 Hsw Horder Es Hp Hl1.
    assert (a ∈ l) as Ha.
    { assert (a ∈ waiting l) as [_ Ha]%list_elem_of_filter; [|done]. rewrite <- Hsw, Es. apply elem_of_app. right. left. }
    apply (push_accepted has pushScopeState pushResourceGrant l _ a a w1 WS WG Ha); [|done|].
    + by apply (proj1 (Forall_forall _ _) Htype).
    + apply (settled_ready has l Hn w1 a); [by apply (holds_progress has l w)|]. intros u Hu Hui.
      apply list_elem_of_fmap in Hui as (b & -> & Hb). destruct (proj1 (Forall_forall _ _) Hstat b Hb) as [Hs|Hs].
      * assert (artifactId b ∈ map artifactId l1) as Hin.
        { apply (Horder l1 a l2 _ Es Hu). apply (list_elem_of_fmap_2 artifactId). by apply list_elem_of_filter. }
        apply list_elem_of_fmap in Hin as (c & -> & Hc). by apply (proj1 (Forall_forall _ _) Hl1 c).
      * apply (progress_settled has w w1 _ Hp). by apply Hold.
  - exists w'. split; [done|]. pose proof (holds_progress has l w w1 Hp Hh) as Hh1. split.
    + intros a Ha. assert (settled has w1 (artifactId a)) as Hs.
      { destruct (proj1 (Forall_forall _ _) Hstat a Ha) as [Hs|Hs].
        - apply (proj1 (Forall_forall _ _) Hset a). by apply list_elem_of_filter.
        - apply (progress_settled has w w1 _ Hp). by apply Hold. }
      assert (server w' = server w1) as -> by (by destruct Hw as [->| ->]). by apply (settled_has has l Hn w1 a).
    + intros r Hr. apply Hst. destruct Hw as [->| ->]; [done|]. by apply list_elem_of_filter in Hr as [_ ?].
Qed.

(** Missing dependencies are pushed again. Against a server that names the dependencies
    it misses (whatever it had lost of what the outbox marks as pushed), a push of a well-
    formed outbox whose dependency chains are no longer than the depth limit of 10 reports
    every pending artifact as pushed, and the server has each of them afterwards (events
    aside). *)
Theorem outbox_push_repairs {Srv} (has : Srv -> string -> Prop) pushScopeState pushResourceGrant (rank : string -> nat) now l
    (w : outbox Srv) :
  honest has pushScopeState -> honest has pushResourceGrant ->
  answers has l pushScopeState -> answers has l pushResourceGrant ->
  well_formed l -> crypto_outbox w = map row_of l ->
  (forall a u, a ∈ l -> u ∈ dependencies a -> rank u < rank (artifactId a)) ->
  (forall a, a ∈ l -> rank (artifactId a) <= MAX_DEPENDENCY_RESOLUTION_DEPTH) ->
  exists w', push pushScopeState pushResourceGrant now w = (Ok (Z.of_nat (length (waiting l)), 0%Z), w') /\
    (forall a, a ∈ waiting l -> has (server w') (artifactId a) \/ artifactType a = "event").
Proof.
  intros HS HG AS AG [Hn Hstat Htype Hdeps Hord] E Hrank Hmax. assert (holds l w) as Hh by (by exists l).
  destruct (push_completes has pushScopeState pushResourceGrant l Hn HS HG Hdeps Hstat now w E Hord) as (w1 & w' & Hrun & Hp & Hw & Hset & _).
  - intros sorted l1 a l2 w1 Hsw _ Es Hp _.
    assert (a ∈ l) as Ha.
    { assert (a ∈ waiting l) as [_ Ha]%list_elem_of_filter; [|done]. rewrite <- Hsw, Es. apply elem_of_app. right. left. }
    apply (push_repairs has pushScopeState pushResourceGrant l Hn HS HG Htype Hdeps rank AS AG Hrank _ a a w1); [|by apply (holds_progress has l w)|done|done].
    pose proof (Hmax a Ha). lia.
  - exists w'. split; [done|]. intros a Ha. assert (server w' = server w1) as -> by (by destruct Hw as [->| ->]).
    apply (settled_has has l Hn w1 a); [by apply (holds_progress has l w)|by apply list_elem_of_filter in Ha as [_ ?]|].
    by apply (proj1 (Forall_forall _ _) Hset a).
Qed.

Lemma alone_resolved a : dependencies a = [] -> DependencyGraphLemmas.resolved [a] (Some []).
Proof. intros Hd b u ->%list_elem_of_singleton Hu. rewrite Hd in Hu. by apply not_elem_of_nil in Hu. Qed.

Lemma alone_orderable a : dependencies a = [] -> DependencyGraphLemmas.orderable [a].
Proof.
  intros Hd. split; [exists (fun _ => 0)|]; intros b; [intros u|]; intros ->%list_elem_of_singleton;
    unfold DependencyGraphLemmas.inside; rewrite Hd; [|constructor]. intros Hu. by apply not_elem_of_nil in Hu.
Qed.

(** The cleanup forgets what dependents still need. An artifact that waited for more
    than 24 hours before the server accepted it is deleted by the same push; a state or
    grant that depends on it, enqueued afterwards, then fails to push whenever it is tried,
    although the server has its dependency, and blocks the outbox: nothing is sent and
    nothing changes. *)
Theorem pushed_dependency_forgotten {Srv} pushScopeState pushResourceGrant (a b : OutboxArtifact) (s s1 : Srv) now :
  artifactType a = "scope_state" -> status a = "pending" -> dependencies a = [] -> (enqueuedAt a < now - MAX_AGE)%Z ->
  pushScopeState (artifactId a) (payload a) s = (Ok Accepted, s1) ->
  artifactId a ∈ dependencies b -> artifactId b <> artifactId a -> status b = "pending" ->
  exists w, push pushScopeState pushResourceGrant now (OutboxWorld [row_of a] s) = (Ok (1, 0)%Z, w) /\
    crypto_outbox w = [] /\
    (forall now', push pushScopeState pushResourceGrant now' (enqueue b w).2 = (Ok (0, 1)%Z, (enqueue b w).2)).
Proof.
  intros Ht Hs Hd Hold Hacc Hb Hne Hbs. exists (OutboxWorld [] s1). split; [|split; [done|]].
  - erewrite (push_runs pushScopeState pushResourceGrant now _ [a] [a]); [|..].
    + cbn [push_all]. unfold mbind at 1, js_bind at 1. cbn [pushArtifact]. unfold try_catch, mbind at 1, js_bind at 1.
      unfold pushArtifactToTransport, remote. rewrite Ht, decide_True by done. simpl server. rewrite Hacc. cbn.
      unfold mbind, js_bind, markPushed, modify, set_rows. cbn [crypto_outbox server map].
      unfold clean, set_rows, mark. cbn [crypto_outbox server]. rewrite decide_True by done.
      cbv beta iota zeta delta [mret js_ret crypto_outbox server].
      rewrite filter_cons, decide_False; [done|]. intros Hc. by apply Hc.
    + unfold loadPending, reads, pending_rows. simpl. rewrite filter_cons, decide_True by done. simpl.
      unfold merge_sort. simpl. by rewrite parse_row_of.
    + done.
    + simpl. rewrite filter_cons, decide_False by (simpl; by rewrite Hs). simpl.
      destruct (DependencyGraphLemmas.sort_spec [a] (Some [])) as (r & Hr & Hok & Hl); [apply NoDup_singleton|].
      simpl in Hr. rewrite Hr. destruct r as [sorted|e].
      * destruct (Hl sorted eq_refl) as [Hp _]. symmetry in Hp. by apply Permutation_singleton_l in Hp as ->.
      * discriminate (proj2 Hok (conj (alone_resolved a Hd) (alone_orderable a Hd))).
  - intros now'. simpl. unfold push. erewrite js_bind_run_ok.
    2: { unfold loadPending, reads, pending_rows. simpl. rewrite filter_cons, decide_True by done. simpl.
         unfold merge_sort. simpl. by rewrite parse_row_of. }
    rewrite decide_False by done. erewrite js_bind_run_ok by reflexivity. simpl.
    rewrite filter_cons, decide_False by (simpl; by rewrite Hbs). simpl.
    destruct (DependencyGraphLemmas.sort_spec [b] (Some [])) as (r & Hr & Hok & _); [apply NoDup_singleton|].
    simpl in Hr. rewrite Hr. destruct r as [sorted|e]; [|done]. exfalso.
    destruct (proj1 Hok eq_refl) as [Hres _]. destruct (Hres b (artifactId a)) as [H|H]; [by left|done| |].
    + apply list_elem_of_singleton in H. congruence.
    + by apply not_elem_of_nil in H.
Qed.

End OutboxProperties.

(** ** Witnesses *)

Module OutboxWitnesses.
Import OutboxStore CryptoOutbox OutboxLemmas OutboxProperties.

(** A server that keeps the ids it accepted and asks for what an artifact requires. *)
Definition requires_ (i : string) : list string :=
  if decide (i = "state") then ["genesis"] else if decide (i = "grant") then ["state"] else [].
Definition serve (i p : string) : js (list string) error response := fun s =>
  match filter (fun u => u ∉ s) (requires_ i) with
  | [] => (Ok Accepted, s ++ [i])
  | m => (Ok (MissingDeps m), s)
  end.
Definition has (s : list string) (i : string) : Prop := i ∈ s.

Definition grant : OutboxArtifact := Artifact "grant" "grant" "{}" ["state"; "note"] "pending" 3.
Definition state : OutboxArtifact := Artifact "state" "scope_state" "{}" ["genesis"] "pending" 4.
Definition note : OutboxArtifact := Artifact "note" "event" "{}" [] "pending" 2.
Definition genesis : OutboxArtifact := Artifact "genesis" "scope_state" "{}" [] "pushed" 1.
Definition demo : list OutboxArtifact := [grant; state; note; genesis].
Definition demo_rank (i : string) : nat := if decide (i = "state") then 1 else if decide (i = "grant") then 2 else 0.
Definition demo_outbox (s : list string) : outbox (list string) := OutboxWorld (map row_of demo) s.

Lemma serve_honest : honest has serve.
Proof.
  split; unfold serve, has; intros i p s; [intros s'|intros j Hj]; destruct (filter _ _); simpl.
  - intros [= <-]. apply elem_of_app. right. left.
  - discriminate.
  - apply elem_of_app. by left.
  - done.
Qed.

Lemma demo_cases (P : OutboxArtifact -> Prop) : P grant -> P state -> P note -> P genesis -> forall a, a ∈ demo -> P a.
Proof. intros H1 H2 H3 H4. apply Forall_forall. by repeat (apply Forall_cons; split). Qed.

(** Split a membership in a concrete list. *)
Ltac members H := repeat (apply elem_of_cons in H as [->|H]); [..|by apply not_elem_of_nil in H].

Lemma demo_ready s a : a ∈ demo -> ready has demo s a -> filter (fun u => u ∉ s) (requires_ (artifactId a)) = [].
Proof.
  intros Ha Hr. destruct (filter _ _) as [|u m] eqn:E; [done|]. exfalso.
  assert (u ∈ filter (fun u => u ∉ s) (requires_ (artifactId a))) as [Hus Hu]%list_elem_of_filter by (rewrite E; left).
  apply Hus. clear Hus E. revert a Ha Hr u Hu.
  apply (demo_cases (fun a => ready has demo s a -> forall u, u ∈ requires_ (artifactId a) -> u ∈ s));
    intros Hr u Hu; members Hu.
  - apply (Hr state); [right; left|left|done].
  - apply (Hr genesis); [do 3 right; left|left|done].
Qed.

Lemma serve_willing : willing has demo serve.
Proof. intros a s Ha Hr. unfold serve. rewrite (demo_ready s a Ha Hr). by eexists. Qed.

Lemma demo_requires a b : a ∈ demo -> b ∈ demo ->
  (artifactId b ∈ requires_ (artifactId a) -> artifactId b ∈ dependencies a) /\
  (artifactId b ∈ dependencies a -> artifactType b <> "event" -> artifactId b ∈ requires_ (artifactId a)).
Proof.
  intros Ha Hb. revert a Ha. apply (demo_cases (fun a => _ /\ _)); revert b Hb; apply (demo_cases (fun b => _ /\ _)); cbn; set_solver.
Qed.

Lemma demo_required_listed a u : a ∈ demo -> u ∈ requires_ (artifactId a) -> u ∈ dependencies a.
Proof. intros Ha. revert a Ha u. apply (demo_cases (fun a => forall u, _ -> _)); intros u Hu; members Hu; left. Qed.

Lemma serve_answers : answers has demo serve.
Proof.
  intros a s Ha. unfold serve. destruct (filter _ _) as [|i m] eqn:E; [by exists Accepted, (s ++ [artifactId a])|].
  exists (MissingDeps (i :: m)), s. split; [done|].
  split; [intros Hr; by rewrite (demo_ready s a Ha Hr) in E|]. rewrite <- E. split.
  - intros u [_ Hu]%list_elem_of_filter. by apply demo_required_listed.
  - intros b Hb Hd Ht. destruct (decide (artifactId b ∈ s)) as [H|H]; [by left|]. right. apply list_elem_of_filter. split; [done|].
    by apply (demo_requires a b Ha Hb).
Qed.

Lemma demo_ranked a u : a ∈ demo -> u ∈ dependencies a -> demo_rank u < demo_rank (artifactId a).
Proof. intros Ha. revert a Ha u. apply (demo_cases (fun a => forall u, _ -> _)); intros u Hu; members Hu; vm_compute; lia. Qed.

Lemma demo_well_formed : well_formed demo.
Proof.
  split.
  - apply (bool_decide_unpack _). vm_compute. exact I.
  - repeat (apply Forall_cons; split); [by left|by left|by left|by right|apply Forall_nil_2].
  - unfold known_type. repeat (apply Forall_cons; split); cbn; auto.
  - intros a u Ha Hu. left. revert a Ha u Hu. apply (demo_cases (fun a => forall u, _ -> _)); intros u Hu; members Hu; cbn; set_solver.
  - split.
    + exists demo_rank. intros a u Ha [_ Hu]%list_elem_of_filter. by apply demo_ranked.
    + apply demo_cases; apply (bool_decide_unpack _); vm_compute; exact I.
Qed.

Lemma demo_delivered : delivered has (demo_outbox ["genesis"]).
Proof.
  intros r Hr Hs. left. unfold has. cbn. apply list_elem_of_fmap in Hr as (a & -> & Ha). revert a Ha Hs.
  apply (demo_cases (fun a => row_status (row_of a) = "pushed" -> artifact_id (row_of a) ∈ ["genesis"])); [done..|]. left.
Qed.

Definition pushed_demo : outbox (list string) := (push serve serve 100 (demo_outbox ["genesis"])).2.

Lemma outbox_push_safe_witness :
  (forall r, r ∈ crypto_outbox pushed_demo -> row_status r = "pushed" ->
    has (server pushed_demo) (artifact_id r) \/ artifact_type r = "event") /\
  (forall r, r ∈ map row_of demo ->
    r ∈ crypto_outbox pushed_demo \/ has (server pushed_demo) (artifact_id r) \/ artifact_type r = "event").
Proof.
  apply (outbox_push_safe has serve serve 100 (demo_outbox ["genesis"])).
  - exact serve_honest.
  - exact serve_honest.
  - apply (bool_decide_unpack _). vm_compute. exact I.
  - exact demo_delivered.
Defined.

Lemma outbox_push_completes_witness : exists w',
  push serve serve 100 (demo_outbox ["genesis"]) = (Ok (3, 0)%Z, w') /\
  (forall a, a ∈ demo -> has (server w') (artifactId a) \/ artifactType a = "event") /\
  (forall r, r ∈ crypto_outbox w' -> row_status r = "pushed").
Proof.
  exact (outbox_push_completes has serve serve 100 demo (demo_outbox ["genesis"]) serve_honest serve_honest
    serve_willing serve_willing demo_well_formed eq_refl demo_delivered).
Defined.

(** The server lost the genesis state. *)
Lemma outbox_push_repairs_witness : exists w', push serve serve 100 (demo_outbox []) = (Ok (3, 0)%Z, w') /\
  (forall a, a ∈ waiting demo -> has (server w') (artifactId a) \/ artifactType a = "event").
Proof.
  apply (outbox_push_repairs has serve serve demo_rank 100 demo (demo_outbox []) serve_honest serve_honest
    serve_answers serve_answers demo_well_formed eq_refl).
  - exact demo_ranked.
  - apply demo_cases; vm_compute; lia.
Defined.

(** Eleven levels are resolved, twelve are not. *)
Definition chain (n : nat) : list OutboxArtifact :=
  imap (fun k i => Artifact i "grant" "{}" (match k with 0 => [] | S k => [of_chars (replicate k "x"%char)] end) "pushed" 1)
    (map (fun k => of_chars (replicate k "x"%char)) (seq 0 n)).
Definition chain_server (i p : string) : js (list string) error response := fun s =>
  match chars i with
  | [] => (Ok Accepted, s ++ [i])
  | _ :: c => if decide (of_chars c ∈ s) then (Ok Accepted, s ++ [i]) else (Ok (MissingDeps [of_chars c]), s)
  end.
Definition push_chain (n : nat) : result error (result string unit) :=
  (pushArtifact chain_server chain_server 11 (Artifact (of_chars (replicate n "x"%char)) "grant" "{}" [] "pending" 1)
    (OutboxWorld (map row_of (chain (S n))) [])).1.

Example depth_limit : push_chain 10 = Ok (Ok tt) /\ push_chain 11 = Ok (Err (cannot_resolve [of_chars (replicate 10 "x"%char)])).
Proof. vm_compute. done. Qed.

Lemma pushed_dependency_forgotten_witness : exists w,
  push serve serve 90000000 (OutboxWorld [row_of (Artifact "genesis" "scope_state" "{}" [] "pending" 1)] []) = (Ok (1, 0)%Z, w) /\
  crypto_outbox w = [] /\
  (forall now', push serve serve now' (enqueue (Artifact "state" "scope_state" "{}" ["genesis"] "pending" 90000001) w).2 =
    (Ok (0, 1)%Z, (enqueue (Artifact "state" "scope_state" "{}" ["genesis"] "pending" 90000001) w).2)).
Proof.
  apply (pushed_dependency_forgotten serve serve (Artifact "genesis" "scope_state" "{}" [] "pending" 1)
    (Artifact "state" "scope_state" "{}" ["genesis"] "pending" 90000001) [] ["genesis"]); [done..| | |done|done].
  - vm_compute. reflexivity.
  - left.
Defined.

End OutboxWitnesses.
