(* ===== verification/DerivedState.v ===== *)
(** * Derived state: its tables and its task runner

    - [packages/infrastructure/src/platform/derived-state/types.ts] and [aad.ts];
    - [platform/derived-state/stores]: [ProjectionMetaStore], [ProjectionCacheStore],
      [IndexArtifactStore] and [ProcessManagerStateStore], each a table with a
      primary key and the statements that read and write it;
    - [projection/ProjectionTaskRunner.ts]: one run at a time, the calls made
      meanwhile answered by one more run.  Time budgets are not modelled. *)

From S2P Require Import Prelude JsValues JsonText EventStoreCore Samples.

(** ** Types *)

Inductive ProjectionOrdering : Type := commitSequence | effectiveTotalOrder.
Inductive ProjectionPhase : Type := idle | catchingUp | rebuilding | failed.
Inductive IndexBuildPhase : Type := missing | building | ready | build_failed.

#[export] Instance ProjectionOrdering_eq_dec : EqDecision ProjectionOrdering.
Proof. solve_decision. Defined.
#[export] Instance ProjectionPhase_eq_dec : EqDecision ProjectionPhase.
Proof. solve_decision. Defined.

(** ** Associated data *)

Definition encodeCursor (c : EffectiveCursor) : string :=
  string_of_Z (ec_globalSequence c) +:+ ":" +:+ string_of_Z (ec_pendingCommitSequence c).

Definition aad_text (tag i scope : string) (v : Z) (c : EffectiveCursor) : string :=
  tag +:+ ":" +:+ i +:+ ":" +:+ scope +:+ ":" +:+ string_of_Z v +:+ ":" +:+ encodeCursor c.

Definition buildProjectionCacheAad (projectionId scopeKey : string) (cacheVersion : Z) (c : EffectiveCursor) : list Z :=
  utf8_encode (aad_text "projection" projectionId scopeKey cacheVersion c).
Definition buildIndexArtifactAad (indexId scopeKey : string) (artifactVersion : Z) (c : EffectiveCursor) : list Z :=
  utf8_encode (aad_text "index" indexId scopeKey artifactVersion c).
Definition buildProcessManagerStateAad (processManagerId scopeKey : string) (stateVersion : Z) (c : EffectiveCursor) : list Z :=
  utf8_encode (aad_text "process" processManagerId scopeKey stateVersion c).

(** ** Rows *)

Record ProjectionMetaRecord : Type := MetaRecord {
  pm_projectionId : string;
  pm_ordering : ProjectionOrdering;
  pm_lastEffectiveCursor : EffectiveCursor;
  pm_lastCommitSequence : Z;
  pm_phase : ProjectionPhase;
  pm_updatedAt : number
}.

Record ProjectionCacheRecord : Type := CacheRecord {
  pc_projectionId : string;
  pc_scopeKey : string;
  pc_cacheVersion : Z;
  pc_cacheEncrypted : list Z;
  pc_ordering : ProjectionOrdering;
  pc_lastEffectiveCursor : EffectiveCursor;
  pc_lastCommitSequence : Z;
  pc_writtenAt : number
}.

Record IndexArtifactRecord : Type := ArtifactRecord {
  ia_indexId : string;
  ia_scopeKey : string;
  ia_artifactVersion : Z;
  ia_artifactEncrypted : list Z;
  ia_lastEffectiveCursor : EffectiveCursor;
  ia_writtenAt : number
}.

Record ProcessManagerStateRecord : Type := ProcessRecord {
  ps_processManagerId : string;
  ps_scopeKey : string;
  ps_stateVersion : Z;
  ps_stateEncrypted : list Z;
  ps_lastEffectiveCursor : EffectiveCursor;
  ps_updatedAt : number
}.

(** ** Tables with a primary key *)

Section KeyedTable.
Context {R K : Type} `{EqDecision K} (key : R -> K).

Definition kt_get (k : K) (t : list R) : option R := List.find (fun r => bool_decide (key r = k)) t.

(** [INSERT ... ON CONFLICT(key) DO UPDATE] of every other column. *)
Fixpoint kt_put (r : R) (t : list R) : list R :=
  match t with
  | [] => [r]
  | x :: t' => if decide (key x = key r) then r :: t' else x :: kt_put r t'
  end.

Definition kt_remove (k : K) (t : list R) : list R := filter (fun r => key r <> k) t.

Lemma kt_get_put k r t : kt_get k (kt_put r t) = if decide (key r = k) then Some r else kt_get k t.
Proof.
  unfold kt_get. induction t as [|x t IH]; simpl.
  - by repeat case_decide; repeat case_bool_decide.
  - destruct (decide (key x = key r)) as [E|E]; simpl.
    + case_bool_decide; destruct (decide (key r = k)); try done. rewrite bool_decide_false by congruence. done.
    + rewrite IH. case_bool_decide; destruct (decide (key r = k)); try done. congruence.
Qed.

Lemma kt_get_remove k k' t : kt_get k (kt_remove k' t) = if decide (k = k') then None else kt_get k t.
Proof.
  unfold kt_get, kt_remove. induction t as [|x t IH]; [by destruct (decide _)|]. rewrite filter_cons.
  destruct (decide (key x = k')) as [E|E]; [rewrite decide_False by tauto|rewrite decide_True by done]; simpl.
  - rewrite IH. destruct (decide (k = k')); [done|]. by rewrite bool_decide_false by congruence.
  - case_bool_decide; [|exact IH]. by rewrite decide_False by congruence.
Qed.

Lemma kt_keys_in r t k : k ∈ map key (kt_put r t) -> k = key r \/ k ∈ map key t.
Proof. induction t as [|x t IH]; simpl; [set_solver|]. case_decide; simpl; set_solver. Qed.

Lemma kt_keys_put r t : NoDup (map key t) -> NoDup (map key (kt_put r t)).
Proof.
  induction t as [|x t IH]; simpl; intros Hn; [apply NoDup_singleton|]. apply NoDup_cons in Hn as [Hx Hn].
  destruct (decide (key x = key r)) as [E|E]; simpl; apply NoDup_cons; [by rewrite <- E|].
  split; [|by apply IH]. by intros [?|?]%kt_keys_in.
Qed.

End KeyedTable.

(** ** The stores *)

Definition meta_table : Type := list ProjectionMetaRecord.

Module ProjectionMetaStore.
Definition get (projectionId : string) (t : meta_table) : option ProjectionMetaRecord :=
  kt_get pm_projectionId projectionId t.
Definition list_all (t : meta_table) : list ProjectionMetaRecord := t.
Definition upsert (r : ProjectionMetaRecord) (t : meta_table) : meta_table := kt_put pm_projectionId r t.
Definition remove (projectionId : string) (t : meta_table) : meta_table := kt_remove pm_projectionId projectionId t.
End ProjectionMetaStore.

Definition cache_table : Type := list ProjectionCacheRecord.

Module ProjectionCacheStore.
Definition key (r : ProjectionCacheRecord) : string * string := (pc_projectionId r, pc_scopeKey r).
Definition get (projectionId scopeKey : string) (t : cache_table) : option ProjectionCacheRecord :=
  kt_get key (projectionId, scopeKey) t.
Definition listByProjection (projectionId : string) (t : cache_table) : list ProjectionCacheRecord :=
  filter (fun r => pc_projectionId r = projectionId) t.
Definition put (r : ProjectionCacheRecord) (t : cache_table) : cache_table := kt_put key r t.
Definition remove (projectionId scopeKey : string) (t : cache_table) : cache_table :=
  kt_remove key (projectionId, scopeKey) t.
Definition removeAll (projectionId : string) (t : cache_table) : cache_table :=
  filter (fun r => pc_projectionId r <> projectionId) t.
End ProjectionCacheStore.

Definition artifact_table : Type := list IndexArtifactRecord.

Module IndexArtifactStore.
Definition key (r : IndexArtifactRecord) : string * string := (ia_indexId r, ia_scopeKey r).
Definition get (indexId scopeKey : string) (t : artifact_table) : option IndexArtifactRecord :=
  kt_get key (indexId, scopeKey) t.
Definition put (r : IndexArtifactRecord) (t : artifact_table) : artifact_table := kt_put key r t.
Definition remove (indexId scopeKey : string) (t : artifact_table) : artifact_table :=
  kt_remove key (indexId, scopeKey) t.
Definition removeAll (indexId : string) (t : artifact_table) : artifact_table :=
  filter (fun r => ia_indexId r <> indexId) t.
End IndexArtifactStore.

Definition process_table : Type := list ProcessManagerStateRecord.

Module ProcessManagerStateStore.
Definition key (r : ProcessManagerStateRecord) : string * string := (ps_processManagerId r, ps_scopeKey r).
Definition get (processManagerId scopeKey : string) (t : process_table) : option ProcessManagerStateRecord :=
  kt_get key (processManagerId, scopeKey) t.
Definition put (r : ProcessManagerStateRecord) (t : process_table) : process_table := kt_put key r t.
Definition remove (processManagerId scopeKey : string) (t : process_table) : process_table :=
  kt_remove key (processManagerId, scopeKey) t.
Definition removeAll (processManagerId : string) (t : process_table) : process_table :=
  filter (fun r => ps_processManagerId r <> processManagerId) t.
End ProcessManagerStateStore.

(** ** The task runner

    [run(task)] as the three things that happen to it: a call, and the task's
    end, with or without a throw.  A call made while a cycle is under way only
    sets [pending] and waits for the cycle; the caller that started the cycle
    gets the task's own outcome.  [runs] counts the runs started; a call
    remembers how many had been when it was made. *)

Module ProjectionTaskRunner.

Record call : Type := Called { caller : nat; runs_before : nat }.

(** How a call came back: which run was the last to end before, and whether it threw. *)
Record answer : Type := Answered { answered : call; last_run : nat; returned : bool }.

(** A cycle under way ([completionPromise] is set). *)
Record cycle : Type := Cycle { owner : call; waiting : list call; pending : bool }.

Record runner : Type := Runner {
  current : option cycle;
  runs : nat;
  answers : list answer
}.

Definition new_runner : runner := Runner None 0 [].

(** A call of [run]. *)
Definition run_called (w : nat) (r : runner) : runner :=
  let c := Called w (runs r) in
  match current r with
  | Some cy => Runner (Some (Cycle (owner cy) (waiting cy ++ [c]) true)) (runs r) (answers r)
  | None => Runner (Some (Cycle c [] false)) (S (runs r)) (answers r)
  end.

(** The task under way ends: a throw leaves the loop through [finally]. *)
Definition task_ended (ok : bool) (r : runner) : runner :=
  match current r with
  | None => r
  | Some cy =>
      if ok && pending cy then Runner (Some (Cycle (owner cy) (waiting cy) false)) (S (runs r)) (answers r)
      else Runner None (runs r)
        (answers r ++ Answered (owner cy) (runs r) ok :: map (fun c => Answered c (runs r) true) (waiting cy))
  end.

Inductive happening : Type := Call (w : nat) | End_ (ok : bool).

Definition happen (r : runner) (h : happening) : runner :=
  match h with Call w => run_called w r | End_ ok => task_ended ok r end.

(** A run that was started after the call has ended. *)
Definition fresh_answer (a : answer) : Prop := runs_before (answered a) < last_run a.

(** What holds of a runner none of whose tasks has thrown. *)
Record runner_ok (r : runner) : Prop := {
  rok_answers : Forall fresh_answer (answers r);
  rok_current : match current r with
    | None => True
    | Some cy => runs_before (owner cy) < runs r /\
        Forall (fun c => runs_before c <= runs r /\ (pending cy = false -> runs_before c < runs r)) (waiting cy)
    end
}.

Lemma happen_ok r h : runner_ok r -> h <> End_ false -> runner_ok (happen r h).
Proof.
  intros [Ha Hc] Hh. destruct h as [w|[]]; [| |done]; unfold happen, run_called, task_ended.
  - destruct (current r) as [cy|]; split; simpl; try done.
    + destruct Hc as [Ho Hw]. split; [done|]. apply Forall_app. split; [|by repeat constructor].
      eapply Forall_impl; [exact Hw|]. intros c [? _]. by split.
    + split; [lia|constructor].
  - destruct (current r) as [cy|] eqn:E; [|split; [done|by rewrite E]]. destruct Hc as [Ho Hw].
    destruct (pending cy); simpl; split; simpl; try done.
    + split; [lia|]. eapply Forall_impl; [exact Hw|]. intros c [? _]. split; lia.
    + apply Forall_app. split; [done|]. constructor; [exact Ho|]. apply Forall_map.
      eapply Forall_impl; [exact Hw|]. intros c [_ H]. by apply H.
Qed.

End ProjectionTaskRunner.

Module DerivedStateProperties.
Import ProjectionTaskRunner.

(** The runner's promise: as long as no task throws, whatever calls are made and
    whenever tasks end, a call of [run] comes back only after the end of a run that was
    started after the call (so [flush] sees everything stored before it), and there is never
    more than one run under way. After a throw this is lost: a call made during the failing
    run comes back normally although the run it asked for never starts. *)
Theorem runner_barrier :
  (forall hs, Forall (fun h => h <> End_ false) hs -> Forall fresh_answer (answers (fold_left happen hs new_runner))) /\
  let r := fold_left happen [Call 1; Call 2; End_ false] new_runner in
  current r = None /\ runs r = 1 /\
  answers r = [Answered (Called 1 0) 1 false; Answered (Called 2 1) 1 true].
Proof.
  split; [|by repeat split]. intros hs Hhs. apply rok_answers.
  assert (runner_ok new_runner) as Hr by by split; [constructor|].
  revert Hr. generalize new_runner. induction Hhs as [|h hs Hh _ IH]; intros r Hr; [done|].
  apply IH. by apply happen_ok.
Qed.

(** A cache row is found under its projection and scope with what was last written there,
    until it is removed; writing or removing one row leaves every other one. *)
Theorem cache_lookup (t : cache_table) (r : ProjectionCacheRecord) (p k p' k' : string) :
  ProjectionCacheStore.get p k (ProjectionCacheStore.put r t) =
    (if decide (ProjectionCacheStore.key r = (p, k)) then Some r else ProjectionCacheStore.get p k t) /\
  ProjectionCacheStore.get p k (ProjectionCacheStore.remove p' k' t) =
    (if decide ((p, k) = (p', k')) then None else ProjectionCacheStore.get p k t).
Proof.
  split; [apply kt_get_put|apply kt_get_remove].
Qed.

End DerivedStateProperties.
