(* ===== verification/ProjectionRuntime.v ===== *)
(** * The projection runtime

    [packages/infrastructure/src/platform/derived-state/runtime/ProjectionRuntime.ts]
    and [WorkSchedulerPolicy.ts]: a projection reads the events of one aggregate
    type in batches after its cursor, hands them to a processor one by one and
    stores its cursor after every batch.

    [Section Runtime] is the code, over any processor (its state [W] holds the
    database, which [tables] reads).  Each method is one step; the processing
    loop runs on fuel ([None]: still looping), and a batch size above the
    number of events gives the bound ([loop_catches_up]).  Module [Interleaved]
    is the loop cut at its awaits (read, phase, event, end of batch), with other
    parts of the application changing the tables in between, calls that throw
    and restarts of the process; a rebuild is not part of it. *)

From S2P Require Import Prelude JsValues LocalDb EventStoreCore Application DerivedState Samples.
From stdpp Require Import sorting.
From Stdlib Require Import Sorted.

(** ** What a projection reads *)

(** The event's global sequence: the LEFT JOIN with [sync_event_map]. *)
Definition global_of (i : string) (db : local_db) : option Z :=
  global_seq <$> List.find (fun m => bool_decide (event_id m = i)) (sync_event_map db).

Definition record_of (g : option Z) (e : EventRow) : EventRecord :=
  let c := cols e in
  Record_ (id c) (aggregate_id c) (event_type c) (payload_encrypted c) (version c) (occurred_at c)
    (actor_id c) (causation_id c) (correlation_id c) (commit_sequence e) g.

Definition rows_of (ty : string) (db : local_db) : list EventRow :=
  filter (fun e => aggregate_type (cols e) = ty) (events db).

(** [ORDER BY CASE WHEN m.global_seq IS NULL THEN 1 ELSE 0 END, m.global_seq, e.commit_sequence] *)
Definition effective_lt (a b : EventRecord) : Prop :=
  match er_globalSequence a, er_globalSequence b with
  | Some g, Some g' => (g < g')%Z \/ (g = g' /\ (er_commitSequence a < er_commitSequence b)%Z)
  | Some _, None => True
  | None, Some _ => False
  | None, None => (er_commitSequence a < er_commitSequence b)%Z
  end.
#[export] Instance effective_lt_dec a b : Decision (effective_lt a b).
Proof. unfold effective_lt. destruct (er_globalSequence a), (er_globalSequence b); apply _. Defined.
Definition effective_le (a b : EventRecord) : Prop := ~ effective_lt b a.
#[export] Instance effective_le_dec a b : Decision (effective_le a b).
Proof. unfold effective_le. apply _. Defined.

(** All events of a type in effective total order. *)
Definition effective_rows (ty : string) (db : local_db) : list EventRecord :=
  merge_sort effective_le (map (fun e => record_of (global_of (id (cols e)) db) e) (rows_of ty db)).

(** The [WHERE] clause: a synced event must also have been committed after the
    last pending event applied (it was applied as pending otherwise). *)
Definition unread (c : EffectiveCursor) (r : EventRecord) : bool :=
  match er_globalSequence r with
  | Some g => (ec_globalSequence c <? g)%Z && (ec_pendingCommitSequence c <? er_commitSequence r)%Z
  | None => (ec_pendingCommitSequence c <? er_commitSequence r)%Z
  end.

Definition readEffectiveOrdered (ty : string) (c : EffectiveCursor) (limit : nat) (db : local_db) : list EventRecord :=
  take limit (filter (fun r => unread c r = true) (effective_rows ty db)).

(** Rows are kept in commit order. *)
Definition readCommitOrdered (ty : string) (after : Z) (limit : nat) (db : local_db) : list EventRecord :=
  take limit (filter (fun r => (after <? er_commitSequence r)%Z = true) (map (record_of None) (rows_of ty db))).

(** ** The runtime *)

Record BatchInfo : Type := Batch {
  processed : nat;
  batch_changed : bool;
  batch_cursor : EffectiveCursor;
  batch_commit : Z
}.

Record ProjectionProcessor (W : Type) : Type := Processor {
  projectionId : string;
  ordering : ProjectionOrdering;
  bootstrap : EffectiveCursor -> Z -> js W app_error unit;
  (** returns [changed] *)
  applyEvent : EventRecord -> EffectiveCursor -> Z -> js W app_error bool;
  onBatchComplete : BatchInfo -> js W app_error unit;
  reset : js W app_error unit
}.
Arguments Processor {W}.
Arguments projectionId {W}.
Arguments ordering {W}.
Arguments bootstrap {W}.
Arguments applyEvent {W}.
Arguments onBatchComplete {W}.
Arguments reset {W}.

Record CursorState : Type := CursorAt {
  lastEffectiveCursor : EffectiveCursor;
  lastCommitSequence : Z
}.
Definition initial_cursor : CursorState := CursorAt ZERO_EFFECTIVE_CURSOR 0.

Record runtime (W : Type) : Type := Runtime {
  world : W;
  projection_meta : meta_table;
  started : bool;
  subscribed : bool;
  is_ready : bool;
  pendingRebuild : bool;
  cursorState : CursorState
}.
Arguments Runtime {W}.
Arguments world {W}.
Arguments projection_meta {W}.
Arguments started {W}.
Arguments subscribed {W}.
Arguments is_ready {W}.
Arguments pendingRebuild {W}.
Arguments cursorState {W}.

Definition DEFAULT_BATCH_SIZE : nat := 250.

Section Runtime.
Context {W : Type} (tables : W -> local_db) (processor : ProjectionProcessor W) (aggregateType : string).
(** [scheduler.batchSize], and the clock. *)
Context (batchSize : nat) (now : number).

Notation rt := (js (runtime W) app_error).

Definition new_runtime (w : W) (meta : meta_table) : runtime W := Runtime w meta false false false false initial_cursor.

Definition set_meta (t : meta_table) (r : runtime W) : runtime W :=
  Runtime (world r) t (started r) (subscribed r) (is_ready r) (pendingRebuild r) (cursorState r).
Definition set_cursor (c : CursorState) (r : runtime W) : runtime W :=
  Runtime (world r) (projection_meta r) (started r) (subscribed r) (is_ready r) (pendingRebuild r) c.
Definition set_pendingRebuild (b : bool) (r : runtime W) : runtime W :=
  Runtime (world r) (projection_meta r) (started r) (subscribed r) (is_ready r) b (cursorState r).
(** [started] and the subscription to table changes. *)
Definition set_started (s sub : bool) (r : runtime W) : runtime W :=
  Runtime (world r) (projection_meta r) s sub (is_ready r) (pendingRebuild r) (cursorState r).
Definition resolveReady (r : runtime W) : runtime W :=
  Runtime (world r) (projection_meta r) (started r) (subscribed r) true (pendingRebuild r) (cursorState r).

(** A call of the processor. *)
Definition on_world {A} (m : js W app_error A) : rt A := fun r =>
  let '(a, w) := m (world r) in
  (a, Runtime w (projection_meta r) (started r) (subscribed r) (is_ready r) (pendingRebuild r) (cursorState r)).

Definition meta_record (c : CursorState) (phase : ProjectionPhase) : ProjectionMetaRecord :=
  MetaRecord (projectionId processor) (ordering processor) (lastEffectiveCursor c) (lastCommitSequence c) phase now.

(** [updatePhase] and [persistCursorState] write the same row. *)
Definition persistCursorState (phase : ProjectionPhase) : rt unit :=
  modify (fun r => set_meta (ProjectionMetaStore.upsert (meta_record (cursorState r) phase) (projection_meta r)) r).
Definition updatePhase (phase : ProjectionPhase) : rt unit := persistCursorState phase.

Definition loadOrInitializeMeta : rt unit :=
  existing ← gets (fun r => ProjectionMetaStore.get (projectionId processor) (projection_meta r));
  match existing with
  | Some m => modify (set_cursor (CursorAt (pm_lastEffectiveCursor m) (pm_lastCommitSequence m)))
  | None =>
      _ ← modify (fun r => set_meta (ProjectionMetaStore.upsert (meta_record initial_cursor idle) (projection_meta r)) r);
      modify (set_cursor initial_cursor)
  end.

Definition readNextBatch (r : runtime W) : list EventRecord :=
  match ordering processor with
  | commitSequence => readCommitOrdered aggregateType (lastCommitSequence (cursorState r)) batchSize (tables (world r))
  | effectiveTotalOrder =>
      readEffectiveOrdered aggregateType (lastEffectiveCursor (cursorState r)) batchSize (tables (world r))
  end.

Definition next_cursor (e : EventRecord) (c : CursorState) : CursorState :=
  CursorAt
    (match ordering processor with
     | effectiveTotalOrder => advanceEffectiveCursor (lastEffectiveCursor c) e
     | commitSequence => lastEffectiveCursor c
     end)
    (Z.max (lastCommitSequence c) (er_commitSequence e)).

(** One turn of [for (const event of events)]. *)
Definition apply_one (e : EventRecord) : rt bool :=
  c ← gets (fun r => next_cursor e (cursorState r));
  changed ← on_world (applyEvent processor e (lastEffectiveCursor c) (lastCommitSequence c));
  _ ← modify (set_cursor c);
  mret changed.

Fixpoint apply_batch (events : list EventRecord) (changed : bool) : rt bool :=
  match events with
  | [] => mret changed
  | e :: events' => c ← apply_one e; apply_batch events' (changed || c)
  end.

(** [while (true)]. *)
Fixpoint processing_loop (fuel : nat) (changed : bool) : rt (option unit) :=
  match fuel with
  | O => mret None
  | S fuel' =>
      events ← gets readNextBatch;
      match events with
      | [] => _ ← updatePhase idle; mret (Some tt)
      | _ =>
          _ ← updatePhase catchingUp;
          changed ← apply_batch events changed;
          _ ← persistCursorState catchingUp;
          c ← gets cursorState;
          _ ← on_world (onBatchComplete processor
                (Batch (length events) changed (lastEffectiveCursor c) (lastCommitSequence c)));
          if (length events <? batchSize)%nat then _ ← persistCursorState idle; mret (Some tt)
          else processing_loop fuel' changed
      end
  end.

Definition performRebuild : rt unit :=
  _ ← modify (set_pendingRebuild false);
  _ ← updatePhase rebuilding;
  _ ← modify (set_cursor initial_cursor);
  _ ← on_world (reset processor);
  persistCursorState rebuilding.

Definition runProcessingLoop (fuel : nat) : rt (option unit) :=
  rebuild ← gets pendingRebuild;
  _ ← (if rebuild : bool then performRebuild else skip);
  processing_loop fuel false.

Definition start (fuel : nat) : rt (option unit) :=
  gets started ≫= fun s : bool =>
  if s then mret (Some tt)
  else
    _ ← modify (set_started true false);
    _ ← loadOrInitializeMeta;
    c ← gets cursorState;
    _ ← on_world (bootstrap processor (lastEffectiveCursor c) (lastCommitSequence c));
    _ ← modify (set_started true true);
    done ← runProcessingLoop fuel;
    match done with
    | Some _ => _ ← modify resolveReady; mret (Some tt)
    | None => mret None
    end.

Definition stop : rt unit := modify (set_started false false).

(** [flush] and [onRebaseRequired], run when the runner is free. *)
Definition flush (fuel : nat) : rt (option unit) := runProcessingLoop fuel.
Definition onRebaseRequired (fuel : nat) : rt (option unit) :=
  _ ← modify (set_pendingRebuild true);
  runProcessingLoop fuel.

(** The cursor a status shows. *)
Definition toStatus (m : ProjectionMetaRecord) : string * (CommitCursor + EffectiveCursor) * ProjectionPhase :=
  (pm_projectionId m,
   match pm_ordering m with
   | commitSequence => inl (Commit (pm_lastCommitSequence m) "" 0)
   | effectiveTotalOrder => inr (pm_lastEffectiveCursor m)
   end, pm_phase m).
Definition getStatuses (r : runtime W) := map toStatus (ProjectionMetaStore.list_all (projection_meta r)).

End Runtime.

(** ** The effective order and the cursor *)

Module OrderLemmas.

(** No two events share their place in the order. *)
Definition strictly (a b : EventRecord) : Prop :=
  match er_globalSequence a, er_globalSequence b with
  | Some g, Some g' => (g < g')%Z
  | Some _, None => True
  | None, Some _ => False
  | None, None => (er_commitSequence a < er_commitSequence b)%Z
  end.

#[export] Instance effective_le_total : Total effective_le.
Proof.
  intros a b. unfold effective_le, effective_lt. destruct (er_globalSequence a), (er_globalSequence b); lia.
Qed.
#[export] Instance effective_le_trans : Transitive effective_le.
Proof.
  intros a b c. unfold effective_le, effective_lt.
  destruct (er_globalSequence a), (er_globalSequence b), (er_globalSequence c); lia.
Qed.

(** The tables as the runtime relies on them. *)
Record tables_ok (db : local_db) : Prop := {
  tok_db : db_ok db;
  tok_commits : Forall (fun e => (0 < commit_sequence e)%Z) (events db);
  tok_globals : Forall (fun m => (0 < global_seq m)%Z) (sync_event_map db)
}.

Lemma global_of_some i g db : global_of i db = Some g -> exists m, m ∈ sync_event_map db /\ event_id m = i /\ global_seq m = g.
Proof.
  unfold global_of. intros (m & H & ->)%fmap_Some. apply List.find_some in H as [Hm E].
  apply bool_decide_eq_true in E. exists m. by rewrite list_elem_of_In.
Qed.

Lemma global_of_inj i j g db : db_ok db -> global_of i db = Some g -> global_of j db = Some g -> i = j.
Proof.
  intros Hok (m & Hm & <- & <-)%global_of_some (m' & Hm' & <- & E)%global_of_some.
  by rewrite (NoDup_map_eq global_seq (sync_event_map db) m' m (ok_map_seqs _ Hok) Hm' Hm E).
Qed.

Lemma sorted_strictly (L : list EventRecord) : StronglySorted effective_le L ->
  NoDup L -> (forall a b, a ∈ L -> b ∈ L -> a <> b -> strictly a b \/ strictly b a) -> StronglySorted strictly L.
Proof.
  induction 1 as [|a L HL IH Ha]; intros Hn Hd; [constructor|]. apply NoDup_cons in Hn as [Hna Hn].
  constructor; [apply IH; [done|]; intros x y ??; apply Hd; by constructor|].
  apply Forall_forall. intros b Hb. pose proof (proj1 (Forall_forall _ _) Ha b Hb) as Hle.
  assert (a <> b) as Hab by (by intros <-).
  destruct (Hd a b) as [H|H]; [by constructor..|done|done|]. destruct Hle. revert H.
  unfold strictly, effective_lt. destruct (er_globalSequence a), (er_globalSequence b); lia.
Qed.

Lemma effective_rows_elem ty db r : r ∈ effective_rows ty db <->
  exists e, e ∈ rows_of ty db /\ r = record_of (global_of (id (cols e)) db) e.
Proof. unfold effective_rows. rewrite merge_sort_Permutation, list_elem_of_fmap. naive_solver. Qed.

Lemma rows_of_elem ty db e : e ∈ rows_of ty db -> e ∈ events db.
Proof. unfold rows_of. by intros [_ H]%list_elem_of_filter. Qed.

Lemma commit_inj db e e' : db_ok db -> e ∈ events db -> e' ∈ events db -> commit_sequence e = commit_sequence e' -> e = e'.
Proof.
  intros Hok. apply NoDup_map_eq. pose proof (ok_commits _ Hok) as Hs.
  induction (map commit_sequence (events db)) as [|c l IH]; [constructor|]. inversion Hs; subst. constructor; [|by apply IH].
  intros Hc. assert (c < c)%Z; [|lia]. by eapply Forall_forall.
Qed.

Lemma effective_rows_NoDup ty db : db_ok db -> NoDup (effective_rows ty db).
Proof.
  intros Hok. unfold effective_rows. rewrite merge_sort_Permutation. apply (NoDup_fmap_1 er_commitSequence).
  rewrite <- list_fmap_compose. unfold rows_of. apply NoDup_map_filter.
  pose proof (ok_commits _ Hok) as Hs. change (NoDup (map commit_sequence (events db))).
  induction (map commit_sequence (events db)) as [|c l IH]; [constructor|]. inversion Hs; subst. constructor; [|by apply IH].
  intros Hc. assert (c < c)%Z; [|lia]. by eapply Forall_forall.
Qed.

Lemma effective_rows_sorted ty db : db_ok db -> StronglySorted strictly (effective_rows ty db).
Proof.
  intros Hok. apply sorted_strictly; [apply (StronglySorted_merge_sort _)|by apply effective_rows_NoDup|].
  intros a b (e & He%rows_of_elem & ->)%effective_rows_elem (e' & He'%rows_of_elem & ->)%effective_rows_elem Hne.
  unfold strictly. simpl. destruct (global_of (id (cols e)) db) as [g|] eqn:E, (global_of (id (cols e')) db) as [g'|] eqn:E';
    auto.
  - assert (g <> g'); [|lia]. intros ->. pose proof (global_of_inj _ _ _ _ Hok E E') as Hi. destruct Hne.
    rewrite (NoDup_map_eq (fun e => id (cols e)) (events db) e e' (ok_ids _ Hok) He He' Hi). congruence.
  - assert (commit_sequence e <> commit_sequence e'); [|lia]. intros Hc. destruct Hne.
    rewrite (commit_inj _ _ _ Hok He He' Hc). congruence.
Qed.

(** *** What is left after a cursor *)

Lemma unread_advance c r x : unread c r = true -> unread (advanceEffectiveCursor c r) x = true -> unread c x = true.
Proof.
  unfold unread, advanceEffectiveCursor. destruct (er_globalSequence r), (er_globalSequence x); simpl; lia.
Qed.

Lemma unread_after c r x : unread c r = true -> strictly r x -> unread c x = true ->
  unread (advanceEffectiveCursor c r) x = true.
Proof.
  unfold unread, advanceEffectiveCursor, strictly.
  destruct (er_globalSequence r), (er_globalSequence x); simpl; rewrite ?andb_true_iff; intros; try split; try done; lia.
Qed.

Lemma unread_self c r : unread (advanceEffectiveCursor c r) r = false.
Proof. unfold unread, advanceEffectiveCursor. destruct (er_globalSequence r); simpl; lia. Qed.

Lemma unread_zero db ty : tables_ok db -> filter (fun r => unread ZERO_EFFECTIVE_CURSOR r = true) (effective_rows ty db) = effective_rows ty db.
Proof.
  intros Hok. assert (Forall (fun r => unread ZERO_EFFECTIVE_CURSOR r = true) (effective_rows ty db)) as H.
  - apply Forall_forall. intros r (e & He%rows_of_elem & ->)%effective_rows_elem.
    pose proof (proj1 (Forall_forall _ _) (tok_commits _ Hok) e He) as Hc. unfold unread. simpl in *.
    destruct (global_of (id (cols e)) db) as [g|] eqn:E; [|lia]. apply global_of_some in E as (m & Hm & _ & <-).
    pose proof (proj1 (Forall_forall _ _) (tok_globals _ Hok) m Hm). simpl in *. lia.
  - induction H as [|r L Hr _ IH]; [done|]. by rewrite filter_cons_True, IH.
Qed.

(** Over a sorted list, advancing past the first unread record leaves the others. *)
Lemma filter_advance c r rest (L : list EventRecord) : StronglySorted strictly L ->
  filter (fun x => unread c x = true) L = r :: rest ->
  filter (fun x => unread (advanceEffectiveCursor c r) x = true) L = rest.
Proof.
  intros HL E. assert (unread c r = true) as Hr.
  { assert (r ∈ filter (fun x => unread c x = true) L) as H by (rewrite E; by constructor).
    by apply list_elem_of_filter in H as [H _]. }
  assert (StronglySorted strictly (r :: rest)) as Hs.
  { rewrite <- E. clear -HL. induction HL as [|x L HL IH Hx]; [constructor|]. rewrite filter_cons.
    destruct (decide _); [|done]. constructor; [done|]. apply Forall_forall. intros y [_ Hy]%list_elem_of_filter.
    by eapply Forall_forall. }
  rewrite <- (list_filter_filter_l _ (fun x => unread c x = true)) by (intros x; by apply unread_advance).
  rewrite E, filter_cons_False by (rewrite unread_self; done).
  assert (forall x, x ∈ rest -> unread c x = true) as Hu.
  { intros x Hx. assert (x ∈ filter (fun x => unread c x = true) L) as H by (rewrite E; by constructor).
    by apply list_elem_of_filter in H as [H _]. }
  inversion Hs as [|? ? _ Hlt]; subst. clear -Hr Hu Hlt. induction Hlt as [|x rest Hx _ IH]; [done|].
  rewrite filter_cons_True; [|apply unread_after; [done..|apply Hu; by constructor]]. rewrite IH; [done|].
  intros y Hy. apply Hu. by constructor.
Qed.

End OrderLemmas.

(** ** What a processor promises, and what the runtime makes of it

    [R w a]: the processor's state shows [a]; an event steps it by [f],
    whatever the cursor; the tables of the event store are only read.  A reset
    asks less of the state ([usable]): it may have been restored, or be stale. *)

Record Projects {W A : Type} (tables : W -> local_db) (P : ProjectionProcessor W)
    (R : W -> A -> Prop) (usable : W -> Prop) (f : A -> EventRecord -> A) (nothing : A) (good : EventRecord -> Prop) : Prop := {
  prj_ordering : ordering P = effectiveTotalOrder;
  prj_apply e c n w a : R w a -> good e -> exists b w',
    applyEvent P e c n w = (Ok b, w') /\ R w' (f a e) /\ tables w' = tables w;
  prj_batch i w a : R w a -> exists w', onBatchComplete P i w = (Ok tt, w') /\ R w' a /\ tables w' = tables w;
  prj_reset w : usable w -> exists w', reset P w = (Ok tt, w') /\ R w' nothing /\ tables w' = tables w
}.

Module RuntimeLemmas.
Import OrderLemmas.

Section Catching_up.
Context {W A : Type} (tables : W -> local_db) (P : ProjectionProcessor W) (ty : string) (batchSize : nat) (now : number).
Context (R : W -> A -> Prop) (usable : W -> Prop) (f : A -> EventRecord -> A) (nothing : A) (good : EventRecord -> Prop).
Context (HP : Projects tables P R usable f nothing good) (Hbatch : 0 < batchSize).

(** The events still to be applied. *)
Definition left_over (r : runtime W) : list EventRecord :=
  filter (fun x => unread (lastEffectiveCursor (cursorState r)) x = true) (effective_rows ty (tables (world r))).

(** A step that applies [evs] to what shows [a]: what it leaves to do, shows and stores. *)
Record steps_to (a : A) (evs rest : list EventRecord) (r r' : runtime W) : Prop := {
  st_tables : tables (world r') = tables (world r);
  st_shows : R (world r') (fold_left f evs a);
  st_left : left_over r' = rest
}.

Lemma steps_trans a evs1 evs2 l1 l2 r1 r2 r3 :
  steps_to a evs1 l1 r1 r2 -> steps_to (fold_left f evs1 a) evs2 l2 r2 r3 -> steps_to a (evs1 ++ evs2) l2 r1 r3.
Proof. intros [T1 S1 ?] [T2 S2 ?]. split; try done; [by rewrite T2|by rewrite fold_left_app]. Qed.

(** Changes of the runtime's own fields show nothing. *)
Lemma steps_meta a r t : R (world r) a -> steps_to a [] (left_over r) r (set_meta t r).
Proof. by split. Qed.

Lemma apply_one_steps a e rest r : tables_ok (tables (world r)) -> R (world r) a -> good e -> left_over r = e :: rest ->
  exists b r', apply_one P e r = (Ok b, r') /\ steps_to a [e] rest r r'.
Proof.
  intros Hok Hi Hg Hl.
  destruct (prj_apply _ _ _ _ _ _ _ HP e (lastEffectiveCursor (next_cursor P e (cursorState r)))
    (lastCommitSequence (next_cursor P e (cursorState r))) (world r) a Hi Hg) as (b & w' & E & Hi' & Ht).
  exists b. eexists. split.
  - unfold apply_one, gets, on_world, modify, mbind, js_bind. rewrite E. reflexivity.
  - split; simpl; [done|done|]. unfold left_over in *. simpl. rewrite Ht.
    unfold next_cursor. rewrite (prj_ordering _ _ _ _ _ _ _ HP). simpl.
    eapply filter_advance; [|exact Hl]. by apply effective_rows_sorted, tok_db.
Qed.

Lemma apply_batch_steps a evs rest r ch : tables_ok (tables (world r)) -> R (world r) a -> Forall good evs ->
  left_over r = evs ++ rest -> exists b r', apply_batch P evs ch r = (Ok b, r') /\ steps_to a evs rest r r'.
Proof.
  intros Hok Hi Hg. revert a r ch Hok Hi. induction Hg as [|e evs He Hg IH]; intros a r ch Hok Hi Hl; [by exists ch, r|].
  destruct (apply_one_steps a e (evs ++ rest) r Hok Hi He Hl) as (b & r1 & E1 & H1). pose proof H1 as [Ht1 Hs1 Hl1].
  destruct (IH (f a e) r1 (ch || b)) as (b' & r2 & E2 & H2); [by rewrite Ht1|done|done|]. exists b', r2. split.
  - simpl. erewrite js_bind_run_ok by exact E1. exact E2.
  - by apply (steps_trans a [e] evs (evs ++ rest) rest r r1 r2).
Qed.

Lemma on_batch_steps a i r : R (world r) a -> exists r',
  on_world (onBatchComplete P i) r = (Ok tt, r') /\ steps_to a [] (left_over r) r r' /\ cursorState r' = cursorState r.
Proof.
  intros Hi. destruct (prj_batch _ _ _ _ _ _ _ HP i (world r) a Hi) as (w' & E & Hi' & Ht).
  eexists. unfold on_world. rewrite E. split; [reflexivity|]. split; [|done]. split; simpl; try done.
  unfold left_over. simpl. by rewrite Ht.
Qed.

(** The row of [projection_meta] is the idle cursor. *)
Definition stored_idle (r : runtime W) : Prop :=
  ProjectionMetaStore.get (projectionId P) (projection_meta r) = Some (meta_record P now (cursorState r) idle).

Lemma persisted_idle r : stored_idle (persistCursorState P now idle r).2.
Proof.
  unfold stored_idle, ProjectionMetaStore.get. simpl. unfold ProjectionMetaStore.upsert. by rewrite kt_get_put, decide_True. Qed.

Lemma read_left_over r : readNextBatch tables P ty batchSize r = take batchSize (left_over r).
Proof. unfold readNextBatch. by rewrite (prj_ordering _ _ _ _ _ _ _ HP). Qed.

(** Enough fuel: more than there are events left. *)
Lemma loop_catches_up fuel ch a r : length (left_over r) < fuel -> tables_ok (tables (world r)) -> R (world r) a ->
  Forall good (left_over r) -> exists r',
    processing_loop tables P ty batchSize now fuel ch r = (Ok (Some tt), r') /\
    steps_to a (left_over r) [] r r' /\ stored_idle r'.
Proof.
  revert ch a r. induction fuel as [|fuel IH]; intros ch a r Hf Hok Hi Hg; [lia|].
  cbn [processing_loop]. unfold gets. erewrite js_bind_run_ok by reflexivity. rewrite read_left_over.
  destruct (left_over r) as [|e l] eqn:El.
  - rewrite take_nil. eexists. split; [reflexivity|]. split; [by split|]. apply persisted_idle.
  - rewrite <- El in *. assert (exists e' l', take batchSize (left_over r) = e' :: l') as (e' & l' & Et).
    { rewrite El. destruct batchSize; [lia|]. by eexists _, _. }
    rewrite Et, <- Et. set (rest := drop batchSize (left_over r)). set (b := take batchSize (left_over r)) in *.
    assert (left_over r = b ++ rest) as Hsplit by (symmetry; apply take_drop).
    assert (0 < length b) as Hb by (subst b; rewrite Et; simpl; lia).
    assert (length b < batchSize -> rest = []) as Hshort.
    { subst b rest. rewrite length_take. intros. apply drop_ge. lia. }
    clearbody b rest.
    rewrite Hsplit in Hg. apply Forall_app in Hg as [Hgb Hgr].
    erewrite js_bind_run_ok by reflexivity. set (r0 := set_meta _ r).
    destruct (apply_batch_steps a b rest r0 ch) as (ch' & r1 & E1 & H1); [done..|].
    erewrite js_bind_run_ok by exact E1. erewrite js_bind_run_ok by reflexivity.
    set (r2 := set_meta _ r1). erewrite js_bind_run_ok by reflexivity.
    destruct (on_batch_steps (fold_left f b a) (Batch (length b) ch' (lastEffectiveCursor (cursorState r2))
      (lastCommitSequence (cursorState r2))) r2) as (r3 & E3 & H3 & _); [apply (st_shows _ _ _ _ _ H1)|].
    erewrite js_bind_run_ok by exact E3.
    assert (steps_to a b rest r r3) as H13.
    { destruct H1 as [T1 S1 L1], H3 as [T3 S3 L3]. split; [by rewrite T3|exact S3|]. rewrite L3. exact L1. }
    pose proof H13 as [T3 S3 L3]. destruct (Nat.ltb_spec (length b) batchSize) as [Hlt|Hge].
    + rewrite (Hshort Hlt), app_nil_r in *. rewrite Hsplit.
      eexists. split; [reflexivity|]. split; [|apply persisted_idle]. split; [exact T3|exact S3|exact L3].
    + destruct (IH ch' (fold_left f b a) r3) as (r4 & E4 & H4 & Hst).
      * rewrite L3. rewrite Hsplit, length_app in Hf. lia.
      * by rewrite T3.
      * done.
      * by rewrite L3.
      * exists r4. split; [exact E4|]. split; [|done]. rewrite Hsplit. rewrite L3 in H4.
        by apply (steps_trans a b rest rest [] r r3 r4).
Qed.

(** Rebuilding is catching up from a reset. *)
Lemma rebuild_catches_up fuel r : tables_ok (tables (world r)) -> usable (world r) ->
  Forall good (effective_rows ty (tables (world r))) -> length (effective_rows ty (tables (world r))) < fuel ->
  exists r', onRebaseRequired tables P ty batchSize now fuel r = (Ok (Some tt), r') /\
    R (world r') (fold_left f (effective_rows ty (tables (world r))) nothing) /\
    left_over r' = [] /\ tables (world r') = tables (world r) /\ stored_idle r'.
Proof.
  intros Hok Hu Hg Hf. destruct (prj_reset _ _ _ _ _ _ _ HP (world r) Hu) as (w & E & Hs & Ht).
  assert (exists r0, performRebuild P now (set_pendingRebuild true r) = (Ok tt, r0) /\ world r0 = w /\
    cursorState r0 = initial_cursor) as (r0 & E0 & Hw & Hc).
  { eexists. unfold performRebuild, on_world, modify, mbind, js_bind. simpl. rewrite E. split; [reflexivity|done]. }
  assert (left_over r0 = effective_rows ty (tables (world r))) as Hl.
  { unfold left_over. rewrite Hc, Hw, Ht. by apply unread_zero. }
  destruct (loop_catches_up fuel false nothing r0) as (r' & E1 & [Ht1 Hs1 Hl1] & Hst);
    [by rewrite Hl|by rewrite Hw, Ht|by rewrite Hw|by rewrite Hl|].
  exists r'. split.
  - unfold onRebaseRequired, runProcessingLoop, gets. erewrite js_bind_run_ok by reflexivity.
    erewrite js_bind_run_ok by reflexivity. erewrite js_bind_run_ok by exact E0. exact E1.
  - rewrite Hl in Hs1. repeat split; try done. by rewrite Ht1, Hw, Ht.
Qed.

Lemma flush_steps fuel a r : pendingRebuild r = false -> tables_ok (tables (world r)) -> R (world r) a ->
  Forall good (left_over r) -> length (left_over r) < fuel -> exists r',
    flush tables P ty batchSize now fuel r = (Ok (Some tt), r') /\ steps_to a (left_over r) [] r r' /\ stored_idle r'.
Proof.
  intros Hr Hok Hi Hg Hf. destruct (loop_catches_up fuel false a r Hf Hok Hi Hg) as (r' & E & H).
  exists r'. split; [|done]. unfold flush, runProcessingLoop, gets. erewrite js_bind_run_ok by reflexivity.
  rewrite Hr. erewrite js_bind_run_ok by reflexivity. exact E.
Qed.

End Catching_up.
End RuntimeLemmas.

(** ** One event at a time, among everything else the application does *)

Module Interleaved.
Import OrderLemmas.

(** Where a run of [runProcessingLoop] stands: about to read, with a batch it
    has read and not yet reported (the await of [updatePhase]), or with the
    events of its batch that are still to apply. *)
Inductive loop : Type :=
  | Fresh
  | HasRead (b : list EventRecord)
  | Applying (b : list EventRecord).

Definition batch (l : loop) : list EventRecord :=
  match l with Fresh => [] | HasRead b | Applying b => b end.

(** The tables as the runtime's query sees them ([rows]: the events of its
    type, with their global sequences), the cursor in memory, which the loops
    under way share, and the one in the table of projection metadata.  The
    rest is history: the calls of [applyEvent] that returned, in earlier
    processes ([before]) and in this one ([since]); those of [since] whose
    cursor has not been stored ([unsaved]), and those of earlier processes
    whose cursor never was ([lost]). *)
Record system : Type := System {
  rows : list EventRecord;
  cursor : EffectiveCursor;
  stored : EffectiveCursor;
  loops : list loop;
  before : list string;
  since : list string;
  unsaved : list string;
  lost : list string
}.

(** What other parts of the application may do to the tables: append an event
    (local, or remote with its global sequence), or record the global sequence
    of a pending event.  Commit sequences are handed out in ascending order, and
    so are global ones, to one device. *)
Definition last_commit (rs : list EventRecord) : Z := foldr (fun r m => Z.max (er_commitSequence r) m) 0%Z rs.
Definition last_global (rs : list EventRecord) : Z :=
  foldr (fun r m => Z.max (default 0%Z (er_globalSequence r)) m) 0%Z rs.

Definition with_global (i : string) (g : Z) (r : EventRecord) : EventRecord :=
  if decide (er_id r = i) then
    Record_ (er_id r) (er_aggregateId r) (er_eventType r) (er_payload r) (er_version r) (er_occurredAt r)
      (er_actorId r) (er_causationId r) (er_correlationId r) (er_commitSequence r) (Some g)
  else r.

Inductive changes (rs : list EventRecord) : list EventRecord -> Prop :=
| appended r : er_id r ∉ map er_id rs -> (last_commit rs < er_commitSequence r)%Z ->
    (forall g, er_globalSequence r = Some g -> (last_global rs < g)%Z) -> changes rs (rs ++ [r])
| synced i g : (forall r, r ∈ rs -> er_id r = i -> er_globalSequence r = None) -> (last_global rs < g)%Z ->
    changes rs (map (with_global i g) rs).

(** The query: at most [n] unread records in effective order. *)
Definition query (n : nat) (rs : list EventRecord) (c : EffectiveCursor) : list EventRecord :=
  take n (filter (fun r => unread c r = true) (merge_sort effective_le rs)).

Section Steps.
Context (n : nat).

Definition with_loops (ls : list loop) (s : system) : system :=
  System (rows s) (cursor s) (stored s) ls (before s) (since s) (unsaved s) (lost s).

(** [updatePhase] and [persistCursorState]: both write the cursor. *)
Definition save (s : system) : system :=
  System (rows s) (cursor s) (cursor s) (loops s) (before s) (since s) [] (lost s).

Inductive step : system -> system -> Prop :=
| step_tables s rs : changes (rows s) rs ->
    step s (System rs (cursor s) (stored s) (loops s) (before s) (since s) (unsaved s) (lost s))
(** a loop reads the next batch *)
| step_read s l1 l2 : loops s = l1 ++ Fresh :: l2 ->
    step s (with_loops (l1 ++ HasRead (query n (rows s) (cursor s)) :: l2) s)
(** it records its phase; without events it has ended ([idle]) *)
| step_phase s l1 b l2 : loops s = l1 ++ HasRead b :: l2 ->
    step s (save (with_loops (l1 ++ Applying b :: l2) s))
(** it applies the next event of its batch and moves the cursor in memory *)
| step_apply s l1 e b l2 : loops s = l1 ++ Applying (e :: b) :: l2 ->
    step s (System (rows s) (advanceEffectiveCursor (cursor s) e) (stored s) (l1 ++ Applying b :: l2)
      (before s) (since s ++ [er_id e]) (unsaved s ++ [er_id e]) (lost s))
(** at the end of the batch it stores the cursor *)
| step_batch s l1 l2 : loops s = l1 ++ Applying [] :: l2 ->
    step s (save (with_loops (l1 ++ Fresh :: l2) s))
(** [applyEvent], a query or a write throws: the run is over, what it had
    applied and its cursor remain, and a later run reads again *)
| step_throw s l1 l l2 : loops s = l1 ++ l :: l2 -> step s (with_loops (l1 ++ Fresh :: l2) s)
(** the process ends, wherever it stands, and another starts: its cursor is the
    stored one ([loadOrInitializeMeta]) *)
| step_restart s :
    step s (System (rows s) (stored s) (stored s) (map (fun _ => Fresh) (loops s))
      (before s ++ since s) [] [] (lost s ++ unsaved s)).

Inductive steps (s : system) : system -> Prop :=
| steps_refl : steps s s
| steps_step s1 s2 : steps s s1 -> step s1 s2 -> steps s s2.

End Steps.

(** A projection that has just been created, or reset, over the tables [rs]. *)
Definition begins (loops : nat) (rs : list EventRecord) : system :=
  System rs ZERO_EFFECTIVE_CURSOR ZERO_EFFECTIVE_CURSOR (repeat Fresh loops) [] [] [] [].

(** Rows as a table holds them. *)
Record rows_ok (rs : list EventRecord) : Prop := {
  rows_ids : NoDup (map er_id rs);
  rows_positive : Forall (fun r => (0 < er_commitSequence r)%Z /\
    forall g, er_globalSequence r = Some g -> (0 < g)%Z) rs;
  rows_apart : forall a b, a ∈ rs -> b ∈ rs -> a <> b -> strictly a b \/ strictly b a
}.

End Interleaved.

Module InterleavedLemmas.
Import OrderLemmas Interleaved.

(** Applying [e] leaves [r] unread. *)
Definition precedes (e r : EventRecord) : Prop :=
  match er_globalSequence e with
  | Some g => forall g', er_globalSequence r = Some g' -> (g < g')%Z
  | None => (er_commitSequence e < er_commitSequence r)%Z
  end.

(** The row an event of a batch was read from, which may have been synced since. *)
Definition row_for (e r : EventRecord) : Prop :=
  er_id r = er_id e /\ er_commitSequence r = er_commitSequence e /\
  (er_globalSequence r = er_globalSequence e \/ er_globalSequence e = None).

Record inv (rs : list EventRecord) (c : EffectiveCursor) (b : list EventRecord) (done : list string) : Prop := {
  inv_rows : rows_ok rs;
  inv_cursor : (ec_globalSequence c <= last_global rs)%Z /\ (ec_pendingCommitSequence c <= last_commit rs)%Z;
  inv_batch : NoDup (map er_id b) /\ forall e, e ∈ b -> exists r, r ∈ rs /\ row_for e r /\ unread c r = true;
  inv_ahead l1 e l2 r : b = l1 ++ e :: l2 -> r ∈ rs -> unread c r = true -> er_id r ∉ map er_id (l1 ++ [e]) -> precedes e r;
  inv_done : NoDup done /\ Forall (fun i => i ∈ map er_id rs) done /\
    forall r, r ∈ rs -> (er_id r ∈ done <-> unread c r = false)
}.

Lemma last_commit_ge r rs : r ∈ rs -> (er_commitSequence r <= last_commit rs)%Z.
Proof. induction 1; simpl; lia. Qed.
Lemma last_global_ge r g rs : r ∈ rs -> er_globalSequence r = Some g -> (g <= last_global rs)%Z.
Proof. induction 1 as [r rs|r x rs _ IH]; simpl; intros Hg; [rewrite Hg; simpl; lia|specialize (IH Hg); lia]. Qed.
Lemma last_commit_app rs r : last_commit (rs ++ [r]) = Z.max (last_commit rs) (Z.max (er_commitSequence r) 0).
Proof. induction rs; simpl; lia. Qed.
Lemma last_global_app rs r : last_global (rs ++ [r]) = Z.max (last_global rs) (Z.max (default 0%Z (er_globalSequence r)) 0).
Proof. induction rs; simpl; lia. Qed.
Lemma last_nonneg rs : (0 <= last_commit rs)%Z /\ (0 <= last_global rs)%Z.
Proof. induction rs; simpl; lia. Qed.

Lemma row_unique rs r r' : rows_ok rs -> r ∈ rs -> r' ∈ rs -> er_id r = er_id r' -> r = r'.
Proof. intros H. apply NoDup_map_eq, rows_ids, H. Qed.

(** *** A loop applies an event *)

Lemma unread_precedes c e r : unread c r = true -> precedes e r -> (exists r', row_for e r' /\ unread c r' = true) ->
  unread (advanceEffectiveCursor c e) r = true.
Proof.
  unfold unread, precedes, advanceEffectiveCursor, row_for.
  intros Hr Hp (r' & (_ & Hc & Hg) & Hr'). destruct (er_globalSequence e) as [g|]; simpl.
  - destruct (er_globalSequence r) as [g'|]; [|done]. specialize (Hp g' eq_refl). lia.
  - destruct (er_globalSequence r) as [g'|]; lia.
Qed.

Lemma read_row c e r : row_for e r -> unread (advanceEffectiveCursor c e) r = false.
Proof.
  unfold unread, advanceEffectiveCursor, row_for. intros (_ & Hc & Hg).
  destruct (er_globalSequence e) as [g|] eqn:E; simpl.
  - destruct Hg as [->|?]; [|done]. lia.
  - destruct (er_globalSequence r); lia.
Qed.

Lemma unread_mono c e r r' : row_for e r' -> unread c r' = true -> unread c r = false ->
  unread (advanceEffectiveCursor c e) r = false.
Proof.
  unfold unread, advanceEffectiveCursor, row_for. intros (_ & Hc & Hg).
  destruct (er_globalSequence e) as [g|] eqn:E; simpl.
  - destruct Hg as [->|?]; [|done]. destruct (er_globalSequence r); lia.
  - destruct (er_globalSequence r'), (er_globalSequence r); lia.
Qed.

Lemma apply_inv rs c e b done : inv rs c (e :: b) done -> inv rs (advanceEffectiveCursor c e) b (done ++ [er_id e]).
Proof.
  intros [Hrs [Hcg Hcp] [Hb Hrow] Hah (Hd & Hsub & Hdone)].
  destruct (Hrow e) as (re & Hre & Hfor & Hun); [by constructor|].
  assert (forall r, r ∈ rs -> er_id r <> er_id e -> unread c r = true -> unread (advanceEffectiveCursor c e) r = true) as Hkeep.
  { intros r Hr Hne Hur. apply unread_precedes; [done| |by exists re]. apply (Hah [] e b r eq_refl Hr Hur). simpl. set_solver. }
  assert (forall r, r ∈ rs -> er_id r = er_id e -> r = re) as Huniq.
  { intros r Hr E. apply (row_unique rs); [done..|]. by destruct Hfor as [-> _]. }
  simpl in Hb. apply NoDup_cons in Hb as [Heb Hb]. split; [done| | | |].
  - destruct Hfor as (_ & Hc & Hg). unfold advanceEffectiveCursor. destruct (er_globalSequence e) as [g|] eqn:E; simpl.
    + split; [|done]. destruct Hg as [Hg|?]; [|done]. by eapply last_global_ge.
    + split; [done|]. rewrite <- Hc. by apply last_commit_ge.
  - split; [done|]. intros e' He'. destruct (Hrow e') as (r & Hr & Hf & Hu); [by constructor|]. exists r.
    repeat split; try apply Hf; [done|]. apply Hkeep; [done| |done]. destruct Hf as [-> _]. intros Heq. apply Heb. rewrite <- Heq.
    by apply list_elem_of_fmap_2.
  - intros l1 e' l2 r -> Hr Hu Hni. destruct (decide (er_id r = er_id e)) as [E|E].
    + apply Huniq in E as ->; [|done]. rewrite (read_row c e re Hfor) in Hu. done.
    + apply (Hah (e :: l1) e' l2 r eq_refl Hr); [|simpl; set_solver].
      apply not_false_is_true. intros Hf. by rewrite (unread_mono c e r re Hfor Hun Hf) in Hu.
  - assert (er_id e ∉ done) as Hnew.
    { destruct Hfor as [<- _]. rewrite (Hdone re Hre). by rewrite Hun. }
    split; [|split].
    + apply NoDup_app. split; [done|]. split; [|apply NoDup_singleton]. intros i Hi ->%list_elem_of_singleton. done.
    + apply Forall_app. split; [done|]. constructor; [|constructor]. destruct Hfor as [<- _]. by apply list_elem_of_fmap_2.
    + intros r Hr. rewrite elem_of_app, list_elem_of_singleton, (Hdone r Hr). destruct (decide (er_id r = er_id e)) as [E|E].
      * apply Huniq in E as E'; [|done]. subst r. rewrite (read_row c e re Hfor). tauto.
      * split; [intros [Hf|?]; [by apply (unread_mono c e r re)|done]|]. intros Hf. left.
        apply not_true_iff_false. intros Ht. by rewrite (Hkeep r Hr E Ht) in Hf.
Qed.

(** *** A loop reads a batch *)

Lemma query_sorted rs c : rows_ok rs ->
  StronglySorted strictly (filter (fun r => unread c r = true) (merge_sort effective_le rs)).
Proof.
  intros Hrs. assert (StronglySorted strictly (merge_sort effective_le rs)) as H.
  - apply sorted_strictly; [apply (StronglySorted_merge_sort _)| |].
    + rewrite merge_sort_Permutation. apply (NoDup_fmap_1 er_id), Hrs.
    + intros a b. rewrite !merge_sort_Permutation. apply Hrs.
  - induction H as [|r l Hl IH Hr]; [constructor|]. rewrite filter_cons. destruct (decide _); [|done].
    constructor; [done|]. apply Forall_forall. intros x [_ Hx]%list_elem_of_filter. by eapply Forall_forall.
Qed.

Lemma query_elem rs c r : r ∈ filter (fun r => unread c r = true) (merge_sort effective_le rs) <-> unread c r = true /\ r ∈ rs.
Proof. by rewrite list_elem_of_filter, merge_sort_Permutation. Qed.

Lemma read_inv n rs c done : inv rs c [] done -> inv rs c (query n rs c) done.
Proof.
  intros [Hrs Hc _ _ Hd]. unfold query. set (all := filter _ _).
  assert (all = take n all ++ drop n all) as Hall by (symmetry; apply take_drop).
  pose proof (query_sorted rs c Hrs) as Hs. fold all in Hs.
  assert (forall r, r ∈ take n all -> unread c r = true /\ r ∈ rs) as Hel.
  { intros r Hr. apply query_elem. fold all. rewrite Hall. set_solver. }
  split; [done|done| | |done].
  - split.
    + apply (NoDup_app _ (map er_id (drop n all))). rewrite <- map_app, <- Hall. unfold all.
      apply NoDup_map_filter. rewrite merge_sort_Permutation. apply Hrs.
    + intros e He. destruct (Hel e He). exists e. by repeat split; try left.
  - intros l1 e l2 r Hb Hr Hu Hni. rewrite Hb in Hall.
    assert (r ∈ all) as Hin by (by apply query_elem). rewrite Hall in Hin, Hs.
    rewrite <- app_assoc in Hs, Hin. simpl in Hs, Hin. apply StronglySorted_app in Hs as (_ & _ & Hs).
    apply elem_of_app in Hin as [Hin|Hin]; [destruct Hni; rewrite map_app; apply elem_of_app; left; by apply list_elem_of_fmap_2|].
    apply elem_of_cons in Hin as [->|Hin]; [destruct Hni; rewrite map_app; simpl; set_solver|].
    inversion Hs as [|? ? _ Hlt]; subst. pose proof (proj1 (Forall_forall _ _) Hlt r Hin) as H.
    revert H. unfold strictly, precedes. destruct (er_globalSequence e), (er_globalSequence r); [|done..|done].
    intros H g' [= <-]. done.
Qed.

(** *** The tables change *)

Lemma rows_ok_append rs r : rows_ok rs -> er_id r ∉ map er_id rs -> (last_commit rs < er_commitSequence r)%Z ->
  (forall g, er_globalSequence r = Some g -> (last_global rs < g)%Z) -> rows_ok (rs ++ [r]).
Proof.
  intros [H1 H2 H3] Hi Hc Hg. pose proof (last_nonneg rs) as [? ?]. split.
  - rewrite map_app. apply NoDup_app. split; [done|]. split; [|apply NoDup_singleton].
    intros i Hx ->%list_elem_of_singleton. done.
  - apply Forall_app. split; [done|]. constructor; [|constructor]. split; [lia|]. intros g E. specialize (Hg g E). lia.
  - assert (forall a, a ∈ rs -> strictly a r \/ strictly r a) as Ha.
    { intros a Ha. pose proof (last_commit_ge a rs Ha). unfold strictly.
      destruct (er_globalSequence a) as [g|] eqn:E, (er_globalSequence r) as [g'|] eqn:E'; auto; [|left; lia].
      left. pose proof (last_global_ge a g rs Ha E). specialize (Hg g' eq_refl). lia. }
    intros a b [Hax| ->%list_elem_of_singleton]%elem_of_app [Hbx| ->%list_elem_of_singleton]%elem_of_app Hne;
      [by apply H3|by apply Ha|destruct (Ha b Hbx); tauto|done].
Qed.

Lemma append_inv rs c b done r : inv rs c b done -> er_id r ∉ map er_id rs -> (last_commit rs < er_commitSequence r)%Z ->
  (forall g, er_globalSequence r = Some g -> (last_global rs < g)%Z) -> inv (rs ++ [r]) c b done.
Proof.
  intros [Hrs [Hcg Hcp] [Hb Hrow] Hah (Hd & Hsub & Hdone)] Hi Hc Hg.
  assert (unread c r = true) as Hur.
  { unfold unread. destruct (er_globalSequence r) as [g|]; [specialize (Hg g eq_refl)|]; lia. }
  split.
  - by apply rows_ok_append.
  - rewrite last_commit_app, last_global_app. lia.
  - split; [done|]. intros e He. destruct (Hrow e He) as (r' & ? & ?). exists r'. split; [set_solver|done].
  - intros l1 e l2 r' Eb [Hr'| ->%list_elem_of_singleton]%elem_of_app Hu Hni; [by eapply Hah|].
    destruct (Hrow e) as (re & Hre & (_ & Ec & Eg) & _); [rewrite Eb; set_solver|]. unfold precedes.
    destruct (er_globalSequence e) as [g|] eqn:E.
    + intros g' E'. specialize (Hg g' E'). destruct Eg as [Eg|?]; [|done]. pose proof (last_global_ge re g rs Hre Eg). lia.
    + pose proof (last_commit_ge re rs Hre). lia.
  - split; [done|]. split.
    + eapply Forall_impl; [exact Hsub|]. intros i. rewrite map_app. set_solver.
    + intros r' [Hr'| ->%list_elem_of_singleton]%elem_of_app; [by apply Hdone|]. rewrite Hur. split; [|done].
      intros H. destruct Hi. by apply (proj1 (Forall_forall _ _) Hsub).
Qed.

Lemma with_global_id i g r : er_id (with_global i g r) = er_id r.
Proof. unfold with_global. by destruct (decide _). Qed.
Lemma with_global_commit i g r : er_commitSequence (with_global i g r) = er_commitSequence r.
Proof. unfold with_global. by destruct (decide _). Qed.
Lemma with_global_global i g r : er_globalSequence (with_global i g r) = if decide (er_id r = i) then Some g else er_globalSequence r.
Proof. unfold with_global. by destruct (decide _). Qed.

Lemma map_with_global_ids i g rs : map er_id (map (with_global i g) rs) = map er_id rs.
Proof. rewrite map_map. apply map_ext. intros r. apply with_global_id. Qed.

Lemma last_commit_map i g rs : last_commit (map (with_global i g) rs) = last_commit rs.
Proof. induction rs as [|r rs IH]; [done|]. simpl. by rewrite IH, with_global_commit. Qed.

Lemma last_global_map i g rs : (forall r, r ∈ rs -> er_id r = i -> er_globalSequence r = None) ->
  (last_global rs <= last_global (map (with_global i g) rs))%Z.
Proof.
  induction rs as [|r rs IH]; intros H; simpl; [lia|]. rewrite with_global_global.
  specialize (IH (fun x Hx => H x (list_elem_of_further _ _ _ Hx))).
  destruct (decide (er_id r = i)) as [E|]; [|lia]. rewrite (H r (list_elem_of_here _ _) E). simpl.
  pose proof (last_nonneg (map (with_global i g) rs)). lia.
Qed.

Section Synced.
Context (rs : list EventRecord) (i : string) (g : Z).
Context (Hi : forall r, r ∈ rs -> er_id r = i -> er_globalSequence r = None) (Hg : (last_global rs < g)%Z).

Lemma rows_ok_synced : rows_ok rs -> rows_ok (map (with_global i g) rs).
Proof.
  intros [H1 H2 H3]. pose proof (last_nonneg rs) as [_ ?]. split.
  - by rewrite map_with_global_ids.
  - apply Forall_map. eapply Forall_impl; [exact H2|]. intros r [Hc Hp]. rewrite with_global_commit, with_global_global.
    split; [done|]. intros g'. destruct (decide _); [intros [= <-]; lia|apply Hp].
  - intros a b (a0 & -> & Ha)%list_elem_of_fmap (b0 & -> & Hb)%list_elem_of_fmap Hne.
    assert (a0 <> b0) as Hne0 by congruence. pose proof (H3 a0 b0 Ha Hb Hne0) as Hab. revert Hab. unfold strictly.
    rewrite !with_global_global, !with_global_commit.
    destruct (decide (er_id a0 = i)) as [Ea|Ea], (decide (er_id b0 = i)) as [Eb|Eb]; auto.
    + destruct Hne0. apply (NoDup_map_eq er_id rs); congruence.
    + destruct (er_globalSequence b0) as [g'|] eqn:E; [|auto]. pose proof (last_global_ge b0 g' rs Hb E). lia.
    + destruct (er_globalSequence a0) as [g'|] eqn:E; [|auto]. pose proof (last_global_ge a0 g' rs Ha E). lia.
Qed.

Lemma unread_synced c r : (ec_globalSequence c <= last_global rs)%Z -> r ∈ rs -> unread c (with_global i g r) = unread c r.
Proof.
  intros Hc Hr. unfold unread. rewrite with_global_global, with_global_commit. destruct (decide _) as [E|]; [|done].
  rewrite (Hi r Hr E). replace (ec_globalSequence c <? g)%Z with true by lia. done.
Qed.

Lemma synced_inv c b done : inv rs c b done -> inv (map (with_global i g) rs) c b done.
Proof.
  intros [Hrs [Hcg Hcp] [Hb Hrow] Hah (Hd & Hsub & Hdone)]. split.
  - by apply rows_ok_synced.
  - rewrite last_commit_map. pose proof (last_global_map i g rs Hi). lia.
  - split; [done|]. intros e He. destruct (Hrow e He) as (r & Hr & (E1 & E2 & E3) & Hu). exists (with_global i g r).
    split; [by apply list_elem_of_fmap_2|]. split; [|by rewrite unread_synced]. unfold row_for.
    rewrite with_global_id, with_global_commit, with_global_global. split; [done|]. split; [done|].
    destruct (decide (er_id r = i)) as [E|]; [|done]. rewrite (Hi r Hr E) in E3. right. by destruct E3.
  - intros l1 e l2 r' Eb (r & -> & Hr)%list_elem_of_fmap Hu Hni. rewrite unread_synced in Hu by done.
    rewrite with_global_id in Hni. pose proof (Hah l1 e l2 r Eb Hr Hu Hni) as Hp. revert Hp. unfold precedes.
    rewrite with_global_global, with_global_commit. destruct (decide (er_id r = i)) as [E|]; [|done].
    destruct (er_globalSequence e) as [g0|] eqn:Ee; [|done]. intros _ g' [= <-].
    destruct (Hrow e) as (re & Hre & (_ & _ & Eg) & _); [rewrite Eb; set_solver|]. destruct Eg as [Eg|?]; [|congruence].
    rewrite Ee in Eg. pose proof (last_global_ge re g0 rs Hre Eg). lia.
  - split; [done|]. rewrite map_with_global_ids. split; [done|].
    intros r' (r & -> & Hr)%list_elem_of_fmap. rewrite with_global_id, unread_synced by done. by apply Hdone.
Qed.
End Synced.

(** *** Runs *)

Lemma begins_inv rs : rows_ok rs -> inv rs ZERO_EFFECTIVE_CURSOR [] [].
Proof.
  intros Hrs. pose proof (last_nonneg rs) as [? ?]. split; [done|simpl; lia| | |].
  - split; [constructor|]. by intros e He%elem_of_nil.
  - intros l1 e l2 r E. by destruct l1.
  - split; [constructor|]. split; [constructor|]. intros r Hr.
    destruct (proj1 (Forall_forall _ _) (rows_positive _ Hrs) r Hr) as [Hc Hg].
    split; [by intros Hn%elem_of_nil|]. unfold unread. simpl.
    destruct (er_globalSequence r) as [g|]; [specialize (Hg g eq_refl)|]; lia.
Qed.

Lemma inv_no_batch rs c b done : inv rs c b done -> inv rs c [] done.
Proof.
  intros [H1 H2 _ _ H5]. split; [done..| | |done].
  - split; [constructor|]. by intros e He%elem_of_nil.
  - intros l1 e l2 r E. by destruct l1.
Qed.

Lemma changes_inv rs rs' c b done : changes rs rs' -> inv rs c b done -> inv rs' c b done.
Proof. intros [r ? ? ?|i g ? ?] ?; [by apply append_inv|by apply synced_inv]. Qed.

(** With one loop: [old] are the events of earlier processes that the cursor
    accounts for, [kept] those of this process that the stored one does. *)
Record alone (n : nat) (s : system) (l : loop) (old kept : list string) : Prop := {
  al_loop : loops s = [l];
  al_cursor : inv (rows s) (cursor s) (batch l) (old ++ since s);
  al_stored : inv (rows s) (stored s) [] (old ++ kept);
  al_since : since s = kept ++ unsaved s;
  al_old : forall i, i ∈ old -> i ∈ before s;
  al_before : forall i, i ∈ before s -> i ∈ old \/ i ∈ lost s;
  al_size : length (batch l) <= n /\
    length (unsaved s) + (if l is Applying b then length b else 0) <= n
}.

Lemma alone_one {n s l old kept l1 x l2} : alone n s l old kept -> loops s = l1 ++ x :: l2 -> l1 = [] /\ l2 = [] /\ x = l.
Proof. intros H E. rewrite (al_loop _ _ _ _ _ H) in E. destruct l1 as [|y [|z l1]]; simplify_eq/=. done. Qed.

Lemma save_alone n s l l' old kept : alone n s l old kept -> length (batch l') <= n ->
  inv (rows s) (cursor s) (batch l') (old ++ since s) ->
  alone n (save (with_loops [l'] s)) l' old (since s).
Proof.
  intros [H1 H2 H3 H4 H5 H6 [H7 H8]] Hl Hi. split; simpl; try done.
  - by eapply inv_no_batch.
  - by rewrite app_nil_r.
  - destruct l'; simpl in *; lia.
Qed.

Lemma step_alone n s s' l old kept : step n s s' -> alone n s l old kept ->
  exists l' old' kept', alone n s' l' old' kept'.
Proof.
  intros [s0 rs Hch|s0 l1 l2 E|s0 l1 b l2 E|s0 l1 e b l2 E|s0 l1 l2 E|s0 l1 l0 l2 E|s0] H;
    try (destruct (alone_one H E) as (-> & -> & <-)); pose proof H as [H1 H2 H3 H4 H5 H6 [H7 H8]].
  - exists l, old, kept. split; simpl; try done; by eapply changes_inv.
  - exists (HasRead (query n (rows s0) (cursor s0))), old, kept. split; simpl; try done; [by apply read_inv|].
    split; [|done]. unfold query. rewrite length_take. lia.
  - exists (Applying b), old, (since s0). by apply (save_alone n s0 (HasRead b)  _ old kept).
  - exists (Applying b), old, kept. simpl in *. split; simpl; try done.
    + rewrite app_assoc. by apply apply_inv.
    + by rewrite H4, app_assoc.
    + rewrite length_app. simpl. lia.
  - exists Fresh, old, (since s0). apply (save_alone n s0 (Applying []) _ old kept); simpl; [done|lia|done].
  - exists Fresh, old, kept. split; simpl; try done; [by eapply inv_no_batch|]. destruct l0; simpl in *; lia.
  - exists Fresh, (old ++ kept), []. split; simpl; rewrite ?app_nil_r; try done.
    + by rewrite H1.
    + rewrite H4. set_solver.
    + rewrite H4. set_solver.
    + simpl. lia.
Qed.

Lemma steps_alone n rs s : rows_ok rs -> steps n (begins 1 rs) s -> exists l old kept, alone n s l old kept.
Proof.
  intros Hrs. induction 1 as [|s1 s2 _ (l & old & kept & H) Hst]; [|by eapply step_alone].
  exists Fresh, [], []. split; simpl; try done; [by apply begins_inv..|set_solver|lia].
Qed.

Lemma steps_cons n s1 s2 s3 : step n s1 s2 -> steps n s2 s3 -> steps n s1 s3.
Proof.
  intros H12. induction 1 as [|s s' _ IH H]; [eapply steps_step; [apply steps_refl|done]|by eapply steps_step].
Qed.

Lemma query_one n r : 0 < n -> rows_ok [r] -> query n [r] ZERO_EFFECTIVE_CURSOR = [r].
Proof.
  intros Hn Hrs. destruct (proj1 (Forall_forall _ _) (rows_positive _ Hrs) r) as [Hc Hg]; [set_solver|].
  unfold query. change (merge_sort effective_le [r]) with [r].
  rewrite filter_cons_True; [destruct n as [|n']; [lia|]; simpl; f_equal; apply take_nil|].
  unfold unread. simpl. destruct (er_globalSequence r) as [g|]; [specialize (Hg g eq_refl)|]; lia.
Qed.

Lemma query_nil n rs c r : 0 < n -> query n rs c = [] -> r ∈ rs -> unread c r = false.
Proof.
  intros Hn Hq Hr. apply not_true_iff_false. intros Hu.
  assert (r ∈ filter (fun r => unread c r = true) (merge_sort effective_le rs)) as Hin by (by apply query_elem).
  unfold query in Hq. destruct (filter _ _) as [|x l]; [by apply elem_of_nil in Hin|]. by destruct n; [lia|].
Qed.

End InterleavedLemmas.

Module ProjectionRuntimeProperties.
Import OrderLemmas RuntimeLemmas.

(** C21: Catching up: when no rebuild is pending, with enough fuel (more than there are
    events left) and whatever the batch size, [flush] ends, has applied exactly the events
    after the stored position, each once and in effective total order, leaves none, and has
    stored its position with the phase [idle]; it does not touch the event tables. *)
Theorem flush_catches_up {W A : Type} (tables : W -> local_db) (P : ProjectionProcessor W) ty batchSize now
    (R : W -> A -> Prop) usable f nothing good fuel a (r : runtime W) :
  Projects tables P R usable f nothing good -> 0 < batchSize -> pendingRebuild r = false ->
  tables_ok (tables (world r)) -> R (world r) a -> Forall good (left_over tables ty r) ->
  length (left_over tables ty r) < fuel ->
  exists r', flush tables P ty batchSize now fuel r = (Ok (Some tt), r') /\
    R (world r') (fold_left f (left_over tables ty r) a) /\
    left_over tables ty r' = [] /\ tables (world r') = tables (world r) /\ stored_idle P now r'.
Proof.
  intros HP Hb Hr Hok Hi Hg Hf.
  destruct (flush_steps tables P ty batchSize now R usable f nothing good HP Hb fuel a r Hr Hok Hi Hg Hf)
    as (r' & E & [Ht Hs Hl] & Hst).
  by exists r'.
Qed.

(** Rebuilding is a function of the events: whatever the projection showed before, and
    wherever its cursor was, [onRebaseRequired] ends with what it shows being the fold of
    the event step over all events of its type in effective total order (synced ones by
    global sequence, then pending ones by commit sequence), from nothing. *)
Theorem rebuild_is_replay {W A : Type} (tables : W -> local_db) (P : ProjectionProcessor W) ty batchSize now
    (R : W -> A -> Prop) usable f nothing good fuel (r : runtime W) :
  Projects tables P R usable f nothing good -> 0 < batchSize -> tables_ok (tables (world r)) -> usable (world r) ->
  Forall good (effective_rows ty (tables (world r))) -> length (effective_rows ty (tables (world r))) < fuel ->
  exists r', onRebaseRequired tables P ty batchSize now fuel r = (Ok (Some tt), r') /\
    R (world r') (fold_left f (effective_rows ty (tables (world r))) nothing) /\
    left_over tables ty r' = [] /\ tables (world r') = tables (world r) /\ stored_idle P now r'.
Proof. intros HP Hb Hok Hu Hg Hf. eapply rebuild_catches_up; eauto. Qed.

Import Interleaved InterleavedLemmas.

(** C22: How often an event is applied. With one loop at a time and no rebuild, however the
    awaits of a batch interleave with new local events, new remote ones, pending ones
    becoming synced, calls that throw and restarts at any point: within a process no event
    is applied twice (an [applyEvent] that returned is never called again), an event that an
    earlier process applied is applied again only if that process ended before its cursor
    was stored, at most one batch of them, and when a read finds nothing every event of the
    tables has been applied. Both exceptions occur: a restart within a batch applies an
    event again, and so does a second loop on the same cursor ([start] runs its loop outside
    the task runner). *)
Theorem applied_exactly_once (n : nat) (rs : list EventRecord) :
  0 < n -> rows_ok rs ->
  (forall s, steps n (begins 1 rs) s ->
    NoDup (since s) /\
    (forall i, i ∈ since s -> i ∈ before s -> i ∈ lost s) /\
    length (unsaved s) <= n /\
    (query n (rows s) (cursor s) = [] ->
      forall r, r ∈ rows s -> er_id r ∈ before s ++ since s)) /\
  (forall r, rs = [r] ->
    (exists s, steps n (begins 1 rs) s /\
      before s = [er_id r] /\ since s = [er_id r]) /\
    (exists s, steps n (begins 2 rs) s /\
      before s = [] /\ since s = [er_id r; er_id r])).
Proof.
  intros Hn Hrs. split.
  - intros s Hs. destruct (steps_alone n rs s Hrs Hs) as (l & old & kept & [_ Hc _ _ Ho Hb [_ Hz]]).
    destruct (inv_done _ _ _ _ Hc) as (Hd & _ & Hdone).
    apply NoDup_app in Hd as (_ & Hno & Hd). split; [done|]. split; [|split; [destruct l; lia|]].
    + intros i Hi Hbi. destruct (Hb i Hbi) as [Hio|Hl]; [by destruct (Hno i Hio)|done].
    + intros Hq r Hr. assert (er_id r ∈ old ++ since s) as Hin.
      { apply Hdone; [done|]. by eapply query_nil. }
      apply elem_of_app in Hin as [Hin|Hin]; apply elem_of_app; [left; by apply Ho|by right].
  - intros r ->. pose proof (query_one n r Hn Hrs) as Hq.
    split; eexists; (split; [|split]).
    + eapply steps_cons; [by apply (step_read n _ [] [])|]. simpl. rewrite Hq.
      eapply steps_cons; [by apply (step_phase n _ [] [r] [])|].
      eapply steps_cons; [by apply (step_apply n _ [] r [] [])|].
      eapply steps_cons; [apply step_restart|].
      eapply steps_cons; [by apply (step_read n _ [] [])|]. simpl. rewrite Hq.
      eapply steps_cons; [by apply (step_phase n _ [] [r] [])|].
      eapply steps_cons; [by apply (step_apply n _ [] r [] [])|apply steps_refl].
    + reflexivity.
    + reflexivity.
    + eapply steps_cons; [by apply (step_read n _ [] [Fresh])|]. simpl. rewrite Hq.
      eapply steps_cons; [by apply (step_read n _ [HasRead [r]] [])|]. simpl. rewrite Hq.
      eapply steps_cons; [by apply (step_phase n _ [] [r] [HasRead [r]])|].
      eapply steps_cons; [by apply (step_phase n _ [Applying [r]] [r] [])|].
      eapply steps_cons; [by apply (step_apply n _ [] r [] [Applying [r]])|].
      eapply steps_cons; [by apply (step_apply n _ [Applying []] r [] [])|apply steps_refl].
    + reflexivity.
    + reflexivity.
Qed.

End ProjectionRuntimeProperties.

(** ** Witnesses *)

Module ProjectionRuntimeWitnesses.
Import OrderLemmas RuntimeLemmas ProjectionRuntimeProperties.

Definition row (c : Z) (i : string) : EventRow :=
  Stored c (EventCols i "goal" "g" "GoalRefined" [] c (num 0) None None None None None None None None None None None).

(** Two synced events, whose commits are not in global order, and a pending one. *)
Definition db_1 : local_db :=
  Db [row 1 "a"; row 2 "b"; row 3 "c"] 4 [] [Mapped "a" 20 0; Mapped "b" 10 0] ∅.

(** A processor that keeps the ids it was given. *)
Definition logger : ProjectionProcessor (local_db * list string) := Processor "log" effectiveTotalOrder
  (fun _ _ => skip)
  (fun e _ _ w => (Ok true, (w.1, w.2 ++ [er_id e])))
  (fun _ => skip)
  (fun w => (Ok tt, (w.1, []))).

Definition logged (w : local_db * list string) (l : list string) : Prop := snd w = l.
Notation log := (fun l e => l ++ [er_id e]).

Lemma logger_projects : Projects fst logger logged (fun _ => True) log [] (fun _ => True).
Proof.
  split; [done|..].
  - intros e c n w a <- _. by exists true, (w.1, w.2 ++ [er_id e]).
  - intros i w a Ha. by exists w.
  - intros w _. by exists (w.1, []).
Defined.

Lemma runtime_db_ok : tables_ok db_1.
Proof.
  split; [split|..]; apply (bool_decide_unpack _); vm_compute; exact I.
Defined.

(** A cursor in the middle: the event of global sequence 10 has been applied. *)
Definition half_way : runtime (local_db * list string) :=
  Runtime (db_1, ["b"]) [] true true true false (CursorAt (Effective 10 0) 2).

Lemma flush_catches_up_witness :
  exists r', flush fst logger "goal" 1 (num 0) 9 half_way = (Ok (Some tt), r') /\
    logged (world r') (fold_left log (left_over fst "goal" half_way) ["b"]) /\
    left_over fst "goal" r' = [] /\ fst (world r') = db_1 /\ stored_idle logger (num 0) r'.
Proof.
  apply (flush_catches_up fst logger "goal" 1 (num 0) logged (fun _ => True) log [] (fun _ => True)
    9 ["b"] half_way logger_projects); [lia|reflexivity|exact runtime_db_ok|reflexivity|vm_compute; repeat constructor|].
  vm_compute. lia.
Defined.

Lemma rebuild_is_replay_witness :
  exists r', onRebaseRequired fst logger "goal" 2 (num 0) 9 half_way = (Ok (Some tt), r') /\
    logged (world r') (fold_left log (effective_rows "goal" db_1) []) /\
    left_over fst "goal" r' = [] /\ fst (world r') = db_1 /\ stored_idle logger (num 0) r'.
Proof.
  apply (rebuild_is_replay fst logger "goal" 2 (num 0) logged (fun _ => True) log [] (fun _ => True)
    9 half_way logger_projects); [lia|exact runtime_db_ok|exact I|vm_compute; repeat constructor|].
  vm_compute. lia.
Defined.

(** The order of the replay: global sequence 10, then 20, then the pending event. *)
Example rebuild_order : map er_id (effective_rows "goal" db_1) = ["b"; "a"; "c"].
Proof. vm_compute. reflexivity. Qed.

Definition lone : EventRecord := Record_ "a" "g" "GoalRefined" [] 1 (num 0) None None None 1 None.

(** A run that restarts after it has applied the event and applies it again. *)
Lemma applied_exactly_once_witness :
  exists s, Interleaved.steps 250 (Interleaved.begins 1 [lone]) s /\
    Interleaved.since s = ["a"] /\ Interleaved.before s = ["a"] /\ "a" ∈ Interleaved.lost s.
Proof.
  destruct (applied_exactly_once 250 [lone]) as [Hone Htwo]; [lia| |].
  - split.
    + apply NoDup_singleton.
    + constructor; [|constructor]. split; [simpl; lia|done].
    + intros a b ->%list_elem_of_singleton ->%list_elem_of_singleton H. by destruct H.
  - destruct (Htwo lone eq_refl) as [(s & Hs & Hb & Hi) _]. exists s. split; [exact Hs|]. split; [exact Hi|].
    split; [exact Hb|]. apply (Hone s Hs); [rewrite Hi|rewrite Hb]; by constructor.
Defined.

End ProjectionRuntimeWitnesses.
