(* ===== verification/ReadModels.v ===== *)
(** * The pure part of the read models

    - [packages/infrastructure/src/goals/projections/model/GoalProjectionState.ts]
      (Module [GoalProjectionState]): one event applied to a goal's snapshot, the
      changes of the totals it causes, and the list item shown;
    - [goals/derived-state/GoalAnalyticsState.ts] and the delta application of
      [GoalAnalyticsProjector.ts] (Module [GoalAnalytics]);
    - [projects/projections/model/ProjectProjectionState.ts] (Module
      [ProjectProjectionState]).

    The objects of totals are association lists in JavaScript's property order:
    array indices in ascending order, then the other keys as they were added. *)

From S2P Require Import Prelude JsValues JsonText ValueObjects Dates AggregateRoot Goal Project Snapshots Samples.
From Stdlib Require Import Ascii.

(** ** JavaScript objects used as maps *)

Module JsObject.

(** A key that is an array index: the decimal text of an integer below 2^32 - 1. *)
Definition is_index (k : string) : bool :=
  forallb is_digit (chars k) && bool_decide (string_of_Z (dec_value 0 k) = k) && (dec_value 0 k <? 2 ^ 32 - 1)%Z.

(** A new key [k] goes before the key [x]. *)
Definition goes_before (k x : string) : bool :=
  is_index k && (negb (is_index x) || (dec_value 0 k <? dec_value 0 x)%Z).

Section Objects.
Context {V : Type}.

Fixpoint add_key (k : string) (v : V) (o : list (string * V)) : list (string * V) :=
  match o with
  | [] => [(k, v)]
  | (x, w) :: o' => if goes_before k x then (k, v) :: o else (x, w) :: add_key k v o'
  end.

(** [o[k] = v] *)
Definition set_key (k : string) (v : V) (o : list (string * V)) : list (string * V) :=
  match assoc k o with
  | Some _ => map_set k v o
  | None => add_key k v o
  end.

(** [delete o[k]] *)
Definition delete_key (k : string) (o : list (string * V)) : list (string * V) :=
  filter (fun kw => kw.1 <> k) o.

Lemma assoc_add_key k v k' o : assoc k o = None ->
  assoc k' (add_key k v o) = if decide (k' = k) then Some v else assoc k' o.
Proof.
  induction o as [|[x w] o IH]; simpl; intros Hk; [done|]. destruct (decide (k = x)) as [|Hne]; [done|].
  destruct (goes_before k x); simpl; [done|]. rewrite IH by done.
  destruct (decide (k' = x)), (decide (k' = k)); congruence.
Qed.

Lemma assoc_set_key k v k' o : assoc k' (set_key k v o) = if decide (k' = k) then Some v else assoc k' o.
Proof.
  unfold set_key. destruct (assoc k o) as [u|] eqn:E; [|by apply assoc_add_key].
  destruct (decide (k' = k)) as [->|Hne]; [apply (map_get_set_eq k)|by apply (map_get_set_ne k k')].
Qed.

Lemma assoc_delete_key k k' o : assoc k' (delete_key k o) = if decide (k' = k) then None else assoc k' o.
Proof.
  unfold delete_key. induction o as [|[x w] o IH]; [by destruct (decide _)|]. rewrite filter_cons. simpl fst.
  destruct (decide (x = k)) as [->|Hx]; [rewrite decide_False by tauto|rewrite decide_True by done; simpl];
    rewrite IH; simpl; repeat case_decide; simplify_eq; done.
Qed.

Lemma assoc_elem k (v : V) o : assoc k o = Some v -> (k, v) ∈ o.
Proof.
  induction o as [|[x w] o IH]; simpl; [done|]. destruct (decide (k = x)) as [->|]; [intros [= ->]; constructor|].
  intros Hk. constructor. by apply IH.
Qed.

Lemma assoc_none k (o : list (string * V)) : assoc k o = None <-> k ∉ o.*1.
Proof.
  induction o as [|[x w] o IH]; csimpl; [set_solver|]. destruct (decide (k = x)) as [->|]; [set_solver|].
  rewrite IH. set_solver.
Qed.

Lemma add_key_perm k v o : add_key k v o ≡ₚ (k, v) :: o.
Proof.
  induction o as [|[x w] o IH]; simpl; [done|]. destruct (goes_before k x); [done|]. rewrite IH. constructor.
Qed.

Lemma set_key_NoDup k (v : V) o : NoDup o.*1 -> NoDup (set_key k v o).*1.
Proof.
  intros Ho. unfold set_key. destruct (assoc k o) eqn:E; [by apply map_set_NoDup|]. rewrite add_key_perm. csimpl.
  constructor; [by apply assoc_none|done].
Qed.

Lemma set_key_Forall (P : string * V -> Prop) k v o : Forall P o -> P (k, v) -> Forall P (set_key k v o).
Proof.
  intros Ho Hk. unfold set_key. destruct (assoc k o); [|rewrite add_key_perm; by constructor].
  induction Ho as [|[x w] o Hx Ho IH]; simpl; [by constructor|]. destruct (decide (k = x)) as [->|]; by constructor.
Qed.

Lemma delete_key_NoDup k (o : list (string * V)) : NoDup o.*1 -> NoDup (delete_key k o).*1.
Proof. apply NoDup_map_filter. Qed.

Lemma delete_key_Forall (P : string * V -> Prop) k o : Forall P o -> Forall P (delete_key k o).
Proof. unfold delete_key. rewrite !Forall_forall. intros H x [_ Hx]%list_elem_of_filter. auto. Qed.

End Objects.
End JsObject.

(** ** [Number(s)] *)

(** The grammar of numeric strings: decimals, [Infinity], and the unsigned
    hexadecimal, octal and binary forms; a decimal is kept exact. *)
Definition radix_value (base : Z) (l : list ascii) : option Z :=
  let digit c := if is_digit c then (code c - 48)%Z
    else if in_range 97 102 c then (code c - 87)%Z else if in_range 65 70 c then (code c - 55)%Z else 99%Z in
  match l with
  | [] => None
  | _ => if forallb (fun c => digit c <? base)%Z l then Some (fold_left (fun acc c => acc * base + digit c)%Z l 0%Z) else None
  end.

Definition decimal_value (l : list ascii) : option number :=
  let '(d, l) := span_digits l in
  let '(f, l) := match l with "."%char :: l' => span_digits l' | _ => ([], l) end in
  match d, f with
  | [], [] => None
  | _, _ =>
      match parse_exponent l with
      | Some (e, []) =>
          let m := dec_value 0 (of_chars (d ++ f)) in
          let k := Z.of_nat (length f) in
          Some (Dec (m * 10 ^ Z.max 0 (e - k)) (Z.to_nat (k - e)))
      | _ => None
      end
  end.

Definition negate (n : number) : number :=
  match n with Dec m k => Dec (- m) k | NaN => NaN | Infty b => Infty (negb b) end.

Definition unsigned_value (l : list ascii) : number :=
  if bool_decide (of_chars l = "Infinity") then Infty false else default NaN (decimal_value l).

Definition Number (s : string) : number :=
  let radix base l := match radix_value base l with Some z => num z | None => NaN end in
  match chars (trim s) with
  | [] => num 0
  | "0"%char :: ("x"%char | "X"%char) :: l => radix 16%Z l
  | "0"%char :: ("o"%char | "O"%char) :: l => radix 8%Z l
  | "0"%char :: ("b"%char | "B"%char) :: l => radix 2%Z l
  | "-"%char :: l => negate (unsigned_value l)
  | "+"%char :: l => unsigned_value l
  | l => unsigned_value l
  end.

(** [v + 1] *)
Definition num_succ (n : number) : number :=
  match n with Dec m k => Dec (m + 10 ^ Z.of_nat k) k | _ => n end.

(** The truth value of a nullable string. *)
Definition truthy (s : option string) : bool :=
  match s with Some s => negb (strlen s =? 0)%Z | None => false end.

(** ** Goals *)

Module GoalProjectionState.
Import Goal GoalSnapshotCodec.

Record GoalListItem : Type := GoalItem {
  gi_id : string;
  gi_summary : string;
  gi_slice : string;
  gi_priority : string;
  gi_targetMonth : string;
  gi_createdAt : number;
  gi_achievedAt : option number;
  gi_archivedAt : option number;
  gi_version : number
}.

(** [{...current, summary, version}] and so on: a snapshot with one field and
    the version changed. *)
Definition with_summary (x : string) (v : number) (s : GoalSnapshotState) : GoalSnapshotState :=
  GoalSnap (gs_id s) x (gs_slice s) (gs_priority s) (gs_targetMonth s) (gs_createdBy s) (gs_createdAt s)
    (gs_achievedAt s) (gs_archivedAt s) v.
Definition with_slice (x : string) (v : number) (s : GoalSnapshotState) : GoalSnapshotState :=
  GoalSnap (gs_id s) (gs_summary s) x (gs_priority s) (gs_targetMonth s) (gs_createdBy s) (gs_createdAt s)
    (gs_achievedAt s) (gs_archivedAt s) v.
Definition with_priority (x : string) (v : number) (s : GoalSnapshotState) : GoalSnapshotState :=
  GoalSnap (gs_id s) (gs_summary s) (gs_slice s) x (gs_targetMonth s) (gs_createdBy s) (gs_createdAt s)
    (gs_achievedAt s) (gs_archivedAt s) v.
Definition with_targetMonth (x : string) (v : number) (s : GoalSnapshotState) : GoalSnapshotState :=
  GoalSnap (gs_id s) (gs_summary s) (gs_slice s) (gs_priority s) x (gs_createdBy s) (gs_createdAt s)
    (gs_achievedAt s) (gs_archivedAt s) v.
Definition with_achievedAt (x : option number) (v : number) (s : GoalSnapshotState) : GoalSnapshotState :=
  GoalSnap (gs_id s) (gs_summary s) (gs_slice s) (gs_priority s) (gs_targetMonth s) (gs_createdBy s) (gs_createdAt s)
    x (gs_archivedAt s) v.
Definition with_archivedAt (x : option number) (v : number) (s : GoalSnapshotState) : GoalSnapshotState :=
  GoalSnap (gs_id s) (gs_summary s) (gs_slice s) (gs_priority s) (gs_targetMonth s) (gs_createdBy s) (gs_createdAt s)
    (gs_achievedAt s) x v.
Definition with_version (v : number) (s : GoalSnapshotState) : GoalSnapshotState :=
  with_achievedAt (gs_achievedAt s) v s.

Definition applyEventToSnapshot (current : option GoalSnapshotState) (e : payload_t) (v : number)
    : option GoalSnapshotState :=
  match e with
  | GoalCreated g sl su tm pr cb ca =>
      Some (GoalSnap (value g) (value su) (Slice.val sl) (Priority.val pr) (Month.value tm) (value cb)
        (Timestamp.millis ca) None None v)
  | GoalRefined _ su _ => with_summary (value su) v <$> current
  | GoalRecategorized _ sl _ => with_slice (Slice.val sl) v <$> current
  | GoalRescheduled _ tm _ => with_targetMonth (Month.value tm) v <$> current
  | GoalPrioritized _ pr _ => with_priority (Priority.val pr) v <$> current
  | GoalAchieved _ t => with_achievedAt (Some (Timestamp.millis t)) v <$> current
  | GoalUnachieved _ _ => with_achievedAt None v <$> current
  | GoalArchived _ t => with_archivedAt (Some (Timestamp.millis t)) v <$> current
  | GoalAccessGranted _ _ _ _ | GoalAccessRevoked _ _ _ => with_version v <$> current
  end.

(** [previousSnapshot ? previousSnapshot.version + 1 : 1] of the projector. *)
Definition next_version (previous : option GoalSnapshotState) : number :=
  match previous with Some s => num_succ (gs_version s) | None => num 1 end.

Definition snapshotToListItem (s : GoalSnapshotState) : GoalListItem :=
  GoalItem (gs_id s) (gs_summary s) (gs_slice s) (gs_priority s) (gs_targetMonth s) (gs_createdAt s)
    (gs_achievedAt s) (gs_archivedAt s) (gs_version s).

Record MonthlyDelta : Type := Monthly { md_yearMonth : string; md_slice : string; md_delta : Z }.
Record CategoryDelta : Type := Category { cd_year : number; cd_slice : string; cd_delta : Z }.
Record AnalyticsDelta : Type := Deltas {
  monthly : list MonthlyDelta;
  category : list CategoryDelta
}.

(** The text before the first hyphen. *)
Fixpoint before_hyphen (l : list ascii) : list ascii :=
  match l with
  | [] => []
  | c :: l' => if is_char "-" c then [] else c :: before_hyphen l'
  end.
Definition parseYear (targetMonth : string) : number :=
  let parsed := Number (of_chars (before_hyphen (chars targetMonth))) in
  if isFinite parsed then parsed else num 0.

(** [x && x.archivedAt === null] *)
Definition active (s : GoalSnapshotState) : bool :=
  match gs_archivedAt s with None => true | Some _ => false end.
Definition when_active (f : GoalSnapshotState -> string) (s : option GoalSnapshotState) : option string :=
  match s with Some s => if active s then Some (f s) else None | None => None end.

Definition delta_of (m sl : option string) (d : Z) : AnalyticsDelta :=
  match m, sl with
  | Some m, Some sl => Deltas [Monthly m sl d] [Category (parseYear m) sl d]
  | _, _ => Deltas [] []
  end.

Definition buildAnalyticsDeltas (previous next : option GoalSnapshotState) : AnalyticsDelta :=
  let prevMonth := when_active gs_targetMonth previous in
  let nextMonth := when_active gs_targetMonth next in
  let prevSlice := when_active gs_slice previous in
  let nextSlice := when_active gs_slice next in
  let differ := negb (bool_decide (prevMonth = nextMonth)) || negb (bool_decide (prevSlice = nextSlice)) in
  let removed := if truthy prevMonth && truthy prevSlice && (negb (truthy nextMonth) || differ)
    then delta_of prevMonth prevSlice (-1) else Deltas [] [] in
  let added := if truthy nextMonth && truthy nextSlice && (negb (truthy prevMonth) || differ)
    then delta_of nextMonth nextSlice 1 else Deltas [] [] in
  Deltas (monthly removed ++ monthly added) (category removed ++ category added).

End GoalProjectionState.

(** ** Totals *)

Module GoalAnalytics.
Import JsObject GoalProjectionState.

(** An object of objects of counts. *)
Definition totals : Type := list (string * list (string * Z)).

Record AnalyticsPayload : Type := Analytics {
  monthlyTotals : totals;
  categoryRollups : totals
}.

Definition createEmptyAnalytics : AnalyticsPayload := Analytics [] [].

(** [applyMonthlyDelta]; [applyCategoryDelta] is the same with the year as the key. *)
Definition applyDelta (t : totals) (k sl : string) (delta : Z) : totals :=
  let bucket := default [] (assoc k t) in
  let nextValue := (default 0 (assoc sl bucket) + delta)%Z in
  let nextBucket := if (nextValue =? 0)%Z then delete_key sl bucket else set_key sl nextValue bucket in
  match nextBucket with
  | [] => delete_key k t
  | _ => set_key k nextBucket t
  end.

(** A number as a property key. *)
Definition property_key (n : number) : string := of_chars (print_number n).

Definition applyMonthlyDelta (t : totals) (yearMonth sl : string) (delta : Z) : totals :=
  applyDelta t yearMonth sl delta.
Definition applyCategoryDelta (t : totals) (year : number) (sl : string) (delta : Z) : totals :=
  applyDelta t (property_key year) sl delta.

Definition applyAnalyticsDeltas (a : AnalyticsPayload) (d : AnalyticsDelta) : AnalyticsPayload :=
  Analytics
    (fold_left (fun t m => applyMonthlyDelta t (md_yearMonth m) (md_slice m) (md_delta m)) (monthly d) (monthlyTotals a))
    (fold_left (fun t c => applyCategoryDelta t (cd_year c) (cd_slice c) (cd_delta c)) (category d) (categoryRollups a)).

End GoalAnalytics.

(** ** Projects *)

Module ProjectProjectionState.
Import Project ProjectSnapshotCodec.

(** A list item: the snapshot without its creator. *)
Record ProjectListItem : Type := ProjectItem {
  pi_id : string;
  pi_name : string;
  pi_status : string;
  pi_startDate : string;
  pi_targetDate : string;
  pi_description : string;
  pi_goalId : option string;
  pi_milestones : list ProjectMilestoneState;
  pi_createdAt : number;
  pi_updatedAt : number;
  pi_archivedAt : option number;
  pi_version : option number
}.

(** [{...snapshot, updatedAt, version}] *)
Definition touch (t : Timestamp.t) (v : number) (s : ProjectSnapshotState) : ProjectSnapshotState :=
  ProjectSnap (ps_id s) (ps_name s) (ps_status s) (ps_startDate s) (ps_targetDate s) (ps_description s) (ps_goalId s)
    (ps_milestones s) (ps_createdBy s) (ps_createdAt s) (Timestamp.millis t) (ps_archivedAt s) (Some v).
Definition with_name (x : string) (s : ProjectSnapshotState) : ProjectSnapshotState :=
  ProjectSnap (ps_id s) x (ps_status s) (ps_startDate s) (ps_targetDate s) (ps_description s) (ps_goalId s)
    (ps_milestones s) (ps_createdBy s) (ps_createdAt s) (ps_updatedAt s) (ps_archivedAt s) (ps_version s).
Definition with_status (x : string) (s : ProjectSnapshotState) : ProjectSnapshotState :=
  ProjectSnap (ps_id s) (ps_name s) x (ps_startDate s) (ps_targetDate s) (ps_description s) (ps_goalId s)
    (ps_milestones s) (ps_createdBy s) (ps_createdAt s) (ps_updatedAt s) (ps_archivedAt s) (ps_version s).
Definition with_dates (sd td : string) (s : ProjectSnapshotState) : ProjectSnapshotState :=
  ProjectSnap (ps_id s) (ps_name s) (ps_status s) sd td (ps_description s) (ps_goalId s)
    (ps_milestones s) (ps_createdBy s) (ps_createdAt s) (ps_updatedAt s) (ps_archivedAt s) (ps_version s).
Definition with_description (x : string) (s : ProjectSnapshotState) : ProjectSnapshotState :=
  ProjectSnap (ps_id s) (ps_name s) (ps_status s) (ps_startDate s) (ps_targetDate s) x (ps_goalId s)
    (ps_milestones s) (ps_createdBy s) (ps_createdAt s) (ps_updatedAt s) (ps_archivedAt s) (ps_version s).
Definition with_goalId (x : option string) (s : ProjectSnapshotState) : ProjectSnapshotState :=
  ProjectSnap (ps_id s) (ps_name s) (ps_status s) (ps_startDate s) (ps_targetDate s) (ps_description s) x
    (ps_milestones s) (ps_createdBy s) (ps_createdAt s) (ps_updatedAt s) (ps_archivedAt s) (ps_version s).
Definition with_milestones (l : list ProjectMilestoneState) (s : ProjectSnapshotState) : ProjectSnapshotState :=
  ProjectSnap (ps_id s) (ps_name s) (ps_status s) (ps_startDate s) (ps_targetDate s) (ps_description s) (ps_goalId s)
    l (ps_createdBy s) (ps_createdAt s) (ps_updatedAt s) (ps_archivedAt s) (ps_version s).
Definition with_archivedAt (x : option number) (s : ProjectSnapshotState) : ProjectSnapshotState :=
  ProjectSnap (ps_id s) (ps_name s) (ps_status s) (ps_startDate s) (ps_targetDate s) (ps_description s) (ps_goalId s)
    (ps_milestones s) (ps_createdBy s) (ps_createdAt s) (ps_updatedAt s) x (ps_version s).

(** [milestones.map((m) => m.id === id ? f(m) : m)]: every milestone with the id. *)
Definition update_milestones (i : string) (f : ProjectMilestoneState -> ProjectMilestoneState)
    (s : ProjectSnapshotState) : ProjectSnapshotState :=
  with_milestones (map (fun m => if bool_decide (ms_id m = i) then f m else m) (ps_milestones s)) s.

Definition applyProjectEventToSnapshot (snapshot : option ProjectSnapshotState) (e : payload_t) (v : number)
    : option ProjectSnapshotState :=
  match e with
  | ProjectCreated i n st sd td d g cb ca =>
      Some (ProjectSnap (value i) (value n) (ProjectStatus.val st) (value sd) (value td) (value d) (value <$> g) []
        (value cb) (Timestamp.millis ca) (Timestamp.millis ca) None (Some v))
  | ProjectStatusTransitioned _ st t => touch t v ∘ with_status (ProjectStatus.val st) <$> snapshot
  | ProjectRescheduled _ sd td t => touch t v ∘ with_dates (value sd) (value td) <$> snapshot
  | ProjectRenamed _ n t => touch t v ∘ with_name (value n) <$> snapshot
  | ProjectDescribed _ d t => touch t v ∘ with_description (value d) <$> snapshot
  | ProjectGoalAdded _ g t => touch t v ∘ with_goalId (Some (value g)) <$> snapshot
  | ProjectGoalRemoved _ t => touch t v ∘ with_goalId None <$> snapshot
  | ProjectMilestoneAdded _ m n td t =>
      (fun s => touch t v (with_milestones (ps_milestones s ++ [MilestoneSt (value m) (value n) (value td)]) s)) <$> snapshot
  | ProjectMilestoneRescheduled _ m td t =>
      touch t v ∘ update_milestones (value m) (fun x => MilestoneSt (ms_id x) (ms_name x) (value td)) <$> snapshot
  | ProjectMilestoneRenamed _ m n t =>
      touch t v ∘ update_milestones (value m) (fun x => MilestoneSt (ms_id x) (value n) (ms_targetDate x)) <$> snapshot
  | ProjectMilestoneArchived _ m t =>
      (fun s => touch t v (with_milestones (filter (fun x => ms_id x <> value m) (ps_milestones s)) s)) <$> snapshot
  | ProjectArchived _ t => touch t v ∘ with_archivedAt (Some (Timestamp.millis t)) <$> snapshot
  end.

(** [previousSnapshot ? previousSnapshot.version + 1 : 1]; [undefined + 1] is [NaN]. *)
Definition next_version (previous : option ProjectSnapshotState) : number :=
  match previous with
  | Some s => match ps_version s with Some v => num_succ v | None => NaN end
  | None => num 1
  end.

Definition projectSnapshotToListItem (s : ProjectSnapshotState) : ProjectListItem :=
  ProjectItem (ps_id s) (ps_name s) (ps_status s) (ps_startDate s) (ps_targetDate s) (ps_description s) (ps_goalId s)
    (ps_milestones s) (ps_createdAt s) (ps_updatedAt s) (ps_archivedAt s) (ps_version s).

End ProjectProjectionState.

(** ** Read models agree with the aggregates *)

Module GoalReadLemmas.
Import Goal GoalRuns GoalSnapshotCodec GoalProjectionState.

(** What the projector makes of one more event, and of a history. *)
Definition project_event (current : option GoalSnapshotState) (e : payload_t) : option GoalSnapshotState :=
  applyEventToSnapshot current e (next_version current).
Definition project_history (h : list event) : option GoalSnapshotState :=
  fold_left (fun c e => project_event c (payload e)) h None.

Definition is_created (e : payload_t) : bool := match e with GoalCreated _ _ _ _ _ _ _ => true | _ => false end.

Lemma num_succ_num z : num_succ (num z) = num (z + 1).
Proof. reflexivity. Qed.

Lemma goal_state_of_event (g : Goal.t) s e : GoalProperties.snapshot_of g = Some s -> is_created e = false ->
  exists s', GoalProperties.snapshot_of (bump (set_state (handle e (state g)) g)) = Some s' /\
    project_event (Some (state_of s)) e = Some (state_of s').
Proof.
  unfold GoalProperties.snapshot_of, mbind, option_bind. destruct g as [i [sl su tm pr cb ca ac ar al] un v].
  simpl. intros Hs Hc. destruct su, sl, pr, tm, cb, ca; simplify_eq.
  destruct e; simplify_eq/=; eexists; (split; [reflexivity|]); reflexivity.
Qed.

(** A command adds to the uncommitted events none that creates. *)
Lemma goal_command_emits c g : exists l, uncommitted (run_command c g).2 = uncommitted g ++ l /\
  (l = [] /\ (run_command c g).2 = g \/ exists e, l = [e] /\ is_created (payload e) = false /\
    state (run_command c g).2 = handle (payload e) (state g) /\
    AggregateRoot.id (run_command c g).2 = AggregateRoot.id g /\ version (run_command c g).2 = (version g + 1)%Z).
Proof.
  destruct c; simpl; unfold changeSummary, changeSlice, changeTargetMonth, changePriority,
    achieve, unachieve, archive, grantAccess, revokeAccess, reads, gets, lift_result, mbind, js_bind;
    repeat case_match; simplify_eq/=;
    first [by exists []; split; [by rewrite app_nil_r|left]
          |by eexists [_]; split; [reflexivity|right; eexists; split; [reflexivity|repeat split]]].
Qed.

Lemma goal_command_shown c g s : GoalProperties.snapshot_of g = Some s -> project_history (uncommitted g) = Some (state_of s) ->
  exists s', GoalProperties.snapshot_of (run_command c g).2 = Some s' /\
    project_history (uncommitted (run_command c g).2) = Some (state_of s').
Proof.
  intros Hs Hp. destruct (goal_command_emits c g) as (l & Hl & [(-> & E)|(e & -> & Hc & Hst & Hi & Hv)]).
  - exists s. by rewrite E.
  - destruct (goal_state_of_event g s (payload e) Hs Hc) as (s' & Hs' & Hp'). exists s'. split.
    + rewrite <- Hs'. unfold GoalProperties.snapshot_of. simpl. by rewrite Hst, Hi, Hv.
    + unfold project_history in *. rewrite Hl, fold_left_app, <- Hp'. simpl. f_equal. exact Hp.
Qed.

End GoalReadLemmas.

Module ProjectReadLemmas.
Import Project ProjectRuns ProjectSnapshotCodec ProjectProjectionState.

Definition project_event (current : option ProjectSnapshotState) (e : payload_t) : option ProjectSnapshotState :=
  applyProjectEventToSnapshot current e (next_version current).
Definition project_history (h : list event) : option ProjectSnapshotState :=
  fold_left (fun c e => project_event c (payload e)) h None.

Definition is_created (e : payload_t) : bool := match e with ProjectCreated _ _ _ _ _ _ _ _ _ => true | _ => false end.

(** With distinct ids, changing every milestone with an id is changing the first. *)
Lemma update_states_other i f l : i ∉ m_id <$> l ->
  map (fun m => if bool_decide (ms_id m = value i) then f m else m) (map milestone_state l) = map milestone_state l.
Proof.
  induction l as [|m l IH]; [done|]. csimpl. intros [Hm Hl]%not_elem_of_cons. rewrite IH by done.
  case_bool_decide as E; [|done]. destruct Hm. symmetry. by apply vo_eq.
Qed.

Lemma update_states i f f' l : NoDup (m_id <$> l) -> (forall m, milestone_state (f m) = f' (milestone_state m)) ->
  map milestone_state (update_first i f l) =
  map (fun m => if bool_decide (ms_id m = value i) then f' m else m) (map milestone_state l).
Proof.
  intros Hn Hf. induction l as [|m l IH]; [done|]. csimpl in Hn. apply NoDup_cons in Hn as [Hm Hn]. simpl.
  destruct (equals (m_id m) i) eqn:E.
  - apply equals_spec in E. subst i. rewrite bool_decide_true by done. simpl. rewrite Hf. f_equal.
    symmetry. by apply update_states_other.
  - rewrite bool_decide_false; [simpl; by rewrite IH|]. intros Hv.
    assert (equals (m_id m) i = true) as Ht by (by apply equals_spec, vo_eq). congruence.
Qed.

Lemma filter_states i l :
  map milestone_state (filter (fun x => negb (equals (m_id x) i) = true) l) =
  filter (fun x => ms_id x <> value i) (map milestone_state l).
Proof.
  induction l as [|m l IH]; [done|]. csimpl. rewrite !filter_cons. destruct (equals (m_id m) i) eqn:E; simpl.
  - apply equals_spec in E. subst i. rewrite (decide_False (P := _ <> _)) by tauto. exact IH.
  - rewrite decide_True; [by rewrite <- IH|]. simpl. intros Hv.
    assert (equals (m_id m) i = true) as Ht by (by apply equals_spec, vo_eq). congruence.
Qed.

Lemma project_state_of_event (p : Project.t) s e fs : ProjectProperties.snapshot_of p = Some s -> is_created e = false ->
  NoDup (m_id <$> milestones (state p)) -> handle e (state p) = Ok fs ->
  exists s', ProjectProperties.snapshot_of (bump (set_state fs p)) = Some s' /\
    project_event (Some (state_of s)) e = Some (state_of s').
Proof.
  unfold ProjectProperties.snapshot_of, mbind, option_bind. destruct p as [i [n st sd td d g ms cb ca ua ar] un v].
  simpl. intros Hs Hc Hn Hh. destruct n, st, sd, td, d, cb, ca, ua; simplify_eq.
  destruct e; simplify_eq/=; unfold onProjectMilestoneRescheduled, onProjectMilestoneRenamed in *;
    try (destruct (findMilestone _ _); simplify_eq/=); eexists; (split; [reflexivity|]);
    unfold project_event, state_of; simpl; try reflexivity; f_equal;
    unfold touch, update_milestones, with_milestones; simpl; f_equal.
  - by rewrite map_app.
  - symmetry. by apply update_states.
  - symmetry. by apply update_states.
  - by rewrite filter_states.
Qed.

Lemma emit_uncommitted e at_ actor eid (p : Project.t) : exists m,
  uncommitted (emit e at_ actor eid p).2 = uncommitted p ++ [construct e m].
Proof.
  eexists. unfold emit, apply, applyEvent, modify, mbind, js_bind. cbn -[handle construct].
  by destruct (handle _ _).
Qed.

Lemma project_command_emits c p : exists l, uncommitted (run_command c p).2 = uncommitted p ++ l /\
  Forall (fun e => is_created (payload e) = false) l.
Proof.
  destruct c; simpl; unfold changeName, changeDescription, changeStatus, changeDates,
    addGoal, removeGoal, addMilestone, changeMilestoneName, changeMilestoneTargetDate,
    archiveMilestone, archive, reads, gets, lift_result, mbind, js_bind, skip;
    repeat case_match; simplify_eq/=;
    try match goal with |- context [emit ?e ?t ?a ?i ?p] => destruct (emit_uncommitted e t a i p) as [? ->] end;
    first [by exists []; split; [by rewrite app_nil_r|constructor]
          |by eexists [_]; split; [reflexivity|repeat constructor]].
Qed.

Lemma project_command_shown c p s : project_ok (state p) ->
  ProjectProperties.snapshot_of p = Some s -> project_history (uncommitted p) = Some (state_of s) ->
  exists s', ProjectProperties.snapshot_of (run_command c p).2 = Some s' /\
    project_history (uncommitted (run_command c p).2) = Some (state_of s').
Proof.
  intros Hok Hs Hp. destruct (project_command_emits c p) as (l & Hl & Hc).
  destruct (project_command_emits_one c p) as [[r E]|(e & a' & (fs & Hf & ->)%apply_ok & E)].
  - exists s. by rewrite E.
  - rewrite E in *. simpl in Hl. apply app_inv_head in Hl as <-. apply (Forall_singleton _ e) in Hc.
    simpl in Hf. destruct (handle (payload e) (state p)) as [fs'|] eqn:Hh; [|done]. injection Hf as ->.
    destruct Hok as (_ & _ & _ & _ & _ & _ & Hn).
    destruct (project_state_of_event p s (payload e) fs Hs Hc Hn Hh) as (s' & Hs' & Hp'). exists s'. split; [exact Hs'|].
    unfold project_history in *. simpl. rewrite fold_left_app, <- Hp'. simpl. f_equal. exact Hp.
Qed.

End ProjectReadLemmas.

(** ** The totals count the active goals *)

Module AnalyticsLemmas.
Import JsObject GoalSnapshotCodec GoalProjectionState GoalAnalytics.

(** The count at [k] and [sl]; an absent key is 0. *)
Definition count_at (t : totals) (k sl : string) : Z := default 0%Z (assoc sl (default [] (assoc k t))).

(** Nothing empty and no zero is kept. *)
Definition tidy (t : totals) : Prop :=
  forall k b, assoc k t = Some b -> b <> [] /\ forall sl n, assoc sl b = Some n -> n <> 0%Z.

Lemma assoc_bucket (b : list (string * Z)) sl z sl' :
  default 0%Z (assoc sl' (if (z =? 0)%Z then delete_key sl b else set_key sl z b)) =
  if decide (sl' = sl) then z else default 0%Z (assoc sl' b).
Proof.
  destruct (Z.eqb_spec z 0) as [->|]; [rewrite assoc_delete_key|rewrite assoc_set_key]; by destruct (decide _).
Qed.

Lemma count_applyDelta t k sl d k' sl' :
  count_at (applyDelta t k sl d) k' sl' = (count_at t k' sl' + if decide ((k', sl') = (k, sl)) then d else 0)%Z.
Proof.
  unfold count_at, applyDelta. set (b := default [] (assoc k t)). set (z := (_ + d)%Z).
  pose proof (assoc_bucket b sl z sl') as Hb. destruct (if (z =? 0)%Z then _ else _) as [|[y w] b'] eqn:E.
  - rewrite assoc_delete_key. destruct (decide (k' = k)) as [->|Hk]; [|rewrite decide_False by congruence; lia].
    fold b. simpl in *. destruct (decide (sl' = sl)) as [->|Hs].
    + rewrite decide_True by done. subst z. lia.
    + rewrite decide_False by congruence. lia.
  - rewrite assoc_set_key. destruct (decide (k' = k)) as [->|Hk]; [|rewrite decide_False by congruence; lia].
    fold b. change (default [] (Some ((y, w) :: b'))) with ((y, w) :: b'). rewrite Hb. destruct (decide (sl' = sl)) as [->|Hs].
    + rewrite decide_True by done. subst z. lia.
    + rewrite decide_False by congruence. lia.
Qed.

Lemma tidy_applyDelta t k sl d : tidy t -> tidy (applyDelta t k sl d).
Proof.
  intros Ht. unfold applyDelta. set (b := default [] (assoc k t)). set (z := (_ + d)%Z).
  assert (forall y n, assoc y b = Some n -> n <> 0%Z) as Hb.
  { intros y n. subst b. destruct (assoc k t) as [b|] eqn:E; [|done]. simpl. by apply (Ht _ _ E). }
  assert (forall y n, assoc y (if (z =? 0)%Z then delete_key sl b else set_key sl z b) = Some n -> n <> 0%Z) as Hn.
  { intros y n. destruct (Z.eqb_spec z 0); [rewrite assoc_delete_key|rewrite assoc_set_key];
      destruct (decide _); try done; first [by apply Hb|congruence]. }
  destruct (if (z =? 0)%Z then _ else _) as [|yw b'].
  - intros k' b''. rewrite assoc_delete_key. destruct (decide _); [done|]. apply Ht.
  - intros k' b''. rewrite assoc_set_key. destruct (decide _); [|apply Ht]. intros [= <-]. by split.
Qed.

(** *** Sums over a store of snapshots *)

Notation store := (gmap string GoalSnapshotState).

Definition total (f : GoalSnapshotState -> Z) (S : store) : Z := map_fold (fun _ s acc => (f s + acc)%Z) 0%Z S.

Lemma total_insert f (S : store) k n :
  total f (<[k := n]> S) = (total f S + f n - match S !! k with Some p => f p | None => 0 end)%Z.
Proof.
  assert (forall (S : store) k n, S !! k = None -> total f (<[k := n]> S) = (f n + total f S)%Z) as Hnew.
  { clear. intros S k n Hk. unfold total. rewrite map_fold_insert_L; [done|intros; lia|done]. }
  destruct (S !! k) as [p|] eqn:E; [|rewrite Hnew by done; lia].
  rewrite <- (insert_delete_id S k p E) at 2. rewrite <- insert_delete_eq.
  rewrite !Hnew by apply lookup_delete_eq. lia.
Qed.

(** 1 for an active goal of the month (or year) and slice. *)
Definition in_month (m sl : string) (s : GoalSnapshotState) : Z :=
  if active s && bool_decide ((m, sl) = (gs_targetMonth s, gs_slice s)) then 1 else 0.
Definition year_of (s : GoalSnapshotState) : string := property_key (parseYear (gs_targetMonth s)).
Definition in_year (y sl : string) (s : GoalSnapshotState) : Z :=
  if active s && bool_decide ((y, sl) = (year_of s, gs_slice s)) then 1 else 0.

(** The totals are those of the store, and hold nothing else. *)
Record tracks (S : store) (a : AnalyticsPayload) : Prop := {
  tr_month m sl : count_at (monthlyTotals a) m sl = total (in_month m sl) S;
  tr_year y sl : count_at (categoryRollups a) y sl = total (in_year y sl) S;
  tr_tidy_month : tidy (monthlyTotals a);
  tr_tidy_year : tidy (categoryRollups a)
}.

(** A snapshot with a month and a slice. *)
Definition dated (s : GoalSnapshotState) : Prop := truthy (Some (gs_targetMonth s)) = true /\ truthy (Some (gs_slice s)) = true.

Definition was (f : GoalSnapshotState -> Z) (s : option GoalSnapshotState) : Z :=
  match s with Some s => f s | None => 0 end.

Lemma applied_deltas a prev next : dated next -> (forall s, prev = Some s -> dated s) ->
  let a' := applyAnalyticsDeltas a (buildAnalyticsDeltas prev (Some next)) in
  (forall m sl, count_at (monthlyTotals a') m sl =
    (count_at (monthlyTotals a) m sl + in_month m sl next - was (in_month m sl) prev)%Z) /\
  (forall y sl, count_at (categoryRollups a') y sl =
    (count_at (categoryRollups a) y sl + in_year y sl next - was (in_year y sl) prev)%Z) /\
  (tidy (monthlyTotals a) -> tidy (monthlyTotals a')) /\ (tidy (categoryRollups a) -> tidy (categoryRollups a')).
Proof.
  intros [Hm Hs] Hprev. unfold applyAnalyticsDeltas, buildAnalyticsDeltas, when_active, in_month, in_year, was.
  destruct prev as [prev|]; [destruct (Hprev prev eq_refl) as [Hm' Hs'], (active prev)|]; destruct (active next);
    unfold year_of; cbn [truthy andb orb negb] in *; rewrite ?Hm, ?Hs, ?Hm', ?Hs'; cbn [andb orb negb].
  1: destruct (bool_decide (Some (gs_targetMonth prev) = Some (gs_targetMonth next))) eqn:E1;
     destruct (bool_decide (Some (gs_slice prev) = Some (gs_slice next))) eqn:E2; cbn [andb orb negb].
  1: { apply bool_decide_eq_true in E1, E2. injection E1 as ->. injection E2 as ->.
    cbn [monthly category app fold_left monthlyTotals categoryRollups]. split; [|split; [|done]]; intros; lia. }
  all: clear; cbn [delta_of monthly category app fold_left md_yearMonth md_slice md_delta cd_year cd_slice cd_delta
    monthlyTotals categoryRollups]; unfold applyMonthlyDelta, applyCategoryDelta;
    (split; [|split; [|split; auto using tidy_applyDelta]]); intros; rewrite ?count_applyDelta;
    repeat case_bool_decide; repeat case_decide; try congruence; try lia.
Qed.

Lemma tracks_update (S : store) a k next : dated next -> map_Forall (fun _ => dated) S -> tracks S a ->
  tracks (<[k := next]> S) (applyAnalyticsDeltas a (buildAnalyticsDeltas (S !! k) (Some next))).
Proof.
  intros Hd HS [T1 T2 T3 T4].
  destruct (applied_deltas a (S !! k) next Hd (fun s E => HS k s E)) as (Hm & Hy & Ht1 & Ht2).
  split; intros; rewrite ?Hm, ?Hy, ?T1, ?T2, ?total_insert; auto; reflexivity.
Qed.

Lemma month_dated m : truthy (Some (Month.value m)) = true.
Proof.
  unfold truthy, Month.value, strlen. apply negb_true_iff, Z.eqb_neq. rewrite !length_append. simpl. lia.
Qed.

Lemma dated_event current e v next : (forall s, current = Some s -> dated s) ->
  applyEventToSnapshot current e v = Some next -> dated next.
Proof.
  intros Hc. destruct e; simpl; [intros [= <-]; split; [apply month_dated|by destruct slice]|..];
    (destruct current as [s|]; [|done]); intros [= <-]; destruct (Hc s eq_refl) as [Hm Hs]; split; simpl; try done.
  - by destruct slice.
  - apply month_dated.
Qed.

(** One event of the goal [k], as the processor applies it: the snapshot and the
    totals; an event that leaves no snapshot changes nothing. *)
Definition read_step (st : store * AnalyticsPayload) (ke : string * Goal.payload_t) : store * AnalyticsPayload :=
  let '(snaps, a) := st in
  match GoalReadLemmas.project_event (snaps !! ke.1) ke.2 with
  | Some next => (<[ke.1 := next]> snaps, applyAnalyticsDeltas a (buildAnalyticsDeltas (snaps !! ke.1) (Some next)))
  | None => st
  end.

Lemma read_step_tracks st ke : map_Forall (fun _ => dated) st.1 -> tracks st.1 st.2 ->
  map_Forall (fun _ => dated) (read_step st ke).1 /\ tracks (read_step st ke).1 (read_step st ke).2.
Proof.
  destruct st as [S a]. unfold read_step. cbn [fst snd]. intros HS Ht.
  destruct (GoalReadLemmas.project_event (S !! ke.1) ke.2) as [next|] eqn:E; [|done]. cbn [fst snd].
  assert (dated next) as Hd by (eapply dated_event; [|exact E]; intros s Hs; by apply (HS _ _ Hs)).
  split; [by apply map_Forall_insert_2|by apply tracks_update].
Qed.

Lemma empty_tracks : tracks ∅ createEmptyAnalytics.
Proof. split; try (intros; reflexivity); by intros k b. Qed.

End AnalyticsLemmas.

Module ReadModelProperties.

(** C20: What the goal projection makes of a goal's events is the goal: whatever commands
    are run on a new goal, some of which may throw, folding the events they emitted into a
    read model (each with the previous version plus one) gives exactly the goal's fields and
    version. *)
Theorem goal_read_model (i : GoalId) sl su tm pr cb ca eid (cs : list GoalRuns.command) :
  exists g0, Goal.create i sl su tm pr cb ca eid = Ok g0 /\
  let g := GoalRuns.run_commands cs g0 in
  exists s, GoalProperties.snapshot_of g = Some s /\
    GoalReadLemmas.project_history (getUncommittedEvents g) = Some (GoalSnapshotCodec.state_of s).
Proof.
  eexists. split; [reflexivity|]. cbv zeta.
  apply (GoalRuns.run_commands_inv (fun g => exists s, GoalProperties.snapshot_of g = Some s /\
    GoalReadLemmas.project_history (uncommitted g) = Some (GoalSnapshotCodec.state_of s))).
  - intros c g (s & Hs & Hp). by eapply GoalReadLemmas.goal_command_shown.
  - eexists. split; [reflexivity|]. reflexivity.
Qed.

(** What the project projection makes of a project's events is the project, milestones
    included: whatever commands are run on a new project, folding the events they emitted
    into a read model gives exactly the project's fields and version. (The read model
    changes every milestone with an id, the aggregate the first: ids are distinct.) *)
Theorem project_read_model (i : ProjectId) n st sd td d g cb ca eid (cs : list ProjectRuns.command) p0 :
  Project.create i n st sd td d g cb ca eid = Ok p0 ->
  let p := ProjectRuns.run_commands cs p0 in
  exists s, ProjectProperties.snapshot_of p = Some s /\
    ProjectReadLemmas.project_history (getUncommittedEvents p) = Some (ProjectSnapshotCodec.state_of s).
Proof.
  intros H. cbv zeta.
  enough (ProjectRuns.project_ok (state (ProjectRuns.run_commands cs p0)) /\
    exists s, ProjectProperties.snapshot_of (ProjectRuns.run_commands cs p0) = Some s /\
      ProjectReadLemmas.project_history (uncommitted (ProjectRuns.run_commands cs p0)) =
        Some (ProjectSnapshotCodec.state_of s)) as [_ Hs] by exact Hs.
  apply (run_all_inv (fun p => ProjectRuns.project_ok (state p) /\ exists s, ProjectProperties.snapshot_of p = Some s /\
    ProjectReadLemmas.project_history (uncommitted p) = Some (ProjectSnapshotCodec.state_of s))).
  - apply Forall_map, Forall_true. intros c p (Hok & s & Hs & Hp).
    split; [by apply ProjectRuns.project_command_ok|by eapply ProjectReadLemmas.project_command_shown].
  - revert H. unfold Project.create, Project.check_dates. destruct (LocalDate.isSameOrBefore sd td) eqn:E; [|done].
    intros [= <-]. split.
    + exists sd, td. simpl. repeat split; [done|constructor|constructor].
    + eexists. split; [reflexivity|]. reflexivity.
Qed.

(** The totals of the goal projection, kept up to date by differences, are always a
    recount: after any sequence of events of any goals, the count at every month and slice
    is the number of goals that are not archived with that month and slice, the count at
    every year and slice likewise, and the objects hold no empty bucket and no zero. *)
Theorem analytics_recount (evs : list (string * Goal.payload_t)) :
  let '(snaps, a) := fold_left AnalyticsLemmas.read_step evs (∅, GoalAnalytics.createEmptyAnalytics) in
  AnalyticsLemmas.tracks snaps a.
Proof.
  assert (forall st, map_Forall (fun _ => AnalyticsLemmas.dated) st.1 -> AnalyticsLemmas.tracks st.1 st.2 ->
    AnalyticsLemmas.tracks (fold_left AnalyticsLemmas.read_step evs st).1 (fold_left AnalyticsLemmas.read_step evs st).2)
    as H.
  { induction evs as [|ke evs IH]; intros st HS Ht; [done|]. simpl.
    destruct (AnalyticsLemmas.read_step_tracks st ke HS Ht). by apply IH. }
  specialize (H (∅, GoalAnalytics.createEmptyAnalytics) (map_Forall_empty _) AnalyticsLemmas.empty_tracks).
  by destruct (fold_left _ _ _).
Qed.

End ReadModelProperties.

(** ** Witnesses *)

Module ReadModelWitnesses.
Import GoalProjectionState GoalAnalytics.

Lemma project_read_model_witness :
  let cs := [ProjectRuns.AddMilestone milestone_1 tiles feb_1 later alice event_2;
             ProjectRuns.ChangeMilestoneTargetDate milestone_1 mar_1 later alice event_3] in
  exists s, ProjectProperties.snapshot_of (ProjectRuns.run_commands cs
      (Aggregate project_1 (Project.Fields (Some kitchen) (Some ProjectStatus.Planned) (Some jan_1) (Some mar_1)
        (Some no_text) None [] (Some alice) (Some noon) (Some noon) None)
        [Project.construct (Project.ProjectCreated project_1 kitchen ProjectStatus.Planned jan_1 mar_1 no_text None alice noon)
          (Meta project_1 noon event_1 (actor_of alice) None None None)] 1)) = Some s /\
    ProjectReadLemmas.project_history (getUncommittedEvents (ProjectRuns.run_commands cs
      (Aggregate project_1 (Project.Fields (Some kitchen) (Some ProjectStatus.Planned) (Some jan_1) (Some mar_1)
        (Some no_text) None [] (Some alice) (Some noon) (Some noon) None)
        [Project.construct (Project.ProjectCreated project_1 kitchen ProjectStatus.Planned jan_1 mar_1 no_text None alice noon)
          (Meta project_1 noon event_1 (actor_of alice) None None None)] 1))) = Some (ProjectSnapshotCodec.state_of s).
Proof.
  exact (ReadModelProperties.project_read_model project_1 kitchen ProjectStatus.Planned jan_1 mar_1 no_text None alice noon
    event_1 [ProjectRuns.AddMilestone milestone_1 tiles feb_1 later alice event_2;
             ProjectRuns.ChangeMilestoneTargetDate milestone_1 mar_1 later alice event_3] _ eq_refl).
Defined.

(** Totals keep JavaScript's property order: years first ascending. *)
Example totals_order :
  applyAnalyticsDeltas createEmptyAnalytics
    (Deltas [Monthly "2027-01" "Work" 1; Monthly "2026-05" "Health" 1] [Category (num 2027) "Work" 1; Category (num 2026) "Health" 1]) =
  Analytics [("2027-01", [("Work", 1%Z)]); ("2026-05", [("Health", 1%Z)])]
    [("2026", [("Health", 1%Z)]); ("2027", [("Work", 1%Z)])].
Proof. vm_compute. reflexivity. Qed.

Example years_parsed :
  map parseYear ["2026-05"; "0031-01"; "x-1"; ""] = [num 2026; num 31; num 0; num 0].
Proof. vm_compute. reflexivity. Qed.

End ReadModelWitnesses.
