(* ===== verification/Projectors.v ===== *)
(** * Snapshot projectors and search projectors

    What the goal and the project projection have in common, over the kind of
    thing projected:

    - Section [Snapshots]: [goals/derived-state/GoalSnapshotProjector.ts] and
      [projects/derived-state/ProjectSnapshotProjector.ts], which differ in the
      snapshot's type, its codec and an index kept on the side ([kind]);
    - Section [Searching]: [goals/derived-state/GoalSearchProjector.ts] and
      [projects/derived-state/ProjectSearchProjector.ts], over the search engine
      (MiniSearch, the class [SearchEngine]).

    A projection's state is one record: the device (key store, database, random
    source), the tables of derived state and the objects in memory. *)

From S2P Require Import Prelude JsValues JsonText ValueObjects Crypto LocalDb EventStoreCore Application Keyring DerivedState.
From Stdlib Require Import Sorted.

(** ** MiniSearch *)

(** A search index over items; [add] and [remove] throw on an id that is
    there already, or is not. *)
Class SearchEngine (Item : Type) : Type := {
  search_index : Type;
  ms_new : search_index;
  ms_addAll : list Item -> search_index -> result error search_index;
  ms_add : Item -> search_index -> result error search_index;
  ms_remove : Item -> search_index -> result error search_index;
  (** the ids of the hits *)
  ms_search : string -> search_index -> list string;
  ms_toJSON : search_index -> string;
  ms_loadJSON : string -> option search_index
}.

Record search_state (I : Type) : Type := Search {
  searchIndex : option I;
  indexLoaded : bool;
  indexDirty : bool;
  phase : IndexBuildPhase
}.
Arguments Search {I}.
Arguments searchIndex {I}.
Arguments indexLoaded {I}.
Arguments indexDirty {I}.
Arguments phase {I}.

Definition no_search {I} : search_state I := Search None false false missing.

(** ** The state of a projection *)

Record derived (St Item X I : Type) : Type := Derived {
  dv_device : device;
  dv_cache : cache_table;
  dv_artifacts : artifact_table;
  dv_snapshots : jsmap St;
  dv_projections : jsmap Item;
  (** what one projection keeps beside: the goals' totals, the projects' goal index *)
  dv_extra : X;
  dv_search : search_state I;
  (** how often the listeners were notified *)
  dv_notified : nat
}.
Arguments Derived {St Item X I}.
Arguments dv_device {St Item X I}.
Arguments dv_cache {St Item X I}.
Arguments dv_artifacts {St Item X I}.
Arguments dv_snapshots {St Item X I}.
Arguments dv_projections {St Item X I}.
Arguments dv_extra {St Item X I}.
Arguments dv_search {St Item X I}.
Arguments dv_notified {St Item X I}.

Section State.
Context {St Item X I : Type}.
Notation world := (derived St Item X I).

Definition set_device (d : device) (w : world) : world :=
  Derived d (dv_cache w) (dv_artifacts w) (dv_snapshots w) (dv_projections w) (dv_extra w) (dv_search w) (dv_notified w).
Definition set_cache (t : cache_table) (w : world) : world :=
  Derived (dv_device w) t (dv_artifacts w) (dv_snapshots w) (dv_projections w) (dv_extra w) (dv_search w) (dv_notified w).
Definition set_artifacts (t : artifact_table) (w : world) : world :=
  Derived (dv_device w) (dv_cache w) t (dv_snapshots w) (dv_projections w) (dv_extra w) (dv_search w) (dv_notified w).
Definition set_memory (s : jsmap St) (p : jsmap Item) (x : X) (w : world) : world :=
  Derived (dv_device w) (dv_cache w) (dv_artifacts w) s p x (dv_search w) (dv_notified w).
Definition set_extra (x : X) (w : world) : world := set_memory (dv_snapshots w) (dv_projections w) x w.
Definition set_search (s : search_state I) (w : world) : world :=
  Derived (dv_device w) (dv_cache w) (dv_artifacts w) (dv_snapshots w) (dv_projections w) (dv_extra w) s (dv_notified w).
Definition notify (w : world) : world :=
  Derived (dv_device w) (dv_cache w) (dv_artifacts w) (dv_snapshots w) (dv_projections w) (dv_extra w) (dv_search w)
    (S (dv_notified w)).

(** The state in a new process, on the device [d]: what is stored is there,
    nothing is in memory. *)
Definition reopen (x0 : X) (d : device) (w : world) : world :=
  Derived d (dv_cache w) (dv_artifacts w) [] [] x0 no_search 0.

(** The key store, the crypto service, the keyring manager. *)
Definition on_device {A} (m : app A) : js world app_error A := fun w =>
  let '(r, d) := m (dv_device w) in (r, set_device d w).

End State.

(** [map.delete(k)] *)
Definition map_delete {V} (k : string) (m : jsmap V) : jsmap V := filter (fun kv => kv.1 <> k) m.

(** ** Snapshot projectors *)

Record snapshot_kind (St Ev Item X : Type) : Type := Kind {
  PROJECTION_ID : string;
  (** the event applied, with the previous version plus one *)
  k_apply : option St -> Ev -> option St;
  k_active : St -> bool;
  k_version : St -> Z;
  k_encode : St -> list Z;
  k_decode : list Z -> Z -> result error St;
  k_item : St -> Item;
  (** the side index after a snapshot was restored, and after one changed *)
  k_restored : Item -> string -> X -> X;
  k_changed : option St -> option Item -> X -> X
}.
Arguments Kind {St Ev Item X}.
Arguments PROJECTION_ID {St Ev Item X}.
Arguments k_apply {St Ev Item X}.
Arguments k_active {St Ev Item X}.
Arguments k_version {St Ev Item X}.
Arguments k_encode {St Ev Item X}.
Arguments k_decode {St Ev Item X}.
Arguments k_item {St Ev Item X}.
Arguments k_restored {St Ev Item X}.
Arguments k_changed {St Ev Item X}.

Record SnapshotApplyResult (St Item : Type) : Type := ApplyResult {
  changed : bool;
  previous : option St;
  next : option St;
  previousItem : option Item;
  nextItem : option Item
}.
Arguments ApplyResult {St Item}.
Arguments changed {St Item}.
Arguments previous {St Item}.
Arguments next {St Item}.
Arguments previousItem {St Item}.
Arguments nextItem {St Item}.

Section Snapshots.
Context `{CryptoServicePort}.
Context {St Ev Item X I : Type} (kind : snapshot_kind St Ev Item X) (now : number).
Notation world := (derived St Item X I).
Notation dm := (js world app_error).

Definition listProjections (w : world) : list Item := (dv_projections w).*2.
Definition getProjection (i : string) (w : world) : option Item := map_get i (dv_projections w).

Definition clearCaches (x0 : X) : dm unit := modify (set_memory [] [] x0).
Definition clearPersisted : dm unit :=
  modify (fun w => set_cache (ProjectionCacheStore.removeAll (PROJECTION_ID kind) (dv_cache w)) w).

Definition decryptSnapshot (i : string) (cipher : list Z) (v : Z) (c : EffectiveCursor) (k : list Z) : result error St :=
  plaintext ← decrypt cipher k (Some (buildProjectionCacheAad (PROJECTION_ID kind) i v c));
  k_decode kind plaintext v.

Definition decrypt_row (i : string) (r : ProjectionCacheRecord) (k : list Z) : result error St :=
  decryptSnapshot i (pc_cacheEncrypted r) (pc_cacheVersion r) (pc_lastEffectiveCursor r) k.

Definition remove_row (i : string) : dm unit :=
  modify (fun w => set_cache (ProjectionCacheStore.remove (PROJECTION_ID kind) i (dv_cache w)) w).

(** A row that cannot be read is removed. *)
Definition loadSnapshot (i : string) (k : list Z) : dm (option St) :=
  row ← gets (fun w => ProjectionCacheStore.get (PROJECTION_ID kind) i (dv_cache w));
  match row with
  | None => mret None
  | Some r =>
      match decrypt_row i r k with
      | Ok s => mret (Some s)
      | Err _ => _ ← remove_row i; mret None
      end
  end.

Definition cache_row (i : string) (v : Z) (cipher : list Z) (c : EffectiveCursor) (commit : Z) : ProjectionCacheRecord :=
  CacheRecord (PROJECTION_ID kind) i v cipher effectiveTotalOrder c commit now.

Definition persistSnapshot (i : string) (s : St) (k : list Z) (c : EffectiveCursor) (commit : Z) : dm unit :=
  let aad := buildProjectionCacheAad (PROJECTION_ID kind) i (k_version kind s) c in
  cipher ← on_device (encrypt_fresh (k_encode kind s) k (Some aad));
  modify (fun w => set_cache (ProjectionCacheStore.put (cache_row i (k_version kind s) cipher c commit) (dv_cache w)) w).

(** One row of [bootstrapFromCache]: archived snapshots stay out of memory. *)
Definition restore_row (r : ProjectionCacheRecord) : dm unit :=
  let i := pc_scopeKey r in
  key ← on_device (getAggregateKey i);
  match key with
  | None => skip
  | Some k =>
      match decrypt_row i r k with
      | Err _ => remove_row i
      | Ok s =>
          if k_active kind s then
            modify (fun w => set_memory (map_set i s (dv_snapshots w)) (map_set i (k_item kind s) (dv_projections w))
              (k_restored kind (k_item kind s) i (dv_extra w)) w)
          else skip
      end
  end.

Definition bootstrapFromCache : dm unit :=
  rows ← gets (fun w => ProjectionCacheStore.listByProjection (PROJECTION_ID kind) (dv_cache w));
  for_each rows restore_row.

(** [this.snapshots.get(id) ?? (await this.loadSnapshot(id, key))] *)
Definition previous_snapshot (i : string) (k : list Z) : dm (option St) :=
  inMemory ← gets (fun w => map_get i (dv_snapshots w));
  match inMemory with
  | Some s => mret (Some s)
  | None => loadSnapshot i k
  end.

(** The maps after the next snapshot was stored. *)
Definition remember_snapshot (i : string) (prev : option St) (s : St) (item : option Item) (w : world) : world :=
  set_memory (map_set i s (dv_snapshots w))
    (match item with Some x => map_set i x (dv_projections w) | None => map_delete i (dv_projections w) end)
    (k_changed kind prev item (dv_extra w)) w.

Definition apply_snapshot_event (i : string) (e : Ev) (k : list Z) (c : EffectiveCursor) (commit : Z)
    : dm (SnapshotApplyResult St Item) :=
  prev ← previous_snapshot i k;
  shown ← gets (fun w => map_get i (dv_projections w));
  let prevItem := match shown with Some x => Some x | None => k_item kind <$> prev end in
  match k_apply kind prev e with
  | None => mret (ApplyResult false prev None prevItem None)
  | Some s =>
      _ ← persistSnapshot i s k c commit;
      let item := if k_active kind s then Some (k_item kind s) else None in
      _ ← modify (remember_snapshot i prev s item);
      mret (ApplyResult true prev (Some s) prevItem item)
  end.

End Snapshots.

(** ** Search projectors *)

Record search_kind (Item : Type) : Type := SearchKind {
  INDEX_ID : string;
  SEARCH_KEY_ID : string;
  item_id : Item -> string;
  item_active : Item -> bool;
  item_createdAt : Item -> number
}.
Arguments SearchKind {Item}.
Arguments INDEX_ID {Item}.
Arguments SEARCH_KEY_ID {Item}.
Arguments item_id {Item}.
Arguments item_active {Item}.
Arguments item_createdAt {Item}.

Definition INDEX_SCOPE : string := "global".
Definition INDEX_VERSION : Z := 1.

(** [list.sort((a, b) => b.createdAt - a.createdAt)]: newest first, stable. *)
Fixpoint insert_newest {A} (at_ : A -> number) (x : A) (l : list A) : list A :=
  match l with
  | [] => [x]
  | y :: l' => if num_lt (at_ y) (at_ x) then x :: l else y :: insert_newest at_ x l'
  end.
Definition newest_first {A} (at_ : A -> number) (l : list A) : list A :=
  fold_left (fun acc x => insert_newest at_ x acc) l [].

(** The key [i] of the key store, drawn and saved when it is not there. *)
Definition ensure_key `{CryptoServicePort} (i : string) : app (list Z) :=
  existing ← getAggregateKey i;
  match existing with
  | Some k => mret k
  | None => generated ← generateKey; _ ← saveAggregateKey i generated; mret generated
  end.

Section Searching.
Context `{CryptoServicePort}.
Context {St Item X : Type} `{SearchEngine Item} (kind : search_kind Item) (now : number).
Notation world := (derived St Item X search_index).
Notation dm := (js world app_error).

Definition ensureSearchKey : dm (list Z) := on_device (ensure_key (SEARCH_KEY_ID kind)).

Definition with_index (i : option search_index) (s : search_state search_index) : search_state search_index :=
  Search i (indexLoaded s) (indexDirty s) (phase s).
Definition on_search (f : search_state search_index -> search_state search_index) (w : world) : world :=
  set_search (f (dv_search w)) w.

Definition remove_index : dm unit :=
  modify (fun w => set_artifacts (IndexArtifactStore.remove (INDEX_ID kind) INDEX_SCOPE (dv_artifacts w)) w).

(** What a stored index opens to. *)
Definition open_index (r : IndexArtifactRecord) (k : list Z) : option search_index :=
  match decrypt (ia_artifactEncrypted r) k
    (Some (buildIndexArtifactAad (INDEX_ID kind) INDEX_SCOPE (ia_artifactVersion r) (ia_lastEffectiveCursor r))) with
  | Ok plaintext => utf8_decode plaintext ≫= ms_loadJSON
  | Err _ => None
  end.

Definition loadSearchIndex (k : list Z) : dm bool :=
  row ← gets (fun w => IndexArtifactStore.get (INDEX_ID kind) INDEX_SCOPE (dv_artifacts w));
  match row with
  | None => mret false
  | Some r =>
      match open_index r k with
      | Some i => _ ← modify (on_search (with_index (Some i))); mret true
      | None => _ ← remove_index; mret false
      end
  end.

(** [addAll] of the active items, when there are any. *)
Definition fill_index (items : list Item) (i : search_index) : result app_error search_index :=
  match filter (fun x => item_active kind x = true) items with
  | [] => Ok i
  | docs => lift_error (ms_addAll docs i)
  end.

Definition ensureBuilt (items : list Item) : dm unit :=
  gets (fun w => indexLoaded (dv_search w)) ≫= fun loaded : bool =>
  if loaded then skip
  else
    _ ← modify (on_search (fun s => Search (searchIndex s) (indexLoaded s) (indexDirty s) building));
    k ← ensureSearchKey;
    loadSearchIndex k ≫= fun restored : bool =>
    _ ← (if restored then skip
         else
           _ ← modify (on_search (with_index (Some ms_new)));
           i ← lift_result (fill_index items ms_new);
           modify (on_search (fun s => Search (Some i) (indexLoaded s) true (phase s))));
    modify (on_search (fun s => Search (searchIndex s) true (indexDirty s) ready)).

Definition search_status (w : world) : string * IndexBuildPhase := (INDEX_ID kind, phase (dv_search w)).

(** [searchGoals] and [searchProjects]: the hits that are still shown and pass
    the filter, newest first; a blank term hits everything. *)
Definition search_items (term : string) (shown : jsmap Item) (passes : Item -> bool) (w : world) : list Item :=
  match searchIndex (dv_search w) with
  | None => []
  | Some i =>
      let hits := if (strlen (trim term) =? 0)%Z then map (fun kv => item_id kind kv.2) shown else ms_search term i in
      newest_first (item_createdAt kind) (filter (fun x => passes x = true) (omap (fun h => map_get h shown) hits))
  end.

(** A failing [remove] is ignored, a failing [add] is not. *)
Definition applyProjectionChange (prevItem nextIt : option Item) : dm unit :=
  s ← gets dv_search;
  match searchIndex s with
  | None => skip
  | Some i =>
      let removed := match prevItem with
        | Some x => match ms_remove x i with Ok i' => i' | Err _ => i end
        | None => i
        end in
      _ ← modify (on_search (with_index (Some removed)));
      _ ← match nextIt with
        | Some x =>
            if item_active kind x then
              added ← lift_result (lift_error (ms_add x removed));
              modify (on_search (with_index (Some added)))
            else skip
        | None => skip
        end;
      modify (on_search (fun s => Search (searchIndex s) (indexLoaded s) true (phase s)))
  end.

Definition saveSearchIndex (k : list Z) (i : search_index) (c : EffectiveCursor) : dm unit :=
  let aad := buildIndexArtifactAad (INDEX_ID kind) INDEX_SCOPE INDEX_VERSION c in
  cipher ← on_device (encrypt_fresh (utf8_encode (ms_toJSON i)) k (Some aad));
  modify (fun w => set_artifacts
    (IndexArtifactStore.put (ArtifactRecord (INDEX_ID kind) INDEX_SCOPE INDEX_VERSION cipher c now) (dv_artifacts w)) w).

Definition persistIndex (c : EffectiveCursor) : dm unit :=
  s ← gets dv_search;
  match searchIndex s, indexDirty s with
  | Some i, true =>
      k ← ensureSearchKey;
      _ ← saveSearchIndex k i c;
      modify (on_search (fun s => Search (searchIndex s) (indexLoaded s) false (phase s)))
  | _, _ => skip
  end.

Definition reset_search : dm unit := modify (set_search no_search).
Definition clearPersistedIndex : dm unit := remove_index.

End Searching.

(** ** Lemmas: the device under a projection *)

Module ProjectorLemmas.
Import JsonTextProperties ApplicationLemmas KeyringManager KeyringLemmas.

Section Device.
Context `{CryptoServicePort} (deriveKey : list Z -> string -> list Z).
Implicit Types d : device.

(** The service encrypts anything with the key. *)
Definition seals (k : list Z) : Prop :=
  forall iv p aad, length iv = IV_LENGTH -> exists c, encrypt iv p k aad = Ok c.

(** Only the key of [i] may have changed. *)
Record only_key (i : string) d d' : Prop := {
  ok_cached j : j <> i -> cached_key j (num 0) d' = cached_key j (num 0) d;
  ok_stored j : j <> i -> stored_key j d' = stored_key j d;
  ok_keyrings : keyrings d' = keyrings d;
  ok_tables : same_tables d d';
  ok_entropy : entropy_ok d -> entropy_ok d';
  ok_fresh n : exists m, fresh_keys d' n = fresh_keys d m
}.

Lemma only_key_refl i d : only_key i d d.
Proof. split; try done. intros n. by exists n. Qed.

Lemma only_key_trans i d1 d2 d3 : only_key i d1 d2 -> only_key i d2 d3 -> only_key i d1 d3.
Proof.
  intros [C1 S1 K1 T1 E1 F1] [C2 S2 K2 T2 E2 F2]. split; intros; auto.
  - by rewrite C2, C1.
  - by rewrite S2, S1.
  - congruence.
  - by eapply same_tables_trans.
  - destruct (F2 n) as [m ->]. apply F1.
Qed.

Lemma only_key_drawn i n d : only_key i d (drawn n d).
Proof. split; try done; [apply entropy_ok_drawn|]. intros m. by exists m. Qed.

Lemma cacheKey_only i e k d : only_key i d (cacheKey i e k d).2.
Proof.
  split; try done; [|intros n; by exists n]. intros j Hj. unfold cached_key. simpl.
  by rewrite lookup_insert_ne.
Qed.

Lemma saveAggregateKey_only i k d : only_key i d (saveAggregateKey i k d).2.
Proof.
  pose proof (saveAggregateKey_run i k d) as Hr. destruct (saveAggregateKey i k d) as [[u|e] d'].
  - destruct Hr as (mk & blob & Hmk & Hb & ->). simpl. split; try done; [|by apply entropy_ok_drawn|intros n; by exists n].
    intros j Hj. unfold stored_key. simpl. by rewrite lookup_insert_ne.
  - simpl. destruct Hr as [-> | ->]; [apply only_key_refl|apply only_key_drawn].
Qed.

Lemma resolve_only i d : only_key i d (resolveKeyForEvent deriveKey i d).2.
Proof.
  unfold resolveKeyForEvent, resolveKeyForEpoch, getCachedKey, getKeyring, deriveOwnerKey, open_key, remember,
    getAggregateKey, gets, reads, lift_result, throw, mbind, js_bind, mret, js_ret, skip.
  cbv zeta iota. repeat case_match; simplify_eq/=; try apply only_key_refl;
    repeat match goal with
    | E : saveAggregateKey ?i ?k ?d = (_, ?d') |- _ =>
        pose proof (saveAggregateKey_only i k d); rewrite E in *; clear E; simpl in *
    | E : cacheKey ?i ?e ?k ?d = (_, ?d') |- _ =>
        pose proof (cacheKey_only i e k d); rewrite E in *; clear E; simpl in *
    end; eauto using only_key_trans, only_key_refl.
Qed.

(** A device that knows the keys [keyof]: each is found and works; an aggregate
    without one has none anywhere; the keys in [own] belong to the projections
    and are drawn when they are first needed. *)
Context (keyof : string -> option (list Z)) (own : list string).

Record device_ok d : Prop := {
  dok_entropy : entropy_ok d;
  dok_master : exists mk, masterKey d = Some mk /\ seals mk;
  dok_fresh n : fresh_keys d n <> [] /\ seals (fresh_keys d n);
  dok_key i k : keyof i = Some k -> (i ∉ own) /\ key_is deriveKey i k d /\ seals k;
  dok_none i : keyof i = None -> i ∉ own ->
    cached_key i (num 0) d = None /\ keyrings d !! i = None /\ stored_key i d = Ok None;
  dok_own i : i ∈ own -> stored_key i d = Ok None \/ exists k, stored_key i d = Ok (Some k) /\ seals k
}.

Lemma key_is_kept i j k d d' : only_key i d d' -> j <> i -> key_is deriveKey j k d -> key_is deriveKey j k d'.
Proof.
  intros [C S K T E F] Hne (He & Hk & Hs & Hc). unfold key_is. rewrite (S j Hne), (C j Hne), K.
  destruct T as (_ & _ & ->). auto.
Qed.

(** Changing the key of [i] keeps the device in order if [i]'s own key is. *)
Lemma device_ok_kept i d d' : only_key i d d' -> device_ok d ->
  match keyof i with
  | Some k => key_is deriveKey i k d'
  | None => i ∈ own /\ (stored_key i d' = Ok None \/ exists k, stored_key i d' = Ok (Some k) /\ seals k)
  end -> device_ok d'.
Proof.
  intros Ho [E M F K N O] Hi. pose proof Ho as [C S KR (T1 & T2 & T3) En Fr]. split.
  - by apply En.
  - by rewrite T3.
  - intros n. destruct (Fr n) as [m ->]. apply F.
  - intros j k Hj. destruct (K j k Hj) as (Hno & Hk & Hs). split; [done|]. split; [|done].
    destruct (decide (j = i)) as [->|Hne]; [by rewrite Hj in Hi|]. by eapply key_is_kept.
  - intros j Hj Hno. destruct (decide (j = i)) as [->|Hne].
    + rewrite Hj in Hi. by destruct Hi.
    + rewrite (C j Hne), (S j Hne), KR. by apply N.
  - intros j Hj. destruct (decide (j = i)) as [->|Hne]; [|rewrite (S j Hne); by apply O].
    destruct (keyof i) as [k|] eqn:Ei; [by destruct (K i k Ei)|]. by destruct Hi.
Qed.

(** The tables of the event store do not matter. *)
Lemma device_ok_same d d' : device_ok d -> entropy_ok d' -> masterKey d' = masterKey d -> aggregate_keys d' = aggregate_keys d ->
  keyrings d' = keyrings d -> epochKeys d' = epochKeys d -> (forall n, exists m, fresh_keys d' n = fresh_keys d m) -> device_ok d'.
Proof.
  intros [E M F K N O] He Em Ea Ek Ec Ef.
  assert (forall i, stored_key i d' = stored_key i d) as Hs by (intros i; unfold stored_key; by rewrite Em, Ea).
  assert (forall i e, cached_key i e d' = cached_key i e d) as Hc by (intros i e; unfold cached_key; by rewrite Ec).
  split; [done|by rewrite Em|..].
  - intros n. destruct (Ef n) as [m ->]. apply F.
  - intros i k Hi. destruct (K i k Hi) as (? & (_ & ? & ? & ?) & ?). split; [done|]. split; [|done].
    unfold key_is. by rewrite Hs, Hc, Ek, Em.
  - intros i Hi Ho. rewrite Hs, Hc, Ek. by apply N.
  - intros i Hi. rewrite Hs. by apply O.
Qed.

Lemma device_ok_drawn n d : device_ok d -> device_ok (drawn n d).
Proof.
  intros [E M F K N O]. split; try done; [by apply entropy_ok_drawn|]. intros i k Hi.
  destruct (K i k Hi) as (? & (_ & ? & ? & ?) & ?). repeat split; try done; by apply entropy_ok_drawn.
Qed.

Lemma resolve_known i k d : device_ok d -> keyof i = Some k ->
  exists d', resolveKeyForEvent deriveKey i d = (Ok k, d') /\ device_ok d' /\ only_key i d d'.
Proof.
  intros Hd Hi. destruct (dok_key d Hd i k Hi) as (_ & Hk & _).
  destruct (resolve_key deriveKey i k d Hk) as (d' & E & Hk' & (Hdb & _) & _). exists d'. split; [done|].
  pose proof (resolve_only i d) as Ho. rewrite E in Ho. split; [|done].
  apply (device_ok_kept i d); [done|done|by rewrite Hi].
Qed.

Lemma resolve_unknown i d : device_ok d -> keyof i = None -> i ∉ own ->
  resolveKeyForEvent deriveKey i d = (Err (missing_key i), d).
Proof.
  intros Hd Hi Hno. destruct (dok_none d Hd i Hi Hno) as (Hc & Hk & Hs).
  unfold resolveKeyForEvent, resolveKeyForEpoch, getCachedKey, getKeyring, gets, mbind, js_bind. cbv zeta iota.
  rewrite Hc, Hk. change (num_eq (num 0) (num 0)) with true. cbv iota.
  unfold getAggregateKey, reads. by rewrite Hs.
Qed.

Lemma ensure_key_ok i d : device_ok d -> i ∈ own -> keyof i = None ->
  exists k d', ensure_key i d = (Ok k, d') /\ seals k /\ device_ok d' /\ only_key i d d' /\
    stored_key i d' = Ok (Some k) /\ forall k0, stored_key i d = Ok (Some k0) -> k0 = k.
Proof.
  intros Hd Hi Hn. unfold ensure_key, getAggregateKey, reads, mbind, js_bind.
  destruct (dok_own d Hd i Hi) as [Hs|(k & Hs & Hk)]; rewrite Hs;
    [|exists k, d; split_and!; try done; [apply only_key_refl|by intros k0 [= ->]]].
  destruct (dok_master d Hd) as (mk & Hmk & Hmks). destruct (dok_fresh d Hd 0) as [Hne Hsk].
  unfold generateKey. set (d1 := Device _ _ _ _ _ _ _ _).
  assert (only_key i d d1) as Ho1 by (split; try done; intros n; by exists (S n)).
  assert (exists d2, saveAggregateKey i (fresh_keys d 0) d1 = (Ok tt, d2)) as [d2 E2].
  { destruct (Hmks (ivs d 0) (fresh_keys d 0) None (proj1 (dok_entropy d Hd 0))) as [c Hc].
    unfold saveAggregateKey, reads, mbind, js_bind. change (masterKey d1) with (masterKey d). rewrite Hmk.
    rewrite encrypt_fresh_run. change (ivs d1 0) with (ivs d 0). rewrite Hc. by eexists. }
  rewrite E2. exists (fresh_keys d 0), d2. split; [done|]. split; [done|].
  pose proof (saveAggregateKey_only i (fresh_keys d 0) d1) as Ho2. rewrite E2 in Ho2.
  destruct (stored_key_saved i (fresh_keys d 0) d1 tt d2 (ok_entropy _ _ _ Ho1 (dok_entropy d Hd)) Hne E2)
    as (Hs2 & _). assert (only_key i d d2) as Ho by (by eapply only_key_trans). split; [|by split_and!].
  apply (device_ok_kept i d d2); [done|done|]. rewrite Hn. split; [done|]. right. by eexists.
Qed.

Lemma encrypt_fresh_ok p k aad d : device_ok d -> seals k ->
  exists c, encrypt_fresh p k aad d = (Ok c, drawn 1 d).
Proof.
  intros Hd Hk. rewrite encrypt_fresh_run. destruct (Hk (ivs d 0) p aad (proj1 (dok_entropy d Hd 0))) as [c ->]. by exists c.
Qed.

End Device.

(** ** Lemmas: tables and maps *)

Lemma cache_get_put r p i (t : cache_table) : ProjectionCacheStore.get p i (ProjectionCacheStore.put r t) =
  if decide (ProjectionCacheStore.key r = (p, i)) then Some r else ProjectionCacheStore.get p i t.
Proof. apply kt_get_put. Qed.

Lemma cache_get_removeAll p p' i (t : cache_table) :
  ProjectionCacheStore.get p' i (ProjectionCacheStore.removeAll p t) =
  if decide (p' = p) then None else ProjectionCacheStore.get p' i t.
Proof.
  unfold ProjectionCacheStore.get, ProjectionCacheStore.removeAll, kt_get, cache_table in *.
  induction t as [|x t IH]; [by destruct (decide _)|]. rewrite filter_cons.
  destruct (decide (pc_projectionId x <> p)) as [E|E]; simpl; rewrite IH; case_bool_decide as Hk; try done.
  - unfold ProjectionCacheStore.key in Hk. simplify_eq. by rewrite decide_False.
  - destruct (decide (p' = p)); [done|]. destruct E. unfold ProjectionCacheStore.key in Hk. congruence.
Qed.

Lemma cache_elem_get r p (t : cache_table) : NoDup (map ProjectionCacheStore.key t) ->
  r ∈ ProjectionCacheStore.listByProjection p t -> ProjectionCacheStore.get p (pc_scopeKey r) t = Some r.
Proof.
  unfold ProjectionCacheStore.listByProjection, ProjectionCacheStore.get, kt_get, cache_table in *.
  intros Hn [<- Hr]%list_elem_of_filter. induction t as [|x t IH]; [by apply elem_of_nil in Hr|].
  apply NoDup_cons in Hn as [Hx Hn]. simpl. apply elem_of_cons in Hr as [<-|Hr].
  - by rewrite bool_decide_true.
  - rewrite bool_decide_false; [by apply IH|]. intros E. apply Hx. rewrite E.
    by apply (list_elem_of_fmap_2 ProjectionCacheStore.key).
Qed.

Lemma cache_get_elem r p i (t : cache_table) : ProjectionCacheStore.get p i t = Some r ->
  r ∈ ProjectionCacheStore.listByProjection p t /\ pc_scopeKey r = i.
Proof.
  unfold ProjectionCacheStore.listByProjection, ProjectionCacheStore.get, kt_get, cache_table in *. intros [Hr E]%List.find_some.
  apply bool_decide_eq_true in E. unfold ProjectionCacheStore.key in E. simplify_eq.
  split; [|done]. apply list_elem_of_filter. by rewrite list_elem_of_In.
Qed.

Lemma map_get_delete {V} i j (m : jsmap V) : map_get j (map_delete i m) = if decide (j = i) then None else map_get j m.
Proof.
  unfold map_get, map_delete, jsmap in *. induction m as [|[k v] m IH]; [by destruct (decide _)|]. rewrite filter_cons. simpl.
  destruct (decide (k <> i)) as [E|E]; simpl; rewrite IH.
  - destruct (decide (j = k)) as [->|]; [by rewrite decide_False|done].
  - destruct (decide (j = i)); [done|]. rewrite decide_False; [done|]. intros ->. tauto.
Qed.

Lemma map_delete_NoDup {V} i (m : jsmap V) : NoDup m.*1 -> NoDup (map_delete i m).*1.
Proof. apply NoDup_map_filter. Qed.

Lemma map_get_set {V} i j (v : V) m : map_get j (map_set i v m) = if decide (j = i) then Some v else map_get j m.
Proof. case_decide; [subst; apply map_get_set_eq|by apply map_get_set_ne]. Qed.

(** ** Lemmas: lists of what is shown *)

Section Listing.
Context {A : Type} (at_ : A -> number).

Lemma insert_newest_perm (x : A) l : insert_newest at_ x l ≡ₚ x :: l.
Proof. induction l as [|y l IH]; simpl; [done|]. destruct (num_lt _ _); [done|]. rewrite IH. constructor. Qed.

Lemma newest_first_perm (l : list A) : newest_first at_ l ≡ₚ l.
Proof.
  unfold newest_first. enough (forall acc, fold_left (fun acc x => insert_newest at_ x acc) l acc ≡ₚ acc ++ l) as H by apply H.
  induction l as [|x l IH]; intros acc; simpl; [by rewrite app_nil_r|]. rewrite IH, insert_newest_perm.
  by rewrite <- Permutation_middle.
Qed.

(** No item is followed by a newer one. *)
Definition older_after (x y : A) : Prop := num_lt (at_ x) (at_ y) = false.

Lemma num_lt_asym a b : num_lt a b = true -> num_lt b a = false.
Proof.
  destruct a as [m k| |na], b as [m' k'| |nb]; simpl; try done.
  - intros H. apply Z.ltb_ge. apply Z.ltb_lt in H. lia.
  - by destruct nb.
  - by destruct na.
  - by destruct na, nb.
Qed.

Lemma insert_newest_sorted x l : Sorted older_after l -> Sorted older_after (insert_newest at_ x l).
Proof.
  induction l as [|y l IH]; intros Hl; simpl; [by repeat constructor|]. destruct (num_lt (at_ y) (at_ x)) eqn:E.
  - constructor; [done|]. constructor. by apply num_lt_asym.
  - inversion Hl as [|? ? Hs Hh]; subst. constructor; [by apply IH|].
    destruct l as [|z l]; simpl; [by constructor|]. inversion Hh; subst. by destruct (num_lt (at_ z) (at_ x)); constructor.
Qed.

Lemma newest_first_sorted (l : list A) : Sorted older_after (newest_first at_ l).
Proof.
  unfold newest_first. enough (forall acc, Sorted older_after acc ->
    Sorted older_after (fold_left (fun acc x => insert_newest at_ x acc) l acc)) as H by (apply H; constructor).
  induction l as [|x l IH]; intros acc Ha; simpl; [done|]. by apply IH, insert_newest_sorted.
Qed.

End Listing.

(** A [Map] with the lookups of [M] has its entries. *)
Lemma jsmap_entries {V} (m : jsmap V) (M : gmap string V) : NoDup m.*1 -> (forall i, map_get i m = M !! i) ->
  m ≡ₚ map_to_list M.
Proof.
  intros Hn Hm. assert (M = list_to_map m) as ->; [|by rewrite map_to_list_to_map].
  apply map_eq. intros i. rewrite <- Hm. clear. unfold map_get. induction m as [|[k v] m IH]; [done|]. simpl.
  destruct (decide (i = k)) as [->|]; [by rewrite lookup_insert_eq|]. by rewrite lookup_insert_ne.
Qed.

Lemma jsmap_elem {V} (m : jsmap V) k v : NoDup m.*1 -> (k, v) ∈ m <-> map_get k m = Some v.
Proof.
  unfold map_get. induction m as [|[j u] m IH]; csimpl; intros Hn; [set_solver|]. apply NoDup_cons in Hn as [Hj Hn].
  rewrite elem_of_cons, IH by done. destruct (decide (k = j)) as [->|Hne]; [|naive_solver]. split; [|naive_solver].
  intros [?|Hu]; [naive_solver|]. destruct Hj. apply IH in Hu; [|done]. by apply (list_elem_of_fmap_2 fst) in Hu.
Qed.

(** ** Lemmas: what a snapshot projector keeps *)

Section Reflection.
Context `{CryptoServicePort} (deriveKey : list Z -> string -> list Z).
Context (keyof : string -> option (list Z)) (own : list string).
Context {St Ev Item X I : Type} (kind : snapshot_kind St Ev Item X) (now : number).
(** Snapshots the codec takes through storage, and events that keep them so. *)
Context (wf : string -> St -> Prop) (fine : string -> Ev -> Prop).
Context (stored : forall i s, wf i s -> k_encode kind s <> [] /\ k_decode kind (k_encode kind s) (k_version kind s) = Ok s).
Context (kept : forall i prev e s, (forall p, prev = Some p -> wf i p) -> fine i e -> k_apply kind prev e = Some s -> wf i s).
Notation world := (derived St Item X I).
Notation snapshots := (gmap string St).
Implicit Types (M : snapshots) (w : world).

(** What is shown of a snapshot: archived ones are not. *)
Definition shown_item (s : St) : option Item := if k_active kind s then Some (k_item kind s) else None.

(** What the side index [x] is to the items shown. *)
Context (side : gmap string Item -> X -> Prop).
Context (side_restored : forall V x i s, side V x -> V !! i = None -> wf i s -> k_active kind s = true ->
  side (<[i := k_item kind s]> V) (k_restored kind (k_item kind s) i x)).
Context (side_changed : forall V x i prev s, side V x -> (forall p, prev = Some p -> wf i p) -> wf i s ->
  V !! i = prev ≫= shown_item ->
  side (match shown_item s with Some y => <[i := y]> V | None => delete i V end)
    (k_changed kind prev (shown_item s) x)).

Definition row_holds (i : string) (r : ProjectionCacheRecord) (s : St) : Prop :=
  wf i s /\ exists k, keyof i = Some k /\ decrypt_row kind i r k = Ok s.

(** The rows of the projection hold the snapshots [M]. *)
Record stores M w : Prop := {
  sr_keys : NoDup (map ProjectionCacheStore.key (dv_cache w));
  sr_row i : match ProjectionCacheStore.get (PROJECTION_ID kind) i (dv_cache w) with
             | Some r => exists s, M !! i = Some s /\ row_holds i r s
             | None => M !! i = None
             end
}.

(** ... and so does its memory. *)
Record reflects M w : Prop := {
  rf_stores : stores M w;
  rf_memory i s : map_get i (dv_snapshots w) = Some s -> M !! i = Some s;
  rf_active i s : M !! i = Some s -> k_active kind s = true -> map_get i (dv_snapshots w) = Some s;
  rf_shown i : map_get i (dv_projections w) = M !! i ≫= shown_item;
  rf_ids : NoDup (dv_projections w).*1;
  rf_side : side (omap shown_item M) (dv_extra w)
}.

Lemma shown_insert M i s : omap shown_item (<[i := s]> M) =
  match shown_item s with Some y => <[i := y]> (omap shown_item M) | None => delete i (omap shown_item M) end.
Proof.
  destruct (shown_item s) as [y|] eqn:E; [by apply omap_insert_Some|]. by rewrite omap_insert_None.
Qed.

Lemma stores_wf M w i s : stores M w -> M !! i = Some s -> wf i s.
Proof.
  intros Hst Hi. pose proof (sr_row _ _ Hst i) as Hr. destruct (ProjectionCacheStore.get _ _ _) as [r|]; [|congruence].
  destruct Hr as (s' & Hs & Hw & _). congruence.
Qed.

Lemma previous_reflects M w i k : reflects M w -> keyof i = Some k ->
  previous_snapshot kind i k w = (Ok (M !! i), w).
Proof.
  intros [Hst Hm Ha Hs Hn Hx] Hk. unfold previous_snapshot, gets, mbind, js_bind.
  destruct (map_get i (dv_snapshots w)) as [s|] eqn:E; [by rewrite (Hm i s E)|].
  unfold loadSnapshot, gets, mbind, js_bind. pose proof (sr_row _ _ Hst i) as Hr.
  destruct (ProjectionCacheStore.get _ _ _) as [r|]; [|by rewrite Hr].
  destruct Hr as (s & -> & _ & k' & Hk' & Hd). replace k' with k in Hd by congruence. by rewrite Hd.
Qed.

(** The item the change replaces. *)
Lemma previous_item M w i : reflects M w ->
  match map_get i (dv_projections w) with Some x => Some x | None => k_item kind <$> M !! i end = k_item kind <$> M !! i.
Proof.
  intros Hr. rewrite (rf_shown _ _ Hr i). destruct (M !! i) as [s|]; [|done]. simpl. unfold shown_item.
  by destruct (k_active kind s).
Qed.

Lemma persistSnapshot_ok i s k c n w : device_ok deriveKey keyof own (dv_device w) -> keyof i = Some k -> wf i s ->
  exists r, persistSnapshot kind now i s k c n w =
      (Ok tt, set_cache (ProjectionCacheStore.put r (dv_cache w)) (set_device (drawn 1 (dv_device w)) w)) /\
    ProjectionCacheStore.key r = (PROJECTION_ID kind, i) /\ row_holds i r s.
Proof.
  intros Hd Hk Hw. destruct (dok_key _ _ _ _ Hd i k Hk) as (_ & Hki & Hseal). destruct (stored i s Hw) as [Hne Hdec].
  set (aad := buildProjectionCacheAad (PROJECTION_ID kind) i (k_version kind s) c).
  destruct (encrypt_fresh_ok deriveKey keyof own (k_encode kind s) k (Some aad) (dv_device w) Hd Hseal) as [ct Ec].
  exists (cache_row kind now i (k_version kind s) ct c n). split; [|split; [done|]].
  - unfold persistSnapshot, on_device, modify, mbind, js_bind. fold aad. by rewrite Ec.
  - split; [done|]. exists k. split; [done|]. unfold decrypt_row, decryptSnapshot. simpl. fold aad.
    rewrite encrypt_fresh_run in Ec. destruct (encrypt (ivs (dv_device w) 0) (k_encode kind s) k (Some aad)) as [ct'|] eqn:Ee;
      simplify_eq/=. by rewrite (decrypt_encrypt _ _ _ _ _ (proj1 (dok_entropy _ _ _ _ Hd 0)) Hne Ee).
Qed.

(** What else a change of one snapshot leaves alone. *)
Record keeps w w' : Prop := {
  kp_device : device_ok deriveKey keyof own (dv_device w');
  kp_db : db (dv_device w') = db (dv_device w);
  kp_stored i : stored_key i (dv_device w') = stored_key i (dv_device w);
  kp_rows p i : p <> PROJECTION_ID kind ->
    ProjectionCacheStore.get p i (dv_cache w') = ProjectionCacheStore.get p i (dv_cache w);
  kp_artifacts : dv_artifacts w' = dv_artifacts w;
  kp_search : dv_search w' = dv_search w
}.

Lemma stores_put M w i s r : stores M w -> ProjectionCacheStore.key r = (PROJECTION_ID kind, i) -> row_holds i r s ->
  forall w', dv_cache w' = ProjectionCacheStore.put r (dv_cache w) -> stores (<[i := s]> M) w'.
Proof.
  intros [Hn Hr] Hk Hh w' Hc. split; rewrite Hc; [by apply kt_keys_put|]. intros j. rewrite cache_get_put, Hk.
  destruct (decide (i = j)) as [->|Hne].
  - rewrite decide_True by done. exists s. by rewrite lookup_insert_eq.
  - rewrite decide_False by congruence. specialize (Hr j). by rewrite lookup_insert_ne.
Qed.

Lemma remember_reflects M w w1 i s prev : reflects M w -> stores (<[i := s]> M) w1 ->
  dv_snapshots w1 = dv_snapshots w -> dv_projections w1 = dv_projections w -> dv_extra w1 = dv_extra w ->
  prev = M !! i -> wf i s -> reflects (<[i := s]> M) (remember_snapshot kind i prev s (shown_item s) w1).
Proof.
  intros [Hst Hm Ha Hs Hn Hx] Hst' E1 E2 E3 -> Hw. rewrite <- E1 in Hm, Ha. rewrite <- E2 in Hs, Hn. unfold remember_snapshot. split; simpl.
  - by destruct Hst'.
  - intros j t. rewrite map_get_set. case_decide as E; [subst; intros [= ->]; by rewrite lookup_insert_eq|].
    rewrite lookup_insert_ne by congruence. apply Hm.
  - intros j t. rewrite map_get_set. case_decide as E; [subst; by rewrite lookup_insert_eq|].
    rewrite lookup_insert_ne by congruence. apply Ha.
  - intros j. unfold shown_item. destruct (k_active kind s) eqn:Ea.
    + rewrite map_get_set. case_decide as E; [subst; rewrite lookup_insert_eq; simpl; unfold shown_item; by rewrite Ea|].
      rewrite lookup_insert_ne by congruence. apply Hs.
    + rewrite map_get_delete. case_decide as E; [subst; rewrite lookup_insert_eq; simpl; unfold shown_item; by rewrite Ea|].
      rewrite lookup_insert_ne by congruence. apply Hs.
  - destruct (shown_item s); [by apply map_set_NoDup|by apply map_delete_NoDup].
  - rewrite shown_insert, E3. apply side_changed; [done| |done|by rewrite lookup_omap].
    intros p. by apply (stores_wf M w).
Qed.

(** [applyEvent] on each branch. *)
Lemma apply_snapshot_reflects M w i e k c n : device_ok deriveKey keyof own (dv_device w) -> reflects M w ->
  keyof i = Some k -> fine i e ->
  match k_apply kind (M !! i) e with
  | None => apply_snapshot_event kind now i e k c n w =
      (Ok (ApplyResult false (M !! i) None (k_item kind <$> M !! i) None), w)
  | Some s => wf i s /\ exists w', apply_snapshot_event kind now i e k c n w =
      (Ok (ApplyResult true (M !! i) (Some s) (k_item kind <$> M !! i) (shown_item s)), w') /\
      reflects (<[i := s]> M) w' /\ keeps w w' /\
      dv_extra w' = k_changed kind (M !! i) (shown_item s) (dv_extra w)
  end.
Proof.
  intros Hd Hr Hk He.
  assert (apply_snapshot_event kind now i e k c n w = match k_apply kind (M !! i) e with
    | None => (Ok (ApplyResult false (M !! i) None (k_item kind <$> M !! i) None), w)
    | Some s => (_ ← persistSnapshot kind now i s k c n;
       _ ← modify (remember_snapshot kind i (M !! i) s (shown_item s));
       mret (ApplyResult true (M !! i) (Some s) (k_item kind <$> M !! i) (shown_item s))) w
    end) as ->.
  { unfold apply_snapshot_event. rewrite (js_bind_run_ok _ _ _ _ _ (previous_reflects M w i k Hr Hk)).
    unfold gets. unfold mbind at 1, js_bind at 1. cbv zeta. rewrite (previous_item M w i Hr).
    by destruct (k_apply kind (M !! i) e). }
  destruct (k_apply kind (M !! i) e) as [s|] eqn:Es; [|done].
  assert (wf i s) as Hw.
  { eapply kept; [|exact He|exact Es]. intros p. apply (stores_wf M w). by destruct Hr. }
  split; [done|]. destruct (persistSnapshot_ok i s k c n w Hd Hk Hw) as (r & E & Hkey & Hh). set (w1 := set_cache _ _) in E.
  exists (remember_snapshot kind i (M !! i) s (shown_item s) w1). split.
  { rewrite (js_bind_run_ok _ _ _ _ _ E). reflexivity. }
  assert (stores (<[i := s]> M) w1) as Hst1 by (by eapply stores_put; [apply (rf_stores _ _ Hr)|exact Hkey|exact Hh|]).
  split; [|split; [|done]].
  - by apply (remember_reflects M w w1).
  - split; simpl; try done; [by apply device_ok_drawn|]. intros p j Hp. rewrite cache_get_put, Hkey.
    by rewrite decide_False by congruence.
Qed.

(** The list of what is shown. *)
Lemma listing_reflects M w : reflects M w -> listProjections w ≡ₚ (map_to_list (omap shown_item M)).*2.
Proof.
  intros [_ _ _ Hs Hn _]. unfold listProjections. apply (fmap_Permutation snd), jsmap_entries; [done|].
  intros i. by rewrite Hs, lookup_omap.
Qed.

(** Only the memory and the projection's own rows matter. *)
Lemma reflects_ext M w w' : reflects M w -> dv_snapshots w' = dv_snapshots w -> dv_projections w' = dv_projections w ->
  NoDup (map ProjectionCacheStore.key (dv_cache w')) ->
  (forall i, ProjectionCacheStore.get (PROJECTION_ID kind) i (dv_cache w') =
    ProjectionCacheStore.get (PROJECTION_ID kind) i (dv_cache w)) ->
  (side (omap shown_item M) (dv_extra w) -> side (omap shown_item M) (dv_extra w')) -> reflects M w'.
Proof.
  intros [[Hn Hr] Hm Ha Hs Hi Hx] Es Ep Hn' Hc Hx'. split; [split; [done|]|..]; rewrite ?Es, ?Ep; try done; [|by apply Hx'].
  intros i. rewrite Hc. apply Hr.
Qed.

(** Nothing in memory, nothing stored. *)
Lemma cleared_reflects w : dv_snapshots w = [] -> dv_projections w = [] -> NoDup (map ProjectionCacheStore.key (dv_cache w)) ->
  (forall i, ProjectionCacheStore.get (PROJECTION_ID kind) i (dv_cache w) = None) -> side ∅ (dv_extra w) -> reflects ∅ w.
Proof.
  intros Hs Hp Hn Hr Hx. split; [split; [done|]|..]; rewrite ?Hs, ?Hp; try done.
  - intros i. by rewrite Hr.
  - constructor.
Qed.

(** *** A start from what is stored *)

Definition active_only (s : St) : option St := if k_active kind s then Some s else None.

(** The rows of the ids [L] have been restored, and no others. *)
Record restored M (L : list string) w : Prop := {
  rs_stores : stores M w;
  rs_device : device_ok deriveKey keyof own (dv_device w);
  rs_memory i : map_get i (dv_snapshots w) = if decide (i ∈ L) then M !! i ≫= active_only else None;
  rs_shown i : map_get i (dv_projections w) = if decide (i ∈ L) then M !! i ≫= shown_item else None;
  rs_ids : NoDup (dv_projections w).*1;
  rs_side V : (forall i, V !! i = map_get i (dv_projections w)) -> side V (dv_extra w)
}.

(** What restoring leaves alone. *)
Definition rest_same w w' : Prop :=
  dv_cache w' = dv_cache w /\ dv_device w' = dv_device w /\ dv_artifacts w' = dv_artifacts w /\ dv_search w' = dv_search w.

Lemma restored_memory M L w i s : restored M L w -> i ∉ L -> M !! i = Some s -> wf i s -> k_active kind s = true ->
  restored M (i :: L) (set_memory (map_set i s (dv_snapshots w)) (map_set i (k_item kind s) (dv_projections w))
    (k_restored kind (k_item kind s) i (dv_extra w)) w).
Proof.
  intros [Hst Hd Hm Hs Hn Hx] Hno Hi Hw Ea.
  assert (forall i', i' ∈ i :: L <-> i' = i \/ i' ∈ L) as Hin by (intros; apply elem_of_cons).
  split; simpl; [by destruct Hst|done|..].
  1,2: intros j; rewrite map_get_set; rewrite ?Hm, ?Hs; destruct (decide (j = i)) as [->|Hne];
    [rewrite decide_True by set_solver; rewrite Hi; unfold active_only, shown_item; simpl; by rewrite Ea|];
    apply decide_ext; set_solver.
  - by apply map_set_NoDup.
  - intros V HV. rewrite <- (insert_delete_id V i (k_item kind s)) by (rewrite HV; apply map_get_set_eq).
    apply side_restored; [|apply lookup_delete_eq|done|done]. apply Hx. intros j. destruct (decide (j = i)) as [->|Hne].
    + by rewrite lookup_delete_eq, Hs, decide_False.
    + by rewrite lookup_delete_ne, HV, map_get_set_ne.
Qed.

Lemma restored_archived M L w i s : restored M L w -> i ∉ L -> M !! i = Some s -> k_active kind s = false ->
  restored M (i :: L) w.
Proof.
  intros [Hst Hd Hm Hs Hn Hx] Hno Hi Ea.
  assert (forall i', i' ∈ i :: L <-> i' = i \/ i' ∈ L) as Hin by (intros; apply elem_of_cons).
  split; simpl; [by destruct Hst|done|..|done|done].
  all: intros j; rewrite ?Hm, ?Hs; destruct (decide (j = i)) as [->|Hne];
    [rewrite (decide_True (P := i ∈ i :: L)) by set_solver; rewrite Hi; unfold active_only, shown_item; simpl; rewrite Ea;
     by destruct (decide _)|]; apply decide_ext; set_solver.
Qed.

Lemma restore_row_ok M L w r s : restored M L w -> pc_scopeKey r ∉ L -> M !! pc_scopeKey r = Some s ->
  row_holds (pc_scopeKey r) r s ->
  exists w', restore_row kind r w = (Ok tt, w') /\ restored M (pc_scopeKey r :: L) w' /\ rest_same w w'.
Proof.
  set (i := pc_scopeKey r). intros Hr Hno Hi (Hw & k & Hk & Hdec).
  destruct (dok_key _ _ _ _ (rs_device _ _ _ Hr) i k Hk) as (_ & (_ & _ & Hsk & _) & _).
  exists (if k_active kind s then
    set_memory (map_set i s (dv_snapshots w)) (map_set i (k_item kind s) (dv_projections w))
      (k_restored kind (k_item kind s) i (dv_extra w)) w else w). split; [|split].
  - unfold restore_row, on_device, getAggregateKey, reads, modify, skip, mbind, js_bind, mret, js_ret. cbv zeta. fold i.
    rewrite Hsk. assert (set_device (dv_device w) w = w) as -> by (by destruct w). rewrite Hdec.
    by destruct (k_active kind s).
  - destruct (k_active kind s) eqn:Ea; [by apply restored_memory|by eapply restored_archived].
  - by destruct (k_active kind s).
Qed.

Lemma restore_rows_ok M L w rows : restored M L w -> NoDup (map pc_scopeKey rows ++ L) ->
  (forall r, r ∈ rows -> exists s, M !! pc_scopeKey r = Some s /\ row_holds (pc_scopeKey r) r s) ->
  exists w', for_each rows (restore_row kind) w = (Ok tt, w') /\
    restored M (rev (map pc_scopeKey rows) ++ L) w' /\ rest_same w w'.
Proof.
  revert L w. induction rows as [|r rows IH]; intros L w Hr Hn Hh; [by exists w|].
  destruct (Hh r) as (s & Hs & Hrow); [by constructor|].
  assert (pc_scopeKey r ∉ L) as Hno by (simpl in Hn; apply NoDup_cons in Hn as [Hn _]; set_solver).
  destruct (restore_row_ok M L w r s Hr Hno Hs Hrow) as (w1 & E1 & Hr1 & Hc1).
  destruct (IH (pc_scopeKey r :: L) w1 Hr1) as (w2 & E2 & Hr2 & Hc2).
  { simpl in Hn. by rewrite <- Permutation_middle. }
  { intros x Hx; apply Hh; by constructor. }
  exists w2. split; [cbn [for_each]; by rewrite (js_bind_run_ok _ _ _ _ _ E1)|].
  simpl. rewrite <- app_assoc. split; [exact Hr2|]. unfold rest_same in *. by destruct Hc1 as (<- & <- & <- & <-).
Qed.

Lemma scope_keys_NoDup p (t : cache_table) : NoDup (map ProjectionCacheStore.key t) ->
  NoDup (map pc_scopeKey (ProjectionCacheStore.listByProjection p t)).
Proof.
  intros Hn. unfold ProjectionCacheStore.listByProjection, cache_table in *.
  apply (NoDup_map_filter _ (fun r => pc_projectionId r = p)) in Hn.
  assert (forall r, r ∈ filter (fun r => pc_projectionId r = p) t -> ProjectionCacheStore.key r = (p, pc_scopeKey r)) as Hk.
  { intros r [<- _]%list_elem_of_filter. done. }
  apply (NoDup_fmap_1 (pair p)). rewrite <- list_fmap_compose. erewrite list_fmap_ext; [exact Hn|].
  intros j r Hr. simpl. rewrite Hk; [done|]. by eapply list_elem_of_lookup_2.
Qed.

(** Whatever was in memory is back, the archived snapshots aside. *)
Lemma bootstrap_reflects M w : device_ok deriveKey keyof own (dv_device w) -> stores M w ->
  dv_snapshots w = [] -> dv_projections w = [] -> side ∅ (dv_extra w) ->
  exists w', bootstrapFromCache kind w = (Ok tt, w') /\ reflects M w' /\ rest_same w w'.
Proof.
  intros Hd Hst Es Ep Hx0. set (rows := ProjectionCacheStore.listByProjection (PROJECTION_ID kind) (dv_cache w)).
  assert (restored M [] w) as Hr0.
  { split; [done|done|..]; rewrite ?Es, ?Ep; try done; [constructor|]. intros V HV.
    replace V with (∅ : gmap string Item); [done|]. apply map_eq. intros i. by rewrite HV. }
  destruct (restore_rows_ok M [] w rows Hr0) as (w' & E & Hr & Hc).
  { rewrite app_nil_r. apply scope_keys_NoDup, (sr_keys _ _ Hst). }
  { intros r Hr. pose proof (sr_row _ _ Hst (pc_scopeKey r)) as H1.
    rewrite (cache_elem_get r _ _ (sr_keys _ _ Hst) Hr) in H1. destruct H1 as (s & ? & ?). by exists s. }
  exists w'. split; [exact E|]. split; [|done]. rewrite app_nil_r in Hr.
  assert (forall i s, M !! i = Some s -> i ∈ rev (map pc_scopeKey rows)) as Hall.
  { intros i s Hi. pose proof (sr_row _ _ Hst i) as H1. destruct (ProjectionCacheStore.get _ _ _) as [r|] eqn:Eg; [|congruence].
    apply cache_get_elem in Eg as [Hin <-]. rewrite list_elem_of_In, <- in_rev, <- list_elem_of_In.
    by apply (list_elem_of_fmap_2 pc_scopeKey). }
  destruct Hr as [Hst' Hd' Hm Hs Hn Hx].
  assert (forall i, map_get i (dv_projections w') = M !! i ≫= shown_item) as Hshown.
  { intros i. rewrite Hs. destruct (decide _) as [|Hni]; [done|]. destruct (M !! i) as [t|] eqn:Ei; [|done].
    by destruct Hni; eapply Hall. }
  split; [done|..|done|done|].
  - intros i s. rewrite Hm. destruct (decide _); [|done]. destruct (M !! i) as [t|]; [|done]. simpl. unfold active_only.
    by destruct (k_active kind t).
  - intros i s Hi Ha. rewrite Hm, decide_True by eauto. rewrite Hi. simpl. unfold active_only. by rewrite Ha.
  - apply Hx. intros i. by rewrite lookup_omap, Hshown.
Qed.

End Reflection.

Lemma reflects_side `{CryptoServicePort} {St Ev Item X I : Type} keyof (kind : snapshot_kind St Ev Item X) wf
    (side side' : gmap string Item -> X -> Prop) M (w : derived St Item X I) : reflects keyof kind wf side M w ->
  (side (omap (shown_item kind) M) (dv_extra w) -> side' (omap (shown_item kind) M) (dv_extra w)) ->
  reflects keyof kind wf side' M w.
Proof. intros [? ? ? ? ? Hx] Hs. split; auto. Qed.

(** ** Lemmas: the search index *)

(** What the projectors rely on of MiniSearch, with the ids an index holds: it
    throws on a repeated and on a missing id, and an index read back holds what
    the written one held. *)
Record search_laws `{SearchEngine Item} (iid : Item -> string) (ids : search_index -> gset string) : Prop := {
  ids_new : ids ms_new = ∅;
  ids_add x i : iid x ∉ ids i -> exists i', ms_add x i = Ok i' /\ ids i' = {[iid x]} ∪ ids i;
  ids_addAll l i : NoDup (map iid l) -> (forall x, x ∈ l -> iid x ∉ ids i) ->
    exists i', ms_addAll l i = Ok i' /\ ids i' = list_to_set (map iid l) ∪ ids i;
  ids_remove x i : iid x ∈ ids i -> exists i', ms_remove x i = Ok i' /\ ids i' = ids i ∖ {[iid x]};
  ids_remove_missing x i : iid x ∉ ids i -> exists e, ms_remove x i = Err e;
  ids_json i : ms_toJSON i <> "" /\ exists i', ms_loadJSON (ms_toJSON i) = Some i' /\ ids i' = ids i;
  ids_search t i x : x ∈ ms_search t i -> x ∈ ids i
}.

Section Indexing.
Context `{CryptoServicePort}.
Context {St Item X : Type} `{SearchEngine Item} (kind : search_kind Item) (now : number).
Context (ids : search_index -> gset string) (laws : search_laws (item_id kind) ids).
Notation world := (derived St Item X search_index).
Implicit Types (B : gset string) (w : world).

(** The index, in memory and stored, holds no id outside [B]. *)
Record within B w : Prop := {
  wi_memory i : searchIndex (dv_search w) = Some i -> ids i ⊆ B;
  wi_stored r : IndexArtifactStore.get (INDEX_ID kind) INDEX_SCOPE (dv_artifacts w) = Some r ->
    exists k, stored_key (SEARCH_KEY_ID kind) (dv_device w) = Ok (Some k) /\
      forall i, open_index kind r k = Some i -> ids i ⊆ B
}.

Lemma within_more B B' w : B ⊆ B' -> within B w -> within B' w.
Proof.
  intros HB [H1 H2]. split; [intros i Hi; etransitivity; [by apply H1|done]|]. intros r Hr.
  destruct (H2 r Hr) as (k & Hk & Hi). exists k. split; [done|]. intros i Ho. etransitivity; [by apply Hi|done].
Qed.

Lemma within_ext B w w' : within B w ->
  (forall k, stored_key (SEARCH_KEY_ID kind) (dv_device w) = Ok (Some k) ->
    stored_key (SEARCH_KEY_ID kind) (dv_device w') = Ok (Some k)) ->
  dv_artifacts w' = dv_artifacts w -> (forall i, searchIndex (dv_search w') = Some i -> ids i ⊆ B) -> within B w'.
Proof.
  intros [H1 H2] E Ea Es. split; [done|]. rewrite Ea. intros r Hr. destruct (H2 r Hr) as (k & Hk & Hi). exists k. auto.
Qed.

(** A changed item: its id is in the index afterwards exactly if the item is
    shown; the index throws nothing if an id it may hold is removed first. *)
Lemma change_ok B w (x : option Item) (y : option Item) iid :
  within B w -> (forall p, x = Some p -> item_id kind p = iid) -> (forall n, y = Some n -> item_id kind n = iid) ->
  (iid ∈ B -> is_Some x) ->
  exists s, applyProjectionChange kind x y w = (Ok tt, set_search s w) /\
    match searchIndex (dv_search w) with
    | None => s = dv_search w
    | Some i => exists i', s = Search (Some i') (indexLoaded (dv_search w)) true (phase (dv_search w)) /\
        ids i' = (ids i ∖ {[iid]}) ∪ (match y with Some n => if item_active kind n then {[iid]} else ∅ | None => ∅ end)
    end.
Proof.
  intros [Hm _] Hx Hy HB. unfold applyProjectionChange, gets. unfold mbind at 1, js_bind at 1.
  destruct (searchIndex (dv_search w)) as [i|] eqn:Ei; [|exists (dv_search w); split; [by destruct w|done]].
  set (removed := match x with Some _ => _ | None => i end).
  assert (ids removed = ids i ∖ {[iid]}) as Hr.
  { subst removed. destruct x as [p|].
    - rewrite <- (Hx p eq_refl). destruct (decide (item_id kind p ∈ ids i)) as [Hin|Hout].
      + by destruct (ids_remove _ _ laws p i Hin) as (i' & -> & ->).
      + destruct (ids_remove_missing _ _ laws p i Hout) as (e & ->). set_solver.
    - assert (iid ∉ ids i); [|set_solver]. intros Hin. destruct (HB (Hm i eq_refl iid Hin)) as [? ?]. done. }
  clearbody removed. unfold mbind, js_bind, modify, on_search, lift_result.
  destruct y as [n|]; [destruct (item_active kind n) eqn:Ea|].
  - assert (item_id kind n ∉ ids removed) as Hn by (rewrite Hr, (Hy n eq_refl); set_solver).
    destruct (ids_add _ _ laws n removed Hn) as (i' & E' & Hi'). simpl. rewrite E'. simpl.
    eexists. split; [reflexivity|]. exists i'. split; [done|]. rewrite Hi', Hr, (Hy n eq_refl). set_solver.
  - eexists. split; [reflexivity|]. exists removed. split; [done|]. rewrite Hr. set_solver.
  - eexists. split; [reflexivity|]. exists removed. split; [done|]. rewrite Hr. set_solver.
Qed.

(** The index in memory holds exactly the ids [V]. *)
Definition indexes (V : gset string) w : Prop := forall i, searchIndex (dv_search w) = Some i -> ids i = V.

Definition indexed_id (iid : string) (y : option Item) : gset string :=
  match y with Some n => if item_active kind n then {[iid]} else ∅ | None => ∅ end.

Lemma change_within B w (x y : option Item) iid :
  within B w -> (forall p, x = Some p -> item_id kind p = iid) -> (forall n, y = Some n -> item_id kind n = iid) ->
  (iid ∈ B -> is_Some x) ->
  exists s, applyProjectionChange kind x y w = (Ok tt, set_search s w) /\ within ({[iid]} ∪ B) (set_search s w) /\
    forall V, indexes V w -> indexes ((V ∖ {[iid]}) ∪ indexed_id iid y) (set_search s w).
Proof.
  intros Hw Hx Hy HB. destruct (change_ok B w x y iid Hw Hx Hy HB) as (s & E & Hs). exists s. split; [done|]. split.
  - apply (within_ext _ w); [eapply within_more; [|exact Hw]; set_solver|done|done|]. simpl. intros i Hi.
    destruct Hw as [Hw _]. destruct (searchIndex (dv_search w)) as [j|] eqn:Ej; [|by subst s; rewrite Ej in Hi].
    destruct Hs as (i' & -> & Hids). simpl in Hi. simplify_eq. rewrite Hids. specialize (Hw j eq_refl).
    destruct y as [n|]; [destruct (item_active kind n)|]; set_solver.
  - intros V HV i Hi. simpl in Hi. destruct (searchIndex (dv_search w)) as [j|] eqn:Ej; [|by subst s; rewrite Ej in Hi].
    destruct Hs as (i' & -> & Hids). simpl in Hi. simplify_eq. by rewrite Hids, (HV j Ej).
Qed.

Context (deriveKey : list Z -> string -> list Z) (keyof : string -> option (list Z)) (own : list string).
Context (key_own : SEARCH_KEY_ID kind ∈ own) (key_none : keyof (SEARCH_KEY_ID kind) = None).

Lemma ensureSearchKey_ok B w : device_ok deriveKey keyof own (dv_device w) -> within B w ->
  exists k d', ensureSearchKey kind w = (Ok k, set_device d' w) /\ seals k /\ device_ok deriveKey keyof own d' /\
    only_key (SEARCH_KEY_ID kind) (dv_device w) d' /\ stored_key (SEARCH_KEY_ID kind) d' = Ok (Some k) /\
    forall k0, stored_key (SEARCH_KEY_ID kind) (dv_device w) = Ok (Some k0) -> k0 = k.
Proof.
  intros Hd Hw. destruct (ensure_key_ok deriveKey keyof own (SEARCH_KEY_ID kind) (dv_device w) Hd key_own key_none)
    as (k & d' & E & Hs & Hd' & Ho & Hst & Hk). exists k, d'. split; [|by split_and!].
  unfold ensureSearchKey, on_device. by rewrite E.
Qed.

Lemma artifact_get_put r i j (t : artifact_table) : IndexArtifactStore.get i j (IndexArtifactStore.put r t) =
  if decide (IndexArtifactStore.key r = (i, j)) then Some r else IndexArtifactStore.get i j t.
Proof. apply kt_get_put. Qed.

(** The state after the search's device, artifacts and own fields changed. *)
Definition research (s : search_state search_index) (t : artifact_table) (d : device) w : world :=
  set_search s (set_artifacts t (set_device d w)).

(** What a call on the search leaves: only its own key may be new. *)
Record searched B w (s : search_state search_index) (t : artifact_table) (d : device) : Prop := {
  se_within : within B (research s t d w);
  se_device : device_ok deriveKey keyof own d;
  se_only : only_key (SEARCH_KEY_ID kind) (dv_device w) d
}.

Lemma searched_fields B w s1 s2 t d : searchIndex s1 = searchIndex s2 -> searched B w s1 t d -> searched B w s2 t d.
Proof. intros E [[W1 W2] D O]. split; [|done..]. split; simpl in *; [by rewrite <- E|done]. Qed.

(** [loadSearchIndex]: whatever is stored, it answers. *)
Lemma loadSearchIndex_ok B w k : within B w -> stored_key (SEARCH_KEY_ID kind) (dv_device w) = Ok (Some k) ->
  exists b i t, loadSearchIndex kind k w = (Ok b, research (with_index i (dv_search w)) t (dv_device w) w) /\
    within B (research (with_index i (dv_search w)) t (dv_device w) w) /\
    (if b : bool then is_Some i /\ is_Some (IndexArtifactStore.get (INDEX_ID kind) INDEX_SCOPE (dv_artifacts w))
     else i = searchIndex (dv_search w)).
Proof.
  intros [H1 H2] Hk. unfold loadSearchIndex, gets, mbind, js_bind.
  destruct (IndexArtifactStore.get _ _ (dv_artifacts w)) as [r|] eqn:Er.
  - destruct (open_index kind r k) as [i|] eqn:Eo.
    + exists true, (Some i), (dv_artifacts w). split; [by destruct w|]. split; [|by eauto].
      destruct (H2 r eq_refl) as (k' & Hk' & Hi). replace k' with k in * by congruence.
      split; simpl; [intros j [= <-]; by apply Hi|]. intros r' Hr. replace r' with r by congruence. eauto.
    + exists false, (searchIndex (dv_search w)), (IndexArtifactStore.remove (INDEX_ID kind) INDEX_SCOPE (dv_artifacts w)).
      split; [destruct w as [?????? []]; reflexivity|]. split; [|done]. split; simpl; [done|].
      intros r'. unfold IndexArtifactStore.get, IndexArtifactStore.remove. rewrite kt_get_remove. by rewrite decide_True.
  - exists false, (searchIndex (dv_search w)), (dv_artifacts w). split; [by destruct w as [?????? []]|].
    split; [|done]. split; simpl; [done|]. intros r Hr. congruence.
Qed.

Lemma fill_index_ok items : NoDup (map (item_id kind) items) -> exists i, fill_index kind items ms_new = Ok i /\
  ids i = list_to_set (map (item_id kind) (filter (fun x => item_active kind x = true) items)).
Proof.
  intros Hn. unfold fill_index. set (docs := filter _ items).
  destruct (ids_addAll _ _ laws docs ms_new) as (i & Ei & Hi).
    + by apply NoDup_map_filter.
    + intros y _. rewrite (ids_new _ _ laws). set_solver.
    + destruct docs as [|x docs]; [exists ms_new; split; [done|]; by rewrite (ids_new _ _ laws)|].
      exists i. split; [by rewrite Ei|]. rewrite Hi, (ids_new _ _ laws). set_solver.
Qed.

(** [ensureBuilt]: an index read from storage is taken as it is; otherwise it is
    filled with the items shown. *)
Lemma ensureBuilt_ok B w items : device_ok deriveKey keyof own (dv_device w) -> within B w ->
  NoDup (map (item_id kind) items) -> (forall x, x ∈ items -> item_id kind x ∈ B) ->
  exists s t d, ensureBuilt kind items w = (Ok tt, research s t d w) /\ searched B w s t d /\
    (indexLoaded (dv_search w) = false -> phase s = ready /\ exists i, searchIndex s = Some i /\
      (IndexArtifactStore.get (INDEX_ID kind) INDEX_SCOPE (dv_artifacts w) = None ->
       ids i = list_to_set (map (item_id kind) (filter (fun x => item_active kind x = true) items)))).
Proof.
  intros Hd Hw Hn HB. unfold ensureBuilt, gets. unfold mbind at 1, js_bind at 1.
  destruct (indexLoaded (dv_search w)) eqn:El.
  { exists (dv_search w), (dv_artifacts w), (dv_device w). split; [by destruct w|]. split; [|done]. split; [|done|apply only_key_refl].
    by destruct w. }
  erewrite js_bind_run_ok by reflexivity. set (w0 := on_search _ w).
  assert (within B w0) as Hw0 by (destruct Hw; by split).
  destruct (ensureSearchKey_ok B w0 Hd Hw0) as (k & d & E1 & Hs & Hd' & Ho & Hst & Hk). erewrite js_bind_run_ok by exact E1.
  assert (within B (set_device d w0)) as Hw1 by (apply (within_ext _ w0); [done|intros k0 Hk0; by rewrite (Hk k0 Hk0)|done|apply (wi_memory _ _ Hw0)]).
  destruct (loadSearchIndex_ok B (set_device d w0) k Hw1 Hst) as (b & i & t & E2 & Hw2 & Hb).
  erewrite js_bind_run_ok by exact E2. set (w2 := research _ _ _ _) in *.
  assert (exists j, (if b then skip else
      _ ← modify (on_search (with_index (Some ms_new)));
      i ← lift_result (fill_index kind items ms_new);
      modify (on_search (fun s => Search (Some i) (indexLoaded s) true (phase s)))) w2 =
    (Ok tt, set_search (Search (Some j) (indexLoaded (dv_search w)) (if b then indexDirty (dv_search w) else true) building) w2) /\
    ids j ⊆ B /\ (b = false -> ids j = list_to_set (map (item_id kind) (filter (fun x => item_active kind x = true) items))))
    as (j & E3 & Hj & Hf).
  { destruct b.
    - destruct Hb as [[j ->] _]. exists j. split; [reflexivity|]. split; [|done]. destruct Hw2 as [W1 _]. by apply W1.
    - destruct (fill_index_ok items Hn) as (j & E & Hj). exists j. split; [|split; [|done]].
      + unfold lift_result, modify, mbind, js_bind. rewrite E. reflexivity.
      + rewrite Hj. intros x (y & -> & [_ Hy]%list_elem_of_filter)%elem_of_list_to_set%list_elem_of_fmap. by apply HB. }
  erewrite js_bind_run_ok by exact E3. set (s1 := Search _ _ _ _) in E3.
  exists (Search (Some j) true (indexDirty s1) ready), t, d. split; [reflexivity|]. split.
  - split; [|done..]. destruct Hw2 as [_ W2]. split; simpl in *; [by intros ? [= <-]|exact W2].
  - intros _. split; [done|]. exists j. split; [done|]. intros Hr. apply Hf. destruct b; [|done].
    destruct Hb as [_ [r Hr']]. simpl in Hr'. congruence.
Qed.

(** What a search returns, with no filter. *)
Lemma search_items_elem term (shown : jsmap Item) w i x : searchIndex (dv_search w) = Some i ->
  (forall j y, map_get j shown = Some y -> item_id kind y = j) -> NoDup shown.*1 ->
  x ∈ search_items kind term shown (fun _ => true) w <->
    map_get (item_id kind x) shown = Some x /\
    ((strlen (trim term) =? 0)%Z = true \/ item_id kind x ∈ ms_search term i).
Proof.
  intros Hi Hid Hn. unfold search_items. rewrite Hi, newest_first_perm, list_elem_of_filter, list_elem_of_omap.
  assert (forall h, map_get h shown = Some x -> h = item_id kind x) as Hh by (intros h Hh; symmetry; by apply Hid).
  destruct (strlen (trim term) =? 0)%Z; split.
  - intros (_ & h & _ & Hx). pose proof (Hh h Hx) as ->. auto.
  - intros [Hx _]. split; [done|]. exists (item_id kind x). split; [|done]. apply jsmap_elem in Hx; [|done].
    by apply (list_elem_of_fmap_2 (fun kv => item_id kind kv.2)) in Hx.
  - intros (_ & h & Hhit & Hx). pose proof (Hh h Hx) as ->. auto.
  - intros [Hx [?|Hhit]]; [done|]. split; [done|]. by exists (item_id kind x).
Qed.

Lemma open_saved c i k iv ct : length iv = IV_LENGTH ->
  encrypt iv (utf8_encode (ms_toJSON i)) k (Some (buildIndexArtifactAad (INDEX_ID kind) INDEX_SCOPE INDEX_VERSION c)) = Ok ct ->
  exists i', open_index kind (ArtifactRecord (INDEX_ID kind) INDEX_SCOPE INDEX_VERSION ct c now) k = Some i' /\ ids i' = ids i.
Proof.
  intros Hiv E. destruct (ids_json _ _ laws i) as (Hne & i' & Hl & Hi). exists i'. split; [|done].
  unfold open_index. simpl. rewrite (decrypt_encrypt _ _ _ _ _ Hiv) with (2 := E).
  - rewrite utf8_roundtrip. exact Hl.
  - intros E0. apply Hne. pose proof (utf8_roundtrip (ms_toJSON i)) as Hu. rewrite E0 in Hu. by injection Hu as <-.
Qed.

Lemma persistIndex_ok B w c : device_ok deriveKey keyof own (dv_device w) -> within B w ->
  exists s t d, persistIndex kind now c w = (Ok tt, research s t d w) /\ searched B w s t d /\
    searchIndex s = searchIndex (dv_search w).
Proof.
  intros Hd Hw. unfold persistIndex, gets. unfold mbind at 1, js_bind at 1.
  assert (exists s t d, (Ok tt : result app_error unit, w) = (Ok tt, research s t d w) /\ searched B w s t d /\
    searchIndex s = searchIndex (dv_search w)) as Hnothing.
  { exists (dv_search w), (dv_artifacts w), (dv_device w). split; [by destruct w|]. split; [|done]. split; [by destruct w|done|].
    apply only_key_refl. }
  destruct (searchIndex (dv_search w)) as [i|] eqn:Ei; [|done]. destruct (indexDirty (dv_search w)); [|done].
  destruct (ensureSearchKey_ok B w Hd Hw) as (k & d & E1 & Hs & Hd' & Ho & Hst & Hk). erewrite js_bind_run_ok by exact E1.
  set (aad := buildIndexArtifactAad (INDEX_ID kind) INDEX_SCOPE INDEX_VERSION c).
  destruct (encrypt_fresh_ok deriveKey keyof own (utf8_encode (ms_toJSON i)) k (Some aad) d Hd' Hs) as [ct Ec].
  set (r := ArtifactRecord (INDEX_ID kind) INDEX_SCOPE INDEX_VERSION ct c now).
  exists (Search (Some i) (indexLoaded (dv_search w)) false (phase (dv_search w))),
    (IndexArtifactStore.put r (dv_artifacts w)), (drawn 1 d). split; [|split; [split|]].
  - assert (on_device (encrypt_fresh (utf8_encode (ms_toJSON i)) k (Some aad)) (set_device d w) =
      (Ok ct, set_device (drawn 1 d) w)) as Ec' by (unfold on_device; simpl dv_device; by rewrite Ec).
    unfold saveSearchIndex. rewrite (js_bind_run_ok _ _ _ tt (set_artifacts (IndexArtifactStore.put r (dv_artifacts w))
      (set_device (drawn 1 d) w))) by (rewrite (js_bind_run_ok _ _ _ _ _ Ec'); reflexivity).
    unfold modify, on_search, research. simpl. by rewrite Ei.
  - destruct Hw as [W1 W2]. split; simpl; [intros j [= <-]; by apply W1|]. intros r'. rewrite artifact_get_put, decide_True by done.
    intros [= <-]. exists k. split; [exact Hst|]. rewrite encrypt_fresh_run in Ec.
    destruct (encrypt (ivs d 0) _ k (Some aad)) as [ct'|] eqn:Ee; simplify_eq/=.
    destruct (open_saved c i k _ ct (proj1 (dok_entropy _ _ _ _ Hd' 0)) Ee) as (i' & Ho' & Hi'). intros j Hj.
    fold r in Ho'. replace j with i' by congruence. rewrite Hi'. by apply W1.
  - by apply device_ok_drawn.
  - eapply only_key_trans; [exact Ho|apply only_key_drawn].
  - done.
Qed.

End Indexing.
(** ** Lemmas: a projection of snapshots with a search index *)

Section Projection.
Context `{CryptoServicePort} (deriveKey : list Z -> string -> list Z) (now : number).
Context (keyof : string -> option (list Z)) (own : list string) (own_free : forall i, i ∈ own -> keyof i = None).
Context {St Ev Item X : Type} `{SearchEngine Item} (kind : snapshot_kind St Ev Item X) (skind : search_kind Item).
Context (wf : string -> St -> Prop) (side : gmap string Item -> X -> Prop).
Context (ids : search_index -> gset string) (laws : search_laws (item_id skind) ids).
Context (key_own : SEARCH_KEY_ID skind ∈ own).
(** The index takes the items shown, under the ids of their aggregates. *)
Context (item_key : forall i s, wf i s -> item_id skind (k_item kind s) = i).
Context (item_shown : forall s, item_active skind (k_item kind s) = k_active kind s).
(** Whether the index is known to be exact: [false] when it may have been read
    from storage. *)
Context (exact : bool).
Notation world := (derived St Item X search_index).
Notation snapshots := (gmap string St).
Notation in_order := (device_ok deriveKey keyof own).
Implicit Types (w : world) (M : snapshots).

Definition active_ids M : gset string := dom (filter (fun ks => k_active kind ks.2 = true) M).

Record shows M w : Prop := {
  sw_device : in_order (dv_device w);
  sw_snapshots : reflects keyof kind wf side M w;
  sw_index : within skind ids (dom M) w;
  sw_exact : exact = true -> indexes ids (active_ids M) w
}.

Lemma shows_stores M w : shows M w -> stores keyof kind wf M w.
Proof. intros Hw. apply (rf_stores _ _ _ _ _ _ (sw_snapshots _ _ Hw)). Qed.

Lemma active_ids_insert M i s : active_ids (<[i := s]> M) = (active_ids M ∖ {[i]}) ∪ (if k_active kind s then {[i]} else ∅).
Proof.
  unfold active_ids. destruct (k_active kind s) eqn:Es.
  - rewrite map_filter_insert_True by done. rewrite dom_insert_L. apply set_eq. intros x. destruct (decide (x = i)); set_solver.
  - rewrite map_filter_insert_False by (simpl; congruence). rewrite map_filter_delete, dom_delete_L. set_solver.
Qed.

Lemma indexed_shown i s : indexed_id skind i (shown_item kind s) = if k_active kind s then {[i]} else ∅.
Proof. unfold shown_item, indexed_id. destruct (k_active kind s) eqn:E; [|done]. by rewrite item_shown, E. Qed.

(** Only the device, the side index and rows of other projections changed. *)
Lemma shows_ext M w w' : shows M w -> in_order (dv_device w') ->
  stored_key (SEARCH_KEY_ID skind) (dv_device w') = stored_key (SEARCH_KEY_ID skind) (dv_device w) ->
  reflects keyof kind wf side M w' -> dv_artifacts w' = dv_artifacts w -> dv_search w' = dv_search w -> shows M w'.
Proof.
  intros [D S [W1 W2] Y] Hd Hk Hr Ha Hs. split; [done|done|..].
  - split; rewrite ?Hs, ?Ha; [done|]. by rewrite Hk.
  - intros Hex i. rewrite Hs. by apply Y.
Qed.

Lemma shows_device M w i d : shows M w -> i ∉ own -> in_order d -> only_key i (dv_device w) d -> shows M (set_device d w).
Proof.
  intros Hw Hi Hd Ho. apply (shows_ext M w); try done; simpl.
  - apply (ok_stored _ _ _ Ho). by intros <-.
  - eapply reflects_ext; [apply Hw|done|done|apply (sr_keys _ _ _ _ _ (shows_stores _ _ Hw))|done|done].
Qed.

(** The snapshot of [i] is now [s], and the search index has been told. *)
Lemma shows_changed M w w' i s : shows M w -> wf i s -> reflects keyof kind wf side (<[i := s]> M) w' ->
  in_order (dv_device w') ->
  stored_key (SEARCH_KEY_ID skind) (dv_device w') = stored_key (SEARCH_KEY_ID skind) (dv_device w) ->
  dv_artifacts w' = dv_artifacts w -> dv_search w' = dv_search w ->
  exists se, applyProjectionChange skind (k_item kind <$> M !! i) (shown_item kind s) w' = (Ok tt, set_search se w') /\
    shows (<[i := s]> M) (notify (set_search se w')).
Proof.
  intros Hw Hwf Hr Hd Hk Ha Hs. pose proof Hw as [_ S X0 Y].
  assert (within skind ids (dom M) w') as Hx.
  { eapply within_ext; [exact X0|by rewrite Hk|done|]. rewrite Hs. apply X0. }
  destruct (change_within skind ids laws (dom M) w' (k_item kind <$> M !! i) (shown_item kind s) i Hx) as (se & E & Hx' & Hv').
  { intros p. destruct (M !! i) as [q|] eqn:Eq; [|done]. intros [= <-]. apply item_key.
    by apply (stores_wf keyof kind wf M w i q (shows_stores _ _ Hw)). }
  { intros p. unfold shown_item. destruct (k_active kind s); [|done]. intros [= <-]. by apply item_key. }
  { by intros [q ->]%elem_of_dom. }
  exists se. split; [done|]. split.
  - done.
  - eapply reflects_ext; [exact Hr|done|done|apply (sr_keys _ _ _ _ _ (rf_stores _ _ _ _ _ _ Hr))|done|done].
  - rewrite dom_insert_L. eapply within_ext; [exact Hx'|done|done|apply Hx'].
  - intros Hex. rewrite active_ids_insert. assert (indexes ids (active_ids M) w') as Hv.
    { intros x Hi. apply Y; [done|]. by rewrite <- Hs. }
    apply Hv' in Hv. by rewrite indexed_shown in Hv.
Qed.

Lemma shows_searched M w s t d : shows M w -> searched skind ids deriveKey keyof own (dom M) w s t d ->
  (exact = true -> indexes ids (active_ids M) (research s t d w)) -> shows M (research s t d w).
Proof.
  intros [D S X0 Y] [Hw Hd Ho] Hex. split; [done| |done|done].
  eapply reflects_ext; [exact S|done|done|apply (sr_keys _ _ _ _ _ (rf_stores _ _ _ _ _ _ S))|done|done].
Qed.

(** The index is stored. *)
Lemma shows_persisted M w c : shows M w -> exists s t d, persistIndex skind now c w = (Ok tt, research s t d w) /\
  shows M (research s t d w) /\ only_key (SEARCH_KEY_ID skind) (dv_device w) d.
Proof.
  intros Hw. destruct (persistIndex_ok skind now ids laws deriveKey keyof own key_own (own_free _ key_own) (dom M) w c
    (sw_device _ _ Hw) (sw_index _ _ Hw)) as (s & t & d & E & Hse & Hs).
  exists s, t, d. split; [done|]. split; [|apply Hse]. apply shows_searched; [done|done|].
  intros Hex i Hi. apply (sw_exact _ _ Hw Hex). rewrite <- Hs. exact Hi.
Qed.

(** Nothing is left of an earlier state. *)
Lemma shows_nothing w : in_order (dv_device w) -> dv_snapshots w = [] -> dv_projections w = [] ->
  NoDup (map ProjectionCacheStore.key (dv_cache w)) ->
  (forall i, ProjectionCacheStore.get (PROJECTION_ID kind) i (dv_cache w) = None) -> side ∅ (dv_extra w) ->
  dv_search w = no_search -> IndexArtifactStore.get (INDEX_ID skind) INDEX_SCOPE (dv_artifacts w) = None -> shows ∅ w.
Proof.
  intros Hd Hs Hp Hn Hr Hx Hse Ha. split; [done|by apply cleared_reflects|..].
  - split; [by rewrite Hse|]. intros r. by rewrite Ha.
  - intros _ i. by rewrite Hse.
Qed.

(** *** What is shown, listed and found *)

Lemma shown_entry M w k x : shows M w -> map_get k (dv_projections w) = Some x ->
  exists s, M !! k = Some s /\ k_active kind s = true /\ x = k_item kind s /\ item_id skind x = k.
Proof.
  intros Hw. rewrite (rf_shown _ _ _ _ _ _ (sw_snapshots _ _ Hw) k). destruct (M !! k) as [s|] eqn:E; [|done]. simpl.
  unfold shown_item. destruct (k_active kind s) eqn:Ea; [|done]. intros [= <-].
  exists s. split_and!; try done. by apply item_key, (stores_wf keyof kind wf M w k s (shows_stores _ _ Hw)).
Qed.

Lemma listed_ids_keys M w : shows M w -> map (item_id skind) (listProjections w) = (dv_projections w).*1.
Proof.
  intros Hw. unfold listProjections. rewrite <- list_fmap_compose. apply list_fmap_ext. intros n [k x] Hx. simpl.
  assert (map_get k (dv_projections w) = Some x) as Hk.
  { apply jsmap_elem; [apply Hw|]. by eapply list_elem_of_lookup_2. }
  by destruct (shown_entry M w k x Hw Hk) as (s & _ & _ & _ & ?).
Qed.

Lemma active_listed M w : shows M w ->
  list_to_set (map (item_id skind) (filter (fun x => item_active skind x = true) (listProjections w))) = active_ids M.
Proof.
  intros Hw. pose proof (sw_snapshots _ _ Hw) as S. apply set_eq. intros i. unfold active_ids.
  rewrite elem_of_list_to_set, list_elem_of_fmap, elem_of_dom. split.
  - intros (x & -> & [_ (kx & -> & Hx)%list_elem_of_fmap]%list_elem_of_filter). destruct kx as [k x].
    apply jsmap_elem in Hx; [|apply S]. destruct (shown_entry M w k x Hw Hx) as (s & Hs & Ha & -> & Hid).
    simpl in *. rewrite Hid. exists s. by apply map_lookup_filter_Some.
  - intros [s [Hs Ha]%map_lookup_filter_Some]. simpl in Ha.
    assert (map_get i (dv_projections w) = Some (k_item kind s)) as Hx.
    { rewrite (rf_shown _ _ _ _ _ _ S i), Hs. simpl. unfold shown_item. by rewrite Ha. }
    exists (k_item kind s). destruct (shown_entry M w i _ Hw Hx) as (s' & _ & _ & _ & Hid).
    split; [done|]. apply list_elem_of_filter. split; [by rewrite item_shown|].
    apply jsmap_elem in Hx; [|apply S]. by apply (list_elem_of_fmap_2 snd) in Hx.
Qed.

(** [ensureBuilt] over what is shown; without a stored index it is exact. *)
Lemma shows_built M w : shows M w ->
  (exact = true -> indexLoaded (dv_search w) = false /\
    IndexArtifactStore.get (INDEX_ID skind) INDEX_SCOPE (dv_artifacts w) = None) ->
  exists s t d, ensureBuilt skind (listProjections w) w = (Ok tt, research s t d w) /\
    shows M (research s t d w) /\ only_key (SEARCH_KEY_ID skind) (dv_device w) d /\
    (indexLoaded (dv_search w) = false -> exists i, searchIndex s = Some i /\ (exact = true -> ids i = active_ids M)).
Proof.
  intros Hw Hf.
  destruct (ensureBuilt_ok skind ids laws deriveKey keyof own key_own (own_free _ key_own) (dom M) w
    (listProjections w) (sw_device _ _ Hw) (sw_index _ _ Hw)) as (s & t & d & E & Hse & Hb).
  { rewrite (listed_ids_keys M w Hw). apply Hw. }
  { intros x (kx & -> & Hx)%list_elem_of_fmap. destruct kx as [k x]. apply jsmap_elem in Hx; [|apply Hw].
    destruct (shown_entry M w k x Hw Hx) as (s & Hs & _ & _ & Hid). simpl. rewrite Hid. by apply elem_of_dom. }
  exists s, t, d. split; [done|].
  assert (forall i, searchIndex s = Some i -> exact = true -> ids i = active_ids M) as Hids.
  { intros i Hi Hex. destruct (Hf Hex) as [Hl Ha]. destruct (Hb Hl) as (_ & j & Hj & Hv).
    rewrite <- (active_listed M w Hw), <- (Hv Ha). congruence. }
  split; [apply shows_searched; [done|done|intros Hex i Hi; by apply Hids]|]. split; [apply Hse|].
  intros Hl. destruct (Hb Hl) as (_ & i & Hi & _). exists i. split; [done|]. by apply Hids.
Qed.

End Projection.
End ProjectorLemmas.
