(* ===== verification/GoalProjection.v ===== *)
(** * The goal projection

    [packages/infrastructure/src/goals/derived-state]: [GoalSnapshotProjector.ts]
    and [GoalSearchProjector.ts] (the kinds of [Projectors]),
    [GoalAnalyticsProjector.ts], [GoalProjectionProcessor.ts] as the processor of
    a [ProjectionRuntime], and [goals/GoalReadModel.ts]. *)

From S2P Require Import Prelude JsValues JsonText RecordCodec ValueObjects Dates AggregateRoot Goal Project Crypto LocalDb EventStoreCore.
From S2P Require Import Application Keyring EventAdapters Snapshots DerivedState ProjectionRuntime ReadModels Projectors Samples.
From S2P Require Import GoalRepository.
From Stdlib Require Import Sorted.

Module GoalProjection.
Import GoalSnapshotCodec GoalProjectionState GoalAnalytics.

(** The totals in memory, when they have been read. *)
Definition totals_cache : Type := option AnalyticsPayload.

Definition goal_snapshots : snapshot_kind GoalSnapshotState Goal.payload_t GoalListItem totals_cache :=
  Kind "goal_snapshot"
    (fun prev e => applyEventToSnapshot prev e (next_version prev))
    active
    (fun s => to_Z (gs_version s))
    encodeGoalSnapshotState decodeGoalSnapshotState snapshotToListItem
    (fun _ _ x => x) (fun _ _ x => x).

Definition goal_search : search_kind GoalListItem :=
  SearchKind "goal_search" "goal_search_index" gi_id
    (fun x => match gi_archivedAt x with None => true | Some _ => false end) gi_createdAt.

(** *** [GoalAnalyticsProjector] *)

Definition ANALYTICS_PROJECTION_ID : string := "goal_analytics".
Definition ANALYTICS_SCOPE : string := "global".
Definition ANALYTICS_KEY_ID : string := "goal_analytics".
Definition ANALYTICS_VERSION : Z := 1.

Definition totals_json (t : totals) : json :=
  JObj (map (fun kb => (kb.1, JObj (map (fun sn => (sn.1, JNum (num sn.2))) kb.2))) t).
Definition analytics_json (a : AnalyticsPayload) : json :=
  JObj [("monthlyTotals", totals_json (monthlyTotals a)); ("categoryRollups", totals_json (categoryRollups a))].

(** The code checks the two objects and takes their content on trust; here
    content that no [analytics_json] wrote has the same error. *)
Definition bucket_of (v : json) : option (list (string * Z)) :=
  match v with
  | JObj o => mapM (fun kv => match kv.2 with JNum n => Some (kv.1, to_Z n) | _ => None end) o
  | _ => None
  end.
Definition totals_of (v : option json) : option totals :=
  match v with
  | Some (JObj o) => mapM (fun kv => (fun b => (kv.1, b)) <$> bucket_of kv.2) o
  | _ => None
  end.
Definition parseAnalyticsPayload (v : json) : result error AnalyticsPayload :=
  match v with
  | JObj o =>
      match totals_of (assoc "monthlyTotals" o), totals_of (assoc "categoryRollups" o) with
      | Some m, Some c => Ok (Analytics m c)
      | _, _ => Err (PlainError "Analytics payload shape is invalid")
      end
  | _ => Err (PlainError "Analytics payload must be an object")
  end.

Section Processor.
Context `{CryptoServicePort} `{SearchEngine GoalListItem}.
Context (deriveKey : list Z -> string -> list Z) (now : number).

Definition world : Type := derived GoalSnapshotState GoalListItem totals_cache search_index.
Notation dm := (js world app_error).

Definition ensureAnalyticsKey : dm (list Z) := on_device (ensure_key ANALYTICS_KEY_ID).

Definition analytics_aad (v : Z) (c : EffectiveCursor) : list Z :=
  buildProjectionCacheAad ANALYTICS_PROJECTION_ID ANALYTICS_SCOPE v c.

(** A row that does not open, or is no totals, throws. *)
Definition open_analytics (r : ProjectionCacheRecord) (k : list Z) : result error AnalyticsPayload :=
  plaintext ← decrypt (pc_cacheEncrypted r) k (Some (analytics_aad (pc_cacheVersion r) (pc_lastEffectiveCursor r)));
  match utf8_decode plaintext ≫= JSON_parse with
  | Some v => parseAnalyticsPayload v
  | None => Err (PlainError "")
  end.

Definition loadAnalytics (k : list Z) : dm AnalyticsPayload :=
  inMemory ← gets dv_extra;
  match inMemory with
  | Some a => mret a
  | None =>
      row ← gets (fun w => ProjectionCacheStore.get ANALYTICS_PROJECTION_ID ANALYTICS_SCOPE (dv_cache w));
      match row with
      | None => mret createEmptyAnalytics
      | Some r => lift_result (lift_error (open_analytics r k))
      end
  end.

Definition saveAnalytics (k : list Z) (a : AnalyticsPayload) (c : EffectiveCursor) (commit : Z) : dm unit :=
  cipher ← on_device (encrypt_fresh (utf8_encode (JSON_stringify (analytics_json a))) k (Some (analytics_aad ANALYTICS_VERSION c)));
  modify (fun w => set_cache (ProjectionCacheStore.put
    (CacheRecord ANALYTICS_PROJECTION_ID ANALYTICS_SCOPE ANALYTICS_VERSION cipher effectiveTotalOrder c commit now)
    (dv_cache w)) w).

Definition updateAnalytics (prev nxt : option GoalSnapshotState) (c : EffectiveCursor) (commit : Z) : dm unit :=
  k ← ensureAnalyticsKey;
  current ← loadAnalytics k;
  let updated := applyAnalyticsDeltas current (buildAnalyticsDeltas prev nxt) in
  _ ← saveAnalytics k updated c commit;
  modify (set_extra (Some updated)).

Definition clearAnalytics : dm unit := modify (set_extra None).
Definition clearPersistedAnalytics : dm unit :=
  modify (fun w => set_cache (ProjectionCacheStore.remove ANALYTICS_PROJECTION_ID ANALYTICS_SCOPE (dv_cache w)) w).

(** *** [GoalProjectionProcessor] *)

(** [toEncryptedEvent]: an event record as the row of a goal. *)
Definition toEncryptedEvent (ty : string) (r : EventRecord) : MaterializedEventRow :=
  EventCols (er_id r) ty (er_aggregateId r) (er_eventType r) (er_payload r) (er_version r) (er_occurredAt r)
    (er_actorId r) (er_causationId r) (er_correlationId r) None None None None None None None None.

Definition skip_missing_key (m : dm bool) : dm bool :=
  try_catch m (fun e => match e with MissingKeyError _ => mret false | _ => throw e end).

(** [applyEvent] once the event is a domain event. *)
Definition apply_domain_event (r : EventRecord) (k : list Z) (c : EffectiveCursor) (commit : Z) (e : domain_event) : dm bool :=
  match e with
  | ProjectEvent _ => mret false
  | GoalEvent e =>
      res ← apply_snapshot_event goal_snapshots now (er_aggregateId r) (payload e) k c commit;
      match changed res, next res with
      | true, Some s =>
          _ ← updateAnalytics (previous res) (Some s) c commit;
          _ ← applyProjectionChange goal_search (previousItem res) (nextItem res);
          _ ← modify notify;
          mret true
      | _, _ => mret false
      end
  end.

Definition applyGoalEvent (r : EventRecord) (c : EffectiveCursor) (commit : Z) : dm bool :=
  let event := toEncryptedEvent "goal" r in
  skip_missing_key (
    kGoal ← on_device (KeyringManager.resolveKeyForEvent deriveKey (er_aggregateId r));
    e ← lift_result (lift_error (toDomain event kGoal));
    apply_domain_event r kGoal c commit e).

Definition resetGoals : dm unit :=
  _ ← clearCaches None;
  _ ← clearAnalytics;
  _ ← reset_search;
  _ ← clearPersisted goal_snapshots;
  _ ← clearPersistedAnalytics;
  clearPersistedIndex goal_search.

Definition goal_processor : ProjectionProcessor world :=
  Processor "goal_projection" effectiveTotalOrder
    (fun _ _ => bootstrapFromCache goal_snapshots)
    applyGoalEvent
    (fun info => persistIndex goal_search now (batch_cursor info))
    resetGoals.

(** The event tables a runtime of this processor reads. *)
Definition event_tables (w : world) : local_db := db (dv_device w).

(** *** Reading *)

Record GoalListFilter : Type := GoalFilter {
  gf_slice : option string;
  gf_month : option string;
  gf_priority : option string
}.

(** [filter.f && item.f !== filter.f]: an empty or absent filter asks nothing. *)
Definition asks (f : option string) (x : string) : bool :=
  negb (truthy f) || bool_decide (f = Some x).
Definition matchesFilter (f : option GoalListFilter) (x : GoalListItem) : bool :=
  match f with
  | None => true
  | Some f => asks (gf_slice f) (gi_slice x) && asks (gf_month f) (gi_targetMonth x) && asks (gf_priority f) (gi_priority x)
  end.

Definition listGoals (w : world) : list GoalListItem := newest_first gi_createdAt (listProjections w).
Definition getGoalById (i : string) (w : world) : option GoalListItem := getProjection i w.
Definition searchGoals (term : string) (f : option GoalListFilter) : dm (list GoalListItem) :=
  items ← gets listProjections;
  _ ← ensureBuilt goal_search items;
  gets (fun w => search_items goal_search term (dv_projections w) (matchesFilter f) w).
Definition ensureGoalIndex (indexId : string) : dm unit :=
  if bool_decide (indexId = "goal_search") then items ← gets listProjections; ensureBuilt goal_search items else skip.
Definition goal_index_status (indexId : string) (w : world) : string * IndexBuildPhase :=
  if bool_decide (indexId = "goal_search") then search_status goal_search w else (indexId, missing).

(** *** [GoalReadModel.ts]: each answer is given after the projection has
    caught up ([whenReady] holds once [start] has ended). *)

Section ReadModel.
Context (batchSize fuel : nat).
Notation rt := (js (runtime world) app_error).

Definition caught_up {A} (m : rt A) : rt (option A) :=
  done ← flush event_tables goal_processor "goal" batchSize now fuel;
  match done with
  | Some _ => a ← m; mret (Some a)
  | None => mret None
  end.

Definition read_list (f : option GoalListFilter) : rt (option (list GoalListItem)) :=
  caught_up (gets (fun r => filter (fun x => matchesFilter f x = true) (listGoals (ProjectionRuntime.world r)))).
Definition read_by_id (i : string) : rt (option (option GoalListItem)) :=
  caught_up (gets (fun r => getGoalById i (ProjectionRuntime.world r))).
Definition read_search (term : string) (f : option GoalListFilter) : rt (option (list GoalListItem)) :=
  caught_up (ProjectionRuntime.on_world (searchGoals term f)).

End ReadModel.
End Processor.
End GoalProjection.

(** ** Lemmas: the totals through storage *)

Module GoalProjectionLemmas.
Import JsObject GoalSnapshotCodec GoalProjectionState GoalAnalytics GoalProjection AnalyticsLemmas.
Import JsonTextProperties RecordCodecProperties SnapshotLemmas ApplicationLemmas KeyringLemmas ProjectorLemmas.

(** No key twice, in the totals and in each bucket. *)
Definition keyed (t : totals) : Prop := NoDup t.*1 /\ Forall (fun kb => NoDup kb.2.*1) t.
Definition keyed_analytics (a : AnalyticsPayload) : Prop := keyed (monthlyTotals a) /\ keyed (categoryRollups a).

Lemma keyed_applyDelta t k sl d : keyed t -> keyed (applyDelta t k sl d).
Proof.
  intros [Ht Hb]. unfold applyDelta. set (b := default [] (assoc k t)).
  assert (NoDup b.*1) as Hn.
  { subst b. destruct (assoc k t) as [b|] eqn:E; [|constructor]. simpl.
    apply assoc_elem in E. by apply (proj1 (Forall_forall _ _) Hb (k, b)). }
  set (z := (_ + d)%Z). destruct (if (z =? 0)%Z then _ else _) as [|x b'] eqn:E.
  - split; [by apply delete_key_NoDup|]. by apply delete_key_Forall.
  - split; [by apply set_key_NoDup|]. apply set_key_Forall; [done|]. cbn [snd]. rewrite <- E.
    destruct (z =? 0)%Z; [by apply delete_key_NoDup|by apply set_key_NoDup].
Qed.

Lemma keyed_deltas a d : keyed_analytics a -> keyed_analytics (applyAnalyticsDeltas a d).
Proof.
  intros [Hm Hc]. split; simpl.
  - generalize dependent (monthlyTotals a). induction (monthly d) as [|x l IH]; intros t Ht; [done|].
    apply IH. by apply keyed_applyDelta.
  - generalize dependent (categoryRollups a). induction (category d) as [|x l IH]; intros t Ht; [done|].
    apply IH. by apply keyed_applyDelta.
Qed.

Lemma bucket_json_ok (b : list (string * Z)) : NoDup b.*1 ->
  json_ok (JObj (map (fun sn => (sn.1, JNum (num sn.2))) b)) = true.
Proof.
  intros Hb. cbn [json_ok]. rewrite map_map. simpl. rewrite bool_decide_true by done. simpl.
  clear Hb. by induction b as [|[k z] b IH].
Qed.

Lemma totals_json_ok t : keyed t -> json_ok (totals_json t) = true.
Proof.
  intros [Ht Hb]. unfold totals_json. cbn [json_ok]. rewrite map_map. simpl. rewrite bool_decide_true by done. simpl.
  clear Ht. induction Hb as [|[k b] t Hk Hb IH]; [done|]. cbn [map forallb fst snd].
  by rewrite (bucket_json_ok b Hk), IH.
Qed.

Lemma bucket_back (b : list (string * Z)) : bucket_of (JObj (map (fun sn => (sn.1, JNum (num sn.2))) b)) = Some b.
Proof.
  unfold bucket_of. induction b as [|[k z] b IH]; [done|]. cbn [map mapM fst snd]. unfold mbind, option_bind in *.
  rewrite IH. unfold mret, option_ret. by rewrite to_Z_num.
Qed.

Lemma totals_back t : totals_of (Some (totals_json t)) = Some t.
Proof.
  unfold totals_of, totals_json. induction t as [|[k b] t IH]; [done|]. cbn [map mapM fst snd]. rewrite bucket_back.
  unfold mbind, option_bind in *. simpl in *. by rewrite IH.
Qed.

Lemma analytics_back a : keyed_analytics a ->
  exists v, utf8_decode (utf8_encode (JSON_stringify (analytics_json a))) ≫= JSON_parse = Some v /\
    parseAnalyticsPayload v = Ok a.
Proof.
  intros [Hm Hc]. exists (analytics_json a). split.
  - apply decode_utf8_json. unfold analytics_json. cbn [json_ok forallb].
    by rewrite (totals_json_ok _ Hm), (totals_json_ok _ Hc).
  - unfold parseAnalyticsPayload, analytics_json. pose proof (totals_back (monthlyTotals a)) as H1.
    pose proof (totals_back (categoryRollups a)) as H2. destruct a as [m c]. cbn [monthlyTotals categoryRollups] in *.
    revert H1 H2. generalize (totals_json m) (totals_json c). intros vm vc Hvm Hvc.
    lookup_fields. by rewrite Hvm, Hvc.
Qed.

(** *** Snapshots through storage *)

(** A snapshot of the goal [i], with whole times and a four-digit year. *)
Definition goal_wf (i : string) (s : GoalSnapshotState) : Prop :=
  gs_id s = i /\ exists g, s = state_of g /\ goal_snapshot_plain g.

Definition goal_fine (i : string) (e : Goal.payload_t) : Prop :=
  match e with
  | Goal.GoalCreated g _ _ tm _ _ t => value g = i /\ (Month.year tm <= 9999)%Z /\ plain_time t
  | Goal.GoalRescheduled _ tm _ => (Month.year tm <= 9999)%Z
  | Goal.GoalAchieved _ t | Goal.GoalArchived _ t => plain_time t
  | _ => True
  end.

Lemma goal_stored i s : goal_wf i s -> encodeGoalSnapshotState s <> [] /\
  decodeGoalSnapshotState (encodeGoalSnapshotState s) (to_Z (gs_version s)) = Ok s.
Proof.
  intros (_ & g & -> & Hg).
  assert (decodeGoalSnapshotState (encodeGoalSnapshotState (state_of g)) (to_Z (gs_version (state_of g))) = Ok (state_of g)) as E.
  { unfold decodeGoalSnapshotState, encodeGoalSnapshotState.
    rewrite snapshot_envelope_roundtrip by (done || by apply goal_payload_json_ok).
    cbn [mbind result_bind snapshotVersion snap_data].
    change (upcastGoalSnapshot (num SNAPSHOT_VERSION)) with parsePayloadV2. rewrite goal_payload_parses.
    cbn [mbind result_bind]. unfold with_aggregate_version, state_of. cbn [gs_version]. by rewrite to_Z_num. }
  split; [|exact E]. intros E0. rewrite E0 in E. discriminate E.
Qed.

(** Goals have no side index. *)
Definition no_side (_ : gmap string GoalListItem) (_ : totals_cache) : Prop := True.

(** Totals that have not been read. *)
Definition unread_totals (_ : gmap string GoalListItem) (x : totals_cache) : Prop := x = None.

Lemma unread_restored V x i s : unread_totals V x -> V !! i = None -> goal_wf i s -> k_active goal_snapshots s = true ->
  unread_totals (<[i := k_item goal_snapshots s]> V) (k_restored goal_snapshots (k_item goal_snapshots s) i x).
Proof. done. Qed.

Lemma unread_changed V x i prev s : unread_totals V x -> (forall p, prev = Some p -> goal_wf i p) -> goal_wf i s ->
  V !! i = prev ≫= shown_item goal_snapshots ->
  unread_totals (match shown_item goal_snapshots s with Some y => <[i := y]> V | None => delete i V end)
    (k_changed goal_snapshots prev (shown_item goal_snapshots s) x).
Proof. done. Qed.

(** The domain snapshot after an event. *)
Definition goal_snapshot_step (g : Goal.GoalSnapshot) (e : Goal.payload_t) : Goal.GoalSnapshot :=
  let '(Goal.Snapshot i su sl pr tm cb ca ac ar v) := g in
  match e with
  | Goal.GoalCreated _ _ _ _ _ _ _ => g
  | Goal.GoalRefined _ su' _ => Goal.Snapshot i su' sl pr tm cb ca ac ar (v + 1)
  | Goal.GoalRecategorized _ sl' _ => Goal.Snapshot i su sl' pr tm cb ca ac ar (v + 1)
  | Goal.GoalRescheduled _ tm' _ => Goal.Snapshot i su sl pr tm' cb ca ac ar (v + 1)
  | Goal.GoalPrioritized _ pr' _ => Goal.Snapshot i su sl pr' tm cb ca ac ar (v + 1)
  | Goal.GoalAchieved _ t => Goal.Snapshot i su sl pr tm cb ca (Some t) ar (v + 1)
  | Goal.GoalUnachieved _ _ => Goal.Snapshot i su sl pr tm cb ca None ar (v + 1)
  | Goal.GoalArchived _ t => Goal.Snapshot i su sl pr tm cb ca ac (Some t) (v + 1)
  | Goal.GoalAccessGranted _ _ _ _ | Goal.GoalAccessRevoked _ _ _ => Goal.Snapshot i su sl pr tm cb ca ac ar (v + 1)
  end.

Lemma goal_created_or e : (exists g sl su tm pr cb t, e = Goal.GoalCreated g sl su tm pr cb t) \/
  GoalReadLemmas.is_created e = false.
Proof. destruct e; [left; by repeat eexists|by right..]. Qed.

Lemma goal_step_state g e : GoalReadLemmas.is_created e = false ->
  GoalReadLemmas.project_event (Some (state_of g)) e = Some (state_of (goal_snapshot_step g e)).
Proof. destruct g, e; done. Qed.

Lemma goal_kept i prev e s : (forall p, prev = Some p -> goal_wf i p) -> goal_fine i e ->
  GoalReadLemmas.project_event prev e = Some s -> goal_wf i s.
Proof.
  intros Hp He. destruct (goal_created_or e) as [(g & sl & su & tm & pr & cb & t & ->)|Hc].
  - destruct He as (Hi & Hy & Ht). intros Hs.
    assert (exists z, s = state_of (Goal.Snapshot g su sl pr tm cb t None None z)) as [z ->].
    { destruct prev as [p|]; [|exists 1%Z; by injection Hs as <-]. destruct (Hp p eq_refl) as (_ & q & -> & _).
      exists (Goal.s_version q + 1)%Z. by injection Hs as <-. }
    split; [done|]. eexists. split; [reflexivity|]. by repeat split.
  - destruct prev as [p|]; [|by destruct e]. destruct (Hp p eq_refl) as (Hi & g & -> & Hm & H1 & H2 & H3).
    rewrite goal_step_state by done. intros [= <-]. split.
    + rewrite <- Hi. by destruct g, e.
    + eexists. split; [done|]. destruct g, e; simpl in *; by repeat split.
Qed.

(** ** Lemmas: the processor *)

(** The keys the projection draws for itself. *)
Definition own_keys : list string := [ANALYTICS_KEY_ID; SEARCH_KEY_ID goal_search].

Lemma search_key_own : SEARCH_KEY_ID goal_search ∈ own_keys.
Proof. unfold own_keys. set_solver. Qed.

Section Processing.
Context `{CryptoServicePort} `{SearchEngine GoalListItem}.
Context (deriveKey : list Z -> string -> list Z) (now : number).
Context (keyof : string -> option (list Z)).
Context (ids : search_index -> gset string) (laws : search_laws gi_id ids).

Notation in_order := (device_ok deriveKey keyof own_keys).
Context (own_free : forall i, i ∈ own_keys -> keyof i = None).
Notation world := (GoalProjection.world).
Notation snapshots := (gmap string GoalSnapshotState).
Implicit Types (w : world) (M : snapshots) (a : AnalyticsPayload).

(** The totals [a] are stored, and in memory if anything is. *)
Record totals_kept a w : Prop := {
  tk_keyed : keyed_analytics a;
  tk_memory : dv_extra w = None \/ dv_extra w = Some a;
  tk_row : match ProjectionCacheStore.get ANALYTICS_PROJECTION_ID ANALYTICS_SCOPE (dv_cache w) with
           | None => a = createEmptyAnalytics
           | Some r => exists k, stored_key ANALYTICS_KEY_ID (dv_device w) = Ok (Some k) /\ open_analytics r k = Ok a
           end
}.

Lemma totals_ext a w w' : totals_kept a w -> dv_extra w' = dv_extra w ->
  ProjectionCacheStore.get ANALYTICS_PROJECTION_ID ANALYTICS_SCOPE (dv_cache w') =
    ProjectionCacheStore.get ANALYTICS_PROJECTION_ID ANALYTICS_SCOPE (dv_cache w) ->
  stored_key ANALYTICS_KEY_ID (dv_device w') = stored_key ANALYTICS_KEY_ID (dv_device w) -> totals_kept a w'.
Proof. intros [K M R] E1 E2 E3. split; [done|by rewrite E1|]. by rewrite E2, E3. Qed.

Lemma loadAnalytics_device a w d k : totals_kept a w ->
  (forall k0, stored_key ANALYTICS_KEY_ID (dv_device w) = Ok (Some k0) -> k0 = k) ->
  loadAnalytics k (set_device d w) = (Ok a, set_device d w).
Proof.
  intros [_ Hm Hr] Hk. unfold loadAnalytics, gets, mbind, js_bind. simpl. destruct Hm as [-> | ->]; [|done].
  destruct (ProjectionCacheStore.get _ _ _) as [r|]; [|by rewrite Hr]. destruct Hr as (k0 & Hk0 & Ho).
  rewrite <- (Hk k0 Hk0). unfold lift_result. by rewrite Ho.
Qed.

Lemma open_saved_analytics a c n k iv ct : keyed_analytics a -> length iv = IV_LENGTH ->
  encrypt iv (utf8_encode (JSON_stringify (analytics_json a))) k (Some (analytics_aad ANALYTICS_VERSION c)) = Ok ct ->
  open_analytics (CacheRecord ANALYTICS_PROJECTION_ID ANALYTICS_SCOPE ANALYTICS_VERSION ct effectiveTotalOrder c n now) k = Ok a.
Proof.
  intros Ha Hiv E. destruct (analytics_back a Ha) as (v & Hv & Hp). unfold open_analytics. cbn [pc_cacheEncrypted
    pc_cacheVersion pc_lastEffectiveCursor]. rewrite (decrypt_encrypt _ _ _ _ _ Hiv) with (2 := E).
  - cbn [mbind result_bind]. by rewrite Hv.
  - intros E0. rewrite E0 in Hv. discriminate Hv.
Qed.

(** [updateAnalytics]: the new totals are in memory and stored. *)
Lemma updateAnalytics_ok a w prev nxt c n : in_order (dv_device w) -> totals_kept a w ->
  let a' := applyAnalyticsDeltas a (buildAnalyticsDeltas prev nxt) in
  exists r d, updateAnalytics now prev nxt c n w =
      (Ok tt, set_extra (Some a') (set_cache (ProjectionCacheStore.put r (dv_cache w)) (set_device d w))) /\
    in_order d /\ only_key ANALYTICS_KEY_ID (dv_device w) d /\
    ProjectionCacheStore.key r = (ANALYTICS_PROJECTION_ID, ANALYTICS_SCOPE) /\
    totals_kept a' (set_extra (Some a') (set_cache (ProjectionCacheStore.put r (dv_cache w)) (set_device d w))).
Proof.
  intros Hd Ht a'. assert (ANALYTICS_KEY_ID ∈ own_keys) as Hown by (unfold own_keys; set_solver).
  destruct (ensure_key_ok deriveKey keyof own_keys ANALYTICS_KEY_ID (dv_device w) Hd Hown (own_free _ Hown))
    as (k & d & E1 & Hs & Hd' & Ho & Hst & Hk).
  assert (keyed_analytics a') as Ha' by (apply keyed_deltas, (tk_keyed _ _ Ht)).
  destruct (encrypt_fresh_ok deriveKey keyof own_keys (utf8_encode (JSON_stringify (analytics_json a'))) k
    (Some (analytics_aad ANALYTICS_VERSION c)) d Hd' Hs) as [ct Ec].
  set (r := CacheRecord ANALYTICS_PROJECTION_ID ANALYTICS_SCOPE ANALYTICS_VERSION ct effectiveTotalOrder c n now).
  exists r, (drawn 1 d). split; [|split; [by apply device_ok_drawn|split; [|split; [done|]]]].
  - unfold updateAnalytics. rewrite (js_bind_run_ok _ _ w k (set_device d w)) by (unfold ensureAnalyticsKey, on_device; by rewrite E1).
    rewrite (js_bind_run_ok _ _ _ _ _ (loadAnalytics_device a w d k Ht Hk)). cbv zeta. fold a'.
    rewrite (js_bind_run_ok _ _ _ tt (set_cache (ProjectionCacheStore.put r (dv_cache w)) (set_device (drawn 1 d) w))); [reflexivity|].
    unfold saveAnalytics. rewrite (js_bind_run_ok _ _ _ ct (set_device (drawn 1 d) w)); [reflexivity|].
    unfold on_device. change (dv_device (set_device d w)) with d. by rewrite Ec.
  - eapply only_key_trans; [exact Ho|apply only_key_drawn].
  - split; [done|by right|]. simpl. rewrite cache_get_put, decide_True by done. exists k. split; [exact Hst|].
    rewrite encrypt_fresh_run in Ec. destruct (encrypt (ivs d 0) _ k _) as [ct'|] eqn:Ee; simplify_eq/=.
    by apply (open_saved_analytics a' c n k (ivs d 0) ct Ha' (proj1 (dok_entropy _ _ _ _ Hd' 0))).
Qed.

(** *** What the projection shows: snapshots and totals *)

Lemma goal_item_key i s : goal_wf i s -> item_id goal_search (k_item goal_snapshots s) = i.
Proof. by intros [<- _]. Qed.

Lemma goal_item_shown s : item_active goal_search (k_item goal_snapshots s) = k_active goal_snapshots s.
Proof. destruct s as [i su sl pr tm cb ca ac [ar|] v]; reflexivity. Qed.

Context (exact : bool).
Notation shows_goals := (shows deriveKey keyof own_keys goal_snapshots goal_search goal_wf no_side ids exact).

Record goal_shows (w : world) (st : snapshots * AnalyticsPayload) : Prop := {
  gw_shows : shows_goals st.1 w;
  gw_totals : totals_kept st.2 w
}.

(** A state a rebuild can start from. *)
Definition goal_usable (w : world) : Prop :=
  in_order (dv_device w) /\ NoDup (map ProjectionCacheStore.key (dv_cache w)).

(** The event of a row, for those who have its key. *)
Definition readable (r : EventRecord) : option Goal.payload_t :=
  match keyof (er_aggregateId r) with
  | None => None
  | Some k => match toDomain (toEncryptedEvent "goal" r) k with
              | Ok (GoalEvent e) => Some (payload e)
              | _ => None
              end
  end.

(** The step of [read_step]; an event without a key changes nothing. *)
Definition goal_step (st : snapshots * AnalyticsPayload) (r : EventRecord) : snapshots * AnalyticsPayload :=
  match readable r with
  | Some e => read_step st (er_aggregateId r, e)
  | None => st
  end.

(** Rows of goals: not under a key of the projection's own; those whose key is
    here open, to an event of the goal. *)
Definition good_row (r : EventRecord) : Prop :=
  (er_aggregateId r ∉ own_keys) /\
  forall k, keyof (er_aggregateId r) = Some k -> exists e, toDomain (toEncryptedEvent "goal" r) k = Ok e /\
    match e with GoalEvent e => goal_fine (er_aggregateId r) (payload e) | ProjectEvent _ => True end.

Lemma apply_goal_row r k c n w e : in_order (dv_device w) -> keyof (er_aggregateId r) = Some k ->
  toDomain (toEncryptedEvent "goal" r) k = Ok e ->
  exists d, in_order d /\ only_key (er_aggregateId r) (dv_device w) d /\
    applyGoalEvent deriveKey now r c n w = skip_missing_key (apply_domain_event now r k c n e) (set_device d w).
Proof.
  intros Hd Hk He. destruct (resolve_known deriveKey keyof own_keys (er_aggregateId r) k (dv_device w) Hd Hk)
    as (d & E & Hd' & Ho). exists d. split; [done|]. split; [done|].
  unfold applyGoalEvent, skip_missing_key, try_catch, on_device, lift_result, mbind, js_bind. cbv zeta. rewrite E, He. reflexivity.
Qed.

Lemma goal_shows_device w st i d : goal_shows w st -> i ∉ own_keys -> in_order d -> only_key i (dv_device w) d ->
  goal_shows (set_device d w) st.
Proof.
  intros [S T] Hi Hd Ho. split; [|eapply totals_ext; [done..|]].
  - eapply shows_device; [|exact S|exact Hi|exact Hd|exact Ho]. unfold own_keys. set_solver.
  - apply (ok_stored _ _ _ Ho). intros <-. apply Hi. unfold own_keys. set_solver.
Qed.

(** An event of a goal, once its key and its payload are there. *)
Lemma apply_goal_event_ok r k c n w st e : goal_shows w st -> keyof (er_aggregateId r) = Some k ->
  goal_fine (er_aggregateId r) (payload e) -> exists b w',
    apply_domain_event now r k c n (GoalEvent e) w = (Ok b, w') /\
    goal_shows w' (read_step st (er_aggregateId r, payload e)) /\ event_tables w' = event_tables w.
Proof.
  intros [S T] Hk He. set (i := er_aggregateId r) in *. destruct st as [M a]. cbn [fst snd] in *.
  pose proof (apply_snapshot_reflects deriveKey keyof own_keys goal_snapshots now goal_wf goal_fine goal_stored goal_kept
    no_side (fun _ _ _ _ _ _ _ _ _ => I) M w i (payload e) k c n (sw_device _ _ _ _ _ _ _ _ _ _ _ S)
    (sw_snapshots _ _ _ _ _ _ _ _ _ _ _ S) Hk He) as Ha.
  unfold read_step. cbn [fst snd]. change (GoalReadLemmas.project_event (M !! i) (payload e)) with
    (k_apply goal_snapshots (M !! i) (payload e)).
  unfold apply_domain_event. fold i.
  destruct (k_apply goal_snapshots (M !! i) (payload e)) as [s|] eqn:Es.
  - destruct Ha as (Hwf & w1 & E1 & Hs1 & [Hd1 Hdb1 Hst1 Hrows1 Hart1 Hse1] & Hx1).
    rewrite (js_bind_run_ok _ _ _ _ _ E1). cbn [changed next previous previousItem nextItem].
    assert (totals_kept a w1) as Ht1 by (eapply totals_ext; [exact T|done|by apply Hrows1|done]).
    destruct (updateAnalytics_ok a w1 (M !! i) (Some s) c n Hd1 Ht1) as (row & d & E2 & Hd2 & Ho2 & Hkey & Ht2).
    rewrite (js_bind_run_ok _ _ _ _ _ E2). set (w2 := set_extra _ _) in *.
    assert (reflects keyof goal_snapshots goal_wf no_side (<[i := s]> M) w2) as Hs2.
    { eapply reflects_ext; [exact Hs1|done|done|apply kt_keys_put, (sr_keys _ _ _ _ _ (rf_stores _ _ _ _ _ _ Hs1))| |done].
      intros j. simpl. rewrite cache_get_put, Hkey. by rewrite decide_False. }
    destruct (shows_changed deriveKey keyof own_keys own_free goal_snapshots goal_search goal_wf no_side ids laws search_key_own goal_item_key
      goal_item_shown exact M w w2 i s S Hwf Hs2 Hd2) as (se & E3 & H3).
    { simpl. rewrite (ok_stored _ _ _ Ho2) by done. apply Hst1. }
    { done. } { done. }
    rewrite (js_bind_run_ok _ _ _ _ _ E3). exists true. eexists. split; [reflexivity|]. split; [split; cbn [fst snd]|].
    + exact H3.
    + eapply totals_ext; [exact Ht2|done..].
    + unfold event_tables. simpl. rewrite <- Hdb1. by destruct (ok_tables _ _ _ Ho2) as (-> & _).
  - rewrite (js_bind_run_ok _ _ _ _ _ Ha). exists false, w. by split; [|split].
Qed.

Lemma apply_goal_ok r c n w st : goal_shows w st -> good_row r -> exists b w',
  applyGoalEvent deriveKey now r c n w = (Ok b, w') /\ goal_shows w' (goal_step st r) /\ event_tables w' = event_tables w.
Proof.
  intros Hw [Hno Hgood]. unfold goal_step, readable. destruct (keyof (er_aggregateId r)) as [k|] eqn:Hk.
  - destruct (Hgood k eq_refl) as (e & He & Hf). rewrite He.
    destruct (apply_goal_row r k c n w e (sw_device _ _ _ _ _ _ _ _ _ _ _ (gw_shows _ _ Hw)) Hk He) as (d & Hd & Ho & ->).
    pose proof (goal_shows_device w st _ d Hw Hno Hd Ho) as Hw'.
    assert (event_tables (set_device d w) = event_tables w) as Htab by (by destruct (ok_tables _ _ _ Ho) as (? & _)).
    destruct e as [e|e].
    + destruct (apply_goal_event_ok r k c n (set_device d w) st e Hw' Hk Hf) as (b & w' & E & Hw2 & Ht2).
      exists b, w'. split; [|split; [done|congruence]]. unfold skip_missing_key, try_catch. by rewrite E.
    + by exists false, (set_device d w).
  - exists false, w. split; [|by split]. pose proof (resolve_unknown deriveKey keyof own_keys _ _ (sw_device _ _ _ _ _ _ _ _ _ _ _ (gw_shows _ _ Hw)) Hk Hno) as E.
    unfold applyGoalEvent, skip_missing_key, try_catch, on_device. unfold mbind, js_bind. rewrite E. by destruct w.
Qed.

Lemma goal_usable_shows w st : goal_shows w st -> goal_usable w.
Proof. intros [S T]. split; [apply S|]. apply (sr_keys _ _ _ _ _ (shows_stores _ _ _ _ _ _ _ _ _ _ _ S)). Qed.

Lemma reset_goals_ok w : goal_usable w -> exists w', resetGoals w = (Ok tt, w') /\
  goal_shows w' (∅, createEmptyAnalytics) /\ event_tables w' = event_tables w.
Proof.
  intros [Hd Hn]. eexists. split; [reflexivity|]. split; [|done]. split; cbn [fst snd].
  - apply shows_nothing; simpl; try done.
    + apply NoDup_map_filter, NoDup_map_filter, Hn.
    + intros i. change (ProjectionCacheStore.get "goal_snapshot" i (kt_remove ProjectionCacheStore.key
        (ANALYTICS_PROJECTION_ID, ANALYTICS_SCOPE) (ProjectionCacheStore.removeAll "goal_snapshot" (dv_cache w))) = None).
      unfold ProjectionCacheStore.get. rewrite kt_get_remove. rewrite decide_False by done.
      change (ProjectionCacheStore.get "goal_snapshot" i (ProjectionCacheStore.removeAll "goal_snapshot" (dv_cache w)) = None).
      rewrite cache_get_removeAll. by rewrite decide_True.
    + unfold IndexArtifactStore.get, IndexArtifactStore.remove. rewrite kt_get_remove. by rewrite decide_True.
  - split; [|by left|].
    + split; (split; [constructor|constructor]).
    + simpl. unfold ProjectionCacheStore.get, ProjectionCacheStore.remove. rewrite kt_get_remove. by rewrite decide_True.
Qed.

Lemma goal_research s t d w st : shows_goals st.1 (research s t d w) -> only_key (SEARCH_KEY_ID goal_search) (dv_device w) d ->
  totals_kept st.2 w -> goal_shows (research s t d w) st /\ event_tables (research s t d w) = event_tables w.
Proof.
  intros Hs Ho T. split; [split; [done|]|].
  - eapply totals_ext; [exact T|done..|]. by apply (ok_stored _ _ _ Ho).
  - unfold event_tables. simpl. by destruct (ok_tables _ _ _ Ho) as (? & _).
Qed.

Lemma batch_ok info w st : goal_shows w st -> exists w', persistIndex goal_search now (batch_cursor info) w = (Ok tt, w') /\
  goal_shows w' st /\ event_tables w' = event_tables w.
Proof.
  intros [S T]. destruct (shows_persisted deriveKey now keyof own_keys own_free goal_snapshots goal_search goal_wf no_side ids laws
    search_key_own exact st.1 w (batch_cursor info) S) as (s & t & d & E & Hs & Ho).
  exists (research s t d w). split; [done|]. by apply goal_research.
Qed.

(** The goal projection is a projection. *)
Lemma goal_projects : Projects event_tables (goal_processor deriveKey now) goal_shows goal_usable goal_step
  (∅, createEmptyAnalytics) good_row.
Proof.
  split; [done|..].
  - intros e c n w a Hw He. by apply apply_goal_ok.
  - intros i w a Hw. by apply batch_ok.
  - intros w Hw. by apply reset_goals_ok.
Qed.

(** The totals of the steps. *)
Lemma goal_steps_track rows st : map_Forall (fun _ => dated) st.1 -> tracks st.1 st.2 ->
  let st' := fold_left goal_step rows st in tracks st'.1 st'.2.
Proof.
  revert st. induction rows as [|r rows IH]; intros st Hd Ht; [done|].
  assert (map_Forall (fun _ => dated) (goal_step st r).1 /\ tracks (goal_step st r).1 (goal_step st r).2) as [H1 H2].
  { unfold goal_step. destruct (readable r) as [e|]; [by apply read_step_tracks|done]. }
  by apply IH.
Qed.

(** The stored totals are found again, whatever is in memory. *)
Lemma totals_reopen a w w' : totals_kept a w -> dv_extra w' = None -> dv_cache w' = dv_cache w ->
  stored_key ANALYTICS_KEY_ID (dv_device w') = stored_key ANALYTICS_KEY_ID (dv_device w) -> totals_kept a w'.
Proof. intros [K M R] E1 E2 E3. split; [done|by left|]. by rewrite E2, E3. Qed.

End Processing.

Section Reopening.
Context `{CryptoServicePort} `{SearchEngine GoalListItem}.
Context (deriveKey : list Z -> string -> list Z) (now : number) (keyof : string -> option (list Z)).
Context (ids : search_index -> gset string).

(** A new process. *)

Lemma goal_reopens exact c n w st d : goal_shows deriveKey keyof ids exact w st -> device_ok deriveKey keyof own_keys d ->
  (forall i, i ∈ own_keys -> stored_key i d = stored_key i (dv_device w)) ->
  exists w', bootstrap (goal_processor deriveKey now) c n (reopen None d w) = (Ok tt, w') /\
    goal_shows deriveKey keyof ids false w' st /\ (forall i, getGoalById i w' = getGoalById i w) /\ listGoals w' ≡ₚ listGoals w.
Proof.
  intros [[D S X Y] T] Hd Hk.
  destruct (bootstrap_reflects deriveKey keyof own_keys goal_snapshots goal_wf goal_fine goal_stored goal_kept
    unread_totals unread_restored unread_changed st.1 (reopen None d w) Hd) as (w' & E & Hs0 & Hc & Hdv & Ha & Hse);
    [|done..|].
  { destruct S as [[Sk Sr] _ _ _ _ _]. by split. }
  pose proof (reflects_side _ _ _ _ no_side _ _ Hs0 (fun _ => Logic.I)) as Hs'.
  exists w'. split; [exact E|]. split; [split; [split|]|split].
  - by rewrite Hdv.
  - done.
  - eapply within_ext; [exact X| |exact Ha|by rewrite Hse]. rewrite Hdv. intros k Hk'. simpl.
    rewrite Hk; [done|]. apply search_key_own.
  - done.
  - eapply totals_reopen; [exact T|exact (rf_side _ _ _ _ _ _ Hs0)|exact Hc|]. rewrite Hdv. apply Hk. unfold own_keys. set_solver.
  - intros i. unfold getGoalById, getProjection. by rewrite (rf_shown _ _ _ _ _ _ Hs' i), (rf_shown _ _ _ _ _ _ S i).
  - unfold listGoals. rewrite !newest_first_perm. by rewrite (listing_reflects _ _ _ _ _ _ Hs'), (listing_reflects _ _ _ _ _ _ S).
Qed.

End Reopening.
End GoalProjectionLemmas.

(** ** Concrete runs *)

Module GoalProjectionRuns.
Import GoalSnapshotCodec GoalProjectionState GoalProjection KeyringWitnesses GoalRepositoryWitnesses.
#[local] Existing Instance toy_service.

(** An engine that finds every document for any term. *)
#[export] Instance toy_engine : SearchEngine GoalListItem := {|
  search_index := list string;
  ms_new := [];
  ms_addAll docs i := Ok (map gi_id docs ++ i);
  ms_add x i := if bool_decide (gi_id x ∈ i) then Err (PlainError "MiniSearch: duplicate ID") else Ok (gi_id x :: i);
  ms_remove x i := if bool_decide (gi_id x ∈ i) then Ok (filter (fun j => j <> gi_id x) i)
    else Err (PlainError "MiniSearch: cannot remove document");
  ms_search _ i := i;
  ms_toJSON i := JSON_stringify (JArr (map JStr i));
  ms_loadJSON t := match JSON_parse t with Some (JArr l) => mapM (fun v => as_string (Some v)) l | _ => None end
|}.

Definition goal_2 : GoalId := Vo id_b I.
Definition dek_2 : list Z := replicate 32 6%Z.
Definition created_2 : Goal.t :=
  match Goal.create goal_2 Slice.Health marathon may_2026 Priority.Must alice noon event_2 with
  | Ok g => g
  | Err _ => fresh goal_2
  end.

(** The device has the keys of both goals, and the events of the first. *)
Definition both_keys : device := (saveAggregateKey id_b dek_2 saved_device).2.
Definition zero : number := num 0.
Notation rt := (runtime GoalProjection.world).
Notation run_start := (start event_tables (goal_processor derive zero) "goal" 250 zero 9).
Notation run_flush := (flush event_tables (goal_processor derive zero) "goal" 250 zero 9).

Definition opened : rt := new_runtime (Derived both_keys [] [] [] [] None no_search 0) [].
(** A new process on the same device. *)
Definition restarted (r : rt) : rt :=
  new_runtime (reopen None (dv_device (ProjectionRuntime.world r)) (ProjectionRuntime.world r)) (projection_meta r).

(** Other parts of the application write to the event store. *)
Definition elsewhere (m : app unit) (r : rt) : rt := (ProjectionRuntime.on_world (on_device m) r).2.
Definition achieve_it : app unit :=
  _ ← GoalRepository.save (fun x => x) (GoalRuns.run_commands (achieve_1 event_3) (markEventsAsCommitted created)) dek_1; skip.
Definition create_second : app unit := _ ← GoalRepository.save (fun x => x) created_2 dek_2; skip.

Definition searched_ids (r : rt) : option (list string) :=
  match (ProjectionRuntime.on_world (searchGoals "marathon" None) r).1 with Ok l => Some (map gi_id l) | Err _ => None end.
Definition listed_ids (r : rt) : list string := map gi_id (listGoals (ProjectionRuntime.world r)).

(** Started, searched, the goal achieved (the index is stored), restarted, a
    second goal created. *)
Definition stored_index : rt :=
  (run_flush (elsewhere achieve_it (ProjectionRuntime.on_world (searchGoals "marathon" None) (run_start opened).2).2)).2.
Definition second_goal : rt := (run_flush (elsewhere create_second (run_start (restarted stored_index)).2)).2.

(** The process ends when the batch has been applied, before the cursor is stored;
    then it is started again. *)
Definition half_batch : rt :=
  let r := (loadOrInitializeMeta (goal_processor derive zero) zero opened).2 in
  (apply_batch (goal_processor derive zero) (effective_rows "goal" (event_tables (ProjectionRuntime.world r))) false r).2.
Definition started_again : rt := (run_start (restarted half_batch)).2.

End GoalProjectionRuns.

Module GoalProjectionProperties.
Import OrderLemmas RuntimeLemmas GoalSnapshotCodec GoalProjectionState GoalAnalytics GoalProjection AnalyticsLemmas.
Import KeyringLemmas ProjectorLemmas GoalProjectionLemmas.

Section Properties.
Context `{CryptoServicePort} `{SearchEngine GoalListItem}.
Context (deriveKey : list Z -> string -> list Z) (now : number) (keyof : string -> option (list Z)).
Context (ids : search_index -> gset string) (laws : search_laws gi_id ids).
Context (own_free : forall i, i ∈ own_keys -> keyof i = None).

(** C23: What the goal projection shows is what the log says: after a rebuild, from any
    state, each goal shown is the fold of its events in effective order (those whose key is
    on the device), archived goals are not shown, the list holds exactly the shown goals,
    newest first, and the totals by month and by year count exactly them. *)
Theorem goals_shown_are_replayed batchSize fuel (r : runtime world) :
  let rows := effective_rows "goal" (event_tables (ProjectionRuntime.world r)) in
  goal_usable deriveKey keyof (ProjectionRuntime.world r) -> tables_ok (event_tables (ProjectionRuntime.world r)) ->
  0 < batchSize -> Forall (good_row keyof) rows -> length rows < fuel ->
  exists r' M a, onRebaseRequired event_tables (goal_processor deriveKey now) "goal" batchSize now fuel r =
      (Ok (Some tt), r') /\
    (M, a) = fold_left (goal_step keyof) rows (∅, createEmptyAnalytics) /\
    (forall i, getGoalById i (ProjectionRuntime.world r') = M !! i ≫= shown_item goal_snapshots) /\
    listGoals (ProjectionRuntime.world r') ≡ₚ (map_to_list (omap (shown_item goal_snapshots) M)).*2 /\
    Sorted (older_after gi_createdAt) (listGoals (ProjectionRuntime.world r')) /\
    tracks M a /\ (forall x, dv_extra (ProjectionRuntime.world r') = Some x -> x = a).
Proof.
  intros rows Hu Hok Hb Hg Hf.
  destruct (rebuild_catches_up event_tables (goal_processor deriveKey now) "goal" batchSize now _ _ _ _ _
    (goal_projects deriveKey now keyof ids laws own_free true) Hb fuel r Hok Hu Hg Hf) as (r' & E & Hs & _).
  destruct (fold_left (goal_step keyof) _ _) as [M a] eqn:Ef in Hs. exists r', M, a. split; [exact E|]. split; [done|].
  destruct Hs as [[_ S _ _] T]. cbn [fst snd] in *. split; [|split; [|split; [|split]]].
  - intros i. apply (rf_shown _ _ _ _ _ _ S).
  - unfold listGoals. rewrite newest_first_perm. by eapply listing_reflects.
  - apply newest_first_sorted.
  - pose proof (goal_steps_track keyof (effective_rows "goal" (event_tables (ProjectionRuntime.world r)))
      (∅, createEmptyAnalytics) (map_Forall_empty _) empty_tracks) as Ht.
    cbv zeta in Ht. by rewrite Ef in Ht.
  - intros x Hx. destruct (tk_memory _ _ T); congruence.
Qed.

(** Closing and opening the application changes nothing that is shown: from what is
    stored (snapshots, totals, index), [bootstrap] restores every active goal, under
    whatever keys of its own the device has, and the totals are read back when they are next
    needed. *)
Theorem goals_survive_restart exact c n w st d :
  goal_shows deriveKey keyof ids exact w st -> device_ok deriveKey keyof own_keys d ->
  (forall i, i ∈ own_keys -> stored_key i d = stored_key i (dv_device w)) ->
  exists w', bootstrap (goal_processor deriveKey now) c n (reopen None d w) = (Ok tt, w') /\
    goal_shows deriveKey keyof ids false w' st /\ (forall i, getGoalById i w' = getGoalById i w) /\
    listGoals w' ≡ₚ listGoals w.
Proof. intros Hw Hd Hk. by apply (goal_reopens deriveKey now keyof ids exact). Qed.

(** A batch interrupted before the cursor is stored is applied again: the cache row of
    a goal is written with every event, the cursor once per batch, so after a restart the
    same event steps what is shown a second time. Concretely, a goal with one event is then
    shown with version 2, which the commands made from it give as their known version. *)
Theorem interrupted_batch_applied_again exact w st r c n :
  goal_shows deriveKey keyof ids exact w st -> good_row keyof r ->
  (exists b w1, applyGoalEvent deriveKey now r c n w = (Ok b, w1) /\
    forall d, device_ok deriveKey keyof own_keys d ->
      (forall i, i ∈ own_keys -> stored_key i d = stored_key i (dv_device w1)) ->
      exists w2 b' w3, bootstrapFromCache goal_snapshots (reopen None d w1) = (Ok tt, w2) /\
        applyGoalEvent deriveKey now r c n w2 = (Ok b', w3) /\
        goal_shows deriveKey keyof ids false w3 (goal_step keyof (goal_step keyof st r) r)) /\
  length (effective_rows "goal" (event_tables (ProjectionRuntime.world GoalProjectionRuns.started_again))) = 1 /\
  (gi_version <$> getGoalById id_a (ProjectionRuntime.world GoalProjectionRuns.started_again)) = Some (num 2).
Proof.
  intros Hw Hg. split; [|split; [vm_compute; reflexivity|vm_compute; reflexivity]].
  destruct (apply_goal_ok deriveKey now keyof ids laws own_free exact r c n w st Hw Hg) as (b & w1 & E1 & H1 & _).
  exists b, w1. split; [done|]. intros d Hd Hk.
  destruct (goal_reopens deriveKey now keyof ids exact c n w1 _ d H1 Hd Hk) as (w2 & E2 & H2 & _).
  destruct (apply_goal_ok deriveKey now keyof ids laws own_free false r c n w2 _ H2 Hg) as (b' & w3 & E3 & H3 & _).
  by exists w2, b', w3.
Qed.

(** The search index, once it is built over what is shown, holds exactly the active
    goals, and a search returns exactly the shown goals among the hits, newest first. But an
    index read back from storage is taken as it is: if the application is restarted and a
    goal is created before the first search, the goal is listed and no search ever finds it. *)
Theorem search_covers_goals term w st :
  goal_shows deriveKey keyof ids true w st -> indexLoaded (dv_search w) = false ->
  IndexArtifactStore.get (INDEX_ID goal_search) INDEX_SCOPE (dv_artifacts w) = None ->
  (exists l w' i, searchGoals term None w = (Ok l, w') /\ searchIndex (dv_search w') = Some i /\
    ids i = active_ids goal_snapshots st.1 /\ goal_shows deriveKey keyof ids true w' st /\
    Sorted (older_after gi_createdAt) l /\
    forall x, x ∈ l <-> getGoalById (gi_id x) w' = Some x /\
      ((strlen (trim term) =? 0)%Z = true \/ gi_id x ∈ ms_search term i)) /\
  GoalProjectionRuns.listed_ids GoalProjectionRuns.second_goal = [id_a; id_b] /\
  GoalProjectionRuns.searched_ids GoalProjectionRuns.second_goal = Some [id_a].
Proof.
  intros Hw Hl Ha. split; [|split; [vm_compute; reflexivity|vm_compute; reflexivity]].
  pose proof Hw as [S T].
  destruct (shows_built deriveKey keyof own_keys own_free goal_snapshots goal_search goal_wf no_side ids laws search_key_own
    goal_item_key goal_item_shown true st.1 w S (fun _ => conj Hl Ha)) as (s & t & d & E & Hs & Ho & Hi).
  destruct (Hi Hl) as (i & Hsi & Hids). set (w' := research s t d w) in *.
  destruct (goal_research deriveKey keyof ids true s t d w st Hs Ho T) as [Hw' _].
  exists (search_items goal_search term (dv_projections w') (fun _ => true) w'), w', i.
  split; [|split; [done|split; [auto|split; [done|split]]]].
  - unfold searchGoals, gets. erewrite js_bind_run_ok by reflexivity. erewrite js_bind_run_ok by exact E. reflexivity.
  - unfold search_items. change (searchIndex (dv_search w')) with (searchIndex s). rewrite Hsi. apply newest_first_sorted.
  - intros x. apply search_items_elem; [done| |apply (sw_snapshots _ _ _ _ _ _ _ _ _ _ _ Hs)].
    intros j y Hj. by destruct (shown_entry _ _ _ _ _ _ _ _ goal_item_key _ _ _ j y Hs Hj) as (? & _ & _ & _ & Hid).
Qed.

End Properties.
End GoalProjectionProperties.

(** ** Witnesses *)

Module GoalProjectionWitnesses.
Import OrderLemmas RuntimeLemmas GoalSnapshotCodec GoalProjectionState GoalAnalytics GoalProjection AnalyticsLemmas.
Import ApplicationLemmas KeyringLemmas ProjectorLemmas GoalProjectionLemmas GoalProjectionProperties GoalProjectionRuns.
Import KeyringManager KeyringWitnesses GoalRepositoryWitnesses.
#[local] Existing Instance toy_service.

Definition key_of (i : string) : option (list Z) :=
  if decide (i = id_a) then Some dek_1 else if decide (i = id_b) then Some dek_2 else None.

Lemma toy_seals k : length k = 32 -> seals k.
Proof.
  intros Hk iv p aad _. unfold Crypto.encrypt, toy_service, WebCryptoService.service, WebCryptoService.encrypt.
  unfold WebCryptoService.ensureKeyLength. rewrite Hk. simpl. by eexists.
Qed.

Lemma toy_own_free : forall i, i ∈ own_keys -> key_of i = None.
Proof. intros i [->|[->|[]%elem_of_nil]%elem_of_cons]%elem_of_cons; reflexivity. Qed.

(** The ids in an index of the toy engine. *)
Definition id_set (i : search_index (SearchEngine := toy_engine)) : gset string := list_to_set (C := gset string) (i : list string).

Lemma toy_laws : search_laws (H := toy_engine) gi_id id_set.
Proof.
  unfold id_set. split; simpl.
  - done.
  - intros x i Hx. rewrite bool_decide_false by (by rewrite elem_of_list_to_set in Hx). by eexists.
  - intros l i _ _. eexists. split; [done|]. by rewrite list_to_set_app_L.
  - intros x i Hx. rewrite bool_decide_true by (by rewrite elem_of_list_to_set in Hx). eexists. split; [done|].
    apply set_eq. intros j. rewrite elem_of_difference, !elem_of_list_to_set, list_elem_of_filter. set_solver.
  - intros x i Hx. rewrite bool_decide_false by (by rewrite elem_of_list_to_set in Hx). by eexists.
  - intros i. assert (json_ok (JArr (map JStr i)) = true) as Hok by (simpl; by induction i).
    pose proof (JsonTextProperties.parse_stringify _ Hok) as Hp. split.
    + intros E. rewrite E in Hp. discriminate Hp.
    + exists i. rewrite Hp. split; [|done]. clear. induction i as [|x i IH]; [done|]. simpl in *. by rewrite IH.
  - intros t i x. by rewrite elem_of_list_to_set.
Qed.

Lemma saved_entropy : entropy_ok saved_device.
Proof. intros n. split; [done|]. apply (bool_decide_unpack _). vm_compute. exact I. Qed.

Lemma both_stored i : stored_key i both_keys =
  if decide (i = id_b) then Ok (Some dek_2) else if decide (i = id_a) then Ok (Some dek_1) else Ok None.
Proof.
  destruct (stored_key_saved id_b dek_2 saved_device tt both_keys saved_entropy ltac:(done) ltac:(vm_compute; reflexivity))
    as (Hb & Hob & _).
  destruct (decide (i = id_b)) as [->|Hib]; [done|]. rewrite Hob by done.
  assert (stored_key i saved_device = stored_key i goal_device) as ->.
  { unfold stored_key. assert (aggregate_keys saved_device = aggregate_keys goal_device) as -> by (vm_compute; reflexivity).
    by assert (masterKey saved_device = masterKey goal_device) as -> by (vm_compute; reflexivity). }
  destruct (stored_key_saved id_a dek_1 new_device tt goal_device new_device_entropy ltac:(done) ltac:(vm_compute; reflexivity))
    as (Ha & Hoa & _).
  destruct (decide (i = id_a)) as [->|Hia]; [done|]. by rewrite Hoa.
Qed.

(** Whatever keys a projection has of its own, they are not there yet. *)
Lemma both_keys_ready own : (forall i, i ∈ own -> key_of i = None) -> device_ok derive key_of own both_keys.
Proof.
  intros Hfree.
  assert (entropy_ok both_keys) as He by (intros n; split; [done|]; apply (bool_decide_unpack _); vm_compute; exact I).
  assert (forall i, cached_key i (num 0) both_keys = None) as Hc.
  { intros i. unfold cached_key. by assert (epochKeys both_keys = ∅) as -> by (vm_compute; reflexivity). }
  assert (keyrings both_keys = ∅) as Hk by (vm_compute; reflexivity). split.
  - done.
  - exists master. split; [vm_compute; reflexivity|]. by apply toy_seals.
  - intros n. assert (fresh_keys both_keys n = dek_1) as -> by (vm_compute; reflexivity). split; [done|by apply toy_seals].
  - intros i k Hi. assert (i ∉ own) as Hno by (intros Hin; rewrite (Hfree i Hin) in Hi; done).
    assert (stored_key i both_keys = Ok (Some k) /\ length k = 32) as (Hs & Hl).
    { unfold key_of in Hi. rewrite both_stored.
      destruct (decide (i = id_a)) as [->|]; [|destruct (decide (i = id_b)) as [->|]; [|done]]; by simplify_eq. }
    split; [done|]. split; [|by apply toy_seals]. split; [done|]. split; [by intros ->|]. split; [done|]. by rewrite Hc, Hk.
  - intros i Hi _. split; [done|]. split; [by rewrite Hk|]. rewrite both_stored. unfold key_of in Hi.
    destruct (decide (i = id_a)); [done|]. by destruct (decide (i = id_b)).
  - intros i Hin. left. rewrite both_stored. pose proof (Hfree i Hin) as Hi. unfold key_of in Hi.
    destruct (decide (i = id_a)); [done|]. by destruct (decide (i = id_b)).
Qed.

Lemma both_keys_ok : device_ok derive key_of own_keys both_keys.
Proof. apply both_keys_ready, toy_own_free. Qed.

Definition goal_rows : list EventRecord := effective_rows "goal" (event_tables (ProjectionRuntime.world opened)).

Lemma goal_rows_good : Forall (good_row key_of) goal_rows.
Proof.
  assert (exists r, goal_rows = [r] /\ er_aggregateId r = id_a /\
    exists e, toDomain (toEncryptedEvent "goal" r) dek_1 = Ok (GoalEvent e) /\ goal_fine id_a (payload e)) as (r & -> & Hi & e & He & Hf).
  { eexists. split; [vm_compute; reflexivity|]. split; [reflexivity|]. eexists. split; [vm_compute; reflexivity|].
    split; [reflexivity|]. split; [vm_compute; discriminate|reflexivity]. }
  apply Forall_singleton. split; rewrite Hi.
  - apply (bool_decide_unpack _). vm_compute. exact I.
  - intros k [= <-]. by exists (GoalEvent e).
Qed.

Lemma goal_tables_ok : tables_ok (event_tables (ProjectionRuntime.world opened)).
Proof. split; [split|..]; apply (bool_decide_unpack _); vm_compute; exact I. Qed.


Lemma opened_usable : goal_usable derive key_of (ProjectionRuntime.world opened).
Proof. split; [exact both_keys_ok|constructor]. Qed.

Lemma goals_shown_are_replayed_witness :
  exists r' M a, onRebaseRequired event_tables (goal_processor derive zero) "goal" 1 zero 9 opened = (Ok (Some tt), r') /\
    (M, a) = fold_left (goal_step key_of) goal_rows (∅, createEmptyAnalytics) /\
    (forall i, getGoalById i (ProjectionRuntime.world r') = M !! i ≫= shown_item goal_snapshots) /\
    listGoals (ProjectionRuntime.world r') ≡ₚ (map_to_list (omap (shown_item goal_snapshots) M)).*2 /\
    Sorted (older_after gi_createdAt) (listGoals (ProjectionRuntime.world r')) /\
    tracks M a /\ (forall x, dv_extra (ProjectionRuntime.world r') = Some x -> x = a).
Proof.
  apply (goals_shown_are_replayed derive zero key_of id_set toy_laws toy_own_free 1 9 opened opened_usable goal_tables_ok).
  - lia.
  - exact goal_rows_good.
  - vm_compute. lia.
Defined.

(** A state that shows something: after a reset. *)
Definition cleared : GoalProjection.world := (resetGoals (ProjectionRuntime.world opened)).2.

Lemma cleared_shows exact : goal_shows derive key_of id_set exact cleared (∅, createEmptyAnalytics).
Proof.
  destruct (reset_goals_ok derive key_of id_set exact (ProjectionRuntime.world opened) opened_usable) as (w & E & H & _).
  unfold cleared. by rewrite E.
Qed.

Lemma goals_survive_restart_witness :
  exists w', bootstrap (goal_processor derive zero) ZERO_EFFECTIVE_CURSOR 0 (reopen None both_keys cleared) = (Ok tt, w') /\
    goal_shows derive key_of id_set false w' (∅, createEmptyAnalytics) /\
    (forall i, getGoalById i w' = getGoalById i cleared) /\ listGoals w' ≡ₚ listGoals cleared.
Proof.
  apply (goals_survive_restart derive zero key_of id_set true ZERO_EFFECTIVE_CURSOR 0%Z cleared _ both_keys (cleared_shows true)
    both_keys_ok).
  by intros i _.
Defined.

Definition first_row : EventRecord := List.hd (Record_ "" "" "" [] 0 zero None None None 0 None) goal_rows.

Lemma first_row_good : good_row key_of first_row.
Proof.
  pose proof goal_rows_good as H. unfold first_row. assert (length goal_rows = 1) as Hl by (vm_compute; reflexivity).
  destruct goal_rows as [|r rows]; [done|]. simpl. by inversion H.
Qed.

Lemma interrupted_batch_applied_again_witness :
  (gi_version <$> getGoalById id_a (ProjectionRuntime.world started_again)) = Some (num 2) /\
  exists b w1, applyGoalEvent derive zero first_row ZERO_EFFECTIVE_CURSOR 1 cleared = (Ok b, w1).
Proof.
  destruct (interrupted_batch_applied_again derive zero key_of id_set toy_laws toy_own_free true cleared _ first_row
    ZERO_EFFECTIVE_CURSOR 1%Z (cleared_shows true) first_row_good) as [(b & w1 & E & _) [_ Hv]].
  split; [exact Hv|]. exists b, w1. exact E.
Defined.

Lemma search_covers_goals_witness :
  searched_ids second_goal = Some [id_a] /\
  exists l w' i, searchGoals "x" None cleared = (Ok l, w') /\ searchIndex (dv_search w') = Some i /\
    id_set i = active_ids goal_snapshots ∅ /\ goal_shows derive key_of id_set true w' (∅, createEmptyAnalytics) /\
    Sorted (older_after gi_createdAt) l /\
    forall x, x ∈ l <-> getGoalById (gi_id x) w' = Some x /\
      ((strlen (trim "x") =? 0)%Z = true \/ gi_id x ∈ (i : list string)).
Proof.
  destruct (search_covers_goals derive key_of id_set toy_laws toy_own_free "x" cleared _ (cleared_shows true))
    as (H & _ & Hs); [reflexivity|reflexivity|]. split; [exact Hs|exact H].
Defined.

End GoalProjectionWitnesses.
