(* ===== verification/ProjectProjection.v ===== *)
(** * The project projection

    [packages/infrastructure/src/projects/derived-state]:
    [ProjectSnapshotProjector.ts] with its index of projects by goal,
    [ProjectSearchProjector.ts], [ProjectProjectionProcessor.ts], and
    [projects/ProjectReadModel.ts]. *)

From S2P Require Import Prelude JsValues ValueObjects Dates AggregateRoot Goal Project Crypto LocalDb EventStoreCore.
From S2P Require Import Application Keyring EventAdapters Snapshots DerivedState ProjectionRuntime ReadModels Projectors GoalProjection Samples.
From S2P Require Import RecordCodec JsonText ProjectRepository.
From Stdlib Require Import Sorted.

Module ProjectProjection.
Import ProjectSnapshotCodec ProjectProjectionState.

(** *** [goalIndex]: the ids of the projects of a goal, a set in insertion order *)

Definition goal_index : Type := jsmap (list string).

Definition set_add (x : string) (l : list string) : list string := if bool_decide (x ∈ l) then l else l ++ [x].

Definition indexGoal (g : option string) (i : string) (x : goal_index) : goal_index :=
  match g with
  | Some g =>
      if (strlen g =? 0)%Z then x else map_set g (set_add i (default [] (map_get g x))) x
  | None => x
  end.

Definition unindexGoal (g : option string) (i : string) (x : goal_index) : goal_index :=
  match g with
  | Some g =>
      if (strlen g =? 0)%Z then x
      else match map_get g x with
        | None => x
        | Some ids =>
            match filter (fun j => j <> i) ids with
            | [] => map_delete g x
            | ids' => map_set g ids' x
            end
        end
  | None => x
  end.

Definition unarchived (a : option number) : bool := match a with None => true | Some _ => false end.

Definition reindexGoal (prev : option ProjectSnapshotState) (nextIt : option ProjectListItem) (x : goal_index) : goal_index :=
  let same := match prev, nextIt with
    | Some p, Some n => unarchived (ps_archivedAt p) && unarchived (pi_archivedAt n) && bool_decide (ps_goalId p = pi_goalId n)
    | _, _ => false
    end in
  if same then x
  else
    let x := match prev with
      | Some p => if unarchived (ps_archivedAt p) then unindexGoal (ps_goalId p) (ps_id p) x else x
      | None => x
      end in
    match nextIt with
    | Some n => if unarchived (pi_archivedAt n) then indexGoal (pi_goalId n) (pi_id n) x else x
    | None => x
    end.

Definition project_snapshots : snapshot_kind ProjectSnapshotState Project.payload_t ProjectListItem goal_index :=
  Kind "project_snapshot"
    (fun prev e => applyProjectEventToSnapshot prev e (next_version prev))
    (fun s => unarchived (ps_archivedAt s))
    (fun s => match ps_version s with Some v => to_Z v | None => 0%Z end)
    encodeProjectSnapshotState decodeProjectSnapshotState projectSnapshotToListItem
    (fun item i x => indexGoal (pi_goalId item) i x) reindexGoal.

Definition project_search : search_kind ProjectListItem :=
  SearchKind "project_search" "project_search_index" pi_id (fun x => unarchived (pi_archivedAt x)) pi_createdAt.

Section Processor.
Context `{CryptoServicePort} `{SearchEngine ProjectListItem}.
Context (deriveKey : list Z -> string -> list Z) (now : number).

Definition world : Type := derived ProjectSnapshotState ProjectListItem goal_index search_index.
Notation dm := (js world app_error).

(** *** [ProjectSnapshotProjector]: the shared projector, of projects *)

Definition listByGoalId (g : string) (w : world) : list ProjectListItem :=
  newest_first pi_createdAt
    (omap (fun i => map_get i (dv_projections w)) (default [] (map_get g (dv_extra w)))).
Definition bootstrapProjects : dm unit := bootstrapFromCache project_snapshots.
Definition applySnapshotEvent (i : string) (e : Project.payload_t) (k : list Z) (c : EffectiveCursor) (commit : Z)
    : dm (SnapshotApplyResult ProjectSnapshotState ProjectListItem) :=
  apply_snapshot_event project_snapshots now i e k c commit.
Definition clearProjectCaches : dm unit := clearCaches [].
Definition clearPersistedProjects : dm unit := clearPersisted project_snapshots.

(** *** [ProjectSearchProjector]: the shared search, of projects *)

Definition ensureSearchBuilt (items : list ProjectListItem) : dm unit := ensureBuilt project_search items.
Definition searchItems (term : string) (passes : ProjectListItem -> bool) (w : world) : list ProjectListItem :=
  search_items project_search term (dv_projections w) passes w.
Definition applySearchChange (prevItem nextIt : option ProjectListItem) : dm unit :=
  applyProjectionChange project_search prevItem nextIt.
Definition persistSearchIndex (c : EffectiveCursor) : dm unit := persistIndex project_search now c.
Definition clearPersistedSearch : dm unit := clearPersistedIndex project_search.

(** *** [ProjectProjectionProcessor] *)

Definition skip_missing_key (m : dm bool) : dm bool :=
  try_catch m (fun e => match e with MissingKeyError _ => mret false | _ => throw e end).

Definition apply_domain_event (r : EventRecord) (k : list Z) (c : EffectiveCursor) (commit : Z) (e : domain_event) : dm bool :=
  match e with
  | GoalEvent _ => mret false
  | ProjectEvent e =>
      res ← applySnapshotEvent (er_aggregateId r) (payload e) k c commit;
      match changed res, next res with
      | true, Some _ =>
          _ ← applySearchChange (previousItem res) (nextItem res);
          _ ← modify notify;
          mret true
      | _, _ => mret false
      end
  end.

Definition applyProjectEvent (r : EventRecord) (c : EffectiveCursor) (commit : Z) : dm bool :=
  let event := GoalProjection.toEncryptedEvent "project" r in
  skip_missing_key (
    kProject ← on_device (KeyringManager.resolveKeyForEvent deriveKey (er_aggregateId r));
    e ← lift_result (lift_error (toDomain event kProject));
    apply_domain_event r kProject c commit e).

Definition resetProjects : dm unit :=
  _ ← clearProjectCaches;
  _ ← reset_search;
  _ ← clearPersistedProjects;
  clearPersistedSearch.

Definition project_processor : ProjectionProcessor world :=
  Processor "project_projection" effectiveTotalOrder
    (fun _ _ => bootstrapProjects)
    applyProjectEvent
    (fun info => persistSearchIndex (batch_cursor info))
    resetProjects.

Definition event_tables (w : world) : local_db := db (dv_device w).

(** *** Reading *)

(** [goalId]: absent, [null] or an id. *)
Record ProjectListFilter : Type := ProjectFilter {
  pf_status : option string;
  pf_goalId : option (option string)
}.

Definition status_passes (s : option string) (x : ProjectListItem) : bool :=
  negb (truthy s) || bool_decide (s = Some (pi_status x)).
Definition matchesFilter (f : option ProjectListFilter) (x : ProjectListItem) : bool :=
  match f with
  | None => true
  | Some f =>
      status_passes (pf_status f) x &&
      match pf_goalId f with None => true | Some g => bool_decide (pi_goalId x = g) end
  end.

Definition listProjects (f : option ProjectListFilter) (w : world) : list ProjectListItem :=
  let items := match f with
    | Some (ProjectFilter _ (Some None)) => filter (fun x => pi_goalId x = None) (listProjections w)
    | Some (ProjectFilter _ (Some (Some g))) => listByGoalId g w
    | _ => listProjections w
    end in
  let filtered := match f with
    | Some f => filter (fun x => status_passes (pf_status f) x = true) items
    | None => items
    end in
  newest_first pi_createdAt filtered.
Definition getProjectById (i : string) (w : world) : option ProjectListItem := getProjection i w.
Definition searchProjects (term : string) (f : option ProjectListFilter) : dm (list ProjectListItem) :=
  items ← gets listProjections;
  _ ← ensureSearchBuilt items;
  gets (searchItems term (matchesFilter f)).
Definition ensureProjectIndex (indexId : string) : dm unit :=
  if bool_decide (indexId = "project_search") then items ← gets listProjections; ensureSearchBuilt items else skip.
Definition project_index_status (indexId : string) (w : world) : string * IndexBuildPhase :=
  if bool_decide (indexId = "project_search") then search_status project_search w else (indexId, missing).

(** *** [ProjectReadModel.ts] *)

Section ReadModel.
Context (batchSize fuel : nat).
Notation rt := (js (runtime world) app_error).

Definition caught_up {A} (m : rt A) : rt (option A) :=
  done ← flush event_tables project_processor "project" batchSize now fuel;
  match done with
  | Some _ => a ← m; mret (Some a)
  | None => mret None
  end.

Definition read_list (f : option ProjectListFilter) : rt (option (list ProjectListItem)) :=
  caught_up (gets (fun r => listProjects f (ProjectionRuntime.world r))).
Definition read_by_id (i : string) : rt (option (option ProjectListItem)) :=
  caught_up (gets (fun r => getProjectById i (ProjectionRuntime.world r))).
Definition read_search (term : string) (f : option ProjectListFilter) : rt (option (list ProjectListItem)) :=
  caught_up (ProjectionRuntime.on_world (searchProjects term f)).

End ReadModel.
End Processor.
End ProjectProjection.

(** ** Lemmas: the index of projects by goal *)

Module ProjectProjectionLemmas.
Import ProjectSnapshotCodec ProjectProjectionState ProjectProjection.
Import JsonTextProperties RecordCodecProperties SnapshotLemmas ApplicationLemmas KeyringLemmas ProjectorLemmas.

Definition projects_of (g : string) (x : goal_index) : list string := default [] (map_get g x).

Lemma projects_of_index g i x g' : (strlen g =? 0)%Z = false ->
  projects_of g' (indexGoal (Some g) i x) = if decide (g' = g) then set_add i (projects_of g x) else projects_of g' x.
Proof. intros Hg. unfold projects_of, indexGoal. rewrite Hg, map_get_set. by destruct (decide (g' = g)). Qed.

Lemma projects_of_unindex g i x g' : (strlen g =? 0)%Z = false ->
  projects_of g' (unindexGoal (Some g) i x) =
    if decide (g' = g) then filter (fun j => j <> i) (projects_of g x) else projects_of g' x.
Proof.
  intros Hg. unfold projects_of, unindexGoal. rewrite Hg. destruct (map_get g x) as [ids|] eqn:E.
  - destruct (filter (fun j => j <> i) ids) as [|j l] eqn:Ef; [rewrite map_get_delete|rewrite map_get_set];
      destruct (decide (g' = g)) as [->|]; simpl; by rewrite ?Ef.
  - destruct (decide (g' = g)) as [->|]; [by rewrite E|done].
Qed.

Lemma set_add_NoDup i l : NoDup l -> NoDup (set_add i l).
Proof.
  intros Hl. unfold set_add. case_bool_decide; [done|]. apply NoDup_app. split; [done|]. split; [|apply NoDup_singleton].
  intros x Hx ->%list_elem_of_singleton. done.
Qed.

Lemma elem_set_add i j l : j ∈ set_add i l <-> j = i \/ j ∈ l.
Proof. unfold set_add. case_bool_decide; set_solver. Qed.

Lemma looked_up_ids (m : jsmap ProjectListItem) l : (forall i, i ∈ l -> exists x, map_get i m = Some x /\ pi_id x = i) ->
  map pi_id (omap (fun i => map_get i m) l) = l.
Proof.
  induction l as [|i l IH]; intros Hl; [done|]. destruct (Hl i) as (x & E & Ex); [by constructor|].
  simpl. rewrite E. simpl. rewrite Ex. f_equal. apply IH. intros j Hj. apply Hl. by constructor.
Qed.

(** The index lists the projects shown with the goal, each once. *)
Record by_goal (V : gmap string ProjectListItem) (x : goal_index) : Prop := {
  bg_exact g i : i ∈ projects_of g x <-> exists it, V !! i = Some it /\ pi_goalId it = Some g;
  bg_once g : NoDup (projects_of g x)
}.

(** A goal id is never empty. *)
Definition named (g : option string) : Prop := forall x, g = Some x -> (strlen x =? 0)%Z = false.

Lemma by_goal_index V x i it : by_goal V x -> V !! i = None -> named (pi_goalId it) ->
  by_goal (<[i := it]> V) (indexGoal (pi_goalId it) i x).
Proof.
  intros [He Ho] Hi Hn. assert (forall g, i ∉ projects_of g x) as Hout by (intros g (y & Hy & _)%He; congruence).
  destruct (pi_goalId it) as [g|] eqn:Eg.
  - specialize (Hn g eq_refl). split; intros g'; [intros j|]; rewrite projects_of_index by done.
    + destruct (decide (j = i)) as [->|Hne].
      * rewrite lookup_insert_eq. destruct (decide (g' = g)) as [->|Hg]; [rewrite elem_set_add; naive_solver|].
        split; [by intros ?%Hout|]. intros (y & [= <-] & Hy). congruence.
      * rewrite lookup_insert_ne by done. destruct (decide (g' = g)) as [->|Hg]; [|apply He].
        rewrite elem_set_add, He. naive_solver.
    + destruct (decide (g' = g)) as [->|]; [by apply set_add_NoDup|done].
  - split; [|done]. intros g' j. simpl. destruct (decide (j = i)) as [->|Hne]; [|by rewrite lookup_insert_ne].
    rewrite lookup_insert_eq. split; [by intros ?%Hout|]. intros (y & [= <-] & Hy). congruence.
Qed.

Lemma by_goal_unindex V x i it : by_goal V x -> V !! i = Some it -> named (pi_goalId it) ->
  by_goal (delete i V) (unindexGoal (pi_goalId it) i x).
Proof.
  intros [He Ho] Hi Hn. destruct (pi_goalId it) as [g|] eqn:Eg.
  - specialize (Hn g eq_refl). split; intros g'; [intros j|]; rewrite projects_of_unindex by done.
    + destruct (decide (j = i)) as [->|Hne].
      * rewrite lookup_delete_eq. destruct (decide (g' = g)) as [->|Hg]; [rewrite list_elem_of_filter; naive_solver|].
        rewrite He. naive_solver.
      * rewrite lookup_delete_ne by done. destruct (decide (g' = g)) as [->|Hg]; [|apply He].
        rewrite list_elem_of_filter, He. naive_solver.
    + destruct (decide (g' = g)) as [->|]; [by apply NoDup_filter|done].
  - split; [|done]. intros g' j. simpl. rewrite He. destruct (decide (j = i)) as [->|Hne]; [|by rewrite lookup_delete_ne].
    rewrite lookup_delete_eq. naive_solver.
Qed.

(** An item replaced by one with the same goal. *)
Lemma by_goal_same V x i it it' : by_goal V x -> V !! i = Some it -> pi_goalId it = pi_goalId it' ->
  by_goal (<[i := it']> V) x.
Proof.
  intros [He Ho] Hi Hg. split; [|done]. intros g j. rewrite He. destruct (decide (j = i)) as [->|Hne].
  - rewrite lookup_insert_eq, Hi. naive_solver congruence.
  - by rewrite lookup_insert_ne.
Qed.

(** *** Snapshots through storage *)

(** A snapshot of the project [i], with whole times. *)
Definition project_wf (i : string) (s : ProjectSnapshotState) : Prop :=
  ps_id s = i /\ exists p, s = state_of p /\ project_snapshot_plain p.

Definition event_time (e : Project.payload_t) : Timestamp.t :=
  match e with
  | Project.ProjectCreated _ _ _ _ _ _ _ _ t | Project.ProjectStatusTransitioned _ _ t | Project.ProjectRescheduled _ _ _ t
  | Project.ProjectRenamed _ _ t | Project.ProjectDescribed _ _ t | Project.ProjectGoalAdded _ _ t
  | Project.ProjectGoalRemoved _ t | Project.ProjectMilestoneAdded _ _ _ _ t | Project.ProjectMilestoneRescheduled _ _ _ t
  | Project.ProjectMilestoneRenamed _ _ _ t | Project.ProjectMilestoneArchived _ _ t | Project.ProjectArchived _ t => t
  end.

Definition project_fine (i : string) (e : Project.payload_t) : Prop :=
  plain_time (event_time e) /\
  match e with
  | Project.ProjectCreated p _ _ _ _ _ _ cb _ => value p = i /\ trim (value cb) = value cb
  | _ => True
  end.

Lemma project_stored i s : project_wf i s -> encodeProjectSnapshotState s <> [] /\
  decodeProjectSnapshotState (encodeProjectSnapshotState s) (match ps_version s with Some v => to_Z v | None => 0%Z end) = Ok s.
Proof.
  intros (_ & p & -> & Hp).
  assert (decodeProjectSnapshotState (encodeProjectSnapshotState (state_of p)) (Project.s_version p) = Ok (state_of p)) as E.
  { unfold decodeProjectSnapshotState, encodeProjectSnapshotState.
    rewrite snapshot_envelope_roundtrip by (done || by apply project_payload_json_ok).
    cbn [mbind result_bind snapshotVersion snap_data].
    change (upcastProjectSnapshot (num SNAPSHOT_VERSION)) with parsePayloadV1. by rewrite project_payload_parses by apply Hp. }
  cbn [ps_version state_of]. rewrite to_Z_num. split; [|exact E]. intros E0. rewrite E0 in E. discriminate E.
Qed.

(** Milestones changed by their id in the snapshot are milestones. *)
Lemma milestones_updated v (f : ProjectMilestoneState -> ProjectMilestoneState) g ms :
  (forall m, f (milestone_state m) = milestone_state (g m)) ->
  map (fun m => if bool_decide (ms_id m = v) then f m else m) (map milestone_state ms) =
  map milestone_state (map (fun m => if bool_decide (value (Project.m_id m) = v) then g m else m) ms).
Proof. intros Hf. rewrite !map_map. apply map_ext. intros m. cbn [ms_id milestone_state]. by case_bool_decide. Qed.

Lemma milestones_filtered v ms : filter (fun x => ms_id x <> v) (map milestone_state ms) =
  map milestone_state (filter (fun m => value (Project.m_id m) <> v) ms).
Proof.
  induction ms as [|m ms IH]; [done|]. cbn [map]. rewrite !filter_cons. cbn [ms_id milestone_state].
  destruct (decide (value (Project.m_id m) <> v)); cbn [map]; by rewrite IH.
Qed.

(** What an event makes of a domain snapshot, but for creation: the new fields. *)
Lemma project_event_state p e : ProjectReadLemmas.is_created e = false ->
  exists p', ProjectReadLemmas.project_event (Some (state_of p)) e = Some (state_of p') /\
    Project.s_id p' = Project.s_id p /\ Project.s_createdBy p' = Project.s_createdBy p /\
    Project.s_createdAt p' = Project.s_createdAt p /\ Project.s_updatedAt p' = event_time e /\
    (Project.s_archivedAt p' = Project.s_archivedAt p \/ Project.s_archivedAt p' = Some (event_time e)).
Proof.
  destruct p as [i n st sd td d g ms cb ca ua ar v]. intros Hc.
  pose (ms' := match e with
    | Project.ProjectMilestoneAdded _ m n td _ => ms ++ [Project.MkMilestone m n td]
    | Project.ProjectMilestoneRescheduled _ m td _ =>
        map (fun x => if bool_decide (value (Project.m_id x) = value m) then Project.MkMilestone (Project.m_id x) (Project.m_name x) td else x) ms
    | Project.ProjectMilestoneRenamed _ m n _ =>
        map (fun x => if bool_decide (value (Project.m_id x) = value m) then Project.MkMilestone (Project.m_id x) n (Project.m_targetDate x) else x) ms
    | Project.ProjectMilestoneArchived _ m _ => filter (fun x => value (Project.m_id x) <> value m) ms
    | _ => ms
    end).
  exists (Project.Snapshot i
    (match e with Project.ProjectRenamed _ n _ => n | _ => n end)
    (match e with Project.ProjectStatusTransitioned _ st _ => st | _ => st end)
    (match e with Project.ProjectRescheduled _ sd _ _ => sd | _ => sd end)
    (match e with Project.ProjectRescheduled _ _ td _ => td | _ => td end)
    (match e with Project.ProjectDescribed _ d _ => d | _ => d end)
    (match e with Project.ProjectGoalAdded _ g _ => Some g | Project.ProjectGoalRemoved _ _ => None | _ => g end)
    ms' cb ca (event_time e)
    (match e with Project.ProjectArchived _ t => Some t | _ => ar end) (v + 1)).
  split; [|destruct e; simpl; auto 6].
  destruct e; try done; unfold ProjectReadLemmas.project_event, applyProjectEventToSnapshot, state_of, ms'; simpl; try reflexivity;
    f_equal; unfold touch, update_milestones, with_milestones; simpl; f_equal.
  - by rewrite map_app.
  - by apply milestones_updated.
  - by apply milestones_updated.
  - apply milestones_filtered.
Qed.

Lemma project_created_or e : (exists p n st sd td d g cb t, e = Project.ProjectCreated p n st sd td d g cb t) \/
  ProjectReadLemmas.is_created e = false.
Proof. destruct e; [left; by repeat eexists|by right..]. Qed.

Lemma project_kept i prev e s : (forall p, prev = Some p -> project_wf i p) -> project_fine i e ->
  ProjectReadLemmas.project_event prev e = Some s -> project_wf i s.
Proof.
  intros Hp [Ht He]. destruct (project_created_or e) as [(q & n & st & sd & td & d & g & cb & t & ->)|Hc].
  - destruct He as [Hi Hcb]. intros Hs.
    assert (exists z, s = state_of (Project.Snapshot q n st sd td d g [] cb t t None z)) as [z ->].
    { destruct prev as [p|]; [|exists 1%Z; by injection Hs as <-]. destruct (Hp p eq_refl) as (_ & p' & -> & _).
      exists (Project.s_version p' + 1)%Z. by injection Hs as <-. }
    split; [done|]. eexists. split; [reflexivity|]. by repeat split.
  - destruct prev as [p|]; [|by destruct e]. destruct (Hp p eq_refl) as (Hi & p' & -> & H1 & H2 & H3 & H4).
    destruct (project_event_state p' e Hc) as (p2 & E & Ei & Ecb & Eca & Eua & Ear). rewrite E. intros [= <-]. split.
    + rewrite <- Hi. simpl. by rewrite Ei.
    + exists p2. split; [done|]. unfold project_snapshot_plain. rewrite Ecb, Eca, Eua. split_and!; try done.
      destruct Ear as [-> | ->]; done.
Qed.

Lemma wf_named i s : project_wf i s -> named (ps_goalId s).
Proof. intros (_ & p & -> & _) g. simpl. destruct (Project.s_goalId p) as [q|]; [|done]. intros [= <-]. apply goal_id_nonempty. Qed.

(** *** The index follows the snapshots *)

Lemma goal_side_restored V x i s : by_goal V x -> V !! i = None -> project_wf i s -> k_active project_snapshots s = true ->
  by_goal (<[i := k_item project_snapshots s]> V) (k_restored project_snapshots (k_item project_snapshots s) i x).
Proof. intros Hx Hi Hw _. apply by_goal_index; [done|done|]. by apply (wf_named i s). Qed.

Lemma reindex_cases i prev s x : (forall p, prev = Some p -> project_wf i p) -> project_wf i s ->
  reindexGoal prev (shown_item project_snapshots s) x =
    match prev ≫= shown_item project_snapshots, shown_item project_snapshots s with
    | Some o, Some n => if decide (pi_goalId o = pi_goalId n) then x
                        else indexGoal (pi_goalId n) i (unindexGoal (pi_goalId o) i x)
    | Some o, None => unindexGoal (pi_goalId o) i x
    | None, Some n => indexGoal (pi_goalId n) i x
    | None, None => x
    end.
Proof.
  intros Hp [Hs _]. unfold reindexGoal, shown_item.
  change (k_active project_snapshots) with (fun s => unarchived (ps_archivedAt s)).
  change (k_item project_snapshots) with projectSnapshotToListItem. cbv beta.
  destruct (unarchived (ps_archivedAt s)) eqn:Es; (destruct prev as [p|]; [destruct (Hp p eq_refl) as [Hpi _]|]); simpl;
    try (destruct (unarchived (ps_archivedAt p)) eqn:Ep); simpl; rewrite ?Es, ?Hpi, ?Hs; simpl; try done.
  case_bool_decide; [by rewrite decide_True|by rewrite decide_False].
Qed.

Lemma goal_side_changed V x i prev s : by_goal V x -> (forall p, prev = Some p -> project_wf i p) -> project_wf i s ->
  V !! i = prev ≫= shown_item project_snapshots ->
  by_goal (match shown_item project_snapshots s with Some y => <[i := y]> V | None => delete i V end)
    (k_changed project_snapshots prev (shown_item project_snapshots s) x).
Proof.
  intros Hx Hp Hw Hi. set (old := prev ≫= shown_item project_snapshots) in *.
  change (k_changed project_snapshots) with reindexGoal. rewrite (reindex_cases i) by done. fold old.
  assert (forall o, old = Some o -> named (pi_goalId o)) as Hold.
  { intros o. subst old. destruct prev as [p|]; [|done]. simpl. unfold shown_item. destruct (k_active _ p); [|done].
    intros [= <-]. apply (wf_named i p), Hp. done. }
  assert (forall n, shown_item project_snapshots s = Some n -> named (pi_goalId n)) as Hnew.
  { intros n. unfold shown_item. destruct (k_active _ s); [|done]. intros [= <-]. by apply (wf_named i s). }
  destruct old as [o|], (shown_item project_snapshots s) as [n|].
  - specialize (Hold o eq_refl). specialize (Hnew n eq_refl). destruct (decide _) as [Eg|Hne]; [by eapply by_goal_same|].
    rewrite <- insert_delete_eq. apply by_goal_index; [by apply by_goal_unindex|apply lookup_delete_eq|done].
  - apply by_goal_unindex; auto.
  - apply by_goal_index; auto.
  - by rewrite delete_id.
Qed.

(** ** Lemmas: the processor *)

Definition own_keys : list string := [SEARCH_KEY_ID project_search].

Lemma project_search_key_own : SEARCH_KEY_ID project_search ∈ own_keys.
Proof. unfold own_keys. set_solver. Qed.

Lemma project_item_key i s : project_wf i s -> item_id project_search (k_item project_snapshots s) = i.
Proof. by intros [<- _]. Qed.

Lemma project_item_shown s : item_active project_search (k_item project_snapshots s) = k_active project_snapshots s.
Proof. reflexivity. Qed.

Section Processing.
Context `{CryptoServicePort} `{SearchEngine ProjectListItem}.
Context (deriveKey : list Z -> string -> list Z) (now : number).
Context (keyof : string -> option (list Z)) (own_free : forall i, i ∈ own_keys -> keyof i = None).
Context (ids : search_index -> gset string) (laws : search_laws pi_id ids) (exact : bool).
Notation in_order := (device_ok deriveKey keyof own_keys).
Notation world := (ProjectProjection.world).
Notation snapshots := (gmap string ProjectSnapshotState).
Implicit Types (w : world) (M : snapshots).

(** What the projection shows. *)
Definition project_shows w M : Prop :=
  shows deriveKey keyof own_keys project_snapshots project_search project_wf by_goal ids exact M w.

Definition project_usable w : Prop := in_order (dv_device w) /\ NoDup (map ProjectionCacheStore.key (dv_cache w)).

(** One event of a project whose key is here; an event that leaves no snapshot changes nothing. *)
Definition readable_project (r : EventRecord) : option Project.payload_t :=
  match keyof (er_aggregateId r) with
  | None => None
  | Some k => match toDomain (GoalProjection.toEncryptedEvent "project" r) k with
              | Ok (ProjectEvent e) => Some (payload e)
              | _ => None
              end
  end.
Definition project_step M (r : EventRecord) : snapshots :=
  match readable_project r ≫= ProjectReadLemmas.project_event (M !! er_aggregateId r) with
  | Some s => <[er_aggregateId r := s]> M
  | None => M
  end.

Definition good_project_row (r : EventRecord) : Prop :=
  (er_aggregateId r ∉ own_keys) /\
  forall k, keyof (er_aggregateId r) = Some k -> exists e, toDomain (GoalProjection.toEncryptedEvent "project" r) k = Ok e /\
    match e with ProjectEvent e => project_fine (er_aggregateId r) (payload e) | GoalEvent _ => True end.

Lemma apply_project_event_ok r k c n w M e : project_shows w M -> keyof (er_aggregateId r) = Some k ->
  project_fine (er_aggregateId r) (payload e) -> exists b w',
    apply_domain_event now r k c n (ProjectEvent e) w = (Ok b, w') /\
    project_shows w' (match ProjectReadLemmas.project_event (M !! er_aggregateId r) (payload e) with
                      | Some s => <[er_aggregateId r := s]> M | None => M end) /\
    event_tables w' = event_tables w.
Proof.
  intros S Hk He. set (i := er_aggregateId r) in *.
  pose proof (apply_snapshot_reflects deriveKey keyof own_keys project_snapshots now project_wf project_fine project_stored
    project_kept by_goal goal_side_changed M w i (payload e) k c n (sw_device _ _ _ _ _ _ _ _ _ _ _ S)
    (sw_snapshots _ _ _ _ _ _ _ _ _ _ _ S) Hk He) as Ha.
  change (ProjectReadLemmas.project_event (M !! i) (payload e)) with (k_apply project_snapshots (M !! i) (payload e)).
  unfold apply_domain_event, applySnapshotEvent, applySearchChange. fold i.
  destruct (k_apply project_snapshots (M !! i) (payload e)) as [s|] eqn:Es.
  - destruct Ha as (Hwf & w1 & E1 & Hs1 & [Hd1 Hdb1 Hst1 Hrows1 Hart1 Hse1] & Hx1).
    rewrite (js_bind_run_ok _ _ _ _ _ E1). cbn [changed next previous previousItem nextItem].
    destruct (shows_changed deriveKey keyof own_keys own_free project_snapshots project_search project_wf by_goal ids laws
      project_search_key_own project_item_key project_item_shown exact M w w1 i s S Hwf Hs1 Hd1 (Hst1 _) Hart1 Hse1) as (se & E3 & H3).
    rewrite (js_bind_run_ok _ _ _ _ _ E3). exists true. eexists. split; [reflexivity|]. split; [exact H3|exact Hdb1].
  - rewrite (js_bind_run_ok _ _ _ _ _ Ha). exists false, w. by split; [|split].
Qed.

Lemma apply_project_ok r c n w M : project_shows w M -> good_project_row r -> exists b w',
  applyProjectEvent deriveKey now r c n w = (Ok b, w') /\ project_shows w' (project_step M r) /\ event_tables w' = event_tables w.
Proof.
  intros S [Hno Hgood]. unfold project_step, readable_project. pose proof (sw_device _ _ _ _ _ _ _ _ _ _ _ S) as Hd.
  destruct (keyof (er_aggregateId r)) as [k|] eqn:Hk.
  - destruct (Hgood k eq_refl) as (e & He & Hf). rewrite He.
    destruct (resolve_known deriveKey keyof own_keys (er_aggregateId r) k (dv_device w) Hd Hk) as (d & E & Hd' & Ho).
    assert (applyProjectEvent deriveKey now r c n w = ProjectProjection.skip_missing_key (apply_domain_event now r k c n e) (set_device d w)) as ->.
    { unfold applyProjectEvent, skip_missing_key, try_catch, on_device, lift_result, mbind, js_bind. cbv zeta. by rewrite E, He. }
    assert (project_shows (set_device d w) M) as S' by (eapply shows_device; [apply project_search_key_own|exact S|exact Hno|exact Hd'|exact Ho]).
    assert (event_tables (set_device d w) = event_tables w) as Htab by (by destruct (ok_tables _ _ _ Ho) as (? & _)).
    destruct e as [e|e]; [by exists false, (set_device d w)|].
    destruct (apply_project_event_ok r k c n (set_device d w) M e S' Hk Hf) as (b & w' & E' & H2 & Ht2).
    exists b, w'. split; [|split; [exact H2|congruence]]. unfold skip_missing_key, try_catch. by rewrite E'.
  - exists false, w. split; [|by split]. pose proof (resolve_unknown deriveKey keyof own_keys _ _ Hd Hk Hno) as E.
    unfold applyProjectEvent, skip_missing_key, try_catch, on_device. unfold mbind, js_bind. rewrite E. by destruct w.
Qed.

Lemma reset_projects_ok w : project_usable w -> exists w', resetProjects w = (Ok tt, w') /\
  project_shows w' ∅ /\ event_tables w' = event_tables w.
Proof.
  intros [Hd Hn]. eexists. split; [reflexivity|]. split; [|done]. apply shows_nothing; simpl; try done.
  - by apply NoDup_map_filter.
  - intros i. rewrite cache_get_removeAll. by rewrite decide_True.
  - split; [|constructor]. intros g i. split; [by intros ?%elem_of_nil|]. by intros (it & Hi & _).
  - unfold IndexArtifactStore.get, IndexArtifactStore.remove. rewrite kt_get_remove. by rewrite decide_True.
Qed.

Lemma batch_projects_ok info w M : project_shows w M -> exists w',
  persistIndex project_search now (batch_cursor info) w = (Ok tt, w') /\ project_shows w' M /\ event_tables w' = event_tables w.
Proof.
  intros S. destruct (shows_persisted deriveKey now keyof own_keys own_free project_snapshots project_search project_wf by_goal ids
    laws project_search_key_own exact M w (batch_cursor info) S) as (s & t & d & E & Hs & Ho).
  exists (research s t d w). split; [done|]. split; [exact Hs|]. unfold event_tables. simpl. by destruct (ok_tables _ _ _ Ho) as (? & _).
Qed.

(** The project projection is a projection. *)
Lemma project_projects : Projects event_tables (project_processor deriveKey now) project_shows project_usable project_step
  ∅ good_project_row.
Proof.
  split; [done|..].
  - intros e c n w a Hw He. by apply apply_project_ok.
  - intros i w a Hw. by apply batch_projects_ok.
  - intros w Hw. by apply reset_projects_ok.
Qed.

(** What [listByGoalId] lists. *)
Lemma by_goal_listed w M g x : project_shows w M -> x ∈ listByGoalId g w <->
  map_get (pi_id x) (dv_projections w) = Some x /\ pi_goalId x = Some g.
Proof.
  intros S. pose proof (sw_snapshots _ _ _ _ _ _ _ _ _ _ _ S) as R. destruct (rf_side _ _ _ _ _ _ R) as [He Ho].
  assert (forall i, omap (shown_item project_snapshots) M !! i = map_get i (dv_projections w)) as Hv.
  { intros i. by rewrite lookup_omap, (rf_shown _ _ _ _ _ _ R). }
  unfold listByGoalId. rewrite newest_first_perm, list_elem_of_omap. fold (projects_of g (dv_extra w)). split.
  - intros (i & (it & Hi & Hg)%He & Hx). rewrite Hv in Hi. rewrite Hi in Hx. injection Hx as ->.
    destruct (shown_entry _ _ _ _ _ _ _ _ project_item_key _ _ _ i x S Hi) as (s & _ & _ & _ & Hid).
    change (pi_id x = i) in Hid. by rewrite Hid.
  - intros [Hx Hg]. exists (pi_id x). split; [|done]. apply He. exists x. by rewrite Hv.
Qed.

Lemma by_goal_once w M g : project_shows w M -> NoDup (map pi_id (listByGoalId g w)).
Proof.
  intros S. pose proof (sw_snapshots _ _ _ _ _ _ _ _ _ _ _ S) as R. destruct (rf_side _ _ _ _ _ _ R) as [He Ho].
  unfold listByGoalId. rewrite newest_first_perm. fold (projects_of g (dv_extra w)).
  assert (forall i, i ∈ projects_of g (dv_extra w) -> exists x, map_get i (dv_projections w) = Some x /\ pi_id x = i) as Hx.
  { intros i (it & Hi & _)%He. rewrite lookup_omap, <- (rf_shown _ _ _ _ _ _ R) in Hi. exists it. split; [done|].
    by destruct (shown_entry _ _ _ _ _ _ _ _ project_item_key _ _ _ i it S Hi) as (s & _ & _ & _ & Hid). }
  rewrite looked_up_ids; [apply Ho|exact Hx].
Qed.

End Processing.

(** A new process. *)
Lemma project_reopens `{CryptoServicePort} `{SearchEngine ProjectListItem} deriveKey now keyof ids exact c n w M d :
  project_shows deriveKey keyof ids exact w M -> device_ok deriveKey keyof own_keys d ->
  (forall i, i ∈ own_keys -> stored_key i d = stored_key i (dv_device w)) ->
  exists w', bootstrap (project_processor deriveKey now) c n (reopen [] d w) = (Ok tt, w') /\
    project_shows deriveKey keyof ids false w' M /\ (forall i, map_get i (dv_projections w') = map_get i (dv_projections w)).
Proof.
  intros [D S X Y] Hd Hk.
  destruct (bootstrap_reflects deriveKey keyof own_keys project_snapshots project_wf project_fine project_stored project_kept
    by_goal goal_side_restored goal_side_changed M (reopen [] d w) Hd) as (w' & E & Hs' & Hc & Hdv & Ha & Hse); [|done..| |].
  { destruct S as [[Sk Sr] _ _ _ _ _]. by split. }
  { split; [|constructor]. intros g i. split; [by intros ?%elem_of_nil|]. by intros (it & Hi & _). }
  exists w'. split; [exact E|]. split; [split|].
  - by rewrite Hdv.
  - done.
  - eapply within_ext; [exact X| |exact Ha|by rewrite Hse]. rewrite Hdv. intros k Hk'. simpl.
    rewrite Hk; [done|]. apply project_search_key_own.
  - done.
  - intros i. by rewrite (rf_shown _ _ _ _ _ _ Hs' i), (rf_shown _ _ _ _ _ _ S i).
Qed.

End ProjectProjectionLemmas.

Module ProjectProjectionProperties.
Import OrderLemmas RuntimeLemmas ProjectSnapshotCodec ProjectProjectionState ProjectProjection.
Import KeyringLemmas ProjectorLemmas ProjectProjectionLemmas.

Section Properties.
Context `{CryptoServicePort} `{SearchEngine ProjectListItem}.
Context (deriveKey : list Z -> string -> list Z) (now : number) (keyof : string -> option (list Z)).
Context (ids : search_index -> gset string) (laws : search_laws pi_id ids).
Context (own_free : forall i, i ∈ own_keys -> keyof i = None).

(** What the project projection shows is what the log says: after a rebuild, from any
    state, each project shown is the fold of its events in effective order, archived ones
    are not shown, and the index by goal answers exactly: [listByGoalId] lists the shown
    projects with that goal, each once, newest first, whatever goals they were moved
    between; opening the application again restores the same answers from what is stored. *)
Theorem projects_shown_are_replayed batchSize fuel (r : runtime world) :
  let rows := effective_rows "project" (event_tables (ProjectionRuntime.world r)) in
  project_usable deriveKey keyof (ProjectionRuntime.world r) -> tables_ok (event_tables (ProjectionRuntime.world r)) ->
  0 < batchSize -> Forall (good_project_row keyof) rows -> length rows < fuel ->
  exists r', onRebaseRequired event_tables (project_processor deriveKey now) "project" batchSize now fuel r =
      (Ok (Some tt), r') /\
    let M := fold_left (project_step keyof) rows ∅ in
    (forall i, getProjectById i (ProjectionRuntime.world r') = M !! i ≫= shown_item project_snapshots) /\
    listProjects None (ProjectionRuntime.world r') ≡ₚ (map_to_list (omap (shown_item project_snapshots) M)).*2 /\
    (forall g, NoDup (map pi_id (listByGoalId g (ProjectionRuntime.world r'))) /\
      Sorted (older_after pi_createdAt) (listByGoalId g (ProjectionRuntime.world r')) /\
      forall x, x ∈ listByGoalId g (ProjectionRuntime.world r') <->
        getProjectById (pi_id x) (ProjectionRuntime.world r') = Some x /\ pi_goalId x = Some g) /\
    forall c n d, device_ok deriveKey keyof own_keys d ->
      (forall i, i ∈ own_keys -> stored_key i d = stored_key i (dv_device (ProjectionRuntime.world r'))) ->
      exists w', bootstrap (project_processor deriveKey now) c n (reopen [] d (ProjectionRuntime.world r')) = (Ok tt, w') /\
        forall i g x, getProjectById i w' = getProjectById i (ProjectionRuntime.world r') /\
          (x ∈ listByGoalId g w' <-> x ∈ listByGoalId g (ProjectionRuntime.world r')).
Proof.
  intros rows Hu Hok Hb Hg Hf.
  destruct (rebuild_catches_up event_tables (project_processor deriveKey now) "project" batchSize now _ _ _ _ _
    (project_projects deriveKey now keyof own_free ids laws true) Hb fuel r Hok Hu Hg Hf) as (r' & E & S & _).
  exists r'. split; [exact E|]. fold rows in S. cbv zeta. set (M := fold_left (project_step keyof) rows ∅) in *.
  pose proof (sw_snapshots _ _ _ _ _ _ _ _ _ _ _ S) as R. split; [|split; [|split]].
  - intros i. apply (rf_shown _ _ _ _ _ _ R).
  - unfold listProjects. rewrite newest_first_perm. by eapply listing_reflects.
  - intros g. split; [by eapply by_goal_once|]. split; [apply newest_first_sorted|]. intros x. by eapply by_goal_listed.
  - intros c n d Hd Hk. destruct (project_reopens deriveKey now keyof ids true c n _ M d S Hd Hk) as (w' & E' & S' & Hp).
    exists w'. split; [exact E'|]. intros i g x. split; [apply Hp|].
    rewrite (by_goal_listed _ _ _ _ _ M g x S'), (by_goal_listed _ _ _ _ _ M g x S). by rewrite Hp.
Qed.

End Properties.
End ProjectProjectionProperties.

(** ** Witnesses *)

Module ProjectProjectionWitnesses.
Import OrderLemmas RuntimeLemmas ProjectSnapshotCodec ProjectProjectionState ProjectProjection.
Import ApplicationLemmas KeyringLemmas ProjectorLemmas ProjectProjectionLemmas ProjectProjectionProperties.
Import KeyringWitnesses.
#[local] Existing Instance toy_service.

(** An engine that finds every document for any term. *)
#[export] Instance toy_project_engine : SearchEngine ProjectListItem := {|
  search_index := list string;
  ms_new := [];
  ms_addAll docs i := Ok (map pi_id docs ++ i);
  ms_add x i := if bool_decide (pi_id x ∈ i) then Err (PlainError "MiniSearch: duplicate ID") else Ok (pi_id x :: i);
  ms_remove x i := if bool_decide (pi_id x ∈ i) then Ok (filter (fun j => j <> pi_id x) i)
    else Err (PlainError "MiniSearch: cannot remove document");
  ms_search _ i := i;
  ms_toJSON i := JSON_stringify (JArr (map JStr i));
  ms_loadJSON t := match JSON_parse t with Some (JArr l) => mapM (fun v => RecordCodec.as_string (Some v)) l | _ => None end
|}.

Definition id_set (i : search_index (SearchEngine := toy_project_engine)) : gset string :=
  list_to_set (C := gset string) (i : list string).

Lemma toy_project_laws : search_laws (H := toy_project_engine) pi_id id_set.
Proof.
  unfold id_set. split; simpl.
  - done.
  - intros x i Hx. rewrite bool_decide_false by (by rewrite elem_of_list_to_set in Hx). by eexists.
  - intros l i _ _. eexists. split; [done|]. by rewrite list_to_set_app_L.
  - intros x i Hx. rewrite bool_decide_true by (by rewrite elem_of_list_to_set in Hx). eexists. split; [done|].
    apply set_eq. intros j. rewrite elem_of_difference, !elem_of_list_to_set, list_elem_of_filter. set_solver.
  - intros x i Hx. rewrite bool_decide_false by (by rewrite elem_of_list_to_set in Hx). by eexists.
  - intros i. assert (json_ok (JArr (map JStr i)) = true) as Hok by (simpl; by induction i).
    pose proof (JsonTextProperties.parse_stringify _ Hok) as Hp. split.
    + intros E. rewrite E in Hp. discriminate Hp.
    + exists i. rewrite Hp. split; [|done]. clear. induction i as [|x i IH]; [done|]. simpl in *. by rewrite IH.
  - intros t i x. by rewrite elem_of_list_to_set.
Qed.

(** The project [id_a] of the goal [id_b], on a device that has the keys. *)
Definition planned : Project.t :=
  match Project.create project_1 kitchen ProjectStatus.Planned jan_1 mar_1 no_text (Some GoalProjectionRuns.goal_2) alice noon event_3 with
  | Ok p => p
  | Err _ => fresh project_1
  end.
Definition project_saved : device :=
  (ProjectRepository.save (fun x => x) planned dek_1 GoalProjectionRuns.both_keys).2.
Definition project_runtime : runtime ProjectProjection.world :=
  new_runtime (Derived project_saved [] [] [] [] [] no_search 0) [].
Definition project_rows : list EventRecord :=
  effective_rows "project" (event_tables (ProjectionRuntime.world project_runtime)).

Lemma project_own_free : forall i, i ∈ own_keys -> GoalProjectionWitnesses.key_of i = None.
Proof. intros i [->|[]%elem_of_nil]%elem_of_cons; reflexivity. Qed.

Lemma project_saved_ok : device_ok derive GoalProjectionWitnesses.key_of own_keys project_saved.
Proof.
  pose proof (GoalProjectionWitnesses.both_keys_ready own_keys project_own_free) as Hb.
  apply (device_ok_same derive _ _ _ _ Hb); try (vm_compute; reflexivity).
  - intros n. split; [done|]. apply (bool_decide_unpack _). vm_compute. exact I.
  - intros n. exists n. vm_compute. reflexivity.
Qed.

Lemma project_rows_good : Forall (good_project_row GoalProjectionWitnesses.key_of) project_rows.
Proof.
  assert (exists r, project_rows = [r] /\ er_aggregateId r = id_a /\
    exists e, toDomain (GoalProjection.toEncryptedEvent "project" r) dek_1 = Ok (ProjectEvent e) /\ project_fine id_a (payload e))
    as (r & -> & Hi & e & He & Hf).
  { eexists. split; [vm_compute; reflexivity|]. split; [reflexivity|]. eexists. split; [vm_compute; reflexivity|].
    split; [reflexivity|]. split; reflexivity. }
  apply Forall_singleton. split; rewrite Hi.
  - apply (bool_decide_unpack _). vm_compute. exact I.
  - intros k [= <-]. by exists (ProjectEvent e).
Qed.

Lemma project_tables_ok : tables_ok (event_tables (ProjectionRuntime.world project_runtime)).
Proof. split; [split|..]; apply (bool_decide_unpack _); vm_compute; exact I. Qed.

Example project_listed :
  map pi_id (listByGoalId id_b (ProjectionRuntime.world
    (onRebaseRequired event_tables (project_processor derive (num 0)) "project" 1 (num 0) 9 project_runtime).2)) = [id_a].
Proof. vm_compute. reflexivity. Qed.

Lemma projects_shown_are_replayed_witness :
  exists r', onRebaseRequired event_tables (project_processor derive (num 0)) "project" 1 (num 0) 9 project_runtime =
      (Ok (Some tt), r') /\
    (forall i, getProjectById i (ProjectionRuntime.world r') =
      fold_left (project_step GoalProjectionWitnesses.key_of) project_rows ∅ !! i ≫= shown_item project_snapshots) /\
    forall g, NoDup (map pi_id (listByGoalId g (ProjectionRuntime.world r'))).
Proof.
  destruct (projects_shown_are_replayed derive (num 0) GoalProjectionWitnesses.key_of id_set toy_project_laws project_own_free 1 9
    project_runtime) as (r' & E & Hg & _ & Hl & _).
  - split; [exact project_saved_ok|constructor].
  - exact project_tables_ok.
  - lia.
  - exact project_rows_good.
  - vm_compute. lia.
  - exists r'. split; [exact E|]. split; [exact Hg|]. intros g. apply (Hl g).
Defined.

End ProjectProjectionWitnesses.
