(* ===== verification/Publisher.v ===== *)
(** * Publication of committed events

    [packages/infrastructure/src/events/InMemoryEventBus.ts],
    [packages/infrastructure/src/eventing/CommittedEventPublisher.ts], and the
    seeding of the saga in [apps/web/src/bootstrap/createAppServices.ts].

    The bus and the publisher work on any world [W] that contains a device
    (class [HasDevice]): a handler is a computation on [W].  The handlers of one
    event run one after another, all of them, also when one throws
    ([Promise.all] starts them all).  A call of the task runner is the run it
    starts; its queueing is [DerivedState]'s. *)

From stdpp Require Import sorting.
From Stdlib Require Import Sorted.
From S2P Require Import Prelude JsValues LocalDb EventStoreCore EventStore Crypto Application Keyring EventAdapters.
From S2P Require Import ValueObjects Dates AggregateRoot Goal Project DerivedState GoalCommands Saga Samples.
From S2P Require Projectors GoalRepository GoalProjection.

(** ** A world with a device in it *)

Class HasDevice (W : Type) : Type := {
  device_of : W -> device;
  with_device : device -> W -> W;
  device_with d w : device_of (with_device d w) = d;
  with_device_of w : with_device (device_of w) w = w;
  with_with d d' w : with_device d (with_device d' w) = with_device d w
}.

#[export, refine] Instance device_device : HasDevice device := {| device_of d := d; with_device d _ := d |}.
Proof. all: done. Defined.

(** The saga of [Saga] acts on the world it carries. *)
#[export, refine] Instance saga_device {W} `{HasDevice W} : HasDevice (saga W) := {|
  device_of s := device_of (Saga.world s);
  with_device d s := Saga (goalStates s) (projectStates s) (seenGoalIds s) (replaying s) (sent s)
    (with_device d (Saga.world s))
|}.
Proof.
  - intros d s. apply device_with.
  - intros s. rewrite with_device_of. by destruct s.
  - intros d d' s. simpl. by rewrite with_with.
Defined.

Definition on_device {W} `{HasDevice W} {A} (m : app A) : js W app_error A := fun w =>
  let '(r, d) := m (device_of w) in (r, with_device d w).

(** ** The event bus *)

Module InMemoryEventBus.
Section Bus.
Context {W : Type}.

Definition handler : Type := domain_event -> js W app_error unit.
Definition bus : Type := gmap string (list handler).

Definition subscribe (eventType : string) (h : handler) (b : bus) : bus :=
  <[eventType := default [] (b !! eventType) ++ [h]]> b.

(** [Promise.all]: every computation runs; the first failure is the answer. *)
Fixpoint promise_all (l : list (js W app_error unit)) : js W app_error unit := fun w =>
  match l with
  | [] => (Ok tt, w)
  | m :: l' =>
      let '(r, w1) := m w in
      let '(r', w2) := promise_all l' w1 in
      (match r with Ok _ => r' | Err e => Err e end, w2)
  end.

Definition listeners (b : bus) (e : domain_event) : list handler := default [] (b !! v_type (view e)).

Definition publish (b : bus) (events : list domain_event) : js W app_error unit :=
  for_each events (fun e => promise_all (map (fun h : handler => h e) (listeners b e))).

End Bus.
Arguments handler : clear implicits.
Arguments bus : clear implicits.
End InMemoryEventBus.

(** ** The publisher *)

Module CommittedEventPublisher.
Import KeyringManager InMemoryEventBus.

(** [StreamState]; the aggregate type is the one of the stream's event store. *)
Record stream : Type := Stream {
  config_name : string;
  config_type : string;
  lastSequence : Z;
  stream_projectionId : string
}.

Record publisher (W : Type) : Type := Publisher {
  pub_world : W;
  pub_meta : meta_table;
  streams : list stream;
  pub_started : bool;
  pub_subscribed : bool
}.
Arguments Publisher {W}.
Arguments pub_world {W}.
Arguments pub_meta {W}.
Arguments streams {W}.
Arguments pub_started {W}.
Arguments pub_subscribed {W}.

Definition META_LAST_PUBLISHED_PREFIX : string := "committed_publisher".

Definition set_lastSequence (n : Z) (s : stream) : stream :=
  Stream (config_name s) (config_type s) n (stream_projectionId s).

Definition buildStreams (includeGoals includeProjects : bool) : list (string * string) :=
  (if includeGoals then [("goals", "goal")] else []) ++ (if includeProjects then [("projects", "project")] else []).

Section Publisher.
Context `{port : CryptoServicePort} {W : Type} `{HasDevice W}.
Variable deriveKey : list Z -> string -> list Z.
Variable eventBus : bus W.
(** [Date.now()] *)
Variable now : number.

Notation run := (js (publisher W) app_error).

Definition new_publisher (w : W) (meta : meta_table) (configs : list (string * string)) : publisher W :=
  Publisher w meta
    (map (fun c => Stream c.1 c.2 0 (META_LAST_PUBLISHED_PREFIX +:+ ":" +:+ c.1)) configs) false false.

Definition in_world {A} (m : js W app_error A) : run A := fun p =>
  let '(r, w) := m (pub_world p) in
  (r, Publisher w (pub_meta p) (streams p) (pub_started p) (pub_subscribed p)).
Definition set_meta (t : meta_table) (p : publisher W) : publisher W :=
  Publisher (pub_world p) t (streams p) (pub_started p) (pub_subscribed p).
Definition set_streams (l : list stream) (p : publisher W) : publisher W :=
  Publisher (pub_world p) (pub_meta p) l (pub_started p) (pub_subscribed p).
Definition set_started (s sub : bool) (p : publisher W) : publisher W :=
  Publisher (pub_world p) (pub_meta p) (streams p) s sub.
(** [stream.lastSequence = n] *)
Definition set_last (i : nat) (n : Z) (p : publisher W) : publisher W :=
  set_streams (alter (set_lastSequence n) i (streams p)) p.

Definition published_record (pid : string) (n : Z) : ProjectionMetaRecord :=
  MetaRecord pid commitSequence ZERO_EFFECTIVE_CURSOR n idle now.
Definition saveLastSequence (pid : string) (n : Z) : run unit :=
  modify (fun p => set_meta (ProjectionMetaStore.upsert (published_record pid n) (pub_meta p)) p).
Definition loadLastSequence (pid : string) : run Z :=
  record ← gets (fun p => ProjectionMetaStore.get pid (pub_meta p));
  match record with
  | None => _ ← saveLastSequence pid 0; mret 0%Z
  | Some r => mret (pm_lastCommitSequence r)
  end.

(** The [try] around [resolveKeyForEvent]: the key, [return], or [continue]. *)
Inductive key_answer : Type := Key (k : list Z) | Deferred | Skipped.

Definition resolve_key (e : EventRow) : js W app_error key_answer :=
  try_catch (k ← on_device (resolveKeyForEvent deriveKey (aggregate_id (cols e))); mret (Key k))
    (fun err =>
      if decide (app_message err = "Master key not set") then mret Deferred
      else match err with MissingKeyError _ => mret Skipped | _ => throw err end).

Definition later_of (n m : Z) : Z := if (m <? n)%Z then n else m.

(** The loop over the events read: what to publish and the last sequence
    processed; [None] is the early [return]. *)
Fixpoint collect (rows : list EventRow) (processedMax : Z) (toPublish : list domain_event)
    : js W app_error (option (list domain_event * Z)) :=
  match rows with
  | [] => mret (Some (toPublish, processedMax))
  | e :: rows' =>
      let seq := commit_sequence e in
      if (seq =? 0)%Z then throw (plain ("Event " +:+ LocalDb.id (cols e) +:+ " missing sequence"))
      else
        answer ← resolve_key e;
        match answer with
        | Deferred => mret None
        | Skipped => collect rows' (later_of seq processedMax) toPublish
        | Key k =>
            domainEvent ← lift_result (lift_error (toDomain (cols e) k));
            collect rows' (later_of seq processedMax) (toPublish ++ [domainEvent])
        end
  end.

(** The events a stream has not published. *)
Definition unpublished (s : stream) (w : W) : list EventRow :=
  getAllEvents (config_type s) (Some (Filter None None (Some (lastSequence s)) None)) (db (device_of w)).

Definition runProcessStream (i : nat) : run unit := fun p =>
  match streams p !! i with
  | None => (Ok tt, p)
  | Some s =>
      match unpublished s (pub_world p) with
      | [] => (Ok tt, p)
      | rows =>
          (collected ← in_world (collect rows (lastSequence s) []);
           match collected with
           | None => mret tt
           | Some (toPublish, processedMax) =>
               _ ← in_world (match toPublish with [] => mret tt | _ => publish eventBus toPublish end);
               if (lastSequence s <? processedMax)%Z then
                 _ ← modify (set_last i processedMax);
                 saveLastSequence (stream_projectionId s) processedMax
               else mret tt
           end) p
      end
  end.

Definition load_stream (i : nat) : run unit := fun p =>
  match streams p !! i with
  | None => (Ok tt, p)
  | Some s => (n ← loadLastSequence (stream_projectionId s); modify (set_last i n)) p
  end.

Definition start : run unit :=
  gets pub_started ≫= fun s : bool =>
  if s then mret tt
  else
    _ ← modify (set_started true false);
    indices ← gets (fun p => seq 0 (length (streams p)));
    _ ← for_each indices load_stream;
    _ ← modify (set_started true true);
    for_each indices runProcessStream.

Definition stop : run unit := modify (fun p => if pub_started p then set_started false false p else p).

End Publisher.
End CommittedEventPublisher.

(** ** The saga on the bus *)

Module SagaWiring.
Import KeyringManager InMemoryEventBus.

Section Subscription.
Context {W : Type}.
Variable dispatch : GoalCommand -> js W app_error unit.

(** [GoalAchievementSaga.subscribe] *)
Definition subscribe_saga (b : bus (saga W)) : bus (saga W) :=
  foldl (fun b t => subscribe t (GoalAchievementSaga.handleEvent dispatch) b) b
    ["ProjectCreated"; "ProjectGoalAdded"; "ProjectGoalRemoved"; "ProjectStatusTransitioned";
     "GoalAchieved"; "GoalUnachieved"; "GoalArchived"; "GoalCreated"; "GoalRefined"; "GoalRecategorized";
     "GoalRescheduled"; "GoalPrioritized"; "GoalAccessGranted"; "GoalAccessRevoked"].
End Subscription.

Section Seed.
Context `{port : CryptoServicePort}.
Variable deriveKey : list Z -> string -> list Z.

Definition earlier (a b : EventRow) : Prop := (commit_sequence a <= commit_sequence b)%Z.
#[export] Instance earlier_dec a b : Decision (earlier a b).
Proof. unfold earlier. apply _. Defined.

(** [allEvents]: both aggregate types, sorted by sequence. *)
Definition all_events (db : local_db) : list EventRow :=
  merge_sort earlier (getAllEvents "goal" None db ++ getAllEvents "project" None db).

(** The body of the loop: an event, [continue], or [return []]. *)
Inductive seeded : Type := Seed (e : domain_event) | NoKey | NoMasterKey.

Definition seed_event (e : EventRow) : app seeded :=
  try_catch
    (k ← resolveKeyForEvent deriveKey (aggregate_id (cols e));
     domainEvent ← lift_result (lift_error (toDomain (cols e) k));
     mret (Seed domainEvent))
    (fun err =>
      match err with
      | MissingKeyError _ => mret NoKey
      | _ => if decide (app_message err = "Master key not set") then mret NoMasterKey else throw err
      end).

Fixpoint seed_loop (rows : list EventRow) (domainEvents : list domain_event) : app (list domain_event) :=
  match rows with
  | [] => mret domainEvents
  | e :: rows' =>
      s ← seed_event e;
      match s with
      | Seed ev => seed_loop rows' (domainEvents ++ [ev])
      | NoKey => seed_loop rows' domainEvents
      | NoMasterKey => mret []
      end
  end.

Definition seedEvents : app (list domain_event) :=
  rows ← gets (fun d => all_events (db d));
  seed_loop rows [].
End Seed.

(** The start of the publisher and the saga in
    [apps/web/src/providers/AppProvider.tsx]: nobody listens to the bus while
    the publisher starts; then the saga subscribes and replays the log.  (The
    projections, started in between, do not use the bus.) *)
Section AppStart.
Import CommittedEventPublisher.
Context `{port : CryptoServicePort} {W : Type} `{HasDevice W}.
Variable deriveKey : list Z -> string -> list Z.
Variable now : number.
Variable dispatch : GoalCommand -> js W app_error unit.

Definition bootstrap_saga (system : string -> origin) : js (saga W) app_error unit :=
  seeds ← on_device (seedEvents deriveKey);
  GoalAchievementSaga.bootstrap dispatch seeds system.

Definition app_start (system : string -> origin) : js (publisher (saga W)) app_error unit :=
  _ ← start deriveKey ∅ now;
  in_world (bootstrap_saga system).
End AppStart.
End SagaWiring.

(** ** Lemmas *)

Module PublisherLemmas.
Import KeyringManager InMemoryEventBus CommittedEventPublisher SagaWiring.

(** *** Logs as sequences of commit numbers and event ids *)

Definition entry (e : EventRow) : Z * string := (commit_sequence e, LocalDb.id (cols e)).
Definition rows_of (ty : string) (x : local_db) : list EventRow :=
  filter (fun e => aggregate_type (cols e) = ty) (events x).
Definition log_of (ty : string) (x : local_db) : list (Z * string) := map entry (rows_of ty x).

Definition log_ok (ty : string) (x : local_db) : Prop :=
  StronglySorted Z.lt (map fst (log_of ty x)) /\ Forall (fun c => (0 < c)%Z) (map fst (log_of ty x)).

(** Events are only ever added, after those that are there. *)
Definition grows (ty : string) (x y : local_db) : Prop := log_of ty x `prefix_of` log_of ty y /\ log_ok ty y.

Definition upto (n : Z) (l : list (Z * string)) : list string := map snd (filter (fun x => (x.1 <= n)%Z) l).

Lemma upto_app n l k : upto n (l ++ k) = upto n l ++ upto n k.
Proof. unfold upto. by rewrite filter_app, map_app. Qed.

Lemma upto_all n l : Forall (fun c => (c <= n)%Z) (map fst l) -> upto n l = map snd l.
Proof.
  induction l as [|x l IH]; csimpl; [done|]. intros [Hx Hl]%Forall_cons. unfold upto in *.
  rewrite filter_cons_True by done. csimpl. by rewrite IH.
Qed.

Lemma upto_none n l : Forall (fun c => (n < c)%Z) (map fst l) -> upto n l = [].
Proof.
  induction l as [|x l IH]; csimpl; [done|]. intros [Hx Hl]%Forall_cons. unfold upto in *.
  rewrite filter_cons_False by lia. by apply IH.
Qed.

Lemma sorted_app_lt (l k : list Z) x y : StronglySorted Z.lt (l ++ k) -> x ∈ l -> y ∈ k -> (x < y)%Z.
Proof.
  induction l as [|a l IH]; csimpl; intros Hs Hx Hy; [by apply not_elem_of_nil in Hx|].
  inversion Hs as [|?? Hs' Ha]; subst. apply list_elem_of_In in Hy. apply elem_of_cons in Hx as [->|Hx].
  - rewrite List.Forall_forall in Ha. apply Ha, in_or_app. by right.
  - apply IH; [done|done|]. by apply list_elem_of_In.
Qed.

(** A sorted log is what was published and, after it, what was not. *)
Lemma upto_split n l : StronglySorted Z.lt (map fst l) ->
  map snd l = upto n l ++ map snd (filter (fun x => (n < x.1)%Z) l).
Proof.
  induction l as [|x l IH]; csimpl; intros Hs; [done|]. inversion Hs as [|?? Hs' Hx]; subst. unfold upto in *.
  rewrite filter_cons, (filter_cons _ x). destruct (decide (x.1 <= n)%Z), (decide (n < x.1)%Z); try lia.
  - csimpl. by rewrite <- IH.
  - assert (Forall (fun c => (n < c)%Z) (map fst l)) as Hl by (eapply List.Forall_impl; [|exact Hx]; simpl; lia).
    rewrite (IH Hs'). pose proof (upto_none n l Hl) as E. unfold upto in E. rewrite E. done.
Qed.

(** Events added to a log do not fall among those up to one of its own. *)
Lemma upto_grows n l k : StronglySorted Z.lt (map fst (l ++ k)) -> Forall (fun c => (0 < c)%Z) (map fst (l ++ k)) ->
  (n = 0 \/ n ∈ map fst l)%Z -> upto n (l ++ k) = upto n l.
Proof.
  intros Hs Hp Hn. rewrite upto_app, (upto_none n k), app_nil_r; [done|]. rewrite map_app in Hs, Hp.
  apply Forall_forall. intros c Hc. destruct Hn as [->|Hn].
  - apply Forall_app in Hp as [_ Hp]. by eapply Forall_forall in Hp.
  - by apply (sorted_app_lt (map fst l) (map fst k)).
Qed.

Lemma fold_max_upper l m : (m <= fold_left Z.max l m)%Z /\ Forall (fun c => (c <= fold_left Z.max l m)%Z) l.
Proof.
  revert m. induction l as [|x l IH]; intros m; simpl; [done|]. destruct (IH (Z.max m x)) as [H1 H2].
  split; [lia|]. constructor; [lia|done].
Qed.

Lemma fold_max_member l m : fold_left Z.max l m = m \/ fold_left Z.max l m ∈ l.
Proof.
  revert m. induction l as [|x l IH]; intros m; simpl; [by left|].
  destruct (IH (Z.max m x)) as [->|H]; [|right; by constructor].
  destruct (Z.max_spec m x) as [[_ ->]|[_ ->]]; [right|by left]. constructor.
Qed.

Lemma later_of_max n m : later_of n m = Z.max m n.
Proof. unfold later_of. destruct (Z.ltb_spec m n); lia. Qed.

Lemma sorted_log_ok x : StronglySorted Z.lt (map commit_sequence (events x)) -> Forall (fun e => (0 < commit_sequence e)%Z) (events x) ->
  forall t, log_ok t x.
Proof.
  intros Hs Hp t. unfold log_ok, log_of, rows_of. rewrite map_map. simpl.
  induction (events x) as [|e l IH]; [split; constructor|]. inversion Hs as [|?? Hs' He]; subst. apply Forall_cons in Hp as [Hpe Hp].
  destruct (IH Hs' Hp) as [H1 H2]. rewrite filter_cons. destruct (decide _); [|done]. csimpl.
  split; constructor; try done. apply Forall_map. apply (proj1 (Forall_fmap _ _ _)) in He.
  apply Forall_forall. intros y [_ Hy]%list_elem_of_filter. exact (proj1 (Forall_forall _ _) He y Hy).
Qed.

Lemma grows_refl ty x : log_ok ty x -> grows ty x x.
Proof. by split. Qed.
Lemma grows_trans ty x y z : grows ty x y -> grows ty y z -> grows ty x z.
Proof. intros [P1 _] [P2 H]. split; [by etrans|done]. Qed.

(** *** The event a row opens to is the row's *)

Definition specs_keep {Pay Id} (specs : list (EventCodec.PayloadEventSpec Pay Id)) : Prop :=
  Forall (fun s => forall p m, AggregateRoot.meta (EventCodec.spec_ctor s p m) = m) specs.

Lemma decoded_meta {Pay Id} (specs : list (EventCodec.PayloadEventSpec Pay Id)) rec m e :
  specs_keep specs -> EventCodec.decodePersisted specs rec m = Ok e -> AggregateRoot.meta e = m.
Proof.
  intros Hs. unfold EventCodec.decodePersisted. destruct (list_find _ specs) as [[j s]|] eqn:Ef; [|done].
  apply list_find_Some in Ef as (Hj & _ & _). unfold EventCodec.decode_event. intros H. inv_ok.
  case_match; [|done]. inv_ok. by apply (proj1 (Forall_lookup _ _) Hs j s Hj).
Qed.

Ltac keep_meta :=
  repeat (apply Forall_cons_2;
    [intros p m; cbn in p; repeat match goal with x : (_ * _)%type |- _ => destruct x | x : unit |- _ => destruct x end; reflexivity|]);
  apply Forall_nil_2.
Lemma goal_specs_keep : specs_keep GoalCodec.goalSpecs.
Proof. unfold specs_keep, GoalCodec.goalSpecs. keep_meta. Qed.
Lemma project_specs_keep : specs_keep ProjectCodec.projectSpecs.
Proof. unfold specs_keep, ProjectCodec.projectSpecs. keep_meta. Qed.

(** The event's id is the one in its metadata. *)
Lemma decoded_id rec r (mk : forall Id, Id -> EventMetadata Id) x ev :
  (forall Id (i : Id), eventId (mk Id i) = x) -> decodePersistedRef rec r mk = Ok ev -> v_eventId (view ev) = value x.
Proof.
  intros Hx. unfold decodePersistedRef. destruct r as [g|q|u]; [| |done].
  - destruct (EventCodec.decodePersisted _ _ _) as [e|] eqn:E; [|done]. intros [= <-]. simpl.
    by rewrite (decoded_meta _ _ _ _ goal_specs_keep E), Hx.
  - destruct (EventCodec.decodePersisted _ _ _) as [e|] eqn:E; [|done]. intros [= <-]. simpl.
    by rewrite (decoded_meta _ _ _ _ project_specs_keep E), Hx.
Qed.

Lemma toDomain_id `{CryptoServicePort} row k ev : toDomain row k = Ok ev -> v_eventId (view ev) = LocalDb.id row.
Proof.
  unfold toDomain. intros H1. inv_ok. destruct (decrypt _ _ _) as [pl|]; [|done]. unfold open_envelope in *. inv_ok.
  repeat case_match; try done. unfold fail_if in *. inv_ok. repeat case_match; try done.
  lazymatch goal with
  | Hid : negb (@bool_decide (RecordCodec.em_eventId _ = _) _) = false, Hv : @vo_new _ (RecordCodec.em_eventId _) = Ok ?y,
    Hd : decodePersistedRef _ _ _ = Ok _ |- _ =>
      apply negb_false_iff, bool_decide_eq_true in Hid; apply vo_new_ok in Hv;
      eapply (decoded_id _ _ _ y) in Hd; [congruence|done]
  end.
Qed.

(** Two results of one computation are the same. *)
Ltac agree := repeat match goal with A : ?x = _, B : ?x = _ |- _ => rewrite A in B; simplify_eq end; try done.

Lemma listeners_empty {W} e : listeners (∅ : bus W) e = [].
Proof. unfold listeners, bus. by rewrite lookup_empty. Qed.

(** *** One run *)

Section Runs.
Context `{port : CryptoServicePort} {W : Type} `{HasDevice W}.
Variable deriveKey : list Z -> string -> list Z.
Variable eventBus : bus W.
Variable now : number.
Implicit Types w : W.
Implicit Types p : publisher W.

Definition db_of w : local_db := db (device_of w).

Lemma resolve_db i d : db (resolveKeyForEvent deriveKey i d).2 = db d.
Proof. by destruct (Projectors.ProjectorLemmas.ok_tables _ _ _ (Projectors.ProjectorLemmas.resolve_only deriveKey i d)) as [E _]. Qed.

Lemma resolve_key_db e w r w1 : resolve_key deriveKey e w = (r, w1) -> db_of w1 = db_of w.
Proof.
  unfold resolve_key, try_catch, on_device, mbind, js_bind, mret, js_ret, throw, db_of.
  pose proof (resolve_db (aggregate_id (cols e)) (device_of w)) as E.
  destruct (resolveKeyForEvent _ _ _) as [[k|err] d']; simpl in *.
  - intros [= <- <-]. by rewrite device_with.
  - repeat case_match; intros [= <- <-]; by rewrite device_with.
Qed.

(** What becomes of each event of a run: published, or passed over because its
    key is missing. *)
Definition outcome : Type := string * option domain_event.

Inductive collected : list EventRow -> W -> list outcome -> W -> Prop :=
| collected_nil w : collected [] w [] w
| collected_event e k ev rows w w1 outs w' :
    resolve_key deriveKey e w = (Ok (Key k), w1) -> toDomain (cols e) k = Ok ev -> collected rows w1 outs w' ->
    collected (e :: rows) w ((LocalDb.id (cols e), Some ev) :: outs) w'
| collected_missing e rows w w1 outs w' :
    resolve_key deriveKey e w = (Ok Skipped, w1) -> collected rows w1 outs w' ->
    collected (e :: rows) w ((LocalDb.id (cols e), None) :: outs) w'.

Lemma collected_facts rows w outs w' : collected rows w outs w' ->
  db_of w' = db_of w /\ map fst outs = map (fun e => LocalDb.id (cols e)) rows /\
  Forall (fun o : outcome => forall ev, o.2 = Some ev -> v_eventId (view ev) = o.1) outs.
Proof.
  induction 1 as [w|e k ev rows w w1 outs w' Hr Ht _ (E & M & F)|e rows w w1 outs w' Hr _ (E & M & F)]; [done|..];
    simpl; rewrite M, E, (resolve_key_db _ _ _ _ Hr); split_and!; try done; constructor; try done.
  simpl. intros ? [= <-]. by eapply toDomain_id.
Qed.

Lemma collected_det rows w outs w1 outs' w2 : collected rows w outs w1 -> collected rows w outs' w2 -> outs = outs' /\ w1 = w2.
Proof.
  intros Hc. revert outs' w2. induction Hc as [w|e k ev rows w wa outs w' Hr Ht Hc IH|e rows w wa outs w' Hr Hc IH]; intros outs2 w2 H2;
    inversion H2; subst; agree; by edestruct IH as [-> ->].
Qed.

Lemma collect_spec rows m acc w r w' : Forall (fun e => commit_sequence e <> 0%Z) rows ->
  collect deriveKey rows m acc w = (r, w') ->
  db_of w' = db_of w /\
  match r with
  | Ok (Some (evs, m')) => exists outs, collected rows w outs w' /\ evs = acc ++ omap snd outs /\
      m' = fold_left Z.max (map commit_sequence rows) m
  | _ => forall outs w2, ~ collected rows w outs w2
  end.
Proof.
  intros Hn. revert m acc w. induction Hn as [|e rows He Hn IH]; intros m acc w; simpl.
  { intros [= <- <-]. split; [done|]. exists []. rewrite app_nil_r. split; [constructor|done]. }
  rewrite (proj2 (Z.eqb_neq _ _) He). unfold mbind, js_bind.
  destruct (resolve_key deriveKey e w) as [[[k| |]|err] w1] eqn:Er; pose proof (resolve_key_db _ _ _ _ Er) as Ed.
  - destruct (toDomain (cols e) k) as [ev|err] eqn:Et; simpl.
    + intros Hc. destruct (IH _ _ _ Hc) as [E1 H1]. split; [congruence|].
      destruct r as [[[evs m']|]|err]; simpl in *.
      * destruct H1 as (outs & Ho & -> & ->). exists ((LocalDb.id (cols e), Some ev) :: outs).
        split; [by eapply collected_event|]. split; [simpl; by rewrite <- app_assoc|]. by rewrite later_of_max.
      * intros outs w2 Hx. inversion Hx; subst; agree; by eapply H1.
      * intros outs w2 Hx. inversion Hx; subst; agree; by eapply H1.
    + intros [= <- <-]. split; [done|]. intros outs w2 Hx. inversion Hx; subst; agree.
  - intros [= <- <-]. split; [done|]. intros outs w2 Hx. inversion Hx; subst; agree.
  - intros Hc. destruct (IH _ _ _ Hc) as [E1 H1]. split; [congruence|].
    destruct r as [[[evs m']|]|err]; simpl in *.
    + destruct H1 as (outs & Ho & -> & ->). exists ((LocalDb.id (cols e), None) :: outs).
      split; [by eapply collected_missing|]. split; [done|]. by rewrite later_of_max.
    + intros outs w2 Hx. inversion Hx; subst; agree; by eapply H1.
    + intros outs w2 Hx. inversion Hx; subst; agree; by eapply H1.
  - intros [= <- <-]. split; [done|]. intros outs w2 Hx. inversion Hx; subst; agree.
Qed.

(** Opening events changes the device only (the keys it has cached). *)
Lemma resolve_key_device e w : exists d, (resolve_key deriveKey e w).2 = with_device d w.
Proof.
  unfold resolve_key, try_catch, on_device, mbind, js_bind, mret, js_ret, throw.
  destruct (resolveKeyForEvent _ _ _) as [[k|err] d']; exists d'; simpl; by repeat case_match.
Qed.

Lemma collected_device rows w outs w' : collected rows w outs w' -> exists d, w' = with_device d w.
Proof.
  induction 1 as [w|e k ev rows w w1 outs w' Hr Ht _ [d ->]|e rows w w1 outs w' Hr _ [d ->]].
  - exists (device_of w). by rewrite with_device_of.
  - destruct (resolve_key_device e w) as [d1 E]. rewrite Hr in E. simpl in E. subst. exists d. by rewrite with_with.
  - destruct (resolve_key_device e w) as [d1 E]. rewrite Hr in E. simpl in E. subst. exists d. by rewrite with_with.
Qed.

Lemma collect_device rows m acc w : exists d, (collect deriveKey rows m acc w).2 = with_device d w.
Proof.
  assert (exists d, w = with_device d w) as Hw by (exists (device_of w); by rewrite with_device_of).
  revert m acc w Hw. induction rows as [|e rows IH]; intros m acc w Hw; simpl; [done|].
  destruct (_ =? 0)%Z; [done|]. unfold mbind, js_bind. destruct (resolve_key_device e w) as [d1 E].
  assert (forall m acc, exists d, (collect deriveKey rows m acc (with_device d1 w)).2 = with_device d w) as IH1.
  { intros m' acc'. destruct (IH m' acc' (with_device d1 w)) as [d Hd]; [exists d1; by rewrite with_with|].
    exists d. by rewrite Hd, with_with. }
  destruct (resolve_key deriveKey e w) as [[[k| |]|err] w1]; simpl in E; subst w1; simpl; [|by exists d1|apply IH1|by exists d1].
  destruct (toDomain (cols e) k); simpl; [apply IH1|by exists d1].
Qed.

(** *** The state after a run *)

Definition with_world w p : publisher W := Publisher w (pub_meta p) (streams p) (pub_started p) (pub_subscribed p).
Definition stored (pid : string) p : Z := default 0%Z (pm_lastCommitSequence <$> ProjectionMetaStore.get pid (pub_meta p)).

(** The stream [i] stands at [n], in memory and in its stored record. *)
Definition advanced (i : nat) (s : stream) (n : Z) p : publisher W :=
  if (lastSequence s <? n)%Z
  then set_meta (ProjectionMetaStore.upsert (published_record now (stream_projectionId s) n) (pub_meta p)) (set_last i n p)
  else p.

Definition target (s : stream) w : Z := fold_left Z.max (map commit_sequence (unpublished s w)) (lastSequence s).

Lemma unpublished_rows s w : log_ok (config_type s) (db_of w) ->
  unpublished s w = filter (fun e => (lastSequence s < commit_sequence e)%Z) (rows_of (config_type s) (db_of w)).
Proof.
  intros [_ Hp]. unfold unpublished, getAllEvents, readAll, passes, log_of, rows_of, db_of in *. simpl.
  induction (events _) as [|e l IH]; [done|].
  rewrite !filter_cons in *. destruct (decide (aggregate_type (cols e) = config_type s)) as [Ht|Ht].
  - simpl in Hp. apply Forall_cons in Hp as [He Hp]. specialize (IH Hp). rewrite filter_cons.
    rewrite bool_decide_true by done. simpl in *.
    destruct (decide (_ || _ = true)) as [Hd|Hd], (decide (_ < _)%Z) as [Hl|Hl]; rewrite ?IH; try done; exfalso.
    + apply orb_true_iff in Hd. rewrite Z.eqb_eq, Z.ltb_lt in Hd. lia.
    + apply Hd, orb_true_iff. right. by apply Z.ltb_lt.
  - rewrite bool_decide_false by done. simpl. by apply IH.
Qed.

Lemma unpublished_entries s w : log_ok (config_type s) (db_of w) ->
  map entry (unpublished s w) = filter (fun x => (lastSequence s < x.1)%Z) (log_of (config_type s) (db_of w)).
Proof.
  intros Hok. rewrite unpublished_rows by done. unfold log_of. induction (rows_of _ _) as [|e l IH]; [done|].
  csimpl. rewrite !filter_cons. simpl. destruct (decide _); csimpl; by rewrite IH.
Qed.

Definition all_grow w w' : Prop := forall t, grows t (db_of w) (db_of w').

(** Handlers only add to the log. *)
Definition handlers_add : Prop := forall e h, h ∈ listeners eventBus e ->
  forall w r w', (forall t, log_ok t (db_of w)) -> h e w = (r, w') -> all_grow w w'.

Lemma all_grow_refl w : (forall t, log_ok t (db_of w)) -> all_grow w w.
Proof. intros H1 t. by apply grows_refl. Qed.
Lemma all_grow_trans w1 w2 w3 : all_grow w1 w2 -> all_grow w2 w3 -> all_grow w1 w3.
Proof. intros H1 H2 t. by eapply grows_trans. Qed.

Lemma publish_grows : handlers_add -> forall evs w r w1,
  (forall t, log_ok t (db_of w)) -> publish eventBus evs w = (r, w1) -> all_grow w w1.
Proof.
  intros Hh. unfold publish. induction evs as [|e evs IH]; intros w r w1 Hok; simpl.
  { intros [= <- <-]. by apply all_grow_refl. }
  unfold mbind, js_bind.
  assert (forall hs, (forall h, h ∈ hs -> h ∈ listeners eventBus e) -> forall w r w1, (forall t, log_ok t (db_of w)) ->
    promise_all (map (fun h : handler W => h e) hs) w = (r, w1) -> all_grow w w1) as Hall.
  { clear IH Hok w r w1. induction hs as [|h hs IHh]; intros Hin w r w1 Hok; simpl.
    { intros [= <- <-]. by apply all_grow_refl. }
    destruct (h e w) as [r1 w2] eqn:E1. destruct (promise_all _ w2) as [r2 w3] eqn:E2. intros [= <- <-].
    assert (all_grow w w2) as G by (eapply Hh; [apply Hin; constructor|done|done]).
    eapply all_grow_trans; [exact G|]. eapply IHh; [intros x Hx; apply Hin; by constructor|intros t; apply (G t)|done]. }
  destruct (promise_all _ w) as [[u|err] w2] eqn:E.
  - intros Hp. pose proof (Hall _ (fun h Hh => Hh) _ _ _ Hok E) as G. eapply all_grow_trans; [exact G|].
    eapply IH; [intros t; apply (G t)|done].
  - intros [= <- <-]. by eapply Hall.
Qed.

(** A handler [tap] that keeps a list of what it was called with ([heard]); it
    is subscribed for the events [listens] says, once, and the other handlers
    leave the list alone. *)
Definition deaf (heard : W -> list domain_event) (h : handler W) : Prop :=
  forall e w r w', h e w = (r, w') -> heard w' = heard w.

Record listener (tap : handler W) (heard : W -> list domain_event) (listens : domain_event -> bool) : Prop := {
  li_device d w : heard (with_device d w) = heard w;
  li_hears e w : exists w', tap e w = (Ok tt, w') /\ heard w' = heard w ++ [e];
  li_called e : if listens e
    then exists l1 l2, listeners eventBus e = l1 ++ tap :: l2 /\ Forall (deaf heard) l1 /\ Forall (deaf heard) l2
    else Forall (deaf heard) (listeners eventBus e)
}.

Lemma promise_all_deaf heard e hs w r w' : Forall (deaf heard) hs ->
  promise_all (map (fun h : handler W => h e) hs) w = (r, w') -> heard w' = heard w.
Proof.
  intros Hd. revert w r w'. induction Hd as [|h hs Hh _ IH]; intros w r w'; simpl; [by intros [= _ <-]|].
  destruct (h e w) as [r1 w1] eqn:E1. destruct (promise_all _ w1) as [r2 w2] eqn:E2. intros [= _ <-].
  rewrite (IH _ _ _ E2). by apply (Hh _ _ _ _ E1).
Qed.

Lemma promise_all_heard tap heard listens e l1 l2 w r w' : listener tap heard listens ->
  Forall (deaf heard) l1 -> Forall (deaf heard) l2 ->
  promise_all (map (fun h : handler W => h e) (l1 ++ tap :: l2)) w = (r, w') -> heard w' = heard w ++ [e].
Proof.
  intros Hl H1 H2. revert w r w'. induction H1 as [|h hs Hh _ IH]; intros w r w'; simpl.
  - destruct (li_hears _ _ _ Hl e w) as (w1 & -> & Hw1). destruct (promise_all _ w1) as [r2 w2] eqn:E2.
    intros [= _ <-]. rewrite (promise_all_deaf _ _ _ _ _ _ H2 E2). exact Hw1.
  - destruct (h e w) as [r1 w1] eqn:E1. destruct (promise_all _ w1) as [r2 w2] eqn:E2. intros [= _ <-].
    rewrite (IH _ _ _ E2). by rewrite (Hh _ _ _ _ E1).
Qed.

Lemma publish_heard tap heard listens evs w u w' : listener tap heard listens ->
  publish eventBus evs w = (Ok u, w') -> heard w' = heard w ++ filter (fun e => listens e = true) evs.
Proof.
  intros Hl. unfold publish. revert w u w'. induction evs as [|e evs IH]; intros w u w'; simpl.
  { intros [= _ <-]. by rewrite app_nil_r. }
  unfold mbind, js_bind. destruct (promise_all _ w) as [[[]|err] w1] eqn:E; [|done]. intros Hp.
  rewrite (IH _ _ _ Hp), filter_cons. pose proof (li_called _ _ _ Hl e) as Hc.
  destruct (listens e); simpl in *.
  - destruct Hc as (l1 & l2 & El & H1 & H2). rewrite El in E.
    rewrite (promise_all_heard _ _ _ _ _ _ _ _ _ Hl H1 H2 E). by rewrite <- app_assoc.
  - by rewrite (promise_all_deaf _ _ _ _ _ _ Hc E).
Qed.

Lemma unpublished_numbered s w : log_ok (config_type s) (db_of w) ->
  Forall (fun e => commit_sequence e <> 0%Z) (unpublished s w).
Proof.
  intros Hok. rewrite unpublished_rows by done. apply Forall_forall. intros e [_ He]%list_elem_of_filter.
  destruct Hok as [_ Hp]. assert (commit_sequence e ∈ map fst (log_of (config_type s) (db_of w))) as Hc.
  { unfold log_of. rewrite map_map. by apply (list_elem_of_fmap_2 commit_sequence). }
  eapply Forall_forall in Hp; [|done]. lia.
Qed.

(** A run is the loop over the unpublished events, the publication and the
    bookkeeping, in this order. *)
Lemma run_collect i p s : streams p !! i = Some s ->
  let w := pub_world p in
  runProcessStream deriveKey eventBus now i p =
    match collect deriveKey (unpublished s w) (lastSequence s) [] w with
    | (Ok (Some (evs, n)), w1) =>
        match publish eventBus evs w1 with
        | (Ok _, w2) => (Ok tt, advanced i s n (with_world w2 p))
        | (Err e, w2) => (Err e, with_world w2 p)
        end
    | (Ok None, w1) => (Ok tt, with_world w1 p)
    | (Err e, w1) => (Err e, with_world w1 p)
    end.
Proof.
  intros Hs. cbv zeta. unfold runProcessStream. rewrite Hs.
  destruct (unpublished s (pub_world p)) as [|e0 rows0] eqn:Eu.
  { cbn. unfold advanced. rewrite Z.ltb_irrefl. by destruct p. }
  set (rows := e0 :: rows0). unfold mbind at 1, js_bind at 1, in_world at 1.
  destruct (collect deriveKey rows (lastSequence s) [] (pub_world p)) as [[[[evs n]|]|err] w1]; [|done..].
  cbn. unfold in_world, mbind, js_bind. cbn.
  assert (match evs with [] => mret tt | _ => publish eventBus evs end w1 = publish eventBus evs w1) as -> by (by destruct evs).
  destruct (publish eventBus evs w1) as [[u|err] w2]; [|done]. unfold advanced. cbn. by destruct (_ <? _)%Z.
Qed.

Lemma run_spec i p s r p' : streams p !! i = Some s -> log_ok (config_type s) (db_of (pub_world p)) ->
  runProcessStream deriveKey eventBus now i p = (r, p') ->
  let w := pub_world p in
  (exists d, db_of (with_device d w) = db_of w /\ p' = with_world (with_device d w) p /\
    forall outs w2, ~ collected (unpublished s w) w outs w2) \/
  exists outs w1 r2 w2, collected (unpublished s w) w outs w1 /\ publish eventBus (omap snd outs) w1 = (r2, w2) /\ r = r2 /\
    p' = match r2 with Ok _ => advanced i s (target s w) (with_world w2 p) | Err _ => with_world w2 p end.
Proof.
  intros Hs Hok. cbv zeta. rewrite (run_collect i p s Hs).
  destruct (collect deriveKey (unpublished s (pub_world p)) (lastSequence s) [] (pub_world p)) as [c w1] eqn:Ec.
  destruct (collect_spec _ _ _ _ _ _ (unpublished_numbered s _ Hok) Ec) as [Edb Hc].
  destruct (collect_device (unpublished s (pub_world p)) (lastSequence s) [] (pub_world p)) as [d Ed].
  rewrite Ec in Ed. simpl in Ed.
  destruct c as [[[evs n]|]|err].
  - destruct Hc as (outs & Ho & -> & ->). simpl. destruct (publish eventBus (omap snd outs) w1) as [r2 w2] eqn:Ep.
    intros Hr. right. exists outs, w1, r2, w2. split; [done|]. split; [done|]. destruct r2 as [[]|e]; by injection Hr as <- <-.
  - intros [= <- <-]. left. exists d. by rewrite <- Ed.
  - intros [= <- <-]. left. exists d. by rewrite <- Ed.
Qed.

(** *** What a history keeps *)

Lemma stored_upsert pid r p : stored pid (set_meta (ProjectionMetaStore.upsert r (pub_meta p)) p) =
  if decide (pm_projectionId r = pid) then pm_lastCommitSequence r else stored pid p.
Proof.
  unfold stored, ProjectionMetaStore.get, ProjectionMetaStore.upsert. simpl. rewrite kt_get_put. by destruct (decide _).
Qed.

(** The stream [i] is at [n], in memory and in its record; the others are
    other streams. *)
Record stands (i : nat) (ty pid : string) (n : Z) p : Prop := {
  st_here : exists s, streams p !! i = Some s /\ config_type s = ty /\ stream_projectionId s = pid /\ lastSequence s = n;
  st_others j s : j <> i -> streams p !! j = Some s -> stream_projectionId s <> pid;
  st_stored : stored pid p = n
}.

Lemma stands_world i ty pid n w p : stands i ty pid n p -> stands i ty pid n (with_world w p).
Proof. intros [A B C]. by split. Qed.

Lemma stands_advanced i ty pid n p s m : stands i ty pid n p -> streams p !! i = Some s -> (n <= m)%Z ->
  stands i ty pid m (advanced i s m p).
Proof.
  intros [(s' & Hs' & <- & <- & <-) B C] Hs Hm. assert (s' = s) as -> by congruence. unfold advanced.
  destruct (Z.ltb_spec (lastSequence s) m) as [Hlt|Hge].
  - split.
    + exists (set_lastSequence m s). simpl. rewrite list_lookup_alter_eq, Hs. by split_and!.
    + intros j s' Hj. simpl. rewrite list_lookup_alter_ne by done. by apply B.
    + pose proof (stored_upsert (stream_projectionId s) (published_record now (stream_projectionId s) m) (set_last i m p)) as E.
      change (pub_meta (set_last i m p)) with (pub_meta p) in E. rewrite E. by rewrite decide_True.
  - assert (m = lastSequence s) as -> by lia. split; [by exists s|done|done].
Qed.

Lemma stands_other i ty pid n p j s m : stands i ty pid n p -> streams p !! j = Some s -> j <> i ->
  stands i ty pid n (advanced j s m p).
Proof.
  intros [(s' & Hs' & Ht & Hp & Hn) B C] Hs Hj. unfold advanced. destruct (_ <? _)%Z; [|split; [by exists s'|done|done]]. split.
  - exists s'. simpl. rewrite list_lookup_alter_ne by done. by split_and!.
  - intros k s2 Hk. simpl. destruct (decide (k = j)) as [->|Hkj].
    + rewrite list_lookup_alter_eq, Hs. intros [= <-]. simpl. by apply (B j).
    + rewrite list_lookup_alter_ne by done. by apply B.
  - pose proof (stored_upsert pid (published_record now (stream_projectionId s) m) (set_last j m p)) as E.
    change (pub_meta (set_last j m p)) with (pub_meta p) in E. rewrite E. rewrite decide_False; [exact C|]. simpl. by apply (B j).
Qed.

Lemma load_stream_spec i p s : streams p !! i = Some s ->
  exists p', load_stream now i p = (Ok tt, p') /\ pub_world p' = pub_world p /\
    streams p' = alter (set_lastSequence (stored (stream_projectionId s) p)) i (streams p) /\
    (forall pid, stored pid p' = stored pid p) /\ pub_started p' = pub_started p /\ pub_subscribed p' = pub_subscribed p.
Proof.
  intros Hs. unfold load_stream. rewrite Hs. unfold loadLastSequence, saveLastSequence, gets, modify, mbind, js_bind, mret, js_ret.
  unfold stored at 1. destruct (ProjectionMetaStore.get (stream_projectionId s) (pub_meta p)) as [r|] eqn:Er.
  - eexists. split; [reflexivity|]. by split_and!.
  - eexists. split; [reflexivity|]. split_and!; try done. intros pid.
    pose proof (stored_upsert pid (published_record now (stream_projectionId s) 0) p) as E.
    change (stored pid (set_last i 0 (set_meta (ProjectionMetaStore.upsert (published_record now (stream_projectionId s) 0) (pub_meta p)) p)))
      with (stored pid (set_meta (ProjectionMetaStore.upsert (published_record now (stream_projectionId s) 0) (pub_meta p)) p)).
    rewrite E. destruct (decide _) as [<-|]; [|done]. simpl. unfold stored. by rewrite Er.
Qed.

(** A process that starts loads the position of every stream. *)
Lemma load_streams_spec js p r p' : for_each js (load_stream now) p = (r, p') ->
  r = Ok tt /\ pub_world p' = pub_world p /\ (forall pid, stored pid p' = stored pid p) /\
  forall j, streams p' !! j =
    (fun s => if decide (j ∈ js) then set_lastSequence (stored (stream_projectionId s) p) s else s) <$> streams p !! j.
Proof.
  revert p r p'. induction js as [|i js IH]; intros p r p'; simpl.
  { intros [= <- <-]. split_and!; try done. intros j. destruct (streams p !! j); simpl; by rewrite ?decide_False by set_solver. }
  unfold mbind, js_bind. destruct (streams p !! i) as [s|] eqn:Es.
  - destruct (load_stream_spec i p s Es) as (p1 & -> & Hw & Hst & Hpid & _). intros Hr.
    destruct (IH _ _ _ Hr) as (-> & Hw' & Hpid' & Hst'). split_and!; [done|congruence|intros pid; by rewrite Hpid'|].
    intros j. rewrite Hst', Hst. destruct (decide (j = i)) as [->|Hji].
    + rewrite list_lookup_alter_eq, Es. simpl. rewrite Hpid, (decide_True (P := i ∈ i :: js)) by set_solver.
      by destruct (decide (i ∈ js)).
    + rewrite list_lookup_alter_ne by done. destruct (streams p !! j) as [t|]; [|done]. simpl. f_equal. rewrite Hpid.
      destruct (decide (j ∈ js)), (decide (j ∈ i :: js)); set_solver.
  - assert (load_stream now i p = (Ok tt, p)) as -> by (unfold load_stream; by rewrite Es). intros Hr.
    destruct (IH _ _ _ Hr) as (-> & Hw' & Hpid' & Hst'). split_and!; try done.
    intros j. rewrite Hst'. destruct (decide (j = i)) as [->|Hji]; [by rewrite Es|].
    destruct (streams p !! j) as [t|]; [|done]. simpl. f_equal. destruct (decide (j ∈ js)), (decide (j ∈ i :: js)); set_solver.
Qed.

(** The events a stream has dealt with are those of its log up to where it
    stands. *)
Record dealt (ty : string) (n : Z) w (l : list outcome) : Prop := {
  dl_log t : log_ok t (db_of w);
  dl_ids : map fst l = upto n (log_of ty (db_of w));
  dl_own : Forall (fun o : outcome => forall ev, o.2 = Some ev -> v_eventId (view ev) = o.1) l;
  dl_at : n = 0%Z \/ n ∈ map fst (log_of ty (db_of w))
}.

Lemma dealt_grows ty n w w' l : dealt ty n w l -> (forall t, grows t (db_of w) (db_of w')) -> dealt ty n w' l.
Proof.
  intros [A B C D] G. destruct (G ty) as [[k Hk] [Hs Hp]]. split.
  - intros t. apply G.
  - rewrite B, Hk. symmetry. rewrite Hk in Hs, Hp. by apply upto_grows.
  - done.
  - rewrite Hk, map_app. destruct D as [->|D]; [by left|]. right. apply elem_of_app. by left.
Qed.

Lemma dealt_run ty s w w1 outs l : config_type s = ty -> dealt ty (lastSequence s) w l ->
  collected (unpublished s w) w outs w1 -> dealt ty (target s w) w (l ++ outs).
Proof.
  intros <- [A B C D] Hc. destruct (collected_facts _ _ _ _ Hc) as (_ & Ho & Hf).
  pose proof (unpublished_entries s w (A _)) as Hu. destruct (A (config_type s)) as [Hsort Hpos].
  assert (map commit_sequence (unpublished s w) = map fst (filter (fun x => (lastSequence s < x.1)%Z) (log_of (config_type s) (db_of w)))) as Hcs.
  { rewrite <- Hu, map_map. done. }
  assert (map (fun e => LocalDb.id (cols e)) (unpublished s w) = map snd (filter (fun x => (lastSequence s < x.1)%Z) (log_of (config_type s) (db_of w)))) as His.
  { rewrite <- Hu, map_map. done. }
  assert (Forall (fun c => (c <= target s w)%Z) (map fst (log_of (config_type s) (db_of w)))) as Hle.
  { unfold target. destruct (fold_max_upper (map commit_sequence (unpublished s w)) (lastSequence s)) as [H1 H2].
    rewrite Hcs in *. apply Forall_forall. intros c (x & -> & Hx)%list_elem_of_fmap.
    destruct (decide (lastSequence s < x.1)%Z) as [Hlt|]; [|lia].
    eapply (proj1 (Forall_forall _ _) H2). apply list_elem_of_fmap_2. by apply list_elem_of_filter. }
  split; [done| | |].
  - rewrite map_app. etransitivity; [exact (f_equal2 Datatypes.app B (eq_trans Ho His))|].
    rewrite <- upto_split by done. symmetry. by apply upto_all.
  - by apply Forall_app.
  - unfold target. destruct (fold_max_member (map commit_sequence (unpublished s w)) (lastSequence s)) as [->|Hm]; [done|].
    right. rewrite Hcs in Hm |- *. apply list_elem_of_fmap in Hm as (x & -> & [_ Hx]%list_elem_of_filter).
    by apply list_elem_of_fmap_2.
Qed.

End Runs.
(** *** Runs on a device that knows the keys [keyof] *)

Section Known.
Import Projectors.ProjectorLemmas.
Context `{port : CryptoServicePort} {W : Type} `{HasDevice W}.
Variable deriveKey : list Z -> string -> list Z.
Variable keyof : string -> option (list Z).
Implicit Types w : W.
Notation in_order := (device_ok deriveKey keyof []).

(** The events rows open to, in order, without those whose key is missing;
    [None] when one of the others does not open. *)
Fixpoint opened (rows : list EventRow) : option (list domain_event) :=
  match rows with
  | [] => Some []
  | e :: rows' =>
      match keyof (aggregate_id (cols e)) with
      | None => opened rows'
      | Some k =>
          match toDomain (cols e) k with
          | Ok ev => cons ev <$> opened rows'
          | Err _ => None
          end
      end
  end.

Lemma resolve_in_order i d : in_order d ->
  exists d', resolveKeyForEvent deriveKey i d = (match keyof i with Some k => Ok k | None => Err (missing_key i) end, d') /\
    in_order d' /\ db d' = db d.
Proof.
  intros Hd. destruct (keyof i) as [k|] eqn:Hk.
  - destruct (resolve_known deriveKey keyof [] i k d Hd Hk) as (d' & E & Hd' & Ho). exists d'. split; [done|]. split; [done|].
    by destruct (ok_tables _ _ _ Ho).
  - exists d. split; [|done]. apply (resolve_unknown deriveKey keyof []); [done|done|apply not_elem_of_nil].
Qed.

Lemma collect_known rows m acc w : Forall (fun e => commit_sequence e <> 0%Z) rows -> in_order (device_of w) ->
  exists d' e, in_order d' /\ db d' = db (device_of w) /\
    collect deriveKey rows m acc w =
      (match opened rows with
       | Some evs => Ok (Some (acc ++ evs, fold_left Z.max (map commit_sequence rows) m))
       | None => Err e
       end, with_device d' w).
Proof.
  intros Hn. revert m acc w. induction Hn as [|e rows He Hn IH]; intros m acc w Hd; simpl.
  { exists (device_of w), (plain ""). split; [done|]. split; [done|]. by rewrite app_nil_r, with_device_of. }
  rewrite (proj2 (Z.eqb_neq _ _) He).
  destruct (resolve_in_order (aggregate_id (cols e)) (device_of w) Hd) as (d1 & E & Hd1 & Edb).
  unfold resolve_key, try_catch, on_device, mbind, js_bind, mret, js_ret, throw. rewrite E.
  assert (forall m' acc', exists d' e, in_order d' /\ db d' = db (device_of w) /\
    collect deriveKey rows m' acc' (with_device d1 w) =
      (match opened rows with
       | Some evs => Ok (Some (acc' ++ evs, fold_left Z.max (map commit_sequence rows) m'))
       | None => Err e
       end, with_device d' w)) as IH'.
  { intros m' acc'. destruct (IH m' acc' (with_device d1 w)) as (d2 & err & H2 & E2 & C2); [by rewrite device_with|].
    exists d2, err. rewrite device_with in E2. rewrite C2, with_with. split; [done|]. split; [congruence|done]. }
  destruct (keyof (aggregate_id (cols e))) as [k|]; cbn.
  - destruct (toDomain (cols e) k) as [ev|err]; cbn.
    + destruct (IH' (later_of (commit_sequence e) m) (acc ++ [ev])) as (d2 & err & H2 & E2 & C2).
      exists d2, err. split; [done|]. split; [done|]. rewrite C2, later_of_max.
      destruct (opened rows) as [evs|]; simpl; [by rewrite <- app_assoc|done].
    + by exists d1, (Infra (JsError err)).
  - rewrite decide_False by done. destruct (IH' (later_of (commit_sequence e) m) acc) as (d2 & err & H2 & E2 & C2).
    exists d2, err. split; [done|]. split; [done|]. by rewrite C2, later_of_max.
Qed.

(** A run on such a device. *)
Lemma run_known eventBus now i s (p : publisher W) : let w := pub_world p in
  streams p !! i = Some s -> log_ok (config_type s) (db_of w) -> in_order (device_of w) ->
  exists d', in_order d' /\ db d' = db_of w /\
    match opened (unpublished s w) with
    | Some evs =>
        runProcessStream deriveKey eventBus now i p =
          match publish eventBus evs (with_device d' w) with
          | (Ok _, w2) => (Ok tt, advanced now i s (target s w) (with_world w2 p))
          | (Err e, w2) => (Err e, with_world w2 p)
          end
    | None => exists e, runProcessStream deriveKey eventBus now i p = (Err e, with_world (with_device d' w) p)
    end.
Proof.
  intros w Hs Hok Hd. set (rows := unpublished s w).
  destruct (collect_known rows (lastSequence s) [] w (unpublished_numbered s w Hok) Hd)
    as (d' & err & Hd' & Edb & Ec). exists d'. split; [done|]. split; [done|].
  pose proof (run_collect deriveKey eventBus now i p s Hs) as Hr. cbv zeta in Hr. fold w rows in Hr. rewrite Ec in Hr.
  destruct (opened rows) as [evs|]; [|by exists err]. exact Hr.
Qed.

Lemma opened_sub rows rows' evs : opened rows = Some evs -> (forall e, e ∈ rows' -> e ∈ rows) -> exists evs', opened rows' = Some evs'.
Proof.
  intros Ho. assert (forall e, e ∈ rows -> match keyof (aggregate_id (cols e)) with
    | Some k => exists ev, toDomain (cols e) k = Ok ev | None => True end) as Hall.
  { revert evs Ho. induction rows as [|x rows IH]; intros evs; [by intros _ e He%not_elem_of_nil|]. simpl.
    intros Ho e [->|He]%elem_of_cons; destruct (keyof (aggregate_id (cols x))) eqn:Ek.
    - destruct (toDomain (cols x) l) as [ev|]; [by eexists|done].
    - done.
    - destruct (toDomain (cols x) l); [|done]. apply fmap_Some in Ho as (evs' & Ho & _). by eapply IH.
    - by eapply IH. }
  intros Hsub. induction rows' as [|e rows' IH]; [by eexists|]. simpl.
  destruct IH as [evs' ->]; [intros x Hx; apply Hsub; by constructor|].
  specialize (Hall e (Hsub e ltac:(constructor))). destruct (keyof (aggregate_id (cols e))); [|by eexists].
  destruct Hall as [ev ->]. by eexists.
Qed.

Lemma publish_nobody evs w : publish (∅ : bus W) evs w = (Ok tt, w).
Proof.
  unfold publish. induction evs as [|e evs IH]; [done|]. cbn [for_each]. unfold mbind, js_bind. rewrite listeners_empty. exact IH.
Qed.

Lemma target_covers s w e : log_ok (config_type s) (db_of w) -> e ∈ rows_of (config_type s) (db_of w) ->
  (commit_sequence e <= target s w)%Z.
Proof.
  intros Hok He. unfold target. destruct (fold_max_upper (map commit_sequence (unpublished s w)) (lastSequence s)) as [H1 H2].
  destruct (decide (lastSequence s < commit_sequence e)%Z) as [Hlt|]; [|lia].
  eapply (proj1 (Forall_forall _ _) H2). apply (list_elem_of_fmap_2 commit_sequence). rewrite unpublished_rows by done.
  by apply list_elem_of_filter.
Qed.

Lemma getAllEvents_all ty x : getAllEvents ty None x = rows_of ty x.
Proof.
  unfold getAllEvents, readAll, passes, rows_of. simpl. apply list_filter_iff. intros e. rewrite andb_true_r. apply bool_decide_eq_true.
Qed.

Lemma all_events_elem x e : e ∈ all_events x <-> e ∈ rows_of "goal" x \/ e ∈ rows_of "project" x.
Proof. unfold all_events. rewrite merge_sort_Permutation, elem_of_app, !getAllEvents_all. done. Qed.

(** The stream [i] stands at the end of the log [x] of the type [ty]. *)
Definition covers (i : nat) (ty : string) (x : local_db) (p : publisher W) : Prop :=
  exists st, streams p !! i = Some st /\ config_type st = ty /\ forall e, e ∈ rows_of ty x -> (commit_sequence e <= lastSequence st)%Z.

(** A run while nobody listens. *)
Lemma silent_run now i s (p : publisher W) evs : streams p !! i = Some s -> log_ok (config_type s) (db_of (pub_world p)) ->
  in_order (device_of (pub_world p)) -> opened (rows_of (config_type s) (db_of (pub_world p))) = Some evs ->
  exists d' p', in_order d' /\ db d' = db_of (pub_world p) /\ runProcessStream deriveKey ∅ now i p = (Ok tt, p') /\
    pub_world p' = with_device d' (pub_world p) /\ covers i (config_type s) (db_of (pub_world p)) p' /\
    (forall j, j <> i -> streams p' !! j = streams p !! j) /\
    pub_started p' = pub_started p /\ pub_subscribed p' = pub_subscribed p.
Proof.
  intros Hs Hok Hd Ho. destruct (run_known ∅ now i s p Hs Hok Hd) as (d' & Hd' & Edb & Hr).
  destruct (opened_sub _ (unpublished s (pub_world p)) _ Ho) as [evs' Ho'].
  { rewrite unpublished_rows by done. intros e He. by apply list_elem_of_filter in He as [_ He]. }
  rewrite Ho', publish_nobody in Hr. exists d'. eexists. split; [done|]. split; [done|]. split; [exact Hr|].
  unfold advanced, covers. pose proof (fun e => target_covers s (pub_world p) e Hok) as Ht.
  destruct (Z.ltb_spec (lastSequence s) (target s (pub_world p))) as [Hlt|Hge]; split_and!; try done.
  - eexists. simpl. rewrite list_lookup_alter_eq, Hs. by split_and!.
  - intros j Hj. simpl. by rewrite list_lookup_alter_ne.
  - exists s. split_and!; try done. intros e He. specialize (Ht e He). lia.
Qed.

Lemma seed_known rows acc d evs : in_order d -> opened rows = Some evs ->
  exists d', in_order d' /\ db d' = db d /\ seed_loop deriveKey rows acc d = (Ok (acc ++ evs), d').
Proof.
  revert acc d evs. induction rows as [|e rows IH]; intros acc d evs Hd; simpl.
  { intros [= <-]. exists d. by rewrite app_nil_r. }
  destruct (resolve_in_order (aggregate_id (cols e)) d Hd) as (d1 & E & Hd1 & Edb).
  unfold seed_event, try_catch, mbind, js_bind, mret, js_ret, throw. rewrite E.
  destruct (keyof (aggregate_id (cols e))) as [k|]; cbn.
  - destruct (toDomain (cols e) k) as [ev|err]; [|done]. intros (evs' & Ho & ->)%fmap_Some. cbn.
    destruct (IH (acc ++ [ev]) d1 evs' Hd1 Ho) as (d2 & H2 & E2 & C2). exists d2. rewrite C2, <- app_assoc.
    split; [done|]. split; [congruence|done].
  - intros Ho. destruct (IH acc d1 evs Hd1 Ho) as (d2 & H2 & E2 & C2). exists d2. split; [done|]. split; [congruence|done].
Qed.

(** Starting the publisher while nobody listens. *)
Lemma quiet_start now w meta evs : (forall t, log_ok t (db_of w)) -> in_order (device_of w) ->
  opened (all_events (db_of w)) = Some evs ->
  exists d' p, in_order d' /\ db d' = db_of w /\
    start deriveKey ∅ now (new_publisher w meta (buildStreams true true)) = (Ok tt, p) /\
    pub_world p = with_device d' w /\ pub_started p = true /\ pub_subscribed p = true /\
    covers 0 "goal" (db_of w) p /\ covers 1 "project" (db_of w) p.
Proof.
  intros Hok Hd Ho. set (p0 := new_publisher w meta (buildStreams true true)).
  destruct (opened_sub _ (rows_of "goal" (db_of w)) _ Ho) as [evs0 Ho0]; [intros e He; apply all_events_elem; by left|].
  destruct (opened_sub _ (rows_of "project" (db_of w)) _ Ho) as [evs1 Ho1]; [intros e He; apply all_events_elem; by right|].
  destruct (load_stream_spec now 0 (set_started true false p0) _ eq_refl) as (pb & Eb & Wb & Sb & _ & _ & _).
  destruct (load_stream_spec now 1 pb (Stream "projects" "project" 0 (META_LAST_PUBLISHED_PREFIX +:+ ":projects"))) as (pc & Ec & Wc & Sc & _).
  { by rewrite Sb. }
  set (pd := set_started true true pc).
  assert (exists n, streams pd !! 0 = Some (Stream "goals" "goal" n (META_LAST_PUBLISHED_PREFIX +:+ ":goals"))) as [n0 H0].
  { simpl. rewrite Sc, Sb. by eexists. }
  assert (exists n, streams pd !! 1 = Some (Stream "projects" "project" n (META_LAST_PUBLISHED_PREFIX +:+ ":projects"))) as [n1 H1].
  { simpl. rewrite Sc, Sb. by eexists. }
  assert (pub_world pd = w) as Wd by (simpl; by rewrite Wc, Wb).
  destruct (silent_run now 0 _ pd evs0 H0) as (d1 & pe & Hd1 & Db1 & Ee & We & Ce & Oe & Fe & Ge);
    rewrite ?Wd; try done. cbn [config_type] in *. rewrite Wd in *.
  destruct (silent_run now 1 (Stream "projects" "project" n1 (META_LAST_PUBLISHED_PREFIX +:+ ":projects")) pe evs1) as (d2 & pf & Hd2 & Db2 & Ef & Wf & Cf & Of & Ff & Gf).
  { rewrite Oe by done. exact H1. }
  { rewrite We. unfold db_of. rewrite device_with, Db1. apply Hok. }
  { by rewrite We, device_with. }
  { rewrite We. unfold db_of at 1. rewrite device_with, Db1. exact Ho1. }
  rewrite We in *. unfold db_of at 1 in Db2. rewrite device_with in Db2. unfold db_of at 1 in Cf. rewrite device_with, Db1 in Cf.
  exists d2, pf. split; [done|]. split; [congruence|]. split.
  { assert (for_each [0; 1] (load_stream now) (set_started true false p0) = (Ok tt, pc)) as El.
    { cbn [for_each]. unfold mbind, js_bind. by rewrite Eb, Ec. }
    assert (for_each [0; 1] (runProcessStream deriveKey ∅ now) pd = (Ok tt, pf)) as Er.
    { cbn [for_each]. unfold mbind, js_bind. by rewrite Ee, Ef. }
    unfold start, mbind, js_bind, gets, modify. cbn [pub_started p0 new_publisher].
    change (seq 0 (length (streams (set_started true false p0)))) with [0; 1]. by rewrite El. }
  rewrite Wf, with_with, Ff, Fe, Gf, Ge. split_and!; try done.
  destruct Ce as (st & Hst & Hrest). exists st. by rewrite Of.
Qed.

End Known.

(** *** The saga's subscription *)

Section SagaBus.
Context {W : Type}.
Variable dispatch : GoalCommand -> js W app_error unit.

Lemma listeners_subscribe (b : bus (saga W)) t h e :
  listeners (subscribe t h b) e = listeners b e ++ (if String.eqb t (v_type (view e)) then [h] else []).
Proof.
  unfold listeners, subscribe, bus. destruct (String.eqb_spec t (v_type (view e))) as [<-|Hne].
  - by rewrite lookup_insert_eq.
  - by rewrite lookup_insert_ne, app_nil_r.
Qed.

Lemma saga_listens e s :
  promise_all (map (fun h : handler (saga W) => h e) (listeners (subscribe_saga dispatch ∅) e)) s =
  GoalAchievementSaga.handleEvent dispatch e s.
Proof.
  unfold subscribe_saga, foldl. rewrite !listeners_subscribe. rewrite listeners_empty.
  set (f := GoalAchievementSaga.handleEvent dispatch).
  assert (forall s, promise_all [f e] s = f e s) as Hone.
  { intros s0. simpl. by destruct (f e s0) as [[[]|] ?]. }
  destruct e as [[[] m]|[[] m]]; cbn [view view_of v_type Goal.type_of Project.type_of AggregateRoot.payload];
    cbn [String.eqb Ascii.eqb Bool.eqb app map]; first [apply Hone | done].
Qed.

Lemma saga_hears es s :
  publish (subscribe_saga dispatch ∅) es s = for_each es (GoalAchievementSaga.handleEvent dispatch) s.
Proof.
  pose proof saga_listens as Hl. revert Hl. generalize (subscribe_saga dispatch ∅). intros b Hl.
  unfold publish. revert s. induction es as [|e es IH]; intros s; [done|]. simpl. unfold mbind, js_bind.
  rewrite Hl. destruct (GoalAchievementSaga.handleEvent _ _ _) as [[[]|] s1]; [apply IH|done].
Qed.
End SagaBus.

End PublisherLemmas.

(** ** Properties *)

Module PublisherProperties.
Import KeyringManager InMemoryEventBus CommittedEventPublisher SagaWiring PublisherLemmas.

Section Properties.
Context `{port : CryptoServicePort} {W : Type} `{HasDevice W}.
Variable deriveKey : list Z -> string -> list Z.
Variable eventBus : bus W.
Variable now : number.
Implicit Types w : W.
Implicit Types p : publisher W.

(** A run on a device that knows the keys [keyof], on every branch. If every unpublished
    event of the stream whose key is known opens, the run publishes what they open to, in
    commit order, leaving out those without a key; when all handlers succeed, the stream
    stands at the last of its events, in memory and in its stored record; when one throws,
    the run throws the same error and the stream stays where it is, so that the next run
    publishes the same events again. If one of them does not open, the run throws, no
    handler has been called and the stream stays where it is: that event holds back all
    that follow it. *)
Theorem run_publishes (keyof : string -> option (list Z)) (i : nat) (s : stream) p :
  let w := pub_world p in
  streams p !! i = Some s -> log_ok (config_type s) (db_of w) ->
  Projectors.ProjectorLemmas.device_ok deriveKey keyof [] (device_of w) ->
  exists d', Projectors.ProjectorLemmas.device_ok deriveKey keyof [] d' /\ db d' = db_of w /\
    match opened keyof (unpublished s w) with
    | Some evs =>
        runProcessStream deriveKey eventBus now i p =
          match publish eventBus evs (with_device d' w) with
          | (Ok _, w2) => (Ok tt, advanced now i s (target s w) (with_world w2 p))
          | (Err e, w2) => (Err e, with_world w2 p)
          end
    | None => exists e, runProcessStream deriveKey eventBus now i p = (Err e, with_world (with_device d' w) p)
    end.
Proof.
  apply run_known.
Qed.

(** What became of the events of every stream, in the order in which it
    happened: a stream's number with an event that was published, or passed over
    because its key was missing.  A history consists of runs of any stream,
    failures before anything is published, whatever else happens to the world as
    long as the log only grows and nobody else calls the listener, and restarts
    of the application. *)
Variable tap : handler W.
Variable heard : W -> list domain_event.
Variable listens : domain_event -> bool.
Variable configs : list (string * string).

Definition of_stream (i : nat) (l : list (nat * outcome)) : list outcome := map snd (filter (fun x => x.1 = i) l).

Lemma of_stream_app i l outs j : of_stream i (l ++ map (pair j) outs) = of_stream i l ++ (if decide (j = i) then outs else []).
Proof.
  unfold of_stream. rewrite filter_app, map_app. f_equal. clear l.
  induction outs as [|o outs IH]; [by destruct (decide _)|]. csimpl. rewrite filter_cons. simpl.
  destruct (decide (j = i)); simpl; by rewrite IH.
Qed.

Definition opens w (meta : meta_table) p : Prop :=
  for_each (seq 0 (length configs)) (load_stream now) (new_publisher w meta configs) = (Ok tt, p).

Inductive history : publisher W -> list (nat * outcome) -> Prop :=
| begins w meta p :
    (forall t, log_ok t (db_of w)) -> (forall c, c ∈ configs -> ProjectionMetaStore.get (META_LAST_PUBLISHED_PREFIX +:+ ":" +:+ c.1) meta = None) ->
    heard w = [] -> opens w meta p -> history p []
| runs p l j s outs w1 p' :
    history p l -> streams p !! j = Some s -> collected deriveKey (unpublished s (pub_world p)) (pub_world p) outs w1 ->
    runProcessStream deriveKey eventBus now j p = (Ok tt, p') -> history p' (l ++ map (pair j) outs)
| fails p l j s r p' :
    history p l -> streams p !! j = Some s -> (forall outs w1, ~ collected deriveKey (unpublished s (pub_world p)) (pub_world p) outs w1) ->
    runProcessStream deriveKey eventBus now j p = (r, p') -> history p' l
| goes_on p l w : history p l -> all_grow (pub_world p) w -> heard w = heard (pub_world p) -> history (with_world w p) l
| restarts p l w p' :
    history p l -> all_grow (pub_world p) w -> heard w = heard (pub_world p) ->
    opens w (pub_meta p) p' -> history p' l.

Definition pid_of (name : string) : string := META_LAST_PUBLISHED_PREFIX +:+ ":" +:+ name.

Lemma pid_of_inj n1 n2 : pid_of n1 = pid_of n2 -> n1 = n2.
Proof. by intros E%(inj (String.append _))%(inj (String.append _)). Qed.

Lemma opened_stands i name ty w meta p : configs !! i = Some (name, ty) -> NoDup (map fst configs) -> opens w meta p ->
  stands i ty (pid_of name) (default 0%Z (pm_lastCommitSequence <$> ProjectionMetaStore.get (pid_of name) meta)) p /\ pub_world p = w.
Proof.
  intros Hi Hn Hop. destruct (load_streams_spec now _ _ _ _ Hop) as (_ & Hw & Hs & Hst). split; [|exact Hw].
  assert (forall j n t, configs !! j = Some (n, t) -> streams (new_publisher w meta configs) !! j = Some (Stream n t 0 (pid_of n))) as Hl.
  { intros j n t Hj. simpl. by rewrite list_lookup_fmap, Hj. }
  split.
  - eexists. rewrite Hst, (Hl i name ty Hi). simpl. rewrite decide_True by (apply elem_of_seq; apply lookup_lt_Some in Hi; lia).
    by split_and!.
  - intros j s Hj. rewrite Hst. simpl. rewrite list_lookup_fmap.
    destruct (configs !! j) as [[n t]|] eqn:Ej; [|done]. simpl. intros [= <-] E.
    assert (pid_of n = pid_of name) as E' by (revert E; by destruct (decide _)).
    apply Hj. eapply (NoDup_lookup (map fst configs)); [done|..].
    + by rewrite list_lookup_fmap, Ej.
    + rewrite list_lookup_fmap, Hi. simpl. by rewrite (pid_of_inj _ _ E').
  - apply Hs.
Qed.

(** What a history keeps of the stream [i]. *)
Lemma history_keeps i name ty p l : configs !! i = Some (name, ty) -> NoDup (map fst configs) -> handlers_add eventBus -> history p l ->
  exists n, stands i ty (pid_of name) n p /\ dealt ty n (pub_world p) (of_stream i l).
Proof.
  intros Hi Hn Hadd. induction 1 as [w meta p Hok Hm Hh Hl|p l j s outs w1 p' _ (n & Hst & Hd) Hs Hc Hr|p l j s r p' _ (n & Hst & Hd) Hs Hc Hr
    |p l w _ (n & Hst & Hd) Hg Hh|p l w p' _ (n & Hst & Hd) Hg Hh Hl].
  - destruct (opened_stands i name ty w meta p Hi Hn Hl) as [Hst Hw]. exists 0%Z.
    pose proof (Hm (name, ty) (list_elem_of_lookup_2 _ _ _ Hi)) as E. fold (pid_of (name, ty).1) in E.
    cbn [fst] in E. rewrite E in Hst. split; [exact Hst|]. rewrite Hw.
    split; [done| |constructor|by left]. symmetry. apply upto_none. apply (Hok ty).
  - destruct (run_spec deriveKey eventBus now j p s _ _ Hs (dl_log _ _ _ _ Hd _) Hr)
      as [(d & _ & _ & Hno)|(outs' & w2 & r2 & w3 & Hc' & Hpub & <- & ->)]; [by destruct (Hno outs w1)|].
    destruct (collected_det _ _ _ _ _ _ _ Hc' Hc) as [-> ->]. rewrite of_stream_app.
    assert (pub_world (advanced now j s (target s (pub_world p)) (with_world w3 p)) = w3) as -> by (unfold advanced; by destruct (_ <? _)%Z).
    assert (all_grow (pub_world p) w3) as Hg.
    { destruct (collected_facts _ _ _ _ _ Hc') as [Edb _]. unfold all_grow in *.
      rewrite <- Edb. eapply publish_grows; [done| |done]. rewrite Edb. apply Hd. }
    assert (stands i ty (pid_of name) n (with_world w3 p)) as Hst' by (by apply stands_world).
    destruct (decide (j = i)) as [->|Hj].
    + pose proof Hst as [(s' & Hs' & Ht & Hp & Hln) _ _]. assert (s' = s) as -> by congruence.
      exists (target s (pub_world p)). split.
      * apply (stands_advanced _ _ _ _ n); [done..|]. subst n. apply fold_max_upper.
      * eapply dealt_grows; [|exact Hg]. eapply dealt_run; [done|by rewrite Hln|done].
    + exists n. rewrite app_nil_r. split; [by apply stands_other|]. by eapply dealt_grows.
  - destruct (run_spec deriveKey eventBus now j p s _ _ Hs (dl_log _ _ _ _ Hd _) Hr)
      as [(d & Edb & -> & _)|(outs' & w2 & r2 & w3 & Hc' & _)]; [|by destruct (Hc outs' w2)].
    exists n. split; [by apply stands_world|]. eapply dealt_grows; [exact Hd|]. simpl. intros t. rewrite Edb. apply grows_refl, Hd.
  - exists n. split; [by apply stands_world|]. by eapply dealt_grows.
  - destruct (opened_stands i name ty w (pub_meta p) p' Hi Hn Hl) as [Hst' Hw]. exists n. rewrite Hw. split; [|by eapply dealt_grows].
    pose proof (st_stored _ _ _ _ _ Hst) as E. unfold stored in E. by rewrite E in Hst'.
Qed.

(** What it keeps of the listener; the logs are in order in every case. *)
Lemma history_heard p l : listener eventBus tap heard listens -> handlers_add eventBus -> history p l ->
  (forall t, log_ok t (db_of (pub_world p))) /\
  heard (pub_world p) = filter (fun e => listens e = true) (omap (fun x => x.2.2) l).
Proof.
  intros Hli Hadd. induction 1 as [w meta p Hok _ Hh Hl|p l j s outs w1 p' _ [Hok IH] Hs Hc Hr|p l j s r p' _ [Hok IH] Hs Hc Hr
    |p l w _ [Hok IH] Hg Hh|p l w p' _ [Hok IH] Hg Hh Hl].
  - destruct (load_streams_spec now _ _ _ _ Hl) as (_ & -> & _). done.
  - destruct (run_spec deriveKey eventBus now j p s _ _ Hs (Hok _) Hr)
      as [(d & _ & _ & Hno)|(outs' & w2 & r2 & w3 & Hc' & Hpub & <- & ->)]; [by destruct (Hno outs w1)|].
    destruct (collected_det _ _ _ _ _ _ _ Hc' Hc) as [-> ->].
    assert (pub_world (advanced now j s (target s (pub_world p)) (with_world w3 p)) = w3) as -> by (unfold advanced; by destruct (_ <? _)%Z).
    destruct (collected_facts _ _ _ _ _ Hc') as [Edb _]. split.
    { assert (all_grow w1 w3) as Hg by (eapply publish_grows; [done| |done]; by rewrite Edb). intros t. apply (Hg t). }
    rewrite (publish_heard _ _ _ _ _ _ _ _ Hli Hpub). destruct (collected_device _ _ _ _ _ Hc') as [d ->].
    rewrite (li_device _ _ _ _ Hli), IH, omap_app, filter_app. do 2 f_equal.
    clear. induction outs as [|[i [ev|]] outs IHo]; csimpl; by rewrite ?IHo.
  - destruct (run_spec deriveKey eventBus now j p s _ _ Hs (Hok _) Hr)
      as [(d & Edb & -> & _)|(outs' & w2 & r2 & w3 & Hc' & _)]; [|by destruct (Hc outs' w2)].
    simpl. by rewrite Edb, (li_device _ _ _ _ Hli).
  - simpl. rewrite Hh. split; [|done]. intros t. apply (Hg t).
  - destruct (load_streams_spec now _ _ _ _ Hl) as (_ & -> & _). simpl. rewrite Hh. split; [|done]. intros t. apply (Hg t).
Qed.


End Properties.

(** The saga misses nothing and hears nothing twice when the application starts. The
    publisher first runs every stream to the end of the log while nobody listens; the saga
    then subscribes and replays the whole log, both aggregate types in commit order. So the
    saga has been handed each event of the log once, none of them is left to be published,
    and from then on what the publisher publishes is handed to the saga event by event. *)
Theorem startup_replays_log `{port : CryptoServicePort} {W : Type} `{HasDevice W}
    (deriveKey : list Z -> string -> list Z) (now : number) (dispatch : GoalCommand -> js W app_error unit)
    (keyof : string -> option (list Z)) (system : string -> origin) (s : saga W) (meta : meta_table)
    (evs : list domain_event) :
  (forall t, log_ok t (db_of s)) ->
  Projectors.ProjectorLemmas.device_ok deriveKey keyof [] (device_of s) ->
  opened keyof (all_events (db_of s)) = Some evs ->
  exists d' p,
    app_start deriveKey now dispatch system (new_publisher s meta (buildStreams true true)) =
      (let '(r, s') := GoalAchievementSaga.bootstrap dispatch evs system (with_device d' s) in (r, with_world s' p)) /\
    db d' = db_of s /\ pub_started p = true /\ pub_subscribed p = true /\
    (forall e, e ∈ all_events (db_of s) -> exists i st, streams p !! i = Some st /\
       config_type st = aggregate_type (cols e) /\ (commit_sequence e <= lastSequence st)%Z) /\
    (forall es s, publish (subscribe_saga dispatch ∅) es s = for_each es (GoalAchievementSaga.handleEvent dispatch) s).
Proof.
  intros Hok Hd Ho. destruct (quiet_start deriveKey keyof now s meta evs Hok Hd Ho) as (d1 & p & Hd1 & Db1 & Es & Wp & Hst & Hsub & C0 & C1).
  destruct (seed_known deriveKey keyof (all_events (db_of s)) [] d1 evs Hd1 Ho) as (d2 & Hd2 & Db2 & Eseed).
  exists d2, p. unfold app_start. erewrite js_bind_run_ok by exact Es. split_and!; try done.
  - unfold in_world, bootstrap_saga, seedEvents, on_device, gets. rewrite Wp. unfold mbind, js_bind. rewrite device_with.
    rewrite Db1. fold (db_of s). rewrite Eseed. by rewrite with_with.
  - congruence.
  - intros e [He|He]%all_events_elem; [destruct C0 as (st & H1 & H2 & H3); exists 0, st|destruct C1 as (st & H1 & H2 & H3); exists 1, st];
      (split; [done|]; split; [|by apply H3]; rewrite H2; by apply list_elem_of_filter in He as [-> _]).
  - apply saga_hears.
Qed.

End PublisherProperties.

(** ** Witnesses *)

Module PublisherWitnesses.
Import KeyringManager InMemoryEventBus CommittedEventPublisher SagaWiring PublisherLemmas PublisherProperties.
Import KeyringWitnesses GoalProjection.GoalProjectionWitnesses.
#[local] Existing Instance toy_service.

(** A device with an event of a goal, and a listener that writes down the
    goals' creations. *)
Definition device_1 : device := GoalProjection.GoalProjectionRuns.both_keys.
Definition recorder : Type := device * list domain_event.
#[export, refine] Instance recorder_device : HasDevice recorder := {| device_of := fst; with_device d w := (d, w.2) |}.
Proof. all: try done. by intros []. Defined.

Definition note : handler recorder := fun e => modify (fun w => (w.1, w.2 ++ [e])).
Definition creations (e : domain_event) : bool := bool_decide (v_type (view e) = "GoalCreated").
Definition one_listener : bus recorder := subscribe "GoalCreated" note ∅.
Definition zero : number := num 0.
Definition both_streams : list (string * string) := buildStreams true true.
Notation new_process w meta := (for_each [0; 1] (load_stream zero) (new_publisher w meta both_streams)).2.

Definition publisher_0 : publisher recorder := new_process (device_1, []) [].
Definition run_goals (p : publisher recorder) : publisher recorder := (runProcessStream derive one_listener zero 0 p).2.
Definition publisher_1 : publisher recorder := run_goals publisher_0.
(** A new process on the same tables, which runs again. *)
Definition publisher_2 : publisher recorder := run_goals (new_process (pub_world publisher_1) (pub_meta publisher_1)).

Lemma device_log_ok : forall t, log_ok t (db device_1).
Proof. apply sorted_log_ok; apply (bool_decide_unpack _); vm_compute; exact I. Qed.

Lemma device_ready : Projectors.ProjectorLemmas.device_ok derive key_of [] device_1.
Proof. apply both_keys_ready. by intros i Hi%elem_of_nil. Qed.

Definition stream_0 : stream := Stream "goals" "goal" 0 "committed_publisher:goals".
Definition row_1 : EventRow := List.hd (Stored 0 (EventCols "" "" "" "" [] 0 zero None None None None None None None None None None None)) (events (db device_1)).
Definition event_of_row : domain_event :=
  match toDomain (cols row_1) dek_1 with Ok e => e | Err _ => SagaWitnesses.goal_event end.

Lemma run_publishes_witness : exists s w2,
  streams publisher_0 !! 0 = Some s /\
  runProcessStream derive one_listener zero 0 publisher_0 =
    (Ok tt, advanced zero 0 s (target s (pub_world publisher_0)) (with_world w2 publisher_0)) /\ map (fun e => v_eventId (view e)) w2.2 = ["e1"].
Proof.
  destruct (run_publishes derive one_listener zero key_of 0 (Stream "goals" "goal" 0 "committed_publisher:goals") publisher_0
    ltac:(vm_compute; reflexivity) (device_log_ok "goal") device_ready) as (d' & _ & _ & Hr).
  eexists. exists (d', [event_of_row]). split; [vm_compute; reflexivity|]. split; [|done]. vm_compute in Hr |- *. exact Hr.
Defined.

Lemma note_adds : handlers_add one_listener.
Proof.
  intros e h Hh w r w' Hok Hr. assert (h = note) as ->.
  { unfold one_listener, listeners, subscribe, bus in Hh. destruct (decide ("GoalCreated" = v_type (view e))) as [E|E].
    - rewrite <- E, lookup_insert_eq in Hh. rewrite lookup_empty in Hh. by apply list_elem_of_singleton in Hh.
    - rewrite lookup_insert_ne, lookup_empty in Hh by done. by apply not_elem_of_nil in Hh. }
  injection Hr as <- <-. intros t. by apply grows_refl.
Qed.

Lemma note_listens : listener one_listener note snd creations.
Proof.
  assert (forall e, listeners one_listener e = if creations e then [note] else []) as Hl.
  { intros e. unfold one_listener, listeners, subscribe, bus, creations.
    destruct (decide ("GoalCreated" = v_type (view e))) as [E|E].
    - by rewrite <- E, lookup_insert_eq, lookup_empty.
    - rewrite bool_decide_false by congruence. by rewrite lookup_insert_ne, lookup_empty by done. }
  split.
  - done.
  - intros e w. eexists. by split.
  - intros e. rewrite Hl. destruct (creations e); [|constructor]. exists [], []. by split_and!; try constructor.
Qed.

Notation past := (history derive one_listener zero snd both_streams).

Lemma history_1 : past publisher_1 [(0, ("e1", Some event_of_row))].
Proof.
  assert (past publisher_0 []) as H0.
  { eapply (begins _ _ _ _ _ (device_1, []) []); [exact device_log_ok|done|reflexivity|].
    unfold opens, publisher_0. vm_compute. reflexivity. }
  eapply (runs _ _ _ _ _ _ [] 0 stream_0 [_]); [exact H0|vm_compute; reflexivity| |].
  - assert (unpublished stream_0 (pub_world publisher_0) = [row_1]) as -> by (vm_compute; reflexivity).
    eapply (collected_event derive row_1 dek_1 event_of_row []); [|vm_compute; reflexivity|constructor].
    instantiate (1 := (resolve_key derive row_1 (pub_world publisher_0)).2). vm_compute. reflexivity.
  - assert ((runProcessStream derive one_listener zero 0 publisher_0).1 = Ok tt) as E by (vm_compute; reflexivity).
    unfold publisher_1, run_goals. destruct (runProcessStream _ _ _ _ _) as [r p]. simpl in E. by subst r.
Qed.

Lemma history_2 : past publisher_2 [(0, ("e1", Some event_of_row))].
Proof.
  set (p := new_process (pub_world publisher_1) (pub_meta publisher_1)).
  assert (past p [(0, ("e1", Some event_of_row))]) as H1.
  { eapply (restarts _ _ _ _ _ _ _ (pub_world publisher_1)); [exact history_1| |reflexivity|].
    - apply all_grow_refl. apply sorted_log_ok; apply (bool_decide_unpack _); vm_compute; exact I.
    - unfold opens, p. set (run := for_each _ _ _). assert (run.1 = Ok tt) as E by (vm_compute; reflexivity).
      change (run = (Ok tt, run.2)). destruct run as [r q]. simpl in E. by subst r. }
  eapply (runs _ _ _ _ _ p [_] 0 (set_lastSequence 1 stream_0) []); [exact H1|vm_compute; reflexivity| |].
  - assert (unpublished (set_lastSequence 1 stream_0) (pub_world p) = []) as -> by (vm_compute; reflexivity). constructor.
  - assert ((runProcessStream derive one_listener zero 0 p).1 = Ok tt) as E by (vm_compute; reflexivity).
    unfold publisher_2, run_goals. fold p. destruct (runProcessStream _ _ _ _ _) as [r q]. simpl in E. by subst r.
Qed.


Definition saga_at_start : saga device := Saga ∅ ∅ [] false [] device_1.

Lemma startup_replays_log_witness : exists d' p,
  app_start derive zero SagaWitnesses.live (fun _ => systemEvent event_3 later) (new_publisher saga_at_start [] both_streams) =
    (let '(r, s') := GoalAchievementSaga.bootstrap SagaWitnesses.live [event_of_row] (fun _ => systemEvent event_3 later)
      (with_device d' saga_at_start) in (r, with_world s' p)) /\
  pub_started p = true /\ pub_subscribed p = true.
Proof.
  destruct (startup_replays_log derive zero SagaWitnesses.live key_of (fun _ => systemEvent event_3 later) saga_at_start []
    [event_of_row]) as (d' & p & E & _ & H1 & H2 & _); [exact device_log_ok|exact device_ready|vm_compute; reflexivity|].
  exists d', p. split; [exact E|]. by split.
Defined.

End PublisherWitnesses.
