(* ===== verification/SharingVerification.v ===== *)
(** * Verification of sharing artifacts on a device

    [packages/infrastructure/src/sharing]: the caches of verified artifacts
    ([stores/ScopeStateStore.ts], [stores/ResourceGrantStore.ts]), the manifests
    that are signed ([sync/ManifestCodec.ts]), and the pipeline
    ([verification/DependencyValidator.ts], [SignatureVerifier.ts],
    [VerificationPipeline.ts]).

    The CBOR encoder, SHA-256 and the ECDSA verification of the platform are the
    class [ManifestPlatform].  The JSON columns of a scope state are the text the
    pipeline wrote: on text of another shape the parsers throw, where the code may
    go on with [undefined].  The pipeline is not called by the sync engine yet
    ([SyncRecordMaterializer.ts] says so). *)

From Stdlib Require Import Ascii.
From stdpp Require Import sorting.
From S2P Require Import Prelude JsValues JsonText Base64Url RecordCodec ValueObjects Sharing DerivedState Samples.

(** ** The platform *)

(** What a manifest is made of; an object's fields in the order they are
    written. *)
Inductive cbor : Type :=
| C_text (s : string)
| C_bytes (b : list Z)
| C_int (z : Z)
| C_null
| C_array (l : list cbor)
| C_map (l : list (string * cbor)).

Class ManifestPlatform : Type := {
  (** [encoder.encode] of cbor-x *)
  cbor_encode : cbor -> list Z;
  (** [crypto.subtle.digest('SHA-256', _)] *)
  sha256 : list Z -> list Z;
  sha256_length b : length (sha256 b) = 32;
  (** [CryptoServicePort.verify(data, signature, publicKey)] *)
  ecdsa_verify : list Z -> list Z -> list Z -> result error bool
}.

(** ** Verified artifacts *)

Record ScopeMember : Type := Member {
  m_userId : string;
  m_role : string
}.

Record ScopeSigner : Type := Signer {
  sg_deviceId : string;
  sg_userId : string;
  sg_sigSuite : string;
  pubKeys : list (string * list Z)
}.

Record VerifiedScopeState : Type := ScopeState {
  scopeStateRef : list Z;
  scopeId : string;
  scopeStateSeq : Z;
  membersJson : string;
  signersJson : string;
  ss_signature : list Z;
  ss_verifiedAt : number
}.

(** [scope_state_seq] is a TEXT column. *)
Record ScopeStateRow : Type := StateRow {
  scope_state_ref : list Z;
  sr_scope_id : string;
  scope_state_seq : string;
  members_json : string;
  signers_json : string;
  sr_signature : list Z;
  sr_verified_at : number
}.

Record VerifiedResourceGrant : Type := Grant {
  grantId : string;
  g_scopeId : string;
  g_resourceId : string;
  g_resourceKeyId : string;
  g_wrappedKey : list Z;
  g_scopeStateRef : list Z;
  g_status : string;
  g_verifiedAt : number
}.

(** The two tables; a replaced row goes to the end. *)
Record sharing_cache : Type := Cache {
  scope_states : list ScopeStateRow;
  resource_grants : list VerifiedResourceGrant
}.
Definition empty_cache : sharing_cache := Cache [] [].

(** ** [ScopeStateStore.ts] *)

Module ScopeStateStore.

Definition insert_or_replace (r : ScopeStateRow) (t : list ScopeStateRow) : list ScopeStateRow :=
  kt_remove scope_state_ref (scope_state_ref r) t ++ [r].

Definition to_row (s : VerifiedScopeState) : ScopeStateRow :=
  StateRow (scopeStateRef s) (scopeId s) (string_of_Z (scopeStateSeq s)) (membersJson s) (signersJson s)
    (ss_signature s) (ss_verifiedAt s).
Definition store (s : VerifiedScopeState) (c : sharing_cache) : sharing_cache :=
  Cache (insert_or_replace (to_row s) (scope_states c)) (resource_grants c).

Definition of_row (r : ScopeStateRow) : result error VerifiedScopeState :=
  match ScopeEpoch.BigInt (scope_state_seq r) with
  | Some n =>
      Ok (ScopeState (scope_state_ref r) (sr_scope_id r) n (members_json r) (signers_json r) (sr_signature r) (sr_verified_at r))
  | None => Err (PlainError "Cannot convert to a BigInt")
  end.

Definition first_row (rows : list ScopeStateRow) : result error (option VerifiedScopeState) :=
  match rows with
  | [] => Ok None
  | r :: _ => Some <$> of_row r
  end.

Definition loadByRef (ref : list Z) (c : sharing_cache) : result error (option VerifiedScopeState) :=
  first_row (filter (fun r => scope_state_ref r = ref) (scope_states c)).

(** [ORDER BY scope_state_seq] on a TEXT column: the order of the texts. *)
Definition text_le (a b : ScopeStateRow) : Prop := String.leb (scope_state_seq a) (scope_state_seq b) = true.
#[export] Instance text_le_dec a b : Decision (text_le a b).
Proof. unfold text_le. apply _. Defined.
Definition text_ge (a b : ScopeStateRow) : Prop := text_le b a.
#[export] Instance text_ge_dec a b : Decision (text_ge a b).
Proof. unfold text_ge. apply _. Defined.

Definition rows_of_scope (i : string) (c : sharing_cache) : list ScopeStateRow :=
  filter (fun r => sr_scope_id r = i) (scope_states c).
Definition loadByScopeId (i : string) (c : sharing_cache) : result error (list VerifiedScopeState) :=
  mapM of_row (merge_sort text_le (rows_of_scope i c)).
(** [ORDER BY scope_state_seq DESC LIMIT 1] *)
Definition getHead (i : string) (c : sharing_cache) : result error (option VerifiedScopeState) :=
  first_row (merge_sort text_ge (rows_of_scope i c)).
Definition exists_ (ref : list Z) (c : sharing_cache) : bool :=
  (0 <? length (filter (fun r => scope_state_ref r = ref) (scope_states c)))%nat.

(** *** The JSON columns *)

Definition bad_json {A} : result error A := Err (PlainError "Unexpected token in JSON").
Definition text_field (k : string) (fs : list (string * json)) : result error string :=
  match assoc k fs with Some (JStr s) => Ok s | _ => bad_json end.

Definition member_json (m : ScopeMember) : json :=
  JObj [("userId", JStr (m_userId m)); ("role", JStr (m_role m))].
Definition parse_member (v : json) : result error ScopeMember :=
  match v with
  | JObj fs => u ← text_field "userId" fs; r ← text_field "role" fs; mret (Member u r)
  | _ => bad_json
  end.
Definition parse_array {A} (f : json -> result error A) (s : string) : result error (list A) :=
  match JSON_parse s with Some (JArr l) => mapM f l | _ => bad_json end.
Definition parseMembers (s : string) : result error (list ScopeMember) := parse_array parse_member s.

(** A signer as it is stored: keys as base64 text. *)
Definition key_json (k : string * list Z) : string * json := (k.1, JStr (of_chars (toBase64 k.2))).
Definition signer_json (s : ScopeSigner) : json :=
  JObj [("deviceId", JStr (sg_deviceId s)); ("userId", JStr (sg_userId s)); ("sigSuite", JStr (sg_sigSuite s));
        ("pubKeys", JObj (map key_json (pubKeys s)))].
Definition parse_key (k : string * json) : result error (string * list Z) :=
  match k.2 with JStr s => b ← fromBase64 (chars s); mret (k.1, b) | _ => bad_json end.
Definition parse_signer (v : json) : result error ScopeSigner :=
  match v with
  | JObj fs =>
      d ← text_field "deviceId" fs;
      u ← text_field "userId" fs;
      s ← text_field "sigSuite" fs;
      ks ← match assoc "pubKeys" fs with Some (JObj ks) => mapM parse_key ks | _ => bad_json end;
      mret (Signer d u s ks)
  | _ => bad_json
  end.
Definition parseSigners (s : string) : result error (list ScopeSigner) := parse_array parse_signer s.

End ScopeStateStore.

(** ** [ResourceGrantStore.ts] *)

Module ResourceGrantStore.

Definition store (g : VerifiedResourceGrant) (c : sharing_cache) : sharing_cache :=
  Cache (scope_states c) (kt_remove grantId (grantId g) (resource_grants c) ++ [g]).
Definition rows_with (i : string) (c : sharing_cache) : list VerifiedResourceGrant :=
  filter (fun g => grantId g = i) (resource_grants c).
Definition loadById (i : string) (c : sharing_cache) : option VerifiedResourceGrant := head (rows_with i c).
Definition shown (includeRevoked : bool) (g : VerifiedResourceGrant) : bool :=
  includeRevoked || bool_decide (g_status g = "active").
Definition loadByScopeId (i : string) (includeRevoked : bool) (c : sharing_cache) : list VerifiedResourceGrant :=
  filter (fun g => bool_decide (g_scopeId g = i) && shown includeRevoked g = true) (resource_grants c).
Definition loadByResourceId (i : string) (includeRevoked : bool) (c : sharing_cache) : list VerifiedResourceGrant :=
  filter (fun g => bool_decide (g_resourceId g = i) && shown includeRevoked g = true) (resource_grants c).
Definition exists_ (i : string) (c : sharing_cache) : bool := (0 <? length (rows_with i c))%nat.
Definition isActive (i : string) (c : sharing_cache) : bool :=
  match rows_with i c with
  | g :: _ => bool_decide (g_status g = "active")
  | [] => false
  end.

End ResourceGrantStore.

(** ** [DependencyValidator.ts] *)

Module DependencyValidator.

Inductive dependency_reason : Type := scope_state_missing | grant_missing | grant_revoked | scope_id_mismatch.
Inductive DependencyValidationResult : Type := Valid | Missing (reason : dependency_reason) (details : string).

Definition validateEventDependencies (ref : list Z) (grant : string) (c : sharing_cache) : DependencyValidationResult :=
  if negb (ScopeStateStore.exists_ ref c) then
    Missing scope_state_missing ("ScopeState with ref " +:+ ScopeStateRef.toHex ref +:+ " not found in verified cache")
  else if negb (ResourceGrantStore.exists_ grant c) then
    Missing grant_missing ("ResourceGrant " +:+ grant +:+ " not found in verified cache")
  else if negb (ResourceGrantStore.isActive grant c) then
    Missing grant_revoked ("ResourceGrant " +:+ grant +:+ " is revoked")
  else Valid.

Definition validateScopeStatePrevHash (prevHash : option (list Z)) (seq : Z) (scope : string) (c : sharing_cache)
    : result error DependencyValidationResult :=
  match prevHash with
  | None =>
      if negb (seq =? 0)%Z then
        Ok (Missing scope_state_missing ("Genesis ScopeState must have seq=0, got seq=" +:+ string_of_Z seq))
      else Ok Valid
  | Some prev =>
      if (seq =? 0)%Z then Ok (Missing scope_state_missing "Non-genesis ScopeState cannot have seq=0")
      else
        prevState ← ScopeStateStore.loadByRef prev c;
        match prevState with
        | None =>
            Ok (Missing scope_state_missing ("Previous ScopeState with ref " +:+ ScopeStateRef.toHex prev
              +:+ " not found (hash chain violation)"))
        | Some p =>
            if negb (seq =? scopeStateSeq p + 1)%Z then
              Ok (Missing scope_state_missing ("Sequence number must be " +:+ string_of_Z (scopeStateSeq p + 1)
                +:+ ", got " +:+ string_of_Z seq))
            else if negb (bool_decide (scopeId p = scope)) then
              Ok (Missing scope_id_mismatch ("Previous ScopeState belongs to different scope: " +:+ scopeId p))
            else
              head ← ScopeStateStore.getHead scope c;
              match head with
              | Some h =>
                  if (seq <=? scopeStateSeq h)%Z then
                    Ok (Missing scope_state_missing ("Fork detected: new seq " +:+ string_of_Z seq
                      +:+ " does not extend head seq " +:+ string_of_Z (scopeStateSeq h)))
                  else Ok Valid
              | None => Ok Valid
              end
        end
  end.

Definition validateGrantDependency (ref : list Z) (c : sharing_cache) : DependencyValidationResult :=
  if negb (ScopeStateStore.exists_ ref c) then
    Missing scope_state_missing ("ScopeState with ref " +:+ ScopeStateRef.toHex ref +:+ " not found in verified cache")
  else Valid.

End DependencyValidator.

(** ** [SignatureVerifier.ts] *)

Module SignatureVerifier.
Section Verifier.
Context `{ManifestPlatform}.

(** Any error of the service counts as an invalid signature. *)
Definition verifyEcdsaP256 (data signature publicKey : list Z) : bool :=
  match ecdsa_verify data signature publicKey with Ok b => b | Err _ => false end.

Definition verifyManifestSignature (manifest signature publicKey : list Z) (sigSuite : string) : result error bool :=
  if bool_decide (sigSuite = "ecdsa-p256") then Ok (verifyEcdsaP256 manifest signature publicKey)
  else if bool_decide (sigSuite = "hybrid-sig-1") then
    Err (PlainError ("Hybrid signature verification (Ed25519 + ML-DSA) not yet implemented. " +:+
      "Cannot verify hybrid-sig-1 signatures until full implementation is complete."))
  else Err (PlainError ("Unsupported signature suite: " +:+ sigSuite)).

End Verifier.
End SignatureVerifier.

(** ** [ManifestCodec.ts] *)

Module ManifestCodec.

Record DomainEventManifestV1 : Type := EventManifest {
  dm_eventId : string;
  dm_scopeId : string;
  dm_resourceId : string;
  dm_resourceKeyId : string;
  dm_grantId : string;
  dm_scopeStateRef : list Z;
  dm_authorDeviceId : string;
  dm_payloadAad : list Z;
  dm_payloadCiphertextHash : list Z
}.

Record ScopeStateManifestV1 : Type := StateManifest {
  sm_scopeId : string;
  sm_scopeStateSeq : Z;
  sm_prevHash : option (list Z);
  sm_ownerUserId : string;
  sm_scopeEpoch : Z;
  sm_members : list ScopeMember;
  sm_signers : list ScopeSigner
}.

Record ResourceGrantManifestV1 : Type := GrantManifest {
  gm_grantId : string;
  gm_scopeId : string;
  gm_resourceId : string;
  gm_scopeEpoch : Z;
  gm_resourceKeyId : string;
  gm_wrappedKey : list Z;
  gm_scopeStateRef : list Z
}.

Definition invalid (ok : bool) (message : string) : result error unit := if ok then Ok tt else Err (PlainError message).
Definition given (s : string) : bool := negb (bool_decide (s = "")).
Definition is_hash (b : list Z) : bool := (length b =? 32)%nat.

Definition validateDomainEventManifest (m : DomainEventManifestV1) : result error unit :=
  _ ← invalid (given (dm_eventId m)) "Invalid eventId";
  _ ← invalid (given (dm_scopeId m)) "Invalid scopeId";
  _ ← invalid (given (dm_resourceId m)) "Invalid resourceId";
  _ ← invalid (given (dm_resourceKeyId m)) "Invalid resourceKeyId";
  _ ← invalid (given (dm_grantId m)) "Invalid grantId";
  _ ← invalid (is_hash (dm_scopeStateRef m)) "Invalid scopeStateRef: must be 32-byte Uint8Array";
  _ ← invalid (given (dm_authorDeviceId m)) "Invalid authorDeviceId";
  invalid (is_hash (dm_payloadCiphertextHash m)) "Invalid payloadCiphertextHash: must be 32-byte Uint8Array (SHA-256)".

Definition validateScopeStateManifest (m : ScopeStateManifestV1) : result error unit :=
  _ ← invalid (given (sm_scopeId m)) "Invalid scopeId";
  _ ← invalid (0 <=? sm_scopeStateSeq m)%Z "Invalid scopeStateSeq: must be non-negative bigint";
  _ ← invalid (match sm_prevHash m with Some h => is_hash h | None => true end)
    "Invalid prevHash: must be null or 32-byte Uint8Array";
  _ ← invalid (given (sm_ownerUserId m)) "Invalid ownerUserId";
  invalid (0 <=? sm_scopeEpoch m)%Z "Invalid scopeEpoch: must be non-negative bigint".

Definition validateResourceGrantManifest (m : ResourceGrantManifestV1) : result error unit :=
  _ ← invalid (given (gm_grantId m)) "Invalid grantId";
  _ ← invalid (given (gm_scopeId m)) "Invalid scopeId";
  _ ← invalid (given (gm_resourceId m)) "Invalid resourceId";
  _ ← invalid (0 <=? gm_scopeEpoch m)%Z "Invalid scopeEpoch: must be non-negative bigint";
  _ ← invalid (given (gm_resourceKeyId m)) "Invalid resourceKeyId";
  _ ← invalid (0 <? length (gm_wrappedKey m))%nat "Invalid wrappedKey: must be non-empty Uint8Array";
  invalid (is_hash (gm_scopeStateRef m)) "Invalid scopeStateRef: must be 32-byte Uint8Array".

(** The objects handed to the encoder. *)
Definition event_value (m : DomainEventManifestV1) : cbor :=
  C_map [("version", C_text "mo-domain-event-manifest-v1"); ("eventId", C_text (dm_eventId m));
    ("scopeId", C_text (dm_scopeId m)); ("resourceId", C_text (dm_resourceId m));
    ("resourceKeyId", C_text (dm_resourceKeyId m)); ("grantId", C_text (dm_grantId m));
    ("scopeStateRef", C_bytes (dm_scopeStateRef m)); ("authorDeviceId", C_text (dm_authorDeviceId m));
    ("payloadAad", C_bytes (dm_payloadAad m)); ("payloadCiphertextHash", C_bytes (dm_payloadCiphertextHash m))].
Definition member_value (m : ScopeMember) : cbor := C_map [("userId", C_text (m_userId m)); ("role", C_text (m_role m))].
Definition signer_value (s : ScopeSigner) : cbor :=
  C_map [("deviceId", C_text (sg_deviceId s)); ("userId", C_text (sg_userId s)); ("sigSuite", C_text (sg_sigSuite s));
    ("pubKeys", C_map (map (fun k => (k.1, C_bytes k.2)) (pubKeys s)))].
Definition state_value (m : ScopeStateManifestV1) : cbor :=
  C_map [("version", C_text "mo-scope-state-manifest-v1"); ("scopeId", C_text (sm_scopeId m));
    ("scopeStateSeq", C_int (sm_scopeStateSeq m));
    ("prevHash", match sm_prevHash m with Some h => C_bytes h | None => C_null end);
    ("ownerUserId", C_text (sm_ownerUserId m)); ("scopeEpoch", C_int (sm_scopeEpoch m));
    ("members", C_array (map member_value (sm_members m))); ("signers", C_array (map signer_value (sm_signers m)))].
Definition grant_value (m : ResourceGrantManifestV1) : cbor :=
  C_map [("version", C_text "mo-resource-grant-manifest-v1"); ("grantId", C_text (gm_grantId m));
    ("scopeId", C_text (gm_scopeId m)); ("resourceId", C_text (gm_resourceId m));
    ("scopeEpoch", C_int (gm_scopeEpoch m)); ("resourceKeyId", C_text (gm_resourceKeyId m));
    ("wrappedKey", C_bytes (gm_wrappedKey m)); ("scopeStateRef", C_bytes (gm_scopeStateRef m))].

Section Encoders.
Context `{ManifestPlatform}.

Definition encodeDomainEventManifest (m : DomainEventManifestV1) : result error (list Z) :=
  _ ← validateDomainEventManifest m; mret (cbor_encode (event_value m)).
Definition encodeScopeStateManifest (m : ScopeStateManifestV1) : result error (list Z) :=
  _ ← validateScopeStateManifest m; mret (cbor_encode (state_value m)).
Definition encodeResourceGrantManifest (m : ResourceGrantManifestV1) : result error (list Z) :=
  _ ← validateResourceGrantManifest m; mret (cbor_encode (grant_value m)).

End Encoders.
End ManifestCodec.

(** ** [VerificationPipeline.ts] *)

Module VerificationPipeline.
Import DependencyValidator SignatureVerifier ManifestCodec.

Inductive VerificationFailureReason : Type :=
  signature_invalid | dependency_missing | signer_not_found | signer_not_authorized | hash_chain_violation.
Inductive VerificationResult : Type := Verified | Refused (reason : VerificationFailureReason) (details : string).

Record VerifyDomainEventInput : Type := EventInput {
  ei_eventId : string;
  ei_aggregateType : string;
  ei_aggregateId : string;
  ei_version : Z;
  ei_scopeId : string;
  ei_resourceId : string;
  ei_resourceKeyId : string;
  ei_grantId : string;
  ei_scopeStateRef : list Z;
  ei_authorDeviceId : string;
  ei_payloadCiphertext : list Z;
  ei_sigSuite : string;
  ei_signature : list Z
}.

Record VerifyScopeStateInput : Type := StateInput {
  si_scopeStateRef : list Z;
  si_scopeId : string;
  si_scopeStateSeq : Z;
  si_prevHash : option (list Z);
  si_ownerUserId : string;
  si_scopeEpoch : Z;
  si_members : list ScopeMember;
  si_signers : list ScopeSigner;
  si_sigSuite : string;
  si_signature : list Z
}.

Definition mapDependencyErrorToVerificationReason (r : dependency_reason) : VerificationFailureReason :=
  match r with
  | scope_state_missing | grant_missing | grant_revoked => dependency_missing
  | scope_id_mismatch => hash_chain_violation
  end.

Definition sig_key (s : ScopeSigner) : option (list Z) := assoc "sig" (pubKeys s).

Section Pipeline.
Context `{ManifestPlatform}.
(** [Date.now()] *)
Variable now : number.

(** [hashPayload] *)
Definition hashPayload (ciphertext : list Z) : list Z := sha256 ciphertext.

Definition event_manifest (i : VerifyDomainEventInput) : DomainEventManifestV1 :=
  EventManifest (ei_eventId i) (ei_scopeId i) (ei_resourceId i) (ei_resourceKeyId i) (ei_grantId i) (ei_scopeStateRef i)
    (ei_authorDeviceId i)
    (buildSharingEventAad (ei_aggregateType i) (ei_aggregateId i) (ei_version i) (ei_scopeId i) (ei_resourceId i)
      (ei_resourceKeyId i) (ei_grantId i) (ei_sigSuite i))
    (hashPayload (ei_payloadCiphertext i)).

Definition verifyDomainEvent (i : VerifyDomainEventInput) (c : sharing_cache) : result error VerificationResult :=
  match validateEventDependencies (ei_scopeStateRef i) (ei_grantId i) c with
  | Missing r details => Ok (Refused (mapDependencyErrorToVerificationReason r) details)
  | Valid =>
      manifestBytes ← encodeDomainEventManifest (event_manifest i);
      scopeState ← ScopeStateStore.loadByRef (ei_scopeStateRef i) c;
      match scopeState with
      | None =>
          Ok (Refused signer_not_found ("ScopeState not found for ref " +:+ ScopeStateRef.toHex (ei_scopeStateRef i)))
      | Some st =>
          signers ← ScopeStateStore.parseSigners (signersJson st);
          match List.find (fun s => bool_decide (sg_deviceId s = ei_authorDeviceId i)) signers with
          | None =>
              Ok (Refused signer_not_found ("Signer device " +:+ ei_authorDeviceId i +:+ " not found in ScopeState"))
          | Some signer =>
              match sig_key signer with
              | None =>
                  Ok (Refused signer_not_found ("Signer device " +:+ ei_authorDeviceId i +:+ " has no 'sig' public key"))
              | Some publicKey =>
                  signatureValid ← verifyManifestSignature manifestBytes (ei_signature i) publicKey (ei_sigSuite i);
                  if negb signatureValid then Ok (Refused signature_invalid "Signature verification failed")
                  else
                    members ← ScopeStateStore.parseMembers (membersJson st);
                    match List.find (fun m => bool_decide (m_userId m = sg_userId signer)) members with
                    | None =>
                        Ok (Refused signer_not_authorized ("Signer user " +:+ sg_userId signer
                          +:+ " is not a member of the scope"))
                    | Some _ => Ok Verified
                    end
              end
          end
      end
  end.

Definition state_manifest (i : VerifyScopeStateInput) : ScopeStateManifestV1 :=
  StateManifest (si_scopeId i) (si_scopeStateSeq i) (si_prevHash i) (si_ownerUserId i) (si_scopeEpoch i) (si_members i) (si_signers i).

Definition find_owner (i : VerifyScopeStateInput) (signers : list ScopeSigner) : option ScopeSigner :=
  List.find (fun s => bool_decide (sg_userId s = si_ownerUserId i)) signers.

(** Step 3 of [verifyScopeState]: the key, or the refusal. *)
Definition resolve_signer (i : VerifyScopeStateInput) (c : sharing_cache) : result error (VerificationResult + list Z) :=
  if (si_scopeStateSeq i =? 0)%Z then
    match find_owner i (si_signers i) with
    | None => Ok (inl (Refused signer_not_found "Genesis ScopeState must include owner as signer"))
    | Some s =>
        match sig_key s with
        | None => Ok (inl (Refused signer_not_found "Owner signer has no sig public key"))
        | Some k => Ok (inr k)
        end
    end
  else
    match si_prevHash i with
    | None => Ok (inl (Refused hash_chain_violation "Non-genesis ScopeState must have prevHash"))
    | Some prev =>
        prevState ← ScopeStateStore.loadByRef prev c;
        match prevState with
        | None => Ok (inl (Refused dependency_missing "Previous ScopeState not found"))
        | Some p =>
            prevSigners ← ScopeStateStore.parseSigners (signersJson p);
            match find_owner i prevSigners with
            | None => Ok (inl (Refused signer_not_found "Owner not found in previous ScopeState signers"))
            | Some s =>
                match sig_key s with
                | None => Ok (inl (Refused signer_not_found "Owner signer has no sig public key"))
                | Some k => Ok (inr k)
                end
            end
        end
    end.

(** The record step 5 stores. *)
Definition verified_state (i : VerifyScopeStateInput) : VerifiedScopeState :=
  ScopeState (si_scopeStateRef i) (si_scopeId i) (si_scopeStateSeq i)
    (JSON_stringify (JArr (map ScopeStateStore.member_json (si_members i))))
    (JSON_stringify (JArr (map ScopeStateStore.signer_json (si_signers i))))
    (si_signature i) now.

Definition verifyScopeState (i : VerifyScopeStateInput) : js sharing_cache error VerificationResult :=
  depResult ← reads (validateScopeStatePrevHash (si_prevHash i) (si_scopeStateSeq i) (si_scopeId i));
  match depResult with
  | Missing r details => mret (Refused (mapDependencyErrorToVerificationReason r) details)
  | Valid =>
      manifest ← lift_result (encodeScopeStateManifest (state_manifest i));
      resolved ← reads (resolve_signer i);
      match resolved with
      | inl refusal => mret refusal
      | inr publicKey =>
          signatureValid ← lift_result (verifyManifestSignature manifest (si_signature i) publicKey (si_sigSuite i));
          if negb signatureValid : bool then mret (Refused signature_invalid "Signature verification failed")
          else
            _ ← modify (ScopeStateStore.store (verified_state i));
            mret Verified
      end
  end.

End Pipeline.
End VerificationPipeline.

(** ** Lemmas *)

Module SharingVerificationLemmas.
Import ScopeStateStore DependencyValidator SignatureVerifier ManifestCodec VerificationPipeline JsonTextProperties.

(** *** Numbers as text *)

Lemma dec_digits_all fuel n acc : (0 <= n)%Z -> all_digits acc -> all_digits (dec_digits fuel n acc).
Proof.
  revert n acc. induction fuel as [|f IH]; intros n acc Hn Ha; simpl; [done|].
  assert (forall d, (0 <= d <= 9)%Z -> all_digits (String (digit_char d) acc)) as Hd.
  { intros d Hd. unfold all_digits in *. simpl. constructor; [|done]. unfold is_digit, in_range. rewrite code_digit_char by lia. lia. }
  destruct (Z.ltb_spec n 10); [apply Hd; lia|]. apply IH; [apply Z.div_pos; lia|]. apply Hd.
  pose proof (Z.mod_pos_bound n 10 ltac:(lia)). lia.
Qed.

Lemma dec_digits_nonempty fuel n acc : (0 < fuel)%nat \/ acc <> EmptyString -> dec_digits fuel n acc <> EmptyString.
Proof.
  revert n acc. induction fuel as [|f IH]; intros n acc H; simpl; [destruct H; [lia|done]|].
  destruct (n <? 10)%Z; [done|]. apply IH. by right.
Qed.

Lemma fold_digits l acc : fold_left (fun a c => a * 10 + ScopeEpoch.digit_value c)%Z l acc =
  if forallb is_digit l then dec_value acc (of_chars l) else fold_left (fun a c => a * 10 + ScopeEpoch.digit_value c)%Z l acc.
Proof.
  revert acc. induction l as [|c l IH]; intros acc; simpl; [done|]. destruct (is_digit c) eqn:Ec; [|done].
  rewrite IH. simpl. unfold ScopeEpoch.digit_value at 1 2. rewrite Ec. by destruct (forallb is_digit l).
Qed.

Lemma digits_in_dec l : l <> [] -> Forall (fun c => is_digit c = true) l -> ScopeEpoch.digits_in 10 l = Some (dec_value 0 (of_chars l)).
Proof.
  intros Hne Hl. unfold ScopeEpoch.digits_in. destruct l as [|c0 l0] eqn:El; [done|]. rewrite <- El in *.
  assert (forallb (fun c => is_hex c && (ScopeEpoch.digit_value c <? 10)%Z) l = true) as ->.
  { apply forallb_forall. intros c Hc%list_elem_of_In. pose proof (proj1 (Forall_forall _ _) Hl c Hc) as Hd. simpl in Hd.
    pose proof (is_digit_bounds c Hd). unfold is_hex, ScopeEpoch.digit_value. rewrite Hd. simpl. apply Z.ltb_lt. lia. }
  rewrite fold_digits. assert (forallb is_digit l = true) as ->; [|done].
  apply forallb_forall. intros c Hc%list_elem_of_In. by apply (proj1 (Forall_forall _ _) Hl c Hc).
Qed.

Lemma digit_plain c : is_digit c = true -> is_space c = false /\ is_char "-" c = false /\ is_char "+" c = false /\
  is_char "x" c = false /\ is_char "X" c = false /\ is_char "o" c = false /\ is_char "O" c = false /\
  is_char "b" c = false /\ is_char "B" c = false.
Proof. destruct c as [[] [] [] [] [] [] [] []]; vm_compute; intros [=]; split_and!; reflexivity. Qed.

Lemma drop_spaces_digits l : Forall (fun c => is_digit c = true) l -> drop_spaces l = l.
Proof. intros [|c l' Hc _]; [done|]. simpl. by destruct (digit_plain c Hc) as [-> _]. Qed.

Lemma BigInt_string_of_Z z : (0 <= z)%Z -> ScopeEpoch.BigInt (string_of_Z z) = Some z.
Proof.
  intros Hz. rewrite <- (dec_value_string_of_Z z Hz) at 2.
  assert (all_digits (string_of_Z z) /\ string_of_Z z <> EmptyString) as [Hd Hne].
  { unfold string_of_Z. destruct (Z.ltb_spec z 0); [lia|]. split; [apply dec_digits_all; [done|constructor]|].
    apply dec_digits_nonempty. left. lia. }
  revert Hd Hne. generalize (string_of_Z z). intros s Hd Hne. unfold all_digits in Hd.
  assert (trim s = s) as Ht.
  { unfold trim. rewrite (drop_spaces_digits (chars s)) by done.
    rewrite (drop_spaces_digits (rev (chars s))) by (by apply List.Forall_rev).
    rewrite rev_involutive. apply of_chars_chars. }
  unfold ScopeEpoch.BigInt. rewrite Ht. destruct (chars s) as [|c l] eqn:Es.
  { destruct s; [done|]. by rewrite <- (of_chars_chars (String a s)), Es in Hne. }
  assert (of_chars (c :: l) = s) as <- by (rewrite <- Es; apply of_chars_chars).
  apply Forall_cons in Hd as Hd'. destruct Hd' as [Hc Hl]. destruct (digit_plain c Hc) as (_ & -> & -> & _).
  destruct l as [|x l']; [by apply digits_in_dec|]. apply Forall_cons in Hl as [Hx _].
  destruct (digit_plain x Hx) as (_ & _ & _ & -> & -> & -> & -> & -> & ->). rewrite !andb_false_r. by apply digits_in_dec.
Qed.

(** *** The JSON columns are read back *)

Lemma base64_read b : Forall byte b -> fromBase64 (toBase64 b) = Ok b.
Proof.
  intros H. unfold fromBase64, toBase64, atob. rewrite Base64UrlProperties.btoa_sextets. unfold Base64UrlProperties.padding.
  pose proof (Base64UrlProperties.digits_of _ (Base64UrlProperties.sextets_ok b H)) as Hd.
  destruct (Base64UrlProperties.sextets_padding b) as (k & Hk & Hle & _).
  unfold Base64UrlProperties.padding in *. rewrite Base64UrlProperties.filter_digits by done. rewrite length_replicate in *.
  rewrite (Base64UrlProperties.strip_padding_digits _ _ k); [|eapply Forall_impl; [exact Hd|]; by intros c (_ & ? & _)|done|
    rewrite length_map; done].
  rewrite Base64UrlProperties.mapM_digits by (by apply Base64UrlProperties.sextets_ok). simpl.
  by rewrite Base64UrlProperties.decode_sextets.
Qed.

(** A signer as the types say: an object's keys are distinct, keys are bytes. *)
Definition signer_plain (s : ScopeSigner) : Prop := NoDup (map fst (pubKeys s)) /\ Forall (fun k => Forall byte k.2) (pubKeys s).

Lemma parse_array_of {A} (f : json -> result error A) (g : A -> json) l :
  forallb json_ok (map g l) = true -> Forall (fun x => f (g x) = Ok x) l -> parse_array f (JSON_stringify (JArr (map g l))) = Ok l.
Proof. intros Hok Hl. unfold parse_array. rewrite parse_stringify by done. by apply mapM_map_ok. Qed.

Lemma parse_members ms : parseMembers (JSON_stringify (JArr (map member_json ms))) = Ok ms.
Proof.
  apply parse_array_of.
  - apply forallb_forall. intros v (m & <- & _)%in_map_iff. reflexivity.
  - apply Forall_forall. intros [u r] _. reflexivity.
Qed.

Lemma parse_keys ks : Forall (fun k : string * list Z => Forall byte k.2) ks -> mapM parse_key (map key_json ks) = Ok ks.
Proof.
  intros H. apply mapM_map_ok. eapply Forall_impl; [exact H|]. intros [k b] Hb. unfold parse_key, key_json. simpl.
  rewrite chars_of_chars. by rewrite base64_read.
Qed.

Lemma parse_signers ss : Forall signer_plain ss -> parseSigners (JSON_stringify (JArr (map signer_json ss))) = Ok ss.
Proof.
  intros H. apply parse_array_of.
  - apply forallb_forall. intros v (s & <- & Hs%list_elem_of_In)%in_map_iff. destruct (proj1 (Forall_forall _ _) H s Hs) as [Hn _].
    unfold signer_json. cbn [json_ok forallb map fst]. rewrite !andb_true_iff. split; [reflexivity|]. split_and!; try reflexivity.
    + apply bool_decide_eq_true. rewrite map_map. simpl. exact Hn.
    + apply forallb_forall. intros [k v'] (k' & [= <- <-] & _)%in_map_iff. reflexivity.
  - eapply Forall_impl; [exact H|]. intros [d u su ks] [_ Hk]. unfold parse_signer, signer_json. simpl. by rewrite parse_keys.
Qed.

(** *** The cache of states *)

Lemma filter_none {A} (P : A -> Prop) `{!forall x, Decision (P x)} (l : list A) : (forall x, ~ P x) -> filter P l = [].
Proof. intros Hn. induction l as [|x l IH]; [done|]. by rewrite filter_cons_False. Qed.

Lemma load_insert s c ref : (0 <= scopeStateSeq s)%Z ->
  loadByRef ref (store s c) = if decide (scopeStateRef s = ref) then Ok (Some s) else loadByRef ref c.
Proof.
  intros Hs. unfold loadByRef, store, insert_or_replace, kt_remove. simpl. rewrite filter_app, list_filter_filter.
  destruct (decide (scopeStateRef s = ref)) as [<-|Hne].
  - rewrite filter_none by (intros r [E1 E2]; done). rewrite filter_cons_True by done. simpl. unfold of_row. simpl.
    rewrite BigInt_string_of_Z by done. by destruct s.
  - rewrite filter_cons_False by done. rewrite filter_nil, app_nil_r. f_equal. apply list_filter_iff. intros r. naive_solver.
Qed.

(** *** The head of a scope: the last of the texts *)

Lemma ascii_leb_trans a b c : Ascii.leb a b = true -> Ascii.leb b c = true -> Ascii.leb a c = true.
Proof.
  unfold Ascii.leb, Ascii.compare. intros H1 H2.
  destruct (N.compare_spec (N_of_ascii a) (N_of_ascii b)), (N.compare_spec (N_of_ascii b) (N_of_ascii c)),
    (N.compare_spec (N_of_ascii a) (N_of_ascii c)); try done; lia.
Qed.

Lemma string_leb_cons a s b t : String.leb (String a s) (String b t) = true <->
  (N_of_ascii a < N_of_ascii b)%N \/ (a = b /\ String.leb s t = true).
Proof.
  unfold String.leb. simpl. unfold Ascii.compare. destruct (N.compare_spec (N_of_ascii a) (N_of_ascii b)) as [E|E|E].
  - apply (f_equal ascii_of_N) in E. rewrite !ascii_N_embedding in E. subst b. split; [tauto|]. intros [H|[_ H]]; [lia|done].
  - split; [by left|done].
  - split; [done|]. intros [H|[-> _]]; lia.
Qed.

Lemma string_leb_trans s t u : String.leb s t = true -> String.leb t u = true -> String.leb s u = true.
Proof.
  revert t u. induction s as [|a s IH]; intros t u; [by destruct u|].
  destruct t as [|b t]; [done|]. destruct u as [|c u]; [done|]. rewrite !string_leb_cons.
  intros [H1|[-> H1]] [H2|[-> H2]]; [left; lia|by left|by left|right]. split; [done|]. by eapply IH.
Qed.

#[export] Instance text_ge_trans : Transitive text_ge.
Proof. intros a b c. unfold text_ge, text_le. intros H1 H2. by eapply string_leb_trans. Qed.
#[export] Instance text_ge_total : Total text_ge.
Proof. intros a b. unfold text_ge, text_le. destruct (String.leb_total (scope_state_seq a) (scope_state_seq b)); auto. Qed.

(** The head is a row of the scope that no other follows as a text. *)
Lemma getHead_spec i c :
  match rows_of_scope i c with
  | [] => getHead i c = Ok None
  | _ => exists r, getHead i c = Some <$> of_row r /\ r ∈ rows_of_scope i c /\ forall r', r' ∈ rows_of_scope i c -> text_le r' r
  end.
Proof.
  unfold getHead. pose proof (merge_sort_Permutation text_ge (rows_of_scope i c)) as Hp.
  pose proof (StronglySorted_merge_sort text_ge (rows_of_scope i c)) as Hs.
  destruct (merge_sort text_ge (rows_of_scope i c)) as [|r l] eqn:E.
  - apply Permutation_nil_l in Hp. by rewrite <- Hp.
  - destruct (rows_of_scope i c) as [|r0 l0]; [by apply Permutation_nil_r in Hp|]. exists r. split; [done|].
    split; [rewrite <- Hp; constructor|]. intros r' Hr. rewrite <- Hp in Hr. inversion Hs as [|?? _ Ha]; subst.
    apply elem_of_cons in Hr as [->|Hr]; [unfold text_le; destruct (String.leb_total (scope_state_seq r) (scope_state_seq r)); done|].
    exact (proj1 (Forall_forall _ _) Ha r' Hr).
Qed.

(** *** What an accepted state went through *)

Section Accepted.
Context `{ManifestPlatform}.

(** The state is signed with the key [k]. *)
Definition signed_by (i : VerifyScopeStateInput) (k : list Z) : Prop :=
  si_sigSuite i = "ecdsa-p256" /\
  verifyEcdsaP256 (cbor_encode (state_value (state_manifest i))) (si_signature i) k = true.

Lemma signature_checked m sig k suite : verifyManifestSignature m sig k suite = Ok true <->
  suite = "ecdsa-p256" /\ verifyEcdsaP256 m sig k = true.
Proof.
  unfold verifyManifestSignature. destruct (bool_decide_reflect (suite = "ecdsa-p256")) as [->|Hs].
  - split; [by intros [= ->]|]. by intros [_ ->].
  - split; [|by intros [? _]]. by destruct (bool_decide _).
Qed.

Lemma resolve_refuses i c v : resolve_signer i c = Ok (inl v) -> v <> Verified.
Proof.
  unfold resolve_signer. intros Hr. repeat (case_match; simplify_eq/=; try done).
  all: inv_ok; repeat (case_match; simplify_eq/=; try done); inv_ok; repeat (case_match; simplify_eq/=; try done).
Qed.

Lemma state_outcome now i c r c' : verifyScopeState now i c = (r, c') ->
  (r <> Ok Verified /\ c' = c) \/
  (r = Ok Verified /\ c' = store (verified_state now i) c /\
   validateScopeStatePrevHash (si_prevHash i) (si_scopeStateSeq i) (si_scopeId i) c = Ok Valid /\
   validateScopeStateManifest (state_manifest i) = Ok tt /\
   exists k, resolve_signer i c = Ok (inr k) /\ signed_by i k).
Proof.
  unfold verifyScopeState, reads, lift_result, mbind, js_bind, mret, js_ret, modify.
  destruct (validateScopeStatePrevHash _ _ _ c) as [[|reason d]|e]; [|intros [= <- <-]; by left..].
  unfold encodeScopeStateManifest. destruct (validateScopeStateManifest (state_manifest i)) as [[]|e]; simpl; [|intros [= <- <-]; by left].
  destruct (resolve_signer i c) as [[v|k]|e] eqn:Er; [|simpl|intros [= <- <-]; by left].
  { intros [= <- <-]. left. split; [|done]. apply resolve_refuses in Er. congruence. }
  destruct (verifyManifestSignature _ _ _ _) as [[]|e] eqn:Ev; simpl; intros [= <- <-]; [|by left..].
  right. split_and!; try done. exists k. split; [done|]. by apply signature_checked in Ev.
Qed.

Lemma accepted_seq i : validateScopeStateManifest (state_manifest i) = Ok tt -> (0 <= si_scopeStateSeq i)%Z.
Proof.
  unfold validateScopeStateManifest. intros Hv. inv_ok. simpl in *. unfold invalid in *. repeat (case_match; try done); lia.
Qed.

(** *** Caches and what was accepted into them *)

(** The states accepted into a cache, the last one first.  Calls that are
    refused or throw leave no trace; grants come and go. *)
Inductive history : sharing_cache -> list VerifyScopeStateInput -> Prop :=
| nothing_yet : history empty_cache []
| state_accepted now i c c' l : history c l -> verifyScopeState now i c = (Ok Verified, c') -> history c' (i :: l)
| state_rejected now i r c c' l : history c l -> verifyScopeState now i c = (r, c') -> r <> Ok Verified -> history c' l
| grant_stored g c l : history c l -> history (ResourceGrantStore.store g c) l.

(** References identify states, as hashes of the signed records do. *)
Definition refs_identify (l : list VerifyScopeStateInput) : Prop :=
  forall i j, i ∈ l -> j ∈ l -> si_scopeStateRef i = si_scopeStateRef j -> i = j.

(** [i] is signed by an owner named in its own list, or continues a state of
    [l] and is signed by an owner named in that one's. *)
Definition anchored (l : list VerifyScopeStateInput) (i : VerifyScopeStateInput) : Prop :=
  (si_scopeStateSeq i = 0%Z /\ si_prevHash i = None /\
   exists s k, s ∈ si_signers i /\ sg_userId s = si_ownerUserId i /\ sig_key s = Some k /\ signed_by i k) \/
  exists p s k, p ∈ l /\ si_prevHash i = Some (si_scopeStateRef p) /\ si_scopeId p = si_scopeId i /\
    si_scopeStateSeq i = (si_scopeStateSeq p + 1)%Z /\
    s ∈ si_signers p /\ sg_userId s = si_ownerUserId i /\ sig_key s = Some k /\ signed_by i k.

Definition holds_row (c : sharing_cache) (i : VerifyScopeStateInput) : Prop :=
  exists now, to_row (verified_state now i) ∈ scope_states c.

Record cached (c : sharing_cache) (l : list VerifyScopeStateInput) : Prop := {
  ca_seq i : i ∈ l -> (0 <= si_scopeStateSeq i)%Z;
  ca_row i : i ∈ l -> holds_row c i;
  ca_only r : r ∈ scope_states c -> exists now i, i ∈ l /\ r = to_row (verified_state now i);
  ca_anchored i : i ∈ l -> anchored l i;
  ca_linear i j : i ∈ l -> j ∈ l -> si_scopeId i = si_scopeId j -> si_scopeStateSeq i = si_scopeStateSeq j ->
    (0 < si_scopeStateSeq i)%Z -> (forall k, k ∈ l -> si_scopeId k = si_scopeId i -> (si_scopeStateSeq k <= 9)%Z) -> i = j
}.

Lemma of_to_row now i : (0 <= si_scopeStateSeq i)%Z -> of_row (to_row (verified_state now i)) = Ok (verified_state now i).
Proof. intros Hs. unfold of_row. simpl. by rewrite BigInt_string_of_Z. Qed.

(** What is loaded was accepted. *)
Lemma loaded_accepted c l ref st : cached c l -> loadByRef ref c = Ok (Some st) ->
  exists now i, i ∈ l /\ si_scopeStateRef i = ref /\ st = verified_state now i.
Proof.
  intros Hc. unfold loadByRef, first_row. destruct (filter _ (scope_states c)) as [|r rows] eqn:Ef; [done|].
  assert (scope_state_ref r = ref /\ r ∈ scope_states c) as [Hr Hin].
  { apply (list_elem_of_filter (fun r => scope_state_ref r = ref)). rewrite Ef. constructor. }
  destruct (ca_only _ _ Hc r Hin) as (now & i & Hi & ->). rewrite of_to_row by (by apply (ca_seq _ _ Hc)). simpl.
  intros [= <-]. by exists now, i.
Qed.

(** And what was accepted is loaded. *)
Lemma accepted_loaded c l i : cached c l -> refs_identify l -> i ∈ l ->
  exists now, loadByRef (si_scopeStateRef i) c = Ok (Some (verified_state now i)).
Proof.
  intros Hc Hid Hi. unfold loadByRef, first_row. destruct (ca_row _ _ Hc i Hi) as [now Hrow].
  destruct (filter _ (scope_states c)) as [|r rows] eqn:Ef.
  { exfalso. apply (not_elem_of_nil (to_row (verified_state now i))). rewrite <- Ef. by apply list_elem_of_filter. }
  assert (scope_state_ref r = si_scopeStateRef i /\ r ∈ scope_states c) as [Hr Hin].
  { apply (list_elem_of_filter (fun r => scope_state_ref r = si_scopeStateRef i)). rewrite Ef. constructor. }
  destruct (ca_only _ _ Hc r Hin) as (now' & j & Hj & ->). simpl in Hr. rewrite (Hid j i Hj Hi Hr).
  rewrite of_to_row by (by apply (ca_seq _ _ Hc)). by exists now'.
Qed.

Lemma small_texts a b : (0 <= a <= 9)%Z -> (0 <= b <= 9)%Z -> String.leb (string_of_Z a) (string_of_Z b) = true -> (a <= b)%Z.
Proof.
  intros Ha Hb.
  assert (forallb (fun x => forallb (fun y => implb (String.leb (string_of_Z x) (string_of_Z y)) (x <=? y)%Z)
    (Z.of_nat <$> seq 0 10)) (Z.of_nat <$> seq 0 10) = true) as Hall by (vm_compute; reflexivity).
  assert (forall z, (0 <= z <= 9)%Z -> List.In z (Z.of_nat <$> seq 0 10)) as Hin.
  { intros z Hz. apply list_elem_of_In, list_elem_of_fmap. exists (Z.to_nat z). split; [lia|]. apply elem_of_seq. lia. }
  rewrite forallb_forall in Hall. specialize (Hall a (Hin a Ha)). rewrite forallb_forall in Hall. specialize (Hall b (Hin b Hb)).
  intros E. rewrite E in Hall. simpl in Hall. lia.
Qed.

(** Up to number 9 the head is the state with the greatest number. *)
Lemma extends_all c l prev n scope j : cached c l -> validateScopeStatePrevHash (Some prev) n scope c = Ok Valid ->
  (forall k, k ∈ l -> si_scopeId k = scope -> (si_scopeStateSeq k <= 9)%Z) ->
  j ∈ l -> si_scopeId j = scope -> (si_scopeStateSeq j < n)%Z.
Proof.
  intros Hc Hv H9 Hj Hs. unfold validateScopeStatePrevHash in Hv. destruct (n =? 0)%Z; [done|].
  apply result_bind_ok in Hv as ([p|] & _ & Hv); [|done]. destruct (negb _); [done|]. destruct (negb _); [done|].
  apply result_bind_ok in Hv as (h & Hh & Hv). pose proof (getHead_spec scope c) as Hsp.
  destruct (ca_row _ _ Hc j Hj) as [now Hrow].
  assert (to_row (verified_state now j) ∈ rows_of_scope scope c) as Hrs by (by apply list_elem_of_filter).
  destruct (rows_of_scope scope c) as [|r0 rows] eqn:Er; [by apply not_elem_of_nil in Hrs|]. rewrite <- Er in *.
  destruct Hsp as (r & Hg & Hin & Hge). apply list_elem_of_filter in Hin as [Hrsc Hin].
  destruct (ca_only _ _ Hc r Hin) as (now' & k & Hk & ->). simpl in Hrsc. rewrite of_to_row in Hg by (by apply (ca_seq _ _ Hc)).
  rewrite Hg in Hh. simpl in Hh. injection Hh as <-. simpl in Hv. destruct (Z.leb_spec n (si_scopeStateSeq k)); [done|].
  specialize (Hge _ Hrs). unfold text_le in Hge. simpl in Hge. apply small_texts in Hge; [lia|..].
  - split; [by apply (ca_seq _ _ Hc)|by apply H9].
  - split; [by apply (ca_seq _ _ Hc)|by apply H9].
Qed.

Lemma anchored_more l i j : anchored l j -> anchored (i :: l) j.
Proof.
  intros [Hg|(p & s & k & Hp & Hrest)]; [by left|]. right. exists p, s, k. split; [by constructor|done].
Qed.

Lemma find_elem {A} (f : A -> bool) l x : List.find f l = Some x -> x ∈ l /\ f x = true.
Proof. intros [H1 H2]%List.find_some. by rewrite list_elem_of_In. Qed.

Lemma new_anchored i c l k : cached c l -> Forall (fun j => Forall signer_plain (si_signers j)) l ->
  validateScopeStatePrevHash (si_prevHash i) (si_scopeStateSeq i) (si_scopeId i) c = Ok Valid ->
  resolve_signer i c = Ok (inr k) -> signed_by i k -> anchored l i.
Proof.
  intros Hc Hp Hv Hr Hk. unfold validateScopeStatePrevHash in Hv. unfold resolve_signer in Hr. destruct (si_prevHash i) as [prev|] eqn:Eprev.
  - destruct (Z.eqb_spec (si_scopeStateSeq i) 0); [done|]. right.
    apply result_bind_ok in Hv as ([st|] & Hl & Hv); [|done]. rewrite Hl in Hr. simpl in Hr.
    destruct (loaded_accepted _ _ _ _ Hc Hl) as (now & p & Hin & Href & ->). simpl in *.
    rewrite (parse_signers (si_signers p)) in Hr by exact (proj1 (Forall_forall _ _) Hp p Hin). simpl in Hr.
    destruct (find_owner i (si_signers p)) as [s|] eqn:Ef; [|done]. destruct (sig_key s) as [k'|] eqn:Ek; [|done]. simplify_eq.
    apply find_elem in Ef as [Hs Hu%bool_decide_eq_true]. exists p, s, k.
    destruct (Z.eqb_spec (si_scopeStateSeq i) (si_scopeStateSeq p + 1)); [|done]. simpl in Hv.
    destruct (bool_decide_reflect (si_scopeId p = si_scopeId i)); [|done]. by split_and!.
  - left. destruct (Z.eqb_spec (si_scopeStateSeq i) 0); [|done]. destruct (find_owner i (si_signers i)) as [s|] eqn:Ef; [|done].
    destruct (sig_key s) as [k'|] eqn:Ek; [|done]. simplify_eq. apply find_elem in Ef as [Hs Hu%bool_decide_eq_true].
    split; [done|]. split; [done|]. by exists s, k.
Qed.

Lemma accepted_cached now i c l k : cached c l -> Forall (fun j => Forall signer_plain (si_signers j)) l -> refs_identify (i :: l) ->
  validateScopeStatePrevHash (si_prevHash i) (si_scopeStateSeq i) (si_scopeId i) c = Ok Valid ->
  validateScopeStateManifest (state_manifest i) = Ok tt -> resolve_signer i c = Ok (inr k) -> signed_by i k ->
  cached (store (verified_state now i) c) (i :: l).
Proof.
  intros Hc Hp Hid Hv Hm Hr Hk. pose proof (new_anchored i c l k Hc Hp Hv Hr Hk) as Ha. split.
  - intros j [->|Hj]%elem_of_cons; [by apply accepted_seq|]. by apply (ca_seq _ _ Hc).
  - intros j Hj. destruct (decide (si_scopeStateRef j = si_scopeStateRef i)) as [E|E].
    + rewrite (Hid j i Hj ltac:(constructor) E). exists now. simpl. apply elem_of_app. right. by apply list_elem_of_singleton.
    + apply elem_of_cons in Hj as [->|Hj]; [done|]. destruct (ca_row _ _ Hc j Hj) as [now' Hrow]. exists now'. simpl.
      apply elem_of_app. left. by apply list_elem_of_filter.
  - intros r [Hr0|Hr0]%elem_of_app.
    + apply list_elem_of_filter in Hr0 as [_ Hr0]. destruct (ca_only _ _ Hc r Hr0) as (now' & j & Hj & ->).
      exists now', j. split; [by constructor|done].
    + apply list_elem_of_singleton in Hr0 as ->. exists now, i. split; [constructor|done].
  - intros j [->|Hj]%elem_of_cons; apply anchored_more; [done|]. by apply (ca_anchored _ _ Hc).
  - assert (forall j, j ∈ l -> si_scopeId i = si_scopeId j -> si_scopeStateSeq i = si_scopeStateSeq j -> (0 < si_scopeStateSeq i)%Z ->
      (forall k, k ∈ i :: l -> si_scopeId k = si_scopeId i -> (si_scopeStateSeq k <= 9)%Z) -> False) as Hno.
    { intros j Hj Hs He Hpos H9. destruct (si_prevHash i) as [prev|] eqn:Eprev.
      - assert (si_scopeStateSeq j < si_scopeStateSeq i)%Z; [|lia].
        apply (extends_all c l prev (si_scopeStateSeq i) (si_scopeId i)); try done. intros k0 Hk0. apply H9. by constructor.
      - simpl in Hv. destruct (Z.eqb_spec (si_scopeStateSeq i) 0); [lia|done]. }
    intros a b [->|Ha']%elem_of_cons [->|Hb]%elem_of_cons Hs He Hpos H9; [done|by destruct (Hno b)| |].
    + destruct (Hno a Ha'); try done; [lia|]. intros x Hx Hxs. apply H9; [done|congruence].
    + apply (ca_linear _ _ Hc); try done. intros x Hx. apply H9. by constructor.
Qed.

Lemma refs_identify_tail i l : refs_identify (i :: l) -> refs_identify l.
Proof. intros H1 a b Ha Hb. apply H1; by constructor. Qed.

Lemma history_cached c l : history c l -> Forall (fun j => Forall signer_plain (si_signers j)) l -> refs_identify l -> cached c l.
Proof.
  induction 1 as [|now i c c' l Hh IH Hv|now i r c c' l Hh IH Hv Hr|g c l Hh IH]; intros Hp Hid.
  - split; try (by intros ? ?%elem_of_nil). by intros i j ?%elem_of_nil.
  - apply Forall_cons in Hp as [_ Hp]. destruct (state_outcome now i c _ _ Hv) as [[? _]|(_ & -> & Hval & Hm & k & Hr & Hk)]; [done|].
    eapply accepted_cached; try done. apply IH; [done|]. by eapply refs_identify_tail.
  - destruct (state_outcome now i c _ _ Hv) as [[_ ->]|(-> & _)]; [by apply IH|done].
  - destruct (IH Hp Hid) as [A B C D E]. by split.
Qed.

End Accepted.

Lemma dependencies_valid ref grant c : validateEventDependencies ref grant c = Valid <->
  (exists r, r ∈ scope_states c /\ scope_state_ref r = ref) /\
  (exists g rest, ResourceGrantStore.rows_with grant c = g :: rest /\ g_status g = "active").
Proof.
  unfold validateEventDependencies, exists_, ResourceGrantStore.exists_, ResourceGrantStore.isActive.
  destruct (filter _ (scope_states c)) as [|r rows] eqn:Ef; simpl.
  { split; [done|]. intros [(r & Hr & E) _]. exfalso. apply (not_elem_of_nil r). rewrite <- Ef. by apply list_elem_of_filter. }
  assert (exists r, r ∈ scope_states c /\ scope_state_ref r = ref) as Hr.
  { exists r. assert (r ∈ r :: rows) as Hin by constructor. rewrite <- Ef in Hin. by apply list_elem_of_filter in Hin as [? ?]. }
  destruct (ResourceGrantStore.rows_with grant c) as [|g rest]; simpl; [by split; [|intros [_ (? & ? & ? & _)]]|].
  destruct (bool_decide_reflect (g_status g = "active")); simpl; split; try done.
  - intros _. split; [done|]. by exists g, rest.
  - by intros [_ (? & ? & [= <- <-] & ?)].
Qed.

Lemma find_some_of {A} (f : A -> bool) l x : x ∈ l -> f x = true -> exists y, List.find f l = Some y.
Proof.
  intros Hx Hf. destruct (List.find f l) as [y|] eqn:E; [by exists y|]. exfalso.
  apply list_elem_of_In in Hx. by rewrite (List.find_none _ _ E x Hx) in Hf.
Qed.

(** No number below 90 follows 9 as a text. *)
Lemma below_nine k : (0 <= k <= 89)%Z -> String.leb (string_of_Z k) "9" = true.
Proof.
  intros Hk. assert (forallb (fun x => String.leb (string_of_Z x) "9") (Z.of_nat <$> seq 0 90) = true) as Hall by (vm_compute; reflexivity).
  rewrite forallb_forall in Hall. apply Hall, list_elem_of_In, list_elem_of_fmap. exists (Z.to_nat k). split; [lia|].
  apply elem_of_seq. lia.
Qed.

End SharingVerificationLemmas.

(** ** Properties *)

Module SharingVerificationProperties.
Import ScopeStateStore DependencyValidator SignatureVerifier ManifestCodec VerificationPipeline SharingVerificationLemmas.

Section Properties.
Context `{ManifestPlatform}.

(** C25: The cache of scope states can be trusted as long as references identify states.
    After any sequence of verifications and stored grants, every state accepted so far is
    still loaded by its reference as it was accepted; it is a first state, without
    predecessor and signed by an owner it names itself, or the next in number after an
    accepted state of the same scope that it names as its predecessor, and signed by an
    owner named there; so every state is linked to a first one through signatures. While no
    number of the scope is above 9, no two accepted states of a scope share a number above
    0: the chain does not fork. *)
Theorem verified_chain c l : history c l -> Forall (fun j => Forall signer_plain (si_signers j)) l -> refs_identify l ->
  (forall i, i ∈ l -> anchored l i /\ exists now, loadByRef (si_scopeStateRef i) c = Ok (Some (verified_state now i))) /\
  (forall i j, i ∈ l -> j ∈ l -> si_scopeId i = si_scopeId j -> si_scopeStateSeq i = si_scopeStateSeq j ->
    (0 < si_scopeStateSeq i)%Z -> (forall k, k ∈ l -> si_scopeId k = si_scopeId i -> (si_scopeStateSeq k <= 9)%Z) -> i = j).
Proof.
  intros Hh Hp Hid. pose proof (history_cached c l Hh Hp Hid) as Hc. split; [|apply Hc].
  intros i Hi. split; [by apply (ca_anchored _ _ Hc)|]. by eapply accepted_loaded.
Qed.

(** C26: A domain event is verified exactly when it is authorised: the device holds the
    event's grant and the grant is active; the state it refers to was accepted; the author's
    device is a signer of that state, with a signing key under which the signature verifies
    over the event's manifest (all its identifiers, the reference, the associated data and
    the hash of the ciphertext), in the one supported suite, and the manifest has the form
    that [validateDomainEventManifest] asks for; and the signer's user is a member. Nothing
    relates the event's scope to the state's or the grant's. *)
Theorem event_verified_iff c l e : history c l -> Forall (fun j => Forall signer_plain (si_signers j)) l -> refs_identify l ->
  verifyDomainEvent e c = Ok Verified <->
  (exists g rest, ResourceGrantStore.rows_with (ei_grantId e) c = g :: rest /\ g_status g = "active") /\
  (exists i signer k m, i ∈ l /\ si_scopeStateRef i = ei_scopeStateRef e /\
    List.find (fun s => bool_decide (sg_deviceId s = ei_authorDeviceId e)) (si_signers i) = Some signer /\
    sig_key signer = Some k /\ m ∈ si_members i /\ m_userId m = sg_userId signer /\
    verifyEcdsaP256 (cbor_encode (event_value (event_manifest e))) (ei_signature e) k = true) /\
  ei_sigSuite e = "ecdsa-p256" /\ validateDomainEventManifest (event_manifest e) = Ok tt.
Proof.
  intros Hh Hp Hid. pose proof (history_cached c l Hh Hp Hid) as Hc. unfold verifyDomainEvent.
  destruct (validateEventDependencies (ei_scopeStateRef e) (ei_grantId e) c) as [|r d] eqn:Ed.
  - apply dependencies_valid in Ed as [_ Hg]. split.
    + intros Hv. split; [done|]. apply result_bind_ok in Hv as (bytes & Hb & Hv).
      apply result_bind_ok in Hv as ([st|] & Hl & Hv); [|done].
      destruct (loaded_accepted _ _ _ _ Hc Hl) as (now & i & Hi & Href & ->). simpl in Hv.
      rewrite (parse_signers (si_signers i)) in Hv by exact (proj1 (Forall_forall _ _) Hp i Hi). simpl in Hv.
      destruct (List.find _ (si_signers i)) as [s|] eqn:Ef; [|done]. destruct (sig_key s) as [k|] eqn:Ek; [|done].
      apply result_bind_ok in Hv as (v & Hsig & Hv). destruct v; [|done]. apply signature_checked in Hsig as [Hsuite Hsig].
      simpl in Hv. rewrite (parse_members (si_members i)) in Hv. simpl in Hv. destruct (List.find _ (si_members i)) as [m|] eqn:Em; [|done].
      apply find_elem in Em as [Hm Hu%bool_decide_eq_true]. unfold encodeDomainEventManifest in Hb.
      apply result_bind_ok in Hb as ([] & Hman & [= <-]). split; [|done]. exists i, s, k, m. by split_and!.
    + intros (_ & (i & s & k & m & Hi & Href & Hf & Hk & Hm & Hu & Hsig) & Hsuite & Hman).
      unfold encodeDomainEventManifest. rewrite Hman. simpl. destruct (accepted_loaded c l i Hc Hid Hi) as [now Hl].
      rewrite Href in Hl. rewrite Hl. simpl. rewrite (parse_signers (si_signers i)) by exact (proj1 (Forall_forall _ _) Hp i Hi).
      simpl. rewrite Hf, Hk. rewrite (proj2 (signature_checked _ _ _ _) (conj Hsuite Hsig)). simpl.
      rewrite (parse_members (si_members i)). simpl. destruct (find_some_of (fun m => bool_decide (m_userId m = sg_userId s)) (si_members i) m Hm) as [? ->]; [by apply bool_decide_eq_true|done].
  - split; [done|]. intros (Hg & (i & s & k & m & Hi & Href & _) & _). exfalso.
    assert (validateEventDependencies (ei_scopeStateRef e) (ei_grantId e) c = Valid) as E; [|congruence].
    apply dependencies_valid. split; [|done]. destruct (ca_row _ _ Hc i Hi) as [now Hrow]. by exists (to_row (verified_state now i)).
Qed.

(** Forks go unnoticed from number 10 on. The head of a scope is the greatest of the
    numbers as texts; while a scope's numbers lie between 0 and 89 and 9 is one of them, the
    head found is number 9, so that any state of number 10 or more that follows a cached
    state of the scope passes the fork check, also when the cache holds that number already. *)
Theorem forks_accepted_from_ten scope c prev p n :
  (forall r, r ∈ rows_of_scope scope c -> exists k, (0 <= k <= 89)%Z /\ scope_state_seq r = string_of_Z k) ->
  (exists r, r ∈ rows_of_scope scope c /\ scope_state_seq r = "9") ->
  loadByRef prev c = Ok (Some p) -> scopeId p = scope -> n = (scopeStateSeq p + 1)%Z -> (10 <= n)%Z ->
  (exists h, getHead scope c = Ok (Some h) /\ scopeStateSeq h = 9%Z) /\
  validateScopeStatePrevHash (Some prev) n scope c = Ok Valid.
Proof.
  intros Hrange (r9 & H9 & E9) Hl Hs Hn H10.
  assert (exists h, getHead scope c = Ok (Some h) /\ scopeStateSeq h = 9%Z) as (h & Hh & Eh).
  { pose proof (getHead_spec scope c) as Hsp. destruct (rows_of_scope scope c) as [|r0 rows] eqn:Er; [by apply not_elem_of_nil in H9|].
    rewrite <- Er in *. destruct Hsp as (r & Hg & Hin & Hge). specialize (Hge _ H9). unfold text_le in Hge. rewrite E9 in Hge.
    destruct (Hrange r Hin) as (k & Hk & Ek). rewrite Ek in Hge.
    assert (string_of_Z k = "9") as E by (apply String.leb_antisym; [by apply below_nine|done]). rewrite E in Ek.
    rewrite Hg. unfold of_row. rewrite Ek. by eexists. }
  split; [by exists h|]. unfold validateScopeStatePrevHash. destruct (Z.eqb_spec n 0); [lia|]. rewrite Hl. simpl.
  rewrite <- Hn, Z.eqb_refl, bool_decide_true by done. simpl. rewrite Hh. simpl. rewrite Eh.
  by destruct (Z.leb_spec n 9); [lia|].
Qed.

(** A first state replaces whatever the cache holds. A state of number 0 without
    predecessor that is signed with the key it gives its own owner is accepted for any
    scope, under any reference, whatever states of the scope are cached; it is then what the
    reference stands for, and every well-formed event that refers to it, has an active
    grant, and is signed by a device and a member it names is verified. *)
Theorem genesis_replaces_state now i c s k :
  si_scopeStateSeq i = 0%Z -> si_prevHash i = None -> validateScopeStateManifest (state_manifest i) = Ok tt ->
  Forall signer_plain (si_signers i) -> find_owner i (si_signers i) = Some s -> sig_key s = Some k -> signed_by i k ->
  exists c', verifyScopeState now i c = (Ok Verified, c') /\
    loadByRef (si_scopeStateRef i) c' = Ok (Some (verified_state now i)) /\
    forall e signer key m g rest,
      ei_scopeStateRef e = si_scopeStateRef i -> ResourceGrantStore.rows_with (ei_grantId e) c = g :: rest -> g_status g = "active" ->
      List.find (fun s => bool_decide (sg_deviceId s = ei_authorDeviceId e)) (si_signers i) = Some signer -> sig_key signer = Some key ->
      m ∈ si_members i -> m_userId m = sg_userId signer -> validateDomainEventManifest (event_manifest e) = Ok tt ->
      ei_sigSuite e = "ecdsa-p256" -> verifyEcdsaP256 (cbor_encode (event_value (event_manifest e))) (ei_signature e) key = true ->
      verifyDomainEvent e c' = Ok Verified.
Proof.
  intros Hseq Hprev Hman Hp Hf Hk Hsig. exists (store (verified_state now i) c).
  assert (loadByRef (si_scopeStateRef i) (store (verified_state now i) c) = Ok (Some (verified_state now i))) as Hl.
  { rewrite load_insert by (simpl; lia). by rewrite decide_True. }
  split; [|split; [exact Hl|]].
  - unfold verifyScopeState, reads, lift_result, mbind, js_bind. rewrite Hprev, Hseq. simpl.
    unfold encodeScopeStateManifest. rewrite Hman. simpl. unfold resolve_signer. rewrite Hseq. simpl. rewrite Hf, Hk.
    destruct Hsig as [Hsuite Hv]. by rewrite (proj2 (signature_checked _ _ _ _) (conj Hsuite Hv)).
  - intros e signer key m g rest Href Hg Hact Hd Hkey Hm Hu Hem Hsuite Hv. unfold verifyDomainEvent.
    rewrite (proj2 (dependencies_valid _ _ _)).
    + unfold encodeDomainEventManifest. rewrite Hem. simpl. rewrite Href, Hl. simpl. rewrite (parse_signers (si_signers i)) by done.
      simpl. rewrite Hd, Hkey. rewrite (proj2 (signature_checked _ _ _ _) (conj Hsuite Hv)). simpl.
      rewrite (parse_members (si_members i)). simpl. destruct (find_some_of (fun m => bool_decide (m_userId m = sg_userId signer)) (si_members i) m Hm) as [? ->]; [by apply bool_decide_eq_true|done].
    + split; [|by exists g, rest]. exists (to_row (verified_state now i)). split; [|by rewrite Href].
      simpl. apply elem_of_app. right. by apply list_elem_of_singleton.
Qed.

End Properties.
End SharingVerificationProperties.

(** ** Witnesses *)

Module SharingVerificationWitnesses.
Import ScopeStateStore DependencyValidator SignatureVerifier ManifestCodec VerificationPipeline SharingVerificationLemmas.
Import SharingVerificationProperties.

(** A platform whose signatures all verify. *)
#[local] Instance toy_platform : ManifestPlatform := {
  cbor_encode _ := [];
  sha256 _ := replicate 32 0%Z;
  sha256_length _ := eq_refl;
  ecdsa_verify _ _ _ := Ok true
}.

Definition t0 : number := num 0.
Definition a_ref (n : Z) : list Z := replicate 32 n.
Definition alice : ScopeMember := Member "alice" "owner".
Definition phone : ScopeSigner := Signer "phone" "alice" "ecdsa-p256" [("sig", [1%Z; 2%Z])].
(** The state of number [n] of the scope ["scope"]. *)
Definition state_no (n : Z) : VerifyScopeStateInput :=
  StateInput (a_ref n) "scope" n (if (n =? 0)%Z then None else Some (a_ref (n - 1))) "alice" 0 [alice] [phone] "ecdsa-p256" [].
Definition accept (c : sharing_cache) (i : VerifyScopeStateInput) : sharing_cache := (verifyScopeState t0 i c).2.
Definition chain (n : nat) : sharing_cache := fold_left accept (map (fun k => state_no (Z.of_nat k)) (seq 0 (S n))) empty_cache.
Definition a_grant : VerifiedResourceGrant := Grant "grant" "scope" "goal" "key" [1%Z] (a_ref 0) "active" t0.
Definition an_event : VerifyDomainEventInput :=
  EventInput "event" "Goal" "goal" 1 "scope" "goal" "key" "grant" (a_ref 1) "phone" [7%Z] "ecdsa-p256" [].

Lemma phone_plain : signer_plain phone.
Proof. split; [by apply NoDup_singleton|]. repeat constructor; simpl; lia. Qed.

Lemma states_plain ns : Forall (fun j => Forall signer_plain (si_signers j)) (map state_no ns).
Proof. apply List.Forall_map, Forall_forall. intros n _. apply Forall_singleton, phone_plain. Qed.

Definition verified (i : VerifyScopeStateInput) (c : sharing_cache) : bool :=
  match (verifyScopeState t0 i c).1 with Ok Verified => true | _ => false end.

Lemma accept_history c l i : history c l -> verified i c = true -> history (accept c i) (i :: l).
Proof.
  intros Hh Hv. apply (state_accepted t0 i c); [done|]. unfold verified, accept in *.
  destruct (verifyScopeState t0 i c) as [[[]|e] c']; [|by simpl in Hv..]. done.
Qed.

Lemma two_states : history (chain 1) [state_no 1; state_no 0].
Proof.
  change (chain 1) with (accept (accept empty_cache (state_no 0)) (state_no 1)).
  apply accept_history; [apply accept_history; [constructor|]|]; vm_compute; reflexivity.
Qed.

Lemma granted_states : history (ResourceGrantStore.store a_grant (chain 1)) [state_no 1; state_no 0].
Proof. apply grant_stored, two_states. Qed.

Lemma two_refs : refs_identify [state_no 1; state_no 0].
Proof. intros i j Hi Hj. set_unfold in Hi. set_unfold in Hj. destruct Hi as [->|[->|[]]], Hj as [->|[->|[]]]; vm_compute; congruence. Qed.

(** The numbers a list of rows shows. *)
Lemma rows_numbered rows :
  forallb (fun r => existsb (fun k => String.eqb (scope_state_seq r) (string_of_Z (Z.of_nat k))) (seq 0 90)) rows = true ->
  forall r, r ∈ rows -> exists k, (0 <= k <= 89)%Z /\ scope_state_seq r = string_of_Z k.
Proof.
  intros Hall r Hr. rewrite forallb_forall in Hall. specialize (Hall r (proj1 (list_elem_of_In _ _) Hr)).
  apply existsb_exists in Hall as (k & Hk%list_elem_of_In%elem_of_seq & E%String.eqb_eq). exists (Z.of_nat k). split; [lia|done].
Qed.

Lemma verified_chain_witness :
  anchored [state_no 1; state_no 0] (state_no 1) /\
  exists now, loadByRef (a_ref 1) (ResourceGrantStore.store a_grant (chain 1)) = Ok (Some (verified_state now (state_no 1))).
Proof. apply (verified_chain _ _ granted_states (states_plain [1; 0]%Z) two_refs). constructor. Defined.

Lemma event_verified_iff_witness :
  verifyDomainEvent an_event (ResourceGrantStore.store a_grant (chain 1)) = Ok Verified.
Proof.
  apply (event_verified_iff _ _ an_event granted_states (states_plain [1; 0]%Z) two_refs).
  split; [exists a_grant, []; split; reflexivity|]. split; [|split; reflexivity].
  exists (state_no 1), phone, [1%Z; 2%Z], alice. split_and!; try reflexivity; constructor.
Defined.

(** The chain 0, ..., 10, and a second number 10. *)
Lemma forks_accepted_from_ten_witness :
  validateScopeStatePrevHash (Some (a_ref 9)) 10 "scope" (chain 10) = Ok Valid.
Proof.
  apply (forks_accepted_from_ten "scope" (chain 10) (a_ref 9) (verified_state t0 (state_no 9)) 10).
  - apply rows_numbered. vm_compute. reflexivity.
  - exists (to_row (verified_state t0 (state_no 9))). split; [|reflexivity].
    apply list_elem_of_In. vm_compute. tauto.
  - vm_compute. reflexivity.
  - reflexivity.
  - reflexivity.
  - lia.
Defined.

(** Another first state takes over the reference of number 1. *)
Definition usurper : VerifyScopeStateInput :=
  StateInput (a_ref 1) "scope" 0 None "mallory" 0 [Member "mallory" "owner"]
    [Signer "phone" "mallory" "ecdsa-p256" [("sig", [6%Z])]] "ecdsa-p256" [].

Lemma genesis_replaces_state_witness : exists c',
  verifyScopeState t0 usurper (ResourceGrantStore.store a_grant (chain 1)) = (Ok Verified, c') /\
  verifyDomainEvent an_event c' = Ok Verified.
Proof.
  destruct (genesis_replaces_state t0 usurper (ResourceGrantStore.store a_grant (chain 1))
    (Signer "phone" "mallory" "ecdsa-p256" [("sig", [6%Z])]) [6%Z]) as (c' & H1 & _ & H2).
  1-3: reflexivity.
  - apply Forall_singleton. split; [by apply NoDup_singleton|]. repeat constructor; simpl; lia.
  - reflexivity.
  - reflexivity.
  - split; reflexivity.
  - exists c'. split; [exact H1|].
    apply (H2 an_event (Signer "phone" "mallory" "ecdsa-p256" [("sig", [6%Z])]) [6%Z] (Member "mallory" "owner") a_grant []);
      try reflexivity. constructor.
Defined.

End SharingVerificationWitnesses.
