(* ===== verification/SharingServer.v ===== *)
(** * The sharing backend

    [apps/api/src/sharing]: the tables ([infrastructure/migrations]), the
    repositories ([infrastructure/kysely-*.repository.ts]), the services
    ([application/*.service.ts]) and the controllers
    ([presentation/controllers]), which publish three append-only streams (the
    states of a scope, its grants, a user's key vault) and the envelopes of
    scope keys.

    PostgreSQL's conversions are the class [Postgres].  A transaction of the
    repositories reads and checks first and writes last; [Interleaved] runs
    those two halves of any number of transactions in any order. *)

From Stdlib Require Import Ascii.
From S2P Require Import Prelude JsValues JsonText Base64Url ValueObjects Sharing SyncServer.

(** ** The database *)

Class Postgres : Type := {
  (** A text as a [uuid], in the canonical text the driver returns. *)
  uuid_in : string -> option string;
  uuid_in_canonical s u : uuid_in s = Some u -> uuid_in u = Some u;
  uuid_in_text s u : uuid_in s = Some u -> (strlen (trim s) =? 0)%Z = false;
  (** JSON text as a [jsonb]: refused for some values (a NUL in a string),
      with an object's keys in an order of its own. *)
  jsonb_in : json -> option json;
  jsonb_in_text v s : jsonb_in v = Some (JStr s) -> v = JStr s
}.

Notation sh_result := (result server_error).

(** [bigint] *)
Definition bigint_in (z : Z) : sh_result Z :=
  if ((- 2 ^ 63 <=? z) && (z <? 2 ^ 63))%Z then Ok z
  else Err (ServerError "value is out of range for type bigint").
Definition duplicate_key : server_error := ServerError "duplicate key value violates unique constraint".

Section Columns.
Context `{Postgres}.
Definition uuid_column (s : string) : sh_result string :=
  match uuid_in s with Some u => Ok u | None => Err (ServerError "invalid input syntax for type uuid") end.
Definition jsonb_column (v : json) : sh_result json :=
  match jsonb_in v with Some j => Ok j | None => Err (ServerError "invalid input syntax for type json") end.
End Columns.

(** [Boolean(v)] *)
Definition json_truthy (v : json) : bool :=
  match v with
  | JNull => false
  | JBool b => b
  | JNum n => negb (num_eq n (num 0)) && num_eq n n
  | JStr s => negb (bool_decide (s = ""))
  | JArr _ | JObj _ => true
  end.

(** ** Value objects *)

Definition EnvelopeId_from (s : string) := non_blank "EnvelopeId" s.
Definition UserId_from (s : string) := non_blank "UserId" s.

Definition SequenceNumber_from (value : Z) : sh_result Z :=
  if (value <? 0)%Z then Err (ServerError "SequenceNumber must be non-negative") else Ok value.

(** ** Tables *)

(** [created_at] in milliseconds; [updated_at] and the [created_at] of a head,
    which nothing reads, are left out. *)
Record StateRow : Type := State {
  st_scope : string;
  scope_state_seq : Z;
  st_prev_hash : option (list Z);
  scope_state_ref : list Z;
  st_owner : string;
  st_epoch : Z;
  signed_record_cbor : list Z;
  members : json;
  signers : json;
  st_sig_suite : string;
  st_signature : list Z;
  st_created : Z
}.
Record StateHead : Type := Head {
  head_owner : string;
  head_seq : Z;
  head_ref : option (list Z)
}.
Record GrantRow : Type := Grant {
  grant_id : string;
  gr_scope : string;
  resource_id : string;
  grant_seq : Z;
  gr_prev_hash : option (list Z);
  grant_hash : list Z;
  gr_state_ref : list Z;
  gr_epoch : Z;
  resource_key_id : string;
  wrapped_key : list Z;
  policy : json;
  status : string;
  signed_grant_cbor : list Z;
  gr_sig_suite : string;
  gr_signature : list Z;
  gr_created : Z
}.
Record GrantHead : Type := ActiveHead {
  active_grant_id : string;
  gh_seq : Z;
  gh_hash : list Z
}.
Record EnvelopeRow : Type := Envelope {
  envelope_id : string;
  env_scope : string;
  recipient : string;
  env_epoch : Z;
  fingerprint : list Z;
  ciphersuite : string;
  env_ciphertext : list Z;
  env_metadata : json;
  env_created : Z
}.
Record VaultRow : Type := VaultRecord {
  va_user : string;
  record_seq : Z;
  va_prev_hash : option (list Z);
  record_hash : list Z;
  va_ciphertext : list Z;
  va_metadata : json;
  va_created : Z
}.
Record VaultHead : Type := VaultHeadRow {
  vh_seq : Z;
  vh_hash : option (list Z)
}.

Record sharing_db : Type := Db {
  scope_states : list StateRow;
  scope_state_heads : gmap string StateHead;
  resource_grants : list GrantRow;
  resource_grant_heads : gmap (string * string) GrantHead;
  key_envelopes : list EnvelopeRow;
  keyvault_records : list VaultRow;
  keyvault_heads : gmap string VaultHead
}.
Definition empty_db : sharing_db := Db [] ∅ [] ∅ [] [] ∅.

Notation sh := (js sharing_db server_error).

Definition set_states (l : list StateRow) (hs : gmap string StateHead) (d : sharing_db) : sharing_db :=
  Db l hs (resource_grants d) (resource_grant_heads d) (key_envelopes d) (keyvault_records d) (keyvault_heads d).
Definition set_grants (l : list GrantRow) (hs : gmap (string * string) GrantHead) (d : sharing_db) : sharing_db :=
  Db (scope_states d) (scope_state_heads d) l hs (key_envelopes d) (keyvault_records d) (keyvault_heads d).
Definition set_envelopes (l : list EnvelopeRow) (d : sharing_db) : sharing_db :=
  Db (scope_states d) (scope_state_heads d) (resource_grants d) (resource_grant_heads d) l (keyvault_records d) (keyvault_heads d).
Definition set_vault (l : list VaultRow) (hs : gmap string VaultHead) (d : sharing_db) : sharing_db :=
  Db (scope_states d) (scope_state_heads d) (resource_grants d) (resource_grant_heads d) (key_envelopes d) l hs.

(** [WHERE seq > since ORDER BY seq ASC LIMIT limit] *)
Fixpoint insert_by {A} (key : A -> Z) (x : A) (l : list A) : list A :=
  match l with
  | [] => [x]
  | y :: l' => if (key x <=? key y)%Z then x :: y :: l' else y :: insert_by key x l'
  end.
Definition order_by {A} (key : A -> Z) (l : list A) : list A := fold_right (insert_by key) [] l.
Definition page_since {A} (key : A -> Z) (since limit : Z) (l : list A) : list A :=
  take (Z.to_nat limit) (order_by key (filter (fun r => (since <? key r)%Z = true) l)).

(** A [jsonb] column as the driver gives it, and a text parsed once more. *)
Definition json_again (v : json) : sh_result json :=
  match v with
  | JStr s => match JSON_parse s with Some w => Ok w | None => Err (ServerError "Unexpected token in JSON") end
  | _ => Ok v
  end.

(** The rows of a scope's, a user's stream. *)
Definition states_of (scope : string) (d : sharing_db) : list StateRow := filter (fun r => st_scope r = scope) (scope_states d).
Definition grants_of (scope : string) (d : sharing_db) : list GrantRow := filter (fun r => gr_scope r = scope) (resource_grants d).
Definition records_of (user : string) (d : sharing_db) : list VaultRow := filter (fun r => va_user r = user) (keyvault_records d).

(** [SequenceNumber.from(row.seq)], or zero without a row. *)
Definition head_or_zero (seq : option Z) : sh_result Z :=
  match seq with Some n => SequenceNumber_from n | None => Ok 0%Z end.

(** ** [KyselyScopeStateRepository] *)

Record ScopeStateInput : Type := StateInput {
  in_prevHash : option (list Z);
  in_stateRef : list Z;
  in_owner : string;
  in_epoch : Z;
  in_cbor : list Z;
  in_members : json;
  in_signers : json;
  in_sigSuite : string;
  in_signature : list Z
}.

Module KyselyScopeStateRepository.
Section Repository.
Context `{Postgres}.
(** [now()] *)
Variable now : Z.

Definition getHeadSeq (scope : string) : sh Z := reads (fun d => head_or_zero (head_seq <$> scope_state_heads d !! scope)).
Definition getHeadRef (scope : string) : sh (option (list Z)) := gets (fun d => scope_state_heads d !! scope ≫= head_ref).

(** Step 3 of [appendState]. *)
Definition check_chain (expectedHead : Z) (headRow : option StateHead) (prevHash : option (list Z)) : sh_result unit :=
  if (0 <? expectedHead)%Z then
    match prevHash with
    | None => Err (ServerError "prevHash required for non-genesis append")
    | Some prev =>
        match headRow ≫= head_ref with
        | None => Err (ServerError "head_ref missing for non-genesis scope")
        | Some h =>
            if bool_decide (h = prev) then Ok tt
            else Err (ServerError "prevHash does not match current head_ref (hash-chain violation)")
        end
    end
  else
    match prevHash with
    | None => Ok tt
    | Some _ => Err (ServerError "prevHash must be null for genesis append")
    end.

(** Steps 1 to 3: the number of the new state. *)
Definition check_state (scope : string) (expectedHead : Z) (state : ScopeStateInput) : sh Z :=
  gets (fun d => scope_state_heads d !! scope) ≫= fun headRow : option StateHead =>
  currentHead ← lift_result (head_or_zero (head_seq <$> headRow));
  if negb (currentHead =? expectedHead)%Z then throw (HeadMismatch currentHead expectedHead)
  else
    _ ← lift_result (check_chain expectedHead headRow (in_prevHash state));
    mret (currentHead + 1)%Z.

Definition state_row (scope : string) (nextSeq : Z) (state : ScopeStateInput) : sh_result StateRow :=
  seq ← bigint_in nextSeq;
  owner ← uuid_column (in_owner state);
  epoch ← bigint_in (in_epoch state);
  ms ← jsonb_column (in_members state);
  ss ← jsonb_column (in_signers state);
  mret (State scope seq (in_prevHash state) (in_stateRef state) owner epoch (in_cbor state) ms ss
    (in_sigSuite state) (in_signature state) now).

(** The unique index on (scope, seq). *)
Definition insert_state (row : StateRow) : sh unit :=
  gets (fun d => existsb (fun r => (scope_state_seq r =? scope_state_seq row)%Z) (states_of (st_scope row) d)) ≫= fun clash : bool =>
  if clash then throw duplicate_key
  else modify (fun d => set_states (scope_states d ++ [row]) (scope_state_heads d) d).

Definition upsert_head (row : StateRow) (d : sharing_db) : sharing_db :=
  set_states (scope_states d)
    (<[st_scope row := Head
        (match scope_state_heads d !! st_scope row with Some h => head_owner h | None => st_owner row end)
        (scope_state_seq row) (Some (scope_state_ref row))]> (scope_state_heads d)) d.

(** Steps 4 and 5. *)
Definition write_state (scope : string) (state : ScopeStateInput) (nextSeq : Z) : sh (Z * list Z) :=
  row ← lift_result (state_row scope nextSeq state);
  _ ← insert_state row;
  _ ← modify (upsert_head row);
  seq ← lift_result (SequenceNumber_from (scope_state_seq row));
  mret (seq, scope_state_ref row).

Definition appendState (scope : string) (expectedHead : Z) (state : ScopeStateInput) : sh (Z * list Z) :=
  transaction (check_state scope expectedHead state ≫= write_state scope state).

Definition mapRowToEntity (row : StateRow) : sh_result StateRow :=
  scope ← SharedScopeId_from (st_scope row);
  seq ← SequenceNumber_from (scope_state_seq row);
  owner ← UserId_from (st_owner row);
  ms ← json_again (members row);
  ss ← json_again (signers row);
  mret (State scope seq (st_prev_hash row) (scope_state_ref row) owner (st_epoch row) (signed_record_cbor row) ms ss
    (st_sig_suite row) (st_signature row) (st_created row)).

Definition loadSince (scope : string) (since limit : Z) : sh (list StateRow) :=
  reads (fun d =>
    since ← bigint_in since;
    mapM mapRowToEntity (page_since scope_state_seq since limit (states_of scope d))).

Definition loadByRef (ref : list Z) : sh (option StateRow) :=
  reads (fun d =>
    match filter (fun r => scope_state_ref r = ref) (scope_states d) with
    | [] => Ok None
    | row :: _ => Some <$> mapRowToEntity row
    end).

End Repository.
End KyselyScopeStateRepository.

(** ** [KyselyResourceGrantRepository] *)

Record ResourceGrantInput : Type := GrantInput {
  gi_grantId : string;
  gi_resourceId : string;
  gi_prevHash : option (list Z);
  gi_grantHash : list Z;
  gi_scopeStateRef : list Z;
  gi_scopeEpoch : Z;
  gi_resourceKeyId : string;
  gi_wrappedKey : list Z;
  gi_policy : json;
  gi_status : string;
  gi_cbor : list Z;
  gi_sigSuite : string;
  gi_signature : list Z
}.

Module KyselyResourceGrantRepository.
Section Repository.
Context `{Postgres}.
Variable now : Z.

(** [MAX(grant_seq)]: null without a row. *)
Definition max_seq (l : list GrantRow) : option Z :=
  foldr (fun r m => Some (match m with Some n => Z.max (grant_seq r) n | None => grant_seq r end)) None l.

Definition getHeadSeq (scope : string) : sh Z := reads (fun d => head_or_zero (max_seq (grants_of scope d))).

(** Step 3 of [appendGrant]. *)
Definition check_chain (scope : string) (expectedHead : Z) (prevHash : option (list Z)) (d : sharing_db) : sh_result unit :=
  if (0 <? expectedHead)%Z then
    match prevHash with
    | None => Err (ServerError "prevHash required for non-genesis append")
    | Some prev =>
        seq ← bigint_in expectedHead;
        match List.find (fun r => (grant_seq r =? seq)%Z) (grants_of scope d) with
        | None => Err (ServerError ("Previous grant at seq " +:+ string_of_Z expectedHead +:+ " not found"))
        | Some r =>
            if bool_decide (grant_hash r = prev) then Ok tt
            else Err (ServerError "prevHash does not match previous grant_hash (hash-chain violation)")
        end
    end
  else
    match prevHash with
    | None => Ok tt
    | Some _ => Err (ServerError "prevHash must be null for genesis append")
    end.

(** [SELECT MAX(grant_seq) .. FOR UPDATE]: PostgreSQL refuses the query when it
    is analysed, whatever the table holds ("FOR UPDATE is not allowed with
    aggregate functions", documented with the locking clause of SELECT). *)
Definition aggregate_lock : server_error := ServerError "FOR UPDATE is not allowed with aggregate functions".
Definition lock_head (scope : string) : sh (option Z) := throw aggregate_lock.

(** Steps 1 to 3. *)
Definition check_grant (scope : string) (expectedHead : Z) (grant : ResourceGrantInput) : sh Z :=
  lock_head scope ≫= fun currentMaxRow : option Z =>
  currentHead ← lift_result (head_or_zero currentMaxRow);
  if negb (currentHead =? expectedHead)%Z then throw (HeadMismatch currentHead expectedHead)
  else
    _ ← reads (check_chain scope expectedHead (gi_prevHash grant));
    mret (currentHead + 1)%Z.

Definition grant_row (scope : string) (nextSeq : Z) (g : ResourceGrantInput) : sh_result GrantRow :=
  seq ← bigint_in nextSeq;
  epoch ← bigint_in (gi_scopeEpoch g);
  p ← if json_truthy (gi_policy g) then jsonb_column (gi_policy g) else Ok JNull;
  mret (Grant (gi_grantId g) scope (gi_resourceId g) seq (gi_prevHash g) (gi_grantHash g) (gi_scopeStateRef g) epoch
    (gi_resourceKeyId g) (gi_wrappedKey g) p (gi_status g) (gi_cbor g) (gi_sigSuite g) (gi_signature g) now).

(** The unique indexes on (scope, seq) and on the grant's identifier. *)
Definition insert_grant (row : GrantRow) : sh unit :=
  gets (fun d => existsb (fun r => (grant_seq r =? grant_seq row)%Z) (grants_of (gr_scope row) d) ||
                 existsb (fun r => bool_decide (grant_id r = grant_id row)) (resource_grants d)) ≫= fun clash : bool =>
  if clash then throw duplicate_key
  else modify (fun d => set_grants (resource_grants d ++ [row]) (resource_grant_heads d) d).

Definition upsert_head (row : GrantRow) (d : sharing_db) : sharing_db :=
  set_grants (resource_grants d)
    (<[(gr_scope row, resource_id row) := ActiveHead (grant_id row) (grant_seq row) (grant_hash row)]> (resource_grant_heads d)) d.

(** Steps 4 and 5: only an active grant becomes the head of its resource. *)
Definition write_grant (scope : string) (g : ResourceGrantInput) (nextSeq : Z) : sh (Z * list Z) :=
  row ← lift_result (grant_row scope nextSeq g);
  _ ← insert_grant row;
  _ ← (if bool_decide (gi_status g = "active") then modify (upsert_head row) else skip);
  seq ← lift_result (SequenceNumber_from (grant_seq row));
  mret (seq, grant_hash row).

Definition appendGrant (scope : string) (expectedHead : Z) (g : ResourceGrantInput) : sh (Z * list Z) :=
  transaction (check_grant scope expectedHead g ≫= write_grant scope g).

Definition mapRowToEntity (row : GrantRow) : sh_result GrantRow :=
  gid ← SharedGrantId_from (grant_id row);
  scope ← SharedScopeId_from (gr_scope row);
  rid ← SharedResourceId_from (resource_id row);
  seq ← SequenceNumber_from (grant_seq row);
  p ← json_again (policy row);
  mret (Grant gid scope rid seq (gr_prev_hash row) (grant_hash row) (gr_state_ref row) (gr_epoch row) (resource_key_id row)
    (wrapped_key row) p (status row) (signed_grant_cbor row) (gr_sig_suite row) (gr_signature row) (gr_created row)).

Definition loadSince (scope : string) (since limit : Z) : sh (list GrantRow) :=
  reads (fun d =>
    since ← bigint_in since;
    mapM mapRowToEntity (page_since grant_seq since limit (grants_of scope d))).

Definition with_id (gid : string) (d : sharing_db) : sh_result (option GrantRow) :=
  match filter (fun r => grant_id r = gid) (resource_grants d) with
  | [] => Ok None
  | row :: _ => Some <$> mapRowToEntity row
  end.
Definition loadByGrantId (gid : string) : sh (option GrantRow) := reads (with_id gid).

Definition getActiveGrant (scope resource : string) : sh (option GrantRow) :=
  gets (fun d => resource_grant_heads d !! (scope, resource)) ≫= fun headRow : option GrantHead =>
  match headRow with
  | None => mret None
  | Some h => reads (with_id (active_grant_id h))
  end.

End Repository.
End KyselyResourceGrantRepository.

(** ** [KyselyKeyVaultRepository] *)

Record KeyVaultRecordInput : Type := VaultInput {
  vi_prevHash : option (list Z);
  vi_recordHash : list Z;
  vi_ciphertext : list Z;
  vi_metadata : json
}.

Module KyselyKeyVaultRepository.
Section Repository.
Context `{Postgres}.
Variable now : Z.

(** [WHERE user_id = $1] on a uuid column. *)
Definition head_row (user : string) (d : sharing_db) : sh_result (option VaultHead) :=
  u ← uuid_column user; mret (keyvault_heads d !! u).
Definition getHeadSeq (user : string) : sh Z := reads (fun d => r ← head_row user d; head_or_zero (vh_seq <$> r)).
Definition getHeadHash (user : string) : sh (option (list Z)) := reads (fun d => r ← head_row user d; mret (r ≫= vh_hash)).

Definition check_chain (expectedHead : Z) (headRow : option VaultHead) (prevHash : option (list Z)) : sh_result unit :=
  if (0 <? expectedHead)%Z then
    match prevHash with
    | None => Err (ServerError "prevHash required for non-genesis append")
    | Some prev =>
        match headRow ≫= vh_hash with
        | None => Err (ServerError "head_hash missing for non-genesis KeyVault")
        | Some h =>
            if bool_decide (h = prev) then Ok tt
            else Err (ServerError "prevHash does not match current head_hash (hash-chain violation)")
        end
    end
  else
    match prevHash with
    | None => Ok tt
    | Some _ => Err (ServerError "prevHash must be null for genesis append")
    end.

Definition check_record (user : string) (expectedHead : Z) (record : KeyVaultRecordInput) : sh Z :=
  reads (head_row user) ≫= fun headRow : option VaultHead =>
  currentHead ← lift_result (head_or_zero (vh_seq <$> headRow));
  if negb (currentHead =? expectedHead)%Z then throw (HeadMismatch currentHead expectedHead)
  else
    _ ← lift_result (check_chain expectedHead headRow (vi_prevHash record));
    mret (currentHead + 1)%Z.

Definition record_row (user : string) (nextSeq : Z) (r : KeyVaultRecordInput) : sh_result VaultRow :=
  u ← uuid_column user;
  seq ← bigint_in nextSeq;
  meta ← if json_truthy (vi_metadata r) then jsonb_column (vi_metadata r) else Ok JNull;
  mret (VaultRecord u seq (vi_prevHash r) (vi_recordHash r) (vi_ciphertext r) meta now).

Definition insert_record (row : VaultRow) : sh unit :=
  gets (fun d => existsb (fun r => (record_seq r =? record_seq row)%Z) (records_of (va_user row) d)) ≫= fun clash : bool =>
  if clash then throw duplicate_key
  else modify (fun d => set_vault (keyvault_records d ++ [row]) (keyvault_heads d) d).

Definition upsert_head (row : VaultRow) (d : sharing_db) : sharing_db :=
  set_vault (keyvault_records d)
    (<[va_user row := VaultHeadRow (record_seq row) (Some (record_hash row))]> (keyvault_heads d)) d.

Definition write_record (user : string) (r : KeyVaultRecordInput) (nextSeq : Z) : sh (Z * list Z) :=
  row ← lift_result (record_row user nextSeq r);
  _ ← insert_record row;
  _ ← modify (upsert_head row);
  seq ← lift_result (SequenceNumber_from (record_seq row));
  mret (seq, record_hash row).

Definition appendRecord (user : string) (expectedHead : Z) (r : KeyVaultRecordInput) : sh (Z * list Z) :=
  transaction (check_record user expectedHead r ≫= write_record user r).

Definition mapRowToEntity (row : VaultRow) : sh_result VaultRow :=
  seq ← SequenceNumber_from (record_seq row);
  meta ← json_again (va_metadata row);
  mret (VaultRecord (va_user row) seq (va_prev_hash row) (record_hash row) (va_ciphertext row) meta (va_created row)).

Definition loadSince (user : string) (since limit : Z) : sh (list VaultRow) :=
  reads (fun d =>
    u ← uuid_column user;
    since ← bigint_in since;
    mapM mapRowToEntity (page_since record_seq since limit (records_of u d))).

End Repository.
End KyselyKeyVaultRepository.

(** ** [KyselyKeyEnvelopeRepository] *)

Record KeyEnvelopeInput : Type := EnvelopeInput {
  ei_envelopeId : string;
  ei_scopeId : string;
  ei_recipientUserId : string;
  ei_scopeEpoch : Z;
  ei_fingerprint : list Z;
  ei_ciphersuite : string;
  ei_ciphertext : list Z;
  ei_metadata : json
}.

Module KyselyKeyEnvelopeRepository.
Section Repository.
Context `{Postgres}.
Variable now : Z.

Definition envelope_row (e : KeyEnvelopeInput) : sh_result EnvelopeRow :=
  u ← uuid_column (ei_recipientUserId e);
  epoch ← bigint_in (ei_scopeEpoch e);
  meta ← if json_truthy (ei_metadata e) then jsonb_column (ei_metadata e) else Ok JNull;
  mret (Envelope (ei_envelopeId e) (ei_scopeId e) u epoch (ei_fingerprint e) (ei_ciphersuite e) (ei_ciphertext e) meta now).

(** The row that an envelope clashes with on the index (scope, recipient,
    epoch), or on its identifier. *)
Definition same_place (row r : EnvelopeRow) : bool :=
  bool_decide (env_scope r = env_scope row) && bool_decide (recipient r = recipient row) && (env_epoch r =? env_epoch row)%Z.
Definition clashes (row r : EnvelopeRow) : bool := same_place row r || bool_decide (envelope_id r = envelope_id row).

Definition createEnvelope (e : KeyEnvelopeInput) : sh unit :=
  row ← lift_result (envelope_row e);
  gets (fun d => existsb (clashes row) (key_envelopes d)) ≫= fun clash : bool =>
  if clash then throw duplicate_key
  else modify (fun d => set_envelopes (key_envelopes d ++ [row]) d).

Definition mapRowToEntity (row : EnvelopeRow) : sh_result EnvelopeRow :=
  eid ← EnvelopeId_from (envelope_id row);
  scope ← SharedScopeId_from (env_scope row);
  u ← UserId_from (recipient row);
  meta ← json_again (env_metadata row);
  mret (Envelope eid scope u (env_epoch row) (fingerprint row) (ciphersuite row) (env_ciphertext row) meta (env_created row)).

Definition envelopes_for (scope user : string) (epoch : option Z) (d : sharing_db) : list EnvelopeRow :=
  order_by env_epoch (filter (fun r =>
    bool_decide (env_scope r = scope) && bool_decide (recipient r = user) &&
    match epoch with Some n => (env_epoch r =? n)%Z | None => true end = true) (key_envelopes d)).

Definition getEnvelopes (scope user : string) (epoch : option Z) : sh (list EnvelopeRow) :=
  reads (fun d =>
    u ← uuid_column user;
    n ← match epoch with Some n => Some <$> bigint_in n | None => Ok None end;
    mapM mapRowToEntity (envelopes_for scope u n d)).

End Repository.
End KyselyKeyEnvelopeRepository.

(** ** Services *)

(** A page, whether there may be more, and where the next one starts. *)
Record stream_page (A : Type) : Type := Page {
  page_rows : list A;
  page_hasMore : bool;
  page_nextSince : option Z
}.
Arguments Page {A} _ _ _.
Arguments page_rows {A} _.
Arguments page_hasMore {A} _.
Arguments page_nextSince {A} _.

(** The tail that the three streams share: [rows[rows.length - 1].seq] throws
    on an empty page. *)
Definition page_of {A} (key : A -> Z) (limit : Z) (rows : list A) : sh_result (stream_page A) :=
  let hasMore := (Z.of_nat (length rows) =? limit)%Z in
  if hasMore then
    match last rows with
    | Some r => Ok (Page rows hasMore (Some (key r)))
    | None => Err (ServerError "Cannot read properties of undefined")
    end
  else Ok (Page rows hasMore None).

Section Services.
Context `{Postgres}.

(** [ScopeService.getMembershipStream] *)
Definition getMembershipStream (scope : string) (since limit : Z) : sh (stream_page StateRow) :=
  states ← KyselyScopeStateRepository.loadSince scope since limit;
  lift_result (page_of scope_state_seq limit states).

(** [GrantService.getGrantStream] *)
Definition getGrantStream (scope : string) (since limit : Z) : sh (stream_page GrantRow) :=
  grants ← KyselyResourceGrantRepository.loadSince scope since limit;
  lift_result (page_of grant_seq limit grants).

(** [KeyVaultService.getUpdateStream] *)
Definition getUpdateStream (user : string) (since limit : Z) : sh (stream_page VaultRow * Z) :=
  records ← KyselyKeyVaultRepository.loadSince user since limit;
  page ← lift_result (page_of record_seq limit records);
  head ← KyselyKeyVaultRepository.getHeadSeq user;
  mret (page, head).

(** *** Controllers *)

(** [PullMembershipDto], [PullGrantsDto], [PullKeyVaultDto] *)
Definition page_dto_ok (since limit : option Z) : bool :=
  match since with Some n => (0 <=? n)%Z | None => true end &&
  match limit with Some n => ((1 <=? n) && (n <=? 500))%Z | None => true end.
Definition bad_request {A} (message : string) : sh A := throw (ServerError message).
Definition authenticated {A} (identity : option string) (f : string -> sh A) : sh A :=
  match identity with Some i => f i | None => bad_request "Authenticated identity missing" end.

Definition getMembership (scopeIdParam : string) (since limit : option Z) (identity : option string) : sh (stream_page StateRow) :=
  if negb (page_dto_ok since limit) then bad_request "Bad Request"
  else authenticated identity (fun _ =>
    scope ← lift_result (SharedScopeId_from scopeIdParam);
    from ← lift_result (SequenceNumber_from (default 0%Z since));
    getMembershipStream scope from (default 100%Z limit)).

Definition getGrants (scopeIdParam : string) (since limit : option Z) (identity : option string) : sh (stream_page GrantRow) :=
  if negb (page_dto_ok since limit) then bad_request "Bad Request"
  else authenticated identity (fun _ =>
    scope ← lift_result (SharedScopeId_from scopeIdParam);
    from ← lift_result (SequenceNumber_from (default 0%Z since));
    getGrantStream scope from (default 100%Z limit)).

Definition getUpdates (since limit : option Z) (identity : option string) : sh (stream_page VaultRow * Z) :=
  if negb (page_dto_ok since limit) then bad_request "Bad Request"
  else authenticated identity (fun i =>
    from ← lift_result (SequenceNumber_from (default 0%Z since));
    getUpdateStream i from (default 100%Z limit)).

(** *** Invitations *)

Record CreateInviteDto : Type := InviteDto {
  d_recipientUserId : string;
  d_scopeEpoch : string;
  d_recipientUkPubFingerprint : string;
  d_ciphersuite : string;
  d_ciphertext : string;
  d_metadata : option string
}.

Definition not_empty (s : string) : bool := negb (bool_decide (s = "")).
Definition max_length (n : Z) (s : string) : bool := (strlen s <=? n)%Z.
(** [^[A-Za-z0-9+/]+=*$] *)
Fixpoint base64_text (seen : bool) (l : list ascii) : bool :=
  match l with
  | [] => seen
  | c :: l' => match base64_value c with Some _ => base64_text true l' | None => seen && forallb (is_char "=") l end
  end.
(** [IsJSON]: the text of an object or an array. *)
Definition is_json (s : string) : bool :=
  match JSON_parse s with Some (JObj _) | Some (JArr _) => true | _ => false end.

Definition invite_dto_ok (d : CreateInviteDto) : bool :=
  not_empty (d_recipientUserId d) &&
  (not_empty (d_scopeEpoch d) && forallb is_digit (chars (d_scopeEpoch d))) &&
  (not_empty (d_recipientUkPubFingerprint d) && forallb is_hex (chars (d_recipientUkPubFingerprint d)) &&
   max_length 128 (d_recipientUkPubFingerprint d)) &&
  not_empty (d_ciphersuite d) &&
  (base64_text false (chars (d_ciphertext d)) && max_length 1048576 (d_ciphertext d)) &&
  match d_metadata d with Some m => is_json m && max_length 10240 m | None => true end.

(** [Buffer.from(s, 'hex')]: pairs of digits, up to the first that is none. *)
Fixpoint Buffer_from_hex (l : list ascii) : list Z :=
  match l with
  | a :: b :: l' =>
      if is_hex a && is_hex b then (ScopeStateRef.hex_value a * 16 + ScopeStateRef.hex_value b)%Z :: Buffer_from_hex l' else []
  | _ => []
  end.
(** [Buffer.from(s, 'base64')] of the texts the DTO admits: the digits before
    the padding; a digit left over is dropped. *)
Fixpoint base64_digits (l : list ascii) : list Z :=
  match l with
  | c :: l' => match base64_value c with Some v => v :: base64_digits l' | None => [] end
  | [] => []
  end.
Definition Buffer_from_base64 (l : list ascii) : list Z :=
  let ds := base64_digits l in
  default [] (decode_digits (if (Z.of_nat (length ds) mod 4 =? 1)%Z then removelast ds else ds)).

Definition parsed_bigint (s : string) : sh_result Z :=
  match ScopeEpoch.BigInt s with Some n => Ok n | None => Err (ServerError "Cannot convert to a BigInt") end.
(** [dto.metadata ? JSON.parse(dto.metadata) : null] *)
Definition parsed_metadata (m : option string) : sh_result json :=
  match m with
  | Some s => if not_empty s then match JSON_parse s with Some v => Ok v | None => Err (ServerError "Unexpected token in JSON") end else Ok JNull
  | None => Ok JNull
  end.

(** [randomUUID] is [envelopeId]. *)
Definition createInvite (now : Z) (envelopeId scopeIdParam : string) (dto : CreateInviteDto) (identity : option string) : sh string :=
  if negb (invite_dto_ok dto) then bad_request "Bad Request"
  else authenticated identity (fun _ =>
    scope ← lift_result (SharedScopeId_from scopeIdParam);
    eid ← lift_result (EnvelopeId_from envelopeId);
    u ← lift_result (UserId_from (d_recipientUserId dto));
    epoch ← lift_result (parsed_bigint (d_scopeEpoch dto));
    meta ← lift_result (parsed_metadata (d_metadata dto));
    _ ← KyselyKeyEnvelopeRepository.createEnvelope now (EnvelopeInput eid scope u epoch
          (Buffer_from_hex (chars (d_recipientUkPubFingerprint dto))) (d_ciphersuite dto)
          (Buffer_from_base64 (chars (d_ciphertext dto))) meta);
    mret eid).

(** The answer's texts; [createdAt] stays a number here. *)
Record EnvelopeResponse : Type := EnvelopeAnswer {
  r_envelopeId : string;
  r_scopeId : string;
  r_recipientUserId : string;
  r_scopeEpoch : string;
  r_fingerprint : string;
  r_ciphersuite : string;
  r_ciphertext : string;
  r_metadata : json;
  r_createdAt : Z
}.
Definition envelope_response (e : EnvelopeRow) : EnvelopeResponse :=
  EnvelopeAnswer (envelope_id e) (env_scope e) (recipient e) (string_of_Z (env_epoch e)) (ScopeStateRef.toHex (fingerprint e))
    (ciphersuite e) (of_chars (toBase64 (env_ciphertext e))) (env_metadata e) (env_created e).

(** [GetScopeKeyDto] admits digits. *)
Definition getScopeKey (scopeIdParam : string) (scopeEpoch : option string) (identity : option string) : sh (list EnvelopeResponse) :=
  if negb match scopeEpoch with Some s => not_empty s && forallb is_digit (chars s) | None => true end then bad_request "Bad Request"
  else authenticated identity (fun i =>
    scope ← lift_result (SharedScopeId_from scopeIdParam);
    epoch ← lift_result (match scopeEpoch with Some s => Some <$> parsed_bigint s | None => Ok None end);
    u ← lift_result (UserId_from i);
    envelopes ← KyselyKeyEnvelopeRepository.getEnvelopes scope u epoch;
    mret (map envelope_response envelopes)).

End Services.

(** ** The specification: hash-chained logs *)

Class ChainRow (R : Type) : Type := {
  row_seq : R -> Z;
  row_prev : R -> option (list Z);
  row_hash : R -> list Z
}.
#[export] Instance state_chain_row : ChainRow StateRow := {| row_seq := scope_state_seq; row_prev := st_prev_hash; row_hash := scope_state_ref |}.
#[export] Instance grant_chain_row : ChainRow GrantRow := {| row_seq := grant_seq; row_prev := gr_prev_hash; row_hash := grant_hash |}.
#[export] Instance vault_chain_row : ChainRow VaultRow := {| row_seq := record_seq; row_prev := va_prev_hash; row_hash := record_hash |}.

Module ChainSpec.
Section Chain.
Context `{ChainRow R}.

Definition len (l : list R) : Z := Z.of_nat (length l).
Definition head_hash (l : list R) : option (list Z) := row_hash <$> last l.

(** Numbered from 1; each row names the hash of the one before it. *)
Inductive chain : list R -> Prop :=
| chain_nil : chain []
| chain_snoc l r : chain l -> row_seq r = (len l + 1)%Z -> row_prev r = head_hash l -> chain (l ++ [r]).

(** The rule by which a log of [n] rows with the given head hash takes
    another: the number of the new row, or why it is refused. *)
Definition append_plan (mismatch : string) (l : list R) (expectedHead : Z) (prev : option (list Z)) : result server_error Z :=
  if negb (len l =? expectedHead)%Z then Err (HeadMismatch (len l) expectedHead)
  else
    match head_hash l, prev with
    | None, None => Ok (len l + 1)%Z
    | None, Some _ => Err (ServerError "prevHash must be null for genesis append")
    | Some _, None => Err (ServerError "prevHash required for non-genesis append")
    | Some h, Some p => if bool_decide (h = p) then Ok (len l + 1)%Z else Err (ServerError mismatch)
    end.

(** The client that follows [nextSince]. *)
Fixpoint follow {S E : Type} (fuel : nat) (get : Z -> js S E (stream_page R)) (since : Z) : js S E (option (list R)) :=
  match fuel with
  | O => mret None
  | S fuel' =>
      page ← get since;
      match page_nextSince page with
      | None => mret (Some (page_rows page))
      | Some next => rest ← follow fuel' get next; mret ((fun l => page_rows page ++ l) <$> rest)
      end
  end.

Lemma chain_lookup l i r : chain l -> l !! i = Some r -> row_seq r = (Z.of_nat i + 1)%Z.
Proof.
  intros Hc. revert i r. induction Hc as [|l r0 Hc IH Hs Hp]; intros i r Hi; [done|].
  apply lookup_app_Some in Hi as [Hi|[Hge Hi]]; [by apply IH|]. apply list_lookup_singleton_Some in Hi as [E <-].
  rewrite Hs. unfold len. lia.
Qed.

Lemma chain_link l i r : chain l -> l !! i = Some r ->
  row_prev r = match i with O => None | S j => row_hash <$> l !! j end.
Proof.
  intros Hc. revert i r. induction Hc as [|l r0 Hc IH Hs Hp]; intros i r Hi; [done|].
  apply lookup_app_Some in Hi as [Hi|[Hge Hi]].
  - rewrite (IH _ _ Hi). destruct i as [|j]; [done|]. apply lookup_lt_Some in Hi. by rewrite lookup_app_l by lia.
  - apply list_lookup_singleton_Some in Hi as [E <-]. assert (i = length l) as -> by lia. rewrite Hp. unfold head_hash.
    rewrite last_lookup. destruct (length l) as [|j] eqn:El; [by destruct l|]. simpl. by rewrite lookup_app_l by lia.
Qed.

Lemma chain_last l r : chain l -> last l = Some r -> row_seq r = len l.
Proof.
  intros Hc Hl. rewrite last_lookup in Hl. pose proof (chain_lookup _ _ _ Hc Hl). unfold len. apply lookup_lt_Some in Hl. lia.
Qed.

(** A row of number [n] is there as soon as the chain is that long. *)
Lemma chain_has l n : chain l -> (0 < n <= len l)%Z -> existsb (fun r => (row_seq r =? n)%Z) l = true.
Proof.
  unfold len. intros Hc Hn. destruct (lookup_lt_is_Some_2 l (Z.to_nat (n - 1))) as [r Hr]; [lia|].
  apply existsb_exists. exists r. split; [by eapply list_elem_of_In, list_elem_of_lookup_2|].
  apply Z.eqb_eq. rewrite (chain_lookup _ _ _ Hc Hr). lia.
Qed.

Lemma chain_free l : chain l -> existsb (fun r => (row_seq r =? len l + 1)%Z) l = false.
Proof.
  intros Hc. apply not_true_iff_false. intros (r & [i Hi]%list_elem_of_In%list_elem_of_lookup & E%Z.eqb_eq)%existsb_exists.
  rewrite (chain_lookup _ _ _ Hc Hi) in E. apply lookup_lt_Some in Hi. unfold len in E. lia.
Qed.

Lemma chain_snoc_inv l r : chain (l ++ [r]) -> chain l.
Proof. intros Hc. remember (l ++ [r]) as k eqn:Ek. destruct Hc as [|l' r' Hc ? ?]; [by destruct l|]. by apply app_inj_tail in Ek as [-> _]. Qed.

Lemma insert_sorted x l : (forall y, y ∈ l -> (row_seq x <= row_seq y)%Z) -> insert_by row_seq x l = x :: l.
Proof.
  destruct l as [|y l]; intros Hx; [done|]. simpl. by rewrite (proj2 (Z.leb_le _ _)) by (apply Hx; constructor).
Qed.

Lemma chain_page l since limit : chain l -> (0 <= since)%Z ->
  page_since row_seq since limit l = take (Z.to_nat limit) (drop (Z.to_nat since) l).
Proof.
  intros Hc Hs. unfold page_since. f_equal.
  assert (filter (fun r => (since <? row_seq r)%Z = true) l = drop (Z.to_nat since) l) as ->.
  { clear limit. induction Hc as [|l r Hc IH Hseq Hp]; [by rewrite drop_nil|]. rewrite filter_app, IH.
    rewrite filter_cons, filter_nil, Hseq. unfold len. destruct (Z.ltb_spec since (Z.of_nat (length l) + 1)); simpl.
    - by rewrite drop_app_le by lia.
    - rewrite !drop_ge; [done| |lia]. rewrite length_app. simpl. lia. }
  generalize (Z.to_nat since) as k. intros k.
  assert (forall i j x y, i < j -> drop k l !! i = Some x -> drop k l !! j = Some y -> (row_seq x <= row_seq y)%Z) as Hsorted.
  { intros i j x y Hij Hx Hy. rewrite lookup_drop in Hx, Hy. rewrite (chain_lookup _ _ _ Hc Hx), (chain_lookup _ _ _ Hc Hy). lia. }
  revert Hsorted. generalize (drop k l). clear. intros l Hl. induction l as [|x l IH]; [done|]. simpl. rewrite IH.
  - apply insert_sorted. intros y [j Hj]%list_elem_of_lookup. by apply (Hl 0 (S j) x y); [lia|..].
  - intros i j a b Hij Ha Hb. by apply (Hl (S i) (S j)); [lia|..].
Qed.

Lemma mapM_all {E A B} (f : A -> result E B) l k : mapM f l = Ok k <-> Forall2 (fun x y => f x = Ok y) l k.
Proof.
  split; [apply mapM_ok_Forall2|]. induction 1 as [|x y l k Hx _ IH]; [done|]. simpl. rewrite Hx. simpl. by rewrite IH.
Qed.

(** A page of a log, as the services answer it. *)
Lemma page_answer l k limit : (forall i r, l !! i = Some r -> row_seq r = (Z.of_nat i + 1)%Z) -> (0 < limit)%Z ->
  page_of row_seq limit (take (Z.to_nat limit) (drop k l)) =
    Ok (if decide (k + Z.to_nat limit <= length l) then
          Page (take (Z.to_nat limit) (drop k l)) true (Some (Z.of_nat k + limit)%Z)
        else Page (drop k l) false None).
Proof.
  intros Hl Hlim. unfold page_of. rewrite length_take, length_drop. destruct (decide _) as [Hle|Hgt].
  - rewrite (proj2 (Z.eqb_eq _ _)) by lia.
    rewrite last_lookup, length_take, length_drop, lookup_take, lookup_drop.
    rewrite decide_True by lia. destruct (lookup_lt_is_Some_2 l (k + pred (Z.to_nat limit))) as [r Hr]; [lia|].
    replace (k + pred (Z.to_nat limit `min` (length l - k))) with (k + pred (Z.to_nat limit)) by lia. rewrite Hr.
    do 3 f_equal. rewrite (Hl _ _ Hr). lia.
  - rewrite (proj2 (Z.eqb_neq _ _)) by lia. rewrite take_ge; [done|]. rewrite length_drop. lia.
Qed.

Lemma follow_pages {S E} (get : Z -> js S E (stream_page R)) l s limit fuel k :
  (forall i r, l !! i = Some r -> row_seq r = (Z.of_nat i + 1)%Z) -> (0 < limit)%Z ->
  (forall j, k <= j -> j <= k `max` length l -> exists page, page_of row_seq limit (take (Z.to_nat limit) (drop j l)) = Ok page /\
     get (Z.of_nat j) s = (Ok page, s)) ->
  length l - k < fuel -> follow fuel get (Z.of_nat k) s = (Ok (Some (drop k l)), s).
Proof.
  intros Hl Hlim. revert k. induction fuel as [|fuel IH]; intros k Hget Hf; [lia|]. simpl.
  destruct (Hget k ltac:(lia) ltac:(lia)) as (page & Hp & Hrun). rewrite page_answer in Hp by done. injection Hp as <-.
  unfold mbind, js_bind at 1. rewrite Hrun. destruct (decide _) as [Hle|Hgt]; simpl; [|done].
  unfold mbind, js_bind. replace (Z.of_nat k + limit)%Z with (Z.of_nat (k + Z.to_nat limit)) by lia. rewrite IH; simpl.
  - rewrite <- drop_drop, take_drop. done.
  - intros j Hj1 Hj2. apply Hget; lia.
  - lia.
Qed.

End Chain.
End ChainSpec.

(** ** Interleaved transactions *)

Module Interleaved.
Import KyselyScopeStateRepository KyselyResourceGrantRepository KyselyKeyVaultRepository KyselyKeyEnvelopeRepository.
Section Interleaved.
Context `{Postgres}.

(** A transaction that has read and checked, and is to write number [n]. *)
Inductive pending : Type :=
| P_state (scope : string) (state : ScopeStateInput) (n : Z)
| P_grant (scope : string) (grant : ResourceGrantInput) (n : Z)
| P_record (user : string) (record : KeyVaultRecordInput) (n : Z).

Definition write (now : Z) (p : pending) : sh (Z * list Z) :=
  transaction match p with
  | P_state scope state n => write_state now scope state n
  | P_grant scope grant n => write_grant now scope grant n
  | P_record user record n => write_record now user record n
  end.

Record system : Type := Sys { db : sharing_db; open : list pending }.
Definition start : system := Sys empty_db [].

(** Any number of transactions may be open; locks only take steps away. *)
Inductive step : system -> system -> Prop :=
| begin_state scope expected state n d ps :
    check_state scope expected state d = (Ok n, d) -> step (Sys d ps) (Sys d (P_state scope state n :: ps))
| begin_grant scope expected grant n d ps :
    check_grant scope expected grant d = (Ok n, d) -> step (Sys d ps) (Sys d (P_grant scope grant n :: ps))
| begin_record user expected record n d ps :
    check_record user expected record d = (Ok n, d) -> step (Sys d ps) (Sys d (P_record user record n :: ps))
| commit now p d ps qs : step (Sys d (ps ++ p :: qs)) (Sys (write now p d).2 (ps ++ qs))
| invite now e d ps : step (Sys d ps) (Sys (createEnvelope now e d).2 ps).

Definition reachable (w : system) : Prop := rtc step start w.

End Interleaved.
End Interleaved.

(** ** The invariant *)

Module SharingServerLemmas.
Import ChainSpec Interleaved.
Import KyselyScopeStateRepository KyselyResourceGrantRepository KyselyKeyVaultRepository KyselyKeyEnvelopeRepository.

Section Invariant.
Context `{Postgres}.

(** The active grants of a resource, in the order of the stream. *)
Definition active_of (scope resource : string) (d : sharing_db) : list GrantRow :=
  filter (fun r => bool_decide (resource_id r = resource) && bool_decide (status r = "active") = true) (grants_of scope d).
Definition place (r : EnvelopeRow) : string * string * Z := (env_scope r, recipient r, env_epoch r).

Record db_ok (d : sharing_db) : Prop := {
  ok_states scope : chain (states_of scope d);
  ok_state_range scope : (len (states_of scope d) < 2 ^ 63)%Z;
  ok_state_heads scope :
    match scope_state_heads d !! scope with
    | Some h => head_seq h = len (states_of scope d) /\ head_ref h = head_hash (states_of scope d) /\ states_of scope d <> []
    | None => states_of scope d = []
    end;
  ok_grants scope : chain (grants_of scope d);
  ok_grant_range scope : (len (grants_of scope d) < 2 ^ 63)%Z;
  ok_grant_ids : NoDup (map grant_id (resource_grants d));
  ok_grant_heads scope resource :
    resource_grant_heads d !! (scope, resource) =
      (fun r => ActiveHead (grant_id r) (grant_seq r) (grant_hash r)) <$> last (active_of scope resource d);
  ok_records user : chain (records_of user d);
  ok_record_range user : (len (records_of user d) < 2 ^ 63)%Z;
  ok_vault_heads user :
    match keyvault_heads d !! user with
    | Some h => vh_seq h = len (records_of user d) /\ vh_hash h = head_hash (records_of user d) /\ records_of user d <> []
    | None => records_of user d = []
    end;
  ok_places : NoDup (map place (key_envelopes d));
  ok_envelope_ids : NoDup (map envelope_id (key_envelopes d))
}.

(** What an open transaction has checked stays true while streams grow. *)
Definition fits `{ChainRow R} (n : Z) (prev : option (list Z)) (l : list R) : Prop :=
  exists k, k `prefix_of` l /\ n = (len k + 1)%Z /\ prev = head_hash k.
Definition pending_ok (d : sharing_db) (p : pending) : Prop :=
  match p with
  | P_state scope state n => fits n (in_prevHash state) (states_of scope d)
  | P_grant scope grant n => fits n (gi_prevHash grant) (grants_of scope d)
  | P_record user record n => exists u, uuid_column user = Ok u /\ fits n (vi_prevHash record) (records_of u d)
  end.

Record grows (d d' : sharing_db) : Prop := {
  grows_states scope : states_of scope d `prefix_of` states_of scope d';
  grows_grants scope : grants_of scope d `prefix_of` grants_of scope d';
  grows_records user : records_of user d `prefix_of` records_of user d'
}.

#[export] Instance grows_refl : Reflexive grows.
Proof. intros d. by split. Qed.

Lemma fits_grows `{ChainRow R} n prev (l l' : list R) : fits n prev l -> l `prefix_of` l' -> fits n prev l'.
Proof. intros (k & Hk & ? & ?) Hl. exists k. split_and!; [by etrans|done..]. Qed.

Lemma pending_grows d d' p : pending_ok d p -> grows d d' -> pending_ok d' p.
Proof.
  intros Hp [Hs Hg Hr]. destruct p; simpl in *; [by eapply fits_grows..|].
  destruct Hp as (u & Hu & Hf). exists u. split; [done|]. by eapply fits_grows.
Qed.

(** The unique index lets a transaction write only where it fits. *)
Lemma fits_exact `{ChainRow R} n prev (l : list R) : chain l -> fits n prev l ->
  existsb (fun r => (row_seq r =? n)%Z) l = false -> n = (len l + 1)%Z /\ prev = head_hash l.
Proof.
  intros Hc (k & [l2 ->] & -> & ->) Hfree. destruct l2 as [|r l2]; [by rewrite app_nil_r|]. exfalso.
  rewrite chain_has in Hfree; [done|done|]. unfold len. rewrite length_app. simpl. lia.
Qed.

Lemma chain_fits `{ChainRow R} (l : list R) : fits (len l + 1) (head_hash l) l.
Proof. by exists l. Qed.

(** *** Runs of the checks and of the writes *)

Lemma bigint_ok z x : bigint_in z = Ok x -> x = z.
Proof. unfold bigint_in. case_match; [by intros [= ->]|done]. Qed.
Lemma bigint_range z x : bigint_in z = Ok x -> (z < 2 ^ 63)%Z.
Proof. unfold bigint_in. destruct (Z.ltb_spec z (2 ^ 63)); [done|]. by rewrite andb_false_r. Qed.
Lemma bigint_fits z : (0 <= z < 2 ^ 63)%Z -> bigint_in z = Ok z.
Proof. unfold bigint_in. intros Hz. destruct (Z.leb_spec (- 2 ^ 63) z); [|lia]. by destruct (Z.ltb_spec z (2 ^ 63)); [|lia]. Qed.

Lemma state_row_ok now scope n st row : state_row now scope n st = Ok row ->
  st_scope row = scope /\ scope_state_seq row = n /\ (n < 2 ^ 63)%Z /\ st_prev_hash row = in_prevHash st /\ scope_state_ref row = in_stateRef st.
Proof. unfold state_row. intros Hr. inv_ok. repeat match goal with E : bigint_in _ = Ok _ |- _ => pose proof (bigint_range _ _ E); apply bigint_ok in E as -> end. by split_and!. Qed.

Lemma grant_row_ok now scope n g row : grant_row now scope n g = Ok row ->
  gr_scope row = scope /\ grant_seq row = n /\ (n < 2 ^ 63)%Z /\ gr_prev_hash row = gi_prevHash g /\ grant_hash row = gi_grantHash g /\
  grant_id row = gi_grantId g /\ resource_id row = gi_resourceId g /\ status row = gi_status g.
Proof. unfold grant_row. intros Hr. inv_ok. repeat match goal with E : bigint_in _ = Ok _ |- _ => pose proof (bigint_range _ _ E); apply bigint_ok in E as -> end. by split_and!. Qed.

Lemma record_row_ok now user n r row : record_row now user n r = Ok row ->
  uuid_column user = Ok (va_user row) /\ record_seq row = n /\ (n < 2 ^ 63)%Z /\ va_prev_hash row = vi_prevHash r /\ record_hash row = vi_recordHash r.
Proof. unfold record_row. intros Hr. inv_ok. repeat match goal with E : bigint_in _ = Ok _ |- _ => pose proof (bigint_range _ _ E); apply bigint_ok in E as -> end. by split_and!. Qed.

Ltac run_write :=
  unfold transaction, mbind, js_bind, lift_result, gets, modify, skip, throw, mret, js_ret;
  match goal with |- context [match ?r with Ok _ => _ | Err _ => _ end] => destruct r as [row|e] eqn:Erow; [|done] end.

(** The database with a row appended and its head set. *)
Definition with_state (row : StateRow) (d : sharing_db) : sharing_db :=
  KyselyScopeStateRepository.upsert_head row (set_states (scope_states d ++ [row]) (scope_state_heads d) d).
Definition with_grant (row : GrantRow) (d : sharing_db) : sharing_db :=
  let d' := set_grants (resource_grants d ++ [row]) (resource_grant_heads d) d in
  if bool_decide (status row = "active") then KyselyResourceGrantRepository.upsert_head row d' else d'.
Definition with_record (row : VaultRow) (d : sharing_db) : sharing_db :=
  KyselyKeyVaultRepository.upsert_head row (set_vault (keyvault_records d ++ [row]) (keyvault_heads d) d).

Lemma write_state_run now scope st n d : (0 <= n)%Z ->
  transaction (write_state now scope st n) d =
  match state_row now scope n st with
  | Err e => (Err e, d)
  | Ok row =>
      if existsb (fun r => (row_seq r =? n)%Z) (states_of scope d) then (Err duplicate_key, d)
      else (Ok (n, in_stateRef st), with_state row d)
  end.
Proof.
  intros Hn. unfold write_state, insert_state. run_write. apply state_row_ok in Erow as (-> & -> & _ & _ & ->).
  simpl. destruct (existsb _ _); [done|]. unfold SequenceNumber_from. by destruct (Z.ltb_spec n 0); [lia|].
Qed.

Lemma write_grant_run now scope g n d : (0 <= n)%Z ->
  transaction (write_grant now scope g n) d =
  match grant_row now scope n g with
  | Err e => (Err e, d)
  | Ok row =>
      if existsb (fun r => (row_seq r =? n)%Z) (grants_of scope d) ||
         existsb (fun r => bool_decide (grant_id r = gi_grantId g)) (resource_grants d) then (Err duplicate_key, d)
      else (Ok (n, gi_grantHash g), with_grant row d)
  end.
Proof.
  intros Hn. unfold write_grant, insert_grant. run_write. apply grant_row_ok in Erow as (-> & -> & _ & _ & -> & -> & _ & Hst).
  simpl. unfold with_grant. rewrite Hst. destruct (_ || _); [done|]. unfold SequenceNumber_from.
  destruct (bool_decide _); simpl; by destruct (Z.ltb_spec n 0); [lia|].
Qed.

Lemma write_record_run now user r n d : (0 <= n)%Z ->
  transaction (write_record now user r n) d =
  match record_row now user n r with
  | Err e => (Err e, d)
  | Ok row =>
      if existsb (fun x => (row_seq x =? n)%Z) (records_of (va_user row) d) then (Err duplicate_key, d)
      else (Ok (n, vi_recordHash r), with_record row d)
  end.
Proof.
  intros Hn. unfold write_record, insert_record. run_write. apply record_row_ok in Erow as (_ & -> & _ & _ & ->).
  simpl. destruct (existsb _ _); [done|]. unfold SequenceNumber_from. by destruct (Z.ltb_spec n 0); [lia|].
Qed.

(** *** The streams after a write *)

Lemma states_with row d scope : states_of scope (with_state row d) =
  states_of scope d ++ (if decide (st_scope row = scope) then [row] else []).
Proof. unfold states_of, with_state. simpl. rewrite filter_app, filter_cons, filter_nil. done. Qed.

Lemma grants_with row d scope : grants_of scope (with_grant row d) =
  grants_of scope d ++ (if decide (gr_scope row = scope) then [row] else []).
Proof.
  unfold grants_of, with_grant. destruct (bool_decide _); simpl; rewrite filter_app, filter_cons, filter_nil; done.
Qed.

Lemma records_with row d user : records_of user (with_record row d) =
  records_of user d ++ (if decide (va_user row = user) then [row] else []).
Proof. unfold records_of, with_record. simpl. rewrite filter_app, filter_cons, filter_nil. done. Qed.

Lemma grants_eq (l : list GrantRow) row d : resource_grants d = l -> resource_grants (with_grant row d) = l ++ [row].
Proof. intros <-. unfold with_grant. by destruct (bool_decide _). Qed.

Lemma with_state_grows row d : grows d (with_state row d).
Proof. split; intros x; [rewrite states_with; by eexists|done|done]. Qed.
Lemma with_grant_grows row d : grows d (with_grant row d).
Proof. split; intros x; [|rewrite grants_with; by eexists|]; unfold with_grant; by destruct (bool_decide _). Qed.
Lemma with_record_grows row d : grows d (with_record row d).
Proof. split; intros x; [done|done|rewrite records_with; by eexists]. Qed.

(** A chain and the row that follows it. *)
Lemma chain_extend `{ChainRow R} (l : list R) (P : Prop) `{Decision P} row : chain l ->
  (P -> row_seq row = (len l + 1)%Z /\ row_prev row = head_hash l) -> chain (l ++ (if decide P then [row] else [])).
Proof. intros Hc Hp. destruct (decide P) as [HP|_]; [|by rewrite app_nil_r]. destruct (Hp HP). by apply chain_snoc. Qed.

Lemma len_snoc `{ChainRow R} (l : list R) r : len (l ++ [r]) = (len l + 1)%Z.
Proof. unfold len. rewrite length_app. simpl. lia. Qed.
Lemma head_snoc `{ChainRow R} (l : list R) r : head_hash (l ++ [r]) = Some (row_hash r).
Proof. unfold head_hash. by rewrite last_snoc. Qed.

Lemma with_state_ok row d : db_ok d ->
  scope_state_seq row = (len (states_of (st_scope row) d) + 1)%Z -> st_prev_hash row = head_hash (states_of (st_scope row) d) ->
  (scope_state_seq row < 2 ^ 63)%Z -> db_ok (with_state row d).
Proof.
  intros [? Hrange Hh ? ? ? ? ? ? ? ? ?] Hs Hp Hr. split; try done.
  - intros scope. rewrite states_with. apply chain_extend; [done|]. by intros <-.
  - intros scope. rewrite states_with. specialize (Hrange scope). destruct (decide _) as [<-|_]; [|by rewrite app_nil_r].
    rewrite len_snoc. lia.
  - intros scope. rewrite states_with. unfold with_state, KyselyScopeStateRepository.upsert_head. simpl.
    rewrite lookup_insert. destruct (decide (st_scope row = scope)) as [<-|Hne].
    + rewrite len_snoc, head_snoc. simpl. split_and!; [done|done|by destruct (states_of _ d)].
    + rewrite app_nil_r. apply Hh.
Qed.

Lemma with_record_ok row d : db_ok d ->
  record_seq row = (len (records_of (va_user row) d) + 1)%Z -> va_prev_hash row = head_hash (records_of (va_user row) d) ->
  (record_seq row < 2 ^ 63)%Z -> db_ok (with_record row d).
Proof.
  intros [? ? ? ? ? ? ? ? Hrange Hh ? ?] Hs Hp Hr. split; try done.
  - intros user. rewrite records_with. apply chain_extend; [done|]. by intros <-.
  - intros user. rewrite records_with. specialize (Hrange user). destruct (decide _) as [<-|_]; [|by rewrite app_nil_r].
    rewrite len_snoc. lia.
  - intros user. rewrite records_with. unfold with_record, KyselyKeyVaultRepository.upsert_head. simpl.
    rewrite lookup_insert. destruct (decide (va_user row = user)) as [<-|Hne].
    + rewrite len_snoc, head_snoc. simpl. split_and!; [done|done|by destruct (records_of _ d)].
    + rewrite app_nil_r. apply Hh.
Qed.

Lemma active_with row d scope resource : active_of scope resource (with_grant row d) =
  active_of scope resource d ++
  (if decide (gr_scope row = scope /\ resource_id row = resource /\ status row = "active") then [row] else []).
Proof.
  unfold active_of. rewrite grants_with, filter_app. f_equal. destruct (decide (gr_scope row = scope)) as [Hs|Hs].
  - rewrite filter_cons, filter_nil. repeat case_decide; try done; rewrite andb_true_iff, !bool_decide_eq_true in *; tauto.
  - rewrite decide_False by tauto. done.
Qed.

Lemma with_grant_ok row d : db_ok d ->
  grant_seq row = (len (grants_of (gr_scope row) d) + 1)%Z -> gr_prev_hash row = head_hash (grants_of (gr_scope row) d) ->
  grant_id row ∉ map grant_id (resource_grants d) -> (grant_seq row < 2 ^ 63)%Z -> db_ok (with_grant row d).
Proof.
  intros [? ? ? ? Hrange ? Hh ? ? ? ? ?] Hs Hp Hid Hr. split; try (unfold with_grant; by destruct (bool_decide _)).
  - intros scope. rewrite grants_with. apply chain_extend; [done|]. by intros <-.
  - intros scope. rewrite grants_with. specialize (Hrange scope). destruct (decide _) as [<-|_]; [|by rewrite app_nil_r].
    rewrite len_snoc. lia.
  - rewrite (grants_eq _ row d eq_refl), map_app. apply NoDup_app. split_and!; [done| |apply NoDup_singleton].
    intros x Hx ->%list_elem_of_singleton. done.
  - intros scope resource. rewrite active_with. unfold with_grant, KyselyResourceGrantRepository.upsert_head.
    destruct (bool_decide_reflect (status row = "active")) as [Ha|Ha]; simpl.
    + rewrite lookup_insert. destruct (decide ((gr_scope row, resource_id row) = (scope, resource))) as [[= <- <-]|Hne].
      * by rewrite decide_True, last_snoc by done.
      * rewrite (decide_False (P := _ /\ _)) by (intros (E1 & E2 & _); by rewrite E1, E2 in Hne). by rewrite app_nil_r.
    + rewrite decide_False by tauto. by rewrite app_nil_r.
Qed.

Lemma envelope_ok now e d : db_ok d -> db_ok (createEnvelope now e d).2.
Proof.
  intros Hd. unfold createEnvelope, mbind, js_bind, lift_result, gets, modify, throw.
  destruct (envelope_row now e) as [row|err]; [|done]. destruct (existsb _ _) eqn:Ex; [done|]. simpl.
  assert (forall r, r ∈ key_envelopes d -> clashes row r = false) as Hfree.
  { intros r Hr. apply not_true_iff_false. intros Hc. rewrite <- not_true_iff_false in Ex. apply Ex, existsb_exists.
    exists r. split; [by apply list_elem_of_In|done]. }
  destruct Hd. split; try done; simpl; rewrite map_app; apply NoDup_app; split_and!; try done; try apply NoDup_singleton.
  - intros p (r & -> & Hr)%list_elem_of_fmap Hp%list_elem_of_singleton. specialize (Hfree r Hr).
    unfold clashes, same_place in Hfree. injection Hp as E1 E2 E3. rewrite E1, E2, E3, !bool_decide_true, Z.eqb_refl in Hfree by done. done.
  - intros p (r & -> & Hr)%list_elem_of_fmap Hp%list_elem_of_singleton. specialize (Hfree r Hr). simpl in Hp.
    unfold clashes in Hfree. rewrite Hp, (bool_decide_true (envelope_id row = envelope_id row)), orb_true_r in Hfree by done. done.
Qed.

Lemma envelope_grows now e d : grows d (createEnvelope now e d).2.
Proof.
  unfold createEnvelope, mbind, js_bind, lift_result, gets, modify, throw.
  destruct (envelope_row now e) as [row|err]; [|done]. by destruct (existsb _ _).
Qed.

(** *** Runs of the checks *)

Lemma head_none `{ChainRow R} (l : list R) : head_hash l = None -> l = [].
Proof. unfold head_hash. intros E%fmap_None. by apply last_None. Qed.

Lemma seq_len `{ChainRow R} (l : list R) : SequenceNumber_from (len l) = Ok (len l).
Proof. unfold SequenceNumber_from, len. by destruct (Z.ltb_spec (Z.of_nat (length l)) 0); [lia|]. Qed.

Lemma plan_fits `{ChainRow R} m (l : list R) e prev n : append_plan m l e prev = Ok n -> n = (len l + 1)%Z /\ prev = head_hash l.
Proof.
  unfold append_plan. destruct (negb _); [done|]. destruct (head_hash l) as [h|], prev as [p|]; try done.
  - destruct (bool_decide_reflect (h = p)) as [->|]; [|done]. by intros [= <-].
  - by intros [= <-].
Qed.

Definition state_mismatch : string := "prevHash does not match current head_ref (hash-chain violation)".
Definition vault_mismatch : string := "prevHash does not match current head_hash (hash-chain violation)".

(** Both checks that look at a head row agree with the plan. *)
Lemma state_chain_plan (l : list StateRow) h prev : head_seq h = len l -> head_ref h = head_hash l -> l <> [] ->
  KyselyScopeStateRepository.check_chain (len l) (Some h) prev =
    (_ ← append_plan state_mismatch l (len l) prev; Ok tt).
Proof.
  intros Hs Hr Hne. unfold KyselyScopeStateRepository.check_chain, append_plan. rewrite Z.eqb_refl. simpl.
  destruct (Z.ltb_spec 0 (len l)) as [_|Hl]; [|destruct l; [done|unfold len in Hl; simpl in Hl; lia]].
  rewrite Hr. destruct (head_hash l) as [hh|] eqn:E; [|by apply head_none in E]. destruct prev as [p|]; [|done].
  by destruct (bool_decide _).
Qed.

Lemma vault_chain_plan (l : list VaultRow) h prev : vh_seq h = len l -> vh_hash h = head_hash l -> l <> [] ->
  KyselyKeyVaultRepository.check_chain (len l) (Some h) prev =
    (_ ← append_plan vault_mismatch l (len l) prev; Ok tt).
Proof.
  intros Hs Hr Hne. unfold KyselyKeyVaultRepository.check_chain, append_plan. rewrite Z.eqb_refl. simpl.
  destruct (Z.ltb_spec 0 (len l)) as [_|Hl]; [|destruct l; [done|unfold len in Hl; simpl in Hl; lia]].
  rewrite Hr. destruct (head_hash l) as [hh|] eqn:E; [|by apply head_none in E]. destruct prev as [p|]; [|done].
  by destruct (bool_decide _).
Qed.

Lemma plan_same `{ChainRow R} m (l : list R) prev : append_plan m l (len l) prev =
  (_ ← append_plan m l (len l) prev; Ok (len l + 1)%Z).
Proof.
  destruct (append_plan m l (len l) prev) as [n|] eqn:E; [|done]. by apply plan_fits in E as [-> _].
Qed.

Lemma plan_wrong `{ChainRow R} m (l : list R) e prev : (len l =? e)%Z = false -> append_plan m l e prev = Err (HeadMismatch (len l) e).
Proof. unfold append_plan. by intros ->. Qed.

Lemma check_state_run scope e st d : db_ok d ->
  check_state scope e st d = (append_plan state_mismatch (states_of scope d) e (in_prevHash st), d).
Proof.
  intros Hd. unfold check_state, mbind, js_bind, gets, lift_result, throw, mret, js_ret. pose proof (ok_state_heads d Hd scope) as Hh.
  destruct (scope_state_heads d !! scope) as [h|]; simpl.
  - destruct Hh as (Hs & Hr & Hne). rewrite Hs, seq_len.
    destruct (Z.eqb_spec (len (states_of scope d)) e) as [<-|]; simpl; [|by rewrite plan_wrong by (by apply Z.eqb_neq)].
    rewrite plan_same. rewrite (state_chain_plan _ h) by done. by destruct (append_plan _ _ _ _).
  - rewrite Hh. unfold append_plan. by destruct e, (in_prevHash st).
Qed.

Lemma check_record_run user u e r d : db_ok d -> uuid_column user = Ok u ->
  check_record user e r d = (append_plan vault_mismatch (records_of u d) e (vi_prevHash r), d).
Proof.
  intros Hd Hu. unfold check_record, head_row, mbind, js_bind, reads, lift_result, throw, mret, js_ret. rewrite Hu. simpl.
  pose proof (ok_vault_heads d Hd u) as Hh. destruct (keyvault_heads d !! u) as [h|]; simpl.
  - destruct Hh as (Hs & Hr & Hne). rewrite Hs, seq_len.
    destruct (Z.eqb_spec (len (records_of u d)) e) as [<-|]; simpl; [|by rewrite plan_wrong by (by apply Z.eqb_neq)].
    rewrite plan_same. rewrite (vault_chain_plan _ h) by done. by destruct (append_plan _ _ _ _).
  - rewrite Hh. unfold append_plan. by destruct e, (vi_prevHash r).
Qed.

(** *** Every step keeps the invariant *)

Lemma write_keeps now p d : db_ok d -> pending_ok d p -> db_ok (write now p d).2 /\ grows d (write now p d).2.
Proof.
  intros Hd Hp. unfold write. destruct p as [scope st n|scope g n|user r n]; simpl in Hp.
  - assert (0 <= n)%Z as Hn by (destruct Hp as (k & _ & -> & _); unfold len; lia). rewrite write_state_run by done.
    destruct (state_row now scope n st) as [row|e] eqn:Er; [|done]. destruct (existsb _ _) eqn:Ex; [done|].
    destruct (fits_exact _ _ _ (ok_states d Hd scope) Hp Ex) as [-> Hprev]. apply state_row_ok in Er as (Hsc & Hseq & Hr & Hpr & _).
    split; [|by apply with_state_grows]. apply with_state_ok; [done|by rewrite Hseq, Hsc|by rewrite Hpr, Hsc|by rewrite Hseq].
  - assert (0 <= n)%Z as Hn by (destruct Hp as (k & _ & -> & _); unfold len; lia). rewrite write_grant_run by done.
    destruct (grant_row now scope n g) as [row|e] eqn:Er; [|done]. destruct (_ || _) eqn:Ex; [done|].
    apply orb_false_iff in Ex as [Ex Hid].
    destruct (fits_exact _ _ _ (ok_grants d Hd scope) Hp Ex) as [-> Hprev].
    apply grant_row_ok in Er as (Hsc & Hseq & Hr & Hpr & _ & Hgid & _).
    split; [|by apply with_grant_grows]. apply with_grant_ok; [done|by rewrite Hseq, Hsc|by rewrite Hpr, Hsc| |by rewrite Hseq].
    rewrite Hgid. intros (x & Hx & Hin)%list_elem_of_fmap. rewrite <- not_true_iff_false in Hid. apply Hid, existsb_exists.
    exists x. split; [by apply list_elem_of_In|by apply bool_decide_eq_true].
  - destruct Hp as (u & Hu & Hp). assert (0 <= n)%Z as Hn by (destruct Hp as (k & _ & -> & _); unfold len; lia).
    rewrite write_record_run by done. destruct (record_row now user n r) as [row|e] eqn:Er; [|done].
    apply record_row_ok in Er as (Hu' & Hseq & Hr & Hpr & _). assert (va_user row = u) as Hus by congruence.
    destruct (existsb _ _) eqn:Ex; [done|]. rewrite Hus in Ex.
    destruct (fits_exact _ _ _ (ok_records d Hd u) Hp Ex) as [-> Hprev].
    split; [|by apply with_record_grows]. apply with_record_ok; [done|by rewrite Hseq, Hus|by rewrite Hpr, Hus|by rewrite Hseq].
Qed.

Definition sys_ok (w : system) : Prop := db_ok (db w) /\ Forall (pending_ok (db w)) (open w).

Lemma start_ok : sys_ok start.
Proof.
  split; [|constructor]. split; simpl; try (intros; constructor); try done.
Qed.

Lemma plan_pending m `{ChainRow R} (l : list R) e prev n : append_plan m l e prev = Ok n -> fits n prev l.
Proof. intros [-> ->]%plan_fits. apply chain_fits. Qed.

Lemma step_keeps w w' : step w w' -> sys_ok w -> sys_ok w'.
Proof.
  destruct 1 as [scope e st n d ps Hc|scope e g n d ps Hc|user e r n d ps Hc|now p d ps qs|now e d ps]; intros [Hd Hps]; simpl in *.
  - split; [done|]. constructor; [|done]. rewrite check_state_run in Hc by done. injection Hc as Hc. by eapply plan_pending.
  - done.
  - split; [done|]. constructor; [|done]. destruct (uuid_column user) as [u|err] eqn:Hu.
    + rewrite (check_record_run user u) in Hc by done. injection Hc as Hc. exists u. split; [done|]. by eapply plan_pending.
    + unfold check_record, head_row, mbind, js_bind, reads in Hc. by rewrite Hu in Hc.
  - apply Forall_app in Hps as [Hps [Hp Hqs]%Forall_cons]. destruct (write_keeps now p d Hd Hp) as [Hd' Hg].
    split; [done|]. simpl. apply Forall_app.
    split; (eapply Forall_impl; [done|]); intros q Hq; by eapply pending_grows.
  - split; [by apply envelope_ok|]. eapply Forall_impl; [done|]. intros q Hq. eapply pending_grows; [done|]. apply envelope_grows.
Qed.

Lemma reachable_ok w : reachable w -> sys_ok w.
Proof. unfold reachable. intros Hr. remember start as s eqn:Es. assert (sys_ok s) as Hs by (subst; apply start_ok). clear Es.
  induction Hr as [|x y z Hxy _ IH]; [done|]. apply IH. by eapply step_keeps. Qed.

(** *** Outcomes of the appends *)

Lemma transaction_bind {A B} (m : sh A) (f : A -> sh B) (d : sharing_db) :
  transaction (m ≫= f) d = match m d with (Ok a, d') => match f a d' with (Ok b, d'') => (Ok b, d'') | (Err e, _) => (Err e, d) end | (Err e, _) => (Err e, d) end.
Proof. unfold transaction, mbind, js_bind. by destruct (m d) as [[a|e] d']. Qed.

Lemma append_state_run now scope e st d : db_ok d ->
  appendState now scope e st d =
  match append_plan state_mismatch (states_of scope d) e (in_prevHash st) with
  | Err err => (Err err, d)
  | Ok n =>
      match state_row now scope n st with
      | Err err => (Err err, d)
      | Ok row => (Ok (n, in_stateRef st), with_state row d)
      end
  end.
Proof.
  intros Hd. unfold appendState. rewrite transaction_bind, check_state_run by done.
  destruct (append_plan _ _ _ _) as [n|err] eqn:Hp; [|done]. apply plan_fits in Hp as [-> _].
  pose proof (write_state_run now scope st (len (states_of scope d) + 1) d ltac:(unfold len; lia)) as Hw.
  unfold transaction in Hw. rewrite Hw. destruct (state_row _ _ _ _) as [row|]; [|done].
  by rewrite (chain_free _ (ok_states d Hd scope)).
Qed.

(** *** The streams' entities *)

Lemma entity_seq {A} `{ChainRow A} (f : A -> sh_result A) l es : chain l -> mapM f l = Ok es ->
  (forall r e, f r = Ok e -> row_seq e = row_seq r) -> forall i e, es !! i = Some e -> row_seq e = (Z.of_nat i + 1)%Z.
Proof.
  intros Hc Hm Hf i e He. apply mapM_all in Hm. destruct (Forall2_lookup_r _ _ _ _ _ Hm He) as (r & Hr & E).
  rewrite (Hf _ _ E). by apply (chain_lookup _ _ _ Hc).
Qed.

Lemma entity_page {A} `{ChainRow A} (f : A -> sh_result A) l es (k limit : nat) : mapM f l = Ok es ->
  mapM f (take limit (drop k l)) = Ok (take limit (drop k es)).
Proof. rewrite !mapM_all. intros Hm. by apply Forall2_take, Forall2_drop. Qed.

Lemma entity_len {A} (f : A -> sh_result A) (l es : list A) : mapM f l = Ok es -> length es = length l.
Proof. rewrite mapM_all. intros Hm. symmetry. by eapply Forall2_length. Qed.

Lemma sequence_ok n x : SequenceNumber_from n = Ok x -> x = n.
Proof. unfold SequenceNumber_from. by destruct (n <? 0)%Z; [|intros [= ->]]. Qed.

Lemma state_entity_seq r e : KyselyScopeStateRepository.mapRowToEntity r = Ok e -> row_seq e = row_seq r.
Proof. unfold KyselyScopeStateRepository.mapRowToEntity. intros Hr. inv_ok. simpl. by apply sequence_ok. Qed.
Lemma grant_entity_seq r e : KyselyResourceGrantRepository.mapRowToEntity r = Ok e -> row_seq e = row_seq r.
Proof. unfold KyselyResourceGrantRepository.mapRowToEntity. intros Hr. inv_ok. simpl. by apply sequence_ok. Qed.
Lemma vault_entity_seq r e : KyselyKeyVaultRepository.mapRowToEntity r = Ok e -> row_seq e = row_seq r.
Proof. unfold KyselyKeyVaultRepository.mapRowToEntity. intros Hr. inv_ok. simpl. by apply sequence_ok. Qed.

Lemma page_dto since limit : (0 <= since)%Z -> (1 <= limit <= 500)%Z -> page_dto_ok (Some since) (Some limit) = true.
Proof. intros. unfold page_dto_ok. rewrite !andb_true_iff, !Z.leb_le. lia. Qed.

Lemma seq_from n : (0 <= n)%Z -> SequenceNumber_from n = Ok n.
Proof. unfold SequenceNumber_from. by destruct (Z.ltb_spec n 0); [lia|]. Qed.

(** A stream whose pages are served from a chain. *)
Lemma paged_stream {A} `{ChainRow A} (f : A -> sh_result A) l es (get : Z -> sh (stream_page A)) d limit fuel k :
  chain l -> (len l < 2 ^ 63)%Z -> (Z.of_nat k < 2 ^ 63)%Z -> mapM f l = Ok es ->
  (forall r e, f r = Ok e -> row_seq e = row_seq r) -> (0 < limit)%Z ->
  (forall j, (0 <= j < 2 ^ 63)%Z ->
     get j d = (rows ← mapM f (page_since row_seq j limit l); page_of row_seq limit rows, d)) ->
  length es < fuel -> follow fuel get (Z.of_nat k) d = (Ok (Some (drop k es)), d).
Proof.
  intros Hc Hl Hk Hm Hf Hlim Hget Hfuel. pose proof (entity_seq _ _ _ Hc Hm Hf) as Hseq. pose proof (entity_len _ _ _ Hm) as Hlen.
  apply (follow_pages _ es _ limit); [done|lia| |lia]. intros j _ Hj. eexists. split; [apply page_answer; [done|lia]|].
  unfold len in Hl. rewrite Hget by lia. rewrite chain_page by (done || lia). rewrite Nat2Z.id, (entity_page _ _ _ _ _ Hm). simpl.
  by rewrite (page_answer _ _ _ Hseq) by lia.
Qed.

Lemma vault_head_runs user u d : db_ok d -> uuid_column user = Ok u -> exists h,
  (r ← head_row user d; head_or_zero (vh_seq <$> r)) = Ok h.
Proof.
  intros Hd Hu. unfold head_row. rewrite Hu. simpl. pose proof (ok_vault_heads _ Hd u) as Hh.
  destruct (keyvault_heads d !! u) as [h|]; simpl; [|by eexists]. destruct Hh as (-> & _ & _). rewrite seq_len. by eexists.
Qed.

(** *** Invitations *)

Lemma base64_digits_of l k : Forall Base64UrlProperties.sextet l -> base64_digits (map base64_char l ++ replicate k "="%char) = l.
Proof.
  induction 1 as [|v l Hv _ IH]; [by destruct k|]. simpl.
  destruct (Base64UrlProperties.base64_char_facts v Hv) as [-> _]. by rewrite IH.
Qed.

Lemma base64_back b : Forall byte b -> Buffer_from_base64 (toBase64 b) = b.
Proof.
  intros Hb. unfold Buffer_from_base64, toBase64. rewrite Base64UrlProperties.btoa_sextets. unfold Base64UrlProperties.padding.
  rewrite base64_digits_of by (by apply Base64UrlProperties.sextets_ok).
  destruct (Base64UrlProperties.sextets_padding b) as (k & Hk & Hle & Hmod).
  assert ((Z.of_nat (length (Base64UrlProperties.sextets b)) mod 4 =? 1)%Z = false) as ->.
  { apply Z.eqb_neq. intros E. rewrite E in Hmod. change ((4 - 1) mod 4)%Z with 3%Z in Hmod. lia. }
  by rewrite Base64UrlProperties.decode_sextets.
Qed.

(** The row of an invitation, or why it is refused. *)
Definition invite_row (now : Z) (eid scope : string) (dto : CreateInviteDto) : sh_result EnvelopeRow :=
  scope ← SharedScopeId_from scope;
  eid ← EnvelopeId_from eid;
  u ← UserId_from (d_recipientUserId dto);
  epoch ← parsed_bigint (d_scopeEpoch dto);
  meta ← parsed_metadata (d_metadata dto);
  envelope_row now (EnvelopeInput eid scope u epoch (Buffer_from_hex (chars (d_recipientUkPubFingerprint dto)))
    (d_ciphersuite dto) (Buffer_from_base64 (chars (d_ciphertext dto))) meta).

Lemma invite_run now eid scope dto caller d : createInvite now eid scope dto (Some caller) d =
  if invite_dto_ok dto then
    match invite_row now eid scope dto with
    | Err e => (Err e, d)
    | Ok row =>
        if existsb (clashes row) (key_envelopes d) then (Err duplicate_key, d)
        else (Ok eid, set_envelopes (key_envelopes d ++ [row]) d)
    end
  else (Err (ServerError "Bad Request"), d).
Proof.
  unfold createInvite, invite_row, createEnvelope, mbind, js_bind, lift_result, gets, modify, throw, mret, js_ret.
  destruct (invite_dto_ok dto); [|done]. simpl. destruct (SharedScopeId_from scope) as [sc|]; [|done]. simpl.
  destruct (EnvelopeId_from eid) as [ei|] eqn:Ee; [|done]. apply SyncRefinement.non_blank_ok in Ee as [-> _]. simpl.
  destruct (UserId_from _) as [u|]; [|done]. simpl. destruct (parsed_bigint _) as [n|]; [|done]. simpl.
  destruct (parsed_metadata _) as [m|]; [|done]. simpl. destruct (envelope_row _ _) as [row|]; [|done].
  by destruct (existsb _ _).
Qed.

Lemma invite_row_ok now eid scope dto row : invite_row now eid scope dto = Ok row ->
  exists n meta, SharedScopeId_from scope = Ok scope /\ EnvelopeId_from eid = Ok eid /\
    parsed_bigint (d_scopeEpoch dto) = Ok n /\ bigint_in n = Ok n /\ parsed_metadata (d_metadata dto) = Ok meta /\
    uuid_in (d_recipientUserId dto) = Some (recipient row) /\
    env_scope row = scope /\ envelope_id row = eid /\ env_epoch row = n /\
    fingerprint row = Buffer_from_hex (chars (d_recipientUkPubFingerprint dto)) /\ ciphersuite row = d_ciphersuite dto /\
    env_ciphertext row = Buffer_from_base64 (chars (d_ciphertext dto)) /\ env_created row = now /\
    (if json_truthy meta then jsonb_column meta else Ok JNull) = Ok (env_metadata row).
Proof.
  unfold invite_row, envelope_row, SharedScopeId_from, EnvelopeId_from, UserId_from, uuid_column. intros Hr. inv_ok.
  repeat match goal with E : non_blank _ _ = Ok _ |- _ => pose proof E; apply SyncRefinement.non_blank_ok in E as [-> _] end. simpl in *.
  destruct (uuid_in (d_recipientUserId dto)) as [u|]; [|done]. simplify_eq.
  match goal with E : bigint_in _ = Ok _ |- _ => pose proof E; apply bigint_ok in E as -> end.
  eexists _, _. by split_and!.
Qed.

(** Metadata is an object or an array, or absent: it is not parsed again. *)
Lemma metadata_once dto meta v : invite_dto_ok dto = true -> parsed_metadata (d_metadata dto) = Ok meta ->
  (if json_truthy meta then jsonb_column meta else Ok JNull) = Ok v -> json_again v = Ok v.
Proof.
  intros Hd Hm Hv. unfold invite_dto_ok in Hd. rewrite !andb_true_iff in Hd. destruct Hd as (_ & Hj).
  unfold parsed_metadata in Hm. destruct (d_metadata dto) as [s|]; [|by simplify_eq/=].
  apply andb_true_iff in Hj as [Hj _]. unfold is_json in Hj. destruct (not_empty s); [|by simplify_eq/=].
  destruct (JSON_parse s) as [w|]; [|done]. simplify_eq. unfold jsonb_column in Hv.
  destruct (json_truthy meta) eqn:Et; [|by simplify_eq]. destruct (jsonb_in meta) as [j|] eqn:Ej; [|done]. simplify_eq.
  destruct v; try done. apply jsonb_in_text in Ej as ->. done.
Qed.

Lemma uuid_not_blank cls s u : uuid_in s = Some u -> non_blank cls s = Ok s.
Proof.
  intros Hu. pose proof (uuid_in_text s u Hu) as Ht. unfold non_blank. rewrite Ht, orb_false_r.
  destruct s; [|done]. by vm_compute in Ht.
Qed.

(** The only envelope for a recipient, scope and epoch. *)
Lemma only_envelope row d : existsb (clashes row) (key_envelopes d) = false ->
  envelopes_for (env_scope row) (recipient row) (Some (env_epoch row)) (set_envelopes (key_envelopes d ++ [row]) d) = [row].
Proof.
  intros Hex. unfold envelopes_for. simpl. rewrite filter_app, filter_cons_True by (by rewrite !bool_decide_true, Z.eqb_refl by done).
  rewrite filter_nil. generalize dependent (key_envelopes d). intros l Hex.
  assert (filter (fun r => bool_decide (env_scope r = env_scope row) && bool_decide (recipient r = recipient row) &&
    (env_epoch r =? env_epoch row)%Z = true) l = []) as ->; [|done].
  induction l as [|x l IH]; [done|]. simpl in Hex. apply orb_false_iff in Hex as [Hx Hex].
  unfold clashes in Hx. apply orb_false_iff in Hx as [Hx _]. unfold same_place in Hx. rewrite filter_cons, Hx. simpl. by apply IH.
Qed.

Lemma envelope_entity row : SharedScopeId_from (env_scope row) = Ok (env_scope row) -> EnvelopeId_from (envelope_id row) = Ok (envelope_id row) ->
  UserId_from (recipient row) = Ok (recipient row) -> json_again (env_metadata row) = Ok (env_metadata row) ->
  KyselyKeyEnvelopeRepository.mapRowToEntity row = Ok row.
Proof. intros H1 H2 H3 H4. unfold KyselyKeyEnvelopeRepository.mapRowToEntity. rewrite H1, H2, H3, H4. by destruct row. Qed.

End Invariant.
End SharingServerLemmas.

(** ** Properties *)

Module SharingServerProperties.
Import ChainSpec Interleaved SharingServerLemmas.
Import KyselyScopeStateRepository KyselyResourceGrantRepository KyselyKeyVaultRepository KyselyKeyEnvelopeRepository.

Section Properties.
Context `{Postgres}.

(** C27: However the transactions of the three repositories interleave, the streams stay
    linear. In every state that begun, checked and later written appends and invitations can
    reach, the states of a scope, its grants and a user's key records are numbered from 1
    without gap or repetition, each naming the hash of the one before; the head of a scope
    and of a vault is its last row; no grant identifier repeats and the head of a resource
    is its latest active grant; a recipient has one envelope per scope and epoch. (Of grants
    there are none: the database refuses the first query of every append.) *)
Theorem streams_linear w : reachable w ->
  (forall scope, chain (states_of scope (db w)) /\
     (head_seq <$> scope_state_heads (db w) !! scope) = row_seq <$> last (states_of scope (db w)) /\
     (scope_state_heads (db w) !! scope ≫= head_ref) = head_hash (states_of scope (db w))) /\
  (forall scope, chain (grants_of scope (db w)) /\ forall resource,
     resource_grant_heads (db w) !! (scope, resource) =
       (fun r => ActiveHead (grant_id r) (grant_seq r) (grant_hash r)) <$> last (active_of scope resource (db w))) /\
  NoDup (map grant_id (resource_grants (db w))) /\
  (forall user, chain (records_of user (db w)) /\
     (vh_seq <$> keyvault_heads (db w) !! user) = row_seq <$> last (records_of user (db w))) /\
  NoDup (map place (key_envelopes (db w))).
Proof.
  intros Hr. destruct (reachable_ok w Hr) as [Hd _]. split_and!; try apply Hd.
  - intros scope. split; [apply Hd|]. pose proof (ok_states _ Hd scope) as Hc. pose proof (ok_state_heads _ Hd scope) as Hh.
    destruct (_ !! scope) as [h|]; [|by rewrite Hh]. destruct Hh as (Hs & Hf & Hne). split; [|done].
    destruct (last _) as [r|] eqn:El; [|by apply last_None in El]. simpl. rewrite Hs. f_equal. symmetry. exact (chain_last _ _ Hc El).
  - intros scope. split; apply Hd.
  - intros user. split; [apply Hd|]. pose proof (ok_records _ Hd user) as Hc. pose proof (ok_vault_heads _ Hd user) as Hh.
    destruct (_ !! user) as [h|]; [|by rewrite Hh]. destruct Hh as (Hs & Hf & Hne).
    destruct (last _) as [r|] eqn:El; [|by apply last_None in El]. simpl. rewrite Hs. f_equal. symmetry. exact (chain_last _ _ Hc El).
Qed.

(** Appending a state follows the plan of a hash-chained log. In any reachable database
    the append is refused, without a trace, when the expected head is not the number of
    states, when the predecessor's hash is missing, superfluous or not the head's, or when a
    value has no place in its column; otherwise it answers the next number and the
    reference, the scope's stream is one row longer, and no other stream changes. *)
Theorem append_state_outcome w now scope e st : reachable w ->
  appendState now scope e st (db w) =
  match append_plan state_mismatch (states_of scope (db w)) e (in_prevHash st) with
  | Err err => (Err err, db w)
  | Ok n =>
      match state_row now scope n st with
      | Err err => (Err err, db w)
      | Ok row => (Ok (n, in_stateRef st), with_state row (db w))
      end
  end /\
  forall row n, state_row now scope n st = Ok row ->
    states_of scope (with_state row (db w)) = states_of scope (db w) ++ [row] /\
    (forall other, other <> scope -> states_of other (with_state row (db w)) = states_of other (db w)) /\
    getHeadRef scope (with_state row (db w)) = (Ok (Some (in_stateRef st)), with_state row (db w)).
Proof.
  intros Hr. destruct (reachable_ok w Hr) as [Hd _]. split; [by apply append_state_run|].
  intros row n (Hsc & _ & _ & _ & Href)%state_row_ok. rewrite states_with, Hsc, decide_True by done. split_and!; [done| |].
  - intros other Hne. rewrite states_with, decide_False, app_nil_r; congruence.
  - unfold getHeadRef, gets. f_equal. f_equal. unfold with_state. simpl. by rewrite Hsc, lookup_insert_eq, <- Href.
Qed.

(** A client that follows nextSince reads a whole stream. For each of the three streams, in any
    reachable database, and any limit the interface admits, asking from some number and
    then from each nextSince until there is none ends after at most one request more than
    the stream has rows, and the pages together are exactly the rows after that number, in
    order; also when the last page is full, which costs one empty page. *)
Theorem streams_paged w limit since fuel identity : reachable w -> (1 <= limit <= 500)%Z -> (0 <= since < 2 ^ 63)%Z ->
  (forall scope es, SharedScopeId_from scope = Ok scope ->
     mapM KyselyScopeStateRepository.mapRowToEntity (states_of scope (db w)) = Ok es -> length es < fuel ->
     follow fuel (fun from => getMembership scope (Some from) (Some limit) (Some identity)) since (db w) =
       (Ok (Some (drop (Z.to_nat since) es)), db w)) /\
  (forall scope es, SharedScopeId_from scope = Ok scope ->
     mapM KyselyResourceGrantRepository.mapRowToEntity (grants_of scope (db w)) = Ok es -> length es < fuel ->
     follow fuel (fun from => getGrants scope (Some from) (Some limit) (Some identity)) since (db w) =
       (Ok (Some (drop (Z.to_nat since) es)), db w)) /\
  (forall u es, uuid_column identity = Ok u ->
     mapM KyselyKeyVaultRepository.mapRowToEntity (records_of u (db w)) = Ok es -> length es < fuel ->
     follow fuel (fun from => p ← getUpdates (Some from) (Some limit) (Some identity); mret p.1) since (db w) =
       (Ok (Some (drop (Z.to_nat since) es)), db w)).
Proof.
  intros Hr Hlim Hs. destruct (reachable_ok w Hr) as [Hd _].
  destruct (Z_of_nat_complete since) as [k ->]; [lia|]. rewrite Nat2Z.id.
  split_and!.
  - intros scope es Hsc Hm Hf.
    apply (paged_stream KyselyScopeStateRepository.mapRowToEntity (states_of scope (db w)) es _ _ limit); [apply Hd|apply Hd|lia|done|apply state_entity_seq|lia| |done].
    intros j Hj. unfold getMembership. rewrite page_dto by lia. simpl. unfold mbind, js_bind, lift_result. rewrite Hsc. simpl.
    rewrite seq_from by lia. unfold getMembershipStream, mbind, js_bind, KyselyScopeStateRepository.loadSince, reads, lift_result.
    rewrite bigint_fits by done. simpl. by destruct (mapM _ (page_since _ _ _ _)).
  - intros scope es Hsc Hm Hf.
    apply (paged_stream KyselyResourceGrantRepository.mapRowToEntity (grants_of scope (db w)) es _ _ limit); [apply Hd|apply Hd|lia|done|apply grant_entity_seq|lia| |done].
    intros j Hj. unfold getGrants. rewrite page_dto by lia. simpl. unfold mbind, js_bind, lift_result. rewrite Hsc. simpl.
    rewrite seq_from by lia. unfold getGrantStream, mbind, js_bind, KyselyResourceGrantRepository.loadSince, reads, lift_result.
    rewrite bigint_fits by done. simpl. by destruct (mapM _ (page_since _ _ _ _)).
  - intros u es Hu Hm Hf. destruct (vault_head_runs identity u (db w) Hd Hu) as [h Hh].
    apply (paged_stream KyselyKeyVaultRepository.mapRowToEntity (records_of u (db w)) es _ _ limit); [apply Hd|apply Hd|lia|done|apply vault_entity_seq|lia| |done].
    intros j Hj. unfold getUpdates. rewrite page_dto by lia. simpl. unfold mbind, js_bind, lift_result.
    rewrite seq_from by lia. unfold getUpdateStream, mbind, js_bind, KyselyKeyVaultRepository.loadSince, lift_result.
    unfold reads at 1. rewrite Hu. simpl. rewrite bigint_fits by done. simpl. destruct (mapM _ (page_since _ _ _ _)) as [rows|]; [|done].
    simpl. destruct (page_of _ _ _); [|done]. by rewrite Hh.
Qed.
(** The first invitation wins. When a caller's invitation is accepted, the recipient
    (by any text of the identifier) finds exactly that envelope under the scope and epoch,
    with the ciphertext as it was sent; and every later invitation for the same scope,
    recipient and epoch, whoever sends it and whatever it carries, is refused without a
    trace. Nothing asks whether a caller belongs to the scope, so anyone can take a member's
    place first. *)
Theorem invite_first_wins now eid scope dto caller d d' x b user :
  createInvite now eid scope dto (Some caller) d = (Ok x, d') ->
  d_ciphertext dto = of_chars (toBase64 b) -> Forall byte b -> uuid_in user = uuid_in (d_recipientUserId dto) ->
  (exists e, getScopeKey scope (Some (d_scopeEpoch dto)) (Some user) d' = (Ok [e], d') /\
     r_envelopeId e = eid /\ r_scopeId e = scope /\ r_ciphertext e = d_ciphertext dto /\ r_ciphersuite e = d_ciphersuite dto /\
     uuid_in user = Some (r_recipientUserId e)) /\
  (forall now2 eid2 dto2 caller2, uuid_in (d_recipientUserId dto2) = uuid_in (d_recipientUserId dto) ->
     parsed_bigint (d_scopeEpoch dto2) = parsed_bigint (d_scopeEpoch dto) ->
     exists err, createInvite now2 eid2 scope dto2 (Some caller2) d' = (Err err, d')).
Proof.
  intros Hc Hct Hb Hu. rewrite invite_run in Hc. destruct (invite_dto_ok dto) eqn:Hok; [|done].
  destruct (invite_row now eid scope dto) as [row|] eqn:Hrow; [|done]. destruct (existsb _ _) eqn:Hex; [done|]. injection Hc as <- <-.
  destruct (invite_row_ok _ _ _ _ _ Hrow) as (n & meta & Hs & He & Hn & Hbn & Hm & Hr & Es & Ee & En & Ef & Ec & Ect & Ecr & Emeta).
  split.
  - exists (envelope_response row). unfold getScopeKey, authenticated, mbind, js_bind, lift_result, getEnvelopes, reads, mret, js_ret.
    assert (not_empty (d_scopeEpoch dto) && forallb is_digit (chars (d_scopeEpoch dto)) = true) as ->.
    { unfold invite_dto_ok in Hok. rewrite !andb_true_iff in Hok. rewrite andb_true_iff. tauto. }
    simpl. rewrite Hs, Hn. simpl. rewrite Hr in Hu. unfold UserId_from. rewrite (uuid_not_blank _ _ _ Hu). unfold uuid_column. rewrite Hu. simpl.
    rewrite Hbn. simpl. subst scope eid n. rewrite only_envelope by done. simpl. rewrite envelope_entity; [|done|done| |].
    + simpl. rewrite Ect, Hct, chars_of_chars, base64_back by done. by split_and!.
    + by apply (uuid_not_blank _ _ _ (uuid_in_canonical _ _ Hr)).
    + by apply (metadata_once dto meta).
  - intros now2 eid2 dto2 caller2 Hr2 Hn2. rewrite invite_run. destruct (invite_dto_ok dto2); [|by eexists].
    destruct (invite_row now2 eid2 scope dto2) as [row2|] eqn:Hrow2; [|by eexists].
    destruct (invite_row_ok _ _ _ _ _ Hrow2) as (n2 & meta2 & _ & _ & Hn' & _ & _ & Hr' & Es' & _ & En' & _).
    assert (existsb (clashes row2) (key_envelopes (set_envelopes (key_envelopes d ++ [row]) d)) = true) as ->; [|by eexists].
    simpl. rewrite existsb_app. simpl. unfold clashes at 2, same_place.
    rewrite !bool_decide_true by congruence. replace (env_epoch row) with (env_epoch row2) by congruence.
    by rewrite Z.eqb_refl, orb_true_r.
Qed.

End Properties.
End SharingServerProperties.

(** ** Witnesses *)

Module SharingServerWitnesses.
Import ChainSpec Interleaved SharingServerLemmas SharingServerProperties.
Import KyselyScopeStateRepository KyselyResourceGrantRepository KyselyKeyVaultRepository KyselyKeyEnvelopeRepository.

Lemma any_text s u : (if (strlen (trim s) =? 0)%Z then None else Some s) = Some u -> u = s /\ (strlen (trim s) =? 0)%Z = false.
Proof. destruct (_ =? 0)%Z; [done|]. by intros [= ->]. Qed.
Lemma any_text_canonical s u : (if (strlen (trim s) =? 0)%Z then None else Some s) = Some u ->
  (if (strlen (trim u) =? 0)%Z then None else Some u) = Some u.
Proof. intros [-> E]%any_text. by rewrite E. Qed.
Lemma any_text_text s u : (if (strlen (trim s) =? 0)%Z then None else Some s) = Some u -> (strlen (trim s) =? 0)%Z = false.
Proof. by intros [_ ?]%any_text. Qed.
Lemma any_json (v : json) s : Some v = Some (JStr s) -> v = JStr s.
Proof. by intros [= ->]. Qed.

(** A database that takes any text as a uuid. *)
#[local] Instance a_postgres : Postgres := {|
  uuid_in s := if (strlen (trim s) =? 0)%Z then None else Some s;
  uuid_in_canonical := any_text_canonical;
  uuid_in_text := any_text_text;
  jsonb_in := Some;
  jsonb_in_text := any_json
|}.

Definition a_state (ref : Z) (prev : option Z) : ScopeStateInput :=
  StateInput ((fun p => [p]) <$> prev) [ref] "alice" 0 [] (JObj [("alice", JObj [("role", JStr "owner")])]) (JObj []) "ecdsa-p256" [].
Definition a_grant (id : string) (hash : Z) (prev : option Z) (st : string) : ResourceGrantInput :=
  GrantInput id "goal" ((fun p => [p]) <$> prev) [hash] [12%Z] 0 "key" [1%Z] JNull st [] "ecdsa-p256" [].
Definition a_record : KeyVaultRecordInput := VaultInput None [31%Z] [5%Z] JNull.

Definition ok_number (r : sh_result Z * sharing_db) (n : Z) : bool := match r.1 with Ok m => (m =? n)%Z | Err _ => false end.

Lemma check_state_frame scope e st d : (check_state scope e st d).2 = d.
Proof.
  unfold check_state, mbind, js_bind, gets, lift_result, throw, mret, js_ret. destruct (head_or_zero _); [|done].
  destruct (negb _); [done|]. by destruct (KyselyScopeStateRepository.check_chain _ _ _).
Qed.
Lemma check_record_frame user e r d : (check_record user e r d).2 = d.
Proof.
  unfold check_record, mbind, js_bind, reads, lift_result, throw, mret, js_ret. destruct (head_row user d); [|done]. destruct (head_or_zero _); [|done].
  destruct (negb _); [done|]. by destruct (KyselyKeyVaultRepository.check_chain _ _ _).
Qed.
Lemma checked (r : sh_result Z * sharing_db) n d : r.2 = d -> ok_number r n = true -> r = (Ok n, d).
Proof. destruct r as [[m|] d']; [|done]. simpl. unfold ok_number. simpl. by intros -> ->%Z.eqb_eq. Qed.

(** A transaction that opens and commits with nothing in between. *)
Lemma run_state now scope e st n d : reachable (Sys d []) -> ok_number (check_state scope e st d) n = true ->
  reachable (Sys (write now (P_state scope st n) d).2 []).
Proof.
  intros Hr Hc. eapply rtc_r; [eapply rtc_r; [exact Hr|]|apply (commit now _ d [] [])].
  eapply begin_state. by apply checked; [apply check_state_frame|].
Qed.
Lemma run_record now user e r n d : reachable (Sys d []) -> ok_number (check_record user e r d) n = true ->
  reachable (Sys (write now (P_record user r n) d).2 []).
Proof.
  intros Hr Hc. eapply rtc_r; [eapply rtc_r; [exact Hr|]|apply (commit now _ d [] [])].
  eapply begin_record. by apply checked; [apply check_record_frame|].
Qed.

(** Two states, a key record. *)
Definition db1 : sharing_db := (write 0 (P_state "scope" (a_state 11 None) 1) empty_db).2.
Definition db2 : sharing_db := (write 0 (P_state "scope" (a_state 12 (Some 11%Z)) 2) db1).2.
Definition db3 : sharing_db := (write 0 (P_record "alice" a_record 1) db2).2.

Lemma db3_reachable : reachable (Sys db3 []).
Proof.
  apply (run_record _ _ 0); [|vm_compute; reflexivity].
  apply (run_state _ _ 1); [|vm_compute; reflexivity]. apply (run_state _ _ 0); [|vm_compute; reflexivity]. apply rtc_refl.
Qed.

(** Two transactions that both mean to write the first state of a scope. *)
Definition race : system := Sys (write 0 (P_state "scope" (a_state 13 None) 1) db1).2 [].
Lemma race_reachable : reachable race.
Proof.
  eapply rtc_r; [eapply rtc_r; [eapply rtc_r; [eapply rtc_r; [apply rtc_refl|]|]|]|].
  - apply (begin_state "scope" 0 (a_state 11 None) 1). apply checked; [apply check_state_frame|vm_compute; reflexivity].
  - apply (begin_state "scope" 0 (a_state 13 None) 1). apply checked; [apply check_state_frame|vm_compute; reflexivity].
  - apply (commit 0 (P_state "scope" (a_state 11 None) 1) empty_db [P_state "scope" (a_state 13 None) 1] []).
  - apply (commit 0 (P_state "scope" (a_state 13 None) 1) db1 [] []).
Qed.

Lemma streams_linear_witness :
  map scope_state_ref (states_of "scope" (db race)) = [[11%Z]] /\ chain (states_of "scope" (db race)) /\
  chain (states_of "scope" db3).
Proof.
  split; [vm_compute; reflexivity|]. split.
  - apply (streams_linear race race_reachable).
  - apply (streams_linear (Sys db3 []) db3_reachable).
Defined.

Lemma append_state_outcome_witness :
  (appendState 0 "scope" 2 (a_state 14 (Some 12%Z)) db3).1 = Ok (3%Z, [14%Z]) /\
  (appendState 0 "scope" 2 (a_state 14 (Some 11%Z)) db3).1 = Err (ServerError state_mismatch).
Proof.
  split.
  - destruct (append_state_outcome (Sys db3 []) 0 "scope" 2 (a_state 14 (Some 12%Z)) db3_reachable) as [E _].
    simpl db in E. rewrite E. vm_compute. reflexivity.
  - destruct (append_state_outcome (Sys db3 []) 0 "scope" 2 (a_state 14 (Some 11%Z)) db3_reachable) as [E _].
    simpl db in E. rewrite E. vm_compute. reflexivity.
Defined.

Lemma streams_paged_witness :
  follow 3 (fun from => getMembership "scope" (Some from) (Some 1%Z) (Some "alice")) 0 db3 =
    (Ok (Some (states_of "scope" db3)), db3).
Proof.
  refine (proj1 (streams_paged (Sys db3 []) 1 0 3 "alice" db3_reachable _ _) "scope" (states_of "scope" db3) _ _ _).
  - lia.
  - lia.
  - reflexivity.
  - vm_compute. reflexivity.
  - apply Nat.ltb_lt. vm_compute. reflexivity.
Defined.

Definition an_invite (ciphertext : string) : CreateInviteDto :=
  InviteDto "bob" "0" "ab" "hybrid-kem-1" ciphertext (Some "{}").

Lemma invite_first_wins_witness : exists e d',
  createInvite 0 "envelope" "scope" (an_invite (of_chars (toBase64 [1%Z; 2%Z; 3%Z]))) (Some "mallory") db3 = (Ok "envelope", d') /\
  getScopeKey "scope" (Some "0") (Some "bob") d' = (Ok [e], d') /\ r_envelopeId e = "envelope" /\
  exists err, createInvite 0 "late" "scope" (an_invite "AAAA") (Some "alice") d' = (Err err, d').
Proof.
  destruct (createInvite 0 "envelope" "scope" (an_invite (of_chars (toBase64 [1%Z; 2%Z; 3%Z]))) (Some "mallory") db3) as [r d'] eqn:E.
  assert (r = Ok "envelope") as ->.
  { apply (f_equal fst) in E. simpl in E. rewrite <- E. vm_compute. reflexivity. }
  destruct (invite_first_wins 0 "envelope" "scope" _ "mallory" _ _ _ [1%Z; 2%Z; 3%Z] "bob" E eq_refl) as [(e & He & Hid & _) Hlate].
  - repeat constructor; simpl; lia.
  - reflexivity.
  - exists e, d'. split; [reflexivity|]. split; [exact He|]. split; [exact Hid|].
    apply (Hlate 0%Z "late" (an_invite "AAAA") "alice"); reflexivity.
Defined.

End SharingServerWitnesses.
