(* ===== verification/SharingSystem.v ===== *)
(** * The sharing backend with the parts that use it

    The sync service asks the sharing repositories whether pushed events may be
    stored ([apps/api/src/sync/application/sync.service.ts],
    [validateSharingDependencies]); devices verify the states they pull from the
    backend's streams ([VerificationPipeline.ts]).  [repos_of] gives the service
    the repositories of [SharingServer]; [offered] is a state as a device takes
    it from a stream. *)

From Stdlib Require Import Ascii.
From S2P Require Import Prelude JsValues JsonText Base64Url ValueObjects Sharing SyncServer SharingVerification SharingServer.

(** ** The sync service's view *)

Section View.
Context `{Postgres}.

Definition repos_of (d : sharing_db) : SharingRepos := Repos
  (fun ref => match (KyselyScopeStateRepository.loadByRef ref d).1 with Ok (Some _) => true | _ => false end)
  (fun gid => match (KyselyResourceGrantRepository.loadByGrantId gid d).1 with Ok (Some _) => true | _ => false end)
  (fun scope => match (KyselyScopeStateRepository.getHeadRef scope d).1 with Ok h => h | Err _ => None end)
  (fun scope resource =>
     match (KyselyResourceGrantRepository.getActiveGrant scope resource d).1 with
     | Ok (Some g) => Some (Active (grant_id g) (resource_key_id g))
     | _ => None
     end).

(** An event that names its scope, its grant and its scope's state. *)
Definition names_all (e : SyncIncomingEvent) : bool :=
  match truthy (in_scopeId e), truthy (in_grantId e), in_scopeStateRef e with
  | Some _, Some _, Some _ => true
  | _, _, _ => false
  end.

End View.

(** A state of a stream as a device hands it to the pipeline; its members and
    signers are whatever the device reads from the stream. *)
Definition offered (r : StateRow) (i : VerificationPipeline.VerifyScopeStateInput) : Prop :=
  VerificationPipeline.si_scopeStateRef i = scope_state_ref r /\
  VerificationPipeline.si_scopeId i = st_scope r /\
  VerificationPipeline.si_scopeStateSeq i = scope_state_seq r /\
  VerificationPipeline.si_prevHash i = st_prev_hash r.

(** ** Lemmas *)

Module SharingSystemLemmas.
Import SyncSpec SyncRefinement ChainSpec SharingServer.Interleaved SharingServerLemmas.

Section Lemmas.
Context `{Postgres}.

(** *** No grant is ever stored *)

Definition no_grants (w : system) : Prop :=
  resource_grants (db w) = [] /\ resource_grant_heads (db w) = ∅ /\
  Forall (fun p => match p with P_grant _ _ _ => False | _ => True end) (open w).

Lemma append_refused now scope e g d :
  KyselyResourceGrantRepository.appendGrant now scope e g d = (Err KyselyResourceGrantRepository.aggregate_lock, d).
Proof. done. Qed.

Lemma write_no_grants now p d : db_ok d -> pending_ok d p -> match p with P_grant _ _ _ => False | _ => True end ->
  resource_grants (write now p d).2 = resource_grants d /\ resource_grant_heads (write now p d).2 = resource_grant_heads d.
Proof.
  intros Hd Hp Hg. unfold write. destruct p as [scope st n|scope g n|user r n]; simpl in Hp; [|done|].
  - assert (0 <= n)%Z as Hn by (destruct Hp as (k & _ & -> & _); unfold len; lia).
    rewrite write_state_run by done. destruct (KyselyScopeStateRepository.state_row _ _ _ _); [|done]. by destruct (existsb _ _).
  - assert (0 <= n)%Z as Hn by (destruct Hp as (u & _ & k & _ & -> & _); unfold len; lia).
    rewrite write_record_run by done. destruct (KyselyKeyVaultRepository.record_row _ _ _ _); [|done]. by destruct (existsb _ _).
Qed.

Lemma invite_no_grants now e d :
  resource_grants (KyselyKeyEnvelopeRepository.createEnvelope now e d).2 = resource_grants d /\
  resource_grant_heads (KyselyKeyEnvelopeRepository.createEnvelope now e d).2 = resource_grant_heads d.
Proof.
  unfold KyselyKeyEnvelopeRepository.createEnvelope, mbind, js_bind, lift_result, gets, modify, throw.
  destruct (KyselyKeyEnvelopeRepository.envelope_row now e); [|done]. by destruct (existsb _ _).
Qed.

Lemma step_no_grants w w' : sys_ok w -> step w w' -> no_grants w -> no_grants w'.
Proof.
  intros [Hd Hps] Hst (H1 & H2 & H3). destruct Hst as [scope e st n d ps Hc|scope e g n d ps Hc|user e r n d ps Hc|now p d ps qs|now e d ps];
    simpl in *; [split_and!; try done; by constructor|done|split_and!; try done; by constructor| |].
  - apply Forall_app in Hps as [_ [Hp _]%Forall_cons]. apply Forall_app in H3 as [H3 [Hg H4]%Forall_cons].
    destruct (write_no_grants now p d Hd Hp Hg) as [E1 E2]. unfold no_grants. simpl. rewrite E1, E2.
    split_and!; [done|done|by apply Forall_app].
  - destruct (invite_no_grants now e d) as [E1 E2]. unfold no_grants. simpl. by rewrite E1, E2.
Qed.

Lemma reachable_no_grants w : reachable w -> no_grants w.
Proof.
  intros Hr. assert (sys_ok start /\ no_grants start) as Hs by (split; [apply start_ok|by split_and!]).
  unfold reachable in Hr. revert Hs. induction Hr as [|x y z Hxy _ IH]; intros [Hok Hno]; [done|].
  apply IH. split; [by eapply step_keeps|by eapply step_no_grants].
Qed.

(** *** The check of a push *)

Lemma check_without_grants d e : resource_grants d = [] ->
  match check_dependencies (repos_of d) e with
  | Ok None => names_all e = false
  | Ok (Some why) => names_all e = true /\ why = missing_deps
  | Err _ => names_all e = true
  end.
Proof.
  intros Hno. unfold check_dependencies, names_all.
  destruct (truthy (in_scopeId e)) as [scope|]; [|done]. destruct (truthy (in_grantId e)) as [gid|]; [|done].
  destruct (in_scopeStateRef e) as [ref|]; [|done].
  assert (forall g, loadByGrantId (repos_of d) g = false) as Hg.
  { intros g. simpl. unfold KyselyResourceGrantRepository.loadByGrantId, KyselyResourceGrantRepository.with_id, reads. by rewrite Hno. }
  unfold mbind, result_bind. destruct (SharedScopeId_from scope); [|done]. destruct (SharedGrantId_from gid) as [g|]; [|done].
  destruct (truthy (in_resourceId e)) as [rid|]; [destruct (SharedResourceId_from rid); [|done]|].
  all: rewrite Hg; by destruct (loadByRef _ _).
Qed.

Lemma check_all_without_grants d es : resource_grants d = [] ->
  if existsb names_all es then check_all (repos_of d) es <> Ok None else check_all (repos_of d) es = Ok None.
Proof.
  intros Hno. induction es as [|e es IH]; [done|]. simpl. pose proof (check_without_grants d e Hno) as He.
  destruct (check_dependencies (repos_of d) e) as [[why|]|err]; [destruct He as [-> _]; done| |by rewrite He].
  by rewrite He.
Qed.

(** A push whose check does not pass stores nothing. *)
Lemma push_refused repos identity store expected es s : server_ok s -> check_all repos es <> Ok None ->
  let '(r, s') := push (Some repos) identity store expected es s in
  (forall h assigned, r <> Ok (PushOk h assigned)) /\ forall o st, log o st s' = log o st s.
Proof.
  intros Hok Hc. unfold push, mbind, js_bind, lift_result, SyncOwnerId_from, SyncStoreId_from.
  destruct (non_blank "SyncOwnerId" identity) as [o|] eqn:Ho; [|done]. destruct (non_blank "SyncStoreId" store) as [st|]; [|done].
  destruct (GlobalSequenceNumber_from expected) as [x|]; [|done].
  apply non_blank_ok in Ho as [-> Ho]. pose proof (pushEvents_spec (Some repos) identity st x es s Hok Ho) as Hp.
  destruct (may_use identity st s); [|by rewrite Hp]. destruct Hp as (s' & -> & _ & Hlog & [Hoth _] & _).
  unfold push_outcome in *. simpl validateSharingDependencies in *.
  assert (log identity st s' = log identity st s) as Hsame by (rewrite Hlog; by destruct (check_all repos es) as [[why|]|err]).
  split; [by destruct (check_all repos es) as [[why|]|err]|]. intros o' st'.
  destruct (decide ((o', st') = (identity, st))) as [[= -> ->]|Hne]; [done|by rewrite Hoth].
Qed.

(** A push whose checks pass is a push without checks. *)
Lemma push_unchecked repos identity store expected es s : validateSharingDependencies repos es = Ok None ->
  push repos identity store expected es s = push None identity store expected es s.
Proof.
  intros Hv. assert (forall o st e, pushEvents repos o st e es = pushEvents None o st e es) as He.
  { intros o st e. unfold pushEvents. by rewrite Hv. }
  unfold push, mbind, js_bind, lift_result. destruct (SyncOwnerId_from identity); [|done]. destruct (SyncStoreId_from store); [|done].
  destruct (GlobalSequenceNumber_from expected); [|done]. by rewrite He.
Qed.

End Lemmas.
End SharingSystemLemmas.

(** ** Properties *)

Module SharingSystemProperties.
Import SyncSpec SyncRefinement ChainSpec SharingServer.Interleaved SharingServerLemmas SharingSystemLemmas.

Section Properties.
Context `{Postgres}.

(** C28: No event with a complete authorisation can be published. Every append of a grant is
    refused, its first query asks the database for row locks on an aggregate, and changes
    nothing. So, however the requests of the backend interleave, no grant is ever stored and
    no resource has an active one; the sync service's check passes exactly for the events
    that leave out the scope, the grant or the state (they are not checked at all); a push
    with any event that names all three is not accepted and stores nothing, in no log of any
    owner; and a push of other events is a push without checks. *)
Theorem grants_never_stored w : reachable w ->
  (forall now scope e g, KyselyResourceGrantRepository.appendGrant now scope e g (db w) =
     (Err KyselyResourceGrantRepository.aggregate_lock, db w)) /\
  resource_grants (db w) = [] /\ resource_grant_heads (db w) = ∅ /\
  (forall x, check_dependencies (repos_of (db w)) x = Ok None <-> names_all x = false) /\
  forall identity store expected es s, server_ok s ->
    if existsb names_all es then
      (forall h assigned, (push (Some (repos_of (db w))) identity store expected es s).1 <> Ok (PushOk h assigned)) /\
      (forall o st, log o st (push (Some (repos_of (db w))) identity store expected es s).2 = log o st s)
    else push (Some (repos_of (db w))) identity store expected es s = push None identity store expected es s.
Proof.
  intros Hr. destruct (reachable_no_grants w Hr) as (Hno & Hheads & _). split_and!; [done|done|done| |].
  - intros x. pose proof (check_without_grants (db w) x Hno) as Hx.
    destruct (check_dependencies _ x) as [[why|]|err]; [destruct Hx as [-> _]; done|done|by rewrite Hx].
  - intros identity store expected es s Hok. pose proof (check_all_without_grants (db w) es Hno) as Hall.
    destruct (existsb names_all es); [|by apply push_unchecked].
    pose proof (push_refused (repos_of (db w)) identity store expected es s Hok Hall) as Hp. by destruct (push _ _ _ _ _ s).
Qed.

(** A device refuses every state it pulls from the backend. The backend numbers the
    states of a scope from 1, the device's pipeline wants the first state to have number 0
    and every other to follow one it knows; so a device that knows no states refuses each
    state of each stream, in whatever order it takes them, and goes on knowing none. *)
Theorem device_refuses_stream `{ManifestPlatform} w scope r i now c : reachable w ->
  r ∈ states_of scope (db w) -> offered r i -> SharingVerification.scope_states c = [] ->
  exists details, VerificationPipeline.verifyScopeState now i c =
    (Ok (VerificationPipeline.Refused VerificationPipeline.dependency_missing details), c).
Proof.
  intros Hr Hin (Href & Hsc & Hseq & Hprev) Hc. destruct (reachable_ok w Hr) as [Hd _].
  apply list_elem_of_lookup in Hin as [n Hn].
  pose proof (chain_lookup _ _ _ (ok_states _ Hd scope) Hn) as Hs. pose proof (chain_link _ _ _ (ok_states _ Hd scope) Hn) as Hl.
  simpl in Hs, Hl. unfold VerificationPipeline.verifyScopeState, reads, mbind, js_bind, mret, js_ret.
  unfold DependencyValidator.validateScopeStatePrevHash. rewrite Hseq, Hprev, Hs, Hl.
  assert ((Z.of_nat n + 1 =? 0)%Z = false) as E by (apply Z.eqb_neq; lia).
  destruct n as [|n]; [by eexists|]. destruct (states_of scope (db w) !! n) as [p|] eqn:Hp.
  - simpl fmap. cbv beta iota. rewrite E. unfold ScopeStateStore.loadByRef, ScopeStateStore.first_row. rewrite Hc. by eexists.
  - apply lookup_ge_None in Hp. apply lookup_lt_Some in Hn. lia.
Qed.

End Properties.
End SharingSystemProperties.

(** ** Witnesses *)

Module SharingSystemWitnesses.
Import SyncSpec SyncRefinement ChainSpec SharingServer.Interleaved SharingServerLemmas SharingSystemLemmas SharingSystemProperties SharingServerWitnesses.
#[local] Existing Instance a_postgres.

Definition an_event (gid : option string) : SyncIncomingEvent :=
  Incoming "event" "{}" (Some "scope") (Some "goal") (Some "key") gid (Some [12%Z]) (Some "phone").

(** The scope has two states and its owner sends a grant, which is refused; an
    event under that grant, on the last state, is not stored.  The same event
    without a grant is. *)
Lemma grants_never_stored_witness :
  (KyselyResourceGrantRepository.appendGrant 0 "scope" 0 (a_grant "grant" 21 None "active") db3).2 = db3 /\
  push (Some (repos_of db3)) "alice" "store" 0 [an_event (Some "grant")] empty_server =
    (Ok (PushConflict 0 missing_deps None), (push (Some (repos_of db3)) "alice" "store" 0 [an_event (Some "grant")] empty_server).2) /\
  log "alice" "store" (push (Some (repos_of db3)) "alice" "store" 0 [an_event (Some "grant")] empty_server).2 = [] /\
  (push (Some (repos_of db3)) "alice" "store" 0 [an_event None] empty_server).1 = Ok (PushOk 1 [Assigned "event" 1]).
Proof.
  destruct (grants_never_stored (Sys db3 []) db3_reachable) as (Happ & _ & _ & _ & Hpush).
  split; [|split; [|split]].
  - pose proof (Happ 0%Z "scope" 0%Z (a_grant "grant" 21 None "active")) as E. simpl db in E. by rewrite E.
  - vm_compute. reflexivity.
  - destruct (Hpush "alice" "store" 0%Z [an_event (Some "grant")] empty_server SyncRefinement.empty_ok) as [_ Hlog].
    simpl db in Hlog. rewrite Hlog. reflexivity.
  - pose proof (Hpush "alice" "store" 0%Z [an_event None] empty_server SyncRefinement.empty_ok) as E.
    simpl in E. vm_compute. reflexivity.
Defined.

#[local] Instance toy : ManifestPlatform := {
  cbor_encode _ := [];
  sha256 _ := replicate 32 0%Z;
  sha256_length _ := eq_refl;
  ecdsa_verify _ _ _ := Ok true
}.

(** The first state of the stream, as a new device takes it. *)
Definition taken : VerificationPipeline.VerifyScopeStateInput :=
  VerificationPipeline.StateInput [11%Z] "scope" 1 None "alice" 0 [] [] "ecdsa-p256" [].

Lemma device_refuses_stream_witness : exists details,
  VerificationPipeline.verifyScopeState (num 0) taken empty_cache =
    (Ok (VerificationPipeline.Refused VerificationPipeline.dependency_missing details), empty_cache).
Proof.
  destruct (states_of "scope" db3) as [|r rows] eqn:E.
  { exfalso. apply (f_equal (@length StateRow)) in E. vm_compute in E. discriminate E. }
  apply (device_refuses_stream (Sys db3 []) "scope" r taken (num 0) empty_cache db3_reachable).
  - simpl db. rewrite E. constructor.
  - assert (states_of "scope" db3 !! 0 = Some r) as Hr by (rewrite E; reflexivity). vm_compute in Hr. injection Hr as <-.
    split; [reflexivity|]. split; [reflexivity|]. split; reflexivity.
  - reflexivity.
Defined.

End SharingSystemWitnesses.
