(* ===== verification/Sqlite.v ===== *)
(** * The database worker's SQLite layer

    [worker/sqlite.ts] and [worker/schema.ts] of packages/eventstore-web: the
    worker opens one connection of wa-sqlite over files of the origin private
    file system, installs the schema, and runs the statements its clients send.

    wa-sqlite and its file system are not under src/: they are the class
    [WaSqlite] over a world [W] (the module, the files and the connections).
    Every call of theirs that can reject is a computation of [js W thrown].
    The classes [SqliteTransactions] and [VfsFiles] state the documented
    behaviour that the theorems need; [ToySqlite] is a concrete instance. *)

From Stdlib Require Import Ascii.
From S2P Require Import Prelude JsValues.

(** ** Thrown values *)

Module SqliteInitStages.
Inductive t := loadWasm | initModule | createVfs | awaitVfsReady | addVfsCapacity | vfsRegister
| openDb | applyPragmas | applySchema.
#[global] Instance t_eq_dec : EqDecision t.
Proof. solve_decision. Defined.
End SqliteInitStages.

(** An [Error] with its [name], [message] and, if it has one, [code]; a
    [DOMException], whose legacy code is a number; the worker's own
    [SqliteInitError]; and any other value, as [String] renders it. *)
Inductive thrown : Type :=
| JsErr (name message : string) (code : option string)
| DomException (name message : string) (code : Z)
| SqliteInitError (stage : SqliteInitStages.t) (cause : thrown) (message : string)
| JsVal (text : string) (code : option string).

#[export] Instance thrown_eq_dec : EqDecision thrown.
Proof.
  unfold EqDecision, Decision. decide equality;
    match goal with |- {?a = ?b} + {_} => exact (decide (a = b)) end.
Defined.

(** [new Error(message)] *)
Definition new_error (message : string) : thrown := JsErr "Error" message None.

(** [error instanceof Error ? error.message : String(error)] *)
Definition message_of (e : thrown) : string :=
  match e with
  | JsErr _ m _ | DomException _ m _ | SqliteInitError _ _ m => m
  | JsVal t _ => t
  end.

Definition is_error (e : thrown) : bool := match e with JsVal _ _ => false | _ => true end.

(** [String(error.name)] of an object that has a name. *)
Definition name_of (e : thrown) : option string :=
  match e with
  | JsErr n _ _ | DomException n _ _ => Some n
  | SqliteInitError _ _ _ => Some "SqliteInitError"
  | JsVal _ _ => None
  end.

(** [String(error.code)] of an object that has a code. *)
Definition code_of (e : thrown) : option string :=
  match e with
  | JsErr _ _ c | JsVal _ c => c
  | DomException _ _ c => Some (string_of_Z c)
  | SqliteInitError _ _ _ => None
  end.

Module PlatformErrorCodes.
Inductive t := DbOwnershipError | DbLockedError | DbInvalidStateError | WorkerProtocolError
| CanceledError | TimeoutError | TransactionAbortedError | ConstraintViolationError | MigrationError
| DecryptionError | IndexCorruptionError | SyncConflictError.
#[global] Instance t_eq_dec : EqDecision t.
Proof. solve_decision. Defined.
End PlatformErrorCodes.
Import PlatformErrorCodes.

(** [toPlatformError], without a context. *)
Definition toPlatformError (e : thrown) : PlatformErrorCodes.t * string :=
  let fallback := (WorkerProtocolError, if is_error e then message_of e else "Unknown error") in
  match code_of e with
  | None | Some "" => fallback
  | Some code =>
      if includes "CONSTRAINT" code then (ConstraintViolationError, message_of e)
      else if includes "BUSY" code || includes "LOCKED" code then (DbLockedError, message_of e)
      else if includes "ABORT" code then (TransactionAbortedError, message_of e)
      else fallback
  end.

(** ** Values *)

Inductive SqliteValue : Type :=
| VNull | VText (s : string) | VNumber (n : number) | VBlob (b : list Z).

(** What [sqlite3.row] may hold; [COther] is any other value, by its [typeof]. *)
Inductive cell : Type :=
| CNull | CText (s : string) | CNumber (n : number) | CBlob (b : list Z) | CArray (l : list number)
| CBigInt (z : Z) | COther (typeof : string).

Definition MAX_SAFE_INTEGER : Z := 2 ^ 53 - 1.

(** [Number(value)] of a bigint beyond the safe range is itself beyond it. *)
Definition normalizeSqliteValue (c : cell) : result thrown SqliteValue :=
  match c with
  | CNull => Ok VNull
  | CText s => Ok (VText s)
  | CNumber n => Ok (VNumber n)
  | CBlob b => Ok (VBlob b)
  | CArray l => Ok (VBlob (map to_uint8 l))
  | CBigInt z =>
      if (Z.abs z <=? MAX_SAFE_INTEGER)%Z then Ok (VNumber (num z))
      else Err (new_error "SQLite integer exceeds JS safe integer range")
  | COther ty => Err (new_error ("Unsupported SQLite value type: " +:+ ty))
  end.

(** A row object: its keys in insertion order. *)
Definition row : Type := jsmap SqliteValue.

Inductive step_rc : Type := SQLITE_ROW (cells : list cell) | SQLITE_DONE | SQLITE_RC (rc : Z).

(** ** wa-sqlite and its file system *)

Class WaSqlite (W : Type) : Type := {
  wasm_urls : list string;
  (** [fetch] and [arrayBuffer]: [response.ok] and [response.status]. *)
  fetch : string -> js W thrown (bool * Z);
  initModule : js W thrown unit;
  newVfs : string -> js W thrown unit;
  isReady : option (js W thrown unit);
  addCapacity : option (number -> js W thrown unit);
  getCapacity : option (W -> number);
  removeCapacity : option (number -> js W thrown unit);
  vfs_register : js W thrown unit;
  vfs_name : W -> option string;
  vfs_close : js W thrown unit;
  open_v2 : string -> js W thrown Z;
  close : Z -> js W thrown unit;
  (** [exec]: the rows its callback sees. *)
  exec : Z -> string -> js W thrown (list (list cell));
  (** [statements]: the statements of a text, prepared one at a time. *)
  stmt : Type;
  statements : string -> list string;
  prepare : Z -> string -> js W thrown stmt;
  bind_collection : list SqliteValue -> stmt -> result thrown stmt;
  column_names : stmt -> list string;
  step : Z -> stmt -> js W thrown (step_rc * stmt);
  (** A statement yields finitely many rows. *)
  rows_left : stmt -> W -> nat;
  rows_left_step : forall db s w cells s' w',
    step db s w = (Ok (SQLITE_ROW cells, s'), w') -> (rows_left s' w' < rows_left s w)%nat;
  xOpen : string -> Z -> Z -> W -> Z * W;
  xFileSize : Z -> W -> Z * Z;
  xRead : Z -> nat -> Z -> W -> Z * list Z;
  xWrite : Z -> list Z -> Z -> W -> Z * W;
  xTruncate : Z -> Z -> W -> Z * W;
  xSync : Z -> Z -> W -> Z * W;
  xClose : Z -> W -> W;
  (** [xDelete] inside a [try] that ignores its failure. *)
  xDelete : string -> W -> W
}.

Record SqliteContext : Type := Ctx {
  db : Z;
  vfsName : string
}.

#[export] Instance SqliteContext_eq_dec : EqDecision SqliteContext.
Proof. solve_decision. Defined.

(** ** Running statements *)

Section Statements.
Context {W : Type} `{!WaSqlite W}.
Notation run := (js W thrown).

Definition discard {A} (m : run A) : run unit := m ≫= fun _ => mret tt.

(** [while (true) { const rc = await sqlite3.step(stmt); ... }]: [on_row]
    handles a row. The fuel is more than the rows that are left, so the last
    branch is never reached. *)
Fixpoint step_loop {A} (fuel : nat) (d : Z) (on_row : list cell -> result thrown A) (s : stmt) : run (list A) :=
  match fuel with
  | O => throw (new_error "out of fuel")
  | S f =>
      '(rc, s') ← step d s;
      match rc with
      | SQLITE_ROW cells =>
          r ← lift_result (on_row cells);
          rs ← step_loop f d on_row s';
          mret (r :: rs)
      | SQLITE_DONE => mret []
      | SQLITE_RC rc => throw (new_error ("SQLite step error: " +:+ string_of_Z rc))
      end
  end.

(** The body of [for await (const stmt of stmts)]. *)
Definition run_statement {A} (d : Z) (params : list SqliteValue)
    (on_row : stmt -> list cell -> result thrown A) (s : stmt) : run (list A) :=
  s ← lift_result (match params with [] => Ok s | _ => bind_collection params s end);
  fuel ← gets (fun w => S (rows_left s w));
  step_loop fuel d (on_row s) s.

Fixpoint run_texts {A} (d : Z) (params : list SqliteValue)
    (on_row : stmt -> list cell -> result thrown A) (texts : list string) : run (list A) :=
  match texts with
  | [] => mret []
  | t :: texts =>
      s ← prepare d t;
      rs ← run_statement d params on_row s;
      rs' ← run_texts d params on_row texts;
      mret (rs ++ rs')
  end.

(** [row[columns[i]] = rowValues[i]] over all columns. *)
Definition row_object (columns : list string) (values : list SqliteValue) : row :=
  fold_left (fun o '(k, v) => map_set k v o) (zip columns values) [].

Definition read_row (s : stmt) (cells : list cell) : result thrown row :=
  row_object (column_names s) <$> mapM normalizeSqliteValue cells.

Definition runQuery (d : Z) (sql : string) (params : list SqliteValue) : run (list row) :=
  run_texts d params read_row (statements sql).

Definition runExecute (d : Z) (sql : string) (params : list SqliteValue) : run unit :=
  discard (run_texts d params (fun _ _ => Ok tt) (statements sql)).

Inductive SqliteStatement : Type :=
| Execute (sql : string) (params : option (list SqliteValue))
| Query (sql : string) (params : option (list SqliteValue)).

Definition sql_of (s : SqliteStatement) : string := match s with Execute q _ | Query q _ => q end.

Inductive SqliteBatchResult : Type := Executed | Rows (rows : list row).

Definition run_one (d : Z) (s : SqliteStatement) : run SqliteBatchResult :=
  match s with
  | Execute sql params => runExecute d sql (default [] params) ≫= fun _ => mret Executed
  | Query sql params => rows ← runQuery d sql (default [] params); mret (Rows rows)
  end.

Fixpoint run_all (d : Z) (l : list SqliteStatement) : run (list SqliteBatchResult) :=
  match l with
  | [] => mret []
  | s :: l => r ← run_one d s; rs ← run_all d l; mret (r :: rs)
  end.

(** [BEGIN]; [try { m; COMMIT } catch (error) { try { ROLLBACK } catch {} throw error; }] *)
Definition or_rollback {A} (d : Z) (m : run A) : run A :=
  try_catch m (fun error =>
    try_catch (discard (exec d "ROLLBACK")) (fun _ => skip) ≫= fun _ => throw error).

Definition atomically {A} (d : Z) (m : run A) : run A :=
  exec d "BEGIN" ≫= fun _ =>
  or_rollback d (x ← m; exec d "COMMIT" ≫= fun _ => mret x).

Definition executeStatements (ctx : SqliteContext) (l : list SqliteStatement) : run (list SqliteBatchResult) :=
  atomically (db ctx) (run_all (db ctx) l).
End Statements.

(** ** The schema *)

Definition SCHEMA_VERSION : Z := 1.

Definition SCHEMA_V1 : list string := [
  "CREATE TABLE IF NOT EXISTS events (
    commit_sequence INTEGER PRIMARY KEY AUTOINCREMENT,
    id TEXT NOT NULL UNIQUE,
    aggregate_type TEXT NOT NULL,
    aggregate_id TEXT NOT NULL,
    event_type TEXT NOT NULL,
    payload_encrypted BLOB NOT NULL,
    version INTEGER NOT NULL,
    occurred_at INTEGER NOT NULL,
    actor_id TEXT NULL,
    causation_id TEXT NULL,
    correlation_id TEXT NULL,
    scope_id TEXT NULL,
    resource_id TEXT NULL,
    resource_key_id TEXT NULL,
    grant_id TEXT NULL,
    scope_state_ref BLOB NULL,
    author_device_id TEXT NULL,
    sig_suite TEXT NULL,
    signature BLOB NULL
  )";
  "CREATE UNIQUE INDEX IF NOT EXISTS events_aggregate_version ON events (aggregate_type, aggregate_id, version)";
  "CREATE INDEX IF NOT EXISTS events_aggregate_commit_sequence ON events (aggregate_type, commit_sequence)";
  "CREATE TABLE IF NOT EXISTS snapshots (
    aggregate_type TEXT NOT NULL,
    aggregate_id TEXT NOT NULL,
    snapshot_version INTEGER NOT NULL,
    snapshot_encrypted BLOB NOT NULL,
    last_global_seq INTEGER NOT NULL,
    last_pending_commit_seq INTEGER NOT NULL,
    written_at INTEGER NOT NULL,
    PRIMARY KEY (aggregate_type, aggregate_id)
  )";
  "CREATE TABLE IF NOT EXISTS projection_cache (
    projection_id TEXT NOT NULL,
    scope_key TEXT NOT NULL,
    cache_version INTEGER NOT NULL,
    cache_encrypted BLOB NOT NULL,
    ordering TEXT NOT NULL,
    last_global_seq INTEGER NOT NULL,
    last_pending_commit_seq INTEGER NOT NULL,
    last_commit_sequence INTEGER NOT NULL,
    written_at INTEGER NOT NULL,
    PRIMARY KEY (projection_id, scope_key)
  )";
  "CREATE TABLE IF NOT EXISTS index_artifacts (
    index_id TEXT NOT NULL,
    scope_key TEXT NOT NULL,
    artifact_version INTEGER NOT NULL,
    artifact_encrypted BLOB NOT NULL,
    last_global_seq INTEGER NOT NULL,
    last_pending_commit_seq INTEGER NOT NULL,
    written_at INTEGER NOT NULL,
    PRIMARY KEY (index_id, scope_key)
  )";
  "CREATE TABLE IF NOT EXISTS projection_meta (
    projection_id TEXT PRIMARY KEY,
    ordering TEXT NOT NULL,
    last_global_seq INTEGER NOT NULL,
    last_pending_commit_seq INTEGER NOT NULL,
    last_commit_sequence INTEGER NOT NULL,
    phase TEXT NOT NULL,
    updated_at INTEGER NOT NULL
  )";
  "CREATE TABLE IF NOT EXISTS process_manager_state (
    process_manager_id TEXT NOT NULL,
    scope_key TEXT NOT NULL,
    state_version INTEGER NOT NULL,
    state_encrypted BLOB NOT NULL,
    last_global_seq INTEGER NOT NULL,
    last_pending_commit_seq INTEGER NOT NULL,
    updated_at INTEGER NOT NULL,
    PRIMARY KEY (process_manager_id, scope_key)
  )";
  "CREATE TABLE IF NOT EXISTS idempotency_keys (
    idempotency_key TEXT PRIMARY KEY,
    command_type TEXT NOT NULL,
    aggregate_id TEXT NOT NULL,
    created_at INTEGER NOT NULL
  )";
  "CREATE TABLE IF NOT EXISTS sync_meta (
    store_id TEXT PRIMARY KEY,
    last_pulled_global_seq INTEGER NOT NULL,
    updated_at INTEGER NOT NULL
  )";
  "CREATE TABLE IF NOT EXISTS sync_event_map (
    event_id TEXT PRIMARY KEY,
    global_seq INTEGER NOT NULL UNIQUE,
    inserted_at INTEGER NOT NULL
  )";
  "CREATE INDEX IF NOT EXISTS sync_event_map_global_seq ON sync_event_map (global_seq)";
  "CREATE INDEX IF NOT EXISTS idempotency_keys_created_at ON idempotency_keys (created_at)";
  "CREATE TABLE IF NOT EXISTS scope_states (
    scope_state_ref BLOB PRIMARY KEY,
    scope_id TEXT NOT NULL,
    scope_state_seq TEXT NOT NULL,
    members_json TEXT NOT NULL,
    signers_json TEXT NOT NULL,
    signature BLOB NOT NULL,
    verified_at INTEGER NOT NULL
  )";
  "CREATE INDEX IF NOT EXISTS scope_states_scope_id ON scope_states (scope_id)";
  "CREATE TABLE IF NOT EXISTS resource_grants (
    grant_id TEXT PRIMARY KEY,
    scope_id TEXT NOT NULL,
    resource_id TEXT NOT NULL,
    resource_key_id TEXT NOT NULL,
    wrapped_key BLOB NOT NULL,
    scope_state_ref BLOB NOT NULL,
    status TEXT NOT NULL,
    verified_at INTEGER NOT NULL
  )";
  "CREATE INDEX IF NOT EXISTS resource_grants_scope_id ON resource_grants (scope_id)";
  "CREATE INDEX IF NOT EXISTS resource_grants_resource_id ON resource_grants (resource_id)";
  "CREATE TABLE IF NOT EXISTS crypto_outbox (
    artifact_id TEXT PRIMARY KEY,
    artifact_type TEXT NOT NULL,
    payload TEXT NOT NULL,
    dependencies TEXT NOT NULL,
    status TEXT NOT NULL,
    enqueued_at INTEGER NOT NULL
  )";
  "CREATE INDEX IF NOT EXISTS crypto_outbox_status ON crypto_outbox (status)"
].

Section Schema.
Context {W : Type} `{!WaSqlite W}.
Notation run := (js W thrown).

(** The callback of [readUserVersion] on one row. *)
Definition user_version_row (version : Z) (cells : list cell) : Z :=
  match cells with
  | CNumber n :: _ => if isFinite n then trunc n else version
  | CBigInt z :: _ => z
  | _ => version
  end.

Definition readUserVersion (ctx : SqliteContext) : run Z :=
  rows ← exec (db ctx) "PRAGMA user_version";
  mret (fold_left user_version_row rows 0%Z).

Definition newer_schema (version : Z) : thrown :=
  JsErr "Error" ("Database schema version " +:+ string_of_Z version +:+ " is newer than supported version "
    +:+ string_of_Z SCHEMA_VERSION) (Some "MigrationError").

Definition applySchema (ctx : SqliteContext) : run unit :=
  currentVersion ← readUserVersion ctx;
  if (currentVersion =? SCHEMA_VERSION)%Z then skip
  else if (SCHEMA_VERSION <? currentVersion)%Z then throw (newer_schema currentVersion)
  else atomically (db ctx) (
    (if (currentVersion =? 0)%Z then for_each SCHEMA_V1 (fun s => discard (exec (db ctx) s)) else skip) ≫= fun _ =>
    discard (exec (db ctx) ("PRAGMA user_version = " +:+ string_of_Z SCHEMA_VERSION))).
End Schema.

(** ** Opening and closing the database *)

Section Contexts.
Context {W : Type} `{!WaSqlite W}.
Notation run := (js W thrown).

Definition withInitStage {A} (stage : SqliteInitStages.t) (label : string) (fn : run A) : run A :=
  try_catch fn (fun cause => throw (SqliteInitError stage cause ("SQLite init failed at " +:+ label))).

(** [loadWasmBinary]: the first candidate that loads. *)
Fixpoint loadWasm (lastError : option thrown) (candidates : list string) : run string := fun w =>
  match candidates with
  | [] => (Err (default (new_error "Failed to load wa-sqlite wasm") lastError), w)
  | url :: rest =>
      match fetch url w with
      | (Ok (true, _), w') => (Ok url, w')
      | (Ok (false, status), w') =>
          loadWasm (Some (new_error ("Failed to load wa-sqlite wasm: " +:+ string_of_Z status))) rest w'
      | (Err error, w') => loadWasm (Some error) rest w'
      end
  end.

Definition loadWasmBinary (candidates : list string) : run string := loadWasm None candidates.

(** [a - n] and [n - a] for an integer literal. *)
Definition minus_from (a : Z) (n : number) : number :=
  match n with Dec m k => Dec (a * 10 ^ Z.of_nat k - m) k | NaN => NaN | Infty neg => Infty (negb neg) end.
Definition minus_of (n : number) (a : Z) : number :=
  match n with Dec m k => Dec (m - a * 10 ^ Z.of_nat k) k | NaN => NaN | Infty neg => Infty neg end.

Definition targetCapacity : Z := 12.

Definition ensureCapacity : run unit := fun w =>
  match addCapacity with
  | None => (Ok tt, w)
  | Some addCapacity =>
      match getCapacity with
      | Some capacity =>
          let currentCapacity := capacity w in
          ((if isFinite currentCapacity && num_ltb currentCapacity targetCapacity
            then withInitStage SqliteInitStages.addVfsCapacity "ensure VFS capacity"
              (addCapacity (minus_from targetCapacity currentCapacity))
            else skip) ≫= fun _ =>
           match removeCapacity with
           | Some removeCapacity =>
               if num_lt (num (targetCapacity * 4)) currentCapacity
               then try_catch (removeCapacity (minus_of currentCapacity targetCapacity)) (fun _ => skip)
               else skip
           | None => skip
           end) w
      | None =>
          withInitStage SqliteInitStages.addVfsCapacity "add VFS capacity" (addCapacity (num targetCapacity)) w
      end
  end.

(** [path.startsWith('/') ? path : `/${path}`] *)
Definition rooted (path : string) : string :=
  match path with String "/" _ => path | _ => "/" +:+ path end.

Definition applyPragmas (d : Z) : run unit :=
  exec d "PRAGMA journal_mode = DELETE" ≫= fun _ => discard (exec d "PRAGMA synchronous = FULL").

Definition createSqliteContext (storeId dbName : string) : run SqliteContext :=
  withInitStage SqliteInitStages.loadWasm "wasm" (loadWasmBinary wasm_urls) ≫= fun _ =>
  withInitStage SqliteInitStages.initModule "SQLiteESMFactory" initModule ≫= fun _ =>
  let vfsSeed := "mo-eventstore-" +:+ storeId in
  withInitStage SqliteInitStages.createVfs "create VFS" (newVfs vfsSeed) ≫= fun _ =>
  match isReady with
  | Some ready => withInitStage SqliteInitStages.awaitVfsReady "await VFS ready" ready
  | None => skip
  end ≫= fun _ =>
  ensureCapacity ≫= fun _ =>
  withInitStage SqliteInitStages.vfsRegister "vfs_register" vfs_register ≫= fun _ =>
  d ← withInitStage SqliteInitStages.openDb "open_v2" (open_v2 (rooted dbName));
  withInitStage SqliteInitStages.applyPragmas "PRAGMAs" (applyPragmas d) ≫= fun _ =>
  name ← gets vfs_name;
  let ctx := Ctx d (match name with Some (String c n) => String c n | _ => vfsSeed end) in
  withInitStage SqliteInitStages.applySchema "applySchema" (applySchema ctx) ≫= fun _ =>
  mret ctx.

Definition closeSqliteContext (ctx : SqliteContext) : run unit :=
  close (db ctx) ≫= fun _ => vfs_close.

(** ** Export and import of the main file *)

Definition SQLITE_OK : Z := 0.
Definition SQLITE_OPEN_READONLY : Z := 1.
Definition SQLITE_OPEN_READWRITE : Z := 2.
Definition SQLITE_OPEN_CREATE : Z := 4.
Definition SQLITE_OPEN_MAIN_DB : Z := 256.
Definition SQLITE_SYNC_FULL : Z := 3.
Definition chunkSize : Z := 64 * 1024.

(** [Number.MAX_SAFE_INTEGER - Math.floor(Math.random() * 10_000) - 1] *)
Definition file_id (draw : Z) : Z := (MAX_SAFE_INTEGER - draw - 1)%Z.

(** A call that answers a result code. *)
Definition checked (call : W -> Z * W) (failed : Z -> string) : run unit := fun w =>
  let '(rc, w') := call w in
  if (rc =? SQLITE_OK)%Z then (Ok tt, w') else (Err (new_error (failed rc)), w').

Definition subarray {A} (b : list A) (from upto : Z) : list A :=
  take (Z.to_nat (upto - from)) (drop (Z.to_nat from) b).

(** [for (let offset = 0; offset < size; offset += chunkSize)]: one round
    per unit of fuel, of which the file's size is enough. *)
Fixpoint read_chunks (fuel : nat) (fileId size offset : Z) (bytes : list Z) : W -> result thrown (list Z) := fun w =>
  match fuel with
  | O => Ok bytes
  | S f =>
      if (offset <? size)%Z then
        let length := Z.min chunkSize (size - offset) in
        let '(rc, view) := xRead fileId (Z.to_nat length) offset w in
        if (rc =? SQLITE_OK)%Z then read_chunks f fileId size (offset + chunkSize)%Z (bytes ++ view) w
        else Err (new_error ("VFS xRead failed at offset " +:+ string_of_Z offset +:+ ": " +:+ string_of_Z rc))
      else Ok bytes
  end.

Definition read_file (fileId : Z) (w : W) : result thrown (list Z) :=
  let '(rcSize, size) := xFileSize fileId w in
  if negb (rcSize =? SQLITE_OK)%Z then Err (new_error ("VFS xFileSize failed: " +:+ string_of_Z rcSize))
  else if negb (Z.abs size <=? MAX_SAFE_INTEGER)%Z || (size <? 0)%Z then Err (new_error "Invalid VFS file size")
  else read_chunks (Z.to_nat size) fileId size 0 [] w.

Definition exportVfsFileBytes (draw : Z) (path : string) : run (list Z) :=
  let fileId := file_id draw in
  checked (xOpen (rooted path) fileId (Z.lor SQLITE_OPEN_MAIN_DB SQLITE_OPEN_READONLY))
    (fun rc => "VFS xOpen failed: " +:+ string_of_Z rc) ≫= fun _ =>
  finally (reads (read_file fileId)) (xClose fileId).

Fixpoint write_chunks (fuel : nat) (fileId offset : Z) (bytes : list Z) : run unit :=
  match fuel with
  | O => skip
  | S f =>
      if (offset <? Z.of_nat (length bytes))%Z then
        checked (xWrite fileId (subarray bytes offset (offset + chunkSize)) offset)
          (fun rc => "VFS xWrite failed at offset " +:+ string_of_Z offset +:+ ": " +:+ string_of_Z rc) ≫= fun _ =>
        write_chunks f fileId (offset + chunkSize)%Z bytes
      else skip
  end.

Definition importVfsFileBytes (draw : Z) (path : string) (bytes : list Z) : run unit :=
  let fileId := file_id draw in
  checked (xOpen (rooted path) fileId
      (Z.lor (Z.lor SQLITE_OPEN_MAIN_DB SQLITE_OPEN_READWRITE) SQLITE_OPEN_CREATE))
    (fun rc => "VFS xOpen failed: " +:+ string_of_Z rc) ≫= fun _ =>
  finally
    (checked (xTruncate fileId 0) (fun rc => "VFS xTruncate failed: " +:+ string_of_Z rc) ≫= fun _ =>
     write_chunks (length bytes) fileId 0 bytes ≫= fun _ =>
     checked (xSync fileId SQLITE_SYNC_FULL) (fun rc => "VFS xSync failed: " +:+ string_of_Z rc))
    (xClose fileId).

Definition replaceMainDatabaseBytes (draw : Z) (ctx : SqliteContext) (dbName : string) (bytes : list Z) :
    run SqliteContext :=
  close (db ctx) ≫= fun _ =>
  modify (xDelete (dbName +:+ "-journal")) ≫= fun _ =>
  modify (xDelete (dbName +:+ "-wal")) ≫= fun _ =>
  modify (xDelete (dbName +:+ "-shm")) ≫= fun _ =>
  importVfsFileBytes draw dbName bytes ≫= fun _ =>
  d ← open_v2 (rooted dbName);
  applyPragmas d ≫= fun _ =>
  let next := Ctx d (vfsName ctx) in
  applySchema next ≫= fun _ =>
  mret next.
End Contexts.

(** ** Table names of a statement *)

Section TableNames.

(** [sql.trim().replace(/\s+/g, ' ').toUpperCase()] *)
Fixpoint collapse (after_space : bool) (l : list ascii) : list ascii :=
  match l with
  | [] => []
  | c :: l =>
      if is_space c then if after_space then collapse true l else " "%char :: collapse true l
      else c :: collapse false l
  end.
Definition normalized (sql : string) : list ascii := map upper (collapse false (chars (trim sql))).

(** The pieces of the patterns, matched from left to right: a literal, [\s+],
    and a class repeated once or more, which takes all it can. *)
Fixpoint lit (s : list ascii) (l : list ascii) : option (list ascii) :=
  match s, l with
  | [], _ => Some l
  | c :: s, d :: l => if is_char c d then lit s l else None
  | _ :: _, [] => None
  end.
Fixpoint span (p : ascii -> bool) (l : list ascii) : list ascii * list ascii :=
  match l with
  | c :: l' => if p c then let '(a, b) := span p l' in (c :: a, b) else ([], l)
  | [] => ([], [])
  end.
Definition plus (p : ascii -> bool) (l : list ascii) : option (list ascii * list ascii) :=
  match span p l with ([], _) => None | r => Some r end.
Definition spaces (l : list ascii) : option (list ascii) := snd <$> plus is_space l.

Definition is_letter (c : ascii) : bool := in_range 65 90 c || is_char "_" c.
Definition is_ident (c : ascii) : bool := is_letter c || is_digit c.

(** A keyword after white space, and the captured name at the end. *)
Definition keyword (k : string) (l : list ascii) : option (list ascii) := l ← spaces l; lit (chars k) l.
Definition table (l : list ascii) : option string := l ← spaces l; '(t, _) ← plus is_ident l; Some (of_chars t).

Definition insertPattern (l : list ascii) : option string :=
  l ← lit (chars "INSERT") l;
  let into l := l ← keyword "INTO" l; table l in
  match (l ← keyword "OR" l; l ← spaces l; '(_, l) ← plus is_letter l; into l) with
  | Some t => Some t
  | None => into l
  end.
Definition updatePattern (l : list ascii) : option string := l ← lit (chars "UPDATE") l; table l.
Definition deletePattern (l : list ascii) : option string :=
  l ← lit (chars "DELETE") l; l ← keyword "FROM" l; table l.
Definition createPattern (l : list ascii) : option string :=
  l ← lit (chars "CREATE") l; l ← keyword "TABLE" l; l ← keyword "IF" l; l ← keyword "NOT" l; l ← keyword "EXISTS" l;
  table l.
Definition dropPattern (l : list ascii) : option string :=
  l ← lit (chars "DROP") l; l ← keyword "TABLE" l; l ← keyword "IF" l; l ← keyword "EXISTS" l; table l.

(** [pattern.exec(s)]: the leftmost match. *)
Fixpoint search (pattern : list ascii -> option string) (l : list ascii) : option string :=
  match pattern l with
  | Some t => Some t
  | None => match l with [] => None | _ :: l => search pattern l end
  end.

(** [Array.from(new Set(matches))] *)
Fixpoint uniq (seen l : list string) : list string :=
  match l with
  | [] => []
  | x :: l => if bool_decide (x ∈ seen) then uniq seen l else x :: uniq (x :: seen) l
  end.

Definition patterns : list (list ascii -> option string) :=
  [insertPattern; updatePattern; deletePattern; createPattern; dropPattern].

Definition extractTableNames (sql : string) : list string :=
  uniq [] (omap (fun p => search p (normalized sql)) patterns).
End TableNames.

(** ** Documented behaviour of the library

    SQLite's transactions: [stored] is what is durable, [visible] what the
    connection's statements see. A statement that is not transaction control
    changes nothing durable while a transaction is open; one that fails may
    also have ended the transaction. *)

Class SqliteTransactions (W : Type) `{!WaSqlite W} : Type := {
  data : Type;
  stored : W -> data;
  visible : W -> data;
  in_transaction : Z -> W -> bool;
  ordinary : string -> Prop;
  plain : stmt -> Prop;
  begin_law : forall d w r w', in_transaction d w = false -> exec d "BEGIN" w = (r, w') ->
    stored w' = stored w /\ in_transaction d w' = is_ok r;
  commit_law : forall d w r w', in_transaction d w = true -> exec d "COMMIT" w = (r, w') ->
    if is_ok r then stored w' = visible w /\ in_transaction d w' = false else stored w' = stored w;
  rollback_law : forall d w r w', exec d "ROLLBACK" w = (r, w') ->
    stored w' = stored w /\ in_transaction d w' = false;
  exec_law : forall d t w r w', ordinary t -> in_transaction d w = true -> exec d t w = (r, w') ->
    stored w' = stored w /\ (is_ok r = true -> in_transaction d w' = true);
  prepare_law : forall d t w r w', in_transaction d w = true -> prepare d t w = (r, w') ->
    stored w' = stored w /\ in_transaction d w' = true /\
    (ordinary t -> forall s, r = Ok s -> plain s);
  bind_law : forall params s s', plain s -> bind_collection params s = Ok s' -> plain s';
  step_law : forall d s w r w', plain s -> in_transaction d w = true -> step d s w = (r, w') ->
    stored w' = stored w /\
    (forall rc s', r = Ok (rc, s') -> plain s' /\
      match rc with SQLITE_RC _ => True | _ => in_transaction d w' = true end)
}.

(** The file system, when its calls succeed: a file's bytes, read and written
    through handles. *)
Class VfsFiles (W : Type) `{!WaSqlite W} : Type := {
  content : string -> W -> option (list Z);
  opened : Z -> W -> option string;
  healthy : W -> Prop;
  xOpen_law : forall p i fl w, healthy w -> Z.testbit fl 2 = true \/ is_Some (content p w) ->
    exists w', xOpen p i fl w = (0%Z, w') /\ healthy w' /\ opened i w' = Some p /\
      content p w' = Some (default [] (content p w));
  xTruncate_law : forall p i w, healthy w -> opened i w = Some p -> is_Some (content p w) ->
    exists w', xTruncate i 0 w = (0%Z, w') /\ healthy w' /\ opened i w' = Some p /\ content p w' = Some [];
  xWrite_law : forall p i b bytes w, healthy w -> opened i w = Some p -> content p w = Some b ->
    exists w', xWrite i bytes (Z.of_nat (length b)) w = (0%Z, w') /\ healthy w' /\ opened i w' = Some p /\
      content p w' = Some (b ++ bytes);
  xSync_law : forall p i fl b w, healthy w -> opened i w = Some p -> content p w = Some b ->
    exists w', xSync i fl w = (0%Z, w') /\ healthy w' /\ content p w' = Some b;
  xClose_law : forall p i w, healthy w -> healthy (xClose i w) /\ content p (xClose i w) = content p w;
  xFileSize_law : forall p i b w, healthy w -> opened i w = Some p -> content p w = Some b ->
    xFileSize i w = (0%Z, Z.of_nat (length b));
  xRead_law : forall p i b n off w, healthy w -> opened i w = Some p -> content p w = Some b ->
    (0 <= off)%Z -> (off + Z.of_nat n <= Z.of_nat (length b))%Z ->
    xRead i n off w = (0%Z, take n (drop (Z.to_nat off) b))
}.

(** ** Lemmas *)

Module SqliteProperties.

Create HintDb safe.

Section Loops.
Context {W : Type} `{!WaSqlite W}.

(** The fuel of a statement's loop is enough: any larger amount gives the
    same run. *)
Lemma step_loop_fuel {A} (d : Z) (on_row : list cell -> result thrown A) f g s w :
  (rows_left s w < f)%nat -> (rows_left s w < g)%nat -> step_loop f d on_row s w = step_loop g d on_row s w.
Proof.
  revert g s w. induction f as [|f IH]; intros g s w Hf Hg; [lia|]. destruct g as [|g]; [lia|].
  simpl. unfold mbind, js_bind. destruct (step d s w) as [[[[cells| |rc] s']|e] w'] eqn:E; try done.
  apply rows_left_step in E. unfold lift_result. destruct (on_row cells); [|done].
  rewrite (IH g s' w') by lia. done.
Qed.
End Loops.

Section Atomicity.
Context {W : Type} `{!WaSqlite W} `{!SqliteTransactions W}.
Notation run := (js W thrown).

(** A computation that changes nothing durable while a transaction is open,
    and keeps it open unless it throws. *)
Definition safe {A} (d : Z) (m : run A) : Prop := forall w r w',
  in_transaction d w = true -> m w = (r, w') ->
  stored w' = stored w /\ (is_ok r = true -> in_transaction d w' = true).

Lemma safe_bind {A B} d (m : run A) (f : A -> run B) : safe d m -> (forall a, safe d (f a)) -> safe d (m ≫= f).
Proof.
  intros Hm Hf w r w' Hin. unfold mbind, js_bind. destruct (m w) as [[a|e] w1] eqn:E; intros Hr.
  - destruct (Hm _ _ _ Hin E) as [Hs Ho]. destruct (Hf a _ _ _ (Ho eq_refl) Hr) as [-> H]. by split.
  - injection Hr as <- <-. by destruct (Hm _ _ _ Hin E).
Qed.

Lemma safe_lift {A} d (r : result thrown A) : safe d (lift_result r).
Proof. intros w ? w' Hin [= <- <-]. done. Qed.
Lemma safe_ret {A} d (a : A) : safe d (mret a).
Proof. intros w ? w' Hin [= <- <-]. done. Qed.
Lemma safe_throw {A} d e : safe (A := A) d (throw e).
Proof. intros w ? w' Hin [= <- <-]. done. Qed.
Lemma safe_gets {A} d (f : W -> A) : safe d (gets f).
Proof. intros w ? w' Hin [= <- <-]. done. Qed.
Lemma safe_exec d t : ordinary t -> safe d (exec d t).
Proof. intros Ho w r w' Hin Hr. by eapply exec_law. Qed.
Lemma safe_discard {A} d (m : run A) : safe d m -> safe d (discard m).
Proof. intros Hm. apply safe_bind; [done|]. intros _. apply safe_ret. Qed.
Hint Resolve safe_bind safe_lift safe_ret safe_throw safe_gets safe_exec safe_discard : safe.

Lemma safe_step_loop {A} d (on_row : list cell -> result thrown A) f s : plain s -> safe d (step_loop f d on_row s).
Proof.
  revert s. induction f as [|f IH]; intros s Hs; [apply safe_throw|]. simpl. intros w r w' Hin.
  unfold mbind at 1, js_bind at 1. destruct (step d s w) as [[[rc s']|e] w1] eqn:E; intros Hr.
  - destruct (step_law _ _ _ _ _ Hs Hin E) as [Hst Hrc]. destruct (Hrc _ _ eq_refl) as [Hs' Hin'].
    rewrite <- Hst. destruct rc as [cells| |n].
    + revert Hin' Hr.
      apply (safe_bind d (lift_result (on_row cells))); eauto 6 with safe.
    + injection Hr as <- <-. done.
    + injection Hr as <- <-. done.
  - injection Hr as <- <-. by destruct (step_law _ _ _ _ _ Hs Hin E).
Qed.

Lemma safe_run_texts {A} d params (on_row : stmt -> list cell -> result thrown A) texts :
  Forall ordinary texts -> safe d (run_texts d params on_row texts).
Proof.
  induction 1 as [|t texts Ht _ IH]; [apply safe_ret|]. simpl. intros w r w' Hin.
  unfold mbind at 1, js_bind at 1. destruct (prepare d t w) as [[s|e] w1] eqn:E; intros Hr.
  - destruct (prepare_law _ _ _ _ _ Hin E) as (Hst & Hin1 & Hp). specialize (Hp Ht s eq_refl).
    rewrite <- Hst. revert Hin1 Hr. revert w1 r w' E Hst. intros w1 r w' _ _. revert w1 r w'.
    apply safe_bind; [|by eauto with safe]. unfold run_statement. intros w1 r w' Hin1.
    unfold mbind at 1, js_bind at 1, lift_result. destruct params as [|v ps].
    + apply (safe_bind d (gets _)); [eauto with safe| |done]. intros fuel. by apply safe_step_loop.
    + destruct (bind_collection (v :: ps) s) as [s'|e] eqn:Eb; [|intros [= <- <-]; done].
      apply (safe_bind d (gets _)); [eauto with safe| |done]. intros fuel. apply safe_step_loop. by eapply bind_law.
  - injection Hr as <- <-. by destruct (prepare_law _ _ _ _ _ Hin E).
Qed.

(** All the texts of a batch are ordinary statements. *)
Definition ordinary_statement (s : SqliteStatement) : Prop := Forall ordinary (statements (sql_of s)).

Lemma safe_run_all d l : Forall ordinary_statement l -> safe d (run_all d l).
Proof.
  induction 1 as [|s l Hs _ IH]; [apply safe_ret|]. simpl. apply safe_bind; [|by eauto with safe].
  destruct s as [q ps|q ps]; simpl.
  - apply safe_bind; [|eauto with safe]. unfold runExecute. apply safe_discard. by apply safe_run_texts.
  - apply safe_bind; [|eauto with safe]. by apply safe_run_texts.
Qed.

(** What a transaction leaves behind. *)
Definition all_or_nothing {A} (d : Z) (m : run A) (w : W) (r : result thrown A) (w' : W) : Prop :=
  in_transaction d w' = false /\
  match r with
  | Err _ => stored w' = stored w
  | Ok x => exists rows w1 w2, exec d "BEGIN" w = (Ok rows, w1) /\ m w1 = (Ok x, w2) /\ stored w' = visible w2
  end.

Lemma atomically_spec {A} d (m : run A) w r w' : safe d m -> in_transaction d w = false ->
  atomically d m w = (r, w') -> all_or_nothing d m w r w'.
Proof.
  intros Hm Hin. unfold atomically, or_rollback, try_catch, all_or_nothing. unfold mbind, js_bind.
  destruct (exec d "BEGIN" w) as [[b|e] w1] eqn:Eb;
    destruct (begin_law _ _ _ _ Hin Eb) as [Hst1 Hin1]; simpl in Hin1; [|by intros [= <- <-]].
  (* a rollback keeps what was stored *)
  assert (forall e w2, stored w2 = stored w1 ->
    match discard (exec d "ROLLBACK") w2 with
    | (Ok _, s') => throw e s' | (Err _, s') => match skip (E := thrown) s' with (Ok _, s'') => throw e s'' | (Err e', s'') => (Err e', s'') end
    end = (r, w') -> in_transaction d w' = false /\ r = Err e /\ stored w' = stored w) as Hback.
  { intros e w2 Hs. unfold discard, mbind, js_bind. destruct (exec d "ROLLBACK" w2) as [[?|?] w3] eqn:Er;
      destruct (rollback_law _ _ _ _ Er) as [Hs3 Hin3]; intros [= <- <-]; split; [done| |done|]; split; [done| |done|]; congruence. }
  destruct (m w1) as [[x|e] w2] eqn:Em; destruct (Hm _ _ _ Hin1 Em) as [Hst2 Hin2]; simpl.
  - specialize (Hin2 eq_refl). destruct (exec d "COMMIT" w2) as [[c|e] w3] eqn:Ec;
      pose proof (commit_law _ _ _ _ Hin2 Ec) as Hc; simpl in Hc.
    + intros [= <- <-]. destruct Hc as [Hs3 Hin3]. split; [done|]. eauto 10.
    + intros Hr. specialize (Hback e w3). destruct Hback as (H1 & -> & H2); [congruence| |done].
      revert Hr. by destruct (discard (exec d "ROLLBACK") w3) as [[]].
  - intros Hr. destruct (Hback e w2) as (H1 & -> & H2); [done| |done].
    revert Hr. by destruct (discard (exec d "ROLLBACK") w2) as [[]].
Qed.
End Atomicity.

Section Files.
Context {W : Type} `{!WaSqlite W} `{!VfsFiles W}.
Notation run := (js W thrown).

Local Opaque chunkSize.

Lemma chunkSize_pos : (0 < chunkSize)%Z.
Proof. reflexivity. Qed.

Lemma checked_ok (call : W -> Z * W) failed w w' : call w = (0%Z, w') -> checked call failed w = (Ok tt, w').
Proof. unfold checked. by intros ->. Qed.

(** The next chunk extends what is already there. *)
Lemma take_chunk (bytes : list Z) off : (0 <= off)%Z ->
  take (Z.to_nat off) bytes ++ subarray bytes off (off + chunkSize) = take (Z.to_nat (off + chunkSize)) bytes.
Proof.
  intros H. unfold subarray. rewrite take_take_drop. f_equal. pose proof chunkSize_pos. lia.
Qed.

Lemma write_chunks_spec p i bytes f off w :
  healthy w -> opened i w = Some p -> content p w = Some (take (Z.to_nat off) bytes) -> (0 <= off)%Z ->
  (Z.of_nat (length bytes) - off <= Z.of_nat f)%Z ->
  exists w', write_chunks f i off bytes w = (Ok tt, w') /\ healthy w' /\ opened i w' = Some p /\
    content p w' = Some bytes.
Proof.
  revert off w. induction f as [|f IH]; intros off w Hh Ho Hc H0 Hf.
  { exists w. rewrite take_ge in Hc by lia. done. }
  simpl. destruct (Z.ltb_spec off (Z.of_nat (length bytes))) as [Hlt|Hge].
  2: { exists w. rewrite take_ge in Hc by lia. done. }
  destruct (xWrite_law p i _ (subarray bytes off (off + chunkSize)) w Hh Ho Hc) as (w1 & Hw & Hh1 & Ho1 & Hc1).
  rewrite length_take in Hw. replace (Z.of_nat (Z.to_nat off `min` length bytes)) with off in Hw by lia.
  rewrite take_chunk in Hc1 by done. pose proof chunkSize_pos.
  destruct (IH (off + chunkSize)%Z w1) as (w2 & Hr & Hrest); [done|done|done|lia|lia|].
  exists w2. split; [|done]. erewrite js_bind_run_ok by (by apply checked_ok). done.
Qed.

Lemma read_chunks_spec p i b f off w :
  healthy w -> opened i w = Some p -> content p w = Some b -> (0 <= off)%Z ->
  (Z.of_nat (length b) - off <= Z.of_nat f)%Z ->
  read_chunks f i (Z.of_nat (length b)) off (take (Z.to_nat off) b) w = Ok b.
Proof.
  intros Hh Ho Hc. revert off. induction f as [|f IH]; intros off H0 Hf; simpl.
  { rewrite take_ge by lia. done. }
  destruct (Z.ltb_spec off (Z.of_nat (length b))) as [Hlt|Hge]; [|by rewrite take_ge by lia].
  pose proof chunkSize_pos. erewrite xRead_law by (first [done|lia]). simpl.
  rewrite take_take_drop.
  replace (Z.to_nat off + Z.to_nat (Z.min chunkSize (Z.of_nat (length b) - off)))%nat
    with (Z.to_nat (off + chunkSize) `min` length b)%nat by lia.
  rewrite <- take_take, firstn_all. apply IH; lia.
Qed.

Lemma importVfsFileBytes_spec draw path bytes w : healthy w ->
  exists w', importVfsFileBytes draw path bytes w = (Ok tt, w') /\ healthy w' /\ content (rooted path) w' = Some bytes.
Proof.
  intros Hh. unfold importVfsFileBytes. set (p := rooted path). set (i := file_id draw).
  destruct (xOpen_law p i (Z.lor (Z.lor SQLITE_OPEN_MAIN_DB SQLITE_OPEN_READWRITE) SQLITE_OPEN_CREATE) w Hh)
    as (w1 & E1 & Hh1 & Ho1 & Hc1); [by left|].
  destruct (xTruncate_law p i w1 Hh1 Ho1) as (w2 & E2 & Hh2 & Ho2 & Hc2); [by rewrite Hc1|].
  destruct (write_chunks_spec p i bytes (length bytes) 0 w2) as (w3 & E3 & Hh3 & Ho3 & Hc3); [done..|lia|].
  destruct (xSync_law p i SQLITE_SYNC_FULL _ w3 Hh3 Ho3 Hc3) as (w4 & E4 & Hh4 & Hc4).
  destruct (xClose_law p i w4 Hh4) as [Hh5 Hc5].
  exists (xClose i w4). split; [|split; [done|congruence]].
  erewrite js_bind_run_ok by (by apply checked_ok). unfold finally.
  erewrite js_bind_run_ok by (by apply checked_ok). erewrite js_bind_run_ok by exact E3.
  by rewrite (checked_ok _ _ _ _ E4).
Qed.

Lemma exportVfsFileBytes_spec draw path bytes w :
  healthy w -> content (rooted path) w = Some bytes -> (Z.of_nat (length bytes) <= MAX_SAFE_INTEGER)%Z ->
  exists w', exportVfsFileBytes draw path w = (Ok bytes, w') /\ healthy w' /\ content (rooted path) w' = Some bytes.
Proof.
  intros Hh Hc Hs. unfold exportVfsFileBytes. set (p := rooted path) in *. set (i := file_id draw).
  destruct (xOpen_law p i (Z.lor SQLITE_OPEN_MAIN_DB SQLITE_OPEN_READONLY) w Hh)
    as (w1 & E1 & Hh1 & Ho1 & Hc1); [right; by rewrite Hc|]. rewrite Hc in Hc1. simpl in Hc1.
  destruct (xClose_law p i w1 Hh1) as [Hh2 Hc2].
  exists (xClose i w1). split; [|split; [done|congruence]].
  erewrite js_bind_run_ok by (by apply checked_ok). unfold finally, reads, read_file.
  rewrite (xFileSize_law p i bytes w1) by done. simpl.
  destruct (Z.leb_spec (Z.abs (Z.of_nat (length bytes))) MAX_SAFE_INTEGER); [|lia].
  destruct (Z.ltb_spec (Z.of_nat (length bytes)) 0); [lia|]. simpl.
  rewrite Nat2Z.id. pose proof (read_chunks_spec p i bytes (length bytes) 0 w1) as Hr.
  rewrite Z2Nat.inj_0, take_0 in Hr. by rewrite Hr by (first [done|lia]).
Qed.

(** A backup of the database restores it: on a file system whose calls succeed, the
    bytes that an import writes in chunks of 64 KiB are the bytes the next export of the
    same file reads, whatever the handles drawn at random, and both calls return. *)
Theorem import_then_export draw draw' path bytes w :
  healthy w -> (Z.of_nat (length bytes) <= MAX_SAFE_INTEGER)%Z ->
  exists w1 w2, importVfsFileBytes draw path bytes w = (Ok tt, w1) /\
    exportVfsFileBytes draw' path w1 = (Ok bytes, w2).
Proof.
  intros Hh Hs. destruct (importVfsFileBytes_spec draw path bytes w Hh) as (w1 & E1 & Hh1 & Hc1).
  destruct (exportVfsFileBytes_spec draw' path bytes w1 Hh1 Hc1 Hs) as (w2 & E2 & _). eauto.
Qed.
End Files.

Section Batches.
Context {W : Type} `{!WaSqlite W} `{!SqliteTransactions W}.

(** C29: A batch is atomic: if it returns, what is durable is what its statements made
    visible, run one after the other inside its own transaction; if it throws, at any
    statement, at [BEGIN] or at [COMMIT], nothing durable has changed; and either way no
    transaction is left open. The statements are ordinary: none begins, commits or rolls
    back a transaction itself. *)
Theorem batch_atomic ctx l w r w' :
  Forall ordinary_statement l -> in_transaction (db ctx) w = false ->
  executeStatements ctx l w = (r, w') -> all_or_nothing (db ctx) (run_all (db ctx) l) w r w'.
Proof. intros Hl Hin Hr. by apply atomically_spec; [apply safe_run_all|..]. Qed.

(** The schema is installed as a whole or not at all. *)
Lemma safe_schema_body d version : Forall ordinary SCHEMA_V1 -> ordinary "PRAGMA user_version = 1" ->
  safe d ((if (version =? 0)%Z then for_each SCHEMA_V1 (fun s => discard (exec d s)) else skip) ≫= fun _ =>
    discard (exec d ("PRAGMA user_version = " +:+ string_of_Z SCHEMA_VERSION))).
Proof.
  intros Hs Hp. apply safe_bind; [|intros _; apply safe_discard; by apply safe_exec].
  destruct (_ =? _)%Z; [|apply safe_lift]. induction Hs as [|t l Ht _ IH]; [apply safe_ret|].
  simpl. apply safe_bind; [by apply safe_discard, safe_exec|done].
Qed.

Theorem schema_atomic ctx w v w1 r w' :
  Forall ordinary SCHEMA_V1 -> ordinary "PRAGMA user_version = 1" ->
  readUserVersion ctx w = (Ok v, w1) -> in_transaction (db ctx) w1 = false ->
  applySchema ctx w = (r, w') ->
  (v = 1%Z -> r = Ok tt /\ w' = w1) /\
  ((1 < v)%Z -> r = Err (newer_schema v) /\ w' = w1) /\
  ((v < 1)%Z -> in_transaction (db ctx) w' = false /\ (forall e, r = Err e -> stored w' = stored w1)).
Proof.
  intros Hs Hp Hv Hin. unfold applySchema. rewrite (js_bind_run_ok _ _ _ _ _ Hv).
  destruct (Z.eqb_spec v SCHEMA_VERSION) as [->|Hne].
  { intros [= <- <-]. unfold SCHEMA_VERSION. split_and!; [done|lia|lia]. }
  unfold SCHEMA_VERSION in *. destruct (Z.ltb_spec 1 v) as [Hlt|Hge].
  { intros [= <- <-]. split_and!; [lia|done|lia]. }
  intros Hr%atomically_spec; [|by apply safe_schema_body|done]. destruct Hr as [H1 H2].
  split_and!; [lia|lia|]. intros _. split; [done|]. by intros e ->.
Qed.
End Batches.

Section Names.
Implicit Types l T rest : list ascii.

Lemma elem_of_uniq seen x (l : list string) : x ∈ l -> x ∈ seen \/ x ∈ uniq seen l.
Proof.
  revert seen. induction l as [|y l IH]; intros seen Hx; [by apply not_elem_of_nil in Hx|]. simpl.
  apply elem_of_cons in Hx as [->|Hx]; destruct (bool_decide_reflect (y ∈ seen)); [by left|right; left| |].
  - by apply IH.
  - destruct (IH (y :: seen) Hx) as [[->|?]%elem_of_cons|?]; [right; left|by left|right; by right].
Qed.

Lemma uniq_elem seen x (l : list string) : x ∈ uniq seen l -> x ∈ l /\ x ∉ seen.
Proof.
  revert seen. induction l as [|y l IH]; intros seen; simpl; [by intros ?%not_elem_of_nil|].
  destruct (bool_decide_reflect (y ∈ seen)) as [Hs|Hs].
  - intros [? ?]%IH. split; [by right|done].
  - intros [->|[H1 H2]%IH]%elem_of_cons; [split; [left|done]|]. split; [by right|]. intros H3. apply H2. by right.
Qed.

Lemma uniq_NoDup seen (l : list string) : NoDup (uniq seen l).
Proof.
  revert seen. induction l as [|y l IH]; intros seen; simpl; [constructor|].
  destruct (bool_decide _); [done|]. constructor; [|done]. intros [_ H]%uniq_elem. apply H. left.
Qed.

Lemma span_word p T rest : Forall (fun c => p c = true) T -> (forall c l, rest = c :: l -> p c = false) ->
  span p (T ++ rest) = (T, rest).
Proof.
  induction 1 as [|c T Hc _ IH]; intros Hr; simpl.
  - destruct rest as [|c l]; [done|]. simpl. by rewrite (Hr c l).
  - by rewrite Hc, IH.
Qed.

(** A name: not empty, of the pattern's letters, and ended by another character. *)
Definition word (p : ascii -> bool) T rest : Prop :=
  T <> [] /\ Forall (fun c => p c = true) T /\ (forall c l, rest = c :: l -> p c = false).

Lemma plus_word p T rest : word p T rest -> plus p (T ++ rest) = Some (T, rest).
Proof. intros (Hn & Hp & Hr). unfold plus. rewrite span_word by done. by destruct T. Qed.

Lemma table_word T rest : word is_ident T rest -> table (" "%char :: T ++ rest) = Some (of_chars T).
Proof.
  intros H. unfold table, spaces. pose proof H as (Hn & Hp & _).
  assert (plus is_space (" "%char :: T ++ rest) = Some ([" "%char], T ++ rest)) as ->.
  { apply (plus_word is_space [" "%char] (T ++ rest)). split; [done|]. split; [by repeat constructor|].
    intros c l E. destruct Hp as [|d T Hd Hp]; [done|]. injection E as <- _.
    unfold is_ident, is_letter, is_digit, is_char, is_space, in_range in *. change (code "_"%char) with 95%Z in Hd. lia. }
  simpl. by rewrite plus_word.
Qed.

(** The forms of a normalised statement that writes to a table. *)
Inductive writes : list ascii -> string -> Prop :=
| WritesInsert T rest : word is_ident T rest -> writes (chars "INSERT INTO " ++ T ++ rest) (of_chars T)
| WritesInsertOr o T rest : word is_letter o (chars " INTO " ++ T ++ rest) -> word is_ident T rest ->
    writes (chars "INSERT OR " ++ o ++ chars " INTO " ++ T ++ rest) (of_chars T)
| WritesUpdate T rest : word is_ident T rest -> writes (chars "UPDATE " ++ T ++ rest) (of_chars T)
| WritesDelete T rest : word is_ident T rest -> writes (chars "DELETE FROM " ++ T ++ rest) (of_chars T).

Lemma spaces_letter c l : is_space c = false -> spaces (" "%char :: c :: l) = Some (c :: l).
Proof. intros H. unfold spaces, plus. simpl. by rewrite H. Qed.

Lemma lit_here k l : lit k (k ++ l) = Some l.
Proof. induction k as [|c k IH]; [done|]. simpl. by rewrite (proj2 (is_char_eq c c) eq_refl). Qed.

Lemma keyword_here k c k' l : chars k = c :: k' -> is_space c = false -> keyword k (" "%char :: chars k ++ l) = Some l.
Proof.
  intros E Hc. unfold keyword. rewrite E. cbn [app]. rewrite spaces_letter by done. cbn [mbind option_bind].
  change (c :: k' ++ l) with ((c :: k') ++ l). apply lit_here.
Qed.

(** [INTO t] after [INSERT], with or without [OR ...] before it. *)
Definition into l : option string := l ← keyword "INTO" l; table l.

Lemma into_word T rest : word is_ident T rest -> into (chars " INTO " ++ T ++ rest) = Some (of_chars T).
Proof.
  intros H. unfold into. change (chars " INTO " ++ T ++ rest) with (" "%char :: chars "INTO" ++ " "%char :: T ++ rest).
  rewrite (keyword_here _ "I"%char (chars "NTO")) by done. by apply table_word.
Qed.

Lemma insertPattern_unfold l : insertPattern (chars "INSERT" ++ l) =
  match (l ← keyword "OR" l; l ← spaces l; '(_, l) ← plus is_letter l; into l) with
  | Some t => Some t
  | None => into l
  end.
Proof. unfold insertPattern. rewrite lit_here. done. Qed.

Lemma insert_matches T rest : word is_ident T rest ->
  insertPattern (chars "INSERT INTO " ++ T ++ rest) = Some (of_chars T).
Proof.
  intros H. change (chars "INSERT INTO " ++ T ++ rest) with (chars "INSERT" ++ chars " INTO " ++ T ++ rest).
  rewrite insertPattern_unfold, into_word by done.
  change (chars " INTO " ++ T ++ rest) with (" "%char :: chars "INTO " ++ T ++ rest).
  unfold keyword at 1. change (chars "INTO " ++ T ++ rest) with ("I"%char :: chars "NTO " ++ T ++ rest).
  by rewrite spaces_letter by done.
Qed.

Lemma insert_or_matches o T rest : word is_letter o (chars " INTO " ++ T ++ rest) -> word is_ident T rest ->
  insertPattern (chars "INSERT OR " ++ o ++ chars " INTO " ++ T ++ rest) = Some (of_chars T).
Proof.
  intros Ho H. pose proof Ho as (Hn & Hp & _). destruct o as [|c o]; [done|].
  assert (is_space c = false) as Hc.
  { inversion Hp as [|? ? Hd _]; subst. unfold is_letter, is_char, is_space, in_range in *.
    change (code "_"%char) with 95%Z in Hd. lia. }
  set (k := chars " INTO " ++ T ++ rest) in *.
  change (chars "INSERT OR " ++ (c :: o) ++ k) with (chars "INSERT" ++ " "%char :: chars "OR" ++ " "%char :: c :: o ++ k).
  rewrite insertPattern_unfold, (keyword_here _ "O"%char (chars "R")) by done. cbn [mbind option_bind].
  rewrite spaces_letter by done. cbn [mbind option_bind].
  change (c :: o ++ k) with ((c :: o) ++ k). rewrite plus_word by done. cbn [mbind option_bind].
  unfold k. by rewrite into_word.
Qed.

Lemma search_here p l t : p l = Some t -> search p l = Some t.
Proof. intros H. destruct l; simpl; by rewrite H. Qed.

Lemma writes_found l t : writes l t -> exists p, p ∈ patterns /\ search p l = Some t.
Proof.
  unfold patterns. intros [T rest H|o T rest Ho H|T rest H|T rest H].
  - exists insertPattern. split; [set_solver|]. by apply search_here, insert_matches.
  - exists insertPattern. split; [set_solver|]. by apply search_here, insert_or_matches.
  - exists updatePattern. split; [set_solver|]. apply search_here. unfold updatePattern.
    change (chars "UPDATE " ++ T ++ rest) with (chars "UPDATE" ++ " "%char :: T ++ rest). rewrite lit_here. by apply table_word.
  - exists deletePattern. split; [set_solver|]. apply search_here. unfold deletePattern.
    change (chars "DELETE FROM " ++ T ++ rest) with (chars "DELETE" ++ " "%char :: chars "FROM" ++ " "%char :: T ++ rest).
    rewrite lit_here. cbn [mbind option_bind]. rewrite (keyword_here _ "F"%char (chars "ROM")) by done. by apply table_word.
Qed.

(** The table that a statement writes to is among the names taken from it. *)
Lemma written_table sql t : writes (normalized sql) t -> t ∈ extractTableNames sql.
Proof.
  intros (p & Hp & Hs)%writes_found. unfold extractTableNames.
  destruct (elem_of_uniq [] t (omap (fun p => search p (normalized sql)) patterns)) as [H|H]; [|by apply not_elem_of_nil in H|done].
  apply list_elem_of_omap. eauto.
Qed.

Lemma extractTableNames_NoDup sql : NoDup (extractTableNames sql).
Proof. apply uniq_NoDup. Qed.
End Names.
End SqliteProperties.

(** ** A small instance

    One table of texts. [GET] lists it, [FAIL] violates a constraint, and any
    other statement adds its parameter. *)

Module ToySqlite.

Record toy : Type := Toy {
  live : list Z;
  next : Z;
  durable : list string * Z;
  tx : option (list string * Z);
  files : gmap string (list Z);
  handles : gmap Z string
}.

Definition misuse : thrown := JsErr "SQLiteError" "bad parameter or other API misuse" (Some "21").
Definition no_transaction : thrown := JsErr "SQLiteError" "cannot do this within a transaction" (Some "1").
Definition constraint : thrown := JsErr "SQLiteError" "UNIQUE constraint failed" (Some "SQLITE_CONSTRAINT").

(** The access handles of the pool are exclusive. *)
Definition busy_files : thrown := DomException "InvalidStateError" "another context holds an access handle" 11.

Definition current (w : toy) : list string * Z := default (durable w) (tx w).
Definition set_current (x : list string * Z) (w : toy) : toy :=
  match tx w with
  | Some _ => Toy (live w) (next w) (durable w) (Some x) (files w) (handles w)
  | None => Toy (live w) (next w) x None (files w) (handles w)
  end.
Definition set_tx (x : list string * Z) (t : option (list string * Z)) (w : toy) : toy :=
  Toy (live w) (next w) x t (files w) (handles w).
Definition set_files (f : gmap string (list Z)) (h : gmap Z string) (w : toy) : toy :=
  Toy (live w) (next w) (durable w) (tx w) f h.

Definition is_open (d : Z) (w : toy) : bool := bool_decide (d ∈ live w).

Definition toy_exec (d : Z) (t : string) (w : toy) : result thrown (list (list cell)) * toy :=
  if negb (is_open d w) then (Err misuse, w)
  else if decide (t = "BEGIN") then
    match tx w with None => (Ok [], set_tx (durable w) (Some (durable w)) w) | Some _ => (Err no_transaction, w) end
  else if decide (t = "COMMIT") then
    match tx w with Some x => (Ok [], set_tx x None w) | None => (Err no_transaction, w) end
  else if decide (t = "ROLLBACK") then
    match tx w with Some _ => (Ok [], set_tx (durable w) None w) | None => (Err no_transaction, w) end
  else if decide (t = "PRAGMA user_version") then (Ok [[CNumber (num (current w).2)]], w)
  else if decide (t = "PRAGMA user_version = 1") then (Ok [], set_current ((current w).1, 1%Z) w)
  else (Ok [], w).

Inductive toy_stmt : Type := Put (v : string) | Get (rows : list string) | Fails.

Definition toy_prepare (d : Z) (t : string) (w : toy) : result thrown toy_stmt * toy :=
  if negb (is_open d w) then (Err misuse, w)
  else if decide (t = "GET") then (Ok (Get (current w).1), w)
  else if decide (t = "FAIL") then (Ok Fails, w)
  else (Ok (Put ""), w).

Definition toy_bind (params : list SqliteValue) (s : toy_stmt) : result thrown toy_stmt :=
  match params, s with VText v :: _, Put _ => Ok (Put v) | _, _ => Ok s end.

Definition toy_step (d : Z) (s : toy_stmt) (w : toy) : result thrown (step_rc * toy_stmt) * toy :=
  match s with
  | Put v => (Ok (SQLITE_DONE, s), set_current ((current w).1 ++ [v], (current w).2) w)
  | Get [] => (Ok (SQLITE_DONE, s), w)
  | Get (r :: rs) => (Ok (SQLITE_ROW [CText r], Get rs), w)
  | Fails => (Err constraint, w)
  end.

Definition toy_left (s : toy_stmt) (_ : toy) : nat := match s with Get rs => length rs | _ => 0 end.

Definition toy_open (p : string) (i fl : Z) (w : toy) : Z * toy :=
  match files w !! p with
  | Some _ => (0%Z, set_files (files w) (<[i:=p]> (handles w)) w)
  | None =>
      if Z.testbit fl 2 then (0%Z, set_files (<[p:=[]]> (files w)) (<[i:=p]> (handles w)) w) else (14%Z, w)
  end.

(** The file behind a handle. *)
Definition at_handle (i : Z) (w : toy) : string * list Z :=
  let p := default "" (handles w !! i) in (p, default [] (files w !! p)).

Definition toy_write (i : Z) (b : list Z) (off : Z) (w : toy) : Z * toy :=
  let '(p, f) := at_handle i w in
  let n := Z.to_nat off in
  (0%Z, set_files (<[p := take n f ++ b ++ drop (n + length b) f]> (files w)) (handles w) w).

Definition toy_truncate (i n : Z) (w : toy) : Z * toy :=
  let '(p, f) := at_handle i w in (0%Z, set_files (<[p := take (Z.to_nat n) f]> (files w)) (handles w) w).

Definition newest (w : toy) : toy :=
  Toy (next w :: live w) (next w + 1) (durable w) (tx w) (files w) (handles w).

#[export] Instance toy_sqlite : WaSqlite toy := {|
  wasm_urls := ["wa-sqlite.wasm"];
  fetch _ := mret (true, 200%Z);
  initModule := skip;
  newVfs _ := fun w => if bool_decide (live w = []) then (Ok tt, w) else (Err busy_files, w);
  isReady := Some skip;
  addCapacity := Some (fun _ => skip);
  getCapacity := Some (fun _ => num 12);
  removeCapacity := None;
  vfs_register := skip;
  vfs_name _ := None;
  vfs_close := skip;
  open_v2 _ := fun w => (Ok (next w), newest w);
  close d := fun w =>
    (Ok tt, Toy (filter (fun c => c <> d) (live w)) (next w) (durable w) (tx w) (files w) (handles w));
  exec := toy_exec;
  stmt := toy_stmt;
  statements t := [t];
  prepare := toy_prepare;
  bind_collection := toy_bind;
  column_names _ := ["text"];
  step := toy_step;
  rows_left := toy_left;
  rows_left_step := ltac:(intros d [v|[|r rs]|] w cells s' w' [=]; subst; simpl; lia);
  xOpen := toy_open;
  xFileSize i w := (0%Z, Z.of_nat (length (at_handle i w).2));
  xRead i n off w := (0%Z, take n (drop (Z.to_nat off) (at_handle i w).2));
  xWrite := toy_write;
  xTruncate := toy_truncate;
  xSync _ _ w := (0%Z, w);
  xClose i w := set_files (files w) (delete i (handles w)) w;
  xDelete p w := set_files (delete p (files w)) (handles w) w
|}.

Definition toy_in_tx (d : Z) (w : toy) : bool := is_open d w && bool_decide (is_Some (tx w)).

Ltac toy_cases :=
  repeat match goal with
  | H : context [if ?b then _ else _] |- _ => destruct b eqn:?
  | H : context [match tx ?w with _ => _ end] |- _ => destruct (tx w) eqn:?
  | H : (_, _) = (_, _) |- _ => injection H as <- <-
  end.

#[export] Program Instance toy_transactions : SqliteTransactions toy := {|
  data := list string * Z;
  stored := durable;
  visible := current;
  in_transaction := toy_in_tx;
  ordinary t := t <> "BEGIN" /\ t <> "COMMIT" /\ t <> "ROLLBACK";
  plain _ := True
|}.
Next Obligation.
  intros d w r w' Hin. simpl. unfold toy_exec, toy_in_tx in *. simpl.
  destruct (is_open d w) eqn:Eo; simpl in *; [|intros [= <- <-]; by rewrite Eo].
  destruct (tx w) eqn:Et; [done|]. intros [= <- <-]. split; [done|]. unfold is_open in *. simpl. by rewrite Eo.
Qed.
Next Obligation.
  intros d w r w' Hin. simpl. unfold toy_exec, toy_in_tx in *. simpl.
  apply andb_true_iff in Hin as [Eo Ht]. rewrite Eo. simpl. destruct (tx w) eqn:Et; [|done]. intros [= <- <-]. simpl.
  unfold current. rewrite Et. split; [done|]. by rewrite andb_false_r.
Qed.
Next Obligation.
  intros d w r w'. simpl. unfold toy_exec, toy_in_tx in *. simpl.
  destruct (is_open d w) eqn:Eo; simpl in *; [|intros [= <- <-]; by rewrite Eo].
  destruct (tx w) eqn:Et; intros [= <- <-]; simpl; rewrite ?Et; split; try done; by rewrite andb_false_r.
Qed.
Next Obligation.
  intros d t w r w' (H1 & H2 & H3) Hin. simpl. unfold toy_exec. pose proof Hin as Hin'. unfold toy_in_tx in Hin.
  apply andb_true_iff in Hin as [Eo Ht]. rewrite Eo. simpl. rewrite !decide_False by done.
  unfold set_current. destruct (tx w) eqn:Et; [|done].
  repeat destruct (decide _); intros [= <- <-]; simpl; try done; split; try done.
  intros _. unfold toy_in_tx, is_open in *. simpl. by rewrite Eo.
Qed.
Next Obligation.
  intros d t w r w' Hin. simpl. unfold toy_prepare. pose proof Hin as Hin'. unfold toy_in_tx in Hin.
  apply andb_true_iff in Hin as [Eo Ht]. rewrite Eo. simpl. repeat destruct (decide _); intros [= <- <-]; done.
Qed.
Next Obligation. done. Qed.
Next Obligation.
  intros d s w r w' _ Hin. simpl. pose proof Hin as Hin'. unfold toy_in_tx in Hin. apply andb_true_iff in Hin as [Eo Ht].
  unfold toy_step, set_current. destruct (tx w) eqn:Et; [|done].
  destruct s as [v|[|q qs]|]; intros [= <- <-]; simpl; split; try done; intros rc s' [= <- <-]; split; try done.
  unfold toy_in_tx, is_open in *. simpl. by rewrite Eo.
Qed.

#[export] Program Instance toy_files : VfsFiles toy := {|
  content p w := files w !! p;
  opened i w := handles w !! i;
  healthy _ := True
|}.
Next Obligation.
  intros p i fl w _ H. unfold xOpen, content, opened, toy_sqlite, toy_open in *. destruct (files w !! p) as [b|] eqn:E; simpl.
  - eexists. split; [done|]. simpl. by rewrite lookup_insert_eq, E.
  - destruct H as [H|[? H]]; simpl in H; [rewrite H|congruence]. eexists. split; [done|]. simpl. by rewrite !lookup_insert_eq.
Qed.
Next Obligation.
  intros p i w _ Ho _. simpl in *. unfold toy_truncate, at_handle. rewrite Ho. simpl. eexists. split; [done|]. simpl.
  by rewrite Ho, lookup_insert_eq.
Qed.
Next Obligation.
  intros p i b bytes w _ Ho Hc. simpl in *. unfold toy_write, at_handle. rewrite Ho. simpl. rewrite Hc. simpl.
  eexists. split; [done|]. simpl. rewrite Ho, lookup_insert_eq. split_and!; [done..|].
  rewrite Nat2Z.id, take_ge, drop_ge by lia. by rewrite app_nil_r.
Qed.
Next Obligation. intros p i fl b w _ Ho Hc. simpl in *. eauto. Qed.
Next Obligation. done. Qed.
Next Obligation. intros p i b w _ Ho Hc. simpl in *. unfold at_handle. rewrite Ho. simpl. by rewrite Hc. Qed.
Next Obligation. intros p i b n off w _ Ho Hc H1 H2. simpl in *. unfold at_handle. rewrite Ho. simpl. by rewrite Hc. Qed.

(** A database open at handle 1, with one row. *)
Definition toy_0 : toy := Toy [1%Z] 2 (["first"], 1%Z) None ∅ ∅.
Definition ctx_1 : SqliteContext := Ctx 1 "mo-eventstore-store".
End ToySqlite.

Module SqliteWitnesses.
Import SqliteProperties ToySqlite.

Definition insert (v : string) : SqliteStatement := Execute "INSERT INTO events (id) VALUES (?)" (Some [VText v]).

(** The second statement of this batch fails: nothing is kept of the first. *)
Definition failing_batch : list SqliteStatement := [insert "second"; Execute "FAIL" None; insert "third"].

Lemma batch_atomic_witness :
  all_or_nothing 1 (run_all 1 failing_batch) toy_0 (Err constraint) toy_0 /\
  executeStatements ctx_1 [insert "second"; Query "GET" None] toy_0 =
    (Ok [Executed; Rows [[("text", VText "first")]; [("text", VText "second")]]],
     Toy [1%Z] 2 (["first"; "second"], 1%Z) None ∅ ∅).
Proof.
  split; [|reflexivity]. apply (batch_atomic (W := toy) ctx_1 failing_batch toy_0); [|done|reflexivity].
  repeat constructor; done.
Defined.

Lemma import_then_export_witness : exists w1 w2 : toy,
  importVfsFileBytes 7 "mo.db" [83; 81; 76]%Z toy_0 = (Ok tt, w1) /\
  exportVfsFileBytes 8 "mo.db" w1 = (Ok [83; 81; 76]%Z, w2).
Proof. apply (import_then_export (W := toy) 7 8 "mo.db" [83; 81; 76]%Z toy_0); done. Defined.

Example extract_upsert : extractTableNames
  "INSERT INTO sync_meta (store_id) VALUES (?) ON CONFLICT(store_id) DO UPDATE SET updated_at = 1" = ["SYNC_META"; "SET"].
Proof. reflexivity. Qed.
Example extract_lines : extractTableNames "
  INSERT OR IGNORE
    INTO events (id) VALUES (?)" = ["EVENTS"].
Proof. reflexivity. Qed.
Example fresh_schema :
  let w := Toy [1%Z] 2 ([], 0%Z) None ∅ ∅ in
  applySchema ctx_1 w = (Ok tt, Toy [1%Z] 2 ([], 1%Z) None ∅ ∅).
Proof. reflexivity. Qed.
End SqliteWitnesses.

