(* ===== verification/DbWorker.v ===== *)
(** * The database worker

    [DbOwnerServer] (eventstore-web/src/worker/owner.worker.ts) owns the
    connection of an origin's store and serves the ports of its clients:
    hello, requests, cancellations, table notifications. [Locks] composes the
    workers of several tabs with the browser's lock manager.

    The SQLite library runs without yielding to other messages (it is the
    synchronous build), so a request is one step; a hello waits for the lock
    and for the files to open, and is split there: [begin_hello], then
    [open_context]. *)

From S2P Require Import Prelude JsValues Sqlite.
Import PlatformErrorCodes.

(** ** The protocol: [protocol/types.ts] *)

Inductive DbOwnershipMode : Type :=
| sharedWorker (workerId : string)
| dedicatedWorker (tabId : string)
| mainThread.

Record WorkerHello : Type := Hello {
  storeId : string;
  clientInstanceId : string;
  dbName : string;
  requireOpfs : bool
}.

Inductive WorkerRequest : Type :=
| dbQuery (sql : string) (params : list SqliteValue)
| dbExecute (sql : string) (params : list SqliteValue)
| dbBatch (statements : list SqliteStatement)
| dbShutdown
| dbExportMain
| dbImportMain (bytes : list Z)
| dbSubscribeTables (subscriptionId : string) (tables : list string)
| dbUnsubscribeTables (subscriptionId : string)
| indexStatus (indexId : string)
| indexEnsureBuilt (indexId : string)
| readModelListWindow (readModelId : string) (params : json)
| readModelGetById (readModelId id : string).

Definition request_kind (r : WorkerRequest) : string :=
  match r with
  | dbQuery _ _ => "db.query" | dbExecute _ _ => "db.execute" | dbBatch _ => "db.batch"
  | dbShutdown => "db.shutdown" | dbExportMain => "db.exportMain" | dbImportMain _ => "db.importMain"
  | dbSubscribeTables _ _ => "db.subscribeTables" | dbUnsubscribeTables _ => "db.unsubscribeTables"
  | indexStatus _ => "index.status" | indexEnsureBuilt _ => "index.ensureBuilt"
  | readModelListWindow _ _ => "readModel.listWindow" | readModelGetById _ _ => "readModel.getById"
  end.

(** [data: unknown] of an answer. *)
Inductive response_data : Type :=
| DNull | DRows (rows : list row) | DBatch (results : list SqliteBatchResult) | DBytes (bytes : list Z).

(** ** Diagnostics of the file system *)

(** What an iteration over a directory's entries (kind and name) yields, and
    the error that ends it, if one does. *)
Record listing : Type := Listing { found : list (string * string); broken : option thrown }.

Record directory : Type := Directory {
  entries : option listing;
  getDirectoryHandle : string -> result thrown (option listing)
}.

Record storage_manager : Type := Storage {
  estimate : option (result thrown (option Z * option Z));
  persisted : option (result thrown bool);
  getDirectory : option (result thrown directory)
}.

Record browser : Type := Browser {
  isSecureContext : option bool;
  storage : option storage_manager;
  locks : bool
}.

Record step_error : Type := StepError { se_step : string; se_name : string; se_message : string }.

Record OpfsDiagnostics : Type := Diagnostics {
  secureContext : option bool;
  hasStorage : bool;
  hasGetDirectory : bool;
  hasLocks : bool;
  d_estimate : option (option Z * option Z);
  d_persisted : option bool;
  rootEntries : option (list string);
  vfsDirEntries : option (list string);
  errors : option (list step_error)
}.

Definition step_failed (step : string) (e : thrown) : step_error :=
  StepError step (default "UnknownError" (name_of e)) (message_of e).

(** A step whose failure is recorded, with its value otherwise. *)
Definition attempt {A} (step : string) (m : option (result thrown A)) : option A * list step_error :=
  match m with
  | None => (None, [])
  | Some (Ok a) => (Some a, [])
  | Some (Err e) => (None, [step_failed step e])
  end.

(** [for await (const [name, handle] of dir.entries())], up to [limit]. *)
Definition list_entries (step : string) (limit : nat) (l : option listing) : list string * list step_error :=
  match l with
  | None => ([], [])
  | Some l =>
      (map (fun '(kind, name) => kind +:+ ":" +:+ name) (take limit (found l)),
       match broken l with
       | Some e => if (length (found l) <? limit)%nat then [step_failed step e] else []
       | None => []
       end)
  end.

(** [list.length > 0 ? list : undefined] *)
Definition non_empty (l : list string) : option (list string) := match l with [] => None | _ => Some l end.

Definition collectOpfsDiagnostics (b : browser) (store : string) : OpfsDiagnostics :=
  let vfsDir := "mo-eventstore-" +:+ store in
  let '(est, e1) := attempt "storage.estimate" (storage b ≫= estimate) in
  let '(pers, e2) := attempt "storage.persisted" (storage b ≫= persisted) in
  let '(root, e3) := attempt "storage.getDirectory" (storage b ≫= getDirectory) in
  let '(roots, e4) := match root with Some d => list_entries "root.entries" 50 (entries d) | None => ([], []) end in
  let '(vfs, e5) :=
    match root with
    | Some d =>
        let step := "vfsDir.entries:" +:+ vfsDir in
        match getDirectoryHandle d vfsDir with
        | Ok l => list_entries step 200 l
        | Err e => ([], [step_failed step e])
        end
    | None => ([], [])
    end in
  let has := bool_decide (is_Some (storage b)) in
  let hasDir := bool_decide (is_Some (storage b ≫= getDirectory)) in
  match e1 ++ e2 ++ e3 ++ e4 ++ e5 with
  | [] => Diagnostics (isSecureContext b) has hasDir (locks b) est pers (Some roots) (Some vfs) None
  | errs => Diagnostics (isSecureContext b) has hasDir (locks b) est pers (non_empty roots) (non_empty vfs) (Some errs)
  end.

(** ** Platform errors *)

Record error_context : Type := Context {
  c_errorName : option string;
  c_errorMessage : option string;
  c_storeId : string;
  c_dbName : string;
  c_initStage : option SqliteInitStages.t;
  c_causeName : option string;
  c_causeMessage : string;
  c_causeCode : option Z;
  c_opfsDiagnostics : OpfsDiagnostics;
  c_suggestedAction : option string
}.

Record PlatformError : Type := Platform {
  pe_code : PlatformErrorCodes.t;
  pe_message : string;
  pe_context : option error_context
}.

Definition platform (code : PlatformErrorCodes.t) (message : string) : PlatformError := Platform code message None.
Definition platform_error (e : thrown) : PlatformError := let '(c, m) := toPlatformError e in platform c m.

Inductive WorkerResponse : Type := ok (data : response_data) | error (e : PlatformError).

(** What the worker posts, and what it receives. *)
Inductive message_out : Type :=
| helloOk (mode : DbOwnershipMode) (serverInstanceId : string)
| helloError (e : PlatformError)
| response (requestId : string) (payload : WorkerResponse)
| tablesChanged (tables : list string).

Inductive message_in : Type :=
| hello (m : WorkerHello)
| request (requestId : string) (payload : WorkerRequest)
| cancel (targetRequestId : string).

(** The error a failed hello answers with. *)
Definition causeName (e : thrown) : option string := name_of (match e with SqliteInitError _ c _ => c | _ => e end).

Definition init_error (b : browser) (m : WorkerHello) (e : thrown) : PlatformError :=
  let name := default "UnknownError" (name_of e) in
  let stage := match e with SqliteInitError s _ _ => Some s | _ => None end in
  let cause := match e with SqliteInitError _ c _ => c | _ => e end in
  let causeCode := match cause with DomException _ _ c => Some c | _ => None end in
  let diagnostics := collectOpfsDiagnostics b (storeId m) in
  if bool_decide (name = "InvalidStateError") || bool_decide (name_of cause = Some "InvalidStateError") then
    Platform DbInvalidStateError
      "OPFS returned InvalidStateError while opening the SQLite file. This can happen if another context still holds an exclusive access handle. Try closing other tabs and reloading; if it persists, use Reset Local State."
      (Some (Context (Some name) (Some (message_of e)) (storeId m) (dbName m) stage (name_of cause)
        (message_of cause) causeCode diagnostics (Some "reset")))
  else
    match e with
    | SqliteInitError _ _ message =>
        Platform WorkerProtocolError message
          (Some (Context None None (storeId m) (dbName m) stage (name_of cause) (message_of cause) causeCode
            diagnostics None))
    | _ => platform_error e
    end.

(** ** [DbOwnerServer] *)

Record Connection : Type := Conn { subscriptions : jsmap (list string) }.

(** Ports are numbered in the order they were attached. *)
Record owner (W : Type) : Type := Owner {
  connections : list Connection;
  canceledRequests : gset string;
  serverInstanceId : string;
  ctx : option SqliteContext;
  o_storeId : option string;
  o_dbName : option string;
  ownershipMode : DbOwnershipMode;
  releaseLock : option string;
  scope : browser;
  world : W;
  posted : list (nat * message_out)
}.
Arguments Owner {W} _ _ _ _ _ _ _ _ _ _ _.
Arguments connections {W} _.
Arguments canceledRequests {W} _.
Arguments serverInstanceId {W} _.
Arguments ctx {W} _.
Arguments o_storeId {W} _.
Arguments o_dbName {W} _.
Arguments ownershipMode {W} _.
Arguments releaseLock {W} _.
Arguments scope {W} _.
Arguments world {W} _.
Arguments posted {W} _.

Section Server.
Context {W : Type} `{!WaSqlite W}.
Notation owner := (owner W).

Definition set_connections (l : list Connection) (o : owner) : owner :=
  Owner l (canceledRequests o) (serverInstanceId o) (ctx o) (o_storeId o) (o_dbName o) (ownershipMode o)
    (releaseLock o) (scope o) (world o) (posted o).
Definition set_canceled (c : gset string) (o : owner) : owner :=
  Owner (connections o) c (serverInstanceId o) (ctx o) (o_storeId o) (o_dbName o) (ownershipMode o)
    (releaseLock o) (scope o) (world o) (posted o).
Definition set_ctx (c : option SqliteContext) (o : owner) : owner :=
  Owner (connections o) (canceledRequests o) (serverInstanceId o) c (o_storeId o) (o_dbName o) (ownershipMode o)
    (releaseLock o) (scope o) (world o) (posted o).
Definition set_names (s d : option string) (o : owner) : owner :=
  Owner (connections o) (canceledRequests o) (serverInstanceId o) (ctx o) s d (ownershipMode o)
    (releaseLock o) (scope o) (world o) (posted o).
Definition set_lock (l : option string) (o : owner) : owner :=
  Owner (connections o) (canceledRequests o) (serverInstanceId o) (ctx o) (o_storeId o) (o_dbName o)
    (ownershipMode o) l (scope o) (world o) (posted o).
Definition set_world (w : W) (o : owner) : owner :=
  Owner (connections o) (canceledRequests o) (serverInstanceId o) (ctx o) (o_storeId o) (o_dbName o)
    (ownershipMode o) (releaseLock o) (scope o) w (posted o).
Definition post (p : nat) (m : message_out) (o : owner) : owner :=
  Owner (connections o) (canceledRequests o) (serverInstanceId o) (ctx o) (o_storeId o) (o_dbName o)
    (ownershipMode o) (releaseLock o) (scope o) (world o) (posted o ++ [(p, m)]).

Definition newOwner (id : string) (mode : DbOwnershipMode) (b : browser) (w : W) : owner :=
  Owner [] ∅ id None None None mode None b w [].

Definition attachPort (o : owner) : owner := set_connections (connections o ++ [Conn []]) o.

Definition sendResponse (p : nat) (requestId : string) (r : WorkerResponse) (o : owner) : owner :=
  post p (response requestId r) o.

(** *** Hello *)

Definition lockName (store : string) : string := "mo-eventstore:" +:+ store.

(** The [catch] of an initialisation. *)
Definition hello_failed (p : nat) (m : WorkerHello) (e : thrown) (o : owner) : owner :=
  post p (helloError (init_error (scope o) m e)) (set_lock None (set_names None None o)).

(** After the initialisation, or when there is a context already. *)
Definition answer_hello (p : nat) (m : WorkerHello) (uuid : string) (o : owner) : owner :=
  if bool_decide (o_storeId o = Some (storeId m)) && bool_decide (o_dbName o = Some (dbName m))
  then post p (helloOk (ownershipMode o) (serverInstanceId o)) o
  else post p (response uuid (error
    (platform DbOwnershipError "Worker already initialized for a different storeId or dbName"))) o.

Definition opfs_available (b : browser) : bool := bool_decide (is_Some (storage b ≫= getDirectory)).

(** Where a hello stops first. *)
Inductive progress : Type := Answered | AwaitsLock (name : string) | AwaitsContext.

Definition begin_hello (p : nat) (m : WorkerHello) (uuid : string) (o : owner) : owner * progress :=
  match ctx o with
  | Some _ => (answer_hello p m uuid o, Answered)
  | None =>
      let o := set_names (Some (storeId m)) (Some (dbName m)) o in
      if requireOpfs m && negb (opfs_available (scope o))
      then (hello_failed p m (new_error "OPFS is not available in this environment") o, Answered)
      else
        match ownershipMode o with
        | dedicatedWorker _ =>
            if locks (scope o)
            then (set_lock (Some (lockName (storeId m))) o, AwaitsLock (lockName (storeId m)))
            else (hello_failed p m (new_error "Web Locks API is not available") o, Answered)
        | _ => (o, AwaitsContext)
        end
  end.

Definition open_context (p : nat) (m : WorkerHello) (uuid : string) (o : owner) : owner :=
  match createSqliteContext (storeId m) (dbName m) (world o) with
  | (Ok c, w) => answer_hello p m uuid (set_ctx (Some c) (set_world w o))
  | (Err e, w) => hello_failed p m e (set_world w o)
  end.

(** A hello that nothing interrupts, and whose lock is granted. *)
Definition handleHello (p : nat) (m : WorkerHello) (uuid : string) (o : owner) : owner :=
  match begin_hello p m uuid o with
  | (o', Answered) => o'
  | (o', _) => open_context p m uuid o'
  end.

(** *** Requests *)

Definition not_initialized : WorkerResponse := error (platform DbOwnershipError "DB is not initialized").

(** [m] inside the [try] of [handleRequest], [k] after it. *)
Definition trying {A} (p : nat) (rid : string) (m : js W thrown A) (k : A -> owner -> owner) (o : owner) : owner :=
  match m (world o) with
  | (Ok a, w) => k a (set_world w o)
  | (Err e, w) => sendResponse p rid (error (platform_error e)) (set_world w o)
  end.

Definition subscribed (tables : list string) (c : Connection) : bool :=
  existsb (fun '(_, ts) => existsb (fun t => bool_decide (t ∈ tables)) ts) (subscriptions c).

Fixpoint notify_from (p : nat) (tables : list string) (l : list Connection) (o : owner) : owner :=
  match l with
  | [] => o
  | c :: l => notify_from (S p) tables l (if subscribed tables c then post p (tablesChanged tables) o else o)
  end.

Definition notifyTables (tables : list string) (o : owner) : owner :=
  match tables with [] => o | _ => notify_from 0 tables (connections o) o end.

Definition tables_of (sql : string) : list string := map toLowerCase (extractTableNames sql).

(** [connection.subscriptions] of the port. *)
Definition on_connection (p : nat) (f : jsmap (list string) -> jsmap (list string)) (o : owner) : owner :=
  set_connections (alter (fun c => Conn (f (subscriptions c))) p (connections o)) o.

Definition map_delete {V} (k : string) (m : jsmap V) : jsmap V := filter (fun e => e.1 <> k) m.

Definition shutdown_begin (o : owner) : owner := set_lock None (set_names None None (set_ctx None o)).

Definition shutdown_end (p : nat) (rid : string) (c : option SqliteContext) (o : owner) : owner :=
  match c with
  | Some c => trying p rid (closeSqliteContext c) (fun _ => sendResponse p rid (ok DNull)) o
  | None => sendResponse p rid (ok DNull) o
  end.

(** A request that was not cancelled; [draw] is the random part of a file
    handle. *)
Definition serve (draw : Z) (p : nat) (rid : string) (r : WorkerRequest) (o : owner) : owner :=
  match r with
  | dbShutdown => shutdown_end p rid (ctx o) (shutdown_begin o)
  | dbExportMain =>
      match ctx o, o_dbName o with
      | Some c, Some d =>
          if bool_decide (d = "") then sendResponse p rid not_initialized o
          else trying p rid (exportVfsFileBytes draw d) (fun b => sendResponse p rid (ok (DBytes b))) o
      | _, _ => sendResponse p rid not_initialized o
      end
  | dbImportMain bytes =>
      match ctx o, o_dbName o with
      | Some c, Some d =>
          if bool_decide (d = "") then sendResponse p rid not_initialized o
          else trying p rid (replaceMainDatabaseBytes draw c d bytes)
            (fun next o => sendResponse p rid (ok DNull) (set_ctx (Some next) o)) o
      | _, _ => sendResponse p rid not_initialized o
      end
  | _ =>
      match ctx o with
      | None => sendResponse p rid not_initialized o
      | Some c =>
          match r with
          | dbQuery sql params =>
              trying p rid (runQuery (db c) sql params) (fun rows => sendResponse p rid (ok (DRows rows))) o
          | dbExecute sql params =>
              trying p rid (runExecute (db c) sql params)
                (fun _ o => sendResponse p rid (ok DNull) (notifyTables (tables_of sql) o)) o
          | dbBatch l =>
              trying p rid (executeStatements c l)
                (fun results o => sendResponse p rid (ok (DBatch results))
                  (notifyTables (flat_map (fun s => tables_of (sql_of s)) l) o)) o
          | dbSubscribeTables i tables =>
              sendResponse p rid (ok DNull) (on_connection p (map_set i (map toLowerCase tables)) o)
          | dbUnsubscribeTables i => sendResponse p rid (ok DNull) (on_connection p (map_delete i) o)
          | _ =>
              sendResponse p rid (error (platform WorkerProtocolError
                ("Unsupported request kind: " +:+ request_kind r))) o
          end
      end
  end.

Definition handleRequest (draw : Z) (p : nat) (rid : string) (r : WorkerRequest) (o : owner) : owner :=
  if bool_decide (rid ∈ canceledRequests o)
  then sendResponse p rid (error (platform CanceledError "Request was canceled"))
    (set_canceled (canceledRequests o ∖ {[rid]}) o)
  else serve draw p rid r o.

(** The message handler of a port.  A message is one step: the synchronous
    build of SQLite lets no other message in, and closing the database, which is
    awaited, is split in [Locks]. *)
Definition receive (uuid : string) (draw : Z) (p : nat) (m : message_in) (o : owner) : owner :=
  match m with
  | hello h => handleHello p h uuid o
  | cancel target => set_canceled ({[target]} ∪ canceledRequests o) o
  | request rid r => handleRequest draw p rid r o
  end.
End Server.

(** ** What the worker posts *)

Module ServerProperties.

Section Facts.
Context {W : Type} `{!WaSqlite W}.
Implicit Types o : owner W.

(** The requests answered at a port, in order. *)
Definition answer_of (p : nat) (e : nat * message_out) : option string :=
  match e with
  | (q, response rid _) => if decide (q = p) then Some rid else None
  | _ => None
  end.
Definition answers (p : nat) (l : list (nat * message_out)) : list string := omap (answer_of p) l.

Definition is_notice (e : nat * message_out) : bool := match e.2 with tablesChanged _ => true | _ => false end.

Lemma answers_app p l k : answers p (l ++ k) = answers p l ++ answers p k.
Proof. unfold answers. by rewrite omap_app. Qed.

Lemma answers_notices p l : Forall (fun e => is_notice e = true) l -> answers p l = [].
Proof. induction 1 as [|[q []] l He _ IH]; try done. Qed.

(** The ports told about tables, from port [p] on. *)
Fixpoint told_from (p : nat) (tables : list string) (l : list Connection) : list (nat * message_out) :=
  match l with
  | [] => []
  | c :: l => (if subscribed tables c then [(p, tablesChanged tables)] else []) ++ told_from (S p) tables l
  end.
Definition told (tables : list string) (l : list Connection) : list (nat * message_out) :=
  match tables with [] => [] | _ => told_from 0 tables l end.

Lemma told_notices tables l : Forall (fun e => is_notice e = true) (told tables l).
Proof.
  unfold told. destruct tables as [|t ts]; [constructor|]. generalize 0%nat. induction l as [|c l IH]; intros p; simpl; [constructor|].
  apply Forall_app. split; [|apply IH]. destruct (subscribed _ c); by repeat constructor.
Qed.

Lemma elem_of_told q m tables l :
  (q, m) ∈ told tables l <-> m = tablesChanged tables /\ tables <> [] /\ exists c, l !! q = Some c /\ subscribed tables c = true.
Proof.
  unfold told. destruct tables as [|t ts] eqn:Et; [split; [by intros ?%not_elem_of_nil|naive_solver]|].
  rewrite <- Et. assert (tables <> []) as Hne by (by rewrite Et). clear Et t ts.
  assert (forall p, (q, m) ∈ told_from p tables l <->
    m = tablesChanged tables /\ exists k c, q = (p + k)%nat /\ l !! k = Some c /\ subscribed tables c = true) as H.
  { induction l as [|c l IH]; intros p; simpl.
    - split; [by intros ?%not_elem_of_nil|]. intros (_ & k & c & _ & [=] & _).
    - rewrite elem_of_app, IH. split.
      + intros [H|(-> & k & c' & -> & H)].
        * destruct (subscribed tables c) eqn:Es; [|by apply not_elem_of_nil in H].
          apply list_elem_of_singleton in H. injection H as -> ->. split; [done|]. exists 0%nat, c. split_and!; [lia|done|done].
        * split; [done|]. exists (S k), c'. split; [lia|done].
      + intros (-> & [|k] & c' & -> & H & Hs).
        * left. injection H as ->. rewrite Hs, Nat.add_0_r. apply list_elem_of_singleton. done.
        * right. split; [done|]. exists k, c'. split; [lia|done]. }
  rewrite (H 0%nat). split.
  - intros (-> & k & c & -> & Hk). eauto.
  - intros (-> & _ & c & Hc). split; [done|]. by exists q, c.
Qed.

Lemma notify_posted tables o : posted (notifyTables tables o) = posted o ++ told tables (connections o).
Proof.
  unfold notifyTables, told. destruct tables as [|t ts]; [by rewrite app_nil_r|].
  assert (forall l p o', posted (notify_from p (t :: ts) l o') = posted o' ++ told_from p (t :: ts) l) as H; [|apply H].
  induction l as [|c l IH]; intros p o'; simpl; [by rewrite app_nil_r|]. rewrite IH. destruct (subscribed _ c); [|done].
  by rewrite app_assoc.
Qed.

(** The tables that a request writes, as far as its text tells. *)
Definition written (r : WorkerRequest) : list string :=
  match r with
  | dbExecute sql _ => tables_of sql
  | dbBatch l => flat_map (fun s => tables_of (sql_of s)) l
  | _ => []
  end.

Definition succeeded (r : WorkerResponse) : bool := match r with ok _ => true | error _ => false end.

(** What serving a request posts: the notices of a write that succeeded,
    then its one answer. *)
Definition posts (o : owner W) (p : nat) (rid : string) (r : WorkerRequest) (o' : owner W) : Prop :=
  exists a, posted o' = posted o ++ (if succeeded a then told (written r) (connections o) else []) ++ [(p, response rid a)].

Lemma posts_send o p rid r a o' : posted o' = posted o ->
  (succeeded a = true -> written r = []) -> posts o p rid r (sendResponse p rid a o').
Proof.
  intros Hp Hr. exists a. unfold sendResponse. simpl. rewrite Hp. destruct (succeeded a); [|done]. by rewrite Hr.
Qed.

Lemma posts_trying {A} o p rid r (m : js W thrown A) k o' :
  posted o' = posted o -> connections o' = connections o ->
  (forall a w, posts o p rid r (k a (set_world w o'))) -> posts o p rid r (trying p rid m k o').
Proof.
  intros Hp Hc Hk. unfold trying. destruct (m (world o')) as [[a|e] w]; [apply Hk|]. by apply posts_send.
Qed.

Lemma posts_notify o p rid r d o' : posted o' = posted o -> connections o' = connections o ->
  posts o p rid r (sendResponse p rid (ok d) (notifyTables (written r) o')).
Proof.
  intros Hp Hc. exists (ok d). unfold sendResponse. simpl. rewrite notify_posted, Hp, Hc. by rewrite app_assoc.
Qed.

Lemma serve_posts draw p rid r o : posts o p rid r (serve draw p rid r o).
Proof.
  destruct r; simpl; unfold shutdown_end;
    repeat match goal with |- context [match ?x with Some _ => _ | None => _ end] => destruct x end;
    repeat match goal with |- context [if bool_decide ?P then _ else _] => destruct (bool_decide P) end;
    try (by apply posts_send); try (apply posts_trying; [done..|]; intros; try (by apply posts_send); by apply posts_notify).
Qed.

Lemma handleRequest_posts draw p rid r o : posts o p rid r (handleRequest draw p rid r o).
Proof.
  unfold handleRequest. destruct (bool_decide _); [by apply posts_send|apply serve_posts].
Qed.

Lemma posts_answers q o p rid r o' : posts o p rid r o' ->
  answers q (posted o') = answers q (posted o) ++ (if decide (p = q) then [rid] else []).
Proof.
  intros [a ->]. rewrite !answers_app. f_equal. rewrite answers_notices.
  - simpl. by destruct (decide (p = q)).
  - destruct (succeeded a); [apply told_notices|constructor].
Qed.

(** A hello is answered once: with [helloOk], [helloError], or, for another
    store, with a response nobody asked for. *)
Definition hello_answer (uuid : string) (m : message_out) : Prop :=
  (exists mode i, m = helloOk mode i) \/ (exists e, m = helloError e) \/ (exists a, m = response uuid a).

Lemma answer_hello_posts p m uuid o : exists a, hello_answer uuid a /\ posted (answer_hello p m uuid o) = posted o ++ [(p, a)].
Proof. unfold answer_hello, hello_answer. destruct (_ && _); eexists; (split; [|reflexivity]); eauto. Qed.

Lemma hello_posts p m uuid o : exists a, hello_answer uuid a /\ posted (handleHello p m uuid o) = posted o ++ [(p, a)].
Proof.
  assert (forall e o', posted o' = posted o ->
    exists a, hello_answer uuid a /\ posted (hello_failed p m e o') = posted o ++ [(p, a)]) as Hf.
  { intros e o' <-. eexists. split; [|reflexivity]. right. left. eauto. }
  assert (forall o', posted o' = posted o ->
    exists a, hello_answer uuid a /\ posted (open_context p m uuid o') = posted o ++ [(p, a)]) as Ho.
  { intros o' Hp. unfold open_context. destruct (createSqliteContext _ _ _) as [[c|e] w]; [|by apply Hf].
    rewrite <- Hp. apply (answer_hello_posts p m uuid (set_ctx (Some c) (set_world w o'))). }
  unfold handleHello, begin_hello. destruct (ctx o); [apply answer_hello_posts|].
  destruct (_ && _); [by apply Hf|]. simpl. destruct (ownershipMode o); [by apply Ho| |by apply Ho].
  destruct (locks (scope o)); [by apply Ho|by apply Hf].
Qed.

(** *** Traces *)

(** A message with the port it arrives at, and the values drawn at random
    while it is handled. *)
Definition arrival : Type := (string * Z) * (nat * message_in).

Definition receive_all : list arrival -> owner W -> owner W :=
  fold_left (fun o '((uuid, draw), (p, m)) => receive uuid draw p m o).

Definition requests_at (p : nat) (l : list arrival) : list string :=
  omap (fun '(_, (q, m)) => match m with request rid _ => if decide (q = p) then Some rid else None | _ => None end) l.

Definition uuids (l : list arrival) : list string := map (fun a => a.1.1) l.

(** C30: Every request is answered exactly once, at its own port and in the order of the
    requests, whatever hellos, cancellations and other ports' requests arrive in between and
    whether it succeeds, fails or was cancelled: the answers posted at a port, those to
    hellos aside, are its requests. *)
Theorem requests_answered p l o : Forall (fun u => u ∉ requests_at p l) (uuids l) -> posted o = [] ->
  filter (fun rid => rid ∈ requests_at p l) (answers p (posted (receive_all l o))) = requests_at p l.
Proof.
  intros Hu Hp.
  assert (forall (K : list string) l o, Forall (fun u => u ∉ K) (uuids l) -> Forall (fun rid => rid ∈ K) (requests_at p l) ->
    filter (fun rid => rid ∈ K) (answers p (posted (receive_all l o))) =
    filter (fun rid => rid ∈ K) (answers p (posted o)) ++ requests_at p l) as H.
  { clear l o Hu Hp. intros K l. induction l as [|[[uuid draw] [q m]] l IH]; intros o Hu Hr; simpl.
    { by rewrite app_nil_r. }
    inversion Hu as [|? ? Hu0 Hu']; subst. unfold receive_all in *. simpl in *.
    destruct m as [h|rid r|target]; simpl in *; rewrite IH.
    - destruct (hello_posts q h uuid o) as (a & Ha & ->). rewrite answers_app, filter_app. f_equal.
      destruct Ha as [(mode & i & ->)|[[e ->]|[a' ->]]]; simpl; rewrite ?app_nil_r; try done.
      destruct (decide (q = p)); simpl; [|by rewrite app_nil_r]. rewrite filter_cons, decide_False by done. by rewrite filter_nil, app_nil_r.
    - done.
    - done.
    - rewrite (posts_answers p o q rid r) by apply handleRequest_posts. rewrite filter_app, <- app_assoc. f_equal.
      destruct (decide (q = p)); [|done]. inversion Hr; subst. rewrite filter_cons, decide_True by done. by rewrite filter_nil.
    - done.
    - destruct (decide (q = p)); [by inversion Hr|done].
    - done.
    - done.
    - done. }
  rewrite H; [by rewrite Hp|done|]. by apply Forall_forall.
Qed.

(** *** Notifications *)

(** C31: Table notifications are exact: when a write (an execute or a batch) succeeds, a
    port is told, once, if and only if one of its subscriptions names a table of the write's
    statements, and it is told before the answer is sent; a write that fails, and any other
    request, tells nobody. And a statement that inserts into, updates or deletes from a
    table names it. *)
Theorem writes_notified draw p rid r o :
  exists a, posted (serve draw p rid r o) =
    posted o ++ (if succeeded a then told (written r) (connections o) else []) ++ [(p, response rid a)] /\
  (forall q m, (q, m) ∈ told (written r) (connections o) <->
    m = tablesChanged (written r) /\ written r <> [] /\
    exists c, connections o !! q = Some c /\ subscribed (written r) c = true) /\
  (forall s T, SqliteProperties.writes (normalized (sql_of s)) T ->
    (exists l, r = dbBatch l /\ s ∈ l) \/ (exists ps, r = dbExecute (sql_of s) ps) -> toLowerCase T ∈ written r).
Proof.
  destruct (serve_posts draw p rid r o) as [a Ha]. exists a. split; [done|]. split; [intros q m; apply elem_of_told|].
  intros s T Hw%SqliteProperties.written_table Hs.
  assert (toLowerCase T ∈ tables_of (sql_of s)) as Ht by (by apply list_elem_of_fmap_2).
  destruct Hs as [(l & -> & Hl)|(ps & ->)]; [|done]. simpl. apply list_elem_of_In, in_flat_map. exists s.
  by rewrite <- !list_elem_of_In.
Qed.
End Facts.
End ServerProperties.

(** ** The workers of several tabs

    Without shared workers every tab starts a dedicated one, and the browser's
    lock manager decides which of them may open the store. A worker is sent
    one hello, by [createWebSqliteDb]. Between its steps the files may have
    been changed by the others: a step starts in any world. *)

Module Locks.

Section Tabs.
Context {W : Type} `{!WaSqlite W}.

(** What a worker waits for: its lock, its files, or the closing of the
    context that a shutdown took from it. *)
Inductive phase : Type :=
| Fresh
| Waiting (m : WorkerHello) (uuid : string)
| Opening (m : WorkerHello) (uuid : string)
| Settled
| Closing (rid : string) (c : option SqliteContext)
| Gone.

Record tab : Type := Tab { tab_owner : owner W; tab_phase : phase }.

(** The tabs of an origin, and the holder of each lock. *)
Record origin : Type := Origin { tabs : list tab; held : gmap string nat }.

(** [releaseLock()] settles the promise that the lock's callback awaits. *)
Definition release (i : nat) (before after : owner W) (h : gmap string nat) : gmap string nat :=
  match releaseLock before, releaseLock after with
  | Some n, None => if decide (h !! n = Some i) then delete n h else h
  | _, _ => h
  end.

Definition set_tab (i : nat) (t : tab) (h : gmap string nat) (g : origin) : origin := Origin (<[i:=t]> (tabs g)) h.

Definition next_phase (m : WorkerHello) (uuid : string) (r : progress) : phase :=
  match r with Answered => Settled | AwaitsLock _ => Waiting m uuid | AwaitsContext => Opening m uuid end.

Inductive step : origin -> origin -> Prop :=
| StepStart g id b w :
    step g (Origin (tabs g ++ [Tab (attachPort (newOwner id (dedicatedWorker id) b w)) Fresh]) (held g))
| StepHello g i o m uuid w o' r : tabs g !! i = Some (Tab o Fresh) ->
    begin_hello 0 m uuid (set_world w o) = (o', r) ->
    step g (set_tab i (Tab o' (next_phase m uuid r)) (held g) g)
| StepGrant g i o m uuid n : tabs g !! i = Some (Tab o (Waiting m uuid)) ->
    releaseLock o = Some n -> held g !! n = None ->
    step g (set_tab i (Tab o (Opening m uuid)) (<[n:=i]> (held g)) g)
| StepOpen g i o m uuid w : tabs g !! i = Some (Tab o (Opening m uuid)) ->
    let o' := open_context 0 m uuid (set_world w o) in
    step g (set_tab i (Tab o' Settled) (release i o o' (held g)) g)
| StepRequest g i o ph w draw rid r : tabs g !! i = Some (Tab o ph) -> ph <> Gone -> r <> dbShutdown ->
    step g (set_tab i (Tab (handleRequest draw 0 rid r (set_world w o)) ph) (held g) g)
| StepCancel g i o ph target : tabs g !! i = Some (Tab o ph) -> ph <> Gone ->
    step g (set_tab i (Tab (set_canceled ({[target]} ∪ canceledRequests o) o) ph) (held g) g)
| StepShutdown g i o w rid : tabs g !! i = Some (Tab o Settled) ->
    let o' := shutdown_begin (set_world w o) in
    step g (set_tab i (Tab o' (Closing rid (ctx o))) (release i o o' (held g)) g)
| StepClosed g i o rid c w : tabs g !! i = Some (Tab o (Closing rid c)) ->
    step g (set_tab i (Tab (shutdown_end 0 rid c (set_world w o)) Settled) (held g) g)
| StepGone g i o ph : tabs g !! i = Some (Tab o ph) ->
    step g (set_tab i (Tab o Gone) (filter (fun e => e.2 <> i) (held g)) g).

Inductive reachable : origin -> Prop :=
| ReachInit : reachable (Origin [] ∅)
| ReachStep g g' : reachable g -> step g g' -> reachable g'.

(** A worker that answers requests on a store. *)
Definition serves (g : origin) (i : nat) (s : string) : Prop := exists t c,
  tabs g !! i = Some t /\ tab_phase t <> Gone /\ ctx (tab_owner t) = Some c /\ o_storeId (tab_owner t) = Some s.

(** *** The invariant *)

Definition holds (g : origin) (i : nat) (o : owner W) (s : string) : Prop :=
  o_storeId o = Some s /\ releaseLock o = Some (lockName s) /\ held g !! lockName s = Some i.

(** Asked for, and perhaps not granted yet. *)
Definition asked (o : owner W) (m : WorkerHello) : Prop :=
  ctx o = None /\ o_storeId o = Some (storeId m) /\ o_dbName o = Some (dbName m) /\
  releaseLock o = Some (lockName (storeId m)).

Definition tab_ok (g : origin) (i : nat) (t : tab) : Prop :=
  (exists id, ownershipMode (tab_owner t) = dedicatedWorker id) /\
  match tab_phase t with
  | Fresh => ctx (tab_owner t) = None
  | Waiting m _ => asked (tab_owner t) m
  | Opening m _ => asked (tab_owner t) m /\ holds g i (tab_owner t) (storeId m)
  | Settled => forall c, ctx (tab_owner t) = Some c -> exists s, holds g i (tab_owner t) s
  | Closing _ _ => ctx (tab_owner t) = None
  | Gone => True
  end.

Definition inv (g : origin) : Prop := forall i t, tabs g !! i = Some t -> tab_ok g i t.

(** A step of tab [i] leaves the others' locks alone. *)
Lemma tab_ok_held g g' i t : (forall n, held g !! n = Some i -> held g' !! n = Some i) -> tab_ok g i t -> tab_ok g' i t.
Proof.
  intros Hh [Hm Ht]. split; [done|]. unfold holds in *.
  destruct (tab_phase t) as [|m u|m u| |r c|]; naive_solver.
Qed.

Lemma inv_set g i t h : inv g ->
  (forall j n, j <> i -> held g !! n = Some j -> h !! n = Some j) -> tab_ok (Origin [] h) i t -> inv (set_tab i t h g).
Proof.
  intros Hi Hh Ht j t' Hj. simpl in Hj. destruct (decide (j = i)) as [->|Hne].
  - assert (t' = t) as ->.
    { apply list_lookup_insert_Some in Hj as [(_ & <- & _)|[[] _]]; done. }
    eapply tab_ok_held; [|exact Ht]. done.
  - rewrite list_lookup_insert_ne in Hj by done. eapply tab_ok_held; [|by apply Hi]. simpl. intros n. by apply Hh.
Qed.

Lemma release_others i o o' h j n : j <> i -> h !! n = Some j -> release i o o' h !! n = Some j.
Proof.
  intros Hne Hh. unfold release. destruct (releaseLock o) as [n'|]; [|done]. destruct (releaseLock o'); [done|].
  destruct (decide (h !! n' = Some i)) as [E|]; [|done]. rewrite lookup_delete_ne; [done|]. intros ->. congruence.
Qed.

(** What a request other than a shutdown may not change. *)
Definition same_claims (o o' : owner W) : Prop :=
  o_storeId o' = o_storeId o /\ o_dbName o' = o_dbName o /\ releaseLock o' = releaseLock o /\
  ownershipMode o' = ownershipMode o /\ (ctx o' = None <-> ctx o = None).

Lemma same_claims_refl o : same_claims o o.
Proof. done. Qed.

Lemma same_claims_notify tables o : same_claims o (notifyTables tables o).
Proof.
  unfold notifyTables. destruct tables as [|t ts]; [done|].
  assert (forall l p o', same_claims o o' -> same_claims o (notify_from p (t :: ts) l o')) as H; [|by apply H].
  induction l as [|c l IH]; intros p o' Ho; simpl; [done|]. apply IH. by destruct (subscribed _ c).
Qed.

Lemma same_claims_trying {A} p rid (m : js W thrown A) k o :
  (forall a w, same_claims o (k a (set_world w o))) -> same_claims o (trying p rid m k o).
Proof. intros Hk. unfold trying. destruct (m (world o)) as [[a|e] w]; [apply Hk|done]. Qed.

Lemma serve_claims draw p rid r o : r <> dbShutdown -> same_claims o (serve draw p rid r o).
Proof.
  intros Hr. destruct r; simpl; try done;
    (destruct (ctx o) eqn:Ec; [|done]);
    repeat match goal with
    | |- context [match ?x with Some _ => _ | None => _ end] => destruct x
    | |- context [if bool_decide ?P then _ else _] => destruct (bool_decide P)
    end; try done; apply same_claims_trying; intros a w; try done.
  - apply (same_claims_notify _ (set_world w o)).
  - apply (same_claims_notify _ (set_world w o)).
  - unfold same_claims. simpl. rewrite Ec. done.
Qed.

Lemma tab_ok_claims g i o o' ph : same_claims o o' -> tab_ok g i (Tab o ph) -> tab_ok g i (Tab o' ph).
Proof.
  intros (Hs & Hd & Hl & Hm & Hc) [Hmode Ht]. unfold tab_ok, asked, holds in *. simpl in *. rewrite Hs, Hd, Hl, Hm.
  split; [done|]. destruct ph; try naive_solver.
  intros c Ec. destruct (ctx o) as [c'|] eqn:E; [by apply (Ht c')|]. by rewrite (proj2 Hc eq_refl) in Ec.
Qed.

Lemma answer_hello_claims p m uuid o : same_claims o (answer_hello p m uuid o).
Proof. unfold answer_hello. by destruct (_ && _). Qed.

Lemma begin_hello_ok g i o id m uuid o' r :
  ctx o = None -> ownershipMode o = dedicatedWorker id -> begin_hello 0 m uuid o = (o', r) ->
  tab_ok g i (Tab o' (next_phase m uuid r)).
Proof.
  intros Hc Hm. unfold begin_hello. rewrite Hc.
  destruct (_ && _); [intros [= <- <-]; split; [by exists id|simpl; congruence]|].
  simpl. rewrite Hm. destruct (locks (scope o)); intros [= <- <-]; split; simpl; eauto; [done|congruence].
Qed.

Lemma opened_ok g i o m uuid : tab_ok g i (Tab o (Opening m uuid)) ->
  tab_ok (Origin [] (release i o (open_context 0 m uuid o) (held g))) i (Tab (open_context 0 m uuid o) Settled).
Proof.
  intros [Hm [Ha Hh]]. simpl in *. unfold open_context.
  destruct (createSqliteContext _ _ _) as [[c|e] w]; [|by split; simpl; [|destruct Ha; congruence]].
  set (o1 := set_ctx (Some c) (set_world w o)).
  destruct (answer_hello_claims 0 m uuid o1) as (Hs & Hd & Hl & Hmode & Hc). destruct Hh as (H1 & H2 & H3).
  split; simpl; [by rewrite Hmode|]. intros c' _. exists (storeId m). unfold holds, release. simpl.
  rewrite Hs, Hl, H2. unfold o1. simpl. rewrite H2. done.
Qed.

Lemma shutdown_end_ctx p rid c o : ctx (shutdown_end p rid c o) = ctx o /\ ownershipMode (shutdown_end p rid c o) = ownershipMode o.
Proof.
  unfold shutdown_end, trying. destruct c as [c|]; [|done]. by destruct (closeSqliteContext c (world o)) as [[]].
Qed.

Lemma lock_step_inv g g' : inv g -> step g g' -> inv g'.
Proof.
  intros Hi Hs. destruct Hs as [g id b w|g i o m uuid w o' r Ht Hb|g i o m uuid n Ht Hl Hn|g i o m uuid w Ht|
    g i o ph w draw rid r Ht Hp Hr|g i o ph target Ht Hp|g i o w rid Ht|g i o rid c w Ht|g i o ph Ht];
    try pose proof (Hi _ _ Ht) as Hok.
  - intros j t Hj. simpl in Hj. apply lookup_app_Some in Hj as [Hj|[_ Hj]]; [by apply (tab_ok_held g _ j t), Hi|].
    apply list_lookup_singleton_Some in Hj as [_ <-]. split; [by exists id|done].
  - destruct Hok as [[id Hm] Hc]. apply inv_set; [done..|]. eapply begin_hello_ok; [| |exact Hb]; done.
  - destruct Hok as [Hm Ha]. simpl in *. apply inv_set; [done| |].
    + intros j k _ Hk. rewrite lookup_insert_ne; [done|]. intros ->. congruence.
    + split; [done|]. simpl. split; [done|]. destruct Ha as (H1 & H2 & H3 & H4). split_and!; [done..|]. simpl.
      rewrite Hl in H4. injection H4 as <-. by rewrite lookup_insert_eq.
  - apply inv_set; [done| |].
    + intros j k Hne. by apply release_others.
    + by apply (opened_ok g i (set_world w o) m uuid).
  - apply inv_set; [done..|]. apply (tab_ok_claims _ _ (set_world w o)); [|exact Hok].
    unfold handleRequest. destruct (bool_decide _); [done|]. by apply serve_claims.
  - apply inv_set; [done..|]. by apply (tab_ok_claims _ _ o).
  - apply inv_set; [done| |].
    + intros j k Hne. by apply release_others.
    + destruct Hok as [Hm _]. by split.
  - destruct Hok as [Hm Hc]. apply inv_set; [done..|].
    destruct (shutdown_end_ctx 0 rid c (set_world w o)) as [H1 H2]. split; simpl; [by rewrite H2|].
    intros c' Ec. rewrite H1 in Ec. simpl in *. congruence.
  - destruct Hok as [Hm _]. apply inv_set; [done| |by split].
    intros j k Hne Hk. apply map_lookup_filter_Some. done.
Qed.

Lemma lock_reachable_inv g : reachable g -> inv g.
Proof. induction 1 as [|g g' _ IH Hs]; [intros [|i] t Ht; discriminate Ht|by eapply lock_step_inv]. Qed.

(** C32: One worker per store: in every state that tabs with dedicated workers can reach, by
    any interleaving of starts, hellos, lock grants, openings that succeed or fail,
    requests, cancellations, shutdowns and closed tabs, two workers that serve the same
    store are the same worker. *)
Theorem one_worker_per_store g i j s : reachable g -> serves g i s -> serves g j s -> i = j.
Proof.
  intros Hr%lock_reachable_inv (t & c & Ht & Hp & Hc & Hs) (t' & c' & Ht' & Hp' & Hc' & Hs').
  assert (forall i t c, tabs g !! i = Some t -> tab_phase t <> Gone -> ctx (tab_owner t) = Some c ->
    o_storeId (tab_owner t) = Some s -> held g !! lockName s = Some i) as H.
  { clear - Hr. intros i t c Ht Hp Hc Hs. destruct (Hr i t Ht) as [_ Hok]. unfold asked in Hok.
    destruct (tab_phase t) as [|m u|m u| |r c'|] eqn:E; [naive_solver..| |naive_solver|done].
    destruct (Hok c Hc) as (s' & H1 & H2 & H3). by assert (s = s') as -> by congruence. }
  assert (held g !! lockName s = Some i) by (by eapply H). assert (held g !! lockName s = Some j) by (by eapply H).
  congruence.
Qed.
End Tabs.
End Locks.

(** ** Races of two hellos *)

Module Hellos.
Import ServerProperties.

Section Races.
Context {W : Type} `{!WaSqlite W}.
Implicit Types o : owner W.

(** A worker that has a context and no longer knows of which store. *)
Definition orphaned o : Prop := is_Some (ctx o) /\ o_storeId o = None.

Definition refused (uuid : string) : message_out :=
  response uuid (error (platform DbOwnershipError "Worker already initialized for a different storeId or dbName")).

Lemma orphaned_hello p m uuid o : orphaned o -> handleHello p m uuid o = post p (refused uuid) o.
Proof.
  intros [[c Hc] Hs]. unfold handleHello, begin_hello. rewrite Hc. unfold answer_hello. by rewrite Hs.
Qed.

Lemma orphaned_receive uuid draw p m o : orphaned o -> (forall rid, m <> request rid dbShutdown) ->
  orphaned (receive uuid draw p m o).
Proof.
  intros Ho Hm. destruct m as [h|rid r|t]; simpl; [by rewrite orphaned_hello| |done].
  unfold handleRequest. destruct (bool_decide _); [done|].
  destruct (Locks.serve_claims draw p rid r o) as (Hs & _ & _ & _ & Hc); [naive_solver|]. destruct Ho as [[c Hx] Ho].
  split; [|congruence]. destruct (ctx (serve draw p rid r o)); [by eexists|]. by rewrite (proj1 Hc eq_refl) in Hx.
Qed.

Lemma open_context_ok p m u o c w : createSqliteContext (storeId m) (dbName m) (world o) = (Ok c, w) ->
  open_context p m u o = answer_hello p m u (set_ctx (Some c) (set_world w o)).
Proof. unfold open_context. by intros ->. Qed.
Lemma open_context_err p m u o e w : createSqliteContext (storeId m) (dbName m) (world o) = (Err e, w) ->
  open_context p m u o = hello_failed p m e (set_world w o).
Proof. unfold open_context. by intros ->. Qed.

(** Two hellos can leave a shared worker unusable. A second tab's hello that arrives
    while the first one's database is being opened opens it again; when that fails (the file
    handles are exclusive) its error handler forgets the store of the context that the first
    one has installed. From then on, until a shutdown, which clients of a shared worker
    never send, every hello, the right store's too, is answered with a response to a request
    nobody made, and no client gets a [helloOk]. *)
Theorem racing_hellos p q m m' u u' o c w1 e w2 id :
  ctx o = None -> ownershipMode o = sharedWorker id ->
  requireOpfs m && negb (opfs_available (scope o)) = false ->
  requireOpfs m' && negb (opfs_available (scope o)) = false ->
  storeId m' = storeId m -> dbName m' = dbName m ->
  createSqliteContext (storeId m) (dbName m) (world o) = (Ok c, w1) ->
  createSqliteContext (storeId m) (dbName m) w1 = (Err e, w2) ->
  let o1 := (begin_hello p m u o).1 in
  let o2 := (begin_hello q m' u' o1).1 in
  let o3 := open_context p m u o2 in
  let o4 := open_context q m' u' o3 in
  posted o4 = posted o ++ [(p, helloOk (sharedWorker id) (serverInstanceId o)); (q, helloError (init_error (scope o) m' e))] /\
  forall l : list arrival, Forall (fun a => forall rid, a.2.2 <> request rid dbShutdown) l ->
    orphaned (receive_all l o4) /\
    forall r h uuid, handleHello r h uuid (receive_all l o4) = post r (refused uuid) (receive_all l o4).
Proof.
  intros Hc Hm Ho Ho' Es Ed E1 E2. simpl. unfold begin_hello. rewrite Hc. simpl. rewrite Ho, Hm. simpl.
  rewrite Hc, Ho', Hm. simpl. set (o2 := set_names (Some (storeId m')) _ _).
  rewrite (open_context_ok p m u o2 c w1) by exact E1. unfold answer_hello. simpl.
  rewrite Es, Ed, !bool_decide_eq_true_2 by done. simpl.
  rewrite (open_context_err q m' u' _ e w2) by (simpl; by rewrite Es, Ed). unfold hello_failed. simpl.
  split; [by rewrite <- app_assoc, Hm|].
  set (o4 := post q _ _). assert (orphaned o4) as Horph by (split; [by exists c|done]). clearbody o4.
  intros l Hl. assert (orphaned (receive_all l o4)) as H.
  { clear - Horph Hl. revert o4 Horph. induction Hl as [|[[uuid draw] [r m]] l Ha _ IH]; intros o4 Horph; [done|].
    simpl. apply IH. by apply orphaned_receive. }
  split; [done|]. intros r h uuid. by apply orphaned_hello.
Qed.

(** A store written by a newer version is refused, and no version is lost;
    but the error reaches the client as a protocol error: the stage's error
    hides the code that [applySchema] gave it. *)
Lemma newer_schema_hello p m o v w s :
  createSqliteContext (storeId m) (dbName m) (world o) =
    (Err (SqliteInitError SqliteInitStages.applySchema (newer_schema v) s), w) ->
  exists context, posted (open_context p m "" o) =
    posted o ++ [(p, helloError (Platform WorkerProtocolError s (Some context)))] /\
    c_initStage context = Some SqliteInitStages.applySchema.
Proof.
  intros E. unfold open_context. rewrite E. unfold hello_failed, init_error. simpl.
  eexists. split; [reflexivity|done].
Qed.

(** An import that fails keeps the context whose connection it has closed. *)
Lemma failed_import_keeps_ctx draw p rid bytes o c d e w : ctx o = Some c -> o_dbName o = Some d -> d <> "" ->
  replaceMainDatabaseBytes draw c d bytes (world o) = (Err e, w) ->
  serve draw p rid (dbImportMain bytes) o =
    sendResponse p rid (error (platform_error e)) (set_world w o).
Proof.
  intros Hc Hd Hn E. unfold serve. rewrite Hc, Hd, bool_decide_eq_false_2 by done. unfold trying. by rewrite E.
Qed.
End Races.
End Hellos.

(** ** Witnesses *)

Module DbWorkerWitnesses.
Import ToySqlite SqliteWitnesses ServerProperties Locks Hellos.

Definition a_browser : browser := Browser (Some true) (Some (Storage None None (Some (Ok (Directory None (fun _ => Ok None)))))) true.
Definition empty_toy : toy := Toy [] 1 ([], 0%Z) None ∅ ∅.
Definition hello_s (client : string) : WorkerHello := Hello "store" client "mo.db" true.

Definition serving : owner toy :=
  handleHello 0 (hello_s "a") "u0" (attachPort (attachPort (newOwner "worker" (sharedWorker "w") a_browser empty_toy))).

(** Two ports; port 1 subscribes to [events], port 0 writes to it. *)
Definition trace : list arrival := [
  (("u1", 0%Z), (1%nat, hello (hello_s "b")));
  (("u2", 0%Z), (1%nat, request "r1" (dbSubscribeTables "s" ["Events"])));
  (("u3", 0%Z), (0%nat, request "r2" (dbBatch [insert "x"])));
  (("u4", 0%Z), (1%nat, cancel "r3"));
  (("u5", 0%Z), (1%nat, request "r3" (dbQuery "GET" [])));
  (("u6", 0%Z), (1%nat, request "r4" (dbQuery "GET" [])))].

Example trace_posts : drop 1 (posted (receive_all trace serving)) = [
  (1%nat, helloOk (sharedWorker "w") "worker");
  (1%nat, response "r1" (ok DNull));
  (1%nat, tablesChanged ["events"]);
  (0%nat, response "r2" (ok (DBatch [Executed])));
  (1%nat, response "r3" (error (platform CanceledError "Request was canceled")));
  (1%nat, response "r4" (ok (DRows [[("text", VText "x")]])))].
Proof. vm_compute. reflexivity. Qed.

Definition serving_0 : owner toy := Owner (connections serving) ∅ "worker" (ctx serving) (o_storeId serving)
  (o_dbName serving) (ownershipMode serving) None a_browser (world serving) [].

Lemma requests_answered_witness :
  filter (fun rid => rid ∈ ["r1"; "r3"; "r4"]) (answers 1 (posted (receive_all trace serving_0))) = ["r1"; "r3"; "r4"].
Proof.
  apply (requests_answered 1 trace serving_0); [|reflexivity].
  apply (bool_decide_unpack _). vm_compute. exact I.
Defined.

Definition tab_0 (id : string) : owner toy := attachPort (newOwner id (dedicatedWorker id) a_browser empty_toy).

(** The steps of one tab up to serving the store. *)
Definition g1 : origin := Origin [Tab (tab_0 "a") Fresh] ∅.
Definition o1 : owner toy := (begin_hello 0 (hello_s "a") "u1" (set_world empty_toy (tab_0 "a"))).1.
Definition g2 : origin := set_tab 0 (Tab o1 (Waiting (hello_s "a") "u1")) ∅ g1.
Definition g3 : origin := set_tab 0 (Tab o1 (Opening (hello_s "a") "u1")) (<["mo-eventstore:store" := 0%nat]> ∅) g2.
Definition o3 : owner toy := open_context 0 (hello_s "a") "u1" (set_world empty_toy o1).
Definition g4 : origin := set_tab 0 (Tab o3 Settled) (release 0 (set_world empty_toy o1) o3 (held g3)) g3.

Lemma g4_reachable : reachable g4.
Proof.
  eapply ReachStep; [eapply ReachStep; [eapply ReachStep; [eapply ReachStep; [apply ReachInit|]|]|]|].
  - apply (StepStart _ "a" a_browser empty_toy).
  - by apply (StepHello g1 0 (tab_0 "a") (hello_s "a") "u1" empty_toy o1 (AwaitsLock "mo-eventstore:store")).
  - by apply (StepGrant g2 0 o1 (hello_s "a") "u1" "mo-eventstore:store").
  - by apply (StepOpen g3 0 o1 (hello_s "a") "u1" empty_toy).
Qed.

Lemma g4_serves : serves g4 0 "store".
Proof. eexists (Tab o3 Settled), ctx_1. by split_and!. Qed.

Lemma one_worker_per_store_witness : serves g4 0 "store" /\ 0%nat = 0%nat.
Proof. split; [exact g4_serves|]. apply (one_worker_per_store g4 0 0 "store"); [apply g4_reachable|apply g4_serves..]. Defined.

Definition ctx_mid : owner toy := attachPort (attachPort (newOwner "worker" (sharedWorker "w") a_browser empty_toy)).

Lemma racing_hellos_witness :
  let o4 := open_context 1 (hello_s "b") "u2" (open_context 0 (hello_s "a") "u1"
    (begin_hello 1 (hello_s "b") "u2" (begin_hello 0 (hello_s "a") "u1" ctx_mid).1).1) in
  (posted o4).*1 = [0%nat; 1%nat] /\ handleHello 1 (hello_s "c") "u3" o4 = post 1 (refused "u3") o4.
Proof.
  destruct (racing_hellos (W := toy) 0 1 (hello_s "a") (hello_s "b") "u1" "u2" ctx_mid ctx_1
    (createSqliteContext "store" "mo.db" empty_toy).2
    (SqliteInitError SqliteInitStages.createVfs busy_files "SQLite init failed at create VFS")
    (createSqliteContext "store" "mo.db" empty_toy).2 "w") as [H1 H2]; try reflexivity.
  split; [by rewrite H1|]. destruct (H2 []) as [_ H]; [constructor|]. apply H.
Defined.

(** The lock is released before the context is closed: here the second tab
    serves the store while the first tab's connection is still open. *)
Definition g5 : origin := Origin (tabs g4 ++ [Tab (tab_0 "b") Fresh]) (held g4).
Definition o5 : owner toy := shutdown_begin (set_world (world o3) o3).
Definition g6 : origin := set_tab 0 (Tab o5 (Closing "r" (ctx o3))) (release 0 (set_world (world o3) o3) o5 (held g5)) g5.
Definition p1 : owner toy := (begin_hello 0 (hello_s "b") "u2" (set_world empty_toy (tab_0 "b"))).1.
Definition g7 : origin := set_tab 1 (Tab p1 (Waiting (hello_s "b") "u2")) (held g6) g6.
Definition g8 : origin := set_tab 1 (Tab p1 (Opening (hello_s "b") "u2")) (<["mo-eventstore:store" := 1%nat]> (held g7)) g7.
Definition p3 : owner toy := open_context 0 (hello_s "b") "u2" (set_world empty_toy p1).
Definition g9 : origin := set_tab 1 (Tab p3 Settled) (release 1 (set_world empty_toy p1) p3 (held g8)) g8.

Lemma closing_overlaps : reachable g9 /\ serves g9 1 "store" /\
  exists t c, tabs g9 !! 0%nat = Some t /\ tab_phase t = Closing "r" (Some c) /\ is_open (db c) (world (tab_owner t)) = true.
Proof.
  split.
  - eapply ReachStep; [eapply ReachStep; [eapply ReachStep; [eapply ReachStep; [eapply ReachStep; [apply g4_reachable|]|]|]|]|].
    + apply (StepStart _ "b" a_browser empty_toy).
    + by apply (StepShutdown g5 0 o3 (world o3) "r").
    + by apply (StepHello g6 1 (tab_0 "b") (hello_s "b") "u2" empty_toy p1 (AwaitsLock "mo-eventstore:store")).
    + by apply (StepGrant g7 1 p1 (hello_s "b") "u2" "mo-eventstore:store").
    + by apply (StepOpen g8 1 p1 (hello_s "b") "u2" empty_toy).
  - split; [eexists (Tab p3 Settled), ctx_1; by split_and!|]. eexists _, ctx_1. by split_and!.
Qed.

(** A failed import leaves a worker whose every query fails. *)
Definition newer_file : owner toy :=
  set_world (Toy [1%Z] 2 ([], 7%Z) None ∅ ∅) serving_0.
Example failed_import :
  let o := serve 0 0 "r1" (dbImportMain [1]%Z) newer_file in
  posted (serve 0 0 "r2" (dbQuery "GET" []) o) = [
    (0%nat, response "r1" (error (platform_error (newer_schema 7))));
    (0%nat, response "r2" (error (platform_error misuse)))].
Proof. vm_compute. reflexivity. Qed.
End DbWorkerWitnesses.
