(* ===== verification/DbClient.v ===== *)
(** * The client of the database worker

    [DbClient], [sendHello] (eventstore-web/src/client.ts) and
    [createWebSqliteDb] (index.ts), and the composition of one client with the
    worker over the two message queues of its port. *)

From S2P Require Import Prelude JsValues Sqlite DbWorker.
Import PlatformErrorCodes.

(** ** [DbClient] *)

(** What a promise is settled with: the data, or an error that carries the
    platform error's code and message. *)
Definition settlement : Type := result PlatformError response_data.

(** [pending] and [subscriptions] are the two maps; a listener is known by its
    subscription. [sent], [settled] and [fired] record what the client has
    posted, settled and called. *)
Record DbClient : Type := Client {
  pending : list string;
  c_subscriptions : jsmap (list string);
  listening : bool;
  sent : list message_in;
  settled : list (string * settlement);
  fired : list string
}.

Definition new_client : DbClient := Client [] [] true [] [] [].

(** [request(payload)], with the identifier drawn for it. *)
Definition request_ (requestId : string) (payload : WorkerRequest) (c : DbClient) : DbClient :=
  Client (pending c ++ [requestId]) (c_subscriptions c) (listening c) (sent c ++ [request requestId payload])
    (settled c) (fired c).

Definition query (u sql : string) (params : list SqliteValue) := request_ u (dbQuery sql params).
Definition execute (u sql : string) (params : list SqliteValue) := request_ u (dbExecute sql params).
Definition batch (u : string) (l : list SqliteStatement) := request_ u (dbBatch l).
Definition shutdownWorker (u : string) := request_ u dbShutdown.
Definition importMainDatabase (u : string) (bytes : list Z) := request_ u (dbImportMain bytes).
Definition exportMainDatabase (u : string) := request_ u dbExportMain.

(** What [exportMainDatabase] makes of its answer. *)
Definition export_result (s : settlement) : result thrown (list Z) :=
  match s with
  | Ok (DBytes b) => Ok b
  | Ok _ => Err (new_error "Invalid export response")
  | Err e => Err (JsErr "" (pe_message e) None)
  end.

Definition subscribeToTables (subscriptionId u : string) (tables : list string) (c : DbClient) : DbClient :=
  request_ u (dbSubscribeTables subscriptionId (map toLowerCase tables))
    (Client (pending c) (map_set subscriptionId (map toLowerCase tables) (c_subscriptions c)) (listening c)
      (sent c) (settled c) (fired c)).

(** The function that [subscribeToTables] returns. *)
Definition unsubscribe (subscriptionId u : string) (c : DbClient) : DbClient :=
  request_ u (dbUnsubscribeTables subscriptionId)
    (Client (pending c) (map_delete subscriptionId (c_subscriptions c)) (listening c) (sent c) (settled c) (fired c)).

Definition subscribeToChanges (c : DbClient) : result thrown DbClient :=
  Err (new_error "Row-level change hints are not implemented in MVP").

Definition shutdown (c : DbClient) : DbClient := Client [] [] false (sent c) (settled c) (fired c).

Definition settlement_of (r : WorkerResponse) : settlement := match r with ok d => Ok d | error e => Err e end.

Definition handleResponse (requestId : string) (payload : WorkerResponse) (c : DbClient) : DbClient :=
  if bool_decide (requestId ∈ pending c)
  then Client (filter (fun i => i <> requestId) (pending c)) (c_subscriptions c) (listening c) (sent c)
    (settled c ++ [(requestId, settlement_of payload)]) (fired c)
  else c.

Definition interested (changed : list string) (l : jsmap (list string)) : list string :=
  map fst (filter (fun e => existsb (fun t => bool_decide (t ∈ changed)) e.2 = true) l).

Definition handleNotify (tables : list string) (c : DbClient) : DbClient :=
  Client (pending c) (c_subscriptions c) (listening c) (sent c) (settled c)
    (fired c ++ interested (map toLowerCase tables) (c_subscriptions c)).

Definition onMessage (m : message_out) (c : DbClient) : DbClient :=
  if listening c then
    match m with
    | tablesChanged tables => handleNotify tables c
    | response requestId payload => handleResponse requestId payload c
    | _ => c
    end
  else c.

(** ** Connecting *)

(** [sendHello]: the first answer to the hello among the messages that arrive
    before the timeout. *)
Fixpoint sendHello (arrived : list message_out) : result PlatformError (DbOwnershipMode * string) :=
  match arrived with
  | [] => Err (platform WorkerProtocolError "Worker hello timeout")
  | helloOk mode i :: _ => Ok (mode, i)
  | helloError e :: _ => Err e
  | _ :: arrived => sendHello arrived
  end.

Inductive worker_kind : Type := Shared | Dedicated.

(** The page: whether there is a window, the file system and shared workers,
    whether starting a shared worker throws, and what each kind of worker
    sends to the port before the hello's timeout. *)
Record page : Type := Page {
  in_window : bool;
  hasOpfsSupport : bool;
  sharedWorkerSupported : bool;
  sharedWorkerStarts : bool;
  arrives : worker_kind -> list message_out
}.

Definition first_port (pg : page) : worker_kind :=
  if sharedWorkerSupported pg && sharedWorkerStarts pg then Shared else Dedicated.

(** [createWebSqliteDb]: the worker the client ends up with, and its mode. *)
Definition createWebSqliteDb (pg : page) (needsOpfs : bool) :
    result PlatformError (worker_kind * DbOwnershipMode) :=
  if negb (in_window pg) then Err (platform WorkerProtocolError "createWebSqliteDb must be called in a browser context")
  else if needsOpfs && negb (hasOpfsSupport pg) then
    Err (platform WorkerProtocolError
      "OPFS is required but unavailable in this browser context (requires a secure context and StorageManager.getDirectory).")
  else
    let port := first_port pg in
    match sendHello (arrives pg port) with
    | Ok (mode, _) => Ok (port, mode)
    | Err e =>
        match port with
        | Shared =>
            match sendHello (arrives pg Dedicated) with
            | Ok (mode, _) => Ok (Dedicated, mode)
            | Err e => Err e
            end
        | Dedicated => Err e
        end
    end.

(** The request that the returned [shutdown] sends first, if any. *)
Definition shutdown_requests (mode : DbOwnershipMode) (u : string) : list message_in :=
  match mode with dedicatedWorker _ => [request u dbShutdown] | _ => [] end.

(** ** A client and the worker *)

Module ClientSystem.
Import ServerProperties.

Section System.
Context {W : Type} `{!WaSqlite W}.

(** The port's two queues: what the client posted and the worker has not
    handled, what the worker posted and the client has not seen. *)
Record system : Type := System {
  client : DbClient;
  server : owner W;
  to_server : list message_in;
  to_client : list message_out;
  issued : list string
}.

(** The port the client is attached to. *)
Variable p : nat.

(** What is posted to the port. *)
Definition at_port (l : list (nat * message_out)) : list message_out :=
  omap (fun '(q, m) => if decide (q = p) then Some m else None) l.

Definition news (before after : owner W) : list message_out :=
  at_port (drop (length (posted before)) (posted after)).

Inductive step : system -> system -> Prop :=
| StepRequest s u r : u ∉ issued s ->
    step s (System (request_ u r (client s)) (server s) (to_server s ++ [request u r]) (to_client s) (issued s ++ [u]))
| StepSubscribe s sid u tables : u ∉ issued s ->
    step s (System (subscribeToTables sid u tables (client s)) (server s)
      (to_server s ++ [request u (dbSubscribeTables sid (map toLowerCase tables))]) (to_client s) (issued s ++ [u]))
| StepUnsubscribe s sid u : u ∉ issued s ->
    step s (System (unsubscribe sid u (client s)) (server s)
      (to_server s ++ [request u (dbUnsubscribeTables sid)]) (to_client s) (issued s ++ [u]))
| StepServer s uuid draw m l : to_server s = m :: l ->
    let o := receive uuid draw p m (server s) in
    step s (System (client s) o l (to_client s ++ news (server s) o) (issued s))
| StepOther s uuid draw q m : q <> p ->
    let o := receive uuid draw q m (server s) in
    step s (System (client s) o (to_server s) (to_client s ++ news (server s) o) (issued s))
| StepClient s m l : to_client s = m :: l ->
    step s (System (onMessage m (client s)) (server s) (to_server s) l (issued s)).

(** A client just connected, to a worker in any state, with ports attached. *)
Inductive reachable : system -> Prop :=
| ReachInit o : at_port (posted o) = [] -> reachable (System new_client o [] [] [])
| ReachStep s s' : reachable s -> step s s' -> reachable s'.

(** The answers among messages, and the requests. *)
Definition answered (l : list message_out) : list (string * settlement) :=
  omap (fun m => match m with response rid r => Some (rid, settlement_of r) | _ => None end) l.
Definition requested (l : list message_in) : list string :=
  omap (fun m => match m with request rid _ => Some rid | _ => None end) l.

Record inv (s : system) : Prop := {
  inv_listening : listening (client s) = true;
  inv_requests : Forall (fun m => exists u r, m = request u r) (to_server s);
  inv_answers : answered (at_port (posted (server s))) = settled (client s) ++ answered (to_client s);
  inv_issued : issued s = map fst (settled (client s)) ++ pending (client s);
  inv_pending : pending (client s) = map fst (answered (to_client s)) ++ requested (to_server s);
  inv_fresh : NoDup (issued s)
}.

Lemma at_port_app l k : at_port (l ++ k) = at_port l ++ at_port k.
Proof. unfold at_port. by rewrite omap_app. Qed.
Lemma answered_app l k : answered (l ++ k) = answered l ++ answered k.
Proof. unfold answered. by rewrite omap_app. Qed.
Lemma requested_app l k : requested (l ++ k) = requested l ++ requested k.
Proof. unfold requested. by rewrite omap_app. Qed.

Lemma news_suffix o o' l : posted o' = posted o ++ l -> news o o' = at_port l.
Proof. intros E. unfold news. by rewrite E, drop_app_length. Qed.

Lemma answered_notices l : Forall (fun e => is_notice e = true) l -> answered (at_port l) = [].
Proof.
  induction 1 as [|[q m] l He _ IH]; [done|]. unfold at_port. simpl. destruct (decide (q = p)); [|done].
  by destruct m.
Qed.

(** What a message of port [q] makes the worker post to port [p]. *)
Lemma receive_news uuid draw q m o : (q = p -> exists u r, m = request u r) ->
  exists l, posted (receive uuid draw q m o) = posted o ++ l /\
    (q <> p -> answered (at_port l) = []) /\
    (forall u r, q = p -> m = request u r -> exists a, answered (at_port l) = [(u, settlement_of a)]).
Proof.
  intros Hm. destruct m as [h|u r|t]; simpl.
  - destruct (hello_posts q h uuid o) as (a & _ & ->). eexists. split; [done|]. split; [|naive_solver].
    intros Hq. unfold at_port. simpl. by rewrite decide_False by done.
  - destruct (handleRequest_posts draw q u r o) as [a ->]. eexists. split; [done|].
    assert (answered (at_port (if succeeded a then told (written r) (connections o) else [])) = []) as Ht.
    { apply answered_notices. destruct (succeeded a); [apply told_notices|constructor]. }
    split; [intros Hq|intros u' r' -> [= -> ->]; exists a]; rewrite at_port_app, answered_app, Ht; unfold at_port; simpl.
    + by rewrite decide_False by done.
    + by rewrite decide_True by done.
  - exists []. rewrite app_nil_r. split; [done|]. split; [done|]. naive_solver.
Qed.

Lemma filter_first (i : string) l : NoDup (i :: l) -> filter (fun j => j <> i) (i :: l) = l.
Proof.
  intros [Hi _]%NoDup_cons. rewrite filter_cons, decide_False by naive_solver.
  induction l as [|j l IH]; [done|]. rewrite filter_cons, decide_True by (intros ->; apply Hi; left).
  rewrite IH; [done|]. intros H. apply Hi. by right.
Qed.

Lemma inv_issue s c m u : inv s -> u ∉ issued s -> (exists r, m = request u r) ->
  listening c = true -> settled c = settled (client s) -> pending c = pending (client s) ++ [u] ->
  inv (System c (server s) (to_server s ++ [m]) (to_client s) (issued s ++ [u])).
Proof.
  intros [H1 H2 H3 H4 H5 H6] Hu [r ->] Hl Hs Hp. split; simpl; [done| |by rewrite Hs| | |].
  - apply Forall_app. split; [done|]. repeat constructor. eauto.
  - by rewrite Hs, Hp, app_assoc, H4.
  - by rewrite Hp, requested_app, app_assoc, H5.
  - apply NoDup_app. split; [done|]. split; [|apply NoDup_singleton]. intros x Hx ->%list_elem_of_singleton. done.
Qed.

Lemma client_step_inv s s' : inv s -> step s s' -> inv s'.
Proof.
  intros Hi Hs. destruct Hs as [s u r Hu|s sid u tables Hu|s sid u Hu|s uuid draw m l Hq o|s uuid draw q m Hq o|s m l Hq].
  1-3: apply inv_issue; eauto; by destruct Hi.
  - destruct Hi as [H1 H2 H3 H4 H5 H6]. rewrite Hq in *. inversion H2 as [|? ? (u & r & ->) H2']; subst.
    destruct (receive_news uuid draw p (request u r) (server s)) as (k & Hk & _ & Ha); [eauto|].
    destruct (Ha u r) as [a Hans]; [done..|]. split; simpl; [done|done| |done| |done].
    + rewrite (news_suffix _ _ k) by done. subst o. rewrite Hk, at_port_app, !answered_app, H3. by rewrite app_assoc.
    + rewrite (news_suffix _ _ k) by done. rewrite H5, answered_app, Hans, map_app. simpl. by rewrite <- app_assoc.
  - destruct Hi as [H1 H2 H3 H4 H5 H6].
    destruct (receive_news uuid draw q m (server s)) as (k & Hk & Ha & _); [done|]. specialize (Ha Hq).
    split; simpl; [done|done| |done| |done].
    + rewrite (news_suffix _ _ k) by done. subst o. by rewrite Hk, at_port_app, !answered_app, H3, Ha, !app_nil_r.
    + rewrite (news_suffix _ _ k) by done. by rewrite answered_app, Ha, app_nil_r.
  - destruct Hi as [H1 H2 H3 H4 H5 H6]. rewrite Hq in *. unfold onMessage. rewrite H1.
    destruct m as [mode i|e|rid a|tables]; try by split.
    simpl in *. unfold handleResponse. rewrite bool_decide_eq_true_2 by (rewrite H5; left).
    assert (NoDup (pending (client s))) as Hn by (rewrite H4 in H6; by apply NoDup_app in H6 as (_ & _ & ?)).
    split; simpl; [done|done| | | |done].
    + rewrite H3. by rewrite <- app_assoc.
    + rewrite H4, map_app, <- app_assoc. simpl. f_equal. rewrite H5 in Hn |- *. by rewrite filter_first.
    + rewrite H5 in Hn |- *. by rewrite filter_first.
Qed.

Lemma client_reachable_inv s : reachable s -> inv s.
Proof.
  induction 1 as [o Ho|s s' _ IH Hs]; [|by eapply client_step_inv]. split; simpl; try done; [by rewrite Ho|constructor].
Qed.

(** C33: A client's promises are settled by the worker's answers: whatever is in flight and
    whatever other tabs do, its requests are, in the order it made them, those already
    settled and those pending; each settled one has the outcome that the worker posted for
    it; and when both queues are empty none is pending, so that every promise was settled
    exactly once. *)
Theorem promises_settled s : reachable s ->
  issued s = map fst (settled (client s)) ++ pending (client s) /\ NoDup (issued s) /\
  settled (client s) `prefix_of` answered (at_port (posted (server s))) /\
  (to_server s = [] -> to_client s = [] ->
   pending (client s) = [] /\ settled (client s) = answered (at_port (posted (server s))) /\
   map fst (settled (client s)) = issued s).
Proof.
  intros [H1 H2 H3 H4 H5 H6]%client_reachable_inv. split_and!; [done|done|by rewrite H3; apply prefix_app_r|].
  intros E1 E2. rewrite E1, E2 in *. simpl in *. rewrite H5, app_nil_r in *. by rewrite H3.
Qed.
End System.

(** The subscribed listener is called: the tables a subscription asked for
    meet the tables of a notice exactly when the worker sends it. *)
Lemma subscribed_fires `{!WaSqlite W} sid tables changed c :
  map_get sid (c_subscriptions c) = Some tables -> Exists (fun t => t ∈ map toLowerCase changed) tables ->
  sid ∈ drop (length (fired c)) (fired (handleNotify changed c)).
Proof.
  intros Hg He. simpl. rewrite drop_app_length. unfold interested. apply list_elem_of_fmap. exists (sid, tables).
  split; [done|]. apply list_elem_of_filter. split.
  - apply existsb_exists. apply Exists_exists in He as (t & Ht & Hc). exists t. split; [by apply list_elem_of_In|].
    by apply bool_decide_eq_true_2.
  - clear - Hg. unfold map_get in Hg. induction (c_subscriptions c) as [|[k v] l IH]; [done|]. simpl in Hg.
    destruct (decide (sid = k)) as [->|]; [injection Hg as ->; left|right; by apply IH].
Qed.
End ClientSystem.

(** ** Witnesses *)

Module DbClientWitnesses.
Import ToySqlite SqliteWitnesses DbWorkerWitnesses ClientSystem.

Definition s0 : system := System new_client serving_0 [] [] [].
Definition s1 : system := System (subscribeToTables "s" "r1" ["Events"] new_client) serving_0
  [request "r1" (dbSubscribeTables "s" ["events"])] [] ["r1"].
Definition o1 : owner toy := receive "x" 0 1 (request "r1" (dbSubscribeTables "s" ["events"])) serving_0.
Definition s2 : system := System (client s1) o1 [] [response "r1" (ok DNull)] ["r1"].
(** Another tab writes. *)
Definition o2 : owner toy := receive "y" 0 0 (request "z" (dbBatch [insert "x"])) o1.
Definition s3 : system := System (client s1) o2 [] [response "r1" (ok DNull); tablesChanged ["events"]] ["r1"].
Definition s4 : system :=
  System (onMessage (response "r1" (ok DNull)) (client s1)) o2 [] [tablesChanged ["events"]] ["r1"].
Definition s5 : system := System (onMessage (tablesChanged ["events"]) (client s4)) o2 [] [] ["r1"].

Lemma s5_reachable : reachable 1 s5.
Proof.
  eapply ReachStep; [eapply ReachStep; [eapply ReachStep; [eapply ReachStep; [eapply ReachStep|]|]|]|].
  - by apply (ReachInit 1 serving_0).
  - apply (StepSubscribe 1 s0 "s" "r1" ["Events"]). apply not_elem_of_nil.
  - by apply (StepServer 1 s1 "x" 0 (request "r1" (dbSubscribeTables "s" ["events"])) []).
  - by apply (StepOther 1 s2 "y" 0 0 (request "z" (dbBatch [insert "x"]))).
  - by apply (StepClient 1 s3 (response "r1" (ok DNull)) [tablesChanged ["events"]]).
  - by apply (StepClient 1 s4 (tablesChanged ["events"]) []).
Qed.

Lemma promises_settled_witness :
  issued s5 = ["r1"] /\ settled (client s5) = [("r1", Ok DNull)] /\ pending (client s5) = [] /\ fired (client s5) = ["s"].
Proof.
  destruct (promises_settled 1 s5 s5_reachable) as (_ & _ & _ & H). destruct (H eq_refl eq_refl) as (H1 & _ & _).
  split; [reflexivity|]. split; [reflexivity|]. split; [exact H1|reflexivity].
Defined.

(** A page whose shared worker was orphaned waits for the timeout and then
    falls back to a dedicated worker. *)
Definition orphaned_page : page := Page true true true true (fun k =>
  match k with
  | Shared => [Hellos.refused "u"]
  | Dedicated => [helloOk (dedicatedWorker "t") "worker"]
  end).
Example falls_back : createWebSqliteDb orphaned_page true = Ok (Dedicated, dedicatedWorker "t").
Proof. reflexivity. Qed.
End DbClientWitnesses.
