(* ===== verification/KeyService.v ===== *)
(** * The key service's worker

    [KeyServiceHost] and its request handler (key-service-web/src/worker/
    key-service.worker.ts), its storage (worker/storage.ts), the client and
    the set-up of both ([client.ts], [index.ts]).

    A message is handled at once, up to the transaction of IndexedDB it may
    open; its response waits for the requests of that transaction while other
    messages are handled ([event]).

    The service itself is compiled from Rust to WebAssembly: it is the class
    [KeyServiceWasm] over its state [S]; the buffer of its writes
    (key-service-wasm/src/lib.rs) is modelled, and [WasmStorage] states that
    the service writes through it. The worker's memory is modelled, because the handler
    overwrites the secrets it was sent: a [Uint8Array] of a request is an
    address of the [heap]. *)

From Stdlib Require Import Ascii.
From S2P Require Import Prelude JsValues.

(** ** Values and errors *)

(** A JavaScript value that the service returns or throws. *)
#[warnings="-register-all"]
Inductive jsval : Type :=
| VUndefined | VNull | VBool (b : bool) | VNum (n : number) | VBig (z : Z) | VStr (s : string)
| VBytes (b : list Z) | VArr (l : list jsval) | VObj (fields : list (string * jsval)).

(** A thrown value, and whether it is an [Error]. *)
Inductive raised : Type := Raised (is_error : bool) (value : jsval).

Definition new_error (message : string) : raised := Raised true (VObj [("message", VStr message)]).

(** [value.k] *)
Definition field (k : string) (v : jsval) : jsval :=
  match v with VObj l => default VUndefined (assoc k l) | _ => VUndefined end.

(** [KeyServiceErrorCodes]; a code received from the service may be another string. *)
Definition WorkerProtocolError : string := "WorkerProtocolError".
Definition WorkerNotReady : string := "WorkerNotReady".
Definition WasmError : string := "WasmError".
Definition KeyServiceErrorCodes : list string :=
  ["StorageError"; "InvalidCbor"; "InvalidFormat"; "CryptoError"; "SessionInvalid"; "StepUpRequired";
   "UntrustedSigner"; "UnknownScope"; "UnknownHandle"; "ResourceKeyMissing"; "ScopeKeyMissing";
   "FingerprintMismatch"; "SignerFingerprintRequired"; WorkerProtocolError; WorkerNotReady; WasmError].

Record KeyServiceError : Type := KsError { k_code : string; k_message : string; k_context : option jsval }.

(** [isContext(value) ? value : undefined], and any value but [undefined]. *)
Definition isContext (v : jsval) : bool := match v with VObj _ | VBytes _ => true | _ => false end.
Definition defined (v : jsval) : option jsval := match v with VUndefined => None | _ => Some v end.

Definition isKeyServiceErrorCode (code : string) : bool := bool_decide (code ∈ KeyServiceErrorCodes).

(** [Some]: the value as an error. *)
Definition isKeyServiceError (v : jsval) : option KeyServiceError :=
  match field "code" v, field "message" v with
  | VStr code, VStr message => Some (KsError code message (defined (field "context" v)))
  | _, _ => None
  end.

(** The second test repeats the first one's condition: it is never reached
    with it true. *)
Definition toKeyServiceError (e : raised) (fallbackCode : string) : KeyServiceError :=
  let '(Raised is_error v) := e in
  match isKeyServiceError v with
  | Some err => err
  | None =>
      match field "code" v, field "message" v with
      | VStr code, VStr message =>
          KsError (if isKeyServiceErrorCode code then code else fallbackCode) message
            (if isContext (field "context" v) then Some (field "context" v) else None)
      | _, _ =>
          if is_error
          then KsError fallbackCode (match field "message" v with VStr m => m | _ => "" end) None
          else KsError fallbackCode "Unknown error" None
      end
  end.

(** ** Requests and responses: [@mo/key-service-idl] *)

Definition buffer : Type := nat.

Inductive UnlockRequest : Type := passphrase (passphraseUtf8 : buffer) | userPresence (userPresenceSecret : buffer).

Record KdfParams : Type := Kdf { kdf_id : string; salt : buffer; memoryKib : Z; iterations : Z; parallelism : Z }.

Inductive Signal : Type := idle | blur | lock_.

Inductive KeyServiceRequest : Type :=
| createVault (userId : string) (passphraseUtf8 : buffer) (kdfParams : KdfParams)
| unlock (r : UnlockRequest)
| stepUp (sessionId : string) (passphraseUtf8 : buffer)
| getUserPresenceUnlockInfo
| renewSession (sessionId : string)
| lock (sessionId : string)
| exportKeyVault (sessionId : string)
| importKeyVault (sessionId : string) (blob : buffer)
| changePassphrase (sessionId : string) (newPassphraseUtf8 : buffer)
| storeAppMasterKey (sessionId : string) (masterKey : buffer)
| getAppMasterKey (sessionId : string)
| enableUserPresenceUnlock (sessionId : string) (credentialId userPresenceSecret : buffer)
| disableUserPresenceUnlock (sessionId : string)
| ingestScopeState (sessionId : string) (scopeStateCbor : buffer) (expectedOwnerSignerFingerprint : option string)
| ingestKeyEnvelope (sessionId : string) (keyEnvelopeCbor : buffer)
| openScope (sessionId scopeId : string) (scopeEpoch : Z)
| openResource (sessionId scopeKeyHandle : string) (grantCbor : buffer)
| closeHandle (sessionId keyHandle : string)
| encrypt (sessionId resourceKeyHandle : string) (aad plaintext : buffer)
| decrypt (sessionId resourceKeyHandle : string) (aad ciphertext : buffer)
| sign (sessionId : string) (data : buffer)
| verify (scopeId signerDeviceId : string) (data signature : buffer) (ciphersuite : string)
| signal (s : Signal) (sessionId : option string).

Inductive SessionKind : Type := normal | stepUp_.
Inductive SessionAssurance : Type := byPassphrase | byUserPresence.

Record UnlockResponse : Type := Unlocked {
  u_sessionId : string; u_issuedAtMs : number; u_expiresAtMs : number;
  u_kind : SessionKind; u_assurance : SessionAssurance
}.

Inductive KeyServiceResponse : Type :=
| REmpty (type : string)
| RUnlock (u : UnlockResponse)
| RStepUp (issuedAtMs expiresAtMs : number)
| RUserPresenceInfo (enabled : bool) (credentialId : option (list Z)) (prfSalt : list Z) (aead : string)
| RRenew (issuedAtMs expiresAtMs : number)
| RBlob (blob : list Z)
| RMasterKey (masterKey : list Z)
| RScopeState (scopeId scopeStateRef : string)
| RKeyEnvelope (scopeId : string) (scopeEpoch : Z)
| RScopeKey (scopeKeyHandle : string)
| RResourceKey (resourceKeyHandle : string)
| RCiphertext (ciphertext : list Z)
| RPlaintext (plaintext : list Z)
| RSignature (signature : list Z) (ciphersuite : string)
| RVerified (ok : bool).

(** ** The service *)

(** A call of a method, with the contents of its buffers. *)
Inductive wasm_call : Type :=
| WCreateVault (userId : string) (passphrase : list Z) (kdf_id : string) (salt : list Z) (memoryKib iterations parallelism : Z)
| WUnlockPassphrase (passphrase : list Z)
| WUnlockUserPresence (secret : list Z)
| WStepUp (sessionId : string) (passphrase : list Z)
| WGetUserPresenceUnlockInfo
| WRenewSession (sessionId : string)
| WLock (sessionId : string)
| WExportKeyVault (sessionId : string)
| WImportKeyVault (sessionId : string) (blob : list Z)
| WChangePassphrase (sessionId : string) (passphrase : list Z)
| WStoreAppMasterKey (sessionId : string) (masterKey : list Z)
| WGetAppMasterKey (sessionId : string)
| WEnableUserPresenceUnlock (sessionId : string) (credentialId secret : list Z)
| WDisableUserPresenceUnlock (sessionId : string)
| WIngestScopeState (sessionId : string) (cbor : list Z) (fingerprint : option string)
| WIngestKeyEnvelope (sessionId : string) (cbor : list Z)
| WOpenScope (sessionId scopeId : string) (scopeEpoch : Z)
| WOpenResource (sessionId scopeKeyHandle : string) (cbor : list Z)
| WCloseHandle (sessionId keyHandle : string)
| WEncrypt (sessionId handle : string) (aad plaintext : list Z)
| WDecrypt (sessionId handle : string) (aad ciphertext : list Z)
| WSign (sessionId : string) (data : list Z)
| WVerify (scopeId signer : string) (data signature : list Z) (suite : string).

Record StorageEntry : Type := Entry { namespace : string; key : string; value : list Z }.

Class KeyServiceWasm (S : Type) : Type := {
  wasm_init : result raised unit;
  new_service : S;
  loadStorage : list StorageEntry -> js S raised unit;
  drainStorageWrites : js S raised jsval;
  call : wasm_call -> js S raised jsval
}.

(** ** [KeyServiceStorage] *)

Definition buildId (namespace key : string) : string := namespace +:+ ":" +:+ key.

(** The object store: its records by id. [getAll] lists them in the order of
    the ids, which are distinct. *)
Notation object_store := (gmap string StorageEntry).

Definition loadAll (st : object_store) : list StorageEntry := map snd (map_to_list st).

Definition put_all (entries : list StorageEntry) (st : object_store) : object_store :=
  fold_left (fun st e => <[buildId (namespace e) (key e) := e]> st) entries st.

(** How a transaction of IndexedDB ends: it completes; a request fails, and
    with it the transaction; or the requests succeed and then the transaction
    is aborted (no room on the disk), which nobody hears of. *)
Inductive outcome : Type := Completes | Refused (e : raised) | Aborts.

Record idb_transaction : Type := Tx { entries : list StorageEntry; ends : outcome }.

(** The database: the records of its completed transactions, and the
    transactions under way. They have the same store, so they run one after
    another in the order of their creation; [answered]: the requests of the
    first one have ended, itself it has not. [script]: how the next ones end. *)
Record database : Type := Database {
  records : object_store;
  opened : list idb_transaction;
  answered : bool;
  script : list outcome
}.

Definition open_tx (l : list StorageEntry) (d : database) : database :=
  Database (records d) (opened d ++ [Tx l (hd Completes (script d))]) (answered d) (tail (script d)).

(** ** The request handler *)

(** [activeSessionId] is the field of the requesting client. *)
Record runtime (S : Type) : Type := Runtime {
  service : S;
  storage : database;
  heap : gmap nat (list Z);
  activeSessionId : option string
}.
Arguments Runtime {S} _ _ _ _.
Arguments service {S} _.
Arguments storage {S} _.
Arguments heap {S} _.
Arguments activeSessionId {S} _.

Section Checks.
Definition check := result raised.

Definition invalid {A} (context : string) : check A := Err (new_error ("Invalid " +:+ context)).
Definition ensureBoolean (v : jsval) (context : string) : check bool :=
  match v with VBool b => Ok b | _ => invalid (context +:+ " response") end.
Definition ensureString (v : jsval) (context : string) : check string :=
  match v with VStr s => Ok s | _ => invalid (context +:+ " response") end.
Definition ensureUint8Array (v : jsval) (context : string) : check (list Z) :=
  match v with VBytes b => Ok b | _ => invalid (context +:+ " response") end.
Definition requireBoolean (v : jsval) (f : string) : check bool := match v with VBool b => Ok b | _ => invalid f end.
Definition requireNumber (v : jsval) (f : string) : check number := match v with VNum n => Ok n | _ => invalid f end.
Definition requireBigint (v : jsval) (f : string) : check Z := match v with VBig z => Ok z | _ => invalid f end.
Definition requireString (v : jsval) (f : string) : check string := match v with VStr s => Ok s | _ => invalid f end.
Definition requireSessionKind (v : jsval) (f : string) : check SessionKind :=
  match v with VStr "normal" => Ok normal | VStr "stepUp" => Ok stepUp_ | _ => invalid f end.
Definition requireSessionAssurance (v : jsval) (f : string) : check SessionAssurance :=
  match v with
  | VStr "passphrase" => Ok byPassphrase
  | VStr "webauthnPrf" | VStr "userPresence" => Ok byUserPresence
  | _ => invalid f
  end.
Definition requireAeadId (v : jsval) (f : string) : check string :=
  match v with VStr "aead-1" => Ok "aead-1" | _ => invalid f end.
Definition requireSigSuite (v : jsval) (f : string) : check string :=
  match v with VStr "hybrid-sig-1" => Ok "hybrid-sig-1" | _ => invalid f end.
Definition non_empty (s what : string) : check string := match s with "" => invalid what | _ => Ok s end.
Definition asSessionId (s : string) : check string := non_empty s "sessionId".
Definition asScopeId (s : string) : check string := non_empty s "scopeId".
Definition asKeyHandle (s : string) : check string := non_empty s "key handle".
Definition asScopeEpoch (z : Z) : check Z := if (z <? 0)%Z then invalid "scopeEpoch" else Ok z.

Definition isRecord (v : jsval) : bool := match v with VObj _ | VBytes _ => true | _ => false end.
Definition record {A} (v : jsval) (what : string) (k : check A) : check A :=
  if isRecord v then k else invalid (what +:+ " response").

Definition parseUnlockResponse (v : jsval) : check UnlockResponse := record v "unlock" (
  s ← requireString (field "sessionId" v) "sessionId";
  s ← asSessionId s;
  i ← requireNumber (field "issuedAtMs" v) "issuedAtMs";
  x ← requireNumber (field "expiresAtMs" v) "expiresAtMs";
  k ← requireSessionKind (field "kind" v) "kind";
  a ← requireSessionAssurance (field "assurance" v) "assurance";
  mret (Unlocked s i x k a)).

Definition parseStepUpResponse (v : jsval) : check KeyServiceResponse := record v "stepUp" (
  i ← requireNumber (field "issuedAtMs" v) "issuedAtMs";
  x ← requireNumber (field "expiresAtMs" v) "expiresAtMs";
  mret (RStepUp i x)).

Definition parseRenewResponse (v : jsval) : check KeyServiceResponse := record v "renewSession" (
  i ← requireNumber (field "issuedAtMs" v) "issuedAtMs";
  x ← requireNumber (field "expiresAtMs" v) "expiresAtMs";
  mret (RRenew i x)).

Definition parseUserPresenceInfo (v : jsval) : check KeyServiceResponse := record v "user presence" (
  e ← requireBoolean (field "enabled" v) "enabled";
  c ← match field "credentialId" v with
      | VNull | VUndefined => Ok None
      | c => Some <$> ensureUint8Array c "credentialId"
      end;
  s ← ensureUint8Array (field "prfSalt" v) "prfSalt";
  a ← requireAeadId (field "aead" v) "aead";
  mret (RUserPresenceInfo e c s a)).

Definition parseIngestScopeStateResponse (v : jsval) : check KeyServiceResponse := record v "ingestScopeState" (
  s ← requireString (field "scopeId" v) "scopeId";
  s ← asScopeId s;
  r ← requireString (field "scopeStateRef" v) "scopeStateRef";
  mret (RScopeState s r)).

Definition parseIngestKeyEnvelopeResponse (v : jsval) : check KeyServiceResponse := record v "ingestKeyEnvelope" (
  s ← requireString (field "scopeId" v) "scopeId";
  s ← asScopeId s;
  e ← requireBigint (field "scopeEpoch" v) "scopeEpoch";
  e ← asScopeEpoch e;
  mret (RKeyEnvelope s e)).

Definition parseSignResponse (v : jsval) : check KeyServiceResponse := record v "sign" (
  s ← ensureUint8Array (field "signature" v) "signature";
  c ← requireSigSuite (field "ciphersuite" v) "ciphersuite";
  mret (RSignature s c)).

Definition parseStorageEntry (v : jsval) : check StorageEntry :=
  match v with
  | VObj _ | VArr _ | VBytes _ =>
      match field "namespace" v, field "key" v, field "value" v with
      | VStr n, VStr k, VBytes b => Ok (Entry n k b)
      | _, _, _ => Err (new_error "Invalid storage entry shape")
      end
  | _ => Err (new_error "Invalid storage entry")
  end.

Definition parseStorageEntries (v : jsval) : check (list StorageEntry) :=
  match v with VArr l => mapM parseStorageEntry l | _ => Ok [] end.
End Checks.

Section Handler.
Context {S : Type} `{!KeyServiceWasm S}.
Notation runtime := (runtime S).
Notation run := (js runtime raised).

Definition on_service {A} (m : js S raised A) : run A := fun st =>
  let '(r, s) := m (service st) in
  (r, Runtime s (storage st) (heap st) (activeSessionId st)).

Definition wasm (c : wasm_call) : run jsval := on_service (call c).

(** The contents of a buffer, and [buffer.fill(0)]. *)
Definition contents (b : buffer) : run (list Z) := gets (fun st => default [] (heap st !! b)).
Definition fill0 (b : buffer) (st : runtime) : runtime :=
  Runtime (service st) (storage st) (alter (fun l => replicate (length l) 0%Z) b (heap st)) (activeSessionId st).
Definition set_active (a : option string) (st : runtime) : runtime :=
  Runtime (service st) (storage st) (heap st) a.
Definition set_storage (d : database) (st : runtime) : runtime :=
  Runtime (service st) d (heap st) (activeSessionId st).

(** [putEntries] opens a transaction and waits for its requests, not for the
    transaction. What they will end with is the answer of the computation; the
    waiting is the host's: nothing that a handler does after it changes the
    state of the worker, it only makes the response. *)
Definition putEntries (entries : list StorageEntry) : run unit := fun st =>
  match entries with
  | [] => (Ok tt, st)
  | _ =>
      (match hd Completes (script (storage st)) with Refused e => Err e | _ => Ok tt end,
       set_storage (open_tx entries (storage st)) st)
  end.

Definition persistWrites : run unit :=
  raw ← on_service drainStorageWrites;
  entries ← lift_result (parseStorageEntries raw);
  putEntries entries.

(** [service.m(..., secret)] inside [try ... finally { secret.fill(0) }]. *)
Definition with_secret {A} (b : buffer) (m : list Z -> run A) : run A :=
  secret ← contents b;
  finally (m secret) (fill0 b).

Definition done (type : string) : run KeyServiceResponse := persistWrites ≫= fun _ => mret (REmpty type).

(** A parsed answer, after the writes are persisted. *)
Definition persisted (r : run KeyServiceResponse) : run KeyServiceResponse :=
  response ← r; persistWrites ≫= fun _ => mret response.

Definition unlock_with (r : UnlockRequest) : run jsval :=
  match r with
  | passphrase p => with_secret p (fun s => wasm (WUnlockPassphrase s))
  | userPresence p => with_secret p (fun s => wasm (WUnlockUserPresence s))
  end.

Definition lock_session (sessionId : string) : run unit :=
  wasm (WLock sessionId) ≫= fun _ =>
  modify (fun st => if decide (activeSessionId st = Some sessionId) then set_active None st else st) ≫= fun _ =>
  persistWrites.

(** [sessionId ?? clientState.activeSessionId], when it is not empty. *)
Definition signalled (sessionId : option string) (st : runtime) : option string :=
  match (match sessionId with Some s => Some s | None => activeSessionId st end) with
  | Some "" | None => None
  | s => s
  end.

Definition handleEncrypt (i h : string) (a p : buffer) : run KeyServiceResponse :=
  aad ← contents a; plaintext ← contents p;
  v ← wasm (WEncrypt i h aad plaintext); lift_result (RCiphertext <$> ensureUint8Array v "encrypt").

Definition handleDecrypt (i h : string) (a c : buffer) : run KeyServiceResponse :=
  aad ← contents a; ciphertext ← contents c;
  v ← wasm (WDecrypt i h aad ciphertext); lift_result (RPlaintext <$> ensureUint8Array v "decrypt").

Definition handleVerify (scopeId signer : string) (b g : buffer) (suite : string) : run KeyServiceResponse :=
  data ← contents b; signature ← contents g;
  v ← wasm (WVerify scopeId signer data signature suite); lift_result (RVerified <$> ensureBoolean v "verify").

(** A signal is best effort: it never fails. *)
Definition handleSignal (i : option string) : run KeyServiceResponse :=
  sessionId ← gets (signalled i);
  match sessionId with
  | Some sessionId => try_catch (lock_session sessionId) (fun _ => skip)
  | None => skip
  end ≫= fun _ => mret (REmpty "signal").

Definition handleRequest (r : KeyServiceRequest) : run KeyServiceResponse :=
  match r with
  | createVault userId p k =>
      s ← contents (salt k);
      with_secret p (fun secret => wasm (WCreateVault userId secret (kdf_id k) s (memoryKib k) (iterations k) (parallelism k)))
        ≫= fun _ => done "createVault"
  | unlock r =>
      v ← unlock_with r;
      u ← lift_result (parseUnlockResponse v);
      modify (set_active (Some (u_sessionId u))) ≫= fun _ =>
      persistWrites ≫= fun _ =>
      mret (RUnlock u)
  | stepUp i p => persisted (with_secret p (fun secret => v ← wasm (WStepUp i secret); lift_result (parseStepUpResponse v)))
  | getUserPresenceUnlockInfo => v ← wasm WGetUserPresenceUnlockInfo; lift_result (parseUserPresenceInfo v)
  | renewSession i => persisted (v ← wasm (WRenewSession i); lift_result (parseRenewResponse v))
  | lock i => lock_session i ≫= fun _ => mret (REmpty "lock")
  | exportKeyVault i => v ← wasm (WExportKeyVault i); lift_result (RBlob <$> ensureUint8Array v "exportKeyVault")
  | importKeyVault i b => bytes ← contents b; wasm (WImportKeyVault i bytes) ≫= fun _ => done "importKeyVault"
  | changePassphrase i p =>
      with_secret p (fun secret => wasm (WChangePassphrase i secret)) ≫= fun _ => done "changePassphrase"
  | storeAppMasterKey i k =>
      with_secret k (fun secret => wasm (WStoreAppMasterKey i secret)) ≫= fun _ => done "storeAppMasterKey"
  | getAppMasterKey i => v ← wasm (WGetAppMasterKey i); lift_result (RMasterKey <$> ensureUint8Array v "getAppMasterKey")
  | enableUserPresenceUnlock i c p =>
      credential ← contents c;
      secret ← contents p;
      wasm (WEnableUserPresenceUnlock i credential secret) ≫= fun _ => done "enableUserPresenceUnlock"
  | disableUserPresenceUnlock i => wasm (WDisableUserPresenceUnlock i) ≫= fun _ => done "disableUserPresenceUnlock"
  | ingestScopeState i b f =>
      bytes ← contents b;
      persisted (v ← wasm (WIngestScopeState i bytes f); lift_result (parseIngestScopeStateResponse v))
  | ingestKeyEnvelope i b =>
      bytes ← contents b;
      persisted (v ← wasm (WIngestKeyEnvelope i bytes); lift_result (parseIngestKeyEnvelopeResponse v))
  | openScope i s e =>
      v ← wasm (WOpenScope i s e);
      h ← lift_result (ensureString v "openScope");
      persistWrites ≫= fun _ => lift_result (RScopeKey <$> asKeyHandle h)
  | openResource i k b =>
      bytes ← contents b;
      v ← wasm (WOpenResource i k bytes);
      h ← lift_result (ensureString v "openResource");
      persistWrites ≫= fun _ => lift_result (RResourceKey <$> asKeyHandle h)
  | closeHandle i h => wasm (WCloseHandle i h) ≫= fun _ => done "closeHandle"
  | encrypt i h a p => handleEncrypt i h a p
  | decrypt i h a c => handleDecrypt i h a c
  | sign i d => data ← contents d; v ← wasm (WSign i data); lift_result (parseSignResponse v)
  | verify s d b g c => handleVerify s d b g c
  | signal _ i => handleSignal i
  end.
End Handler.

(** ** [KeyServiceHost] *)

Record WorkerHello : Type := Hello { storeId : string; clientInstanceId : string }.

Inductive WorkerResponse : Type := ok (data : KeyServiceResponse) | error (e : KeyServiceError).

Inductive message_out : Type :=
| helloOk (serverInstanceId : string)
| helloError (e : KeyServiceError)
| response (requestId : string) (payload : WorkerResponse).

(** [/^[A-Za-z0-9-]{1,64}$/] *)
Definition store_char (c : ascii) : bool := in_range 65 90 c || in_range 97 122 c || is_digit c || is_char "-" c.
Definition isValidStoreId (s : string) : bool :=
  (1 <=? strlen s)%Z && (strlen s <=? 64)%Z && forallb store_char (chars s).

Record ClientState : Type := Client { c_instanceId : string; c_activeSessionId : option string }.

(** [runtimePromise] is [None] before the first hello, and then the settled
    promise. [h_waiting] are the responses that wait for the requests of a
    transaction, in the order of the transactions. *)
Record host (S : Type) : Type := Host {
  runtimePromise : option (result raised (runtime S));
  h_serverInstanceId : option string;
  h_storeId : option string;
  clients : gmap nat ClientState;
  h_waiting : list (nat * message_out);
  h_posted : list (nat * message_out)
}.
Arguments Host {S} _ _ _ _ _ _.
Arguments runtimePromise {S} _.
Arguments h_serverInstanceId {S} _.
Arguments h_storeId {S} _.
Arguments clients {S} _.
Arguments h_waiting {S} _.
Arguments h_posted {S} _.

Section Hosts.
Context {S : Type} `{!KeyServiceWasm S}.
Notation host := (host S).

Definition new_host : host := Host None None None ∅ [] [].

Definition post (p : nat) (m : message_out) (h : host) : host :=
  Host (runtimePromise h) (h_serverInstanceId h) (h_storeId h) (clients h) (h_waiting h) (h_posted h ++ [(p, m)]).
Definition wait (p : nat) (m : message_out) (h : host) : host :=
  Host (runtimePromise h) (h_serverInstanceId h) (h_storeId h) (clients h) (h_waiting h ++ [(p, m)]) (h_posted h).

Definition databaseName (store : string) : string := "mo-key-service-" +:+ store.

(** [createRuntime]: [loaded] is what reading the database of the store
    answers, [script] how its next transactions end. *)
Definition createRuntime (loaded : result raised object_store) (script : list outcome) (hp : gmap nat (list Z)) :
    result raised (runtime S) :=
  _ ← wasm_init;
  st ← loaded;
  match loadStorage (loadAll st) new_service with
  | (Ok _, s) => Ok (Runtime s (Database st [] false script) hp None)
  | (Err e, _) => Err e
  end.

(** The browser's side of a hello: the databases, their outcomes, and the
    worker's memory. *)
Record browser : Type := Browser {
  disk : string -> result raised object_store;
  endings : list outcome;
  memory : gmap nat (list Z)
}.

Definition protocol_error (message : string) : message_out := helloError (KsError WorkerProtocolError message None).

Definition handleHello (b : browser) (uuid : string) (p : nat) (m : WorkerHello) (h : host) : host :=
  if negb (isValidStoreId (storeId m)) then post p (protocol_error "Invalid key service store id") h
  else
    if match h_storeId h with Some "" | None => false | Some s => negb (bool_decide (s = storeId m)) end
    then post p (protocol_error "Key service worker store mismatch") h
    else
        let '(promise, store) :=
          match runtimePromise h with
          | Some r => (r, h_storeId h)
          | None => (createRuntime (disk b (databaseName (storeId m))) (endings b) (memory b), Some (storeId m))
          end in
        let server := default uuid (h_serverInstanceId h) in
        match promise with
        | Ok _ =>
            post p (helloOk server)
              (Host (Some promise) (Some server) store (<[p := Client (clientInstanceId m) None]> (clients h)) (h_waiting h) (h_posted h))
        | Err e =>
            post p (helloError (toKeyServiceError e WorkerProtocolError))
              (Host (Some promise) (Some server) store (clients h) (h_waiting h) (h_posted h))
        end.

(** The buffers that arrive with a message. *)
Definition arrive (sent : gmap nat (list Z)) (rt : runtime S) : runtime S :=
  Runtime (service rt) (storage rt) (sent ∪ heap rt) (activeSessionId rt).

Definition fail (p : nat) (rid : string) (e : KeyServiceError) (h : host) : host := post p (response rid (error e)) h.

(** A request is handled at once, up to the transaction it may open, between
    two messages; if it opens one its response waits. Other messages are
    handled meanwhile ([handleMessage] is not awaited). *)
Definition handleEnvelope (sent : gmap nat (list Z)) (p : nat) (rid : string) (r : KeyServiceRequest) (h : host) : host :=
  match runtimePromise h with
  | None => fail p rid (KsError WorkerNotReady "Key service worker not ready" None) h
  | Some promise =>
      match clients h !! p with
      | None => fail p rid (KsError WorkerNotReady "Key service client not initialized" None) h
      | Some client =>
          match promise with
          | Err e => fail p rid (toKeyServiceError e WorkerProtocolError) h
          | Ok rt =>
              let '(res, rt') := handleRequest r (set_active (c_activeSessionId client) (arrive sent rt)) in
              let h' := Host (Some (Ok rt')) (h_serverInstanceId h) (h_storeId h)
                (<[p := Client (c_instanceId client) (activeSessionId rt')]> (clients h)) (h_waiting h) (h_posted h) in
              let m := response rid match res with Ok data => ok data | Err e => error (toKeyServiceError e WasmError) end in
              if length (opened (storage rt')) =? length (opened (storage rt)) then post p m h' else wait p m h'
          end
      end
  end.

(** *** The database goes on *)

Definition set_database (d : database) (rt : runtime S) (h : host) : host :=
  Host (Some (Ok (set_storage d rt))) (h_serverInstanceId h) (h_storeId h) (clients h) (h_waiting h) (h_posted h).

(** The requests of the first transaction end: the response that waits for
    them is posted. *)
Definition requests_end (h : host) : host :=
  match runtimePromise h with
  | Some (Ok rt) =>
      let d := storage rt in
      match opened d, answered d, h_waiting h with
      | _ :: _, false, (p, m) :: w =>
          let h' := set_database (Database (records d) (opened d) true (script d)) rt h in
          post p m (Host (runtimePromise h') (h_serverInstanceId h') (h_storeId h') (clients h') w (h_posted h'))
      | _, _, _ => h
      end
  | _ => h
  end.

(** Then the transaction ends itself. *)
Definition transaction_ends (h : host) : host :=
  match runtimePromise h with
  | Some (Ok rt) =>
      let d := storage rt in
      match opened d, answered d with
      | tx :: l, true =>
          set_database (Database (match ends tx with Completes => put_all (entries tx) (records d) | _ => records d end)
            l false (script d)) rt h
      | _, _ => h
      end
  | _ => h
  end.

Inductive event : Type :=
| HelloIn (b : browser) (uuid : string) (p : nat) (m : WorkerHello)
| EnvelopeIn (sent : gmap nat (list Z)) (p : nat) (rid : string) (r : KeyServiceRequest)
| RequestsEnd
| TransactionEnds.

Definition handle (e : event) (h : host) : host :=
  match e with
  | HelloIn b uuid p m => handleHello b uuid p m h
  | EnvelopeIn sent p rid r => handleEnvelope sent p rid r h
  | RequestsEnd => requests_end h
  | TransactionEnds => transaction_ends h
  end.

Definition run_events (es : list event) (h : host) : host := fold_left (fun h e => handle e h) es h.

(** The responses that some events left waiting. *)
Fixpoint deferred (es : list event) (h : host) : list (nat * message_out) :=
  match es with
  | [] => []
  | e :: es' =>
      match e with
      | EnvelopeIn _ _ _ _ => drop (length (h_waiting h)) (h_waiting (handle e h))
      | _ => []
      end ++ deferred es' (handle e h)
  end.
End Hosts.

(** ** How the service buffers its writes

    [WasmStorage] of key-service-wasm/src/lib.rs: what the service has stored,
    and the entries it has not handed over yet, by namespace and key joined
    with a colon: a second write of a key replaces the first. *)

Record StorageState : Type := Buffer {
  values : gmap (string * string) (list Z);
  pending : gmap string StorageEntry
}.

Definition put (e : StorageEntry) (s : StorageState) : StorageState :=
  Buffer (<[(namespace e, key e) := value e]> (values s)) (<[buildId (namespace e) (key e) := e]> (pending s)).

Definition apply (l : list StorageEntry) (m : gmap (string * string) (list Z)) : gmap (string * string) (list Z) :=
  fold_left (fun m e => <[(namespace e, key e) := value e]> m) l m.

Definition load_entries (l : list StorageEntry) (s : StorageState) : StorageState :=
  Buffer (apply l (values s)) (pending s).

(** [drain_pending]: the values of the hash map, in its order. *)
Definition drain_pending (s : StorageState) (l : list StorageEntry) (s' : StorageState) : Prop :=
  l ≡ₚ map snd (map_to_list (pending s)) /\ s' = Buffer (values s) ∅.

(** The core writes to one namespace, [keyvault]; all that counts is that it
    holds no colon. *)
Definition plain (e : StorageEntry) : Prop := ":"%char ∉ chars (namespace e).

Definition entry_value (e : StorageEntry) : jsval :=
  VObj [("namespace", VStr (namespace e)); ("key", VStr (key e)); ("value", VBytes (value e))].

(** A service with this buffer: its calls change it by [put] only. *)
Class WasmStorage (S : Type) `{!KeyServiceWasm S} : Type := {
  buffer_of : S -> StorageState;
  load_law : forall l, exists s, loadStorage l new_service = (Ok tt, s) /\ buffer_of s = load_entries l (Buffer ∅ ∅);
  drain_law : forall s, exists l s', drainStorageWrites s = (Ok (VArr (map entry_value l)), s') /\
    drain_pending (buffer_of s) l (buffer_of s');
  call_law : forall c s r s', call c s = (r, s') ->
    exists w, buffer_of s' = fold_left (fun b e => put e b) w (buffer_of s) /\ Forall plain w
}.

Module KeyServiceProperties.

(** *** Storage ids *)

Section Ids.
Implicit Types n k : string.

Lemma buildId_inj n k n' k' : ":"%char ∉ chars n -> ":"%char ∉ chars n' -> buildId n k = buildId n' k' -> n = n' /\ k = k'.
Proof.
  unfold buildId. revert n'. induction n as [|c n IH]; intros [|c' n'] H H' E; simpl in *.
  - injection E as E. done.
  - injection E as <- _. exfalso. apply H'. left.
  - injection E as -> _. exfalso. apply H. left.
  - injection E as -> E. destruct (IH n') as [-> ->]; [..|done|done].
    + intros Hin. apply H. by right.
    + intros Hin. apply H'. by right.
Qed.

(** The store and a service's view hold the same entries. *)
Record agrees (st : object_store) (m : gmap (string * string) (list Z)) : Prop := {
  agrees_ids : forall i e, st !! i = Some e -> i = buildId (namespace e) (key e) /\ plain e;
  agrees_kv : forall n k, ":"%char ∉ chars n -> m !! (n, k) = value <$> st !! buildId n k;
  agrees_plain : forall n k, is_Some (m !! (n, k)) -> ":"%char ∉ chars n
}.

Lemma agrees_put st m e : agrees st m -> plain e ->
  agrees (<[buildId (namespace e) (key e) := e]> st) (<[(namespace e, key e) := value e]> m).
Proof.
  intros [H1 H2 H3] He. split.
  - intros i f [[<- <-]|[_ Hf]]%lookup_insert_Some; [done|by apply H1].
  - intros n k Hn. destruct (decide ((namespace e, key e) = (n, k))) as [[= <- <-]|Hne].
    + by rewrite !lookup_insert_eq.
    + rewrite lookup_insert_ne by done. rewrite lookup_insert_ne; [by apply H2|].
      intros E. apply Hne. destruct (buildId_inj _ _ _ _ He Hn E) as [-> ->]. done.
  - intros n k [v [[[= <- <-] _]|[_ Hv]]%lookup_insert_Some]; [done|]. eapply H3. by exists v.
Qed.

Lemma agrees_put_all l st m : agrees st m -> Forall plain l -> agrees (put_all l st) (apply l m).
Proof.
  intros Ha Hl. revert st m Ha. induction Hl as [|e l He _ IH]; intros st m Ha; [done|]. simpl. apply IH.
  by apply agrees_put.
Qed.

Lemma apply_lookup l m n k :
  apply l m !! (n, k) = match list_find (fun e => namespace e = n /\ key e = k) (rev l) with
    | Some (_, e) => Some (value e) | None => m !! (n, k) end.
Proof.
  revert m. induction l as [|e l IH] using rev_ind; intros m; [done|]. unfold apply in *. rewrite fold_left_app, rev_app_distr.
  simpl. destruct (decide (namespace e = n /\ key e = k)) as [[<- <-]|Hne]; [by rewrite lookup_insert_eq|].
  rewrite lookup_insert_ne by naive_solver. rewrite IH.
  destruct (list_find _ (rev l)) as [[]|]; done.
Qed.

(** A service started from the store sees the same entries. *)
Lemma agrees_load st m : agrees st m -> apply (loadAll st) ∅ = m.
Proof.
  intros [H1 H2 H3]. apply map_eq. intros [n k]. rewrite apply_lookup.
  destruct (list_find _ _) as [[i e]|] eqn:E.
  - apply list_find_Some in E as (Hl & [Hn Hk] & _). apply list_elem_of_lookup_2 in Hl.
    apply list_elem_of_In, in_rev, list_elem_of_In in Hl. unfold loadAll in Hl.
    apply list_elem_of_fmap in Hl as ([j f] & -> & Hf%elem_of_map_to_list). simpl in *.
    destruct (H1 _ _ Hf) as [-> Hp]. subst. rewrite H2 by done. by rewrite Hf.
  - apply list_find_None in E. rewrite lookup_empty. destruct (m !! (n, k)) as [v|] eqn:Em; [|done].
    assert (":"%char ∉ chars n) as Hn by (apply (H3 n k); by eexists). rewrite H2 in Em by done.
    destruct (st !! buildId n k) as [f|] eqn:Ef; [|done]. injection Em as <-.
    destruct (H1 _ _ Ef) as [Eid Hp]. destruct (buildId_inj _ _ _ _ Hn Hp Eid) as [-> ->].
    rewrite Forall_forall in E. destruct (E f); [|done]. apply list_elem_of_In, in_rev. rewrite rev_involutive.
    apply list_elem_of_In. unfold loadAll. apply list_elem_of_fmap. exists (buildId (namespace f) (key f), f).
    split; [done|]. by apply elem_of_map_to_list.
Qed.

(** What is pending, on top of a store. *)
Definition well_keyed (b : gmap string StorageEntry) : Prop :=
  forall i e, b !! i = Some e -> i = buildId (namespace e) (key e) /\ plain e.

Lemma put_all_absent l st i : Forall (fun e => buildId (namespace e) (key e) <> i) l -> put_all l st !! i = st !! i.
Proof.
  intros Hl. revert st. induction Hl as [|e l He _ IH]; intros st; [done|]. simpl. rewrite IH. by rewrite lookup_insert_ne.
Qed.

Lemma put_all_lookup l st e : NoDup (map (fun e => buildId (namespace e) (key e)) l) -> e ∈ l ->
  put_all l st !! buildId (namespace e) (key e) = Some e.
Proof.
  revert st. induction l as [|x l IH]; intros st Hnd He; [by apply elem_of_nil in He|]. simpl in *.
  apply NoDup_cons in Hnd as [Hx Hnd]. apply elem_of_cons in He as [->|He]; [|by apply IH].
  rewrite put_all_absent; [by rewrite lookup_insert_eq|]. apply Forall_forall. intros y Hy E. apply Hx. rewrite <- E.
  by apply (list_elem_of_fmap_2 (fun e => buildId (namespace e) (key e))).
Qed.

Lemma put_all_union l b st : well_keyed b -> l ≡ₚ map snd (map_to_list b) -> put_all l st = b ∪ st.
Proof.
  intros Hb Hl.
  assert (forall e, e ∈ l -> b !! buildId (namespace e) (key e) = Some e) as Hin.
  { intros e He. rewrite Hl in He. apply list_elem_of_fmap in He as ([i f] & -> & Hf%elem_of_map_to_list). simpl.
    by destruct (Hb _ _ Hf) as [<- _]. }
  assert (NoDup (map (fun e => buildId (namespace e) (key e)) l)) as Hnd.
  { assert (map (fun e => buildId (namespace e) (key e)) (map snd (map_to_list b)) = map fst (map_to_list b)) as E.
    { rewrite map_map. apply map_ext_in. intros [i e] Hie. simpl. symmetry. apply Hb.
      apply elem_of_map_to_list. by apply list_elem_of_In. }
    rewrite Hl, E. apply NoDup_fst_map_to_list. }
  apply map_eq. intros i. destruct (b !! i) as [e|] eqn:E.
  - rewrite (lookup_union_Some_l _ _ _ _ E). destruct (Hb _ _ E) as [-> _]. apply put_all_lookup; [done|].
    rewrite Hl. apply list_elem_of_fmap. exists (buildId (namespace e) (key e), e). split; [done|].
    by apply elem_of_map_to_list.
  - rewrite lookup_union_r by done. apply put_all_absent. apply Forall_forall. intros e He <-. by rewrite (Hin e He) in E.
Qed.

(** What a service loads is what the store holds. *)
Lemma agrees_loaded st : well_keyed st -> agrees st (apply (loadAll st) ∅).
Proof.
  intros Hk. assert (agrees (put_all (loadAll st) ∅) (apply (loadAll st) ∅)) as Ha.
  { apply agrees_put_all; [split; [by intros i e He|done|by intros n k [v Hv]]|]. apply Forall_forall.
    intros e ([i f] & -> & Hf%elem_of_map_to_list)%list_elem_of_fmap. by apply (Hk i f). }
  by rewrite (put_all_union (loadAll st) st ∅ Hk), (right_id_L ∅ (∪)) in Ha.
Qed.

Lemma well_keyed_put b e : well_keyed b -> plain e -> well_keyed (<[buildId (namespace e) (key e) := e]> b).
Proof. intros Hb He i f [[<- <-]|[_ Hf]]%lookup_insert_Some; [done|by apply Hb]. Qed.

(** Writes of the service keep its view and the store's in step. *)
Lemma agrees_puts w b st : Forall plain w -> well_keyed (pending b) -> agrees (pending b ∪ st) (values b) ->
  let b' := fold_left (fun b e => put e b) w b in
  well_keyed (pending b') /\ agrees (pending b' ∪ st) (values b').
Proof.
  intros Hw. revert b. induction Hw as [|e w He _ IH]; intros b Hk Ha; [done|]. simpl. apply IH; simpl.
  - by apply well_keyed_put.
  - rewrite <- insert_union_l. by apply agrees_put.
Qed.
End Ids.

Lemma parseStorageEntries_values l : parseStorageEntries (VArr (map entry_value l)) = Ok l.
Proof. simpl. apply mapM_map_ok. apply Forall_forall. by intros [n k v] _. Qed.

(** *** Secrets *)

Section Secrets.
Context {S : Type} `{!KeyServiceWasm S}.
Notation run := (js (runtime S) raised).
Implicit Types st : runtime S.

(** What a computation does to the memory, whether it returns or throws. *)
Definition on_heap {A} (f : gmap nat (list Z) -> gmap nat (list Z)) (m : run A) : Prop :=
  forall st, heap (m st).2 = f (heap st).
Notation keeps_heap := (on_heap (fun h => h)).

Lemma on_heap_bind {A B} f (m : run A) (k : A -> run B) : on_heap f m -> (forall a, keeps_heap (k a)) -> on_heap f (m ≫= k).
Proof.
  intros Hm Hk st. specialize (Hm st). unfold mbind, js_bind. destruct (m st) as [[a|e] st1]; simpl in *; [|done].
  by rewrite (Hk a st1).
Qed.
Lemma on_heap_contents {B} f b (k : list Z -> run B) : (forall a, on_heap f (k a)) -> on_heap f (contents b ≫= k).
Proof. intros Hk st. apply Hk. Qed.
Lemma keeps_service {A} (m : js S raised A) : keeps_heap (on_service m).
Proof. intros st. unfold on_service. by destruct (m (service st)). Qed.
Lemma keeps_wasm c : keeps_heap (wasm c).
Proof. apply keeps_service. Qed.
Lemma keeps_lift {A} (r : result raised A) : keeps_heap (lift_result r).
Proof. done. Qed.
Lemma keeps_ret {A} (a : A) : keeps_heap (mret a).
Proof. done. Qed.
Lemma keeps_put l : keeps_heap (putEntries l).
Proof. intros st. by destruct l. Qed.
Lemma keeps_persist : keeps_heap persistWrites.
Proof.
  apply on_heap_bind; [apply keeps_service|]. intros v. apply on_heap_bind; [apply keeps_lift|]. intros l. apply keeps_put.
Qed.
Lemma on_heap_secret {A} b (m : list Z -> run A) : (forall s, keeps_heap (m s)) ->
  on_heap (alter (fun l => replicate (length l) 0%Z) b) (with_secret b m).
Proof.
  intros Hm st. unfold with_secret. unfold mbind, js_bind, contents, gets, finally.
  specialize (Hm (default [] (heap st !! b)) st). destruct (m _ st) as [r st1]. simpl in *. by rewrite Hm.
Qed.
Lemma keeps_active a : keeps_heap (modify (set_active a)).
Proof. done. Qed.
Hint Resolve keeps_active on_heap_bind on_heap_contents keeps_service keeps_wasm keeps_lift keeps_ret keeps_put keeps_persist on_heap_secret : core.

Lemma keeps_lock i : keeps_heap (lock_session i).
Proof.
  apply on_heap_bind; [done|]. intros _. apply on_heap_bind; [|done]. intros st. simpl. by destruct (decide _).
Qed.

(** The secrets that a request carries and its handler overwrites. *)
Definition secrets (r : KeyServiceRequest) : list buffer :=
  match r with
  | createVault _ p _ | unlock (passphrase p) | unlock (userPresence p) | stepUp _ p | changePassphrase _ p
  | storeAppMasterKey _ p => [p]
  | _ => []
  end.

Definition wipe (bs : list buffer) (h : gmap nat (list Z)) : gmap nat (list Z) :=
  fold_left (fun h b => alter (fun l => replicate (length l) 0%Z) b h) bs h.

(** C34: The passphrases and keys that a request carries are overwritten with zeros,
    whatever the service does with them, also when it throws or its answer is refused; and
    nothing else in the worker's memory is touched. In particular the secret of
    [enableUserPresenceUnlock], which unlocks the vault as a passphrase does, stays in
    memory. *)
Theorem secrets_wiped r st : heap (handleRequest r st).2 = wipe (secrets r) (heap st).
Proof.
  revert st. change (on_heap (wipe (secrets r)) (handleRequest r)).
  destruct r as [? ? ?|[p|p]| | | | | | | | | | | | | | | | | | | | |s i]; unfold wipe; simpl;
    unfold done, persisted, handleEncrypt, handleDecrypt, handleVerify, handleSignal;
    try (by eauto 10).
  - apply on_heap_bind; [apply keeps_lock|eauto].
  - intros st. unfold gets. unfold mbind at 1, js_bind at 1. revert st.
    assert (forall o : option string, keeps_heap (match o with Some i => try_catch (lock_session i) (fun _ => skip) | None => skip end)) as H.
    { intros [j|]; [|done]. intros st. unfold try_catch. pose proof (keeps_lock j st) as Hl. by destruct (lock_session j st) as [[]]. }
    intros st. apply (on_heap_bind _ _ (fun _ => mret (REmpty "signal")) (H (signalled i st))). eauto.
Qed.
End Secrets.

(** *** Durability *)

Section Durability.
Context {S : Type} `{!KeyServiceWasm S} `{!WasmStorage S}.
Notation run := (js (runtime S) raised).
Implicit Types st : runtime S.

(** The store once every transaction under way has completed. *)
Definition settled_store (d : database) : object_store := put_all (concat (map entries (opened d))) (records d).

(** That store, with what the service has not handed over yet, is what the
    service has stored; and the database's transactions complete. *)
Record in_step st : Prop := {
  is_agrees : agrees (pending (buffer_of (service st)) ∪ settled_store (storage st)) (values (buffer_of (service st)));
  is_keyed : well_keyed (pending (buffer_of (service st)));
  is_quiet : Forall (fun o => o = Completes) (script (storage st)) /\ Forall (fun tx => ends tx = Completes) (opened (storage st))
}.

(** A computation that opens no transaction; one that opens at most one, after
    which nothing is left to hand over; one that leaves nothing to hand over
    whenever it returns. *)
Definition calm {A} (m : run A) : Prop := forall st, in_step st -> in_step (m st).2 /\ storage (m st).2 = storage st.
Definition closing st st' : Prop :=
  storage st' = storage st \/
  exists l, storage st' = open_tx l (storage st) /\ pending (buffer_of (service st')) = ∅.
Definition closes {A} (m : run A) : Prop := forall st, in_step st -> in_step (m st).2 /\ closing st (m st).2.
Definition flushes {A} (m : run A) : Prop := forall st, in_step st ->
  in_step (m st).2 /\ closing st (m st).2 /\ (forall a, (m st).1 = Ok a -> pending (buffer_of (service (m st).2)) = ∅).

Lemma calm_bind {A B} (m : run A) (k : A -> run B) : calm m -> (forall a, calm (k a)) -> calm (m ≫= k).
Proof.
  intros Hm Hk st Hd. destruct (Hm st Hd) as [H1 H2]. unfold mbind, js_bind. destruct (m st) as [[a|e] st1]; simpl in *; [|done].
  destruct (Hk a st1 H1) as [H3 H4]. split; [done|congruence].
Qed.
Lemma flushes_bind {A B} (m : run A) (k : A -> run B) : calm m -> (forall a, flushes (k a)) -> flushes (m ≫= k).
Proof.
  intros Hm Hk st Hd. destruct (Hm st Hd) as [H1 H2]. unfold mbind, js_bind, closing in *.
  destruct (m st) as [[a|e] st1]; simpl in *; [|by split_and!; [|left|]].
  rewrite <- H2. by apply Hk.
Qed.
Lemma flushes_then {A B} (m : run A) (r : A -> result raised B) : flushes m -> flushes (m ≫= fun a => lift_result (r a)).
Proof.
  intros Hm st Hd. destruct (Hm st Hd) as (H1 & H2 & H3). unfold mbind, js_bind. destruct (m st) as [[a|e] st1]; simpl in *; [|done].
  split_and!; [done|done|]. intros b _. by eapply H3.
Qed.
Lemma flushes_ret {A B} (m : run A) (b : B) : flushes m -> flushes (m ≫= fun _ => mret b).
Proof. apply (flushes_then m (fun _ => Ok b)). Qed.
Lemma flushes_closes {A} (m : run A) : flushes m -> closes m.
Proof. intros Hm st Hd. by destruct (Hm st Hd) as (? & ? & _). Qed.
Lemma calm_closes {A} (m : run A) : calm m -> closes m.
Proof. intros Hm st Hd. destruct (Hm st Hd). split; [done|by left]. Qed.

Lemma calm_lift {A} (r : result raised A) : calm (lift_result r).
Proof. by intros st Hd. Qed.
Lemma calm_ret {A} (a : A) : calm (mret a).
Proof. by intros st Hd. Qed.
Lemma calm_contents b : calm (contents b).
Proof. by intros st Hd. Qed.
Lemma calm_active f : calm (modify (fun st => set_active (f st) st)).
Proof. intros st [H1 H2 H3]. by split. Qed.

Lemma calm_wasm c : calm (wasm c).
Proof.
  intros st [H1 H2 H3]. unfold wasm, on_service. destruct (call c (service st)) as [r s] eqn:E.
  destruct (call_law _ _ _ _ E) as (w & Hb & Hw). split; [|done].
  destruct (agrees_puts w (buffer_of (service st)) _ Hw H2 H1) as [Hk Ha]. by split; simpl; rewrite ?Hb.
Qed.

Lemma calm_secret {A} b (m : list Z -> run A) : (forall s, calm (m s)) -> calm (with_secret b m).
Proof.
  intros Hm st Hd. unfold with_secret. unfold mbind, js_bind, contents, gets, finally.
  destruct (Hm (default [] (heap st !! b)) st Hd) as [H1 H2]. destruct (m _ st) as [r st1]. destruct H1. by split.
Qed.

Lemma settled_open l d : settled_store (open_tx l d) = put_all l (settled_store d).
Proof.
  unfold settled_store, open_tx. simpl. rewrite map_app, concat_app. simpl. rewrite app_nil_r.
  unfold put_all. by rewrite fold_left_app.
Qed.

Lemma flushes_persist : flushes persistWrites.
Proof.
  intros st [H1 H2 [H3 H4]]. unfold persistWrites. unfold mbind, js_bind, on_service.
  destruct (drain_law (service st)) as (l & s' & -> & Hl & Hs). unfold lift_result. rewrite parseStorageEntries_values.
  pose proof (put_all_union l _ (settled_store (storage st)) H2 Hl) as Hu.
  assert (forall i e, (∅ : object_store) !! i = Some e -> i = buildId (namespace e) (key e) /\ plain e) as H0 by (by intros i e He).
  unfold putEntries. simpl. destruct l as [|e l].
  - split_and!; simpl; [|by left|by intros; rewrite Hs].
    simpl in Hu. split; simpl; rewrite ?Hs; simpl; [by rewrite (left_id_L ∅ (∪)), Hu|done|done].
  - assert (hd Completes (script (storage st)) = Completes) as Hc by (by destruct H3).
    rewrite Hc. split_and!; simpl.
    + split; simpl; rewrite ?Hs; simpl; [|done|].
      * rewrite (left_id_L ∅ (∪)), settled_open, Hu. exact H1.
      * split; [by destruct H3|]. apply Forall_app. split; [done|]. by repeat constructor.
    + right. exists (e :: l). simpl. by rewrite Hs.
    + intros _ _. by rewrite Hs.
Qed.
Hint Resolve calm_bind flushes_bind flushes_then flushes_ret calm_lift calm_ret calm_contents calm_wasm calm_secret
  flushes_persist : core.

Lemma flushes_lock i : flushes (lock_session i).
Proof.
  apply flushes_bind; [done|]. intros _. apply flushes_bind; [|done]. intros st [H1 H2 H3].
  simpl. by destruct (decide _).
Qed.
Hint Resolve flushes_lock : core.

(** The requests whose answer waits for the writes. *)
Definition writing (r : KeyServiceRequest) : bool :=
  match r with
  | getUserPresenceUnlockInfo | exportKeyVault _ | getAppMasterKey _ | encrypt _ _ _ _ | decrypt _ _ _ _ | sign _ _
  | verify _ _ _ _ _ | signal _ _ => false
  | _ => true
  end.

Lemma flushes_writing r : writing r = true -> flushes (handleRequest r).
Proof.
  destruct r as [| [] | | | | | | | | | | | | | | | | | | | | |]; simpl; try done; intros _; unfold done, persisted;
    try (by eauto 12).
  - apply flushes_bind; [by apply calm_secret|]. intros v. apply flushes_bind; [done|]. intros u.
    apply flushes_bind; [apply (calm_active (fun _ => Some (u_sessionId u)))|eauto].
  - apply flushes_bind; [by apply calm_secret|]. intros v. apply flushes_bind; [done|]. intros u.
    apply flushes_bind; [apply (calm_active (fun _ => Some (u_sessionId u)))|eauto].
Qed.

Lemma closes_request r : closes (handleRequest r).
Proof.
  destruct (writing r) eqn:Ew; [by apply flushes_closes, flushes_writing|].
  destruct r; simpl in *; try done; unfold handleEncrypt, handleDecrypt, handleVerify, handleSignal;
    try (apply calm_closes; by eauto 10).
  intros st Hd. unfold gets, mbind, js_bind, try_catch. cbv beta iota.
  destruct (signalled sessionId st) as [j|]; [|by split; [|left]].
  destruct (flushes_lock j st Hd) as (H1 & H2 & _). by destruct (lock_session j st) as [[]].
Qed.

(** *** The host's events *)

Implicit Types h : host S.

(** The runtime of a host, with the responses that wait: one for each
    transaction whose requests have not ended. *)
Record host_ok h (rt : runtime S) : Prop := {
  ho_runtime : runtimePromise h = Some (Ok rt);
  ho_in_step : in_step rt;
  ho_waiting : length (h_waiting h) + (if answered (storage rt) then 1 else 0) = length (opened (storage rt))
}.

(** The store as it will be when [j] more transactions have completed. *)
Definition store_after (j : nat) (d : database) : object_store := put_all (concat (map entries (take j (opened d)))) (records d).

(** Of the events [es], a first part [es1] led to what [j] more transactions
    will have stored; the responses that the rest of the events left waiting
    are those that still wait, without the first [j] (counting the one that was
    posted while its transaction is under way). *)
Definition cut_at (h0 : host S) (es : list event) h (rt : runtime S) (j : nat) : Prop :=
  exists es1 es2 rt1 first, es = es1 ++ es2 /\ runtimePromise (run_events es1 h0) = Some (Ok rt1) /\
    agrees (store_after j (storage rt)) (values (buffer_of (service rt1))) /\
    length first = (if answered (storage rt) then 1 else 0) /\
    deferred es2 (run_events es1 h0) = drop j (first ++ h_waiting h).

Definition cuts (h0 : host S) (es : list event) h (rt : runtime S) : Prop :=
  forall j, j <= length (opened (storage rt)) -> cut_at h0 es h rt j.

Lemma run_events_snoc es e h : run_events (es ++ [e]) h = handle e (run_events es h).
Proof. unfold run_events. by rewrite fold_left_app. Qed.
Lemma run_events_app es1 es2 h : run_events (es1 ++ es2) h = run_events es2 (run_events es1 h).
Proof. unfold run_events. by rewrite fold_left_app. Qed.

Lemma deferred_snoc es e h : deferred (es ++ [e]) h = deferred es h ++ deferred [e] (run_events es h).
Proof. revert h. induction es as [|x es IH]; intros h; [done|]. simpl. rewrite IH, app_assoc. done. Qed.

(** An event that leaves the database and the responses alone. *)
Lemma cuts_same h0 es e h rt h' rt' : run_events es h0 = h -> cuts h0 es h rt -> handle e h = h' ->
  storage rt' = storage rt -> h_waiting h' = h_waiting h -> cuts h0 (es ++ [e]) h' rt'.
Proof.
  intros Hh Hc He Hs Hw j Hj. rewrite Hs in Hj. destruct (Hc j Hj) as (es1 & es2 & rt1 & first & -> & H1 & H2 & H3 & H4).
  exists es1, (es2 ++ [e]), rt1, first. rewrite Hs, Hw, app_assoc, deferred_snoc. split_and!; try done.
  rewrite H4. rewrite <- run_events_app, Hh. simpl. rewrite He, Hw, drop_all, app_nil_r.
  by destruct e; rewrite app_nil_r.
Qed.

Lemma in_step_arrive sent rt : in_step rt -> in_step (arrive sent rt).
Proof. intros [H1 H2 H3]. by split. Qed.
Lemma in_step_active a rt : in_step rt -> in_step (set_active a rt).
Proof. intros [H1 H2 H3]. by split. Qed.

(** What a request does to the runtime and to the responses that wait. *)
Lemma envelope_step sent p rid r h rt : host_ok h rt -> let h' := handleEnvelope sent p rid r h in
  exists rt', runtimePromise h' = Some (Ok rt') /\ in_step rt' /\
    ((storage rt' = storage rt /\ h_waiting h' = h_waiting h) \/
     exists l m, storage rt' = open_tx l (storage rt) /\ pending (buffer_of (service rt')) = ∅ /\
       h_waiting h' = h_waiting h ++ [m]).
Proof.
  intros [H1 H2 H3]. cbv zeta. unfold handleEnvelope. rewrite H1.
  destruct (clients h !! p) as [c|]; [|exists rt; by split_and!; [| |left]].
  assert (in_step (set_active (c_activeSessionId c) (arrive sent rt))) as Hin by (by apply in_step_active, in_step_arrive).
  destruct (closes_request r _ Hin) as [Hin' Hcl]. destruct (handleRequest r _) as [res rt']. simpl in Hin', Hcl.
  exists rt'. destruct Hcl as [Hst|(l & Hst & Hpend)]; simpl in Hst; rewrite Hst.
  - rewrite Nat.eqb_refl. split_and!; [done|done|by left].
  - assert ((length (opened (open_tx l (storage rt))) =? length (opened (storage rt))) = false) as ->.
    { apply Nat.eqb_neq. simpl. rewrite length_app. simpl. lia. }
    split_and!; [done|done|]. right. eexists l, _. by split_and!.
Qed.

Lemma envelope_event_ok sent p rid r h0 es h rt : run_events es h0 = h -> host_ok h rt -> cuts h0 es h rt ->
  exists rt', host_ok (handleEnvelope sent p rid r h) rt' /\
    cuts h0 (es ++ [EnvelopeIn sent p rid r]) (handleEnvelope sent p rid r h) rt'.
Proof.
  intros Hh Hok Hc. destruct (envelope_step sent p rid r h rt Hok) as (rt' & Hrt & Hin & [[Hs Hw]|(l & m & Hs & Hp & Hw)]);
    destruct Hok as [H1 H2 H3]; exists rt'.
  - split; [by split; rewrite ?Hs, ?Hw|]. by eapply cuts_same.
  - split; [split; [done|done|rewrite Hs, Hw; simpl; rewrite !length_app; simpl; lia]|]. intros j Hj.
    rewrite Hs in Hj. simpl in Hj. rewrite length_app in Hj. simpl in Hj.
    destruct (decide (j <= length (opened (storage rt)))) as [Hle|Hgt].
    + destruct (Hc j Hle) as (es1 & es2 & rt1 & first & -> & E1 & E2 & E3 & E4).
      exists es1, (es2 ++ [EnvelopeIn sent p rid r]), rt1, first. rewrite app_assoc, deferred_snoc, <- run_events_app, Hh.
      split_and!; [done|done| |by rewrite Hs|].
      * rewrite Hs. unfold store_after in *. simpl. by rewrite take_app_le.
      * rewrite E4. simpl. rewrite Hw, drop_app_length, !app_nil_r, app_assoc. rewrite (drop_app_le (first ++ h_waiting h)); [done|].
        rewrite length_app. lia.
    + assert (j = Datatypes.S (length (opened (storage rt)))) as -> by lia.
      exists (es ++ [EnvelopeIn sent p rid r]), [], rt', (if answered (storage rt) then [m] else []).
      rewrite app_nil_r, run_events_snoc, Hh. simpl. split_and!; [done|done| | |].
      * destruct Hin as [Ha _ _]. rewrite Hp, (left_id_L ∅ (∪)) in Ha. unfold settled_store in Ha. unfold store_after.
        rewrite take_ge; [done|]. rewrite Hs. simpl. rewrite length_app. simpl. lia.
      * rewrite Hs. simpl. by destruct (answered _).
      * rewrite Hw, drop_ge; [done|]. rewrite !length_app. simpl. destruct (answered _); simpl; lia.
Qed.

Lemma requests_end_ok h0 es h rt : run_events es h0 = h -> host_ok h rt -> cuts h0 es h rt ->
  exists rt', host_ok (requests_end h) rt' /\ cuts h0 (es ++ [RequestsEnd]) (requests_end h) rt'.
Proof.
  intros Hh Hok Hc. pose proof Hok as [H1 H2 H3].
  destruct (opened (storage rt)) as [|tx txs] eqn:Eo; [|destruct (answered (storage rt)) eqn:Ea; [|destruct (h_waiting h) as [|[p m] w] eqn:Ew]].
  - assert (requests_end h = h) as Eh by (unfold requests_end; by rewrite H1, Eo). exists rt. rewrite Eh.
    split; [done|]. by eapply cuts_same.
  - assert (requests_end h = h) as Eh by (unfold requests_end; by rewrite H1, Eo, Ea). exists rt. rewrite Eh.
    split; [done|]. by eapply cuts_same.
  - simpl in H3. lia.
  - set (rt' := set_storage (Database (records (storage rt)) (tx :: txs) true (script (storage rt))) rt).
    assert (runtimePromise (requests_end h) = Some (Ok rt') /\ h_waiting (requests_end h) = w) as [Hr Hw].
    { unfold requests_end. by rewrite H1, Eo, Ea, Ew. }
    exists rt'. split.
    + split; [done| |rewrite Hw; simpl in *; lia]. destruct H2 as [A B C]. unfold settled_store in A. rewrite Eo in *. by split.
    + intros j Hj. destruct (Hc j ltac:(by rewrite Eo)) as (es1 & es2 & rt1 & first & -> & E1 & E2 & E3 & E4).
      rewrite Ea in E3. apply nil_length_inv in E3 as ->. exists es1, (es2 ++ [RequestsEnd]), rt1, [(p, m)].
      rewrite app_assoc, deferred_snoc, <- run_events_app, Hh, Hw. split_and!; [done|done| |done|].
      * unfold store_after in *. by rewrite Eo in E2.
      * rewrite E4, Ew. simpl. by rewrite !app_nil_r.
Qed.

Lemma transaction_ends_ok h0 es h rt : run_events es h0 = h -> host_ok h rt -> cuts h0 es h rt ->
  exists rt', host_ok (transaction_ends h) rt' /\ cuts h0 (es ++ [TransactionEnds]) (transaction_ends h) rt'.
Proof.
  intros Hh Hok Hc. pose proof Hok as [H1 H2 H3].
  destruct (opened (storage rt)) as [|tx txs] eqn:Eo; [|destruct (answered (storage rt)) eqn:Ea].
  - assert (transaction_ends h = h) as Eh by (unfold transaction_ends; by rewrite H1, Eo). exists rt. rewrite Eh.
    split; [done|]. by eapply cuts_same.
  - assert (ends tx = Completes) as Ht.
    { destruct H2 as [_ _ [_ Hall]]. rewrite Eo in Hall. by inversion Hall. }
    set (rt' := set_storage (Database (put_all (entries tx) (records (storage rt))) txs false (script (storage rt))) rt).
    assert (runtimePromise (transaction_ends h) = Some (Ok rt') /\ h_waiting (transaction_ends h) = h_waiting h) as [Hr Hw].
    { unfold transaction_ends. by rewrite H1, Eo, Ea, Ht. }
    exists rt'. split.
    + split; [done| |rewrite Hw; simpl in *; lia]. destruct H2 as [A B [C D]]. unfold settled_store in A. rewrite Eo in A, D.
      simpl in A. unfold put_all in A. rewrite fold_left_app in A. split; [done|done|]. split; [done|]. by inversion D.
    + intros j Hj. simpl in Hj.
      destruct (Hc (Datatypes.S j) ltac:(rewrite Eo; simpl; lia)) as (es1 & es2 & rt1 & first & -> & E1 & E2 & E3 & E4).
      rewrite Ea in E3. exists es1, (es2 ++ [TransactionEnds]), rt1, [].
      rewrite app_assoc, deferred_snoc, <- run_events_app, Hh, Hw. split_and!; [done|done| |done|].
      * unfold store_after in *. rewrite Eo in E2. simpl in E2. unfold put_all in E2 |- *. simpl. by rewrite fold_left_app in E2.
      * rewrite E4. simpl. rewrite !app_nil_r. destruct first as [|x [|y l]]; [done|done|done].
  - assert (transaction_ends h = h) as Eh by (unfold transaction_ends; by rewrite H1, Eo, Ea). exists rt. rewrite Eh.
    split; [done|]. by eapply cuts_same.
Qed.

Lemma hello_ok b uuid p m h0 es h rt : run_events es h0 = h -> host_ok h rt -> cuts h0 es h rt ->
  host_ok (handleHello b uuid p m h) rt /\ cuts h0 (es ++ [HelloIn b uuid p m]) (handleHello b uuid p m h) rt.
Proof.
  intros Hh [H1 H2 H3] Hc.
  assert (runtimePromise (handleHello b uuid p m h) = Some (Ok rt) /\ h_waiting (handleHello b uuid p m h) = h_waiting h) as [Hr Hw].
  { unfold handleHello. destruct (negb _); [done|]. rewrite H1. by destruct (match h_storeId h with Some "" | None => false | Some i => negb (bool_decide (i = storeId m)) end). }
  split; [by split; rewrite ?Hw|]. by eapply cuts_same.
Qed.

Lemma events_ok h0 rt0 es : host_ok h0 rt0 -> cuts h0 [] h0 rt0 ->
  exists rt, host_ok (run_events es h0) rt /\ cuts h0 es (run_events es h0) rt.
Proof.
  intros H0 C0. induction es as [|e es IH] using rev_ind; [by exists rt0|].
  destruct IH as (rt & Hok & Hc). rewrite run_events_snoc. destruct e; simpl.
  - exists rt. by apply hello_ok.
  - by eapply envelope_event_ok.
  - by eapply requests_end_ok.
  - by eapply transaction_ends_ok.
Qed.

(** A worker that starts from a store has these values, and nothing to hand
    over. *)
Definition restarts (st : object_store) (v : gmap (string * string) (list Z)) : Prop :=
  exists s, loadStorage (loadAll st) new_service = (Ok tt, s) /\ buffer_of s = Buffer v ∅.

Lemma agrees_restarts (st : object_store) v : agrees st v -> restarts st v.
Proof.
  intros Ha. destruct (load_law (loadAll st)) as (s & Hs & Hb). exists s. split; [done|].
  rewrite Hb. unfold load_entries. simpl. by rewrite (agrees_load st v Ha).
Qed.

(** A worker that has just started. *)
Lemma created_ok (st0 : object_store) endings hp rt0 h0 : well_keyed st0 -> Forall (fun o => o = Completes) endings ->
  createRuntime (Ok st0) endings hp = Ok rt0 -> runtimePromise h0 = Some (Ok rt0) -> h_waiting h0 = [] ->
  host_ok h0 rt0 /\ cuts h0 [] h0 rt0.
Proof.
  intros Hk He Hc Hr Hw. unfold createRuntime in Hc. destruct wasm_init; [|done]. simpl in Hc.
  destruct (load_law (loadAll st0)) as (s & Hs & Hb). rewrite Hs in Hc. injection Hc as <-.
  pose proof (agrees_loaded st0 Hk) as Ha. split.
  - split; [done| |by rewrite Hw]. split; simpl; rewrite ?Hb; simpl; [by rewrite (left_id_L ∅ (∪))|by intros i e Hi|done].
  - intros j Hj. simpl in Hj. assert (j = 0) as -> by lia. exists [], [], (Runtime s (Database st0 [] false endings) hp None), [].
    split_and!; try done; simpl; by rewrite ?Hb, ?Hw.
Qed.

(** C35: What a crash can cost. A worker starts from a store; messages arrive, also while
    earlier ones wait for the database; and transactions end, first their requests and then
    they themselves, one after another, as long as they complete. A new worker that starts
    from the records at any moment has the whole vault as this one had it after a first part
    of the events. Of the responses to the changes since then at most one has been posted,
    that of the transaction whose requests have ended and which itself has not: putEntries
    does not wait for the end. With no transaction under way and nothing left to hand over
    the new worker has everything; and a request that changes the vault leaves nothing to
    hand over when it succeeds. *)
Theorem vault_survives_crash (st0 : object_store) endings hp rt0 h0 es :
  well_keyed st0 -> Forall (fun o => o = Completes) endings ->
  createRuntime (Ok st0) endings hp = Ok rt0 -> runtimePromise h0 = Some (Ok rt0) -> h_waiting h0 = [] ->
  exists rt, runtimePromise (run_events es h0) = Some (Ok rt) /\
    (exists es1 es2 rt1 posted, es = es1 ++ es2 /\ runtimePromise (run_events es1 h0) = Some (Ok rt1) /\
       restarts (records (storage rt)) (values (buffer_of (service rt1))) /\
       deferred es2 (run_events es1 h0) = posted ++ h_waiting (run_events es h0) /\
       length posted = (if answered (storage rt) then 1 else 0)) /\
    (opened (storage rt) = [] -> pending (buffer_of (service rt)) = ∅ ->
       restarts (records (storage rt)) (values (buffer_of (service rt)))) /\
    (forall r resp rt', writing r = true -> handleRequest r rt = (Ok resp, rt') -> pending (buffer_of (service rt')) = ∅).
Proof.
  intros Hk He Hc Hr Hw. destruct (created_ok _ _ _ _ _ Hk He Hc Hr Hw) as [H0 C0].
  destruct (events_ok h0 rt0 es H0 C0) as (rt & [H1 H2 H3] & Hcuts). exists rt. split_and!; [done| | |].
  - destruct (Hcuts 0 ltac:(lia)) as (es1 & es2 & rt1 & posted & -> & E1 & E2 & E3 & E4).
    exists es1, es2, rt1, posted. split_and!; try done. by apply agrees_restarts.
  - intros Ho Hp. apply agrees_restarts. destruct H2 as [Ha _ _]. unfold settled_store in Ha.
    by rewrite Ho, Hp, (left_id_L ∅ (∪)) in Ha.
  - intros r resp rt' Hwr Hrun. destruct (flushes_writing r Hwr rt H2) as (_ & _ & Hf). rewrite Hrun in Hf. by apply (Hf resp).
Qed.

End Durability.

(** *** The host *)

Section HostFacts.
Context {S : Type} `{!KeyServiceWasm S}.
Implicit Types h : host S.

(** Each request is answered once, at its port: now, or when the transaction it
    opened has done its requests. *)
Lemma envelope_answered sent p rid r h : exists a, let h' := handleEnvelope sent p rid r h in
  (h_posted h' = h_posted h ++ [(p, response rid a)] /\ h_waiting h' = h_waiting h) \/
  (h_posted h' = h_posted h /\ h_waiting h' = h_waiting h ++ [(p, response rid a)]).
Proof.
  unfold handleEnvelope, fail. destruct (runtimePromise h) as [[rt|e]|]; [| |by eexists; left];
    (destruct (clients h !! p) as [c|]; [|by eexists; left]); [|by eexists; left].
  destruct (handleRequest _ _) as [res rt']. destruct (_ =? _); eexists; [by left|by right].
Qed.

(** A response that waits is posted when the requests it waits for end. *)
Lemma waiting_posted h rt p m w : runtimePromise h = Some (Ok rt) -> answered (storage rt) = false ->
  opened (storage rt) <> [] -> h_waiting h = (p, m) :: w ->
  h_posted (requests_end h) = h_posted h ++ [(p, m)] /\ h_waiting (requests_end h) = w.
Proof. intros Hr Ha Ho Hw. unfold requests_end. rewrite Hr, Ha, Hw. by destruct (opened (storage rt)). Qed.

(** A runtime that could not be created is never created again: every later
    hello for the store is refused with the same error. *)
Lemma failed_runtime_sticks b uuid p m h e : runtimePromise h = Some (Err e) -> h_storeId h = Some (storeId m) ->
  isValidStoreId (storeId m) = true ->
  h_posted (handleHello b uuid p m h) = h_posted h ++ [(p, helloError (toKeyServiceError e WorkerProtocolError))] /\
  runtimePromise (handleHello b uuid p m h) = Some (Err e).
Proof.
  intros Hp Hs Hv. unfold handleHello. rewrite Hv, Hs, Hp. simpl. rewrite bool_decide_eq_true_2 by done.
  destruct (storeId m); done.
Qed.

(** A code that is not one of [KeyServiceErrorCodes] reaches the client
    unchanged: the branch that would replace it is never taken. *)
Lemma unknown_code_kept is_error code message l fallback :
  assoc "code" l = Some (VStr code) -> assoc "message" l = Some (VStr message) ->
  k_code (toKeyServiceError (Raised is_error (VObj l)) fallback) = code.
Proof. intros Hc Hm. unfold toKeyServiceError, isKeyServiceError, field. by rewrite Hc, Hm. Qed.

(** A signal is always answered, and after it the session it named, or else
    the client's own, is locked unless the service or the store failed. *)
Lemma signal_answered s i (st : runtime S) : exists st', handleRequest (signal s i) st = (Ok (REmpty "signal"), st').
Proof.
  simpl. unfold handleSignal, gets. unfold mbind at 1, js_bind at 1. destruct (signalled i st) as [j|]; [|by eexists].
  unfold mbind, js_bind, try_catch. destruct (lock_session j st) as [[]]; by eexists.
Qed.
End HostFacts.
End KeyServiceProperties.

(** ** The client, and the set-up of both *)

Module KeyServiceClients.

Definition settlement : Type := result KeyServiceError KeyServiceResponse.

Record KeyServiceClient : Type := KsClient {
  pending : list string;
  listening : bool;
  sent : list (string * KeyServiceRequest);
  settled : list (string * settlement)
}.

Definition request (requestId : string) (r : KeyServiceRequest) (c : KeyServiceClient) : KeyServiceClient :=
  KsClient (pending c ++ [requestId]) (listening c) (sent c ++ [(requestId, r)]) (settled c).

Definition shutdown (c : KeyServiceClient) : KeyServiceClient := KsClient [] false (sent c) (settled c).

Definition handleResponse (requestId : string) (payload : WorkerResponse) (c : KeyServiceClient) : KeyServiceClient :=
  if bool_decide (requestId ∈ pending c)
  then KsClient (filter (fun i => i <> requestId) (pending c)) (listening c) (sent c)
    (settled c ++ [(requestId, match payload with ok d => Ok d | error e => Err e end)])
  else c.

Definition onMessage (m : message_out) (c : KeyServiceClient) : KeyServiceClient :=
  if listening c then match m with response i p => handleResponse i p c | _ => c end else c.

Fixpoint sendHello (arrived : list message_out) : result KeyServiceError string :=
  match arrived with
  | [] => Err (KsError WorkerProtocolError "Key service worker hello timeout" None)
  | helloOk i :: _ => Ok i
  | helloError e :: _ => Err e
  | _ :: arrived => sendHello arrived
  end.

Inductive worker_kind : Type := Shared | Dedicated.

Record page : Type := Page {
  in_window : bool;
  sharedWorkerSupported : bool;
  sharedWorkerStarts : bool;
  arrives : worker_kind -> list message_out
}.

Definition first_port (pg : page) : worker_kind :=
  if sharedWorkerSupported pg && sharedWorkerStarts pg then Shared else Dedicated.

(** [createWebKeyService]: the worker whose port the client gets. *)
Definition createWebKeyService (pg : page) : result KeyServiceError worker_kind :=
  if negb (in_window pg)
  then Err (KsError WorkerProtocolError "createWebKeyService must be called in a browser context" None)
  else
    match sendHello (arrives pg (first_port pg)), first_port pg with
    | Ok _, port => Ok port
    | Err _, Shared => sendHello (arrives pg Dedicated) ≫= fun _ => Ok Dedicated
    | Err e, Dedicated => Err e
    end.

(** A pending request is settled by the first response to it, and by no other
    message. *)
Lemma settled_once i a b c : listening c = true -> i ∈ pending c ->
  settled (onMessage (response i b) (onMessage (response i a) c)) =
  settled c ++ [(i, match a with ok d => Ok d | error e => Err e end)].
Proof.
  intros Hl Hi. unfold onMessage at 2. rewrite Hl. unfold handleResponse at 1.
  rewrite bool_decide_eq_true_2 by done. unfold onMessage. simpl. rewrite Hl. unfold handleResponse. simpl.
  rewrite bool_decide_eq_false_2; [done|]. intros [H _]%list_elem_of_filter. done.
Qed.

(** A client is connected only after a worker's [helloOk], and to a dedicated
    one only where there is no shared worker or it did not answer so. *)
Lemma connected pg k : createWebKeyService pg = Ok k ->
  is_ok (sendHello (arrives pg k)) = true /\
  (k = Dedicated -> first_port pg = Dedicated \/ is_ok (sendHello (arrives pg Shared)) = false).
Proof.
  unfold createWebKeyService. destruct (in_window pg); [|done]. simpl.
  destruct (first_port pg) eqn:Ep; destruct (sendHello (arrives pg _)) as [i|e] eqn:E.
  - intros [= <-]. by rewrite E.
  - rewrite result_bind_ok. intros (j & Hj & [= <-]). rewrite Hj. split; [done|]. intros _. right. done.
  - intros [= <-]. rewrite E. split; [done|by left].
  - done.
Qed.
End KeyServiceClients.

(** ** User presence: [userPresence.ts] *)

Module UserPresence.

(** A credential of the platform: its raw id, and the results of its
    extensions if it is a public-key credential. *)
Record credential : Type := Credential { rawId : option (list Z); extensionResults : option jsval }.

(** The platform: what [isUserPresenceSupported] looks at, and what the
    authenticator answers to the two calls. *)
Record platform : Type := Platform {
  window : bool; secureContext : bool; navigator : bool; publicKeyCredential : bool;
  create : result raised (option credential);
  get : list Z -> result raised (option credential)
}.

Definition isUserPresenceSupported (p : platform) : bool :=
  window p && secureContext p && navigator p && publicKeyCredential p.

Definition present (v : jsval) : option jsval := match v with VUndefined | VNull => None | _ => Some v end.

(** [prf.results?.first ?? prf.first], a buffer if it is there. *)
Definition parseUserPresencePrfOutput (results : jsval) : result raised (list Z) :=
  match field "prf" results with
  | VObj l as prf =>
      let candidate :=
        match present (field "results" prf) ≫= fun r => present (field "first" r) with
        | Some c => Some c
        | None => present (field "first" prf)
        end in
      match candidate with
      | Some (VBytes b) => Ok b
      | _ => Err (new_error "PRF output missing")
      end
  | _ => Err (new_error "PRF extension results missing")
  end.

Definition requirePublicKeyCredential (c : option credential) : result raised (list Z * jsval) :=
  match c with
  | None => Err (new_error "No credential returned")
  | Some (Credential (Some i) (Some r)) => Ok (i, r)
  | Some _ => Err (new_error "Expected a public-key credential")
  end.

Definition createUserPresenceCredential (p : platform) : result raised (list Z * jsval) :=
  if isUserPresenceSupported p then c ← create p; requirePublicKeyCredential c
  else Err (new_error "WebAuthn user presence not supported in this environment").

Definition getUserPresenceSecret (p : platform) (credentialId : list Z) : result raised (list Z) :=
  c ← get p credentialId;
  '(_, results) ← requirePublicKeyCredential c;
  parseUserPresencePrfOutput results.

(** The credential's id and the secret. *)
Definition enrollUserPresenceUnlock (p : platform) : result raised (list Z * list Z) :=
  '(i, results) ← createUserPresenceCredential p;
  match parseUserPresencePrfOutput results with
  | Ok secret => Ok (i, secret)
  | Err _ => secret ← getUserPresenceSecret p i; Ok (i, secret)
  end.

(** An enrolment's secret is what the authenticator evaluated for the new
    credential: when it was created, or else in one assertion with its id. *)
Lemma enrolled p i secret : enrollUserPresenceUnlock p = Ok (i, secret) ->
  exists results, create p = Ok (Some (Credential (Some i) (Some results))) /\
    (parseUserPresencePrfOutput results = Ok secret \/
     (is_ok (parseUserPresencePrfOutput results) = false /\ getUserPresenceSecret p i = Ok secret)).
Proof.
  unfold enrollUserPresenceUnlock, createUserPresenceCredential. destruct (isUserPresenceSupported p); [|done].
  rewrite result_bind_ok. intros ([j results] & (c & Hc & Hr)%result_bind_ok & H).
  destruct c as [[[k|] [r|]]|]; simpl in Hr; try done. injection Hr as -> ->. exists results.
  destruct (parseUserPresencePrfOutput results) as [s|e] eqn:E.
  - injection H as -> ->. split; [done|by left].
  - apply result_bind_ok in H as (s & Hs & [= -> ->]). split; [done|right]. done.
Qed.
End UserPresence.

(** ** A small service and witnesses *)

Module ToyKeyService.
Import KeyServiceProperties.

(** A vault with one passphrase, of which one key is stored. *)
Definition vault : Type := StorageState.

Definition session : jsval :=
  VObj [("sessionId", VStr "session"); ("issuedAtMs", VNum (num 1)); ("expiresAtMs", VNum (num 2));
    ("kind", VStr "normal"); ("assurance", VStr "passphrase")].

(** The passphrase [1] unlocks; keys go to the vault. *)
Definition toy_call (c : wasm_call) (v : vault) : result raised jsval * vault :=
  match c with
  | WUnlockPassphrase p =>
      if decide (p = [1]%Z) then (Ok session, v)
      else (Err (Raised false (VObj [("code", VStr "CryptoError"); ("message", VStr "wrong passphrase")])), v)
  | WStoreAppMasterKey s k => (Ok VUndefined, put (Entry "keyvault" "master" k) v)
  | WGetAppMasterKey s => (Ok (match values v !! ("keyvault", "master") with Some k => VBytes k | None => VNull end), v)
  | _ => (Ok VUndefined, v)
  end.

#[export] Instance toy_service : KeyServiceWasm vault := {|
  wasm_init := Ok tt;
  new_service := Buffer ∅ ∅;
  loadStorage l := fun v => (Ok tt, load_entries l v);
  drainStorageWrites := fun v => (Ok (VArr (map entry_value (map snd (map_to_list (pending v))))), Buffer (values v) ∅);
  call := toy_call
|}.

#[export] Program Instance toy_storage : WasmStorage vault := {| buffer_of := fun v => v |}.
Next Obligation. intros l. by eexists. Qed.
Next Obligation. intros v. by eexists _, _. Qed.
Next Obligation.
  intros c v r v'. assert (plain (Entry "keyvault" "master" [])) as Hp.
  { unfold plain. simpl. intros H. repeat apply elem_of_cons in H as [H|H]; try discriminate. by apply not_elem_of_nil in H. }
  destruct c; simpl; try (intros [= <- <-]; by exists []).
  - destruct (decide _); intros [= <- <-]; by exists [].
  - intros [= <- <-]. exists [Entry "keyvault" "master" masterKey]. split; [done|by repeat constructor].
Qed.

Definition memory_0 : gmap nat (list Z) := {[ 1%nat := [1]%Z; 2%nat := [7; 8]%Z; 3%nat := [9]%Z ]}.

Definition rt_0 (endings : list outcome) : runtime vault := Runtime (Buffer ∅ ∅) (Database ∅ [] false endings) memory_0 None.

(** A worker with one client, at port 0. *)
Definition host_0 (endings : list outcome) : host vault :=
  handleHello (Browser (fun _ => Ok ∅) endings memory_0) "server" 0 (Hello "store" "tab") new_host.
End ToyKeyService.

Module KeyServiceWitnesses.
Import ToyKeyService KeyServiceProperties.

Definition stored : list Z := [7; 8]%Z.

(** The key is stored twice; the first transaction has completed, the second
    one's requests have ended. *)
Definition two_keys : list event :=
  [EnvelopeIn ∅ 0 "r1" (storeAppMasterKey "session" 2); EnvelopeIn ∅ 0 "r2" (storeAppMasterKey "session" 3);
   RequestsEnd; TransactionEnds; RequestsEnd].

Definition stored_in (h : host vault) : option (list Z) :=
  match runtimePromise h with
  | Some (Ok rt) => value <$> records (storage rt) !! "keyvault:master"
  | _ => None
  end.

Lemma vault_survives_crash_witness :
  map snd (h_posted (run_events two_keys (host_0 []))) =
    [helloOk "server"; response "r1" (ok (REmpty "storeAppMasterKey")); response "r2" (ok (REmpty "storeAppMasterKey"))] /\
  exists es1 es2 rt1 p, two_keys = es1 ++ es2 /\ deferred es2 (run_events es1 (host_0 [])) = [p] /\
    runtimePromise (run_events es1 (host_0 [])) = Some (Ok rt1) /\
    forall rt, runtimePromise (run_events two_keys (host_0 [])) = Some (Ok rt) ->
      restarts (records (storage rt)) (values (buffer_of (service rt1))).
Proof.
  split; [vm_compute; reflexivity|].
  destruct (vault_survives_crash ∅ [] memory_0 (rt_0 []) (host_0 []) two_keys) as (rt & Hrt & (es1 & es2 & rt1 & posted & E & H1 & H2 & H3 & H4) & _).
  - by intros i e Hi.
  - constructor.
  - reflexivity.
  - reflexivity.
  - reflexivity.
  - assert (answered (storage rt) = true /\ h_waiting (run_events two_keys (host_0 [])) = []) as [Ha Hw].
    { split; [|vm_compute; reflexivity]. vm_compute in Hrt. injection Hrt as <-. reflexivity. }
    rewrite Ha in H4. rewrite Hw, app_nil_r in H3. destruct posted as [|p [|q l]]; [discriminate H4| |discriminate H4].
    exists es1, es2, rt1, p. split; [exact E|]. split; [exact H3|]. split; [exact H1|].
    intros rt2 Hrt2. rewrite Hrt in Hrt2. injection Hrt2 as <-. exact H2.
Defined.

(** The second key was answered for, and is not in the store. *)
Example answered_before_stored :
  stored_in (run_events two_keys (host_0 [])) = Some stored /\
  stored_in (run_events (two_keys ++ [TransactionEnds]) (host_0 [])) = Some [9]%Z /\
  stored_in (run_events (two_keys ++ [TransactionEnds]) (host_0 [Completes; Aborts])) = Some stored.
Proof. vm_compute. by split_and!. Qed.

(** Both buffers are zero afterwards, also the wrong passphrase. *)
Example wiped_on_failure :
  heap (handleRequest (unlock (passphrase 2)) (rt_0 [])).2 !! 2%nat = Some [0; 0]%Z.
Proof. reflexivity. Qed.

(** A write whose transaction fails is gone: the service has handed it over,
    the next request persists nothing, and a worker started from the store
    does not know the key that this one still answers with. *)
Example failed_write_lost :
  let quota := Raised true (VObj [("message", VStr "QuotaExceededError")]) in
  let '(r1, st1) := handleRequest (storeAppMasterKey "session" 2) (rt_0 [Refused quota]) in
  let '(r2, st2) := handleRequest (closeHandle "session" "h") st1 in
  r1 = Err quota /\ r2 = Ok (REmpty "closeHandle") /\ map ends (opened (storage st2)) = [Refused quota] /\
  (handleRequest (getAppMasterKey "session") st2).1 = Ok (RMasterKey stored).
Proof. vm_compute. by split_and!. Qed.
End KeyServiceWitnesses.
