(* ===== verification/SagaStore.v ===== *)
(** * The stored state of the goal achievement saga

    [packages/infrastructure/src/sagas/SqliteGoalAchievementSagaStore.ts]: the
    saga's port [GoalAchievementStorePort] on the table process_manager_state.
    A state is kept as encrypted JSON text under a key of its own, which is
    drawn when it is first needed.

    The theorem: the store implements the two maps of [Saga.v], which stand for
    the port there, operation by operation.

    What is loaded is a JSON value: the code casts it to the state's type
    without looking at it ([parseJson]).  The saga calls the saving operations
    without a cursor. *)

From S2P Require Import Prelude JsValues JsonText ValueObjects Crypto LocalDb EventStoreCore Application Keyring.
From S2P Require Import DerivedState Projectors Saga GoalRepository GoalProjection.

(** ** Texts *)

Definition PROCESS_MANAGER_ID : string := "goal_achievement".
Definition PROCESS_MANAGER_KEY_ID : string := "process_manager:goal_achievement".
Definition STATE_VERSION : Z := 1.

Definition goalScope (goalId : string) : string := "goal:" +:+ goalId.
Definition projectScope (projectId : string) : string := "project:" +:+ projectId.

(** The objects as [JSON.stringify] sees them. *)
Definition goal_json (st : GoalAchievementState) : json := JObj [
  ("goalId", JStr (gs_goalId st));
  ("linkedProjectIds", JArr (map JStr (linkedProjectIds st)));
  ("completedProjectIds", JArr (map JStr (completedProjectIds st)));
  ("achieved", JBool (achieved st));
  ("archived", JBool (archived st));
  ("achievementRequested", JBool (achievementRequested st));
  ("version", JNum (num (gs_version st)))].

Definition or_null {A} (f : A -> json) (x : option A) : json := match x with Some a => f a | None => JNull end.

Definition project_json (ps : ProjectAchievementState) : json := JObj [
  ("projectId", JStr (ps_projectId ps));
  ("goalId", or_null JStr (ps_goalId ps));
  ("status", or_null (fun s => JStr (ProjectStatus.val s)) (ps_status ps))].

Definition serializeState (state : json) : list Z := utf8_encode (JSON_stringify state).
(** [None]: [JSON.parse] throws.  Bytes that are not UTF-8 are refused too,
    where [TextDecoder] would put U+FFFD; what is stored is always UTF-8. *)
Definition parseJson (value : list Z) : option json := utf8_decode value ≫= JSON_parse.

(** ** The store *)

(** The key store and the random source; the table. *)
Record store : Type := Store { st_device : device; st_rows : process_table }.

Module SqliteGoalAchievementSagaStore.
Section Operations.
Context `{CryptoServicePort} (now : number).
Notation run := (js store app_error).

Definition set_rows (f : process_table -> process_table) : run unit :=
  modify (fun w => Store (st_device w) (f (st_rows w))).
Definition on_keys {A} (m : app A) : run A := fun w =>
  let '(r, d) := m (st_device w) in (r, Store d (st_rows w)).

Definition ensureProcessManagerKey : run (list Z) := on_keys (ensure_key PROCESS_MANAGER_KEY_ID).

Definition remove (scopeKey : string) : run unit :=
  set_rows (ProcessManagerStateStore.remove PROCESS_MANAGER_ID scopeKey).

(** What a row says, under the key; [None] when decrypting or parsing throws. *)
Definition read_row (scopeKey : string) (k : list Z) (row : ProcessManagerStateRecord) : option json :=
  match decrypt (ps_stateEncrypted row) k (Some (buildProcessManagerStateAad PROCESS_MANAGER_ID scopeKey
    (ps_stateVersion row) (ps_lastEffectiveCursor row))) with
  | Ok plaintext => parseJson plaintext
  | Err _ => None
  end.

Definition loadState (scopeKey : string) : run (option json) :=
  row ← gets (fun w => ProcessManagerStateStore.get PROCESS_MANAGER_ID scopeKey (st_rows w));
  match row with
  | None => mret None
  | Some row =>
      k ← ensureProcessManagerKey;
      match read_row scopeKey k row with
      | Some state => mret (Some state)
      | None => _ ← remove scopeKey; mret None
      end
  end.

Definition saveState (scopeKey : string) (state : json) (cursor : option EffectiveCursor) : run unit :=
  k ← ensureProcessManagerKey;
  let effectiveCursor := default ZERO_EFFECTIVE_CURSOR cursor in
  let aad := buildProcessManagerStateAad PROCESS_MANAGER_ID scopeKey STATE_VERSION effectiveCursor in
  cipher ← on_keys (encrypt_fresh (serializeState state) k (Some aad));
  set_rows (ProcessManagerStateStore.put
    (ProcessRecord PROCESS_MANAGER_ID scopeKey STATE_VERSION cipher effectiveCursor now)).

Definition getGoalState (goalId : string) : run (option json) := loadState (goalScope goalId).
Definition saveGoalState (state : GoalAchievementState) (cursor : option EffectiveCursor) : run unit :=
  saveState (goalScope (gs_goalId state)) (goal_json state) cursor.
Definition getProjectState (projectId : string) : run (option json) := loadState (projectScope projectId).
Definition saveProjectState (state : ProjectAchievementState) (cursor : option EffectiveCursor) : run unit :=
  saveState (projectScope (ps_projectId state)) (project_json state) cursor.
Definition removeProjectState (projectId : string) : run unit := remove (projectScope projectId).
Definition resetAll : run unit := set_rows (ProcessManagerStateStore.removeAll PROCESS_MANAGER_ID).

End Operations.
End SqliteGoalAchievementSagaStore.

(** ** The port: its operations on the saga's maps and on the store *)

Inductive port_call : Type :=
| GetGoal (goalId : string)
| SaveGoal (state : GoalAchievementState) (cursor : option EffectiveCursor)
| GetProject (projectId : string)
| SaveProject (state : ProjectAchievementState) (cursor : option EffectiveCursor)
| RemoveProject (projectId : string)
| ResetAll.

(** What each call returns, in order; [None] is [null], or nothing. *)
Fixpoint answers {S} (perform : port_call -> js S app_error (option json)) (l : list port_call)
    : js S app_error (list (option json)) :=
  match l with
  | [] => mret []
  | c :: l' => a ← perform c; rest ← answers perform l'; mret (a :: rest)
  end.

Definition answerless {S} (m : js S app_error unit) : js S app_error (option json) := _ ← m; mret None.

Definition on_maps {W} (c : port_call) : js (saga W) app_error (option json) :=
  match c with
  | GetGoal g => st ← GoalAchievementSaga.getGoalState g; mret (goal_json <$> st)
  | SaveGoal st _ => answerless (GoalAchievementSaga.saveGoalState st)
  | GetProject p => st ← GoalAchievementSaga.getProjectState p; mret (project_json <$> st)
  | SaveProject ps _ => answerless (GoalAchievementSaga.saveProjectState ps)
  | RemoveProject p => answerless (GoalAchievementSaga.removeProjectState p)
  | ResetAll => answerless GoalAchievementSaga.resetAll
  end.

Definition on_table `{CryptoServicePort} (now : number) (c : port_call) : js store app_error (option json) :=
  match c with
  | GetGoal g => SqliteGoalAchievementSagaStore.getGoalState g
  | SaveGoal st c => answerless (SqliteGoalAchievementSagaStore.saveGoalState now st c)
  | GetProject p => SqliteGoalAchievementSagaStore.getProjectState p
  | SaveProject ps c => answerless (SqliteGoalAchievementSagaStore.saveProjectState now ps c)
  | RemoveProject p => answerless (SqliteGoalAchievementSagaStore.removeProjectState p)
  | ResetAll => answerless SqliteGoalAchievementSagaStore.resetAll
  end.

Module SagaStoreProperties.
Import JsonTextProperties ApplicationLemmas KeyringLemmas ProjectorLemmas SqliteGoalAchievementSagaStore.

Lemma goal_json_ok st : json_ok (goal_json st) = true.
Proof. unfold goal_json. simpl. repeat rewrite andb_true_iff. split_and!; try done; induction (_ st); done. Qed.

Lemma project_json_ok ps : json_ok (project_json ps) = true.
Proof. by destruct ps as [? [] []]. Qed.

Lemma parse_serialized j : json_ok j = true -> parseJson (serializeState j) = Some j.
Proof. intros Hj. unfold parseJson, serializeState. rewrite utf8_roundtrip. by apply parse_stringify. Qed.

Lemma serialized_object fs : serializeState (JObj fs) <> [].
Proof. done. Qed.

Lemma scopes_apart g p : goalScope g <> projectScope p.
Proof. done. Qed.

Lemma process_get_removeAll p p' k (t : process_table) :
  ProcessManagerStateStore.get p k (ProcessManagerStateStore.removeAll p' t) =
  if decide (p = p') then None else ProcessManagerStateStore.get p k t.
Proof.
  unfold ProcessManagerStateStore.get, ProcessManagerStateStore.removeAll, kt_get, process_table in *.
  induction t as [|x t IH]; [by destruct (decide _)|]. rewrite filter_cons.
  destruct (decide (ps_processManagerId x <> p')) as [Hx|Hx]; simpl; rewrite IH; clear IH.
  - case_bool_decide as E; [|done]. unfold ProcessManagerStateStore.key in E. destruct (decide (p = p')); [congruence|done].
  - case_bool_decide as E; [|done]. unfold ProcessManagerStateStore.key in E. destruct (decide (p = p')); [done|].
    apply dec_stable in Hx. congruence.
Qed.

Section Refinement.
Context `{CryptoServicePort} (deriveKey : list Z -> string -> list Z) (keyof : string -> option (list Z)) (own : list string).
Context (Hown : PROCESS_MANAGER_KEY_ID ∈ own) (Hfree : keyof PROCESS_MANAGER_KEY_ID = None).
Context {W : Type} (now : number).
Implicit Types (s : saga W) (w : store).

Notation in_order := (device_ok deriveKey keyof own).

Definition the_key (d : device) (k : list Z) : Prop := stored_key PROCESS_MANAGER_KEY_ID d = Ok (Some k) /\ seals k.

(** What the table has for a scope, read with the stored key. *)
Definition holds w (scopeKey : string) (v : option json) : Prop :=
  let row := ProcessManagerStateStore.get PROCESS_MANAGER_ID scopeKey (st_rows w) in
  match v with
  | None => row = None
  | Some j => exists r k, row = Some r /\ the_key (st_device w) k /\ read_row scopeKey k r = Some j
  end.

(** The store stands for the maps. *)
Record implements s w : Prop := {
  im_device : in_order (st_device w);
  im_goal g : holds w (goalScope g) (goal_json <$> goalStates s !! g);
  im_project p : holds w (projectScope p) (project_json <$> projectStates s !! p)
}.

(** The key, once there, stays. *)
Definition key_kept (d d' : device) : Prop := forall k, the_key d k -> the_key d' k.

Lemma holds_kept w d sc v : key_kept (st_device w) d -> holds w sc v -> holds (Store d (st_rows w)) sc v.
Proof. intros Hk. destruct v as [j|]; [|done]. intros (r & k & Hr & Hkey & Hj). exists r, k. auto. Qed.

Lemma implements_kept s w d : in_order d -> key_kept (st_device w) d -> implements s w ->
  implements s (Store d (st_rows w)).
Proof. intros Hd Hk [_ Hg Hp]. by split; [|intros i; apply holds_kept..]. Qed.

Lemma ensure_run w : in_order (st_device w) -> exists k d,
  ensureProcessManagerKey w = (Ok k, Store d (st_rows w)) /\ in_order d /\ the_key d k /\
  forall k0, the_key (st_device w) k0 -> k0 = k.
Proof.
  intros Hd. destruct (ensure_key_ok deriveKey keyof own _ _ Hd Hown Hfree) as (k & d & E & Hs & Hd' & _ & Hk & Hsame).
  exists k, d. unfold ensureProcessManagerKey, on_keys. rewrite E. split_and!; try done.
  intros k0 [Hk0 _]. by apply Hsame.
Qed.

Lemma load_ok sc v w : in_order (st_device w) -> holds w sc v -> exists d,
  loadState sc w = (Ok v, Store d (st_rows w)) /\ in_order d /\ key_kept (st_device w) d.
Proof.
  intros Hd Hv. unfold loadState, gets. unfold mbind at 1, js_bind at 1.
  destruct v as [j|]; [|exists (st_device w); hnf in Hv; rewrite Hv; split_and!; [by destruct w|done|by intros k]].
  destruct Hv as (r & k & -> & Hk & Hj). destruct (ensure_run w Hd) as (k' & d & E & Hd' & Hk' & Hsame).
  unfold mbind, js_bind. rewrite E, <- (Hsame k Hk), Hj. exists d. split; [done|]. split; [done|].
  intros k0 Hk0. by rewrite (Hsame k0 Hk0).
Qed.

Lemma save_ok sc fs c w : in_order (st_device w) -> json_ok (JObj fs) = true -> exists d r,
  saveState now sc (JObj fs) c w = (Ok tt, Store d (ProcessManagerStateStore.put r (st_rows w))) /\
  ProcessManagerStateStore.key r = (PROCESS_MANAGER_ID, sc) /\
  in_order d /\ key_kept (st_device w) d /\ exists k, the_key d k /\ read_row sc k r = Some (JObj fs).
Proof.
  intros Hd Hj. destruct (ensure_run w Hd) as (k & d & E & Hd' & Hk & Hsame).
  set (aad := buildProcessManagerStateAad PROCESS_MANAGER_ID sc STATE_VERSION (default ZERO_EFFECTIVE_CURSOR c)).
  destruct (encrypt_fresh_ok deriveKey keyof own (serializeState (JObj fs)) k (Some aad) d Hd' (proj2 Hk)) as [ct Hct].
  exists (drawn 1 d), (ProcessRecord PROCESS_MANAGER_ID sc STATE_VERSION ct (default ZERO_EFFECTIVE_CURSOR c) now).
  split_and!.
  - unfold saveState, mbind, js_bind. rewrite E. unfold on_keys at 1. cbn [st_device]. by fold aad; rewrite Hct.
  - done.
  - by apply device_ok_drawn.
  - intros k0 Hk0. by rewrite (Hsame k0 Hk0).
  - exists k. split; [done|]. unfold read_row. simpl. fold aad. rewrite encrypt_fresh_run in Hct.
    destruct (encrypt (ivs d 0) _ k _) as [c'|] eqn:Ec; simplify_eq/=.
    rewrite (decrypt_encrypt _ _ _ _ _ (proj1 (dok_entropy _ _ _ _ Hd' 0)) (serialized_object fs) Ec).
    by apply parse_serialized.
Qed.

(** A row put for one scope leaves the others. *)
Lemma holds_put w d r sc sc' v : ProcessManagerStateStore.key r = (PROCESS_MANAGER_ID, sc) -> key_kept (st_device w) d ->
  sc' <> sc -> holds w sc' v -> holds (Store d (ProcessManagerStateStore.put r (st_rows w))) sc' v.
Proof.
  intros Hr Hk Hne Hv. unfold holds, ProcessManagerStateStore.get, ProcessManagerStateStore.put in *. simpl in *.
  rewrite kt_get_put, Hr, decide_False by congruence.
  destruct v as [j|]; [|done]. destruct Hv as (r' & k & ? & ? & ?). exists r', k. auto.
Qed.

Lemma holds_put_same rows d r k sc j : ProcessManagerStateStore.key r = (PROCESS_MANAGER_ID, sc) -> the_key d k ->
  read_row sc k r = Some j -> holds (Store d (ProcessManagerStateStore.put r rows)) sc (Some j).
Proof.
  intros Hr Hk Hj. exists r, k. split; [|done]. unfold ProcessManagerStateStore.get, ProcessManagerStateStore.put. simpl.
  by rewrite kt_get_put, Hr, decide_True.
Qed.

Lemma goalScope_inj g g' : goalScope g = goalScope g' -> g = g'.
Proof. by intros [= ]. Qed.
Lemma projectScope_inj p p' : projectScope p = projectScope p' -> p = p'.
Proof. by intros [= ]. Qed.

(** One call. *)
Lemma call_refines c s w : implements s w -> exists a s' w',
  on_maps c s = (Ok a, s') /\ on_table now c w = (Ok a, w') /\ implements s' w'.
Proof.
  intros Hi. pose proof Hi as [Hd Hg Hp]. destruct c as [g|st c|p|ps c|p|]; simpl.
  - destruct (load_ok _ _ w Hd (Hg g)) as (d & E & Hd' & Hk). eexists _, s, _. split_and!; [done|exact E|].
    by apply implements_kept.
  - destruct (save_ok (goalScope (gs_goalId st)) _ c w Hd (goal_json_ok st)) as (d & r & E & Hr & Hd' & Hk & k & Hkey & Hj).
    eexists None, _, _. split_and!; [done|unfold answerless, saveGoalState, goal_json, mbind, js_bind; by rewrite E|].
    split; simpl; [done| |].
    + intros g. destruct (decide (g = gs_goalId st)) as [->|Hne].
      * rewrite lookup_insert_eq. by eapply holds_put_same.
      * rewrite lookup_insert_ne by done. eapply holds_put; try done. by intros ?%goalScope_inj.
    + intros p. by eapply holds_put.
  - destruct (load_ok _ _ w Hd (Hp p)) as (d & E & Hd' & Hk). eexists _, s, _. split_and!; [done|exact E|].
    by apply implements_kept.
  - destruct (save_ok (projectScope (ps_projectId ps)) _ c w Hd (project_json_ok ps)) as (d & r & E & Hr & Hd' & Hk & k & Hkey & Hj).
    eexists None, _, _. split_and!; [done|unfold answerless, saveProjectState, project_json, mbind, js_bind; by rewrite E|].
    split; simpl; [done| |].
    + intros g. by eapply holds_put.
    + intros p. destruct (decide (p = ps_projectId ps)) as [->|Hne].
      * rewrite lookup_insert_eq. by eapply holds_put_same.
      * rewrite lookup_insert_ne by done. eapply holds_put; try done. by intros ?%projectScope_inj.
  - eexists None, _, _. split_and!; [done..|]. split; simpl; [done| |].
    + intros g. specialize (Hg g). unfold holds, ProcessManagerStateStore.get, ProcessManagerStateStore.remove in *. simpl.
      by rewrite kt_get_remove, decide_False.
    + intros p'. specialize (Hp p'). unfold holds, ProcessManagerStateStore.get, ProcessManagerStateStore.remove in *. simpl.
      rewrite kt_get_remove. destruct (decide (p' = p)) as [->|Hne].
      * by rewrite lookup_delete_eq, decide_True.
      * rewrite lookup_delete_ne by done. rewrite decide_False; [done|]. by intros [= ?].
  - eexists None, _, _. split_and!; [done..|]. split; simpl; [done| |]; intros i; rewrite lookup_empty;
      unfold holds; simpl; by rewrite process_get_removeAll, decide_True.
Qed.

(** C38: The saga's encrypted store is the port the saga is written against: through any
    sequence of its calls, each returns what the two maps that stand for it in the saga's
    model return, [null] where they have nothing and otherwise the fields of the state that
    was saved last, and none throws, as long as the key store works. The table and the key
    store carry all of it, so the states survive a restart. *)
Theorem saga_store_refines l s w : implements s w -> exists r s' w',
  answers on_maps l s = (Ok r, s') /\ answers (on_table now) l w = (Ok r, w') /\ implements s' w'.
Proof.
  revert s w. induction l as [|c l IH]; intros s w Hi; [by exists [], s, w|].
  destruct (call_refines c s w Hi) as (a & s1 & w1 & E1 & F1 & H1).
  destruct (IH s1 w1 H1) as (r & s2 & w2 & E2 & F2 & H2). exists (a :: r), s2, w2. simpl.
  unfold mbind, js_bind. by rewrite E1, F1, E2, F2.
Qed.

(** A row that does not open is removed, and its state starts afresh. *)
Lemma unreadable_state w sc r : in_order (st_device w) ->
  ProcessManagerStateStore.get PROCESS_MANAGER_ID sc (st_rows w) = Some r ->
  (forall k, read_row sc k r = None) ->
  exists w', loadState sc w = (Ok None, w') /\ holds w' sc None.
Proof.
  intros Hd Hr Hn. destruct (ensure_run w Hd) as (k & d & E & _). eexists. split.
  - unfold loadState, gets, mbind, js_bind. rewrite Hr, E, Hn. reflexivity.
  - hnf. simpl. unfold ProcessManagerStateStore.get, ProcessManagerStateStore.remove. by rewrite kt_get_remove, decide_True.
Qed.

(** An empty table stands for empty maps. *)
Lemma implements_nothing d sn rp se wd : in_order d -> implements (Saga ∅ ∅ sn rp se wd) (Store d []).
Proof. intros Hd. by split. Qed.
End Refinement.
End SagaStoreProperties.

Module SagaStoreWitnesses.
Import SagaStoreProperties.
Import KeyringWitnesses GoalRepositoryWitnesses GoalProjectionRuns GoalProjectionWitnesses.
#[local] Existing Instance toy_service.

Definition st_1 : GoalAchievementState := GoalState "g" ["p"; "q"] ["p"] false false true 3.
Definition ps_1 : ProjectAchievementState := ProjectState "p" (Some "g") (Some ProjectStatus.Completed).

Definition calls : list port_call :=
  [GetGoal "g"; SaveGoal st_1 None; SaveProject ps_1 (Some (Effective 4 0)); GetGoal "g"; GetProject "p"; GetProject "g";
   RemoveProject "p"; GetProject "p"; GetGoal "g"; ResetAll; GetGoal "g"].

Definition saga_0 : saga unit := Saga ∅ ∅ [] false [] tt.
Definition store_0 : store := Store both_keys [].

Lemma key_free : key_of PROCESS_MANAGER_KEY_ID = None.
Proof. reflexivity. Qed.

Lemma starts_empty : implements derive key_of [PROCESS_MANAGER_KEY_ID] saga_0 store_0.
Proof.
  apply implements_nothing, both_keys_ready. intros i [->|[]%elem_of_nil]%elem_of_cons. exact key_free.
Qed.

Lemma saga_store_refines_witness :
  fst (answers (on_table (num 9)) calls store_0) = Ok
    [None; None; None; Some (goal_json st_1); Some (project_json ps_1); None; None; None; Some (goal_json st_1); None; None].
Proof.
  destruct (saga_store_refines derive key_of [PROCESS_MANAGER_KEY_ID] ltac:(by left) key_free (num 9) calls saga_0 store_0
    starts_empty) as (r & s' & w' & E & -> & _).
  simpl. apply (f_equal fst) in E. vm_compute in E. injection E as <-. reflexivity.
Defined.
End SagaStoreWitnesses.
