(* ===== verification/SyncLoops.v ===== *)
(** * The background loops of the sync engine

    [packages/sync-engine/src/SyncEngine.ts]: [start], [stop], the pull loop and
    the push loop, the signals, timers and promises they wait on, and the calls
    from outside ([syncOnce], [debugPullOnce], [debugPushOnce]) that run beside
    them.  [SyncEngine.v] models a run of [pullOnce] or [pushOnce] as one step;
    here a run has a beginning and an end, with whatever else happens in
    between, and [run_pull_outcome] says that the ends are those of the runs.

    JavaScript runs one thing at a time: code up to an [await] is one step.  A
    continuation whose promise is settled is a microtask; timers, messages of
    the database worker, answers of the server and calls of the page are
    macrotasks, and one is taken only when no microtask is left ([quiet]).  A
    promise is a number; [settled] has those that were resolved.  Aborting a
    request makes its run end with a failure, as any run may.

    The theorems: when a start waits for the loops of the last one, the loops
    never miss a signal, whatever is called from outside; but a second start while a loop of the first sleeps makes the page
    hang, and a pull that is refused once is never tried again. *)

From S2P Require Import Prelude JsValues LocalDb PendingRewriter Materializer SyncEngine.

(** ** What the engine keeps *)

(** The engine's own fields, as [SyncEngine.v] has them. *)
Record control : Type := Control {
  c_running : bool;
  c_pull : PullState;
  c_push : PushState;
  c_status : SyncStatus
}.

Record promises : Type := Promises {
  pullSignal : option nat;
  pushSignal : option nat;
  inFlightPromise : option nat;
  waiters : list nat;
  settled : list nat;
  next_promise : nat
}.

(** Where a run of [pullLoop], or a [pullOnce] called from outside, stands. *)
Inductive puller : Type :=
| PullTop
(** [await this.pullOnce(...)] has returned *)
| PullReturned
| PullFlight (of_loop : bool)
| PullParked (signal : nat)
| PullSleeps (until : Z)
| PullEither (signal : nat) (until : Z)
| PullDone.

Inductive pusher : Type :=
| PushTop
(** [await this.waitForNextPush()] has returned *)
| PushGo
| PushWorks (of_loop : bool)
(** in [handleConflict], for a pull that another run makes *)
| PushAwaits (of_loop : bool) (promise : nat)
(** in [handleConflict], for a pull of its own: the loops are stopped *)
| PushPulls (of_loop : bool)
(** the server has taken the events; [hasPendingEvents] is being asked *)
| PushDelivered (of_loop : bool)
| PushParked (signal : nat)
| PushSleeps (until : Z)
| PushEither (signal : nat) (until : Z)
| PushDone.

Record loops : Type := Loops {
  l_control : control;
  l_promises : promises;
  pushTimer : bool;
  subscribed : bool;
  (** starts whose [ensureSyncMetaRow] has not been answered yet *)
  starting : nat;
  pullers : list puller;
  pushers : list pusher
}.

#[export] Instance puller_eq_dec : EqDecision puller.
Proof. solve_decision. Defined.
#[export] Instance pusher_eq_dec : EqDecision pusher.
Proof. solve_decision. Defined.

Definition new_control : control := Control false createPullState createPushState (Idle None None).
Definition new_loops : loops := Loops new_control (Promises None None None [] [] 0) false false 0 [] [].

Definition on_control (f : control -> control) (s : loops) : loops :=
  Loops (f (l_control s)) (l_promises s) (pushTimer s) (subscribed s) (starting s) (pullers s) (pushers s).
Definition on_promises (f : promises -> promises) (s : loops) : loops :=
  Loops (l_control s) (f (l_promises s)) (pushTimer s) (subscribed s) (starting s) (pullers s) (pushers s).
Definition set_timer (b : bool) (s : loops) : loops :=
  Loops (l_control s) (l_promises s) b (subscribed s) (starting s) (pullers s) (pushers s).
Definition set_subscribed (b : bool) (s : loops) : loops :=
  Loops (l_control s) (l_promises s) (pushTimer s) b (starting s) (pullers s) (pushers s).
Definition set_starting (n : nat) (s : loops) : loops :=
  Loops (l_control s) (l_promises s) (pushTimer s) (subscribed s) n (pullers s) (pushers s).
Definition set_pullers (l : list puller) (s : loops) : loops :=
  Loops (l_control s) (l_promises s) (pushTimer s) (subscribed s) (starting s) l (pushers s).
Definition set_pushers (l : list pusher) (s : loops) : loops :=
  Loops (l_control s) (l_promises s) (pushTimer s) (subscribed s) (starting s) (pullers s) l.
Definition set_puller (i : nat) (p : puller) (s : loops) : loops := set_pullers (<[i := p]> (pullers s)) s.
Definition set_pusher (i : nat) (p : pusher) (s : loops) : loops := set_pushers (<[i := p]> (pushers s)) s.

(** ** The engine's fields through a run *)

Definition with_running (b : bool) (c : control) : control := Control b (c_pull c) (c_push c) (c_status c).
Definition with_pull (p : PullState) (c : control) : control := Control (c_running c) p (c_push c) (c_status c).
Definition with_push (p : PushState) (c : control) : control := Control (c_running c) (c_pull c) p (c_status c).
Definition with_status (st : SyncStatus) (c : control) : control := Control (c_running c) (c_pull c) (c_push c) st.

Definition last_success (c : control) : option Z := status_lastSuccessAt (c_status c).
Definition pull_flag (b : bool) (c : control) : control :=
  let p := c_pull c in with_pull (PullSt (pull_inFlight p) b (pull_backoffMs p) (pull_notBeforeMs p)) c.
Definition push_flag (b : bool) (c : control) : control :=
  let p := c_push c in
  with_push (PushSt (push_inFlight p) b (push_queued p) (signalsSeen p) (push_backoffMs p) (push_notBeforeMs p)) c.

Definition begin_pull (c : control) : control :=
  let p := c_pull c in
  with_status (Syncing DirPull (last_success c) (getLastError (c_status c)))
    (with_pull (PullSt true (pull_requested p) (pull_backoffMs p) (pull_notBeforeMs p)) c).

Inductive pull_outcome : Type :=
| PullSucceeds (now : Z)
| PullBacksOff (e : SyncError) (random now : Z)
| PullFails (e : SyncError).

(** The [try], the [catch] and the flag of the [finally] of [pullOnceInternal]. *)
Definition end_pull (o : pull_outcome) (c : control) : control :=
  let p := c_pull c in
  match o with
  | PullSucceeds now => with_status (Idle (Some now) None) (with_pull (PullSt false (pull_requested p) 0 None) c)
  | PullBacksOff e random now =>
      let ms := nextBackoffMs random (pull_backoffMs p) MIN_BACKOFF_MS MAX_BACKOFF_MS in
      with_status (ErrorStatus e (Some (now + ms)%Z) (last_success c))
        (with_pull (PullSt false true ms (Some (now + ms)%Z)) c)
  | PullFails e => with_status (ErrorStatus e None (last_success c)) (with_pull (PullSt false false 0 None) c)
  end.

Definition set_push_state (flight requested : bool) (ms : Z) (notBefore : option Z) (c : control) : control :=
  with_push (PushSt flight requested (push_queued (c_push c)) (signalsSeen (c_push c)) ms notBefore) c.

Definition begin_push (c : control) : control :=
  let p := c_push c in
  with_status (Syncing DirPush (last_success c) (getLastError (c_status c)))
    (set_push_state true (push_requested p) (push_backoffMs p) (push_notBeforeMs p) c).

(** The events were taken: the status, before [hasPendingEvents] is asked. *)
Definition deliver (now : Z) (c : control) : control :=
  with_status (Idle (Some now) None) (set_push_state true (push_requested (c_push c)) 0 None c).

Inductive push_outcome : Type :=
| NothingToPush
| Exhausted
| PushBacksOff (e : SyncError) (random now : Z)
| PushFails (e : SyncError).

Definition end_push (o : push_outcome) (c : control) : control :=
  let p := c_push c in
  match o with
  | NothingToPush =>
      with_status (Idle (last_success c) (getLastError (c_status c))) (set_push_state false false 0 None c)
  | Exhausted => set_push_state false (push_requested p) (push_backoffMs p) (push_notBeforeMs p) c
  | PushBacksOff e random now =>
      let ms := nextBackoffMs random (push_backoffMs p) MIN_BACKOFF_MS MAX_BACKOFF_MS in
      with_status (ErrorStatus e (Some (now + ms)%Z) (last_success c))
        (set_push_state false true ms (Some (now + ms)%Z) c)
  | PushFails e => with_status (ErrorStatus e None (last_success c)) (set_push_state false false 0 None c)
  end.

(** ** Signals *)

Definition settle (l : list nat) (q : promises) : promises :=
  Promises (pullSignal q) (pushSignal q) (inFlightPromise q) (waiters q) (l ++ settled q) (next_promise q).
Definition with_pullSignal (o : option nat) (q : promises) : promises :=
  Promises o (pushSignal q) (inFlightPromise q) (waiters q) (settled q) (next_promise q).
Definition with_pushSignal (o : option nat) (q : promises) : promises :=
  Promises (pullSignal q) o (inFlightPromise q) (waiters q) (settled q) (next_promise q).
Definition with_inFlight (o : option nat) (q : promises) : promises :=
  Promises (pullSignal q) (pushSignal q) o (waiters q) (settled q) (next_promise q).
Definition with_waiters (l : list nat) (q : promises) : promises :=
  Promises (pullSignal q) (pushSignal q) (inFlightPromise q) l (settled q) (next_promise q).
Definition new_promise (q : promises) : promises :=
  Promises (pullSignal q) (pushSignal q) (inFlightPromise q) (waiters q) (settled q) (S (next_promise q)).

Definition is_settled (n : nat) (s : loops) : bool := bool_decide (n ∈ settled (l_promises s)).

Definition signalPull (q : promises) : promises :=
  match pullSignal q with Some n => with_pullSignal None (settle [n] q) | None => q end.
Definition signalPush (q : promises) : promises :=
  match pushSignal q with Some n => with_pushSignal None (settle [n] q) | None => q end.
Definition resolvePullWaiters (q : promises) : promises := with_waiters [] (settle (waiters q) q).

(** The signal to wait for, made when there is none. *)
Definition pull_signal (q : promises) : nat * promises :=
  match pullSignal q with
  | Some n => (n, q)
  | None => (next_promise q, with_pullSignal (Some (next_promise q)) (new_promise q))
  end.
Definition push_signal (q : promises) : nat * promises :=
  match pushSignal q with
  | Some n => (n, q)
  | None => (next_promise q, with_pushSignal (Some (next_promise q)) (new_promise q))
  end.

(** [if (this.pullState.signal === currentSignal) this.pullState.signal = null] *)
Definition drop_pull_signal (n : nat) (q : promises) : promises :=
  if decide (pullSignal q = Some n) then with_pullSignal None q else q.
Definition drop_push_signal (n : nat) (q : promises) : promises :=
  if decide (pushSignal q = Some n) then with_pushSignal None q else q.

Definition requestPush (s : loops) : loops := on_promises signalPush (on_control (push_flag true) s).

(** ** Continuations *)

Definition fatal (st : SyncStatus) : bool := match st with ErrorStatus _ None _ => true | _ => false end.
Definition backoffActive (notBefore : option Z) (now : Z) : bool :=
  match notBefore with Some t => (now <? t)%Z | None => false end.

Section Loops.
Variables pullWaitMs pullIntervalMs pushIntervalMs pushFallbackIntervalMs : Z.

Notation getPullDelayMs := (getPullDelayMs pullWaitMs pullIntervalMs).
Notation getPushDelayMs := (getPushDelayMs pushIntervalMs pushFallbackIntervalMs).

(** [waitForNextPull]; the two readings of the clock. *)
Definition waitForNextPull (now now' : Z) (s : loops) : puller * loops :=
  let c := l_control s in
  let '(n, q) := pull_signal (l_promises s) in
  let parked := (PullParked n, on_promises (fun _ => q) s) in
  if fatal (c_status c) then parked
  else
    let delay := getPullDelayMs now (c_pull c) in
    if (delay <=? 0)%Z then
      if ((pullWaitMs =? 0) && (pullIntervalMs =? 0))%Z then parked else (PullTop, s)
    else if backoffActive (pull_notBeforeMs (c_pull c)) now' then (PullSleeps (now' + delay), s)
    else (PullEither n (now' + delay), on_promises (fun _ => q) s).

Definition waitForNextPush (now now' : Z) (s : loops) : pusher * loops :=
  let c := l_control s in
  let '(n, q) := push_signal (l_promises s) in
  let parked := (PushParked n, on_promises (fun _ => q) s) in
  if fatal (c_status c) then parked
  else
    let delay := getPushDelayMs now (c_push c) in
    if push_requested (c_push c) then
      if (0 <? delay)%Z then (PushSleeps (now' + delay), s) else (PushGo, s)
    else if (delay <=? 0)%Z then parked
    else if backoffActive (push_notBeforeMs (c_push c)) now' then (PushSleeps (now' + delay), s)
    else (PushEither n (now' + delay), on_promises (fun _ => q) s).

(** [pullOnce]: nothing when a pull is in flight. *)
Definition start_pull (s : loops) : loops :=
  on_promises (fun q => with_inFlight (Some (next_promise q)) (new_promise q)) (on_control begin_pull s).
Definition pullOnce (s : loops) : puller * loops :=
  if pull_inFlight (c_pull (l_control s)) then (PullReturned, s) else (PullFlight true, start_pull s).
Definition pushOnce (s : loops) : pusher * loops :=
  if push_inFlight (c_push (l_control s)) then (PushTop, s) else (PushWorks true, on_control begin_push s).

(** The head of each [while]. *)
Definition pull_top (s : loops) : puller * loops :=
  if c_running (l_control s) then pullOnce (on_control (pull_flag false) s) else (PullDone, s).
Definition push_top (now now' : Z) (s : loops) : pusher * loops :=
  if c_running (l_control s) then waitForNextPush now now' s else (PushDone, s).

(** What a loop does until its next [await]; [None] while the promise it
    awaits is not settled, or it needs a timer or an answer. *)
Definition run_puller (now now' : Z) (p : puller) (s : loops) : option (puller * loops) :=
  match p with
  | PullTop => Some (pull_top s)
  | PullReturned => Some (if c_running (l_control s) then waitForNextPull now now' s else (PullDone, s))
  | PullParked n => if is_settled n s then Some (PullTop, s) else None
  | PullEither n _ => if is_settled n s then Some (PullTop, on_promises (drop_pull_signal n) s) else None
  | PullFlight _ | PullSleeps _ | PullDone => None
  end.

Definition run_pusher (now now' : Z) (p : pusher) (s : loops) : option (pusher * loops) :=
  match p with
  | PushTop => Some (push_top now now' s)
  | PushGo => Some (if c_running (l_control s) then pushOnce (on_control (push_flag false) s) else (PushDone, s))
  | PushAwaits b n => if is_settled n s then Some (PushWorks b, s) else None
  | PushParked n => if is_settled n s then Some (PushGo, s) else None
  | PushEither n _ => if is_settled n s then Some (PushGo, on_promises (drop_push_signal n) s) else None
  | _ => None
  end.

(** No continuation can run. *)
Definition quiet (s : loops) : bool :=
  forallb (fun p => match run_puller 0 0 p s with None => true | Some _ => false end) (pullers s) &&
  forallb (fun p => match run_pusher 0 0 p s with None => true | Some _ => false end) (pushers s).

(** ** What happens outside the loops *)

(** [start()]; [Started] is the answer to its [ensureSyncMetaRow], after which
    both loops run (in any order, before anything else). *)
Definition start (s : loops) : loops :=
  if c_running (l_control s) then s else set_starting (S (starting s)) (on_control (with_running true) s).
Definition started (s : loops) : loops :=
  let s := set_starting (pred (starting s)) (set_subscribed true s) in
  let s := if c_running (l_control s) then requestPush s else s in
  set_pushers (pushers s ++ [PushTop]) (set_pullers (pullers s ++ [PullTop]) s).

Definition stop (s : loops) : loops :=
  on_promises (fun q => resolvePullWaiters (signalPush (signalPull q)))
    (set_timer false (set_subscribed false (on_control (with_running false) s))).

(** The fields that [resetSyncState] sets once its batch is done, which it
    starts while the engine is stopped. *)
Definition reset_fields (c : control) : control :=
  let p := c_pull c in
  with_status (Idle (last_success c) None)
    (set_push_state (push_inFlight (c_push c)) (push_requested (c_push c)) 0 None
      (with_pull (PullSt (pull_inFlight p) (pull_requested p) 0 None) c)).

Definition schedulePush (s : loops) : loops :=
  let mark c :=
    let p := c_push c in
    with_push (PushSt (push_inFlight p) (push_requested p) true true (push_backoffMs p) (push_notBeforeMs p)) c in
  set_timer true (on_control mark s).

(** The debounce timer. *)
Definition timer_fires (s : loops) : loops :=
  let unqueue c :=
    let p := c_push c in
    with_push (PushSt (push_inFlight p) (push_requested p) false (signalsSeen p) (push_backoffMs p) (push_notBeforeMs p)) c in
  let s := set_timer false s in
  if c_running (l_control s) && push_queued (c_push (l_control s)) then requestPush (on_control unqueue s) else s.

(** The end of [pullOnceInternal] and of [pullOnce]'s [finally]. *)
Definition pull_ends (o : pull_outcome) (s : loops) : loops :=
  on_promises (fun q => with_inFlight None (settle (option_list (inFlightPromise q)) (resolvePullWaiters q)))
    (on_control (end_pull o) s).

Definition push_ends (o : push_outcome) (s : loops) : loops :=
  let s := on_control (end_push o) s in
  match o with PushBacksOff _ _ _ => on_promises signalPush s | _ => s end.

Definition is_failure (o : push_outcome) : bool := match o with PushBacksOff _ _ _ | PushFails _ => true | _ => false end.

(** The loop goes on; a call from outside returns. *)
Definition after_pull (of_loop : bool) : puller := if of_loop then PullReturned else PullDone.
Definition after_push (of_loop : bool) : pusher := if of_loop then PushTop else PushDone.

(** [requestImmediatePull] when no pull is in flight. *)
Definition requestImmediatePull (s : loops) : nat * loops :=
  let s := on_promises signalPull (on_control (pull_flag true) s) in
  let n := next_promise (l_promises s) in
  (n, on_promises (fun q => with_waiters (waiters q ++ [n]) (new_promise q)) s).

Inductive event : Type :=
| Start
| Started
| Stop
| ResetSyncState
| TableChanged
| TimerFires
| PullWakes (i : nat) (now : Z)
| PushWakes (i : nat) (now : Z)
| PullEnds (i : nat) (o : pull_outcome)
| PushDelivers (i : nat) (now : Z)
| PushAnswered (i : nat) (stillPending : bool)
| PushEnds (i : nat) (o : push_outcome)
(** a conflict without events: the pull in flight is awaited, or one is asked for *)
| PushConflict (i : nat)
| PushPullEnds (i : nat) (o : pull_outcome)
| OutsidePull
| OutsidePush.

Definition conflict_pull (i : nat) (b : bool) (s : loops) : loops :=
  match inFlightPromise (l_promises s) with
  | Some n => set_pusher i (PushAwaits b n) s
  | None =>
      if c_running (l_control s) then
        let '(n, s') := requestImmediatePull s in set_pusher i (PushAwaits b n) s'
      else set_pusher i (PushPulls b) (start_pull s)
  end.

Definition on_event (e : event) (s : loops) : option loops :=
  match e with
  | Start => Some (start s)
  | Started => match starting s with O => None | S _ => Some (started s) end
  | Stop => Some (stop s)
  | ResetSyncState => Some (on_control reset_fields s)
  | TableChanged => if subscribed s && c_running (l_control s) then Some (schedulePush s) else None
  | TimerFires => if pushTimer s then Some (timer_fires s) else None
  | PullWakes i now =>
      match pullers s !! i with
      | Some (PullSleeps t) => if (t <=? now)%Z then Some (set_puller i PullTop s) else None
      | Some (PullEither n t) =>
          if (t <=? now)%Z then Some (set_puller i PullTop (on_promises (drop_pull_signal n) s)) else None
      | _ => None
      end
  | PushWakes i now =>
      match pushers s !! i with
      | Some (PushSleeps t) => if (t <=? now)%Z then Some (set_pusher i PushGo s) else None
      | Some (PushEither n t) =>
          if (t <=? now)%Z then Some (set_pusher i PushGo (on_promises (drop_push_signal n) s)) else None
      | _ => None
      end
  | PullEnds i o =>
      match pullers s !! i with
      | Some (PullFlight b) => Some (set_puller i (after_pull b) (pull_ends o s))
      | _ => None
      end
  | PushDelivers i now =>
      match pushers s !! i with
      | Some (PushWorks b) => Some (set_pusher i (PushDelivered b) (on_control (deliver now) s))
      | _ => None
      end
  | PushAnswered i more =>
      match pushers s !! i with
      | Some (PushDelivered b) =>
          Some (set_pusher i (after_push b) (on_control (end_push Exhausted) (if more then requestPush s else s)))
      | _ => None
      end
  | PushEnds i o =>
      match pushers s !! i with
      | Some (PushWorks b) => Some (set_pusher i (after_push b) (push_ends o s))
      | Some (PushDelivered b) => if is_failure o then Some (set_pusher i (after_push b) (push_ends o s)) else None
      | _ => None
      end
  | PushConflict i =>
      match pushers s !! i with
      | Some (PushWorks b) => Some (conflict_pull i b s)
      | _ => None
      end
  | PushPullEnds i o =>
      match pushers s !! i with
      | Some (PushPulls b) => Some (set_pusher i (PushWorks b) (pull_ends o s))
      | _ => None
      end
  | OutsidePull =>
      if pull_inFlight (c_pull (l_control s)) then Some s
      else Some (set_pullers (pullers s ++ [PullFlight false]) (start_pull s))
  | OutsidePush =>
      if push_inFlight (c_push (l_control s)) then Some s
      else Some (set_pushers (pushers s ++ [PushWorks false]) (on_control begin_push s))
  end.

(** A step: a continuation, or, when there is none, an event. *)
Inductive label : Type :=
| RunPuller (i : nat) (now now' : Z)
| RunPusher (i : nat) (now now' : Z)
| Event (e : event).

Definition perform (l : label) (s : loops) : option loops :=
  match l with
  | RunPuller i now now' =>
      p ← pullers s !! i;
      '(p', s') ← run_puller now now' p s;
      Some (set_puller i p' s')
  | RunPusher i now now' =>
      p ← pushers s !! i;
      '(p', s') ← run_pusher now now' p s;
      Some (set_pusher i p' s')
  | Event e => if quiet s then on_event e s else None
  end.

Fixpoint perform_all (l : list label) (s : loops) : option loops :=
  match l with [] => Some s | x :: l' => s' ← perform x s; perform_all l' s' end.

End Loops.

(** ** The loops hang the page, and the pull that is given up *)

Module LoopLemmas.

Section Lemmas.
Variables pullWaitMs pullIntervalMs pushIntervalMs pushFallbackIntervalMs : Z.
Notation run_puller := (run_puller pullWaitMs pullIntervalMs).
Notation run_pusher := (run_pusher pushIntervalMs pushFallbackIntervalMs).
Notation quiet := (quiet pullWaitMs pullIntervalMs pushIntervalMs pushFallbackIntervalMs).
Notation perform := (perform pullWaitMs pullIntervalMs pushIntervalMs pushFallbackIntervalMs).
Notation perform_all := (perform_all pullWaitMs pullIntervalMs pushIntervalMs pushFallbackIntervalMs).
Notation waitForNextPull := (waitForNextPull pullWaitMs pullIntervalMs).
Notation waitForNextPush := (waitForNextPush pushIntervalMs pushFallbackIntervalMs).
Implicit Types s : loops.

Lemma lookup_set {A} (l : list A) i j x y : <[i := x]> l !! j = Some y -> (j = i /\ y = x) \/ (j <> i /\ l !! j = Some y).
Proof. intros [(-> & -> & _)|(? & ?)]%list_lookup_insert_Some; auto. Qed.

Lemma running_not_quiet i p now now' s : pullers s !! i = Some p -> run_puller now now' p s <> None -> quiet s = false.
Proof.
  intros Hp Hr. unfold SyncLoops.quiet. apply andb_false_iff. left. apply not_true_iff_false.
  rewrite List.forallb_forall. intros H. specialize (H p). rewrite <- list_elem_of_In in H.
  specialize (H (list_elem_of_lookup_2 _ _ _ Hp)).
  destruct p; simpl in *; try done; destruct (is_settled _ s); done.
Qed.

Lemma on_promises_id s : on_promises Datatypes.id s = s.
Proof. by destruct s. Qed.

(** What a waiting push loop leaves alone. *)
Lemma waitForNextPush_spec now now' s q s' : waitForNextPush now now' s = (q, s') ->
  exists f, s' = on_promises f s /\ pullSignal (f (l_promises s)) = pullSignal (l_promises s).
Proof.
  unfold SyncLoops.waitForNextPush, push_signal. intros H.
  destruct (pushSignal (l_promises s)) as [n|]; repeat case_match; simplify_eq;
    first [exists Datatypes.id; by rewrite on_promises_id|eexists (fun _ => _); split; [reflexivity|simpl; congruence]].
Qed.

(** *** A page that hangs *)

(** The time up to which no pull is tried, if any, is over by [T]. *)
Definition over (T : Z) (notBefore : option Z) : Prop := forall t, notBefore = Some t -> (t <= T)%Z.

(** A pull is in flight, and another loop has come round meanwhile. *)
Record spinning (T : Z) (i : nat) (b : bool) (j : nat) s : Prop := {
  sp_running : c_running (l_control s) = true;
  sp_flight : pullers s !! i = Some (PullFlight b);
  sp_inFlight : pull_inFlight (c_pull (l_control s)) = true;
  sp_loop : pullers s !! j = Some PullTop \/ pullers s !! j = Some PullReturned;
  sp_fatal : fatal (c_status (l_control s)) = false;
  sp_over : over T (pull_notBeforeMs (c_pull (l_control s)))
}.

Definition late (T : Z) (l : label) : Prop :=
  match l with RunPuller _ now now' | RunPusher _ now now' => (T <= now)%Z /\ (T <= now')%Z | Event _ => True end.
Definition continuation (l : label) : Prop := match l with Event _ => False | _ => True end.

Lemma spinning_not_quiet T i b j s : spinning T i b j s -> quiet s = false.
Proof. intros [_ _ _ [H|H] _ _]; by eapply (running_not_quiet j _ 0 0). Qed.

Lemma no_delay T now now' s : (0 < pullWaitMs)%Z -> fatal (c_status (l_control s)) = false ->
  over T (pull_notBeforeMs (c_pull (l_control s))) -> (T <= now)%Z -> waitForNextPull now now' s = (PullTop, s).
Proof.
  intros Hw Hf Ho Hn. unfold SyncLoops.waitForNextPull. destruct (pull_signal _) as [n q]. rewrite Hf.
  assert (getPullDelayMs pullWaitMs pullIntervalMs now (c_pull (l_control s)) = 0%Z) as ->.
  { unfold getPullDelayMs. destruct (pull_notBeforeMs _) as [t|]; repeat case_match; try done.
    - specialize (Ho t eq_refl). lia.
    - lia.
    - lia. }
  simpl. destruct (Z.eqb_spec pullWaitMs 0); [lia|done].
Qed.

Lemma spinning_puller T i b j k now now' p p' s s' : (0 < pullWaitMs)%Z -> (T <= now)%Z -> spinning T i b j s ->
  pullers s !! k = Some p -> run_puller now now' p s = Some (p', s') -> spinning T i b j (set_puller k p' s').
Proof.
  intros Hw Hn Hs Hk Hr. pose proof Hs as [H1 H2 H3 H4 H5 H6].
  assert ((p' = PullTop \/ p' = PullReturned) /\ pullers s' = pullers s /\
    exists g, l_control s' = g (l_control s) /\ (g = Datatypes.id \/ g = pull_flag false)) as (Hp' & Hl & g & Hc & Hg).
  { destruct p; simpl in Hr; try done.
    - unfold pull_top, pullOnce in Hr. rewrite H1 in Hr. simpl in Hr. rewrite H3 in Hr. simplify_eq.
      split_and!; [by right|done|]. eexists. split; [reflexivity|by right].
    - rewrite H1, (no_delay T) in Hr by done. simplify_eq. split_and!; [by left|done|]. exists Datatypes.id. auto.
    - case_match; simplify_eq. split_and!; [by left|done|]. exists Datatypes.id. auto.
    - case_match; simplify_eq. split_and!; [by left|done|]. exists Datatypes.id. auto. }
  assert (k <> i) as Hki by (intros ->; rewrite H2 in Hk; simplify_eq; done).
  split; unfold set_puller; simpl; rewrite ?Hl, ?Hc.
  - by destruct Hg as [-> | ->].
  - by rewrite list_lookup_insert_ne.
  - by destruct Hg as [-> | ->].
  - destruct (decide (k = j)) as [->|Hkj]; [|by rewrite list_lookup_insert_ne].
    rewrite list_lookup_insert_eq by (by eapply lookup_lt_Some). destruct Hp' as [-> | ->]; auto.
  - by destruct Hg as [-> | ->].
  - by destruct Hg as [-> | ->].
Qed.

Lemma spinning_pusher T i b j k now now' p p' s s' : spinning T i b j s ->
  pushers s !! k = Some p -> run_pusher now now' p s = Some (p', s') -> spinning T i b j (set_pusher k p' s').
Proof.
  intros Hs Hk Hr. pose proof Hs as [H1 H2 H3 H4 H5 H6].
  destruct p; simpl in Hr; try done; try (case_match; simplify_eq; by split).
  - unfold push_top in Hr. rewrite H1 in Hr. destruct (waitForNextPush now now' s) as [q s1] eqn:E. simplify_eq.
    apply waitForNextPush_spec in E as (f & -> & _). by split.
  - rewrite H1 in Hr. unfold pushOnce in Hr. simpl in Hr. case_match; simplify_eq; by split.
Qed.

Lemma spinning_step T i b j x s s' : (0 < pullWaitMs)%Z -> late T x -> spinning T i b j s -> perform x s = Some s' ->
  continuation x /\ spinning T i b j s'.
Proof.
  intros Hw Hl Hs Hx. destruct x as [k now now'|k now now'|e]; simpl in Hx.
  - destruct (pullers s !! k) as [p|] eqn:Hk; simplify_eq/=. destruct (run_puller now now' p s) as [[p' s1]|] eqn:E; simplify_eq/=.
    split; [done|]. eapply (spinning_puller T i b j k now now' p p' s s1); try done. apply Hl.
  - destruct (pushers s !! k) as [p|] eqn:Hk; simplify_eq/=. destruct (run_pusher now now' p s) as [[p' s1]|] eqn:E; simplify_eq/=.
    split; [done|]. by eapply spinning_pusher.
  - by rewrite (spinning_not_quiet _ _ _ _ _ Hs) in Hx.
Qed.

Lemma spinning_forever T i b j l s s' : (0 < pullWaitMs)%Z -> Forall (late T) l -> spinning T i b j s ->
  perform_all l s = Some s' -> Forall continuation l /\ spinning T i b j s'.
Proof.
  intros Hw Hl. revert s. induction Hl as [|x l Hx _ IH]; intros s Hs Hp; simpl in Hp; [by simplify_eq|].
  destruct (perform x s) as [s1|] eqn:E; simplify_eq/=. destruct (spinning_step T i b j x s s1) as [? Hs1]; try done.
  destruct (IH s1 Hs1 Hp). auto.
Qed.

(** *** A pull that is given up *)

(** Nobody is about to give the signal [n]. *)
Record unheard (n : nat) (q : promises) : Prop := {
  un_settled : n ∉ settled q;
  un_known : n < next_promise q;
  un_push : pushSignal q <> Some n;
  un_flight : inFlightPromise q <> Some n;
  un_waiters : n ∉ waiters q
}.
Definition keeps_unheard (f : promises -> promises) : Prop := forall n q, unheard n q -> unheard n (f q).

Lemma unheard_signalPush : keeps_unheard signalPush.
Proof.
  intros n q Hq. unfold signalPush. destruct (pushSignal q) eqn:E; [|done].
  destruct Hq as [? ? Hp ? ?]. rewrite E in Hp. split; simpl; try done. set_solver.
Qed.
Lemma unheard_push_signal : keeps_unheard (fun q => (push_signal q).2).
Proof.
  intros n q Hq. unfold push_signal. destruct (pushSignal q) eqn:E; [done|].
  destruct Hq. split; simpl; try done; [lia|]. intros [= ?]. lia.
Qed.
Lemma unheard_pull_signal : keeps_unheard (fun q => (pull_signal q).2).
Proof.
  intros n q Hq. unfold pull_signal. destruct (pullSignal q) eqn:E; [done|]. destruct Hq. split; simpl; try done. lia.
Qed.
Lemma unheard_drop_pull m : keeps_unheard (drop_pull_signal m).
Proof. intros n q []. unfold drop_pull_signal. case_decide; by split. Qed.
Lemma unheard_drop_push m : keeps_unheard (drop_push_signal m).
Proof. intros n q []. unfold drop_push_signal. case_decide; by split. Qed.
Lemma unheard_start : keeps_unheard (fun q => with_inFlight (Some (next_promise q)) (new_promise q)).
Proof. intros n q []. split; simpl; try done; [lia|]. intros [= ?]. lia. Qed.
Lemma unheard_ends :
  keeps_unheard (fun q => with_inFlight None (settle (option_list (inFlightPromise q)) (resolvePullWaiters q))).
Proof.
  intros n q [? ? ? Hf ?]. split; simpl; try done; [|set_solver]. rewrite !not_elem_of_app. split_and!; try done.
  destruct (inFlightPromise q); set_solver.
Qed.

(** A loop waits for such a signal. *)
Definition given_up (k n : nat) s : Prop := pullers s !! k = Some (PullParked n) /\ unheard n (l_promises s).

(** The events that give it: the loops are stopped, or a conflict asks for a pull. *)
Definition signals_pull (l : label) : bool :=
  match l with Event (Stop | PushConflict _) => true | _ => false end.

(** Two states between which no such signal is given and no pull loop moves. *)
Definition no_signal s s' : Prop :=
  (forall n, unheard n (l_promises s) -> unheard n (l_promises s')) /\ pullers s `prefix_of` pullers s'.

Lemma no_signal_refl s : no_signal s s.
Proof. by split. Qed.
Lemma no_signal_trans s1 s2 s3 : no_signal s1 s2 -> no_signal s2 s3 -> no_signal s1 s3.
Proof. intros [H1 P1] [H2 P2]. split; [auto|by etrans]. Qed.
Lemma no_signal_control f s : no_signal s (on_control f s).
Proof. by split. Qed.
Lemma no_signal_promises f s : keeps_unheard f -> no_signal s (on_promises f s).
Proof. intros Hf. split; [|done]. intros n. apply Hf. Qed.
Lemma no_signal_pusher k p s : no_signal s (set_pusher k p s).
Proof. by split. Qed.
Lemma no_signal_request s : no_signal s (requestPush s).
Proof. eapply no_signal_trans; [apply no_signal_control|apply no_signal_promises, unheard_signalPush]. Qed.
Lemma no_signal_start s : no_signal s (start_pull s).
Proof. eapply no_signal_trans; [apply no_signal_control|apply no_signal_promises, unheard_start]. Qed.
Lemma no_signal_ends o s : no_signal s (pull_ends o s).
Proof. eapply no_signal_trans; [apply no_signal_control|apply no_signal_promises, unheard_ends]. Qed.

Lemma no_signal_waitPush now now' s : no_signal s (waitForNextPush now now' s).2.
Proof.
  assert (no_signal s (on_promises (fun _ => (push_signal (l_promises s)).2) s)) as H.
  { split; [|done]. intros n. apply unheard_push_signal. }
  unfold SyncLoops.waitForNextPush. destruct (push_signal _) as [m q]. repeat case_match; simplify_eq/=; done || apply no_signal_refl.
Qed.
Lemma no_signal_waitPull now now' s : no_signal s (waitForNextPull now now' s).2.
Proof.
  assert (no_signal s (on_promises (fun _ => (pull_signal (l_promises s)).2) s)) as H.
  { split; [|done]. intros n. apply unheard_pull_signal. }
  unfold SyncLoops.waitForNextPull. destruct (pull_signal _) as [m q]. repeat case_match; simplify_eq/=; done || apply no_signal_refl.
Qed.
Lemma no_signal_pull_top s : no_signal s (pull_top s).2.
Proof.
  unfold pull_top, pullOnce. repeat case_match; simpl; eauto using no_signal_trans, no_signal_control, no_signal_start, no_signal_refl.
Qed.

Lemma no_signal_run_puller now now' p p' s s' : run_puller now now' p s = Some (p', s') -> no_signal s s'.
Proof.
  intros H. destruct p; simpl in H; try done.
  - injection H as H. pose proof (no_signal_pull_top s) as Hn. by rewrite H in Hn.
  - case_match; simplify_eq; [|apply no_signal_refl]. pose proof (no_signal_waitPull now now' s) as Hn. by rewrite H in Hn.
  - case_match; simplify_eq. apply no_signal_refl.
  - case_match; simplify_eq. apply no_signal_promises, unheard_drop_pull.
Qed.

Lemma no_signal_run_pusher now now' p p' s s' : run_pusher now now' p s = Some (p', s') -> no_signal s s'.
Proof.
  intros H. destruct p; simpl in H; try done; unfold push_top, pushOnce in H; repeat (case_match; simplify_eq);
    eauto using no_signal_refl, no_signal_control, no_signal_promises, unheard_drop_push, no_signal_trans.
  pose proof (no_signal_waitPush now now' s) as Hn. by rewrite H in Hn.
Qed.

Lemma given_up_no_signal k n s s' : no_signal s s' -> given_up k n s -> given_up k n s'.
Proof. intros [Hu Hp] [Hk Hn]. split; [by eapply prefix_lookup_Some|auto]. Qed.

(** A pull loop that is not the one that waits moves. *)
Lemma given_up_puller k n i p p' s s' : pullers s !! i = Some p' -> (forall m, p' <> PullParked m) -> no_signal s s' ->
  given_up k n s -> given_up k n (set_puller i p s').
Proof.
  intros Hi Hp Hs Hg. destruct (given_up_no_signal k n s s' Hs Hg) as [Hk Hn]. split; [|done]. simpl.
  rewrite list_lookup_insert_ne; [done|]. intros ->. destruct Hg as [Hg _]. rewrite Hg in Hi. simplify_eq. by eapply Hp.
Qed.

Lemma no_signal_same s s' : l_promises s' = l_promises s -> pullers s' = pullers s -> no_signal s s'.
Proof. intros H1 H2. split; [by rewrite H1|by rewrite H2]. Qed.
Lemma no_signal_then s s1 s2 : no_signal s s1 -> l_promises s2 = l_promises s1 -> pullers s1 `prefix_of` pullers s2 -> no_signal s s2.
Proof. intros [H1 P1] H2 P2. split; [intros n; rewrite H2; auto|by etrans]. Qed.

Lemma no_signal_push_ends o s : no_signal s (push_ends o s).
Proof. destruct o; try (by split). eapply no_signal_trans; [|apply no_signal_promises, unheard_signalPush]. by split. Qed.

Lemma no_signal_started s : no_signal s (started s).
Proof.
  unfold started. set (s0 := set_starting _ _). set (s1 := if c_running (l_control s0) then _ else _).
  apply (no_signal_then s s1); [|done|by apply prefix_app_r]. subst s1. case_match; [|by split].
  apply (no_signal_trans s s0); [by split|apply no_signal_request].
Qed.

Lemma no_signal_timer s : no_signal s (timer_fires s).
Proof.
  unfold timer_fires. case_match; [|by split]. eapply no_signal_trans; [|apply no_signal_request]. by split.
Qed.

Lemma given_up_event e k n s s' : signals_pull (Event e) = false -> on_event e s = Some s' -> given_up k n s -> given_up k n s'.
Proof.
  intros Hx He. destruct e; simpl in Hx, He; try done; repeat (case_match; simplify_eq); simplify_eq;
    lazymatch goal with
    | |- given_up _ _ (set_puller _ _ _) -> _ => eapply given_up_puller; [eassumption|done|]
        | |- _ -> given_up _ _ (set_puller _ _ _) => eapply given_up_puller; [eassumption|done|]
    | |- _ => apply given_up_no_signal
    end.
  all: try (by split).
  all: try first [apply no_signal_started|apply no_signal_timer|apply no_signal_ends
    |apply no_signal_promises, unheard_drop_pull].
  - unfold start. case_match; by split.
  - eapply no_signal_then; [apply no_signal_promises, unheard_drop_push|done|done].
  - eapply no_signal_then; [apply no_signal_request|done|done].
  - eapply no_signal_then; [apply no_signal_push_ends|done|done].
  - eapply no_signal_then; [apply no_signal_push_ends|done|done].
  - eapply no_signal_then; [apply no_signal_start|done|by apply prefix_app_r].
Qed.

Lemma given_up_step x k n s s' : signals_pull x = false -> perform x s = Some s' -> given_up k n s -> given_up k n s'.
Proof.
  intros Hx Hp Hg. destruct x as [i now now'|i now now'|e]; simpl in Hp.
  - destruct (pullers s !! i) as [p|] eqn:Hi; simplify_eq/=. destruct (run_puller now now' p s) as [[p' s1]|] eqn:E; simplify_eq/=.
    pose proof (no_signal_run_puller _ _ _ _ _ _ E) as Hs. destruct (given_up_no_signal k n s s1 Hs Hg) as [Hk Hn].
    split; [|done]. simpl. rewrite list_lookup_insert_ne; [done|]. intros ->. destruct Hg as [Hg Hu].
    rewrite Hg in Hi. simplify_eq/=. unfold is_settled in E. rewrite bool_decide_false in E; [done|apply Hu].
  - destruct (pushers s !! i) as [p|] eqn:Hi; simplify_eq/=. destruct (run_pusher now now' p s) as [[p' s1]|] eqn:E; simplify_eq/=.
    apply (given_up_no_signal k n s); [|done]. eapply no_signal_then; [by eapply no_signal_run_pusher|done|done].
  - destruct (quiet s); [|done]. by eapply given_up_event.
Qed.

Lemma given_up_forever l k n s s' : Forall (fun x => signals_pull x = false) l -> perform_all l s = Some s' ->
  given_up k n s -> given_up k n s'.
Proof.
  intros Hl. revert s. induction Hl as [|x l Hx _ IH]; intros s Hp Hg; simpl in Hp; [by simplify_eq|].
  destruct (perform x s) as [s1|] eqn:E; simplify_eq/=. eauto using given_up_step.
Qed.
End Lemmas.
End LoopLemmas.

(** ** Loops started and stopped in good order *)

Module Orderly.
Import LoopLemmas.

Definition live_puller (p : puller) : bool := match p with PullFlight false | PullDone => false | _ => true end.
Definition live_pusher (p : pusher) : bool :=
  match p with
  | PushWorks b | PushAwaits b _ | PushPulls b | PushDelivered b => b
  | PushDone => false
  | _ => true
  end.

(** The loops of the last start are over; calls from outside may be under way. *)
Definition loops_gone (s : loops) : bool :=
  forallb (fun p => negb (live_puller p)) (pullers s) && forallb (fun p => negb (live_pusher p)) (pushers s) &&
  (starting s =? 0)%nat.

(** A start waits for the loops of the last one.  Everything else happens at
    any time, the calls from outside too ([useSyncCoordination.ts] calls
    [syncOnce] right after [start]). *)
Definition orderly (l : label) (s : loops) : bool :=
  match l with
  | Event Start => c_running (l_control s) || loops_gone s
  | _ => true
  end.

Section Orderly.
Variables pullWaitMs pullIntervalMs pushIntervalMs pushFallbackIntervalMs : Z.
Notation run_puller := (run_puller pullWaitMs pullIntervalMs).
Notation run_pusher := (run_pusher pushIntervalMs pushFallbackIntervalMs).
Notation quiet := (quiet pullWaitMs pullIntervalMs pushIntervalMs pushFallbackIntervalMs).
Notation perform := (perform pullWaitMs pullIntervalMs pushIntervalMs pushFallbackIntervalMs).
Notation waitForNextPull := (waitForNextPull pullWaitMs pullIntervalMs).
Notation waitForNextPush := (waitForNextPush pushIntervalMs pushFallbackIntervalMs).
Implicit Types s : loops.

Inductive reachable : loops -> Prop :=
| reachable_new : reachable new_loops
| reachable_step s l s' : reachable s -> orderly l s = true -> perform l s = Some s' -> reachable s'.

(** *** The invariant *)

(** The signal a process waits for. *)
Definition pull_wait (p : puller) : option nat :=
  match p with PullParked n | PullEither n _ => Some n | _ => None end.
Definition push_wait (p : pusher) : option nat :=
  match p with PushParked n | PushEither n _ => Some n | _ => None end.

Definition hears (current : option nat) (q : promises) (n : nat) : Prop := n ∈ settled q \/ current = Some n.
Definition promised (q : promises) (n : nat) : Prop :=
  n ∈ settled q \/ n ∈ waiters q \/ inFlightPromise q = Some n.

(** The pull loop has a pull ahead, or under way. *)
Definition serving (q : promises) (p : puller) : Prop :=
  match p with
  | PullFlight true | PullSleeps _ | PullTop => True
  | PullParked n | PullEither n _ => n ∈ settled q
  | _ => False
  end.

Definition in_flight s : bool := pull_inFlight (c_pull (l_control s)).
Definition is_running s : bool := c_running (l_control s).
Definition is_pulling (p : pusher) : bool := match p with PushPulls _ => true | _ => false end.

(** Somebody will answer those who wait for the next pull: the pull in flight,
    the loop, or the loop of a start that is not answered yet. *)
Definition served s : Prop :=
  in_flight s = true \/ starting s = 1 \/ exists i p, pullers s !! i = Some p /\ serving (l_promises s) p.

Record inv s : Prop := {
  inv_one_pull i j p p' : pullers s !! i = Some p -> pullers s !! j = Some p' ->
    live_puller p = true -> live_puller p' = true -> i = j;
  inv_one_push i j p p' : pushers s !! i = Some p -> pushers s !! j = Some p' ->
    live_pusher p = true -> live_pusher p' = true -> i = j;
  inv_starting : starting s <= 1;
  inv_start : starting s = 1 -> (forall i p, pullers s !! i = Some p -> live_puller p = false) /\
    (forall i p, pushers s !! i = Some p -> live_pusher p = false);
  inv_flight : in_flight s = true <-> is_Some (inFlightPromise (l_promises s));
  inv_hear_pull i p n : pullers s !! i = Some p -> pull_wait p = Some n -> hears (pullSignal (l_promises s)) (l_promises s) n;
  inv_hear_push i p n : pushers s !! i = Some p -> push_wait p = Some n -> hears (pushSignal (l_promises s)) (l_promises s) n;
  inv_await i b n : pushers s !! i = Some (PushAwaits b n) -> promised (l_promises s) n;
  inv_own : in_flight s = true ->
    (exists i b, pullers s !! i = Some (PullFlight b)) \/ (exists i b, pushers s !! i = Some (PushPulls b));
  inv_idle : is_running s = false -> waiters (l_promises s) = [];
  inv_served : is_running s = true -> waiters (l_promises s) <> [] -> served s;
  inv_alive : is_running s = true -> starting s = 0 -> exists i p, pullers s !! i = Some p /\ live_puller p = true
}.

Lemma serving_live q p : serving q p -> live_puller p = true.
Proof. destruct p as [| |[]| | | |]; naive_solver. Qed.

Lemma inv_new : inv new_loops.
Proof. split; simpl; try done; try lia. Qed.

(** *** Changes that leave the processes *)

(** The control fields matter by two flags. *)
Lemma inv_control f s : c_running (f (l_control s)) = c_running (l_control s) ->
  pull_inFlight (c_pull (f (l_control s))) = pull_inFlight (c_pull (l_control s)) -> inv s -> inv (on_control f s).
Proof.
  intros Hr Hf [H1 H2 H3 H4 H5 H6 H7 H8 H10 HI H11 H12].
  split; unfold served, is_running, in_flight in *; simpl; rewrite ?Hr, ?Hf; eauto.
Qed.

Lemma inv_timer b s : inv s -> inv (set_timer b s).
Proof. by intros []. Qed.
Lemma inv_subscribed b s : inv s -> inv (set_subscribed b s).
Proof. by intros []. Qed.

(** Promises are settled, signals made or dropped once settled, waiters added
    only when a pull serves them. *)
Lemma inv_promises f s : inv s -> let q := l_promises s in
  settled q ⊆ settled (f q) ->
  (forall n, pullSignal q = Some n -> hears (pullSignal (f q)) (f q) n) ->
  (forall n, pushSignal q = Some n -> hears (pushSignal (f q)) (f q) n) ->
  (forall n, n ∈ waiters q \/ inFlightPromise q = Some n -> promised (f q) n) ->
  (is_Some (inFlightPromise (f q)) <-> is_Some (inFlightPromise q)) ->
  (waiters (f q) <> [] -> waiters q <> []) ->
  inv (on_promises f s).
Proof.
  intros [H1 H2 H3 H4 H5 H6 H7 H8 H10 HI H11 H12] q Hs Hl Hp Hw Hf Hn.
  split; simpl; fold q; try done.
  - by rewrite Hf.
  - intros i p n Hi Hwt. destruct (H6 i p n Hi Hwt) as [?|?]; [left; set_solver|by apply Hl].
  - intros i p n Hi Hwt. destruct (H7 i p n Hi Hwt) as [?|?]; [left; set_solver|by apply Hp].
  - intros i b n Hi. destruct (H8 i b n Hi) as [?|?]; [left; set_solver|by apply Hw].
  - intros Hr. destruct (waiters (f q)) eqn:E; [done|]. by destruct (Hn ltac:(done)); apply HI.
  - intros Hr Hne. destruct (H11 Hr (Hn Hne)) as [?|[?|(i & p & Hi & Hp')]]; [by left|by right; left|].
    right. right. exists i, p. split; [done|]. destruct p as [| |[]| | | |]; simpl in *; try done; set_solver.
Qed.

Lemma inv_signalPull s : inv s -> inv (on_promises signalPull s).
Proof.
  unfold signalPull. intros H. apply inv_promises; [done|..]; destruct (pullSignal (l_promises s)) eqn:E;
    unfold hears, promised; simpl; set_solver.
Qed.
Lemma inv_signalPush s : inv s -> inv (on_promises signalPush s).
Proof.
  unfold signalPush. intros H. apply inv_promises; [done|..]; destruct (pushSignal (l_promises s)) eqn:E;
    unfold hears, promised; simpl; set_solver.
Qed.
Lemma inv_resolve s : inv s -> inv (on_promises resolvePullWaiters s).
Proof. unfold resolvePullWaiters. intros H. apply inv_promises; [done|..]; unfold hears, promised; simpl; set_solver. Qed.
Lemma inv_requestPush s : inv s -> inv (requestPush s).
Proof. intros H. apply inv_signalPush. by apply inv_control. Qed.
Lemma inv_pull_signal s : inv s -> inv (on_promises (fun _ => (pull_signal (l_promises s)).2) s).
Proof.
  unfold pull_signal. intros H. apply inv_promises; [done|..]; destruct (pullSignal (l_promises s)) eqn:E;
    unfold hears, promised; simpl; set_solver.
Qed.
Lemma inv_push_signal s : inv s -> inv (on_promises (fun _ => (push_signal (l_promises s)).2) s).
Proof.
  unfold push_signal. intros H. apply inv_promises; [done|..]; destruct (pushSignal (l_promises s)) eqn:E;
    unfold hears, promised; simpl; set_solver.
Qed.

(** A pull ends: nobody waits for it any more. *)
Lemma inv_pull_ends o s : inv s -> inv (pull_ends o s).
Proof.
  intros [H1 H2 H3 H4 H5 H6 H7 H8 H10 HI H11 H12].
  assert (is_running (pull_ends o s) = is_running s) as Hr by (by destruct o).
  assert (in_flight (pull_ends o s) = false) as Hf by (by destruct o).
  split; rewrite ?Hr, ?Hf; try done.
  - split; [done|by intros [? ?]].
  - intros i p n Hi Hw. destruct (H6 i p n Hi Hw) as [?|?]; [left; simpl; set_solver|by right].
  - intros i p n Hi Hw. destruct (H7 i p n Hi Hw) as [?|?]; [left; simpl; set_solver|by right].
  - intros i b n Hi. left. simpl. destruct (H8 i b n Hi) as [?|[?|Hn]]; [set_solver..|]. rewrite Hn. set_solver.
Qed.

(** A pull begins where none is in flight; the process in flight is entered by the caller. *)
Lemma inv_start_pull s : inv s -> in_flight s = false ->
  ((exists i b, pullers s !! i = Some (PullFlight b)) \/ (exists i b, pushers s !! i = Some (PushPulls b))) -> inv (start_pull s).
Proof.
  intros [H1 H2 H3 H4 H5 H6 H7 H8 H10 HI H11 H12] Hf Ho.
  assert (inFlightPromise (l_promises s) = None) as Hn.
  { destruct (inFlightPromise (l_promises s)) eqn:E; [|done]. assert (in_flight s = true) by (apply H5; by eexists). congruence. }
  split; try done; simpl.
  - intros i b n Hi. destruct (H8 i b n Hi) as [?|[?|?]]; [by left|by right; left|congruence].
  - intros _ _. by left.
Qed.

(** *** Changes of a process *)

Lemma inv_puller i p p' s : inv s -> pullers s !! i = Some p ->
  (live_puller p' = true -> live_puller p = true) ->
  (is_running s = true -> live_puller p = true -> live_puller p' = true) ->
  (forall b, p = PullFlight b -> in_flight s = false) ->
  (is_running s = true -> waiters (l_promises s) <> [] -> serving (l_promises s) p ->
    in_flight s = true \/ serving (l_promises s) p') ->
  (forall n, pull_wait p' = Some n -> hears (pullSignal (l_promises s)) (l_promises s) n) ->
  inv (set_puller i p' s).
Proof.
  intros [H1 H2 H3 H4 H5 H6 H7 H8 H10 HI H11 H12] Hi Hl Hl' Hf Hs Hw. split; simpl; try done.
  - intros a b x y [[-> ->]|[? Ha]]%lookup_set [[-> ->]|[? Hb]]%lookup_set Hx Hy; eauto.
  - intros Es. destruct (H4 Es) as (Hp & Hq). split; [|done].
    intros a x [[-> ->]|[? Ha]]%lookup_set; [|by eapply Hp]. specialize (Hp i p Hi).
    destruct (live_puller p'); [|done]. rewrite Hl in Hp; done.
  - intros a x n [[-> ->]|[? Ha]]%lookup_set Hx; eauto.
  - intros Hfl. destruct (H10 Hfl) as [(j & b & Hj)|?]; [|by right]. left. exists j, b.
    destruct (decide (j = i)) as [->|Hne]; [|by rewrite list_lookup_insert_ne].
    rewrite Hi in Hj. simplify_eq. exfalso. specialize (Hf b eq_refl). unfold in_flight in *. simpl in *. congruence.
  - intros Hrun Hwt. destruct (H11 Hrun Hwt) as [?|[?|(j & x & Hj & Hx)]]; [by left|by right; left|].
    destruct (decide (j = i)) as [->|Hne]; [|right; right; exists j, x; split; [|done]; simpl; by rewrite list_lookup_insert_ne].
    rewrite Hi in Hj. simplify_eq. destruct (Hs Hrun Hwt Hx) as [?|Hx']; [by left|].
    right. right. exists i, p'. split; [|done]. simpl. by rewrite list_lookup_insert_eq by (by eapply lookup_lt_Some).
  - intros Hrun Hst. destruct (H12 Hrun Hst) as (j & x & Hj & Hx).
    destruct (decide (j = i)) as [->|Hne]; [|exists j, x; by rewrite list_lookup_insert_ne].
    rewrite Hi in Hj. simplify_eq. exists i, p'. rewrite list_lookup_insert_eq by (by eapply lookup_lt_Some). auto.
Qed.

Lemma inv_pusher i p p' s : inv s -> pushers s !! i = Some p ->
  (live_pusher p' = true -> live_pusher p = true) ->
  (forall n, push_wait p' = Some n -> hears (pushSignal (l_promises s)) (l_promises s) n) ->
  (forall b n, p' = PushAwaits b n -> promised (l_promises s) n) ->
  (is_pulling p = true -> in_flight s = false) ->
  inv (set_pusher i p' s).
Proof.
  intros [H1 H2 H3 H4 H5 H6 H7 H8 H10 HI H11 H12] Hi Hl Hw Ha Hf. split; simpl; try done.
  - intros a b x y [[-> ->]|[? Hx]]%lookup_set [[-> ->]|[? Hy]]%lookup_set Lx Ly; eauto.
  - intros Es. destruct (H4 Es) as (Hp & Hq). split; [done|].
    intros a x [[-> ->]|[? Hx]]%lookup_set; [|by eapply Hq]. specialize (Hq i p Hi).
    destruct (live_pusher p'); [|done]. rewrite Hl in Hq; done.
  - intros a x n [[-> ->]|[? Hx]]%lookup_set Hn; eauto.
  - intros a b n [[-> E]|[? Hx]]%lookup_set; eauto.
  - intros Hfl. destruct (H10 Hfl) as [?|(j & b & Hj)]; [by left|]. right. exists j, b.
    destruct (decide (j = i)) as [->|Hne]; [|by rewrite list_lookup_insert_ne].
    rewrite Hi in Hj. simplify_eq. exfalso. specialize (Hf eq_refl). unfold in_flight in *. simpl in *. congruence.
Qed.

(** A process moves to a place that needs nothing but what is known. *)
Ltac puller_moves :=
  eapply inv_puller; try done; try (intros; unfold is_running in *; congruence); try (intros; by right).

(** A signal that was heard, or overtaken by its timer, is taken back. *)
Lemma inv_signal_dropped n i s : inv s -> (exists p, pullers s !! i = Some p /\ pull_wait p = Some n) ->
  inv (set_puller i PullTop (on_promises (drop_pull_signal n) s)).
Proof.
  intros Hs (p & Hi & Hp). assert (live_puller p = true) as Hl by (by destruct p).
  assert (inv (set_puller i PullTop s)) as Hs'.
  { puller_moves; by destruct p. }
  unfold drop_pull_signal. set (f := fun _ => _).
  change (inv (on_promises f (set_puller i PullTop s))).
  destruct Hs as [H1 _ _ _ _ H6 _ _ _ _ _ _].
  destruct Hs' as [G1 G2 G3 G4 G5 G6 G7 G8 G10 GI G11 G12].
  assert (forall q, settled (f q) = settled q /\ pushSignal (f q) = pushSignal q /\ inFlightPromise (f q) = inFlightPromise q /\
    waiters (f q) = waiters q) as Hq by (intros q; subst f; simpl; by case_decide).
  specialize (Hq (l_promises s)) as (E1 & E2 & E3 & E4).
  split; simpl; rewrite ?E3, ?E4; try done; simpl in *.
  - intros a x m Ha Hx. apply lookup_set in Ha as [[-> ->]|[Hne Ha]]; [done|].
    exfalso. apply Hne. eapply H1; [exact Ha|exact Hi| |done]. by destruct x.
  - intros a x m Ha Hx. unfold hears. rewrite E1, E2. by eapply G7.
  - intros a b m Ha. unfold promised. rewrite E1, E3, E4. by eapply G8.
  - intros Hr Hw. destruct (G11 Hr Hw) as [?|[?|(a & x & Ha & Hx)]]; [by left|by right; left|].
    right. right. exists a, x. split; [done|]. simpl. unfold serving in *. by rewrite E1.
Qed.

Lemma inv_push_dropped n i p s : inv s -> pushers s !! i = Some p -> push_wait p = Some n ->
  inv (set_pusher i PushGo (on_promises (drop_push_signal n) s)).
Proof.
  intros Hs Hi Hp. assert (live_pusher p = true) as Hl by (by destruct p).
  assert (inv (set_pusher i PushGo s)) as Hs' by (eapply inv_pusher; try done; by destruct p).
  unfold drop_push_signal. set (f := fun _ => _).
  change (inv (on_promises f (set_pusher i PushGo s))).
  destruct Hs as [_ H2 _ _ _ _ H7 _ _ _ _ _].
  destruct Hs' as [G1 G2 G3 G4 G5 G6 G7 G8 G10 GI G11 G12].
  assert (forall q, settled (f q) = settled q /\ pullSignal (f q) = pullSignal q /\ inFlightPromise (f q) = inFlightPromise q /\
    waiters (f q) = waiters q) as Hq by (intros q; subst f; simpl; by case_decide).
  specialize (Hq (l_promises s)) as (E1 & E2 & E3 & E4).
  split; simpl; rewrite ?E3, ?E4; try done; simpl in *.
  - intros a x m Ha Hx. unfold hears. rewrite E1, E2. by eapply G6.
  - intros a x m Ha Hx. apply lookup_set in Ha as [[-> ->]|[Hne Ha]]; [done|].
    exfalso. apply Hne. eapply H2; [exact Ha|exact Hi| |done]. by destruct x.
  - intros a b m Ha. unfold promised. rewrite E1, E3, E4. by eapply G8.
  - intros Hr Hw. destruct (G11 Hr Hw) as [?|[?|(a & x & Ha & Hx)]]; [by left|by right; left|].
    right. right. exists a, x. split; [done|]. simpl. unfold serving in *. by rewrite E1.
Qed.

(** *** The steps *)

Lemma waitForNextPull_cases now now' s p s' : waitForNextPull now now' s = (p, s') ->
  (s' = s /\ (p = PullTop \/ exists t, p = PullSleeps t)) \/
  (s' = on_promises (fun _ => (pull_signal (l_promises s)).2) s /\
   pull_wait p = Some (pull_signal (l_promises s)).1 /\ live_puller p = true).
Proof.
  unfold SyncLoops.waitForNextPull. destruct (pull_signal (l_promises s)) as [n q].
  intros H. repeat case_match; simplify_eq/=; eauto 10.
Qed.

Lemma waitForNextPush_cases now now' s p s' : waitForNextPush now now' s = (p, s') ->
  (s' = s /\ (p = PushGo \/ exists t, p = PushSleeps t)) \/
  (s' = on_promises (fun _ => (push_signal (l_promises s)).2) s /\
   push_wait p = Some (push_signal (l_promises s)).1 /\ live_pusher p = true).
Proof.
  unfold SyncLoops.waitForNextPush. destruct (push_signal (l_promises s)) as [n q].
  intros H. repeat case_match; simplify_eq/=; eauto 10.
Qed.

Lemma pull_signal_current q : pullSignal (pull_signal q).2 = Some (pull_signal q).1.
Proof. unfold pull_signal. by destruct (pullSignal q) eqn:E. Qed.
Lemma push_signal_current q : pushSignal (push_signal q).2 = Some (push_signal q).1.
Proof. unfold push_signal. by destruct (pushSignal q) eqn:E. Qed.

Lemma inv_run_puller i now now' p p' s s' : inv s -> pullers s !! i = Some p -> run_puller now now' p s = Some (p', s') ->
  inv (set_puller i p' s').
Proof.
  intros Hs Hi Hr. destruct p; simpl in Hr; try done.
  - injection Hr as Hr. unfold pull_top in Hr. destruct (c_running _) eqn:Hrun;
      [|simplify_eq; by puller_moves].
    assert (inv (on_control (pull_flag false) s)) as Hs1 by (by apply inv_control).
    unfold pullOnce in Hr. change (pull_inFlight _) with (in_flight s) in Hr. destruct (in_flight s) eqn:Hf.
    + simplify_eq. eapply inv_puller; try done. intros _ _ _. by left.
    + simplify_eq. set (s1 := on_control (pull_flag false) s) in *.
      assert (inv (set_puller i (PullFlight true) s1)) as Hs2 by (by puller_moves).
      apply (inv_start_pull _ Hs2 Hf). left. exists i, true. by apply list_lookup_insert_eq, (lookup_lt_Some _ _ _ Hi).
  - destruct (c_running _) eqn:Hrun; [|simplify_eq; by puller_moves].
    injection Hr as Hr. apply waitForNextPull_cases in Hr as [(-> & [-> |[t ->]])|(-> & Hw & Hl)].
    + by puller_moves.
    + by puller_moves.
    + eapply inv_puller; [by apply inv_pull_signal|done|done| | | |]; try done.
      intros n Hn. right. simpl. rewrite pull_signal_current. congruence.
  - case_match; simplify_eq. by puller_moves.
  - case_match; simplify_eq. by eapply inv_signal_dropped; eauto.
Qed.

Lemma inv_run_pusher i now now' p p' s s' : inv s -> pushers s !! i = Some p -> run_pusher now now' p s = Some (p', s') ->
  inv (set_pusher i p' s').
Proof.
  intros Hs Hi Hr. destruct p; simpl in Hr; try done.
  - injection Hr as Hr. unfold push_top in Hr. destruct (c_running _) eqn:Hrun; [|simplify_eq; by eapply inv_pusher].
    apply waitForNextPush_cases in Hr as [(-> & [-> |[t ->]])|(-> & Hw & Hl)].
    + by eapply inv_pusher.
    + by eapply inv_pusher.
    + eapply inv_pusher; [by apply inv_push_signal|done|done| | |done].
      * intros n Hn. right. simpl. rewrite push_signal_current. congruence.
      * intros b n ->. done.
  - destruct (c_running _) eqn:Hrun; [|simplify_eq; by eapply inv_pusher]. unfold pushOnce in Hr.
    assert (inv (on_control (push_flag false) s)) as Hs1 by (by apply inv_control).
    case_match; simplify_eq; [by eapply inv_pusher|]. eapply inv_pusher; try done. by apply inv_control.
  - case_match; simplify_eq. by eapply inv_pusher.
  - case_match; simplify_eq. by eapply inv_pusher.
  - case_match; simplify_eq. by eapply inv_push_dropped.
Qed.

Lemma inv_stop s : inv s -> inv (stop s).
Proof.
  intros Hs. assert (inv (on_promises resolvePullWaiters (on_promises signalPush (on_promises signalPull s)))) as Hs'
    by (by apply inv_resolve, inv_signalPush, inv_signalPull).
  destruct Hs' as [H1 H2 H3 H4 H5 H6 H7 H8 H10 HI H11 H12]. by split.
Qed.

Lemma loops_gone_spec s : loops_gone s = true -> (forall i p, pullers s !! i = Some p -> live_puller p = false) /\
  (forall i p, pushers s !! i = Some p -> live_pusher p = false) /\ starting s = 0.
Proof.
  unfold loops_gone. rewrite !andb_true_iff, !List.forallb_forall, Nat.eqb_eq. intros [[H1 H2] H3]. split_and!; [..|done].
  - intros i p Hi%list_elem_of_lookup_2%list_elem_of_In. by apply negb_true_iff, H1.
  - intros i p Hi%list_elem_of_lookup_2%list_elem_of_In. by apply negb_true_iff, H2.
Qed.

Lemma inv_start_ s : inv s -> (c_running (l_control s) || loops_gone s)%bool = true -> inv (start s).
Proof.
  intros Hs Ho. unfold start. destruct (c_running _) eqn:Hr; [done|]. simpl in Ho.
  apply loops_gone_spec in Ho as (Hp & Hq & H0). rewrite H0.
  destruct Hs as [H1 H2 H3 H4 H5 H6 H7 H8 H10 HI H11 H12]. split; simpl; try done.
  intros _ Hw. by rewrite (HI Hr) in Hw.
Qed.

Lemma inv_append p q s : inv s -> starting s = 1 ->
  live_puller p = true -> pull_wait p = None -> serving (l_promises s) p -> live_pusher q = true -> push_wait q = None ->
  (forall b n, q <> PushAwaits b n) ->
  inv (set_pushers (pushers s ++ [q]) (set_pullers (pullers s ++ [p]) (set_starting 0 s))).
Proof.
  intros [H1 H2 H3 H4 H5 H6 H7 H8 H10 HI H11 H12] Hst Lp Wp Sp Lq Wq Aq.
  assert (forall {A} (l : list A) (x y : A) i, (l ++ [x]) !! i = Some y -> l !! i = Some y \/ (i = length l /\ y = x)) as Hs.
  { intros A l x y i [?|[? ?%list_lookup_singleton_Some]]%lookup_app_Some; [by left|right]. destruct_and?. split; [lia|done]. }
  destruct (H4 Hst) as (Np & Nq). split; simpl; try done; try lia.
  - intros i j x y [Hi|[-> ->]]%Hs [Hj|[-> ->]]%Hs Lx Ly; [by eapply H1|by rewrite (Np _ _ Hi) in Lx|by rewrite (Np _ _ Hj) in Ly|done].
  - intros i j x y [Hi|[-> ->]]%Hs [Hj|[-> ->]]%Hs Lx Ly; [by eapply H2|by rewrite (Nq _ _ Hi) in Lx|by rewrite (Nq _ _ Hj) in Ly|done].
  - intros i x n [Hi|[-> ->]]%Hs Hx; [by eapply H6|congruence].
  - intros i x n [Hi|[-> ->]]%Hs Hx; [by eapply H7|congruence].
  - intros i b n [Hi|[-> E]]%Hs; [by eapply H8|by destruct (Aq b n)].
  - intros Hf. destruct (H10 Hf) as [(i & b & Hi)|(i & b & Hi)]; [left|right]; exists i, b; by apply lookup_app_l_Some.
  - intros _ _. right. right. exists (length (pullers s)), p. split; [|done]. simpl. by rewrite lookup_app_r, Nat.sub_diag.
  - intros _ _. exists (length (pullers s)), p. split; [|done]. by rewrite lookup_app_r, Nat.sub_diag.
Qed.

Lemma inv_started s : inv s -> starting s <> 0 -> inv (started s).
Proof.
  intros Hs Hne. pose proof (inv_starting s Hs). assert (starting s = 1) as Hst by lia.
  set (s0 := if is_running s then requestPush s else s). assert (inv s0) as Hs0 by (subst s0; case_match; [by apply inv_requestPush|done]).
  assert (starting s0 = 1 /\ pullers s0 = pullers s /\ pushers s0 = pushers s /\ is_running s0 = is_running s) as (E1 & E2 & E3 & E4).
  { subst s0. by case_match. }
  assert (started s = set_pushers (pushers s0 ++ [PushTop]) (set_pullers (pullers s0 ++ [PullTop]) (set_starting 0 (set_subscribed true s0)))) as ->.
  { subst s0. unfold started, is_running. rewrite Hst. simpl. by destruct (c_running (l_control s)). }
  apply (inv_append PullTop PushTop (set_subscribed true s0)); try done. by apply inv_subscribed.
Qed.

(** A conflict asks for a pull: the loop is there to make it. *)
Lemma inv_waiter n s : inv s -> is_running s = true -> served s ->
  inv (on_promises (fun q => with_waiters (waiters q ++ [n]) (new_promise q)) s).
Proof.
  intros [H1 H2 H3 H4 H5 H6 H7 H8 H10 HI H11 H12] Hr Hx. split; try done.
  - intros i b m Hi. destruct (H8 i b m Hi) as [?|[?|?]]; [by left|right; left|by right; right]. simpl. set_solver.
  - intros Hr'. unfold is_running in *. simpl in Hr'. congruence.
Qed.

Lemma quiet_puller i p s : quiet s = true -> pullers s !! i = Some p -> run_puller 0 0 p s = None.
Proof.
  intros Hq Hi. destruct (run_puller 0 0 p s) eqn:E; [|done].
  rewrite (running_not_quiet pullWaitMs pullIntervalMs pushIntervalMs pushFallbackIntervalMs i p 0 0 s Hi) in Hq; congruence.
Qed.

(** The signal reaches the pull loop, wherever it waits. *)
Lemma requested_served s : inv s -> quiet s = true -> is_running s = true ->
  served (on_promises signalPull (on_control (pull_flag true) s)).
Proof.
  intros Hs Hq Hr. right. destruct (decide (starting s = 1)) as [|Hne]; [by left|right].
  pose proof (inv_starting s Hs). assert (starting s = 0) as H0 by lia.
  destruct (inv_alive s Hs Hr H0) as (j & x & Hj & Hx). pose proof (quiet_puller j x s Hq Hj) as Hqx.
  exists j, x. split; [done|].
  assert (forall n, pull_wait x = Some n -> n ∈ settled (signalPull (l_promises s))) as Hset.
  { intros n Hw. unfold signalPull.
    destruct (inv_hear_pull s Hs j x n Hj Hw) as [?|E]; [|rewrite E; simpl; set_solver]. case_match; simpl; set_solver. }
  destruct x as [| |[]| | | |]; simpl in *; auto; done.
Qed.

Lemma inv_request_pull i b s : inv s -> quiet s = true -> is_running s = true -> inFlightPromise (l_promises s) = None ->
  pushers s !! i = Some (PushWorks b) ->
  inv (set_pusher i (PushAwaits b (requestImmediatePull s).1) (requestImmediatePull s).2).
Proof.
  intros Hs Hq Hr Hn Hi. unfold requestImmediatePull. set (s1 := on_promises signalPull (on_control (pull_flag true) s)). simpl.
  assert (inv s1) as Hs1 by (apply inv_signalPull; by apply inv_control).
  eapply inv_pusher; [by apply (inv_waiter (next_promise (l_promises s1)) s1 Hs1 Hr), requested_served|exact Hi|done|done| |done].
  intros b' n [= _ <-]. right. left. simpl. set_solver.
Qed.

(** A call from outside. *)
Lemma inv_outside_pull s : inv s -> in_flight s = false ->
  inv (set_pullers (pullers s ++ [PullFlight false]) (start_pull s)).
Proof.
  intros Hs Hf. assert (inv (set_pullers (pullers s ++ [PullFlight false]) s)) as Hs1.
  { destruct Hs as [H1 H2 H3 H4 H5 H6 H7 H8 H10 HI H11 H12].
    assert (forall i p, (pullers s ++ [PullFlight false]) !! i = Some p -> pullers s !! i = Some p \/ p = PullFlight false) as Hl.
    { intros i p [?|[_ [_ ?]%list_lookup_singleton_Some]]%lookup_app_Some; auto. }
    assert (forall i p, pullers s !! i = Some p -> (pullers s ++ [PullFlight false]) !! i = Some p) as Hr
      by (intros i p; apply lookup_app_l_Some).
    split; simpl; try done.
    - intros i j p q [Hi| ->]%Hl [Hj| ->]%Hl Lp Lq; [by eapply H1|done..].
    - intros E. destruct (H4 E) as (Np & Nq). split; [|done]. intros i p [Hi| ->]%Hl; [by eapply Np|done].
    - intros i p n [Hi| ->]%Hl Hn; [by eapply H6|done].
    - intros Hf'. unfold in_flight in *. simpl in *. congruence.
    - intros Hrun Hw. destruct (H11 Hrun Hw) as [?|[?|(i & p & Hi & Hp)]]; [by left|by right; left|].
      right. right. exists i, p. split; [by apply Hr|done].
    - intros Hrun H0. destruct (H12 Hrun H0) as (i & p & Hi & Hp). exists i, p. split; [by apply Hr|done]. }
  apply (inv_start_pull _ Hs1 Hf). left. exists (length (pullers s)), false. simpl.
  by rewrite lookup_app_r, Nat.sub_diag.
Qed.

Lemma inv_outside_push s : inv s -> inv (set_pushers (pushers s ++ [PushWorks false]) (on_control begin_push s)).
Proof.
  intros Hs. assert (inv (on_control begin_push s)) as Hs1 by (by apply inv_control).
  destruct Hs1 as [H1 H2 H3 H4 H5 H6 H7 H8 H10 HI H11 H12].
  assert (forall i p, (pushers s ++ [PushWorks false]) !! i = Some p -> pushers s !! i = Some p \/ p = PushWorks false) as Hl.
  { intros i p [?|[_ [_ ?]%list_lookup_singleton_Some]]%lookup_app_Some; auto. }
  split; try done; simpl in *.
  - intros i j p q [Hi| ->]%Hl [Hj| ->]%Hl Lp Lq; [by eapply H2|done..].
  - intros E. destruct (H4 E) as (Np & Nq). split; [done|]. intros i p [Hi| ->]%Hl; [by eapply Nq|done].
  - intros i p n [Hi| ->]%Hl Hn; [by eapply H7|done].
  - intros i b n [Hi|E]%Hl; [by eapply H8|done].
  - intros Hf. destruct (H10 Hf) as [?|(i & b & Hi)]; [by left|]. right. exists i, b. by apply lookup_app_l_Some.
Qed.

(** A run of [pushOnce] ends. *)
Lemma inv_after_push i b p s : inv s -> pushers s !! i = Some p -> p = PushWorks b \/ p = PushDelivered b ->
  inv (set_pusher i (after_push b) s).
Proof.
  intros Hs Hi Hp. eapply inv_pusher; [done|done|..]; destruct Hp as [-> | ->]; by destruct b.
Qed.

Lemma inv_push_ends o s : inv s -> inv (push_ends o s).
Proof.
  intros Hs. unfold push_ends. assert (inv (on_control (end_push o) s)) by (by apply inv_control; destruct o).
  case_match; [done..| |done]. by apply inv_signalPush.
Qed.

Lemma inv_event e s s' : inv s -> quiet s = true -> orderly (Event e) s = true -> on_event e s = Some s' -> inv s'.
Proof.
  intros Hs Hq Ho He. destruct e; simpl in Ho, He.
  - simplify_eq. by apply inv_start_.
  - case_match; simplify_eq. apply inv_started; [done|lia].
  - simplify_eq. by apply inv_stop.
  - simplify_eq. by apply inv_control.
  - case_match; simplify_eq. apply inv_timer. by apply inv_control.
  - case_match; simplify_eq. unfold timer_fires. assert (inv (set_timer false s)) by (by apply inv_timer).
    case_match; [|done]. apply inv_requestPush. by apply inv_control.
  - repeat case_match; simplify_eq; [by puller_moves|]. by eapply inv_signal_dropped; eauto.
  - repeat case_match; simplify_eq; [by eapply inv_pusher|]. by eapply inv_push_dropped.
  - repeat case_match; simplify_eq. pose proof (inv_pull_ends o s Hs). destruct of_loop.
    + by puller_moves; destruct o.
    + by puller_moves; destruct o.
  - repeat case_match; simplify_eq. eapply (inv_pusher _ (PushWorks of_loop)); try done. by apply inv_control.
  - repeat case_match; simplify_eq; eapply inv_after_push; [apply inv_control; try done; by apply inv_requestPush|done|by right
      |by apply inv_control|done|by right].
  - repeat case_match; simplify_eq; eapply inv_after_push; try (by apply inv_push_ends); [by destruct o|by left|by destruct o|by right].
  - repeat case_match; simplify_eq. unfold conflict_pull. destruct (inFlightPromise _) as [n|] eqn:Hn.
    + eapply inv_pusher; try done. intros b' n' [= _ <-]. by right; right.
    + case_match; [|].
      * destruct (requestImmediatePull s) as [n s1] eqn:E. pose proof (inv_request_pull i of_loop s Hs Hq) as Hx.
        rewrite E in Hx. by apply Hx.
      * assert (in_flight s = false) as Hf.
        { apply not_true_iff_false. intros E. apply (inv_flight s Hs) in E as [? E]. congruence. }
        assert (inv (set_pusher i (PushPulls of_loop) s)) as Hs1.
        { by eapply inv_pusher. }
        apply (inv_start_pull _ Hs1 Hf). right. exists i, of_loop. by apply list_lookup_insert_eq, (lookup_lt_Some _ _ _ H).
  - repeat case_match; simplify_eq. eapply inv_pusher; [by apply inv_pull_ends|done|by destruct of_loop..|by destruct o].
  - case_match; simplify_eq; [done|]. by apply inv_outside_pull.
  - case_match; simplify_eq; [done|]. by apply inv_outside_push.
Qed.

Lemma inv_step x s s' : inv s -> orderly x s = true -> perform x s = Some s' -> inv s'.
Proof.
  intros Hs Ho Hx. destruct x as [i now now'|i now now'|e]; simpl in Hx.
  - destruct (pullers s !! i) as [p|] eqn:Hi; simplify_eq/=.
    destruct (run_puller now now' p s) as [[p' s1]|] eqn:E; simplify_eq/=. by eapply inv_run_puller.
  - destruct (pushers s !! i) as [p|] eqn:Hi; simplify_eq/=.
    destruct (run_pusher now now' p s) as [[p' s1]|] eqn:E; simplify_eq/=. by eapply inv_run_pusher.
  - destruct (quiet s) eqn:Hq; [|done]. by eapply inv_event.
Qed.

Lemma reachable_loops_inv s : reachable s -> inv s.
Proof. induction 1 as [|s l s' _ IH Ho Hp]; [apply inv_new|by eapply inv_step]. Qed.
End Orderly.
End Orderly.

(** ** The ends of runs are those of [SyncEngine.v] *)

Module RunOutcomes.

Definition control_of {W} (s : engine W) : control := Control (running s) (pullState s) (pushState s) (status s).

Definition same_control {W} (s s' : engine W) : Prop := control_of s' = control_of s.

Lemma same_control_push {W} (s s' : engine W) : same_control s s' -> pushState s' = pushState s.
Proof. intros H. exact (f_equal c_push H). Qed.

Definition keeps {W A} (m : js (engine W) failure A) : Prop := forall s, control_of (m s).2 = control_of s.

Lemma keeps_mret {W A} (a : A) : keeps (mret a : js (engine W) failure A).
Proof. done. Qed.
Lemma keeps_throw {W A} e : keeps (throw e : js (engine W) failure A).
Proof. done. Qed.
Lemma keeps_gets {W A} (f : engine W -> A) : keeps (gets f : js (engine W) failure A).
Proof. done. Qed.
Lemma keeps_modify {W} (f : engine W -> engine W) : (forall s, control_of (f s) = control_of s) ->
  keeps (modify f : js (engine W) failure unit).
Proof. done. Qed.
Lemma keeps_bind {W A B} (m : js (engine W) failure A) (f : A -> js (engine W) failure B) :
  keeps m -> (forall a, keeps (f a)) -> keeps (m ≫= f).
Proof.
  intros Hm Hf s. unfold mbind, js_bind. specialize (Hm s). destruct (m s) as [[a|e] s']; cbn [snd] in *; [by rewrite Hf|done].
Qed.

(** Runs of [pullOnce] one after the other. *)
Inductive pulls : control -> control -> Prop :=
| pulls_none c : pulls c c
| pulls_one c o c' : pulls (end_pull o (begin_pull c)) c' -> pulls c c'.

Lemma pulls_trans c1 c2 c3 : pulls c1 c2 -> pulls c2 c3 -> pulls c1 c3.
Proof. induction 1; [done|]. intros. econstructor. eauto. Qed.

(** A run of [pushOnce]: pulls for its conflicts, then its end. *)
Inductive push_run (c : control) : control -> Prop :=
| push_ended c1 o : pulls (begin_push c) c1 -> push_run c (end_push o c1)
| push_delivered c1 now (more : bool) : pulls (begin_push c) c1 ->
    push_run c (end_push Exhausted (if more then push_flag true (deliver now c1) else deliver now c1)).

Section Runs.
Context {W : Type} (nowMs random : W -> Z) (transport : Transport W) (rewriter : option PendingVersionRewriterPort).
Context `{SyncRecordMaterializerPort} (onRebaseRequired : dbm unit) (storeId : string) (pullLimit : Z).
Context (pushBatchSize maxPushRetries : nat).

#[local] Hint Resolve keeps_mret keeps_throw keeps_gets : core.

Lemma keeps_world {A} (m : js W failure A) : keeps (on_world m).
Proof. intros s. unfold on_world. by destruct (m (world s)). Qed.
Lemma keeps_db {A} (m : dbm A) : keeps (on_db (W := W) m).
Proof. intros s. unfold on_db. by destruct (m (db s)). Qed.
Lemma keeps_apply es : keeps (apply_events nowMs rewriter es).
Proof. intros s. unfold apply_events. apply keeps_db. Qed.
Lemma keeps_rebase b : keeps (rebase_if (W := W) onRebaseRequired b).
Proof. destruct b; [|done]. apply keeps_bind; [done|]. intros []; [apply keeps_db|done]. Qed.

Lemma keeps_pull_loop fuel waitMs since any :
  keeps (pull_loop nowMs transport rewriter storeId pullLimit fuel waitMs since any).
Proof.
  revert since any. induction fuel as [|fuel IH]; intros since any; [done|]. simpl.
  apply keeps_bind; [apply keeps_world|]. intros r. apply keeps_bind; [by apply keeps_modify|]. intros _.
  case_match; [done|]. apply keeps_bind; [apply keeps_apply|]. intros applied.
  apply keeps_bind; [case_match; [|done]; apply keeps_bind; [by apply keeps_modify|done]|]. intros since'.
  case_match; [done|]. case_match; [apply IH|done].
Qed.

(** What a run of [pullOnce] leaves of the engine's fields, whatever happens on the way. *)
Lemma run_pull_outcome fuel waitMs s s' : pull_inFlight (pullState s) = false ->
  SyncEngine.pullOnce nowMs random transport rewriter onRebaseRequired storeId pullLimit fuel waitMs s = (Ok (Some tt), s') ->
  exists o, control_of s' = end_pull o (begin_pull (control_of s)).
Proof.
  intros Hf Hr. unfold SyncEngine.pullOnce in Hr. unfold gets, modify in Hr. unfold mbind at 1, js_bind at 1 in Hr. rewrite Hf in Hr.
  unfold mbind at 1, js_bind at 1 in Hr. unfold pullOnceInternal, modify in Hr. unfold mbind at 1, js_bind at 1 in Hr.
  set (s1 := setSyncing DirPull (pull_flight true s)) in *.
  assert (control_of s1 = begin_pull (control_of s)) as <- by done.
  unfold finally, try_catch in Hr.
  set (m := on_pending hasPendingEvents ≫= _) in Hr.
  assert (forall r s2, m s1 = (r, s2) -> match r with
    | Ok (Some _) => exists s3 now, same_control s1 s3 /\ s2 = set_status (Idle (Some now) None) (pull_backoff 0 None s3)
    | Ok None => True
    | Err _ => same_control s1 s2 end) as Hm.
  { clear Hr Hf. clearbody s1. intros r s2 Hs. subst m. unfold mbind at 1, js_bind at 1, on_pending, gets in Hs.
    unfold mbind at 1, js_bind at 1 in Hs. unfold readCursor, on_pending, gets in Hs. unfold mbind at 1, js_bind at 1 in Hs.
    destruct (pull_loop _ _ _ _ _ _ _ _ _ s1) as [rl s4] eqn:El.
    assert (same_control s1 s4) as Hk
      by (pose proof (keeps_pull_loop fuel waitMs (readLastPulledGlobalSeq storeId (db s1)) false s1) as Hk; by rewrite El in Hk).
    destruct rl as [[any|]|e]; [|by unfold mret, js_ret in Hs; simplify_eq..].
    unfold mbind at 1, js_bind at 1 in Hs. destruct (rebase_if _ _ s4) as [rr s5] eqn:Er.
    assert (same_control s1 s5) as Hk'.
    { pose proof (keeps_rebase (any && hasPendingEvents (db s1)) s4) as Hk'. rewrite Er in Hk'. unfold same_control in *.
      simpl in Hk'. congruence. }
    destruct rr as [u|e]; [|by simplify_eq]. unfold mbind, js_bind, modify, mret, js_ret in Hs. simpl in Hs. simplify_eq.
    by exists s5, (nowMs (world s5)). }
  destruct (m s1) as [r s2] eqn:E. specialize (Hm r s2 eq_refl). clear E. destruct r as [[[]|]|e].
  - destruct Hm as (s3 & now & Hc & ->). simplify_eq. exists (PullSucceeds now). by rewrite <- Hc.
  - done.
  - unfold pull_failed in Hr. destruct (toSyncEngineError e _) as [err []]; simpl in Hr; unfold mbind, js_bind, modify, mret, js_ret in Hr;
      simpl in Hr; simplify_eq.
    + exists (PullBacksOff err (random (world s2)) (nowMs (world s2))). by rewrite <- Hm.
    + exists (PullFails err). by rewrite <- Hm.
Qed.

Notation pull_run := (SyncEngine.pullOnce nowMs random transport rewriter onRebaseRequired storeId pullLimit).
Notation conflict_run := (handleConflict nowMs random transport rewriter onRebaseRequired storeId pullLimit).
Notation attempts := (push_attempts nowMs random transport rewriter onRebaseRequired storeId pullLimit pushBatchSize).
Notation push_run_ := (SyncEngine.pushOnce nowMs random transport rewriter onRebaseRequired storeId pullLimit pushBatchSize maxPushRetries).

(** What a computation does to the engine's fields is some runs of [pullOnce]. *)
Definition only_pulls {A} (m : js (engine W) failure (option A)) : Prop := forall s r s', m s = (r, s') ->
  r = Ok None \/ pulls (control_of s) (control_of s').

Lemma only_pulls_pull fuel waitMs : only_pulls (pull_run fuel waitMs).
Proof.
  intros s r s' Hr. destruct (pull_inFlight (pullState s)) eqn:Hf.
  - unfold SyncEngine.pullOnce, gets, mbind, js_bind in Hr. rewrite Hf in Hr. unfold mret, js_ret in Hr. simplify_eq. right. constructor.
  - assert ((exists u, r = Ok (Some u)) \/ r = Ok None) as [[[] ->]| ->]; [|right|by left].
    + unfold SyncEngine.pullOnce, gets, modify in Hr. unfold mbind at 1, js_bind at 1 in Hr. rewrite Hf in Hr.
      unfold mbind at 1, js_bind at 1 in Hr. unfold pullOnceInternal, modify in Hr. unfold mbind at 1, js_bind at 1 in Hr.
      unfold finally, try_catch in Hr. set (m := on_pending hasPendingEvents ≫= _) in Hr. clearbody m.
      destruct (m (setSyncing DirPull (pull_flight true s))) as [[[[]|]|e] s2]; simplify_eq; eauto.
      unfold pull_failed in Hr. destruct (toSyncEngineError e _) as [err []]; simpl in Hr;
        unfold mbind, js_bind, modify, mret, js_ret in Hr; simpl in Hr; simplify_eq; eauto.
    + destruct (run_pull_outcome fuel waitMs s s' Hf Hr) as [o ->]. econstructor. constructor.
Qed.

Lemma only_pulls_keeps {A} (m : js (engine W) failure (option A)) : keeps m -> only_pulls m.
Proof. intros Hm s r s' Hr. right. specialize (Hm s). rewrite Hr in Hm. cbn [snd] in Hm. rewrite Hm. constructor. Qed.

Lemma only_pulls_after {A B} (m : js (engine W) failure A) (f : A -> js (engine W) failure (option B)) :
  keeps m -> (forall a, only_pulls (f a)) -> only_pulls (m ≫= f).
Proof.
  intros Hm Hf s r s' Hr. unfold mbind, js_bind in Hr. specialize (Hm s). destruct (m s) as [[a|e] s1]; cbn [snd] in Hm.
  - rewrite <- Hm. by eapply Hf.
  - right. injection Hr as _ <-. rewrite <- Hm. constructor.
Qed.

Lemma only_pulls_bind {A B} (m : js (engine W) failure (option A)) (f : option A -> js (engine W) failure (option B)) :
  only_pulls m -> f None = mret None -> (forall a, only_pulls (f (Some a))) -> only_pulls (m ≫= f).
Proof.
  intros Hm Hn Hf s r s' Hr. unfold mbind, js_bind in Hr. destruct (m s) as [[[a|]|e] s1] eqn:E.
  - destruct (Hm _ _ _ E) as [|Hp]; [done|]. destruct (Hf a _ _ _ Hr) as [|Hp']; [by left|right]. by eapply pulls_trans.
  - rewrite Hn in Hr. left. unfold mret, js_ret in Hr. congruence.
  - destruct (Hm _ _ _ E) as [|Hp]; [done|]. right. by simplify_eq.
Qed.

Lemma keeps_cursor : keeps (readCursor (W := W) storeId).
Proof. done. Qed.
Lemma keeps_write v : keeps (writeCursor nowMs storeId v).
Proof. done. Qed.

Lemma only_pulls_conflict fuel head reason missing expected : only_pulls (conflict_run fuel head reason missing expected).
Proof.
  unfold handleConflict. case_bool_decide; [by apply only_pulls_keeps|]. case_match.
  - apply only_pulls_keeps. apply keeps_bind; [done|]. intros p. apply keeps_bind; [apply keeps_apply|]. intros a.
    apply keeps_bind; [done|]. intros c. apply keeps_bind; [done|]. intros _. apply keeps_bind; [done|]. intros _.
    apply keeps_bind; [apply keeps_rebase|done].
  - apply only_pulls_after; [done|]. intros c. apply only_pulls_bind; [|done|].
    + case_match; [apply only_pulls_pull|by apply only_pulls_keeps].
    + intros []. apply only_pulls_after; [done|]. intros c'. case_match; by apply only_pulls_keeps.
Qed.

Lemma pulls_push c c' : pulls c c' -> c_push c' = c_push c.
Proof. induction 1 as [|c o c' _ IH]; [done|]. rewrite IH. by destruct o. Qed.

(** The fields where the attempts end, the push still in flight. *)
Inductive attempted (c : control) : bool -> control -> Prop :=
| attempted_out c1 failed : pulls c c1 -> attempted c failed c1
| attempted_nothing c1 : pulls c c1 ->
    attempted c false (with_status (Idle (last_success c1) (getLastError (c_status c1))) (set_push_state true false 0 None c1))
| attempted_delivered c1 now (more : bool) : pulls c c1 ->
    attempted c false (if more then push_flag true (deliver now c1) else deliver now c1).

Definition failed {A} (r : result failure A) : bool := match r with Ok _ => false | Err _ => true end.

Lemma expected_same s : (getExpectedHead (W := W) storeId s).2 = s.
Proof. unfold getExpectedHead, gets, mbind, js_bind. by destruct (lastKnownHead s). Qed.

Lemma deliver_control now (s : engine W) : push_inFlight (pushState s) = true ->
  deliver now (control_of s) = control_of (push_backoff 0 None (set_status (Idle (Some now) None) s)).
Proof. intros Hf. destruct s as [w d r pl [] st h]. simpl in Hf. by subst. Qed.

Lemma attempts_control fuel n s r s' : push_inFlight (pushState s) = true -> attempts fuel n s = (r, s') ->
  r = Ok None \/ attempted (control_of s) (failed r) (control_of s').
Proof.
  revert s. induction n as [|n IH]; intros s Hf Hr.
  - cbn in Hr. unfold mret, js_ret in Hr. injection Hr as <- <-. right. repeat constructor.
  - cbn [push_attempts] in Hr. unfold on_pending, gets in Hr. unfold mbind at 1, js_bind at 1 in Hr.
    destruct (loadPendingEvents pushBatchSize (db s)) as [|row rows].
    { injection Hr as <- <-. right. pose proof (attempted_nothing (control_of s) (control_of s) (pulls_none _)) as Ha.
      unfold set_push_state, with_push in Ha. cbn in Ha. rewrite <- Hf in Ha. exact Ha. }
    unfold mbind at 1, js_bind at 1 in Hr. destruct (getExpectedHead storeId s) as [[expected|e] s0] eqn:Eh;
      (assert (s0 = s) as -> by (pose proof (expected_same s) as Hx; by rewrite Eh in Hx));
      [|injection Hr as <- <-; right; repeat constructor].
    unfold mbind at 1, js_bind at 1 in Hr. destruct (on_world _ s) as [[response|e] s1] eqn:Ew;
      (assert (same_control s s1) as Hc by (pose proof (keeps_world (transport_push transport (Push_ storeId expected
        (map push_event (row :: rows)))) s) as Hw; unfold same_control; by rewrite Ew in Hw));
      [|injection Hr as <- <-; right; rewrite Hc; repeat constructor].
    destruct response as [head assigned|head reason missing].
    + injection Hr as <- <-. right. set (more := hasPendingEvents _ && _).
      assert (push_inFlight (pushState s1) = true) as Hf1 by (by rewrite (same_control_push s s1 Hc)).
      pose proof (attempted_delivered (control_of s1) (control_of s1) (nowMs (world s1)) more (pulls_none _)) as Ha.
      rewrite <- Hc. rewrite (deliver_control _ s1 Hf1) in Ha. by destruct more.
    + unfold mbind at 1, js_bind at 1 in Hr.
      destruct (conflict_run fuel head reason missing expected s1) as [[[u|]|e] s2] eqn:Ec.
      * destruct (only_pulls_conflict fuel head reason missing expected _ _ _ Ec) as [|Hp]; [done|].
        destruct (IH s2) as [|Ha]; [|exact Hr|by left|].
        { pose proof (pulls_push _ _ Hp) as Hq. cbn in Hq. by rewrite Hq, (same_control_push s s1 Hc). }
        right. rewrite Hc in Hp. destruct Ha; econstructor; by eapply pulls_trans.
      * left. unfold mret, js_ret in Hr. by injection Hr as <- _.
      * destruct (only_pulls_conflict fuel head reason missing expected _ _ _ Ec) as [|Hp]; [done|].
        right. injection Hr as <- <-. rewrite Hc in Hp. by constructor.
Qed.

(** What a run of [pushOnce] leaves of the engine's fields. *)
Lemma run_push_outcome fuel s s' : push_inFlight (pushState s) = false -> push_run_ fuel s = (Ok (Some tt), s') ->
  push_run (control_of s) (control_of s').
Proof.
  intros Hf Hr. unfold SyncEngine.pushOnce, gets in Hr. unfold mbind at 1, js_bind at 1 in Hr. rewrite Hf in Hr.
  unfold mbind, js_bind, modify in Hr. unfold finally, try_catch in Hr.
  set (s1 := setSyncing DirPush (push_flight true s)) in *. change (begin_push (control_of s)) with (control_of s1).
  destruct (attempts fuel maxPushRetries s1) as [r s2] eqn:E.
  destruct (attempts_control fuel maxPushRetries s1 r s2 eq_refl E) as [->|Ha]; [by simplify_eq|].
  destruct r as [o|e]; simpl in Ha.
  - injection Hr as -> <-. change (control_of (push_flight false s2)) with (end_push Exhausted (control_of s2)).
    revert Ha. generalize (control_of s2). intros c2 Ha. inversion Ha as [c1 ? Hp Hc|c1 Hp Hc|c1 now more Hp Hc]; subst.
    + by apply (push_ended (control_of s) c2 Exhausted).
    + by apply (push_ended (control_of s) c1 NothingToPush).
    + by apply (push_delivered (control_of s) c1).
  - assert (pulls (begin_push (control_of s)) (control_of s2)) as Hp by (revert Ha; generalize (control_of s2); intros c2 Ha; by inversion Ha).
    unfold push_failed in Hr.
    destruct (toSyncEngineError e _) as [err []]; simpl in Hr; unfold mbind, js_bind, modify, mret, js_ret in Hr; injection Hr as <-.
    + apply (push_ended (control_of s) _ (PushBacksOff err (random (world s2)) (nowMs (world s2))) Hp).
    + apply (push_ended (control_of s) _ (PushFails err) Hp).
Qed.
End Runs.
End RunOutcomes.

(** ** Properties *)

Module SyncLoopsProperties.
Import LoopLemmas Orderly.

Section Properties.
Variables pullWaitMs pullIntervalMs pushIntervalMs pushFallbackIntervalMs : Z.
Notation run_pusher := (run_pusher pushIntervalMs pushFallbackIntervalMs).
Notation quiet := (quiet pullWaitMs pullIntervalMs pushIntervalMs pushFallbackIntervalMs).
Notation perform := (perform pullWaitMs pullIntervalMs pushIntervalMs pushFallbackIntervalMs).
Notation perform_all := (perform_all pullWaitMs pullIntervalMs pushIntervalMs pushFallbackIntervalMs).
Notation reachable := (reachable pullWaitMs pullIntervalMs pushIntervalMs pushFallbackIntervalMs).
Notation inv := Orderly.inv.
Implicit Types s : loops.

Lemma quiet_pusher i p s : quiet s = true -> pushers s !! i = Some p -> run_pusher 0 0 p s = None.
Proof.
  intros Hq Hi. unfold SyncLoops.quiet in Hq. apply andb_true_iff in Hq as [_ Hq].
  rewrite List.forallb_forall in Hq. specialize (Hq p (proj1 (list_elem_of_In _ _) (list_elem_of_lookup_2 _ _ _ Hi))).
  by destruct (run_pusher 0 0 p s).
Qed.

Lemma settled_signals q m : m ∈ settled q \/ pullSignal q = Some m \/ pushSignal q = Some m ->
  m ∈ settled (resolvePullWaiters (signalPush (signalPull q))).
Proof. unfold signalPull, signalPush. destruct (pullSignal q) as [a|], (pushSignal q) as [b|] eqn:E; simpl; rewrite ?E; simpl; set_solver. Qed.

Lemma settled_signalPush q m : m ∈ settled q \/ pushSignal q = Some m -> m ∈ settled (signalPush q).
Proof. unfold signalPush. destruct (pushSignal q) as [b|]; simpl; set_solver. Qed.

(** Where the pull is that a push waits for in a conflict. *)
Definition pull_ahead s : Prop :=
  (exists j b, pullers s !! j = Some (PullFlight b)) \/ (exists j b, pushers s !! j = Some (PushPulls b)) \/
  (exists j t, pullers s !! j = Some (PullSleeps t)) \/ starting s <> 0.

Lemma awaited_pull i b n s : inv s -> quiet s = true -> is_running s = true -> pushers s !! i = Some (PushAwaits b n) ->
  pull_ahead s.
Proof.
  intros Hs Hq Hr Hi. pose proof (quiet_pusher i _ s Hq Hi) as Hn. simpl in Hn. unfold is_settled in Hn.
  case_bool_decide as Hset; [done|].
  assert (in_flight s = true -> pull_ahead s) as Hfl by (intros [?|?]%(inv_own s Hs); [by left|by right; left]).
  destruct (inv_await s Hs i b n Hi) as [?|[Hw|Hf]]; [done| |apply Hfl, (inv_flight s Hs); by eexists].
  assert (waiters (l_promises s) <> []) as Hne by (intros E; rewrite E in Hw; by apply elem_of_nil in Hw).
  destruct (inv_served s Hs Hr Hne) as [?|[E|(j & p & Hj & Hp)]]; [by apply Hfl|right; right; right; lia|].
  pose proof (quiet_puller pullWaitMs pullIntervalMs pushIntervalMs pushFallbackIntervalMs j p s Hq Hj) as Hqp.
  destruct p as [| |[]| | | |]; simpl in *; try done; unfold is_settled in *; try (by rewrite bool_decide_true in Hqp).
  - left. eauto.
  - right. right. left. eauto.
Qed.

(** C36: No signal is missed. As long as a start waits for the loops of the last one, and
    whatever else happens (calls from outside at any time, aborted runs, stops), there is
    never a second pull loop or push loop. Where a loop waits for a signal, alone or against
    a timer, [stop] settles the promise it waits for, and so does [requestPush] for the push
    loop; a loop that sleeps out a backoff listens to its timer only, and is not meant here.
    A push that waits in a conflict while the engine runs waits for a pull that is in flight
    (the loop's, one from outside or another push's), or for one that the pull loop makes:
    when its backoff is over, or once the start is answered. *)
Theorem signals_heard s : reachable s ->
  (forall i j p p', pullers s !! i = Some p -> pullers s !! j = Some p' ->
    live_puller p = true -> live_puller p' = true -> i = j) /\
  (forall i j p p', pushers s !! i = Some p -> pushers s !! j = Some p' ->
    live_pusher p = true -> live_pusher p' = true -> i = j) /\
  (forall i p n, pullers s !! i = Some p -> pull_wait p = Some n -> is_settled n (stop s) = true) /\
  (forall i p n, pushers s !! i = Some p -> push_wait p = Some n ->
    is_settled n (stop s) = true /\ is_settled n (requestPush s) = true) /\
  (quiet s = true -> is_running s = true -> forall i b n, pushers s !! i = Some (PushAwaits b n) -> pull_ahead s).
Proof.
  intros Hs%reachable_loops_inv. split_and!.
  - apply (inv_one_pull s Hs).
  - apply (inv_one_push s Hs).
  - intros i p n Hi Hp. apply bool_decide_eq_true, settled_signals. destruct (inv_hear_pull s Hs i p n Hi Hp); auto.
  - intros i p n Hi Hp. pose proof (inv_hear_push s Hs i p n Hi Hp) as Hh. split; apply bool_decide_eq_true.
    + apply settled_signals. destruct Hh; auto.
    + by apply settled_signalPush.
  - intros Hq Hr i b n. by apply awaited_pull.
Qed.

(** C37: A page can hang. When the engine is stopped and started again while the pull loop
    sleeps out a backoff, nothing wakes that loop; when it wakes up by itself and the new
    loop's pull is in flight (or one from outside), it comes round for ever without waiting,
    because a long poll leaves no delay between pulls: whatever continuations are run, one
    is always left, so that no timer, no message and no answer, not even that of the pull,
    is ever handled. The statement begins where the loop wakes up and such a pull is in
    flight; that a stop and a start lead there is shown by the witness. *)
Theorem page_hangs i b j t now s s1 l s' : (0 < pullWaitMs)%Z ->
  c_running (l_control s) = true -> fatal (c_status (l_control s)) = false ->
  pullers s !! i = Some (PullFlight b) -> pull_inFlight (c_pull (l_control s)) = true ->
  pullers s !! j = Some (PullSleeps t) -> over now (pull_notBeforeMs (c_pull (l_control s))) ->
  perform (Event (PullWakes j now)) s = Some s1 ->
  Forall (late now) l -> perform_all l s1 = Some s' ->
  Forall continuation l /\ quiet s' = false /\ pullers s' !! i = Some (PullFlight b).
Proof.
  intros Hw Hr Hf Hi Hfl Hj Ho Hp Hl Hall. simpl in Hp. destruct (quiet s); [|done]. rewrite Hj in Hp. case_match; simplify_eq.
  assert (spinning now i b j (set_puller j PullTop s)) as Hs.
  { split; try done; simpl; [|left; by apply list_lookup_insert_eq, (lookup_lt_Some _ _ _ Hj)].
    rewrite list_lookup_insert_ne; [done|]. intros ->. congruence. }
  destruct (spinning_forever pullWaitMs pullIntervalMs pushIntervalMs pushFallbackIntervalMs now i b j l _ s' Hw Hl Hs Hall) as [Hc Hs'].
  split_and!; [done|by eapply spinning_not_quiet|by destruct Hs'].
Qed.

(** A pull that was refused is given up. Once the pull loop waits for a signal, as it
    does after an error without a retry (an expired session, say), it waits through
    everything but a stop or a push conflict that asks for a pull: pushes that succeed
    afterwards set the status to idle again, but no pull is made. *)
Theorem pull_given_up k n l s s' : pullers s !! k = Some (PullParked n) -> unheard n (l_promises s) ->
  Forall (fun x => signals_pull x = false) l -> perform_all l s = Some s' ->
  pullers s' !! k = Some (PullParked n) /\ is_settled n s' = false.
Proof.
  intros Hk Hn Hl Hp. assert (given_up k n s') as [Hk' Hn'] by (eapply given_up_forever; [exact Hl|exact Hp|by split]).
  split; [done|]. apply bool_decide_eq_false, Hn'.
Qed.
End Properties.
End SyncLoopsProperties.

(** ** Witnesses *)

Module SyncLoopsWitnesses.
Import LoopLemmas Orderly SyncLoopsProperties.

(** The intervals of [SyncEngine.ts]. *)
Notation perform := (perform 20000 1000 2000 60000).
Notation perform_all := (perform_all 20000 1000 2000 60000).
Notation quiet := (quiet 20000 1000 2000 60000).

Definition offline_ : SyncError := SyncErr network "Sync pull failed".
Definition expired : SyncError := SyncErr auth "Sync unauthorized".

(** Both loops of the [k]th start run up to their first calls of the server. *)
Definition begins (k : nat) (now : Z) : list label :=
  [Event Start; Event Started; RunPuller k now now; RunPusher k now now; RunPusher k now now].

(** The server cannot be reached; nothing is to be pushed; the user resets. *)
Definition restarted : list label :=
  begins 0 0 ++
  [Event (PullEnds 0 (PullBacksOff offline_ (2 ^ 52) 0)); RunPuller 0 0 0;
   Event (PushEnds 0 NothingToPush); RunPusher 0 0 0;
   Event Stop; RunPusher 0 0 0; RunPusher 0 0 0; Event ResetSyncState] ++
  begins 1 500.

Definition after (l : list label) : loops := default new_loops (perform_all l new_loops).
Definition hanging : loops := after restarted.
Definition woken : loops := after (restarted ++ [Event (PullWakes 0 1000)]).
(** Three turns of the old loop. *)
Definition turns : list label := replicate 6 (RunPuller 0 1000 1000) ++ [RunPuller 0 1001 1001].

Lemma page_hangs_witness :
  (pullers hanging !! 1 = Some (PullFlight true) /\ perform (Event (PullWakes 0 1000)) hanging = Some woken /\
   is_Some (perform_all turns woken)) /\
  Forall continuation turns /\ quiet (default woken (perform_all turns woken)) = false /\
  pullers (default woken (perform_all turns woken)) !! 1 = Some (PullFlight true).
Proof.
  split; [split_and!; [vm_compute; reflexivity..|eexists; vm_compute; reflexivity]|].
  apply (page_hangs 20000 1000 2000 60000 1 true 0 1000 1000 hanging woken turns (default woken (perform_all turns woken)));
    [done|vm_compute; reflexivity..| |vm_compute; reflexivity| |vm_compute; reflexivity].
  - intros t. vm_compute. by intros [=].
  - repeat constructor; simpl; lia.
Defined.

(** The session has expired when the first pull is made, and is good again
    afterwards: two pushes succeed. *)
Definition refused : list label :=
  begins 0 0 ++ [Event (PullEnds 0 (PullFails expired)); RunPuller 0 0 0;
    Event (PushDelivers 0 10); Event (PushAnswered 0 false); RunPusher 0 10 10].
Definition pushed_again : list label :=
  [Event TableChanged; Event TimerFires; RunPusher 0 200 200; RunPusher 0 200 200;
   Event (PushDelivers 0 300); Event (PushAnswered 0 false); RunPusher 0 300 300].
Definition idle_again : loops := after (refused ++ pushed_again).

Lemma pull_given_up_witness :
  (perform_all pushed_again (after refused) = Some idle_again /\ c_status (l_control idle_again) = Idle (Some 300%Z) None /\
   quiet idle_again = true) /\
  pullers idle_again !! 0 = Some (PullParked 1) /\ is_settled 1 idle_again = false.
Proof.
  split; [split_and!; vm_compute; reflexivity|].
  apply (pull_given_up 20000 1000 2000 60000 0 1 pushed_again (after refused) idle_again); [vm_compute; reflexivity| | |vm_compute; reflexivity].
  - split; apply (bool_decide_unpack _); vm_compute; exact I.
  - by repeat constructor.
Defined.

(** A conflict without events, while the pull loop is asleep, once a pull and
    a push from outside have gone through beside the loops. *)
Definition conflicting : list label :=
  begins 0 0 ++
  [Event (PushEnds 0 NothingToPush); RunPusher 0 0 0; Event OutsidePull; Event OutsidePush; Event (PushDelivers 1 0);
   Event (PushAnswered 1 false);
   Event (PullEnds 0 (PullBacksOff offline_ (2 ^ 52) 0)); RunPuller 0 0 0; Event OutsidePull;
   Event (PullEnds 1 (PullBacksOff offline_ (2 ^ 52) 0)); Event OutsidePush; Event (PushConflict 2)].

Fixpoint orderly_all (l : list label) (s : loops) : bool :=
  match l with
  | [] => true
  | x :: l' => orderly x s && match perform x s with Some s' => orderly_all l' s' | None => false end
  end.

Lemma orderly_reachable l s s' : reachable 20000 1000 2000 60000 s -> orderly_all l s = true -> perform_all l s = Some s' ->
  reachable 20000 1000 2000 60000 s'.
Proof.
  revert s. induction l as [|x l IH]; intros s Hs Ho Hp; simpl in *; [by simplify_eq|].
  apply andb_true_iff in Ho as [Hx Ho]. destruct (perform x s) as [s1|] eqn:E; [|done]. simpl in Hp.
  eapply IH; [by eapply reachable_step|done|done].
Qed.

Lemma signals_heard_witness :
  (pushers (after conflicting) !! 2 = Some (PushAwaits false 3) /\ waiters (l_promises (after conflicting)) = [3]) /\
  pull_ahead (after conflicting).
Proof.
  split; [split; vm_compute; reflexivity|].
  assert (reachable 20000 1000 2000 60000 (after conflicting)) as Hr
    by (eapply (orderly_reachable conflicting new_loops); [constructor|vm_compute; reflexivity..]).
  destruct (signals_heard 20000 1000 2000 60000 _ Hr) as (_ & _ & _ & _ & H).
  by apply (H ltac:(vm_compute; reflexivity) ltac:(vm_compute; reflexivity) 2 false 3 ltac:(vm_compute; reflexivity)).
Defined.
End SyncLoopsWitnesses.
