(* ===== verification/KeyStore.v ===== *)
(** * The key store of a device and the commands of its user

    [packages/infrastructure/src/crypto/IndexedDBKeyStore.ts]: identity keys and
    aggregate keys, each encrypted with the master key, and the backup of both;
    [packages/application/src/identity]: the commands that register a user and
    import a backup ([UserCommandHandler.ts], [commands]), with their validation.

    The store's aggregate keys are those of [Application.device]; the identity
    keys are a list ordered by user, as IndexedDB gives it.  Requests to
    IndexedDB succeed.  [getAll] and [Object.entries] give the aggregate keys in
    the order of the map, which decides only which of several errors is thrown.

    The theorems: a backup restores the keys on any device; and a backup that is
    accepted by the command and refused by the store has emptied the store. *)

From Stdlib Require Import Ascii.
From S2P Require Import Prelude JsValues JsonText Base64Url ValueObjects Dates Crypto RecordCodec LocalDb Application.

(** ** Keys and backups *)

Record IdentityKeys : Type := Identity {
  signingPrivateKey : list Z;
  signingPublicKey : list Z;
  encryptionPrivateKey : list Z;
  encryptionPublicKey : list Z
}.

(** [Record<string, Uint8Array>] as a map. *)
Record KeyBackup : Type := Backup {
  bk_userId : option string;
  bk_identityKeys : option IdentityKeys;
  bk_aggregateKeys : option (gmap string (list Z))
}.

Record key_store : Type := KeyStore {
  ks_device : device;
  identity_keys : list (string * list Z)
}.

Module IndexedDBKeyStore.
Notation run := (js key_store app_error).

Definition encodeBase64 (data : list Z) : string := of_chars (btoa data).
Definition decodeBase64 (data : string) : result app_error (list Z) := lift_error (atob (chars data)).

(** The text [atob] makes of its argument. *)
Fixpoint js_text (v : json) : string :=
  match v with
  | JNull => "null"
  | JBool b => if b then "true" else "false"
  | JNum n => of_chars (print_number n)
  | JStr s => s
  | JArr l => String.concat "," (map (fun x => match x with JNull => "" | _ => js_text x end) l)
  | JObj _ => "[object Object]"
  end.

(** [parsed.k], as [atob]'s argument. *)
Definition property (k : string) (parsed : json) : result app_error string :=
  match parsed with
  | JObj fields => Ok (match assoc k fields with Some v => js_text v | None => "undefined" end)
  | JNull => Err (plain "Cannot read properties of null")
  | _ => Ok "undefined"
  end.

(** The payload of an identity record. *)
Definition identity_payload (keys : IdentityKeys) : json := JObj [
  ("signingPrivateKey", JStr (encodeBase64 (signingPrivateKey keys)));
  ("signingPublicKey", JStr (encodeBase64 (signingPublicKey keys)));
  ("encryptionPrivateKey", JStr (encodeBase64 (encryptionPrivateKey keys)));
  ("encryptionPublicKey", JStr (encodeBase64 (encryptionPublicKey keys)))].

Definition parse_identity (decrypted : list Z) : result app_error IdentityKeys :=
  match utf8_decode decrypted ≫= JSON_parse with
  | None => Err (plain "Unexpected token in JSON")
  | Some parsed =>
      let decode k := s ← property k parsed; decodeBase64 s in
      a ← decode "signingPrivateKey";
      b ← decode "signingPublicKey";
      c ← decode "encryptionPrivateKey";
      d ← decode "encryptionPublicKey";
      Ok (Identity a b c d)
  end.

(** [store.put({ userId, blob })], in the order of the keys. *)
Fixpoint put_record (u : string) (blob : list Z) (l : list (string * list Z)) : list (string * list Z) :=
  match l with
  | [] => [(u, blob)]
  | (v, b) :: l' =>
      match String.compare u v with
      | Lt => (u, blob) :: l
      | Eq => (u, blob) :: l'
      | Gt => (v, b) :: put_record u blob l'
      end
  end.

Section Operations.
Context `{CryptoServicePort}.

Definition on_keys {A} (m : app A) : run A := fun w =>
  let '(r, d) := m (ks_device w) in (r, KeyStore d (identity_keys w)).

(** [if (!this.masterKey) throw new Error('Master key not set')] *)
Definition with_master {A} (k : list Z -> run A) : run A := fun w =>
  match getMasterKey (ks_device w) with Some mk => k mk w | None => (no_master_key, w) end.

Definition setMasterKey (key : list Z) : run unit := modify (fun w =>
  let d := ks_device w in
  KeyStore (Device (db d) (idempotency_keys d) (Some key) (aggregate_keys d) (keyrings d) (epochKeys d) (ivs d) (fresh_keys d))
    (identity_keys w)).

Definition saveIdentityKeys (userId : string) (keys : IdentityKeys) : run unit :=
  with_master (fun mk =>
    encrypted ← on_keys (encrypt_fresh (utf8_encode (JSON_stringify (identity_payload keys))) mk None);
    modify (fun w => KeyStore (ks_device w) (put_record userId encrypted (identity_keys w)))).

Definition open_identity (mk blob : list Z) : result app_error IdentityKeys :=
  decrypted ← lift_error (decrypt blob mk None);
  parse_identity decrypted.

Definition getIdentityKeys (userId : string) : run (option IdentityKeys) :=
  with_master (fun mk => reads (fun w =>
    match assoc userId (identity_keys w) with
    | None => Ok None
    | Some blob => Some <$> open_identity mk blob
    end)).

(** The aggregate keys of a backup; the master key is looked at for each. *)
Fixpoint export_aggregates (master : option (list Z)) (l : list (string * list Z)) : result app_error (gmap string (list Z)) :=
  match l with
  | [] => Ok ∅
  | (i, blob) :: l' =>
      match master with
      | None => no_master_key
      | Some mk =>
          k ← lift_error (decrypt blob mk None);
          rest ← export_aggregates master l';
          Ok (<[i := k]> rest)
      end
  end.

(** Of the identities, the first. *)
Definition export (w : key_store) : result app_error KeyBackup :=
  let master := getMasterKey (ks_device w) in
  aggregateKeys ← export_aggregates master (map_to_list (aggregate_keys (ks_device w)));
  match identity_keys w with
  | [] => Ok (Backup None None (Some aggregateKeys))
  | (userId, blob) :: _ =>
      match master with
      | None => no_master_key
      | Some mk => keys ← open_identity mk blob; Ok (Backup (Some userId) (Some keys) (Some aggregateKeys))
      end
  end.
Definition exportKeys : run KeyBackup := reads export.

Definition clearAll : run unit := modify (fun w => KeyStore (set_aggregate_keys ∅ (ks_device w)) []).

(** [Promise.all]: every key is saved, the first failure is thrown. *)
Fixpoint save_all (l : list (string * list Z)) : run unit := fun w =>
  match l with
  | [] => (Ok tt, w)
  | (i, k) :: l' =>
      let '(r, w1) := on_keys (saveAggregateKey i k) w in
      let '(r', w2) := save_all l' w1 in
      (match r with Ok _ => r' | Err e => Err e end, w2)
  end.

Definition is_blank (u : option string) : bool :=
  match u with None => true | Some s => (strlen (trim s) =? 0)%Z end.

Definition import_identity (b : KeyBackup) : run unit :=
  match bk_identityKeys b with
  | None => skip
  | Some keys =>
      if is_blank (bk_userId b) then throw (plain "Backup missing userId")
      else saveIdentityKeys (default "" (bk_userId b)) keys
  end.

Definition importKeys (b : KeyBackup) : run unit :=
  _ ← clearAll;
  _ ← import_identity b;
  match bk_aggregateKeys b with
  | None => throw (plain "Cannot convert undefined or null to object")
  | Some keys => save_all (map_to_list keys)
  end.
End Operations.
End IndexedDBKeyStore.

(** ** Commands of the user *)

Module UserCommands.
Import IndexedDBKeyStore.

(** [CommandResult<T>] *)
Notation CommandResult := (result (list ValidationError)).

(** A validator gives a value or nothing, and adds its errors. *)
Definition validator (A : Type) : Type := list ValidationError -> option A * list ValidationError.

Definition safeConvert {A} (r : result error A) (field : string) : validator A := fun errors =>
  match r with
  | Ok a => (Some a, errors)
  | Err e => (None, errors ++ [FieldError field (error_message e)])
  end.

Definition validateTimestamp (timestamp : number) (field : string) : validator number := fun errors =>
  if isFinite timestamp then (Some timestamp, errors)
  else (None, errors ++ [FieldError field "Timestamp must be a finite number"]).

(** A value that should be a [Uint8Array]; [None] when it is none. *)
Definition bytes_value : Type := option (list Z).
Definition non_empty_bytes (v : bytes_value) : bool := match v with Some (_ :: _) => true | _ => false end.

Definition validateBytes (v : bytes_value) (field : string) : validator (list Z) := fun errors =>
  if non_empty_bytes v then (v, errors)
  else (None, errors ++ [FieldError field "Value must be a non-empty byte array"]).

Record RegisterUserCommand : Type := RegisterUser {
  ru_actorId : string;
  ru_signingPublicKey : bytes_value;
  ru_encryptionPublicKey : bytes_value;
  ru_timestamp : number
}.
Record ValidatedRegisterUserCommand : Type := ValidRegisterUser {
  vr_actorId : UserId;
  vr_signingPublicKey : list Z;
  vr_encryptionPublicKey : list Z;
  vr_timestamp : number
}.

(** [!timestamp] is true of 0 and of [null]. *)
Definition truthy (t : option number) : option number :=
  match t with Some n => if num_eq n (num 0) then None else Some n | None => None end.

Definition validateRegisterUserCommand (c : RegisterUserCommand) : CommandResult ValidatedRegisterUserCommand :=
  let '(actorId, errors) := safeConvert (vo_new (ru_actorId c)) "actorId" [] in
  let '(signing, errors) := validateBytes (ru_signingPublicKey c) "signingPublicKey" errors in
  let '(encryption, errors) := validateBytes (ru_encryptionPublicKey c) "encryptionPublicKey" errors in
  let '(timestamp, errors) := validateTimestamp (ru_timestamp c) "timestamp" errors in
  match errors, actorId, signing, encryption, truthy timestamp with
  | [], Some a, Some s, Some e, Some t => Ok (ValidRegisterUser a s e t)
  | _, _, _, _, _ => Err errors
  end.

(** The backup of the command, before its fields are known to be bytes. *)
Record raw_identity : Type := RawIdentity {
  raw_signingPrivateKey : bytes_value;
  raw_signingPublicKey : bytes_value;
  raw_encryptionPrivateKey : bytes_value;
  raw_encryptionPublicKey : bytes_value
}.
Record raw_backup : Type := RawBackup {
  raw_userId : option string;
  raw_identityKeys : option raw_identity;
  raw_aggregateKeys : option (list (string * bytes_value))
}.

Definition identity_fields (i : raw_identity) : list (string * bytes_value) :=
  [("signingPrivateKey", raw_signingPrivateKey i); ("signingPublicKey", raw_signingPublicKey i);
   ("encryptionPrivateKey", raw_encryptionPrivateKey i); ("encryptionPublicKey", raw_encryptionPublicKey i)].

Definition byte_errors (prefix message : string) (l : list (string * bytes_value)) : list ValidationError :=
  omap (fun '(name, v) => if non_empty_bytes v then None else Some (FieldError (prefix +:+ name) message)) l.

(** The backup as the key store takes it. *)
Definition bytes_of (v : bytes_value) : list Z := default [] v.
Definition typed_backup (b : raw_backup) : KeyBackup := Backup (raw_userId b)
  ((fun i => Identity (bytes_of (raw_signingPrivateKey i)) (bytes_of (raw_signingPublicKey i))
     (bytes_of (raw_encryptionPrivateKey i)) (bytes_of (raw_encryptionPublicKey i))) <$> raw_identityKeys b)
  (list_to_map ∘ map (prod_map Datatypes.id bytes_of) <$> raw_aggregateKeys b).

(** [None]: the backup is missing, or no object. *)
Definition validateBackup (backup : option raw_backup) (field : string) : validator raw_backup := fun errors =>
  match backup with
  | None => (None, errors ++ [FieldError field "Backup is required"])
  | Some b =>
      match raw_identityKeys b with
      | None => (None, errors ++ [FieldError field "Identity keys missing"])
      | Some i =>
          let errors := errors ++ byte_errors (field +:+ ".") "Value must be a non-empty byte array" (identity_fields i)
            ++ byte_errors (field +:+ ".aggregateKeys.") "Aggregate key must be a non-empty byte array"
                 (default [] (raw_aggregateKeys b)) in
          (if existsb (fun e => String.prefix field (ve_field e)) errors then None else Some b, errors)
      end
  end.

Record ImportUserKeysCommand : Type := ImportUserKeys {
  iu_actorId : string;
  iu_backup : option raw_backup;
  iu_timestamp : number
}.
Record ValidatedImportUserKeysCommand : Type := ValidImportUserKeys {
  vi_actorId : UserId;
  vi_backup : raw_backup;
  vi_timestamp : number
}.

Definition validateImportUserKeysCommand (c : ImportUserKeysCommand) : CommandResult ValidatedImportUserKeysCommand :=
  let '(actorId, errors) := safeConvert (vo_new (iu_actorId c)) "actorId" [] in
  let '(backup, errors) := validateBackup (iu_backup c) "backup" errors in
  let '(timestamp, errors) := validateTimestamp (iu_timestamp c) "timestamp" errors in
  match errors, actorId, backup, truthy timestamp with
  | [], Some a, Some b, Some t => Ok (ValidImportUserKeys a b t)
  | _, _, _, _ => Err errors
  end.

(** [UserRegistered]: the aggregate and the actor are the user. *)
Record UserRegistered : Type := UserRegistered_ {
  ur_userId : UserId;
  ur_registeredAt : Timestamp.t;
  ur_eventId : EventId
}.

Definition handleRegister {W} (publish : list UserRegistered -> js W app_error unit) (eventId : EventId)
    (c : ValidatedRegisterUserCommand) : js W app_error string :=
  registeredAt ← lift_result (lift_error (Timestamp.fromMillis (vr_timestamp c)));
  _ ← publish [UserRegistered_ (vr_actorId c) registeredAt eventId];
  mret (value (vr_actorId c)).

Definition handleImportKeys `{CryptoServicePort} (c : ValidatedImportUserKeysCommand) : run string :=
  _ ← importKeys (typed_backup (vi_backup c));
  mret (value (vi_actorId c)).
End UserCommands.

(** ** Properties *)

Module KeyBackupProperties.
Import IndexedDBKeyStore Base64UrlProperties ApplicationLemmas RecordCodecProperties.

Lemma base64_value_sextet c v : base64_value c = Some v -> sextet v.
Proof.
  unfold base64_value, in_range, sextet. intros H. repeat case_match; simplify_eq; lia.
Qed.

(** Digits give bytes. *)
Lemma decode_digits_bytes l : Forall sextet l -> forall b, decode_digits l = Some b -> Forall byte b.
Proof.
  remember (length l) as n eqn:En. assert (length l <= n) as Hn by lia. clear En. revert l Hn.
  induction n as [|n IH]; intros [|a [|b [|c [|d l]]]] Hn Hl k Hk; simpl in Hn, Hk; simplify_eq; try lia;
    try apply Forall_nil_2;
    repeat match goal with H : Forall sextet (_ :: _) |- _ => apply Forall_cons in H as [? H] end; unfold sextet, byte in *.
  - repeat (apply Forall_cons; split; [Z.to_euclidean_division_equations; lia|]). apply Forall_nil_2.
  - repeat (apply Forall_cons; split; [Z.to_euclidean_division_equations; lia|]). apply Forall_nil_2.
  - destruct (decode_digits l) as [r|] eqn:E; simplify_eq/=.
    repeat (apply Forall_cons; split; [Z.to_euclidean_division_equations; lia|]). by apply (IH l); [lia| |].
Qed.

Lemma decodeBase64_bytes s b : decodeBase64 s = Ok b -> Forall byte b.
Proof.
  unfold decodeBase64, atob. intros H. destruct (mapM base64_value _) as [ds|] eqn:E; simplify_eq/=.
  destruct (decode_digits ds) as [r|] eqn:Ed; simplify_eq/=. eapply decode_digits_bytes; [|exact Ed].
  apply mapM_Some in E. clear -E. induction E as [|c v l k Hv _ IH]; [done|].
  apply Forall_cons. split; [by eapply base64_value_sextet|done].
Qed.

(** [decodeBase64] undoes [encodeBase64]. *)
Lemma decode64_encode64 l : Forall byte l -> decodeBase64 (encodeBase64 l) = Ok l.
Proof.
  intros H. pose proof (digits_of _ (sextets_ok l H)) as Hd.
  destruct (sextets_padding l) as (k & Hk & Hle & _).
  unfold decodeBase64, encodeBase64, atob. rewrite chars_of_chars, btoa_sextets.
  unfold padding in *. rewrite length_replicate in *. rewrite filter_digits by done.
  rewrite (strip_padding_digits _ _ k); [|eapply Forall_impl; [exact Hd|]; by intros c (_ & ? & _)|done|
    rewrite length_map; done].
  rewrite mapM_digits by (by apply sextets_ok). simpl. by rewrite decode_sextets.
Qed.

Lemma decode_property_bytes k v b : (s ← property k v; decodeBase64 s) = Ok b -> Forall byte b.
Proof. destruct (property k v) as [s|]; [apply decodeBase64_bytes|done]. Qed.

Definition identity_bytes (k : IdentityKeys) : Prop :=
  Forall byte (signingPrivateKey k) /\ Forall byte (signingPublicKey k) /\
  Forall byte (encryptionPrivateKey k) /\ Forall byte (encryptionPublicKey k).

Lemma payload_roundtrip k : identity_bytes k ->
  parse_identity (utf8_encode (JSON_stringify (identity_payload k))) = Ok k.
Proof.
  intros (H1 & H2 & H3 & H4). unfold parse_identity. rewrite decode_utf8_json by done.
  cbn [identity_payload property assoc]. simpl. by rewrite !decode64_encode64 by done; destruct k.
Qed.

Lemma payload_nonempty k : utf8_encode (JSON_stringify (identity_payload k)) <> [].
Proof.
  intros H. pose proof (decode_utf8_json (identity_payload k) eq_refl) as Hp. rewrite H in Hp.
  vm_compute in Hp. discriminate.
Qed.

(** What was read off an identity record are bytes. *)
Lemma parse_identity_bytes p k : parse_identity p = Ok k -> identity_bytes k.
Proof.
  unfold parse_identity. intros H. destruct (utf8_decode p ≫= JSON_parse) as [v|]; [|done].
  repeat match type of H with (?r ≫= _) = Ok _ =>
    let E := fresh in destruct r eqn:E; simpl in H; [|done]
  end. injection H as <-.
  unfold identity_bytes. simpl. split_and!; by eapply decode_property_bytes.
Qed.

Import UserCommands.

Lemma byte_errors_nil prefix msg l :
  byte_errors prefix msg l = [] <-> forall n v, (n, v) ∈ l -> non_empty_bytes v = true.
Proof.
  unfold byte_errors. induction l as [|[n v] l IH]; simpl.
  { split; [intros _ n v Hv; by apply not_elem_of_nil in Hv|done]. }
  destruct (non_empty_bytes v) eqn:E.
  - rewrite IH. split; intros Hl m u; [rewrite elem_of_cons; intros [[= -> ->]|]; eauto|].
    intros Hm. apply (Hl m). by right.
  - split; [done|]. intros Hl. by rewrite (Hl n v) in E by left.
Qed.

Definition byte_fields (b : raw_backup) (i : raw_identity) : list (string * bytes_value) :=
  identity_fields i ++ default [] (raw_aggregateKeys b).

Lemma validateBackup_clean backup field errors r :
  validateBackup backup field errors = (r, []) <->
  errors = [] /\ exists b i, backup = Some b /\ r = Some b /\ raw_identityKeys b = Some i /\
    forall n k, (n, k) ∈ byte_fields b i -> non_empty_bytes k = true.
Proof.
  assert (forall e : ValidationError, errors ++ [e] = [] -> False) as Hne
    by (intros e E; by apply (app_cons_not_nil errors [] e)).
  unfold validateBackup, byte_fields. destruct backup as [b|].
  2: { split; [intros [= _ E]; by apply Hne in E|by intros (_ & ? & ? & ? & _)]. }
  destruct (raw_identityKeys b) as [i|] eqn:Ei.
  2: { split; [intros [= _ E]; by apply Hne in E|intros (_ & b' & i & ? & _ & ? & _); congruence]. }
  split.
  - intros E. apply pair_equal_spec in E as [Hr E]. apply app_nil in E as [-> E]. rewrite E in Hr.
    apply app_nil in E as [E1 E2]. split; [done|]. exists b, i. split_and!; try done.
    intros n k [Hk|Hk]%elem_of_app; [by apply (proj1 (byte_errors_nil _ _ _) E1 n)|
      by apply (proj1 (byte_errors_nil _ _ _) E2 n)].
  - intros (-> & b' & i' & Hb & -> & Hi & Hk). simplify_eq.
    rewrite !(proj2 (byte_errors_nil _ _ _)); [done|intros n k H; apply (Hk n); apply elem_of_app; by right|
      intros n k H; apply (Hk n); apply elem_of_app; by left].
Qed.

(** What the command of an import must hold. *)
Lemma import_command_accepts c v :
  validateImportUserKeysCommand c = Ok v <->
  exists a i, iu_backup c = Some (vi_backup v) /\ raw_identityKeys (vi_backup v) = Some i /\
    vo_new (iu_actorId c) = Ok a /\ v = ValidImportUserKeys a (vi_backup v) (iu_timestamp c) /\
    (forall n k, (n, k) ∈ byte_fields (vi_backup v) i -> non_empty_bytes k = true) /\
    isFinite (iu_timestamp c) = true /\ num_eq (iu_timestamp c) (num 0) = false.
Proof.
  unfold validateImportUserKeysCommand. split.
  - intros H. destruct (safeConvert _ _ []) as [a e1] eqn:E1.
    destruct (validateBackup _ _ e1) as [b e2] eqn:E2. unfold validateTimestamp, truthy in H.
    destruct (isFinite (iu_timestamp c)); [|by destruct e2; simplify_eq/=].
    destruct e2; [|done]. apply validateBackup_clean in E2 as (-> & b' & i & Hb & -> & Hi & Hk).
    unfold safeConvert in E1. destruct (vo_new (iu_actorId c)) as [a'|] eqn:Ea; simplify_eq/=.
    destruct (num_eq _ _); simplify_eq/=. by exists a', i.
  - intros (a & i & Hb & Hi & Ha & Hv & Hk & Hf & Hz). unfold safeConvert. rewrite Ha.
    rewrite (proj2 (validateBackup_clean (iu_backup c) "backup" [] (Some (vi_backup v)))).
    + unfold validateTimestamp, truthy. rewrite Hf, Hz. by rewrite Hv at 2.
    + split; [done|]. by exists (vi_backup v), i.
Qed.

Section Backup.
Context `{CryptoServicePort}.

(** The master key seals whatever is not empty (AES-GCM with a key of the right length). *)
Definition seals (mk : list Z) : Prop := forall iv p, length iv = IV_LENGTH -> p <> [] -> exists c, encrypt iv p mk None = Ok c.

(** The records [m], opened with the master key, are the keys [am]. *)
Definition opened (mk : list Z) (m am : gmap string (list Z)) : Prop :=
  forall i, option_Forall2 (fun blob k => decrypt blob mk None = Ok k) (m !! i) (am !! i).

Lemma option_det {A B} (R : A -> B -> Prop) o x y :
  (forall a b c, R a b -> R a c -> b = c) -> option_Forall2 R o x -> option_Forall2 R o y -> x = y.
Proof. intros HR Hx Hy. inversion Hx; subst; inversion Hy; subst; [f_equal; eauto|done]. Qed.

Lemma opened_unique mk m a b : opened mk m a -> opened mk m b -> a = b.
Proof.
  intros Ha Hb. apply map_eq. intros i. eapply option_det; [|apply Ha|apply Hb]. simpl. intros ???. congruence.
Qed.

Lemma export_list_opened mk l am : export_aggregates (Some mk) l = Ok am -> opened mk (list_to_map l) am.
Proof.
  revert am. induction l as [|[i blob] l IH]; intros am Hl; simpl in Hl.
  { simplify_eq. intros i. rewrite !lookup_empty. constructor. }
  destruct (decrypt blob mk None) as [k|] eqn:Ek; simpl in Hl; [|done].
  destruct (export_aggregates (Some mk) l) as [rest|] eqn:Er; simpl in Hl; [|done]. simplify_eq.
  intros j. simpl. destruct (decide (i = j)) as [->|Hj].
  - rewrite !lookup_insert_eq. by constructor.
  - rewrite !lookup_insert_ne by done. by apply IH.
Qed.

Lemma export_list_total mk l :
  (forall i blob, (i, blob) ∈ l -> exists k, decrypt blob mk None = Ok k) ->
  exists am, export_aggregates (Some mk) l = Ok am.
Proof.
  induction l as [|[i blob] l IH]; intros Hl; [by eexists|]. simpl.
  destruct (Hl i blob) as [k ->]; [by left|]. simpl.
  destruct IH as [am ->]; [intros j b Hj; apply (Hl j); by right|]. by eexists.
Qed.

Lemma export_opened mk m am : export_aggregates (Some mk) (map_to_list m) = Ok am <-> opened mk m am.
Proof.
  split.
  - intros Hl%export_list_opened. by rewrite list_to_map_to_list in Hl.
  - intros Ho. destruct (export_list_total mk (map_to_list m)) as [a Ha].
    { intros i blob Hi%elem_of_map_to_list. specialize (Ho i). rewrite Hi in Ho. inversion Ho; eauto. }
    rewrite Ha. f_equal. apply (opened_unique mk m); [|done].
    apply export_list_opened in Ha. by rewrite list_to_map_to_list in Ha.
Qed.

Lemma stored_key_opened mk d am i : masterKey d = Some mk -> opened mk (aggregate_keys d) am -> stored_key i d = Ok (am !! i).
Proof.
  intros Hm Ho. unfold stored_key. rewrite Hm. specialize (Ho i). inversion Ho as [blob k Hd E1 E2|E1 E2]; [|done].
  by rewrite Hd.
Qed.

(** A device whose master key seals and whose random source gives vectors of the right length. *)
Definition ready (mk : list Z) (d : device) : Prop := masterKey d = Some mk /\ seals mk /\ entropy_ok d.

Lemma save_one_ready i k mk w : ready mk (ks_device w) -> k <> [] ->
  exists blob d, on_keys (saveAggregateKey i k) w = (Ok tt, KeyStore d (identity_keys w)) /\ ready mk d /\
    aggregate_keys d = <[i := blob]> (aggregate_keys (ks_device w)) /\ decrypt blob mk None = Ok k.
Proof.
  intros (Hm & Hs & He) Hk. destruct (Hs (ivs (ks_device w) 0) k (proj1 (He 0)) Hk) as [c Hc].
  exists c, (set_aggregate_keys (<[i := c]> (aggregate_keys (ks_device w))) (drawn 1 (ks_device w))).
  split.
  { unfold on_keys, saveAggregateKey, reads, mbind, js_bind. by rewrite Hm, encrypt_fresh_run, Hc. }
  split; [split_and!; [done|done|by apply (entropy_ok_drawn 1)]|]. split; [done|].
  by apply (decrypt_encrypt _ _ _ _ _ (proj1 (He 0)) Hk Hc).
Qed.

(** Saving keys under distinct names: each is sealed, the others stay. *)
Lemma save_all_ready l mk w :
  NoDup l.*1 -> Forall (fun '(_, k) => k <> []) l -> ready mk (ks_device w) ->
  exists d, save_all l w = (Ok tt, KeyStore d (identity_keys w)) /\ ready mk d /\
    forall i, match (list_to_map l : gmap string (list Z)) !! i with
              | Some k => exists blob, aggregate_keys d !! i = Some blob /\ decrypt blob mk None = Ok k
              | None => aggregate_keys d !! i = aggregate_keys (ks_device w) !! i
              end.
Proof.
  revert w. induction l as [|[i k] l IH]; intros w Hn Hl Hr; simpl in *.
  { exists (ks_device w). by destruct w. }
  apply NoDup_cons in Hn as [Hi Hn]. apply Forall_cons in Hl as [Hk Hl].
  destruct (save_one_ready i k mk w Hr Hk) as (blob & d & -> & Hd & Ha & Hb).
  destruct (IH (KeyStore d (identity_keys w)) Hn Hl Hd) as (d' & -> & Hd' & Hs). exists d'. split; [done|].
  split; [done|]. intros j. specialize (Hs j). simpl in Hs. destruct (decide (i = j)) as [->|Hj].
  - rewrite lookup_insert_eq. rewrite (not_elem_of_list_to_map_1 l j Hi) in Hs.
    exists blob. by rewrite Hs, Ha, lookup_insert_eq.
  - rewrite lookup_insert_ne by done. destruct (_ !! j); [done|]. by rewrite Hs, Ha, lookup_insert_ne.
Qed.

Lemma save_identity_ready u keys mk w : ready mk (ks_device w) -> identity_bytes keys ->
  exists blob d, saveIdentityKeys u keys w = (Ok tt, KeyStore d (put_record u blob (identity_keys w))) /\ ready mk d /\
    aggregate_keys d = aggregate_keys (ks_device w) /\ open_identity mk blob = Ok keys.
Proof.
  intros (Hm & Hs & He) Hk. pose proof (payload_nonempty keys) as Hp.
  destruct (Hs (ivs (ks_device w) 0) _ (proj1 (He 0)) Hp) as [c Hc].
  exists c, (drawn 1 (ks_device w)). split.
  { unfold saveIdentityKeys, with_master, getMasterKey. rewrite Hm. unfold on_keys, mbind, js_bind.
    by rewrite encrypt_fresh_run, Hc. }
  split; [split_and!; [done|done|by apply (entropy_ok_drawn 1)]|]. split; [done|].
  unfold open_identity. rewrite (decrypt_encrypt _ _ _ _ _ (proj1 (He 0)) Hp Hc). simpl. by apply payload_roundtrip.
Qed.

(** What the backup [b] of a device says of it. *)
Lemma export_spec w mk b : masterKey (ks_device w) = Some mk -> export w = Ok b ->
  exists am, bk_aggregateKeys b = Some am /\ opened mk (aggregate_keys (ks_device w)) am /\
    match identity_keys w with
    | [] => bk_userId b = None /\ bk_identityKeys b = None
    | (u, blob) :: _ => exists keys, bk_userId b = Some u /\ bk_identityKeys b = Some keys /\
        open_identity mk blob = Ok keys /\ identity_bytes keys
    end.
Proof.
  unfold export, getMasterKey. intros -> Hb. destruct (export_aggregates _ _) as [am|] eqn:Ea; [|done]. simpl in Hb.
  apply export_opened in Ea. exists am. destruct (identity_keys w) as [|[u blob] l]; [by simplify_eq|].
  destruct (open_identity mk blob) as [keys|] eqn:Ek; simplify_eq/=. split; [done|]. split; [done|].
  exists keys. split_and!; try done. unfold open_identity in Ek. destruct (lift_error _); [|done].
  by eapply parse_identity_bytes.
Qed.

(** The identities of a device after the import of [b]. *)
Definition identities_of (mk : list Z) (b : KeyBackup) (l : list (string * list Z)) : Prop :=
  match bk_identityKeys b with
  | None => l = []
  | Some keys => exists u blob, bk_userId b = Some u /\ l = [(u, blob)] /\ open_identity mk blob = Ok keys
  end.

Definition importable (b : KeyBackup) (am : gmap string (list Z)) : Prop :=
  bk_aggregateKeys b = Some am /\ map_Forall (fun _ k => k <> []) am /\
  forall keys, bk_identityKeys b = Some keys -> is_blank (bk_userId b) = false /\ identity_bytes keys.

Lemma import_ready b am mk w : importable b am -> ready mk (ks_device w) ->
  exists w', importKeys b w = (Ok tt, w') /\ masterKey (ks_device w') = Some mk /\
    opened mk (aggregate_keys (ks_device w')) am /\ identities_of mk b (identity_keys w').
Proof.
  intros (Ha & Hne & Hid) (Hm & Hs & He). unfold importKeys, clearAll, modify, mbind at 1, js_bind at 1.
  set (w0 := KeyStore (set_aggregate_keys ∅ (ks_device w)) []).
  assert (ready mk (ks_device w0)) as Hr0 by done.
  assert (exists d ids, import_identity b w0 = (Ok tt, KeyStore d ids) /\ ready mk d /\ aggregate_keys d = ∅ /\
    identities_of mk b ids) as (d & ids & Hi & Hd & Hd0 & Hids).
  { unfold import_identity, identities_of. destruct (bk_identityKeys b) as [keys|].
    2: { by exists (ks_device w0), []. }
    destruct (Hid keys eq_refl) as [Hb Hk]. rewrite Hb. destruct (bk_userId b) as [u|]; [|done]. simpl.
    destruct (save_identity_ready u keys mk w0 Hr0 Hk) as (blob & d & -> & Hd & Hag & Ho).
    exists d, [(u, blob)]. split_and!; try done. by exists u, blob. }
  unfold mbind, js_bind. rewrite Hi, Ha.
  destruct (save_all_ready (map_to_list am) mk (KeyStore d ids)) as (d' & -> & (Hm' & _) & Hag).
  { apply NoDup_fst_map_to_list. }
  { apply Forall_forall. intros [i k] Hk%elem_of_map_to_list. by apply (Hne i). }
  { done. }
  eexists. split; [done|]. simpl. split; [done|]. split; [|done]. intros i. specialize (Hag i). simpl in Hag.
  rewrite list_to_map_to_list in Hag. destruct (am !! i) as [k|].
  - destruct Hag as (blob & -> & Hb). by constructor.
  - rewrite Hag, Hd0, lookup_empty. constructor.
Qed.

(** C39: restoring a backup, on any device with a master key of its own: what [exportKeys]
    gave of one device is accepted, every aggregate key then reads as it did on the first
    device, the user of the backup has its identity keys and no other user has any, and
    exporting again gives the same backup. The backup carries the identity of one user only;
    a blank user name or an empty key could not be restored. *)
Theorem backup_restores w mk b w' mk' :
  masterKey (ks_device w) = Some mk -> export w = Ok b ->
  (forall i k, stored_key i (ks_device w) = Ok (Some k) -> k <> []) ->
  (forall u blob l, identity_keys w = (u, blob) :: l -> is_blank (Some u) = false) ->
  ready mk' (ks_device w') ->
  exists w2, importKeys b w' = (Ok tt, w2) /\
    (forall i, stored_key i (ks_device w2) = stored_key i (ks_device w)) /\
    (forall u, getIdentityKeys u w2 = (Ok (if decide (bk_userId b = Some u) then bk_identityKeys b else None), w2)) /\
    export w2 = Ok b.
Proof.
  intros Hm Hb Hne Hblank Hr. destruct (export_spec w mk b Hm Hb) as (am & Ha & Ho & Hid).
  assert (importable b am) as Himp.
  { split; [done|]. split.
    - intros i k Hk. apply (Hne i). by rewrite (stored_key_opened mk _ am i Hm Ho), Hk.
    - intros keys Hk. destruct (identity_keys w) as [|[u blob] l]; [destruct Hid; congruence|].
      destruct Hid as (keys' & -> & ? & _ & ?). simplify_eq. split; [by eapply Hblank|done]. }
  destruct (import_ready b am mk' w' Himp Hr) as (w2 & Hi & Hm2 & Ho2 & Hids). exists w2. split; [done|].
  split; [intros i; by rewrite (stored_key_opened mk _ am i Hm Ho), (stored_key_opened mk' _ am i Hm2 Ho2)|].
  unfold getIdentityKeys, with_master, reads, export, getMasterKey. rewrite Hm2.
  rewrite (proj2 (export_opened mk' _ am) Ho2). unfold identities_of in Hids.
  destruct (bk_identityKeys b) as [keys|] eqn:Ek.
  - destruct Hids as (u & blob & Hu & -> & Hop). rewrite Hu. simpl. rewrite Hop.
    split; [|destruct b; simpl in *; congruence]. intros v. simpl.
    destruct (decide (Some u = Some v)) as [[= ->]|Hv]; [by rewrite decide_True by done; rewrite Hop|].
    rewrite decide_False; [done|congruence].
  - rewrite Hids. simpl. destruct (identity_keys w) as [|[u blob] l].
    + destruct Hid as [Hu _]. rewrite Hu. split; [done|]. destruct b; simpl in *; congruence.
    + by destruct Hid as (? & ? & ? & _).
Qed.
(** C40: a refused import empties the key store. [validateImportUserKeysCommand] looks at
    every key of the backup but not at its user; [importKeys] clears both stores and only
    then looks at the user and at the master key. So a command that was accepted, with a
    backup that names no user or on a device whose master key is not set, ends in an error
    after every identity key and every aggregate key was deleted, and those of the backup
    were not stored. *)
Theorem refused_import_empties c v w :
  validateImportUserKeysCommand c = Ok v ->
  is_blank (raw_userId (vi_backup v)) = true \/ masterKey (ks_device w) = None ->
  handleImportKeys v w =
    (Err (plain (if is_blank (raw_userId (vi_backup v)) then "Backup missing userId" else "Master key not set")),
     KeyStore (set_aggregate_keys ∅ (ks_device w)) []).
Proof.
  intros (_ & i & _ & Hi & _)%import_command_accepts Hbad.
  unfold handleImportKeys, importKeys, clearAll, modify, mbind, js_bind, import_identity. simpl. rewrite Hi. simpl.
  destruct (is_blank (raw_userId (vi_backup v))); [done|]. destruct Hbad as [|Hm]; [done|].
  unfold saveIdentityKeys, with_master, getMasterKey. simpl. by rewrite Hm.
Qed.

End Backup.
End KeyBackupProperties.

(** ** Witnesses *)

Module KeyBackupWitnesses.
Import IndexedDBKeyStore UserCommands ApplicationLemmas KeyBackupProperties.

#[local] Instance toy_service : CryptoServicePort := WebCryptoService.service ToyGcm.toy.

Definition master (n : Z) : list Z := replicate 32 n.
Definition empty_device (mk : option (list Z)) : key_store :=
  KeyStore (Device empty_db ∅ mk ∅ ∅ ∅ (fun _ => replicate 12 0%Z) (fun _ => [])) [].
Definition alice_keys : IdentityKeys := Identity [1; 2; 3]%Z [4]%Z [5; 255]%Z [].

(** A device with an identity and two aggregate keys, and its backup. *)
Definition filled : key_store :=
  snd ((_ ← saveIdentityKeys "alice" alice_keys;
   _ ← on_keys (saveAggregateKey "g1" [10; 11]%Z);
   on_keys (saveAggregateKey "g2" [12]%Z)) (empty_device (Some (master 7)))).
Definition alice_backup : KeyBackup := Backup (Some "alice") (Some alice_keys)
  (Some (<["g1" := [10; 11]%Z]> (<["g2" := [12]%Z]> ∅))).

Lemma ready_empty n : ready (master n) (ks_device (empty_device (Some (master n)))).
Proof.
  split_and!; [done| |intros k; split; [done|by apply (bool_decide_unpack _)]].
  intros iv p _ _. by eexists.
Qed.

Lemma filled_keys i k : stored_key i (ks_device filled) = Ok (Some k) -> k <> [].
Proof.
  intros H ->. destruct (export_spec filled (master 7) alice_backup eq_refl) as (am & Ha & Ho & _); [vm_compute; reflexivity|].
  rewrite (stored_key_opened (master 7) (ks_device filled) am i) in H by (exact Ho || reflexivity). injection Ha as <-. injection H as H.
  apply lookup_insert_Some in H as [[_ H]|[_ H]]; [done|]. by apply lookup_insert_Some in H as [[_ H]|[_ H]].
Qed.

(** A device with another master key takes over the keys of [filled]. *)
Lemma backup_restores_witness :
  exists w2, importKeys alice_backup (empty_device (Some (master 9))) = (Ok tt, w2) /\
    stored_key "g1" (ks_device w2) = Ok (Some [10; 11]%Z) /\ export w2 = Ok alice_backup.
Proof.
  destruct (backup_restores filled (master 7) alice_backup (empty_device (Some (master 9))) (master 9)) as (w2 & H1 & H2 & _ & H3).
  - reflexivity.
  - vm_compute. reflexivity.
  - exact filled_keys.
  - vm_compute. by intros ? ? ? [= <- <- <-].
  - exact (ready_empty 9).
  - exists w2. split; [exact H1|]. split; [rewrite H2; vm_compute; reflexivity|exact H3].
Defined.

Definition raw_alice : raw_identity := RawIdentity (Some [1]%Z) (Some [2]%Z) (Some [3]%Z) (Some [4]%Z).
Definition nobody : ImportUserKeysCommand :=
  ImportUserKeys "alice" (Some (RawBackup None (Some raw_alice) (Some [("g3", Some [7]%Z)]))) (num 1000).
Definition accepted : option ValidatedImportUserKeysCommand :=
  match validateImportUserKeysCommand nobody with Ok v => Some v | Err _ => None end.

(** The backup names no user: it is accepted, and [filled] loses its keys. *)
Lemma refused_import_empties_witness :
  exists v, validateImportUserKeysCommand nobody = Ok v /\
    (handleImportKeys v filled).1 = Err (plain "Backup missing userId") /\
    aggregate_keys (ks_device (handleImportKeys v filled).2) = ∅ /\
    aggregate_keys (ks_device filled) <> ∅.
Proof.
  destruct accepted as [v|] eqn:E; [|vm_compute in E; discriminate].
  assert (validateImportUserKeysCommand nobody = Ok v) as Hv.
  { unfold accepted in E. destruct (validateImportUserKeysCommand nobody); [congruence|discriminate]. }
  exists v. split; [exact Hv|].
  assert (is_blank (raw_userId (vi_backup v)) = true) as Hb by (vm_compute in E; injection E as <-; reflexivity).
  rewrite (refused_import_empties nobody v filled Hv (or_introl Hb)). rewrite Hb. split; [reflexivity|].
  split; [reflexivity|]. intros H. by apply (f_equal (lookup "g2")) in H.
Defined.

(** A command at the start of the epoch is refused without an error. *)
Example timestamp_zero :
  validateImportUserKeysCommand (ImportUserKeys "alice" (iu_backup nobody) (num 0)) = Err [].
Proof. vm_compute. reflexivity. Qed.
End KeyBackupWitnesses.
